(* ===== verification/_CoqProject ===== *)
-Q . S2P
Prelude.v
Ring.v
Kernel.v
ReadyQueue.v
WaitQueue.v
Endpoint.v
Mpu.v
TaskTable.v
IpcSpec.v
Scheduler.v
Tickless.v
Preserve.v
System.v
CSpace.v
Sync.v
Timers.v
Mutex.v
Validator.v
Device.v
Text.v
Glob.v
AuditRing.v
AuditInv.v
Syscall.v
SyscallInv.v
Dll.v
Heap.v
HeapInv.v
HeapOps.v
HeapSpec.v
Pools.v
Pte.v
Frames.v
PageTable.v
PageTableInv.v
PageTableOps.v
Vasp.v
AddressSpace.v
Mmu.v
MmuInv.v
AuditLog.v
SecMon.v
Stealth.v
Firewall.v
FwParser.v
FwParserInv.v
FwInv.v
RamFs.v
Vfs.v
Flash.v
Photon.v
PhotonInv.v
Aho.v
AhoInv.v
Ids.v
Hids.v
Response.v
Boot.v
Queues.v
CapClaims.v
MutexClaims.v
TimerClaims.v
DeviceClaims.v
SyscallClaims.v
IpcClaims.v
SchedClaims.v
Lifecycle.v
HeapClaims.v
PoolClaims.v
MmuClaims.v
AuditClaims.v
SecMonClaims.v
FwClaims.v
VfsClaims.v
PhotonClaims.v
IdsClaims.v
HidsClaims.v
ResponseClaims.v
BootClaims.v
QueueClaims.v
