(* ===== verification/Prelude.v ===== *)
(** * AuroraOS: kernel, memory, files and network security, verified

    AuroraOS is a capability-based real-time operating system: a kernel (C++ under
    src/kernel, src/boot and src/arch), file systems (src/vfs, src/services/vfs),
    network security (src/net, src/security) above it and a boot loader
    (src/bootloader) below.  This library models the
    kernel in the configuration of the 32-bit Cortex-M build (16 tasks, 1000 Hz
    tick), the MMU subsystem of the 64-bit AArch64 build, the audit and monitoring
    parts, the virtual file system with its memory file and flash cache, the packet
    filter, the detection of and response to intrusions, and firmware update with
    secure boot, and proves what makes them correct.

    ** The program's parts and the files that model them

    The kernel's state is one record [Kernel] (Kernel.v) whose fields follow
    the C++ structures: the task control blocks with their five contexts, the
    ready-queue heads and bitmap, the endpoints, mutexes, timers, reference
    counts, the PendSV pointers and a byte-addressed memory.  A pointer to a task
    is the index of its control block, [None] is [nullptr]; other pointers are
    addresses.  Machine integers are [Z] with [wrap32]/[wrap8] where the C++
    arithmetic can wrap.  Every operation is a total function on the state; a
    critical section is one step.

    - Prelude.v: machine words, bit sets, indexed lists, memory, frames
      ([same_upto]: "changes nothing but ..."), hint databases.
    - Ring.v, ReadyQueue.v: the circular ready queues of src/kernel/task/task.hpp
      ([push_ready], [remove_ready], [set_task_state], [set_task_priority]) and
      their refinement to one FIFO list per priority.
    - WaitQueue.v: src/kernel/task/wait_queue.cpp, priority-ordered wait lists.
    - Endpoint.v, IpcSpec.v: src/kernel/core/ipc.cpp, synchronous IPC ([call],
      [receive], [reply], [cancel_waiter], [cancel_all]) with the invariant
      [ipc_ok] that ties the queues to the states of the tasks.
    - Mpu.v: src/kernel/mm/mpu.hpp, sealed sandbox descriptors.
    - TaskTable.v: task creation and destruction, initial stack frames.
    - Scheduler.v, Tickless.v, Preserve.v: [schedule], signals, sleeping, ticks,
      tickless compensation, and the invariant [kernel_ok].
    - System.v: the kernel as a transition system [kstep]; reachability.  Its IPC calls
      are made by tasks that are in no endpoint queue, which the code does not ensure:
      a signal wakes a task inside a wait ([signalled_waiter_corrupts_queue]).
    - CSpace.v: src/kernel/core/cspace.cpp and kernel_object.hpp, capability
      spaces with reference counts; [cap_state] is their invariant.
    - Mutex.v: src/kernel/core/mutex.hpp, recursive mutexes with priority
      inheritance, ceilings, held lists and deadlock detection.
    - Sync.v: src/kernel/core/semaphore.cpp, src/kernel/task/task_notify.hpp,
      src/kernel/scheduler/frame_scheduler_v2.hpp, watchdog_manager.hpp.
    - Timers.v: modules [Process] (src/kernel/core/process_timer.cpp) and [Soft]
      (src/kernel/interrupt/timer.hpp and [SysTick_Handler]).
    - Validator.v: src/kernel/core/syscall_validator.cpp.
    - Device.v: src/kernel/core/device.cpp, the device registry.
    - Syscall.v, SyscallInv.v: src/kernel/core/syscall_ipc.hpp and
      syscall_dispatcher.cpp: every handler with the audit hook it starts with
      ([AUDIT_HOOK_SVC]), the table and [SVC_Handler_C].
    - Dll.v, Heap.v, HeapInv.v, HeapOps.v, HeapSpec.v: src/kernel/mm/memory.hpp
      and memory.cpp, the TLSF heap: its code (Heap.v), size classes, bitmaps and
      free lists (HeapInv.v), the physical block list (HeapOps.v) and the abstract
      heap it refines (HeapSpec.v).
    - Pools.v: src/kernel/mm/memory_pool.hpp and page_allocator.hpp.
    - Queues.v: src/kernel/core/msg_queue.hpp and src/kernel/task/work_queue.hpp.
    - Lifecycle.v: src/kernel/task/app_lifecycle.hpp.
    - Pte.v, Frames.v, PageTable.v: page-table entries, the page allocator and the
      four-level tables of src/arch/arm/cortex-a/mmu ([AArch64MmuManager]), with
      their tree invariant (PageTableInv.v), the operations and
      destruction (PageTableOps.v).  Vasp.v is the interface of address spaces
      (src/kernel/mm/vasp.hpp) as a class with laws, AddressSpace.v the instance,
      Mmu.v and MmuInv.v the subsystem over it (src/kernel/mm/mmu.cpp).
    - Text.v: C strings and decimal numbers, shared by what follows.
    - Glob.v, AuditRing.v, AuditInv.v, AuditLog.v: src/kernel/core/audit.hpp, the
      wildcard matcher, the ring with its rules and the log file.
    - SecMon.v: src/kernel/core/security_monitor.hpp.
    - Stealth.v, Firewall.v, FwInv.v, FwParser.v, FwParserInv.v:
      src/net/stealth_identity.hpp and src/net/firewall, the packet filter and its
      command line.
    - RamFs.v, Vfs.v: src/vfs/ramfs.cpp, src/services/vfs/vfs_service.cpp and
      src/vfs/vfs.cpp; file systems are instances of the class [VNode].
    - Flash.v, Photon.v, PhotonInv.v: src/drivers/storage/flash_device.hpp and the
      write-back cache of src/vfs/photon_cache.hpp.
    - Aho.v, AhoInv.v: the signature matcher of src/security/ids/signature_db.hpp.
    - Ids.v: the rest of src/security/ids: alerts, frame parsing, statistics,
      detectors, engine.
    - Hids.v: src/security/hids: file integrity and the scans of tasks,
      capabilities and heap.
    - Response.v: src/security/response: blocks, quarantine, snapshots, policy and
      the loop that polls the alerts.
    - Boot.v: src/bootloader/boot_main.cpp and src/kernel/core/ota.cpp: staging an
      image in flash, verifying it, copying it and starting it, with power loss.

    The theorems about the program are in the files named ...Claims.v, one per
    group of components (and at the end of Lifecycle.v); the other files hold the
    definitions and the lemmas.

    ** How the parts interact

    A system call ([dispatch]) records itself in the audit engine (AuditRing), whose
    rules may terminate the caller, validates its pointers (Validator), looks up a
    capability (CSpace) and calls the endpoint, timer, signal or device
    operation; these change task states through [set_task_state] and
    [set_task_priority] (ReadyQueue) and end with [schedule] (Scheduler), which
    only pends PendSV: on Cortex-M a handler runs to its end before the switch.
    Message and work queues are built on the semaphores, suspension of an
    application on the mutexes.  The heap, the pools and the pages are values of
    their own beside [Kernel]: no operation of the kernel model calls them.  A
    block header lives in a map keyed by its address; clients write only inside
    the memory they were given.

    The audit engine, the security monitor and the quarantine act on the kernel
    through [set_task_state] alone, so its invariant carries over to them.  The
    monitor reads the heap's counters; flood protection, intrusion detection and
    response report to it.  The VFS works over the class [VNode], with the promises
    of regular files as the class [RegularFiles]; the file-integrity scan reads
    through the VFS client, the heap scan is the heap's own integrity walk.  The
    response turns alerts of the two detectors into rules of the packet filter.
    The updater and the boot loader share only the flash: one stages an image in
    partition B, the other finds it there at the next start.

    ** What the theorems show

    - Scheduling: the invariant holds in every reachable state of [kstep]; the rings refine
      FIFO lists; [schedule] switches to the highest allowed ready task when that is not the
      running one; tickless
      compensation equals single ticks; SIGKILL cannot be masked.
    - IPC: delivery to the first matching partner, priority inheritance and its
      restoration, authority of replies, cancellation releases everyone.
    - Capabilities: no operation on any slots creates authority; references are conserved
      by all operations but those of a slot onto itself;
      grant attenuates, revoke is complete, allocation and lookup round trip.
    - Mutexes: held lists are exact, the wait-for graph stays acyclic, deadlock
      detection is exact, unlocking restores priorities and wakes the best waiter.
    - Timers, semaphores, notifications: firing is exact, timers are private, the
      daemon terminates when its callbacks take no tick, tokens are conserved, notifications round trip.
    - System calls: every call of a task in no endpoint queue keeps the invariants, calls
      without authority change nothing but the audit record (and its punishment), validated ranges and written bytes are permitted.
    - Devices: registration, lookup and removal round trip.
    - Memory: for requests within the size classes live heap blocks are aligned,
      disjoint and inside the region, the headers, free lists and bitmaps refine a list of blocks, releasing
      everything restores the heap, the integrity scan ends; pages and pool slots
      are handed out at most once.
    - Queues: with one producer and one consumer a message queue is FIFO under
      every interleaving; work items run in order, with no lost wake-up.
    - Applications: suspension releases exactly the application's mutexes.
    - Address spaces: the tables refine a partial map from pages to pages and
      flags, an operation leaves all other address spaces alone, destruction
      returns every page.
    - Audit and monitoring: up to 2^31 records the ring is the end of an unbounded log, rules select
      exactly what their filters and patterns say, only offenders are punished; a
      silent task is caught and the watchdog withheld, and nobody else is touched.
    - Firewall: the verdict is the conjunction of its stages, accepted segments
      follow a SYN, floods are limited, commands round trip, reads stay in the
      frame.
    - Files: a path resolves to the longest mount, what is written is read back,
      the memory file is a list of bytes whichever of its allocations fail, the cache is transparent and its sync
      complete, word programming equals byte programming.
    - Intrusion detection: the automaton finds exactly the first and longest
      pattern, alert storms are aggregated, frames are read in bounds, a
      scan reports exactly the changed files of the table, a round of the host scans ends.
    - Response: with room in the tables the source of a severe alert stays cut off for a
      minute whatever else happens, lifting a block restores every verdict, and the kernel's
      invariant is kept.
    - Update and boot: whenever power fails, and however often, one partition keeps
      verified firmware and the next start finds it; a staged update is installed when no flash command fails;
      staging writes partition B alone, and what it accepts verifies.
    - Where the code does not do what it means to, a theorem states what it does
      (for example [running_task_preempted_by_idle], [blocked_call_reports_ok],
      [derive_onto_itself_destroys], [zero_period_spins], [long_names_lost],
      [huge_request_granted], [double_free_after_merge_accepted],
      [two_producers_lose_message], [page_double_free],
      [remap_replaces_kernel_page], [wrapped_log_not_newest_first],
      [watchdog_fed_again], [two_addresses_misparsed], [long_path_opens_prefix],
      [erase_race_exposes_stale], [write_outside_wedges], [quiet_window_blinds],
      [long_path_unwatched], [exchange_unreported], [storm_handled_once],
      [forged_arp_blocks_victim], [full_table_blocks_nothing],
      [short_reads_overrun], [signalled_waiter_corrupts_queue],
      [audit_termination_undone], [slow_callback_spins], [delete_number_wraps]).
      The doc comment of each theorem names the conditions under which it holds, and
      where the code goes wrong outside them.

    ** Parameters

    User signal handlers, timer callbacks, drivers, VFS mounting and page-table
    translation are code outside the kernel: arguments or type classes ([Arch],
    [AddressSpaces], [Drivers]), with the laws a theorem needs as classes
    ([GoodHandlers], [GoodDrivers]) that have instances.  The success and the
    contents of dynamic allocation, the IPC round trip to a service, the cycle
    counter, the uninitialised stack and what other threads do while the cache
    loads a page are arguments too, as is the signature check of the
    boot loader.  The flash controller is a class with laws ([FlashController],
    [FlashLaws]; [Reliable], that no command times out, for the installation of an
    update only), and what a torn command leaves behind is part of it.  [tick_count]
    is an argument of every operation that reads it; what is printed is appended to a console.

    ** Bounds and fuel

    Loops over linked structures carry fuel that the invariants show sufficient:
    16 for tasks and wait-for chains, the task count for queues, 32 for the bits
    of a mask, 2^20+1 rounds for the page loop (then the index wraps), the number
    of mutexes for a held list.  The timer daemon's loop is proved to end within
    [tick + 2] scans, the heap's integrity scan within one step per 32 bytes.  The
    heap theorems take regions below 2^25 bytes and requests of at most 32505824
    bytes, the range of the size classes.  Page loops take one round per page, the
    cache one per byte at most, doubling of a buffer at most 31, the wildcard
    matcher a bound computed from pattern and path, erasing one round per page and
    copying firmware one per word, decimal printing 16 digits; the
    automaton walks at most 192 edges and 96 nodes, the numbers it has, and the
    invariants show that no bound is reached before the walk ends.

    ** Not modelled

    The power manager, libc and POSIX wrappers, procfs
    and the other file systems (littlefs and softbus are third-party or remote), the
    network stack (lwIP) and its services, wireless, BLE and scanner tools, the
    drivers but the simulated flash, user interface, applications and AI services,
    the user-space system-call stubs and the other architectures: code that is
    mostly hardware access or foreign libraries, or that sits on top of the
    interfaces verified here without changing their state. *)
From stdpp Require Export base list gmap.
From Stdlib Require Export ZArith Lia.

Declare Scope aurora_scope.
Delimit Scope aurora_scope with aurora.
#[global] Open Scope Z_scope.

(** * Machine integers *)

(** [uint32_t] arithmetic wraps modulo [2^32]. *)
Definition wrap32 (x : Z) : Z := x mod 4294967296.
Definition wrap8 (x : Z) : Z := x mod 256.
Definition u32_max : Z := 4294967295.
Definition is_u32 (x : Z) : Prop := 0 <= x < 4294967296.

Lemma wrap32_small x : is_u32 x -> wrap32 x = x.
Proof. intros. unfold wrap32. apply Z.mod_small. exact H. Qed.

Lemma wrap32_range x : is_u32 (wrap32 x).
Proof. unfold wrap32, is_u32. apply Z.mod_pos_bound. lia. Qed.

(** * Bit sets in machine words *)

(** [1u << n], [m | (1u << n)], [m & ~(1u << n)], [m & (1u << n)]. *)
Definition bit (n : Z) : Z := Z.shiftl 1 n.
Definition bit_set (m n : Z) : Z := Z.lor m (bit n).
Definition bit_clear (m n : Z) : Z := Z.land m (Z.lnot (bit n)).
Definition bit_test (m n : Z) : bool := negb (Z.land m (bit n) =? 0).

Lemma bit_testbit n j : 0 <= n -> Z.testbit (bit n) j = (n =? j).
Proof.
  intros Hn. unfold bit. rewrite Z.shiftl_1_l.
  destruct (Z.eqb_spec n j) as [->|Hne].
  - by apply Z.pow2_bits_true.
  - by apply Z.pow2_bits_false.
Qed.

Lemma bit_set_testbit m n j :
  0 <= n -> Z.testbit (bit_set m n) j = (n =? j) || Z.testbit m j.
Proof. intros. unfold bit_set. by rewrite Z.lor_spec, bit_testbit, orb_comm. Qed.

Lemma bit_clear_testbit m n j :
  0 <= n -> 0 <= j -> Z.testbit (bit_clear m n) j = negb (n =? j) && Z.testbit m j.
Proof.
  intros. unfold bit_clear.
  by rewrite Z.land_spec, Z.lnot_spec, bit_testbit, andb_comm by done.
Qed.

Lemma bit_test_testbit m n : 0 <= n -> bit_test m n = Z.testbit m n.
Proof.
  intros Hn. unfold bit_test.
  destruct (Z.testbit m n) eqn:E.
  - apply negb_true_iff, Z.eqb_neq. intros Hz.
    assert (Z.testbit (Z.land m (bit n)) n = false) as Hf by (rewrite Hz; apply Z.bits_0).
    rewrite Z.land_spec, E, bit_testbit, Z.eqb_refl in Hf by done. done.
  - apply negb_false_iff, Z.eqb_eq. apply Z.bits_inj_0. intros j.
    rewrite Z.land_spec, bit_testbit by done.
    destruct (Z.eqb_spec n j) as [->|]; [by rewrite E|by rewrite andb_false_r].
Qed.

(** A word whose set bits all lie below [w] is below [2^w]. *)
Lemma bits_bound m w :
  0 <= m -> 0 <= w -> (forall j, w <= j -> Z.testbit m j = false) -> m < 2 ^ w.
Proof.
  intros Hm Hw Hb. destruct (Z.eq_dec m 0) as [->|Hne]; [apply Z.pow_pos_nonneg; lia|].
  apply Z.log2_lt_pow2; [lia|].
  destruct (Z.lt_ge_cases (Z.log2 m) w) as [|Hge]; [done|].
  specialize (Hb _ Hge). rewrite Z.bit_log2 in Hb by lia. done.
Qed.

Lemma bits_above m w j : 0 <= m < 2 ^ w -> w <= j -> Z.testbit m j = false.
Proof.
  intros [Hm Hlt] Hj. destruct (Z.eq_dec m 0) as [->|]; [apply Z.bits_0|].
  apply Z.bits_above_log2; [done|].
  apply Z.log2_lt_pow2 in Hlt; lia.
Qed.

Lemma bit_set_range m n w :
  0 <= m < 2 ^ w -> 0 <= n < w -> 0 <= bit_set m n < 2 ^ w.
Proof.
  intros Hm Hn. assert (0 <= bit_set m n).
  { unfold bit_set. apply Z.lor_nonneg. split; [lia|]. unfold bit. apply Z.shiftl_nonneg. lia. }
  split; [done|]. apply bits_bound; [done|lia|]. intros j Hj.
  rewrite bit_set_testbit by lia. rewrite (bits_above m w j) by done.
  destruct (Z.eqb_spec n j); [lia|done].
Qed.

Lemma bit_clear_range m n w :
  0 <= m < 2 ^ w -> 0 <= n < w -> 0 <= bit_clear m n < 2 ^ w.
Proof.
  intros Hm Hn. assert (0 <= bit_clear m n).
  { unfold bit_clear. apply Z.land_nonneg. lia. }
  split; [done|]. apply bits_bound; [done|lia|]. intros j Hj.
  rewrite bit_clear_testbit by lia. by rewrite (bits_above m w j), andb_false_r.
Qed.

(** [Arch::find_highest_bit] and [Arch::find_lowest_bit]
    (kernel/core/arch_api.hpp): CLZ and CTZ searches, -1 on an empty word. *)
Definition find_highest_bit (m : Z) : Z := if m =? 0 then -1 else Z.log2 m.

Fixpoint pos_ctz (p : positive) : Z :=
  match p with
  | xO q => 1 + pos_ctz q
  | _ => 0
  end.

Definition find_lowest_bit (m : Z) : Z :=
  match m with
  | Zpos p => pos_ctz p
  | _ => -1
  end.

Lemma find_highest_bit_spec m :
  0 < m ->
  0 <= find_highest_bit m /\ Z.testbit m (find_highest_bit m) = true /\
  forall j, find_highest_bit m < j -> Z.testbit m j = false.
Proof.
  intros Hm. unfold find_highest_bit. destruct (Z.eqb_spec m 0); [lia|].
  split; [apply Z.log2_nonneg|]. split; [by apply Z.bit_log2|].
  intros j Hj. apply Z.bits_above_log2; lia.
Qed.

Lemma find_highest_bit_unique m p :
  0 < m -> Z.testbit m p = true -> (forall j, p < j -> Z.testbit m j = false) ->
  find_highest_bit m = p.
Proof.
  intros Hm Hp Habove. destruct (find_highest_bit_spec m Hm) as (H0 & H1 & H2).
  destruct (Z.lt_trichotomy (find_highest_bit m) p) as [Hlt|[Heq|Hgt]]; [|done|].
  - specialize (H2 _ Hlt). congruence.
  - specialize (Habove _ Hgt). congruence.
Qed.

Lemma pos_ctz_spec p :
  0 <= pos_ctz p /\ Z.testbit (Zpos p) (pos_ctz p) = true /\
  forall j, 0 <= j < pos_ctz p -> Z.testbit (Zpos p) j = false.
Proof.
  induction p as [p _|p IH|]; cbn [pos_ctz].
  - split; [lia|]. split; [done|]. lia.
  - destruct IH as (H0 & H1 & H2).
    rewrite Pos2Z.inj_xO. split; [lia|]. split.
    + rewrite Z.add_1_l, Z.double_bits_succ. done.
    + intros j Hj. destruct (Z.eq_dec j 0) as [->|]; [by rewrite Z.testbit_even_0|].
      replace j with (Z.succ (j - 1)) by lia.
      rewrite Z.double_bits_succ. apply H2. lia.
  - split; [lia|]. split; [done|]. lia.
Qed.

Lemma find_lowest_bit_spec m :
  0 < m ->
  0 <= find_lowest_bit m /\ Z.testbit m (find_lowest_bit m) = true /\
  forall j, 0 <= j < find_lowest_bit m -> Z.testbit m j = false.
Proof. intros Hm. destruct m as [|p|p]; [lia| |lia]. apply pos_ctz_spec. Qed.

Lemma bits_nonzero m p : 0 <= m -> Z.testbit m p = true -> 0 < m.
Proof.
  intros H0 H. destruct (Z.eq_dec m 0) as [->|]; [by rewrite Z.bits_0 in H|lia].
Qed.

(** * Arrays indexed by machine integers *)

(** [a[i]] and an in-place update of [a[i]]; an index outside the array reads
    the default element and writes nothing. *)
Section Arrays.
Context {A : Type} `{!Inhabited A}.

Definition zlookup (l : list A) (i : Z) : A :=
  if 0 <=? i then l !!! Z.to_nat i else inhabitant.

Definition zalter (f : A -> A) (i : Z) (l : list A) : list A :=
  if 0 <=? i then alter f (Z.to_nat i) l else l.

Definition in_range (l : list A) (i : Z) : Prop := 0 <= i < Z.of_nat (length l).

Lemma length_zalter f i l : length (zalter f i l) = length l.
Proof. unfold zalter. destruct (0 <=? i); [apply length_alter|done]. Qed.

Lemma zlookup_zalter_eq f i l :
  in_range l i -> zlookup (zalter f i l) i = f (zlookup l i).
Proof.
  intros [H0 H1]. unfold zlookup, zalter.
  destruct (Z.leb_spec 0 i); [|lia].
  destruct (lookup_lt_is_Some_2 l (Z.to_nat i)) as [x Hx]; [lia|].
  rewrite !list_lookup_total_alt, list_lookup_alter, decide_True by done.
  by rewrite Hx.
Qed.

Lemma zlookup_zalter_ne f i j l :
  i <> j -> zlookup (zalter f i l) j = zlookup l j.
Proof.
  intros Hne. unfold zlookup, zalter.
  destruct (Z.leb_spec 0 i), (Z.leb_spec 0 j); try done.
  rewrite !list_lookup_total_alt, list_lookup_alter_ne by lia. done.
Qed.

Lemma zlookup_zalter f i j l :
  in_range l i ->
  zlookup (zalter f i l) j = if decide (i = j) then f (zlookup l j) else zlookup l j.
Proof.
  intros Hr. destruct (decide (i = j)) as [<-|Hne].
  - by apply zlookup_zalter_eq.
  - by apply zlookup_zalter_ne.
Qed.

Lemma zlookup_Some l i x : 0 <= i -> l !! Z.to_nat i = Some x -> zlookup l i = x.
Proof.
  intros H0 Hx. unfold zlookup. destruct (Z.leb_spec 0 i); [|lia].
  by rewrite list_lookup_total_alt, Hx.
Qed.
End Arrays.

(** * Byte-addressed memory *)

(** Memory maps addresses to bytes; unmapped bytes read as 0.  Pointers are
    addresses, [nullptr] is 0. *)
Definition nullptr : Z := 0.

Definition load8 (m : gmap Z Z) (a : Z) : Z := default 0 (m !! a).
Definition store8 (m : gmap Z Z) (a v : Z) : gmap Z Z := <[a := v]> m.

Definition load32 (m : gmap Z Z) (a : Z) : Z :=
  load8 m a + 256 * load8 m (a + 1) + 65536 * load8 m (a + 2) + 16777216 * load8 m (a + 3).

Definition store32 (m : gmap Z Z) (a v : Z) : gmap Z Z :=
  store8 (store8 (store8 (store8 m a (v mod 256)) (a + 1) (v / 256 mod 256))
    (a + 2) (v / 65536 mod 256)) (a + 3) (v / 16777216 mod 256).

(** The byte loops [for (i = 0; i < len; ++i) dst[i] = src[i]]. *)
Fixpoint copy_loop (n : nat) (i dst src : Z) (m : gmap Z Z) : gmap Z Z :=
  match n with
  | O => m
  | S n => copy_loop n (i + 1) dst src (store8 m (dst + i) (load8 m (src + i)))
  end.

Definition copy_bytes (len dst src : Z) (m : gmap Z Z) : gmap Z Z :=
  copy_loop (Z.to_nat len) 0 dst src m.

Lemma load8_store8 m a v b : load8 (store8 m a v) b = if decide (a = b) then v else load8 m b.
Proof. unfold load8, store8. rewrite lookup_insert. by case_decide. Qed.

Lemma load32_store32 m a v : is_u32 v -> load32 (store32 m a v) a = v.
Proof.
  intros Hv. unfold load32, store32.
  rewrite !load8_store8. repeat (case_decide; try lia).
  unfold is_u32 in Hv. Z.to_euclidean_division_equations. lia.
Qed.

Lemma copy_loop_spec n i dst src m b :
  (forall x y, i <= x < i + Z.of_nat n -> i <= y < i + Z.of_nat n -> dst + x <> src + y) ->
  load8 (copy_loop n i dst src m) b =
  if decide (dst + i <= b < dst + i + Z.of_nat n) then load8 m (src + (b - dst)) else load8 m b.
Proof.
  revert i m. induction n as [|n IH]; intros i m Hdis; cbn [copy_loop].
  - case_decide; [lia|done].
  - rewrite IH by (intros; apply Hdis; lia).
    destruct (decide (b = dst + i)) as [->|Hb].
    + rewrite (decide_False (P := dst + (i + 1) <= _ < _)) by lia.
      rewrite (decide_True (P := dst + i <= _ < _)) by lia.
      rewrite load8_store8, decide_True by done. f_equal. lia.
    + destruct (decide (dst + i <= b < dst + i + Z.of_nat (S n))) as [Hin|Hout].
      * rewrite decide_True by lia. rewrite load8_store8, decide_False; [done|].
        specialize (Hdis i (b - dst)). lia.
      * rewrite decide_False by lia. rewrite load8_store8, decide_False by lia. done.
Qed.

(** Copying between disjoint buffers transfers exactly [len] bytes and touches
    nothing else. *)
Lemma copy_bytes_spec len dst src m b :
  0 <= len -> (dst + len <= src \/ src + len <= dst) ->
  load8 (copy_bytes len dst src m) b =
  if decide (dst <= b < dst + len) then load8 m (src + (b - dst)) else load8 m b.
Proof.
  intros H0 Hdis. unfold copy_bytes. rewrite copy_loop_spec by lia.
  rewrite Z.add_0_r, Z2Nat.id by lia. done.
Qed.

(** * Sums over finite index lists *)

Definition zsum {A} (f : A -> Z) (l : list A) : Z := foldr (fun x a => f x + a) 0 l.

Lemma zsum_ext {A} (f g : A -> Z) l : (forall x, x ∈ l -> f x = g x) -> zsum f l = zsum g l.
Proof.
  intros H. induction l as [|x l IH]; [done|]. cbn. rewrite (H x) by set_solver.
  unfold zsum in IH. rewrite IH by set_solver. done.
Qed.

Lemma zsum_nonneg {A} (f : A -> Z) l : (forall x, 0 <= f x) -> 0 <= zsum f l.
Proof. intros H. induction l as [|x l IH]; cbn; [lia|]. specialize (H x). unfold zsum in IH. lia. Qed.

Lemma zsum_member {A} (f : A -> Z) l x : (forall x, 0 <= f x) -> x ∈ l -> f x <= zsum f l.
Proof.
  intros H. induction l as [|y l IH]; [set_solver|]. cbn. pose proof (zsum_nonneg f l H) as H0.
  unfold zsum in *. pose proof (H y). intros [->|Hx]%elem_of_cons; [lia|]. specialize (IH Hx). lia.
Qed.

(** Changing the summand at one index. *)
Lemma zsum_update {A} (f g : A -> Z) l x :
  NoDup l -> x ∈ l -> (forall y, y ∈ l -> y <> x -> g y = f y) -> zsum g l = zsum f l - f x + g x.
Proof.
  intros Hnd Hx H. induction Hnd as [|y l Hy Hnd IH]; [set_solver|]. cbn.
  change (g y + zsum g l = f y + zsum f l - f x + g x).
  apply elem_of_cons in Hx as [->|Hx].
  - rewrite (zsum_ext g f); [lia|]. intros z Hz. apply H; [set_solver|]. congruence.
  - rewrite IH by set_solver. rewrite (H y); [lia|set_solver|congruence].
Qed.

(** * Automation *)

Create HintDb aurora.
#[export] Hint Resolve wrap32_range bit_set_range bit_clear_range : aurora.

(** Case analysis on the boolean comparisons of the code. *)
Ltac case_bool :=
  match goal with
  | |- context [Z.leb ?a ?b] => destruct (Z.leb_spec a b)
  | |- context [Z.ltb ?a ?b] => destruct (Z.ltb_spec a b)
  | |- context [Z.eqb ?a ?b] => destruct (Z.eqb_spec a b)
  end.

Ltac zbool := repeat case_bool; try lia.
