(* ===== verification/Ring.v ===== *)
(** Circular doubly linked lists over index functions.

    The scheduler links ready tasks through the [next_ready]/[prev_ready]
    indices of their control blocks.  This file gives the abstract reading of
    such links: [ring nx pv l] says that following [nx] from the head of [l]
    visits exactly [l] and returns to the head, and that [pv] inverts [nx]. *)
From S2P Require Import Prelude.

Section Ring.
Implicit Types (nx pv : Z -> Z) (l : list Z).

(** Consecutive elements are linked both ways. *)
Fixpoint chain nx pv l : Prop :=
  match l with
  | a :: ((b :: _) as t) => nx a = b /\ pv b = a /\ chain nx pv t
  | _ => True
  end.

Definition ring nx pv l : Prop :=
  match l with
  | [] => True
  | x :: t => chain nx pv (x :: t ++ [x])
  end.

Lemma chain_cons nx pv a b t :
  chain nx pv (a :: b :: t) <-> nx a = b /\ pv b = a /\ chain nx pv (b :: t).
Proof. done. Qed.

Lemma chain_app nx pv l1 a l2 :
  chain nx pv (l1 ++ a :: l2) <-> chain nx pv (l1 ++ [a]) /\ chain nx pv (a :: l2).
Proof.
  induction l1 as [|x l1 IH].
  { cbn [app]. change (chain nx pv [a]) with True. naive_solver. }
  destruct l1 as [|y l1].
  { cbn [app]. rewrite !chain_cons. change (chain nx pv [a]) with True. naive_solver. }
  rewrite <- !app_comm_cons in IH |- *. rewrite !chain_cons, IH. naive_solver.
Qed.

(** Only the successor of all but the last and the predecessor of all but
    the first element matter. *)
Lemma chain_ext nx pv nx' pv' l :
  (forall a, a ∈ l -> nx' a = nx a) -> (forall a, a ∈ l -> pv' a = pv a) ->
  chain nx pv l -> chain nx' pv' l.
Proof.
  induction l as [|a [|b t] IH]; intros Hn Hp; [done|done|].
  rewrite !chain_cons. intros (H1 & H2 & H3).
  split; [rewrite Hn; set_solver|]. split; [rewrite Hp; set_solver|].
  apply IH; set_solver.
Qed.

Lemma chain_ext_strong nx pv nx' pv' a t z :
  (forall x, x ∈ a :: t -> nx' x = nx x) ->
  (forall x, x ∈ t ++ [z] -> pv' x = pv x) ->
  chain nx pv (a :: t ++ [z]) -> chain nx' pv' (a :: t ++ [z]).
Proof.
  revert a. induction t as [|b t IH]; intros a Hn Hp.
  - cbn. intros (H1 & H2 & _). rewrite Hn, Hp by set_solver. done.
  - rewrite <- app_comm_cons, !chain_cons. intros (H1 & H2 & H3).
    split; [rewrite Hn; set_solver|]. split; [rewrite Hp; set_solver|].
    apply IH; [set_solver|set_solver|done].
Qed.

Lemma ring_ext nx pv nx' pv' l :
  (forall a, a ∈ l -> nx' a = nx a) -> (forall a, a ∈ l -> pv' a = pv a) ->
  ring nx pv l -> ring nx' pv' l.
Proof.
  destruct l as [|x t]; [done|]. intros Hn Hp. cbn [ring].
  apply chain_ext; set_solver.
Qed.

Lemma ring_rotate nx pv x t : ring nx pv (x :: t) -> ring nx pv (t ++ [x]).
Proof.
  destruct t as [|y t]; [done|]. cbn [ring app]. intros H.
  rewrite chain_cons in H. destruct H as (H1 & H2 & H3).
  rewrite <- app_assoc. cbn [app].
  change (y :: t ++ [x; y]) with ((y :: t) ++ [x; y]).
  rewrite chain_app. split; [done|]. cbn. done.
Qed.

Lemma ring_rotate_app nx pv l1 l2 : ring nx pv (l1 ++ l2) -> ring nx pv (l2 ++ l1).
Proof.
  revert l2. induction l1 as [|x l1 IH]; intros l2 H.
  - by rewrite app_nil_r.
  - rewrite cons_middle, app_assoc. apply IH.
    rewrite <- app_comm_cons in H. apply ring_rotate in H. by rewrite <- app_assoc in H.
Qed.

(** Successor and predecessor of the head of a ring. *)
Lemma ring_next_head nx pv x y t : ring nx pv (x :: y :: t) -> nx x = y /\ pv y = x.
Proof. cbn [ring app]. rewrite chain_cons. naive_solver. Qed.

Lemma ring_prev_head nx pv x t z :
  ring nx pv (x :: t) -> last (x :: t) = Some z -> pv x = z /\ nx z = x.
Proof.
  intros H Hl. apply last_Some in Hl as [l' Hl].
  cbn [ring] in H. change (x :: t ++ [x]) with ((x :: t) ++ [x]) in H.
  rewrite Hl, <- app_assoc in H. cbn [app] in H. rewrite chain_app in H.
  cbn in H. naive_solver.
Qed.

Lemma ring_singleton nx pv x : ring nx pv [x] <-> nx x = x /\ pv x = x.
Proof. cbn. naive_solver. Qed.

(** A ring whose head is its own successor has one element. *)
Lemma ring_self_next nx pv x t :
  NoDup (x :: t) -> ring nx pv (x :: t) -> nx x = x -> t = [].
Proof.
  destruct t as [|y t]; [done|]. intros Hnd H Hx.
  apply ring_next_head in H as [H _]. apply NoDup_cons in Hnd as [Hnd _]. set_solver.
Qed.

(** Appending [i] between the tail [z] and the head [x] of a ring. *)
Lemma ring_append nx pv nx' pv' x t z i :
  ring nx pv (x :: t) -> NoDup (x :: t) -> last (x :: t) = Some z -> i ∉ x :: t ->
  (forall a, nx' a = if decide (a = i) then x else if decide (a = z) then i else nx a) ->
  (forall a, pv' a = if decide (a = x) then i else if decide (a = i) then z else pv a) ->
  ring nx' pv' (x :: t ++ [i]).
Proof.
  intros H Hnd Hl Hi Hn Hp.
  assert (Hix : i <> x) by set_solver.
  apply last_Some in Hl as [l' Hl]. cbn [ring] in H |- *.
  assert (Hz : z ∈ x :: t) by (rewrite Hl; set_solver).
  assert (Hzi : z <> i) by set_solver.
  change (x :: (t ++ [i]) ++ [x]) with ((x :: t ++ [i]) ++ [x]).
  rewrite app_comm_cons, Hl, <- !app_assoc. cbn [app].
  change (x :: t ++ [x]) with ((x :: t) ++ [x]) in H.
  rewrite Hl, <- app_assoc in H. cbn [app] in H.
  rewrite Hl in Hnd. apply NoDup_app in Hnd as (Hnd & Hd & _).
  rewrite chain_app in H |- *. destruct H as [H _]. split.
  - destruct l' as [|a l']; [done|].
    assert (a = x) as -> by (by injection Hl).
    apply (chain_ext_strong nx pv); [| |done].
    + intros y Hy. rewrite Hn, !decide_False; [done| |]; intros ->.
      * by apply (Hd z Hy), list_elem_of_singleton.
      * apply Hi. rewrite Hl. set_solver.
    + intros y Hy. rewrite Hp, !decide_False; [done| |]; intros ->.
      * apply Hi. rewrite Hl. set_solver.
      * apply NoDup_cons in Hnd as [Hnx _]. apply elem_of_app in Hy as [?|Hy]; [done|].
        apply list_elem_of_singleton in Hy as <-. apply (Hd x); set_solver.
  - rewrite !chain_cons, !Hn, !Hp.
    repeat case_decide; congruence || done.
Qed.

(** Unlinking the head [x] of a ring with at least two elements. *)
Lemma ring_unlink nx pv nx' pv' x y t z :
  ring nx pv (x :: y :: t) -> NoDup (x :: y :: t) -> last (y :: t) = Some z ->
  (forall a, a ∈ y :: t -> nx' a = if decide (a = z) then y else nx a) ->
  (forall a, a ∈ y :: t -> pv' a = if decide (a = y) then z else pv a) ->
  ring nx' pv' (y :: t).
Proof.
  intros H Hnd Hl Hn Hp. cbn [ring app] in H. rewrite chain_cons in H.
  destruct H as (_ & _ & H). apply NoDup_cons in Hnd as [Hx Hnd].
  apply last_Some in Hl as [l' Hl].
  cbn [ring]. change (y :: t ++ [y]) with ((y :: t) ++ [y]).
  change (y :: t ++ [x]) with ((y :: t) ++ [x]) in H.
  rewrite Hl in Hnd. apply NoDup_app in Hnd as (Hnd & Hd & _).
  assert (Hzin : z ∈ y :: t) by (rewrite Hl; set_solver).
  rewrite Hl, <- app_assoc in H |- *. cbn [app] in H |- *.
  rewrite chain_app in H |- *. destruct H as [H _]. split.
  - destruct l' as [|a l']; [done|].
    assert (a = y) as -> by (by injection Hl).
    apply (chain_ext_strong nx pv); [| |done].
    + intros w Hw. rewrite Hn, decide_False; [done| |].
      * intros ->. by apply (Hd z Hw), list_elem_of_singleton.
      * rewrite Hl. set_solver.
    + intros w Hw. rewrite Hp, decide_False; [done| |].
      * intros ->. apply NoDup_cons in Hnd as [Hnx _].
        apply elem_of_app in Hw as [?|Hw]; [done|].
        apply list_elem_of_singleton in Hw as <-. apply (Hd y); set_solver.
      * rewrite Hl. set_solver.
  - rewrite chain_cons, Hn, Hp by (set_solver). by rewrite !decide_True by done.
Qed.
End Ring.
