(* ===== verification/Kernel.v ===== *)
(** The kernel state shared by the scheduler, IPC, capability, synchronisation
    and timer components.

    The records follow the structs of kernel/task/task.hpp,
    kernel/core/{cspace,ipc,mutex,semaphore,process_timer}.hpp,
    kernel/interrupt/timer.hpp and kernel/scheduler/frame_scheduler_v2.hpp
    field by field.  A [TaskControlBlock*] into [Scheduler::tasks] is an index
    ([None] is [nullptr]), an [Endpoint*] or [Mutex*] is a key of the store
    that holds the object, a data pointer is an address of [mem]. *)
From S2P Require Import Prelude.

(** * Constants of the build (config/autoconf.h and task.hpp) *)

Definition MAX_TASKS : Z := 16.
Definition TICK_RATE_HZ : Z := 1000.
Definition NUM_PRIORITIES : Z := 32.
Definition STACK_CANARY : Z := 3735928559. (* 0xDEADBEEF *)
Definition MAX_CSPACE_SLOTS : Z := 16.
Definition NUM_SIG_ACTIONS : Z := 16.
Definition SIGKILL : Z := 9.
Definition SIGALRM : Z := 14.
Definition SA_RESETHAND : Z := 1.
Definition SA_NODEFER : Z := 2.

(** [TaskPriority] is an [enum class : uint8_t] used through casts from and to
    [uint8_t]; the model keeps the underlying integer.  The levels the kernel
    names: *)
Definition Prio_Idle : Z := 0.
Definition Prio_Low : Z := 4.
Definition Prio_Normal : Z := 8.
Definition Prio_High : Z := 16.
Definition Prio_Realtime : Z := 31.

(** * Enumerations *)

(** [enum class TaskState]. *)
Inductive TaskState := Ready | Running | Sleeping | Blocked_On_Notify | Terminated | Suspended | Unallocated.
#[export] Instance TaskState_eq_dec : EqDecision TaskState.
Proof. solve_decision. Defined.
#[export] Instance TaskState_inhabited : Inhabited TaskState := populate Unallocated.

(** [enum class IpcState]. *)
Inductive IpcState := IpcReady | Receiving | ReplyBlocked | Sending.
#[export] Instance IpcState_eq_dec : EqDecision IpcState.
Proof. solve_decision. Defined.
#[export] Instance IpcState_inhabited : Inhabited IpcState := populate IpcReady.

(** [enum class IpcStatus]. *)
Inductive IpcStatus := IpcOk | IpcTimeout | IpcWouldBlock | IpcInvalid | IpcNoPermission | IpcReceiverDead.
#[export] Instance IpcStatus_eq_dec : EqDecision IpcStatus.
Proof. solve_decision. Defined.
#[export] Instance IpcStatus_inhabited : Inhabited IpcStatus := populate IpcOk.

(** [enum class CapType]. *)
Inductive CapType := CapNull | CapEndpoint | CapThread | CapMemory | CapDevice.
#[export] Instance CapType_eq_dec : EqDecision CapType.
Proof. solve_decision. Defined.
#[export] Instance CapType_inhabited : Inhabited CapType := populate CapNull.

(** [enum class TimerType] (kernel/interrupt/timer.hpp). *)
Inductive TimerType := OneShot | Periodic.
#[export] Instance TimerType_eq_dec : EqDecision TimerType.
Proof. solve_decision. Defined.
#[export] Instance TimerType_inhabited : Inhabited TimerType := populate OneShot.

(** A [KernelObject*]: a task control block, an endpoint, or another object
    (a device or memory region) of the object store. *)
Inductive ObjRef := ObjTask (i : Z) | ObjEndpoint (e : Z) | ObjOther (o : Z).
#[export] Instance ObjRef_eq_dec : EqDecision ObjRef.
Proof. solve_decision. Defined.
#[export] Instance ObjRef_inhabited : Inhabited ObjRef := populate (ObjOther 0).

(** * Capabilities and signals *)

(** [struct CapRights], without its padding bits. *)
Record CapRights := mkRights {
  right_read : bool;
  right_write : bool;
  right_grant : bool;
}.

#[export] Instance CapRights_inhabited : Inhabited CapRights :=
  populate (mkRights false false false).

(** [struct Capability]. *)
Record Capability := mkCap {
  cap_type : CapType;
  cap_rights : CapRights;
  cap_badge : Z;
  cap_object : option ObjRef;
}.

#[export] Instance Capability_inhabited : Inhabited Capability :=
  populate (mkCap inhabitant inhabitant 0 inhabitant).

Definition set_cap_type (v : CapType) (r : Capability) : Capability :=
  mkCap v (cap_rights r) (cap_badge r) (cap_object r).
Definition set_cap_rights (v : CapRights) (r : Capability) : Capability :=
  mkCap (cap_type r) v (cap_badge r) (cap_object r).
Definition set_cap_badge (v : Z) (r : Capability) : Capability :=
  mkCap (cap_type r) (cap_rights r) v (cap_object r).
Definition set_cap_object (v : option ObjRef) (r : Capability) : Capability :=
  mkCap (cap_type r) (cap_rights r) (cap_badge r) v.

(** [struct SignalAction]. *)
Record SignalAction := mkAction {
  sa_handler : Z; (* nullptr = default *)
  sa_mask : Z;
  sa_flags : Z;
}.

#[export] Instance SignalAction_inhabited : Inhabited SignalAction :=
  populate (mkAction 0 0 0).

Definition set_sa_handler (v : Z) (r : SignalAction) : SignalAction :=
  mkAction v (sa_mask r) (sa_flags r).
Definition set_sa_mask (v : Z) (r : SignalAction) : SignalAction :=
  mkAction (sa_handler r) v (sa_flags r).
Definition set_sa_flags (v : Z) (r : SignalAction) : SignalAction :=
  mkAction (sa_handler r) (sa_mask r) v.

(** [struct SandboxDescriptor] (kernel/mm/mpu.hpp). *)
Record SandboxDescriptor := mkSandbox {
  sd_stack_base : Z;
  sd_size_pow2 : Z;
  sd_subregion_disable : Z;
  sd_version : Z;
  sd_crc32 : Z;
}.

#[export] Instance SandboxDescriptor_inhabited : Inhabited SandboxDescriptor :=
  populate (mkSandbox 0 0 0 0 0).

Definition set_sd_stack_base (v : Z) (r : SandboxDescriptor) : SandboxDescriptor :=
  mkSandbox v (sd_size_pow2 r) (sd_subregion_disable r) (sd_version r) (sd_crc32 r).
Definition set_sd_size_pow2 (v : Z) (r : SandboxDescriptor) : SandboxDescriptor :=
  mkSandbox (sd_stack_base r) v (sd_subregion_disable r) (sd_version r) (sd_crc32 r).
Definition set_sd_subregion_disable (v : Z) (r : SandboxDescriptor) : SandboxDescriptor :=
  mkSandbox (sd_stack_base r) (sd_size_pow2 r) v (sd_version r) (sd_crc32 r).
Definition set_sd_version (v : Z) (r : SandboxDescriptor) : SandboxDescriptor :=
  mkSandbox (sd_stack_base r) (sd_size_pow2 r) (sd_subregion_disable r) v (sd_crc32 r).
Definition set_sd_crc32 (v : Z) (r : SandboxDescriptor) : SandboxDescriptor :=
  mkSandbox (sd_stack_base r) (sd_size_pow2 r) (sd_subregion_disable r) (sd_version r) v.

(** * The task control block *)

(** [struct TaskContext]. *)
Record TaskContext := mkTaskContext {
  stack_ptr : Z;
  privilege : Z;
  entry_point : Z;
  errno_val : Z;
  stack_canary_ptr : Z;
}.

#[export] Instance TaskContext_inhabited : Inhabited TaskContext :=
  populate (mkTaskContext 0 0 0 0 0).

(** [struct SchedulerContext]. *)
Record SchedulerContext := mkSchedulerContext {
  sched_state : TaskState;
  sched_id : Z;
  sleep_ticks : Z;
  base_priority : Z;
  current_priority : Z;
  next_ready : Z;
  prev_ready : Z;
  held_mutexes : option Z;
  waiting_on_mutex : option Z;
}.

#[export] Instance SchedulerContext_inhabited : Inhabited SchedulerContext :=
  populate (mkSchedulerContext inhabitant 0 0 0 0 0 0 inhabitant inhabitant).

(** [struct MemoryContext]. *)
Record MemoryContext := mkMemoryContext {
  stack_base : Z;
  size_pow2 : Z;
  subregion_disable : Z;
  mpu_sandbox : SandboxDescriptor;
  pgdir_base : Z;
  vasp : Z;
}.

#[export] Instance MemoryContext_inhabited : Inhabited MemoryContext :=
  populate (mkMemoryContext 0 0 0 inhabitant 0 0).

(** [struct IpcContext]. *)
Record IpcContext := mkIpcContext {
  ipc_state : IpcState;
  ipc_status : IpcStatus;
  blocked_next : option Z;
  msg_buf : Z;
  reply_buf : Z;
  msg_len : Z;
  max_len : Z;
  sender_id : Z;
  receiver_id : Z;
  badge : Z;
  msg_type : Z;
  label_filter : Z;
  notify_value : Z;
  notify_pending : bool;
  waiting_endpoint : option Z;
}.

#[export] Instance IpcContext_inhabited : Inhabited IpcContext :=
  populate (mkIpcContext inhabitant inhabitant inhabitant 0 0 0 0 0 0 0 0 0 0 false inhabitant).

(** [struct SecurityContext]. *)
Record SecurityContext := mkSecurityContext {
  cspace : list Capability;
  occupied_mask : Z;
  pending_signals : Z;
  signal_mask : Z;
  sig_actions : list SignalAction;
}.

#[export] Instance SecurityContext_inhabited : Inhabited SecurityContext :=
  populate (mkSecurityContext inhabitant 0 0 0 inhabitant).

(** [struct TaskControlBlock], with the [KernelObject] reference count of its base class. *)
Record TaskControlBlock := mkTCB {
  ref_count : Z;
  task : TaskContext;
  scheduler : SchedulerContext;
  memory : MemoryContext;
  ipc : IpcContext;
  security : SecurityContext;
}.

#[export] Instance TaskControlBlock_inhabited : Inhabited TaskControlBlock :=
  populate (mkTCB 0 inhabitant inhabitant inhabitant inhabitant inhabitant).

Definition set_ref_count (v : Z) (r : TaskControlBlock) : TaskControlBlock :=
  mkTCB v (task r) (scheduler r) (memory r) (ipc r) (security r).
Definition set_task (v : TaskContext) (r : TaskControlBlock) : TaskControlBlock :=
  mkTCB (ref_count r) v (scheduler r) (memory r) (ipc r) (security r).
Definition set_scheduler (v : SchedulerContext) (r : TaskControlBlock) : TaskControlBlock :=
  mkTCB (ref_count r) (task r) v (memory r) (ipc r) (security r).
Definition set_memory (v : MemoryContext) (r : TaskControlBlock) : TaskControlBlock :=
  mkTCB (ref_count r) (task r) (scheduler r) v (ipc r) (security r).
Definition set_ipc (v : IpcContext) (r : TaskControlBlock) : TaskControlBlock :=
  mkTCB (ref_count r) (task r) (scheduler r) (memory r) v (security r).
Definition set_security (v : SecurityContext) (r : TaskControlBlock) : TaskControlBlock :=
  mkTCB (ref_count r) (task r) (scheduler r) (memory r) (ipc r) v.

(** Field assignments [tcb.<context>.<field> = v]. *)

Definition on_task (f : TaskContext -> TaskContext) (t : TaskControlBlock) : TaskControlBlock :=
  set_task (f (task t)) t.
Definition on_scheduler (f : SchedulerContext -> SchedulerContext) (t : TaskControlBlock) : TaskControlBlock :=
  set_scheduler (f (scheduler t)) t.
Definition on_memory (f : MemoryContext -> MemoryContext) (t : TaskControlBlock) : TaskControlBlock :=
  set_memory (f (memory t)) t.
Definition on_ipc (f : IpcContext -> IpcContext) (t : TaskControlBlock) : TaskControlBlock :=
  set_ipc (f (ipc t)) t.
Definition on_security (f : SecurityContext -> SecurityContext) (t : TaskControlBlock) : TaskControlBlock :=
  set_security (f (security t)) t.
Definition set_stack_ptr (v : Z) : TaskControlBlock -> TaskControlBlock :=
  on_task (fun r => mkTaskContext v (privilege r) (entry_point r) (errno_val r) (stack_canary_ptr r)).
Definition set_privilege (v : Z) : TaskControlBlock -> TaskControlBlock :=
  on_task (fun r => mkTaskContext (stack_ptr r) v (entry_point r) (errno_val r) (stack_canary_ptr r)).
Definition set_entry_point (v : Z) : TaskControlBlock -> TaskControlBlock :=
  on_task (fun r => mkTaskContext (stack_ptr r) (privilege r) v (errno_val r) (stack_canary_ptr r)).
Definition set_errno_val (v : Z) : TaskControlBlock -> TaskControlBlock :=
  on_task (fun r => mkTaskContext (stack_ptr r) (privilege r) (entry_point r) v (stack_canary_ptr r)).
Definition set_stack_canary_ptr (v : Z) : TaskControlBlock -> TaskControlBlock :=
  on_task (fun r => mkTaskContext (stack_ptr r) (privilege r) (entry_point r) (errno_val r) v).
Definition set_sched_state (v : TaskState) : TaskControlBlock -> TaskControlBlock :=
  on_scheduler (fun r => mkSchedulerContext v (sched_id r) (sleep_ticks r) (base_priority r) (current_priority r) (next_ready r) (prev_ready r) (held_mutexes r) (waiting_on_mutex r)).
Definition set_sched_id (v : Z) : TaskControlBlock -> TaskControlBlock :=
  on_scheduler (fun r => mkSchedulerContext (sched_state r) v (sleep_ticks r) (base_priority r) (current_priority r) (next_ready r) (prev_ready r) (held_mutexes r) (waiting_on_mutex r)).
Definition set_sleep_ticks (v : Z) : TaskControlBlock -> TaskControlBlock :=
  on_scheduler (fun r => mkSchedulerContext (sched_state r) (sched_id r) v (base_priority r) (current_priority r) (next_ready r) (prev_ready r) (held_mutexes r) (waiting_on_mutex r)).
Definition set_base_priority (v : Z) : TaskControlBlock -> TaskControlBlock :=
  on_scheduler (fun r => mkSchedulerContext (sched_state r) (sched_id r) (sleep_ticks r) v (current_priority r) (next_ready r) (prev_ready r) (held_mutexes r) (waiting_on_mutex r)).
Definition set_current_priority (v : Z) : TaskControlBlock -> TaskControlBlock :=
  on_scheduler (fun r => mkSchedulerContext (sched_state r) (sched_id r) (sleep_ticks r) (base_priority r) v (next_ready r) (prev_ready r) (held_mutexes r) (waiting_on_mutex r)).
Definition set_next_ready (v : Z) : TaskControlBlock -> TaskControlBlock :=
  on_scheduler (fun r => mkSchedulerContext (sched_state r) (sched_id r) (sleep_ticks r) (base_priority r) (current_priority r) v (prev_ready r) (held_mutexes r) (waiting_on_mutex r)).
Definition set_prev_ready (v : Z) : TaskControlBlock -> TaskControlBlock :=
  on_scheduler (fun r => mkSchedulerContext (sched_state r) (sched_id r) (sleep_ticks r) (base_priority r) (current_priority r) (next_ready r) v (held_mutexes r) (waiting_on_mutex r)).
Definition set_held_mutexes (v : option Z) : TaskControlBlock -> TaskControlBlock :=
  on_scheduler (fun r => mkSchedulerContext (sched_state r) (sched_id r) (sleep_ticks r) (base_priority r) (current_priority r) (next_ready r) (prev_ready r) v (waiting_on_mutex r)).
Definition set_waiting_on_mutex (v : option Z) : TaskControlBlock -> TaskControlBlock :=
  on_scheduler (fun r => mkSchedulerContext (sched_state r) (sched_id r) (sleep_ticks r) (base_priority r) (current_priority r) (next_ready r) (prev_ready r) (held_mutexes r) v).
Definition set_stack_base (v : Z) : TaskControlBlock -> TaskControlBlock :=
  on_memory (fun r => mkMemoryContext v (size_pow2 r) (subregion_disable r) (mpu_sandbox r) (pgdir_base r) (vasp r)).
Definition set_size_pow2 (v : Z) : TaskControlBlock -> TaskControlBlock :=
  on_memory (fun r => mkMemoryContext (stack_base r) v (subregion_disable r) (mpu_sandbox r) (pgdir_base r) (vasp r)).
Definition set_subregion_disable (v : Z) : TaskControlBlock -> TaskControlBlock :=
  on_memory (fun r => mkMemoryContext (stack_base r) (size_pow2 r) v (mpu_sandbox r) (pgdir_base r) (vasp r)).
Definition set_mpu_sandbox (v : SandboxDescriptor) : TaskControlBlock -> TaskControlBlock :=
  on_memory (fun r => mkMemoryContext (stack_base r) (size_pow2 r) (subregion_disable r) v (pgdir_base r) (vasp r)).
Definition set_pgdir_base (v : Z) : TaskControlBlock -> TaskControlBlock :=
  on_memory (fun r => mkMemoryContext (stack_base r) (size_pow2 r) (subregion_disable r) (mpu_sandbox r) v (vasp r)).
Definition set_vasp (v : Z) : TaskControlBlock -> TaskControlBlock :=
  on_memory (fun r => mkMemoryContext (stack_base r) (size_pow2 r) (subregion_disable r) (mpu_sandbox r) (pgdir_base r) v).
Definition set_ipc_state (v : IpcState) : TaskControlBlock -> TaskControlBlock :=
  on_ipc (fun r => mkIpcContext v (ipc_status r) (blocked_next r) (msg_buf r) (reply_buf r) (msg_len r) (max_len r) (sender_id r) (receiver_id r) (badge r) (msg_type r) (label_filter r) (notify_value r) (notify_pending r) (waiting_endpoint r)).
Definition set_ipc_status (v : IpcStatus) : TaskControlBlock -> TaskControlBlock :=
  on_ipc (fun r => mkIpcContext (ipc_state r) v (blocked_next r) (msg_buf r) (reply_buf r) (msg_len r) (max_len r) (sender_id r) (receiver_id r) (badge r) (msg_type r) (label_filter r) (notify_value r) (notify_pending r) (waiting_endpoint r)).
Definition set_blocked_next (v : option Z) : TaskControlBlock -> TaskControlBlock :=
  on_ipc (fun r => mkIpcContext (ipc_state r) (ipc_status r) v (msg_buf r) (reply_buf r) (msg_len r) (max_len r) (sender_id r) (receiver_id r) (badge r) (msg_type r) (label_filter r) (notify_value r) (notify_pending r) (waiting_endpoint r)).
Definition set_msg_buf (v : Z) : TaskControlBlock -> TaskControlBlock :=
  on_ipc (fun r => mkIpcContext (ipc_state r) (ipc_status r) (blocked_next r) v (reply_buf r) (msg_len r) (max_len r) (sender_id r) (receiver_id r) (badge r) (msg_type r) (label_filter r) (notify_value r) (notify_pending r) (waiting_endpoint r)).
Definition set_reply_buf (v : Z) : TaskControlBlock -> TaskControlBlock :=
  on_ipc (fun r => mkIpcContext (ipc_state r) (ipc_status r) (blocked_next r) (msg_buf r) v (msg_len r) (max_len r) (sender_id r) (receiver_id r) (badge r) (msg_type r) (label_filter r) (notify_value r) (notify_pending r) (waiting_endpoint r)).
Definition set_msg_len (v : Z) : TaskControlBlock -> TaskControlBlock :=
  on_ipc (fun r => mkIpcContext (ipc_state r) (ipc_status r) (blocked_next r) (msg_buf r) (reply_buf r) v (max_len r) (sender_id r) (receiver_id r) (badge r) (msg_type r) (label_filter r) (notify_value r) (notify_pending r) (waiting_endpoint r)).
Definition set_max_len (v : Z) : TaskControlBlock -> TaskControlBlock :=
  on_ipc (fun r => mkIpcContext (ipc_state r) (ipc_status r) (blocked_next r) (msg_buf r) (reply_buf r) (msg_len r) v (sender_id r) (receiver_id r) (badge r) (msg_type r) (label_filter r) (notify_value r) (notify_pending r) (waiting_endpoint r)).
Definition set_sender_id (v : Z) : TaskControlBlock -> TaskControlBlock :=
  on_ipc (fun r => mkIpcContext (ipc_state r) (ipc_status r) (blocked_next r) (msg_buf r) (reply_buf r) (msg_len r) (max_len r) v (receiver_id r) (badge r) (msg_type r) (label_filter r) (notify_value r) (notify_pending r) (waiting_endpoint r)).
Definition set_receiver_id (v : Z) : TaskControlBlock -> TaskControlBlock :=
  on_ipc (fun r => mkIpcContext (ipc_state r) (ipc_status r) (blocked_next r) (msg_buf r) (reply_buf r) (msg_len r) (max_len r) (sender_id r) v (badge r) (msg_type r) (label_filter r) (notify_value r) (notify_pending r) (waiting_endpoint r)).
Definition set_badge (v : Z) : TaskControlBlock -> TaskControlBlock :=
  on_ipc (fun r => mkIpcContext (ipc_state r) (ipc_status r) (blocked_next r) (msg_buf r) (reply_buf r) (msg_len r) (max_len r) (sender_id r) (receiver_id r) v (msg_type r) (label_filter r) (notify_value r) (notify_pending r) (waiting_endpoint r)).
Definition set_msg_type (v : Z) : TaskControlBlock -> TaskControlBlock :=
  on_ipc (fun r => mkIpcContext (ipc_state r) (ipc_status r) (blocked_next r) (msg_buf r) (reply_buf r) (msg_len r) (max_len r) (sender_id r) (receiver_id r) (badge r) v (label_filter r) (notify_value r) (notify_pending r) (waiting_endpoint r)).
Definition set_label_filter (v : Z) : TaskControlBlock -> TaskControlBlock :=
  on_ipc (fun r => mkIpcContext (ipc_state r) (ipc_status r) (blocked_next r) (msg_buf r) (reply_buf r) (msg_len r) (max_len r) (sender_id r) (receiver_id r) (badge r) (msg_type r) v (notify_value r) (notify_pending r) (waiting_endpoint r)).
Definition set_notify_value (v : Z) : TaskControlBlock -> TaskControlBlock :=
  on_ipc (fun r => mkIpcContext (ipc_state r) (ipc_status r) (blocked_next r) (msg_buf r) (reply_buf r) (msg_len r) (max_len r) (sender_id r) (receiver_id r) (badge r) (msg_type r) (label_filter r) v (notify_pending r) (waiting_endpoint r)).
Definition set_notify_pending (v : bool) : TaskControlBlock -> TaskControlBlock :=
  on_ipc (fun r => mkIpcContext (ipc_state r) (ipc_status r) (blocked_next r) (msg_buf r) (reply_buf r) (msg_len r) (max_len r) (sender_id r) (receiver_id r) (badge r) (msg_type r) (label_filter r) (notify_value r) v (waiting_endpoint r)).
Definition set_waiting_endpoint (v : option Z) : TaskControlBlock -> TaskControlBlock :=
  on_ipc (fun r => mkIpcContext (ipc_state r) (ipc_status r) (blocked_next r) (msg_buf r) (reply_buf r) (msg_len r) (max_len r) (sender_id r) (receiver_id r) (badge r) (msg_type r) (label_filter r) (notify_value r) (notify_pending r) v).
Definition set_cspace (v : list Capability) : TaskControlBlock -> TaskControlBlock :=
  on_security (fun r => mkSecurityContext v (occupied_mask r) (pending_signals r) (signal_mask r) (sig_actions r)).
Definition set_occupied_mask (v : Z) : TaskControlBlock -> TaskControlBlock :=
  on_security (fun r => mkSecurityContext (cspace r) v (pending_signals r) (signal_mask r) (sig_actions r)).
Definition set_pending_signals (v : Z) : TaskControlBlock -> TaskControlBlock :=
  on_security (fun r => mkSecurityContext (cspace r) (occupied_mask r) v (signal_mask r) (sig_actions r)).
Definition set_signal_mask (v : Z) : TaskControlBlock -> TaskControlBlock :=
  on_security (fun r => mkSecurityContext (cspace r) (occupied_mask r) (pending_signals r) v (sig_actions r)).
Definition set_sig_actions (v : list SignalAction) : TaskControlBlock -> TaskControlBlock :=
  on_security (fun r => mkSecurityContext (cspace r) (occupied_mask r) (pending_signals r) (signal_mask r) v).

(** * Kernel objects *)

(** [class WaitQueue] (kernel/task/wait_queue.hpp). *)
Record WaitQueue := mkWaitQueue {
  head_ : option Z;
  tail_ : option Z;
}.

#[export] Instance WaitQueue_inhabited : Inhabited WaitQueue :=
  populate (mkWaitQueue inhabitant inhabitant).

Definition set_head_ (v : option Z) (r : WaitQueue) : WaitQueue :=
  mkWaitQueue v (tail_ r).
Definition set_tail_ (v : option Z) (r : WaitQueue) : WaitQueue :=
  mkWaitQueue (head_ r) v.

(** [class Endpoint] (kernel/core/ipc.hpp). *)
Record Endpoint := mkEndpoint {
  ep_ref_count : Z;
  send_queue_ : WaitQueue;
  recv_queue_ : WaitQueue;
}.

#[export] Instance Endpoint_inhabited : Inhabited Endpoint :=
  populate (mkEndpoint 0 inhabitant inhabitant).

Definition set_ep_ref_count (v : Z) (r : Endpoint) : Endpoint :=
  mkEndpoint v (send_queue_ r) (recv_queue_ r).
Definition set_send_queue_ (v : WaitQueue) (r : Endpoint) : Endpoint :=
  mkEndpoint (ep_ref_count r) v (recv_queue_ r).
Definition set_recv_queue_ (v : WaitQueue) (r : Endpoint) : Endpoint :=
  mkEndpoint (ep_ref_count r) (send_queue_ r) v.

(** [class Mutex] (kernel/core/mutex.hpp). *)
Record Mutex := mkMutex {
  locked_ : bool;
  owner_ : option Z;
  recursive_count_ : Z;
  next_held_ : option Z;
  mutex_wait_mask_ : Z;
  ceiling_prio_ : Z;
}.

#[export] Instance Mutex_inhabited : Inhabited Mutex :=
  populate (mkMutex false inhabitant 0 inhabitant 0 0).

Definition set_locked_ (v : bool) (r : Mutex) : Mutex :=
  mkMutex v (owner_ r) (recursive_count_ r) (next_held_ r) (mutex_wait_mask_ r) (ceiling_prio_ r).
Definition set_owner_ (v : option Z) (r : Mutex) : Mutex :=
  mkMutex (locked_ r) v (recursive_count_ r) (next_held_ r) (mutex_wait_mask_ r) (ceiling_prio_ r).
Definition set_recursive_count_ (v : Z) (r : Mutex) : Mutex :=
  mkMutex (locked_ r) (owner_ r) v (next_held_ r) (mutex_wait_mask_ r) (ceiling_prio_ r).
Definition set_next_held_ (v : option Z) (r : Mutex) : Mutex :=
  mkMutex (locked_ r) (owner_ r) (recursive_count_ r) v (mutex_wait_mask_ r) (ceiling_prio_ r).
Definition set_mutex_wait_mask_ (v : Z) (r : Mutex) : Mutex :=
  mkMutex (locked_ r) (owner_ r) (recursive_count_ r) (next_held_ r) v (ceiling_prio_ r).
Definition set_ceiling_prio_ (v : Z) (r : Mutex) : Mutex :=
  mkMutex (locked_ r) (owner_ r) (recursive_count_ r) (next_held_ r) (mutex_wait_mask_ r) v.

(** [class Semaphore] (kernel/core/semaphore.hpp). *)
Record Semaphore := mkSemaphore {
  count_ : Z;
  wait_mask_ : Z;
}.

#[export] Instance Semaphore_inhabited : Inhabited Semaphore :=
  populate (mkSemaphore 0 0).

Definition set_count_ (v : Z) (r : Semaphore) : Semaphore :=
  mkSemaphore v (wait_mask_ r).
Definition set_wait_mask_ (v : Z) (r : Semaphore) : Semaphore :=
  mkSemaphore (count_ r) v.

(** [struct SoftwareTimer] (kernel/interrupt/timer.hpp). *)
Record SoftwareTimer := mkSoftwareTimer {
  st_active : bool;
  st_type : TimerType;
  st_expire_tick : Z;
  st_period_ticks : Z;
  st_callback : Z;
  st_arg : Z;
}.

#[export] Instance SoftwareTimer_inhabited : Inhabited SoftwareTimer :=
  populate (mkSoftwareTimer false inhabitant 0 0 0 0).

Definition set_st_active (v : bool) (r : SoftwareTimer) : SoftwareTimer :=
  mkSoftwareTimer v (st_type r) (st_expire_tick r) (st_period_ticks r) (st_callback r) (st_arg r).
Definition set_st_type (v : TimerType) (r : SoftwareTimer) : SoftwareTimer :=
  mkSoftwareTimer (st_active r) v (st_expire_tick r) (st_period_ticks r) (st_callback r) (st_arg r).
Definition set_st_expire_tick (v : Z) (r : SoftwareTimer) : SoftwareTimer :=
  mkSoftwareTimer (st_active r) (st_type r) v (st_period_ticks r) (st_callback r) (st_arg r).
Definition set_st_period_ticks (v : Z) (r : SoftwareTimer) : SoftwareTimer :=
  mkSoftwareTimer (st_active r) (st_type r) (st_expire_tick r) v (st_callback r) (st_arg r).
Definition set_st_callback (v : Z) (r : SoftwareTimer) : SoftwareTimer :=
  mkSoftwareTimer (st_active r) (st_type r) (st_expire_tick r) (st_period_ticks r) v (st_arg r).
Definition set_st_arg (v : Z) (r : SoftwareTimer) : SoftwareTimer :=
  mkSoftwareTimer (st_active r) (st_type r) (st_expire_tick r) (st_period_ticks r) (st_callback r) v.

(** [class TimerManager]. *)
Record TimerManager := mkTimerManager {
  timers_ : list SoftwareTimer;
  wakeup_sem_ : Semaphore;
  current_tick_ : Z;
}.

#[export] Instance TimerManager_inhabited : Inhabited TimerManager :=
  populate (mkTimerManager inhabitant inhabitant 0).

Definition set_timers_ (v : list SoftwareTimer) (r : TimerManager) : TimerManager :=
  mkTimerManager v (wakeup_sem_ r) (current_tick_ r).
Definition set_wakeup_sem_ (v : Semaphore) (r : TimerManager) : TimerManager :=
  mkTimerManager (timers_ r) v (current_tick_ r).
Definition set_current_tick_ (v : Z) (r : TimerManager) : TimerManager :=
  mkTimerManager (timers_ r) (wakeup_sem_ r) v.

(** [struct ProcessTimer] (kernel/core/process_timer.hpp). *)
Record ProcessTimer := mkProcessTimer {
  pt_allocated : bool;
  pt_active : bool;
  pt_owner_task_id : Z;
  pt_flags : Z;
  pt_expire_tick : Z;
  pt_period_ticks : Z;
  pt_notify_param : Z;
}.

#[export] Instance ProcessTimer_inhabited : Inhabited ProcessTimer :=
  populate (mkProcessTimer false false 0 0 0 0 0).

Definition set_pt_allocated (v : bool) (r : ProcessTimer) : ProcessTimer :=
  mkProcessTimer v (pt_active r) (pt_owner_task_id r) (pt_flags r) (pt_expire_tick r) (pt_period_ticks r) (pt_notify_param r).
Definition set_pt_active (v : bool) (r : ProcessTimer) : ProcessTimer :=
  mkProcessTimer (pt_allocated r) v (pt_owner_task_id r) (pt_flags r) (pt_expire_tick r) (pt_period_ticks r) (pt_notify_param r).
Definition set_pt_owner_task_id (v : Z) (r : ProcessTimer) : ProcessTimer :=
  mkProcessTimer (pt_allocated r) (pt_active r) v (pt_flags r) (pt_expire_tick r) (pt_period_ticks r) (pt_notify_param r).
Definition set_pt_flags (v : Z) (r : ProcessTimer) : ProcessTimer :=
  mkProcessTimer (pt_allocated r) (pt_active r) (pt_owner_task_id r) v (pt_expire_tick r) (pt_period_ticks r) (pt_notify_param r).
Definition set_pt_expire_tick (v : Z) (r : ProcessTimer) : ProcessTimer :=
  mkProcessTimer (pt_allocated r) (pt_active r) (pt_owner_task_id r) (pt_flags r) v (pt_period_ticks r) (pt_notify_param r).
Definition set_pt_period_ticks (v : Z) (r : ProcessTimer) : ProcessTimer :=
  mkProcessTimer (pt_allocated r) (pt_active r) (pt_owner_task_id r) (pt_flags r) (pt_expire_tick r) v (pt_notify_param r).
Definition set_pt_notify_param (v : Z) (r : ProcessTimer) : ProcessTimer :=
  mkProcessTimer (pt_allocated r) (pt_active r) (pt_owner_task_id r) (pt_flags r) (pt_expire_tick r) (pt_period_ticks r) v.

(** [class FrameSchedulerV2] (kernel/scheduler/frame_scheduler_v2.hpp). *)
Record FrameSchedulerV2 := mkFrame {
  target_fps_ : Z;
  frame_period_ticks_ : Z;
  current_frame_tick_ : Z;
  last_vsync_tick_ : Z;
  measured_vsync_period_ticks_ : Z;
  vsync_sample_count_ : Z;
  system_ticks_ : Z;
  has_dynamic_vsync_ : bool;
  in_active_render_window_ : bool;
  render_task_id_ : Z;
}.

#[export] Instance FrameSchedulerV2_inhabited : Inhabited FrameSchedulerV2 :=
  populate (mkFrame 0 0 0 0 0 0 0 false false 0).

Definition set_target_fps_ (v : Z) (r : FrameSchedulerV2) : FrameSchedulerV2 :=
  mkFrame v (frame_period_ticks_ r) (current_frame_tick_ r) (last_vsync_tick_ r) (measured_vsync_period_ticks_ r) (vsync_sample_count_ r) (system_ticks_ r) (has_dynamic_vsync_ r) (in_active_render_window_ r) (render_task_id_ r).
Definition set_frame_period_ticks_ (v : Z) (r : FrameSchedulerV2) : FrameSchedulerV2 :=
  mkFrame (target_fps_ r) v (current_frame_tick_ r) (last_vsync_tick_ r) (measured_vsync_period_ticks_ r) (vsync_sample_count_ r) (system_ticks_ r) (has_dynamic_vsync_ r) (in_active_render_window_ r) (render_task_id_ r).
Definition set_current_frame_tick_ (v : Z) (r : FrameSchedulerV2) : FrameSchedulerV2 :=
  mkFrame (target_fps_ r) (frame_period_ticks_ r) v (last_vsync_tick_ r) (measured_vsync_period_ticks_ r) (vsync_sample_count_ r) (system_ticks_ r) (has_dynamic_vsync_ r) (in_active_render_window_ r) (render_task_id_ r).
Definition set_last_vsync_tick_ (v : Z) (r : FrameSchedulerV2) : FrameSchedulerV2 :=
  mkFrame (target_fps_ r) (frame_period_ticks_ r) (current_frame_tick_ r) v (measured_vsync_period_ticks_ r) (vsync_sample_count_ r) (system_ticks_ r) (has_dynamic_vsync_ r) (in_active_render_window_ r) (render_task_id_ r).
Definition set_measured_vsync_period_ticks_ (v : Z) (r : FrameSchedulerV2) : FrameSchedulerV2 :=
  mkFrame (target_fps_ r) (frame_period_ticks_ r) (current_frame_tick_ r) (last_vsync_tick_ r) v (vsync_sample_count_ r) (system_ticks_ r) (has_dynamic_vsync_ r) (in_active_render_window_ r) (render_task_id_ r).
Definition set_vsync_sample_count_ (v : Z) (r : FrameSchedulerV2) : FrameSchedulerV2 :=
  mkFrame (target_fps_ r) (frame_period_ticks_ r) (current_frame_tick_ r) (last_vsync_tick_ r) (measured_vsync_period_ticks_ r) v (system_ticks_ r) (has_dynamic_vsync_ r) (in_active_render_window_ r) (render_task_id_ r).
Definition set_system_ticks_ (v : Z) (r : FrameSchedulerV2) : FrameSchedulerV2 :=
  mkFrame (target_fps_ r) (frame_period_ticks_ r) (current_frame_tick_ r) (last_vsync_tick_ r) (measured_vsync_period_ticks_ r) (vsync_sample_count_ r) v (has_dynamic_vsync_ r) (in_active_render_window_ r) (render_task_id_ r).
Definition set_has_dynamic_vsync_ (v : bool) (r : FrameSchedulerV2) : FrameSchedulerV2 :=
  mkFrame (target_fps_ r) (frame_period_ticks_ r) (current_frame_tick_ r) (last_vsync_tick_ r) (measured_vsync_period_ticks_ r) (vsync_sample_count_ r) (system_ticks_ r) v (in_active_render_window_ r) (render_task_id_ r).
Definition set_in_active_render_window_ (v : bool) (r : FrameSchedulerV2) : FrameSchedulerV2 :=
  mkFrame (target_fps_ r) (frame_period_ticks_ r) (current_frame_tick_ r) (last_vsync_tick_ r) (measured_vsync_period_ticks_ r) (vsync_sample_count_ r) (system_ticks_ r) (has_dynamic_vsync_ r) v (render_task_id_ r).
Definition set_render_task_id_ (v : Z) (r : FrameSchedulerV2) : FrameSchedulerV2 :=
  mkFrame (target_fps_ r) (frame_period_ticks_ r) (current_frame_tick_ r) (last_vsync_tick_ r) (measured_vsync_period_ticks_ r) (vsync_sample_count_ r) (system_ticks_ r) (has_dynamic_vsync_ r) (in_active_render_window_ r) v.

(** [class WatchdogManager] (kernel/core/watchdog_manager.hpp). *)
Record WatchdogManager := mkWatchdog {
  wd_driver_ : bool; (* driver_ != nullptr *)
  max_idle_ticks_ : Z;
  current_idle_ : Z;
  wd_kicks : Z; (* driver_->kick() calls *)
}.

#[export] Instance WatchdogManager_inhabited : Inhabited WatchdogManager :=
  populate (mkWatchdog false 0 0 0).

Definition set_wd_driver_ (v : bool) (r : WatchdogManager) : WatchdogManager :=
  mkWatchdog v (max_idle_ticks_ r) (current_idle_ r) (wd_kicks r).
Definition set_max_idle_ticks_ (v : Z) (r : WatchdogManager) : WatchdogManager :=
  mkWatchdog (wd_driver_ r) v (current_idle_ r) (wd_kicks r).
Definition set_current_idle_ (v : Z) (r : WatchdogManager) : WatchdogManager :=
  mkWatchdog (wd_driver_ r) (max_idle_ticks_ r) v (wd_kicks r).
Definition set_wd_kicks (v : Z) (r : WatchdogManager) : WatchdogManager :=
  mkWatchdog (wd_driver_ r) (max_idle_ticks_ r) (current_idle_ r) v.

(** * The kernel *)

(** The singletons of the kernel ([Scheduler], the PendSV pointers, [TimerManager], [ProcessTimerManager], [FrameSchedulerV2], [WatchdogManager]) and the object stores. *)
Record Kernel := mkKernel {
  tasks : list TaskControlBlock; (* Scheduler::tasks *)
  task_count : Z;
  started_ : bool;
  ready_head : list Z;
  ready_bitmask : Z;
  g_current_tcb_ptr : option Z;
  g_next_tcb_ptr : option Z;
  pendsv : bool; (* Arch::trigger_context_switch requested *)
  address_space : Z; (* last Arch::switch_address_space *)
  deleted_vasps : list Z; (* VirtualAddressSpace objects deleted *)
  endpoints : gmap Z Endpoint;
  mutexes : gmap Z Mutex;
  other_refs : gmap Z Z; (* ref counts of other objects *)
  frame : FrameSchedulerV2;
  timer_mgr : TimerManager;
  ptimers_ : list ProcessTimer; (* ProcessTimerManager::timers_ *)
  watchdog : WatchdogManager;
  mem : gmap Z Z;
}.

#[export] Instance Kernel_inhabited : Inhabited Kernel :=
  populate (mkKernel inhabitant 0 false inhabitant 0 inhabitant inhabitant false 0 inhabitant inhabitant inhabitant inhabitant inhabitant inhabitant inhabitant inhabitant inhabitant).

Definition set_tasks (v : list TaskControlBlock) (r : Kernel) : Kernel :=
  mkKernel v (task_count r) (started_ r) (ready_head r) (ready_bitmask r) (g_current_tcb_ptr r) (g_next_tcb_ptr r) (pendsv r) (address_space r) (deleted_vasps r) (endpoints r) (mutexes r) (other_refs r) (frame r) (timer_mgr r) (ptimers_ r) (watchdog r) (mem r).
Definition set_task_count (v : Z) (r : Kernel) : Kernel :=
  mkKernel (tasks r) v (started_ r) (ready_head r) (ready_bitmask r) (g_current_tcb_ptr r) (g_next_tcb_ptr r) (pendsv r) (address_space r) (deleted_vasps r) (endpoints r) (mutexes r) (other_refs r) (frame r) (timer_mgr r) (ptimers_ r) (watchdog r) (mem r).
Definition set_started_ (v : bool) (r : Kernel) : Kernel :=
  mkKernel (tasks r) (task_count r) v (ready_head r) (ready_bitmask r) (g_current_tcb_ptr r) (g_next_tcb_ptr r) (pendsv r) (address_space r) (deleted_vasps r) (endpoints r) (mutexes r) (other_refs r) (frame r) (timer_mgr r) (ptimers_ r) (watchdog r) (mem r).
Definition set_ready_head (v : list Z) (r : Kernel) : Kernel :=
  mkKernel (tasks r) (task_count r) (started_ r) v (ready_bitmask r) (g_current_tcb_ptr r) (g_next_tcb_ptr r) (pendsv r) (address_space r) (deleted_vasps r) (endpoints r) (mutexes r) (other_refs r) (frame r) (timer_mgr r) (ptimers_ r) (watchdog r) (mem r).
Definition set_ready_bitmask (v : Z) (r : Kernel) : Kernel :=
  mkKernel (tasks r) (task_count r) (started_ r) (ready_head r) v (g_current_tcb_ptr r) (g_next_tcb_ptr r) (pendsv r) (address_space r) (deleted_vasps r) (endpoints r) (mutexes r) (other_refs r) (frame r) (timer_mgr r) (ptimers_ r) (watchdog r) (mem r).
Definition set_g_current_tcb_ptr (v : option Z) (r : Kernel) : Kernel :=
  mkKernel (tasks r) (task_count r) (started_ r) (ready_head r) (ready_bitmask r) v (g_next_tcb_ptr r) (pendsv r) (address_space r) (deleted_vasps r) (endpoints r) (mutexes r) (other_refs r) (frame r) (timer_mgr r) (ptimers_ r) (watchdog r) (mem r).
Definition set_g_next_tcb_ptr (v : option Z) (r : Kernel) : Kernel :=
  mkKernel (tasks r) (task_count r) (started_ r) (ready_head r) (ready_bitmask r) (g_current_tcb_ptr r) v (pendsv r) (address_space r) (deleted_vasps r) (endpoints r) (mutexes r) (other_refs r) (frame r) (timer_mgr r) (ptimers_ r) (watchdog r) (mem r).
Definition set_pendsv (v : bool) (r : Kernel) : Kernel :=
  mkKernel (tasks r) (task_count r) (started_ r) (ready_head r) (ready_bitmask r) (g_current_tcb_ptr r) (g_next_tcb_ptr r) v (address_space r) (deleted_vasps r) (endpoints r) (mutexes r) (other_refs r) (frame r) (timer_mgr r) (ptimers_ r) (watchdog r) (mem r).
Definition set_address_space (v : Z) (r : Kernel) : Kernel :=
  mkKernel (tasks r) (task_count r) (started_ r) (ready_head r) (ready_bitmask r) (g_current_tcb_ptr r) (g_next_tcb_ptr r) (pendsv r) v (deleted_vasps r) (endpoints r) (mutexes r) (other_refs r) (frame r) (timer_mgr r) (ptimers_ r) (watchdog r) (mem r).
Definition set_deleted_vasps (v : list Z) (r : Kernel) : Kernel :=
  mkKernel (tasks r) (task_count r) (started_ r) (ready_head r) (ready_bitmask r) (g_current_tcb_ptr r) (g_next_tcb_ptr r) (pendsv r) (address_space r) v (endpoints r) (mutexes r) (other_refs r) (frame r) (timer_mgr r) (ptimers_ r) (watchdog r) (mem r).
Definition set_endpoints (v : gmap Z Endpoint) (r : Kernel) : Kernel :=
  mkKernel (tasks r) (task_count r) (started_ r) (ready_head r) (ready_bitmask r) (g_current_tcb_ptr r) (g_next_tcb_ptr r) (pendsv r) (address_space r) (deleted_vasps r) v (mutexes r) (other_refs r) (frame r) (timer_mgr r) (ptimers_ r) (watchdog r) (mem r).
Definition set_mutexes (v : gmap Z Mutex) (r : Kernel) : Kernel :=
  mkKernel (tasks r) (task_count r) (started_ r) (ready_head r) (ready_bitmask r) (g_current_tcb_ptr r) (g_next_tcb_ptr r) (pendsv r) (address_space r) (deleted_vasps r) (endpoints r) v (other_refs r) (frame r) (timer_mgr r) (ptimers_ r) (watchdog r) (mem r).
Definition set_other_refs (v : gmap Z Z) (r : Kernel) : Kernel :=
  mkKernel (tasks r) (task_count r) (started_ r) (ready_head r) (ready_bitmask r) (g_current_tcb_ptr r) (g_next_tcb_ptr r) (pendsv r) (address_space r) (deleted_vasps r) (endpoints r) (mutexes r) v (frame r) (timer_mgr r) (ptimers_ r) (watchdog r) (mem r).
Definition set_frame (v : FrameSchedulerV2) (r : Kernel) : Kernel :=
  mkKernel (tasks r) (task_count r) (started_ r) (ready_head r) (ready_bitmask r) (g_current_tcb_ptr r) (g_next_tcb_ptr r) (pendsv r) (address_space r) (deleted_vasps r) (endpoints r) (mutexes r) (other_refs r) v (timer_mgr r) (ptimers_ r) (watchdog r) (mem r).
Definition set_timer_mgr (v : TimerManager) (r : Kernel) : Kernel :=
  mkKernel (tasks r) (task_count r) (started_ r) (ready_head r) (ready_bitmask r) (g_current_tcb_ptr r) (g_next_tcb_ptr r) (pendsv r) (address_space r) (deleted_vasps r) (endpoints r) (mutexes r) (other_refs r) (frame r) v (ptimers_ r) (watchdog r) (mem r).
Definition set_ptimers_ (v : list ProcessTimer) (r : Kernel) : Kernel :=
  mkKernel (tasks r) (task_count r) (started_ r) (ready_head r) (ready_bitmask r) (g_current_tcb_ptr r) (g_next_tcb_ptr r) (pendsv r) (address_space r) (deleted_vasps r) (endpoints r) (mutexes r) (other_refs r) (frame r) (timer_mgr r) v (watchdog r) (mem r).
Definition set_watchdog (v : WatchdogManager) (r : Kernel) : Kernel :=
  mkKernel (tasks r) (task_count r) (started_ r) (ready_head r) (ready_bitmask r) (g_current_tcb_ptr r) (g_next_tcb_ptr r) (pendsv r) (address_space r) (deleted_vasps r) (endpoints r) (mutexes r) (other_refs r) (frame r) (timer_mgr r) (ptimers_ r) v (mem r).
Definition set_mem (v : gmap Z Z) (r : Kernel) : Kernel :=
  mkKernel (tasks r) (task_count r) (started_ r) (ready_head r) (ready_bitmask r) (g_current_tcb_ptr r) (g_next_tcb_ptr r) (pendsv r) (address_space r) (deleted_vasps r) (endpoints r) (mutexes r) (other_refs r) (frame r) (timer_mgr r) (ptimers_ r) (watchdog r) v.

(** ** Access to the task array and the object stores *)

Definition tcb (k : Kernel) (i : Z) : TaskControlBlock := zlookup (tasks k) i.
Definition upd (i : Z) (f : TaskControlBlock -> TaskControlBlock) (k : Kernel) : Kernel :=
  set_tasks (zalter f i (tasks k)) k.

Definition ep (k : Kernel) (e : Z) : Endpoint := endpoints k !!! e.
Definition upd_ep (e : Z) (f : Endpoint -> Endpoint) (k : Kernel) : Kernel :=
  set_endpoints (<[e := f (ep k e)]> (endpoints k)) k.

Definition mtx (k : Kernel) (m : Z) : Mutex := mutexes k !!! m.
Definition upd_mtx (m : Z) (f : Mutex -> Mutex) (k : Kernel) : Kernel :=
  set_mutexes (<[m := f (mtx k m)]> (mutexes k)) k.

(** An index into [Scheduler::tasks]. *)
Definition valid_task (k : Kernel) (i : Z) : Prop := in_range (tasks k) i.

Lemma tcb_upd i f k j :
  valid_task k i -> tcb (upd i f k) j = if decide (i = j) then f (tcb k j) else tcb k j.
Proof. apply zlookup_zalter. Qed.

Lemma tcb_upd_eq i f k : valid_task k i -> tcb (upd i f k) i = f (tcb k i).
Proof. intros. by rewrite tcb_upd, decide_True. Qed.

Lemma tcb_upd_ne i f k j : i <> j -> tcb (upd i f k) j = tcb k j.
Proof. apply zlookup_zalter_ne. Qed.

Lemma length_tasks_upd i f k : length (tasks (upd i f k)) = length (tasks k).
Proof. apply length_zalter. Qed.

Lemma valid_task_upd i f k j : valid_task (upd i f k) j <-> valid_task k j.
Proof. unfold valid_task, in_range. by rewrite length_tasks_upd. Qed.

(** A projection of the control block that an update leaves alone is left
    alone at every index, also outside the array. *)
Lemma tcb_upd_frame {A} (g : TaskControlBlock -> A) i f k j :
  (forall t, g (f t) = g t) -> g (tcb (upd i f k) j) = g (tcb k j).
Proof.
  intros Hf. unfold tcb, upd, zlookup, zalter. cbn.
  destruct (0 <=? i), (0 <=? j); try done.
  rewrite !list_lookup_total_alt, list_lookup_alter. case_decide as Hij; [|done].
  rewrite Hij. destruct (tasks k !! Z.to_nat j); [apply Hf|done].
Qed.

Lemma upd_id i f k : f (tcb k i) = tcb k i -> upd i f k = k.
Proof.
  intros Hf. assert (E : zalter f i (tasks k) = tasks k).
  { unfold zalter, tcb, zlookup in *. destruct (Z.leb_spec 0 i); [|done].
    apply list_eq. intros j. destruct (decide (Z.to_nat i = j)) as [<-|Hne].
    - rewrite list_lookup_alter_eq. destruct (tasks k !! Z.to_nat i) as [t|] eqn:Ht; [|done].
      cbn. rewrite list_lookup_total_alt, Ht in Hf. cbn in Hf. by rewrite Hf.
    - by rewrite list_lookup_alter_ne. }
  unfold upd. rewrite E. by destruct k.
Qed.

Lemma ep_upd_ep e f k e' : ep (upd_ep e f k) e' = if decide (e = e') then f (ep k e') else ep k e'.
Proof.
  unfold ep at 1, upd_ep. cbn. case_decide.
  - subst. by rewrite lookup_total_insert_eq.
  - by rewrite lookup_total_insert_ne.
Qed.

Lemma mtx_upd_mtx m f k m' :
  mtx (upd_mtx m f k) m' = if decide (m = m') then f (mtx k m') else mtx k m'.
Proof.
  unfold mtx at 1, upd_mtx. cbn. case_decide.
  - subst. by rewrite lookup_total_insert_eq.
  - by rewrite lookup_total_insert_ne.
Qed.

(** * Frame conditions

    [same_upto eK eT k k']: [k'] has the task array length of [k], agrees with
    [k] on what [eK] keeps of the kernel, and every control block agrees on
    what [eT] keeps of it.  Each component states with it what its operations
    leave alone. *)
Record same_upto (eK : Kernel -> Kernel) (eT : TaskControlBlock -> TaskControlBlock)
    (k k' : Kernel) : Prop := {
  su_env : eK k' = eK k;
  su_len : length (tasks k') = length (tasks k);
  su_task : forall i, eT (tcb k' i) = eT (tcb k i);
}.

Section SameUpto.
Context {eK : Kernel -> Kernel} {eT : TaskControlBlock -> TaskControlBlock}.

#[export] Instance same_upto_refl : Reflexive (same_upto eK eT).
Proof. by intros k. Qed.
#[export] Instance same_upto_trans : Transitive (same_upto eK eT).
Proof.
  intros k1 k2 k3 [E1 L1 T1] [E2 L2 T2]. split; [congruence|congruence|].
  intros i. by rewrite T2.
Qed.

Lemma su_upd i f k :
  (forall l, eK (set_tasks l k) = eK k) ->
  (forall t, eT (f t) = eT t) -> same_upto eK eT k (upd i f k).
Proof.
  intros He Hf. split; [apply He|apply length_tasks_upd|]. intros j. by apply tcb_upd_frame.
Qed.

Lemma su_proj {k k'} {A} (g : TaskControlBlock -> A) i :
  same_upto eK eT k k' -> (forall t, g (eT t) = g t) -> g (tcb k' i) = g (tcb k i).
Proof. intros Hs Hg. by rewrite <- Hg, (su_task _ _ _ _ Hs), Hg. Qed.

Lemma su_env_proj {k k'} {A} (g : Kernel -> A) :
  same_upto eK eT k k' -> (forall k, g (eK k) = g k) -> g k' = g k.
Proof. intros Hs Hg. by rewrite <- Hg, (su_env _ _ _ _ Hs), Hg. Qed.

Lemma su_valid {k k'} i : same_upto eK eT k k' -> valid_task k' i <-> valid_task k i.
Proof. intros Hs. unfold valid_task, in_range. by rewrite (su_len _ _ _ _ Hs). Qed.
End SameUpto.

(** A coarser erasure gives a weaker frame. *)
Lemma su_weaken eK eT eK' eT' k k' :
  (forall k, eK' (eK k) = eK' k) -> (forall t, eT' (eT t) = eT' t) ->
  same_upto eK eT k k' -> same_upto eK' eT' k k'.
Proof.
  intros HK HT [E L T]. split; [|done|].
  - by rewrite <- HK, E, HK.
  - intros i. by rewrite <- HT, T, HT.
Qed.

