(* ===== verification/ReadyQueue.v ===== *)
(** The ready queues of the scheduler (kernel/task/task.hpp).

    [push_ready], [remove_ready], [set_task_state] and [set_task_priority]
    maintain, per priority, a circular doubly linked list of task indices
    threaded through the control blocks, and a 32-bit summary of the non-empty
    priorities.  The abstract view is a family of FIFO queues
    [Q : Z -> list Z]; [rq_linked] relates the two and [sched_inv] adds that
    exactly the [Ready] tasks are queued. *)
From S2P Require Import Prelude Ring Kernel.

(** * The code *)

(** The queue index of a task: its dynamic priority, clamped to the table. *)
Definition prio_slot (t : TaskControlBlock) : Z :=
  let prio := current_priority (scheduler t) in
  if NUM_PRIORITIES <=? prio then NUM_PRIORITIES - 1 else prio.

Definition set_head (p v : Z) (k : Kernel) : Kernel :=
  set_ready_head (zalter (fun _ => v) p (ready_head k)) k.

Definition push_ready (task_index : Z) (k : Kernel) : Kernel :=
  if MAX_TASKS <=? task_index then k else
  let prio := prio_slot (tcb k task_index) in
  let head := zlookup (ready_head k) prio in
  if head =? -1 then
    let k := set_head prio task_index k in
    let k := upd task_index (set_next_ready task_index) k in
    let k := upd task_index (set_prev_ready task_index) k in
    set_ready_bitmask (bit_set (ready_bitmask k) prio) k
  else
    let tail := prev_ready (scheduler (tcb k head)) in
    let k := upd tail (set_next_ready task_index) k in
    let k := upd task_index (set_prev_ready tail) k in
    let k := upd task_index (set_next_ready head) k in
    upd head (set_prev_ready task_index) k.

Definition remove_ready (task_index : Z) (k : Kernel) : Kernel :=
  if MAX_TASKS <=? task_index then k else
  let t := scheduler (tcb k task_index) in
  let prio := prio_slot (tcb k task_index) in
  if next_ready t =? -1 then k else
  let k :=
    if next_ready t =? task_index then
      let k := set_head prio (-1) k in
      set_ready_bitmask (bit_clear (ready_bitmask k) prio) k
    else
      let k := upd (prev_ready t) (set_next_ready (next_ready t)) k in
      let k := upd (next_ready t) (set_prev_ready (prev_ready t)) k in
      if zlookup (ready_head k) prio =? task_index
      then set_head prio (next_ready t) k else k in
  upd task_index (set_prev_ready (-1)) (upd task_index (set_next_ready (-1)) k).

Definition set_task_state (id : Z) (new_state : TaskState) (k : Kernel) : Kernel :=
  if (MAX_TASKS <=? id) || (task_count k <=? id) then k else
  if decide (sched_state (scheduler (tcb k id)) = new_state) then k else
  let k := if decide (sched_state (scheduler (tcb k id)) = Ready)
           then remove_ready id k else k in
  let k := upd id (set_sched_state new_state) k in
  if decide (new_state = Ready) then push_ready id k else k.

Definition set_task_priority (id new_prio : Z) (k : Kernel) : Kernel :=
  if (MAX_TASKS <=? id) || (task_count k <=? id) then k else
  if current_priority (scheduler (tcb k id)) =? new_prio then k else
  let was_ready := bool_decide (sched_state (scheduler (tcb k id)) = Ready) in
  let k := if was_ready then remove_ready id k else k in
  let k := upd id (set_current_priority new_prio) k in
  if was_ready then push_ready id k else k.

Definition get_highest_ready_priority (k : Kernel) : Z := find_highest_bit (ready_bitmask k).

(** * The abstract queues *)

Definition upq (Q : Z -> list Z) (p : Z) (l : list Z) : Z -> list Z :=
  fun p' => if decide (p' = p) then l else Q p'.

Definition del (i : Z) (l : list Z) : list Z := filter (fun j => j <> i) l.

(** The abstract effect of the two public operations. *)
Definition abs_set_state (k : Kernel) (id : Z) (s : TaskState) (Q : Z -> list Z) : Z -> list Z :=
  if (MAX_TASKS <=? id) || (task_count k <=? id) then Q else
  if decide (sched_state (scheduler (tcb k id)) = s) then Q else
  let p := prio_slot (tcb k id) in
  let Q := if decide (sched_state (scheduler (tcb k id)) = Ready) then upq Q p (del id (Q p)) else Q in
  if decide (s = Ready) then upq Q p (Q p ++ [id]) else Q.

Definition clamp_prio (prio : Z) : Z :=
  if NUM_PRIORITIES <=? prio then NUM_PRIORITIES - 1 else prio.

Definition abs_set_priority (k : Kernel) (id prio : Z) (Q : Z -> list Z) : Z -> list Z :=
  if (MAX_TASKS <=? id) || (task_count k <=? id) then Q else
  if current_priority (scheduler (tcb k id)) =? prio then Q else
  if decide (sched_state (scheduler (tcb k id)) = Ready) then
    let p := prio_slot (tcb k id) in
    let Q := upq Q p (del id (Q p)) in
    upq Q (clamp_prio prio) (Q (clamp_prio prio) ++ [id])
  else Q.

(** * The representation relation *)

Definition nx (k : Kernel) (i : Z) : Z := next_ready (scheduler (tcb k i)).
Definition pv (k : Kernel) (i : Z) : Z := prev_ready (scheduler (tcb k i)).

Definition is_prio (p : Z) : Prop := 0 <= p < NUM_PRIORITIES.
Definition is_task (k : Kernel) (i : Z) : Prop := 0 <= i < task_count k.

Definition qhead (l : list Z) : Z := match l with [] => -1 | x :: _ => x end.

Record rq_linked (k : Kernel) (Q : Z -> list Z) : Prop := {
  rl_tasks : Z.of_nat (length (tasks k)) = MAX_TASKS;
  rl_heads : Z.of_nat (length (ready_head k)) = NUM_PRIORITIES;
  rl_count : 0 <= task_count k <= MAX_TASKS;
  rl_mask : 0 <= ready_bitmask k < 2 ^ NUM_PRIORITIES;
  rl_prio : forall i, is_task k i -> 0 <= current_priority (scheduler (tcb k i));
  rl_ring : forall p, is_prio p -> ring (nx k) (pv k) (Q p);
  rl_head : forall p, is_prio p -> zlookup (ready_head k) p = qhead (Q p);
  rl_bit : forall p, is_prio p -> Z.testbit (ready_bitmask k) p = bool_decide (Q p <> []);
  rl_nodup : forall p, is_prio p -> NoDup (Q p);
  rl_elem : forall p i, is_prio p -> i ∈ Q p -> is_task k i /\ prio_slot (tcb k i) = p;
  rl_out : forall i, is_task k i -> i ∉ Q (prio_slot (tcb k i)) -> nx k i = -1;
}.

(** The scheduler invariant: well-linked queues holding exactly the [Ready]
    tasks, task ids equal to indices, and unallocated slots above the
    high-water mark [task_count]. *)
Record sched_inv (k : Kernel) (Q : Z -> list Z) : Prop := {
  si_linked : rq_linked k Q;
  si_ready : forall i, is_task k i ->
    (i ∈ Q (prio_slot (tcb k i)) <-> sched_state (scheduler (tcb k i)) = Ready);
  si_id : forall i, is_task k i -> sched_id (scheduler (tcb k i)) = i;
  si_above : forall i, task_count k <= i < MAX_TASKS ->
    sched_state (scheduler (tcb k i)) = Unallocated;
}.

(** * Frame: what the queue operations leave alone *)

Definition erase_links (t : TaskControlBlock) : TaskControlBlock :=
  set_next_ready 0 (set_prev_ready 0 t).

Definition erase_rq (k : Kernel) : Kernel :=
  set_tasks [] (set_ready_head [] (set_ready_bitmask 0 k)).

(** [k'] differs from [k] at most in links, heads and the bit mask. *)
Abbreviation same_but_links := (same_upto erase_rq erase_links).

Lemma sbl_upd i f k :
  (forall t, erase_links (f t) = erase_links t) -> same_but_links k (upd i f k).
Proof.
  by apply su_upd.
Qed.

Lemma sbl_set_head p v k : same_but_links k (set_head p v k).
Proof. done. Qed.
Lemma sbl_set_ready_bitmask m k : same_but_links k (set_ready_bitmask m k).
Proof. done. Qed.

Lemma erase_set_next v t : erase_links (set_next_ready v t) = erase_links t.
Proof. done. Qed.
Lemma erase_set_prev v t : erase_links (set_prev_ready v t) = erase_links t.
Proof. done. Qed.

#[export] Hint Resolve sbl_upd sbl_set_head sbl_set_ready_bitmask erase_set_next erase_set_prev : aurora.

Ltac sbl_step :=
  first [ done | by eauto with aurora
        | etrans; [|by eauto with aurora] ].

Lemma push_ready_frame i k : same_but_links k (push_ready i k).
Proof. unfold push_ready. cbv zeta. repeat case_match; repeat sbl_step. Qed.

Lemma remove_ready_frame i k : same_but_links k (remove_ready i k).
Proof. unfold remove_ready. cbv zeta. repeat case_match; repeat sbl_step. Qed.

Section Frame.
Context {k k' : Kernel} (Hs : same_but_links k k').

Lemma sbl_proj {A} (g : TaskControlBlock -> A) i :
  (forall t, g (erase_links t) = g t) -> g (tcb k' i) = g (tcb k i).
Proof. intros Hg. by rewrite <- Hg, (su_task _ _ _ _ Hs), Hg. Qed.

Lemma sbl_env_proj {A} (g : Kernel -> A) :
  (forall k, g (erase_rq k) = g k) -> g k' = g k.
Proof. intros Hg. by rewrite <- Hg, (su_env _ _ _ _ Hs), Hg. Qed.

Lemma sbl_is_task i : is_task k' i <-> is_task k i.
Proof. unfold is_task. by rewrite (sbl_env_proj task_count). Qed.

Lemma sbl_prio_slot i : prio_slot (tcb k' i) = prio_slot (tcb k i).
Proof. by apply (sbl_proj prio_slot). Qed.
End Frame.

(** * Correctness of the link operations *)

Section Linked.
Context {k : Kernel} {Q : Z -> list Z} (HL : rq_linked k Q).

Lemma rl_slot i : is_task k i -> is_prio (prio_slot (tcb k i)).
Proof.
  intros Hi. pose proof (rl_prio _ _ HL i Hi). unfold is_prio, prio_slot, NUM_PRIORITIES.
  zbool.
Qed.

Lemma rl_valid i : is_task k i -> valid_task k i.
Proof.
  intros [??]. pose proof (rl_count _ _ HL). pose proof (rl_tasks _ _ HL).
  unfold valid_task, in_range. lia.
Qed.

Lemma rl_lt_max i : is_task k i -> i < MAX_TASKS.
Proof. intros [??]. pose proof (rl_count _ _ HL). lia. Qed.

Lemma rl_disjoint p p' i : is_prio p -> is_prio p' -> i ∈ Q p -> i ∈ Q p' -> p = p'.
Proof.
  intros Hp Hp' H1 H2. apply (rl_elem _ _ HL) in H1 as [_ <-]; [|done].
  by apply (rl_elem _ _ HL) in H2 as [_ <-].
Qed.

(** Assembling the relation after one queue was rebuilt. *)
Lemma rq_linked_update k' p l :
  same_but_links k k' -> is_prio p ->
  ring (nx k') (pv k') l -> NoDup l ->
  (forall j, j ∈ l -> is_task k j /\ prio_slot (tcb k j) = p) ->
  Z.of_nat (length (ready_head k')) = NUM_PRIORITIES ->
  (forall p', is_prio p' -> zlookup (ready_head k') p' =
     if decide (p' = p) then qhead l else zlookup (ready_head k) p') ->
  0 <= ready_bitmask k' < 2 ^ NUM_PRIORITIES ->
  (forall p', is_prio p' -> Z.testbit (ready_bitmask k') p' =
     if decide (p' = p) then bool_decide (l <> []) else Z.testbit (ready_bitmask k) p') ->
  (forall j, is_task k j -> prio_slot (tcb k j) <> p -> nx k' j = nx k j /\ pv k' j = pv k j) ->
  (forall j, is_task k j -> prio_slot (tcb k j) = p -> j ∉ l -> nx k' j = -1) ->
  rq_linked k' (upq Q p l).
Proof.
  intros Hs Hp Hring Hnd Hel Hlen Hhd Hm Hbit Hother Hout.
  assert (Hcase : forall p' (P : list Z -> Prop),
    (p' = p -> P l) -> (p' <> p -> P (Q p')) -> P (upq Q p l p')).
  { intros p' P H1 H2. unfold upq. case_decide; auto. }
  split.
  - rewrite (su_len _ _ _ _ Hs). apply HL.
  - done.
  - rewrite (sbl_env_proj Hs task_count) by done. apply HL.
  - done.
  - intros i Hi. rewrite (sbl_proj Hs (fun t => current_priority (scheduler t))) by done.
    apply HL. by apply (sbl_is_task Hs).
  - intros p' Hp'. apply Hcase; intros Hne; [done|].
    eapply ring_ext; [| |by apply (rl_ring _ _ HL)]; intros a Ha;
      apply (rl_elem _ _ HL) in Ha as [Ht Hps]; try done; apply Hother; congruence.
  - intros p' Hp'. rewrite Hhd by done. unfold upq. case_decide; [done|]. by apply HL.
  - intros p' Hp'. rewrite Hbit by done. unfold upq. case_decide; [done|]. by apply HL.
  - intros p' Hp'. apply Hcase; intros; [done|]. by apply HL.
  - intros p' i Hp'. rewrite (sbl_is_task Hs), (sbl_prio_slot Hs).
    apply Hcase; intros Hne Hi; [subst; by apply Hel|]. by apply HL.
  - intros i. rewrite (sbl_is_task Hs), (sbl_prio_slot Hs). intros Ht.
    apply Hcase; intros Hne Hi; [by apply Hout|].
    rewrite (proj1 (Hother i Ht Hne)). by apply HL.
Qed.

Lemma zlookup_set_head p v p' :
  is_prio p -> zlookup (ready_head (set_head p v k)) p' =
  if decide (p' = p) then v else zlookup (ready_head k) p'.
Proof.
  intros Hp. unfold set_head. cbn. rewrite zlookup_zalter.
  - repeat case_decide; congruence.
  - unfold in_range. rewrite (rl_heads _ _ HL). apply Hp.
Qed.

Lemma rl_qhead_ne p i t : is_prio p -> Q p = i :: t -> zlookup (ready_head k) p <> -1.
Proof.
  intros Hp Hq. rewrite (rl_head _ _ HL), Hq by done. cbn.
  assert (i ∈ Q p) as Hi by (rewrite Hq; set_solver).
  apply (rl_elem _ _ HL) in Hi as [[??] _]; [lia|done].
Qed.
End Linked.

Lemma tcb_set_head p v k i : tcb (set_head p v k) i = tcb k i.
Proof. done. Qed.
Lemma tcb_set_bitmask m k i : tcb (set_ready_bitmask m k) i = tcb k i.
Proof. done. Qed.
Lemma valid_set_head p v k i : valid_task (set_head p v k) i <-> valid_task k i.
Proof. done. Qed.
Lemma valid_set_bitmask m k i : valid_task (set_ready_bitmask m k) i <-> valid_task k i.
Proof. done. Qed.

(** Reading the task array through a sequence of updates. *)
Ltac tcb_upds :=
  rewrite ?tcb_set_head, ?tcb_set_bitmask;
  repeat (rewrite tcb_upd by (rewrite ?valid_task_upd, ?valid_set_head, ?valid_set_bitmask; assumption);
          rewrite ?tcb_set_head, ?tcb_set_bitmask).

(** [push_ready] on an empty queue. *)
Lemma push_ready_empty k Q i :
  rq_linked k Q -> is_task k i -> Q (prio_slot (tcb k i)) = [] ->
  rq_linked (push_ready i k) (upq Q (prio_slot (tcb k i)) [i]).
Proof.
  intros HL Hi HQ. pose proof (rl_slot HL i Hi) as Hp. pose proof (rl_valid HL i Hi) as Hv.
  pose proof (push_ready_frame i k) as Hs. revert Hs. unfold push_ready.
  destruct (Z.leb_spec MAX_TASKS i) as [Hge|_]; [pose proof (rl_lt_max HL i Hi); lia|]. set (p := prio_slot (tcb k i)) in *.
  rewrite (rl_head _ _ HL p Hp), HQ. cbn [qhead]. cbn [Z.eqb Z.opp Pos.eqb]. cbv zeta. intros Hs. set (k' := set_ready_bitmask _ _) in *.
  assert (Hn : forall a, nx k' a = if decide (a = i) then i else nx k a).
  { intros a. unfold nx, k'. tcb_upds. repeat case_decide; congruence || done. }
  assert (Hpv : forall a, pv k' a = if decide (a = i) then i else pv k a).
  { intros a. unfold pv, k'. tcb_upds. repeat case_decide; congruence || done. }
  apply (rq_linked_update HL); try done.
  + rewrite ring_singleton, Hn, Hpv, !decide_True; done.
  + apply NoDup_singleton.
  + intros j ->%list_elem_of_singleton. done.
  + cbn. rewrite length_zalter. apply HL.
  + intros p' Hp'. exact (zlookup_set_head HL p i p' Hp).
  + cbn. apply bit_set_range; [apply HL|apply Hp].
  + intros p' Hp'. cbn. rewrite bit_set_testbit by apply Hp.
    destruct (decide (p' = p)) as [->|Hne]; [by rewrite Z.eqb_refl|]. by rewrite (proj2 (Z.eqb_neq p p')) by congruence.
  + intros j Hj Hne. rewrite Hn, Hpv, !decide_False by (intros ->; done). done.
  + intros j Hj Hjp Hjl. rewrite Hn. case_decide; [set_solver|]. apply HL; [done|]. fold p. rewrite Hjp, HQ. set_solver.
Qed.

(** [push_ready] behind the last task of a queue. *)
Lemma push_ready_tail k Q i x t :
  rq_linked k Q -> is_task k i -> i ∉ Q (prio_slot (tcb k i)) -> Q (prio_slot (tcb k i)) = x :: t ->
  rq_linked (push_ready i k) (upq Q (prio_slot (tcb k i)) (x :: t ++ [i])).
Proof.
  intros HL Hi Hnin HQ. pose proof (rl_slot HL i Hi) as Hp. pose proof (rl_valid HL i Hi) as Hv.
  pose proof (push_ready_frame i k) as Hs. revert Hs. unfold push_ready.
  destruct (Z.leb_spec MAX_TASKS i) as [Hge|_]; [pose proof (rl_lt_max HL i Hi); lia|]. set (p := prio_slot (tcb k i)) in *.
  destruct (Z.eqb_spec (zlookup (ready_head k) p) (-1)) as [He|_]; [by eapply rl_qhead_ne in HQ|].
  rewrite (rl_head _ _ HL p Hp). cbv zeta. pose proof (rl_ring _ _ HL p Hp) as Hring. pose proof (rl_nodup _ _ HL p Hp) as Hnd.
  rewrite HQ in Hring, Hnd, Hnin |- *. cbn [qhead]. destruct (last (x :: t)) as [z|] eqn:Hl; [|by apply last_None in Hl].
  pose proof (ring_prev_head _ _ _ _ _ Hring Hl) as [Hpz Hnz]. fold (pv k x). rewrite Hpz. intros Hs. set (k' := upd x _ _) in *.
  assert (Hin : forall a, a ∈ x :: t -> is_task k a /\ prio_slot (tcb k a) = p) by (intros a Ha; apply (rl_elem _ _ HL); [done|by rewrite HQ]).
  assert (Hzin : z ∈ x :: t) by (apply last_Some in Hl as [l' ->]; set_solver).
  assert (Hvx : valid_task k x) by (apply (rl_valid HL), Hin; set_solver). assert (Hvz : valid_task k z) by (by apply (rl_valid HL), Hin).
  assert (Hn : forall a, nx k' a = if decide (a = i) then x else if decide (a = z) then i else nx k a).
  { intros a. unfold nx, k'. tcb_upds. repeat case_decide; congruence || done. }
  assert (Hpv : forall a, pv k' a = if decide (a = x) then i else if decide (a = i) then z else pv k a).
  { intros a. unfold pv, k'. tcb_upds. repeat case_decide; congruence || done. }
  apply (rq_linked_update HL); try done.
  + by eapply ring_append.
  + rewrite app_comm_cons. apply NoDup_app. split; [done|]. split; [|apply NoDup_singleton]. set_solver.
  + intros j Hj. rewrite app_comm_cons in Hj. apply elem_of_app in Hj as [Hj| ->%list_elem_of_singleton]; auto.
  + cbn. apply HL.
  + intros p' Hp'. cbn. case_decide; [subst|done]. rewrite (rl_head _ _ HL), HQ by done. done.
  + apply HL.
  + intros p' Hp'. cbn. case_decide; [subst|done]. by rewrite (rl_bit _ _ HL), HQ by done.
  + intros j Hj Hne. rewrite Hn, Hpv. rewrite !decide_False; [done|..]; intros ->; try done; apply Hne, Hin; set_solver.
  + intros j Hj Hjp Hjl. rewrite Hn, !decide_False by (intros ->; set_solver). apply HL; [done|]. fold p. rewrite Hjp, HQ. set_solver.
Qed.

(** [push_ready] appends the task at the tail of the queue of its priority. *)
Lemma push_ready_linked k Q i :
  rq_linked k Q -> is_task k i -> i ∉ Q (prio_slot (tcb k i)) ->
  rq_linked (push_ready i k)
    (upq Q (prio_slot (tcb k i)) (Q (prio_slot (tcb k i)) ++ [i])).
Proof.
  intros HL Hi Hnin. destruct (Q (prio_slot (tcb k i))) as [|x t] eqn:HQ; [by apply push_ready_empty|].
  apply push_ready_tail; [done|done|by rewrite HQ|done].
Qed.

Lemma del_split i l1 l2 : NoDup (l1 ++ i :: l2) -> del i (l1 ++ i :: l2) = l1 ++ l2.
Proof.
  intros Hnd. apply NoDup_app in Hnd as (_ & Hd & Hnd2). apply NoDup_cons in Hnd2 as [Hi _].
  unfold del. rewrite filter_app, filter_cons, decide_False by auto.
  assert (forall l : list Z, i ∉ l -> filter (fun j => j <> i) l = l) as Hid.
  { intros l. induction l as [|a l IH]; [done|]. intros Ha.
    rewrite filter_cons, decide_True, IH; set_solver. }
  rewrite !Hid; [done|done|]. intros H. apply (Hd i H). set_solver.
Qed.

Lemma elem_of_del i j l : j ∈ del i l <-> j ∈ l /\ j <> i.
Proof. unfold del. rewrite list_elem_of_filter. tauto. Qed.

Lemma del_notin i l : i ∉ del i l.
Proof. rewrite elem_of_del. tauto. Qed.

(** [remove_ready] of the only task of a queue. *)
Lemma remove_ready_only k Q i :
  rq_linked k Q -> is_task k i -> Q (prio_slot (tcb k i)) = [i] ->
  rq_linked (remove_ready i k) (upq Q (prio_slot (tcb k i)) []).
Proof.
  intros HL Hi HQ. pose proof (rl_slot HL i Hi) as Hp. pose proof (rl_valid HL i Hi) as Hv.
  pose proof (remove_ready_frame i k) as Hs. revert Hs. unfold remove_ready.
  destruct (Z.leb_spec MAX_TASKS i) as [Hge|_]; [pose proof (rl_lt_max HL i Hi); lia|].
  set (p := prio_slot (tcb k i)) in *. pose proof (rl_ring _ _ HL p Hp) as Hring. rewrite HQ in Hring. apply ring_singleton in Hring as [Hni Hpi].
  change (next_ready (scheduler (tcb k i))) with (nx k i). rewrite Hni. destruct (Z.eqb_spec i (-1)); [unfold is_task in Hi; lia|].
  rewrite Z.eqb_refl. cbv zeta. intros Hs. set (k' := upd i _ _) in *.
  assert (Hn : forall a, nx k' a = if decide (a = i) then -1 else nx k a).
  { intros a. unfold nx, k'. tcb_upds. repeat case_decide; congruence || done. }
  assert (Hpv : forall a, pv k' a = if decide (a = i) then -1 else pv k a).
  { intros a. unfold pv, k'. tcb_upds. repeat case_decide; congruence || done. }
  apply (rq_linked_update HL); try done.
  + apply NoDup_nil_2.
  + set_solver.
  + cbn. rewrite length_zalter. apply HL.
  + intros p' Hp'. exact (zlookup_set_head HL p (-1) p' Hp).
  + cbn. apply bit_clear_range; [apply HL|apply Hp].
  + intros p' Hp'. cbn. rewrite bit_clear_testbit by (apply Hp || apply Hp').
    destruct (decide (p' = p)) as [->|Hne]; [by rewrite Z.eqb_refl|]. by rewrite (proj2 (Z.eqb_neq p p')) by congruence.
  + intros j Hj Hne. rewrite Hn, Hpv, !decide_False by (intros ->; done). done.
  + intros j Hj Hjp _. rewrite Hn. case_decide; [done|]. apply HL; [done|]. rewrite Hjp, HQ. set_solver.
Qed.

(** The neighbours of a queued task: rotated to the front, the ring continues
    with its successor and ends with its predecessor. *)
Lemma ring_neighbours k Q p i l1 l2 y t z :
  rq_linked k Q -> is_prio p -> Q p = l1 ++ i :: l2 -> l2 ++ l1 = y :: t -> last (y :: t) = Some z ->
  ring (nx k) (pv k) (i :: y :: t) /\ NoDup (i :: y :: t) /\ nx k i = y /\ pv k i = z /\
  (forall a, a ∈ y :: t <-> a ∈ l1 ++ l2) /\ (forall a, a ∈ y :: t -> is_task k a /\ prio_slot (tcb k a) = p /\ a <> i).
Proof.
  intros HL Hp HQ Hrest Hl. pose proof (rl_ring _ _ HL p Hp) as Hring. pose proof (rl_nodup _ _ HL p Hp) as Hnd. rewrite HQ in Hring, Hnd.
  apply (ring_rotate_app _ _ l1 (i :: l2)) in Hring. cbn [app] in Hring. rewrite Hrest in Hring.
  assert (Hnd' : NoDup (i :: y :: t)).
  { rewrite <- Hrest. rewrite app_comm_cons, (Permutation_app_comm (i :: l2) l1). done. }
  assert (Hperm : forall a, a ∈ y :: t <-> a ∈ l1 ++ l2) by (intros a; rewrite <- Hrest, !elem_of_app; tauto).
  split; [done|]. split; [done|]. split; [by destruct (ring_next_head _ _ _ _ _ Hring)|].
  split; [by destruct (ring_prev_head _ _ _ _ z Hring)|]. split; [done|]. intros a Ha. destruct (rl_elem _ _ HL p a Hp) as [Ht Hs].
  - rewrite HQ. apply Hperm in Ha. set_solver.
  - split; [done|]. split; [done|]. intros ->. by apply NoDup_cons in Hnd' as [Hnd' _].
Qed.

(** [remove_ready] of a task with neighbours [z] and [y], written out. *)
Definition unlinked (p i y z : Z) (k : Kernel) : Kernel :=
  let k := upd y (set_prev_ready z) (upd z (set_next_ready y) k) in
  let k := if zlookup (ready_head k) p =? i then set_head p y k else k in
  upd i (set_prev_ready (-1)) (upd i (set_next_ready (-1)) k).

Lemma unlinked_links p i y z k :
  valid_task k i -> valid_task k y -> valid_task k z -> y <> i -> z <> i ->
  (forall a, nx (unlinked p i y z k) a = if decide (a = i) then -1 else if decide (a = z) then y else nx k a) /\
  (forall a, pv (unlinked p i y z k) a = if decide (a = i) then -1 else if decide (a = y) then z else pv k a).
Proof.
  intros Hv Hvy Hvz Hyi Hzi. unfold unlinked. cbv zeta. set (k1 := upd y (set_prev_ready z) (upd z (set_next_ready y) k)).
  set (k2 := if _ =? i then _ else _). assert (Hk2 : forall a, tcb k2 a = tcb k1 a) by (intros a; unfold k2; by destruct (_ =? i)).
  assert (Hv2 : valid_task k2 i) by (unfold k2; destruct (_ =? i); unfold k1; rewrite ?valid_set_head, !valid_task_upd; done).
  split; intros a; unfold nx, pv; tcb_upds; rewrite !Hk2; unfold k1; tcb_upds; repeat case_decide; congruence || done.
Qed.

(** The heads and the mask after that. *)
Lemma unlinked_heads k Q p i y z l1 l2 t :
  rq_linked k Q -> is_prio p -> Q p = l1 ++ i :: l2 -> l2 ++ l1 = y :: t ->
  let k' := unlinked p i y z k in
  Z.of_nat (length (ready_head k')) = NUM_PRIORITIES /\ ready_bitmask k' = ready_bitmask k /\
  (forall p', is_prio p' -> zlookup (ready_head k') p' = if decide (p' = p) then qhead (l1 ++ l2) else zlookup (ready_head k) p').
Proof.
  intros HL Hp HQ Hrest. cbv zeta. unfold unlinked. cbv zeta. set (k1 := upd y (set_prev_ready z) (upd z (set_next_ready y) k)).
  set (k2 := if _ =? i then _ else _). change (ready_head (upd i _ _)) with (ready_head k2). change (ready_bitmask (upd i _ _)) with (ready_bitmask k2).
  pose proof (rl_head _ _ HL p Hp) as Hhd. pose proof (rl_nodup _ _ HL p Hp) as Hnd. rewrite HQ in Hhd, Hnd.
  split; [unfold k2; destruct (_ =? i); cbn; rewrite ?length_zalter; apply HL|]. split; [unfold k2; by destruct (_ =? i)|].
  intros p' Hp'. unfold k2. change (zlookup (ready_head k1) p) with (zlookup (ready_head k) p). rewrite Hhd.
  destruct l1 as [|a l1]; cbn [app qhead].
  - rewrite Z.eqb_refl. change (ready_head (set_head p y k1)) with (ready_head (set_head p y k)).
    rewrite (zlookup_set_head HL p y p' Hp). rewrite app_nil_r in Hrest. by rewrite Hrest.
  - destruct (Z.eqb_spec a i) as [->|_]; [apply NoDup_cons in Hnd as [Hnd _]; set_solver|]. case_decide; [subst|done]. exact Hhd.
Qed.

(** [remove_ready] of one task among others. *)
Lemma remove_ready_other k Q i l1 l2 y t :
  rq_linked k Q -> is_task k i -> Q (prio_slot (tcb k i)) = l1 ++ i :: l2 -> l2 ++ l1 = y :: t ->
  rq_linked (remove_ready i k) (upq Q (prio_slot (tcb k i)) (l1 ++ l2)).
Proof.
  intros HL Hi HQ Hrest. pose proof (rl_slot HL i Hi) as Hp. pose proof (remove_ready_frame i k) as Hs. set (p := prio_slot (tcb k i)) in *.
  destruct (last (y :: t)) as [z|] eqn:Hl; [|by apply last_None in Hl]. assert (Hzin : z ∈ y :: t) by (apply last_Some in Hl as [l' ->]; set_solver).
  destruct (ring_neighbours k Q p i l1 l2 y t z HL Hp HQ Hrest Hl) as (Hring & Hnd & Hni & Hpi & Hperm & Hyt).
  destruct (Hyt y) as (Hyk & _ & Hyi); [left|]. destruct (Hyt z Hzin) as (Hzk & _ & Hzi).
  assert (Ek : remove_ready i k = unlinked p i y z k).
  { unfold remove_ready. destruct (Z.leb_spec MAX_TASKS i) as [Hge|_]; [pose proof (rl_lt_max HL i Hi); lia|]. fold p.
    change (next_ready (scheduler (tcb k i))) with (nx k i). change (prev_ready (scheduler (tcb k i))) with (pv k i). rewrite Hni, Hpi.
    destruct (Z.eqb_spec y (-1)); [unfold is_task in Hyk; lia|]. by destruct (Z.eqb_spec y i). }
  rewrite Ek in *. destruct (unlinked_links p i y z k) as [Hn Hpv]; [by apply (rl_valid HL)..|done|done|].
  destruct (unlinked_heads k Q p i y z l1 l2 t HL Hp HQ Hrest) as (Hlen & Hmask & Hheads). set (k' := unlinked p i y z k) in *. clearbody k'.
  assert (Hne : l1 ++ l2 <> []) by (intros H; specialize (proj1 (Hperm y)); rewrite H; set_solver).
  pose proof (rl_nodup _ _ HL p Hp) as Hnd0. rewrite HQ in Hnd0. apply NoDup_app in Hnd0 as (H1 & H2 & [_ H3]%NoDup_cons).
  apply (rq_linked_update HL); try done.
  + apply ring_rotate_app. rewrite Hrest. eapply (ring_unlink (nx k) (pv k) _ _ i); [done|done|done|..]; intros a Ha;
      [rewrite Hn|rewrite Hpv]; (rewrite decide_False; [done|]; by apply Hyt).
  + apply NoDup_app. split; [done|]. split; [|done]. set_solver.
  + intros j Hj. destruct (Hyt j) as (?&?&?); [by apply Hperm|done].
  + rewrite Hmask. apply HL.
  + intros p' Hp'. rewrite Hmask. case_decide; [subst|done]. rewrite (rl_bit _ _ HL), HQ by done.
    rewrite !bool_decide_eq_true_2; [done|done|]. by destruct l1.
  + intros j Hj Hnp. rewrite Hn, Hpv. rewrite !decide_False; [done|..]; intros ->; try done; apply Hnp, Hyt; set_solver.
  + intros j Hj Hjp Hjl. rewrite Hn. case_decide; [done|]. rewrite decide_False by (intros ->; by apply Hjl, Hperm).
    apply HL; [done|]. rewrite Hjp, HQ. set_solver.
Qed.

(** [remove_ready] unlinks a queued task and keeps the order of the others. *)
Lemma remove_ready_linked k Q i :
  rq_linked k Q -> is_task k i -> i ∈ Q (prio_slot (tcb k i)) ->
  rq_linked (remove_ready i k)
    (upq Q (prio_slot (tcb k i)) (del i (Q (prio_slot (tcb k i))))).
Proof.
  intros HL Hi Hin. pose proof (rl_slot HL i Hi) as Hp. pose proof (rl_nodup _ _ HL _ Hp) as Hnd.
  apply list_elem_of_split in Hin as (l1 & l2 & HQ). rewrite HQ in Hnd |- *. rewrite del_split by done.
  destruct (l2 ++ l1) as [|y t] eqn:Hrest; [|by eapply remove_ready_other].
  apply app_eq_nil in Hrest as [-> ->]. by apply remove_ready_only.
Qed.

(** Removing a task that is in no queue does nothing. *)
Lemma remove_ready_absent k Q i :
  rq_linked k Q -> is_task k i -> i ∉ Q (prio_slot (tcb k i)) -> remove_ready i k = k.
Proof.
  intros HL Hi Hnin. unfold remove_ready.
  change (next_ready (scheduler (tcb k i))) with (nx k i).
  rewrite (rl_out _ _ HL i Hi Hnin). cbn. by destruct (MAX_TASKS <=? i).
Qed.

(** * State and priority changes *)

Definition link_view (t : TaskControlBlock) : Z * Z * Z :=
  (current_priority (scheduler t), next_ready (scheduler t), prev_ready (scheduler t)).

Definition sched_view (t : TaskControlBlock) : Z * Z * Z * TaskState * Z :=
  (link_view t, sched_state (scheduler t), sched_id (scheduler t)).

(** [k'] has the same queue heads, mask and task count as [k]. *)
Definition same_heads (k k' : Kernel) : Prop :=
  length (tasks k') = length (tasks k) /\ task_count k' = task_count k /\
  ready_head k' = ready_head k /\ ready_bitmask k' = ready_bitmask k.

Lemma rq_linked_ext k k' Q :
  same_heads k k' -> (forall i, is_task k i -> link_view (tcb k' i) = link_view (tcb k i)) ->
  rq_linked k Q -> rq_linked k' Q.
Proof.
  intros (Hlen & Hcnt & Hh & Hm) Hv HL.
  assert (Ht : forall i, is_task k' i <-> is_task k i) by (intros; unfold is_task; by rewrite Hcnt).
  assert (Hps : forall i, is_task k i -> prio_slot (tcb k' i) = prio_slot (tcb k i)).
  { intros i Hi. unfold prio_slot. specialize (Hv i Hi). unfold link_view in Hv.
    by replace (current_priority (scheduler (tcb k' i)))
      with (current_priority (scheduler (tcb k i))) by congruence. }
  assert (Hlk : forall i, is_task k i -> nx k' i = nx k i /\ pv k' i = pv k i).
  { intros i Hi. specialize (Hv i Hi). unfold link_view in Hv. unfold nx, pv. split; congruence. }
  split; rewrite ?Hlen, ?Hcnt, ?Hh, ?Hm; try apply HL.
  - intros i Hi%Ht. specialize (Hv i Hi). unfold link_view in Hv.
    replace (current_priority _) with (current_priority (scheduler (tcb k i))) by congruence.
    by apply HL.
  - intros p Hp. eapply ring_ext; [| |by apply HL]; intros a Ha;
      apply (rl_elem _ _ HL) in Ha as [Ha _]; try done; by apply Hlk.
  - intros p i Hp Hi. destruct (rl_elem _ _ HL p i Hp Hi) as [Hk Hps'].
    rewrite Hps by done. by rewrite Ht.
  - intros i Hi%Ht. rewrite Hps by done. intros Hn. rewrite (proj1 (Hlk i Hi)). by apply HL.
Qed.

Lemma sched_inv_ext k k' Q :
  same_heads k k' -> (forall i, 0 <= i < MAX_TASKS -> sched_view (tcb k' i) = sched_view (tcb k i)) ->
  sched_inv k Q -> sched_inv k' Q.
Proof.
  intros Hh Hv HI. pose proof (si_linked _ _ HI) as HL. pose proof Hh as (Hlen & Hcnt & _).
  assert (Hr : forall i, is_task k i -> 0 <= i < MAX_TASKS).
  { intros i Hi. split; [apply Hi|by apply (rl_lt_max HL)]. }
  assert (Ht : forall i, is_task k' i <-> is_task k i) by (intros; unfold is_task; by rewrite Hcnt).
  split.
  - eapply rq_linked_ext; [done| |done]. intros i Hi. specialize (Hv i (Hr i Hi)).
    unfold sched_view in Hv. congruence.
  - intros i Hi%Ht. specialize (Hv i (Hr i Hi)). unfold sched_view, link_view in Hv.
    unfold prio_slot.
    replace (current_priority (scheduler (tcb k' i))) with (current_priority (scheduler (tcb k i))) by congruence.
    replace (sched_state (scheduler (tcb k' i))) with (sched_state (scheduler (tcb k i))) by congruence.
    by apply (si_ready _ _ HI).
  - intros i Hi%Ht. specialize (Hv i (Hr i Hi)). unfold sched_view in Hv.
    replace (sched_id (scheduler (tcb k' i))) with (sched_id (scheduler (tcb k i))) by congruence.
    by apply HI.
  - rewrite Hcnt. intros i Hi. assert (0 <= i < MAX_TASKS) as Hi'.
    { pose proof (rl_count _ _ HL). lia. }
    specialize (Hv i Hi'). unfold sched_view in Hv.
    replace (sched_state (scheduler (tcb k' i))) with (sched_state (scheduler (tcb k i))) by congruence.
    by apply HI.
Qed.

Lemma sched_inv_upd i f k Q :
  (forall t, sched_view (f t) = sched_view t) -> sched_inv k Q -> sched_inv (upd i f k) Q.
Proof.
  intros Hf. apply sched_inv_ext.
  - repeat split. apply length_tasks_upd.
  - intros j _. by apply tcb_upd_frame.
Qed.

Lemma rq_linked_upd i f k Q :
  (forall t, link_view (f t) = link_view t) -> rq_linked k Q -> rq_linked (upd i f k) Q.
Proof.
  intros Hf. apply rq_linked_ext.
  - repeat split. apply length_tasks_upd.
  - intros j _. by apply tcb_upd_frame.
Qed.

Lemma is_task_guard k id : 0 <= id ->
  ((MAX_TASKS <=? id) || (task_count k <=? id)) = false -> is_task k id.
Proof. intros H0 [_ H]%orb_false_iff. apply Z.leb_gt in H. by split. Qed.

Lemma upq_eq Q p l : upq Q p l p = l.
Proof. unfold upq. by rewrite decide_True. Qed.
Lemma upq_ne Q p l p' : p' <> p -> upq Q p l p' = Q p'.
Proof. intros. unfold upq. by rewrite decide_False. Qed.

(** From the links to the full invariant: only task [id] changed state,
    priority or queue membership. *)
Lemma sched_inv_of_linked k k' Q Q' id :
  sched_inv k Q -> is_task k id -> rq_linked k' Q' -> task_count k' = task_count k ->
  (forall i, i <> id -> 0 <= i < MAX_TASKS -> current_priority (scheduler (tcb k' i)) = current_priority (scheduler (tcb k i)) /\
     sched_state (scheduler (tcb k' i)) = sched_state (scheduler (tcb k i))) ->
  (forall i, sched_id (scheduler (tcb k' i)) = sched_id (scheduler (tcb k i))) ->
  (forall i p, i <> id -> (i ∈ Q' p <-> i ∈ Q p)) ->
  (id ∈ Q' (prio_slot (tcb k' id)) <-> sched_state (scheduler (tcb k' id)) = Ready) ->
  sched_inv k' Q'.
Proof.
  intros HI Hid HL' Hcnt Hv Hids Hmem Hq.
  assert (Hr : forall i, is_task k i -> 0 <= i < MAX_TASKS).
  { intros i Hi. split; [apply Hi|by apply (rl_lt_max (si_linked _ _ HI))]. }
  assert (Ht : forall i, is_task k' i <-> is_task k i) by (intros; unfold is_task; by rewrite Hcnt).
  split; [done|..].
  - intros i Hi%Ht. destruct (decide (i = id)) as [->|Hne]; [done|].
    destruct (Hv i Hne (Hr i Hi)) as [Hp Hs]. rewrite Hs, Hmem by done.
    unfold prio_slot at 1. rewrite Hp. by apply HI.
  - intros i Hi%Ht. rewrite Hids. by apply HI.
  - rewrite Hcnt. intros i Hi. destruct Hid as [? Hlt].
    destruct (Hv i) as [_ ->]; [lia| |by apply HI].
    pose proof (rl_count _ _ (si_linked _ _ HI)). lia.
Qed.

Definition dequeued (id : Z) (k : Kernel) : Kernel :=
  if decide (sched_state (scheduler (tcb k id)) = Ready) then remove_ready id k else k.

Definition abs_dequeued (k : Kernel) (id : Z) (Q : Z -> list Z) : Z -> list Z :=
  let p := prio_slot (tcb k id) in
  if decide (sched_state (scheduler (tcb k id)) = Ready) then upq Q p (del id (Q p)) else Q.

Lemma dequeued_frame id k : same_but_links k (dequeued id k).
Proof. unfold dequeued. case_decide; [apply remove_ready_frame|done]. Qed.

Lemma abs_dequeued_mem k id Q i p : i <> id -> i ∈ abs_dequeued k id Q p <-> i ∈ Q p.
Proof.
  intros Hne. unfold abs_dequeued. case_decide; [|done]. unfold upq.
  case_decide; [subst|done]. rewrite elem_of_del. tauto.
Qed.

Lemma dequeued_linked k Q id :
  sched_inv k Q -> is_task k id -> rq_linked (dequeued id k) (abs_dequeued k id Q).
Proof.
  intros HI Hid. unfold dequeued, abs_dequeued. case_decide as Hr; [|apply HI].
  apply remove_ready_linked; [apply HI|done|]. by apply HI.
Qed.

Lemma dequeued_absent k Q id p :
  sched_inv k Q -> is_task k id -> is_prio p -> id ∉ abs_dequeued k id Q p.
Proof.
  intros HI Hid Hp Hin.
  pose proof (dequeued_linked _ _ _ HI Hid) as HL.
  apply (rl_elem _ _ HL) in Hin as Hs; [|done]. destruct Hs as [_ Hs].
  rewrite (sbl_prio_slot (dequeued_frame id k)) in Hs. subst p.
  revert Hin. unfold abs_dequeued. case_decide as Hr.
  - rewrite upq_eq. apply del_notin.
  - intros Hin. apply (si_ready _ _ HI) in Hin; done.
Qed.

(** Both public operations take the task off its queue, rewrite its control
    block and queue it again when the result is [Ready]. *)
Section Requeue.
Context (id : Z) (f : TaskControlBlock -> TaskControlBlock).
Hypothesis f_links : forall t,
  next_ready (scheduler (f t)) = next_ready (scheduler t) /\
  prev_ready (scheduler (f t)) = prev_ready (scheduler t) /\
  sched_id (scheduler (f t)) = sched_id (scheduler t).
Hypothesis f_erase : forall t, erase_links (f t) = f (erase_links t).

(** Rewriting a task that is in no queue, also its priority. *)
Lemma rq_linked_upd_absent k Q :
  rq_linked k Q -> is_task k id -> (forall p, is_prio p -> id ∉ Q p) ->
  0 <= current_priority (scheduler (f (tcb k id))) -> rq_linked (upd id f k) Q.
Proof.
  intros HL Hid Habs Hprio. pose proof (rl_valid HL id Hid) as Hv.
  assert (Hps : forall i, i <> id -> prio_slot (tcb (upd id f k) i) = prio_slot (tcb k i)).
  { intros i Hne. by rewrite tcb_upd_ne. }
  assert (Hlk : forall i, nx (upd id f k) i = nx k i /\ pv (upd id f k) i = pv k i).
  { intros i. split; unfold nx, pv.
    - apply (tcb_upd_frame (fun t => next_ready (scheduler t))). apply f_links.
    - apply (tcb_upd_frame (fun t => prev_ready (scheduler t))). apply f_links. }
  split; try apply HL.
  - rewrite length_tasks_upd. apply HL.
  - intros i Hi. rewrite tcb_upd by done. case_decide; [by subst|]. by apply HL.
  - intros p Hp. eapply ring_ext; [| |by apply HL]; intros; apply Hlk.
  - intros p i Hp Hin. rewrite Hps; [by apply HL|]. intros ->. by apply (Habs p).
  - intros i Hi. rewrite (proj1 (Hlk i)). destruct (decide (i = id)) as [->|Hne].
    + intros _. apply HL; [done|]. by apply Habs, (rl_slot HL).
    + rewrite Hps by done. by apply HL.
Qed.

Definition requeue (b : bool) (k : Kernel) : Kernel :=
  let k := upd id f (dequeued id k) in if b then push_ready id k else k.

Definition abs_requeue (b : bool) (k : Kernel) (Q : Z -> list Z) : Z -> list Z :=
  let p := prio_slot (f (tcb k id)) in
  let Q := abs_dequeued k id Q in if b then upq Q p (Q p ++ [id]) else Q.

Lemma requeue_frame b k :
  same_but_links (upd id f (dequeued id k)) (requeue b k).
Proof. unfold requeue. destruct b; [apply push_ready_frame|done]. Qed.

Lemma requeue_proj {A} (g : TaskControlBlock -> A) b k i :
  valid_task k id -> (forall t, g (erase_links t) = g t) ->
  g (tcb (requeue b k) i) = g (if decide (i = id) then f (tcb k i) else tcb k i).
Proof.
  intros Hv Hg. pose proof (dequeued_frame id k) as Hf.
  rewrite (sbl_proj (requeue_frame b k) g) by done.
  rewrite tcb_upd by (unfold valid_task, in_range in *; by rewrite (su_len _ _ _ _ Hf)).
  repeat case_decide; try congruence; [|by apply (sbl_proj Hf g)].
  by rewrite <- Hg, f_erase, (su_task _ _ _ _ Hf), <- f_erase, Hg.
Qed.

Lemma requeue_inv b k Q :
  sched_inv k Q -> is_task k id ->
  0 <= current_priority (scheduler (f (tcb k id))) ->
  (b = true <-> sched_state (scheduler (f (tcb k id))) = Ready) ->
  sched_inv (requeue b k) (abs_requeue b k Q).
Proof.
  intros HI Hid Hprio Hb.
  pose proof (dequeued_frame id k) as Hf. pose proof (dequeued_linked _ _ _ HI Hid) as HL1.
  pose proof (rl_valid (si_linked _ _ HI) id Hid) as Hv.
  pose proof (fun p => dequeued_absent k Q id p HI Hid) as Habs.
  pose proof (fun A g i => requeue_proj (A := A) g b k i Hv) as Hproj.
  assert (Ht1 : is_task (dequeued id k) id) by (by apply (sbl_is_task Hf)).
  assert (Hfid : f (tcb (dequeued id k) id) = f (tcb k id) \/
    erase_links (f (tcb (dequeued id k) id)) = erase_links (f (tcb k id))).
  { right. by rewrite !f_erase, (su_task _ _ _ _ Hf). }
  assert (Hpf : forall A (g : TaskControlBlock -> A), (forall t, g (erase_links t) = g t) ->
    g (f (tcb (dequeued id k) id)) = g (f (tcb k id))).
  { intros A g Hg. destruct Hfid as [->|He]; [done|]. by rewrite <- Hg, He, Hg. }
  assert (Hslot : is_prio (prio_slot (f (tcb k id)))).
  { unfold is_prio, prio_slot, NUM_PRIORITIES. zbool. }
  apply (sched_inv_of_linked k _ Q _ id); try done.
  - unfold requeue, abs_requeue. cbv zeta.
    pose proof (rl_valid HL1 id Ht1) as Hv1.
    assert (HL2 : rq_linked (upd id f (dequeued id k)) (abs_dequeued k id Q)).
    { apply rq_linked_upd_absent; [done|done|done|].
      by rewrite (Hpf _ (fun t => current_priority (scheduler t))). }
    destruct b; [|done].
    rewrite <- (Hpf _ prio_slot), <- (tcb_upd_eq id f (dequeued id k)) by done.
    apply push_ready_linked; [done|done|].
    rewrite tcb_upd_eq, (Hpf _ prio_slot) by done. by apply Habs.
  - rewrite (sbl_env_proj (requeue_frame b k) task_count) by done.
    by apply (sbl_env_proj Hf task_count).
  - intros i Hne _. rewrite (Hproj _ (fun t => current_priority (scheduler t))),
      (Hproj _ (fun t => sched_state (scheduler t))) by done. by rewrite !decide_False.
  - intros i. rewrite (Hproj _ (fun t => sched_id (scheduler t))) by done.
    case_decide; [apply f_links|done].
  - intros i p Hne. rewrite <- (abs_dequeued_mem k id Q i p Hne). unfold abs_requeue.
    destruct b; [|done]. unfold upq. case_decide; [subst|done]. set_solver.
  - rewrite (Hproj _ prio_slot), (Hproj _ (fun t => sched_state (scheduler t))),
      !decide_True by done.
    rewrite <- Hb. unfold abs_requeue. destruct b; [rewrite upq_eq; set_solver|].
    split; [|done]. intros Hin. by apply Habs in Hin.
Qed.
End Requeue.

(** Changing the state of a task keeps the invariant; the queues change as the
    abstract operation says. *)
Lemma set_task_state_inv k Q id s :
  sched_inv k Q -> 0 <= id -> sched_inv (set_task_state id s k) (abs_set_state k id s Q).
Proof.
  intros HI H0. unfold set_task_state, abs_set_state.
  destruct ((MAX_TASKS <=? id) || (task_count k <=? id)) eqn:Hg; [done|].
  apply is_task_guard in Hg; [|done]. case_decide as Hsame; [done|].
  pose proof (requeue_inv id (set_sched_state s)) as Hr.
  unfold requeue, abs_requeue, dequeued, abs_dequeued in Hr. cbv zeta in Hr |- *.
  destruct (decide (s = Ready)) as [->|Hs].
  - apply (Hr ltac:(done) ltac:(done) true k Q HI Hg); [|done].
    by apply (rl_prio _ _ (si_linked _ _ HI)).
  - apply (Hr ltac:(done) ltac:(done) false k Q HI Hg); [|done].
    by apply (rl_prio _ _ (si_linked _ _ HI)).
Qed.

(** Changing the priority of a task requeues it at the tail of its new level. *)
Lemma set_task_priority_inv k Q id prio :
  sched_inv k Q -> 0 <= id -> 0 <= prio ->
  sched_inv (set_task_priority id prio k) (abs_set_priority k id prio Q).
Proof.
  intros HI H0 Hprio. unfold set_task_priority, abs_set_priority.
  destruct ((MAX_TASKS <=? id) || (task_count k <=? id)) eqn:Hg; [done|].
  apply is_task_guard in Hg; [|done].
  destruct (current_priority (scheduler (tcb k id)) =? prio); [done|].
  pose proof (requeue_inv id (set_current_priority prio) ltac:(done) ltac:(done)
    (bool_decide (sched_state (scheduler (tcb k id)) = Ready)) k Q HI Hg Hprio
    (bool_decide_eq_true _)) as Hr.
  unfold requeue, abs_requeue, dequeued, abs_dequeued in *. cbv zeta in Hr |- *.
  destruct (decide (sched_state (scheduler (tcb k id)) = Ready)).
  - rewrite bool_decide_eq_true_2 in Hr |- * by done. exact Hr.
  - rewrite bool_decide_eq_false_2 in Hr |- * by done. exact Hr.
Qed.

(** * What clients of the scheduler may assume *)

Definition erase_state (t : TaskControlBlock) : TaskControlBlock :=
  set_sched_state Ready (erase_links t).
Definition erase_prio (t : TaskControlBlock) : TaskControlBlock :=
  set_current_priority 0 (erase_links t).
Definition erase_sched (t : TaskControlBlock) : TaskControlBlock :=
  set_sched_state Ready (set_current_priority 0 (erase_links t)).

(** [k'] differs from [k] at most in the scheduling of tasks. *)
Abbreviation same_but_sched := (same_upto erase_rq erase_sched).

Lemma set_task_state_frame id s k : same_upto erase_rq erase_state k (set_task_state id s k).
Proof.
  unfold set_task_state. destruct (_ || _); [done|]. case_decide; [done|].
  fold (dequeued id k). cbv zeta.
  assert (H1 : same_upto erase_rq erase_state k (upd id (set_sched_state s) (dequeued id k))).
  { etrans; [|by apply su_upd].
    eapply su_weaken; [| |apply dequeued_frame]; done. }
  case_decide; [|done]. etrans; [done|].
  eapply su_weaken; [| |apply push_ready_frame]; done.
Qed.

Lemma set_task_priority_frame id p k : same_upto erase_rq erase_prio k (set_task_priority id p k).
Proof.
  unfold set_task_priority. destruct (_ || _); [done|]. destruct (_ =? _); [done|]. cbv zeta.
  set (b := bool_decide _).
  assert (H0 : same_but_links k (if b then remove_ready id k else k)).
  { destruct b; [apply remove_ready_frame|done]. }
  assert (H1 : same_upto erase_rq erase_prio k
    (upd id (set_current_priority p) (if b then remove_ready id k else k))).
  { etrans; [|by apply su_upd]. eapply su_weaken; [| |exact H0]; done. }
  destruct b; [|done]. etrans; [done|].
  eapply su_weaken; [| |apply push_ready_frame]; done.
Qed.

Lemma set_task_state_same_sched id s k : same_but_sched k (set_task_state id s k).
Proof. eapply su_weaken; [| |apply set_task_state_frame]; done. Qed.
Lemma set_task_priority_same_sched id p k : same_but_sched k (set_task_priority id p k).
Proof. eapply su_weaken; [| |apply set_task_priority_frame]; done. Qed.

#[export] Hint Resolve set_task_state_same_sched set_task_priority_same_sched : aurora.

Definition sched_ok (k : Kernel) : Prop := exists Q, sched_inv k Q.

Lemma sched_ok_set_state k id s : sched_ok k -> 0 <= id -> sched_ok (set_task_state id s k).
Proof. intros [Q HI] H0. eexists. by apply set_task_state_inv. Qed.

Lemma sched_ok_set_priority k id p :
  sched_ok k -> 0 <= id -> 0 <= p -> sched_ok (set_task_priority id p k).
Proof. intros [Q HI] H0 Hp. eexists. by apply set_task_priority_inv. Qed.

Lemma sched_ok_upd i f k :
  (forall t, sched_view (f t) = sched_view t) -> sched_ok k -> sched_ok (upd i f k).
Proof. intros Hf [Q HI]. exists Q. by apply sched_inv_upd. Qed.

Lemma sched_ok_valid k i : sched_ok k -> is_task k i -> valid_task k i.
Proof. intros [Q HI]. apply (rl_valid (si_linked _ _ HI)). Qed.

Lemma sched_ok_len k : sched_ok k -> Z.of_nat (length (tasks k)) = MAX_TASKS.
Proof. intros [Q HI]. apply (rl_tasks _ _ (si_linked _ _ HI)). Qed.

Lemma sched_ok_id k i : sched_ok k -> is_task k i -> sched_id (scheduler (tcb k i)) = i.
Proof. intros [Q HI]. apply (si_id _ _ HI). Qed.

Lemma sched_ok_prio k i : sched_ok k -> is_task k i -> 0 <= current_priority (scheduler (tcb k i)).
Proof. intros [Q HI]. apply (rl_prio _ _ (si_linked _ _ HI)). Qed.

#[export] Hint Resolve sched_ok_set_state sched_ok_set_priority sched_ok_upd sched_ok_valid
  sched_ok_len sched_ok_prio : aurora.

(** The state and priority that result. *)
Lemma set_task_state_state k id s i :
  sched_ok k -> is_task k id ->
  sched_state (scheduler (tcb (set_task_state id s k) i)) =
  if decide (i = id) then s else sched_state (scheduler (tcb k i)).
Proof.
  intros Hok Hid. pose proof (sched_ok_valid _ _ Hok Hid) as Hv. destruct Hok as [Q HI].
  unfold set_task_state.
  destruct ((MAX_TASKS <=? id) || (task_count k <=? id)) eqn:Hg.
  { pose proof (rl_lt_max (si_linked _ _ HI) id Hid). destruct Hid as [_ Hid].
    apply orb_true_iff in Hg as [?%Z.leb_le|?%Z.leb_le]; lia. }
  case_decide as Hs; [case_decide; by subst|].
  pose proof (requeue_proj id (set_sched_state s) ltac:(done)
    (fun t => sched_state (scheduler t)) (bool_decide (s = Ready)) k i Hv ltac:(done)) as Hr.
  unfold requeue, dequeued in Hr. cbv zeta in Hr |- *.
  destruct (decide (s = Ready)).
  - rewrite bool_decide_eq_true_2 in Hr by done. rewrite Hr. by destruct (decide (i = id)).
  - rewrite bool_decide_eq_false_2 in Hr by done. rewrite Hr. by destruct (decide (i = id)).
Qed.

Lemma set_task_priority_prio k id p i :
  sched_ok k -> is_task k id ->
  current_priority (scheduler (tcb (set_task_priority id p k) i)) =
  if decide (i = id) then p else current_priority (scheduler (tcb k i)).
Proof.
  intros Hok Hid. pose proof (sched_ok_valid _ _ Hok Hid) as Hv. destruct Hok as [Q HI].
  unfold set_task_priority.
  destruct ((MAX_TASKS <=? id) || (task_count k <=? id)) eqn:Hg.
  { pose proof (rl_lt_max (si_linked _ _ HI) id Hid). destruct Hid as [_ Hid].
    apply orb_true_iff in Hg as [?%Z.leb_le|?%Z.leb_le]; lia. }
  destruct (Z.eqb_spec (current_priority (scheduler (tcb k id))) p); [case_decide; by subst|].
  pose proof (requeue_proj id (set_current_priority p) ltac:(done)
    (fun t => current_priority (scheduler t))
    (bool_decide (sched_state (scheduler (tcb k id)) = Ready)) k i Hv ltac:(done)) as Hr.
  unfold requeue, dequeued in Hr. cbv zeta in Hr |- *.
  destruct (decide (sched_state (scheduler (tcb k id)) = Ready)).
  - rewrite bool_decide_eq_true_2 in Hr |- * by done. rewrite Hr. by destruct (decide (i = id)).
  - rewrite bool_decide_eq_false_2 in Hr |- * by done. rewrite Hr. by destruct (decide (i = id)).
Qed.
