(* ===== verification/WaitQueue.v ===== *)
(** Endpoint wait queues (kernel/task/wait_queue.cpp).

    A [WaitQueue] is a singly linked list of blocked tasks threaded through
    [ipc.blocked_next], ordered by the priority the tasks had when they were
    queued.  [wq_repr k q l] relates it to the list [l] of task indices. *)
From Stdlib Require Import Sorting.Sorted.
From S2P Require Import Prelude Kernel.

(** * The code *)

Definition bn (k : Kernel) (i : Z) : option Z := blocked_next (ipc (tcb k i)).
Definition prio (k : Kernel) (i : Z) : Z := current_priority (scheduler (tcb k i)).

(** The queue holds at most one entry per task, so [MAX_TASKS] steps reach its
    end ([wq_length]). *)
Definition wq_fuel : nat := Z.to_nat MAX_TASKS.

(** [while (curr->next && curr->next->priority >= task->priority) curr = curr->next] *)
Fixpoint find_insert (fuel : nat) (k : Kernel) (t curr : Z) : Z :=
  match fuel with
  | O => curr
  | S fuel =>
      match bn k curr with
      | Some n => if prio k t <=? prio k n then find_insert fuel k t n else curr
      | None => curr
      end
  end.

Definition enqueue (task : option Z) (q : WaitQueue) (k : Kernel) : WaitQueue * Kernel :=
  match task with
  | None => (q, k)
  | Some t =>
      let k := upd t (set_blocked_next None) k in
      if match head_ q with None => true | Some h => prio k h <? prio k t end then
        let k := upd t (set_blocked_next (head_ q)) k in
        (mkWaitQueue (Some t) (match tail_ q with None => Some t | Some x => Some x end), k)
      else
        match head_ q with
        | None => (q, k)
        | Some h =>
            let curr := find_insert wq_fuel k t h in
            let k := upd t (set_blocked_next (bn k curr)) k in
            let k := upd curr (set_blocked_next (Some t)) k in
            (mkWaitQueue (head_ q) (if decide (Some curr = tail_ q) then Some t else tail_ q), k)
        end
  end.

Definition dequeue (q : WaitQueue) (k : Kernel) : option Z * WaitQueue * Kernel :=
  match head_ q with
  | None => (None, q, k)
  | Some t =>
      let h := bn k t in
      (Some t, mkWaitQueue h (match h with None => None | Some _ => tail_ q end),
       upd t (set_blocked_next None) k)
  end.

(** [while (curr->next && curr->next != task) curr = curr->next] *)
Fixpoint find_pred (fuel : nat) (k : Kernel) (t curr : Z) : Z :=
  match fuel with
  | O => curr
  | S fuel =>
      match bn k curr with
      | Some n => if decide (n = t) then curr else find_pred fuel k t n
      | None => curr
      end
  end.

(** [WaitQueue::remove]. *)
Definition wq_remove (task : option Z) (q : WaitQueue) (k : Kernel) : bool * WaitQueue * Kernel :=
  match head_ q, task with
  | Some h, Some t =>
      if decide (h = t) then
        let h' := bn k t in
        (true, mkWaitQueue h' (match h' with None => None | Some _ => tail_ q end),
         upd t (set_blocked_next None) k)
      else
        let curr := find_pred wq_fuel k t h in
        if decide (bn k curr = Some t) then
          let k := upd curr (set_blocked_next (bn k t)) k in
          (true, mkWaitQueue (head_ q) (if decide (tail_ q = Some t) then Some curr else tail_ q),
           upd t (set_blocked_next None) k)
        else (false, q, k)
  | _, _ => (false, q, k)
  end.

(** The scan of the two selective dequeues behind the head: unlink the first
    waiter that satisfies [P]. *)
Fixpoint unlink_first (fuel : nat) (P : TaskControlBlock -> bool) (prev : Z) (curr : option Z)
    (q : WaitQueue) (k : Kernel) : option Z * WaitQueue * Kernel :=
  match fuel, curr with
  | S fuel, Some c =>
      if P (tcb k c) then
        let k := upd prev (set_blocked_next (bn k c)) k in
        (Some c, mkWaitQueue (head_ q) (if decide (tail_ q = Some c) then Some prev else tail_ q),
         upd c (set_blocked_next None) k)
      else unlink_first fuel P c (bn k c) q k
  | _, _ => (None, q, k)
  end.

Definition dequeue_matching_sender (label : Z) (q : WaitQueue) (k : Kernel) :
    option Z * WaitQueue * Kernel :=
  match head_ q with
  | None => (None, q, k)
  | Some h =>
      if (label =? 0) || (msg_type (ipc (tcb k h)) =? label) then dequeue q k
      else unlink_first wq_fuel (fun t => msg_type (ipc t) =? label) h (bn k h) q k
  end.

Definition dequeue_matching_receiver (sender_label : Z) (q : WaitQueue) (k : Kernel) :
    option Z * WaitQueue * Kernel :=
  match head_ q with
  | None => (None, q, k)
  | Some h =>
      let f := label_filter (ipc (tcb k h)) in
      if (f =? 0) || (f =? sender_label) then dequeue q k
      else unlink_first wq_fuel
             (fun t => (label_filter (ipc t) =? 0) || (label_filter (ipc t) =? sender_label))
             h (bn k h) q k
  end.

(** * The abstract queue *)

(** Stable insertion by decreasing priority. *)
Fixpoint pins (pr : Z -> Z) (t : Z) (l : list Z) : list Z :=
  match l with
  | [] => [t]
  | a :: l' => if pr a <? pr t then t :: l else a :: pins pr t l'
  end.

(** The first element satisfying [P], and the list without it. *)
Fixpoint take_first (P : Z -> bool) (l : list Z) : option (Z * list Z) :=
  match l with
  | [] => None
  | a :: l' => if P a then Some (a, l')
               else '(x, r) ← take_first P l'; Some (x, a :: r)
  end.

Definition hd_or (l : list Z) (e : option Z) : option Z :=
  match l with [] => e | a :: _ => Some a end.

(** [seg nxt l e]: following [nxt] from the head of [l] visits [l] and then
    reaches [e]. *)
Fixpoint seg (nxt : Z -> option Z) (l : list Z) (e : option Z) : Prop :=
  match l with
  | [] => True
  | a :: l' => nxt a = hd_or l' e /\ seg nxt l' e
  end.

Record wq_repr (k : Kernel) (q : WaitQueue) (l : list Z) : Prop := {
  wq_head : head_ q = head l;
  wq_tail : tail_ q = last l;
  wq_seg : seg (bn k) l None;
  wq_nodup : NoDup l;
  wq_valid : forall i, i ∈ l -> valid_task k i;
}.

(** Wait queue operations touch only [blocked_next]. *)
Definition erase_bn (t : TaskControlBlock) : TaskControlBlock := set_blocked_next None t.
Definition erase_tasks (k : Kernel) : Kernel := set_tasks [] k.
Abbreviation same_but_bn := (same_upto erase_tasks erase_bn).

Lemma sbn_upd i v k : same_but_bn k (upd i (set_blocked_next v) k).
Proof. by apply su_upd. Qed.

(** Only [blocked_next] of tasks of [l] may change. *)
Definition bn_frame (l : list Z) (k k' : Kernel) : Prop :=
  same_but_bn k k' /\ forall i, i ∉ l -> tcb k' i = tcb k i.

#[export] Instance bn_frame_refl l : Reflexive (bn_frame l).
Proof. by intros k. Qed.
#[export] Instance bn_frame_trans l : Transitive (bn_frame l).
Proof.
  intros k1 k2 k3 [H1 F1] [H2 F2]. split; [by etrans|]. intros i Hi. by rewrite F2, F1.
Qed.

Lemma bn_frame_upd l i v k : i ∈ l -> bn_frame l k (upd i (set_blocked_next v) k).
Proof.
  intros Hi. split; [apply sbn_upd|]. intros j Hj. apply tcb_upd_ne. set_solver.
Qed.

Lemma bn_frame_upd2 l i j v w k :
  i ∈ l -> j ∈ l -> bn_frame l k (upd j (set_blocked_next w) (upd i (set_blocked_next v) k)).
Proof. intros Hi Hj. etrans; [apply (bn_frame_upd l i v k Hi)|by apply bn_frame_upd]. Qed.

Lemma bn_frame_mono l l' k k' : l ⊆ l' -> bn_frame l k k' -> bn_frame l' k k'.
Proof. intros Hs [H F]. split; [done|]. intros i Hi. apply F. set_solver. Qed.

Lemma bn_upd k i v j :
  valid_task k i -> bn (upd i (set_blocked_next v) k) j = if decide (i = j) then v else bn k j.
Proof. intros Hv. unfold bn. rewrite tcb_upd by done. by case_decide. Qed.

(** ** Segments *)

Lemma seg_ext nxt nxt' l e : (forall a, a ∈ l -> nxt' a = nxt a) -> seg nxt l e -> seg nxt' l e.
Proof.
  induction l as [|a l IH]; [done|]. cbn [seg]. intros H [H1 H2].
  rewrite H by set_solver. split; [done|]. apply IH; set_solver.
Qed.

Lemma seg_app nxt l1 l2 e :
  seg nxt (l1 ++ l2) e <-> seg nxt l1 (hd_or l2 e) /\ seg nxt l2 e.
Proof.
  induction l1 as [|a l1 IH]; cbn [app seg]; [naive_solver|].
  rewrite IH. destruct l1; naive_solver.
Qed.

Lemma seg_snoc nxt l c e : seg nxt (l ++ [c]) e <-> seg nxt l (Some c) /\ nxt c = e.
Proof. rewrite seg_app. cbn. naive_solver. Qed.

Lemma NoDup_mid {A} (l1 l2 : list A) c :
  NoDup (l1 ++ c :: l2) <-> (c ∉ l1) /\ (c ∉ l2) /\ NoDup (l1 ++ l2).
Proof.
  rewrite <- Permutation_middle, NoDup_cons, not_elem_of_app. tauto.
Qed.

Lemma head_app_cons {A} (l1 : list A) a l2 l3 : head (l1 ++ a :: l2) = head (l1 ++ a :: l3).
Proof. by destruct l1. Qed.

(** At most one queue entry per task. *)
Lemma wq_length k q l :
  wq_repr k q l -> Z.of_nat (length (tasks k)) = MAX_TASKS -> (length l <= wq_fuel)%nat.
Proof.
  intros HR Hlen.
  assert (l ⊆ seqZ 0 MAX_TASKS) as Hsub.
  { intros i Hi. apply (wq_valid _ _ _ HR) in Hi. unfold valid_task, in_range in Hi.
    apply elem_of_seqZ. lia. }
  apply NoDup_submseteq in Hsub; [|apply HR].
  apply submseteq_length in Hsub. by rewrite length_seqZ in Hsub.
Qed.

(** ** Linking and unlinking behind an element *)

Section Links.
Context {k : Kernel} {q : WaitQueue}.

Lemma wq_link_after l1 c l2 t :
  wq_repr k q (l1 ++ c :: l2) -> t ∉ l1 ++ c :: l2 -> valid_task k t ->
  wq_repr (upd c (set_blocked_next (Some t)) (upd t (set_blocked_next (bn k c)) k))
    (mkWaitQueue (head_ q) (if decide (Some c = tail_ q) then Some t else tail_ q))
    (l1 ++ c :: t :: l2).
Proof.
  intros HR Ht Hvt. destruct HR as [Hh Htl Hs Hnd Hv].
  assert (Hc : valid_task k c) by (apply Hv; set_solver).
  assert (Hcl : (c ∉ l1) /\ (c ∉ l2)) by (apply NoDup_mid in Hnd; tauto).
  rewrite seg_app in Hs. destruct Hs as [Hs1 [Hs2 Hs3]].
  assert (Hn : forall a, bn (upd c (set_blocked_next (Some t)) (upd t (set_blocked_next (bn k c)) k)) a
    = if decide (a = c) then Some t else if decide (a = t) then bn k c else bn k a).
  { intros a. rewrite !bn_upd by (rewrite ?valid_task_upd; done).
    repeat case_decide; congruence. }
  split; cbn.
  - rewrite Hh. apply head_app_cons.
  - rewrite Htl, !last_app_cons. destruct l2 as [|d l2].
    + rewrite decide_True by done. done.
    + cbn [last]. rewrite decide_False; [done|]. intros Heq.
      apply eq_sym, last_Some_elem_of in Heq. set_solver.
  - rewrite seg_app. split; [|cbn [seg]; split; [|split]].
    + eapply seg_ext; [|exact Hs1]. intros a Ha. rewrite Hn, !decide_False by set_solver. done.
    + by rewrite Hn, decide_True.
    + rewrite Hn, decide_False, decide_True by set_solver. done.
    + eapply seg_ext; [|exact Hs3]. intros a Ha. rewrite Hn, !decide_False by set_solver. done.
  - rewrite NoDup_mid. apply NoDup_mid in Hnd as (? & ? & ?).
    split; [done|]. split; [set_solver|]. apply NoDup_mid. set_solver.
  - intros i Hi. rewrite !valid_task_upd.
    destruct (decide (i = t)) as [->|]; [done|]. apply Hv. set_solver.
Qed.

Lemma wq_unlink_after l1 p c l2 :
  wq_repr k q (l1 ++ p :: c :: l2) ->
  wq_repr (upd c (set_blocked_next None) (upd p (set_blocked_next (bn k c)) k))
    (mkWaitQueue (head_ q) (if decide (tail_ q = Some c) then Some p else tail_ q))
    (l1 ++ p :: l2).
Proof.
  intros [Hh Htl Hs Hnd Hv].
  assert (Hp : valid_task k p) by (apply Hv; set_solver).
  assert (Hc : valid_task k c) by (apply Hv; set_solver).
  rewrite NoDup_mid in Hnd. destruct Hnd as (Hp1 & Hp2 & Hnd).
  rewrite NoDup_mid in Hnd. destruct Hnd as (Hc1 & Hc2 & Hnd).
  rewrite seg_app in Hs. destruct Hs as [Hs1 [Hs2 [Hs3 Hs4]]].
  assert (Hn : forall a, bn (upd c (set_blocked_next None) (upd p (set_blocked_next (bn k c)) k)) a
    = if decide (a = c) then None else if decide (a = p) then bn k c else bn k a).
  { intros a. rewrite !bn_upd by (rewrite ?valid_task_upd; done).
    repeat case_decide; congruence. }
  split; cbn.
  - rewrite Hh. apply head_app_cons.
  - rewrite Htl, !last_app_cons. destruct l2 as [|d l2].
    + rewrite decide_True by done. done.
    + cbn [last]. rewrite decide_False; [done|]. intros Heq.
      apply last_Some_elem_of in Heq. set_solver.
  - rewrite seg_app. split; [|cbn [seg]; split].
    + eapply seg_ext; [|exact Hs1]. intros a Ha. rewrite Hn, !decide_False by set_solver. done.
    + rewrite Hn, decide_False, decide_True by set_solver. by rewrite Hs3.
    + eapply seg_ext; [|exact Hs4]. intros a Ha. rewrite Hn, !decide_False by set_solver. done.
  - rewrite NoDup_mid. set_solver.
  - intros i Hi. rewrite !valid_task_upd. apply Hv. set_solver.
Qed.

Lemma wq_unlink_head c l :
  wq_repr k q (c :: l) ->
  wq_repr (upd c (set_blocked_next None) k)
    (mkWaitQueue (bn k c) (match bn k c with None => None | Some _ => tail_ q end)) l.
Proof.
  intros [Hh Htl [Hs1 Hs2] Hnd Hv]. rewrite NoDup_cons in Hnd. destruct Hnd as [Hcl Hnd].
  assert (Hc : valid_task k c) by (apply Hv; set_solver).
  split; cbn.
  - rewrite Hs1. by destruct l.
  - rewrite Hs1. destruct l as [|d l]; [done|]. cbn. by rewrite Htl.
  - eapply seg_ext; [|exact Hs2]. intros a Ha. rewrite bn_upd, decide_False by set_solver. done.
  - done.
  - intros i Hi. rewrite valid_task_upd. apply Hv. set_solver.
Qed.

Lemma wq_push_front l t :
  wq_repr k q l -> t ∉ l -> valid_task k t ->
  wq_repr (upd t (set_blocked_next (head_ q)) k)
    (mkWaitQueue (Some t) (match tail_ q with None => Some t | Some x => Some x end)) (t :: l).
Proof.
  intros [Hh Htl Hs Hnd Hv] Ht Hvt. split; cbn [head_ tail_].
  - done.
  - rewrite Htl. destruct l as [|h l]; [done|].
    by destruct (last (h :: l)) eqn:E; [|by apply last_None in E].
  - cbn [seg]. split; [rewrite bn_upd, decide_True, Hh by done; by destruct l|].
    apply (seg_ext (bn k)); [|done]. intros a Ha. rewrite bn_upd, decide_False by set_solver. done.
  - by apply NoDup_cons.
  - intros i Hi. rewrite valid_task_upd. set_solver.
Qed.
End Links.

(** ** The loops *)

Lemma find_insert_spec fuel k t h l :
  seg (bn k) (h :: l) None -> (length l <= fuel)%nat -> prio k t <= prio k h ->
  exists l1 l2, h :: l = l1 ++ find_insert fuel k t h :: l2 /\
    pins (prio k) t (h :: l) = l1 ++ find_insert fuel k t h :: t :: l2.
Proof.
  revert fuel h. induction l as [|n l IH]; intros fuel h [Hh Hs] Hlen Hle.
  - exists [], []. assert (find_insert fuel k t h = h) as ->.
    { destruct fuel; cbn; [done|]. by rewrite Hh. }
    split; [done|]. cbn [pins app]. by destruct (Z.ltb_spec (prio k h) (prio k t)); [lia|].
  - destruct fuel as [|fuel]; [cbn in Hlen; lia|]. cbn [find_insert]. rewrite Hh. cbn [hd_or].
    cbn [pins]. destruct (Z.ltb_spec (prio k h) (prio k t)); [lia|].
    destruct (Z.leb_spec (prio k t) (prio k n)) as [Hn|Hn].
    + destruct (IH fuel n Hs) as (l1 & l2 & H1 & H2); [cbn in Hlen; lia|done|].
      cbn [pins] in H2. destruct (Z.ltb_spec (prio k n) (prio k t)); [lia|].
      exists (h :: l1), l2. cbn [app]. by rewrite <- H1, <- H2.
    + exists [], (n :: l). cbn [app]. split; [done|].
      by destruct (Z.ltb_spec (prio k n) (prio k t)); [|lia].
Qed.

Lemma pins_ext f g t l : (forall i, f i = g i) -> pins f t l = pins g t l.
Proof. intros H. induction l as [|a l IH]; cbn; [done|]. by rewrite !H, IH. Qed.

Lemma find_pred_spec fuel k t h l :
  seg (bn k) (h :: l) None -> (length l <= fuel)%nat ->
  match decide (t ∈ l) with
  | left _ => exists l1 l2, h :: l = l1 ++ find_pred fuel k t h :: t :: l2
  | right _ => bn k (find_pred fuel k t h) = None
  end.
Proof.
  revert fuel h. induction l as [|n l IH]; intros fuel h [Hh Hs] Hlen.
  - rewrite decide_False by set_solver. by destruct fuel; cbn; rewrite Hh; cbn; rewrite ?Hh.
  - destruct fuel as [|fuel]; [cbn in Hlen; lia|]. cbn [find_pred]. rewrite Hh. cbn [hd_or].
    destruct (decide (n = t)) as [->|Hne].
    + rewrite decide_True by set_solver. by exists [], l.
    + specialize (IH fuel n Hs). destruct (decide (t ∈ l)).
      * rewrite decide_True by set_solver.
        destruct IH as (l1 & l2 & H); [cbn in Hlen; lia|].
        exists (h :: l1), l2. cbn [app]. by rewrite <- H.
      * rewrite decide_False by set_solver. apply IH. cbn in Hlen. lia.
Qed.

Lemma take_first_None P l : take_first P l = None <-> forall a, a ∈ l -> P a = false.
Proof.
  induction l as [|a l IH]; cbn; [set_solver|]. destruct (P a) eqn:E.
  - split; [done|]. intros H. rewrite H in E; [done|set_solver].
  - destruct (take_first P l) as [[??]|]; cbn.
    + split; [done|]. intros H. assert (Some (z, l0) = None) by (apply IH; set_solver). done.
    + split; [|done]. intros _. pose proof (proj1 IH eq_refl). set_solver.
Qed.

Lemma take_first_Some P l x r :
  take_first P l = Some (x, r) <->
  exists l1 l2, l = l1 ++ x :: l2 /\ r = l1 ++ l2 /\ P x = true /\ (forall a, a ∈ l1 -> P a = false).
Proof.
  revert r. induction l as [|a l IH]; intros r; cbn.
  - split; [done|]. intros (l1 & l2 & H & _). by destruct l1.
  - destruct (P a) eqn:E.
    + split.
      * intros [= <- <-]. exists [], l. set_solver.
      * intros (l1 & l2 & H1 & -> & Hx & Hl1). destruct l1 as [|b l1]; cbn in *; [by simplify_eq|].
        simplify_eq. rewrite Hl1 in E; [done|set_solver].
    + split.
      * destruct (take_first P l) as [[y r']|] eqn:Et; cbn; [|done]. intros [= <- <-].
        destruct (proj1 (IH r') eq_refl) as (l1 & l2 & -> & -> & Hx & Hl1).
        exists (a :: l1), l2. set_solver.
      * intros (l1 & l2 & H1 & -> & Hx & Hl1). destruct l1 as [|b l1]; cbn in *; [congruence|].
        simplify_eq. rewrite (proj2 (IH (l1 ++ l2))); [done|]. exists l1, l2. set_solver.
Qed.

Lemma unlink_first_spec fuel P l0 p l q k :
  wq_repr k q (l0 ++ p :: l) -> (length l <= fuel)%nat ->
  match unlink_first fuel P p (hd_or l None) q k with
  | (None, q', k') => q' = q /\ k' = k /\ take_first (fun i => P (tcb k i)) l = None
  | (Some c, q', k') => exists r, take_first (fun i => P (tcb k i)) l = Some (c, r) /\
      wq_repr k' q' (l0 ++ p :: r) /\ bn_frame (p :: l) k k'
  end.
Proof.
  revert fuel l0 p. induction l as [|c l IH]; intros fuel l0 p HR Hlen.
  - by destruct fuel.
  - destruct fuel as [|fuel]; [cbn in Hlen; lia|]. cbn [unlink_first hd_or take_first].
    destruct (P (tcb k c)).
    + exists l. split; [done|]. split; [by apply wq_unlink_after|].
      apply bn_frame_upd2; set_solver.
    + pose proof (wq_seg _ _ _ HR) as Hs. rewrite seg_app in Hs. destruct Hs as (_ & _ & Hc & _).
      rewrite Hc. rewrite cons_middle, app_assoc in HR.
      specialize (IH fuel (l0 ++ [p]) c HR). cbn in Hlen.
      destruct (unlink_first fuel P c (hd_or l None) q k) as [[[d|] q'] k'].
      * destruct IH as (r & -> & HR' & Hf); [lia|]. exists (c :: r). split; [done|].
        rewrite <- app_assoc in HR'. split; [done|]. eapply bn_frame_mono; [|done]. set_solver.
      * destruct IH as (-> & -> & ->); [lia|]. done.
Qed.

(** * The operations refine the abstract queue *)

Section Ops.
Context {k : Kernel} {q : WaitQueue} {l : list Z}.
Hypothesis HR : wq_repr k q l.
Hypothesis Hlen : Z.of_nat (length (tasks k)) = MAX_TASKS.

Lemma enqueue_repr t :
  t ∉ l -> valid_task k t ->
  let '(q', k') := enqueue (Some t) q k in
  wq_repr k' q' (pins (prio k) t l) /\ bn_frame (t :: l) k k'.
Proof.
  intros Ht Hv. pose proof (wq_length _ _ _ HR Hlen) as Hfuel.
  cbn [enqueue]. set (k1 := upd t (set_blocked_next None) k).
  assert (Hf1 : bn_frame (t :: l) k k1) by (apply bn_frame_upd; set_solver).
  assert (Hpr : forall i, prio k1 i = prio k i).
  { intros i. apply (su_proj (fun t => current_priority (scheduler t)) i (proj1 Hf1)). done. }
  assert (HR1 : wq_repr k1 q l).
  { destruct HR as [Hh Htl Hs Hnd Hvl]. split; [done|done| |done|].
    - eapply seg_ext; [|exact Hs]. intros a Ha. unfold k1.
      rewrite bn_upd, decide_False by set_solver. done.
    - intros i Hi. unfold k1. rewrite valid_task_upd. by apply Hvl. }
  assert (Hv1 : valid_task k1 t) by (unfold k1; by rewrite valid_task_upd).
  pose proof (wq_push_front l t HR1 Ht Hv1) as Hfront.
  assert (Hff : forall v, bn_frame (t :: l) k (upd t (set_blocked_next v) k1))
    by (intros v; etrans; [done|apply bn_frame_upd; set_solver]).
  pose proof (wq_head _ _ _ HR) as Hh.
  destruct l as [|h l']; cbn [head] in Hh; rewrite Hh in *; cbn [pins]; [done|].
  rewrite !Hpr. destruct (Z.ltb_spec (prio k h) (prio k t)) as [Hlt|Hge]; [done|].
  destruct (find_insert_spec wq_fuel k1 t h l') as (l1 & l2 & H1 & H2);
    [apply HR1|cbn in Hfuel; lia|by rewrite !Hpr|].
  rewrite (pins_ext _ (prio k)) in H2 by done.
  cbn [pins] in H2. rewrite (proj2 (Z.ltb_ge _ _) Hge) in H2.
  rewrite H2. rewrite H1 in HR1, Ht. rewrite <- Hh.
  split; [by apply wq_link_after|]. etrans; [apply Hff|]. apply bn_frame_upd.
  rewrite H1. set_solver.
Qed.

Lemma dequeue_repr :
  match dequeue q k with
  | (None, q', k') => l = [] /\ q' = q /\ k' = k
  | (Some t, q', k') => exists l', l = t :: l' /\ wq_repr k' q' l' /\ bn_frame l k k'
  end.
Proof.
  unfold dequeue. pose proof (wq_head _ _ _ HR) as Hh. destruct l as [|t l']; rewrite Hh; cbn [head].
  - done.
  - exists l'. split; [done|]. split; [by apply wq_unlink_head|apply bn_frame_upd; set_solver].
Qed.

Lemma wq_remove_repr t :
  match wq_remove (Some t) q k with
  | (false, q', k') => (t ∉ l) /\ q' = q /\ k' = k
  | (true, q', k') => (t ∈ l) /\ wq_repr k' q' (filter (fun j => j <> t) l) /\ bn_frame l k k'
  end.
Proof.
  unfold wq_remove. pose proof (wq_head _ _ _ HR) as Hh. pose proof (wq_nodup _ _ _ HR) as Hnd.
  pose proof (wq_length _ _ _ HR Hlen) as Hfuel.
  assert (Hid : forall m : list Z, t ∉ m -> filter (fun j => j <> t) m = m).
  { intros m. induction m as [|a m IH]; [done|]. intros Ha. rewrite filter_cons, decide_True, IH; set_solver. }
  destruct l as [|h l']; cbn [head] in Hh; rewrite Hh; [set_solver|].
  destruct (decide (h = t)) as [->|Hne].
  - apply NoDup_cons in Hnd as [Hnt _]. split; [set_solver|]. split; [|apply bn_frame_upd; set_solver].
    rewrite filter_cons, decide_False, Hid by auto. by apply wq_unlink_head.
  - pose proof (find_pred_spec wq_fuel k t h l' (wq_seg _ _ _ HR)) as Hfp.
    destruct (decide (t ∈ l')) as [Hin|Hin].
    + destruct Hfp as (l1 & l2 & Heq); [cbn in Hfuel; lia|].
      rewrite Heq in HR, Hnd |- *. pose proof (wq_seg _ _ _ HR) as Hs.
      rewrite seg_app in Hs. destruct Hs as (_ & Hc & _). cbn [hd_or] in Hc.
      rewrite decide_True by done. rewrite <- Hh. split; [set_solver|]. split; [|apply bn_frame_upd2; set_solver].
      rewrite NoDup_mid in Hnd. destruct Hnd as (? & ? & Hnd). apply NoDup_mid in Hnd as (? & ? & _).
      assert (find_pred wq_fuel k t h <> t) as Hct by set_solver.
      rewrite filter_app, !filter_cons, (decide_True _ _ Hct), (decide_False (P := t <> t)) by auto.
      rewrite !Hid by set_solver. by apply wq_unlink_after.
    + rewrite decide_False; [set_solver|]. rewrite Hfp by (cbn in Hfuel; lia). done.
Qed.
End Ops.

(** ** Selective dequeue *)

Definition matches_sender (label : Z) (t : TaskControlBlock) : bool :=
  (label =? 0) || (msg_type (ipc t) =? label).
Definition matches_receiver (label : Z) (t : TaskControlBlock) : bool :=
  (label_filter (ipc t) =? 0) || (label_filter (ipc t) =? label).

(** What a selective dequeue returns: the first waiter in queue order that
    matches, with the queue of the others. *)
Definition dequeues_first (P : TaskControlBlock -> bool) (k : Kernel) (q : WaitQueue) (l : list Z)
    (res : option Z * WaitQueue * Kernel) : Prop :=
  match res with
  | (None, q', k') => q' = q /\ k' = k /\ forall i, i ∈ l -> P (tcb k i) = false
  | (Some c, q', k') => exists l1 l2, l = l1 ++ c :: l2 /\ P (tcb k c) = true /\
      (forall i, i ∈ l1 -> P (tcb k i) = false) /\
      wq_repr k' q' (l1 ++ l2) /\ bn_frame l k k'
  end.

Lemma dequeue_first_general P P' k q l :
  wq_repr k q l -> Z.of_nat (length (tasks k)) = MAX_TASKS ->
  (forall h, head l = Some h -> P (tcb k h) = false -> forall i, P' (tcb k i) = P (tcb k i)) ->
  dequeues_first P k q l
    (match head_ q with
     | None => (None, q, k)
     | Some h => if P (tcb k h) then dequeue q k
                 else unlink_first wq_fuel P' h (bn k h) q k
     end).
Proof.
  intros HR Hlen Hext. pose proof (wq_head _ _ _ HR) as Hh.
  pose proof (wq_length _ _ _ HR Hlen) as Hfuel.
  destruct l as [|h l]; cbn [head] in Hh; rewrite Hh; [set_solver|].
  destruct (P (tcb k h)) eqn:EP.
  - pose proof (dequeue_repr HR Hlen) as Hd. unfold dequeue in *. rewrite Hh in *. unfold dequeues_first. cbv beta iota.
    destruct Hd as (l' & [= <-] & Hr & Hf). exists [], l. set_solver.
  - pose proof (wq_seg _ _ _ HR) as [Hb _]. rewrite Hb.
    pose proof (unlink_first_spec wq_fuel P' [] h l q k HR) as Hu.
    specialize (Hext h eq_refl EP).
    destruct (unlink_first wq_fuel P' h (hd_or l None) q k) as [[[c|] q'] k']; unfold dequeues_first.
    + destruct Hu as (r & Htf & HR' & Hf); [cbn in Hfuel; lia|].
      apply take_first_Some in Htf as (l1 & l2 & -> & -> & Hc & Hl1).
      exists (h :: l1), l2. split; [done|]. split; [by rewrite <- Hext|].
      split; [|done]. intros i [->|Hi]%elem_of_cons; [done|]. rewrite <- Hext. by apply Hl1.
    + destruct Hu as (-> & -> & Htf); [cbn in Hfuel; lia|]. split; [done|]. split; [done|].
      rewrite take_first_None in Htf. intros i [->|Hi]%elem_of_cons; [done|].
      rewrite <- Hext. by apply Htf.
Qed.

Lemma dequeue_matching_sender_spec label k q l :
  wq_repr k q l -> Z.of_nat (length (tasks k)) = MAX_TASKS ->
  dequeues_first (matches_sender label) k q l (dequeue_matching_sender label q k).
Proof.
  intros HR Hlen.
  apply (dequeue_first_general (matches_sender label) (fun t => msg_type (ipc t) =? label)); [done|done|].
  intros h _ Hf i. unfold matches_sender in *. by destruct (label =? 0).
Qed.

Lemma dequeue_matching_receiver_spec label k q l :
  wq_repr k q l -> Z.of_nat (length (tasks k)) = MAX_TASKS ->
  dequeues_first (matches_receiver label) k q l (dequeue_matching_receiver label q k).
Proof.
  intros HR Hlen.
  by apply (dequeue_first_general (matches_receiver label) (matches_receiver label)).
Qed.

(** ** Ordering *)

(** The queue order: decreasing priority. *)
Definition by_prio (pr : Z -> Z) : list Z -> Prop := StronglySorted (fun a b => pr b <= pr a).

Lemma by_prio_ext f g l : (forall i, g i = f i) -> by_prio f l -> by_prio g l.
Proof.
  intros He. unfold by_prio. induction 1 as [|a l Hs IH Ha]; constructor; [done|].
  eapply Forall_impl; [exact Ha|]. intros b. cbn. by rewrite !He.
Qed.

Lemma elem_of_pins pr t l i : i ∈ pins pr t l <-> i = t \/ i ∈ l.
Proof.
  induction l as [|a l IH]; cbn; [set_solver|]. case_bool; set_solver.
Qed.

Lemma pins_sorted pr t l : by_prio pr l -> by_prio pr (pins pr t l).
Proof.
  unfold by_prio. induction 1 as [|a l Hs IH Ha]; cbn; [repeat constructor|].
  destruct (Z.ltb_spec (pr a) (pr t)).
  - constructor; [by constructor|]. constructor; [lia|].
    eapply Forall_impl; [done|]. cbn. intros. lia.
  - constructor; [done|]. rewrite Forall_forall in Ha |- *. intros x [->|Hx]%elem_of_pins; [lia|].
    by apply Ha.
Qed.

(** First come, first served within a level: the new waiter goes behind every
    waiter of at least its priority and before every waiter of lower one. *)
Lemma pins_split pr t l :
  by_prio pr l ->
  pins pr t l = filter (fun a => pr t <= pr a) l ++ t :: filter (fun a => pr a < pr t) l.
Proof.
  unfold by_prio. induction 1 as [|a l Hs IH Ha]; cbn [pins]; [done|].
  rewrite !filter_cons. destruct (Z.ltb_spec (pr a) (pr t)) as [Hlt|Hge].
  - rewrite decide_False, decide_True by lia.
    rewrite Forall_forall in Ha.
    assert (filter (fun a => pr t <= pr a) l = []) as ->.
    { apply elem_of_nil_inv. intros b [Hb1 Hb2]%list_elem_of_filter. specialize (Ha b Hb2). lia. }
    assert (filter (fun a => pr a < pr t) l = l) as ->; [|done].
    clear -Hlt Ha. induction l as [|b l IH]; [done|].
    pose proof (Ha b ltac:(set_solver)). rewrite filter_cons, decide_True by lia.
    f_equal. apply IH. set_solver.
  - rewrite decide_True, decide_False by lia. cbn [app]. by rewrite IH.
Qed.
