(* ===== verification/Endpoint.v ===== *)
(** Synchronous IPC endpoints (kernel/core/ipc.cpp, kernel/core/ipc.hpp).

    [call], [receive], [reply], [cancel_waiter] and [cancel_all] are the whole
    handlers: queueing, message copy, badge and label transfer, wake-up through
    the scheduler and priority inheritance.  Each runs under one [IrqGuard], so
    it is one atomic step of the model. *)
From S2P Require Import Prelude Kernel ReadyQueue WaitQueue.

Definition IPC_TIMEOUT_INFINITE : Z := 4294967295.
Definition IPC_NONBLOCK : Z := 0.
Definition MAX_IPC_MSG_SIZE : Z := 4096.
Definition IPC_RAW_HEADER_SIZE : Z := 8. (* sizeof(IpcRawMessage) *)

(** [Scheduler::get_task] / [get_task_by_id]: indices below the high-water mark. *)
Definition get_task_by_id (k : Kernel) (id : Z) : option Z :=
  if (0 <=? id) && (id <? task_count k) then Some id else None.

Definition task_indices (k : Kernel) : list Z := seqZ 0 (task_count k).

(** [recalculate_receiver_priority]: base priority joined with the priorities of
    the senders that wait for this receiver's reply. *)
Definition waiting_prio (k : Kernel) (rid : Z) (max_prio i : Z) : Z :=
  let t := tcb k i in
  if decide (ipc_state (ipc t) = ReplyBlocked) then
    if receiver_id (ipc t) =? rid then
      if max_prio <? current_priority (scheduler t) then current_priority (scheduler t) else max_prio
    else max_prio
  else max_prio.

Definition inherited_prio (k : Kernel) (r : Z) : Z :=
  foldl (waiting_prio k (sched_id (scheduler (tcb k r))))
    (base_priority (scheduler (tcb k r))) (task_indices k).

Definition recalculate_receiver_priority (receiver : option Z) (k : Kernel) : Kernel :=
  match receiver with
  | None => k
  | Some r => set_task_priority (sched_id (scheduler (tcb k r))) (inherited_prio k r) k
  end.

(** [copy_len = min(len, max)], capped at 4 KB. *)
Definition clip_len (len max : Z) : Z :=
  let c := if len <? max then len else max in
  if MAX_IPC_MSG_SIZE <? c then MAX_IPC_MSG_SIZE else c.

(** The copy block of [call], [receive] and [reply]: the bytes moved and the
    length reported. *)
Definition ipc_copy (len max src dst : Z) (k : Kernel) : Z * Kernel :=
  let copy_len := clip_len len max in
  if (0 <? copy_len) && negb (src =? nullptr) && negb (dst =? nullptr)
  then (copy_len, set_mem (copy_bytes copy_len dst src (mem k)) k)
  else (0, k).

Definition timeout_sleep (timeout_ticks : Z) : Z :=
  if timeout_ticks =? IPC_TIMEOUT_INFINITE then 0 else timeout_ticks.

(** [receiver->ipc.* = ...] on delivery. *)
Definition deliver (len sid bdg label : Z) (t : TaskControlBlock) : TaskControlBlock :=
  set_sleep_ticks 0 (set_waiting_endpoint None (set_ipc_status IpcOk (set_ipc_state IpcReady
    (set_msg_type label (set_badge bdg (set_sender_id sid (set_msg_len len t))))))).

(** The PIP step: the receiver inherits a higher sender priority. *)
Definition inherit_priority (sender receiver : Z) (k : Kernel) : Kernel :=
  if current_priority (scheduler (tcb k receiver)) <? current_priority (scheduler (tcb k sender))
  then set_task_priority (sched_id (scheduler (tcb k receiver)))
         (current_priority (scheduler (tcb k sender))) k
  else k.

(** The entry of [Endpoint::call]: the sender publishes its reply buffer, badge
    and label. *)
Definition call_setup (s msg len reply_buf' max_reply_len bdg : Z) (k : Kernel) : Kernel :=
  let k := upd s (set_reply_buf reply_buf') k in
  let k := upd s (set_max_len max_reply_len) k in
  let k := upd s (set_ipc_status IpcOk) k in
  let k := upd s (set_badge bdg) k in
  if (IPC_RAW_HEADER_SIZE <=? len) && negb (msg =? nullptr)
  then upd s (set_msg_type (load32 (mem k) msg)) k
  else upd s (set_msg_type 0) k.

(** [call], case 1: receiver [r] was waiting (fast path). *)
Definition call_deliver (e s r msg len timeout_ticks bdg : Z) (k : Kernel) : IpcStatus * Kernel :=
  let label := msg_type (ipc (tcb k s)) in
  let '(mlen, k) := ipc_copy len (max_len (ipc (tcb k r))) msg (msg_buf (ipc (tcb k r))) k in
  let k := upd r (deliver mlen (sched_id (scheduler (tcb k s))) bdg label) k in
  let k := upd s (set_receiver_id (sched_id (scheduler (tcb k r)))) k in
  if timeout_ticks =? IPC_NONBLOCK then
    let k := upd s (fun t => set_sleep_ticks 0 (set_waiting_endpoint None
                               (set_ipc_state IpcReady t))) k in
    (IpcOk, set_task_state (sched_id (scheduler (tcb k r))) Ready k)
  else
    let k := upd s (fun t => set_sleep_ticks (timeout_sleep timeout_ticks)
               (set_waiting_endpoint (Some e) (set_ipc_state ReplyBlocked t))) k in
    let k := set_task_state (sched_id (scheduler (tcb k s))) Blocked_On_Notify k in
    let k := inherit_priority s r k in
    (IpcOk, set_task_state (sched_id (scheduler (tcb k r))) Ready k).

(** A non-blocking operation that finds no partner. *)
Definition would_block (t : Z) (k : Kernel) : IpcStatus * Kernel :=
  (IpcWouldBlock, upd t (fun c => set_sleep_ticks 0 (set_waiting_endpoint None
     (set_ipc_status IpcWouldBlock (set_ipc_state IpcReady c)))) k).

(** [call], case 2: no receiver is waiting. *)
Definition call_wait (e s msg len timeout_ticks : Z) (k : Kernel) : IpcStatus * Kernel :=
  if timeout_ticks =? IPC_NONBLOCK then would_block s k
  else
    let k := upd s (fun t => set_sleep_ticks (timeout_sleep timeout_ticks)
               (set_waiting_endpoint (Some e) (set_ipc_state Sending
                  (set_msg_len len (set_msg_buf msg t))))) k in
    let '(q, k) := enqueue (Some s) (send_queue_ (ep k e)) k in
    let k := upd_ep e (set_send_queue_ q) k in
    (IpcOk, set_task_state (sched_id (scheduler (tcb k s))) Blocked_On_Notify k).

(** [Endpoint::call] on endpoint [e]. *)
Definition call (e : Z) (sender : option Z) (msg len reply_buf' max_reply_len timeout_ticks bdg : Z)
    (k : Kernel) : IpcStatus * Kernel :=
  match sender with
  | None => (IpcInvalid, k)
  | Some s =>
      let k := call_setup s msg len reply_buf' max_reply_len bdg k in
      let '(receiver, q, k) :=
        dequeue_matching_receiver (msg_type (ipc (tcb k s))) (recv_queue_ (ep k e)) k in
      let k := upd_ep e (set_recv_queue_ q) k in
      match receiver with
      | Some r => call_deliver e s r msg len timeout_ticks bdg k
      | None => call_wait e s msg len timeout_ticks k
      end
  end.

(** The entry of [Endpoint::receive]. *)
Definition receive_setup (r buf max_len' label : Z) (k : Kernel) : Kernel :=
  let k := upd r (set_msg_buf buf) k in
  let k := upd r (set_max_len max_len') k in
  let k := upd r (set_ipc_status IpcOk) k in
  upd r (set_label_filter label) k.

(** [receive], case 1: sender [s] was waiting. *)
Definition receive_deliver (r s buf max_len' : Z) (k : Kernel) : IpcStatus * Kernel :=
  let '(mlen, k) := ipc_copy (msg_len (ipc (tcb k s))) max_len' (msg_buf (ipc (tcb k s))) buf k in
  let k := upd r (deliver mlen (sched_id (scheduler (tcb k s))) (badge (ipc (tcb k s)))
                    (msg_type (ipc (tcb k s)))) k in
  let k := upd s (set_receiver_id (sched_id (scheduler (tcb k r)))) k in
  let k := upd s (set_ipc_state ReplyBlocked) k in
  let k := set_task_state (sched_id (scheduler (tcb k s))) Blocked_On_Notify k in
  (IpcOk, inherit_priority s r k).

(** [receive], case 2: no sender is waiting. *)
Definition receive_wait (e r timeout_ticks : Z) (k : Kernel) : IpcStatus * Kernel :=
  if timeout_ticks =? IPC_NONBLOCK then would_block r k
  else
    let k := upd r (fun t => set_sleep_ticks (timeout_sleep timeout_ticks)
               (set_waiting_endpoint (Some e) (set_ipc_state Receiving t))) k in
    let '(q, k) := enqueue (Some r) (recv_queue_ (ep k e)) k in
    let k := upd_ep e (set_recv_queue_ q) k in
    (IpcOk, set_task_state (sched_id (scheduler (tcb k r))) Blocked_On_Notify k).

(** [Endpoint::receive] on endpoint [e]. *)
Definition receive (e : Z) (receiver : option Z) (buf max_len' timeout_ticks label : Z)
    (k : Kernel) : IpcStatus * Kernel :=
  match receiver with
  | None => (IpcInvalid, k)
  | Some r =>
      let k := receive_setup r buf max_len' label k in
      let '(sender, q, k) := dequeue_matching_sender label (send_queue_ (ep k e)) k in
      let k := upd_ep e (set_send_queue_ q) k in
      match sender with
      | Some s => receive_deliver r s buf max_len' k
      | None => receive_wait e r timeout_ticks k
      end
  end.

(** [reply] to a sender [s] that waits for receiver [r]. *)
Definition reply_deliver (r s reply_msg len : Z) (k : Kernel) : IpcStatus * Kernel :=
  let '(mlen, k) := ipc_copy len (max_len (ipc (tcb k s))) reply_msg (reply_buf (ipc (tcb k s))) k in
  let k := upd s (fun t => set_sleep_ticks 0 (set_waiting_endpoint None
             (set_ipc_status IpcOk (set_ipc_state IpcReady (set_msg_len mlen t))))) k in
  let k := set_task_state (sched_id (scheduler (tcb k s))) Ready k in
  (IpcOk, recalculate_receiver_priority (Some r) k).

(** [Endpoint::reply]. *)
Definition reply (receiver : option Z) (sender_id' reply_msg len : Z) (k : Kernel) :
    IpcStatus * Kernel :=
  match receiver with
  | None => (IpcInvalid, k)
  | Some r =>
      if MAX_TASKS <=? sender_id' then (IpcReceiverDead, k) else
      match get_task_by_id k sender_id' with
      | None => (IpcReceiverDead, k)
      | Some s =>
          if bool_decide (ipc_state (ipc (tcb k s)) = ReplyBlocked) &&
             (receiver_id (ipc (tcb k s)) =? sched_id (scheduler (tcb k r))) then
            reply_deliver r s reply_msg len k
          else (IpcInvalid, k)
      end
  end.

Definition release_waiter (reason : IpcStatus) (t : TaskControlBlock) : TaskControlBlock :=
  set_sleep_ticks 0 (set_ipc_status reason (set_ipc_state IpcReady (set_waiting_endpoint None t))).

(** [cancel_waiter] takes the task out of both queues ... *)
Definition unqueue_waiter (e t : Z) (k : Kernel) : Kernel :=
  let '(_, q, k) := wq_remove (Some t) (send_queue_ (ep k e)) k in
  let k := upd_ep e (set_send_queue_ q) k in
  let '(_, q, k) := wq_remove (Some t) (recv_queue_ (ep k e)) k in
  upd_ep e (set_recv_queue_ q) k.

(** ... and wakes it with the reason. *)
Definition wake_waiter (reason : IpcStatus) (t : Z) (k : Kernel) : Kernel :=
  let k := upd t (release_waiter reason) k in
  set_task_state (sched_id (scheduler (tcb k t))) Ready k.

(** [Endpoint::cancel_waiter] on endpoint [e]. *)
Definition cancel_waiter (e : Z) (task : option Z) (reason : IpcStatus) (k : Kernel) : Kernel :=
  match task with
  | None => k
  | Some t =>
      let k := unqueue_waiter e t k in
      let rid := receiver_id (ipc (tcb k t)) in
      let was_reply_blocked := bool_decide (ipc_state (ipc (tcb k t)) = ReplyBlocked) in
      let k := wake_waiter reason t k in
      if was_reply_blocked && (rid <? MAX_TASKS)
      then recalculate_receiver_priority (get_task_by_id k rid) k
      else k
  end.

(** The two draining loops and the final scan of [Endpoint::cancel_all]. *)
Definition cancel_queued (reason : IpcStatus) (t : Z) (k : Kernel) : Kernel :=
  let k := upd t (fun c => set_sleep_ticks 0 (set_blocked_next None (set_ipc_status reason
             (set_ipc_state IpcReady (set_waiting_endpoint None c))))) k in
  set_task_state (sched_id (scheduler (tcb k t))) Ready k.

Fixpoint drain_senders (fuel : nat) (e : Z) (reason : IpcStatus) (k : Kernel) : Kernel :=
  match fuel with
  | O => k
  | S fuel =>
      match dequeue (send_queue_ (ep k e)) k with
      | (None, _, _) => k
      | (Some t, q, k) =>
          drain_senders fuel e reason (cancel_queued reason t (upd_ep e (set_send_queue_ q) k))
      end
  end.

Fixpoint drain_receivers (fuel : nat) (e : Z) (reason : IpcStatus) (k : Kernel) : Kernel :=
  match fuel with
  | O => k
  | S fuel =>
      match dequeue (recv_queue_ (ep k e)) k with
      | (None, _, _) => k
      | (Some t, q, k) =>
          let k := cancel_queued reason t (upd_ep e (set_recv_queue_ q) k) in
          drain_receivers fuel e reason (recalculate_receiver_priority (Some t) k)
      end
  end.

Definition cancel_scan_step (e : Z) (reason : IpcStatus) (k : Kernel) (i : Z) : Kernel :=
  if decide (waiting_endpoint (ipc (tcb k i)) = Some e) then
    let rid := receiver_id (ipc (tcb k i)) in
    let k := cancel_queued reason i k in
    if rid <? MAX_TASKS then recalculate_receiver_priority (get_task_by_id k rid) k else k
  else k.

Definition cancel_all (e : Z) (reason : IpcStatus) (k : Kernel) : Kernel :=
  let k := drain_senders wq_fuel e reason k in
  let k := drain_receivers wq_fuel e reason k in
  foldl (cancel_scan_step e reason) k (task_indices k).

(** * The IPC invariant *)

Section Ext.
Lemma sched_ok_env k k' :
  tasks k' = tasks k -> task_count k' = task_count k -> ready_head k' = ready_head k ->
  ready_bitmask k' = ready_bitmask k -> sched_ok k -> sched_ok k'.
Proof.
  intros H1 H2 H3 H4 [Q HI]. exists Q. eapply sched_inv_ext; [| |done].
  - unfold same_heads. by rewrite H1.
  - intros i _. unfold tcb. by rewrite H1.
Qed.

Lemma wq_repr_ext k k' q l :
  length (tasks k') = length (tasks k) -> (forall i, i ∈ l -> bn k' i = bn k i) ->
  wq_repr k q l -> wq_repr k' q l.
Proof.
  intros Hlen Hb [Hh Ht Hs Hn Hv]. split; try done.
  - by eapply seg_ext.
  - intros i Hi. unfold valid_task, in_range. rewrite Hlen. by apply Hv.
Qed.
End Ext.

Definition wait_state (k : Kernel) (i : Z) : IpcState := ipc_state (ipc (tcb k i)).
Definition wait_ep (k : Kernel) (i : Z) : option Z := waiting_endpoint (ipc (tcb k i)).

(** The two queues of an endpoint and the state of the tasks they hold. *)
Inductive role := SendQ | RecvQ.
#[export] Instance role_eq_dec : EqDecision role.
Proof. solve_decision. Defined.

Definition role_queue (r : role) (p : Endpoint) : WaitQueue :=
  match r with SendQ => send_queue_ p | RecvQ => recv_queue_ p end.
Definition set_role_queue (r : role) (q : WaitQueue) : Endpoint -> Endpoint :=
  match r with SendQ => set_send_queue_ q | RecvQ => set_recv_queue_ q end.
Definition role_state (r : role) : IpcState :=
  match r with SendQ => Sending | RecvQ => Receiving end.

(** Every endpoint queue is a well-formed list and holds exactly the tasks that
    are blocked in that role on that endpoint.  [x] names a task that an
    operation has in hand: it is in no queue, whatever its fields say. *)
Record ipc_inv' (x : option Z) (k : Kernel) (LQ : role -> Z -> list Z) : Prop := {
  ii_sched : sched_ok k;
  ii_base : forall i, is_task k i -> 0 <= base_priority (scheduler (tcb k i));
  ii_repr : forall r e, wq_repr k (role_queue r (ep k e)) (LQ r e);
  ii_mem : forall r e i, i ∈ LQ r e <->
    x <> Some i /\ is_task k i /\ wait_state k i = role_state r /\ wait_ep k i = Some e;
}.

Definition ipc_inv : Kernel -> (role -> Z -> list Z) -> Prop := ipc_inv' None.
Definition ipc_ok (k : Kernel) : Prop := exists LQ, ipc_inv k LQ.

(** The fields the invariant reads. *)
Definition stable_view (t : TaskControlBlock) : Z * Z * Z * TaskState * Z * Z :=
  (sched_view t, base_priority (scheduler t)).
Definition wait_view (t : TaskControlBlock) : IpcState * option Z * option Z :=
  (ipc_state (ipc t), waiting_endpoint (ipc t), blocked_next (ipc t)).

(** Not blocked in an endpoint queue: by state, or for want of an endpoint. *)
Definition idle_ipc (s : IpcState) : Prop := forall r, s <> role_state r.
Definition unqueued (k : Kernel) (i : Z) : Prop :=
  forall r e, wait_state k i = role_state r -> wait_ep k i <> Some e.

Lemma idle_unqueued k i : idle_ipc (wait_state k i) -> unqueued k i.
Proof. intros Hi r e Hst. by apply Hi in Hst. Qed.

Lemma stable_sched_ok i f k :
  (forall t, stable_view (f t) = stable_view t) -> sched_ok k -> sched_ok (upd i f k).
Proof. intros Hf. apply sched_ok_upd. intros t. specialize (Hf t). unfold stable_view in Hf. congruence. Qed.

Lemma stable_base i f k j :
  (forall t, stable_view (f t) = stable_view t) ->
  base_priority (scheduler (tcb (upd i f k) j)) = base_priority (scheduler (tcb k j)).
Proof.
  intros Hf. apply (tcb_upd_frame (fun t => base_priority (scheduler t))).
  intros t. specialize (Hf t). unfold stable_view in Hf. congruence.
Qed.

Section Steps.
Context {x : option Z} {k : Kernel} {LQ : role -> Z -> list Z} (HI : ipc_inv' x k LQ).

Lemma ipc_len : Z.of_nat (length (tasks k)) = MAX_TASKS.
Proof. apply sched_ok_len, HI. Qed.

(** A change that keeps the wait views and the queues keeps the invariant. *)
Lemma ipc_inv_ext k' :
  sched_ok k' -> (forall e r, role_queue r (ep k' e) = role_queue r (ep k e)) ->
  task_count k' = task_count k ->
  (forall i, base_priority (scheduler (tcb k' i)) = base_priority (scheduler (tcb k i))) ->
  (forall i, x <> Some i -> wait_view (tcb k' i) = wait_view (tcb k i) \/
     (unqueued k i /\ unqueued k' i)) ->
  ipc_inv' x k' LQ.
Proof.
  intros Hs He Hc Hb Hv.
  assert (Hlen : length (tasks k') = length (tasks k)).
  { apply Nat2Z.inj. rewrite ipc_len. by apply sched_ok_len. }
  assert (Ht : forall i, is_task k' i <-> is_task k i) by (intros; unfold is_task; by rewrite Hc).
  assert (Hw : forall i r e, x <> Some i ->
    (wait_state k' i = role_state r /\ wait_ep k' i = Some e <->
     wait_state k i = role_state r /\ wait_ep k i = Some e)).
  { intros i r e Hi. destruct (Hv i Hi) as [Hi'|[I1 I2]].
    - unfold wait_view in Hi'. unfold wait_state, wait_ep. simplify_eq.
      by split; intros []; split; congruence.
    - split; intros [H H']; [by apply (I2 r e) in H|by apply (I1 r e) in H]. }
  split; [done|..].
  - intros i. rewrite Ht, Hb. apply HI.
  - intros r e. rewrite He. eapply wq_repr_ext; [done| |apply HI].
    intros i (Hi & _ & H1 & H2)%(ii_mem _ _ _ HI). destruct (Hv i Hi) as [Hi'|[I1 _]].
    + unfold wait_view in Hi'. unfold bn. congruence.
    + by apply (I1 r e) in H1.
  - intros r e i. rewrite Ht, (ii_mem _ _ _ HI).
    split; intros (H1 & H2 & H3); split; try done; (split; [done|]); by apply (Hw i r e H1).
Qed.

Lemma ipc_inv_upd i f :
  (forall t, stable_view (f t) = stable_view t) -> (forall t, wait_view (f t) = wait_view t) ->
  ipc_inv' x (upd i f k) LQ.
Proof.
  intros Hs Hw. apply ipc_inv_ext; [|done|done|..].
  - apply stable_sched_ok; [done|apply HI].
  - intros j. by apply stable_base.
  - intros j _. left. by apply tcb_upd_frame.
Qed.

(** A task that is in no queue may change as long as it stays out. *)
Lemma ipc_inv_upd_unqueued i f :
  unqueued k i -> (forall t, stable_view (f t) = stable_view t) ->
  (forall t, idle_ipc (ipc_state (ipc (f t)))) -> valid_task k i ->
  ipc_inv' x (upd i f k) LQ.
Proof.
  intros Hi Hs Hf Hv. apply ipc_inv_ext; [|done|done|..].
  - apply stable_sched_ok; [done|apply HI].
  - intros j. by apply stable_base.
  - intros j _. unfold wait_state. destruct (decide (i = j)) as [<-|Hne].
    + right. split; [done|]. apply idle_unqueued. unfold wait_state.
      by rewrite tcb_upd_eq.
    + left. by rewrite tcb_upd_ne.
Qed.

Lemma ipc_inv_upd_idle i f :
  idle_ipc (wait_state k i) -> (forall t, stable_view (f t) = stable_view t) ->
  (forall t, idle_ipc (ipc_state (ipc (f t)))) -> valid_task k i ->
  ipc_inv' x (upd i f k) LQ.
Proof. intros Hi. by apply ipc_inv_upd_unqueued, idle_unqueued. Qed.

(** The task in hand may change freely. *)
Lemma ipc_inv_upd_hand i f :
  x = Some i -> (forall t, stable_view (f t) = stable_view t) ->
  ipc_inv' x (upd i f k) LQ.
Proof.
  intros Hx Hs. apply ipc_inv_ext; [|done|done|..].
  - apply stable_sched_ok; [done|apply HI].
  - intros j. by apply stable_base.
  - intros j Hj. left. by rewrite tcb_upd_ne by congruence.
Qed.

Lemma ipc_inv_mem m : ipc_inv' x (set_mem m k) LQ.
Proof. apply ipc_inv_ext; [|try done..]; [|by left]. eapply sched_ok_env; [..|apply HI]; done. Qed.

Lemma ipc_inv_sched k' : same_but_sched k k' -> sched_ok k' -> ipc_inv' x k' LQ.
Proof.
  intros Hf Hs. apply ipc_inv_ext; [done|..].
  - intros e r. unfold ep. by rewrite (su_env_proj endpoints Hf).
  - by apply (su_env_proj task_count Hf).
  - intros i. by apply (su_proj (fun t => base_priority (scheduler t)) i Hf).
  - intros i _. left. by apply (su_proj wait_view i Hf).
Qed.

Lemma ipc_inv_set_state id s : 0 <= id -> ipc_inv' x (set_task_state id s k) LQ.
Proof.
  intros H0. apply ipc_inv_sched; [apply set_task_state_same_sched|].
  apply sched_ok_set_state; [apply HI|done].
Qed.

Lemma ipc_inv_set_priority id p :
  0 <= id -> 0 <= p -> ipc_inv' x (set_task_priority id p k) LQ.
Proof.
  intros H0 Hp. apply ipc_inv_sched; [apply set_task_priority_same_sched|].
  apply sched_ok_set_priority; [apply HI|done|done].
Qed.

Lemma ipc_inv_copy len max src dst : ipc_inv' x (ipc_copy len max src dst k).2 LQ.
Proof. unfold ipc_copy. cbv zeta. destruct (_ && _); [apply ipc_inv_mem|apply HI]. Qed.
End Steps.

(** Taking a task in hand, and letting go of it. *)
Lemma ipc_inv_take k LQ i :
  ipc_inv k LQ -> unqueued k i -> ipc_inv' (Some i) k LQ.
Proof.
  intros [Hs Hb H1 H2] Hn. split; [done..|].
  intros r e j. rewrite H2. split; [|naive_solver]. intros (_ & Ht & Hst & He).
  split; [|done]. intros [= ->]. by apply (Hn r e) in Hst.
Qed.

Lemma ipc_inv_release k LQ i :
  ipc_inv' (Some i) k LQ -> idle_ipc (wait_state k i) -> ipc_inv k LQ.
Proof.
  intros [Hs Hb H1 H2] Hn. split; [done..|].
  intros r e j. rewrite H2. split; [naive_solver|]. intros (_ & Ht & Hst & He).
  split; [|done]. intros [= ->]. by apply Hn in Hst.
Qed.

Definition upl (LQ : role -> Z -> list Z) (r : role) (e : Z) (l : list Z) : role -> Z -> list Z :=
  fun r' e' => if decide (r' = r /\ e' = e) then l else LQ r' e'.

(** Distinct queues share no task. *)
Lemma ipc_inv_disjoint x k LQ r e r' e' i :
  ipc_inv' x k LQ -> i ∈ LQ r e -> i ∈ LQ r' e' -> r' = r /\ e' = e.
Proof.
  intros HI H1 H2. apply (ii_mem _ _ _ HI) in H1 as (_ & _ & H1 & E1).
  apply (ii_mem _ _ _ HI) in H2 as (_ & _ & H2 & E2). split; [|congruence].
  destruct r, r'; cbn in *; congruence.
Qed.

Lemma ep_frame k k' e : same_but_bn k k' -> ep k' e = ep k e.
Proof. intros Hf. unfold ep. by rewrite (su_env_proj endpoints Hf). Qed.

(** Replacing one queue: [x] and [x'] are the tasks in hand before and after. *)
Lemma ipc_inv_replace x x' k k' LQ r e q l l' :
  ipc_inv' x k LQ -> bn_frame l k k' -> wq_repr k' q l' ->
  (forall i, i ∈ l -> i ∈ LQ r e \/ x = Some i) ->
  (forall i, i ∈ l' <-> x' <> Some i /\ is_task k i /\ wait_state k i = role_state r /\ wait_ep k i = Some e) ->
  (forall i r' e', ~ (r' = r /\ e' = e) -> wait_state k i = role_state r' -> wait_ep k i = Some e' ->
     is_task k i -> (x <> Some i <-> x' <> Some i)) ->
  ipc_inv' x' (upd_ep e (set_role_queue r q) k') (upl LQ r e l').
Proof.
  intros HI [Hf Ho] Hq Htouch Hmem Hx.
  set (k2 := upd_ep e (set_role_queue r q) k').
  assert (Hep : forall e' r', role_queue r' (ep k2 e') =
    if decide (r' = r /\ e' = e) then q else role_queue r' (ep k e')).
  { intros e' r'. unfold k2. rewrite ep_upd_ep, (ep_frame k k') by done.
    destruct r, r', (decide (e' = e)); simplify_eq; repeat case_decide; naive_solver. }
  assert (Ht : forall i, is_task k2 i <-> is_task k i).
  { intros i. unfold is_task. change (task_count k2) with (task_count k').
    by rewrite (su_env_proj task_count Hf). }
  assert (Hst : forall i, wait_state k2 i = wait_state k i /\ wait_ep k2 i = wait_ep k i).
  { intros i. split.
    - by apply (su_proj (fun t => ipc_state (ipc t)) i Hf).
    - by apply (su_proj (fun t => waiting_endpoint (ipc t)) i Hf). }
  split.
  - destruct (ii_sched _ _ _ HI) as [Q HS]. exists Q. eapply sched_inv_ext; [| |done].
    + split; [apply (su_len _ _ _ _ Hf)|]. repeat split.
      * by apply (su_env_proj task_count Hf).
      * by apply (su_env_proj ready_head Hf).
      * by apply (su_env_proj ready_bitmask Hf).
    + intros i _. by apply (su_proj sched_view i Hf).
  - intros i. rewrite Ht. intros Hi. unfold k2.
    pose proof (su_proj (fun t => base_priority (scheduler t)) i Hf) as Hb. cbn in Hb.
    change (tcb (upd_ep e (set_role_queue r q) k') i) with (tcb k' i).
    rewrite Hb by done. by apply HI.
  - intros r' e'. rewrite Hep. unfold upl. case_decide as Hre; [by apply (wq_repr_ext k')|].
    eapply (wq_repr_ext k); [apply (su_len _ _ _ _ Hf)| |apply HI].
    intros i Hi. unfold bn. change (tcb k2 i) with (tcb k' i). rewrite Ho; [done|].
    intros Hl. apply Htouch in Hl as [Hl|Hl].
    + by apply Hre, (ipc_inv_disjoint x k LQ r e r' e' i).
    + apply (ii_mem _ _ _ HI) in Hi as [? _]. congruence.
  - intros r' e' i. rewrite Ht. destruct (Hst i) as [-> ->]. unfold upl.
    case_decide as Hre; [destruct Hre; subst; apply Hmem|].
    rewrite (ii_mem _ _ _ HI). split; intros (H1 & H2 & H3 & H4).
    + split; [|done]. by apply (Hx i r' e').
    + split; [|done]. by apply (Hx i r' e').
Qed.

(** Popping a waiter takes it in hand. *)
Lemma ipc_inv_pop k LQ r e P c q k' :
  ipc_inv k LQ -> dequeues_first P k (role_queue r (ep k e)) (LQ r e) (Some c, q, k') ->
  exists l1 l2, LQ r e = l1 ++ c :: l2 /\ P (tcb k c) = true /\
    (forall i, i ∈ l1 -> P (tcb k i) = false) /\ bn_frame (LQ r e) k k' /\
    ipc_inv' (Some c) (upd_ep e (set_role_queue r q) k') (upl LQ r e (l1 ++ l2)).
Proof.
  intros HI (l1 & l2 & Hl & Hc & Hfst & Hq & Hf). exists l1, l2. do 4 (split; [done|]).
  pose proof (wq_nodup _ _ _ (ii_repr _ _ _ HI r e)) as Hnd. rewrite Hl in Hnd.
  apply NoDup_mid in Hnd as (Hn1 & Hn2 & _).
  assert (Hcm : c ∈ LQ r e) by (rewrite Hl; set_solver).
  eapply ipc_inv_replace; [done|done|done|by left| |].
  - intros i. pose proof (ii_mem _ _ _ HI r e i) as Hi.
    assert (Hio : i ∈ l1 ++ l2 <-> i <> c /\ i ∈ LQ r e).
    { rewrite Hl, !elem_of_app, elem_of_cons. split; [|tauto].
      intros Hi'. split; [|tauto]. intros ->. tauto. }
    rewrite Hio, Hi. split; intros (H1 & H2 & H3).
    + split; [congruence|tauto].
    + split; [congruence|by split].
  - intros i r' e' Hre Hs He Ht. split; [|done]. intros _ [= <-].
    apply Hre. eapply (ipc_inv_disjoint None k LQ r e r' e' c); [done|done|].
    by apply (ii_mem _ _ _ HI).
Qed.

(** Queueing the task in hand, whose fields name the queue. *)
Lemma ipc_inv_push k LQ r e s q k' :
  ipc_inv' (Some s) k LQ -> is_task k s -> wait_state k s = role_state r -> wait_ep k s = Some e ->
  enqueue (Some s) (role_queue r (ep k e)) k = (q, k') ->
  ipc_inv (upd_ep e (set_role_queue r q) k') (upl LQ r e (pins (prio k) s (LQ r e))) /\
  bn_frame (s :: LQ r e) k k'.
Proof.
  intros HI Ht Hs He Henq.
  pose proof (enqueue_repr (ii_repr _ _ _ HI r e) (ipc_len HI) s) as Hr.
  rewrite Henq in Hr. destruct Hr as [Hq Hf].
  - intros Hin. apply (ii_mem _ _ _ HI) in Hin as [? _]. done.
  - by apply sched_ok_valid; [apply HI|].
  - split; [|done]. eapply ipc_inv_replace; [done|done|done|..].
    + intros i [->|Hi]%elem_of_cons; [by right|by left].
    + intros i. rewrite elem_of_pins, (ii_mem _ _ _ HI). split.
      * intros [->|(_ & H)]; done.
      * intros (_ & H). destruct (decide (i = s)) as [->|]; [by left|].
        right. split; [congruence|done].
    + intros i r' e' Hre Hs' He' _. split; [done|]. intros _ [= <-].
      rewrite Hs in Hs'. rewrite He in He'. apply Hre. split; [|congruence].
      by destruct r, r'.
Qed.

(** * Reading the state after a step *)

Lemma ipc_set_task_state id s k i : ipc (tcb (set_task_state id s k) i) = ipc (tcb k i).
Proof. by apply (su_proj ipc i (set_task_state_frame id s k)). Qed.
Lemma ipc_set_task_priority id p k i : ipc (tcb (set_task_priority id p k) i) = ipc (tcb k i).
Proof. by apply (su_proj ipc i (set_task_priority_frame id p k)). Qed.
Lemma count_set_task_state id s k : task_count (set_task_state id s k) = task_count k.
Proof. by apply (su_env_proj task_count (set_task_state_frame id s k)). Qed.
Lemma count_set_task_priority id p k : task_count (set_task_priority id p k) = task_count k.
Proof. by apply (su_env_proj task_count (set_task_priority_frame id p k)). Qed.
Lemma mem_set_task_state id s k : mem (set_task_state id s k) = mem k.
Proof. by apply (su_env_proj mem (set_task_state_frame id s k)). Qed.
Lemma mem_set_task_priority id p k : mem (set_task_priority id p k) = mem k.
Proof. by apply (su_env_proj mem (set_task_priority_frame id p k)). Qed.
Lemma ep_set_task_state id s k e : ep (set_task_state id s k) e = ep k e.
Proof. unfold ep. by rewrite (su_env_proj endpoints (set_task_state_frame id s k)). Qed.
Lemma ep_set_task_priority id p k e : ep (set_task_priority id p k) e = ep k e.
Proof. unfold ep. by rewrite (su_env_proj endpoints (set_task_priority_frame id p k)). Qed.

Lemma inherit_priority_frame s r k : same_upto erase_rq erase_prio k (inherit_priority s r k).
Proof. unfold inherit_priority. destruct (_ <? _); [apply set_task_priority_frame|done]. Qed.

Lemma recalculate_frame o k : same_upto erase_rq erase_prio k (recalculate_receiver_priority o k).
Proof. destruct o; [apply set_task_priority_frame|done]. Qed.

Lemma ipc_inherit_priority s r k i : ipc (tcb (inherit_priority s r k) i) = ipc (tcb k i).
Proof. by apply (su_proj ipc i (inherit_priority_frame s r k)). Qed.
Lemma ipc_recalculate o k i : ipc (tcb (recalculate_receiver_priority o k) i) = ipc (tcb k i).
Proof. by apply (su_proj ipc i (recalculate_frame o k)). Qed.

Lemma ipc_copy_mem len max src dst k n k' :
  ipc_copy len max src dst k = (n, k') -> exists m, k' = set_mem m k.
Proof.
  unfold ipc_copy. cbv zeta. destruct (_ && _); intros [= <- <-]; [by eexists|].
  exists (mem k). by destruct k.
Qed.

Lemma count_bn_frame l k k' : bn_frame l k k' -> task_count k' = task_count k.
Proof. intros [Hf _]. by apply (su_env_proj task_count Hf). Qed.

Lemma bn_frame_ipc_state l k k' i : bn_frame l k k' -> wait_state k' i = wait_state k i.
Proof. intros [Hf _]. by apply (su_proj (fun t => ipc_state (ipc t)) i Hf). Qed.

Lemma is_task_count k k' i : task_count k' = task_count k -> is_task k i -> is_task k' i.
Proof. unfold is_task. by intros ->. Qed.

Lemma get_task_by_id_Some k id i : get_task_by_id k id = Some i <-> i = id /\ is_task k id.
Proof.
  unfold get_task_by_id, is_task. destruct (Z.leb_spec 0 id), (Z.ltb_spec id (task_count k)); cbn;
    split; try done; try (intros [-> ?]; lia || done). by intros [= ->].
Qed.

Lemma get_task_by_id_task k id i : get_task_by_id k id = Some i -> is_task k i.
Proof. by intros [-> ?]%get_task_by_id_Some. Qed.

Lemma idle_IpcReady : idle_ipc IpcReady.
Proof. by intros []. Qed.
Lemma idle_ReplyBlocked : idle_ipc ReplyBlocked.
Proof. by intros []. Qed.
#[export] Hint Resolve idle_IpcReady idle_ReplyBlocked : aurora.

(** * The invariant is preserved *)

Section Handlers.
Context {x : option Z} {k : Kernel} {LQ : role -> Z -> list Z} (HI : ipc_inv' x k LQ).

Lemma inv_valid i : is_task k i -> valid_task k i.
Proof. apply sched_ok_valid, HI. Qed.

Lemma inv_id i : is_task k i -> sched_id (scheduler (tcb k i)) = i.
Proof. apply sched_ok_id, HI. Qed.

Lemma ipc_inv_state_of i s :
  is_task k i -> ipc_inv' x (set_task_state (sched_id (scheduler (tcb k i))) s k) LQ.
Proof. intros Hi. rewrite inv_id by done. apply ipc_inv_set_state; [done|apply Hi]. Qed.

Lemma ipc_inv_inherit s r :
  is_task k s -> is_task k r -> ipc_inv' x (inherit_priority s r k) LQ.
Proof.
  intros Hs Hr. unfold inherit_priority. destruct (_ <? _); [|done].
  rewrite inv_id by done. apply ipc_inv_set_priority; [done|apply Hr|].
  by apply sched_ok_prio; [apply HI|].
Qed.

Lemma waiting_prio_ge rid p i : p <= waiting_prio k rid p i.
Proof. unfold waiting_prio. repeat case_decide; zbool. Qed.

Lemma foldl_waiting_ge rid l p : p <= foldl (waiting_prio k rid) p l.
Proof.
  revert p. induction l as [|a l IH]; intros p; cbn; [lia|].
  pose proof (waiting_prio_ge rid p a). specialize (IH (waiting_prio k rid p a)). lia.
Qed.

Lemma ipc_inv_recalculate o :
  (forall r, o = Some r -> is_task k r) -> ipc_inv' x (recalculate_receiver_priority o k) LQ.
Proof.
  intros Ho. destruct o as [r|]; [|done]. cbn. specialize (Ho r eq_refl).
  rewrite inv_id by done. apply ipc_inv_set_priority; [done|apply Ho|].
  unfold inherited_prio. pose proof (ii_base _ _ _ HI r Ho).
  etrans; [done|apply foldl_waiting_ge].
Qed.

Lemma call_setup_inv s msg len rb mrl bdg : ipc_inv' x (call_setup s msg len rb mrl bdg k) LQ.
Proof. unfold call_setup. cbv zeta. destruct (_ && _); do 5 (apply ipc_inv_upd; [|done..]); done. Qed.

Lemma receive_setup_inv r buf ml label : ipc_inv' x (receive_setup r buf ml label k) LQ.
Proof. unfold receive_setup. cbv zeta. do 4 (apply ipc_inv_upd; [|done..]); done. Qed.
End Handlers.

(** Side conditions: task indices, and the IPC fields of a task after updates. *)
Ltac is_task_solve :=
  solve [assumption | unfold is_task in *; rewrite ?count_set_task_state, ?count_set_task_priority;
         cbn [task_count upd upd_ep set_tasks set_endpoints set_mem]; assumption].

Lemma call_deliver_inv e s r msg len timeout bdg k LQ :
  ipc_inv' (Some r) k LQ -> is_task k s -> is_task k r -> s <> r -> idle_ipc (wait_state k s) ->
  ipc_inv (call_deliver e s r msg len timeout bdg k).2 LQ.
Proof.
  intros HI Hs Hr Hne Hidle. unfold call_deliver. cbv zeta.
  destruct (ipc_copy _ _ _ _ k) as [mlen k1] eqn:Hc. apply ipc_copy_mem in Hc as [m ->].
  set (k1 := set_mem m k). set (k2 := upd r _ k1). set (k3 := upd s _ k2).
  assert (H1 : ipc_inv' (Some r) k1 LQ) by by apply ipc_inv_mem.
  assert (H2 : ipc_inv' (Some r) k2 LQ) by by apply ipc_inv_upd_hand.
  assert (H3 : ipc_inv' (Some r) k3 LQ) by by apply ipc_inv_upd.
  assert (Hv : valid_task k1 r) by by apply (inv_valid H1).
  assert (Hr3 : wait_state k3 r = IpcReady).
  { unfold wait_state, k3. rewrite tcb_upd_ne by done. unfold k2. by rewrite tcb_upd_eq. }
  assert (Hs3 : idle_ipc (wait_state k3 s)).
  { assert (wait_state k3 s = wait_state k s) as ->; [|done].
    unfold wait_state, k3. rewrite (tcb_upd_frame (fun t => ipc_state (ipc t))) by done.
    unfold k2. by rewrite tcb_upd_ne. }
  destruct (timeout =? IPC_NONBLOCK); cbn [snd].
  - set (k4 := upd s _ k3).
    assert (H4 : ipc_inv' (Some r) k4 LQ).
    { apply (ipc_inv_upd_idle H3); [done|done|by intros ? []|by apply (inv_valid H3)]. }
    apply (ipc_inv_release _ _ r); [by apply (ipc_inv_state_of H4)|].
    unfold wait_state, k4. rewrite ipc_set_task_state, tcb_upd_ne by done.
    fold (wait_state k3 r). rewrite Hr3. auto with aurora.
  - set (k4 := upd s _ k3).
    assert (H4 : ipc_inv' (Some r) k4 LQ).
    { apply (ipc_inv_upd_idle H3); [done|done|by intros ? []|by apply (inv_valid H3)]. }
    set (k5 := set_task_state _ _ k4).
    assert (H5 : ipc_inv' (Some r) k5 LQ) by by apply (ipc_inv_state_of H4).
    set (k6 := inherit_priority s r k5).
    assert (H6 : ipc_inv' (Some r) k6 LQ).
    { apply (ipc_inv_inherit H5); unfold k5; is_task_solve. }
    apply (ipc_inv_release _ _ r).
    + apply (ipc_inv_state_of H6). eapply is_task_count; [|exact Hr]. unfold k6.
      rewrite (su_env_proj task_count (inherit_priority_frame s r k5)) by done.
      unfold k5. by rewrite count_set_task_state.
    + unfold wait_state. rewrite ipc_set_task_state. unfold k6, k5.
      rewrite ipc_inherit_priority, ipc_set_task_state. unfold k4. rewrite tcb_upd_ne by done.
      fold (wait_state k3 r). rewrite Hr3. auto with aurora.
Qed.

(** Blocking: the caller, idle so far, queues itself. *)
Lemma block_on_inv (f : TaskControlBlock -> TaskControlBlock) r e s k LQ q k' :
  ipc_inv k LQ ->
  enqueue (Some s) (role_queue r (ep (upd s f k) e)) (upd s f k) = (q, k') ->
  is_task k s -> idle_ipc (wait_state k s) ->
  (forall t, stable_view (f t) = stable_view t) ->
  (forall t, ipc_state (ipc (f t)) = role_state r) ->
  (forall t, waiting_endpoint (ipc (f t)) = Some e) ->
  ipc_inv (set_task_state (sched_id (scheduler (tcb (upd_ep e (set_role_queue r q) k') s)))
             Blocked_On_Notify (upd_ep e (set_role_queue r q) k'))
    (upl LQ r e (pins (prio k) s (LQ r e))).
Proof.
  intros HI Henq Hs Hidle Hf Hst Hep.
  pose proof (ipc_inv_take _ _ _ HI (idle_unqueued _ _ Hidle)) as H1.
  pose proof (ipc_inv_upd_hand H1 s f eq_refl Hf) as H2.
  assert (Hv : valid_task k s) by by apply (inv_valid HI).
  pose proof (ipc_inv_push _ _ r e s q k' H2 Hs) as [H3 Hb].
  - unfold wait_state. by rewrite tcb_upd_eq.
  - unfold wait_ep. by rewrite tcb_upd_eq.
  - done.
  - rewrite (pins_ext (prio k) (prio (upd s f k))).
    + apply (ipc_inv_state_of H3). eapply is_task_count; [|exact Hs].
      exact (count_bn_frame _ _ _ Hb).
    + intros i. unfold prio. symmetry.
      apply (tcb_upd_frame (fun t => current_priority (scheduler t))). intros t.
      specialize (Hf t). unfold stable_view, sched_view, link_view in Hf. congruence.
Qed.

Lemma would_block_inv s k LQ :
  ipc_inv k LQ -> is_task k s -> idle_ipc (wait_state k s) -> ipc_inv (would_block s k).2 LQ.
Proof.
  intros HI Hs Hidle. apply (ipc_inv_upd_idle HI); [done|done|by intros ? []|by apply (inv_valid HI)].
Qed.

(** ** [call] and [receive] *)

Lemma call_setup_count s msg len rb mrl bdg k :
  task_count (call_setup s msg len rb mrl bdg k) = task_count k.
Proof. unfold call_setup. cbv zeta. by destruct (_ && _). Qed.

Lemma call_setup_wait s msg len rb mrl bdg k i :
  wait_view (tcb (call_setup s msg len rb mrl bdg k) i) = wait_view (tcb k i).
Proof.
  unfold call_setup. cbv zeta.
  destruct (_ && _); by do 5 (rewrite (tcb_upd_frame wait_view); [|done]).
Qed.

Lemma receive_setup_wait r buf ml label k i :
  wait_view (tcb (receive_setup r buf ml label k) i) = wait_view (tcb k i).
Proof. unfold receive_setup. cbv zeta. by do 4 (rewrite (tcb_upd_frame wait_view); [|done]). Qed.

Lemma wait_view_state k k' i :
  wait_view (tcb k' i) = wait_view (tcb k i) -> wait_state k' i = wait_state k i.
Proof. unfold wait_view, wait_state. congruence. Qed.

(** A task in a queue is not idle. *)
Lemma queued_ne x k LQ r e c s : ipc_inv' x k LQ -> idle_ipc (wait_state k s) -> c ∈ LQ r e -> s <> c.
Proof.
  intros HI Hs Hc ->. apply (ii_mem _ _ _ HI) in Hc as (_ & _ & Hc & _). by apply Hs in Hc.
Qed.

Lemma queued_task x k LQ r e c : ipc_inv' x k LQ -> c ∈ LQ r e -> is_task k c.
Proof. intros HI Hc. by apply (ii_mem _ _ _ HI) in Hc as (_ & ? & _). Qed.

(** Writing a queue back unchanged. *)
Lemma ipc_inv_same_queue x k LQ r e :
  ipc_inv' x k LQ -> ipc_inv' x (upd_ep e (set_role_queue r (role_queue r (ep k e))) k) LQ.
Proof.
  intros HI. apply (ipc_inv_ext HI).
  - eapply sched_ok_env; [..|apply HI]; done.
  - intros e' r'. rewrite ep_upd_ep. case_decide; [subst|done]. by destruct r, r'.
  - done.
  - done.
  - by left.
Qed.

Lemma call_inv e s msg len rb mrl timeout bdg k :
  ipc_ok k -> is_task k s -> idle_ipc (wait_state k s) ->
  ipc_ok (call e (Some s) msg len rb mrl timeout bdg k).2.
Proof.
  intros [LQ HI0] Hs0 Hidle0. unfold call. cbv zeta.
  pose proof (call_setup_inv HI0 s msg len rb mrl bdg) as HI.
  pose proof (call_setup_count s msg len rb mrl bdg k) as Hcnt.
  pose proof (call_setup_wait s msg len rb mrl bdg k s) as Hw%wait_view_state.
  set (k1 := call_setup s msg len rb mrl bdg k) in *. rewrite <- Hw in Hidle0.
  eapply is_task_count in Hs0; [|exact Hcnt]. clearbody k1.
  pose proof (dequeue_matching_receiver_spec (msg_type (ipc (tcb k1 s))) _ _ _
    (ii_repr _ _ _ HI RecvQ e) (ipc_len HI)) as Hd. cbn [role_queue] in Hd.
  destruct (dequeue_matching_receiver _ _ k1) as [[[r|] q] k'].
  - pose proof (ipc_inv_pop _ _ RecvQ e _ _ _ _ HI Hd) as (l1 & l2 & Hl & _ & _ & Hf & Hp).
    assert (Hin : r ∈ LQ RecvQ e) by (rewrite Hl; set_solver).
    eexists. apply call_deliver_inv; [exact Hp|..].
    + eapply is_task_count; [exact (count_bn_frame _ _ _ Hf)|done].
    + eapply is_task_count; [exact (count_bn_frame _ _ _ Hf)|exact (queued_task _ _ _ _ _ _ HI Hin)].
    + exact (queued_ne _ _ _ _ _ _ _ HI Hidle0 Hin).
    + rewrite <- (bn_frame_ipc_state _ _ _ _ Hf) in Hidle0. exact Hidle0.
  - destruct Hd as (-> & -> & _). unfold call_wait.
    pose proof (ipc_inv_same_queue _ _ _ RecvQ e HI) as HI'.
    destruct (timeout =? IPC_NONBLOCK); [eexists; by apply would_block_inv|]. cbv zeta.
    destruct (enqueue _ _ _) as [q k''] eqn:Henq. cbn [snd].
    eexists. by apply (block_on_inv _ SendQ e s _ _ q k'' HI' Henq).
Qed.

Lemma receive_deliver_inv r s buf ml k LQ :
  ipc_inv' (Some s) k LQ -> is_task k s -> is_task k r -> s <> r -> idle_ipc (wait_state k r) ->
  ipc_inv (receive_deliver r s buf ml k).2 LQ.
Proof.
  intros HI Hs Hr Hne Hidle. unfold receive_deliver. cbv zeta.
  destruct (ipc_copy _ _ _ _ k) as [mlen k1] eqn:Hc. apply ipc_copy_mem in Hc as [m ->].
  set (k1 := set_mem m k). set (k2 := upd r _ k1). set (k3 := upd s _ k2). set (k4 := upd s _ k3).
  assert (H1 : ipc_inv' (Some s) k1 LQ) by by apply ipc_inv_mem.
  assert (H2 : ipc_inv' (Some s) k2 LQ).
  { apply (ipc_inv_upd_idle H1); [done|done|by intros ? []|by apply (inv_valid H1)]. }
  assert (H3 : ipc_inv' (Some s) k3 LQ) by by apply ipc_inv_upd.
  assert (H4 : ipc_inv' (Some s) k4 LQ) by by apply ipc_inv_upd_hand.
  set (k5 := set_task_state _ _ k4).
  assert (H5 : ipc_inv' (Some s) k5 LQ) by by apply (ipc_inv_state_of H4).
  cbn [snd]. apply (ipc_inv_release _ _ s).
  - apply (ipc_inv_inherit H5); unfold k5; is_task_solve.
  - unfold wait_state. rewrite ipc_inherit_priority. unfold k5. rewrite ipc_set_task_state.
    unfold k4. rewrite tcb_upd_eq by (by apply (inv_valid H3)). cbn. auto with aurora.
Qed.

Lemma receive_inv e r buf ml timeout label k :
  ipc_ok k -> is_task k r -> idle_ipc (wait_state k r) ->
  ipc_ok (receive e (Some r) buf ml timeout label k).2.
Proof.
  intros [LQ HI0] Hr Hidle. unfold receive. cbv zeta.
  pose proof (receive_setup_inv HI0 r buf ml label) as HI.
  pose proof (receive_setup_wait r buf ml label k r) as Hw%wait_view_state.
  change (is_task (receive_setup r buf ml label k) r) in Hr.
  set (k1 := receive_setup r buf ml label k) in *. rewrite <- Hw in Hidle. clearbody k1.
  pose proof (dequeue_matching_sender_spec label _ _ _
    (ii_repr _ _ _ HI SendQ e) (ipc_len HI)) as Hd. cbn [role_queue] in Hd.
  destruct (dequeue_matching_sender _ _ k1) as [[[s|] q] k'].
  - pose proof (ipc_inv_pop _ _ SendQ e _ _ _ _ HI Hd) as (l1 & l2 & Hl & _ & _ & Hf & Hp).
    assert (Hin : s ∈ LQ SendQ e) by (rewrite Hl; set_solver).
    eexists. apply receive_deliver_inv; [exact Hp|..].
    + eapply is_task_count; [exact (count_bn_frame _ _ _ Hf)|exact (queued_task _ _ _ _ _ _ HI Hin)].
    + eapply is_task_count; [exact (count_bn_frame _ _ _ Hf)|done].
    + intros ->. exact (queued_ne _ _ _ _ _ _ _ HI Hidle Hin eq_refl).
    + rewrite <- (bn_frame_ipc_state _ _ _ _ Hf) in Hidle. exact Hidle.
  - destruct Hd as (-> & -> & _). unfold receive_wait.
    pose proof (ipc_inv_same_queue _ _ _ SendQ e HI) as HI'.
    destruct (timeout =? IPC_NONBLOCK); [eexists; by apply would_block_inv|]. cbv zeta.
    destruct (enqueue _ _ _) as [q k''] eqn:Henq. cbn [snd].
    eexists. by apply (block_on_inv _ RecvQ e r _ _ q k'' HI' Henq).
Qed.

(** ** [reply] *)

Lemma reply_deliver_inv r s msg len k LQ :
  ipc_inv k LQ -> is_task k s -> is_task k r -> wait_state k s = ReplyBlocked ->
  ipc_inv (reply_deliver r s msg len k).2 LQ.
Proof.
  intros HI Hs Hr Hst. unfold reply_deliver. cbv zeta.
  destruct (ipc_copy _ _ _ _ k) as [mlen k1] eqn:Hc. apply ipc_copy_mem in Hc as [m ->].
  set (k1 := set_mem m k). set (k2 := upd s _ k1). cbn [snd].
  assert (H1 : ipc_inv k1 LQ) by by apply ipc_inv_mem.
  assert (H2 : ipc_inv k2 LQ).
  { apply (ipc_inv_upd_idle H1); [|done|by intros ? []|by apply (inv_valid H1)].
    change (wait_state k1 s) with (wait_state k s). rewrite Hst. auto with aurora. }
  apply ipc_inv_recalculate; [by apply (ipc_inv_state_of H2)|].
  intros ? [= <-]. is_task_solve.
Qed.

Lemma reply_inv r sid msg len k :
  ipc_ok k -> is_task k r -> ipc_ok (reply (Some r) sid msg len k).2.
Proof.
  intros [LQ HI] Hr. unfold reply. destruct (_ <=? _); [by exists LQ|].
  destruct (get_task_by_id k sid) as [s|] eqn:Hs; [|by exists LQ]. apply get_task_by_id_task in Hs.
  case_bool_decide as Hst; cbn [andb]; [|by exists LQ].
  destruct (_ =? _); [|by exists LQ]. exists LQ. by apply reply_deliver_inv.
Qed.

(** ** [cancel_waiter] *)

Lemma ipc_inv_remove x k LQ r e t b q k' :
  ipc_inv' x k LQ -> x = None \/ x = Some t ->
  wq_remove (Some t) (role_queue r (ep k e)) k = (b, q, k') ->
  exists x' LQ', ipc_inv' x' (upd_ep e (set_role_queue r q) k') LQ' /\
    (x' = x \/ x' = Some t) /\ bn_frame (LQ r e) k k' /\
    (x = Some t -> x' = Some t) /\
    (is_task k t -> wait_state k t = role_state r -> wait_ep k t = Some e -> x' = Some t).
Proof.
  intros HI Hx Hrm.
  pose proof (wq_remove_repr (ii_repr _ _ _ HI r e) (ipc_len HI) t) as Hr. rewrite Hrm in Hr.
  destruct b.
  - destruct Hr as (Hin & Hq & Hf).
    assert (x = None) as -> by (destruct Hx as [|Hx]; [done|];
      apply (ii_mem _ _ _ HI) in Hin as [? _]; congruence).
    exists (Some t). eexists. split; [|naive_solver].
    apply (ipc_inv_replace _ _ _ _ _ _ _ _ _ _ HI Hf Hq); [by left|..].
    + intros i. rewrite list_elem_of_filter, (ii_mem _ _ _ HI).
      split; intros (H1 & H2); [|split; [congruence|done]].
      split; [congruence|]. apply H2.
    + intros i r' e' Hre Hs He Ht. split; [|done]. intros _ [= <-]. apply Hre.
      apply (ipc_inv_disjoint None k LQ r e r' e' t); [done|done|]. by apply (ii_mem _ _ _ HI).
  - destruct Hr as (Hin & -> & ->). exists x, LQ. split; [by apply ipc_inv_same_queue|].
    do 3 (split; [by try left|]). intros Ht Hs He. destruct Hx as [->| ->]; [|done].
    destruct Hin. by apply (ii_mem _ _ _ HI).
Qed.

Lemma bn_frame_ep l k k' i : bn_frame l k k' -> wait_ep k' i = wait_ep k i.
Proof. intros [Hf _]. by apply (su_proj (fun t => waiting_endpoint (ipc t)) i Hf). Qed.

(** Letting go of a task whose fields say that it waits for nothing. *)
Lemma release_inv f t k LQ :
  ipc_inv' (Some t) k LQ -> is_task k t -> (forall c, stable_view (f c) = stable_view c) ->
  (forall c, ipc_state (ipc (f c)) = IpcReady) ->
  ipc_inv (set_task_state (sched_id (scheduler (tcb (upd t f k) t))) Ready (upd t f k)) LQ.
Proof.
  intros HI Ht Hf Hst. pose proof (ipc_inv_upd_hand HI t f eq_refl Hf) as H1.
  apply (ipc_inv_release _ _ t); [by apply (ipc_inv_state_of H1)|].
  unfold wait_state. rewrite ipc_set_task_state, tcb_upd_eq by by apply (inv_valid HI).
  rewrite Hst. auto with aurora.
Qed.

(** After both removals the task is in no queue. *)
Lemma unqueue_waiter_inv e t k LQ :
  ipc_inv k LQ -> is_task k t -> unqueued k t \/ wait_ep k t = Some e ->
  exists LQ', ipc_inv' (Some t) (unqueue_waiter e t k) LQ' /\
    task_count (unqueue_waiter e t k) = task_count k.
Proof.
  intros HI Ht Hw. unfold unqueue_waiter. cbv zeta.
  destruct (wq_remove (Some t) (send_queue_ (ep k e)) k) as [[b1 q1] k1] eqn:E1.
  apply (ipc_inv_remove _ _ _ SendQ _ _ _ _ _ HI (or_introl eq_refl)) in E1
    as (x1 & LQ1 & H1 & Hx1 & Hf1 & _ & Hin1).
  set (k1' := upd_ep e (set_send_queue_ q1) k1).
  destruct (wq_remove (Some t) (recv_queue_ (ep k1' e)) k1') as [[b2 q2] k2] eqn:E2.
  apply (ipc_inv_remove _ _ _ RecvQ _ _ _ _ _ H1) in E2
    as (x2 & LQ2 & H2 & Hx2 & Hf2 & Hkeep & Hin2); [|tauto].
  set (k2' := upd_ep e (set_recv_queue_ q2) k2).
  assert (Hs1 : wait_state k1' t = wait_state k t) by exact (bn_frame_ipc_state _ _ _ t Hf1).
  assert (He1 : wait_ep k1' t = wait_ep k t) by exact (bn_frame_ep _ _ _ t Hf1).
  assert (Hs2 : wait_state k2' t = wait_state k1' t) by exact (bn_frame_ipc_state _ _ _ t Hf2).
  assert (He2 : wait_ep k2' t = wait_ep k1' t) by exact (bn_frame_ep _ _ _ t Hf2).
  exists LQ2. split.
  - destruct (decide (x2 = Some t)) as [->|Hne]; [done|].
    assert (x2 = None) as -> by (destruct Hx1 as [->| ->], Hx2 as [->| ->]; tauto).
    apply ipc_inv_take; [done|]. intros r e'. rewrite Hs2, Hs1, He2, He1.
    destruct Hw as [Hu|He]; [apply Hu|]. intros Hst _. revert Hst.
    destruct r; intros Hst; [specialize (Hin1 Ht Hst He); tauto|].
    discriminate (Hin2 (is_task_count _ _ _ (count_bn_frame _ _ _ Hf1) Ht)
      (eq_trans Hs1 Hst) (eq_trans He1 He)).
  - transitivity (task_count k1'); [exact (count_bn_frame _ _ _ Hf2)|exact (count_bn_frame _ _ _ Hf1)].
Qed.

Lemma wake_unqueued_inv e t reason k :
  ipc_ok k -> is_task k t -> unqueued k t \/ wait_ep k t = Some e ->
  ipc_ok (wake_waiter reason t (unqueue_waiter e t k)).
Proof.
  intros [LQ HI] Ht Hw. destruct (unqueue_waiter_inv e t k LQ HI Ht Hw) as (LQ2 & H2 & Hc).
  exists LQ2. apply release_inv; try done. by eapply is_task_count.
Qed.

Lemma cancel_waiter_inv e t reason k :
  ipc_ok k -> is_task k t -> unqueued k t \/ wait_ep k t = Some e ->
  ipc_ok (cancel_waiter e (Some t) reason k).
Proof.
  intros Hok Ht Hw. pose proof (wake_unqueued_inv e t reason k Hok Ht Hw) as [LQ H].
  cbn [cancel_waiter]. cbv zeta. exists LQ. destruct (_ && _); [|exact H].
  apply (ipc_inv_recalculate H). intros r. apply get_task_by_id_task.
Qed.

(** ** [cancel_all] *)

(** What a cancelled task and a task that is left alone look like. *)
Definition released (k : Kernel) (reason : IpcStatus) (i : Z) : Prop :=
  wait_state k i = IpcReady /\ wait_ep k i = None /\ ipc_status (ipc (tcb k i)) = reason /\
  sched_state (scheduler (tcb k i)) = Ready.

Definition cancel_view (t : TaskControlBlock) : IpcState * option Z * IpcStatus * TaskState :=
  (ipc_state (ipc t), waiting_endpoint (ipc t), ipc_status (ipc t), sched_state (scheduler t)).

(** [k'] results from [k] by cancelling some tasks that waited on [e]. *)
Definition cancels (e : Z) (reason : IpcStatus) (k k' : Kernel) : Prop :=
  task_count k' = task_count k /\
  forall i, is_task k i ->
    cancel_view (tcb k' i) = cancel_view (tcb k i) \/
    wait_ep k i = Some e /\ released k' reason i.

#[export] Instance cancels_refl e reason : Reflexive (cancels e reason).
Proof. split; [done|]. by left. Qed.

#[export] Instance cancels_trans e reason : Transitive (cancels e reason).
Proof.
  intros k1 k2 k3 [C1 H1] [C2 H2]. split; [congruence|]. intros i Hi.
  assert (Hi2 : is_task k2 i) by by eapply is_task_count.
  destruct (H1 i Hi) as [E1|(W1 & R1)], (H2 i Hi2) as [E2|(W2 & R2)];
    unfold cancel_view, released, wait_ep, wait_state in *.
  - left. congruence.
  - right. split; [congruence|done].
  - right. split; [done|]. simplify_eq. naive_solver congruence.
  - naive_solver.
Qed.

(** Recomputing a priority cancels nothing. *)
Lemma cancels_recalculate e reason o k : cancels e reason k (recalculate_receiver_priority o k).
Proof.
  pose proof (recalculate_frame o k) as Hf. split; [by apply (su_env_proj task_count Hf)|].
  intros i _. left. by apply (su_proj cancel_view i Hf).
Qed.

Lemma cancel_queued_cancels e reason t k :
  sched_ok k -> is_task k t -> wait_ep k t = Some e -> cancels e reason k (cancel_queued reason t k).
Proof.
  intros Hok Ht He. unfold cancel_queued. cbv zeta. set (k1 := upd t _ k).
  assert (Hok1 : sched_ok k1) by by apply sched_ok_upd.
  assert (Hv : valid_task k t) by by apply sched_ok_valid.
  rewrite (sched_ok_id k1 t) by done. split; [by rewrite count_set_task_state|].
  intros i Hi. unfold cancel_view, released, wait_state, wait_ep in *.
  rewrite !ipc_set_task_state, !(set_task_state_state k1 t Ready i) by done.
  unfold k1. destruct (decide (i = t)) as [->|Hne].
  - right. by rewrite tcb_upd_eq.
  - left. by rewrite tcb_upd_ne by done.
Qed.

Lemma cancels_bn_frame e reason l k k' : bn_frame l k k' -> cancels e reason k k'.
Proof.
  intros Hf. split; [by eapply count_bn_frame|]. intros i _. left.
  by apply (su_proj cancel_view i (proj1 Hf)).
Qed.

(** One round of a draining loop, on either queue. *)
Lemma cancel_head_inv r e reason t q k k' LQ :
  ipc_inv k LQ -> dequeue (role_queue r (ep k e)) k = (Some t, q, k') ->
  exists l', LQ r e = t :: l' /\
    ipc_inv (cancel_queued reason t (upd_ep e (set_role_queue r q) k')) (upl LQ r e l') /\
    cancels e reason k (cancel_queued reason t (upd_ep e (set_role_queue r q) k')) /\
    is_task (cancel_queued reason t (upd_ep e (set_role_queue r q) k')) t.
Proof.
  intros HI Hd. pose proof (dequeue_repr (ii_repr _ _ _ HI r e) (ipc_len HI)) as Hr.
  rewrite Hd in Hr. destruct Hr as (l' & Hl & Hq & Hf).
  destruct (ipc_inv_pop k LQ r e (fun _ => true) t q k' HI) as (l1 & l2 & Hl2 & _ & Hno & _ & Hp).
  { exists [], l'. split; [done|]. split; [done|]. split; [set_solver|done]. }
  assert (l1 = []) as ->. { destruct l1 as [|a l1]; [done|]. discriminate (Hno a). set_solver. }
  exists l'. assert (l2 = l') as -> by (rewrite Hl in Hl2; by injection Hl2).
  assert (Hin : t ∈ LQ r e) by (rewrite Hl; set_solver).
  pose proof (queued_task _ _ _ _ _ _ HI Hin) as Ht. set (k1 := upd_ep _ _ k') in *.
  assert (Ht1 : is_task k1 t) by (eapply is_task_count; [exact (count_bn_frame _ _ _ Hf)|done]).
  assert (Hw : wait_ep k1 t = Some e).
  { transitivity (wait_ep k t); [exact (bn_frame_ep _ _ _ t Hf)|].
    by apply (ii_mem _ _ _ HI) in Hin as (_ & _ & _ & ?). }
  assert (Hc : cancels e reason k1 (cancel_queued reason t k1)).
  { apply cancel_queued_cancels; [apply Hp|done|done]. }
  split; [done|]. split; [by apply release_inv|]. split.
  - etrans; [|exact Hc]. exact (cancels_bn_frame _ _ _ _ _ Hf).
  - eapply is_task_count; [apply Hc|done].
Qed.

Lemma upl_eq LQ r e l : upl LQ r e l r e = l.
Proof. unfold upl. by rewrite decide_True. Qed.
Lemma upl_ne LQ r e l r' e' : r' <> r \/ e' <> e -> upl LQ r e l r' e' = LQ r' e'.
Proof. intros H. unfold upl. rewrite decide_False; naive_solver. Qed.

Lemma dequeue_none r e q k k' LQ :
  ipc_inv k LQ -> dequeue (role_queue r (ep k e)) k = (None, q, k') -> LQ r e = [].
Proof.
  intros HI Hd. pose proof (dequeue_repr (ii_repr _ _ _ HI r e) (ipc_len HI)) as Hr.
  rewrite Hd in Hr. apply Hr.
Qed.

(** With fuel for every queued task, a draining loop empties its queue. *)
Lemma drain_senders_spec fuel e reason k LQ :
  ipc_inv k LQ -> (length (LQ SendQ e) <= fuel)%nat ->
  exists LQ', ipc_inv (drain_senders fuel e reason k) LQ' /\
    LQ' SendQ e = [] /\ LQ' RecvQ e = LQ RecvQ e /\
    cancels e reason k (drain_senders fuel e reason k).
Proof.
  revert k LQ. induction fuel as [|fuel IH]; intros k LQ HI Hlen; cbn [drain_senders].
  - exists LQ. split; [done|]. split; [by apply nil_length_inv, Nat.le_0_r|done].
  - destruct (dequeue _ k) as [[[t|] q] k'] eqn:Hd.
    + destruct (cancel_head_inv SendQ e reason t q k k' LQ HI Hd) as (l' & Hl & H1 & Hc & _).
      apply (IH _ _) in H1 as (LQ' & H2 & He & Hr & Hc').
      * exists LQ'. split; [exact H2|]. split; [done|]. split; [|by etrans].
        rewrite Hr. by apply upl_ne; left.
      * rewrite upl_eq. rewrite Hl in Hlen. cbn in Hlen. lia.
    + exists LQ. split; [done|]. by rewrite (dequeue_none SendQ e q k k' LQ HI Hd).
Qed.

Lemma drain_receivers_spec fuel e reason k LQ :
  ipc_inv k LQ -> (length (LQ RecvQ e) <= fuel)%nat ->
  exists LQ', ipc_inv (drain_receivers fuel e reason k) LQ' /\
    LQ' RecvQ e = [] /\ LQ' SendQ e = LQ SendQ e /\
    cancels e reason k (drain_receivers fuel e reason k).
Proof.
  revert k LQ. induction fuel as [|fuel IH]; intros k LQ HI Hlen; cbn [drain_receivers].
  - exists LQ. split; [done|]. split; [by apply nil_length_inv, Nat.le_0_r|done].
  - destruct (dequeue _ k) as [[[t|] q] k'] eqn:Hd.
    + destruct (cancel_head_inv RecvQ e reason t q k k' LQ HI Hd) as (l' & Hl & H1 & Hc & Ht).
      assert (H1' : ipc_inv (recalculate_receiver_priority (Some t)
        (cancel_queued reason t (upd_ep e (set_recv_queue_ q) k'))) (upl LQ RecvQ e l')).
      { apply (ipc_inv_recalculate H1). by intros ? [= <-]. }
      apply IH in H1' as (LQ' & H2 & He & Hr & Hc').
      * exists LQ'. split; [exact H2|]. split; [done|]. split; [rewrite Hr; by apply upl_ne; left|].
        etrans; [exact Hc|]. etrans; [apply cancels_recalculate|exact Hc'].
      * rewrite upl_eq. rewrite Hl in Hlen. cbn in Hlen. lia.
    + exists LQ. split; [done|]. by rewrite (dequeue_none RecvQ e q k k' LQ HI Hd).
Qed.

(** The final scan: no queue changes, and a visited task waits on [e] no more. *)
Lemma cancel_scan_step_spec e reason k LQ i :
  ipc_inv k LQ -> is_task k i -> LQ SendQ e = [] -> LQ RecvQ e = [] ->
  ipc_inv (cancel_scan_step e reason k i) LQ /\ cancels e reason k (cancel_scan_step e reason k i) /\
  wait_ep (cancel_scan_step e reason k i) i <> Some e.
Proof.
  intros HI Hi HS HR. unfold cancel_scan_step. case_decide as He; [|done]. cbv zeta.
  assert (Hidle : idle_ipc (wait_state k i)).
  { intros r Hst. assert (i ∈ LQ r e) as Hin by by apply (ii_mem _ _ _ HI).
    destruct r; rewrite ?HS, ?HR in Hin; set_solver. }
  pose proof (release_inv (fun c => set_sleep_ticks 0 (set_blocked_next None (set_ipc_status reason
    (set_ipc_state IpcReady (set_waiting_endpoint None c))))) i k LQ
    (ipc_inv_take _ _ _ HI (idle_unqueued _ _ Hidle)) Hi (fun _ => eq_refl) (fun _ => eq_refl)) as H1.
  change (ipc_inv (cancel_queued reason i k) LQ) in H1.
  pose proof (cancel_queued_cancels e reason i k (ii_sched _ _ _ HI) Hi He) as Hc.
  match goal with |- ipc_inv ?K _ /\ _ => set (k2 := K) end.
  assert (H2 : ipc_inv k2 LQ).
  { unfold k2. destruct (_ <? _); [|done]. apply (ipc_inv_recalculate H1).
    intros r. apply get_task_by_id_task. }
  assert (Hc2 : cancels e reason (cancel_queued reason i k) k2).
  { unfold k2. destruct (_ <? _); [apply cancels_recalculate|done]. }
  assert (Hc' : cancels e reason k k2) by by etrans.
  split; [done|]. split; [done|].
  destruct Hc as [Hcnt Hv]. assert (Hn : wait_ep (cancel_queued reason i k) i = None).
  { unfold wait_ep, cancel_queued. cbv zeta.
    rewrite ipc_set_task_state, tcb_upd_eq by by apply (inv_valid HI). done. }
  destruct (proj2 Hc2 i) as [E|(E & _)]; [by eapply is_task_count| |congruence].
  unfold cancel_view in E. unfold wait_ep in *. simplify_eq. congruence.
Qed.

Lemma cancel_scan_spec e reason l k LQ :
  ipc_inv k LQ -> (forall i, i ∈ l -> is_task k i) -> LQ SendQ e = [] -> LQ RecvQ e = [] ->
  ipc_inv (foldl (cancel_scan_step e reason) k l) LQ /\
  cancels e reason k (foldl (cancel_scan_step e reason) k l) /\
  forall i, i ∈ l -> wait_ep (foldl (cancel_scan_step e reason) k l) i <> Some e.
Proof.
  revert k. induction l as [|a l IH]; intros k HI Hl HS HR; cbn [foldl].
  - split; [done|]. split; [done|]. set_solver.
  - destruct (cancel_scan_step_spec e reason k LQ a) as (H1 & Hc1 & Hn); [done|set_solver|done|done|].
    destruct (IH _ H1) as (H2 & Hc2 & Hn2); [|done|done|].
    { intros i Hi. eapply is_task_count; [apply Hc1|]. set_solver. }
    split; [done|]. split; [by etrans|]. intros i [->|Hi]%elem_of_cons; [|by apply Hn2].
    destruct (proj2 Hc2 a) as [E|(E & _)]; [| |done].
    + eapply is_task_count; [apply Hc1|]. set_solver.
    + unfold cancel_view, wait_ep in *. simplify_eq. congruence.
Qed.

Lemma cancel_all_spec e reason k :
  ipc_ok k ->
  exists LQ, ipc_inv (cancel_all e reason k) LQ /\ LQ SendQ e = [] /\ LQ RecvQ e = [] /\
    cancels e reason k (cancel_all e reason k) /\
    forall i, is_task k i -> wait_ep (cancel_all e reason k) i <> Some e.
Proof.
  intros [LQ HI]. unfold cancel_all. cbv zeta.
  destruct (drain_senders_spec wq_fuel e reason k LQ HI) as (LQ1 & H1 & E1 & _ & C1).
  { eapply wq_length; [apply HI|apply (ipc_len HI)]. }
  set (k1 := drain_senders _ _ _ _) in *.
  destruct (drain_receivers_spec wq_fuel e reason k1 LQ1 H1) as (LQ2 & H2 & E2 & E2' & C2).
  { eapply wq_length; [apply H1|apply (ipc_len H1)]. }
  set (k2 := drain_receivers _ _ _ _) in *.
  assert (C12 : cancels e reason k k2) by by etrans.
  assert (Hidx : forall i, i ∈ task_indices k2 <-> is_task k2 i).
  { intros i. unfold task_indices, is_task. rewrite elem_of_seqZ. lia. }
  destruct (cancel_scan_spec e reason (task_indices k2) k2 LQ2) as (H3 & C3 & N); [done|..].
  - apply Hidx.
  - congruence.
  - done.
  - exists LQ2. split; [done|]. split; [congruence|]. split; [done|]. split; [by etrans|].
    intros i Hi. apply N, Hidx. by eapply is_task_count; [apply C12|].
Qed.
