(* ===== verification/Mpu.v ===== *)
(** MPU sandboxes (kernel/mm/mpu.hpp) and the CRC that seals their descriptors
    ([Crc32] of utils/hmac_sha256.hpp).

    [Crc32::compute], [SandboxDescriptor::seal]/[is_valid],
    [MPU::calculate_stack_srd_mask], [configure_region],
    [update_user_sandbox_verified] and [update_user_sandbox].  The region
    registers written through [Arch::mpu_configure_region] are a map from region
    number to region; a failed [KERNEL_ASSERT] halts, which is [None]. *)
From S2P Require Import Prelude Kernel.

(** * CRC32 *)

Definition CRC_POLY : Z := 3988292384. (* 0xEDB88320 *)

Definition crc_bit (crc : Z) : Z :=
  if negb (Z.land crc 1 =? 0) then Z.lxor (Z.shiftr crc 1) CRC_POLY else Z.shiftr crc 1.

Definition crc_byte (crc b : Z) : Z := Nat.iter 8 crc_bit (Z.lxor crc b).

Definition crc_compute (data : list Z) : Z :=
  Z.lxor (foldl crc_byte u32_max data) u32_max.

(** The bytes of a little-endian [uint32_t]. *)
Definition word_bytes (w : Z) : list Z :=
  [w mod 256; w / 256 mod 256; w / 65536 mod 256; w / 16777216 mod 256].

(** * Descriptors *)

Definition sandbox_words (d : SandboxDescriptor) : list Z :=
  [ Z.land (sd_stack_base d) u32_max;
    Z.land (Z.shiftr (sd_stack_base d) 32) u32_max;
    Z.lor (sd_size_pow2 d) (Z.shiftl (sd_subregion_disable d) 8);
    sd_version d ].

Definition sandbox_crc (d : SandboxDescriptor) : Z :=
  crc_compute (concat (map word_bytes (sandbox_words d))).

Definition seal (d : SandboxDescriptor) : SandboxDescriptor := set_sd_crc32 (sandbox_crc d) d.

Definition is_valid (d : SandboxDescriptor) : bool := sd_crc32 d =? sandbox_crc d.

(** * Sub-region masks *)

Fixpoint low_bits (n : nat) : Z :=
  match n with
  | O => 0
  | S n => wrap8 (Z.lor (low_bits n) (bit (Z.of_nat n)))
  end.

Definition calculate_stack_srd_mask (requested_stack_bytes region_size_pow2 : Z)
    (enable_guard_subregion : bool) : Z :=
  if region_size_pow2 <? 8 then 0 else
  let region_size := bit region_size_pow2 in
  let subregion_size := Z.shiftr region_size 3 in
  let needed := wrap32 (requested_stack_bytes + subregion_size - 1) / subregion_size in
  let needed := if needed =? 0 then 1 else needed in
  let max_usable := if enable_guard_subregion then 7 else 8 in
  let needed := if max_usable <? needed then max_usable else needed in
  low_bits (Z.to_nat (8 - needed)).

(** * Programming the regions *)

Record MpuRegion := mkRegion {
  mr_base : Z;
  mr_size_pow2 : Z;
  mr_ap : Z;
  mr_xn : bool;
  mr_device : bool;
  mr_srd : Z;
}.

Definition AP_ALL_RW : Z := 3.
Definition USER_REGION : Z := 7.

Definition configure_region (region_num base_addr size_pow ap : Z) (xn dev : bool) (srd : Z)
    (regions : gmap Z MpuRegion) : option (gmap Z MpuRegion) :=
  if (size_pow <? 5) || (31 <? size_pow) then None else
  if negb (Z.land base_addr (bit size_pow - 1) =? 0) then None else
  Some (<[region_num := mkRegion base_addr size_pow ap xn dev srd]> regions).

Definition update_user_sandbox_verified (desc : SandboxDescriptor) (regions : gmap Z MpuRegion) :
    option (gmap Z MpuRegion) :=
  if negb (is_valid desc) then None else
  if negb ((5 <=? sd_size_pow2 desc) && (sd_size_pow2 desc <=? 17)) then None else
  if negb (Z.land (sd_stack_base desc) (bit (sd_size_pow2 desc) - 1) =? 0) then None else
  Some (<[USER_REGION := mkRegion (sd_stack_base desc) (sd_size_pow2 desc) AP_ALL_RW true false
                           (sd_subregion_disable desc)]> regions).

Definition update_user_sandbox (base size_pow srd : Z) (regions : gmap Z MpuRegion) : gmap Z MpuRegion :=
  <[USER_REGION := mkRegion base size_pow AP_ALL_RW true false srd]> regions.

(** * The CRC detects a changed byte *)

Lemma crc_bit_range c : is_u32 c -> is_u32 (crc_bit c).
Proof.
  intros [H0 H1]. unfold crc_bit. assert (Hs : 0 <= Z.shiftr c 1 < 2 ^ 31).
  { rewrite Z.shiftr_div_pow2 by lia. Z.to_euclidean_division_equations. lia. }
  destruct (negb _); [|unfold is_u32; lia]. split; [apply Z.lxor_nonneg; unfold CRC_POLY; lia|].
  apply (bits_bound _ 32); [apply Z.lxor_nonneg; unfold CRC_POLY; lia|lia|].
  intros j Hj. rewrite Z.lxor_spec, (bits_above _ 31 j), (bits_above CRC_POLY 32 j);
    [done|unfold CRC_POLY; lia|lia|lia|lia].
Qed.

Lemma land_1 c : Z.land c 1 = c mod 2.
Proof. change 1 with (Z.ones 1). by rewrite Z.land_ones by lia. Qed.

(** The bit shifted out returns as bit 31, so a step loses nothing. *)
Lemma crc_bit_inj c d : is_u32 c -> is_u32 d -> crc_bit c = crc_bit d -> c = d.
Proof.
  intros Hc Hd Heq.
  assert (Htop : forall x, is_u32 x -> Z.testbit (crc_bit x) 31 = negb (Z.land x 1 =? 0)).
  { intros x [H0 H1]. unfold crc_bit. assert (Hs : Z.testbit (Z.shiftr x 1) 31 = false).
    { apply (bits_above _ 31); [|lia]. rewrite Z.shiftr_div_pow2 by lia.
      Z.to_euclidean_division_equations. lia. }
    destruct (negb _); [rewrite Z.lxor_spec|]; by rewrite Hs. }
  assert (Hl : negb (Z.land c 1 =? 0) = negb (Z.land d 1 =? 0)).
  { by rewrite <- !Htop, Heq. }
  assert (Hs : Z.shiftr c 1 = Z.shiftr d 1).
  { unfold crc_bit in Heq. rewrite Hl in Heq. destruct (negb _); [|done].
    apply (f_equal (fun x => Z.lxor x CRC_POLY)) in Heq.
    by rewrite !Z.lxor_assoc, !Z.lxor_nilpotent, !Z.lxor_0_r in Heq. }
  rewrite !Z.shiftr_div_pow2, !Z.pow_1_r in Hs by lia. rewrite !land_1 in Hl.
  pose proof (Z.mod_pos_bound c 2). pose proof (Z.mod_pos_bound d 2).
  assert (c mod 2 = d mod 2) by (destruct (Z.eqb_spec (c mod 2) 0), (Z.eqb_spec (d mod 2) 0); try done; lia).
  rewrite (Z.div_mod c 2), (Z.div_mod d 2) by lia. congruence.
Qed.

Lemma crc_iter_range n c : is_u32 c -> is_u32 (Nat.iter n crc_bit c).
Proof. intros Hc. induction n; cbn; [done|]. by apply crc_bit_range. Qed.

Lemma crc_iter_inj n c d :
  is_u32 c -> is_u32 d -> Nat.iter n crc_bit c = Nat.iter n crc_bit d -> c = d.
Proof.
  intros Hc Hd. induction n as [|n IH]; cbn; [done|]. intros H. apply IH.
  by apply crc_bit_inj; [apply crc_iter_range..|].
Qed.

Definition is_byte (b : Z) : Prop := 0 <= b < 256.

Lemma lxor_u32 c b : is_u32 c -> is_u32 b -> is_u32 (Z.lxor c b).
Proof.
  intros [H0 H1] [B0 B1]. split; [apply Z.lxor_nonneg; lia|].
  apply (bits_bound _ 32); [apply Z.lxor_nonneg; lia|lia|]. intros j Hj.
  rewrite Z.lxor_spec, (bits_above c 32 j), (bits_above b 32 j); done || lia.
Qed.

Lemma is_byte_u32 b : is_byte b -> is_u32 b.
Proof. unfold is_byte, is_u32. lia. Qed.

Lemma crc_byte_range c b : is_u32 c -> is_byte b -> is_u32 (crc_byte c b).
Proof. intros Hc Hb. by apply crc_iter_range, lxor_u32, is_byte_u32. Qed.

Lemma lxor_inj_l a b c : Z.lxor a c = Z.lxor b c -> a = b.
Proof.
  intros H. apply (f_equal (fun x => Z.lxor x c)) in H.
  by rewrite !Z.lxor_assoc, !Z.lxor_nilpotent, !Z.lxor_0_r in H.
Qed.

Lemma crc_byte_inj c b d b' :
  is_u32 c -> is_u32 d -> is_byte b -> is_byte b' -> crc_byte c b = crc_byte d b' ->
  Z.lxor c b = Z.lxor d b'.
Proof. intros Hc Hd Hb Hb' H. apply crc_iter_inj in H; [done|auto using lxor_u32, is_byte_u32..]. Qed.

Lemma crc_fold_range l c : is_u32 c -> Forall is_byte l -> is_u32 (foldl crc_byte c l).
Proof.
  revert c. induction l as [|b l IH]; intros c Hc Hl; [done|]. inversion Hl; subst. cbn.
  apply IH; [by apply crc_byte_range|done].
Qed.

Lemma crc_fold_inj l c d :
  is_u32 c -> is_u32 d -> Forall is_byte l -> foldl crc_byte c l = foldl crc_byte d l -> c = d.
Proof.
  revert c d. induction l as [|b l IH]; intros c d Hc Hd Hl H; [done|].
  inversion Hl as [|?? Hb Hl']; subst. cbn [foldl] in H.
  apply IH in H; [|by apply crc_byte_range..|done].
  apply crc_byte_inj in H; [|done..]. by eapply lxor_inj_l.
Qed.

(** Messages that differ in exactly one byte have different checksums. *)
Lemma crc_single_byte l1 a b l2 :
  Forall is_byte l1 -> Forall is_byte l2 -> is_byte a -> is_byte b -> a <> b ->
  crc_compute (l1 ++ a :: l2) <> crc_compute (l1 ++ b :: l2).
Proof.
  intros H1 H2 Ha Hb Hne Heq. apply Hne. unfold crc_compute in Heq.
  apply lxor_inj_l in Heq. rewrite !foldl_app in Heq. cbn [foldl] in Heq.
  assert (Hc : is_u32 (foldl crc_byte u32_max l1)) by (apply crc_fold_range; [by unfold is_u32, u32_max|done]).
  apply crc_fold_inj in Heq; [|by apply crc_byte_range..|done].
  apply crc_byte_inj in Heq; [|done..].
  rewrite !(Z.lxor_comm (foldl _ _ _)) in Heq. by apply lxor_inj_l in Heq.
Qed.

(** * The sub-region mask *)

Lemma low_bits_ones n : (n <= 8)%nat -> low_bits n = 2 ^ Z.of_nat n - 1.
Proof. intros Hn. do 9 (destruct n as [|n]; [done|]). lia. Qed.

(** The mask disables the lowest [n] of the eight sub-regions; with the guard
    at least one stays disabled, and the others are the fewest that hold the
    stack (up to the seven that can be used). *)
Lemma srd_mask_spec req p :
  8 <= p <= 31 -> 0 <= req -> req + 2 ^ (p - 3) <= 4294967296 ->
  exists n, 1 <= n <= 7 /\ calculate_stack_srd_mask req p true = 2 ^ n - 1 /\
    (req <= 7 * 2 ^ (p - 3) -> req <= (8 - n) * 2 ^ (p - 3)) /\
    (n < 7 -> (7 - n) * 2 ^ (p - 3) < req).
Proof.
  intros Hp H0 Hov. unfold calculate_stack_srd_mask. destruct (Z.ltb_spec p 8); [lia|]. cbv zeta.
  assert (Hsub : Z.shiftr (bit p) 3 = 2 ^ (p - 3)).
  { unfold bit. rewrite Z.shiftl_1_l, Z.shiftr_div_pow2, Z.pow_sub_r by lia. done. }
  rewrite Hsub. assert (Hpos : 0 < 2 ^ (p - 3)) by (apply Z.pow_pos_nonneg; lia).
  set (s := 2 ^ (p - 3)) in *. clearbody s. rewrite wrap32_small by (unfold is_u32; lia).
  set (q := (req + s - 1) / s).
  assert (Hq : q * s <= req + s - 1 < (q + 1) * s).
  { unfold q. pose proof (Z.div_mod (req + s - 1) s). pose proof (Z.mod_pos_bound (req + s - 1) s). lia. }
  clearbody q. assert (0 <= q) by nia.
  set (m := if 7 <? _ then _ else _).
  assert (Hm : m = Z.max 1 (Z.min 7 q)) by (unfold m; destruct (Z.eqb_spec q 0); zbool).
  exists (8 - m). split; [lia|]. split; [|split; intros; nia].
  rewrite low_bits_ones by lia. rewrite Z2Nat.id by lia. done.
Qed.

(** * Claims *)

(** A verified update reaches the region registers only for a sealed descriptor
    whose region is 32 B to 128 KB and aligned, and then writes region 7 only. *)
Lemma update_verified_spec d regs regs' :
  update_user_sandbox_verified d regs = Some regs' ->
  is_valid d = true /\ 5 <= sd_size_pow2 d <= 17 /\ (2 ^ sd_size_pow2 d | sd_stack_base d) /\
  regs' !! USER_REGION = Some (mkRegion (sd_stack_base d) (sd_size_pow2 d) AP_ALL_RW true false
                                 (sd_subregion_disable d)) /\
  forall n, n <> USER_REGION -> regs' !! n = regs !! n.
Proof.
  unfold update_user_sandbox_verified. destruct (is_valid d); [|done]. cbn [negb].
  destruct (Z.leb_spec 5 (sd_size_pow2 d)); [|done].
  destruct (Z.leb_spec (sd_size_pow2 d) 17); [|done]. cbn [andb negb].
  destruct (Z.eqb_spec (Z.land (sd_stack_base d) (bit (sd_size_pow2 d) - 1)) 0) as [Ha|]; [|done].
  intros [= <-]. split; [done|]. split; [done|]. split.
  - unfold bit in Ha. rewrite Z.shiftl_1_l, Z.sub_1_r, <- Z.ones_equiv, Z.land_ones in Ha by lia.
    apply Z.mod_divide; [|done]. apply Z.pow_nonzero; lia.
  - split; [by rewrite lookup_insert_eq|]. intros n Hn. by rewrite lookup_insert_ne.
Qed.
