(* ===== verification/TaskTable.v ===== *)
(** The task table of [Scheduler] (kernel/task/task.hpp): static
    initialisation, [init], [create_task] and [free_task], with the initial
    stack frame of the Cortex-M4 port ([Arch::init_thread_stack],
    arch/arm/cortex-m/cm4/arch_impl.hpp). *)
From S2P Require Import Prelude Kernel Ring ReadyQueue WaitQueue Endpoint Mpu.

(** * The architecture interface *)

(** What the scheduler calls of [namespace Arch] to build a task: the initial
    stack pointer, and the memory with the forged exception frame. *)
Class Arch := {
  init_thread_stack : Z -> Z -> Z -> gmap Z Z -> Z * gmap Z Z;
}.

Definition XPSR_THUMB : Z := 16777216. (* 0x01000000 *)
Definition EXC_RETURN_PSP : Z := 4294967293. (* 0xFFFFFFFD *)

Definition cm4_init_thread_stack (task_entry stack_space stack_size : Z) (m : gmap Z Z) : Z * gmap Z Z :=
  let top := stack_space + 4 * (stack_size / 4) in
  let top := top - 4 in
  let m := store32 m top XPSR_THUMB in
  let top := top - 4 in
  let m := store32 m top task_entry in
  let top := top - 4 in
  let m := store32 m top EXC_RETURN_PSP in
  let top := top - 5 * 4 in
  let top := top - 8 * 4 in
  (top, m).

#[export] Instance cm4 : Arch := {| init_thread_stack := cm4_init_thread_stack |}.

(** * The scheduler object *)

(** [TaskControlBlock()]: value-initialised contexts, reference count 1. *)
Definition null_cap : Capability := mkCap CapNull (mkRights false false false) 0 None.

Definition new_tcb : TaskControlBlock :=
  mkTCB 1
    (mkTaskContext 0 0 0 0 0)
    (mkSchedulerContext Ready 0 0 0 0 0 0 None None)
    (mkMemoryContext 0 0 0 (mkSandbox 0 0 0 0 0) 0 0)
    (mkIpcContext IpcReady IpcOk None 0 0 0 0 0 0 0 0 0 0 false None)
    (mkSecurityContext (replicate 16 null_cap) 0 0 0 (replicate 16 (mkAction 0 0 0))).

(** The static [Scheduler] object after its constructor; every other part of
    the kernel is as [k] has it. *)
Definition Scheduler_ctor (k : Kernel) : Kernel :=
  set_ready_bitmask 0 (set_ready_head (replicate 32 (-1)) (set_started_ false
    (set_task_count 0 (set_tasks (replicate 16 (set_sched_state Unallocated new_tcb)) k)))).

Definition init_task (t : TaskControlBlock) : TaskControlBlock :=
  set_sched_state Unallocated (set_prev_ready (-1) (set_next_ready (-1) t)).

Definition init (k : Kernel) : Kernel :=
  let k := set_task_count 0 k in
  let k := set_started_ false k in
  let k := set_ready_bitmask 0 k in
  let k := set_ready_head (map (fun _ => -1) (ready_head k)) k in
  set_tasks (map init_task (tasks k)) k.

(** The search loop of [create_task]: the first [Unallocated] slot. *)
Definition is_free (k : Kernel) (i : Z) : bool :=
  bool_decide (sched_state (scheduler (tcb k i)) = Unallocated).

Definition find_free (k : Kernel) : option Z := List.find (is_free k) (seqZ 0 MAX_TASKS).

(** [subregion_disable] as [create_task] computes it. *)
Definition auto_srd (subregion_disable' size_pow2' stack_size : Z) : Z :=
  if (subregion_disable' =? 0) && (8 <=? size_pow2')
  then calculate_stack_srd_mask stack_size size_pow2' true
  else subregion_disable'.

(** The control block [create_task] writes over the slot. *)
Definition fresh_tcb (free_idx task_entry stack_space prio' size_pow2' priv srd : Z) : TaskControlBlock :=
  let sb := wrap32 stack_space in
  mkTCB 1
    (mkTaskContext 0 priv task_entry 0 stack_space)
    (mkSchedulerContext Ready free_idx 0 prio' prio' (-1) (-1) None None)
    (mkMemoryContext sb size_pow2' srd (seal (mkSandbox sb size_pow2' srd 1 0)) 0 0)
    (mkIpcContext IpcReady IpcOk None 0 0 0 0 0 0 0 0 0 0 false None)
    (mkSecurityContext (replicate 16 null_cap) 0 0 0 (replicate 16 (mkAction 0 0 0))).

Definition create_task `{Arch} (task_entry stack_space stack_size prio' size_pow2' priv subregion_disable' : Z)
    (k : Kernel) : option Z * Kernel :=
  match find_free k with
  | None => (None, k)
  | Some free_idx =>
      let k := if task_count k <=? free_idx then set_task_count (free_idx + 1) k else k in
      let srd := auto_srd subregion_disable' size_pow2' stack_size in
      let k := upd free_idx (fun _ => fresh_tcb free_idx task_entry stack_space prio' size_pow2' priv srd) k in
      let k := if negb (stack_space =? nullptr)
               then set_mem (store32 (mem k) stack_space STACK_CANARY) k else k in
      let '(sp, m) := init_thread_stack task_entry stack_space stack_size (mem k) in
      let k := upd free_idx (set_stack_ptr sp) (set_mem m k) in
      (Some free_idx, push_ready free_idx k)
  end.

Definition free_task (task : option Z) (k : Kernel) : Kernel :=
  match task with
  | None => k
  | Some i =>
      let k :=
        if negb (vasp (memory (tcb k i)) =? nullptr) then
          let k := set_deleted_vasps (vasp (memory (tcb k i)) :: deleted_vasps k) k in
          upd i (fun t => set_pgdir_base 0 (set_vasp nullptr t)) k
        else k in
      let k := if decide (sched_state (scheduler (tcb k i)) = Ready)
               then remove_ready (sched_id (scheduler (tcb k i))) k else k in
      upd i (set_sched_state Unallocated) k
  end.

(** * The stack frame *)

Lemma load32_store32_ne m a b v : b + 4 <= a \/ a + 4 <= b -> load32 (store32 m a v) b = load32 m b.
Proof.
  intros Hab. unfold load32, store32. rewrite !load8_store8. repeat (case_decide; try lia).
Qed.

(** The forged frame: entry point and Thumb state where exception return pops
    them, the stack pointer sixteen words below the top, and the canary at the
    stack's base intact when the stack holds the frame and the canary. *)
Lemma cm4_stack_frame entry base size m :
  is_u32 entry -> 68 <= size ->
  let '(sp, m') := cm4_init_thread_stack entry base size (store32 m base STACK_CANARY) in
  base + 4 <= sp /\ sp + 64 <= base + size /\ load32 m' (sp + 56) = entry /\
  load32 m' (sp + 60) = XPSR_THUMB /\ load32 m' base = STACK_CANARY.
Proof.
  intros He Hs. unfold cm4_init_thread_stack. cbv zeta.
  set (top := base + 4 * (size / 4)).
  assert (Ht : base + 68 <= top <= base + size).
  { unfold top. Z.to_euclidean_division_equations. lia. }
  clearbody top. split; [lia|]. split; [lia|].
  replace (top - 4 - 4 - 4 - 5 * 4 - 8 * 4 + 56) with (top - 4 - 4) by lia.
  replace (top - 4 - 4 - 4 - 5 * 4 - 8 * 4 + 60) with (top - 4) by lia.
  repeat split.
  - rewrite load32_store32_ne by lia. by apply load32_store32.
  - rewrite !load32_store32_ne by lia. by apply load32_store32.
  - rewrite !load32_store32_ne by lia. by apply load32_store32.
Qed.

(** * Initialisation *)

Lemma tcb_map f k i : valid_task k i -> tcb (set_tasks (map f (tasks k)) k) i = f (tcb k i).
Proof.
  intros [H0 H1]. unfold tcb, zlookup. cbn. destruct (Z.leb_spec 0 i); [|lia].
  destruct (lookup_lt_is_Some_2 (tasks k) (Z.to_nat i)) as [t Ht]; [lia|].
  change (map f (tasks k)) with (f <$> tasks k).
  by rewrite !list_lookup_total_alt, list_lookup_fmap, Ht.
Qed.

Lemma init_inv k :
  Z.of_nat (length (tasks k)) = MAX_TASKS -> Z.of_nat (length (ready_head k)) = NUM_PRIORITIES ->
  sched_inv (init k) (fun _ => []).
Proof.
  intros Ht Hh. assert (Hnone : forall i, ~ is_task (init k) i) by (intros i [??]; cbn in *; lia).
  split; [split|..]; try (intros; by edestruct Hnone); try done.
  - unfold init. cbn. by rewrite length_map.
  - unfold init. cbn. by rewrite length_map.
  - intros p [P0 P1]. unfold init, zlookup. cbn. destruct (Z.leb_spec 0 p); [|lia].
    destruct (lookup_lt_is_Some_2 (ready_head k) (Z.to_nat p)) as [x Hx]; [lia|].
    change (map ?f ?l) with (f <$> l). by rewrite list_lookup_total_alt, list_lookup_fmap, Hx.
  - intros p Hp. cbn. by rewrite Z.bits_0.
  - intros p Hp. apply NoDup_nil_2.
  - intros p i Hp Hi. set_solver.
  - intros i Hi. unfold init. cbv zeta.
    rewrite (tcb_map init_task (set_ready_head _ (set_ready_bitmask 0 (set_started_ false (set_task_count 0 k))))).
    + done.
    + unfold valid_task, in_range. cbn in Hi |- *. lia.
Qed.

(** * Creating and freeing tasks *)

Lemma find_free_Some k i :
  find_free k = Some i ->
  0 <= i < MAX_TASKS /\ sched_state (scheduler (tcb k i)) = Unallocated /\
  forall j, 0 <= j < i -> sched_state (scheduler (tcb k j)) <> Unallocated.
Proof.
  unfold find_free, is_free. intros Hf. apply List.find_some in Hf as Hs. destruct Hs as [Hin Hst].
  apply list_elem_of_In, elem_of_seqZ in Hin. apply bool_decide_eq_true in Hst.
  split; [lia|]. split; [done|]. intros j Hj Hu.
  assert (Hsplit : seqZ 0 MAX_TASKS = seqZ 0 i ++ seqZ i (MAX_TASKS - i)).
  { replace MAX_TASKS with (i + (MAX_TASKS - i)) at 1 by lia. by rewrite seqZ_app by lia. }
  rewrite Hsplit in Hf. clear Hsplit Hin.
  assert (Hin : j ∈ seqZ 0 i) by (apply elem_of_seqZ; lia).
  assert (Hni : i ∉ seqZ 0 i) by (rewrite elem_of_seqZ; lia).
  revert Hf Hin Hni. generalize (seqZ 0 i). intros l. induction l as [|a l IH]; [set_solver|].
  cbn. case_bool_decide as Ha; [|set_solver]. intros [= ->] _ Hni. set_solver.
Qed.

Lemma find_free_None k :
  find_free k = None -> forall i, 0 <= i < MAX_TASKS -> sched_state (scheduler (tcb k i)) <> Unallocated.
Proof.
  unfold find_free, is_free. intros Hf i Hi Hu.
  eapply List.find_none in Hf; [|apply list_elem_of_In, elem_of_seqZ; by instantiate (1 := i)].
  by rewrite bool_decide_eq_false in Hf.
Qed.

(** The slot is below the high-water mark or the first one above it. *)
Lemma find_free_le k Q i : sched_inv k Q -> find_free k = Some i -> i <= task_count k.
Proof.
  intros HI (Hi & _ & Hfirst)%find_free_Some. destruct (Z.le_gt_cases i (task_count k)); [done|].
  pose proof (rl_count _ _ (si_linked _ _ HI)).
  exfalso. apply (Hfirst (task_count k)); [lia|]. apply (si_above _ _ HI). lia.
Qed.

Lemma count_fresh k Q i k1 j :
  sched_inv k Q -> find_free k = Some i ->
  task_count k1 = (if task_count k <=? i then i + 1 else task_count k) ->
  is_task k1 j <-> j = i \/ is_task k j.
Proof.
  intros HI Hfree Hcount. pose proof (find_free_le _ _ _ HI Hfree). apply find_free_Some in Hfree as [? _].
  unfold is_task. rewrite Hcount. zbool.
Qed.

Section Fresh.
Context (k : Kernel) (Q : Z -> list Z) (i : Z) (t : TaskControlBlock) (k1 : Kernel).
Context (HI : sched_inv k Q) (Hfree : find_free k = Some i).
Context (Hprio : 0 <= current_priority (scheduler t)) (Hid : sched_id (scheduler t) = i)
  (Hnx : next_ready (scheduler t) = -1) (Hst : sched_state (scheduler t) = Ready).
Context (Htcb : forall j, tcb k1 j = if decide (i = j) then t else tcb k j)
  (Hlen : length (tasks k1) = length (tasks k)) (Hhead : ready_head k1 = ready_head k)
  (Hmask : ready_bitmask k1 = ready_bitmask k)
  (Hcount : task_count k1 = if task_count k <=? i then i + 1 else task_count k).

Lemma fresh_is_task j : is_task k1 j <-> j = i \/ is_task k j.
Proof using All. exact (count_fresh k Q i k1 j HI Hfree Hcount). Qed.

Lemma fresh_absent p : is_prio p -> i ∉ Q p.
Proof using All.
  intros Hp Hin. apply (rl_elem _ _ (si_linked _ _ HI)) in Hin as Ht; [|done].
  destruct Ht as [Ht <-].
  apply (si_ready _ _ HI) in Hin; [|done]. pose proof (find_free_Some _ _ Hfree) as (_ & Hu & _). congruence.
Qed.

(** Rewriting the free slot leaves the queues as they were. *)
Lemma fresh_linked : rq_linked k1 Q.
Proof using All.
  pose proof (si_linked _ _ HI) as HL.
  assert (Hold : forall j p, is_prio p -> j ∈ Q p -> tcb k1 j = tcb k j).
  { intros j p Hp Hj. rewrite Htcb, decide_False; [done|]. intros <-. by eapply fresh_absent. }
  pose proof (find_free_le _ _ _ HI Hfree) as Hle. pose proof (find_free_Some _ _ Hfree) as [Hr _].
  split.
  - rewrite Hlen. apply HL.
  - rewrite Hhead. apply HL.
  - pose proof (rl_count _ _ HL). rewrite Hcount. zbool.
  - rewrite Hmask. apply HL.
  - intros j Hj%fresh_is_task. rewrite Htcb. case_decide; [done|]. apply HL. naive_solver.
  - intros p Hp. eapply ring_ext; [| |by apply HL]; intros a Ha; unfold nx, pv; by erewrite Hold.
  - intros p Hp. rewrite Hhead. by apply HL.
  - intros p Hp. rewrite Hmask. by apply HL.
  - intros p Hp. by apply HL.
  - intros p j Hp Hj. rewrite (Hold j p), fresh_is_task by done.
    apply (rl_elem _ _ HL) in Hj as [??]; [|done]. by split; [right|].
  - intros j Hj%fresh_is_task. unfold nx. rewrite Htcb. case_decide; [done|].
    apply HL. naive_solver.
Qed.

Lemma fresh_inv : sched_inv (push_ready i k1) (upq Q (prio_slot t) (Q (prio_slot t) ++ [i])).
Proof using All.
  assert (Hi1 : is_task k1 i) by (apply fresh_is_task; by left).
  assert (Hti : tcb k1 i = t) by by rewrite Htcb, decide_True.
  pose proof (rl_slot fresh_linked i Hi1) as Hp.
  pose proof (push_ready_linked k1 Q i fresh_linked Hi1) as HL. rewrite Hti in HL, Hp.
  pose proof (push_ready_frame i k1) as Hf. specialize (HL (fresh_absent _ Hp)). split; [done|..].
  - intros j Hj. apply (sbl_is_task Hf), fresh_is_task in Hj.
    rewrite (sbl_prio_slot Hf), (sbl_proj Hf (fun t => sched_state (scheduler t))), Htcb by done.
    destruct (decide (i = j)) as [<-|Hne]; [rewrite Hst, upq_eq; set_solver|].
    destruct Hj as [?|Hj]; [done|]. rewrite <- (si_ready _ _ HI) by done. unfold upq.
    case_decide as Heq; [|done]. rewrite Heq. set_solver.
  - intros j Hj. apply (sbl_is_task Hf), fresh_is_task in Hj.
    rewrite (sbl_proj Hf (fun t => sched_id (scheduler t))), Htcb by done.
    case_decide; [by subst|]. apply HI. naive_solver.
  - intros j Hj. rewrite (sbl_env_proj Hf task_count) in Hj by done.
    rewrite (sbl_proj Hf (fun t => sched_state (scheduler t))), Htcb by done.
    rewrite Hcount in Hj. pose proof (find_free_le _ _ _ HI Hfree).
    rewrite decide_False by (revert Hj; zbool). apply HI. revert Hj. zbool.
Qed.
End Fresh.

(** [create_task] as one update of the free slot followed by [push_ready]. *)
Lemma create_task_shape `{Arch} entry base size p pow priv srd k i k' :
  create_task entry base size p pow priv srd k = (Some i, k') -> valid_task k i ->
  find_free k = Some i /\ exists k1 sp, k' = push_ready i k1 /\
    (forall j, tcb k1 j = if decide (i = j)
       then set_stack_ptr sp (fresh_tcb i entry base p pow priv (auto_srd srd pow size)) else tcb k j) /\
    length (tasks k1) = length (tasks k) /\ ready_head k1 = ready_head k /\
    ready_bitmask k1 = ready_bitmask k /\ endpoints k1 = endpoints k /\
    g_current_tcb_ptr k1 = g_current_tcb_ptr k /\ g_next_tcb_ptr k1 = g_next_tcb_ptr k /\
    task_count k1 = (if task_count k <=? i then i + 1 else task_count k).
Proof.
  unfold create_task. destruct (find_free k) as [j|]; [|done]. cbv zeta.
  set (k0 := if _ <=? _ then _ else _).
  assert (E0 : tasks k0 = tasks k /\ ready_head k0 = ready_head k /\
    ready_bitmask k0 = ready_bitmask k /\ endpoints k0 = endpoints k /\
    g_current_tcb_ptr k0 = g_current_tcb_ptr k /\ g_next_tcb_ptr k0 = g_next_tcb_ptr k /\
    task_count k0 = (if task_count k <=? j then j + 1 else task_count k)).
  { unfold k0. by destruct (_ <=? _). }
  clearbody k0. destruct E0 as (E1 & E2 & E3 & E4 & Eg & En & E5).
  set (k2 := if negb _ then _ else _).
  assert (F : tasks k2 = zalter (fun _ => fresh_tcb j entry base p pow priv (auto_srd srd pow size)) j (tasks k)
    /\ ready_head k2 = ready_head k /\ ready_bitmask k2 = ready_bitmask k /\
    endpoints k2 = endpoints k /\
    g_current_tcb_ptr k2 = g_current_tcb_ptr k /\ g_next_tcb_ptr k2 = g_next_tcb_ptr k /\ task_count k2 = (if task_count k <=? j then j + 1 else task_count k)).
  { unfold k2. destruct (negb _); cbn; by rewrite E1. }
  clearbody k2. destruct F as (F1 & F2 & F3 & F4 & Fg & Fn & F5).
  destruct (init_thread_stack _ _ _ _) as [sp m]. intros [= <- <-] Hv. split; [done|].
  eexists _, sp. split; [done|]. cbn. repeat split; try done; [|by rewrite F1, !length_zalter].
  intros j'. unfold tcb, upd. cbn. rewrite F1.
  rewrite !zlookup_zalter by (unfold in_range; rewrite ?length_zalter; apply Hv). by case_decide.
Qed.

Lemma create_task_slot `{Arch} entry base size p pow priv srd k i k' :
  create_task entry base size p pow priv srd k = (Some i, k') -> find_free k = Some i.
Proof.
  unfold create_task. destruct (find_free k); [|done]. cbv zeta.
  destruct (init_thread_stack _ _ _ _). by intros [= -> _].
Qed.

Lemma find_free_valid k Q i : sched_inv k Q -> find_free k = Some i -> valid_task k i.
Proof.
  intros HI [? _]%find_free_Some. unfold valid_task, in_range.
  by rewrite (rl_tasks _ _ (si_linked _ _ HI)).
Qed.

Lemma create_task_inv `{Arch} entry base size p pow priv srd k Q i k' :
  sched_inv k Q -> 0 <= p -> create_task entry base size p pow priv srd k = (Some i, k') ->
  sched_inv k' (upq Q (clamp_prio p) (Q (clamp_prio p) ++ [i])).
Proof.
  intros HI Hp Hc. pose proof (create_task_slot _ _ _ _ _ _ _ _ _ _ Hc) as Hf.
  pose proof (find_free_valid _ _ _ HI Hf) as Hv.
  apply create_task_shape in Hc as (_ & k1 & sp & -> & Ht & Hl & Hh & Hm & _ & _ & _ & Hcnt); [|done].
  exact (fresh_inv k Q i (set_stack_ptr sp (fresh_tcb i entry base p pow priv (auto_srd srd pow size)))
    k1 HI Hf Hp eq_refl eq_refl eq_refl Ht Hl Hh Hm Hcnt).
Qed.

(** The IPC invariant survives, provided the recycled slot is in no endpoint
    queue. *)
Lemma create_task_ipc `{Arch} entry base size p pow priv srd k i k' :
  ipc_ok k -> 0 <= p -> (is_task k i -> idle_ipc (wait_state k i)) ->
  create_task entry base size p pow priv srd k = (Some i, k') ->
  ipc_ok k' /\ is_task k' i /\ wait_state k' i = IpcReady.
Proof.
  intros [LQ HI] Hp Hidle Hc. pose proof (create_task_slot _ _ _ _ _ _ _ _ _ _ Hc) as Hf.
  destruct (ii_sched _ _ _ HI) as [Q HS]. pose proof (find_free_valid _ _ _ HS Hf) as Hv.
  pose proof (create_task_inv _ _ _ _ _ _ _ _ _ _ _ HS Hp Hc) as HS'.
  apply create_task_shape in Hc as (_ & k1 & sp & -> & Ht & Hl & Hh & Hm & He & _ & _ & Hcnt); [|done].
  pose proof (push_ready_frame i k1) as Hfr.
  assert (Hni : forall r e, i ∉ LQ r e).
  { intros r e Hin. apply (ii_mem _ _ _ HI) in Hin as (_ & Hi & Hst & _). by apply Hidle in Hst. }
  assert (Htask : forall j, is_task (push_ready i k1) j <-> j = i \/ is_task k j).
  { intros j. rewrite (sbl_is_task Hfr). by apply (count_fresh k Q i k1). }
  assert (Hw : forall j, wait_view (tcb (push_ready i k1) j) =
    if decide (i = j) then (IpcReady, None, None) else wait_view (tcb k j)).
  { intros j. rewrite (sbl_proj Hfr wait_view) by done. rewrite Ht. by case_decide. }
  assert (Hready : wait_state (push_ready i k1) i = IpcReady).
  { specialize (Hw i). rewrite decide_True in Hw by done. unfold wait_view, wait_state in *. congruence. }
  split; [|split; [apply Htask; by left|done]]. exists LQ. split.
  - by eexists.
  - intros j Hj%Htask. rewrite (sbl_proj Hfr (fun t => base_priority (scheduler t))), Ht by done.
    case_decide; [done|]. apply HI. naive_solver.
  - intros r e. unfold ep. rewrite (su_env_proj endpoints Hfr), He by done.
    eapply (wq_repr_ext k); [by rewrite (su_len _ _ _ _ Hfr)| |apply HI].
    intros j Hj. specialize (Hw j). rewrite decide_False in Hw by (intros ->; by eapply Hni).
    unfold wait_view in Hw. unfold bn. congruence.
  - intros r e j. rewrite (ii_mem _ _ _ HI), Htask.
    destruct (decide (i = j)) as [<-|Hne].
    + rewrite Hready. split; [|intros (_ & _ & Hst & _); by destruct r].
      intros (_ & Hi & Hst & _). by apply Hidle in Hst.
    + specialize (Hw j). rewrite decide_False in Hw by done. unfold wait_view in Hw.
      unfold wait_state, wait_ep. injection Hw as -> -> _. naive_solver.
Qed.

(** Freeing a task takes it off its ready queue and makes the slot reusable. *)
Lemma free_task_inv k Q i :
  sched_inv k Q -> is_task k i ->
  sched_inv (free_task (Some i) k) (abs_set_state k i Unallocated Q) /\
  sched_state (scheduler (tcb (free_task (Some i) k) i)) = Unallocated.
Proof.
  intros HI Hi. unfold free_task. cbv zeta.
  set (k1 := if negb _ then _ else k).
  assert (HI1 : sched_inv k1 Q).
  { unfold k1. destruct (negb _); [|done]. apply sched_inv_upd; [done|].
    by eapply sched_inv_ext; [| |exact HI]. }
  assert (Hv : forall j, sched_view (tcb k1 j) = sched_view (tcb k j)).
  { intros j. unfold k1. destruct (negb _); [|done]. by rewrite (tcb_upd_frame sched_view). }
  assert (Hi1 : is_task k1 i) by (unfold k1; by destruct (negb _)).
  rewrite (si_id _ _ HI1) by done. fold (dequeued i k1).
  change (upd i (set_sched_state Unallocated) (dequeued i k1)) with (requeue i (set_sched_state Unallocated) false k1).
  assert (Hq : abs_set_state k i Unallocated Q = abs_requeue i (set_sched_state Unallocated) false k1 Q).
  { pose proof (Hv i) as Hvi. unfold sched_view, link_view in Hvi.
    unfold abs_set_state, abs_requeue, abs_dequeued. cbv zeta.
    replace ((MAX_TASKS <=? i) || (task_count k <=? i)) with false.
    - assert (prio_slot (tcb k1 i) = prio_slot (tcb k i)) as -> 
        by (unfold prio_slot; injection Hvi as -> _ _ _ _; done).
      assert (sched_state (scheduler (tcb k1 i)) = sched_state (scheduler (tcb k i))) as -> by congruence.
      destruct (decide (_ = Unallocated)) as [E|]; [|done]. by rewrite E.
    - symmetry. pose proof (rl_lt_max (si_linked _ _ HI) i Hi). destruct Hi. zbool. }
  split.
  - rewrite Hq. by apply requeue_inv; [done..|apply (rl_prio _ _ (si_linked _ _ HI1))|].
  - rewrite (requeue_proj i (set_sched_state Unallocated) (fun _ => eq_refl) (fun t => sched_state (scheduler t)));
      [by rewrite decide_True| |done].
    by apply (rl_valid (si_linked _ _ HI1)).
Qed.

(** * Concrete systems *)

(** The kernel after static construction and [Scheduler::init]. *)
Definition boot_kernel : Kernel := init (Scheduler_ctor inhabitant).

Lemma boot_kernel_ok : ipc_ok boot_kernel.
Proof.
  exists (fun _ _ => []). split.
  - eexists. by apply init_inv.
  - intros i [??]. cbn in *. lia.
  - intros r e. by destruct r; split; try done; try apply NoDup_nil_2; set_solver.
  - intros r e i. split; [set_solver|]. intros (_ & [??] & _). cbn in *. lia.
Qed.

(** Three kernel tasks: idle (0), a server of normal priority (1) and a client
    of high priority (2). *)
Definition spawn (prio' stack : Z) (k : Kernel) : Kernel :=
  (create_task 4096 stack 1024 prio' 0 0 0 k).2.

Definition demo : Kernel :=
  spawn Prio_High 40960 (spawn Prio_Normal 36864 (spawn Prio_Idle 32768 boot_kernel)).

Lemma spawn_ok p stack i k :
  ipc_ok k -> 0 <= p -> (create_task 4096 stack 1024 p 0 0 0 k).1 = Some i -> task_count k <= i ->
  ipc_ok (spawn p stack k).
Proof.
  intros Hok Hp Hi Hc. unfold spawn.
  destruct (create_task 4096 stack 1024 p 0 0 0 k) as [o k'] eqn:E. cbn in Hi. subst o.
  apply (create_task_ipc _ _ _ _ _ _ _ _ _ _ Hok Hp) in E as [? _]; [done|].
  unfold is_task. lia.
Qed.

Lemma demo_ok : ipc_ok demo.
Proof.
  apply (spawn_ok _ _ 2); [apply (spawn_ok _ _ 1); [apply (spawn_ok _ _ 0); [apply boot_kernel_ok|..]|..]|..];
    by vm_compute.
Qed.
