(* ===== verification/IpcSpec.v ===== *)
(** What the IPC handlers do: message and badge delivery, blocking, reply
    authorisation and priority inheritance, and the claims on
    kernel/core/ipc.cpp and kernel/task/wait_queue.cpp. *)
From S2P Require Import Prelude Kernel ReadyQueue WaitQueue Endpoint Mpu TaskTable.

(** * Scheduling state after a step *)

Section SchedReads.
Context {k : Kernel} (Hok : sched_ok k).

Lemma state_of_eq i s :
  is_task k i ->
  sched_state (scheduler (tcb (set_task_state (sched_id (scheduler (tcb k i))) s k) i)) = s.
Proof. intros Hi. rewrite (sched_ok_id k i), set_task_state_state, decide_True by done. done. Qed.

Lemma state_of_ne i j s :
  is_task k i -> i <> j ->
  sched_state (scheduler (tcb (set_task_state (sched_id (scheduler (tcb k i))) s k) j)) =
  sched_state (scheduler (tcb k j)).
Proof. intros Hi Hne. rewrite (sched_ok_id k i), set_task_state_state, decide_False by done. done. Qed.

Lemma prio_set_task_state id s i :
  current_priority (scheduler (tcb (set_task_state id s k) i)) = current_priority (scheduler (tcb k i)).
Proof. by apply (su_proj (fun t => current_priority (scheduler t)) i (set_task_state_frame id s k)). Qed.

Lemma state_inherit s r i :
  sched_state (scheduler (tcb (inherit_priority s r k) i)) = sched_state (scheduler (tcb k i)).
Proof. by apply (su_proj (fun t => sched_state (scheduler t)) i (inherit_priority_frame s r k)). Qed.

(** After the PIP step the receiver is at least as urgent as the sender. *)
Lemma inherit_prio_ge s r :
  is_task k r ->
  current_priority (scheduler (tcb (inherit_priority s r k) s)) <=
  current_priority (scheduler (tcb (inherit_priority s r k) r)).
Proof.
  intros Hr. unfold inherit_priority. destruct (Z.ltb_spec (prio k r) (prio k s)) as [Hlt|Hge];
    unfold prio in *; [|rewrite (proj2 (Z.ltb_ge _ _)) by done; done].
  rewrite (proj2 (Z.ltb_lt _ _)), (sched_ok_id k r) by done.
  rewrite !(set_task_priority_prio k r) by done. rewrite (decide_True (P := r = r)) by done.
  case_decide; lia.
Qed.
End SchedReads.

Lemma inherit_ok s r k : sched_ok k -> is_task k s -> is_task k r -> sched_ok (inherit_priority s r k).
Proof.
  intros Hok Hs Hr. unfold inherit_priority. destruct (_ <? _); [|done].
  rewrite (sched_ok_id k r) by done. apply sched_ok_set_priority; [done|apply Hr|by apply sched_ok_prio].
Qed.

Lemma count_inherit s r k : task_count (inherit_priority s r k) = task_count k.
Proof. by apply (su_env_proj task_count (inherit_priority_frame s r k)). Qed.
Lemma mem_inherit s r k : mem (inherit_priority s r k) = mem k.
Proof. by apply (su_env_proj mem (inherit_priority_frame s r k)). Qed.

(** * Delivery *)

(** Receiver [r] holds the message of sender [s]: length, sender id, badge and
    label, and it waits for nothing. *)
Record has_message (k : Kernel) (r s mlen bdg label : Z) : Prop := {
  hm_len : msg_len (ipc (tcb k r)) = mlen;
  hm_sender : sender_id (ipc (tcb k r)) = s;
  hm_badge : badge (ipc (tcb k r)) = bdg;
  hm_label : msg_type (ipc (tcb k r)) = label;
  hm_status : ipc_status (ipc (tcb k r)) = IpcOk;
  hm_state : ipc_state (ipc (tcb k r)) = IpcReady;
  hm_wait : waiting_endpoint (ipc (tcb k r)) = None;
}.

(** Sender [s] waits for the reply of [r], which has inherited its urgency. *)
Record awaits_reply (k : Kernel) (s r : Z) : Prop := {
  ar_state : ipc_state (ipc (tcb k s)) = ReplyBlocked;
  ar_receiver : receiver_id (ipc (tcb k s)) = r;
  ar_blocked : sched_state (scheduler (tcb k s)) = Blocked_On_Notify;
  ar_pip : current_priority (scheduler (tcb k s)) <= current_priority (scheduler (tcb k r));
}.

Lemma call_deliver_spec e s r msg len timeout bdg k st k' :
  sched_ok k -> is_task k s -> is_task k r -> s <> r ->
  call_deliver e s r msg len timeout bdg k = (st, k') ->
  let c := ipc_copy len (max_len (ipc (tcb k r))) msg (msg_buf (ipc (tcb k r))) k in
  st = IpcOk /\ has_message k' r s c.1 bdg (msg_type (ipc (tcb k s))) /\ mem k' = mem c.2 /\
  sched_state (scheduler (tcb k' r)) = Ready /\
  (timeout = IPC_NONBLOCK -> ipc_state (ipc (tcb k' s)) = IpcReady) /\
  (timeout <> IPC_NONBLOCK -> awaits_reply k' s r /\ waiting_endpoint (ipc (tcb k' s)) = Some e).
Proof.
  intros Hok Hs Hr Hne. unfold call_deliver. cbv zeta.
  destruct (ipc_copy _ _ _ _ k) as [mlen k1] eqn:Hc. pose proof Hc as [m ->]%ipc_copy_mem. cbn [fst snd].
  set (k1 := set_mem m k). assert (Hok1 : sched_ok k1) by by apply (sched_ok_env k).
  rewrite (sched_ok_id k1 s) by done. set (k2 := upd r _ k1).
  assert (Hok2 : sched_ok k2) by by apply sched_ok_upd.
  rewrite (sched_ok_id k2 r) by done. set (k3 := upd s _ k2).
  assert (Hok3 : sched_ok k3) by by apply sched_ok_upd.
  assert (Hvr : valid_task k1 r) by by apply (sched_ok_valid k).
  assert (Hvs : valid_task k2 s) by by apply sched_ok_valid.
  assert (Hvs3 : valid_task k3 s) by by apply sched_ok_valid.
  assert (Er : forall f, ipc (tcb (upd s f k3) r) =
    ipc (deliver mlen s bdg (msg_type (ipc (tcb k s))) (tcb k r))).
  { intros f. rewrite tcb_upd_ne by done. unfold k3. rewrite tcb_upd_ne by done. unfold k2.
    by rewrite tcb_upd_eq. }
  assert (Es : forall f, tcb (upd s f k3) s = f (set_receiver_id r (tcb k2 s))).
  { intros f. rewrite tcb_upd_eq by done. unfold k3. by rewrite tcb_upd_eq. }
  destruct (Z.eqb_spec timeout IPC_NONBLOCK) as [->|Ht]; intros [= <- <-].
  - set (k4 := upd s _ k3). assert (Hok4 : sched_ok k4) by by apply sched_ok_upd.
    split; [done|]. split; [split; rewrite ipc_set_task_state; unfold k4; rewrite Er; done|].
    split; [by rewrite mem_set_task_state|]. split; [by apply state_of_eq|].
    split; [intros _; rewrite ipc_set_task_state; unfold k4; by rewrite Es|done].
  - set (k4 := upd s _ k3). assert (Hok4 : sched_ok k4) by by apply sched_ok_upd.
    set (k5 := set_task_state _ _ k4).
    assert (Hok5 : sched_ok k5).
    { unfold k5. rewrite (sched_ok_id k4 s) by done. apply sched_ok_set_state; [done|apply Hs]. }
    assert (C5 : task_count k5 = task_count k) by (unfold k5; by rewrite count_set_task_state).
    assert (Hr5 : is_task k5 r) by by apply (is_task_count k).
    assert (Hs5 : is_task k5 s) by by apply (is_task_count k).
    set (k6 := inherit_priority s r k5).
    assert (Hok6 : sched_ok k6) by by apply inherit_ok.
    assert (Hr6 : is_task k6 r) by (apply (is_task_count k5); [apply count_inherit|done]).
    assert (E6 : forall i, ipc (tcb k6 i) = ipc (tcb k4 i)).
    { intros i. unfold k6, k5. by rewrite ipc_inherit_priority, ipc_set_task_state. }
    split; [done|]. split; [split; rewrite ipc_set_task_state, E6; unfold k4; rewrite Er; done|].
    split; [by rewrite mem_set_task_state; unfold k6, k5; rewrite mem_inherit, mem_set_task_state|].
    split; [by apply state_of_eq|]. split; [done|]. intros _. split; [split|].
    + rewrite ipc_set_task_state, E6. unfold k4. by rewrite Es.
    + rewrite ipc_set_task_state, E6. unfold k4. by rewrite Es.
    + rewrite state_of_ne by done. unfold k6. rewrite state_inherit. by apply state_of_eq.
    + rewrite !prio_set_task_state. by apply inherit_prio_ge.
    + rewrite ipc_set_task_state, E6. unfold k4. by rewrite Es.
Qed.

(** The label of a message: the first word of an [IpcRawMessage] header. *)
Definition call_label (msg len : Z) (m : gmap Z Z) : Z :=
  if (IPC_RAW_HEADER_SIZE <=? len) && negb (msg =? nullptr) then load32 m msg else 0.

Lemma call_setup_facts s msg len rb mrl bdg k :
  valid_task k s ->
  let k1 := call_setup s msg len rb mrl bdg k in
  (forall i, i <> s -> tcb k1 i = tcb k i) /\ msg_type (ipc (tcb k1 s)) = call_label msg len (mem k) /\
  mem k1 = mem k /\ endpoints k1 = endpoints k /\ task_count k1 = task_count k.
Proof.
  intros Hv. unfold call_setup, call_label. cbv zeta. cbn [mem upd set_tasks].
  destruct (_ && _); repeat split; try done.
  - intros i Hi. by rewrite !tcb_upd_ne by done.
  - by rewrite tcb_upd_eq by (by rewrite !valid_task_upd).
  - intros i Hi. by rewrite !tcb_upd_ne by done.
  - by rewrite tcb_upd_eq by (by rewrite !valid_task_upd).
Qed.

(** The first match of a list is unique. *)
Lemma first_match_unique (P : Z -> bool) l1 a l2 l1' b l2' :
  l1 ++ a :: l2 = l1' ++ b :: l2' -> P a = true -> P b = true ->
  (forall i, i ∈ l1 -> P i = false) -> (forall i, i ∈ l1' -> P i = false) ->
  l1 = l1' /\ a = b /\ l2 = l2'.
Proof.
  revert l1'. induction l1 as [|x l1 IH]; intros [|y l1'] Heq Ha Hb H1 H2; cbn in Heq; simplify_eq.
  - done.
  - rewrite H2 in Ha; [done|set_solver].
  - rewrite H1 in Hb; [done|set_solver].
  - edestruct IH as (-> & -> & ->); [done|done|done|set_solver|set_solver|done].
Qed.

Lemma ipc_copy_ext len max src dst k k' :
  mem k' = mem k ->
  (ipc_copy len max src dst k').1 = (ipc_copy len max src dst k).1 /\
  mem (ipc_copy len max src dst k').2 = mem (ipc_copy len max src dst k).2.
Proof. intros Hm. unfold ipc_copy. cbv zeta. destruct (_ && _); cbn; by rewrite ?Hm. Qed.

(** A call that finds a matching receiver delivers to the first one in queue
    order. *)
Lemma call_fast_path e s msg len rb mrl timeout bdg k LQ l1 r l2 :
  ipc_inv k LQ -> is_task k s -> idle_ipc (wait_state k s) ->
  LQ RecvQ e = l1 ++ r :: l2 ->
  matches_receiver (call_label msg len (mem k)) (tcb k r) = true ->
  (forall i, i ∈ l1 -> matches_receiver (call_label msg len (mem k)) (tcb k i) = false) ->
  let '(st, k') := call e (Some s) msg len rb mrl timeout bdg k in
  let c := ipc_copy len (max_len (ipc (tcb k r))) msg (msg_buf (ipc (tcb k r))) k in
  st = IpcOk /\ has_message k' r s c.1 bdg (call_label msg len (mem k)) /\ mem k' = mem c.2 /\
  sched_state (scheduler (tcb k' r)) = Ready /\
  (timeout = IPC_NONBLOCK -> ipc_state (ipc (tcb k' s)) = IpcReady) /\
  (timeout <> IPC_NONBLOCK -> awaits_reply k' s r /\ waiting_endpoint (ipc (tcb k' s)) = Some e).
Proof.
  intros HI Hs Hidle Hl Hm Hn.
  assert (Hin : r ∈ LQ RecvQ e) by (rewrite Hl; set_solver).
  pose proof (queued_ne _ _ _ _ _ _ _ HI Hidle Hin) as Hne.
  assert (Hr : is_task k r) by exact (queued_task _ _ _ _ _ _ HI Hin).
  pose proof (call_setup_facts s msg len rb mrl bdg k (inv_valid HI s Hs)) as (F1 & F2 & F3 & F4 & F5).
  pose proof (call_setup_inv HI s msg len rb mrl bdg) as HI1.
  unfold call. cbv zeta. set (k1 := call_setup s msg len rb mrl bdg k) in *.
  assert (Hother : forall i, i ∈ LQ RecvQ e -> tcb k1 i = tcb k i).
  { intros i Hi. apply F1. intros ->. exact (queued_ne _ _ _ _ _ _ _ HI Hidle Hi eq_refl). }
  pose proof (dequeue_matching_receiver_spec (msg_type (ipc (tcb k1 s))) _ _ _
    (ii_repr _ _ _ HI1 RecvQ e) (ipc_len HI1)) as Hd. cbn [role_queue] in Hd.
  destruct (dequeue_matching_receiver _ _ k1) as [[[c|] q] k'].
  2:{ destruct Hd as (_ & _ & Hd). rewrite F2 in Hd. specialize (Hd r Hin).
      rewrite (Hother r Hin) in Hd. congruence. }
  pose proof (ipc_inv_pop _ _ RecvQ e _ _ _ _ HI1 Hd) as (l1' & l2' & Hl' & Hc & Hn' & Hf & Hp).
  rewrite F2 in Hc, Hn'. rewrite Hl' in Hl.
  destruct (first_match_unique (fun i => matches_receiver (call_label msg len (mem k)) (tcb k i))
    l1' c l2' l1 r l2) as (-> & -> & ->); [done|..|done|].
  { rewrite <- Hother by (rewrite Hl'; set_solver). done. }
  { done. }
  { intros i Hi. rewrite <- Hother by (rewrite Hl'; set_solver). by apply Hn'. }
  set (k2 := upd_ep e (set_recv_queue_ q) k').
  assert (Hipc : forall A (g : IpcContext -> A), (forall t, g (ipc (erase_bn t)) = g (ipc t)) ->
    forall i, g (ipc (tcb k2 i)) = g (ipc (tcb k1 i))).
  { intros A g Hg i. exact (su_proj (fun t => g (ipc t)) i (proj1 Hf) Hg). }
  assert (Hcnt : task_count k2 = task_count k).
  { etrans; [exact (count_bn_frame _ _ _ Hf)|done]. }
  destruct (call_deliver e s r msg len timeout bdg k2) as [st kf] eqn:Hcd.
  apply call_deliver_spec in Hcd; [|apply Hp|by apply (is_task_count k)..|done].
  rewrite (Hipc _ max_len), (Hipc _ msg_buf), (Hipc _ msg_type), F2, Hother in Hcd by done.
  destruct (ipc_copy_ext len (max_len (ipc (tcb k r))) msg (msg_buf (ipc (tcb k r))) k k2) as [E1 E2].
  { unfold k2. cbn. rewrite (su_env_proj mem (proj1 Hf)) by done. done. }
  cbv zeta in Hcd. by rewrite E1, E2 in Hcd.
Qed.

Lemma receive_deliver_spec r s buf ml k st k' :
  sched_ok k -> is_task k s -> is_task k r -> s <> r ->
  receive_deliver r s buf ml k = (st, k') ->
  let c := ipc_copy (msg_len (ipc (tcb k s))) ml (msg_buf (ipc (tcb k s))) buf k in
  st = IpcOk /\ has_message k' r s c.1 (badge (ipc (tcb k s))) (msg_type (ipc (tcb k s))) /\
  mem k' = mem c.2 /\ awaits_reply k' s r /\
  waiting_endpoint (ipc (tcb k' s)) = waiting_endpoint (ipc (tcb k s)).
Proof.
  intros Hok Hs Hr Hne. unfold receive_deliver. cbv zeta.
  destruct (ipc_copy _ _ _ _ k) as [mlen k1] eqn:Hc. pose proof Hc as [m ->]%ipc_copy_mem. cbn [fst snd].
  set (k1 := set_mem m k). assert (Hok1 : sched_ok k1) by by apply (sched_ok_env k).
  rewrite (sched_ok_id k1 s) by done. set (k2 := upd r _ k1).
  assert (Hok2 : sched_ok k2) by by apply sched_ok_upd.
  rewrite (sched_ok_id k2 r) by done. set (k3 := upd s _ k2). set (k4 := upd s _ k3).
  assert (Hok3 : sched_ok k3) by by apply sched_ok_upd.
  assert (Hok4 : sched_ok k4) by by apply sched_ok_upd.
  assert (Er : ipc (tcb k4 r) = ipc (deliver mlen s (badge (ipc (tcb k s))) (msg_type (ipc (tcb k s))) (tcb k r))).
  { unfold k4, k3. rewrite !tcb_upd_ne by done. unfold k2.
    rewrite tcb_upd_eq by (by apply sched_ok_valid). done. }
  assert (Es : tcb k4 s = set_ipc_state ReplyBlocked (set_receiver_id r (tcb k s))).
  { unfold k4. rewrite tcb_upd_eq by (by apply sched_ok_valid). unfold k3.
    rewrite tcb_upd_eq by (by apply sched_ok_valid). unfold k2. by rewrite tcb_upd_ne. }
  set (k5 := set_task_state _ _ k4).
  assert (Hok5 : sched_ok k5).
  { unfold k5. rewrite (sched_ok_id k4 s) by done. apply sched_ok_set_state; [done|apply Hs]. }
  assert (Hr5 : is_task k5 r) by (apply (is_task_count k); [unfold k5; by rewrite count_set_task_state|done]).
  assert (E : forall i, ipc (tcb (inherit_priority s r k5) i) = ipc (tcb k4 i)).
  { intros i. unfold k5. by rewrite ipc_inherit_priority, ipc_set_task_state. }
  intros [= <- <-]. split; [done|]. split; [split; rewrite E, Er; done|].
  split; [unfold k5; by rewrite mem_inherit, mem_set_task_state|]. split; [|by rewrite E, Es].
  split; [by rewrite E, Es..| |by apply inherit_prio_ge].
  rewrite state_inherit. by apply state_of_eq.
Qed.

(** A receive that finds a matching sender takes the first one in queue order. *)
Lemma receive_fast_path e r buf ml timeout label k LQ l1 s l2 :
  ipc_inv k LQ -> is_task k r -> idle_ipc (wait_state k r) ->
  LQ SendQ e = l1 ++ s :: l2 ->
  matches_sender label (tcb k s) = true ->
  (forall i, i ∈ l1 -> matches_sender label (tcb k i) = false) ->
  let '(st, k') := receive e (Some r) buf ml timeout label k in
  let c := ipc_copy (msg_len (ipc (tcb k s))) ml (msg_buf (ipc (tcb k s))) buf k in
  st = IpcOk /\ has_message k' r s c.1 (badge (ipc (tcb k s))) (msg_type (ipc (tcb k s))) /\
  mem k' = mem c.2 /\ awaits_reply k' s r /\ wait_ep k' s = Some e.
Proof.
  intros HI Hr Hidle Hl Hm Hn.
  assert (Hin : s ∈ LQ SendQ e) by (rewrite Hl; set_solver).
  pose proof (queued_ne _ _ _ _ _ _ _ HI Hidle Hin) as Hne.
  assert (Hs : is_task k s) by exact (queued_task _ _ _ _ _ _ HI Hin).
  pose proof (receive_setup_inv HI r buf ml label) as HI1.
  unfold receive. cbv zeta.
  assert (Hother : forall i, i ∈ LQ SendQ e -> tcb (receive_setup r buf ml label k) i = tcb k i).
  { intros i Hi. unfold receive_setup. cbv zeta. rewrite !tcb_upd_ne; [done|..];
      intros ->; exact (queued_ne _ _ _ _ _ _ _ HI Hidle Hi eq_refl). }
  set (k1 := receive_setup r buf ml label k) in *.
  pose proof (dequeue_matching_sender_spec label _ _ _
    (ii_repr _ _ _ HI1 SendQ e) (ipc_len HI1)) as Hd. cbn [role_queue] in Hd.
  destruct (dequeue_matching_sender _ _ k1) as [[[c|] q] k'].
  2:{ destruct Hd as (_ & _ & Hd). specialize (Hd s Hin). rewrite (Hother s Hin) in Hd. congruence. }
  pose proof (ipc_inv_pop _ _ SendQ e _ _ _ _ HI1 Hd) as (l1' & l2' & Hl' & Hc & Hn' & Hf & Hp).
  rewrite Hl' in Hl.
  destruct (first_match_unique (fun i => matches_sender label (tcb k i))
    l1' c l2' l1 s l2) as (-> & -> & ->); [done|..|done|].
  { rewrite <- Hother by (rewrite Hl'; set_solver). done. }
  { done. }
  { intros i Hi. rewrite <- Hother by (rewrite Hl'; set_solver). by apply Hn'. }
  set (k2 := upd_ep e (set_send_queue_ q) k').
  assert (Hipc : forall A (g : IpcContext -> A), (forall t, g (ipc (erase_bn t)) = g (ipc t)) ->
    forall i, g (ipc (tcb k2 i)) = g (ipc (tcb k1 i))).
  { intros A g Hg i. exact (su_proj (fun t => g (ipc t)) i (proj1 Hf) Hg). }
  assert (Hcnt : task_count k2 = task_count k).
  { etrans; [exact (count_bn_frame _ _ _ Hf)|done]. }
  destruct (receive_deliver r s buf ml k2) as [st kf] eqn:Hcd.
  apply receive_deliver_spec in Hcd; [|apply Hp|by apply (is_task_count k)..|by intros ->].
  rewrite (Hipc _ msg_len), (Hipc _ msg_buf), (Hipc _ msg_type), (Hipc _ badge),
    (Hipc _ waiting_endpoint), Hother in Hcd by done.
  destruct (ipc_copy_ext (msg_len (ipc (tcb k s))) ml (msg_buf (ipc (tcb k s))) buf k k2) as [E1 E2].
  { unfold k2. cbn. rewrite (su_env_proj mem (proj1 Hf)) by done. done. }
  cbv zeta in Hcd. rewrite E1, E2 in Hcd.
  assert (wait_ep k s = Some e) as Hw by (by apply (ii_mem _ _ _ HI) in Hin as (_ & _ & _ & ?)).
  unfold wait_ep in *. by rewrite Hw in Hcd.
Qed.

(** * No partner: queue by priority, or refuse *)

(** Blocking on a queue: the caller is inserted behind every waiter of at least
    its priority and leaves the ready queue. *)
Lemma block_on_spec (f : TaskControlBlock -> TaskControlBlock) r e s k LQ q k' kf :
  ipc_inv k LQ -> enqueue (Some s) (role_queue r (ep (upd s f k) e)) (upd s f k) = (q, k') ->
  kf = set_task_state (sched_id (scheduler (tcb (upd_ep e (set_role_queue r q) k') s)))
         Blocked_On_Notify (upd_ep e (set_role_queue r q) k') ->
  is_task k s -> idle_ipc (wait_state k s) ->
  (forall t, stable_view (f t) = stable_view t) ->
  (forall t, ipc_state (ipc (f t)) = role_state r) ->
  (forall t, waiting_endpoint (ipc (f t)) = Some e) ->
  ipc_inv kf (upl LQ r e (pins (prio k) s (LQ r e))) /\
  sched_state (scheduler (tcb kf s)) = Blocked_On_Notify /\ mem kf = mem k.
Proof.
  intros HI Henq -> Hs Hidle Hf Hst Hep. split; [by eapply block_on_inv|].
  pose proof (ipc_inv_upd_hand (ipc_inv_take _ _ _ HI (idle_unqueued _ _ Hidle)) s f eq_refl Hf) as H2.
  assert (Hv : valid_task k s) by by apply (inv_valid HI).
  pose proof (ipc_inv_push _ _ r e s q k' H2 Hs) as [H3 Hb]; [|by unfold wait_ep; rewrite tcb_upd_eq|done|].
  { unfold wait_state. by rewrite tcb_upd_eq. }
  split; [|rewrite mem_set_task_state; cbn; by rewrite (su_env_proj mem (proj1 Hb))].
  apply state_of_eq; [apply H3|]. eapply is_task_count; [exact (count_bn_frame _ _ _ Hb)|done].
Qed.

Lemma call_no_receiver e s msg len rb mrl timeout bdg k LQ :
  ipc_inv k LQ -> is_task k s -> idle_ipc (wait_state k s) ->
  (forall i, i ∈ LQ RecvQ e -> matches_receiver (call_label msg len (mem k)) (tcb k i) = false) ->
  let '(st, k') := call e (Some s) msg len rb mrl timeout bdg k in
  mem k' = mem k /\
  if timeout =? IPC_NONBLOCK
  then st = IpcWouldBlock /\ ipc_inv k' LQ /\ wait_state k' s = IpcReady /\
       sched_state (scheduler (tcb k' s)) = sched_state (scheduler (tcb k s))
  else st = IpcOk /\ ipc_inv k' (upl LQ SendQ e (pins (prio k) s (LQ SendQ e))) /\
       sched_state (scheduler (tcb k' s)) = Blocked_On_Notify.
Proof.
  intros HI Hs Hidle Hn.
  pose proof (call_setup_facts s msg len rb mrl bdg k (inv_valid HI s Hs)) as (F1 & F2 & F3 & F4 & F5).
  pose proof (call_setup_inv HI s msg len rb mrl bdg) as HI1.
  pose proof (call_setup_wait s msg len rb mrl bdg k s) as Hw%wait_view_state.
  assert (Hview : forall A (g : TaskControlBlock -> A), (forall v t, g (set_ipc v t) = g t) ->
    forall i, g (tcb (call_setup s msg len rb mrl bdg k) i) = g (tcb k i)).
  { intros A g Hg i. unfold call_setup. cbv zeta.
    destruct (_ && _); do 5 (rewrite (tcb_upd_frame g); [|intros; apply Hg]); done. }
  unfold call. cbv zeta. set (k1 := call_setup s msg len rb mrl bdg k) in *.
  assert (Hidle1 : idle_ipc (wait_state k1 s)) by by rewrite Hw.
  assert (Hs1 : is_task k1 s) by by apply (is_task_count k).
  pose proof (dequeue_matching_receiver_spec (msg_type (ipc (tcb k1 s))) _ _ _
    (ii_repr _ _ _ HI1 RecvQ e) (ipc_len HI1)) as Hd. cbn [role_queue] in Hd.
  destruct (dequeue_matching_receiver _ _ k1) as [[[c|] q] k'].
  { destruct Hd as (l1 & l2 & Hl & Hc & _).
    assert (Hin : c ∈ LQ RecvQ e) by (rewrite Hl; set_solver).
    rewrite F2, F1, Hn in Hc; [done|done|].
    intros ->. exact (queued_ne _ _ _ _ _ _ _ HI Hidle Hin eq_refl). }
  destruct Hd as (-> & -> & _). pose proof (ipc_inv_same_queue _ _ _ RecvQ e HI1) as HI2.
  unfold call_wait. destruct (timeout =? IPC_NONBLOCK).
  - split; [done|]. split; [done|]. split; [by apply would_block_inv|].
    set (k2 := upd_ep e _ k1) in *. assert (Hv : valid_task k2 s) by by apply (inv_valid HI2).
    unfold wait_state, would_block. cbn [snd]. rewrite !tcb_upd_eq by done. split; [done|].
    exact (Hview _ (fun t => sched_state (scheduler t)) (fun _ _ => eq_refl) s).
  - cbv zeta. destruct (enqueue _ _ _) as [q k''] eqn:Henq.
    pose proof (block_on_spec _ SendQ e s _ _ q k'' _ HI2 Henq eq_refl Hs1 Hidle1) as Hb.
    destruct Hb as (H1 & H2 & H3); [done..|]. split; [by etrans; [exact H3|]|]. split; [done|]. split; [|exact H2].
    rewrite (pins_ext (prio k) (prio k1)); [exact H1|].
    intros i. symmetry. exact (Hview _ (fun t => current_priority (scheduler t)) (fun _ _ => eq_refl) i).
Qed.

(** * Replies *)

(** The senders that wait for [r] and the priority they give it. *)
Definition waits_for (k : Kernel) (r i : Z) : Prop :=
  is_task k i /\ wait_state k i = ReplyBlocked /\ receiver_id (ipc (tcb k i)) = r.

Lemma foldl_waiting_spec k r l b :
  let p := foldl (waiting_prio k r) b l in
  b <= p /\
  (forall i, i ∈ l -> wait_state k i = ReplyBlocked -> receiver_id (ipc (tcb k i)) = r -> prio k i <= p) /\
  (p = b \/ exists i, i ∈ l /\ wait_state k i = ReplyBlocked /\ receiver_id (ipc (tcb k i)) = r /\ prio k i = p).
Proof.
  revert b. induction l as [|a l IH]; intros b; cbn.
  - split; [lia|]. split; [set_solver|by left].
  - destruct (IH (waiting_prio k r b a)) as (H1 & H2 & H3). pose proof (waiting_prio_ge (k := k) r b a).
    set (p := foldl _ _ l) in *. split; [lia|]. split.
    + intros i [->|Hi]%elem_of_cons Hst Hr; [|by apply H2]. transitivity (waiting_prio k r b a); [|done].
      unfold waiting_prio, wait_state, prio in *. rewrite decide_True by done.
      destruct (Z.eqb_spec (receiver_id (ipc (tcb k a))) r); [|done]. zbool.
    + destruct H3 as [H3|(i & Hi & H3)]; [|right; exists i; split; [set_solver|done]].
      rewrite H3. unfold waiting_prio, wait_state, prio in *. case_decide as Hst; [|by left].
      destruct (Z.eqb_spec (receiver_id (ipc (tcb k a))) r); [|by left].
      destruct (Z.ltb_spec b (current_priority (scheduler (tcb k a)))); [|by left].
      right. exists a. split; [set_solver|done].
Qed.

(** [recalculate_receiver_priority]: the largest of the base priority and the
    priorities of the senders that wait. *)
Definition pip_priority (k : Kernel) (r : Z) : Prop :=
  base_priority (scheduler (tcb k r)) <= prio k r /\
  (forall i, waits_for k r i -> prio k i <= prio k r) /\
  (prio k r = base_priority (scheduler (tcb k r)) \/ exists i, waits_for k r i /\ prio k i = prio k r).

Lemma recalculate_pip k r :
  sched_ok k -> is_task k r -> wait_state k r <> ReplyBlocked ->
  pip_priority (recalculate_receiver_priority (Some r) k) r.
Proof.
  intros Hok Hr Hnr. cbn. rewrite (sched_ok_id k r) by done.
  destruct (foldl_waiting_spec k r (task_indices k) (base_priority (scheduler (tcb k r)))) as (H1 & H2 & H3).
  assert (Hp : inherited_prio k r = foldl (waiting_prio k r) (base_priority (scheduler (tcb k r))) (task_indices k)).
  { unfold inherited_prio. by rewrite (sched_ok_id k r). }
  rewrite <- Hp in H1, H2, H3. set (p := inherited_prio k r) in *. set (k' := set_task_priority r p k).
  assert (Hpr : forall i, prio k' i = if decide (i = r) then p else prio k i).
  { intros i. unfold prio, k'. by apply set_task_priority_prio. }
  assert (Hb : base_priority (scheduler (tcb k' r)) = base_priority (scheduler (tcb k r))).
  { by apply (su_proj (fun t => base_priority (scheduler t)) r (set_task_priority_frame r p k)). }
  assert (Hw : forall i, waits_for k' r i <-> waits_for k r i).
  { intros i. unfold waits_for, is_task, wait_state, k'.
    by rewrite ipc_set_task_priority, count_set_task_priority. }
  assert (Hidx : forall i, i ∈ task_indices k <-> is_task k i).
  { intros i. unfold task_indices, is_task. rewrite elem_of_seqZ. lia. }
  unfold pip_priority. rewrite Hb, !Hpr, decide_True by done. split; [done|]. split.
  - intros i (Hi & Hst & Hrid)%Hw. rewrite Hpr. case_decide; [done|]. by apply H2; [apply Hidx|..].
  - destruct H3 as [H3|(i & Hi%Hidx & Hst & Hrid & H3)]; [by left|right]. exists i.
    rewrite Hw, Hpr, decide_False by (intros ->; done). done.
Qed.

Lemma reply_authorised r s msg len k :
  ipc_ok k -> is_task k r -> is_task k s -> wait_state k r = IpcReady ->
  wait_state k s = ReplyBlocked -> receiver_id (ipc (tcb k s)) = r ->
  let '(st, k') := reply (Some r) s msg len k in
  let c := ipc_copy len (max_len (ipc (tcb k s))) msg (reply_buf (ipc (tcb k s))) k in
  st = IpcOk /\ mem k' = mem c.2 /\ msg_len (ipc (tcb k' s)) = c.1 /\
  wait_state k' s = IpcReady /\ ipc_status (ipc (tcb k' s)) = IpcOk /\ wait_ep k' s = None /\
  sched_state (scheduler (tcb k' s)) = Ready /\ pip_priority k' r.
Proof.
  intros [LQ HI] Hr Hs Hwr Hws Hrid. unfold reply.
  pose proof (sched_ok_valid k s (ii_sched _ _ _ HI) Hs) as Hv.
  assert (Hlt : s < MAX_TASKS) by (destruct Hv; by rewrite (ipc_len HI) in *).
  destruct (Z.leb_spec MAX_TASKS s); [lia|].
  rewrite (proj2 (get_task_by_id_Some k s s)) by done.
  rewrite bool_decide_true by done. rewrite Hrid, (inv_id HI r), Z.eqb_refl by done. cbn [andb].
  unfold reply_deliver. cbv zeta. destruct (ipc_copy _ _ _ _ k) as [mlen k1] eqn:Hc.
  pose proof Hc as [m ->]%ipc_copy_mem. cbn [fst snd]. set (k1 := set_mem m k). set (k2 := upd s _ k1).
  assert (Hok2 : sched_ok k2) by (apply sched_ok_upd; [done|]; apply (sched_ok_env k); try done; apply HI).
  set (k3 := set_task_state _ _ k2).
  assert (Hok3 : sched_ok k3).
  { unfold k3. rewrite (sched_ok_id k2 s) by done. apply sched_ok_set_state; [done|apply Hs]. }
  assert (E : forall i, ipc (tcb (recalculate_receiver_priority (Some r) k3) i) = ipc (tcb k2 i)).
  { intros i. rewrite ipc_recalculate. unfold k3. by rewrite ipc_set_task_state. }
  assert (Es : tcb k2 s = set_sleep_ticks 0 (set_waiting_endpoint None (set_ipc_status IpcOk
    (set_ipc_state IpcReady (set_msg_len mlen (tcb k s)))))) by (unfold k2; by rewrite tcb_upd_eq).
  split; [done|]. split.
  { rewrite (su_env_proj mem (recalculate_frame (Some r) k3)) by done. unfold k3.
    by rewrite mem_set_task_state. }
  unfold wait_state, wait_ep. rewrite !E, Es. do 4 (split; [done|]). split.
  - rewrite (su_proj (fun t => sched_state (scheduler t)) s (recalculate_frame (Some r) k3)) by done.
    by apply state_of_eq.
  - apply recalculate_pip; [done| |].
    + apply (is_task_count k); [unfold k3; by rewrite count_set_task_state|done].
    + unfold wait_state, k3. rewrite ipc_set_task_state. unfold k2. rewrite tcb_upd_ne; [|congruence].
      change (wait_state k r <> ReplyBlocked). congruence.
Qed.
