(* ===== verification/Scheduler.v ===== *)
(** The preemptive scheduler (kernel/task/task.hpp): signals, task selection,
    sleeping, the tick and tickless compensation; with the frame filter
    ([FrameSchedulerV2::is_task_allowed]) and the watchdog hook
    ([WatchdogManager::on_schedule]) that [schedule] calls.

    Signal handlers are task code: they are the parameter [run_handler] of the
    definitions that reach them.  The PendSV exception, which the scheduler only
    requests, is the step [pendsv_handler]. *)
From S2P Require Import Prelude Kernel Ring ReadyQueue WaitQueue Endpoint Mpu TaskTable IpcSpec.

(** * Hooks *)

Definition is_task_allowed (f : FrameSchedulerV2) (task_priority : Z) : bool :=
  if render_task_id_ f =? 0 then true else
  if (target_fps_ f =? 0) && (task_priority <? Prio_High) then false else
  if in_active_render_window_ f && (task_priority <? Prio_High) then false else true.

Definition on_schedule (next_task_priority : Z) (w : WatchdogManager) : WatchdogManager :=
  if negb (wd_driver_ w) then w else
  let w := if next_task_priority =? 0 then set_current_idle_ (wrap32 (current_idle_ w + 1)) w
           else set_current_idle_ 0 w in
  set_wd_kicks (wd_kicks w + 1) w.

Definition watchdog_feed (task_priority : Z) (k : Kernel) : Kernel :=
  set_watchdog (on_schedule task_priority (watchdog k)) k.

(** * Signals *)

Section Signals.
Context (run_handler : Z -> Z -> Kernel -> Kernel).

Definition sig_action (k : Kernel) (i sig : Z) : SignalAction :=
  zlookup (sig_actions (security (tcb k i))) sig.

(** Running the handler of [sig]: [action] is a reference into the control
    block, so its flags are read after the handler returned. *)
Definition run_action (i sig : Z) (k : Kernel) : Kernel :=
  let action := sig_action k i sig in
  if sa_handler action =? nullptr then k else
  let old_mask := signal_mask (security (tcb k i)) in
  let k := upd i (fun t => set_signal_mask (Z.lor (signal_mask (security t)) (sa_mask action)) t) k in
  let k := if Z.land (sa_flags action) SA_NODEFER =? 0
           then upd i (fun t => set_signal_mask (bit_set (signal_mask (security t)) sig) t) k else k in
  let k := run_handler (sa_handler action) sig k in
  let k := if negb (Z.land (sa_flags (sig_action k i sig)) SA_RESETHAND =? 0)
           then upd i (fun t => set_sig_actions (zalter (set_sa_handler nullptr) sig
                                  (sig_actions (security t))) t) k else k in
  upd i (set_signal_mask old_mask) k.

Fixpoint dispatch_loop (i pending : Z) (sigs : list Z) (k : Kernel) : Kernel :=
  match sigs with
  | [] => k
  | sig :: rest =>
      if bit_test pending sig then
        if negb (sig =? SIGKILL) && bit_test (signal_mask (security (tcb k i))) sig then
          dispatch_loop i pending rest
            (upd i (fun t => set_pending_signals (bit_set (pending_signals (security t)) sig) t) k)
        else if sig =? SIGKILL then
          set_task_state (sched_id (scheduler (tcb k i))) Terminated k
        else dispatch_loop i pending rest (run_action i sig k)
      else dispatch_loop i pending rest k
  end.

Definition handled_signals : list Z := seqZ 1 (NUM_SIG_ACTIONS - 1).

Definition dispatch_signals (i : Z) (k : Kernel) : Kernel :=
  let s := security (tcb k i) in
  if pending_signals s =? 0 then k else
  let actionable := Z.lor (Z.land (pending_signals s) (Z.lnot (signal_mask s)))
                          (Z.land (pending_signals s) (bit SIGKILL)) in
  if actionable =? 0 then k else
  let pending := pending_signals s in
  dispatch_loop i pending handled_signals (upd i (set_pending_signals 0) k).
End Signals.

Definition send_signal (target_id sig : Z) (k : Kernel) : bool * Kernel :=
  if (task_count k <=? target_id) || (sig <=? 0) || (32 <=? sig) then (false, k) else
  let target := tcb k target_id in
  if decide (sched_state (scheduler target) = Terminated) then (false, k) else
  let k := upd target_id (fun t => set_pending_signals (bit_set (pending_signals (security t)) sig) t) k in
  if decide (sched_state (scheduler (tcb k target_id)) = Sleeping \/
             sched_state (scheduler (tcb k target_id)) = Blocked_On_Notify)
  then (true, set_task_state (sched_id (scheduler (tcb k target_id))) Ready k)
  else (true, k).

(** * Choosing the next task *)

Definition current_id (k : Kernel) : Z :=
  match g_current_tcb_ptr k with
  | Some c => sched_id (scheduler (tcb k c))
  | None => 0
  end.

(** Round robin: a ready task at the head of its queue moves to the tail. *)
Definition rotate_head (c : Z) (k : Kernel) : Kernel :=
  if decide (sched_state (scheduler (tcb k c)) = Ready) then
    let p := current_priority (scheduler (tcb k c)) in
    if zlookup (ready_head k) p =? c then set_head p (next_ready (scheduler (tcb k c))) k else k
  else k.

(** The CLZ search.  Every round clears one of 32 bits. *)
Definition prio_fuel : nat := 32.

Fixpoint pick_allowed (fuel : nat) (mask : Z) (k : Kernel) : option Z :=
  match fuel with
  | O => None
  | S fuel =>
      if mask =? 0 then None else
      let p := find_highest_bit mask in
      if is_task_allowed (frame k) p then Some (zlookup (ready_head k) p)
      else pick_allowed fuel (bit_clear mask p) k
  end.

(** The second-level search: the ring of one priority, then the next one. *)
Fixpoint scan_ring (fuel : nat) (iter p : Z) (k : Kernel) : option Z :=
  match fuel with
  | O => None
  | S fuel =>
      if (iter =? zlookup (ready_head k) p) || (iter =? -1) then None
      else if decide (sched_state (scheduler (tcb k iter)) = Ready) then Some iter
      else scan_ring fuel (next_ready (scheduler (tcb k iter))) p k
  end.

Fixpoint find_ready (fuel : nat) (mask : Z) (k : Kernel) : option Z :=
  match fuel with
  | O => None
  | S fuel =>
      if mask =? 0 then None else
      let p := find_highest_bit mask in
      let candidate := zlookup (ready_head k) p in
      if (candidate <? task_count k) && bool_decide (sched_state (scheduler (tcb k candidate)) = Ready)
      then Some candidate
      else
        match (if next_ready (scheduler (tcb k candidate)) =? -1 then None
               else scan_ring wq_fuel (next_ready (scheduler (tcb k candidate))) p k) with
        | Some t => Some t
        | None => find_ready fuel (bit_clear mask p) k
        end
  end.

Definition select_next (c : Z) (k : Kernel) : Z :=
  let next_task := match pick_allowed prio_fuel (ready_bitmask k) k with Some h => h | None => c end in
  let next_task :=
    if next_task =? c then
      if bit_test (ready_bitmask k) 0 then zlookup (ready_head k) 0 else next_task
    else next_task in
  if decide (sched_state (scheduler (tcb k next_task)) = Ready) then next_task
  else match find_ready prio_fuel (ready_bitmask k) k with Some t => t | None => next_task end.

Definition switch_to (c next_task : Z) (k : Kernel) : Kernel :=
  if next_task =? c then k else
  let k := set_g_next_tcb_ptr (Some next_task) k in
  let k := if negb (pgdir_base (memory (tcb k next_task)) =? 0)
           then set_address_space (pgdir_base (memory (tcb k next_task))) k else k in
  set_pendsv true k.

Section Schedule.
Context (run_handler : Z -> Z -> Kernel -> Kernel).

Definition schedule (k : Kernel) : Kernel :=
  if negb (started_ k) || (task_count k <=? 1) then k else
  let c := current_id k in
  let k := dispatch_signals run_handler c k in
  let k := if decide (sched_state (scheduler (tcb k c)) = Terminated) then k else rotate_head c k in
  let k := switch_to c (select_next c k) k in
  watchdog_feed (current_priority (scheduler (tcb k c))) k.

Definition sleep_ticks_of_ms (ms : Z) : Z := wrap32 ((ms * TICK_RATE_HZ + 999) / 1000).

Definition sleep_ms (ms : Z) (k : Kernel) : Kernel :=
  match g_current_tcb_ptr k with
  | None => k
  | Some c =>
      let k := upd c (set_sleep_ticks (sleep_ticks_of_ms ms)) k in
      schedule (set_task_state (sched_id (scheduler (tcb k c))) Sleeping k)
  end.

(** [MemManage_Handler] (boot/interrupts.cpp): terminate the faulting task
    and reschedule. *)
Definition MemManage_Handler (k : Kernel) : Kernel :=
  let k := match g_current_tcb_ptr k with
           | Some c => upd c (set_sched_state Terminated) k
           | None => k
           end in
  schedule k.
End Schedule.

(** [Scheduler::start]: hand the CPU to task 0. *)
Definition start (k : Kernel) : Kernel :=
  let k := set_started_ true k in
  let k := set_g_next_tcb_ptr (Some 0) (set_g_current_tcb_ptr (Some 0) k) in
  if negb (pgdir_base (memory (tcb k 0)) =? 0)
  then set_address_space (pgdir_base (memory (tcb k 0))) k else k.

Definition drop_self_privilege (k : Kernel) : Kernel :=
  upd (current_id k) (set_privilege 1) k.

(** The exception [Arch::trigger_context_switch] pends: it makes the chosen
    task current. *)
Definition pendsv_handler (k : Kernel) : Kernel :=
  if pendsv k then set_pendsv false (set_g_current_tcb_ptr (g_next_tcb_ptr k) k) else k.

(** * Time *)

Definition ipc_waiting (t : TaskControlBlock) : bool :=
  match ipc_state (ipc t) with Sending | Receiving | ReplyBlocked => true | IpcReady => false end.

(** A wait that timed out. *)
Definition timeout_waiter (i : Z) (k : Kernel) : Kernel :=
  match waiting_endpoint (ipc (tcb k i)) with
  | Some e => cancel_waiter e (Some i) IpcTimeout k
  | None =>
      let k := upd i (fun t => set_ipc_status IpcTimeout (set_ipc_state IpcReady t)) k in
      set_task_state i Ready k
  end.

Definition canary_broken (k : Kernel) (t : TaskControlBlock) : bool :=
  negb (stack_canary_ptr (task t) =? nullptr) &&
  negb (load32 (mem k) (stack_canary_ptr (task t)) =? STACK_CANARY) &&
  bool_decide (sched_state (scheduler t) <> Terminated).

Definition tick_task (k : Kernel) (i : Z) : Kernel :=
  let t := tcb k i in
  if canary_broken k t then set_task_state i Terminated k else
  if decide (sched_state (scheduler t) = Sleeping) then
    let k := if 0 <? sleep_ticks (scheduler t) then upd i (set_sleep_ticks (sleep_ticks (scheduler t) - 1)) k else k in
    if sleep_ticks (scheduler (tcb k i)) =? 0 then set_task_state i Ready k else k
  else if ipc_waiting t then
    if 0 <? sleep_ticks (scheduler t) then
      let k := upd i (set_sleep_ticks (sleep_ticks (scheduler t) - 1)) k in
      if sleep_ticks (scheduler (tcb k i)) =? 0 then timeout_waiter i k else k
    else k
  else k.

Definition tick_update (k : Kernel) : Kernel := foldl tick_task k (task_indices k).

Definition idle_step (k : Kernel) (min_ticks i : Z) : Z :=
  let s := sleep_ticks (scheduler (tcb k i)) in
  if (0 <? s) && (s <? min_ticks) then s else min_ticks.

Definition get_expected_idle_ticks (k : Kernel) : Z :=
  foldl (idle_step k) u32_max (task_indices k).

Definition compensate_task (skipped_ticks : Z) (k : Kernel) (i : Z) : Kernel :=
  let t := tcb k i in
  let s := sleep_ticks (scheduler t) in
  if decide (sched_state (scheduler t) = Sleeping /\ 0 < s) then
    if skipped_ticks <? s then upd i (set_sleep_ticks (s - skipped_ticks)) k
    else set_task_state i Ready (upd i (set_sleep_ticks 0) k)
  else if ipc_waiting t && (0 <? s) then
    if skipped_ticks <? s then upd i (set_sleep_ticks (s - skipped_ticks)) k
    else timeout_waiter i (upd i (set_sleep_ticks 0) k)
  else k.

Definition compensate_ticks (skipped_ticks : Z) (k : Kernel) : Kernel :=
  foldl (compensate_task skipped_ticks) k (task_indices k).

(** * Selection picks the highest allowed priority *)

Lemma bit_clear_highest mask (n : nat) :
  0 < mask < 2 ^ Z.of_nat (S n) -> 0 <= bit_clear mask (find_highest_bit mask) < 2 ^ Z.of_nat n.
Proof.
  intros [H0 H1]. destruct (find_highest_bit_spec mask H0) as (P0 & P1 & P2).
  set (p := find_highest_bit mask) in *.
  assert (Hp : p <= Z.of_nat n).
  { destruct (Z.le_gt_cases p (Z.of_nat n)); [done|].
    rewrite (bits_above mask (Z.of_nat (S n)) p) in P1 by lia. done. }
  assert (Hb : 0 <= bit_clear mask p) by (unfold bit_clear; apply Z.land_nonneg; lia).
  split; [done|]. apply bits_bound; [done|lia|]. intros j Hj. rewrite bit_clear_testbit by lia.
  destruct (Z.eqb_spec p j); [done|]. rewrite P2 by lia. done.
Qed.

Lemma pick_allowed_spec fuel mask k :
  0 <= mask < 2 ^ Z.of_nat fuel ->
  match pick_allowed fuel mask k with
  | Some h => exists p, 0 <= p < Z.of_nat fuel /\ Z.testbit mask p = true /\
      is_task_allowed (frame k) p = true /\ h = zlookup (ready_head k) p /\
      forall q, p < q -> Z.testbit mask q = true -> is_task_allowed (frame k) q = false
  | None => forall q, 0 <= q -> Z.testbit mask q = true -> is_task_allowed (frame k) q = false
  end.
Proof.
  revert mask. induction fuel as [|fuel IH]; intros mask Hm; cbn [pick_allowed].
  - assert (mask = 0) as -> by (cbn in Hm; lia). intros q _. by rewrite Z.bits_0.
  - destruct (Z.eqb_spec mask 0) as [->|Hne]; [intros q _; by rewrite Z.bits_0|].
    assert (H0 : 0 < mask) by lia. destruct (find_highest_bit_spec mask H0) as (P0 & P1 & P2).
    pose proof (bit_clear_highest mask fuel ltac:(lia)) as Hc. cbv zeta.
    set (p := find_highest_bit mask) in *.
    assert (Hp : p < Z.of_nat (S fuel)).
    { destruct (Z.lt_ge_cases p (Z.of_nat (S fuel))); [done|].
      rewrite (bits_above mask (Z.of_nat (S fuel)) p) in P1 by lia. done. }
    destruct (is_task_allowed (frame k) p) eqn:Ha.
    + exists p. repeat split; try done. intros q Hq. by rewrite P2.
    + specialize (IH _ Hc).
      assert (Hbits : forall q, 0 <= q -> q <> p -> Z.testbit (bit_clear mask p) q = Z.testbit mask q).
      { intros q Hq Hqp. rewrite bit_clear_testbit by lia. destruct (Z.eqb_spec p q); [congruence|done]. }
      assert (Hpc : Z.testbit (bit_clear mask p) p = false).
      { rewrite bit_clear_testbit, Z.eqb_refl by lia. done. }
      destruct (pick_allowed fuel (bit_clear mask p) k) as [h|].
      * destruct IH as (q & Hq & Hq1 & Hq2 & Hq3 & Hq4). exists q.
        rewrite Hbits in Hq1 by (lia || congruence). repeat split; try done; try lia.
        intros q' Hlt Hq'. destruct (decide (q' = p)) as [->|]; [done|].
        apply Hq4; [done|]. by rewrite Hbits by lia.
      * intros q Hq Hq'. destruct (decide (q = p)) as [->|]; [done|].
        apply IH; [done|]. by rewrite Hbits.
Qed.

Section Select.
Context {k : Kernel} {Q : Z -> list Z} (HI : sched_inv k Q).

(** A set bit names a queue whose head is a ready task. *)
Lemma ready_head_task p :
  0 <= p -> Z.testbit (ready_bitmask k) p = true ->
  is_prio p /\ head (Q p) = Some (zlookup (ready_head k) p) /\
  is_task k (zlookup (ready_head k) p) /\
  sched_state (scheduler (tcb k (zlookup (ready_head k) p))) = Ready /\
  prio_slot (tcb k (zlookup (ready_head k) p)) = p.
Proof.
  intros H0 Hb. pose proof (si_linked _ _ HI) as HL.
  assert (Hp : is_prio p).
  { split; [done|]. destruct (Z.lt_ge_cases p NUM_PRIORITIES); [done|].
    rewrite (bits_above _ NUM_PRIORITIES p) in Hb; [done|apply HL|done]. }
  rewrite (rl_bit _ _ HL) in Hb by done. apply bool_decide_eq_true in Hb.
  rewrite (rl_head _ _ HL) by done. destruct (Q p) as [|h l] eqn:Hq; [done|]. cbn [qhead head].
  assert (Hin : h ∈ Q p) by (rewrite Hq; set_solver).
  apply (rl_elem _ _ HL) in Hin as Hs; [|done]. destruct Hs as [Ht Hs].
  repeat split; try done; try apply Ht; try apply Hp. apply (si_ready _ _ HI); [done|]. by rewrite Hs.
Qed.

Lemma mask_range : 0 <= ready_bitmask k < 2 ^ Z.of_nat prio_fuel.
Proof. apply (rl_mask _ _ (si_linked _ _ HI)). Qed.

(** A ready task keeps the bit of its priority set. *)
Lemma ready_bit i :
  is_task k i -> sched_state (scheduler (tcb k i)) = Ready ->
  Z.testbit (ready_bitmask k) (prio_slot (tcb k i)) = true /\ is_prio (prio_slot (tcb k i)).
Proof.
  intros Hi Hr. pose proof (si_linked _ _ HI) as HL. pose proof (rl_slot HL i Hi) as Hp.
  split; [|done]. rewrite (rl_bit _ _ HL) by done. apply bool_decide_eq_true.
  apply (si_ready _ _ HI) in Hr; [|done]. intros Hq. rewrite Hq in Hr. set_solver.
Qed.

(** The second-level search finds a ready task whenever there is one. *)
Lemma find_ready_spec fuel :
  match find_ready (S fuel) (ready_bitmask k) k with
  | Some t => is_task k t /\ sched_state (scheduler (tcb k t)) = Ready
  | None => ready_bitmask k = 0
  end.
Proof.
  cbn [find_ready]. destruct (Z.eqb_spec (ready_bitmask k) 0) as [E|Hne]; [done|].
  pose proof mask_range. destruct (find_highest_bit_spec (ready_bitmask k)) as (P0 & P1 & _); [lia|].
  destruct (ready_head_task _ P0 P1) as (_ & _ & Ht & Hr & _). cbv zeta.
  set (h := zlookup _ _) in *. rewrite bool_decide_true by done.
  destruct (Z.ltb_spec h (task_count k)); [done|]. destruct Ht. lia.
Qed.

(** The choice is a task, and a ready one if there is any. *)
Lemma select_next_task c :
  is_task k c ->
  is_task k (select_next c k) /\
  (sched_state (scheduler (tcb k (select_next c k))) = Ready \/ ready_bitmask k = 0).
Proof.
  intros Hc. pose proof (find_ready_spec 31) as Hfr. change 32%nat with prio_fuel in Hfr. pose proof (pick_allowed_spec prio_fuel _ k mask_range) as Hpk.
  unfold select_next. cbv zeta. set (n0 := match pick_allowed _ _ _ with Some h => h | None => c end).
  assert (H0 : is_task k n0).
  { unfold n0. destruct (pick_allowed _ _ _) as [h|]; [|done].
    destruct Hpk as (p & [P0 _] & Hb & _ & -> & _). by apply (ready_head_task p P0 Hb). }
  set (n1 := if n0 =? c then _ else n0).
  assert (H1 : is_task k n1).
  { unfold n1. destruct (n0 =? c); [|done]. rewrite bit_test_testbit by done.
    destruct (Z.testbit (ready_bitmask k) 0) eqn:Hb0; [|done]. by apply (ready_head_task 0 ltac:(lia) Hb0). }
  destruct (decide (sched_state (scheduler (tcb k n1)) = Ready)); [by split; [|left]|].
  destruct (find_ready _ _ _) as [t|]; [|by split; [|right]]. destruct Hfr. by split; [|left].
Qed.

Lemma select_next_ready c i :
  is_task k c -> is_task k i -> sched_state (scheduler (tcb k i)) = Ready ->
  sched_state (scheduler (tcb k (select_next c k))) = Ready.
Proof.
  intros Hc Hi Hr. destruct (select_next_task c Hc) as [_ [?|E]]; [done|].
  destruct (ready_bit i Hi Hr) as [Hbit _]. by rewrite E, Z.bits_0 in Hbit.
Qed.

(** Priority: the head of the highest non-empty queue that the frame filter
    allows is chosen, unless it is the running task itself. *)
Lemma select_next_highest c p h l :
  is_prio p -> Q p = h :: l -> is_task_allowed (frame k) p = true ->
  (forall q, p < q -> is_prio q -> Q q <> [] -> is_task_allowed (frame k) q = false) ->
  h <> c -> select_next c k = h.
Proof.
  intros Hp Hq Ha Hhi Hne. pose proof (si_linked _ _ HI) as HL.
  assert (Hbit : Z.testbit (ready_bitmask k) p = true).
  { rewrite (rl_bit _ _ HL) by done. rewrite Hq. by apply bool_decide_eq_true. }
  assert (Hh : zlookup (ready_head k) p = h) by by rewrite (rl_head _ _ HL), Hq.
  pose proof (pick_allowed_spec prio_fuel _ k mask_range) as Hpk. unfold select_next. cbv zeta.
  destruct (pick_allowed _ _ _) as [h'|].
  - destruct Hpk as (p' & [P0 _] & Hb & Ha' & -> & Hmax).
    destruct (ready_head_task p' P0 Hb) as (Hp' & Hhd & _).
    assert (p' = p) as ->.
    { destruct (Z.lt_trichotomy p p') as [Hlt|[?|Hlt]]; [|done|].
      - rewrite Hhi in Ha'; [done|done|done|]. intros E. by rewrite E in Hhd.
      - rewrite (Hmax p) in Ha by done. done. }
    destruct (ready_head_task p P0 Hb) as (_ & _ & _ & Hr & _). rewrite Hh in *.
    destruct (Z.eqb_spec h c); [done|]. by rewrite decide_True.
  - rewrite (Hpk p) in Ha; [done|apply Hp|done].
Qed.
End Select.

(** * Rotation *)

Definition abs_rotate (k : Kernel) (c : Z) (Q : Z -> list Z) : Z -> list Z :=
  let p := prio_slot (tcb k c) in
  match Q p with
  | h :: l => if decide (h = c) then upq Q p (l ++ [c]) else Q
  | [] => Q
  end.

Lemma prio_slot_small t : 0 <= current_priority (scheduler t) < NUM_PRIORITIES ->
  prio_slot t = current_priority (scheduler t).
Proof. intros H. unfold prio_slot. zbool. Qed.

Lemma rotate_head_inv k Q c :
  sched_inv k Q -> is_task k c -> current_priority (scheduler (tcb k c)) < NUM_PRIORITIES ->
  sched_state (scheduler (tcb k c)) = Ready ->
  sched_inv (rotate_head c k) (abs_rotate k c Q).
Proof.
  intros HI Hc Hlt Hr. pose proof (si_linked _ _ HI) as HL.
  pose proof (rl_slot HL c Hc) as Hp. pose proof (rl_prio _ _ HL c Hc) as H0.
  unfold rotate_head, abs_rotate. rewrite decide_True by done.
  rewrite <- (prio_slot_small (tcb k c)) by done. set (p := prio_slot (tcb k c)) in *. cbv zeta.
  rewrite (rl_head _ _ HL) by done. destruct (Q p) as [|h l] eqn:Hq.
  { destruct (Z.eqb_spec (qhead []) c) as [E|]; [|done]. cbn in E. destruct Hc; lia. }
  cbn [qhead]. destruct (Z.eqb_spec h c) as [->|Hne]; [|by rewrite decide_False]. rewrite decide_True by done.
  pose proof (rl_ring _ _ HL p Hp) as Hring. rewrite Hq in Hring.
  assert (Hnx : next_ready (scheduler (tcb k c)) = qhead (l ++ [c])).
  { change (nx k c = qhead (l ++ [c])). destruct l as [|y l]; [by apply ring_singleton in Hring as [? _]|].
    by apply ring_next_head in Hring as [? _]. }
  apply (sched_inv_of_linked k _ Q _ c HI Hc); try done.
  - apply (rq_linked_update HL); try done.
    + exact (ring_rotate _ _ _ _ Hring).
    + pose proof (rl_nodup _ _ HL p Hp) as Hnd. rewrite Hq in Hnd.
      by rewrite <- Permutation_cons_append.
    + intros j Hj. apply (rl_elem _ _ HL); [done|]. rewrite Hq. set_solver.
    + cbn. rewrite length_zalter. apply HL.
    + intros p' Hp'. rewrite (zlookup_set_head HL) by done. by rewrite Hnx.
    + apply HL.
    + intros p' Hp'. cbn. rewrite (rl_bit _ _ HL) by done. case_decide; [subst p'|done].
      rewrite Hq. apply bool_decide_ext. split; [|done]. by destruct l.
    + intros j Hj Hs Hn. apply (rl_out _ _ HL); [done|]. rewrite Hs, Hq. set_solver.
  - intros i q Hne. unfold upq. case_decide; [subst q|done]. rewrite Hq. set_solver.
  - change (tcb (set_head p (next_ready (scheduler (tcb k c))) k) c) with (tcb k c).
    fold p. rewrite upq_eq. split; [done|]. intros _. set_solver.
Qed.

(** * The kernel invariant *)

(** Scheduler and IPC invariants, with every priority a [TaskPriority] level. *)
Definition prios_ok (k : Kernel) : Prop :=
  forall i, is_task k i -> current_priority (scheduler (tcb k i)) < NUM_PRIORITIES /\
    base_priority (scheduler (tcb k i)) < NUM_PRIORITIES.

(** The PendSV pointers name tasks. *)
Definition cur_ok (k : Kernel) : Prop :=
  (forall c, g_current_tcb_ptr k = Some c -> is_task k c) /\
  (forall c, g_next_tcb_ptr k = Some c -> is_task k c).

Record kernel_ok (k : Kernel) : Prop := {
  ko_ipc : ipc_ok k;
  ko_prio : prios_ok k;
  ko_cur : cur_ok k;
}.

Lemma kernel_ok_sched k : kernel_ok k -> sched_ok k.
Proof. intros [[LQ HI] _ _]. apply HI. Qed.

Lemma cur_ok_ext k k' :
  task_count k <= task_count k' -> g_current_tcb_ptr k' = g_current_tcb_ptr k ->
  g_next_tcb_ptr k' = g_next_tcb_ptr k -> cur_ok k -> cur_ok k'.
Proof.
  intros Hc H1 H2 [C1 C2]. split; intros c Hg.
  - rewrite H1 in Hg. apply C1 in Hg. destruct Hg. split; lia.
  - rewrite H2 in Hg. apply C2 in Hg. destruct Hg. split; lia.
Qed.

Lemma cur_ok_same eK eT k k' :
  same_upto eK eT k k' ->
  (forall k, task_count (eK k) = task_count k /\ g_current_tcb_ptr (eK k) = g_current_tcb_ptr k /\
     g_next_tcb_ptr (eK k) = g_next_tcb_ptr k) ->
  cur_ok k -> cur_ok k'.
Proof.
  intros Hf HK. apply cur_ok_ext.
  - rewrite (su_env_proj task_count Hf); [lia|apply HK].
  - apply (su_env_proj g_current_tcb_ptr Hf), HK.
  - apply (su_env_proj g_next_tcb_ptr Hf), HK.
Qed.

Lemma prios_ok_ext k k' :
  task_count k' = task_count k ->
  (forall i, current_priority (scheduler (tcb k' i)) = current_priority (scheduler (tcb k i)) /\
     base_priority (scheduler (tcb k' i)) = base_priority (scheduler (tcb k i))) ->
  prios_ok k -> prios_ok k'.
Proof. intros Hc Hp H i Hi. destruct (Hp i) as [-> ->]. apply H. unfold is_task in *. by rewrite Hc in Hi. Qed.

Lemma kernel_ok_upd i f k :
  (forall t, stable_view (f t) = stable_view t) -> (forall t, wait_view (f t) = wait_view t) ->
  kernel_ok k -> kernel_ok (upd i f k).
Proof.
  intros Hs Hw [[LQ HI] Hp Hc]. split; [exists LQ; by apply ipc_inv_upd| |exact Hc].
  apply (prios_ok_ext k); [done| |done]. intros j. pose proof (tcb_upd_frame stable_view i f k j Hs) as Hv.
  unfold stable_view, sched_view, link_view in Hv. split; congruence.
Qed.

Lemma kernel_ok_set_state id s k : 0 <= id -> kernel_ok k -> kernel_ok (set_task_state id s k).
Proof.
  intros H0 [[LQ HI] Hp Hc]. pose proof (set_task_state_frame id s k) as Hf.
  split; [exists LQ; by apply ipc_inv_set_state| |by apply (cur_ok_same _ _ _ _ Hf)]. apply (prios_ok_ext k); [|..|done].
  - by apply (su_env_proj task_count Hf).
  - intros i. split.
    + by apply (su_proj (fun t => current_priority (scheduler t)) i Hf).
    + by apply (su_proj (fun t => base_priority (scheduler t)) i Hf).
Qed.

(** Steps that touch neither the task table, the queues nor the endpoints. *)
Lemma kernel_ok_env k k' :
  tasks k' = tasks k -> task_count k' = task_count k -> ready_head k' = ready_head k ->
  ready_bitmask k' = ready_bitmask k -> endpoints k' = endpoints k -> cur_ok k' ->
  kernel_ok k -> kernel_ok k'.
Proof.
  intros H1 H2 H3 H4 H5 Hc [[LQ HI] Hp _].
  assert (Ht : forall i, tcb k' i = tcb k i) by (intros i; unfold tcb; by rewrite H1).
  split; [|apply (prios_ok_ext k); [done| |done]; intros i; by rewrite Ht|done].
  exists LQ. apply (ipc_inv_ext HI).
  - apply (sched_ok_env k); try done. apply HI.
  - intros e r. unfold ep. by rewrite H5.
  - done.
  - intros i. by rewrite Ht.
  - intros i _. left. by rewrite Ht.
Qed.

Lemma count_upd i f k : task_count (upd i f k) = task_count k.
Proof. done. Qed.

(** What is asked of signal handlers, which run in task context and reach the
    kernel only through its operations. *)
Class GoodHandlers (run_handler : Z -> Z -> Kernel -> Kernel) : Prop := {
  handler_ok : forall h sig k, kernel_ok k -> kernel_ok (run_handler h sig k);
  handler_count : forall h sig k, task_count k <= task_count (run_handler h sig k);
}.

Section ScheduleInv.
Context (run_handler : Z -> Z -> Kernel -> Kernel) `{!GoodHandlers run_handler}.

Lemma run_action_ok i sig k :
  kernel_ok k -> kernel_ok (run_action run_handler i sig k) /\
  task_count k <= task_count (run_action run_handler i sig k).
Proof.
  intros Hk. unfold run_action. cbv zeta. destruct (_ =? nullptr); [split; [done|lia]|].
  set (k1 := if Z.land _ _ =? 0 then _ else _).
  assert (H1 : kernel_ok k1 /\ task_count k1 = task_count k).
  { unfold k1. destruct (_ =? 0); (split; [|done]); repeat (apply kernel_ok_upd; [done..|]); done. }
  destruct H1 as [H1 C1]. set (k2 := run_handler _ _ k1).
  assert (H2 : kernel_ok k2) by by apply handler_ok.
  pose proof (handler_count (sa_handler (sig_action k i sig)) sig k1) as C2. fold k2 in C2.
  split; [|destruct (negb _); cbn; lia].
  apply kernel_ok_upd; [done..|]. destruct (negb _); [by apply kernel_ok_upd|done].
Qed.

Lemma dispatch_loop_ok i pending sigs k :
  kernel_ok k -> is_task k i -> kernel_ok (dispatch_loop run_handler i pending sigs k) /\
  task_count k <= task_count (dispatch_loop run_handler i pending sigs k).
Proof.
  revert k. induction sigs as [|sig sigs IH]; intros k Hk Hi; cbn [dispatch_loop]; [split; [done|lia]|].
  destruct (bit_test pending sig); [|by apply IH]. destruct (_ && _).
  - apply (IH (upd i _ k)); [by apply kernel_ok_upd|done].
  - destruct (sig =? SIGKILL).
    + rewrite (sched_ok_id k i) by (done || by apply kernel_ok_sched).
      rewrite count_set_task_state. split; [|lia]. apply kernel_ok_set_state; [apply Hi|done].
    + destruct (run_action_ok i sig k Hk) as [H1 C1].
      destruct (IH (run_action run_handler i sig k) H1) as [H2 C2]; [destruct Hi; split; lia|].
      split; [done|lia].
Qed.

Lemma dispatch_signals_ok i k :
  kernel_ok k -> is_task k i -> kernel_ok (dispatch_signals run_handler i k) /\
  task_count k <= task_count (dispatch_signals run_handler i k).
Proof.
  intros Hk Hi. unfold dispatch_signals. cbv zeta. destruct (_ =? 0); [split; [done|lia]|].
  destruct (_ =? 0); [split; [done|lia]|]. apply (dispatch_loop_ok i _ _ (upd i _ k)); [|done].
  by apply kernel_ok_upd.
Qed.

Lemma rotate_head_ok c k :
  kernel_ok k -> is_task k c -> kernel_ok (rotate_head c k).
Proof.
  intros Hk Hc. destruct (decide (sched_state (scheduler (tcb k c)) = Ready)) as [Hr|Hr];
    [|unfold rotate_head; by rewrite decide_False].
  pose proof Hk as [[LQ HI] Hp Hcur]. destruct (ii_sched _ _ _ HI) as [Q HS].
  pose proof (rotate_head_inv k Q c HS Hc (proj1 (Hp c Hc)) Hr) as HS'.
  assert (E : exists h, rotate_head c k = set_ready_head h k).
  { unfold rotate_head. rewrite decide_True by done. cbv zeta.
    destruct (_ =? c); [by eexists|]. exists (ready_head k). by destruct k. }
  destruct E as [h E]. rewrite E in *. split; [|exact Hp|exact Hcur]. exists LQ.
  apply (ipc_inv_ext HI); try done; [by eexists|by left].
Qed.

Lemma current_is_task k :
  kernel_ok k -> 0 < task_count k -> is_task k (current_id k).
Proof.
  intros Hk H0. pose proof (proj1 (ko_cur _ Hk)) as Hcur. unfold current_id. destruct (g_current_tcb_ptr k) as [c|].
  - rewrite (sched_ok_id k c); [by apply Hcur|by apply kernel_ok_sched|by apply Hcur].
  - split; lia.
Qed.

Lemma switch_to_tasks c n k :
  tasks (switch_to c n k) = tasks k /\ task_count (switch_to c n k) = task_count k /\
  ready_head (switch_to c n k) = ready_head k /\ ready_bitmask (switch_to c n k) = ready_bitmask k /\
  endpoints (switch_to c n k) = endpoints k.
Proof. unfold switch_to. cbv zeta. destruct (n =? c); [done|]. by destruct (negb _). Qed.

Lemma switch_to_cur c n k : is_task k n -> cur_ok k -> cur_ok (switch_to c n k).
Proof.
  intros Hn [C1 C2]. unfold switch_to. cbv zeta. destruct (n =? c); [done|].
  destruct (negb _); (split; [exact C1|]); by intros c' [= <-].
Qed.

Lemma rotate_head_task c k i : is_task k i -> is_task (rotate_head c k) i.
Proof. unfold rotate_head. case_decide; [|done]. cbv zeta. by destruct (_ =? _). Qed.

Lemma schedule_ok k :
  kernel_ok k -> kernel_ok (schedule run_handler k).
Proof.
  intros Hk. unfold schedule. destruct (negb (started_ k)); [done|]. cbn [orb].
  destruct (Z.leb_spec (task_count k) 1); [done|]. cbv zeta.
  pose proof (current_is_task k Hk ltac:(lia)) as Hc.
  destruct (dispatch_signals_ok (current_id k) k Hk Hc) as [H1 C1].
  set (c := current_id k) in *. set (k1 := dispatch_signals run_handler c k) in *.
  set (k2 := if decide _ then k1 else rotate_head c k1).
  assert (Hc1 : is_task k1 c) by (destruct Hc; split; lia).
  assert (H2 : kernel_ok k2) by (unfold k2; case_decide; [done|by apply rotate_head_ok]).
  assert (Hc2 : is_task k2 c) by (unfold k2; case_decide; [done|by apply rotate_head_task]).
  assert (Hn : is_task k2 (select_next c k2)).
  { destruct (kernel_ok_sched _ H2) as [Q HS]. by apply (select_next_task HS). }
  revert Hn. generalize (select_next c k2). intros n Hn.
  destruct (switch_to_tasks c n k2) as (E1 & E2 & E3 & E4 & E5).
  apply (kernel_ok_env k2); try done. apply switch_to_cur; [done|apply H2].
Qed.

Lemma sleep_ms_ok ms k :
  kernel_ok k -> kernel_ok (sleep_ms run_handler ms k).
Proof.
  intros Hk. unfold sleep_ms. destruct (g_current_tcb_ptr k) as [c|] eqn:Hg; [|done]. cbv zeta.
  assert (Hc : is_task k c) by by apply (proj1 (ko_cur _ Hk)). set (k1 := upd c _ k).
  assert (H1 : kernel_ok k1) by by apply kernel_ok_upd.
  rewrite (sched_ok_id k1 c) by (done || by apply kernel_ok_sched).
  apply schedule_ok, kernel_ok_set_state; [apply Hc|done].
Qed.
End ScheduleInv.

(** ** Signals and time *)

Lemma send_signal_ok id sig k : kernel_ok k -> kernel_ok (send_signal id sig k).2.
Proof.
  intros Hk. unfold send_signal. destruct (Z.leb_spec (task_count k) id); [done|].
  destruct (_ || _); [done|]. case_decide; [done|]. cbv zeta. set (k1 := upd id _ k).
  assert (Hk1 : kernel_ok k1) by by apply kernel_ok_upd.
  destruct (decide (_ \/ _)) as [Hst|]; [|done]. cbn [snd].
  destruct (Z.lt_ge_cases id 0) as [Hneg|Hge].
  { assert (tcb k1 id = inhabitant) as E by (unfold tcb, zlookup; destruct (Z.leb_spec 0 id); [lia|done]).
    rewrite E in Hst. by destruct Hst. }
  rewrite (sched_ok_id k1 id); [by apply kernel_ok_set_state|by apply kernel_ok_sched|by split].
Qed.


Lemma inherited_prio_bound k r :
  sched_ok k -> prios_ok k -> is_task k r -> inherited_prio k r < NUM_PRIORITIES.
Proof.
  intros Hok Hp Hr. unfold inherited_prio. rewrite (sched_ok_id k r) by done.
  destruct (foldl_waiting_spec k r (task_indices k) (base_priority (scheduler (tcb k r))))
    as (_ & _ & [->|(i & Hi & _ & _ & Hpi)]); [by apply Hp|].
  unfold task_indices in Hi. apply elem_of_seqZ in Hi. cbv zeta in Hpi. rewrite <- Hpi.
  apply Hp. split; lia.
Qed.

Lemma recalculate_prios o k :
  sched_ok k -> prios_ok k -> (forall r, o = Some r -> is_task k r) ->
  prios_ok (recalculate_receiver_priority o k).
Proof.
  intros Hok Hp Ho. destruct o as [r|]; [|done]. specialize (Ho r eq_refl). cbn.
  rewrite (sched_ok_id k r) by done. pose proof (inherited_prio_bound k r Hok Hp Ho) as Hb.
  generalize dependent (inherited_prio k r). intros p Hb i Hi.
  unfold is_task in Hi. rewrite count_set_task_priority in Hi.
  rewrite (set_task_priority_prio k r p i) by done. split; [case_decide; [done|by apply Hp]|].
  rewrite (su_proj (fun t => base_priority (scheduler t)) i (set_task_priority_frame r p k)) by done.
  by apply Hp.
Qed.

Lemma wq_remove_frame t q k b q' k' :
  wq_remove t q k = (b, q', k') -> same_but_bn k k'.
Proof.
  unfold wq_remove. destruct (head_ q) as [h|], t as [t|]; try by intros [= <- <- <-].
  case_decide; [intros [= <- <- <-]; apply sbn_upd|]. cbv zeta.
  destruct (bn k (find_pred wq_fuel k t h)) as [n|]; [|by intros [= <- <- <-]].
  try case_decide; intros [= <- <- <-]; try done; etrans; apply sbn_upd.
Qed.

Lemma prios_ok_bn k k' : same_but_bn k k' -> prios_ok k -> prios_ok k'.
Proof.
  intros Hf. apply prios_ok_ext; [by apply (su_env_proj task_count Hf)|]. intros i. split.
  - by apply (su_proj (fun t => current_priority (scheduler t)) i Hf).
  - by apply (su_proj (fun t => base_priority (scheduler t)) i Hf).
Qed.

Lemma unqueue_waiter_frame e t k :
  same_upto (fun k => set_endpoints ∅ (erase_tasks k)) erase_bn k (unqueue_waiter e t k).
Proof.
  unfold unqueue_waiter. cbv zeta.
  destruct (wq_remove (Some t) (send_queue_ (ep k e)) k) as [[b1 q1] k1] eqn:E1.
  set (k1' := upd_ep e (set_send_queue_ q1) k1).
  destruct (wq_remove (Some t) (recv_queue_ (ep k1' e)) k1') as [[b2 q2] k2] eqn:E2.
  apply wq_remove_frame in E1, E2.
  assert (W : forall a b, same_but_bn a b -> same_upto (fun k => set_endpoints ∅ (erase_tasks k)) erase_bn a b).
  { intros a b. by apply su_weaken. }
  apply W in E1, E2.
  transitivity k1; [done|]. transitivity k1'; [by split|]. transitivity k2; [done|]. by split.
Qed.

Lemma wake_waiter_prios reason t k : prios_ok k -> prios_ok (wake_waiter reason t k).
Proof.
  unfold wake_waiter. cbv zeta. set (k1 := upd t _ k). intros Hp.
  pose proof (set_task_state_frame (sched_id (scheduler (tcb k1 t))) Ready k1) as Hf.
  apply (prios_ok_ext k1); [by apply (su_env_proj task_count Hf)| |].
  - intros i. split.
    + by apply (su_proj (fun t => current_priority (scheduler t)) i Hf).
    + by apply (su_proj (fun t => base_priority (scheduler t)) i Hf).
  - apply (prios_ok_ext k); [done| |done]. intros i. split.
    + by apply (tcb_upd_frame (fun t => current_priority (scheduler t))).
    + by apply (tcb_upd_frame (fun t => base_priority (scheduler t))).
Qed.

(** Cancelling changes queues, scheduling and the IPC state, nothing else. *)
Definition erase_ipc_run (t : TaskControlBlock) : TaskControlBlock :=
  set_sleep_ticks 0 (erase_sched (set_ipc inhabitant t)).
Definition erase_queues (k : Kernel) : Kernel := set_endpoints ∅ (erase_rq k).

Lemma cancel_waiter_frame e t reason k :
  same_upto erase_queues erase_ipc_run k (cancel_waiter e t reason k).
Proof.
  destruct t as [t|]; [|done]. cbn [cancel_waiter]. cbv zeta.
  assert (H : same_upto erase_queues erase_ipc_run k (wake_waiter reason t (unqueue_waiter e t k))).
  { transitivity (unqueue_waiter e t k).
    - by eapply su_weaken; [| |apply unqueue_waiter_frame].
    - unfold wake_waiter. cbv zeta. etrans; [by apply (su_upd t (release_waiter reason))|].
      by eapply su_weaken; [| |apply set_task_state_frame]. }
  destruct (_ && _); [|done]. etrans; [exact H|].
  by eapply su_weaken; [| |apply recalculate_frame].
Qed.

Lemma cancel_waiter_ok e t reason k :
  kernel_ok k -> is_task k t -> unqueued k t \/ wait_ep k t = Some e ->
  kernel_ok (cancel_waiter e (Some t) reason k).
Proof.
  intros [Hi Hp Hcur] Ht Hw. split; [by apply cancel_waiter_inv| |].
  2:{ by apply (cur_ok_same _ _ _ _ (cancel_waiter_frame e (Some t) reason k)). }
  pose proof (wake_unqueued_inv e t reason k Hi Ht Hw) as [LQ Hi2].
  assert (Hp2 : prios_ok (wake_waiter reason t (unqueue_waiter e t k))).
  { apply wake_waiter_prios. pose proof (unqueue_waiter_frame e t k) as Hf.
    apply (prios_ok_ext k); [by apply (su_env_proj task_count Hf)| |done]. intros i. split.
    - by apply (su_proj (fun t => current_priority (scheduler t)) i Hf).
    - by apply (su_proj (fun t => base_priority (scheduler t)) i Hf). }
  cbn [cancel_waiter]. cbv zeta. destruct (_ && _); [|done].
  apply recalculate_prios; [apply Hi2|done|]. intros r. apply get_task_by_id_task.
Qed.

Lemma timeout_waiter_ok i k : kernel_ok k -> is_task k i -> kernel_ok (timeout_waiter i k).
Proof.
  intros Hk Hi. unfold timeout_waiter. destruct (waiting_endpoint (ipc (tcb k i))) as [e|] eqn:He.
  - apply cancel_waiter_ok; [done|done|by right].
  - cbv zeta. apply kernel_ok_set_state; [apply Hi|]. destruct Hk as [[LQ HI] Hp Hc].
    split; [exists LQ| |exact Hc].
    + apply (ipc_inv_upd_unqueued HI); [|done|by intros ? []|by apply (inv_valid HI)].
      intros r e _. unfold wait_ep. congruence.
    + apply (prios_ok_ext k); [done| |done]. intros j. split.
      * by apply (tcb_upd_frame (fun t => current_priority (scheduler t))).
      * by apply (tcb_upd_frame (fun t => base_priority (scheduler t))).
Qed.

Lemma cancel_waiter_count e t reason k : task_count (cancel_waiter e t reason k) = task_count k.
Proof.
  destruct t as [t|]; [|done]. cbn [cancel_waiter]. cbv zeta.
  assert (E : task_count (wake_waiter reason t (unqueue_waiter e t k)) = task_count k).
  { unfold wake_waiter. cbv zeta. rewrite count_set_task_state, count_upd.
    by apply (su_env_proj task_count (unqueue_waiter_frame e t k)). }
  destruct (_ && _); [|done].
  rewrite (su_env_proj task_count (recalculate_frame _ _)) by done. done.
Qed.

Lemma timeout_waiter_count i k : task_count (timeout_waiter i k) = task_count k.
Proof.
  unfold timeout_waiter. destruct (waiting_endpoint _); [apply cancel_waiter_count|]. cbv zeta.
  by rewrite count_set_task_state.
Qed.

Lemma tick_task_ok i k :
  kernel_ok k -> is_task k i -> kernel_ok (tick_task k i) /\ task_count (tick_task k i) = task_count k.
Proof.
  intros Hk Hi. unfold tick_task. cbv zeta. destruct (canary_broken _ _).
  { rewrite count_set_task_state. split; [apply kernel_ok_set_state; [apply Hi|done]|done]. }
  set (s := sleep_ticks (scheduler (tcb k i))). assert (Hu : kernel_ok (upd i (set_sleep_ticks (s - 1)) k)) by by apply kernel_ok_upd.
  case_decide.
  - set (k1 := if 0 <? s then _ else k).
    assert (H1 : kernel_ok k1 /\ task_count k1 = task_count k) by (unfold k1; by destruct (0 <? s)).
    destruct H1 as [H1 C1]. destruct (_ =? 0); [|done]. rewrite count_set_task_state.
    split; [apply kernel_ok_set_state; [apply Hi|done]|done].
  - destruct (ipc_waiting _); [|done]. destruct (0 <? s); [|done]. destruct (_ =? 0); [|done].
    rewrite timeout_waiter_count. split; [by apply timeout_waiter_ok|done].
Qed.

Lemma compensate_task_ok n i k :
  kernel_ok k -> is_task k i ->
  kernel_ok (compensate_task n k i) /\ task_count (compensate_task n k i) = task_count k.
Proof.
  intros Hk Hi. unfold compensate_task. cbv zeta.
  assert (Hu : forall v, kernel_ok (upd i (set_sleep_ticks v) k)) by (intros; by apply kernel_ok_upd).
  destruct (decide (_ /\ _)); [|destruct (_ && _); [|done]]; destruct (_ <? _); try done.
  - rewrite count_set_task_state. split; [apply kernel_ok_set_state; [apply Hi|done]|done].
  - rewrite timeout_waiter_count. split; [by apply timeout_waiter_ok|done].
Qed.

(** A loop over the task table whose steps keep the invariant keeps it. *)
Lemma foldl_tasks_ok (f : Kernel -> Z -> Kernel) l k :
  (forall i k, kernel_ok k -> is_task k i -> kernel_ok (f k i) /\ task_count (f k i) = task_count k) ->
  (forall i, i ∈ l -> is_task k i) -> kernel_ok k ->
  kernel_ok (foldl f k l) /\ task_count (foldl f k l) = task_count k.
Proof.
  intros Hf. revert k. induction l as [|i l IH]; intros k Hl Hk; cbn; [done|].
  destruct (Hf i k Hk) as [H1 C1]; [set_solver|]. rewrite <- C1. apply IH; [|done].
  intros j Hj. eapply is_task_count; [done|]. set_solver.
Qed.

Lemma task_indices_spec k i : i ∈ task_indices k <-> is_task k i.
Proof. unfold task_indices, is_task. rewrite elem_of_seqZ. lia. Qed.

Lemma tick_update_ok k : kernel_ok k -> kernel_ok (tick_update k).
Proof.
  intros Hk. apply (foldl_tasks_ok tick_task); [intros; by apply tick_task_ok|apply task_indices_spec|done].
Qed.

Lemma compensate_ticks_ok n k : kernel_ok k -> kernel_ok (compensate_ticks n k).
Proof.
  intros Hk. apply (foldl_tasks_ok (compensate_task n)); [|apply task_indices_spec|done].
  intros; by apply compensate_task_ok.
Qed.
