(* ===== verification/Tickless.v ===== *)
(** Tickless idle (kernel/task/task.hpp): skipping [n] ticks with
    [compensate_ticks n] is the same as taking [n] ticks with [tick_update],
    as long as [n] stays below [get_expected_idle_ticks]. *)
From S2P Require Import Prelude Kernel ReadyQueue WaitQueue Endpoint Mpu TaskTable IpcSpec Scheduler.

(** A task whose wait is being timed. *)
Definition counting (t : TaskControlBlock) : bool :=
  (bool_decide (sched_state (scheduler t) = Sleeping) || ipc_waiting t) && (0 <? sleep_ticks (scheduler t)).

Definition dec (n : Z) (t : TaskControlBlock) : TaskControlBlock :=
  if counting t then set_sleep_ticks (sleep_ticks (scheduler t) - n) t else t.

(** The whole table at once. *)
Definition dec_all (n : Z) (k : Kernel) : Kernel :=
  set_tasks (imap (fun j t => if Z.of_nat j <? task_count k then dec n t else t) (tasks k)) k.

(** What a span of [n] ticks without any wake-up looks like. *)
Definition quiet_task (n : Z) (k : Kernel) (t : TaskControlBlock) : Prop :=
  canary_broken k t = false /\
  (sched_state (scheduler t) = Sleeping -> 0 < sleep_ticks (scheduler t)) /\
  (counting t = true -> n < sleep_ticks (scheduler t)).

Definition quiet (n : Z) (k : Kernel) : Prop := forall i, is_task k i -> quiet_task n k (tcb k i).

Lemma get_expected_le k i :
  is_task k i -> 0 < sleep_ticks (scheduler (tcb k i)) ->
  get_expected_idle_ticks k <= sleep_ticks (scheduler (tcb k i)).
Proof.
  intros Hi Hs. unfold get_expected_idle_ticks. apply task_indices_spec in Hi. revert Hi.
  assert (Hmono : forall l b, foldl (idle_step k) b l <= b).
  { intros l. induction l as [|a l IH]; intros b; cbn; [lia|]. specialize (IH (idle_step k b a)).
    unfold idle_step in *. cbv zeta in *. destruct ((_ <? _) && (_ <? _)) eqn:E; [|lia].
    apply andb_true_iff in E as [_ E%Z.ltb_lt]. lia. }
  generalize u32_max. induction (task_indices k) as [|a l IH]; intros b Hi; [set_solver|].
  apply elem_of_cons in Hi as [->|Hi]; cbn; [|by apply IH].
  etrans; [apply Hmono|]. unfold idle_step. cbv zeta. zbool; cbn; lia.
Qed.

Lemma upd_dec i n k :
  is_task k i -> counting (tcb k i) = true ->
  upd i (set_sleep_ticks (sleep_ticks (scheduler (tcb k i)) - n)) k = upd i (dec n) k.
Proof.
  intros Hi Hc. unfold upd, zalter, tcb, zlookup in *. destruct (Z.leb_spec 0 i); [|destruct Hi; lia]. f_equal.
  apply list_eq. intros j. destruct (decide (Z.to_nat i = j)) as [<-|]; [|by rewrite !list_lookup_alter_ne].
  rewrite !list_lookup_alter_eq. destruct (tasks k !! Z.to_nat i) as [t|] eqn:Ht; [|done].
  cbn. rewrite list_lookup_total_alt, Ht in *. cbn in *. unfold dec. by rewrite Hc.
Qed.

Lemma compensate_task_quiet n k i :
  is_task k i -> quiet_task n k (tcb k i) -> compensate_task n k i = upd i (dec n) k.
Proof.
  intros Hi (_ & _ & Hlt). unfold compensate_task. cbv zeta.
  destruct (counting (tcb k i)) eqn:Hc.
  - specialize (Hlt eq_refl). rewrite <- (upd_dec i n k Hi Hc). rewrite (proj2 (Z.ltb_lt n _)) by done.
    unfold counting in Hc. apply andb_true_iff in Hc as [Hc Hs].
    destruct (decide (_ /\ _)) as [|Hno]; [done|]. rewrite Hs, andb_true_r.
    apply orb_true_iff in Hc as [Hc| ->]; [|done].
    apply bool_decide_eq_true in Hc. apply Z.ltb_lt in Hs. tauto.
  - rewrite (upd_id i (dec n)) by (unfold dec; by rewrite Hc). unfold counting in Hc.
    destruct (decide (_ /\ _)) as [[Hs H0]|_].
    + rewrite bool_decide_true, (proj2 (Z.ltb_lt _ _)) in Hc by done. done.
    + destruct (ipc_waiting _); [|done]. rewrite orb_true_r in Hc. cbn [andb] in *. by rewrite Hc.
Qed.

Lemma tick_task_quiet k i :
  is_task k i -> valid_task k i -> quiet_task 1 k (tcb k i) -> tick_task k i = upd i (dec 1) k.
Proof.
  intros Hi Hv (Hcan & Hsl & Hlt). unfold tick_task. cbv zeta. rewrite Hcan.
  destruct (counting (tcb k i)) eqn:Hc.
  - specialize (Hlt eq_refl). pose proof (upd_dec i 1 k Hi Hc) as Hd.
    assert (Hz : (sleep_ticks (scheduler (tcb (upd i (set_sleep_ticks
      (sleep_ticks (scheduler (tcb k i)) - 1)) k) i)) =? 0) = false).
    { rewrite tcb_upd_eq by done. cbn. apply Z.eqb_neq. lia. }
    unfold counting in Hc. apply andb_true_iff in Hc as [Hc Hs]. rewrite Hs.
    destruct (decide (_ = Sleeping)) as [|Hns]; [by rewrite Hz|].
    rewrite bool_decide_false in Hc by done. cbn [orb] in Hc. by rewrite Hc, Hz.
  - rewrite (upd_id i (dec 1)) by (unfold dec; by rewrite Hc). unfold counting in Hc.
    destruct (decide (_ = Sleeping)) as [Hs|Hns].
    + specialize (Hsl Hs). rewrite bool_decide_true, (proj2 (Z.ltb_lt _ _)) in Hc by done. done.
    + rewrite bool_decide_false in Hc by done. cbn [orb] in Hc. destruct (ipc_waiting _); [|done].
      cbn [andb] in Hc. by rewrite Hc.
Qed.

(** ** Loops over the table *)

Definition dec_at (n : Z) (k : Kernel) (i : Z) : Kernel := upd i (dec n) k.

(** A loop whose step is [dec_at n] for every index it meets. *)
Lemma foldl_dec_at (f : Kernel -> Z -> Kernel) n (P : Kernel -> TaskControlBlock -> Prop) l k :
  (forall k i, is_task k i -> valid_task k i -> P k (tcb k i) -> f k i = dec_at n k i) ->
  (forall k i t, P k t -> P (dec_at n k i) t) ->
  NoDup l -> (forall i, i ∈ l -> is_task k i /\ valid_task k i /\ P k (tcb k i)) ->
  foldl f k l = foldl (dec_at n) k l.
Proof.
  intros Hf HP. revert k. induction l as [|i l IH]; intros k Hnd Hl; [done|].
  apply NoDup_cons in Hnd as [Hi Hnd]. cbn [foldl]. destruct (Hl i) as (Ht & Hv & Hp); [set_solver|].
  rewrite Hf by done. apply IH; [done|]. intros j Hj. destruct (Hl j) as (Htj & Hvj & Hpj); [set_solver|].
  split; [done|]. split; [by apply valid_task_upd|].
  unfold dec_at at 2. rewrite tcb_upd_ne by set_solver. by apply HP.
Qed.

(** The loop over the table decrements it everywhere at once. *)
Lemma foldl_dec_all n k m :
  (m <= Z.to_nat (task_count k))%nat ->
  foldl (dec_at n) k (seqZ 0 (Z.of_nat m)) =
  set_tasks (imap (fun j t => if (j <? m)%nat then dec n t else t) (tasks k)) k.
Proof.
  induction m as [|m IH]; intros Hm.
  - cbn. replace (imap _ (tasks k)) with (tasks k); [by destruct k|].
    apply list_eq. intros j. rewrite list_lookup_imap. by destruct (tasks k !! j).
  - replace (Z.of_nat (S m)) with (Z.of_nat m + 1) by lia. rewrite seqZ_app, foldl_app, IH by lia.
    assert (seqZ (0 + Z.of_nat m) 1 = [Z.of_nat m]) as -> by (unfold seqZ; cbn; f_equal; lia).
    cbn [foldl]. unfold dec_at, upd, zalter. destruct (Z.leb_spec 0 (Z.of_nat m)); [|lia].
    rewrite Nat2Z.id. unfold set_tasks. cbn [tasks task_count started_ ready_head ready_bitmask
      g_current_tcb_ptr g_next_tcb_ptr pendsv address_space deleted_vasps endpoints mutexes other_refs
      frame timer_mgr ptimers_ watchdog mem]. f_equal. apply list_eq. intros j. rewrite list_lookup_alter, !list_lookup_imap.
    destruct (decide (m = j)) as [<-|Hne]; (destruct (tasks k !! _) as [t|] eqn:Ht; cbn [fmap option_fmap option_map]; [|done]).
    + rewrite Nat.ltb_irrefl. by rewrite (proj2 (Nat.ltb_lt _ _)) by lia.
    + destruct (Nat.ltb_spec j m), (Nat.ltb_spec j (S m)); try lia; done.
Qed.

Lemma foldl_dec_table n k :
  sched_ok k -> foldl (dec_at n) k (task_indices k) = dec_all n k.
Proof.
  intros [Q HS]. pose proof (rl_count _ _ (si_linked _ _ HS)) as [H0 _].
  unfold task_indices. rewrite <- (Z2Nat.id (task_count k)) at 1 by done.
  rewrite foldl_dec_all by done. unfold dec_all. f_equal. apply imap_ext. intros j t _.
  destruct (Nat.ltb_spec j (Z.to_nat (task_count k))), (Z.ltb_spec (Z.of_nat j) (task_count k)); done || lia.
Qed.

Lemma quiet_step n m k i t : quiet_task n k t -> quiet_task n (dec_at m k i) t.
Proof. done. Qed.

Lemma table_indices k :
  sched_ok k -> NoDup (task_indices k) /\
  forall n i, quiet n k -> i ∈ task_indices k -> is_task k i /\ valid_task k i /\ quiet_task n k (tcb k i).
Proof.
  intros Hok. split; [apply NoDup_seqZ|]. intros n i Hq Hi%task_indices_spec.
  split; [done|]. split; [by apply sched_ok_valid|by apply Hq].
Qed.

Lemma compensate_dec_all n k : sched_ok k -> quiet n k -> compensate_ticks n k = dec_all n k.
Proof.
  intros Hok Hq. rewrite <- foldl_dec_table by done. destruct (table_indices k Hok) as [Hnd Hi].
  apply (foldl_dec_at _ n (quiet_task n)); [|done|done|by intros; apply Hi].
  intros k' i Ht _ Hqi. by apply compensate_task_quiet.
Qed.

Lemma tick_dec_all k : sched_ok k -> quiet 1 k -> tick_update k = dec_all 1 k.
Proof.
  intros Hok Hq. rewrite <- foldl_dec_table by done. destruct (table_indices k Hok) as [Hnd Hi].
  apply (foldl_dec_at _ 1 (quiet_task 1)); [|done|done|by intros; apply Hi].
  intros k' i Ht Hv Hqi. by apply tick_task_quiet.
Qed.

(** ** Composition of spans *)

Lemma tcb_dec_all n k i :
  valid_task k i -> tcb (dec_all n k) i = if i <? task_count k then dec n (tcb k i) else tcb k i.
Proof.
  intros [H0 H1]. unfold tcb, dec_all, zlookup. cbn. destruct (Z.leb_spec 0 i); [|lia].
  destruct (lookup_lt_is_Some_2 (tasks k) (Z.to_nat i)) as [t Ht]; [lia|].
  rewrite !list_lookup_total_alt, list_lookup_imap, Ht. cbn. by rewrite Z2Nat.id.
Qed.

Lemma dec_views n t : sched_view (dec n t) = sched_view t /\ wait_view (dec n t) = wait_view t.
Proof. unfold dec. by destruct (counting t). Qed.

Lemma dec_dec a b t :
  0 <= b -> (counting t = true -> a < sleep_ticks (scheduler t)) -> dec b (dec a t) = dec (a + b) t.
Proof.
  intros Hb Ha. unfold dec at 2 3. destruct (counting t) eqn:Hc; [|unfold dec; by rewrite Hc].
  specialize (Ha eq_refl). unfold dec. replace (counting _) with true.
  - cbn. unfold set_sleep_ticks, on_scheduler, set_scheduler. cbn. do 2 f_equal. lia.
  - symmetry. unfold counting in *. apply andb_true_iff in Hc as [Hc _]. apply andb_true_iff.
    split; [exact Hc|]. apply Z.ltb_lt. cbn. lia.
Qed.

Lemma dec_all_dec_all a b k :
  sched_ok k -> 0 <= b -> quiet a k -> dec_all b (dec_all a k) = dec_all (a + b) k.
Proof.
  intros Hok Hb Hq. unfold dec_all at 1 3. unfold dec_all. unfold set_tasks. cbn. f_equal.
  apply list_eq. intros j. rewrite !list_lookup_imap.
  destruct (tasks k !! j) as [t|] eqn:Ht; [|done]. cbn. f_equal.
  destruct (Z.ltb_spec (Z.of_nat j) (task_count k)) as [Hlt|]; [|done].
  apply dec_dec; [done|]. assert (Hi : is_task k (Z.of_nat j)) by (split; lia).
  destruct (Hq _ Hi) as (_ & _ & Hc). unfold tcb in Hc. rewrite (zlookup_Some _ _ t) in Hc; [done|lia|].
  by rewrite Nat2Z.id.
Qed.

Lemma dec_all_ok a k : sched_ok k -> sched_ok (dec_all a k).
Proof.
  intros Hok. pose proof (sched_ok_len k Hok) as Hlen. destruct Hok as [Q HS]. exists Q.
  eapply sched_inv_ext; [| |exact HS].
  - unfold same_heads. cbn. by rewrite length_imap.
  - intros i Hi. rewrite tcb_dec_all by (unfold valid_task, in_range; lia).
    destruct (_ <? _); [apply dec_views|done].
Qed.

Lemma quiet_dec_all a n k :
  sched_ok k -> quiet (a + n) k -> 0 <= n -> quiet a k /\ quiet n (dec_all a k).
Proof.
  intros Hok Hq Hn. split.
  { intros i Hi. destruct (Hq i Hi) as (H1 & H2 & H3). split; [done|]. split; [done|].
    intros Hc. specialize (H3 Hc). lia. }
  intros i Hi. destruct (Hq i Hi) as (H1 & H2 & H3).
  rewrite tcb_dec_all by by apply sched_ok_valid. destruct Hi as [_ Hlt]. cbn in Hlt.
  rewrite (proj2 (Z.ltb_lt _ _)) by done. unfold dec. destruct (counting (tcb k i)) eqn:Hc;
    [|split; [exact H1|]; split; [done|]; by rewrite Hc].
  specialize (H3 eq_refl). split; [exact H1|]. cbn. split; [lia|]. intros _. lia.
Qed.

Lemma ticks_dec_all (n : nat) k :
  sched_ok k -> quiet (Z.of_nat n) k -> Nat.iter n tick_update k = dec_all (Z.of_nat n) k.
Proof.
  intros Hok. induction n as [|n IH]; intros Hq.
  - cbn. rewrite <- (foldl_dec_table 0) by done. symmetry.
    assert (E : forall l k, foldl (dec_at 0) k l = k); [|by apply E].
    induction l as [|i l IH]; intros k'; [done|]. cbn. unfold dec_at at 2. rewrite upd_id; [apply IH|].
    unfold dec. destruct (counting _); [|done]. rewrite Z.sub_0_r. by destruct (tcb k' i) as [?? []].
  - replace (Z.of_nat (S n)) with (Z.of_nat n + 1) in * by lia.
    destruct (quiet_dec_all _ _ _ Hok Hq ltac:(lia)) as [Hq1 Hq2].
    cbn [Nat.iter nat_rect]. change (nat_rect _ _ _ n) with (Nat.iter n tick_update k). rewrite IH by done.
    rewrite tick_dec_all by (done || by apply dec_all_ok). by rewrite dec_all_dec_all by (done || lia).
Qed.
