(* ===== verification/Preserve.v ===== *)
(** Preservation of the kernel invariant by the IPC handlers, the task table and
    the dispatcher: priorities stay in range, the PendSV pointers name tasks, and
    what each operation leaves alone. *)
From S2P Require Import Prelude Kernel Ring ReadyQueue WaitQueue Endpoint Mpu TaskTable IpcSpec Scheduler.

(** * Priorities stay in range *)

(** Every task of [k'] has the priorities of a task of [k] or bounded ones. *)
Definition prio_view (t : TaskControlBlock) : Z * Z :=
  (current_priority (scheduler t), base_priority (scheduler t)).

Lemma prios_ok_same eK eT k k' :
  same_upto eK eT k k' -> (forall k, task_count (eK k) = task_count k) ->
  (forall t, prio_view (eT t) = prio_view t) -> prios_ok k -> prios_ok k'.
Proof.
  intros Hf HK HT. apply prios_ok_ext; [by apply (su_env_proj task_count Hf)|]. intros i.
  pose proof (su_proj prio_view i Hf HT) as Hv. unfold prio_view in Hv. by simplify_eq.
Qed.

Lemma prios_ok_upd i f k : (forall t, prio_view (f t) = prio_view t) -> prios_ok k -> prios_ok (upd i f k).
Proof.
  intros Hf. apply prios_ok_ext; [done|]. intros j.
  pose proof (tcb_upd_frame prio_view i f k j Hf) as Hv. unfold prio_view in Hv. by simplify_eq.
Qed.

Lemma prios_ok_state id s k : prios_ok k -> prios_ok (set_task_state id s k).
Proof. by eapply prios_ok_same; [apply set_task_state_frame|..]. Qed.

Lemma prios_ok_priority id p k : p < NUM_PRIORITIES -> prios_ok k -> prios_ok (set_task_priority id p k).
Proof.
  intros Hp Hk i Hi. unfold is_task in Hi. rewrite count_set_task_priority in Hi.
  rewrite (su_proj (fun t => base_priority (scheduler t)) i (set_task_priority_frame id p k)) by done.
  split; [|by apply Hk]. revert i Hi. unfold set_task_priority.
  destruct (_ || _); [intros; by apply Hk|]. destruct (_ =? _); [intros; by apply Hk|]. cbv zeta.
  intros i Hi. set (k0 := if bool_decide _ then remove_ready id k else k).
  assert (F0 : same_but_links k k0) by (unfold k0; case_bool_decide; [apply remove_ready_frame|done]).
  set (k1 := upd id (set_current_priority p) k0).
  assert (E1 : current_priority (scheduler (tcb k1 i)) < NUM_PRIORITIES).
  { unfold k1. destruct (decide (id = i)) as [<-|Hne].
    - unfold tcb, upd, zlookup, zalter. cbn. destruct (Z.leb_spec 0 id); [|cbn; unfold NUM_PRIORITIES; lia].
      rewrite list_lookup_total_alt, list_lookup_alter_eq.
      destruct (tasks k0 !! Z.to_nat id); cbn; [done|unfold NUM_PRIORITIES; lia].
    - rewrite tcb_upd_ne by done. rewrite (sbl_proj F0 (fun t => current_priority (scheduler t))) by done.
      by apply Hk. }
  destruct (bool_decide _); [|done].
  by rewrite (sbl_proj (push_ready_frame id k1) (fun t => current_priority (scheduler t))) by done.
Qed.

Lemma prios_ok_inherit s r k : is_task k s -> prios_ok k -> prios_ok (inherit_priority s r k).
Proof.
  intros Hs Hk. unfold inherit_priority. destruct (_ <? _); [|done]. apply prios_ok_priority; [|done].
  by apply Hk.
Qed.

Lemma prios_ok_recalculate o k :
  (forall r, o = Some r -> is_task k r) -> prios_ok k -> prios_ok (recalculate_receiver_priority o k).
Proof.
  intros Ho Hk. destruct o as [r|]; [|done]. cbn. apply prios_ok_priority; [|done].
  unfold inherited_prio. specialize (Ho r eq_refl).
  destruct (foldl_waiting_spec k (sched_id (scheduler (tcb k r))) (task_indices k)
    (base_priority (scheduler (tcb k r)))) as (_ & _ & [->|(i & Hi & _ & _ & <-)]); [by apply Hk|].
  apply Hk. by apply task_indices_spec.
Qed.

Lemma prios_ok_env k k' : tasks k' = tasks k -> task_count k' = task_count k -> prios_ok k -> prios_ok k'.
Proof. intros Ht Hc. apply prios_ok_ext; [done|]. intros i. unfold tcb. by rewrite Ht. Qed.

(** ** Wait-queue operations touch links only *)

Lemma dequeue_frame q k : same_but_bn k (dequeue q k).2.
Proof. unfold dequeue. destruct (head_ q); [apply sbn_upd|done]. Qed.

Lemma unlink_first_frame fuel P prev curr q k : same_but_bn k (unlink_first fuel P prev curr q k).2.
Proof.
  revert prev curr. induction fuel as [|fuel IH]; intros prev [c|]; cbn [unlink_first]; try done.
  destruct (P (tcb k c)); [|apply IH]. cbv zeta. cbn [snd]. etrans; apply sbn_upd.
Qed.

Lemma dequeue_matching_sender_frame label q k : same_but_bn k (dequeue_matching_sender label q k).2.
Proof.
  unfold dequeue_matching_sender. destruct (head_ q); [|done].
  destruct (_ || _); [apply dequeue_frame|apply unlink_first_frame].
Qed.

Lemma dequeue_matching_receiver_frame label q k : same_but_bn k (dequeue_matching_receiver label q k).2.
Proof.
  unfold dequeue_matching_receiver. destruct (head_ q); [|done]. cbv zeta.
  destruct (_ || _); [apply dequeue_frame|apply unlink_first_frame].
Qed.

Lemma enqueue_frame t q k : same_but_bn k (enqueue t q k).2.
Proof.
  unfold enqueue. destruct t as [t|]; [|done]. cbv zeta. set (k1 := upd t (set_blocked_next None) k).
  assert (H1 : same_but_bn k k1) by apply sbn_upd.
  destruct (head_ q) as [h|]; [destruct (_ <? _)|]; cbn [snd].
  - etrans; [exact H1|apply sbn_upd].
  - etrans; [exact H1|]. etrans; apply sbn_upd.
  - etrans; [exact H1|apply sbn_upd].
Qed.

(** ** The IPC handlers keep priorities in range *)

Lemma is_task_bn k k' i : same_but_bn k k' -> is_task k i -> is_task k' i.
Proof. intros Hf. apply is_task_count. by apply (su_env_proj task_count Hf). Qed.

Lemma call_deliver_prios e s r msg len timeout bdg k :
  is_task k s -> prios_ok k -> prios_ok (call_deliver e s r msg len timeout bdg k).2.
Proof.
  intros Hs Hk. unfold call_deliver. cbv zeta.
  destruct (ipc_copy _ _ _ _ k) as [mlen k1] eqn:Hc. apply ipc_copy_mem in Hc as [m ->].
  destruct (_ =? _); cbn [snd]; apply prios_ok_state; [|apply prios_ok_inherit; [is_task_solve|apply prios_ok_state]];
    repeat (apply prios_ok_upd; [done|]); done.
Qed.

Lemma call_prios e s msg len rb mrl timeout bdg k :
  is_task k s -> prios_ok k -> prios_ok (call e (Some s) msg len rb mrl timeout bdg k).2.
Proof.
  intros Hs Hk. unfold call. cbv zeta.
  assert (H1 : prios_ok (call_setup s msg len rb mrl bdg k) /\ is_task (call_setup s msg len rb mrl bdg k) s).
  { unfold call_setup. cbv zeta. destruct (_ && _); (split; [|done]); by repeat (apply prios_ok_upd; [done|]). }
  destruct H1 as [H1 Hs1]. set (k1 := call_setup _ _ _ _ _ _ k) in *.
  pose proof (dequeue_matching_receiver_frame (msg_type (ipc (tcb k1 s))) (recv_queue_ (ep k1 e)) k1) as Hf.
  destruct (dequeue_matching_receiver _ _ k1) as [[[r|] q] k2]; cbn [snd] in Hf;
    pose proof (prios_ok_bn _ _ Hf H1) as H2; pose proof (is_task_bn _ _ _ Hf Hs1) as Hs2.
  - by apply call_deliver_prios.
  - unfold call_wait. destruct (_ =? _); [by apply prios_ok_upd|]. cbv zeta.
    set (k3 := upd s _ _).
    pose proof (enqueue_frame (Some s) (send_queue_ (ep k3 e)) k3) as Hf3.
    destruct (enqueue _ _ _) as [q' k4]. cbn [snd] in *. apply prios_ok_state, (prios_ok_env k4); [done..|].
    eapply prios_ok_bn; [exact Hf3|]. by apply prios_ok_upd.
Qed.

Lemma receive_deliver_prios r s buf ml k :
  is_task k s -> prios_ok k -> prios_ok (receive_deliver r s buf ml k).2.
Proof.
  intros Hs Hk. unfold receive_deliver. cbv zeta.
  destruct (ipc_copy _ _ _ _ k) as [mlen k1] eqn:Hc. apply ipc_copy_mem in Hc as [m ->]. cbn [snd].
  apply prios_ok_inherit; [is_task_solve|]. apply prios_ok_state. repeat (apply prios_ok_upd; [done|]). done.
Qed.

Lemma receive_prios e r buf ml timeout label k LQ :
  ipc_inv k LQ -> prios_ok k -> prios_ok (receive e (Some r) buf ml timeout label k).2.
Proof.
  intros HI Hk. unfold receive. cbv zeta.
  pose proof (receive_setup_inv HI r buf ml label) as HI1.
  assert (H1 : prios_ok (receive_setup r buf ml label k)).
  { unfold receive_setup. cbv zeta. by repeat (apply prios_ok_upd; [done|]). }
  set (k1 := receive_setup _ _ _ _ k) in *.
  pose proof (dequeue_matching_sender_spec label _ _ _ (ii_repr _ _ _ HI1 SendQ e) (ipc_len HI1)) as Hd.
  cbn [role_queue] in Hd.
  pose proof (dequeue_matching_sender_frame label (send_queue_ (ep k1 e)) k1) as Hf.
  destruct (dequeue_matching_sender _ _ k1) as [[[s|] q] k2]; cbn [snd] in Hf;
    pose proof (prios_ok_bn _ _ Hf H1) as H2.
  - destruct Hd as (l1 & l2 & Hl & _). apply receive_deliver_prios; [|done].
    assert (Hin : s ∈ LQ SendQ e) by (rewrite Hl; set_solver).
    exact (is_task_bn _ _ _ Hf (queued_task _ _ _ _ _ _ HI1 Hin)).
  - unfold receive_wait. destruct (_ =? _); [by apply prios_ok_upd|]. cbv zeta.
    set (k3 := upd r _ _).
    pose proof (enqueue_frame (Some r) (recv_queue_ (ep k3 e)) k3) as Hf3.
    destruct (enqueue _ _ _) as [q' k4]. cbn [snd] in *. apply prios_ok_state, (prios_ok_env k4); [done..|].
    eapply prios_ok_bn; [exact Hf3|]. by apply prios_ok_upd.
Qed.

Lemma reply_prios r sid msg len k :
  is_task k r -> prios_ok k -> prios_ok (reply (Some r) sid msg len k).2.
Proof.
  intros Hr Hk. unfold reply. destruct (_ <=? _); [done|]. destruct (get_task_by_id k sid) as [s|]; [|done].
  destruct (_ && _); [|done]. unfold reply_deliver. cbv zeta.
  destruct (ipc_copy _ _ _ _ k) as [mlen k1] eqn:Hc. apply ipc_copy_mem in Hc as [m ->]. cbn [snd].
  apply prios_ok_recalculate; [intros ? [= <-]; is_task_solve|]. apply prios_ok_state. by apply prios_ok_upd.
Qed.

(** ** [cancel_all] *)

Lemma cancel_queued_frame reason t k : same_upto erase_queues erase_ipc_run k (cancel_queued reason t k).
Proof.
  unfold cancel_queued. cbv zeta. set (f := fun c => _). transitivity (upd t f k); [by apply su_upd|].
  by eapply su_weaken; [| |apply set_task_state_frame].
Qed.

Lemma pop_frame e f q k : same_upto erase_queues erase_ipc_run k (upd_ep e f (dequeue q k).2).
Proof.
  transitivity (dequeue q k).2; [|by split].
  by eapply su_weaken; [| |apply dequeue_frame].
Qed.

Lemma drain_senders_frame fuel e reason k :
  same_upto erase_queues erase_ipc_run k (drain_senders fuel e reason k).
Proof.
  revert k. induction fuel as [|fuel IH]; intros k; cbn [drain_senders]; [done|].
  pose proof (fun f => pop_frame e f (send_queue_ (ep k e)) k) as Hp.
  destruct (dequeue _ k) as [[[t|] q] k']; [|done].
  etrans; [apply Hp|]. etrans; [apply cancel_queued_frame|apply IH].
Qed.

Lemma recalculate_frame' o k : same_upto erase_queues erase_ipc_run k (recalculate_receiver_priority o k).
Proof. by eapply su_weaken; [| |apply recalculate_frame]. Qed.

Lemma drain_receivers_frame fuel e reason k :
  same_upto erase_queues erase_ipc_run k (drain_receivers fuel e reason k).
Proof.
  revert k. induction fuel as [|fuel IH]; intros k; cbn [drain_receivers]; [done|].
  pose proof (fun f => pop_frame e f (recv_queue_ (ep k e)) k) as Hp.
  destruct (dequeue _ k) as [[[t|] q] k']; [|done]. cbv zeta.
  etrans; [apply Hp|]. etrans; [apply cancel_queued_frame|]. etrans; [apply recalculate_frame'|apply IH].
Qed.

Lemma cancel_scan_frame e reason l k :
  same_upto erase_queues erase_ipc_run k (foldl (cancel_scan_step e reason) k l).
Proof.
  revert k. induction l as [|i l IH]; intros k; cbn [foldl]; [done|].
  etrans; [|apply IH]. unfold cancel_scan_step. case_decide; [|done]. cbv zeta.
  etrans; [apply cancel_queued_frame|]. destruct (_ <? _); [apply recalculate_frame'|done].
Qed.

Lemma cancel_all_frame e reason k : same_upto erase_queues erase_ipc_run k (cancel_all e reason k).
Proof.
  unfold cancel_all. cbv zeta. etrans; [apply drain_senders_frame|]. etrans; [apply drain_receivers_frame|].
  apply cancel_scan_frame.
Qed.

Lemma cancel_queued_prios reason t k : prios_ok k -> prios_ok (cancel_queued reason t k).
Proof. intros Hk. unfold cancel_queued. cbv zeta. apply prios_ok_state. by apply prios_ok_upd. Qed.

Lemma drain_senders_prios fuel e reason k : prios_ok k -> prios_ok (drain_senders fuel e reason k).
Proof.
  revert k. induction fuel as [|fuel IH]; intros k Hk; cbn [drain_senders]; [done|].
  pose proof (dequeue_frame (send_queue_ (ep k e)) k) as Hf.
  destruct (dequeue _ k) as [[[t|] q] k']; [|done]. apply IH, cancel_queued_prios, (prios_ok_env k'); [done..|].
  by apply (prios_ok_bn k).
Qed.

Lemma drain_receivers_prios fuel e reason k LQ :
  ipc_inv k LQ -> prios_ok k -> prios_ok (drain_receivers fuel e reason k).
Proof.
  revert k LQ. induction fuel as [|fuel IH]; intros k LQ HI Hk; cbn [drain_receivers]; [done|].
  pose proof (dequeue_frame (recv_queue_ (ep k e)) k) as Hf.
  destruct (dequeue _ k) as [[[t|] q] k'] eqn:Hd; [|done]. cbv zeta.
  destruct (cancel_head_inv RecvQ e reason t q k k' LQ HI Hd) as (l' & _ & H1 & _ & Ht).
  eapply IH; [apply (ipc_inv_recalculate H1); by intros ? [= <-]|].
  apply prios_ok_recalculate; [by intros ? [= <-]|]. apply cancel_queued_prios, (prios_ok_env k'); [done..|].
  by apply (prios_ok_bn k).
Qed.

Lemma cancel_scan_prios e reason l k : prios_ok k -> prios_ok (foldl (cancel_scan_step e reason) k l).
Proof.
  revert k. induction l as [|i l IH]; intros k Hk; cbn [foldl]; [done|]. apply IH.
  unfold cancel_scan_step. case_decide; [|done]. cbv zeta.
  destruct (_ <? _); [|by apply cancel_queued_prios].
  apply prios_ok_recalculate; [|by apply cancel_queued_prios]. intros r. apply get_task_by_id_task.
Qed.

Lemma cancel_all_ok e reason k : kernel_ok k -> kernel_ok (cancel_all e reason k).
Proof.
  intros [Hi Hp Hc]. split.
  - destruct (cancel_all_spec e reason k Hi) as (LQ & H & _). by exists LQ.
  - destruct Hi as [LQ HI]. unfold cancel_all. cbv zeta. apply cancel_scan_prios.
    destruct (drain_senders_spec wq_fuel e reason k LQ HI) as (LQ1 & H1 & _).
    { eapply wq_length; [apply HI|apply (ipc_len HI)]. }
    eapply drain_receivers_prios; [exact H1|]. by apply drain_senders_prios.
  - by apply (cur_ok_same _ _ _ _ (cancel_all_frame e reason k)).
Qed.

(** ** The pointers of the dispatcher *)

Definition cur_view (k : Kernel) : Z * option Z * option Z :=
  (task_count k, g_current_tcb_ptr k, g_next_tcb_ptr k).

Lemma cur_view_same eK eT k k' :
  same_upto eK eT k k' -> (forall k, cur_view (eK k) = cur_view k) -> cur_view k' = cur_view k.
Proof. intros Hf. apply (su_env_proj cur_view Hf). Qed.

Lemma cur_view_upd i f k : cur_view (upd i f k) = cur_view k.
Proof. done. Qed.
Lemma cur_view_upd_ep e f k : cur_view (upd_ep e f k) = cur_view k.
Proof. done. Qed.
Lemma cur_view_mem m k : cur_view (set_mem m k) = cur_view k.
Proof. done. Qed.
Lemma cur_view_state id s k : cur_view (set_task_state id s k) = cur_view k.
Proof. by eapply cur_view_same; [apply set_task_state_frame|]. Qed.
Lemma cur_view_inherit s r k : cur_view (inherit_priority s r k) = cur_view k.
Proof. by eapply cur_view_same; [apply inherit_priority_frame|]. Qed.
Lemma cur_view_recalculate o k : cur_view (recalculate_receiver_priority o k) = cur_view k.
Proof. by eapply cur_view_same; [apply recalculate_frame|]. Qed.
Create Rewrite HintDb cur_view.
#[export] Hint Rewrite cur_view_upd cur_view_upd_ep cur_view_mem cur_view_state cur_view_inherit
  cur_view_recalculate : cur_view.

Lemma cur_ok_view k k' : cur_view k' = cur_view k -> cur_ok k -> cur_ok k'.
Proof. unfold cur_view. intros [= H1 H2 H3]. apply cur_ok_ext; [lia|done|done]. Qed.

Lemma ipc_copy_view len max src dst k n k' : ipc_copy len max src dst k = (n, k') -> cur_view k' = cur_view k.
Proof. intros [m ->]%ipc_copy_mem. done. Qed.

Lemma call_view e s msg len rb mrl timeout bdg k :
  cur_view (call e (Some s) msg len rb mrl timeout bdg k).2 = cur_view k.
Proof.
  unfold call. cbv zeta.
  assert (E1 : cur_view (call_setup s msg len rb mrl bdg k) = cur_view k).
  { unfold call_setup. cbv zeta. by destruct (_ && _). }
  set (k1 := call_setup _ _ _ _ _ _ k) in *. rewrite <- E1.
  pose proof (dequeue_matching_receiver_frame (msg_type (ipc (tcb k1 s))) (recv_queue_ (ep k1 e)) k1) as Hf.
  destruct (dequeue_matching_receiver _ _ k1) as [[[r|] q] k2]; cbn [snd] in Hf;
    rewrite <- (cur_view_same _ _ _ _ Hf (fun _ => eq_refl)).
  - unfold call_deliver. cbv zeta. destruct (ipc_copy _ _ _ _ _) as [mlen k3] eqn:Hc. apply ipc_copy_view in Hc.
    destruct (_ =? _); cbn [snd]; autorewrite with cur_view; by rewrite Hc.
  - unfold call_wait, would_block. destruct (_ =? _); [done|]. cbv zeta. set (k3 := upd s _ _).
    pose proof (enqueue_frame (Some s) (send_queue_ (ep k3 e)) k3) as Hf3.
    destruct (enqueue _ _ _) as [q' k4]. cbn [snd] in *. autorewrite with cur_view.
    by rewrite (cur_view_same _ _ _ _ Hf3).
Qed.

Lemma receive_view e r buf ml timeout label k :
  cur_view (receive e (Some r) buf ml timeout label k).2 = cur_view k.
Proof.
  unfold receive. cbv zeta. change (cur_view k) with (cur_view (receive_setup r buf ml label k)).
  set (k1 := receive_setup _ _ _ _ k).
  pose proof (dequeue_matching_sender_frame label (send_queue_ (ep k1 e)) k1) as Hf.
  destruct (dequeue_matching_sender _ _ k1) as [[[s|] q] k2]; cbn [snd] in Hf;
    rewrite <- (cur_view_same _ _ _ _ Hf (fun _ => eq_refl)).
  - unfold receive_deliver. cbv zeta. destruct (ipc_copy _ _ _ _ _) as [mlen k3] eqn:Hc. apply ipc_copy_view in Hc.
    cbn [snd]. autorewrite with cur_view. by rewrite Hc.
  - unfold receive_wait, would_block. destruct (_ =? _); [done|]. cbv zeta. set (k3 := upd r _ _).
    pose proof (enqueue_frame (Some r) (recv_queue_ (ep k3 e)) k3) as Hf3.
    destruct (enqueue _ _ _) as [q' k4]. cbn [snd] in *. autorewrite with cur_view.
    by rewrite (cur_view_same _ _ _ _ Hf3).
Qed.

Lemma reply_view r sid msg len k : cur_view (reply (Some r) sid msg len k).2 = cur_view k.
Proof.
  unfold reply. destruct (_ <=? _); [done|]. destruct (get_task_by_id k sid) as [s|]; [|done].
  destruct (_ && _); [|done]. unfold reply_deliver. cbv zeta.
  destruct (ipc_copy _ _ _ _ k) as [mlen k1] eqn:Hc. apply ipc_copy_view in Hc. cbn [snd].
  autorewrite with cur_view. done.
Qed.

(** ** Task creation and release *)

Lemma create_task_ok `{Arch} entry base size p pow priv srd k o k' :
  kernel_ok k -> 0 <= p < NUM_PRIORITIES -> (forall i, is_task k i ->
    sched_state (scheduler (tcb k i)) = Unallocated -> idle_ipc (wait_state k i)) ->
  create_task entry base size p pow priv srd k = (o, k') -> kernel_ok k'.
Proof.
  intros [Hi Hp Hc] [P0 P1] Hidle Hcr. destruct o as [i|].
  2:{ unfold create_task in Hcr. destruct (find_free k); [|by injection Hcr as <-].
      cbv zeta in Hcr. by destruct (init_thread_stack _ _ _ _). }
  pose proof (create_task_slot _ _ _ _ _ _ _ _ _ _ Hcr) as Hf.
  pose proof (find_free_Some _ _ Hf) as (_ & Hu & _). destruct Hi as [LQ HI].
  destruct (ii_sched _ _ _ HI) as [Q HS].
  destruct (create_task_ipc entry base size p pow priv srd k i k') as (Hi' & _); [by exists LQ|done|by intros; apply Hidle|done|].
  apply create_task_shape in Hcr as (_ & k1 & sp & -> & Ht & Hl & Hh & Hm & _ & Hg & Hn & Hcnt);
    [|by eapply find_free_valid].
  pose proof (push_ready_frame i k1) as Hfr. split; [done|..].
  - intros j Hj. apply (sbl_is_task Hfr), (count_fresh k Q i k1 j HS Hf Hcnt) in Hj.
    rewrite (sbl_proj Hfr (fun t => current_priority (scheduler t))),
      (sbl_proj Hfr (fun t => base_priority (scheduler t))), Ht by done.
    case_decide; [done|]. destruct Hj as [->|Hj]; [done|]. by apply Hp.
  - apply (cur_ok_same _ _ _ _ Hfr); [done|]. apply (cur_ok_ext k); [|done..].
    rewrite Hcnt. pose proof (find_free_le _ _ _ HS Hf). destruct (Z.leb_spec (task_count k) i); lia.
Qed.

(** [free_task] changes a task's state, links and address space only. *)
Definition erase_vasp (t : TaskControlBlock) : TaskControlBlock :=
  set_sched_state Ready (set_pgdir_base 0 (set_vasp 0 (erase_links t))).

Lemma free_task_frame i k :
  same_upto (fun k => set_deleted_vasps [] (erase_rq k)) erase_vasp k (free_task (Some i) k).
Proof.
  unfold free_task. cbv zeta. set (k1 := if negb _ then _ else k).
  transitivity k1.
  { unfold k1. destruct (negb _); [|done].
    transitivity (set_deleted_vasps (vasp (memory (tcb k i)) :: deleted_vasps k) k); [by split|].
    by apply su_upd. }
  etrans; [|by apply su_upd]. case_decide; [|done].
  by eapply su_weaken; [| |apply remove_ready_frame].
Qed.

Lemma free_task_ok i k :
  kernel_ok k -> is_task k i -> kernel_ok (free_task (Some i) k).
Proof.
  intros [[LQ HI] Hp Hc] Hi. destruct (ii_sched _ _ _ HI) as [Q HS].
  destruct (free_task_inv k Q i HS Hi) as [HS' _].
  pose proof (free_task_frame i k) as Hf.
  split.
  - exists LQ. apply (ipc_inv_ext HI).
    + by eexists.
    + intros e r. unfold ep. by rewrite (su_env_proj endpoints Hf).
    + by apply (su_env_proj task_count Hf).
    + intros j. by apply (su_proj (fun t => base_priority (scheduler t)) j Hf).
    + intros j _. left. by apply (su_proj wait_view j Hf).
  - by eapply prios_ok_same; [exact Hf|..].
  - by apply (cur_ok_same _ _ _ _ Hf).
Qed.

Lemma start_ok k : kernel_ok k -> 0 < task_count k -> kernel_ok (start k).
Proof.
  intros Hk H0. assert (H : is_task k 0) by (split; lia). unfold start. cbv zeta.
  destruct (negb _); (apply (kernel_ok_env k); try done; split; by intros c [= <-]).
Qed.

Lemma pendsv_handler_ok k : kernel_ok k -> kernel_ok (pendsv_handler k).
Proof.
  intros Hk. unfold pendsv_handler. destruct (pendsv k); [|done]. apply (kernel_ok_env k); try done.
  split; apply (ko_cur _ Hk).
Qed.
