(* ===== verification/System.v ===== *)
(** The kernel as a transition system: every operation of the scheduler, the
    IPC layer and the task table is a step, and every reachable state satisfies
    the scheduler and IPC invariants.  The steps leave out two things that the code does
    not prevent: an IPC call or receive by a task that a signal woke while it was still
    in an endpoint queue, and the reuse of a slot freed in such a queue. *)
From S2P Require Import Prelude Kernel Ring ReadyQueue WaitQueue Endpoint Mpu TaskTable IpcSpec Scheduler Preserve.

(** * The transition system *)

Section System.
Context `{Arch} (run_handler : Z -> Z -> Kernel -> Kernel) `{!GoodHandlers run_handler}.

(** One kernel entry.  An IPC call or receive is made by a task that is in no endpoint
    queue; a slot is recycled only while it is in none; a new task has a valid priority;
    the scheduler is started with a task; a waiter is cancelled on its own endpoint. *)
Inductive kstep (k : Kernel) : Kernel -> Prop :=
| ks_call e s msg len rb mrl timeout bdg :
    is_task k s -> idle_ipc (wait_state k s) ->
    kstep k (call e (Some s) msg len rb mrl timeout bdg k).2
| ks_receive e r buf ml timeout label :
    is_task k r -> idle_ipc (wait_state k r) ->
    kstep k (receive e (Some r) buf ml timeout label k).2
| ks_reply r sid msg len :
    is_task k r -> kstep k (reply (Some r) sid msg len k).2
| ks_cancel_all e reason : kstep k (cancel_all e reason k)
| ks_cancel_waiter e t reason :
    is_task k t -> unqueued k t \/ wait_ep k t = Some e -> kstep k (cancel_waiter e (Some t) reason k)
| ks_signal id sig : kstep k (send_signal id sig k).2
| ks_schedule : kstep k (schedule run_handler k)
| ks_sleep ms : kstep k (sleep_ms run_handler ms k)
| ks_pendsv : kstep k (pendsv_handler k)
| ks_start : 0 < task_count k -> kstep k (start k)
| ks_tick : kstep k (tick_update k)
| ks_compensate n : kstep k (compensate_ticks n k)
| ks_create entry base size p pow priv srd :
    0 <= p < NUM_PRIORITIES ->
    (forall i, is_task k i -> sched_state (scheduler (tcb k i)) = Unallocated -> idle_ipc (wait_state k i)) ->
    kstep k (create_task entry base size p pow priv srd k).2
| ks_free i : is_task k i -> kstep k (free_task (Some i) k).

Lemma kstep_ok k k' : kernel_ok k -> kstep k k' -> kernel_ok k'.
Proof.
  intros Hk Hs. pose proof Hk as [[LQ HI] Hp Hc].
  destruct Hs as [e s msg len rb mrl timeout bdg Hs Hw|e r buf ml timeout label Hr Hw|r sid msg len Hr| | | | | | | | | |
    entry base size p pow priv srd Hpr Hu|i Hi].
  - split; [by apply call_inv; [exists LQ|..]|by apply call_prios|].
    eapply cur_ok_view; [apply call_view|done].
  - split; [by apply receive_inv; [exists LQ|..]|by eapply receive_prios|].
    eapply cur_ok_view; [apply receive_view|done].
  - split; [by apply reply_inv; [exists LQ|]|by apply reply_prios|].
    eapply cur_ok_view; [apply reply_view|done].
  - by apply cancel_all_ok.
  - by apply cancel_waiter_ok.
  - by apply send_signal_ok.
  - by apply schedule_ok.
  - by apply sleep_ms_ok.
  - by apply pendsv_handler_ok.
  - by apply start_ok.
  - by apply tick_update_ok.
  - by apply compensate_ticks_ok.
  - destruct (create_task _ _ _ _ _ _ _ k) as [o k1] eqn:E. cbn [snd].
    eapply create_task_ok; [done|exact Hpr| |exact E]. intros i Hi Hst. by apply Hu.
  - by apply free_task_ok.
Qed.

Lemma reachable_ok k k' : kernel_ok k -> rtc kstep k k' -> kernel_ok k'.
Proof. intros Hk Hr. induction Hr as [|k1 k2 k3 Hs _ IH]; [done|]. by eapply IH, kstep_ok. Qed.
End System.

Lemma boot_kernel_kernel_ok : kernel_ok boot_kernel.
Proof.
  split; [apply boot_kernel_ok|intros i [??]; cbn in *; lia|].
  by split; intros c Hc.
Qed.

(** Handlers that return without entering the kernel. *)
Definition no_handler (h sig : Z) (k : Kernel) : Kernel := k.
#[export] Instance no_handler_good : GoodHandlers no_handler.
Proof. split; [done|]. intros. unfold no_handler. lia. Qed.

Lemma spawn_kernel_ok p stack k :
  kernel_ok k -> 0 <= p < NUM_PRIORITIES ->
  (forall i, is_task k i -> sched_state (scheduler (tcb k i)) <> Unallocated) -> kernel_ok (spawn p stack k).
Proof.
  intros Hk Hp Hu. unfold spawn. destruct (create_task _ _ _ _ _ _ _ k) as [o k'] eqn:E. cbn [snd].
  eapply create_task_ok; [done|done| |exact E]. intros i Hi Hst. by apply Hu in Hst.
Qed.

Lemma all_tasks (P : Kernel -> Z -> bool) k :
  forallb (P k) (task_indices k) = true -> forall i, is_task k i -> P k i = true.
Proof.
  intros Hall i Hi. rewrite forallb_forall in Hall. apply Hall, list_elem_of_In, task_indices_spec, Hi.
Qed.

Lemma demo_kernel_ok : kernel_ok demo.
Proof.
  assert (H : forall k, forallb (fun i => negb (is_free k i)) (task_indices k) = true ->
    forall i, is_task k i -> sched_state (scheduler (tcb k i)) <> Unallocated).
  { intros k Hall i Hi. apply (all_tasks (fun k i => negb (is_free k i)) k Hall) in Hi.
    unfold is_free in Hi. by case_bool_decide. }
  unfold demo. apply spawn_kernel_ok; [apply spawn_kernel_ok; [apply spawn_kernel_ok; [apply boot_kernel_kernel_ok|..]|..]|..];
    first [done|by apply H; vm_compute].
Qed.
