(* ===== verification/CSpace.v ===== *)
(** Kernel objects and capability spaces (kernel/core/kernel_object.hpp,
    kernel/core/cspace.hpp, kernel/core/cspace.cpp).

    A capability slot is [slot k i j], the [j]-th entry of task [i]'s [cspace].
    Reference counts live with the objects; [destroy] is the override of the
    object's class.  The invariant [caps_ok] ties the occupancy bitmap to the
    slots and the reference counts to the capabilities that are held. *)
From S2P Require Import Prelude Kernel ReadyQueue WaitQueue Endpoint Mpu TaskTable IpcSpec Scheduler Preserve.

(** * Kernel objects *)

(** [KernelObject::ref_count_] of an object. *)
Definition obj_refs (k : Kernel) (o : ObjRef) : Z :=
  match o with
  | ObjTask i => ref_count (tcb k i)
  | ObjEndpoint e => ep_ref_count (ep k e)
  | ObjOther x => default 0 (other_refs k !! x)
  end.

Definition set_obj_refs (o : ObjRef) (v : Z) (k : Kernel) : Kernel :=
  match o with
  | ObjTask i => upd i (set_ref_count v) k
  | ObjEndpoint e => upd_ep e (set_ep_ref_count v) k
  | ObjOther x => set_other_refs (<[x := v]> (other_refs k)) k
  end.

(** [KernelObject::retain]. *)
Definition retain (o : ObjRef) (k : Kernel) : Kernel :=
  set_obj_refs o (wrap32 (obj_refs k o + 1)) k.

(** [destroy]: [TaskControlBlock] frees its slot, [Endpoint] cancels its
    waiters, the base class does nothing. *)
Definition destroy (o : ObjRef) (k : Kernel) : Kernel :=
  match o with
  | ObjTask i => free_task (Some i) k
  | ObjEndpoint e => cancel_all e IpcReceiverDead k
  | ObjOther _ => k
  end.

(** [KernelObject::release]. *)
Definition release (o : ObjRef) (k : Kernel) : Kernel :=
  if 0 <? obj_refs k o then
    let k := set_obj_refs o (obj_refs k o - 1) k in
    if obj_refs k o =? 0 then destroy o k else k
  else k.

(** * Capability slots *)

Definition CAP_RIGHT_READ : Z := 1.
Definition CAP_RIGHT_WRITE : Z := 2.
Definition CAP_RIGHT_GRANT : Z := 4.

(** [task->security.cspace[j]]. *)
Definition slot (k : Kernel) (i j : Z) : Capability := zlookup (cspace (security (tcb k i))) j.

Definition alter_slot (i j : Z) (f : Capability -> Capability) (k : Kernel) : Kernel :=
  upd i (fun t => set_cspace (zalter f j (cspace (security t))) t) k.

(** [occupied_mask |= 1u << j] and [occupied_mask &= ~(1u << j)]. *)
Definition mark_slot (i j : Z) (k : Kernel) : Kernel :=
  upd i (fun t => set_occupied_mask (bit_set (occupied_mask (security t)) j) t) k.
Definition unmark_slot (i j : Z) (k : Kernel) : Kernel :=
  upd i (fun t => set_occupied_mask (bit_clear (occupied_mask (security t)) j) t) k.

Definition is_valid_slot (slot_id : Z) : bool := slot_id <? MAX_CSPACE_SLOTS.

Definition is_slot_occupied (task : option Z) (slot_id : Z) (k : Kernel) : bool :=
  match task with
  | None => false
  | Some t => if is_valid_slot slot_id then bit_test (occupied_mask (security (tcb k t))) slot_id else false
  end.

Definition get_occupied_mask (task : option Z) (k : Kernel) : Z :=
  match task with None => 0 | Some t => occupied_mask (security (tcb k t)) end.

(** [~mask & ((1u << MAX_CSPACE_SLOTS) - 1)], then CTZ. *)
Definition cap_alloc_slot (task : option Z) (k : Kernel) : Z :=
  match task with
  | None => -1
  | Some t =>
      let free_mask := Z.land (Z.lnot (occupied_mask (security (tcb k t)))) (bit MAX_CSPACE_SLOTS - 1) in
      if free_mask =? 0 then -1 else find_lowest_bit free_mask
  end.

(** [static_cast<Endpoint*>(cap.object)]. *)
Definition as_endpoint (o : ObjRef) : option Z :=
  match o with ObjEndpoint e => Some e | _ => None end.

(** [cap.type = Null; cap.object = nullptr]. *)
Definition nullify (c : Capability) : Capability := set_cap_object None (set_cap_type CapNull c).

(** A waiter on the endpoint loses its capability: its wait is cancelled. *)
Definition cancel_if_waiting (t : Z) (o : ObjRef) (k : Kernel) : Kernel :=
  match as_endpoint o with
  | Some e => if decide (waiting_endpoint (ipc (tcb k t)) = Some e)
              then cancel_waiter e (Some t) IpcNoPermission k else k
  | None => k
  end.

(** What [cap_delete] and [cap_revoke] do with the object of a slot. *)
Definition drop_object (t : Z) (ty : CapType) (o : ObjRef) (k : Kernel) : Kernel :=
  release o (if decide (ty = CapEndpoint) then cancel_if_waiting t o k else k).

Definition cap_delete (task : option Z) (slot_id : Z) (k : Kernel) : bool * Kernel :=
  match task with
  | None => (false, k)
  | Some t =>
      if is_valid_slot slot_id then
        let cap := slot k t slot_id in
        let k := match cap_object cap with
                 | Some o => if decide (cap_type cap = CapNull) then k else drop_object t (cap_type cap) o k
                 | None => k
                 end in
        (true, unmark_slot t slot_id (alter_slot t slot_id nullify k))
      else (false, k)
  end.

Definition retain_opt (o : option ObjRef) (k : Kernel) : Kernel :=
  match o with Some o => retain o k | None => k end.

Definition cap_insert (task : option Z) (slot_id : Z) (cap : Capability) (k : Kernel) : bool * Kernel :=
  match task with
  | None => (false, k)
  | Some t =>
      if negb (is_valid_slot slot_id) || bool_decide (cap_type cap = CapNull) then (false, k) else
      let k := (cap_delete (Some t) slot_id k).2 in
      let k := alter_slot t slot_id (fun _ => cap) k in
      let k := retain_opt (cap_object cap) k in
      (true, mark_slot t slot_id k)
  end.

(** [cap_lookup] returns the slot it was asked for, or [nullptr], and brings
    the bitmap in line with it. *)
Definition cap_lookup (task : option Z) (slot_id : Z) (k : Kernel) : option Capability * Kernel :=
  match task with
  | None => (None, k)
  | Some t =>
      if is_valid_slot slot_id then
        let cap := slot k t slot_id in
        if decide (cap_type cap = CapNull) then (None, unmark_slot t slot_id k)
        else (Some cap, mark_slot t slot_id k)
      else (None, k)
  end.

(** The rights a request mask asks for, and the escalation check. *)
Definition requested (rights : Z) : CapRights :=
  mkRights (negb (Z.land rights CAP_RIGHT_READ =? 0)) (negb (Z.land rights CAP_RIGHT_WRITE =? 0))
    (negb (Z.land rights CAP_RIGHT_GRANT =? 0)).

Definition escalates (req have : CapRights) : bool :=
  (right_read req && negb (right_read have)) || (right_write req && negb (right_write have)) ||
  (right_grant req && negb (right_grant have)).

(** The body shared by [cap_derive_internal] and [cap_grant]: the destination
    slot is deleted first, then the source slot is read again (it is a
    reference, so it may be the slot just deleted). *)
Definition copy_cap (t src_slot d dst_slot : Z) (req : CapRights) (bdg : Z) (k : Kernel) : Kernel :=
  let k := (cap_delete (Some d) dst_slot k).2 in
  let src_cap := slot k t src_slot in
  let k := alter_slot d dst_slot
             (fun c => set_cap_object (cap_object src_cap) (set_cap_type (cap_type src_cap) c)) k in
  let k := retain_opt (cap_object (slot k d dst_slot)) k in
  let k := alter_slot d dst_slot (fun c => set_cap_badge bdg (set_cap_rights req c)) k in
  mark_slot d dst_slot k.

Definition cap_derive_internal (task : option Z) (src_slot dst_slot rights bdg : Z) (k : Kernel) : bool * Kernel :=
  match task with
  | None => (false, k)
  | Some t =>
      if negb (is_valid_slot src_slot) || negb (is_valid_slot dst_slot) then (false, k) else
      let src_cap := slot k t src_slot in
      if decide (cap_type src_cap = CapNull) then (false, k) else
      if escalates (requested rights) (cap_rights src_cap) then (false, k)
      else (true, copy_cap t src_slot t dst_slot (requested rights) bdg k)
  end.

Definition cap_derive (task : option Z) (src_slot dst_slot rights : Z) (k : Kernel) : bool * Kernel :=
  match task with
  | None => (false, k)
  | Some t =>
      if is_valid_slot src_slot
      then cap_derive_internal task src_slot dst_slot rights (cap_badge (slot k t src_slot)) k
      else (false, k)
  end.

Definition cap_mint (task : option Z) (src_slot dst_slot rights bdg : Z) (k : Kernel) : bool * Kernel :=
  cap_derive_internal task src_slot dst_slot rights bdg k.

Definition cap_grant (src_task dst_task : option Z) (src_slot dst_slot new_rights bdg : Z) (k : Kernel) :
    bool * Kernel :=
  match src_task, dst_task with
  | Some s, Some d =>
      if negb (is_valid_slot src_slot) || negb (is_valid_slot dst_slot) then (false, k) else
      let src_cap := slot k s src_slot in
      if decide (cap_type src_cap = CapNull) then (false, k) else
      if escalates (requested new_rights) (cap_rights src_cap) then (false, k)
      else (true, copy_cap s src_slot d dst_slot (requested new_rights) bdg k)
  | _, _ => (false, k)
  end.

(** ** [cap_revoke] *)

Definition slots : list Z := seqZ 0 MAX_CSPACE_SLOTS.

(** The bitmap of task [i] is recomputed from its slots. *)
Definition sync_slot (i : Z) (k : Kernel) (j : Z) : Kernel :=
  if decide (cap_type (slot k i j) = CapNull) then unmark_slot i j k else mark_slot i j k.

Definition sync_mask (i : Z) (k : Kernel) : Kernel := foldl (sync_slot i) k slots.

Definition revoke_slot (i : Z) (target : ObjRef) (j : Z) (k : Kernel) : Kernel :=
  if decide (cap_object (slot k i j) = Some target) then
    unmark_slot i j (alter_slot i j nullify (drop_object i (cap_type (slot k i j)) target k))
  else k.

(** [while (mask != 0)]: at most sixteen rounds. *)
Fixpoint revoke_loop (fuel : nat) (i : Z) (target : ObjRef) (mask : Z) (k : Kernel) : Kernel :=
  match fuel with
  | O => k
  | S fuel =>
      if mask =? 0 then k else
      let j := find_lowest_bit mask in
      revoke_loop fuel i target (bit_clear mask j) (revoke_slot i target j k)
  end.

Definition revoke_task (task slot_id : Z) (target : ObjRef) (k : Kernel) (i : Z) : Kernel :=
  let k := sync_mask i k in
  let mask := occupied_mask (security (tcb k i)) in
  let mask := if i =? task then bit_clear mask slot_id else mask in
  revoke_loop 16 i target mask k.

Definition cap_revoke (task : option Z) (slot_id : Z) (k : Kernel) : bool * Kernel :=
  match task with
  | None => (false, k)
  | Some t =>
      if is_valid_slot slot_id then
        let '(src_cap, k) := cap_lookup (Some t) slot_id k in
        match src_cap ≫= cap_object with
        | None => (false, k)
        | Some target => (true, foldl (revoke_task t slot_id target) k (task_indices k))
        end
      else (false, k)
  end.

(** * What other components leave alone *)

(** Capabilities, bitmaps and reference counts are the same in both states. *)
Record obj_frame (k k' : Kernel) : Prop := {
  of_len : length (tasks k') = length (tasks k);
  of_count : task_count k' = task_count k;
  of_sec : forall i, security (tcb k' i) = security (tcb k i);
  of_refs : forall o, obj_refs k' o = obj_refs k o;
}.

#[export] Instance obj_frame_refl : Reflexive obj_frame.
Proof. by intros k. Qed.
#[export] Instance obj_frame_trans : Transitive obj_frame.
Proof.
  intros k1 k2 k3 [L1 C1 S1 R1] [L2 C2 S2 R2]. split; [congruence|congruence|..]; intros; [by rewrite S2|by rewrite R2].
Qed.

Definition obj_view (t : TaskControlBlock) : SecurityContext * Z := (security t, ref_count t).

Lemma obj_frame_same eK eT k k' :
  same_upto eK eT k k' ->
  (forall k, task_count (eK k) = task_count k /\ other_refs (eK k) = other_refs k) ->
  (forall t, obj_view (eT t) = obj_view t) ->
  (forall e, ep_ref_count (ep k' e) = ep_ref_count (ep k e)) -> obj_frame k k'.
Proof.
  intros Hf HK HT He. pose proof (fun i => su_proj obj_view i Hf HT) as Hv. unfold obj_view in Hv.
  split; [apply Hf|apply (su_env_proj task_count Hf), HK|..].
  - intros i. specialize (Hv i). congruence.
  - intros [i|e|x]; cbn; [specialize (Hv i); congruence|apply He|].
    rewrite (su_env_proj other_refs Hf); [done|apply HK].
Qed.

(** Queue changes keep an endpoint's reference count. *)
Definition same_ep_refs (k k' : Kernel) : Prop :=
  forall e, ep_ref_count (ep k' e) = ep_ref_count (ep k e).

#[export] Instance same_ep_refs_refl : Reflexive same_ep_refs.
Proof. by intros k e. Qed.
#[export] Instance same_ep_refs_trans : Transitive same_ep_refs.
Proof. intros k1 k2 k3 H1 H2 e. by rewrite H2. Qed.

Lemma ser_frame eK eT k k' :
  same_upto eK eT k k' -> (forall k, endpoints (eK k) = endpoints k) -> same_ep_refs k k'.
Proof. intros Hf HK e. unfold ep. by rewrite (su_env_proj endpoints Hf). Qed.

Lemma ser_upd_ep e f k :
  (forall p, ep_ref_count (f p) = ep_ref_count p) -> same_ep_refs k (upd_ep e f k).
Proof. intros Hf e'. rewrite ep_upd_ep. case_decide; [subst; apply Hf|done]. Qed.

Lemma ser_upd i f k : same_ep_refs k (upd i f k).
Proof. by intros e. Qed.

Lemma ser_state id s k : same_ep_refs k (set_task_state id s k).
Proof. by eapply ser_frame; [apply set_task_state_frame|]. Qed.
Lemma ser_recalculate o k : same_ep_refs k (recalculate_receiver_priority o k).
Proof. by eapply ser_frame; [apply recalculate_frame|]. Qed.

Lemma ser_cancel_waiter e t reason k : same_ep_refs k (cancel_waiter e t reason k).
Proof.
  destruct t as [t|]; [|done]. cbn [cancel_waiter]. cbv zeta.
  assert (H : same_ep_refs k (wake_waiter reason t (unqueue_waiter e t k))).
  { unfold unqueue_waiter. pose proof (wq_remove_frame (Some t) (send_queue_ (ep k e)) k) as H1.
    destruct (wq_remove _ _ k) as [[b1 q1] k1].
    set (k1' := upd_ep e (set_send_queue_ q1) k1).
    pose proof (wq_remove_frame (Some t) (recv_queue_ (ep k1' e)) k1') as H2.
    destruct (wq_remove _ _ k1') as [[b2 q2] k2].
    etrans; [by eapply ser_frame; [exact (H1 _ _ _ eq_refl)|]|]. etrans; [by apply (ser_upd_ep e (set_send_queue_ q1))|].
    etrans; [by eapply ser_frame; [exact (H2 _ _ _ eq_refl)|]|]. etrans; [by apply (ser_upd_ep e (set_recv_queue_ q2))|].
    unfold wake_waiter. cbv zeta. etrans; [apply ser_upd|apply ser_state]. }
  destruct (_ && _); [|done]. etrans; [exact H|apply ser_recalculate].
Qed.

Lemma ser_cancel_queued reason t k : same_ep_refs k (cancel_queued reason t k).
Proof. unfold cancel_queued. cbv zeta. etrans; [apply ser_upd|apply ser_state]. Qed.

Lemma ser_pop e f q k k' o :
  (forall q p, ep_ref_count (f q p) = ep_ref_count p) ->
  dequeue q k = (o, k') -> same_ep_refs k (upd_ep e (f o.2) k').
Proof.
  intros Hf Hd. pose proof (dequeue_frame q k) as H. rewrite Hd in H. cbn in H.
  etrans; [by eapply ser_frame; [exact H|]|]. by apply ser_upd_ep.
Qed.

Lemma ser_cancel_all e reason k : same_ep_refs k (cancel_all e reason k).
Proof.
  unfold cancel_all. cbv zeta.
  assert (H1 : forall n k, same_ep_refs k (drain_senders n e reason k)).
  { clear. intros n. induction n as [|n IH]; intros k; cbn [drain_senders]; [done|].
    destruct (dequeue _ k) as [[[t|] q] k'] eqn:Hd; [|done].
    apply (ser_pop e set_send_queue_) in Hd; [|done]. cbn [snd] in Hd.
    etrans; [exact Hd|]. etrans; [apply ser_cancel_queued|apply IH]. }
  assert (H2 : forall n k, same_ep_refs k (drain_receivers n e reason k)).
  { clear. intros n. induction n as [|n IH]; intros k; cbn [drain_receivers]; [done|].
    destruct (dequeue _ k) as [[[t|] q] k'] eqn:Hd; [|done].
    apply (ser_pop e set_recv_queue_) in Hd; [|done]. cbn [snd] in Hd.
    etrans; [exact Hd|]. etrans; [apply ser_cancel_queued|]. etrans; [apply ser_recalculate|apply IH]. }
  etrans; [apply (H1 wq_fuel)|]. etrans; [apply (H2 wq_fuel)|].
  set (k0 := drain_receivers _ _ _ _). clearbody k0. generalize (task_indices k0). intros l. revert k0.
  induction l as [|i l IH]; intros k0; cbn [foldl]; [reflexivity|]. etrans; [|apply IH].
  unfold cancel_scan_step. case_decide; [|done]. cbv zeta.
  destruct (_ <? _); [|apply ser_cancel_queued]. etrans; [apply ser_cancel_queued|apply ser_recalculate].
Qed.

Lemma cancel_waiter_obj e t reason k : obj_frame k (cancel_waiter e t reason k).
Proof. by eapply obj_frame_same; [apply cancel_waiter_frame|..|apply ser_cancel_waiter]. Qed.
Lemma cancel_all_obj e reason k : obj_frame k (cancel_all e reason k).
Proof. by eapply obj_frame_same; [apply cancel_all_frame|..|apply ser_cancel_all]. Qed.
Lemma free_task_obj i k : obj_frame k (free_task (Some i) k).
Proof. by eapply obj_frame_same; [apply free_task_frame|..|eapply ser_frame; [apply free_task_frame|]]. Qed.

(** * Reading slots, bitmaps and counts after an update *)

Definition slot_mask (k : Kernel) (i : Z) : Z := occupied_mask (security (tcb k i)).

Lemma slot_frame k k' i j : obj_frame k k' -> slot k' i j = slot k i j.
Proof. intros Hf. unfold slot. by rewrite (of_sec _ _ Hf). Qed.
Lemma mask_frame k k' i : obj_frame k k' -> slot_mask k' i = slot_mask k i.
Proof. intros Hf. unfold slot_mask. by rewrite (of_sec _ _ Hf). Qed.

Lemma slot_upd i f k i' j :
  (forall t, cspace (security (f t)) = cspace (security t)) -> slot (upd i f k) i' j = slot k i' j.
Proof. intros Hf. unfold slot. by rewrite (tcb_upd_frame (fun t => cspace (security t))). Qed.
Lemma mask_upd i f k i' :
  (forall t, occupied_mask (security (f t)) = occupied_mask (security t)) -> slot_mask (upd i f k) i' = slot_mask k i'.
Proof. intros Hf. unfold slot_mask. by rewrite (tcb_upd_frame (fun t => occupied_mask (security t))). Qed.
Lemma refs_upd i f k o : (forall t, ref_count (f t) = ref_count t) -> obj_refs (upd i f k) o = obj_refs k o.
Proof. intros Hf. destruct o; cbn; [|done..]. by rewrite (tcb_upd_frame ref_count). Qed.

Definition is_slot (j : Z) : Prop := 0 <= j < MAX_CSPACE_SLOTS.

(** Every control block has its sixteen slots. *)
Definition slots_len (k : Kernel) : Prop :=
  forall i, valid_task k i -> length (cspace (security (tcb k i))) = 16%nat.

Lemma slot_alter i j f k i' j' :
  valid_task k i -> slots_len k -> is_slot j ->
  slot (alter_slot i j f k) i' j' = if decide (i = i' /\ j = j') then f (slot k i' j') else slot k i' j'.
Proof.
  intros Hv Hl Hj. unfold slot, alter_slot. rewrite tcb_upd by done. case_decide as Hi.
  - subst i'. cbn. rewrite zlookup_zalter.
    + destruct (decide (j = j')); [by rewrite decide_True|]. by rewrite decide_False by naive_solver.
    + unfold in_range. rewrite Hl by done. unfold is_slot, MAX_CSPACE_SLOTS in Hj. lia.
  - rewrite decide_False; [done|naive_solver].
Qed.

Lemma mask_mark i j k i' :
  valid_task k i -> slot_mask (mark_slot i j k) i' = if decide (i = i') then bit_set (slot_mask k i') j else slot_mask k i'.
Proof. intros Hv. unfold slot_mask, mark_slot. rewrite tcb_upd by done. by case_decide. Qed.
Lemma mask_unmark i j k i' :
  valid_task k i -> slot_mask (unmark_slot i j k) i' = if decide (i = i') then bit_clear (slot_mask k i') j else slot_mask k i'.
Proof. intros Hv. unfold slot_mask, unmark_slot. rewrite tcb_upd by done. by case_decide. Qed.

Lemma slots_len_upd i f k :
  (forall t, length (cspace (security (f t))) = length (cspace (security t))) -> slots_len k -> slots_len (upd i f k).
Proof.
  intros Hf Hl j Hj. rewrite (tcb_upd_frame (fun t => length (cspace (security t)))) by done.
  apply Hl, (valid_task_upd i f), Hj.
Qed.

Lemma slots_len_alter i j f k : slots_len k -> slots_len (alter_slot i j f k).
Proof. apply slots_len_upd. intros t. cbn. by rewrite length_zalter. Qed.

Definition obj_valid (k : Kernel) (o : ObjRef) : Prop :=
  match o with ObjTask i => valid_task k i | _ => True end.

Lemma refs_set_obj_refs o v k o' :
  obj_valid k o -> obj_refs (set_obj_refs o v k) o' = if decide (o = o') then v else obj_refs k o'.
Proof.
  intros Hv. destruct o as [i|e|x], o' as [i'|e'|x']; cbn [set_obj_refs obj_refs];
    rewrite ?ep_upd_ep; try (by rewrite decide_False by done); try done.
  - rewrite tcb_upd by done. repeat case_decide; naive_solver.
  - repeat case_decide; naive_solver.
  - cbn. rewrite lookup_insert. repeat case_decide; naive_solver.
Qed.

Lemma sec_set_obj_refs o v k i : security (tcb (set_obj_refs o v k) i) = security (tcb k i).
Proof. destruct o; cbn [set_obj_refs]; [|done..]. by apply (tcb_upd_frame security). Qed.

Lemma len_set_obj_refs o v k :
  length (tasks (set_obj_refs o v k)) = length (tasks k) /\ task_count (set_obj_refs o v k) = task_count k.
Proof. destruct o; cbn [set_obj_refs]; try done. by rewrite length_tasks_upd. Qed.

Lemma destroy_obj o k : obj_frame k (destroy o k).
Proof. destruct o; cbn; [apply free_task_obj|apply cancel_all_obj|done]. Qed.

(** [k'] differs from [k] in the reference count of [o] by [d]. *)
Record refs_change (o : ObjRef) (d : Z) (k k' : Kernel) : Prop := {
  rc_len : length (tasks k') = length (tasks k);
  rc_count : task_count k' = task_count k;
  rc_sec : forall i, security (tcb k' i) = security (tcb k i);
  rc_refs : forall o', obj_refs k' o' = obj_refs k o' + if decide (o = o') then d else 0;
}.

Lemma retain_change o k :
  obj_valid k o -> 0 <= obj_refs k o < u32_max -> refs_change o 1 k (retain o k).
Proof.
  intros Hv Hr. unfold retain. destruct (len_set_obj_refs o (wrap32 (obj_refs k o + 1)) k).
  split; [done|done|apply sec_set_obj_refs|]. intros o'. rewrite refs_set_obj_refs by done. case_decide; [subst|lia].
  rewrite wrap32_small; [done|]. unfold is_u32, u32_max in *. lia.
Qed.

Lemma release_change o k : obj_valid k o -> 0 < obj_refs k o -> refs_change o (-1) k (release o k).
Proof.
  intros Hv Hr. unfold release. destruct (Z.ltb_spec 0 (obj_refs k o)); [|lia]. cbv zeta.
  set (k1 := set_obj_refs o _ k). assert (H1 : refs_change o (-1) k k1).
  { destruct (len_set_obj_refs o (obj_refs k o - 1) k).
    split; [done|done|apply sec_set_obj_refs|]. intros o'. unfold k1. rewrite refs_set_obj_refs by done.
    case_decide; [subst|]; lia. }
  destruct (_ =? 0); [|done]. destruct H1 as [L C S R]. destruct (destroy_obj o k1) as [L' C' S' R'].
  split; [congruence|congruence|..]; intros; [by rewrite S'|by rewrite R'].
Qed.

Lemma cancel_if_waiting_obj t o k : obj_frame k (cancel_if_waiting t o k).
Proof.
  unfold cancel_if_waiting. destruct (as_endpoint o); [|done]. case_decide; [apply cancel_waiter_obj|done].
Qed.

Lemma drop_object_change t ty o k :
  obj_valid k o -> 0 < obj_refs k o -> refs_change o (-1) k (drop_object t ty o k).
Proof.
  intros Hv Hr. unfold drop_object. set (k1 := if decide _ then _ else k).
  assert (H1 : obj_frame k k1) by (unfold k1; case_decide; [apply cancel_if_waiting_obj|done]).
  destruct (release_change o k1) as [L C S R].
  - destruct o; try done. cbn in *. unfold valid_task, in_range in *. by rewrite (of_len _ _ H1).
  - by rewrite (of_refs _ _ H1).
  - destruct H1 as [L' C' S' R']. split; [congruence|congruence|..]; intros; [by rewrite S|by rewrite R, R'].
Qed.

Lemma slot_change o d k k' i j : refs_change o d k k' -> slot k' i j = slot k i j.
Proof. intros Hf. unfold slot. by rewrite (rc_sec _ _ _ _ Hf). Qed.
Lemma mask_change o d k k' i : refs_change o d k k' -> slot_mask k' i = slot_mask k i.
Proof. intros Hf. unfold slot_mask. by rewrite (rc_sec _ _ _ _ Hf). Qed.

(** * The invariant *)

(** The slots of the task table, and how many of them refer to [o]. *)
Definition all_slots : list (Z * Z) := list_prod (seqZ 0 MAX_TASKS) slots.

Definition points_to (o : ObjRef) (c : Capability) : Z :=
  if decide (cap_type c <> CapNull /\ cap_object c = Some o) then 1 else 0.

Definition caps_to (k : Kernel) (o : ObjRef) : Z :=
  zsum (fun p => points_to o (slot k p.1 p.2)) all_slots.

(** A null capability names no object, a task capability names a task, an
    endpoint capability an endpoint. *)
Record cap_wf (k : Kernel) (c : Capability) : Prop := {
  cw_null : cap_type c = CapNull -> cap_object c = None;
  cw_task : forall i, cap_object c = Some (ObjTask i) -> is_task k i;
  cw_ep : forall o, cap_type c = CapEndpoint -> cap_object c = Some o -> exists e, o = ObjEndpoint e;
}.

Record caps_ok (k : Kernel) : Prop := {
  co_len : slots_len k;
  co_wf : forall i j, cap_wf k (slot k i j);
  co_mask : forall i, valid_task k i -> 0 <= slot_mask k i < 2 ^ 16;
  co_bit : forall i j, valid_task k i -> is_slot j ->
    Z.testbit (slot_mask k i) j = bool_decide (cap_type (slot k i j) <> CapNull);
  co_refs : forall o, caps_to k o <= obj_refs k o < 2 ^ 32;
}.

Record cap_state (k : Kernel) : Prop := {
  cs_kernel : kernel_ok k;
  cs_caps : caps_ok k;
}.

Lemma all_slots_NoDup : NoDup all_slots.
Proof. apply (bool_decide_unpack _). by vm_compute. Qed.

Lemma elem_of_all_slots i j : (i, j) ∈ all_slots <-> 0 <= i < MAX_TASKS /\ is_slot j.
Proof.
  unfold all_slots, slots, is_slot. rewrite list_elem_of_In, in_prod_iff, <- !list_elem_of_In, !elem_of_seqZ. lia.
Qed.

Lemma points_to_nonneg o c : 0 <= points_to o c.
Proof. unfold points_to. case_decide; lia. Qed.

(** ** Changing one slot *)

(** [k'] is [k] with slot [(i, j)] set to [c], its bit set accordingly, and the
    reference counts adjusted for the capability that went and the one that came. *)
Record slot_update (i j : Z) (c : Capability) (k k' : Kernel) : Prop := {
  up_len : length (tasks k') = length (tasks k);
  up_count : task_count k' = task_count k;
  up_slots : slots_len k';
  up_slot : forall i' j', slot k' i' j' = if decide (i = i' /\ j = j') then c else slot k i' j';
  up_mask : forall i', slot_mask k' i' = if decide (i = i') then
      (if decide (cap_type c = CapNull) then bit_clear (slot_mask k i') j else bit_set (slot_mask k i') j)
    else slot_mask k i';
  up_refs : forall o, obj_refs k' o = obj_refs k o - points_to o (slot k i j) + points_to o c;
}.

Lemma caps_to_update i j c k k' o :
  0 <= i < MAX_TASKS -> is_slot j -> slot_update i j c k k' ->
  caps_to k' o = caps_to k o - points_to o (slot k i j) + points_to o c.
Proof.
  intros Hi Hj Hu. unfold caps_to.
  rewrite (zsum_update (fun p => points_to o (slot k p.1 p.2)) _ all_slots (i, j)).
  - cbn. by rewrite (up_slot _ _ _ _ _ Hu), decide_True.
  - apply all_slots_NoDup.
  - by apply elem_of_all_slots.
  - intros [i' j'] _ Hne. cbn. rewrite (up_slot _ _ _ _ _ Hu), decide_False; [done|]. naive_solver.
Qed.

Lemma cap_wf_count k k' c : task_count k' = task_count k -> cap_wf k c -> cap_wf k' c.
Proof. intros Hc [H1 H2 H3]. split; [done| |done]. intros i Hi. unfold is_task. rewrite Hc. by apply H2. Qed.

Lemma caps_ok_update i j c k k' :
  caps_ok k -> valid_task k i -> length (tasks k) = 16%nat -> is_slot j -> slot_update i j c k k' ->
  cap_wf k c -> (forall o, obj_refs k' o < 2 ^ 32) -> caps_ok k'.
Proof.
  intros Hk Hv Hl Hj Hu Hwf Hb.
  assert (Hval : forall i', valid_task k' i' -> valid_task k i').
  { intros i'. unfold valid_task, in_range. by rewrite (up_len _ _ _ _ _ Hu). }
  split; [apply Hu|..].
  - intros i' j'. rewrite (up_slot _ _ _ _ _ Hu). apply (cap_wf_count k); [apply Hu|].
    case_decide; [done|apply Hk].
  - intros i' Hi'. rewrite (up_mask _ _ _ _ _ Hu). pose proof (co_mask _ Hk i' (Hval _ Hi')) as Hm.
    repeat case_decide; try done; [apply bit_clear_range|apply bit_set_range]; done.
  - intros i' j' Hi' Hj'. rewrite (up_mask _ _ _ _ _ Hu), (up_slot _ _ _ _ _ Hu).
    pose proof (co_bit _ Hk i' j' (Hval _ Hi') Hj') as Hbit. unfold is_slot, MAX_CSPACE_SLOTS in *.
    destruct (decide (i = i')) as [<-|Hne]; [|rewrite decide_False by naive_solver; done].
    destruct (decide (cap_type c = CapNull)) as [Hn|Hn];
      rewrite ?bit_clear_testbit, ?bit_set_testbit by lia; destruct (Z.eqb_spec j j') as [<-|Hj2]; cbn.
    + rewrite decide_True by done. by rewrite bool_decide_false by (intros []; done).
    + by rewrite decide_False by naive_solver.
    + rewrite decide_True by done. by rewrite bool_decide_true.
    + by rewrite decide_False by naive_solver.
  - intros o. rewrite (caps_to_update i j c k k' o) by (done || (unfold valid_task, in_range, MAX_TASKS in *; lia)).
    split; [|apply Hb]. rewrite (up_refs _ _ _ _ _ Hu). pose proof (co_refs _ Hk o). lia.
Qed.

Lemma slot_update_trans i j c1 c2 k k1 k2 :
  0 <= j -> slot_update i j c1 k k1 -> slot_update i j c2 k1 k2 ->
  slot_update i j c2 k k2.
Proof.
  intros Hj [L1 C1 N1 S1 M1 R1] [L2 C2 N2 S2 M2 R2]. split; [congruence|congruence|done|..].
  - intros i' j'. rewrite S2, S1. by destruct (decide (i = i' /\ j = j')).
  - intros i'. rewrite M2, M1. destruct (decide (i = i')); [|done].
    apply (fun H => Z.bits_inj' _ _ H). intros n Hn.
    destruct (decide (cap_type c1 = CapNull)), (decide (cap_type c2 = CapNull));
      rewrite ?bit_clear_testbit, ?bit_set_testbit, ?bit_clear_testbit, ?bit_set_testbit by lia;
      by destruct (j =? n).
  - intros o. rewrite R2, R1, S1, decide_True by done. lia.
Qed.

Lemma points_to_refs k i j o :
  caps_ok k -> 0 <= i < MAX_TASKS -> is_slot j -> points_to o (slot k i j) <= obj_refs k o.
Proof.
  intros Hk Hi Hj. etrans; [|apply (co_refs _ Hk o)].
  apply (zsum_member (fun p => points_to o (slot k p.1 p.2)) all_slots (i, j)).
  - intros p. apply points_to_nonneg.
  - by apply elem_of_all_slots.
Qed.

(** ** The scheduler and IPC invariants survive *)

Definition obj_task (k : Kernel) (o : ObjRef) : Prop :=
  match o with ObjTask i => is_task k i | _ => True end.

Lemma kernel_ok_sec i f k :
  (forall t, (task (f t), scheduler (f t), memory (f t), ipc (f t)) = (task t, scheduler t, memory t, ipc t)) ->
  kernel_ok k -> kernel_ok (upd i f k).
Proof.
  intros Hf. apply kernel_ok_upd; intros t; specialize (Hf t); injection Hf as _ H1 _ H2;
    unfold stable_view, sched_view, link_view, wait_view; by rewrite ?H1, ?H2.
Qed.

Lemma set_obj_refs_ok o v k : kernel_ok k -> kernel_ok (set_obj_refs o v k).
Proof.
  intros Hk. destruct o as [i|e|x]; cbn [set_obj_refs].
  - by apply kernel_ok_sec.
  - destruct Hk as [[LQ HI] Hp Hc]. split; [|done|done]. exists LQ. apply (ipc_inv_ext HI); try done.
    + apply (sched_ok_env k); try done. apply HI.
    + intros e' r. rewrite ep_upd_ep. by case_decide; destruct r.
    + by left.
  - apply (kernel_ok_env k); try done. apply Hk.
Qed.

Lemma release_ok o k : kernel_ok k -> obj_task k o -> kernel_ok (release o k).
Proof.
  intros Hk Ho. unfold release. destruct (0 <? _); [|done]. cbv zeta.
  pose proof (set_obj_refs_ok o (obj_refs k o - 1) k Hk) as H1.
  destruct (_ =? 0); [|done]. destruct o; cbn [destroy]; [|by apply cancel_all_ok|done].
  by apply free_task_ok.
Qed.

Lemma drop_object_ok t ty o k :
  kernel_ok k -> is_task k t -> obj_task k o -> kernel_ok (drop_object t ty o k).
Proof.
  intros Hk Ht Ho. unfold drop_object.
  assert (H : kernel_ok (cancel_if_waiting t o k) /\ obj_task (cancel_if_waiting t o k) o).
  { unfold cancel_if_waiting. destruct (as_endpoint o) as [e|]; [|done]. case_decide; [|done]. split.
    - apply cancel_waiter_ok; [done|done|by right].
    - destruct o; try done. cbn [obj_task] in *. unfold is_task. by rewrite (of_count _ _ (cancel_waiter_obj e (Some t) IpcNoPermission k)). }
  destruct H as [H1 H2]. destruct (decide _); by apply release_ok.
Qed.

Lemma retain_opt_ok o k : kernel_ok k -> kernel_ok (retain_opt o k).
Proof. intros Hk. destruct o; [|done]. by apply set_obj_refs_ok. Qed.

Lemma cap_delete_kernel_ok t s k :
  kernel_ok k -> caps_ok k -> is_task k t -> kernel_ok (cap_delete (Some t) s k).2.
Proof.
  intros Hk Hc Ht. unfold cap_delete. destruct (is_valid_slot s); [|done]. cbv zeta. cbn [snd].
  do 2 (apply kernel_ok_sec; [done|]). destruct (cap_object _) as [o|] eqn:Ho; [|done].
  case_decide; [done|]. apply drop_object_ok; [done|done|].
  destruct o; try done. exact (cw_task _ _ (co_wf _ Hc t s) _ Ho).
Qed.

Lemma copy_cap_kernel_ok t s d ds req bdg k :
  kernel_ok k -> caps_ok k -> is_task k d -> kernel_ok (copy_cap t s d ds req bdg k).
Proof.
  intros Hk Hc Ht. unfold copy_cap. cbv zeta. do 2 (apply kernel_ok_sec; [done|]). apply retain_opt_ok.
  apply kernel_ok_sec; [done|]. by apply cap_delete_kernel_ok.
Qed.

(** ** [cap_delete], [cap_insert] and copying *)

Lemma is_slot_valid s : 0 <= s -> is_valid_slot s = true <-> is_slot s.
Proof. intros. unfold is_valid_slot, is_slot. rewrite Z.ltb_lt. lia. Qed.

Section OneSlot.
Context {k : Kernel} (Hk : caps_ok k) (Hlen : length (tasks k) = 16%nat).

Lemma task_index i : valid_task k i -> 0 <= i < MAX_TASKS.
Proof. unfold valid_task, in_range, MAX_TASKS. rewrite Hlen. lia. Qed.

Lemma held_refs i j o :
  valid_task k i -> is_slot j -> cap_type (slot k i j) <> CapNull -> cap_object (slot k i j) = Some o ->
  0 < obj_refs k o.
Proof.
  intros Hi Hj Ht Ho. pose proof (points_to_refs k i j o Hk (task_index i Hi) Hj) as H.
  unfold points_to in H. rewrite decide_True in H by done. lia.
Qed.

Lemma held_valid i j o :
  sched_ok k -> cap_object (slot k i j) = Some o -> obj_valid k o.
Proof.
  intros Hs Ho. destruct o; try done. apply sched_ok_valid; [done|].
  exact (cw_task _ _ (co_wf _ Hk i j) _ Ho).
Qed.

Lemma cap_delete_update t s :
  sched_ok k -> valid_task k t -> is_slot s ->
  (cap_delete (Some t) s k).1 = true /\
  slot_update t s (nullify (slot k t s)) k (cap_delete (Some t) s k).2.
Proof.
  intros Hs Ht Hslot. unfold cap_delete. pose proof Hslot as Hsv.
  apply is_slot_valid in Hsv as ->; [|apply Hslot]. split; [done|]. cbn [snd]. cbv zeta.
  match goal with |- context [alter_slot t s nullify ?K] => set (k1 := K) end.
  assert (H1 : length (tasks k1) = length (tasks k) /\ task_count k1 = task_count k /\
    (forall i, security (tcb k1 i) = security (tcb k i)) /\
    forall o, obj_refs k1 o = obj_refs k o - points_to o (slot k t s)).
  { unfold k1. destruct (cap_object (slot k t s)) as [o|] eqn:Ho.
    - destruct (decide (cap_type (slot k t s) = CapNull)) as [Hn|Hn].
      + do 3 (split; [done|]). intros o'. unfold points_to. rewrite decide_False by naive_solver. lia.
      + destruct (drop_object_change t (cap_type (slot k t s)) o k) as [L C S R].
        * by apply (held_valid t s).
        * by apply (held_refs t s).
        * do 3 (split; [done|]). intros o'. rewrite R. unfold points_to. rewrite Ho.
          repeat case_decide; naive_solver lia.
    - do 3 (split; [done|]). intros o'. unfold points_to. rewrite decide_False by naive_solver. lia. }
  destruct H1 as (L & C & S & R).
  assert (Hl1 : slots_len k1).
  { intros i Hi. rewrite S. apply Hk. unfold valid_task, in_range in *. by rewrite <- L. }
  assert (Ht1 : valid_task k1 t) by (unfold valid_task, in_range in *; by rewrite L).
  assert (Ht2 : valid_task (alter_slot t s nullify k1) t) by by apply valid_task_upd.
  assert (Hsl : forall i j, slot k1 i j = slot k i j) by (intros; unfold slot; by rewrite S).
  split.
  - unfold unmark_slot, alter_slot. by rewrite !length_tasks_upd.
  - done.
  - by apply slots_len_upd, slots_len_alter.
  - intros i j. unfold unmark_slot. rewrite slot_upd by done. rewrite slot_alter by done. rewrite Hsl.
    case_decide as E; [by destruct E as [<- <-]|done].
  - intros i. rewrite mask_unmark by done. unfold alter_slot. rewrite mask_upd by done.
    unfold slot_mask. rewrite S. by case_decide.
  - intros o. unfold unmark_slot, alter_slot. rewrite !refs_upd by done. rewrite R.
    unfold points_to at 3. rewrite decide_False by (intros [? ?]; done). lia.
Qed.
End OneSlot.

Lemma retain_opt_change o k :
  (forall x, o = Some x -> obj_valid k x /\ 0 <= obj_refs k x < u32_max) ->
  length (tasks (retain_opt o k)) = length (tasks k) /\ task_count (retain_opt o k) = task_count k /\
  (forall i, security (tcb (retain_opt o k) i) = security (tcb k i)) /\
  forall x, obj_refs (retain_opt o k) x = obj_refs k x + if decide (o = Some x) then 1 else 0.
Proof.
  intros Hv. destruct o as [o|]; cbn [retain_opt].
  - destruct (Hv o eq_refl) as [H1 H2]. destruct (retain_change o k H1 H2) as [L C S R].
    do 3 (split; [done|]). intros x. rewrite R. repeat case_decide; naive_solver lia.
  - do 3 (split; [done|]). intros x. rewrite decide_False by done. lia.
Qed.

(** Filling an empty slot: the capability is written, its object retained, its
    rights and badge completed, its bit set. *)
Lemma fill_update f g d s c k :
  slots_len k -> valid_task k d -> is_slot s -> cap_type (slot k d s) = CapNull ->
  g (f (slot k d s)) = c -> cap_object c = cap_object (f (slot k d s)) -> cap_type c <> CapNull ->
  (forall x, cap_object c = Some x -> obj_valid k x /\ 0 <= obj_refs k x < u32_max) ->
  slot_update d s c k
    (mark_slot d s (alter_slot d s g (retain_opt (cap_object c) (alter_slot d s f k)))).
Proof.
  intros Hl Hd Hs Hn Hc Hobj Ht Hv. set (k1 := alter_slot d s f k).
  destruct (retain_opt_change (cap_object c) k1) as (L & C & S & R).
  { intros x Hx. destruct (Hv x Hx) as [H1 H2]. unfold k1, alter_slot. rewrite refs_upd by done.
    split; [|done]. destruct x; try done. cbn [obj_valid] in *. by apply valid_task_upd. }
  set (k2 := retain_opt (cap_object c) k1) in *.
  assert (Hl2 : slots_len k2).
  { intros i Hi. rewrite S. apply (slots_len_alter d s f k Hl). change (valid_task k1 i).
    unfold valid_task, in_range in *. by rewrite <- L. }
  assert (Hd1 : valid_task k1 d) by by apply valid_task_upd.
  assert (Hd2 : valid_task k2 d) by (unfold valid_task, in_range in *; by rewrite L).
  assert (Hsl : forall i j, slot k2 i j = slot k1 i j) by (intros; unfold slot; by rewrite S).
  split.
  - transitivity (length (tasks k2)); [|rewrite L; apply length_tasks_upd].
    unfold mark_slot, alter_slot at 1. by rewrite !length_tasks_upd.
  - exact C.
  - by apply slots_len_upd, slots_len_alter.
  - intros i j. unfold mark_slot. rewrite slot_upd by done. rewrite slot_alter by done. rewrite Hsl.
    unfold k1. rewrite slot_alter by done. destruct (decide (d = i /\ s = j)) as [[<- <-]|]; done.
  - intros i. rewrite mask_mark by by apply valid_task_upd. unfold alter_slot at 1 2. rewrite mask_upd by done.
    rewrite (decide_False (P := cap_type c = CapNull)) by done.
    unfold slot_mask. rewrite S. unfold k1, alter_slot. by rewrite (tcb_upd_frame (fun t => occupied_mask (security t))).
  - intros o. unfold mark_slot, alter_slot at 1. rewrite !refs_upd by done. rewrite R.
    unfold k1, alter_slot. rewrite refs_upd by done. unfold points_to. rewrite Hn.
    rewrite (decide_False (P := CapNull <> CapNull /\ _)) by naive_solver.
    repeat case_decide; naive_solver lia.
Qed.

Lemma cap_len k : cap_state k -> length (tasks k) = 16%nat.
Proof. intros Hk. pose proof (sched_ok_len _ (kernel_ok_sched _ (cs_kernel _ Hk))) as H. unfold MAX_TASKS in H. lia. Qed.

Lemma cap_task_valid k i : cap_state k -> is_task k i -> valid_task k i.
Proof. intros Hk. apply sched_ok_valid, kernel_ok_sched, Hk. Qed.

Lemma wf_nullify k c : cap_wf k (nullify c).
Proof. by split. Qed.

(** A capability space stays well formed when one slot changes. *)
Lemma cap_state_update i j c k k' :
  cap_state k -> is_task k i -> is_slot j -> slot_update i j c k k' -> kernel_ok k' -> cap_wf k c ->
  (forall o, obj_refs k' o < 2 ^ 32) -> cap_state k'.
Proof.
  intros Hk Hi Hj Hu Hk' Hwf Hb. split; [done|].
  apply (caps_ok_update i j c k); try done; [apply Hk|by apply cap_task_valid|by apply cap_len].
Qed.

Lemma cap_delete_spec t s k :
  cap_state k -> is_task k t -> is_slot s ->
  slot_update t s (nullify (slot k t s)) k (cap_delete (Some t) s k).2 /\ cap_state (cap_delete (Some t) s k).2.
Proof.
  intros Hk Ht Hs. pose proof Hk as [Hker Hc].
  destruct (cap_delete_update Hc (cap_len _ Hk) t s) as [_ Hu];
    [by apply kernel_ok_sched|by apply cap_task_valid|done|]. split; [done|].
  apply (cap_state_update t s (nullify (slot k t s)) k); try done.
  - by apply cap_delete_kernel_ok.
  - intros o. rewrite (up_refs _ _ _ _ _ Hu). pose proof (co_refs _ Hc o).
    pose proof (points_to_nonneg o (slot k t s)). unfold points_to at 2.
    rewrite decide_False by (intros [? ?]; done). lia.
Qed.

Lemma refs_nonneg k o : caps_ok k -> 0 <= obj_refs k o.
Proof.
  intros Hk. etrans; [|apply (co_refs _ Hk o)]. apply zsum_nonneg. intros p. apply points_to_nonneg.
Qed.

(** The object can take one more reference. *)
Definition can_retain (k : Kernel) (o : option ObjRef) : Prop :=
  forall x, o = Some x -> obj_task k x /\ obj_refs k x < u32_max.

(** Emptying a slot and filling it again. *)
Lemma refill_spec f g d s c k :
  cap_state k -> is_task k d -> is_slot s ->
  let k1 := (cap_delete (Some d) s k).2 in
  g (f (slot k1 d s)) = c -> cap_object c = cap_object (f (slot k1 d s)) -> cap_type c <> CapNull ->
  cap_wf k c -> can_retain k (cap_object c) ->
  let k2 := mark_slot d s (alter_slot d s g (retain_opt (cap_object c) (alter_slot d s f k1))) in
  slot_update d s c k k2 /\ cap_state k2.
Proof.
  intros Hk Hd Hs k1 Hc Ho Ht Hwf Hr k2.
  destruct (cap_delete_spec d s k Hk Hd Hs) as [Hu1 Hk1]. fold k1 in Hu1, Hk1.
  assert (Hd1 : is_task k1 d) by (unfold is_task; by rewrite (up_count _ _ _ _ _ Hu1)).
  assert (Hle : forall o, obj_refs k1 o <= obj_refs k o).
  { intros o. rewrite (up_refs _ _ _ _ _ Hu1). pose proof (points_to_nonneg o (slot k d s)).
    unfold points_to at 2. rewrite decide_False by (intros [? ?]; done). lia. }
  assert (Hu2 : slot_update d s c k1 k2).
  { apply fill_update; try done; [apply Hk1|by apply cap_task_valid| |].
    - by rewrite (up_slot _ _ _ _ _ Hu1), decide_True.
    - intros x Hx. destruct (Hr x Hx) as [H1 H2]. split.
      + destruct x; try done. apply cap_task_valid; [done|]. cbn [obj_task] in H1.
        unfold is_task. by rewrite (up_count _ _ _ _ _ Hu1).
      + pose proof (refs_nonneg k1 x (cs_caps _ Hk1)). specialize (Hle x). lia. }
  split; [by eapply slot_update_trans; [apply Hs|done|done]|].
  apply (cap_state_update d s c k1); try done.
  - do 2 (apply kernel_ok_sec; [done|]). apply retain_opt_ok. apply kernel_ok_sec; [done|]. apply Hk1.
  - apply (cap_wf_count k); [apply Hu1|done].
  - intros o. rewrite (up_refs _ _ _ _ _ Hu2). pose proof (co_refs _ (cs_caps _ Hk1) o).
    pose proof (points_to_nonneg o (slot k1 d s)). unfold points_to at 2. case_decide as E; [|lia].
    destruct (Hr o) as [_ H2]; [by destruct E|]. specialize (Hle o). unfold u32_max in H2. lia.
Qed.

Lemma copy_cap_spec t s d ds req bdg k :
  cap_state k -> is_task k d -> is_slot ds -> (t, s) <> (d, ds) ->
  cap_type (slot k t s) <> CapNull -> can_retain k (cap_object (slot k t s)) ->
  slot_update d ds (mkCap (cap_type (slot k t s)) req bdg (cap_object (slot k t s))) k
    (copy_cap t s d ds req bdg k) /\
  cap_state (copy_cap t s d ds req bdg k).
Proof.
  intros Hk Hd Hs Hne Ht Hr. unfold copy_cap. cbv zeta.
  destruct (cap_delete_spec d ds k Hk Hd Hs) as [Hu1 Hk1].
  set (k1 := (cap_delete (Some d) ds k).2) in *.
  assert (Hsrc : slot k1 t s = slot k t s).
  { rewrite (up_slot _ _ _ _ _ Hu1), decide_False; [done|]. intros [-> ->]. done. }
  assert (Hd1 : valid_task k1 d).
  { apply cap_task_valid; [done|]. unfold is_task. by rewrite (up_count _ _ _ _ _ Hu1). }
  rewrite Hsrc.
  rewrite (slot_alter d ds _ k1 d ds), decide_True by (done || apply Hk1). cbn [cap_object set_cap_object].
  apply (refill_spec (fun c => set_cap_object (cap_object (slot k t s)) (set_cap_type (cap_type (slot k t s)) c))
    (fun c => set_cap_badge bdg (set_cap_rights req c)) d ds
    (mkCap (cap_type (slot k t s)) req bdg (cap_object (slot k t s)))); try done.
  destruct (co_wf _ (cs_caps _ Hk) t s) as [H1 H2 H3]. by split.
Qed.

Lemma alter_slot_id d s k : alter_slot d s (fun c => c) k = k.
Proof.
  unfold alter_slot. apply upd_id. destruct (tcb k d) as [? ? ? ? ? []]. cbn. unfold zalter.
  destruct (0 <=? s); [|done]. by rewrite list_alter_id.
Qed.

Lemma cap_insert_spec t s cap k :
  cap_state k -> is_task k t -> is_slot s -> cap_type cap <> CapNull -> cap_wf k cap ->
  can_retain k (cap_object cap) ->
  (cap_insert (Some t) s cap k).1 = true /\
  slot_update t s cap k (cap_insert (Some t) s cap k).2 /\ cap_state (cap_insert (Some t) s cap k).2.
Proof.
  intros Hk Ht Hs Hn Hwf Hr. unfold cap_insert. pose proof Hs as Hsv.
  apply is_slot_valid in Hsv as ->; [|apply Hs]. rewrite bool_decide_false by done. cbn [negb orb fst snd].
  split; [done|]. cbv zeta.
  rewrite <- (alter_slot_id t s (retain_opt _ _)).
  by apply (refill_spec (fun _ => cap) (fun c => c) t s cap).
Qed.

(** ** [cap_lookup] and [cap_revoke] *)

Lemma bit_set_id m j : 0 <= j -> Z.testbit m j = true -> bit_set m j = m.
Proof.
  intros Hj Hb. apply Z.bits_inj'. intros n Hn. rewrite bit_set_testbit by done.
  by destruct (Z.eqb_spec j n) as [<-|].
Qed.
Lemma bit_clear_id m j : 0 <= j -> Z.testbit m j = false -> bit_clear m j = m.
Proof.
  intros Hj Hb. apply Z.bits_inj'. intros n Hn. rewrite bit_clear_testbit by done.
  by destruct (Z.eqb_spec j n) as [<-|].
Qed.

(** With a correct bitmap, synchronising a bit changes nothing. *)
Lemma sync_slot_id i j k : caps_ok k -> valid_task k i -> is_slot j -> sync_slot i k j = k.
Proof.
  intros Hk Hi Hj. pose proof (co_bit _ Hk i j Hi Hj) as Hb. unfold sync_slot, slot_mask in *.
  case_decide as Hn; apply upd_id; destruct (tcb k i) as [? ? ? ? ? []]; cbn in *.
  - by rewrite bit_clear_id by (apply Hj || done).
  - by rewrite bit_set_id by (apply Hj || done).
Qed.

Lemma sync_mask_id i k : caps_ok k -> valid_task k i -> sync_mask i k = k.
Proof.
  intros Hk Hi. unfold sync_mask. assert (Hs : forall j, j ∈ slots -> is_slot j).
  { intros j. unfold slots, is_slot. rewrite elem_of_seqZ. lia. }
  revert Hs. generalize slots. intros l. induction l as [|j l IH]; intros Hs; cbn [foldl]; [done|].
  rewrite sync_slot_id by (done || apply Hs; set_solver). apply IH. set_solver.
Qed.

Lemma cap_lookup_spec t s k :
  caps_ok k -> valid_task k t -> is_slot s ->
  cap_lookup (Some t) s k =
  (if decide (cap_type (slot k t s) = CapNull) then None else Some (slot k t s), k).
Proof.
  intros Hk Ht Hs. unfold cap_lookup. pose proof Hs as Hsv.
  apply is_slot_valid in Hsv as ->; [|apply Hs]. cbv zeta.
  pose proof (sync_slot_id t s k Hk Ht Hs) as Hid. unfold sync_slot in Hid.
  case_decide; by rewrite Hid.
Qed.

(** Ownership not accounted for by capabilities. *)
Definition balance (k : Kernel) (o : ObjRef) : Z := obj_refs k o - caps_to k o.

Lemma balance_update i j c k k' o :
  cap_state k -> is_task k i -> is_slot j -> slot_update i j c k k' -> balance k' o = balance k o.
Proof.
  intros Hk Hi Hj Hu. unfold balance. rewrite (up_refs _ _ _ _ _ Hu).
  rewrite (caps_to_update i j c k k') by (done || by apply (task_index (cap_len _ Hk)), cap_task_valid).
  lia.
Qed.

(** [k'] is [k] with the capabilities for [target] in the slots of [P] revoked. *)
Record revokes (P : Z -> Z -> bool) (target : ObjRef) (k k' : Kernel) : Prop := {
  rv_state : cap_state k';
  rv_count : task_count k' = task_count k;
  rv_slot : forall i j, slot k' i j =
    if P i j && bool_decide (cap_object (slot k i j) = Some target) then nullify (slot k i j) else slot k i j;
  rv_balance : forall o, balance k' o = balance k o;
}.

Lemma revokes_ext P Q target k k' :
  (forall i j, cap_object (slot k i j) = Some target -> P i j = Q i j) ->
  revokes P target k k' -> revokes Q target k k'.
Proof.
  intros HPQ [S C L B]. split; try done. intros i j. rewrite L. case_bool_decide as E; [|by rewrite !andb_false_r].
  by rewrite (HPQ i j E).
Qed.

Lemma revokes_refl target k : cap_state k -> revokes (fun _ _ => false) target k k.
Proof. by split. Qed.

Lemma revokes_trans P Q target k1 k2 k3 :
  revokes P target k1 k2 -> revokes Q target k2 k3 -> revokes (fun i j => P i j || Q i j) target k1 k3.
Proof.
  intros [S1 C1 L1 B1] [S2 C2 L2 B2]. split; [done|congruence| |].
  - intros i j. rewrite L2, L1. destruct (bool_decide (cap_object (slot k1 i j) = Some target)) eqn:E.
    + destruct (P i j); cbn; [|by rewrite E]. by rewrite andb_false_r.
    + by rewrite !andb_false_r, E, andb_false_r.
  - intros o. by rewrite B2.
Qed.

(** Revoking in one slot is deleting it when it names the object. *)
Lemma revoke_slot_spec i target j k :
  cap_state k -> is_task k i -> is_slot j ->
  revokes (fun i' j' => (i' =? i) && (j' =? j)) target k (revoke_slot i target j k).
Proof.
  intros Hk Hi Hj. unfold revoke_slot. destruct (decide (cap_object (slot k i j) = Some target)) as [E|E].
  - assert (Hn : cap_type (slot k i j) <> CapNull).
    { intros Hn. rewrite (cw_null _ _ (co_wf _ (cs_caps _ Hk) i j) Hn) in E. done. }
    destruct (cap_delete_spec i j k Hk Hi Hj) as [Hu Hs].
    assert (Heq : (cap_delete (Some i) j k).2 =
      unmark_slot i j (alter_slot i j nullify (drop_object i (cap_type (slot k i j)) target k))).
    { unfold cap_delete. pose proof Hj as Hsv. apply is_slot_valid in Hsv as ->; [|apply Hj].
      cbv zeta. by rewrite E, decide_False. }
    rewrite <- Heq. split; [done|apply Hu| |].
    + intros i' j'. rewrite (up_slot _ _ _ _ _ Hu).
      destruct (Z.eqb_spec i' i) as [->|], (Z.eqb_spec j' j) as [->|];
        try (rewrite decide_False by naive_solver; done).
      by rewrite decide_True, bool_decide_true.
    + intros o. by apply (balance_update i j (nullify (slot k i j))).
  - apply (revokes_ext (fun _ _ => false)); [|by apply revokes_refl].
    intros i' j' E'. destruct (Z.eqb_spec i' i) as [->|], (Z.eqb_spec j' j) as [->|]; done.
Qed.

Lemma revoke_loop_spec fuel i target mask k :
  cap_state k -> is_task k i -> 0 <= mask ->
  (forall n, Z.testbit mask n = true -> 16 - Z.of_nat fuel <= n < 16) ->
  revokes (fun i' j' => (i' =? i) && Z.testbit mask j') target k (revoke_loop fuel i target mask k).
Proof.
  revert mask k. induction fuel as [|fuel IH]; intros mask k Hk Hi H0 Hm; cbn [revoke_loop].
  - apply (revokes_ext (fun _ _ => false)); [|by apply revokes_refl]. intros i' j' _.
    destruct (Z.testbit mask j') eqn:E; [apply Hm in E; lia|by rewrite andb_false_r].
  - destruct (Z.eqb_spec mask 0) as [->|Hnz].
    { apply (revokes_ext (fun _ _ => false)); [|by apply revokes_refl]. intros i' j' _.
      by rewrite Z.bits_0, andb_false_r. }
    destruct (find_lowest_bit_spec mask) as (Hj0 & Hj & Hlow); [lia|]. set (j := find_lowest_bit mask) in *.
    pose proof (Hm j Hj) as Hjr. cbv zeta.
    assert (Hjs : is_slot j) by (unfold is_slot, MAX_CSPACE_SLOTS; lia).
    pose proof (revoke_slot_spec i target j k Hk Hi Hjs) as H1.
    assert (H2 : revokes (fun i' j' => (i' =? i) && Z.testbit (bit_clear mask j) j') target
      (revoke_slot i target j k) (revoke_loop fuel i target (bit_clear mask j) (revoke_slot i target j k))).
    { apply IH; [apply H1|unfold is_task; by rewrite (rv_count _ _ _ _ H1)|unfold bit_clear; apply Z.land_nonneg; lia|].
      intros n Hn. destruct (Z.lt_ge_cases n 0) as [Hneg|Hpos]; [by rewrite Z.testbit_neg_r in Hn|].
      rewrite bit_clear_testbit in Hn by lia. apply andb_true_iff in Hn as [Hne Hn].
      pose proof (Hm n Hn). destruct (Z.eqb_spec j n) as [|Hjn]; [done|].
      destruct (Z.lt_ge_cases n j) as [Hlt|]; [|lia]. rewrite Hlow in Hn by lia. done. }
    eapply revokes_ext; [|exact (revokes_trans _ _ _ _ _ _ H1 H2)]. intros i' j' _. cbn.
    destruct (i' =? i); [|done]. cbn. destruct (Z.lt_ge_cases j' 0) as [Hneg|Hpos].
    + rewrite !Z.testbit_neg_r by done. destruct (Z.eqb_spec j' j); [lia|done].
    + rewrite bit_clear_testbit by lia. rewrite Z.eqb_sym.
      destruct (Z.eqb_spec j j') as [<-|]; [by rewrite Hj|done].
Qed.

(** The slots [cap_revoke] looks at in task [i], for the capability [(t, s)]. *)
Definition revocable (t s i j : Z) : bool := negb ((i =? t) && (j =? s)).

Lemma revoke_task_spec t s target k i :
  cap_state k -> is_task k i -> is_slot s ->
  revokes (fun i' j' => (i' =? i) && revocable t s i' j') target k (revoke_task t s target k i).
Proof.
  intros Hk Hi Hs. pose proof (cap_task_valid _ _ Hk Hi) as Hv. unfold revoke_task.
  rewrite sync_mask_id by (done || apply Hk). cbv zeta. fold (slot_mask k i).
  pose proof (co_mask _ (cs_caps _ Hk) i Hv) as Hm.
  set (mask := if i =? t then bit_clear (slot_mask k i) s else slot_mask k i).
  assert (Hmr : 0 <= mask < 2 ^ 16).
  { unfold mask. destruct (_ =? _); [|done]. by apply bit_clear_range. }
  eapply revokes_ext; [|apply (revoke_loop_spec 16 i target mask k Hk Hi)].
  - intros i' j' E. cbv beta. destruct (Z.eqb_spec i' i) as [->|]; [|done]. cbn.
    assert (Hj : is_slot j').
    { unfold slot, zlookup in E. unfold is_slot. destruct (Z.leb_spec 0 j') as [H0|H0]; [|by cbn in E].
      destruct (lt_dec (Z.to_nat j') 16) as [Hlt|Hge]; [unfold MAX_CSPACE_SLOTS; lia|].
      rewrite list_lookup_total_alt, lookup_ge_None_2 in E; [done|].
      rewrite (co_len _ (cs_caps _ Hk) i Hv). lia. }
    assert (Hb : Z.testbit (slot_mask k i) j' = true).
    { rewrite (co_bit _ (cs_caps _ Hk) i j' Hv Hj), bool_decide_true; [done|].
      intros Hn. by rewrite (cw_null _ _ (co_wf _ (cs_caps _ Hk) i j') Hn) in E. }
    unfold mask, revocable. destruct (Z.eqb_spec i t) as [->|]; [|done]. cbn.
    unfold is_slot in *. rewrite bit_clear_testbit by lia. rewrite Hb, andb_true_r. by rewrite Z.eqb_sym.
  - lia.
  - intros n Hn. destruct (Z.lt_ge_cases n 0) as [Hneg|]; [by rewrite Z.testbit_neg_r in Hn|].
    destruct (Z.lt_ge_cases n 16) as [|Hge]; [lia|]. rewrite (bits_above mask 16 n) in Hn; done.
Qed.

Lemma revoke_tasks_spec t s target l k :
  cap_state k -> (forall i, i ∈ l -> is_task k i) -> is_slot s ->
  revokes (fun i j => bool_decide (i ∈ l) && revocable t s i j) target k (foldl (revoke_task t s target) k l).
Proof.
  revert k. induction l as [|a l IH]; intros k Hk Hl Hs; cbn [foldl].
  - apply (revokes_ext (fun _ _ => false)); [|by apply revokes_refl]. intros i j _.
    by rewrite bool_decide_false by set_solver.
  - pose proof (revoke_task_spec t s target k a Hk (Hl a ltac:(set_solver)) Hs) as H1.
    eapply revokes_ext; [|eapply revokes_trans; [exact H1|apply IH]].
    + intros i j _. cbn. destruct (Z.eqb_spec i a) as [->|Hne].
      * rewrite (bool_decide_true (a ∈ a :: l)) by set_solver. cbn. destruct (revocable t s a j); [done|by rewrite andb_false_r].
      * cbn. f_equal. apply bool_decide_ext. set_solver.
    + apply H1.
    + intros i Hi. unfold is_task. rewrite (rv_count _ _ _ _ H1). apply Hl. set_solver.
    + done.
Qed.

Lemma cap_revoke_spec t s k target :
  cap_state k -> is_task k t -> is_slot s -> cap_object (slot k t s) = Some target ->
  (cap_revoke (Some t) s k).1 = true /\
  revokes (fun i j => bool_decide (is_task k i) && revocable t s i j) target k (cap_revoke (Some t) s k).2.
Proof.
  intros Hk Ht Hs Ho. unfold cap_revoke. pose proof Hs as Hsv.
  apply is_slot_valid in Hsv as ->; [|apply Hs].
  rewrite cap_lookup_spec by (done || apply Hk || by apply cap_task_valid).
  rewrite decide_False by (intros Hn; by rewrite (cw_null _ _ (co_wf _ (cs_caps _ Hk) t s) Hn) in Ho).
  cbn [mbind option_bind]. rewrite Ho. split; [done|]. cbn [snd].
  eapply revokes_ext; [|apply revoke_tasks_spec; [done|apply task_indices_spec|done]].
  intros i j _. cbn. f_equal. apply bool_decide_ext, task_indices_spec.
Qed.
