(* ===== verification/Sync.v ===== *)
(** Counting semaphores (kernel/core/semaphore.cpp), task notifications
    (kernel/task/task_notify.hpp) and the frame scheduler
    (kernel/scheduler/frame_scheduler_v2.hpp).

    A blocking loop ([Semaphore::wait], [TaskNotify::take]) gives up the CPU
    inside its body; the model has one definition per pass through the loop,
    with [None] for "blocked, will be entered again when rescheduled". *)
From S2P Require Import Prelude Kernel ReadyQueue WaitQueue Endpoint Mpu TaskTable IpcSpec Scheduler Preserve.

Definition FOREVER : Z := 4294967295. (* timeout 0xFFFFFFFF *)

(** [TimerManager::get_current_tick]. *)
Definition get_current_tick (k : Kernel) : Z := current_tick_ (timer_mgr k).

(** * Semaphores *)

Definition sem_blocked (t : TaskControlBlock) : bool :=
  match sched_state (scheduler t) with Suspended | Sleeping => true | _ => false end.

(** One round of the search loops in [Semaphore::signal] and
    [Mutex::wake_highest_waiter]: a blocked waiter with a strictly higher
    priority replaces the best one so far. *)
Definition better_waiter (k : Kernel) (wait_mask : Z) (best : option Z) (i : Z) : option Z :=
  if bit_test wait_mask i then
    match get_task_by_id k i with
    | Some t =>
        if sem_blocked (tcb k t) then
          match best with
          | None => Some i
          | Some b => if current_priority (scheduler (tcb k b)) <? current_priority (scheduler (tcb k t))
                      then Some i else best
          end
        else best
    | None => best
    end
  else best.

Definition best_waiter (k : Kernel) (wait_mask : Z) : option Z :=
  foldl (better_waiter k wait_mask) None (seqZ 0 MAX_TASKS).

(** [Semaphore::init]. *)
Definition sem_init (init_count : Z) (s : Semaphore) : Semaphore := set_wait_mask_ 0 (set_count_ init_count s).

(** [Semaphore::try_wait]. *)
Definition try_wait (s : Semaphore) : bool * Semaphore :=
  if 0 <? count_ s then (true, set_count_ (count_ s - 1) s) else (false, s).

Definition sem_acquire (id : option Z) (s : Semaphore) : Semaphore :=
  let s := set_count_ (count_ s - 1) s in
  match id with Some id => set_wait_mask_ (bit_clear (wait_mask_ s) id) s | None => s end.

(** One pass through [Semaphore::wait] by the current task: [Some b] is the
    value returned, [None] means blocked.  The check before the loop is the
    first pass with no time elapsed. *)
Definition sem_wait_pass (timeout_ticks start_tick : Z) (s : Semaphore) (k : Kernel) :
    option bool * Semaphore * Kernel :=
  match g_current_tcb_ptr k with
  | None => if 0 <? count_ s then (Some true, sem_acquire None s, k) else (Some false, s, k)
  | Some c =>
      let id := sched_id (scheduler (tcb k c)) in
      if 0 <? count_ s then (Some true, sem_acquire (Some id) s, k) else
      let elapsed := wrap32 (get_current_tick k - start_tick) in
      if negb (timeout_ticks =? FOREVER) && (timeout_ticks <=? elapsed) then
        (Some false, set_wait_mask_ (bit_clear (wait_mask_ s) id) s, k)
      else
        let s := set_wait_mask_ (bit_set (wait_mask_ s) id) s in
        if negb (timeout_ticks =? FOREVER) then
          let k := upd c (set_sleep_ticks (wrap32 (timeout_ticks - elapsed))) k in
          (None, s, set_task_state (sched_id (scheduler (tcb k c))) Sleeping k)
        else (None, s, set_task_state id Suspended k)
  end.

Section Sync.
Context (run_handler : Z -> Z -> Kernel -> Kernel).

(** The pass with the context switch a blocked pass ends in. *)
Definition sem_wait (timeout_ticks start_tick : Z) (s : Semaphore) (k : Kernel) :
    option bool * Semaphore * Kernel :=
  match sem_wait_pass timeout_ticks start_tick s k with
  | (None, s, k) => (None, s, schedule run_handler k)
  | r => r
  end.

(** [Semaphore::signal]. *)
Definition sem_signal (s : Semaphore) (k : Kernel) : Semaphore * Kernel :=
  let s := set_count_ (count_ s + 1) s in
  if wait_mask_ s =? 0 then (s, k) else
  match best_waiter k (wait_mask_ s) with
  | Some best_id => (s, schedule run_handler (set_task_state best_id Ready k))
  | None => (s, k)
  end.

(** * Notifications *)

(** [TaskNotify::give]. *)
Definition give (target_task_id val : Z) (yield : bool) (k : Kernel) : bool * Kernel :=
  match get_task_by_id k target_task_id with
  | None => (false, k)
  | Some t =>
      let k := upd t (fun c => set_notify_pending true (set_notify_value (Z.lor (notify_value (ipc c)) val) c)) k in
      if decide (sched_state (scheduler (tcb k t)) = Blocked_On_Notify) then
        let k := set_task_state (sched_id (scheduler (tcb k t))) Ready k in
        (true, if yield then schedule run_handler k else k)
      else (true, k)
  end.

(** One pass through [TaskNotify::take] by task [c]: the value, or blocked. *)
Definition take_pass (c : Z) (clear_on_exit : bool) (k : Kernel) : option Z * Kernel :=
  if notify_pending (ipc (tcb k c)) then
    let val := notify_value (ipc (tcb k c)) in
    (Some val, if clear_on_exit
               then upd c (fun t => set_notify_pending false (set_notify_value 0 t)) k else k)
  else (None, set_task_state (sched_id (scheduler (tcb k c))) Blocked_On_Notify k).

(** [TaskNotify::take] is only called by a running task: without a current task
    the code dereferences a null pointer, the model blocks. *)
Definition take (clear_on_exit : bool) (k : Kernel) : option Z * Kernel :=
  match g_current_tcb_ptr k with
  | None => (None, k)
  | Some c =>
      match take_pass c clear_on_exit k with
      | (None, k) => (None, schedule run_handler k)
      | r => r
      end
  end.

(** * The frame scheduler *)

Definition on_frame (f : FrameSchedulerV2 -> FrameSchedulerV2) (k : Kernel) : Kernel := set_frame (f (frame k)) k.

(** [FrameSchedulerV2::FrameSchedulerV2]. *)
Definition frame_ctor : FrameSchedulerV2 := mkFrame 30 33 0 0 33 0 0 false true 0.

Definition set_fps (fps : Z) (k : Kernel) : Kernel :=
  let k := on_frame (set_target_fps_ fps) k in
  if 0 <? fps then
    let k := on_frame (set_frame_period_ticks_ (1000 / fps)) k in
    let k := if (measured_vsync_period_ticks_ (frame k) =? 0) || negb (has_dynamic_vsync_ (frame k))
             then on_frame (set_measured_vsync_period_ticks_ (frame_period_ticks_ (frame k))) k else k in
    (give (render_task_id_ (frame k)) 1 false k).2
  else
    on_frame (fun f => set_in_active_render_window_ false
      (set_measured_vsync_period_ticks_ u32_max (set_frame_period_ticks_ u32_max f))) k.

Definition frame_init (initial_fps render_task_id : Z) (k : Kernel) : Kernel :=
  let k := set_fps initial_fps k in
  on_frame (fun f => set_in_active_render_window_ (0 <? initial_fps) (set_has_dynamic_vsync_ false
    (set_system_ticks_ 0 (set_vsync_sample_count_ 0 (set_last_vsync_tick_ 0 (set_current_frame_tick_ 0
      (set_render_task_id_ render_task_id f))))))) k.

Definition get_measured_fps (f : FrameSchedulerV2) : Z :=
  if (target_fps_ f =? 0) || (measured_vsync_period_ticks_ f =? 0) ||
     (measured_vsync_period_ticks_ f =? u32_max) then 0
  else 1000 / measured_vsync_period_ticks_ f.

(** The measured period is in use. *)
Definition dynamic_period (f : FrameSchedulerV2) : bool :=
  has_dynamic_vsync_ f && (0 <? measured_vsync_period_ticks_ f) &&
  negb (measured_vsync_period_ticks_ f =? u32_max).

Definition get_ticks_to_next_vsync (f : FrameSchedulerV2) : Z :=
  if target_fps_ f =? 0 then u32_max else
  if dynamic_period f then
    let elapsed := if last_vsync_tick_ f <=? system_ticks_ f then system_ticks_ f - last_vsync_tick_ f else 0 in
    if elapsed <? measured_vsync_period_ticks_ f then measured_vsync_period_ticks_ f - elapsed else 0
  else
    if frame_period_ticks_ f <=? current_frame_tick_ f then 0
    else frame_period_ticks_ f - current_frame_tick_ f.

(** The period estimate of [on_hardware_vsync]: glitches outside 5..2000 ticks
    are dropped, later samples are averaged 3:1. *)
Definition vsync_sample (now_ticks : Z) (f : FrameSchedulerV2) : FrameSchedulerV2 :=
  if (0 <? last_vsync_tick_ f) && (last_vsync_tick_ f <? now_ticks) then
    let delta := now_ticks - last_vsync_tick_ f in
    if (5 <=? delta) && (delta <=? 2000) then
      let f := if (vsync_sample_count_ f =? 0) || (measured_vsync_period_ticks_ f =? 0) ||
                  (measured_vsync_period_ticks_ f =? u32_max)
               then set_measured_vsync_period_ticks_ delta f
               else set_measured_vsync_period_ticks_
                      (wrap32 (wrap32 (measured_vsync_period_ticks_ f * 3) + delta) / 4) f in
      set_vsync_sample_count_ (wrap32 (vsync_sample_count_ f + 1)) f
    else f
  else f.

Definition on_hardware_vsync (now_ticks : Z) (k : Kernel) : Kernel :=
  let f := frame k in
  if target_fps_ f =? 0 then k else
  let '(now_ticks, f) :=
    if now_ticks =? 0 then (system_ticks_ f, f)
    else if system_ticks_ f <? now_ticks then (now_ticks, set_system_ticks_ now_ticks f)
    else (now_ticks, f) in
  let f := vsync_sample now_ticks f in
  let f := set_in_active_render_window_ true (set_current_frame_tick_ 0 (set_has_dynamic_vsync_ true
             (set_last_vsync_tick_ now_ticks f))) in
  (give (render_task_id_ f) 1 true (set_frame f k)).2.

Definition frame_period (f : FrameSchedulerV2) : Z :=
  if dynamic_period f then measured_vsync_period_ticks_ f else frame_period_ticks_ f.

Definition frame_on_tick (delta_ticks : Z) (k : Kernel) : Kernel :=
  let k := on_frame (fun f => set_system_ticks_ (wrap32 (system_ticks_ f + delta_ticks)) f) k in
  if target_fps_ (frame k) =? 0 then k else
  let k := on_frame (fun f => set_current_frame_tick_ (wrap32 (current_frame_tick_ f + delta_ticks)) f) k in
  let period := frame_period (frame k) in
  if period <=? current_frame_tick_ (frame k) then
    let k := on_frame (fun f => set_in_active_render_window_ true
               (set_current_frame_tick_ (current_frame_tick_ f mod period) f)) k in
    (give (render_task_id_ (frame k)) 1 true k).2
  else k.

Definition notify_render_complete (k : Kernel) : Kernel :=
  schedule run_handler (on_frame (set_in_active_render_window_ false) k).

(** [wait_for_next_frame], up to its first blocking point. *)
Definition wait_for_next_frame (k : Kernel) : option Z * Kernel :=
  take true (notify_render_complete k).

Definition create_frame_task `{Arch} (entry stack stack_size prio' : Z) (k : Kernel) : Z * Kernel :=
  let '(o, k) := create_task entry stack stack_size prio' 0 0 0 k in
  (match o with Some i => sched_id (scheduler (tcb k i)) | None => 0 end, k).

(** * The watchdog manager *)

Definition watchdog_init (driver : bool) (timeout_ms : Z) (w : WatchdogManager) : WatchdogManager :=
  set_current_idle_ 0 (set_max_idle_ticks_ (wrap32 (timeout_ms * 8) / 10) (set_wd_driver_ driver w)).

Definition watchdog_kick (w : WatchdogManager) : WatchdogManager :=
  let w := set_current_idle_ 0 w in
  if wd_driver_ w then set_wd_kicks (wd_kicks w + 1) w else w.

End Sync.

(** * The kernel invariant *)

Lemma better_waiter_spec k mask best i :
  better_waiter k mask best i = best \/
  better_waiter k mask best i = Some i /\ bit_test mask i = true /\ is_task k i /\ sem_blocked (tcb k i) = true /\
    forall b, best = Some b -> current_priority (scheduler (tcb k b)) < current_priority (scheduler (tcb k i)).
Proof.
  unfold better_waiter. destruct (bit_test mask i); [|by left].
  destruct (get_task_by_id k i) as [t|] eqn:Ht; [|by left]. apply get_task_by_id_Some in Ht as [-> Hi].
  destruct (sem_blocked (tcb k i)); [|by left]. destruct best as [b|].
  - destruct (Z.ltb_spec (current_priority (scheduler (tcb k b))) (current_priority (scheduler (tcb k i)))); [|by left].
    right. split_and!; try done. by intros ? [= <-].
  - right. by split_and!.
Qed.

(** A task the search may choose. *)
Definition waiter (k : Kernel) (mask i : Z) : Prop :=
  bit_test mask i = true /\ is_task k i /\ sem_blocked (tcb k i) = true.

Lemma better_waiter_pick k mask best i :
  waiter k mask i ->
  (forall b, best = Some b -> current_priority (scheduler (tcb k b)) < current_priority (scheduler (tcb k i))) ->
  better_waiter k mask best i = Some i.
Proof.
  intros (Hm & Hi & Hb) Hp. unfold better_waiter. rewrite Hm.
  assert (get_task_by_id k i = Some i) as -> by by apply get_task_by_id_Some. rewrite Hb.
  destruct best as [b|]; [|done]. specialize (Hp b eq_refl). by apply Z.ltb_lt in Hp as ->.
Qed.

(** The search returns a waiter of the highest priority among those seen, and
    nothing only if there is none. *)
Lemma foldl_best k mask l best :
  match foldl (better_waiter k mask) best l with
  | None => best = None /\ forall i, i ∈ l -> ~ waiter k mask i
  | Some b =>
      (best = Some b \/ b ∈ l /\ waiter k mask b) /\
      (forall c, best = Some c -> current_priority (scheduler (tcb k c)) <= current_priority (scheduler (tcb k b))) /\
      forall i, i ∈ l -> waiter k mask i -> current_priority (scheduler (tcb k i)) <= current_priority (scheduler (tcb k b))
  end.
Proof.
  revert best. induction l as [|i l IH]; intros best; cbn [foldl].
  - destruct best as [b|]; [|split; [done|set_solver]].
    split; [by left|]. split; [intros c [= <-]; lia|set_solver].
  - specialize (IH (better_waiter k mask best i)).
    pose proof (better_waiter_spec k mask best i) as Hs.
    assert (Hsee : waiter k mask i -> exists c, better_waiter k mask best i = Some c /\
      current_priority (scheduler (tcb k i)) <= current_priority (scheduler (tcb k c))).
    { intros Hw. destruct best as [b|].
      - destruct (Z.lt_ge_cases (current_priority (scheduler (tcb k b))) (current_priority (scheduler (tcb k i)))).
        + exists i. split; [|lia]. apply better_waiter_pick; [done|]. by intros ? [= <-].
        + destruct Hs as [->|(-> & _ & _ & _ & Hlt)]; [by exists b; split; [|lia]|].
          specialize (Hlt b eq_refl). lia.
      - exists i. split; [|lia]. by apply better_waiter_pick. }
    destruct (foldl _ (better_waiter k mask best i) l) as [b|].
    + destruct IH as (H1 & H2 & H3). split_and!.
      * destruct H1 as [H1|[H1 H1']]; [|right; split; [set_solver|done]].
        destruct Hs as [Hs|(Hs & Hm & Hi & Hb & _)]; [left; congruence|].
        right. rewrite Hs in H1. injection H1 as <-. split; [set_solver|done].
      * intros c Hc. destruct Hs as [Hs|(Hs & _ & _ & _ & Hlt)]; [apply H2; congruence|].
        specialize (Hlt c Hc). specialize (H2 i Hs). lia.
      * intros j [->|Hj]%elem_of_cons Hw; [|by apply H3]. destruct (Hsee Hw) as (c & Hc & Hle).
        specialize (H2 c Hc). lia.
    + destruct IH as [H1 H2]. split.
      * destruct Hs as [Hs|(Hs & _)]; congruence.
      * intros j [->|Hj]%elem_of_cons; [|by apply H2]. intros Hw. destruct (Hsee Hw) as (c & Hc & _). congruence.
Qed.

Lemma best_waiter_spec k mask :
  task_count k <= MAX_TASKS ->
  match best_waiter k mask with
  | None => forall i, ~ waiter k mask i
  | Some b => waiter k mask b /\
      forall i, waiter k mask i -> current_priority (scheduler (tcb k i)) <= current_priority (scheduler (tcb k b))
  end.
Proof.
  intros Hc. pose proof (foldl_best k mask (seqZ 0 MAX_TASKS) None) as H. unfold best_waiter.
  assert (Hin : forall i, waiter k mask i -> i ∈ seqZ 0 MAX_TASKS).
  { intros i (_ & [? ?] & _). rewrite elem_of_seqZ. lia. }
  destruct (foldl _ None _) as [b|].
  - destruct H as ([?|[_ H]] & _ & H3); [done|]. split; [done|]. intros i Hw. by apply H3; [apply Hin|].
  - destruct H as [_ H]. intros i Hw. by apply (H i (Hin i Hw)).
Qed.

Section SyncOk.
Context (run_handler : Z -> Z -> Kernel -> Kernel) `{!GoodHandlers run_handler}.

Lemma sem_signal_ok s k : kernel_ok k -> kernel_ok (sem_signal run_handler s k).2.
Proof.
  intros Hk. unfold sem_signal. cbv zeta. destruct (_ =? 0); [done|].
  pose proof (foldl_best k (wait_mask_ (set_count_ (count_ s + 1) s)) (seqZ 0 MAX_TASKS) None) as H.
  unfold best_waiter. destruct (foldl _ None _) as [b|]; [|done]. cbn [snd].
  destruct H as ([?|[_ (_ & [? _] & _)]] & _); [done|]. apply schedule_ok; [done|]. by apply kernel_ok_set_state.
Qed.

Lemma state_of_task_ok c s k : kernel_ok k -> is_task k c -> kernel_ok (set_task_state (sched_id (scheduler (tcb k c))) s k).
Proof.
  intros Hk Hc. rewrite (sched_ok_id k c) by (done || by apply kernel_ok_sched). apply kernel_ok_set_state; [apply Hc|done].
Qed.

Lemma sem_wait_ok timeout start s k : kernel_ok k -> kernel_ok (sem_wait run_handler timeout start s k).2.
Proof.
  intros Hk. unfold sem_wait, sem_wait_pass. destruct (g_current_tcb_ptr k) as [c|] eqn:Hcur.
  2:{ by destruct (0 <? _). }
  pose proof (proj1 (ko_cur _ Hk) c Hcur) as Hc. cbv zeta. destruct (0 <? _); [done|].
  destruct (_ && _); [done|]. destruct (negb _); cbn [snd]; apply schedule_ok; try done; apply state_of_task_ok; try done.
  by apply kernel_ok_upd.
Qed.

Lemma give_ok id val yield k : kernel_ok k -> kernel_ok (give run_handler id val yield k).2.
Proof.
  intros Hk. unfold give. destruct (get_task_by_id k id) as [t|] eqn:Ht; [|done].
  apply get_task_by_id_task in Ht. cbv zeta. set (k1 := upd t _ k).
  assert (Hk1 : kernel_ok k1) by by apply kernel_ok_upd. case_decide; [|done]. cbn [snd].
  assert (kernel_ok (set_task_state (sched_id (scheduler (tcb k1 t))) Ready k1)) by by apply state_of_task_ok.
  destruct yield; [by apply schedule_ok|done].
Qed.

Lemma take_ok clear k : kernel_ok k -> kernel_ok (take run_handler clear k).2.
Proof.
  intros Hk. unfold take, take_pass. destruct (g_current_tcb_ptr k) as [c|] eqn:Hcur; [|done].
  pose proof (proj1 (ko_cur _ Hk) c Hcur) as Hc. destruct (notify_pending _).
  - destruct clear; [by apply kernel_ok_upd|done].
  - cbn [snd]. apply schedule_ok; [done|]. by apply state_of_task_ok.
Qed.

Lemma on_frame_ok f k : kernel_ok k -> kernel_ok (on_frame f k).
Proof. intros Hk. apply (kernel_ok_env k); try done. apply Hk. Qed.

Lemma set_fps_ok fps k : kernel_ok k -> kernel_ok (set_fps run_handler fps k).
Proof.
  intros Hk. unfold set_fps. cbv zeta. destruct (0 <? fps); [|by do 2 apply on_frame_ok].
  apply give_ok. destruct (_ || _); by repeat apply on_frame_ok.
Qed.

Lemma on_hardware_vsync_ok now k : kernel_ok k -> kernel_ok (on_hardware_vsync run_handler now k).
Proof.
  intros Hk. unfold on_hardware_vsync. cbv zeta. destruct (_ =? 0); [done|].
  assert (H : forall f, kernel_ok (set_frame f k)) by (intros f; apply (kernel_ok_env k); try done; apply Hk).
  destruct (now =? 0); [by apply give_ok|]. destruct (_ <? _); by apply give_ok.
Qed.

Lemma frame_on_tick_ok d k : kernel_ok k -> kernel_ok (frame_on_tick run_handler d k).
Proof.
  intros Hk. unfold frame_on_tick. cbv zeta. destruct (_ =? 0); [by apply on_frame_ok|].
  destruct (_ <=? _); [apply give_ok|]; by repeat apply on_frame_ok.
Qed.
End SyncOk.
