(* ===== verification/Timers.v ===== *)
(** Software timers (kernel/interrupt/timer.hpp), process timers
    (kernel/core/process_timer.cpp) and the SysTick handler (boot/interrupts.cpp).

    Timer callbacks run in the daemon task: they are the parameter [callback] of
    the daemon.  Ticks are 32-bit and wrap; deadlines are compared unsigned. *)
From S2P Require Import Prelude Kernel ReadyQueue WaitQueue Endpoint Mpu TaskTable IpcSpec Scheduler Preserve Sync.

(** * Process timers *)

Module Process.

Definition MAX_TIMERS : Z := 16.
Definition Periodic : Z := 1.
Definition Absolute : Z := 2.
Definition NotifySignal : Z := 16.
Definition NotifyIpc : Z := 32.
Definition NotifyEvent : Z := 64.

Definition flag (flags f : Z) : bool := negb (Z.land flags f =? 0).

Record ProcessTimerDesc := mkDesc {
  d_flags : Z;
  d_initial_delay_ms : Z;
  d_interval_ms : Z;
  d_notify_param : Z;
}.

(** Both conversions multiply in 32 bits. *)
Definition ms_to_ticks (ms : Z) : Z :=
  if ms =? 0 then 0 else
  let ticks := wrap32 (wrap32 (ms * TICK_RATE_HZ) + 999) / 1000 in
  if ticks =? 0 then 1 else ticks.

Definition ticks_to_ms (ticks : Z) : Z := wrap32 (ticks * 1000) / TICK_RATE_HZ.

Definition timer_slots : list Z := seqZ 0 MAX_TIMERS.

Definition ptimer (k : Kernel) (i : Z) : ProcessTimer := zlookup (ptimers_ k) i.
Definition upd_pt (i : Z) (f : ProcessTimer -> ProcessTimer) (k : Kernel) : Kernel :=
  set_ptimers_ (zalter f i (ptimers_ k)) k.

Definition blank : ProcessTimer := mkProcessTimer false false 0 0 0 0 0.

(** [init] and the reset in [delete_timer] and [cleanup_task_timers] clear
    every field. *)
Definition init (k : Kernel) : Kernel := set_ptimers_ (map (fun _ => blank) (ptimers_ k)) k.

(** The fields [create_timer] and [start_timer] take from a descriptor. *)
Definition arm (d : ProcessTimerDesc) (cur_tick : Z) (t : ProcessTimer) : ProcessTimer :=
  let t := set_pt_flags (d_flags d) t in
  let t := set_pt_notify_param (d_notify_param d) t in
  let t := set_pt_period_ticks (ms_to_ticks (d_interval_ms d)) t in
  if flag (d_flags d) Absolute then set_pt_expire_tick (ms_to_ticks (d_initial_delay_ms d)) t
  else set_pt_expire_tick (wrap32 (cur_tick + ms_to_ticks (d_initial_delay_ms d))) t.

Definition create_timer (owner : option Z) (desc : option ProcessTimerDesc) (k : Kernel) : Z * Kernel :=
  match owner, desc with
  | Some o, Some d =>
      match List.find (fun i => negb (pt_allocated (ptimer k i))) timer_slots with
      | Some i =>
          (i, upd_pt i (fun t =>
             let t := set_pt_owner_task_id (sched_id (scheduler (tcb k o))) (set_pt_allocated true t) in
             let t := arm d (get_current_tick k) t in
             set_pt_active ((0 <? d_initial_delay_ms d) || flag (d_flags d) Absolute) t) k)
      | None => (-2, k)
      end
  | _, _ => (-1, k)
  end.

(** [allocated && owner_task_id == owner->scheduler.id]. *)
Definition owns (k : Kernel) (o timer_id : Z) : bool :=
  pt_allocated (ptimer k timer_id) &&
  (pt_owner_task_id (ptimer k timer_id) =? sched_id (scheduler (tcb k o))).

Definition start_timer (owner : option Z) (timer_id : Z) (desc : option ProcessTimerDesc) (k : Kernel) : Z * Kernel :=
  match owner with
  | None => (-1, k)
  | Some o =>
      if (MAX_TIMERS <=? timer_id) || negb (owns k o timer_id) then (-1, k) else
      let k := match desc with Some d => upd_pt timer_id (arm d (get_current_tick k)) k | None => k end in
      (0, upd_pt timer_id (set_pt_active true) k)
  end.

Definition stop_timer (owner : option Z) (timer_id : Z) (k : Kernel) : Z * Kernel :=
  match owner with
  | None => (-1, k)
  | Some o =>
      if (MAX_TIMERS <=? timer_id) || negb (owns k o timer_id) then (-1, k)
      else (0, upd_pt timer_id (set_pt_active false) k)
  end.

Definition delete_timer (owner : option Z) (timer_id : Z) (k : Kernel) : Z * Kernel :=
  match owner with
  | None => (-1, k)
  | Some o =>
      if (MAX_TIMERS <=? timer_id) || negb (owns k o timer_id) then (-1, k)
      else (0, upd_pt timer_id (fun _ => blank) k)
  end.

Definition remaining (cur_tick : Z) (t : ProcessTimer) : Z :=
  if cur_tick <? pt_expire_tick t then pt_expire_tick t - cur_tick else 0.

(** [get_time] stores through the user pointer [out_remaining_ms]. *)
Definition get_time (owner : option Z) (timer_id out_remaining_ms : Z) (k : Kernel) : Z * Kernel :=
  match owner with
  | None => (-1, k)
  | Some o =>
      if (MAX_TIMERS <=? timer_id) || (out_remaining_ms =? nullptr) || negb (owns k o timer_id) then (-1, k) else
      let v := if pt_active (ptimer k timer_id)
               then ticks_to_ms (remaining (get_current_tick k) (ptimer k timer_id)) else 0 in
      (0, set_mem (store32 (mem k) out_remaining_ms v) k)
  end.

Definition cleanup_task_timers (task_id : Z) (k : Kernel) : Kernel :=
  set_ptimers_ (map (fun t => if pt_allocated t && (pt_owner_task_id t =? task_id) then blank else t) (ptimers_ k)) k.

(** The two notification branches that write [notify_value]. *)
Definition notify_bits (owner_id bits : Z) (k : Kernel) : Kernel :=
  match get_task_by_id k owner_id with
  | None => k
  | Some t =>
      let k := upd t (fun c => set_notify_value (Z.lor (notify_value (ipc c)) bits) (set_notify_pending true c)) k in
      if sem_blocked (tcb k t) then set_task_state (sched_id (scheduler (tcb k t))) Ready k else k
  end.

Definition notify_owner (i : Z) (t : ProcessTimer) (k : Kernel) : Kernel :=
  let param := pt_notify_param t in
  if flag (pt_flags t) NotifySignal then
    (send_signal (pt_owner_task_id t) (if param =? 0 then SIGALRM else param) k).2
  else if flag (pt_flags t) NotifyIpc then notify_bits (pt_owner_task_id t) (bit (Z.land param 31)) k
  else if flag (pt_flags t) NotifyEvent then
    notify_bits (pt_owner_task_id t) (if param =? 0 then bit i else param) k
  else (send_signal (pt_owner_task_id t) SIGALRM k).2.

(** Reload or stop. *)
Definition reload (cur_tick : Z) (t : ProcessTimer) : ProcessTimer :=
  if flag (pt_flags t) Periodic && (0 <? pt_period_ticks t) then
    let t := set_pt_expire_tick (wrap32 (pt_expire_tick t + pt_period_ticks t)) t in
    if pt_expire_tick t <=? cur_tick then set_pt_expire_tick (wrap32 (cur_tick + pt_period_ticks t)) t else t
  else set_pt_active false t.

Definition due (cur_tick : Z) (t : ProcessTimer) : bool :=
  pt_allocated t && pt_active t && (pt_expire_tick t <=? cur_tick).

Definition on_tick_slot (cur_tick : Z) (k : Kernel) (i : Z) : Kernel :=
  let t := ptimer k i in
  if due cur_tick t then upd_pt i (reload cur_tick) (notify_owner i t k) else k.

Definition on_tick (k : Kernel) : Kernel := foldl (on_tick_slot (get_current_tick k)) k timer_slots.

Definition get_next_expire_ticks (k : Kernel) : Z :=
  foldl (fun m i => let t := ptimer k i in
           if pt_allocated t && pt_active t
           then let r := remaining (get_current_tick k) t in if r <? m then r else m
           else m) u32_max timer_slots.

Definition fast_forward_ticks (skipped_ticks : Z) (k : Kernel) : Kernel := on_tick k.

End Process.

(** * Software timers *)

Module Soft.

Definition MAX_TIMERS : Z := 8.
Definition timer_slots : list Z := seqZ 0 MAX_TIMERS.

Definition stimer (k : Kernel) (i : Z) : SoftwareTimer := zlookup (timers_ (timer_mgr k)) i.
Definition on_mgr (f : TimerManager -> TimerManager) (k : Kernel) : Kernel := set_timer_mgr (f (timer_mgr k)) k.
Definition upd_st (i : Z) (f : SoftwareTimer -> SoftwareTimer) (k : Kernel) : Kernel :=
  on_mgr (fun m => set_timers_ (zalter f i (timers_ m)) m) k.

Definition expired (tick : Z) (t : SoftwareTimer) : bool := st_active t && (st_expire_tick t <=? tick).

Definition get_next_expire_ticks (k : Kernel) : Z :=
  let m := foldl (fun m i => let t := stimer k i in
             if st_active t then
               let r := if get_current_tick k <? st_expire_tick t then st_expire_tick t - get_current_tick k else 0 in
               if r <? m then r else m
             else m) u32_max timer_slots in
  let proc_min := Process.get_next_expire_ticks k in
  if proc_min <? m then proc_min else m.

Definition start_timer (period_ticks : Z) (type : TimerType) (cb arg : Z) (k : Kernel) : Z * Kernel :=
  match List.find (fun i => negb (st_active (stimer k i))) timer_slots with
  | Some i => (i, upd_st i (fun _ =>
      mkSoftwareTimer true type (wrap32 (get_current_tick k + period_ticks)) period_ticks cb arg) k)
  | None => (-1, k)
  end.

Definition stop_timer (id : Z) (k : Kernel) : Kernel :=
  if (0 <=? id) && (id <? MAX_TIMERS) then upd_st id (set_st_active false) k else k.

Section Tick.
Context (run_handler : Z -> Z -> Kernel -> Kernel).

(** [wakeup_sem_.signal()] when a timer has expired: the count is up before the
    scheduler runs. *)
Definition wake_daemon (k : Kernel) : Kernel :=
  if existsb (fun i => expired (get_current_tick k) (stimer k i)) timer_slots then
    let s := wakeup_sem_ (timer_mgr k) in
    let k := on_mgr (set_wakeup_sem_ (set_count_ (count_ s + 1) s)) k in
    (sem_signal run_handler s k).2
  else k.

Definition on_tick (k : Kernel) : Kernel :=
  let k := on_mgr (fun m => set_current_tick_ (wrap32 (current_tick_ m + 1)) m) k in
  Process.on_tick (wake_daemon k).

Definition fast_forward_ticks (ticks : Z) (k : Kernel) : Kernel :=
  let k := on_mgr (fun m => set_current_tick_ (wrap32 (current_tick_ m + ticks)) m) k in
  Process.fast_forward_ticks ticks (wake_daemon k).

(** [SysTick_Handler], without its cycle counters and the software watchdog
    ([CONFIG_WATCHDOG] is not set). *)
Definition SysTick_Handler (k : Kernel) : Kernel :=
  let k := on_tick k in
  let k := frame_on_tick run_handler 1 k in
  let k := tick_update k in
  schedule run_handler k.
End Tick.

(** ** The timer daemon *)

Section Daemon.
Context (callback : Z -> Z -> Kernel -> Kernel).

(** The critical section of one slot: the callback to run, the timer rearmed
    or stopped, and whether it has to be looked at again. *)
Definition expire_slot (tick_now i : Z) (k : Kernel) : option (Z * Z) * bool * Kernel :=
  let t := stimer k i in
  if expired tick_now t then
    let cb := Some (st_callback t, st_arg t) in
    match st_type t with
    | Periodic =>
        let e := wrap32 (st_expire_tick t + st_period_ticks t) in
        (cb, e <=? tick_now, upd_st i (set_st_expire_tick e) k)
    | OneShot => (cb, false, upd_st i (set_st_active false) k)
    end
  else (None, false, k).

Definition daemon_slot (tick_now : Z) (st : bool * Kernel) (i : Z) : bool * Kernel :=
  let '(has_expired, k) := st in
  let '(cb, again, k) := expire_slot tick_now i k in
  match cb with
  | Some (h, arg) => if h =? nullptr then (has_expired || again, k) else (true, callback h arg k)
  | None => (has_expired || again, k)
  end.

(** One scan over the slots; [true] asks for another scan. *)
Definition daemon_scan (k : Kernel) : bool * Kernel :=
  foldl (daemon_slot (get_current_tick k)) (false, k) timer_slots.

(** The daemon's body between two waits, with [fuel] scans. *)
Fixpoint daemon_run (fuel : nat) (k : Kernel) : option Kernel :=
  match fuel with
  | O => None
  | S fuel => let '(again, k) := daemon_scan k in if again then daemon_run fuel k else Some k
  end.
End Daemon.

End Soft.

(** * What a tick does to the process timers *)

Lemma send_signal_env {A} (g : Kernel -> A) id sig k :
  (forall k, g (erase_rq k) = g k) -> (forall l k, g (set_tasks l k) = g k) -> g (send_signal id sig k).2 = g k.
Proof.
  intros H1 H2. unfold send_signal. destruct (_ || _); [done|]. case_decide; [done|]. cbv zeta.
  case_decide; cbn [snd]; [|apply H2].
  rewrite (su_env_proj g (set_task_state_frame _ Ready _)) by done. apply H2.
Qed.

Lemma notify_bits_env {A} (g : Kernel -> A) id bits k :
  (forall k, g (erase_rq k) = g k) -> (forall l k, g (set_tasks l k) = g k) -> g (Process.notify_bits id bits k) = g k.
Proof.
  intros H1 H2. unfold Process.notify_bits. destruct (get_task_by_id k id); [|done]. cbv zeta.
  destruct (sem_blocked _); [|apply H2]. rewrite (su_env_proj g (set_task_state_frame _ Ready _)) by done. apply H2.
Qed.

Lemma notify_owner_env {A} (g : Kernel -> A) i t k :
  (forall k, g (erase_rq k) = g k) -> (forall l k, g (set_tasks l k) = g k) -> g (Process.notify_owner i t k) = g k.
Proof.
  intros H1 H2. unfold Process.notify_owner. cbv zeta.
  destruct (Process.flag _ _); [by apply send_signal_env|]. destruct (Process.flag _ _); [by apply notify_bits_env|].
  destruct (Process.flag _ _); [by apply notify_bits_env|by apply send_signal_env].
Qed.

(** Every due timer is reloaded or stopped, no other timer changes. *)
Definition ticked (cur : Z) (t : ProcessTimer) : ProcessTimer :=
  if Process.due cur t then Process.reload cur t else t.

Lemma ptimer_slot cur k i j :
  in_range (ptimers_ k) i ->
  Process.ptimer (Process.on_tick_slot cur k i) j =
  if decide (i = j) then ticked cur (Process.ptimer k j) else Process.ptimer k j.
Proof.
  intros Hi. unfold Process.on_tick_slot, ticked, Process.ptimer. cbv zeta.
  destruct (Process.due cur (zlookup (ptimers_ k) i)) eqn:Hd.
  - unfold Process.upd_pt. cbn. rewrite notify_owner_env by done.
    rewrite zlookup_zalter by done. case_decide; [subst; by rewrite Hd|done].
  - case_decide; [subst; by rewrite Hd|done].
Qed.

Lemma length_slot cur k i : length (ptimers_ (Process.on_tick_slot cur k i)) = length (ptimers_ k).
Proof.
  unfold Process.on_tick_slot. cbv zeta. destruct (Process.due _ _); [|done]. unfold Process.upd_pt. cbn.
  by rewrite length_zalter, notify_owner_env.
Qed.

Lemma foldl_slots cur l k j :
  NoDup l -> (forall i, i ∈ l -> in_range (ptimers_ k) i) ->
  Process.ptimer (foldl (Process.on_tick_slot cur) k l) j =
  if decide (j ∈ l) then ticked cur (Process.ptimer k j) else Process.ptimer k j.
Proof.
  revert k. induction l as [|i l IH]; intros k Hnd Hr; cbn [foldl].
  - by rewrite decide_False by set_solver.
  - apply NoDup_cons in Hnd as [Hi Hnd]. rewrite IH; [|done|].
    + rewrite !ptimer_slot by (apply Hr; set_solver).
      destruct (decide (i = j)) as [->|Hne]; [rewrite decide_False, decide_True by set_solver; done|].
      destruct (decide (j ∈ l)); [rewrite decide_True by set_solver|rewrite decide_False by set_solver]; done.
    + intros a Ha. unfold in_range. rewrite length_slot. apply Hr. set_solver.
Qed.

Lemma process_on_tick_spec k j :
  length (ptimers_ k) = 16%nat -> 0 <= j < Process.MAX_TIMERS ->
  Process.ptimer (Process.on_tick k) j = ticked (get_current_tick k) (Process.ptimer k j).
Proof.
  intros Hl Hj. unfold Process.on_tick. rewrite foldl_slots.
  - rewrite decide_True; [done|]. unfold Process.timer_slots. rewrite elem_of_seqZ. lia.
  - apply NoDup_seqZ.
  - intros i. unfold Process.timer_slots, in_range, Process.MAX_TIMERS. rewrite elem_of_seqZ, Hl. lia.
Qed.

(** * The daemon terminates *)

Section DaemonProofs.
Context (callback : Z -> Z -> Kernel -> Kernel).

(** Callbacks that leave the timer manager alone. *)
Context (callback_mgr : forall h arg k, timer_mgr (callback h arg k) = timer_mgr k).

Definition fire (tick : Z) (t : SoftwareTimer) : SoftwareTimer :=
  if Soft.expired tick t then
    match st_type t with
    | Periodic => set_st_expire_tick (wrap32 (st_expire_tick t + st_period_ticks t)) t
    | OneShot => set_st_active false t
    end
  else t.

(** Another scan is asked for after this timer was looked at. *)
Definition rescan (tick : Z) (t : SoftwareTimer) : bool :=
  Soft.expired tick t && (negb (st_callback t =? nullptr) || Soft.expired tick (fire tick t)).

Lemma stimer_callback h arg k i : Soft.stimer (callback h arg k) i = Soft.stimer k i.
Proof. unfold Soft.stimer. by rewrite callback_mgr. Qed.

Lemma stimer_upd_st i f k j :
  in_range (timers_ (timer_mgr k)) i ->
  Soft.stimer (Soft.upd_st i f k) j = if decide (i = j) then f (Soft.stimer k j) else Soft.stimer k j.
Proof. intros Hi. unfold Soft.stimer, Soft.upd_st, Soft.on_mgr. cbn. by apply zlookup_zalter. Qed.

Lemma daemon_slot_spec tick b k i :
  in_range (timers_ (timer_mgr k)) i ->
  let '(b', k') := Soft.daemon_slot callback tick (b, k) i in
  b' = b || rescan tick (Soft.stimer k i) /\
  (forall j, Soft.stimer k' j = if decide (i = j) then fire tick (Soft.stimer k j) else Soft.stimer k j) /\
  length (timers_ (timer_mgr k')) = length (timers_ (timer_mgr k)) /\
  get_current_tick k' = get_current_tick k.
Proof.
  intros Hi. unfold Soft.daemon_slot, Soft.expire_slot. cbv zeta.
  unfold rescan, fire. destruct (Soft.expired tick (Soft.stimer k i)) eqn:He.
  2:{ cbn [andb]. split; [done|]. split; [|done]. intros j. case_decide; [subst; by rewrite He|done]. }
  assert (Hact : st_active (Soft.stimer k i) = true) by (unfold Soft.expired in He; apply andb_true_iff in He as [? _]; done).
  destruct (st_type (Soft.stimer k i)) eqn:Ht; destruct (st_callback (Soft.stimer k i) =? nullptr) eqn:Hcb; cbn [negb orb andb].
  all: split; [unfold Soft.expired; cbn; rewrite ?Hact, ?andb_true_l, ?orb_true_r; done|].
  all: split; [intros j; rewrite ?stimer_callback, stimer_upd_st by done; case_decide; [subst; by rewrite He, Ht|done]|].
  all: unfold get_current_tick; rewrite ?callback_mgr; unfold Soft.upd_st, Soft.on_mgr; cbn; by rewrite length_zalter.
Qed.

Lemma daemon_scan_slots tick l b k :
  NoDup l -> (forall i, i ∈ l -> in_range (timers_ (timer_mgr k)) i) ->
  let '(b', k') := foldl (Soft.daemon_slot callback tick) (b, k) l in
  b' = b || existsb (fun i => rescan tick (Soft.stimer k i)) l /\
  (forall j, Soft.stimer k' j = if decide (j ∈ l) then fire tick (Soft.stimer k j) else Soft.stimer k j) /\
  length (timers_ (timer_mgr k')) = length (timers_ (timer_mgr k)) /\ get_current_tick k' = get_current_tick k.
Proof.
  revert b k. induction l as [|i l IH]; intros b k Hnd Hr; cbn [foldl existsb].
  { split; [by rewrite orb_false_r|]. split; [|done]. intros j. by rewrite decide_False by set_solver. }
  apply NoDup_cons in Hnd as [Hi Hnd].
  pose proof (daemon_slot_spec tick b k i (Hr i ltac:(set_solver))) as H1.
  destruct (Soft.daemon_slot callback tick (b, k) i) as [b1 k1]. destruct H1 as (B1 & S1 & L1 & T1).
  specialize (IH b1 k1 Hnd). destruct (foldl _ (b1, k1) l) as [b2 k2]. destruct IH as (B2 & S2 & L2 & T2).
  { intros a Ha. unfold in_range. rewrite L1. apply Hr. set_solver. }
  split; [|split; [|split; congruence]].
  - rewrite B2, B1, <- orb_assoc. do 2 f_equal. clear -S1 Hi. induction l as [|a l IH]; [done|]. cbn.
    rewrite IH by set_solver. rewrite S1, decide_False by set_solver. done.
  - intros j. rewrite S2, S1. destruct (decide (i = j)) as [->|].
    + by rewrite decide_False, decide_True by set_solver.
    + destruct (decide (j ∈ l)); [by rewrite decide_True by set_solver|by rewrite decide_False by set_solver].
Qed.

Lemma daemon_scan_spec k :
  length (timers_ (timer_mgr k)) = 8%nat ->
  let '(b, k') := Soft.daemon_scan callback k in
  b = existsb (fun i => rescan (get_current_tick k) (Soft.stimer k i)) Soft.timer_slots /\
  (forall j, 0 <= j < Soft.MAX_TIMERS -> Soft.stimer k' j = fire (get_current_tick k) (Soft.stimer k j)) /\
  length (timers_ (timer_mgr k')) = 8%nat /\ get_current_tick k' = get_current_tick k.
Proof.
  intros Hl. unfold Soft.daemon_scan.
  pose proof (daemon_scan_slots (get_current_tick k) Soft.timer_slots false k) as H.
  destruct (foldl _ _ Soft.timer_slots) as [b k']. destruct H as (B & S & L & T).
  - apply NoDup_seqZ.
  - intros i. unfold Soft.timer_slots, in_range, Soft.MAX_TIMERS. rewrite elem_of_seqZ, Hl. lia.
  - split; [done|]. split; [|split; [congruence|done]]. intros j Hj. rewrite S, decide_True; [done|].
    unfold Soft.timer_slots. rewrite elem_of_seqZ. lia.
Qed.

(** How many scans a timer stays expired for. *)
Definition lag (tick : Z) (t : SoftwareTimer) : Z :=
  if Soft.expired tick t then
    match st_type t with Periodic => (tick - st_expire_tick t) / st_period_ticks t + 1 | OneShot => 1 end
  else 0.

(** A timer whose next deadlines do not overflow. *)
Definition timer_fits (tick : Z) (t : SoftwareTimer) : Prop :=
  0 <= st_expire_tick t /\ (st_type t = Periodic -> 0 < st_period_ticks t /\ tick + st_period_ticks t < 4294967296).

Lemma lag_fire tick t n :
  0 <= tick -> timer_fits tick t -> lag tick t <= Z.of_nat (S n) ->
  lag tick (fire tick t) <= Z.of_nat n /\ timer_fits tick (fire tick t).
Proof.
  intros H0 [He Hp] Hl. unfold lag, fire in *. destruct (Soft.expired tick t) eqn:E; [|by rewrite E; split; [lia|]].
  pose proof E as Hx. unfold Soft.expired in Hx. apply andb_true_iff in Hx as [Ha Hd]. apply Z.leb_le in Hd.
  destruct (st_type t) eqn:Ht.
  - unfold Soft.expired. cbn. split; [lia|]. split; cbn; [done|congruence].
  - destruct (Hp eq_refl) as [Hpos Hfit]. set (e := st_expire_tick t) in *. set (p := st_period_ticks t) in *.
    assert (Hw : wrap32 (e + p) = e + p) by (apply wrap32_small; unfold is_u32; lia).
    rewrite Hw. unfold Soft.expired. cbn. rewrite Ha, Ht. cbn. fold p. split.
    + destruct (Z.leb_spec (e + p) tick); [|lia].
      replace (tick - (e + p)) with (tick - e + (-1) * p) by lia. rewrite Z.div_add by lia. lia.
    + split; cbn; [lia|]. intros _. done.
Qed.

Lemma not_expired_lag tick t : timer_fits tick t -> lag tick t <= 0 -> Soft.expired tick t = false.
Proof.
  intros [_ Hp] Hl. unfold lag in Hl. destruct (Soft.expired tick t) eqn:E; [|done].
  unfold Soft.expired in E. apply andb_true_iff in E as [_ Hd]. apply Z.leb_le in Hd.
  destruct (st_type t); [lia|]. destruct (Hp eq_refl). pose proof (Z.div_pos (tick - st_expire_tick t) (st_period_ticks t)). lia.
Qed.

Lemma daemon_run_spec n k :
  length (timers_ (timer_mgr k)) = 8%nat -> 0 <= get_current_tick k ->
  (forall i, 0 <= i < Soft.MAX_TIMERS -> timer_fits (get_current_tick k) (Soft.stimer k i) /\
     lag (get_current_tick k) (Soft.stimer k i) <= Z.of_nat n) ->
  exists k', Soft.daemon_run callback (S n) k = Some k' /\ get_current_tick k' = get_current_tick k /\
    forall i, 0 <= i < Soft.MAX_TIMERS -> Soft.expired (get_current_tick k) (Soft.stimer k' i) = false.
Proof.
  revert k. induction n as [|n IH]; intros k Hl H0 Hi; cbn [Soft.daemon_run];
    pose proof (daemon_scan_spec k Hl) as Hs; destruct (Soft.daemon_scan callback k) as [b k1];
    destruct Hs as (Hb & Hk1 & Hl1 & Ht1).
  - assert (Hne : forall i, 0 <= i < Soft.MAX_TIMERS -> Soft.expired (get_current_tick k) (Soft.stimer k i) = false).
    { intros i Hr. destruct (Hi i Hr). by apply not_expired_lag. }
    assert (b = false) as ->.
    { rewrite Hb. apply not_true_is_false. rewrite existsb_exists. intros (i & Hin & Hr).
      apply list_elem_of_In, elem_of_seqZ in Hin. unfold rescan in Hr. rewrite Hne in Hr by lia. done. }
    exists k1. split; [done|]. split; [done|]. intros i Hr. rewrite Hk1 by done. unfold fire. by rewrite Hne, Hne.
  - destruct b.
    + destruct (IH k1 Hl1) as (k' & Hk' & Ht' & He'); [by rewrite Ht1| |].
      * intros i Hr. rewrite Ht1, Hk1 by done. destruct (Hi i Hr) as [Hf Hlag].
        destruct (lag_fire _ _ n H0 Hf Hlag). done.
      * exists k'. rewrite Ht1 in Ht', He'. done.
    + exists k1. split; [done|]. split; [done|]. intros i Hr. rewrite Hk1 by done.
      symmetry in Hb. apply not_true_iff_false in Hb. rewrite existsb_exists in Hb.
      unfold fire. destruct (Soft.expired (get_current_tick k) (Soft.stimer k i)) eqn:E; [|done].
      apply not_true_is_false. intros Hx. apply Hb. exists i. split.
      * apply list_elem_of_In, elem_of_seqZ. unfold Soft.timer_slots. lia.
      * unfold rescan, fire. by rewrite E, Hx, orb_true_r.
Qed.
End DaemonProofs.

(** * The kernel invariant *)

Lemma notify_bits_ok id bits k : kernel_ok k -> kernel_ok (Process.notify_bits id bits k).
Proof.
  intros Hk. unfold Process.notify_bits. destruct (get_task_by_id k id) as [t|] eqn:Ht; [|done].
  apply get_task_by_id_task in Ht. cbv zeta. set (k1 := upd t _ k).
  assert (Hk1 : kernel_ok k1) by by apply kernel_ok_upd.
  destruct (sem_blocked _); [by apply state_of_task_ok|done].
Qed.

Lemma upd_pt_ok i f k : kernel_ok k -> kernel_ok (Process.upd_pt i f k).
Proof. intros Hk. apply (kernel_ok_env k); try done. apply Hk. Qed.

Lemma process_on_tick_ok k : kernel_ok k -> kernel_ok (Process.on_tick k).
Proof.
  unfold Process.on_tick. generalize (get_current_tick k) Process.timer_slots. intros cur l. revert k.
  induction l as [|i l IH]; intros k Hk; cbn [foldl]; [done|]. apply IH.
  unfold Process.on_tick_slot. cbv zeta. destruct (Process.due _ _); [|done]. apply upd_pt_ok.
  unfold Process.notify_owner. cbv zeta.
  repeat (destruct (Process.flag _ _); [first [by apply send_signal_ok|by apply notify_bits_ok]|]).
  by apply send_signal_ok.
Qed.

Lemma on_mgr_ok f k : kernel_ok k -> kernel_ok (Soft.on_mgr f k).
Proof. intros Hk. apply (kernel_ok_env k); try done. apply Hk. Qed.

Section TimersOk.
Context (run_handler : Z -> Z -> Kernel -> Kernel) `{!GoodHandlers run_handler}.

Lemma wake_daemon_ok k : kernel_ok k -> kernel_ok (Soft.wake_daemon run_handler k).
Proof.
  intros Hk. unfold Soft.wake_daemon. destruct (existsb _ _); [|done]. cbv zeta.
  by apply sem_signal_ok, on_mgr_ok.
Qed.

Lemma timer_on_tick_ok k : kernel_ok k -> kernel_ok (Soft.on_tick run_handler k).
Proof. intros Hk. unfold Soft.on_tick. cbv zeta. by apply process_on_tick_ok, wake_daemon_ok, on_mgr_ok. Qed.

Lemma timer_fast_forward_ok n k : kernel_ok k -> kernel_ok (Soft.fast_forward_ticks run_handler n k).
Proof. intros Hk. unfold Soft.fast_forward_ticks. cbv zeta. by apply process_on_tick_ok, wake_daemon_ok, on_mgr_ok. Qed.

Lemma SysTick_Handler_ok k : kernel_ok k -> kernel_ok (Soft.SysTick_Handler run_handler k).
Proof.
  intros Hk. unfold Soft.SysTick_Handler. cbv zeta. apply schedule_ok; [done|].
  by apply tick_update_ok, frame_on_tick_ok, timer_on_tick_ok.
Qed.
End TimersOk.
