(* ===== verification/Mutex.v ===== *)
(** Recursive mutexes with priority inheritance, priority ceilings and deadlock
    detection (kernel/core/mutex.hpp).

    A [Mutex*] is a key of [mutexes]; the mutexes a task holds form the list
    through [held_mutexes] and [next_held_].  [lock] gives up the CPU inside its
    loop, so the model has its entry and one pass through the loop. *)
From S2P Require Import Prelude Kernel ReadyQueue WaitQueue Endpoint Mpu TaskTable IpcSpec Scheduler Preserve Sync.

Definition EDEADLK : Z := 35.

Definition prio (k : Kernel) (i : Z) : Z := current_priority (scheduler (tcb k i)).
Definition waits (k : Kernel) (i : Z) : option Z := waiting_on_mutex (scheduler (tcb k i)).
Definition held (k : Kernel) (i : Z) : option Z := held_mutexes (scheduler (tcb k i)).
Definition owner (k : Kernel) (m : Z) : option Z := owner_ (mtx k m).
Definition task_id (k : Kernel) (i : Z) : Z := sched_id (scheduler (tcb k i)).

(** Bounds of the loops: [Scheduler::get_max_tasks] rounds, and one round per
    mutex of a held list. *)
Definition task_fuel : nat := 16.
Definition held_fuel (k : Kernel) : nat := S (size (mutexes k)).

Definition higher_waiter (m : Z) (k : Kernel) (max_prio i : Z) : Z :=
  if bit_test (mutex_wait_mask_ (mtx k m)) i then
    match get_task_by_id k i with
    | Some t => if max_prio <? prio k t then prio k t else max_prio
    | None => max_prio
    end
  else max_prio.

Definition get_highest_waiter (m : Z) (k : Kernel) : Z :=
  foldl (higher_waiter m k) 0 (seqZ 0 MAX_TASKS).

(** ** Deadlock detection *)

(** The task that [check]'s wait leads to. *)
Definition blocks_on (k : Kernel) (check : Z) : option Z := m ← waits k check; owner k m.

Fixpoint deadlock_walk (fuel : nat) (current : Z) (check : option Z) (k : Kernel) : bool :=
  match fuel, check with
  | S fuel, Some c => if c =? current then true else deadlock_walk fuel current (blocks_on k c) k
  | _, _ => false
  end.

Definition check_deadlock (current m : Z) (k : Kernel) : bool :=
  deadlock_walk task_fuel current (owner k m) k.

(** ** Priorities *)

Fixpoint propagate_loop (fuel : nat) (start task : Z) (k : Kernel) : Kernel :=
  match fuel with
  | O => k
  | S fuel =>
      match waits k task with
      | None => k
      | Some m =>
          match owner k m with
          | None => k
          | Some o =>
              if o =? start then k
              else if prio k o <? prio k task
                   then propagate_loop fuel start o (set_task_priority (task_id k o) (prio k task) k)
                   else k
          end
      end
  end.

Definition propagate_priority (start_task : Z) (k : Kernel) : Kernel :=
  propagate_loop task_fuel start_task start_task k.

(** The priority the held mutexes entitle to: ceilings and waiters. *)
Fixpoint held_max (fuel : nat) (m : option Z) (max_prio : Z) (k : Kernel) : Z :=
  match fuel, m with
  | S fuel, Some m =>
      let max_prio := if max_prio <? ceiling_prio_ (mtx k m) then ceiling_prio_ (mtx k m) else max_prio in
      let highest_waiter := get_highest_waiter m k in
      let max_prio := if max_prio <? highest_waiter then highest_waiter else max_prio in
      held_max fuel (next_held_ (mtx k m)) max_prio k
  | _, _ => max_prio
  end.

Definition entitled_prio (task : Z) (k : Kernel) : Z :=
  held_max (held_fuel k) (held k task) (base_priority (scheduler (tcb k task))) k.

Fixpoint recalculate_loop (fuel : nat) (task : Z) (k : Kernel) : Kernel :=
  match fuel with
  | O => k
  | S fuel =>
      let max_prio := entitled_prio task k in
      if max_prio =? prio k task then k else
      let k := set_task_priority (task_id k task) max_prio k in
      match blocks_on k task with
      | Some o => recalculate_loop fuel o k
      | None => k
      end
  end.

Definition recalculate_priority_chain (start_task : Z) (k : Kernel) : Kernel :=
  recalculate_loop task_fuel start_task k.

(** ** Waking *)

(** One round: a blocked waiter is a candidate, any other bit is cleared. *)
Definition wake_step (k : Kernel) (st : Z * option Z) (i : Z) : Z * option Z :=
  let '(mask, best) := st in
  if bit_test mask i then
    match get_task_by_id k i with
    | Some t => if sem_blocked (tcb k t)
                then (mask, better_waiter k mask best i)
                else (bit_clear mask i, best)
    | None => (bit_clear mask i, best)
    end
  else (mask, best).

Definition wake_highest_waiter (m : Z) (k : Kernel) : Kernel :=
  if mutex_wait_mask_ (mtx k m) =? 0 then k else
  let '(mask, best) := foldl (wake_step k) (mutex_wait_mask_ (mtx k m), None) (seqZ 0 MAX_TASKS) in
  match best with
  | Some best_id => set_task_state best_id Ready (upd_mtx m (set_mutex_wait_mask_ (bit_clear mask best_id)) k)
  | None => upd_mtx m (set_mutex_wait_mask_ mask) k
  end.

(** ** Locking *)

(** [locked_ = true; owner_ = c; ...]: the mutex becomes the head of the
    owner's list, and the owner is raised to the ceiling. *)
Definition acquire (m : Z) (current : option Z) (k : Kernel) : Kernel :=
  let k := upd_mtx m (fun x => set_recursive_count_ 1 (set_owner_ current (set_locked_ true x))) k in
  match current with
  | None => k
  | Some c =>
      let k := upd_mtx m (set_next_held_ (held k c)) k in
      let k := upd c (set_held_mutexes (Some m)) k in
      if prio k c <? ceiling_prio_ (mtx k m)
      then set_task_priority (task_id k c) (ceiling_prio_ (mtx k m)) k else k
  end.

Definition count_up (m : Z) (k : Kernel) : Kernel :=
  upd_mtx m (fun x => set_recursive_count_ (wrap32 (recursive_count_ x + 1)) x) k.

Definition owned_by (k : Kernel) (m : Z) (current : option Z) : bool :=
  match owner k m, current with Some o, Some c => o =? c | _, _ => false end.

(** The entry of [lock]: [Some b] is the value returned, [None] means that the
    caller now waits and goes on to the loop. *)
Definition lock_enter (m : Z) (k : Kernel) : option bool * Kernel :=
  let current := g_current_tcb_ptr k in
  if negb (locked_ (mtx k m)) then (Some true, acquire m current k) else
  if owned_by k m current then (Some true, count_up m k) else
  match current with
  | None => (Some false, k)
  | Some c =>
      if check_deadlock c m k then (Some false, upd c (set_errno_val EDEADLK) k) else
      let k := upd c (set_waiting_on_mutex (Some m)) k in
      let k := upd_mtx m (fun x => set_mutex_wait_mask_ (bit_set (mutex_wait_mask_ x) (task_id k c)) x) k in
      let k := match owner k m with
               | Some o => if prio k o <? prio k c then propagate_priority c k else k
               | None => k
               end in
      (None, k)
  end.

(** [wait_mask_ &= ~(1 << id); waiting_on_mutex = nullptr]. *)
Definition stop_waiting (m c : Z) (k : Kernel) : Kernel :=
  let k := upd_mtx m (fun x => set_mutex_wait_mask_ (bit_clear (mutex_wait_mask_ x) (task_id k c)) x) k in
  upd c (set_waiting_on_mutex None) k.

(** One pass through the loop by the waiting task [c]. *)
Definition lock_pass (m c timeout_ticks start_tick : Z) (k : Kernel) : option bool * Kernel :=
  if negb (locked_ (mtx k m)) then (Some true, acquire m (Some c) (stop_waiting m c k)) else
  if owned_by k m (Some c) then (Some true, count_up m (stop_waiting m c k)) else
  let elapsed := wrap32 (get_current_tick k - start_tick) in
  if negb (timeout_ticks =? FOREVER) && (timeout_ticks <=? elapsed) then
    let k := stop_waiting m c k in
    (Some false, match owner k m with Some o => recalculate_priority_chain o k | None => k end)
  else
    let k := upd_mtx m (fun x => set_mutex_wait_mask_ (bit_set (mutex_wait_mask_ x) (task_id k c)) x) k in
    if negb (timeout_ticks =? FOREVER) then
      let k := upd c (set_sleep_ticks (wrap32 (timeout_ticks - elapsed))) k in
      (None, set_task_state (task_id k c) Sleeping k)
    else (None, set_task_state (task_id k c) Suspended k).

(** ** Unlocking *)

(** The walk over the held list with a pointer to the link: [at_] is the mutex
    whose [next_held_] is looked at. *)
Fixpoint unlink_held (fuel : nat) (m at_ : Z) (k : Kernel) : Kernel :=
  match fuel with
  | O => k
  | S fuel =>
      match next_held_ (mtx k at_) with
      | None => k
      | Some n => if n =? m then upd_mtx at_ (set_next_held_ (next_held_ (mtx k m))) k
                  else unlink_held fuel m n k
      end
  end.

Definition remove_held (m o : Z) (k : Kernel) : Kernel :=
  match held k o with
  | None => k
  | Some h => if h =? m then upd o (set_held_mutexes (next_held_ (mtx k m))) k
              else unlink_held (held_fuel k) m h k
  end.

(** The release common to [unlock] and [force_unlock]: the mutex leaves its
    owner's list and is free, then the owner's priority is recomputed and the
    best waiter woken. *)
Definition detach (m : Z) (current : option Z) (clear_count : bool) (k : Kernel) : Kernel :=
  let k := match current with Some o => remove_held m o k | None => k end in
  let k := upd_mtx m (fun x => set_locked_ false (set_owner_ None (set_next_held_ None x))) k in
  if clear_count then upd_mtx m (set_recursive_count_ 0) k else k.

Definition release_mutex (m : Z) (current : option Z) (clear_count : bool) (k : Kernel) : Kernel :=
  let k := detach m current clear_count k in
  let k := match current with Some o => recalculate_priority_chain o k | None => k end in
  wake_highest_waiter m k.

Definition same_owner (a b : option Z) : bool := bool_decide (a = b).

(** [unlock] up to the context switch; [true] is [trigger_schedule]. *)
Definition unlock_core (m : Z) (k : Kernel) : bool * Kernel :=
  let current := g_current_tcb_ptr k in
  if locked_ (mtx k m) && same_owner (owner k m) current then
    let k := upd_mtx m (fun x => set_recursive_count_ (wrap32 (recursive_count_ x - 1)) x) k in
    if recursive_count_ (mtx k m) =? 0 then (true, release_mutex m current false k) else (false, k)
  else (false, k).

Definition force_unlock (m : Z) (target_owner : option Z) (k : Kernel) : Kernel :=
  if locked_ (mtx k m) && same_owner (owner k m) target_owner
  then release_mutex m target_owner true k else k.

Section Schedule.
Context (run_handler : Z -> Z -> Kernel -> Kernel).

Definition unlock (m : Z) (k : Kernel) : Kernel :=
  let '(trigger_schedule, k) := unlock_core m k in
  if trigger_schedule then schedule run_handler k else k.

(** [lock], up to its first blocking point. *)
Definition lock (m timeout_ticks : Z) (k : Kernel) : option bool * Kernel :=
  let start_tick := get_current_tick k in
  match lock_enter m k with
  | (Some b, k) => (Some b, k)
  | (None, k) =>
      match g_current_tcb_ptr k with
      | None => (None, k)
      | Some c =>
          match lock_pass m c timeout_ticks start_tick k with
          | (Some b, k) => (Some b, k)
          | (None, k) => (None, schedule run_handler k)
          end
      end
  end.
End Schedule.

Definition set_ceiling (m ceiling : Z) (k : Kernel) : Kernel := upd_mtx m (set_ceiling_prio_ ceiling) k.

(** * Deadlock detection *)

(** The task reached after [n] steps along the wait-for chain. *)
Definition chain (k : Kernel) (n : nat) (check : option Z) : option Z :=
  Nat.iter n (fun o => o ≫= blocks_on k) check.

Lemma chain_S k n check : chain k (S n) check = chain k n (check ≫= blocks_on k).
Proof. unfold chain. by rewrite Nat.iter_succ_r. Qed.

Lemma chain_add k a b check : chain k (a + b) check = chain k a (chain k b check).
Proof. unfold chain. by rewrite Nat.iter_add. Qed.

Lemma chain_None k n : chain k n None = None.
Proof. induction n as [|n IH]; [done|]. by rewrite chain_S. Qed.

Lemma deadlock_walk_spec fuel current check k :
  deadlock_walk fuel current check k = true <-> exists n, (n < fuel)%nat /\ chain k n check = Some current.
Proof.
  revert check. induction fuel as [|fuel IH]; intros check; cbn [deadlock_walk].
  { split; [done|]. intros (n & ? & _). lia. }
  destruct check as [c|].
  - destruct (Z.eqb_spec c current) as [->|Hne].
    + split; [|done]. intros _. exists 0%nat. split; [lia|done].
    + rewrite IH. split; intros (n & Hn & Hc).
      * exists (S n). split; [lia|]. by rewrite chain_S.
      * destruct n as [|n]; [cbn in Hc; congruence|]. exists n. split; [lia|]. by rewrite chain_S in Hc.
  - split; [done|]. intros (n & _ & Hc). by rewrite chain_None in Hc.
Qed.

(** Owners are entries of the task table. *)
Definition owners_ok (k : Kernel) : Prop := forall m o, owner k m = Some o -> 0 <= o < MAX_TASKS.

Lemma chain_range k n check c :
  owners_ok k -> (forall o, check = Some o -> 0 <= o < MAX_TASKS) -> chain k n check = Some c -> 0 <= c < MAX_TASKS.
Proof.
  intros Ho. revert check. induction n as [|n IH]; intros check Hc; [apply Hc|]. rewrite chain_S. apply IH.
  intros o. unfold blocks_on. destruct check as [a|]; [|done]. cbn. destruct (waits k a); [|done]. apply Ho.
Qed.

(** The chain has at most one task per table entry before it repeats, so a
    cycle is found within [get_max_tasks] steps or not at all. *)
Lemma chain_short k check current n :
  owners_ok k -> (forall o, check = Some o -> 0 <= o < MAX_TASKS) -> chain k n check = Some current ->
  exists n', (n' < task_fuel)%nat /\ chain k n' check = Some current.
Proof.
  intros Ho Hc. induction n as [n IH] using lt_wf_ind. intros Hn.
  destruct (decide (n < task_fuel)%nat) as [Hlt|Hge]; [by exists n|].
  assert (Hsome : forall a, (a <= n)%nat -> is_Some (chain k a check)).
  { intros a Ha. destruct (chain k a check) eqn:E; [done|]. replace n with (n - a + a)%nat in Hn by lia.
    by rewrite chain_add, E, chain_None in Hn. }
  destruct (decide (NoDup (map (fun a => chain k a check) (seq 0 (S n))))) as [Hnd|Hdup].
  - exfalso. assert (Hsub : map (fun a => chain k a check) (seq 0 (S n)) ⊆+ map Some (seqZ 0 MAX_TASKS)).
    { apply NoDup_submseteq; [done|]. intros x Hx. apply list_elem_of_In, in_map_iff in Hx as (a & <- & Ha).
      apply in_seq in Ha. destruct (Hsome a) as [c E]; [lia|]. rewrite E.
      apply list_elem_of_In, in_map. apply list_elem_of_In, elem_of_seqZ.
      pose proof (chain_range k a check c Ho Hc E). lia. }
    apply submseteq_length in Hsub. rewrite !length_map, length_seq, length_seqZ in Hsub.
    unfold task_fuel, MAX_TASKS in *. lia.
  - assert (exists a b, (a < b <= n)%nat /\ chain k a check = chain k b check) as (a & b & Hab & E).
    { set (l := seq 0 (S n)) in *.
      destruct (decide (Exists (fun a => Exists (fun b => (a < b)%nat /\ chain k a check = chain k b check) l) l)) as [Hex|Hno].
      - apply Exists_exists in Hex as (a & Ha & (b & Hb & Hab & E)%Exists_exists).
        apply elem_of_seq in Ha, Hb. exists a, b. split; [lia|done].
      - destruct Hdup. apply NoDup_ListNoDup, NoDup_map_NoDup_ForallPairs; [|apply seq_NoDup].
        assert (Hlt : forall a b, In a l -> In b l -> (a < b)%nat -> chain k a check <> chain k b check).
        { intros a b Ha Hb Hab E. apply Hno. apply Exists_exists. exists a. split; [by apply list_elem_of_In|].
          apply Exists_exists. exists b. split; [by apply list_elem_of_In|done]. }
        intros a b Ha Hb E. destruct (Nat.lt_trichotomy a b) as [Hl|[?|Hl]]; [|done|].
        + by destruct (Hlt a b).
        + by destruct (Hlt b a). }
    apply (IH (n - b + a)%nat); [lia|]. rewrite chain_add, E, <- chain_add. by replace (n - b + b)%nat with n by lia.
Qed.

Lemma check_deadlock_spec current m k :
  owners_ok k -> check_deadlock current m k = true <-> exists n, chain k n (owner k m) = Some current.
Proof.
  intros Ho. unfold check_deadlock. rewrite deadlock_walk_spec. split; [intros (n & _ & H); by exists n|].
  intros (n & H). apply (chain_short k (owner k m) current n Ho); [apply Ho|done].
Qed.

(** * The held lists *)

Definition nxh (k : Kernel) (m : Z) : option Z := next_held_ (mtx k m).

(** [o] is the head of the list [l] linked through [nx]. *)
Fixpoint hseg (nx : Z -> option Z) (o : option Z) (l : list Z) : Prop :=
  match l with
  | [] => o = None
  | x :: l => o = Some x /\ hseg nx (nx x) l
  end.

Lemma hseg_ext nx nx' o l : (forall x, x ∈ l -> nx' x = nx x) -> hseg nx o l -> hseg nx' o l.
Proof.
  revert o. induction l as [|x l IH]; intros o Hx; [done|]. intros [-> H]. split; [done|].
  rewrite Hx by set_solver. apply IH; [set_solver|done].
Qed.

(** [locks_inv' x k H]: [H t] lists the mutexes task [t] holds; the recursion
    count of mutex [x] may be 0 (it is being released). *)
Record locks_inv' (x : option Z) (k : Kernel) (H : Z -> list Z) : Prop := {
  lk_list : forall t, is_task k t -> hseg (nxh k) (held k t) (H t);
  lk_nodup : forall t, is_task k t -> NoDup (H t);
  lk_mem : forall t m, is_task k t -> m ∈ H t <-> owner k m = Some t;
  lk_owner : forall m o, owner k m = Some o -> is_task k o;
  lk_locked : forall m o, owner k m = Some o -> locked_ (mtx k m) = true;
  lk_count : forall m o, x <> Some m -> owner k m = Some o -> 1 <= recursive_count_ (mtx k m) < 2 ^ 32;
  lk_ceiling : forall m, is_prio (ceiling_prio_ (mtx k m));
  lk_dom : forall m o, owner k m = Some o -> m ∈ dom (mutexes k);
}.

Arguments lk_list {x} k H _.
Arguments lk_nodup {x} k H _.
Arguments lk_mem {x} k H _.
Arguments lk_owner {x} k H _.
Arguments lk_locked {x} k H _.
Arguments lk_count {x} k H _.
Arguments lk_ceiling {x} k H _.
Arguments lk_dom {x} k H _.

Definition locks_inv : Kernel -> (Z -> list Z) -> Prop := locks_inv' None.
Definition locks_ok (k : Kernel) : Prop := exists H, locks_inv k H.

(** What the invariant reads of a mutex and of a task. *)
Definition lock_view (x : Mutex) : bool * option Z * Z * option Z * Z :=
  (locked_ x, owner_ x, recursive_count_ x, next_held_ x, ceiling_prio_ x).

Definition same_locks (k k' : Kernel) : Prop :=
  task_count k' = task_count k /\ (forall m, lock_view (mtx k' m) = lock_view (mtx k m)) /\
  (forall t, held k' t = held k t) /\ dom (mutexes k) ⊆ dom (mutexes k').

#[export] Instance same_locks_refl : Reflexive same_locks.
Proof. by intros k. Qed.
#[export] Instance same_locks_trans : Transitive same_locks.
Proof.
  intros k1 k2 k3 (C1 & M1 & H1 & D1) (C2 & M2 & H2 & D2). split; [congruence|]. split; [intros; by rewrite M2|].
  split; [intros; by rewrite H2|set_solver].
Qed.

Lemma locks_inv_same k k' H : same_locks k k' -> locks_inv k H -> locks_inv k' H.
Proof.
  intros (Hc & Hm & Hh & Hd) HI.
  assert (Ht : forall t, is_task k' t <-> is_task k t) by (intros; unfold is_task; by rewrite Hc).
  assert (Ho : forall m, owner k' m = owner k m) by (intros m; specialize (Hm m); unfold lock_view in Hm; unfold owner; congruence).
  assert (Hn : forall m, nxh k' m = nxh k m) by (intros m; specialize (Hm m); unfold lock_view in Hm; unfold nxh; congruence).
  split.
  - intros t Hi%Ht. rewrite Hh. by apply (hseg_ext (nxh k)), HI.
  - intros t Hi%Ht. by apply HI.
  - intros t m Hi%Ht. rewrite Ho. by apply HI.
  - intros m o. rewrite Ho, Ht. apply HI.
  - intros m o. rewrite Ho. specialize (Hm m). unfold lock_view in Hm. injection Hm as -> _ _ _ _. apply HI.
  - intros m o Hx. rewrite Ho. specialize (Hm m). unfold lock_view in Hm. injection Hm as _ _ -> _ _. by apply HI.
  - intros m. specialize (Hm m). unfold lock_view in Hm. injection Hm as _ _ _ _ ->. apply HI.
  - intros m o. rewrite Ho. intros Hm'. apply Hd. by eapply (lk_dom _ _ HI).
Qed.

Lemma sl_frame eK eT k k' :
  same_upto eK eT k k' ->
  (forall k, task_count (eK k) = task_count k /\ mutexes (eK k) = mutexes k) ->
  (forall t, held_mutexes (scheduler (eT t)) = held_mutexes (scheduler t)) -> same_locks k k'.
Proof.
  intros Hf HK HT. assert (Hm : mutexes k' = mutexes k) by (apply (su_env_proj mutexes Hf); apply HK).
  split; [apply (su_env_proj task_count Hf); apply HK|]. split; [intros m; unfold mtx; by rewrite Hm|].
  split; [|by rewrite Hm]. intros t. by apply (su_proj (fun t => held_mutexes (scheduler t)) t Hf).
Qed.

Lemma sl_priority id p k : same_locks k (set_task_priority id p k).
Proof. by eapply sl_frame; [apply set_task_priority_frame|..]. Qed.
Lemma sl_state id s k : same_locks k (set_task_state id s k).
Proof. by eapply sl_frame; [apply set_task_state_frame|..]. Qed.

Lemma sl_upd i f k : (forall t, held_mutexes (scheduler (f t)) = held_mutexes (scheduler t)) -> same_locks k (upd i f k).
Proof. intros Hf. split; [done|]. split; [done|]. split; [|done]. intros t. by apply (tcb_upd_frame (fun t => held_mutexes (scheduler t))). Qed.

Lemma sl_upd_mtx m f k : (forall x, lock_view (f x) = lock_view x) -> same_locks k (upd_mtx m f k).
Proof.
  intros Hf. split; [done|]. split; [|split; [done|]].
  - intros m'. rewrite mtx_upd_mtx. case_decide; [subst; apply Hf|done].
  - unfold upd_mtx. cbn. set_solver.
Qed.

Lemma sl_propagate fuel s t k : same_locks k (propagate_loop fuel s t k).
Proof.
  revert t k. induction fuel as [|fuel IH]; intros t k; cbn [propagate_loop]; [done|].
  destruct (waits k t) as [m|]; [|done]. destruct (owner k m) as [o|]; [|done].
  destruct (_ =? _); [done|]. destruct (_ <? _); [|done]. etrans; [apply sl_priority|apply IH].
Qed.

Lemma sl_recalculate fuel t k : same_locks k (recalculate_loop fuel t k).
Proof.
  revert t k. induction fuel as [|fuel IH]; intros t k; cbn [recalculate_loop]; [done|]. cbv zeta.
  destruct (_ =? _); [done|]. destruct (blocks_on _ t) as [o|]; [|apply sl_priority].
  etrans; [apply sl_priority|apply IH].
Qed.

Lemma sl_recalculate_chain t k : same_locks k (recalculate_priority_chain t k).
Proof. unfold recalculate_priority_chain. apply sl_recalculate. Qed.
Lemma sl_propagate_priority t k : same_locks k (propagate_priority t k).
Proof. unfold propagate_priority. apply sl_propagate. Qed.

Lemma sl_wake m k : same_locks k (wake_highest_waiter m k).
Proof.
  unfold wake_highest_waiter. destruct (_ =? 0); [done|]. destruct (foldl _ _ _) as [mask [b|]].
  - etrans; [|apply sl_state]. by apply (sl_upd_mtx m (set_mutex_wait_mask_ (bit_clear mask b))).
  - by apply sl_upd_mtx.
Qed.

(** ** Taking a mutex *)

Lemma held_acquire m c k t :
  valid_task k c -> held (upd c (set_held_mutexes (Some m)) k) t = if decide (c = t) then Some m else held k t.
Proof. intros Hv. unfold held. rewrite tcb_upd by done. by case_decide. Qed.

Lemma acquire_inv m c k H :
  locks_inv k H -> sched_ok k -> is_task k c -> owner k m = None ->
  locks_inv (acquire m (Some c) k) (fun t => if decide (t = c) then m :: H c else H t).
Proof.
  intros HI Hs Hc Hno. unfold acquire. cbv zeta.
  set (k1 := upd_mtx m _ k). set (k2 := upd_mtx m (set_next_held_ (held k1 c)) k1).
  set (k3 := upd c _ k2). apply (locks_inv_same k3).
  { destruct (_ <? _); [apply sl_priority|done]. }
  assert (Hv : valid_task k2 c) by by apply (sched_ok_valid k).
  assert (Hmtx : forall m', mtx k3 m' = if decide (m = m') then
    set_next_held_ (held k c) (set_recursive_count_ 1 (set_owner_ (Some c) (set_locked_ true (mtx k m)))) else mtx k m').
  { intros m'. change (mtx k3 m') with (mtx k2 m'). unfold k2. rewrite mtx_upd_mtx.
    change (held k1 c) with (held k c). unfold k1. rewrite mtx_upd_mtx. case_decide; [by subst|done]. }
  assert (Hown : forall m', owner k3 m' = if decide (m = m') then Some c else owner k m').
  { intros m'. unfold owner. rewrite Hmtx. by case_decide. }
  assert (Hheld : forall t, held k3 t = if decide (c = t) then Some m else held k t).
  { intros t. unfold k3. by rewrite held_acquire. }
  assert (Hni : forall t, is_task k t -> m ∉ H t).
  { intros t Ht Hin%(lk_mem _ _ HI t m Ht). congruence. }
  assert (Hseg : forall t, is_task k t -> hseg (nxh k3) (held k t) (H t)).
  { intros t Ht. apply (hseg_ext (nxh k)); [|by apply HI]. intros x Hx. unfold nxh. rewrite Hmtx.
    rewrite decide_False; [done|]. intros ->. by apply (Hni t Ht). }
  split.
  - intros t Ht. rewrite Hheld. destruct (decide (t = c)) as [->|Hne].
    + rewrite decide_True by done. split; [done|]. unfold nxh at 2. rewrite Hmtx, decide_True by done. cbn. by apply Hseg.
    + rewrite decide_False by done. by apply Hseg.
  - intros t Ht. case_decide; [subst t|by apply HI]. apply NoDup_cons. split; [by apply Hni|by apply HI].
  - intros t m' Ht. rewrite Hown. destruct (decide (t = c)) as [->|Hne].
    + rewrite elem_of_cons, (lk_mem _ _ HI c m' Hc). case_decide; naive_solver.
    + rewrite (lk_mem _ _ HI t m' Ht). case_decide; [subst m'|done]. rewrite Hno. naive_solver.
  - intros m' o. rewrite Hown. case_decide; [by intros [= <-]|]. apply HI.
  - intros m' o. rewrite Hown, Hmtx. case_decide; [done|]. apply HI.
  - intros m' o Hx. rewrite Hown, Hmtx. case_decide; [done|]. by apply HI.
  - intros m'. rewrite Hmtx. case_decide; [apply (lk_ceiling _ _ HI m)|apply HI].
  - intros m' o. rewrite Hown. intros Hm. change (m' ∈ dom (mutexes k2)). unfold k2, upd_mtx. cbn.
    case_decide; [set_solver|]. apply (lk_dom _ _ HI) in Hm. set_solver.
Qed.

(** ** Giving a mutex back *)

Lemma unlink_held_spec fuel m a l k :
  hseg (nxh k) (nxh k a) l -> m ∈ l -> NoDup (a :: l) -> (length l <= fuel)%nat ->
  exists p l1 l2, unlink_held fuel m a k = upd_mtx p (set_next_held_ (nxh k m)) k /\
    a :: l = l1 ++ p :: m :: l2.
Proof.
  revert a l. induction fuel as [|fuel IH]; intros a l Hs Hm Hnd Hl.
  { destruct l; [set_solver|cbn in Hl; lia]. }
  cbn [unlink_held]. fold (nxh k a). destruct l as [|n l]; [set_solver|]. destruct Hs as [E Hs]. rewrite E.
  destruct (Z.eqb_spec n m) as [->|Hne].
  - by exists a, [], l.
  - apply elem_of_cons in Hm as [->|Hm]; [done|]. apply NoDup_cons in Hnd as [_ Hnd].
    destruct (IH n l Hs Hm Hnd) as (p & l1 & l2 & Hu & Hp); [cbn in Hl; lia|].
    exists p, (a :: l1), l2. split; [done|]. by rewrite Hp.
Qed.

(** Splicing an element out of a linked list. *)
Lemma hseg_splice nx nx' o l1 p m l2 :
  hseg nx o (l1 ++ p :: m :: l2) -> NoDup (l1 ++ p :: m :: l2) ->
  (forall x, x <> p -> x ∈ l1 ++ p :: m :: l2 -> nx' x = nx x) -> nx' p = nx m ->
  hseg nx' o (l1 ++ p :: l2).
Proof.
  revert o. induction l1 as [|a l1 IH]; intros o; cbn [app]; intros [-> Hs] Hnd Hx Hp.
  - destruct Hs as [_ Hs]. split; [done|]. rewrite Hp. apply (hseg_ext nx); [|done].
    intros x Hin. apply Hx; [|set_solver]. intros ->. apply NoDup_cons in Hnd as [Hnd _]. set_solver.
  - apply NoDup_cons in Hnd as [Ha Hnd]. split; [done|]. rewrite Hx by set_solver.
    apply IH; [done|done| |done]. intros x Hne Hin. apply Hx; [done|set_solver].
Qed.

Lemma held_length x k H t : locks_inv' x k H -> is_task k t -> (length (H t) <= held_fuel k)%nat.
Proof.
  intros HI Ht. unfold held_fuel. rewrite <- size_dom.
  rewrite <- (size_list_to_set (C := gset Z)) by by apply HI.
  apply Nat.le_le_succ_r, subseteq_size. intros m Hm%elem_of_list_to_set.
  apply (lk_mem _ _ HI t m Ht) in Hm. by eapply (lk_dom _ _ HI).
Qed.

Definition lock_rest (x : Mutex) : bool * option Z * Z * Z :=
  (locked_ x, owner_ x, recursive_count_ x, ceiling_prio_ x).

(** The links of every list other than [o]'s, and of [o]'s without [m]. *)
Lemma remove_held_spec x0 m o k H :
  locks_inv' x0 k H -> sched_ok k -> is_task k o -> owner k m = Some o ->
  let k' := remove_held m o k in
  task_count k' = task_count k /\ dom (mutexes k) ⊆ dom (mutexes k') /\
  (forall x, lock_rest (mtx k' x) = lock_rest (mtx k x)) /\
  (forall t, is_task k t -> t <> o -> held k' t = held k t /\ forall x, x ∈ H t -> nxh k' x = nxh k x) /\
  hseg (nxh k') (held k' o) (del m (H o)).
Proof.
  intros HI Hs Ho Hm k'. pose proof (lk_list _ _ HI o Ho) as Hseg. pose proof (lk_nodup _ _ HI o Ho) as Hnd.
  pose proof (proj2 (lk_mem _ _ HI o m Ho) Hm) as Hin. pose proof (held_length _ _ _ _ HI Ho) as Hlen.
  assert (Hdisj : forall t x, is_task k t -> t <> o -> x ∈ H t -> x ∉ H o).
  { intros t x Ht Hne Hx Hx'. apply (lk_mem _ _ HI t x Ht) in Hx. apply (lk_mem _ _ HI o x Ho) in Hx'. congruence. }
  unfold k', remove_held. destruct (H o) as [|h l] eqn:El; [set_solver|]. destruct Hseg as [Eh Hseg]. rewrite Eh.
  destruct (Z.eqb_spec h m) as [->|Hne].
  - split; [done|]. split; [done|]. split; [done|]. split.
    + intros t Ht Hto. unfold held. by rewrite tcb_upd_ne.
    + unfold held. rewrite tcb_upd_eq by by apply (sched_ok_valid k).
      pose proof (del_split m [] l Hnd) as Hdel. cbn [app] in Hdel. rewrite Hdel. by apply (hseg_ext (nxh k)).
  - apply elem_of_cons in Hin as [->|Hin]; [done|].
    destruct (unlink_held_spec (held_fuel k) m h l k Hseg Hin Hnd) as (p & l1 & l2 & -> & Hsplit).
    { cbn in Hlen. lia. }
    assert (Hp : p ∈ h :: l) by (rewrite Hsplit; set_solver).
    split; [done|]. split; [unfold upd_mtx; cbn; set_solver|]. split; [|split].
    + intros x. rewrite mtx_upd_mtx. by case_decide.
    + intros t Ht Hto. split; [done|]. intros x Hx. unfold nxh. rewrite mtx_upd_mtx, decide_False; [done|].
      intros <-. by apply (Hdisj t p).
    + change (held (upd_mtx p (set_next_held_ (nxh k m)) k) o) with (held k o). rewrite Eh, Hsplit in *.
      replace (l1 ++ p :: m :: l2) with ((l1 ++ [p]) ++ m :: l2) in * by by rewrite <- app_assoc.
      rewrite del_split by done. rewrite <- app_assoc in *.
      apply (hseg_splice (nxh k) _ _ l1 p m l2); cbn [app] in *.
      * destruct l1 as [|a l1]; cbn in Hsplit; injection Hsplit as -> ->; by split.
      * exact Hnd.
      * intros x Hx _. unfold nxh. by rewrite mtx_upd_mtx, decide_False.
      * unfold nxh. rewrite mtx_upd_mtx, decide_True by done. done.
Qed.

Lemma detach_inv x0 m o b k H :
  locks_inv' x0 k H -> x0 = None \/ x0 = Some m -> sched_ok k -> is_task k o -> owner k m = Some o ->
  locks_inv (detach m (Some o) b k) (fun t => if decide (t = o) then del m (H o) else H t).
Proof.
  intros HI Hx0 Hs Ho Hm. unfold detach. cbv zeta.
  destruct (remove_held_spec x0 m o k H HI Hs Ho Hm) as (Hc & Hd & Hx & Hother & Hmine).
  set (k1 := remove_held m o k) in *. clearbody k1. set (k2 := upd_mtx m _ k1).
  set (k3 := if b then _ else k2).
  assert (Hmtx : forall x, x <> m -> mtx k3 x = mtx k1 x).
  { intros x Hne. assert (E : mtx k2 x = mtx k1 x) by (unfold k2; by rewrite mtx_upd_mtx, decide_False).
    unfold k3. destruct b; [|done]. by rewrite mtx_upd_mtx, decide_False. }
  assert (Hmm : owner k3 m = None /\ ceiling_prio_ (mtx k3 m) = ceiling_prio_ (mtx k m)).
  { assert (E : mtx k2 m = set_locked_ false (set_owner_ None (set_next_held_ None (mtx k1 m)))).
    { unfold k2. by rewrite mtx_upd_mtx, decide_True. }
    assert (E3 : owner_ (mtx k3 m) = None /\ ceiling_prio_ (mtx k3 m) = ceiling_prio_ (mtx k1 m)).
    { unfold k3. destruct b; rewrite ?mtx_upd_mtx, ?decide_True, E by done; done. }
    specialize (Hx m). unfold lock_rest in Hx. injection Hx as _ _ _ <-. done. }
  assert (Hv : forall x, x <> m -> owner k3 x = owner k x /\ locked_ (mtx k3 x) = locked_ (mtx k x) /\
    recursive_count_ (mtx k3 x) = recursive_count_ (mtx k x) /\ ceiling_prio_ (mtx k3 x) = ceiling_prio_ (mtx k x)).
  { intros x Hne. unfold owner. rewrite Hmtx by done. specialize (Hx x). unfold lock_rest in Hx.
    injection Hx as -> -> -> ->. done. }
  assert (Ht : forall t, is_task k3 t <-> is_task k t).
  { intros t. unfold is_task. assert (task_count k3 = task_count k1) as -> by (unfold k3; by destruct b). by rewrite Hc. }
  assert (Hh : forall t, held k3 t = held k1 t) by (intros t; unfold k3; by destruct b).
  assert (Hnx : forall x, x <> m -> nxh k3 x = nxh k1 x) by (intros x Hne; unfold nxh; by rewrite Hmtx).
  split.
  - intros t Hi%Ht. rewrite Hh. destruct (decide (t = o)) as [->|Hne].
    + apply (hseg_ext (nxh k1)); [|done]. intros x Hin. apply Hnx. intros ->. by apply del_notin in Hin.
    + destruct (Hother t Hi Hne) as [-> Hl]. apply (hseg_ext (nxh k)); [|by apply HI].
      intros x Hin. rewrite Hnx; [by apply Hl|]. intros ->. apply (lk_mem _ _ HI t m Hi) in Hin. congruence.
  - intros t Hi%Ht. case_decide; [|by apply HI]. by apply NoDup_filter, HI.
  - intros t x Hi%Ht. destruct (decide (x = m)) as [->|Hxm].
    + destruct Hmm as [-> _]. split; [|done]. case_decide; [by intros ?%del_notin|].
      intros Hin%(lk_mem _ _ HI t m Hi). congruence.
    + destruct (Hv x Hxm) as (-> & _). destruct (decide (t = o)) as [->|]; [|by apply HI].
      rewrite elem_of_del, (lk_mem _ _ HI o x Ho). tauto.
  - intros x o'. destruct (decide (x = m)) as [->|Hxm]; [by destruct Hmm as [-> _]|].
    destruct (Hv x Hxm) as (-> & _). rewrite Ht. apply HI.
  - intros x o'. destruct (decide (x = m)) as [->|Hxm]; [by destruct Hmm as [-> _]|].
    destruct (Hv x Hxm) as (-> & -> & _). apply HI.
  - intros x o' _. destruct (decide (x = m)) as [->|Hxm]; [by destruct Hmm as [-> _]|].
    destruct (Hv x Hxm) as (-> & _ & -> & _). apply HI. destruct Hx0 as [->| ->]; congruence.
  - intros x. destruct (decide (x = m)) as [->|Hxm]; [destruct Hmm as [_ ->]|destruct (Hv x Hxm) as (_ & _ & _ & ->)]; apply HI.
  - intros x o'. destruct (decide (x = m)) as [->|Hxm]; [by destruct Hmm as [-> _]|].
    destruct (Hv x Hxm) as (-> & _). intros Hox. apply (lk_dom _ _ HI) in Hox.
    assert (dom (mutexes k1) ⊆ dom (mutexes k3)) as Hsub; [|by apply Hsub, Hd].
    unfold k3, k2. destruct b; unfold upd_mtx; cbn; set_solver.
Qed.

(** * The kernel invariant *)

Lemma kernel_ok_set_priority id p k : 0 <= id -> is_prio p -> kernel_ok k -> kernel_ok (set_task_priority id p k).
Proof.
  intros H0 [Hp Hlt] [[LQ HI] Hpr Hc]. split.
  - exists LQ. by apply ipc_inv_set_priority.
  - by apply prios_ok_priority.
  - by apply (cur_ok_same _ _ _ _ (set_task_priority_frame id p k)).
Qed.

Lemma prio_of_task_ok c p k :
  kernel_ok k -> is_task k c -> is_prio p -> kernel_ok (set_task_priority (task_id k c) p k).
Proof.
  intros Hk Hc Hp. unfold task_id. rewrite (sched_ok_id k c) by (done || by apply kernel_ok_sched).
  apply kernel_ok_set_priority; [apply Hc|done|done].
Qed.

Lemma task_prio k c : kernel_ok k -> is_task k c -> is_prio (prio k c).
Proof.
  intros Hk Hc. split; [|by apply (ko_prio _ Hk)]. apply sched_ok_prio; [by apply kernel_ok_sched|done].
Qed.

Lemma upd_mtx_ok m f k : kernel_ok k -> kernel_ok (upd_mtx m f k).
Proof. intros Hk. apply (kernel_ok_env k); try done. apply Hk. Qed.

(** Owners are tasks and ceilings are priorities. *)
Definition locks_wf (k : Kernel) : Prop :=
  (forall m o, owner k m = Some o -> is_task k o) /\ forall m, is_prio (ceiling_prio_ (mtx k m)).

Lemma locks_wf_of k H : locks_inv k H -> locks_wf k.
Proof. intros HI. split; apply HI. Qed.

Lemma locks_wf_same k k' : same_locks k k' -> locks_wf k -> locks_wf k'.
Proof.
  intros (Hc & Hm & _) [H1 H2]. split.
  - intros m o Ho. unfold is_task. rewrite Hc. apply (H1 m). specialize (Hm m). unfold lock_view, owner in *. congruence.
  - intros m. specialize (Hm m). specialize (H2 m). unfold lock_view in Hm. congruence.
Qed.

Lemma blocks_on_task k t o : locks_wf k -> blocks_on k t = Some o -> is_task k o.
Proof. intros [H1 _]. unfold blocks_on. destruct (waits k t) as [m|]; [|done]. apply H1. Qed.

Lemma propagate_ok fuel s t k : kernel_ok k -> locks_wf k -> is_task k t -> kernel_ok (propagate_loop fuel s t k).
Proof.
  revert t k. induction fuel as [|fuel IH]; intros t k Hk Hw Ht; cbn [propagate_loop]; [done|].
  destruct (waits k t) as [m|]; [|done]. destruct (owner k m) as [o|] eqn:Ho; [|done].
  destruct (_ =? _); [done|]. destruct (_ <? _); [|done]. apply (proj1 Hw) in Ho. apply IH.
  - apply prio_of_task_ok; [done|done|by apply task_prio].
  - by apply (locks_wf_same k); [apply sl_priority|].
  - unfold is_task. by rewrite count_set_task_priority.
Qed.

Lemma get_highest_waiter_prio m k : kernel_ok k -> is_prio (get_highest_waiter m k).
Proof.
  intros Hk. unfold get_highest_waiter. assert (H : forall l p, is_prio p -> is_prio (foldl (higher_waiter m k) p l)).
  { intros l. induction l as [|i l IH]; intros p Hp; cbn [foldl]; [done|]. apply IH.
    unfold higher_waiter. destruct (bit_test _ i); [|done]. destruct (get_task_by_id k i) as [t|] eqn:Ht; [|done].
    apply get_task_by_id_task in Ht. destruct (_ <? _); [by apply task_prio|done]. }
  by apply H.
Qed.

Lemma held_max_prio fuel o p k : kernel_ok k -> locks_wf k -> is_prio p -> is_prio (held_max fuel o p k).
Proof.
  intros Hk Hw. revert o p. induction fuel as [|fuel IH]; intros o p Hp; cbn [held_max]; [by destruct o|].
  destruct o as [m|]; [|done]. cbv zeta. apply IH. pose proof (get_highest_waiter_prio m k Hk).
  destruct (_ <? get_highest_waiter m k); [done|]. destruct (_ <? _); [apply Hw|done].
Qed.

Lemma entitled_prio_ok t k : kernel_ok k -> locks_wf k -> is_task k t -> is_prio (entitled_prio t k).
Proof.
  intros Hk Hw Ht. apply held_max_prio; [done|done|]. split; [|by apply (ko_prio _ Hk)].
  destruct (ko_ipc _ Hk) as [LQ HI]. by apply (ii_base _ _ _ HI).
Qed.

Lemma recalculate_ok fuel t k : kernel_ok k -> locks_wf k -> is_task k t -> kernel_ok (recalculate_loop fuel t k).
Proof.
  revert t k. induction fuel as [|fuel IH]; intros t k Hk Hw Ht; cbn [recalculate_loop]; [done|]. cbv zeta.
  destruct (_ =? _); [done|]. set (k1 := set_task_priority _ _ k).
  assert (Hk1 : kernel_ok k1) by (apply prio_of_task_ok; [done|done|by apply entitled_prio_ok]).
  assert (Hw1 : locks_wf k1) by (apply (locks_wf_same k); [apply sl_priority|done]).
  destruct (blocks_on k1 t) as [o|] eqn:Ho; [|done]. apply IH; [done|done|by apply (blocks_on_task k1 t)].
Qed.

Lemma bit_test_clear m i j : 0 <= i -> 0 <= j -> i <> j -> bit_test (bit_clear m i) j = bit_test m j.
Proof.
  intros Hi Hj Hne. rewrite !bit_test_testbit, bit_clear_testbit by done.
  destruct (Z.eqb_spec i j); [done|by cbn].
Qed.

(** The waking scan makes the choice of [best_waiter]: it clears bits only
    behind itself. *)
Lemma wake_scan_spec k mask l mask' best :
  NoDup l -> (forall i, i ∈ l -> 0 <= i /\ bit_test mask' i = bit_test mask i) ->
  (foldl (wake_step k) (mask', best) l).2 = foldl (better_waiter k mask) best l.
Proof.
  revert mask' best. induction l as [|i l IH]; intros mask' best Hnd Hb; cbn [foldl]; [done|].
  apply NoDup_cons in Hnd as [Hi Hnd]. destruct (Hb i ltac:(set_solver)) as [H0 Hbi].
  assert (Hclr : forall j, j ∈ l -> 0 <= j /\ bit_test (bit_clear mask' i) j = bit_test mask j).
  { intros j Hj. destruct (Hb j ltac:(set_solver)) as [Hj0 Hbj]. split; [done|].
    rewrite bit_test_clear by (done || set_solver). done. }
  assert (Hkeep : forall j, j ∈ l -> 0 <= j /\ bit_test mask' j = bit_test mask j) by (intros; apply Hb; set_solver).
  assert (Hbest : better_waiter k mask' best i = better_waiter k mask best i) by (unfold better_waiter; by rewrite Hbi).
  unfold wake_step at 2. destruct (bit_test mask' i) eqn:Ebit.
  - rewrite Hbest. destruct (get_task_by_id k i) as [t|] eqn:Et.
    + destruct (sem_blocked (tcb k t)) eqn:Eb; [by apply IH|]. rewrite IH by done. f_equal.
      unfold better_waiter. by rewrite <- Hbi, Et, Eb.
    + rewrite IH by done. f_equal. unfold better_waiter. by rewrite <- Hbi, Et.
  - rewrite IH by done. f_equal. unfold better_waiter. by rewrite <- Hbi.
Qed.

Lemma wake_highest_waiter_spec m k :
  wake_highest_waiter m k =
  if mutex_wait_mask_ (mtx k m) =? 0 then k else
  let mask := (foldl (wake_step k) (mutex_wait_mask_ (mtx k m), None) (seqZ 0 MAX_TASKS)).1 in
  match best_waiter k (mutex_wait_mask_ (mtx k m)) with
  | Some b => set_task_state b Ready (upd_mtx m (set_mutex_wait_mask_ (bit_clear mask b)) k)
  | None => upd_mtx m (set_mutex_wait_mask_ mask) k
  end.
Proof.
  unfold wake_highest_waiter. destruct (_ =? 0); [done|].
  pose proof (wake_scan_spec k (mutex_wait_mask_ (mtx k m)) (seqZ 0 MAX_TASKS) (mutex_wait_mask_ (mtx k m)) None) as Hw.
  destruct (foldl (wake_step k) _ _) as [mask best]. cbn [fst snd] in *. unfold best_waiter. rewrite <- Hw; [done| |].
  - apply NoDup_seqZ.
  - intros i Hi%elem_of_seqZ. split; [lia|done].
Qed.

Lemma wake_highest_waiter_ok m k : kernel_ok k -> kernel_ok (wake_highest_waiter m k).
Proof.
  intros Hk. rewrite wake_highest_waiter_spec. destruct (_ =? 0); [done|]. cbv zeta.
  pose proof (foldl_best k (mutex_wait_mask_ (mtx k m)) (seqZ 0 MAX_TASKS) None) as H.
  unfold best_waiter. destruct (foldl (better_waiter _ _) None _) as [b|]; [|by apply upd_mtx_ok].
  destruct H as ([?|[_ (_ & [? _] & _)]] & _); [done|]. apply kernel_ok_set_state; [done|]. by apply upd_mtx_ok.
Qed.

Lemma held_upd_ok i v k : kernel_ok k -> kernel_ok (upd i (set_held_mutexes v) k).
Proof. by apply kernel_ok_upd. Qed.

Lemma acquire_ok m cur k :
  kernel_ok k -> locks_wf k -> (forall c, cur = Some c -> is_task k c) -> kernel_ok (acquire m cur k).
Proof.
  intros Hk Hw Hc. unfold acquire. cbv zeta. destruct cur as [c|]; [|by apply upd_mtx_ok].
  set (k1 := upd c _ _). assert (Hk1 : kernel_ok k1) by by apply held_upd_ok, upd_mtx_ok, upd_mtx_ok.
  destruct (_ <? _); [|done]. apply prio_of_task_ok; [done|by apply Hc|]. unfold k1.
  match goal with |- is_prio (ceiling_prio_ (mtx (upd c _ ?K) m)) => change (is_prio (ceiling_prio_ (mtx K m))) end.
  rewrite !mtx_upd_mtx, !decide_True by done. cbn. apply Hw.
Qed.

Lemma stop_waiting_ok m c k : kernel_ok k -> kernel_ok (stop_waiting m c k).
Proof. intros Hk. unfold stop_waiting. cbv zeta. apply kernel_ok_upd; [done|done|]. by apply upd_mtx_ok. Qed.

Lemma sl_stop_waiting m c k : same_locks k (stop_waiting m c k).
Proof.
  unfold stop_waiting. cbv zeta. etrans; [|by apply sl_upd].
  by apply (sl_upd_mtx m (fun x => set_mutex_wait_mask_ (bit_clear (mutex_wait_mask_ x) (task_id k c)) x)).
Qed.

Lemma set_count_inv x0 m g k H :
  locks_inv k H -> x0 = Some m \/ (forall o, owner k m = Some o -> 1 <= g (recursive_count_ (mtx k m)) < 2 ^ 32) ->
  locks_inv' x0 (upd_mtx m (fun x => set_recursive_count_ (g (recursive_count_ x)) x) k) H.
Proof.
  intros HI Hg. set (k1 := upd_mtx m _ k).
  assert (Hmtx : forall x, mtx k1 x = if decide (m = x) then
    set_recursive_count_ (g (recursive_count_ (mtx k m))) (mtx k m) else mtx k x).
  { intros x. unfold k1. rewrite mtx_upd_mtx. case_decide; [by subst|done]. }
  assert (Hv : forall x, owner k1 x = owner k x /\ locked_ (mtx k1 x) = locked_ (mtx k x) /\
    nxh k1 x = nxh k x /\ ceiling_prio_ (mtx k1 x) = ceiling_prio_ (mtx k x)).
  { intros x. unfold owner, nxh. rewrite Hmtx. by case_decide; subst. }
  split.
  - intros t Ht. apply (hseg_ext (nxh k)); [|by apply (lk_list _ _ HI)]. intros x _. apply Hv.
  - apply HI.
  - intros t x Ht. destruct (Hv x) as (-> & _). by apply HI.
  - intros x o. destruct (Hv x) as (-> & _). apply (lk_owner _ _ HI).
  - intros x o. destruct (Hv x) as (-> & -> & _). apply HI.
  - intros x o Hx. destruct (Hv x) as (-> & _). intros Ho. rewrite Hmtx.
    case_decide; [subst x|by apply (lk_count _ _ HI x o)]. cbn. destruct Hg as [->|Hg]; [done|by apply (Hg o)].
  - intros x. destruct (Hv x) as (_ & _ & _ & ->). apply HI.
  - intros x o. destruct (Hv x) as (-> & _). intros Ho. unfold k1, upd_mtx. cbn.
    apply (lk_dom _ _ HI) in Ho. set_solver.
Qed.

Lemma count_up_inv m k H :
  locks_inv k H -> recursive_count_ (mtx k m) < u32_max -> locks_inv (count_up m k) H.
Proof.
  intros HI Hlt. apply (set_count_inv None m (fun n => wrap32 (n + 1))); [done|]. right. intros o Ho.
  pose proof (lk_count _ _ HI m o ltac:(done) Ho). rewrite wrap32_small; unfold is_u32, u32_max in *; lia.
Qed.

(** A mutex without an owner may change as long as it stays without one (a
    lock taken before the scheduler runs has no owner). *)
Lemma unowned_upd_inv x0 m f k H :
  locks_inv' x0 k H -> x0 = None \/ x0 = Some m -> owner k m = None ->
  owner_ (f (mtx k m)) = None /\ ceiling_prio_ (f (mtx k m)) = ceiling_prio_ (mtx k m) -> locks_inv (upd_mtx m f k) H.
Proof.
  intros HI Hx0 Hno Hf. set (k1 := upd_mtx m f k).
  assert (Hmtx : forall x, x <> m -> mtx k1 x = mtx k x) by (intros x Hx; unfold k1; by rewrite mtx_upd_mtx, decide_False).
  assert (Hm : owner k1 m = None /\ ceiling_prio_ (mtx k1 m) = ceiling_prio_ (mtx k m)).
  { unfold owner, k1. rewrite mtx_upd_mtx, decide_True by done. apply Hf. }
  assert (Ho : forall x, owner k1 x = owner k x).
  { intros x. destruct (decide (x = m)) as [->|Hx]; [|unfold owner; by rewrite Hmtx]. destruct Hm as [-> _]. done. }
  split.
  - intros t Ht. apply (hseg_ext (nxh k)); [|by apply (lk_list _ _ HI)]. intros x Hin. unfold nxh. rewrite Hmtx; [done|].
    intros ->. apply (lk_mem _ _ HI t m Ht) in Hin. congruence.
  - apply HI.
  - intros t x Ht. rewrite Ho. by apply HI.
  - intros x o. rewrite Ho. apply (lk_owner _ _ HI).
  - intros x o. rewrite Ho. intros E. rewrite Hmtx; [by eapply HI|congruence].
  - intros x o Hx. rewrite Ho. intros E. rewrite Hmtx by congruence. apply (lk_count _ _ HI x o); [|done].
    destruct Hx0 as [->| ->]; congruence.
  - intros x. destruct (decide (x = m)) as [->|Hx]; [destruct Hm as (_ & ->)|rewrite Hmtx by done]; apply HI.
  - intros x o. rewrite Ho. intros E. unfold k1, upd_mtx. cbn. apply (lk_dom _ _ HI) in E. set_solver.
Qed.

Record mutex_state (k : Kernel) : Prop := {
  ms_kernel : kernel_ok k;
  ms_locks : locks_ok k;
}.

Lemma unlocked_no_owner k H m : locks_inv k H -> locked_ (mtx k m) = false -> owner k m = None.
Proof. intros HI Hl. destruct (owner k m) as [o|] eqn:E; [|done]. apply (lk_locked _ _ HI) in E. congruence. Qed.

Lemma mutex_state_same k k' : same_locks k k' -> kernel_ok k' -> locks_ok k -> mutex_state k'.
Proof. intros Hs Hk [H HI]. split; [done|]. exists H. by apply (locks_inv_same k). Qed.

Lemma acquire_state m cur k :
  mutex_state k -> locked_ (mtx k m) = false -> (forall c, cur = Some c -> is_task k c) -> mutex_state (acquire m cur k).
Proof.
  intros [Hk [H HI]] Hl Hc. pose proof (unlocked_no_owner k H m HI Hl) as Hno. split.
  - apply acquire_ok; [done|by apply (locks_wf_of k H)|done].
  - destruct cur as [c|]; [|by exists H; apply (unowned_upd_inv None); [|left|..]].
    eexists. apply acquire_inv; [done|by apply kernel_ok_sched|by apply Hc|done].
Qed.

Lemma count_up_state m k : mutex_state k -> recursive_count_ (mtx k m) < u32_max -> mutex_state (count_up m k).
Proof. intros [Hk [H HI]] Hlt. split; [by apply upd_mtx_ok|]. exists H. by apply count_up_inv. Qed.

Lemma lock_enter_state m k :
  mutex_state k -> recursive_count_ (mtx k m) < u32_max -> mutex_state (lock_enter m k).2.
Proof.
  intros Hs Hlt. pose proof Hs as [Hk Hlk]. pose proof (proj1 (ko_cur _ Hk)) as Hcur. unfold lock_enter. cbv zeta.
  destruct (locked_ (mtx k m)) eqn:Hl; cbn [negb]; [|by apply acquire_state].
  destruct (owned_by k m (g_current_tcb_ptr k)); [by apply count_up_state|].
  destruct (g_current_tcb_ptr k) as [c|]; [|done]. specialize (Hcur c eq_refl).
  destruct (check_deadlock c m k); cbn [snd].
  { apply (mutex_state_same k); [by apply sl_upd|by apply kernel_ok_upd|done]. }
  set (k1 := upd c _ k). set (k2 := upd_mtx m _ k1).
  assert (H2 : mutex_state k2).
  { apply (mutex_state_same k); [|by apply upd_mtx_ok, kernel_ok_upd|done]. etrans; [by apply (sl_upd c (set_waiting_on_mutex (Some m)))|].
    by apply sl_upd_mtx. }
  destruct (owner k2 m) as [o|]; [|done]. destruct (_ <? _); [|done].
  apply (mutex_state_same k2); [apply sl_propagate_priority| |apply H2].
  destruct (ms_locks _ H2) as [H HI]. apply propagate_ok; [apply H2|by apply (locks_wf_of k2 H)|done].
Qed.

Lemma lock_pass_state m c timeout start k :
  mutex_state k -> is_task k c -> recursive_count_ (mtx k m) < u32_max ->
  mutex_state (lock_pass m c timeout start k).2.
Proof.
  intros Hs Hc Hlt. unfold lock_pass. cbv zeta.
  assert (Hst : mutex_state (stop_waiting m c k)).
  { apply (mutex_state_same k); [apply sl_stop_waiting|apply stop_waiting_ok, Hs|apply Hs]. }
  pose proof (sl_stop_waiting m c k) as (Hcnt & Hv & _ & _). specialize (Hv m). unfold lock_view in Hv.
  destruct (locked_ (mtx k m)) eqn:Hl; cbn [negb].
  2:{ cbn [snd]. apply acquire_state; [done|congruence|]. intros ? [= <-]. unfold is_task. by rewrite Hcnt. }
  destruct (owned_by k m (Some c)); cbn [snd]; [apply count_up_state; [done|congruence]|].
  destruct (_ && _); cbn [snd].
  - set (k1 := stop_waiting m c k) in *. destruct (owner k1 m) as [o|] eqn:Ho; [|done].
    apply (mutex_state_same k1); [apply sl_recalculate_chain| |apply Hst].
    destruct (ms_locks _ Hst) as [H HI]. apply recalculate_ok; [apply Hst|by apply (locks_wf_of k1 H)|].
    by apply (lk_owner _ _ HI m).
  - set (k1 := upd_mtx m _ k).
    assert (H1 : mutex_state k1) by (apply (mutex_state_same k); [by apply sl_upd_mtx|by apply upd_mtx_ok, Hs|apply Hs]).
    destruct (negb _); cbn [snd].
    + set (k2 := upd c _ k1).
      assert (H2 : mutex_state k2) by (apply (mutex_state_same k1); [by apply sl_upd|by apply kernel_ok_upd, H1|apply H1]).
      apply (mutex_state_same k2); [apply sl_state| |apply H2]. apply state_of_task_ok; [apply H2|done].
    + apply (mutex_state_same k1); [apply sl_state| |apply H1]. apply state_of_task_ok; [apply H1|done].
Qed.

(** ** Unlocking *)

Lemma unlink_held_ok fuel m a k : kernel_ok k -> kernel_ok (unlink_held fuel m a k).
Proof.
  intros Hk. revert a. induction fuel as [|fuel IH]; intros a; cbn [unlink_held]; [done|].
  destruct (next_held_ (mtx k a)) as [n|]; [|done]. destruct (n =? m); [by apply upd_mtx_ok|apply IH].
Qed.

Lemma detach_ok m cur b k : kernel_ok k -> kernel_ok (detach m cur b k).
Proof.
  intros Hk. unfold detach. cbv zeta.
  assert (H1 : kernel_ok (match cur with Some o => remove_held m o k | None => k end)).
  { destruct cur as [o|]; [|done]. unfold remove_held. destruct (held k o) as [h|]; [|done].
    destruct (h =? m); [by apply held_upd_ok|by apply unlink_held_ok]. }
  destruct b; by repeat apply upd_mtx_ok.
Qed.

Lemma detach_count m cur b k : task_count (detach m cur b k) = task_count k.
Proof.
  assert (Hu : forall fuel a, task_count (unlink_held fuel m a k) = task_count k).
  { intros fuel. induction fuel as [|fuel IH]; intros a; cbn [unlink_held]; [done|].
    destruct (next_held_ (mtx k a)) as [n|]; [|done]. destruct (n =? m); [done|apply IH]. }
  unfold detach. cbv zeta.
  transitivity (task_count (match cur with Some o => remove_held m o k | None => k end)); [by destruct b|].
  destruct cur as [o|]; [|done]. unfold remove_held. destruct (held k o) as [h|]; [|done].
  destruct (h =? m); [done|apply Hu].
Qed.

Lemma release_state x0 m cur b k H :
  kernel_ok k -> locks_inv' x0 k H -> x0 = None \/ x0 = Some m -> owner k m = cur ->
  mutex_state (release_mutex m cur b k).
Proof.
  intros Hk HI Hx0 Hcur. unfold release_mutex. cbv zeta.
  set (k1 := detach m cur b k).
  assert (Hk1 : kernel_ok k1) by by apply detach_ok.
  assert (H1 : locks_ok k1).
  { unfold k1. destruct cur as [o|].
    - eexists. apply (detach_inv x0); [done|done|by apply kernel_ok_sched|by apply (lk_owner _ _ HI m)|done].
    - exists H. unfold detach. cbv zeta. set (k0 := upd_mtx m _ k).
      assert (H0 : locks_inv k0 H) by by apply (unowned_upd_inv x0).
      destruct b; [|done]. assert (E : owner k0 m = None) by (unfold owner, k0; by rewrite mtx_upd_mtx, decide_True).
      by apply (unowned_upd_inv None); [|left|..]. }
  set (k2 := match cur with Some o => _ | None => k1 end).
  assert (H2 : mutex_state k2).
  { unfold k2. destruct cur as [o|]; [|by split]. destruct H1 as [H' HI'].
    apply (mutex_state_same k1); [apply sl_recalculate_chain| |by exists H'].
    apply recalculate_ok; [done|by apply (locks_wf_of k1 H')|]. unfold k1, is_task. rewrite detach_count.
    by apply (lk_owner _ _ HI m). }
  apply (mutex_state_same k2); [apply sl_wake|apply wake_highest_waiter_ok, H2|apply H2].
Qed.

Lemma unlock_core_state m k : mutex_state k -> mutex_state (unlock_core m k).2.
Proof.
  intros [Hk [H HI]]. unfold unlock_core. cbv zeta. destruct (locked_ (mtx k m)); [|by split; [|exists H]].
  unfold same_owner. case_bool_decide as Ho; [|by split; [|exists H]]. cbn [andb].
  set (k1 := upd_mtx m _ k). assert (Hk1 : kernel_ok k1) by by apply upd_mtx_ok.
  assert (Hown : owner k1 m = g_current_tcb_ptr k).
  { rewrite <- Ho. unfold owner, k1. by rewrite mtx_upd_mtx, decide_True. }
  destruct (Z.eqb_spec (recursive_count_ (mtx k1 m)) 0) as [E|Hne]; cbn [snd].
  - apply (release_state (Some m) _ _ _ _ H); [done| |by right|done].
    apply (set_count_inv (Some m) m (fun n => wrap32 (n - 1))); [done|by left].
  - split; [done|]. exists H. apply (set_count_inv None m (fun n => wrap32 (n - 1))); [done|]. right. intros o Hm.
    pose proof (lk_count _ _ HI m o ltac:(done) Hm) as Hc.
    assert (E1 : recursive_count_ (mtx k1 m) = wrap32 (recursive_count_ (mtx k m) - 1)).
    { unfold k1. by rewrite mtx_upd_mtx, decide_True. }
    rewrite E1 in Hne. rewrite wrap32_small in *; unfold is_u32; lia.
Qed.

Lemma force_unlock_state m t k : mutex_state k -> mutex_state (force_unlock m t k).
Proof.
  intros [Hk [H HI]]. unfold force_unlock. destruct (locked_ (mtx k m)); [|by split; [|exists H]].
  unfold same_owner. case_bool_decide as Ho; [|by split; [|exists H]]. cbn [andb].
  by apply (release_state None _ _ _ _ H); [..|left|].
Qed.

Lemma set_ceiling_state m p k : mutex_state k -> is_prio p -> mutex_state (set_ceiling m p k).
Proof.
  intros [Hk [H HI]] Hp. split; [by apply upd_mtx_ok|]. exists H. unfold set_ceiling. set (k1 := upd_mtx m _ k).
  assert (Hmtx : forall x, mtx k1 x = if decide (m = x) then set_ceiling_prio_ p (mtx k m) else mtx k x).
  { intros x. unfold k1. rewrite mtx_upd_mtx. case_decide; [by subst|done]. }
  assert (Hv : forall x, owner k1 x = owner k x /\ locked_ (mtx k1 x) = locked_ (mtx k x) /\
    nxh k1 x = nxh k x /\ recursive_count_ (mtx k1 x) = recursive_count_ (mtx k x)).
  { intros x. unfold owner, nxh. rewrite Hmtx. by case_decide; subst. }
  split.
  - intros t Ht. apply (hseg_ext (nxh k)); [|by apply (lk_list _ _ HI)]. intros x _. apply Hv.
  - apply HI.
  - intros t x Ht. destruct (Hv x) as (-> & _). by apply HI.
  - intros x o. destruct (Hv x) as (-> & _). apply (lk_owner _ _ HI).
  - intros x o. destruct (Hv x) as (-> & -> & _). apply HI.
  - intros x o Hx. destruct (Hv x) as (-> & _ & _ & ->). by apply HI.
  - intros x. rewrite Hmtx. case_decide; [done|apply HI].
  - intros x o. destruct (Hv x) as (-> & _). intros Ho. unfold k1, upd_mtx. cbn. apply (lk_dom _ _ HI) in Ho. set_solver.
Qed.
