(* ===== verification/Validator.v ===== *)
(** Validation of user pointers (kernel/core/syscall_validator.cpp) on the 32-bit
    Cortex-M build.

    The linker symbols and the extent of the kernel heap are a record; the
    virtual address spaces ([VirtualAddressSpace] of kernel/mm/vasp.hpp is an
    abstract interface) are a type class with the method the validator calls. *)
From S2P Require Import Prelude Kernel Mpu.

(** * Memory map *)

Record MemoryMap := mkMap {
  head_block : Z;      (* KernelHeap::head_block *)
  total_size : Z;      (* KernelHeap::total_size *)
  heap_start : Z; heap_end : Z;
  sdata : Z; edata : Z;
  sbss : Z; ebss : Z;
  flash_start : Z; flash_end : Z;
}.

(** [VirtualAddressSpace::translate], the flags of a mapped page. *)
Class AddressSpaces := translate : Z -> Z -> option Z.

Definition MapWrite : Z := 2.
Definition MapUser : Z := 8.
Definition test_flags (a b : Z) : bool := negb (Z.land a b =? 0).

Definition MMU_PAGE_SIZE : Z := 4096.

(** [p >= lo && end <= hi]. *)
Definition inside (p end_ lo hi : Z) : bool := (lo <=? p) && (end_ <=? hi).

(** A linker section, empty when its symbols are equal. *)
Definition in_section (p end_ lo hi : Z) : bool := negb (lo =? hi) && inside p end_ lo hi.

(** [KernelHeap::contains]. *)
Definition heap_contains (mm : MemoryMap) (p len : Z) : bool :=
  if (p =? nullptr) || (head_block mm =? nullptr) || (total_size mm =? 0) then false else
  let end_ := wrap32 (p + len) in
  if end_ <? p then false else
  inside p end_ (head_block mm) (wrap32 (head_block mm + total_size mm)).

(** * Validation *)

(** [validate_user_ptr] with explicit stack bounds. *)
Definition validate_range (mm : MemoryMap) (p len task_stack_base task_stack_size : Z) (need_write : bool) : bool :=
  if p =? nullptr then false else
  let end_ := wrap32 (p + len) in
  if end_ <? p then false else
  if len =? 0 then true else
  if (0 <? task_stack_size) && inside p end_ task_stack_base (wrap32 (task_stack_base + task_stack_size)) then true else
  if heap_contains mm p len then true else
  if in_section p end_ (heap_start mm) (heap_end mm) then true else
  if in_section p end_ (sdata mm) (edata mm) then true else
  if in_section p end_ (sbss mm) (ebss mm) then true else
  if negb need_write then
    if in_section p end_ (flash_start mm) (flash_end mm) then true else
    (p <? 536870912) && (end_ <=? 536870912)
  else false.

(** [(size_pow2 > 0) ? (1 << size_pow2) : 0]. *)
Definition region_size (size_pow2' : Z) : Z := if 0 <? size_pow2' then wrap32 (bit size_pow2') else 0.

Section Pages.
Context `{AddressSpaces}.

(** The page is mapped for the user, writable if needed. *)
Definition page_ok (vas : Z) (need_write : bool) (va : Z) : bool :=
  match translate vas va with
  | None => false
  | Some flags => test_flags flags MapUser && (negb need_write || test_flags flags MapWrite)
  end.

(** One round of the page loop: the next page, or the verdict. *)
Definition page_step (vas : Z) (need_write : bool) (end_ : Z) (st : Z + bool) : Z + bool :=
  match st with
  | inl cur_va =>
      if cur_va <? end_ then
        if page_ok vas need_write cur_va then inl (wrap32 (cur_va + MMU_PAGE_SIZE)) else inr false
      else inr true
  | inr b => inr b
  end.

(** There are 2^20 pages; the loop index wraps, so a loop that has not answered
    by then never does ([inl]). *)
Definition page_rounds : positive := 1048577.

Definition pages_mapped (vas p end_ : Z) (need_write : bool) : bool :=
  let cur_va := Z.land p (Z.lnot (MMU_PAGE_SIZE - 1)) in
  match Pos.iter (page_step vas need_write end_) (inl cur_va) page_rounds with
  | inr b => b
  | inl _ => false
  end.

(** [validate_user_ptr] with the context of the calling task. *)
Definition validate_user_ptr (mm : MemoryMap) (p len : Z) (task' : option TaskControlBlock) (need_write : bool) : bool :=
  if p =? nullptr then false else
  let end_ := wrap32 (p + len) in
  if end_ <? p then false else
  if len =? 0 then true else
  let private :=
    match task' with
    | None => false
    | Some t =>
        let base := stack_base (memory t) in
        let size := region_size (size_pow2 (memory t)) in
        if (0 <? size) && inside p end_ base (wrap32 (base + size)) then true else
        let canary := stack_canary_ptr (task t) in
        if negb (canary =? nullptr) && (0 <? size) && inside p end_ canary (wrap32 (canary + size)) then true else
        let sb := mpu_sandbox (memory t) in
        let sb_size := region_size (sd_size_pow2 sb) in
        if is_valid sb && (0 <? sb_size) && inside p end_ (sd_stack_base sb) (wrap32 (sd_stack_base sb + sb_size)) then true else
        negb (vasp (memory t) =? nullptr) && pages_mapped (vasp (memory t)) p end_ need_write
    end in
  if private then true else
  match task' with
  | None => validate_range mm p len 0 0 need_write
  | Some t => validate_range mm p len (stack_base (memory t)) (region_size (size_pow2 (memory t))) need_write
  end.
End Pages.

(** * The page loop *)

Section PageLoop.
Context `{AddressSpaces}.

Lemma pos_iter_nat {A} (f : A -> A) x p : Pos.iter f x p = Nat.iter (Pos.to_nat p) f x.
Proof. by rewrite Pos2Nat.inj_iter. Qed.

Lemma iter_inr n vas nw end_ b : Nat.iter n (page_step vas nw end_) (inr b) = inr b.
Proof. induction n as [|n IH]; [done|]. rewrite Nat.iter_succ_r. exact IH. Qed.

Lemma page_step_inl vas nw end_ cur :
  page_step vas nw end_ (inl cur) =
  if cur <? end_ then if page_ok vas nw cur then inl (wrap32 (cur + MMU_PAGE_SIZE)) else inr false else inr true.
Proof. done. Qed.

Definition aligned (a : Z) : Prop := a mod MMU_PAGE_SIZE = 0.

Lemma aligned_next a : aligned a -> aligned (a + MMU_PAGE_SIZE).
Proof. unfold aligned, MMU_PAGE_SIZE. intros. Z.to_euclidean_division_equations. lia. Qed.

(** With [n] rounds for the rest of the range, the loop answers, and its answer
    says whether every page of the rest is accessible. *)
Lemma page_loop_answers n vas nw end_ cur :
  aligned cur -> 0 <= cur -> end_ <= 4294963200 -> cur < end_ + MMU_PAGE_SIZE ->
  end_ - cur <= MMU_PAGE_SIZE * (Z.of_nat n - 1) ->
  exists b, Nat.iter n (page_step vas nw end_) (inl cur) = inr b /\
    (b = true <-> forall va, aligned va -> cur <= va < end_ -> page_ok vas nw va = true).
Proof.
  unfold MMU_PAGE_SIZE. revert cur. induction n as [|n IH]; intros cur Ha H0 He Hc Hn; [lia|].
  rewrite Nat.iter_succ_r, page_step_inl.
  destruct (Z.ltb_spec cur end_) as [Hlt|Hge].
  2:{ exists true. split; [apply iter_inr|]. split; [|done]. intros _ va _ Hva. lia. }
  destruct (page_ok vas nw cur) eqn:Hok.
  - assert (Hw : wrap32 (cur + MMU_PAGE_SIZE) = cur + 4096).
    { apply wrap32_small. unfold is_u32, aligned, MMU_PAGE_SIZE in *. Z.to_euclidean_division_equations. lia. }
    rewrite Hw. destruct (IH (cur + 4096)) as (b & Hb & Hiff); [by apply aligned_next|lia|done|lia|lia|].
    exists b. split; [done|]. rewrite Hiff. split; intros Hall va Hv Hr; [|apply Hall; [done|lia]].
    destruct (Z.eq_dec va cur) as [->|Hne]; [done|]. apply Hall; [done|].
    unfold aligned, MMU_PAGE_SIZE in *. Z.to_euclidean_division_equations. lia.
  - exists false. split; [apply iter_inr|]. split; [done|]. intros Hall. rewrite Hall in Hok; [done|done|lia].
Qed.

(** Past the last page boundary the index wraps and the loop never accepts. *)
Lemma page_loop_wraps n vas nw end_ cur :
  aligned cur -> is_u32 cur -> 4294963200 < end_ -> Nat.iter n (page_step vas nw end_) (inl cur) <> inr true.
Proof.
  revert cur. induction n as [|n IH]; intros cur Ha Hu He; [done|].
  rewrite Nat.iter_succ_r, page_step_inl.
  assert (Hle : cur <= 4294963200).
  { unfold aligned, is_u32, MMU_PAGE_SIZE in *. Z.to_euclidean_division_equations. lia. }
  destruct (Z.ltb_spec cur end_); [|lia]. destruct (page_ok vas nw cur); [|rewrite iter_inr; done].
  apply IH; [|apply wrap32_range|done]. unfold aligned, wrap32, MMU_PAGE_SIZE in *.
  Z.to_euclidean_division_equations. lia.
Qed.

Definition page_of (a : Z) : Z := a - a mod MMU_PAGE_SIZE.

Lemma page_of_land a : Z.land a (Z.lnot (MMU_PAGE_SIZE - 1)) = page_of a.
Proof.
  change (MMU_PAGE_SIZE - 1) with (Z.ones 12). rewrite <- Z.ldiff_land, Z.ldiff_ones_r by lia.
  rewrite Z.shiftr_div_pow2, Z.shiftl_mul_pow2 by lia. unfold page_of, MMU_PAGE_SIZE. change (2 ^ 12) with 4096.
  Z.to_euclidean_division_equations. lia.
Qed.

Lemma page_of_aligned a : aligned (page_of a).
Proof. unfold aligned, page_of, MMU_PAGE_SIZE. Z.to_euclidean_division_equations. lia. Qed.

Lemma pages_mapped_spec vas p end_ nw :
  0 <= p < end_ -> end_ < 4294967296 ->
  pages_mapped vas p end_ nw = true <->
  end_ <= 4294963200 /\ forall a, p <= a < end_ -> page_ok vas nw (page_of a) = true.
Proof.
  intros Hp He. unfold pages_mapped. cbv zeta. rewrite page_of_land, pos_iter_nat.
  pose proof (positive_nat_Z page_rounds) as Hn. set (n := Pos.to_nat page_rounds) in *. clearbody n.
  change (Z.pos page_rounds) with 1048577 in Hn. pose proof (page_of_aligned p) as Ha.
  assert (Hpp : p - 4096 < page_of p <= p /\ 0 <= page_of p).
  { unfold page_of, MMU_PAGE_SIZE. Z.to_euclidean_division_equations. lia. }
  destruct (Z.le_gt_cases end_ 4294963200) as [Hle|Hgt].
  - destruct (page_loop_answers n vas nw end_ (page_of p)) as (b & -> & Hb); [done|lia|done|unfold MMU_PAGE_SIZE; lia|unfold MMU_PAGE_SIZE; lia|].
    rewrite Hb. split.
    + intros Hall. split; [done|]. intros a Hr. apply Hall; [apply page_of_aligned|].
      unfold page_of, MMU_PAGE_SIZE in *. Z.to_euclidean_division_equations. lia.
    + intros [_ Hall] va Hv Hr. destruct (Z.le_gt_cases p va) as [Hpv|Hpv].
      * specialize (Hall va ltac:(lia)). unfold page_of in Hall. unfold aligned in Hv. by rewrite Hv, Z.sub_0_r in Hall.
      * assert (va = page_of p) as -> by (unfold aligned, page_of, MMU_PAGE_SIZE in *; Z.to_euclidean_division_equations; lia).
        apply Hall. lia.
  - split; [|lia]. pose proof (page_loop_wraps n vas nw end_ (page_of p) Ha ltac:(unfold is_u32; lia) Hgt) as Hw.
    destruct (Nat.iter n _ _) as [|b]; [done|]. intros ->. done.
Qed.
End PageLoop.

(** * What validation guarantees *)

Section Permitted.
Context `{AddressSpaces}.

(** The byte at [a] lies in a region of [size] bytes at [base]. *)
Definition in_region (base size a : Z) : Prop := base <= a < base + size.

(** The memory a task may name in a system call, for reading or for writing. *)
Inductive permitted (mm : MemoryMap) (t : option TaskControlBlock) (need_write : bool) (a : Z) : Prop :=
| pm_stack c : t = Some c -> in_region (stack_base (memory c)) (region_size (size_pow2 (memory c))) a -> permitted mm t need_write a
| pm_canary c : t = Some c -> stack_canary_ptr (task c) <> nullptr ->
    in_region (stack_canary_ptr (task c)) (region_size (size_pow2 (memory c))) a -> permitted mm t need_write a
| pm_sandbox c : t = Some c -> is_valid (mpu_sandbox (memory c)) = true ->
    in_region (sd_stack_base (mpu_sandbox (memory c))) (region_size (sd_size_pow2 (mpu_sandbox (memory c)))) a ->
    permitted mm t need_write a
| pm_page c : t = Some c -> page_ok (vasp (memory c)) need_write (page_of a) = true -> permitted mm t need_write a
| pm_kheap : in_region (head_block mm) (total_size mm) a -> permitted mm t need_write a
| pm_heap : heap_start mm <= a < heap_end mm -> permitted mm t need_write a
| pm_data : sdata mm <= a < edata mm -> permitted mm t need_write a
| pm_bss : sbss mm <= a < ebss mm -> permitted mm t need_write a
| pm_flash : need_write = false -> flash_start mm <= a < flash_end mm \/ a < 536870912 -> permitted mm t need_write a.

Lemma inside_spec p end_ lo hi : inside p end_ lo hi = true <-> lo <= p /\ end_ <= hi.
Proof. unfold inside. by rewrite andb_true_iff, !Z.leb_le. Qed.

Lemma wrap32_le x : 0 <= x -> wrap32 x <= x.
Proof. intros Hx. unfold wrap32. apply Z.mod_le; lia. Qed.

Lemma region_size_nonneg n : 0 <= region_size n.
Proof. unfold region_size. destruct (0 <? n); [apply wrap32_range|lia]. Qed.

Lemma inside_region p end_ base size a :
  inside p end_ base (wrap32 (base + size)) = true -> p <= a < end_ -> 0 <= size -> 0 <= base -> in_region base size a.
Proof.
  intros [H1 H2]%inside_spec Ha Hs Hb. pose proof (wrap32_le (base + size)). unfold in_region. lia.
Qed.

(** The addresses of the map and of a control block are addresses. *)
Definition map_ok (mm : MemoryMap) : Prop := 0 <= head_block mm /\ 0 <= total_size mm.
Definition tcb_ok (t : TaskControlBlock) : Prop :=
  0 <= stack_base (memory t) /\ 0 <= stack_canary_ptr (task t) /\ 0 <= sd_stack_base (mpu_sandbox (memory t)).

Lemma end_no_wrap p len : is_u32 p -> is_u32 len -> (wrap32 (p + len) <? p) = false -> wrap32 (p + len) = p + len.
Proof. unfold is_u32, wrap32. intros Hp Hl Hlt%Z.ltb_ge. Z.to_euclidean_division_equations. lia. Qed.

Lemma validate_range_permitted mm p len base size nw t :
  is_u32 p -> is_u32 len -> 0 < len -> map_ok mm -> 0 <= base -> 0 <= size ->
  validate_range mm p len base size nw = true ->
  forall a, p <= a < p + len -> in_region base size a \/ permitted mm t nw a.
Proof.
  intros Hp Hl Hl0 [Hh1 Hh2] Hb Hs. unfold validate_range. destruct (p =? nullptr); [done|]. cbv zeta.
  destruct (_ <? p) eqn:Hw; [done|]. rewrite (end_no_wrap p len Hp Hl Hw). destruct (Z.eqb_spec len 0); [lia|].
  intros Hv a Ha. pose proof Hp as [Hp0 _].
  destruct (_ && _) eqn:E1 in Hv.
  { apply andb_true_iff in E1 as [_ E1]. left. by eapply inside_region. }
  right. destruct (heap_contains mm p len) eqn:E2.
  { unfold heap_contains in E2. destruct (_ || _); [done|]. cbv zeta in E2. rewrite Hw in E2.
    rewrite end_no_wrap in E2 by done. apply pm_kheap. by eapply inside_region. }
  unfold in_section in Hv.
  repeat match type of Hv with
  | (if negb nw then _ else _) = true => destruct nw; cbn [negb] in Hv; [done|]
  | (if ?b then true else _) = true =>
      let E := fresh "E" in destruct b eqn:E;
      [apply andb_true_iff in E as [_ [? ?]%inside_spec]|]
  end.
  - apply pm_heap. lia.
  - apply pm_data. lia.
  - apply pm_bss. lia.
  - apply pm_flash; [done|]. left. lia.
  - apply andb_true_iff in Hv as [_ Hv%Z.leb_le]. apply pm_flash; [done|]. right. lia.
Qed.

Lemma validate_user_ptr_permitted mm p len t nw :
  is_u32 p -> is_u32 len -> 0 < len -> map_ok mm -> (forall c, t = Some c -> tcb_ok c) ->
  validate_user_ptr mm p len t nw = true ->
  p <> nullptr /\ p + len < 4294967296 /\ forall a, p <= a < p + len -> permitted mm t nw a.
Proof.
  intros Hp Hl Hl0 Hm Ht. unfold validate_user_ptr. destruct (Z.eqb_spec p nullptr) as [|Hnn]; [done|]. cbv zeta.
  destruct (_ <? p) eqn:Hw; [done|]. pose proof (end_no_wrap p len Hp Hl Hw) as Ee. rewrite Ee.
  assert (Hlt : p + len < 4294967296) by (rewrite <- Ee; apply wrap32_range).
  destruct (Z.eqb_spec len 0); [lia|]. intros Hv. split; [done|]. split; [done|]. intros a Ha.
  destruct t as [c|].
  2:{ destruct (validate_range_permitted mm p len 0 0 nw None Hp Hl Hl0 Hm ltac:(lia) ltac:(lia) Hv a Ha) as [Hr|]; [|done].
      unfold in_region in Hr. lia. }
  destruct (Ht c eq_refl) as (T1 & T2 & T3). pose proof Hp as [Hp0 _].
  pose proof (region_size_nonneg (size_pow2 (memory c))) as Hsz. pose proof (region_size_nonneg (sd_size_pow2 (mpu_sandbox (memory c)))).
  destruct (_ && inside p (p + len) (stack_base (memory c)) _) eqn:E1 in Hv.
  { apply andb_true_iff in E1 as [_ E1]. eapply pm_stack; [done|]. by eapply inside_region. }
  destruct (_ && inside p (p + len) (stack_canary_ptr (task c)) _) eqn:E2 in Hv.
  { apply andb_true_iff in E2 as [E2 E2']. apply andb_true_iff in E2 as [E2%negb_true_iff%Z.eqb_neq _].
    eapply pm_canary; [done|done|]. by eapply inside_region. }
  destruct (_ && inside p (p + len) (sd_stack_base _) _) eqn:E3 in Hv.
  { apply andb_true_iff in E3 as [E3 E3']. apply andb_true_iff in E3 as [E3 _].
    eapply pm_sandbox; [done|done|]. by eapply inside_region. }
  destruct (negb _ && pages_mapped _ _ _ _) eqn:E4 in Hv.
  { apply andb_true_iff in E4 as [_ E4]. apply pages_mapped_spec in E4 as [_ E4]; [|lia|done]. eapply pm_page; [done|]. by apply E4. }
  destruct (validate_range_permitted mm p len _ _ nw (Some c) Hp Hl Hl0 Hm T1 Hsz Hv a Ha); [by eapply pm_stack|done].
Qed.

(** A range inside the caller's own stack is accepted, for reading and writing. *)
Lemma validate_own_stack mm p len c nw :
  is_u32 p -> is_u32 len -> p <> nullptr -> p + len < 4294967296 ->
  stack_base (memory c) <= p -> p + len <= stack_base (memory c) + region_size (size_pow2 (memory c)) ->
  stack_base (memory c) + region_size (size_pow2 (memory c)) < 4294967296 -> 0 <= stack_base (memory c) ->
  validate_user_ptr mm p len (Some c) nw = true.
Proof.
  intros Hp Hl Hn Hlt H1 H2 H3 H4. unfold validate_user_ptr. destruct (Z.eqb_spec p nullptr); [done|]. cbv zeta.
  pose proof (region_size_nonneg (size_pow2 (memory c))). unfold is_u32 in *.
  rewrite !(wrap32_small (p + len)) by (unfold is_u32; lia). destruct (Z.ltb_spec (p + len) p); [lia|].
  destruct (Z.eqb_spec len 0); [done|]. rewrite (wrap32_small (stack_base _ + _)) by (unfold is_u32; lia).
  rewrite (proj2 (inside_spec _ _ _ _)) by done. rewrite (proj2 (Z.ltb_lt 0 (region_size _))) by lia. done.
Qed.
End Permitted.
