(* ===== verification/Device.v ===== *)
(** The device registry (kernel/core/device.cpp, kernel/core/device.hpp).

    A [Device*] is the address of the object; as a kernel object it is
    [ObjOther address].  What a driver overrides ([open], [close], [read],
    [write], [ioctl]) and mounting in the VFS are the methods of the class
    [Drivers].  Strings are read byte by byte from memory.  [LockGuard] ignores
    the result of [lock], and its destructor calls [unlock]. *)
From S2P Require Import Prelude Kernel ReadyQueue WaitQueue Endpoint Mpu TaskTable IpcSpec Scheduler Preserve CSpace Sync Mutex.

Definition NAME_MAX_LEN : Z := 32.
Definition MAX_DEVICES : Z := 16.
Definition VFS_PATH_CAP : Z := 32.

Record DeviceEntry := mkEntry {
  de_name : list Z;          (* char name[32] *)
  de_device : option Z;      (* Device* *)
  de_default_rights : Z;
  de_in_use : bool;
}.

#[export] Instance DeviceEntry_inhabited : Inhabited DeviceEntry := populate (mkEntry [] None 0 false).

Inductive DeviceType := DevUnknown | DevChar | DevBlock.

(** The fields of [Device]. *)
Record Device := mkDevice {
  dv_name : Z;               (* const char* name_ *)
  dv_type : DeviceType;
  dv_registered : bool;
  dv_vfs_path : list Z;
}.

#[export] Instance Device_inhabited : Inhabited Device := populate (mkDevice nullptr DevUnknown false []).

Record DeviceRegistry := mkRegistry {
  entries_ : list DeviceEntry;
  device_count_ : Z;
  devices : gmap Z Device;   (* the device objects, by address *)
}.

Definition set_entries_ (v : list DeviceEntry) (r : DeviceRegistry) : DeviceRegistry :=
  mkRegistry v (device_count_ r) (devices r).
Definition set_device_count_ (v : Z) (r : DeviceRegistry) : DeviceRegistry :=
  mkRegistry (entries_ r) v (devices r).
Definition set_devices (v : gmap Z Device) (r : DeviceRegistry) : DeviceRegistry :=
  mkRegistry (entries_ r) (device_count_ r) v.

Definition device (r : DeviceRegistry) (d : Z) : Device := devices r !!! d.
Definition upd_dev (d : Z) (f : Device -> Device) (r : DeviceRegistry) : DeviceRegistry :=
  set_devices (<[d := f (device r d)]> (devices r)) r.

Definition get_name (r : DeviceRegistry) (d : Z) : Z := dv_name (device r d).
Definition mark_registered (v : bool) (d : Z) : DeviceRegistry -> DeviceRegistry :=
  upd_dev d (fun x => mkDevice (dv_name x) (dv_type x) v (dv_vfs_path x)).

(** * C strings *)

(** [name[i]]. *)
Definition char_at (k : Kernel) (name i : Z) : Z := load8 (mem k) (name + i).

(** [strncmp(a, b, n) == 0] for two byte sequences. *)
Fixpoint same_name (n : nat) (a b : Z -> Z) (i : Z) : bool :=
  match n with
  | O => true
  | S n => if a i =? b i then if a i =? 0 then true else same_name n a b (i + 1) else false
  end.

Definition name_matches (k : Kernel) (name : Z) (e : DeviceEntry) : bool :=
  de_in_use e && same_name (Z.to_nat NAME_MAX_LEN) (zlookup (de_name e)) (char_at k name) 0.

(** [while (name_len < NAME_MAX_LEN - 1 && name[name_len]) name_len++]. *)
Fixpoint name_length (n : nat) (k : Kernel) (name i : Z) : Z :=
  match n with
  | O => i
  | S n => if char_at k name i =? 0 then i else name_length n k name (i + 1)
  end.

Definition name_len (k : Kernel) (name : Z) : Z := name_length (Z.to_nat (NAME_MAX_LEN - 1)) k name 0.

Definition name_bytes (k : Kernel) (name n : Z) : list Z := map (char_at k name) (seqZ 0 n).

(** The copy loop and the terminator; bytes behind it keep their value. *)
Definition store_name (k : Kernel) (name n : Z) (old : list Z) : list Z :=
  name_bytes k name n ++ [0] ++ drop (Z.to_nat (n + 1)) old.

Definition slots_ : list Z := seqZ 0 MAX_DEVICES.
Definition entry (r : DeviceRegistry) (i : Z) : DeviceEntry := zlookup (entries_ r) i.
Definition upd_entry (i : Z) (f : DeviceEntry -> DeviceEntry) (r : DeviceRegistry) : DeviceRegistry :=
  set_entries_ (zalter f i (entries_ r)) r.

(** [name[0] = 0; device = nullptr; default_rights = 0; in_use = false]. *)
Definition clear_entry (e : DeviceEntry) : DeviceEntry :=
  mkEntry (zalter (fun _ => 0) 0 (de_name e)) None 0 false.

(** [DeviceRegistry::DeviceRegistry]. *)
Definition registry_ctor (r : DeviceRegistry) : DeviceRegistry :=
  set_device_count_ 0 (set_entries_ (map clear_entry (entries_ r)) r).

(** The loops that look a name up. *)
Definition find_name (k : Kernel) (name : Z) (r : DeviceRegistry) : option Z :=
  List.find (fun i => name_matches k name (entry r i)) slots_.

Definition find_free_entry (r : DeviceRegistry) : option Z :=
  List.find (fun i => negb (de_in_use (entry r i))) slots_.

(** What a driver implements. *)
Class Drivers := {
  dev_open : Z -> Kernel -> Z * Kernel;
  dev_close : Z -> Kernel -> Z * Kernel;
  dev_read : Z -> Z -> Z -> Z -> Kernel -> Z * Kernel;
  dev_write : Z -> Z -> Z -> Z -> Kernel -> Z * Kernel;
  dev_ioctl : Z -> Z -> Z -> Kernel -> Z * Kernel;
  vfs_mount : list Z -> Z -> Kernel -> bool * Kernel;
}.

Section Registry.
Context `{Drivers} (run_handler : Z -> Z -> Kernel -> Kernel) (registry_mutex_ : Z).

(** * Registration *)

(** The bytes of [/dev/<name>]. *)
Definition dev_prefix : list Z := [47; 100; 101; 118; 47].

Definition mount_device (d name n : Z) (r : DeviceRegistry) (k : Kernel) : DeviceRegistry * Kernel :=
  if 5 + n + 1 <=? VFS_PATH_CAP then
    let path := dev_prefix ++ name_bytes k name n ++ [0] in
    let r := upd_dev d (fun x => mkDevice (dv_name x) (dv_type x) (dv_registered x)
               (path ++ drop (length path) (dv_vfs_path x))) r in
    let '(mounted, k) := vfs_mount path d k in
    (mark_registered mounted d r, k)
  else (r, k).

(** [register_device] inside its lock. *)
Definition register_body (d default_rights : Z) (r : DeviceRegistry) (k : Kernel) : bool * (DeviceRegistry * Kernel) :=
  let name := get_name r d in
  let n := name_len k name in
  if n =? 0 then (false, (r, k)) else
  match find_name k name r with
  | Some _ => (false, (r, k))
  | None =>
      match find_free_entry r with
      | None => (false, (r, k))
      | Some i =>
          let r := upd_entry i (fun e => mkEntry (store_name k name n (de_name e)) (Some d) default_rights true) r in
          let r := set_device_count_ (wrap32 (device_count_ r + 1)) r in
          let k := retain (ObjOther d) k in
          (true, mount_device d name n r k)
      end
  end.

(** [unregister_device] inside its lock. *)
Definition unregister_body (name : Z) (r : DeviceRegistry) (k : Kernel) : bool * (DeviceRegistry * Kernel) :=
  match find_name k name r with
  | None => (false, (r, k))
  | Some i =>
      let '(r, k) := match de_device (entry r i) with
                     | Some d => (mark_registered false d r, release (ObjOther d) k)
                     | None => (r, k)
                     end in
      let r := upd_entry i clear_entry r in
      let r := if 0 <? device_count_ r then set_device_count_ (device_count_ r - 1) r else r in
      (true, (r, k))
  end.

Definition lookup_body (name : Z) (r : DeviceRegistry) (k : Kernel) : option Z :=
  i ← find_name k name r; de_device (entry r i).

(** [get_device]: the [index]-th entry in use. *)
Definition get_device_body (index : Z) (r : DeviceRegistry) : option Z :=
  match filter (fun i => de_in_use (entry r i) = true) slots_ !! Z.to_nat index with
  | Some i => de_device (entry r i)
  | None => None
  end.

Definition clear_step (st : DeviceRegistry * Kernel) (i : Z) : DeviceRegistry * Kernel :=
  let '(r, k) := st in
  if de_in_use (entry r i) then
    let '(r, k) := match de_device (entry r i) with
                   | Some d => (mark_registered false d r, release (ObjOther d) k)
                   | None => (r, k)
                   end in
    (upd_entry i clear_entry r, k)
  else (r, k).

Definition clear_body (r : DeviceRegistry) (k : Kernel) : DeviceRegistry * Kernel :=
  let '(r, k) := foldl clear_step (r, k) slots_ in (set_device_count_ 0 r, k).

(** * Capabilities for devices *)

(** [open_device] inside its lock. *)
Definition open_body (t name dst_slot requested_rights : Z) (r : DeviceRegistry) (k : Kernel) : Z * Kernel :=
  match find_name k name r ≫= (fun i => d ← de_device (entry r i); Some (i, d)) with
  | None => (-1, k)
  | Some (i, d) =>
      if escalates (requested requested_rights) (requested (de_default_rights (entry r i))) then (-3, k) else
      let '(open_res, k) := dev_open d k in
      if negb (open_res =? 0) then (-4, k) else
      let k := (cap_delete (Some t) dst_slot k).2 in
      let k := alter_slot t dst_slot (fun c => set_cap_object (Some (ObjOther d)) (set_cap_type CapDevice c)) k in
      let k := retain (ObjOther d) k in
      let k := alter_slot t dst_slot (fun c => set_cap_badge 0 (set_cap_rights (requested requested_rights) c)) k in
      (0, k)
  end.

(** [LockGuard lock(registry_mutex_)] around a body: [None] while the caller
    waits for the mutex. *)
Definition guarded {A} (body : Kernel -> A * Kernel) (k : Kernel) : option A * Kernel :=
  match lock run_handler registry_mutex_ FOREVER k with
  | (None, k) => (None, k)
  | (Some _, k) => let '(a, k) := body k in (Some a, unlock run_handler registry_mutex_ k)
  end.

Definition guarded_reg {A} (r : DeviceRegistry) (body : DeviceRegistry -> Kernel -> A * (DeviceRegistry * Kernel))
    (k : Kernel) : option A * (DeviceRegistry * Kernel) :=
  match guarded (fun k => let '(a, (r, k)) := body r k in ((a, r), k)) k with
  | (None, k) => (None, (r, k))
  | (Some (a, r), k) => (Some a, (r, k))
  end.

Definition register_device (d default_rights : Z) (r : DeviceRegistry) (k : Kernel) : option bool * (DeviceRegistry * Kernel) :=
  if (d =? nullptr) || (get_name r d =? nullptr) then (Some false, (r, k))
  else guarded_reg r (register_body d default_rights) k.

Definition unregister_device (name : Z) (r : DeviceRegistry) (k : Kernel) : option bool * (DeviceRegistry * Kernel) :=
  if name =? nullptr then (Some false, (r, k)) else guarded_reg r (unregister_body name) k.

Definition lookup_device (name : Z) (r : DeviceRegistry) (k : Kernel) : option (option Z) * Kernel :=
  if name =? nullptr then (Some None, k) else guarded (fun k => (lookup_body name r k, k)) k.

Definition get_device_count (r : DeviceRegistry) (k : Kernel) : option Z * Kernel :=
  guarded (fun k => (device_count_ r, k)) k.

Definition get_device (index : Z) (r : DeviceRegistry) (k : Kernel) : option (option Z) * Kernel :=
  guarded (fun k => (get_device_body index r, k)) k.

Definition clear (r : DeviceRegistry) (k : Kernel) : option unit * (DeviceRegistry * Kernel) :=
  guarded_reg r (fun r k => (tt, clear_body r k)) k.

Definition open_device (t : option Z) (name dst_slot requested_rights : Z) (r : DeviceRegistry) (k : Kernel) : option Z * Kernel :=
  match t with
  | None => (Some (-2), k)
  | Some t =>
      if (name =? nullptr) || negb (is_valid_slot dst_slot) then (Some (-2), k)
      else guarded (open_body t name dst_slot requested_rights r) k
  end.

(** The device of a device capability. *)
Definition cap_device (cap : option Capability) : option (Z * CapRights) :=
  match cap with
  | Some c => if decide (cap_type c = CapDevice)
              then match cap_object c with Some (ObjOther d) => Some (d, cap_rights c) | _ => None end else None
  | None => None
  end.

Definition device_read (t cap_slot buf len offset : Z) (k : Kernel) : Z * Kernel :=
  if (buf =? nullptr) || (len <=? 0) then (-2, k) else
  let '(cap, k) := cap_lookup (Some t) cap_slot k in
  match cap_device cap with
  | None => (-1, k)
  | Some (d, rights) => if negb (right_read rights) then (-3, k) else dev_read d buf len offset k
  end.

Definition device_write (t cap_slot buf len offset : Z) (k : Kernel) : Z * Kernel :=
  if (buf =? nullptr) || (len <=? 0) then (-2, k) else
  let '(cap, k) := cap_lookup (Some t) cap_slot k in
  match cap_device cap with
  | None => (-1, k)
  | Some (d, rights) => if negb (right_write rights) then (-3, k) else dev_write d buf len offset k
  end.

Definition device_ioctl (t cap_slot request arg : Z) (k : Kernel) : Z * Kernel :=
  let '(cap, k) := cap_lookup (Some t) cap_slot k in
  match cap_device cap with
  | None => (-1, k)
  | Some (d, _) => dev_ioctl d request arg k
  end.

Definition device_close (t cap_slot : Z) (k : Kernel) : Z * Kernel :=
  if negb (is_valid_slot cap_slot) then (-2, k) else
  let '(cap, k) := cap_lookup (Some t) cap_slot k in
  match cap with
  | Some c =>
      if decide (cap_type c = CapDevice) then
        let k := match cap_object c with Some (ObjOther d) => (dev_close d k).2 | _ => k end in
        (0, (cap_delete (Some t) cap_slot k).2)
      else (-1, k)
  | None => (-1, k)
  end.
End Registry.
