(* ===== verification/Text.v ===== *)
(** C strings as the byte arrays that hold them: reading at or behind the
    terminator gives 0, and [cstr] is the string itself.  Literals ([str]) and
    decimal numbers. *)
From S2P Require Import Prelude.
From stdpp Require Import strings.
#[local] Open Scope Z_scope.

(** ** C strings *)

Definition char_at (s : list Z) (i : Z) : Z := if 0 <=? i then nth (Z.to_nat i) s 0 else 0.

Fixpoint cstr (s : list Z) : list Z :=
  match s with
  | [] => []
  | c :: s => if c =? 0 then [] else c :: cstr s
  end.

(** A string literal. *)
Definition str (s : string) : list Z := (fun a => Z.of_nat (Ascii.nat_of_ascii a)) <$> String.list_ascii_of_string s.

Lemma cstr_nonzero s i c : cstr s !! i = Some c -> c <> 0.
Proof.
  revert i. induction s as [|x s IH]; intros i; cbn; [done|]. destruct (Z.eqb_spec x 0); [done|]. destruct i; cbn; [congruence|apply IH].
Qed.

Lemma char_at_cstr s i : 0 <= i <= Z.of_nat (length (cstr s)) -> char_at s i = nth (Z.to_nat i) (cstr s) 0.
Proof.
  intros Hi. unfold char_at. destruct (Z.leb_spec 0 i); [|lia]. remember (Z.to_nat i) as n. assert (Hn : (n <= length (cstr s))%nat) by lia. clear Hi H Heqn i.
  revert n Hn. induction s as [|x s IH]; intros n Hn; cbn in *; [done|]. destruct (Z.eqb_spec x 0) as [->|Hx]; cbn in *; [by destruct n; [|lia]|].
  destruct n; [done|]. apply IH. lia.
Qed.

Lemma cstr_length s : (length (cstr s) <= length s)%nat.
Proof. induction s as [|x s IH]; cbn; [done|]. destruct (x =? 0); cbn; lia. Qed.

Lemma cstr_nonzeros s : Forall (fun c => c <> 0) (cstr s).
Proof. apply Forall_lookup_2. intros i c. apply cstr_nonzero. Qed.

Lemma cstr_app_nonzero s t : Forall (fun c => c <> 0) s -> cstr (s ++ 0 :: t) = s.
Proof. induction 1 as [|c s Hc _ IH]; cbn; [done|]. destruct (Z.eqb_spec c 0); [done|]. by rewrite IH. Qed.

Lemma str_cstr_of s : Forall (fun c => c <> 0) s -> cstr s = s.
Proof. induction 1 as [|c s Hc _ IH]; cbn; [done|]. destruct (Z.eqb_spec c 0); [done|]. by rewrite IH. Qed.

(** ** Decimal numbers *)

(** [while (num > 0) tmp[i++] = '0' + (num % 10), num /= 10], least significant
    digit first. *)
Fixpoint digits (fuel : nat) (num : Z) : list Z :=
  match fuel with
  | O => []
  | S fuel => if 0 <? num then (48 + num mod 10) :: digits fuel (num / 10) else []
  end.

Definition decimal (num : Z) : list Z := rev (if num =? 0 then [48] else digits 16 num).

(** Reading a decimal number back. *)
Definition value (s : list Z) : Z := foldl (fun a c => 10 * a + (c - 48)) 0 s.

Lemma value_snoc s c : value (s ++ [c]) = 10 * value s + (c - 48).
Proof. unfold value. by rewrite foldl_app. Qed.

Lemma digits_length fuel num k : 0 <= num < 10 ^ Z.of_nat k -> (length (digits fuel num) <= k)%nat.
Proof.
  revert num k. induction fuel as [|fuel IH]; intros num k H; cbn [digits]; [cbn; lia|]. destruct (Z.ltb_spec 0 num); [|cbn; lia].
  destruct k as [|k]; [cbn in H; lia|]. cbn [length]. apply le_n_S, IH. split; [apply Z.div_pos; lia|]. apply Z.div_lt_upper_bound; [lia|].
  rewrite Nat2Z.inj_succ, Z.pow_succ_r in H by lia. lia.
Qed.

Lemma decimal_length num k : (1 <= k)%nat -> 0 <= num < 10 ^ Z.of_nat k -> (length (decimal num) <= k)%nat.
Proof. intros Hk H. unfold decimal. rewrite length_rev. destruct (num =? 0); [done|by apply digits_length]. Qed.

Lemma digits_value fuel num : 0 <= num < 10 ^ Z.of_nat fuel -> value (rev (digits fuel num)) = num.
Proof.
  revert num. induction fuel as [|fuel IH]; intros num H; cbn [digits]; [cbn in *; lia|]. destruct (Z.ltb_spec 0 num); [|cbn; lia].
  cbn [rev]. rewrite value_snoc, IH; [Z.to_euclidean_division_equations; lia|]. rewrite Nat2Z.inj_succ, Z.pow_succ_r in H by lia.
  split; [apply Z.div_pos; lia|]. apply Z.div_lt_upper_bound; lia.
Qed.

Lemma decimal_value num : is_u32 num -> value (decimal num) = num.
Proof.
  intros H. unfold decimal, is_u32 in *. destruct (Z.eqb_spec num 0) as [->|]; [done|]. apply digits_value. cbn. lia.
Qed.
