(* ===== verification/Glob.v ===== *)
(** Wildcard matching of the audit rules (kernel/core/audit.hpp,
    [AuditEngine::path_match_]): the backtracking loop against the language of a
    pattern. *)
From S2P Require Import Prelude Text.

Definition star_char : Z := 42.  (* * *)
Definition any_char : Z := 63.   (* ? *)

(** ** The code *)

(** [while (pattern[si] == '*') ++si;] *)
Fixpoint skip_stars (fuel : nat) (pattern : list Z) (si : Z) : Z :=
  match fuel with
  | O => si
  | S fuel => if char_at pattern si =? star_char then skip_stars fuel pattern (si + 1) else si
  end.

(** The main loop with its four variables; [None] when the fuel runs out. *)
Fixpoint match_loop (fuel : nat) (path pattern : list Z) (pi si star mtch : Z) : option bool :=
  match fuel with
  | O => None
  | S fuel =>
      if char_at path pi =? 0 then
        Some (char_at pattern (skip_stars (length pattern) pattern si) =? 0)
      else if char_at pattern si =? star_char then match_loop fuel path pattern pi (si + 1) si pi
      else if (char_at pattern si =? char_at path pi) || ((char_at pattern si =? any_char) && negb (char_at path pi =? 0))
      then match_loop fuel path pattern (pi + 1) (si + 1) star mtch
      else if 0 <=? star then match_loop fuel path pattern (mtch + 1) (star + 1) star (mtch + 1)
      else Some false
  end.

(** Steps that suffice: each round advances in the path, or moves the fallback
    forward in the path or in the pattern. *)
Definition match_fuel (path pattern : list Z) : nat :=
  S ((length path + length pattern + 1) * (length path + 2) + length path).

Definition path_match_ (path pattern : list Z) : option bool :=
  match_loop (match_fuel path pattern) path pattern 0 0 (-1) 0.

(** ** The language of a pattern *)

Inductive glob : list Z -> list Z -> Prop :=
  | glob_nil : glob [] []
  | glob_char c p s : c <> star_char -> glob p s -> glob (c :: p) (c :: s)
  | glob_any x p s : glob p s -> glob (any_char :: p) (x :: s)
  | glob_star p s1 s2 : glob p s2 -> glob (star_char :: p) (s1 ++ s2).

(** ** Indices and suffixes *)

Definition suffix_at (s : list Z) (i : Z) : list Z := drop (Z.to_nat i) (cstr s).

(** The first byte of a suffix decides. *)
Lemma suffix_cons s i :
  0 <= i <= Z.of_nat (length (cstr s)) ->
  if char_at s i =? 0 then i = Z.of_nat (length (cstr s)) /\ suffix_at s i = []
  else i < Z.of_nat (length (cstr s)) /\ suffix_at s i = char_at s i :: suffix_at s (i + 1).
Proof.
  intros Hi. rewrite char_at_cstr by done. unfold suffix_at. destruct (cstr s !! Z.to_nat i) as [c|] eqn:E.
  - pose proof (lookup_lt_Some _ _ _ E). rewrite (nth_lookup_Some _ _ 0 _ E). pose proof (cstr_nonzero _ _ _ E). destruct (Z.eqb_spec c 0); [done|].
    split; [lia|]. rewrite (drop_S _ _ _ E). f_equal. f_equal. lia.
  - apply lookup_ge_None in E. rewrite nth_overflow by done. cbn. split; [lia|]. by apply drop_ge.
Qed.

Lemma suffix_nil s : suffix_at s (Z.of_nat (length (cstr s))) = [].
Proof. unfold suffix_at. rewrite Nat2Z.id. apply drop_ge. done. Qed.

(** ** Facts on the language *)

Lemma glob_star_more p s x : glob (star_char :: p) s -> glob (star_char :: p) (x :: s).
Proof.
  intros H. inversion H as [|? ? ? Hc ? E1 E2|? ? ? ? E1 E2|? s1 s2 Hg E1 E2]; subst; [done|]. apply (glob_star p (x :: s1) s2). done.
Qed.

Lemma glob_star_cons p x s : glob (star_char :: p) (x :: s) <-> glob p (x :: s) \/ glob (star_char :: p) s.
Proof.
  split.
  - intros H. inversion H as [|? ? ? Hc ? E1 E2|? ? ? ? E1 E2|? s1 s2 Hg E1 E2]; subst; [done|].
    destruct s1 as [|y s1]; cbn in *; [left; by subst|]. injection E2 as -> <-. right. by constructor.
  - intros [H|H]; [by apply (glob_star p [])|by apply glob_star_more].
Qed.

Lemma glob_star_empty p : glob (star_char :: p) [] <-> glob p [].
Proof.
  split; [|apply (glob_star p [])]. intros H. inversion H as [|? ? ? Hc ? E1 E2|? ? ? ? E1 E2|? s1 s2 Hg E1 E2]; subst.
  apply app_eq_nil in E2 as [-> ->]. done.
Qed.

Lemma glob_step c p x s : c <> star_char -> glob (c :: p) (x :: s) <-> (c = x \/ c = any_char) /\ glob p s.
Proof.
  intros Hc. split.
  - intros H. inversion H; subst; try done; (split; [tauto|done]).
  - intros [[->| ->] H]; by constructor.
Qed.

Lemma glob_nil_cons x s : ~ glob [] (x :: s).
Proof. intros H. inversion H. Qed.

Lemma glob_cons_nil c p : c <> star_char -> ~ glob (c :: p) [].
Proof. intros Hc H. inversion H; subst; done. Qed.

(** A star absorbs any longer start. *)
Lemma glob_star_drop p s n : glob (star_char :: p) (drop n s) -> glob (star_char :: p) s.
Proof. revert s. induction n as [|n IH]; intros [|x s]; cbn; try done. intros H. by apply glob_star_more, IH. Qed.

(** A star-free prefix consumes exactly its length. *)
Lemma glob_prefix seg p s : Forall (fun c => c <> star_char) seg -> glob (seg ++ p) s -> glob p (drop (length seg) s).
Proof.
  intros Hseg. revert s. induction Hseg as [|c seg Hc _ IH]; intros s; cbn; [done|]. destruct s as [|x s]; [intros H; by apply glob_cons_nil in H|].
  intros [_ H]%glob_step; [|done]. by apply IH.
Qed.

Lemma glob_prefix_length seg p s : Forall (fun c => c <> star_char) seg -> glob (seg ++ p) s -> (length seg <= length s)%nat.
Proof.
  intros Hseg. revert s. induction Hseg as [|c seg Hc _ IH]; intros s; cbn; [lia|]. destruct s as [|x s]; [intros H; by apply glob_cons_nil in H|].
  intros [_ H]%glob_step; [|done]. apply IH in H. cbn. lia.
Qed.

(** A star stands for every later start. *)
Lemma glob_star_exists p s : glob (star_char :: p) s <-> exists k, (k <= length s)%nat /\ glob p (drop k s).
Proof.
  split.
  - intros H. inversion H as [|? ? ? Hc ? E1 E2|? ? ? ? E1 E2|? s1 s2 Hg E1 E2]; subst; [done|]. exists (length s1).
    rewrite length_app, drop_app_length. split; [lia|done].
  - intros (k & _ & H). rewrite <- (take_drop k s). by constructor.
Qed.

(** ** The loop *)

Section Loop.
Context (path pattern : list Z).
Abbreviation n := (Z.of_nat (length (cstr path))).
Abbreviation m := (Z.of_nat (length (cstr pattern))).

(** The fallback: restart behind the last star, later in the path. *)
Definition fallback (star mtch : Z) : Prop :=
  0 <= star /\ exists k, mtch < k <= n /\ glob (suffix_at pattern (star + 1)) (suffix_at path k).

(** Since the last star, the pattern has been compared byte by byte. *)
Definition aligned_at (pi si star mtch : Z) : Prop :=
  0 <= star -> exists seg, suffix_at pattern (star + 1) = seg ++ suffix_at pattern si /\
    Forall (fun c => c <> star_char) seg /\ Z.of_nat (length seg) = pi - mtch.

Definition in_loop (pi si star mtch : Z) : Prop :=
  0 <= pi <= n /\ 0 <= si <= m /\ -1 <= star < si /\ star < m /\ 0 <= mtch <= pi /\ aligned_at pi si star mtch.

Lemma skip_stars_spec si :
  0 <= si <= m -> (char_at pattern (skip_stars (length pattern) pattern si) =? 0) = true <-> glob (suffix_at pattern si) [].
Proof.
  intros Hsi. assert (Hg : forall fuel si, 0 <= si <= m -> m - si <= Z.of_nat fuel ->
    (char_at pattern (skip_stars fuel pattern si) =? 0) = true <-> glob (suffix_at pattern si) []).
  { clear si Hsi. induction fuel as [|fuel IH]; intros si Hsi Hf; cbn [skip_stars]; pose proof (suffix_cons pattern si Hsi) as Hc.
    - assert (si = m) as -> by lia. destruct (char_at pattern m =? 0); [|lia]. destruct Hc as [_ ->]. split; [constructor|done].
    - destruct (Z.eqb_spec (char_at pattern si) star_char) as [E|Hne].
      + rewrite E in Hc. cbn in Hc. destruct Hc as [Hlt ->]. rewrite glob_star_empty. apply IH; lia.
      + destruct (char_at pattern si =? 0) eqn:Ez; destruct Hc as [Hlt ->]; [split; [constructor|done]|].
        split; [done|]. intros H. by apply glob_cons_nil in H. }
  apply Hg; [done|]. pose proof (cstr_length pattern). lia.
Qed.

(** At the end of the path no fallback is left. *)
Lemma fallback_end si star mtch : in_loop n si star mtch -> ~ fallback star mtch.
Proof.
  intros (Hpi & Hsi & Hst & Hsm & Hm & Ha) (Hs & k & Hk & Hg). destruct (Ha Hs) as (seg & E & Hf & Hl). rewrite E in Hg.
  apply glob_prefix_length in Hg; [|done]. unfold suffix_at in Hg. rewrite length_drop in Hg. lia.
Qed.

(** A new star makes the old fallback superfluous. *)
Lemma fallback_star pi si star mtch :
  in_loop pi si star mtch -> char_at pattern si = star_char -> fallback star mtch -> glob (suffix_at pattern si) (suffix_at path pi).
Proof.
  intros (Hpi & Hsi & Hst & Hsm & Hm & Ha) Hc (Hs & k & Hk & Hg). destruct (Ha Hs) as (seg & E & Hf & Hl). rewrite E in Hg.
  pose proof (glob_prefix_length _ _ _ Hf Hg) as Hlen. apply glob_prefix in Hg; [|done].
  pose proof (suffix_cons pattern si Hsi) as Hx. rewrite Hc in Hx. cbn in Hx. destruct Hx as [_ ->] in Hg |- *.
  unfold suffix_at in Hg, Hlen |- *. rewrite drop_drop in Hg. rewrite length_drop in Hlen. apply (glob_star_drop _ _ (Z.to_nat (k + Z.of_nat (length seg) - pi))).
  rewrite drop_drop. replace (Z.to_nat pi + Z.to_nat (k + Z.of_nat (length seg) - pi))%nat with (Z.to_nat k + length seg)%nat by lia. done.
Qed.

Lemma fallback_next star mtch :
  0 <= star -> 0 <= mtch < n -> fallback star mtch <-> glob (suffix_at pattern (star + 1)) (suffix_at path (mtch + 1)) \/ fallback star (mtch + 1).
Proof.
  intros Hs Hm. split.
  - intros (_ & k & Hk & Hg). destruct (decide (k = mtch + 1)) as [->|]; [by left|]. right. split; [done|]. exists k. split; [lia|done].
  - intros [Hg|(_ & k & Hk & Hg)]; (split; [done|]); [exists (mtch + 1)|exists k]; (split; [lia|done]).
Qed.

(** A star is tried here or through the new fallback. *)
Lemma star_fallback pi si :
  0 <= pi <= n -> 0 <= si -> suffix_at pattern si = star_char :: suffix_at pattern (si + 1) ->
  glob (suffix_at pattern si) (suffix_at path pi) <-> glob (suffix_at pattern (si + 1)) (suffix_at path pi) \/ fallback si pi.
Proof.
  intros Hpi Hsi Es. rewrite Es, glob_star_exists.
  assert (El : length (suffix_at path pi) = (length (cstr path) - Z.to_nat pi)%nat) by apply length_drop. rewrite El. split.
  - intros (k & Hk & H). destruct k as [|k]; [by left|]. right. split; [lia|]. exists (pi + Z.of_nat (S k)).
    split; [lia|]. unfold suffix_at in *. rewrite drop_drop in H. by replace (Z.to_nat (pi + Z.of_nat (S k))) with (Z.to_nat pi + S k)%nat by lia.
  - intros [H|(_ & k & Hk & H)]; [exists 0%nat; split; [lia|done]|]. exists (Z.to_nat (k - pi)). unfold suffix_at in *. rewrite drop_drop.
    split; [lia|]. by replace (Z.to_nat pi + Z.to_nat (k - pi))%nat with (Z.to_nat k) by lia.
Qed.

Definition measure (pi star mtch : Z) : Z := (n - mtch + (m - star)) * (n + 2) + (n - pi).

Lemma match_loop_spec fuel pi si star mtch :
  in_loop pi si star mtch -> measure pi star mtch < Z.of_nat fuel ->
  exists b, match_loop fuel path pattern pi si star mtch = Some b /\
    (b = true <-> glob (suffix_at pattern si) (suffix_at path pi) \/ fallback star mtch).
Proof.
  revert pi si star mtch. induction fuel as [|fuel IH]; intros pi si star mtch Hin Hf; pose proof Hin as (Hpi & Hsi & Hst & Hsm & Hm & Ha).
  { unfold measure in Hf. nia. }
  cbn [match_loop]. pose proof (suffix_cons path pi Hpi) as Hp. destruct (char_at path pi =? 0) eqn:Ep.
  { destruct Hp as [-> ->]. eexists. split; [done|]. rewrite skip_stars_spec by done. split; [by left|]. intros [H|H]; [done|]. by destruct (fallback_end si star mtch Hin H). }
  apply Z.eqb_neq in Ep. destruct Hp as [Hlt Ep']. pose proof (suffix_cons pattern si Hsi) as Hs.
  destruct (Z.eqb_spec (char_at pattern si) star_char) as [Ec|Hns].
  { rewrite Ec in Hs. cbn in Hs. destruct Hs as [Hsl Es]. destruct (IH pi (si + 1) si pi) as (b & -> & Hb).
    - split; [lia|]. split; [lia|]. split; [lia|]. split; [lia|]. split; [lia|]. intros _. exists []. split; [done|]. split; [constructor|cbn; lia].
    - unfold measure in *. nia.
    - exists b. split; [done|]. rewrite Hb, <- star_fallback by (lia || done). split; [by left|]. intros [H|H]; [done|]. by eapply fallback_star. }
  destruct ((char_at pattern si =? char_at path pi) || _) eqn:Eq.
  { assert (Hc : (char_at pattern si = char_at path pi \/ char_at pattern si = any_char)).
    { apply orb_true_iff in Eq as [E%Z.eqb_eq|[E%Z.eqb_eq _]%andb_true_iff]; tauto. }
    assert (Hnz : (char_at pattern si =? 0) = false) by (apply Z.eqb_neq; destruct Hc as [->| ->]; [done|discriminate]).
    rewrite Hnz in Hs. destruct Hs as [Hsl Es]. destruct (IH (pi + 1) (si + 1) star mtch) as (b & -> & Hb).
    - split; [lia|]. split; [lia|]. split; [lia|]. split; [lia|]. split; [lia|]. intros H0. destruct (Ha H0) as (seg & E & Hfa & Hl).
      exists (seg ++ [char_at pattern si]). split; [by rewrite E, Es, <- app_assoc|]. split; [apply Forall_app; split; [done|by repeat constructor]|].
      rewrite length_app. cbn. lia.
    - unfold measure in *. lia.
    - exists b. split; [done|]. rewrite Hb, Ep', Es, glob_step by done. tauto. }
  assert (Hmain : ~ glob (suffix_at pattern si) (suffix_at path pi)).
  { apply orb_false_iff in Eq as [E1%Z.eqb_neq E2]. rewrite Ep'. destruct (char_at pattern si =? 0) eqn:Ez; destruct Hs as [_ ->]; [apply glob_nil_cons|].
    rewrite glob_step by done. intros [[H|H] _]; [done|]. rewrite H in E2. cbn in E2. destruct (char_at path pi =? 0) eqn:Ez'; [apply Z.eqb_eq in Ez'; done|done]. }
  destruct (Z.leb_spec 0 star) as [H0|Hneg].
  - destruct (IH (mtch + 1) (star + 1) star (mtch + 1)) as (b & -> & Hb).
    + split; [lia|]. split; [lia|]. split; [lia|]. split; [lia|]. split; [lia|]. intros _. exists []. split; [done|]. split; [constructor|cbn; lia].
    + unfold measure in *. nia.
    + exists b. split; [done|]. rewrite Hb, (fallback_next star mtch) by lia. tauto.
  - exists false. split; [done|]. split; [done|]. intros [H|[H _]]; [done|lia].
Qed.
End Loop.

(** The matcher ends and decides the language of the pattern. *)
Lemma path_match_spec path pattern : exists b, path_match_ path pattern = Some b /\ (b = true <-> glob (cstr pattern) (cstr path)).
Proof.
  destruct (match_loop_spec path pattern (match_fuel path pattern) 0 0 (-1) 0) as (b & E & Hb).
  - split; [lia|]. split; [lia|]. split; [lia|]. split; [lia|]. split; [lia|]. intros H. lia.
  - unfold measure, match_fuel. pose proof (cstr_length path). pose proof (cstr_length pattern). nia.
  - exists b. split; [exact E|]. rewrite Hb. unfold suffix_at. cbn. split; [|by left]. intros [H|[H _]]; [done|lia].
Qed.
