(* ===== verification/AuditRing.v ===== *)
(** The audit engine (kernel/core/audit.hpp): a ring of the latest records, a
    table of rules evaluated on every record, and the /proc/audit_log node.

    Records are written with interrupts disabled, so [push_entry_] with its rule
    evaluation is one step; [now] is the tick counter during that step.
    [write_count_] is a 32-bit [int]: its increment wraps at [2^31] and the C
    remainder of a negative count is negative. *)
From S2P Require Import Prelude Kernel ReadyQueue Endpoint Text Glob.

(** * Data *)

Inductive AuditEvent :=
  | FileOpen | FileClose | FileRead | FileWrite | FileSeek | FileIoctl
  | SocketCreate | SocketConnect | SocketSend | SocketRecv | SocketClose
  | SysPrint | SysYield | SysSleep | SysCapDerive | SysCapMint | SysCapRevoke | SysCapGrant | SysCapDelete
  | SysKill | SysSigAction | SysSigMask | SysIpcCall | SysIpcRecv | SysIpcReply | SysUnknown
  | AuditAlert.

Definition event_code (e : AuditEvent) : Z :=
  match e with
  | FileOpen => 0 | FileClose => 1 | FileRead => 2 | FileWrite => 3 | FileSeek => 4 | FileIoctl => 5
  | SocketCreate => 10 | SocketConnect => 11 | SocketSend => 12 | SocketRecv => 13 | SocketClose => 14
  | SysPrint => 20 | SysYield => 21 | SysSleep => 22 | SysCapDerive => 23 | SysCapMint => 24 | SysCapRevoke => 25
  | SysCapGrant => 26 | SysCapDelete => 27 | SysKill => 28 | SysSigAction => 29 | SysSigMask => 30
  | SysIpcCall => 31 | SysIpcRecv => 32 | SysIpcReply => 33 | SysUnknown => 34
  | AuditAlert => 40
  end.

Record AuditEntry := mkEntry {
  timestamp : Z; ent_task_id : Z; ent_event : Z; ent_result : Z; arg0 : Z; arg1 : Z; ent_path : list Z }.

#[export] Instance AuditEntry_inhabited : Inhabited AuditEntry := populate (mkEntry 0 0 0 0 0 0 (replicate 16 0)).

Record AuditRule := mkRule {
  event_filter : Z; path_pattern : list Z; tid_filter : Z; threshold_count : Z; threshold_ms : Z; action : Z; active : bool }.

Definition set_active (v : bool) (r : AuditRule) : AuditRule :=
  mkRule (event_filter r) (path_pattern r) (tid_filter r) (threshold_count r) (threshold_ms r) (action r) v.

#[export] Instance AuditRule_inhabited : Inhabited AuditRule := populate (mkRule 0 (replicate 32 0) 0 0 0 0 false).

Definition kRingCapacity : Z := 128.
Definition kMaxRules : Z := 16.

Record AuditEngine := mkEngine { ring_buffer_ : list AuditEntry; write_count_ : Z; initialized_ : bool; rules_ : list AuditRule }.

Definition set_ring v e := mkEngine v (write_count_ e) (initialized_ e) (rules_ e).
Definition set_write_count v e := mkEngine (ring_buffer_ e) v (initialized_ e) (rules_ e).
Definition set_rules v e := mkEngine (ring_buffer_ e) (write_count_ e) (initialized_ e) v.

Definition engine_ctor : AuditEngine := mkEngine (replicate 128 inhabitant) 0 false (replicate 16 inhabitant).

(** [init]: mounting /proc/audit_log is the VFS's affair. *)
Definition audit_init (e : AuditEngine) : AuditEngine :=
  if initialized_ e then e else mkEngine (ring_buffer_ e) (write_count_ e) true (rules_ e).

(** [int] arithmetic. *)
Definition int32 (x : Z) : Z := (x + 2147483648) mod 4294967296 - 2147483648.
Definition wrap16 (x : Z) : Z := x mod 65536.

(** * Rules *)

(** [add_rule]: the first inactive slot. *)
Fixpoint add_rule_from (rs : list AuditRule) (rule : AuditRule) : bool * list AuditRule :=
  match rs with
  | [] => (false, [])
  | r :: rs =>
      if negb (active r) then (true, set_active true rule :: rs)
      else let (ok, rs) := add_rule_from rs rule in (ok, r :: rs)
  end.

Definition add_rule (rule : AuditRule) (e : AuditEngine) : bool * AuditEngine :=
  let (ok, rs) := add_rule_from (rules_ e) rule in (ok, set_rules rs e).

Definition remove_rule (index : Z) (e : AuditEngine) : AuditEngine :=
  if (0 <=? index) && (index <? kMaxRules) then set_rules (zalter (set_active false) index (rules_ e)) e else e.

Definition clear_rules (e : AuditEngine) : AuditEngine := set_rules (set_active false <$> rules_ e) e.

Definition get_active_rule_count (e : AuditEngine) : Z := Z.of_nat (length (List.filter active (rules_ e))).

(** * Evaluation *)

(** The write of one slot, shared by [push_entry_] and [execute_rule_action_].  This is
    the code as long as the signed counter does not overflow, for 2^31 records; behind
    them the increment is undefined, and where it wraps the index is negative and the
    code writes outside the ring.  Theorems about sequences of records bound them. *)
Definition write_slot (x : AuditEntry) (e : AuditEngine) : AuditEngine :=
  set_write_count (int32 (write_count_ e + 1)) (set_ring (zalter (fun _ => x) (Z.rem (write_count_ e) kRingCapacity) (ring_buffer_ e)) e).

(** [(total - 1 - j) % kRingCapacity], brought back into range. *)
Definition hist_index (total j : Z) : Z :=
  let idx := Z.rem (total - 1 - j) kRingCapacity in
  if idx <? 0 then idx + kRingCapacity else idx.

Definition counts_as (rule : AuditRule) (hist : AuditEntry) : bool :=
  ((event_filter rule =? 255) || (event_filter rule =? ent_event hist)) &&
  ((tid_filter rule =? 0) || (tid_filter rule =? ent_task_id hist)).

(** The counting loop, left at the first record for which [stop] holds. *)
Fixpoint count_loop (js : list Z) (total : Z) (stop : AuditEntry -> bool) (rule : AuditRule) (e : AuditEngine) (match_count : Z) : Z :=
  match js with
  | [] => match_count
  | j :: js =>
      let hist := zlookup (ring_buffer_ e) (hist_index total j) in
      if stop hist then match_count
      else count_loop js total stop rule e (if counts_as rule hist then match_count + 1 else match_count)
  end.

Definition count_matches (stop : AuditEntry -> bool) (rule : AuditRule) (e : AuditEngine) : Z :=
  let total := write_count_ e in
  let limit := if kRingCapacity <? total then kRingCapacity else total in
  count_loop (seqZ 0 limit) total stop rule e 0.

(** Event, task and path filters. *)
Definition path_ok (rule : AuditRule) (entry : AuditEntry) : bool :=
  if negb (char_at (path_pattern rule) 0 =? 0) && negb (char_at (ent_path entry) 0 =? 0)
  then match path_match_ (ent_path entry) (path_pattern rule) with Some b => b | None => false end
  else true.

Definition filters_pass (rule : AuditRule) (entry : AuditEntry) : bool :=
  active rule &&
  negb (negb (event_filter rule =? 255) && negb (event_filter rule =? ent_event entry)) &&
  negb (negb (tid_filter rule =? 0) && negb (tid_filter rule =? ent_task_id entry)) &&
  path_ok rule entry.

Definition alert_entry (now : Z) (entry : AuditEntry) : AuditEntry :=
  mkEntry now (ent_task_id entry) (event_code AuditAlert) 1 (ent_event entry) (arg0 entry) (replicate 16 0).

(** The termination of [execute_rule_action_]. *)
Definition terminate_task (tid : Z) (k : Kernel) : Kernel :=
  match get_task_by_id k tid with
  | None => k
  | Some t =>
      if decide (sched_state (scheduler (tcb k t)) = Terminated) then k
      else set_task_state (sched_id (scheduler (tcb k t))) Terminated k
  end.

Definition execute_rule_action_ (now : Z) (rule : AuditRule) (entry : AuditEntry) (st : AuditEngine * Kernel) : AuditEngine * Kernel :=
  let (e, k) := st in
  (write_slot (alert_entry now entry) e, if 2 <=? action rule then terminate_task (ent_task_id entry) k else k).

(** One round of [evaluate_rules_] and of [evaluate_rules], which differ in how
    they leave the window. *)
Definition rule_step (stop : AuditRule -> AuditEntry -> bool) (now : Z) (entry : AuditEntry) (st : AuditEngine * Kernel) (rule : AuditRule) : AuditEngine * Kernel :=
  if negb (filters_pass rule entry) then st
  else if (0 <? threshold_count rule) && (count_matches (stop rule) rule st.1 <? threshold_count rule) then st
  else execute_rule_action_ now rule entry st.

Definition outside_window (entry : AuditEntry) (rule : AuditRule) (hist : AuditEntry) : bool :=
  threshold_ms rule <? wrap32 (timestamp entry - timestamp hist).

Definition evaluate_rules_ (now : Z) (entry : AuditEntry) (st : AuditEngine * Kernel) : AuditEngine * Kernel :=
  foldl (rule_step (outside_window entry) now entry) st (rules_ st.1).

(** [window_start = entry.timestamp - (threshold_ms * 1000 / 1000)], in
    [uint32_t]. *)
Definition before_window (entry : AuditEntry) (rule : AuditRule) (hist : AuditEntry) : bool :=
  timestamp hist <? wrap32 (timestamp entry - wrap32 (threshold_ms rule * 1000) / 1000).

Definition evaluate_rules (now : Z) (entry : AuditEntry) (st : AuditEngine * Kernel) : AuditEngine * Kernel :=
  foldl (rule_step (before_window entry) now entry) st (rules_ st.1).

Definition push_entry_ (now : Z) (entry : AuditEntry) (st : AuditEngine * Kernel) : AuditEngine * Kernel :=
  evaluate_rules_ now entry (write_slot entry st.1, st.2).

(** * Records *)

Definition get_current_tid_ (k : Kernel) : Z :=
  match g_current_tcb_ptr k with
  | Some c => wrap16 (sched_id (scheduler (tcb k c)))
  | None => 65535
  end.

(** [tick] is the tick counter when the entry is built. *)
Definition record (tick now : Z) (event : AuditEvent) (result a0 a1 : Z) (st : AuditEngine * Kernel) : AuditEngine * Kernel :=
  push_entry_ now (mkEntry tick (get_current_tid_ st.2) (event_code event) result a0 a1 (replicate 16 0)) st.

(** [while (i < 15 && path[i]) entry.path[i] = path[i]], then the terminator. *)
Fixpoint fill_path (fuel : nat) (path : list Z) (i : Z) (dst : list Z) : list Z :=
  match fuel with
  | O => dst
  | S fuel =>
      if (i <? 15) && negb (char_at path i =? 0)
      then fill_path fuel path (i + 1) (zalter (fun _ => char_at path i) i dst)
      else zalter (fun _ => 0) i dst
  end.

Definition record_path (tick now : Z) (event : AuditEvent) (result a0 a1 : Z) (path : option (list Z)) (st : AuditEngine * Kernel) : AuditEngine * Kernel :=
  let p := match path with
           | Some path => fill_path 16 path 0 (replicate 16 0)
           | None => replicate 16 0
           end in
  push_entry_ now (mkEntry tick (get_current_tid_ st.2) (event_code event) result a0 a1 p) st.

Definition map_svc_to_event_ (svc : Z) : AuditEvent :=
  if svc =? 0x01 then SysPrint else if svc =? 0x02 then SysYield else if svc =? 0x03 then SysSleep
  else if svc =? 0x08 then SysCapDerive else if svc =? 0x09 then SysCapMint else if svc =? 0x0A then SysCapRevoke
  else if svc =? 0x0B then SysCapDelete else if svc =? 0x0C then SysCapGrant
  else if svc =? 0x14 then SysKill else if svc =? 0x15 then SysSigAction else if svc =? 0x16 then SysSigMask
  else if svc =? 0x10 then SysIpcCall else if svc =? 0x11 then SysIpcRecv else if svc =? 0x12 then SysIpcReply
  else SysUnknown.

Definition record_svc (tick now svc result : Z) := record tick now (map_svc_to_event_ svc) result svc 0.

Definition failed (x : Z) : Z := if x <? 0 then 1 else 0.
Definition positive_part (x : Z) : Z := if 0 <? x then x else 0.

Definition record_open (tick now : Z) (path : option (list Z)) (fd flags : Z) :=
  record_path tick now FileOpen (failed fd) (wrap16 (if 0 <=? fd then fd else 0)) (wrap32 flags) path.
Definition record_write (tick now fd n : Z) := record tick now FileWrite (failed n) (wrap16 fd) (positive_part n).
Definition record_read (tick now fd n : Z) := record tick now FileRead (failed n) (wrap16 fd) (positive_part n).
Definition record_close (tick now fd ret : Z) := record tick now FileClose (failed ret) (wrap16 fd) 0.
Definition record_socket_create (tick now domain fd : Z) :=
  record tick now SocketCreate (failed fd) (wrap16 (if 0 <=? fd then fd else 0)) (wrap32 domain).
Definition record_socket_connect (tick now fd ip port : Z) := record tick now SocketConnect 0 (wrap16 fd) ip.
Definition record_socket_send (tick now fd n : Z) := record tick now SocketSend (failed n) (wrap16 fd) (positive_part n).
Definition record_socket_recv (tick now fd n : Z) := record tick now SocketRecv (failed n) (wrap16 fd) (positive_part n).

(** * Queries *)

Definition get_entry_count (e : AuditEngine) : Z := if kRingCapacity <? write_count_ e then kRingCapacity else write_count_ e.
Definition get_entry (index : Z) (e : AuditEngine) : option AuditEntry :=
  if (index <? 0) || (kRingCapacity <=? index) then None else Some (zlookup (ring_buffer_ e) index).
Definition get_total_records (e : AuditEngine) : Z := wrap32 (write_count_ e).
