(* ===== verification/AuditInv.v ===== *)
(** The audit ring as a log: [ring_ok e L] says that the engine holds the latest
    128 entries of the log [L], newest first; pushing an entry evaluates the rules
    on the log. *)
From S2P Require Import Prelude Kernel ReadyQueue Endpoint Scheduler Text Glob AuditRing.

Record ring_ok (e : AuditEngine) (L : list AuditEntry) : Prop := {
  rg_length : length (ring_buffer_ e) = 128%nat;
  rg_count : write_count_ e = Z.of_nat (length L);
  rg_small : Z.of_nat (length L) < 2147483648;
  rg_entries : forall j, (j < 128)%nat -> (j < length L)%nat ->
    L !! j = Some (zlookup (ring_buffer_ e) ((Z.of_nat (length L) - 1 - Z.of_nat j) mod 128));
}.

Lemma int32_small x : -2147483648 <= x < 2147483648 -> int32 x = x.
Proof. intros H. unfold int32. rewrite Z.mod_small by lia. lia. Qed.

Lemma engine_ctor_ok : ring_ok engine_ctor [].
Proof. split; [done|done|cbn; lia|]. intros j _ Hj. cbn in Hj. lia. Qed.

Lemma write_slot_ok e L x : ring_ok e L -> Z.of_nat (length L) + 1 < 2147483648 -> ring_ok (write_slot x e) (x :: L).
Proof.
  intros [H1 H2 H3 H4] Hs. unfold write_slot. rewrite H2. unfold kRingCapacity. rewrite Z.rem_mod_nonneg by lia.
  set (i := Z.of_nat (length L) mod 128). assert (Hi : 0 <= i < 128) by (apply Z.mod_pos_bound; lia).
  assert (Hr : in_range (ring_buffer_ e) i) by (unfold in_range; rewrite H1; lia). split; cbn [ring_buffer_ write_count_ set_write_count set_ring].
  - by rewrite length_zalter.
  - rewrite int32_small by lia. cbn [length]. lia.
  - cbn [length]. lia.
  - intros j Hj Hl. cbn [length] in *. rewrite zlookup_zalter by done. destruct j as [|j].
    + rewrite decide_True; [done|]. unfold i. f_equal. lia.
    + replace (Z.of_nat (S (length L)) - 1 - Z.of_nat (S j)) with (Z.of_nat (length L) - 1 - Z.of_nat j) by lia. cbn [lookup list_lookup].
      rewrite decide_False; [apply H4; lia|]. unfold i. Z.to_euclidean_division_equations. lia.
Qed.

(** ** Counting *)

Fixpoint log_count (stop : AuditEntry -> bool) (rule : AuditRule) (L : list AuditEntry) : Z :=
  match L with
  | [] => 0
  | h :: L => if stop h then 0 else (if counts_as rule h then 1 else 0) + log_count stop rule L
  end.

Lemma hist_index_mod total j : 0 <= j < total -> hist_index total j = (total - 1 - j) mod 128.
Proof.
  intros H. unfold hist_index, kRingCapacity. rewrite Z.rem_mod_nonneg by lia. pose proof (Z.mod_pos_bound (total - 1 - j) 128 ltac:(lia)).
  destruct (Z.ltb_spec ((total - 1 - j) mod 128) 0); [lia|done].
Qed.

Lemma count_matches_ok stop rule e L : ring_ok e L -> count_matches stop rule e = log_count stop rule (take 128 L).
Proof.
  intros [H1 H2 H3 H4]. unfold count_matches, kRingCapacity. rewrite H2.
  set (limit := if 128 <? Z.of_nat (length L) then 128 else Z.of_nat (length L)).
  assert (Hl : limit = Z.of_nat (length (take 128 L))).
  { rewrite length_take. unfold limit. destruct (Z.ltb_spec 128 (Z.of_nat (length L))); lia. }
  assert (Hg : forall n j acc, (j + n = length (take 128 L))%nat ->
    count_loop (seqZ (Z.of_nat j) (Z.of_nat n)) (Z.of_nat (length L)) stop rule e acc = acc + log_count stop rule (drop j (take 128 L))).
  { induction n as [|n IH]; intros j acc Hj.
    - rewrite drop_ge by lia. change (acc = acc + 0). lia.
    - rewrite seqZ_cons by lia. rewrite length_take in Hj. cbn [count_loop]. rewrite hist_index_mod by lia.
      assert (E : take 128 L !! j = Some (zlookup (ring_buffer_ e) ((Z.of_nat (length L) - 1 - Z.of_nat j) mod 128))).
      { rewrite lookup_take_lt by lia. apply H4; lia. }
      rewrite (drop_S _ _ _ E). cbn [log_count]. destruct (stop _); [lia|].
      replace (Z.succ (Z.of_nat j)) with (Z.of_nat (S j)) by lia. replace (Z.pred (Z.of_nat (S n))) with (Z.of_nat n) by lia.
      rewrite IH by (rewrite length_take; lia). destruct (counts_as rule _); lia. }
  rewrite Hl. change 0 with (Z.of_nat 0) at 1. rewrite Hg by lia. cbn. done.
Qed.

(** ** Evaluation on the log *)

Definition fires (stop : AuditRule -> AuditEntry -> bool) (entry : AuditEntry) (L : list AuditEntry) (rule : AuditRule) : bool :=
  filters_pass rule entry && ((threshold_count rule <=? 0) || (threshold_count rule <=? log_count (stop rule) rule (take 128 L))).

(** A rule that fires adds an alert whatever its action, as [execute_rule_action_] does
    (the comment of [AuditRule] has action 0 record only); actions from 2 on terminate. *)
Definition log_step (stop : AuditRule -> AuditEntry -> bool) (now : Z) (entry : AuditEntry) (st : list AuditEntry * bool) (rule : AuditRule) : list AuditEntry * bool :=
  if fires stop entry st.1 rule then (alert_entry now entry :: st.1, st.2 || (2 <=? action rule)) else st.

(** The log after the rules, and whether the task is to be terminated. *)
Definition log_eval stop now entry (rs : list AuditRule) (L : list AuditEntry) : list AuditEntry * bool :=
  foldl (log_step stop now entry) (L, false) rs.

(** Terminating a task a second time does nothing. *)
Lemma terminate_task_id tid k : terminate_task tid k = k \/ terminate_task tid k = set_task_state (sched_id (scheduler (tcb k tid))) Terminated k.
Proof.
  unfold terminate_task, get_task_by_id. destruct ((0 <=? tid) && (tid <? task_count k)); [|by left].
  destruct (decide _); [by left|by right].
Qed.

Lemma terminate_task_state tid k i :
  kernel_ok k -> is_task k tid ->
  sched_state (scheduler (tcb (terminate_task tid k) i)) = if decide (i = tid) then Terminated else sched_state (scheduler (tcb k i)).
Proof.
  intros Hk Ht. pose proof (kernel_ok_sched _ Hk) as Hs. unfold terminate_task, get_task_by_id.
  rewrite (proj2 (andb_true_iff _ _)) by (destruct Ht; split; [apply Z.leb_le|apply Z.ltb_lt]; lia).
  destruct (decide (sched_state (scheduler (tcb k tid)) = Terminated)) as [E|Hne]; [case_decide; congruence|].
  rewrite (sched_ok_id k tid) by done. by apply set_task_state_state.
Qed.

Lemma terminate_task_count tid k : task_count (terminate_task tid k) = task_count k.
Proof. destruct (terminate_task_id tid k) as [->| ->]; [done|apply count_set_task_state]. Qed.

Lemma terminate_task_ok tid k : kernel_ok k -> kernel_ok (terminate_task tid k).
Proof.
  intros Hk. unfold terminate_task, get_task_by_id. destruct ((0 <=? tid) && (tid <? task_count k)) eqn:E; [|done].
  destruct (decide _); [done|]. apply andb_true_iff in E as [E1%Z.leb_le E2%Z.ltb_lt].
  rewrite sched_ok_id by (done || by apply kernel_ok_sched). by apply kernel_ok_set_state.
Qed.

Lemma terminate_task_twice tid k : kernel_ok k -> terminate_task tid (terminate_task tid k) = terminate_task tid k.
Proof.
  intros Hk. unfold terminate_task at 1, get_task_by_id. rewrite terminate_task_count. destruct ((0 <=? tid) && (tid <? task_count k)) eqn:E.
  - apply andb_true_iff in E as [E1%Z.leb_le E2%Z.ltb_lt]. rewrite decide_True; [done|]. rewrite terminate_task_state by done. by rewrite decide_True.
  - done.
Qed.

(** ** The engine follows the log *)

Lemma rule_step_ok stop now entry rule e k L (b : bool) k0 :
  ring_ok e L -> kernel_ok k0 -> k = (if b then terminate_task (ent_task_id entry) k0 else k0) -> Z.of_nat (length L) + 1 < 2147483648 ->
  let st := rule_step stop now entry (e, k) rule in let st' := log_step stop now entry (L, b) rule in
  ring_ok st.1 st'.1 /\ rules_ st.1 = rules_ e /\ st.2 = (if st'.2 then terminate_task (ent_task_id entry) k0 else k0) /\
  Z.of_nat (length st'.1) <= Z.of_nat (length L) + 1.
Proof.
  intros Hr Hk -> Hs. cbv zeta. unfold rule_step, log_step, fires. cbn [fst snd]. rewrite (count_matches_ok _ _ _ _ Hr).
  destruct (filters_pass rule entry); cbn [negb andb fst snd]; [|split; [done|]; split; [done|]; split; [done|lia]].
  destruct (Z.ltb_spec 0 (threshold_count rule)), (Z.ltb_spec (log_count (stop rule) rule (take 128 L)) (threshold_count rule)),
    (Z.leb_spec (threshold_count rule) 0), (Z.leb_spec (threshold_count rule) (log_count (stop rule) rule (take 128 L))); try lia; cbn [andb orb fst snd execute_rule_action_];
    try (split; [done|]; split; [done|]; split; [done|lia]); (split; [by apply write_slot_ok|]; split; [done|]; split; [|cbn [length]; lia]).
  all: destruct b, (2 <=? action rule); cbn [orb]; try done; by apply terminate_task_twice.
Qed.

Lemma eval_ok stop now entry rs e L k0 :
  ring_ok e L -> kernel_ok k0 -> Z.of_nat (length L) + Z.of_nat (length rs) < 2147483648 ->
  let st := foldl (rule_step stop now entry) (e, k0) rs in let st' := log_eval stop now entry rs L in
  ring_ok st.1 st'.1 /\ rules_ st.1 = rules_ e /\ st.2 = (if st'.2 then terminate_task (ent_task_id entry) k0 else k0).
Proof.
  intros Hr Hk Hs. unfold log_eval. cbv zeta.
  assert (Hg : forall rs e k L (b : bool), ring_ok e L -> k = (if b then terminate_task (ent_task_id entry) k0 else k0) ->
    Z.of_nat (length L) + Z.of_nat (length rs) < 2147483648 ->
    ring_ok (foldl (rule_step stop now entry) (e, k) rs).1 (foldl (log_step stop now entry) (L, b) rs).1 /\
    rules_ (foldl (rule_step stop now entry) (e, k) rs).1 = rules_ e /\
    (foldl (rule_step stop now entry) (e, k) rs).2 = (if (foldl (log_step stop now entry) (L, b) rs).2 then terminate_task (ent_task_id entry) k0 else k0)).
  { clear e L Hr Hs rs. induction rs as [|r rs IH]; intros e k L b Hr Ek Hs; cbn [foldl]; [done|]. cbn [length] in Hs.
    destruct (rule_step_ok stop now entry r e k L b k0 Hr Hk Ek ltac:(lia)) as (A1 & A2 & A3 & A4).
    destruct (rule_step stop now entry (e, k) r) as [e1 k1], (log_step stop now entry (L, b) r) as [L1 b1]. cbn [fst snd] in *.
    destruct (IH e1 k1 L1 b1 A1 A3 ltac:(lia)) as (B1 & B2 & B3). split; [done|]. split; [congruence|done]. }
  by apply Hg.
Qed.

Lemma push_entry_ok now entry e k L :
  ring_ok e L -> kernel_ok k -> Z.of_nat (length L) + 1 + Z.of_nat (length (rules_ e)) < 2147483648 ->
  let st := push_entry_ now entry (e, k) in let st' := log_eval (outside_window entry) now entry (rules_ e) (entry :: L) in
  ring_ok st.1 st'.1 /\ rules_ st.1 = rules_ e /\ st.2 = (if st'.2 then terminate_task (ent_task_id entry) k else k).
Proof.
  intros Hr Hk Hs. unfold push_entry_, evaluate_rules_. cbn [fst snd]. change (rules_ (write_slot entry e)) with (rules_ e).
  pose proof (write_slot_ok e L entry Hr ltac:(lia)) as Hw.
  apply (eval_ok (outside_window entry) now entry (rules_ e) (write_slot entry e) (entry :: L) k Hw Hk). cbn [length]. lia.
Qed.

(** ** The kernel under any engine *)

(** A rule that may terminate: active, with an action above the alert. *)
Definition may_kill (rs : list AuditRule) : Prop := exists r, r ∈ rs /\ active r = true /\ 2 <= action r.

Lemma rule_step_kernel stop now entry st r :
  (rule_step stop now entry st r).2 = st.2 \/
  (active r = true /\ 2 <= action r /\ (rule_step stop now entry st r).2 = terminate_task (ent_task_id entry) st.2).
Proof.
  unfold rule_step. destruct (filters_pass r entry) eqn:Ef; [|by left]. cbn [negb]. destruct (_ && _); [by left|].
  unfold filters_pass in Ef. destruct st as [e k]. cbn [execute_rule_action_ snd].
  destruct (Z.leb_spec 2 (action r)); [right|by left]. split; [by destruct (active r)|done].
Qed.

(** Whatever the engine holds, the rules leave the kernel as it was or terminate the
    recorded task. *)
Lemma eval_kernel stop now entry rs st :
  kernel_ok st.2 ->
  (foldl (rule_step stop now entry) st rs).2 = st.2 \/
  (may_kill rs /\ (foldl (rule_step stop now entry) st rs).2 = terminate_task (ent_task_id entry) st.2).
Proof.
  revert st. induction rs as [|r rs IH]; intros st Hk; cbn [foldl]; [by left|].
  destruct (rule_step_kernel stop now entry st r) as [E|(Ha & H2 & E)].
  - rewrite <- E in Hk. destruct (IH _ Hk) as [E'|[(x & Hx & Hp) E']]; [left; congruence|right]. rewrite E', E.
    split; [|done]. exists x. split; [by right|done].
  - right. split; [exists r; split; [by left|done]|].
    assert (Hk' : kernel_ok (rule_step stop now entry st r).2) by (rewrite E; by apply terminate_task_ok).
    destruct (IH _ Hk') as [E'|[_ E']]; rewrite E', E; [done|]. by apply terminate_task_twice.
Qed.

Lemma record_kernel tick now ev res a0 a1 e k :
  kernel_ok k ->
  (record tick now ev res a0 a1 (e, k)).2 = k \/
  (may_kill (rules_ e) /\ (record tick now ev res a0 a1 (e, k)).2 = terminate_task (get_current_tid_ k) k).
Proof.
  intros Hk. unfold record, push_entry_, evaluate_rules_. cbn [fst snd]. set (x := mkEntry _ _ _ _ _ _ _).
  exact (eval_kernel (outside_window x) now x (rules_ e) (write_slot x e, k) Hk).
Qed.
