(* ===== verification/Syscall.v ===== *)
(** System calls: [KernelIpc] (kernel/core/syscall_ipc.hpp) and
    [SyscallDispatcher] (kernel/core/syscall_dispatcher.cpp), reached through
    [SVC_Handler_C] (boot/interrupts.cpp).

    The state of a call is the kernel, the stacked argument registers, the
    device registry, what was written to the UART and the audit engine, in which
    every handler first records its call (the hooks are active on all boards but
    the STM32L031K6).  [schedule] only pends a PendSV exception: on Cortex-M a
    handler runs to its end before the switch. *)
From stdpp Require Import strings.
From S2P Require Import Prelude Kernel ReadyQueue WaitQueue Endpoint Mpu TaskTable IpcSpec Scheduler Preserve AuditRing CSpace Sync Timers Mutex Validator Device.

Record InterruptFrame := mkFrameRegs {
  arg0 : Z;
  arg1 : Z;
  arg2 : Z;
  arg3 : Z;
}.

(** Output: the C string at a user address, or a kernel message. *)
Inductive Console := PutUser (str : Z) | PutMsg (msg : string).

Record Sys := mkSys {
  kern : Kernel;
  frame_ : InterruptFrame;
  registry : DeviceRegistry;
  console : list Console;
  audit : AuditEngine;
}.

Definition set_kern (k : Kernel) (s : Sys) : Sys := mkSys k (frame_ s) (registry s) (console s) (audit s).
Definition set_registry (r : DeviceRegistry) (s : Sys) : Sys := mkSys (kern s) (frame_ s) r (console s) (audit s).
Definition uart (c : Console) (s : Sys) : Sys := mkSys (kern s) (frame_ s) (registry s) (c :: console s) (audit s).
Definition uart_puts (msg : string) : Sys -> Sys := uart (PutMsg msg).

(** [frame->arg0 = static_cast<uint32_t>(v)]. *)
Definition ret (v : Z) (s : Sys) : Sys :=
  let f := frame_ s in mkSys (kern s) (mkFrameRegs (wrap32 v) (arg1 f) (arg2 f) (arg3 f)) (registry s) (console s) (audit s).

(** The values of [enum class IpcStatus : int32_t]. *)
Definition status_code (st : IpcStatus) : Z :=
  match st with
  | IpcOk => 0 | IpcTimeout => -1 | IpcWouldBlock => -2
  | IpcInvalid => -3 | IpcNoPermission => -4 | IpcReceiverDead => -5
  end.

(** [static_cast<int>(reg)]. *)
Definition to_int (v : Z) : Z := if v <? 2147483648 then v else v - 4294967296.

Section Syscalls.
Context `{AddressSpaces} `{Drivers} (mm : MemoryMap) (run_handler : Z -> Z -> Kernel -> Kernel) (registry_mutex_ : Z).

(** [tick_count] when the record of a call and when an alert is written. *)
Context (tick now : Z).

(** * IPC system calls *)

Definition endpoint_of (cap : Capability) : option Z := o ← cap_object cap; as_endpoint o.

Definition sys_ipc_call (task cap_slot msg len reply_buf' max_reply_len timeout_ticks : Z) (k : Kernel) : Z * Kernel :=
  let '(cap, k) := cap_lookup (Some task) cap_slot k in
  match cap with
  | None => (status_code IpcNoPermission, k)
  | Some cap =>
      if negb (bool_decide (cap_type cap = CapEndpoint)) || negb (right_write (cap_rights cap))
      then (status_code IpcNoPermission, k) else
      match endpoint_of cap with
      | None => (status_code IpcInvalid, k)
      | Some e =>
          let '(st, k) := call e (Some task) msg len reply_buf' max_reply_len timeout_ticks (cap_badge cap) k in
          if decide (st = IpcWouldBlock) then (status_code IpcWouldBlock, k) else
          let k := if (IPC_RAW_HEADER_SIZE <=? len) && negb (msg =? nullptr)
                   then upd task (set_msg_type (load32 (mem k) msg)) k else k in
          let k := match ipc_state (ipc (tcb k task)) with
                   | Sending | ReplyBlocked => schedule run_handler k
                   | _ => k
                   end in
          (status_code (ipc_status (ipc (tcb k task))), k)
      end
  end.

Definition sys_ipc_receive (task cap_slot msg_buf' max_len' out_sender_id out_badge timeout_ticks label : Z)
    (k : Kernel) : Z * Kernel :=
  let '(cap, k) := cap_lookup (Some task) cap_slot k in
  match cap with
  | None => (status_code IpcNoPermission, k)
  | Some cap =>
      if negb (bool_decide (cap_type cap = CapEndpoint)) || negb (right_read (cap_rights cap))
      then (status_code IpcNoPermission, k) else
      match endpoint_of cap with
      | None => (status_code IpcInvalid, k)
      | Some e =>
          let '(st, k) := receive e (Some task) msg_buf' max_len' timeout_ticks label k in
          if decide (st = IpcWouldBlock) then (status_code IpcWouldBlock, k) else
          let t := ipc (tcb k task) in
          let k := if (IPC_RAW_HEADER_SIZE <=? msg_len t) && negb (msg_buf t =? nullptr)
                   then upd task (set_msg_type (load32 (mem k) (msg_buf t))) k else k in
          let k := match ipc_state (ipc (tcb k task)) with
                   | Receiving => schedule run_handler k
                   | _ => k
                   end in
          let k := if out_sender_id =? nullptr then k
                   else set_mem (store32 (mem k) out_sender_id (sender_id (ipc (tcb k task)))) k in
          let k := if out_badge =? nullptr then k
                   else set_mem (store32 (mem k) out_badge (badge (ipc (tcb k task)))) k in
          (status_code (ipc_status (ipc (tcb k task))), k)
      end
  end.

Definition sys_ipc_reply (task sender_id' reply_msg len : Z) (k : Kernel) : Z * Kernel :=
  let '(st, k) := reply (Some task) sender_id' reply_msg len k in
  (status_code st, schedule run_handler k).

(** * Handlers *)

Definition cur (s : Sys) : option Z := g_current_tcb_ptr (kern s).

(** [validate_user_ptr(ptr, len, cur, need_write)]. *)
Definition valid_ptr (s : Sys) (c p len : Z) (need_write : bool) : bool :=
  validate_user_ptr mm p len (Some (tcb (kern s) c)) need_write.

(** Field [i] of the user structure at [p]. *)
Definition field (s : Sys) (p i : Z) : Z := load32 (mem (kern s)) (p + 4 * i).

(** [AuditEngine::instance().record_svc(svc, 0)]. *)
Definition AUDIT_HOOK_SVC (svc : Z) (s : Sys) : Sys :=
  let '(e, k) := record_svc tick now svc 0 (audit s, kern s) in mkSys k (frame_ s) (registry s) (console s) e.

Definition MAX_PRINT_LEN : nat := 256.

(** The scan for the terminator; with a current task each byte is validated. *)
Fixpoint print_scan (n : nat) (s : Sys) (c : option Z) (str i : Z) : bool :=
  match n with
  | O => false
  | S n =>
      if match c with Some c => valid_ptr s c (wrap32 (str + i)) 1 false | None => true end then
        if load8 (mem (kern s)) (wrap32 (str + i)) =? 0 then true else print_scan n s c str (i + 1)
      else false
  end.

Definition handle_print (s : Sys) : Sys :=
  let s := AUDIT_HOOK_SVC 1 s in
  let str := arg0 (frame_ s) in
  if str =? nullptr then s else
  match cur s with
  | None => if print_scan MAX_PRINT_LEN s None str 0 then uart (PutUser str) s else s
  | Some c =>
      if print_scan MAX_PRINT_LEN s (Some c) str 0 then uart (PutUser str) s
      else uart_puts "[Kernel] SYS_PRINT: invalid ptr or no null terminator rejected" s
  end.

Definition handle_yield (s : Sys) : Sys :=
  let s := AUDIT_HOOK_SVC 2 s in
  set_kern (schedule run_handler (kern s)) s.

Definition handle_sleep (s : Sys) : Sys :=
  let s := AUDIT_HOOK_SVC 3 s in
  let ms := arg0 (frame_ s) in
  if 600000 <? ms then uart_puts "[Kernel] SYS_SLEEP: duration out of range" s
  else set_kern (sleep_ms run_handler ms (kern s)) s.

(** [set_task_state(cur, Terminated); schedule()]. *)
Definition terminate (c : Z) (s : Sys) : Sys :=
  set_kern (schedule run_handler (set_task_state (sched_id (scheduler (tcb (kern s) c))) Terminated (kern s))) s.

(** A capability operation that kills its caller when it fails. *)
Definition or_die (c : Z) (msg : string) (r : bool * Kernel) (s : Sys) : Sys :=
  let s := set_kern r.2 s in if r.1 then s else terminate c (uart_puts msg s).

Definition handle_cap_derive (s : Sys) : Sys :=
  let s := AUDIT_HOOK_SVC 9 s in
  let f := frame_ s in
  match cur s with
  | None => s
  | Some c => or_die c "[Kernel] SYS_CAP_DERIVE: failed" (cap_derive (Some c) (arg0 f) (arg1 f) (arg2 f) (kern s)) s
  end.

Definition handle_cap_mint (s : Sys) : Sys :=
  let s := AUDIT_HOOK_SVC 8 s in
  let f := frame_ s in
  match cur s with
  | None => s
  | Some c => or_die c "[Kernel] SYS_CAP_MINT: failed" (cap_mint (Some c) (arg0 f) (arg1 f) (arg2 f) (arg3 f) (kern s)) s
  end.

Definition handle_cap_revoke (s : Sys) : Sys :=
  let s := AUDIT_HOOK_SVC 10 s in
  match cur s with
  | None => s
  | Some c => or_die c "[Kernel] SYS_CAP_REVOKE: failed" (cap_revoke (Some c) (arg0 (frame_ s)) (kern s)) s
  end.

Definition handle_cap_grant (s : Sys) : Sys :=
  let s := AUDIT_HOOK_SVC 12 s in
  match cur s with
  | None => s
  | Some c =>
      let desc := arg0 (frame_ s) in
      if negb (valid_ptr s c desc 20 false) then uart_puts "[Kernel] SYS_CAP_GRANT: invalid desc ptr" s else
      match get_task_by_id (kern s) (field s desc 0) with
      | None => uart_puts "[Kernel] SYS_CAP_GRANT: target task not found" s
      | Some target =>
          or_die c "[Kernel] SYS_CAP_GRANT: failed"
            (cap_grant (Some c) (Some target) (field s desc 1) (field s desc 2) (field s desc 3) (field s desc 4) (kern s)) s
      end
  end.

Definition handle_cap_delete (s : Sys) : Sys :=
  let s := AUDIT_HOOK_SVC 11 s in
  match cur s with
  | None => s
  | Some c => set_kern (cap_delete (Some c) (arg0 (frame_ s)) (kern s)).2 s
  end.

Definition handle_kill (s : Sys) : Sys :=
  let s := AUDIT_HOOK_SVC 20 s in
  match cur s with
  | None => s
  | Some _ =>
      let sig := to_int (arg1 (frame_ s)) in
      if (sig <? 1) || (16 <=? sig) then ret (-1) s else
      match get_task_by_id (kern s) (arg0 (frame_ s)) with
      | None => ret (-1) s
      | Some t =>
          let k := upd t (fun c => set_pending_signals (bit_set (pending_signals (security c)) sig) c) (kern s) in
          let k := match sched_state (scheduler (tcb k t)) with
                   | Sleeping | Blocked_On_Notify => set_task_state (sched_id (scheduler (tcb k t))) Ready k
                   | _ => k
                   end in
          ret 0 (set_kern k s)
      end
  end.

(** [*p] and [*p = a] for a [SignalAction]. *)
Definition load_action (m : gmap Z Z) (p : Z) : SignalAction :=
  mkAction (load32 m p) (load32 m (p + 4)) (load32 m (p + 8)).
Definition store_action (a : SignalAction) (p : Z) (m : gmap Z Z) : gmap Z Z :=
  store32 (store32 (store32 m p (sa_handler a)) (p + 4) (sa_mask a)) (p + 8) (sa_flags a).

Definition handle_sigaction (s : Sys) : Sys :=
  let s := AUDIT_HOOK_SVC 21 s in
  match cur s with
  | None => s
  | Some c =>
      let sig := to_int (arg0 (frame_ s)) in
      let act := arg1 (frame_ s) in
      let oldact := arg2 (frame_ s) in
      if (sig <? 1) || (16 <=? sig) || (sig =? SIGKILL) then ret (-1) s else
      if negb (oldact =? nullptr) && negb (valid_ptr s c oldact 12 true) then ret (-1) s else
      let s := if oldact =? nullptr then s
               else set_kern (set_mem (store_action (zlookup (sig_actions (security (tcb (kern s) c))) sig) oldact
                                        (mem (kern s))) (kern s)) s in
      if negb (act =? nullptr) && negb (valid_ptr s c act 12 false) then ret (-1) s else
      let s := if act =? nullptr then s
               else set_kern (upd c (fun t => set_sig_actions
                      (zalter (fun _ => load_action (mem (kern s)) act) sig (sig_actions (security t))) t) (kern s)) s in
      ret 0 s
  end.

Definition handle_sigprocmask (s : Sys) : Sys :=
  let s := AUDIT_HOOK_SVC 22 s in
  match cur s with
  | None => s
  | Some c =>
      let how := to_int (arg0 (frame_ s)) in
      let set_ := arg1 (frame_ s) in
      let oldset := arg2 (frame_ s) in
      if negb (oldset =? nullptr) && negb (valid_ptr s c oldset 4 true) then ret (-1) s else
      let s := if oldset =? nullptr then s
               else set_kern (set_mem (store32 (mem (kern s)) oldset (signal_mask (security (tcb (kern s) c)))) (kern s)) s in
      if set_ =? nullptr then ret 0 s else
      if negb (valid_ptr s c set_ 4 false) then ret (-1) s else
      let new_mask := bit_clear (load32 (mem (kern s)) set_) SIGKILL in
      let mask f := ret 0 (set_kern (upd c (fun t => set_signal_mask (f (signal_mask (security t))) t) (kern s)) s) in
      if how =? 0 then mask (fun m => Z.lor m new_mask) else
      if how =? 1 then mask (fun m => Z.land m (Z.lnot new_mask)) else
      if how =? 2 then mask (fun _ => new_mask) else ret (-1) s
  end.

(** Milliseconds to ticks in 64 bits, rounded up, then truncated to 32. *)
Definition ipc_timeout (timeout_ms : Z) : Z :=
  if timeout_ms =? 0 then IPC_NONBLOCK else
  if timeout_ms =? IPC_TIMEOUT_INFINITE then IPC_TIMEOUT_INFINITE
  else wrap32 ((timeout_ms * TICK_RATE_HZ + 999) / 1000).

Definition handle_ipc_call (s : Sys) : Sys :=
  let s := AUDIT_HOOK_SVC 16 s in
  match cur s with
  | None => s
  | Some c =>
      let f := frame_ s in
      let msg := arg1 f in let len := arg2 f in let desc := arg3 f in
      if negb (valid_ptr s c desc 12 false)
      then ret (status_code IpcInvalid) (uart_puts "[Kernel] SYS_IPC_CALL: invalid desc ptr" s) else
      let reply_buf' := field s desc 0 in
      let max_reply_len := field s desc 1 in
      let timeout_ms := field s desc 2 in
      if (0 <? len) && negb (valid_ptr s c msg len false)
      then ret (status_code IpcInvalid) (uart_puts "[Kernel] SYS_IPC_CALL: invalid msg ptr" s) else
      if (0 <? max_reply_len) && negb (valid_ptr s c reply_buf' max_reply_len true)
      then ret (status_code IpcInvalid) (uart_puts "[Kernel] SYS_IPC_CALL: invalid reply_buf ptr" s) else
      let '(res, k) := sys_ipc_call c (arg0 f) msg len reply_buf' max_reply_len (ipc_timeout timeout_ms) (kern s) in
      ret res (set_kern k s)
  end.

Definition handle_ipc_receive (s : Sys) : Sys :=
  let s := AUDIT_HOOK_SVC 17 s in
  match cur s with
  | None => ret (status_code IpcInvalid) s
  | Some c =>
      let f := frame_ s in
      let msg_buf' := arg1 f in let max_len' := arg2 f in let out_sender_id := arg3 f in
      if (0 <? max_len') && negb (valid_ptr s c msg_buf' max_len' true)
      then ret (status_code IpcInvalid) (uart_puts "[Kernel] SYS_IPC_RECEIVE: invalid msg_buf ptr" s) else
      if negb (out_sender_id =? nullptr) && negb (valid_ptr s c out_sender_id 4 true)
      then ret (status_code IpcInvalid) (uart_puts "[Kernel] SYS_IPC_RECEIVE: invalid out_sender_id ptr" s) else
      let '(res, k) := sys_ipc_receive c (arg0 f) msg_buf' max_len' out_sender_id nullptr IPC_TIMEOUT_INFINITE 0 (kern s) in
      ret res (set_kern k s)
  end.

Definition handle_ipc_reply (s : Sys) : Sys :=
  let s := AUDIT_HOOK_SVC 18 s in
  match cur s with
  | None => ret (status_code IpcInvalid) s
  | Some c =>
      let f := frame_ s in
      if (0 <? arg2 f) && negb (valid_ptr s c (arg1 f) (arg2 f) false)
      then ret (status_code IpcInvalid) (uart_puts "[Kernel] SYS_IPC_REPLY: invalid reply_msg ptr" s) else
      let '(res, k) := sys_ipc_reply c (arg0 f) (arg1 f) (arg2 f) (kern s) in
      ret res (set_kern k s)
  end.

(** ** Devices *)

(** A result that may still wait for the registry lock. *)
Definition ret_when (r : option Z) (s : Sys) : Sys := match r with Some v => ret v s | None => s end.

Definition handle_dev_open (s : Sys) : Sys :=
  let s := AUDIT_HOOK_SVC 32 s in
  match cur s with
  | None => ret (-1) s
  | Some c =>
      let desc := arg0 (frame_ s) in
      if negb (valid_ptr s c desc 12 false) then ret (-2) s else
      let name := field s desc 0 in
      if (name =? nullptr) || negb (valid_ptr s c name 1 false) then ret (-2) s else
      let '(res, k) := open_device run_handler registry_mutex_ (Some c) name (field s desc 1) (field s desc 2)
                         (registry s) (kern s) in
      ret_when res (set_kern k s)
  end.

Definition handle_dev_read (s : Sys) : Sys :=
  let s := AUDIT_HOOK_SVC 33 s in
  match cur s with
  | None => ret (-1) s
  | Some c =>
      let desc := arg0 (frame_ s) in
      if negb (valid_ptr s c desc 16 false) then ret (-2) s else
      let buf := field s desc 1 in let len := field s desc 2 in
      if (0 <? len) && negb (valid_ptr s c buf len true) then ret (-2) s else
      let '(res, k) := device_read c (field s desc 0) buf (to_int len) (to_int (field s desc 3)) (kern s) in
      ret res (set_kern k s)
  end.

Definition handle_dev_write (s : Sys) : Sys :=
  let s := AUDIT_HOOK_SVC 34 s in
  match cur s with
  | None => ret (-1) s
  | Some c =>
      let desc := arg0 (frame_ s) in
      if negb (valid_ptr s c desc 16 false) then ret (-2) s else
      let buf := field s desc 1 in let len := field s desc 2 in
      if (0 <? len) && negb (valid_ptr s c buf len false) then ret (-2) s else
      let '(res, k) := device_write c (field s desc 0) buf (to_int len) (to_int (field s desc 3)) (kern s) in
      ret res (set_kern k s)
  end.

Definition handle_dev_ioctl (s : Sys) : Sys :=
  let s := AUDIT_HOOK_SVC 35 s in
  match cur s with
  | None => ret (-1) s
  | Some c =>
      let desc := arg0 (frame_ s) in
      if negb (valid_ptr s c desc 12 false) then ret (-2) s else
      let '(res, k) := device_ioctl c (field s desc 0) (to_int (field s desc 1)) (field s desc 2) (kern s) in
      ret res (set_kern k s)
  end.

Definition handle_dev_register (s : Sys) : Sys :=
  let s := AUDIT_HOOK_SVC 36 s in
  match cur s with
  | None => ret (-1) s
  | Some _ =>
      let dev := arg0 (frame_ s) in
      if dev =? nullptr then ret (-2) s else
      let '(ok, (r, k)) := register_device run_handler registry_mutex_ dev (arg1 (frame_ s)) (registry s) (kern s) in
      ret_when (option_map (fun ok : bool => if ok then 0 else -1) ok) (set_registry r (set_kern k s))
  end.

(** ** Time *)

Definition handle_get_time (s : Sys) : Sys :=
  let s := AUDIT_HOOK_SVC 4 s in
  ret (wrap32 (get_current_tick (kern s) * 1000) / TICK_RATE_HZ) s.

Definition load_desc (s : Sys) (p : Z) : Process.ProcessTimerDesc :=
  Process.mkDesc (field s p 0) (field s p 1) (field s p 2) (field s p 3).

Definition handle_timer_create (s : Sys) : Sys :=
  let s := AUDIT_HOOK_SVC 24 s in
  match cur s with
  | None => ret (-1) s
  | Some c =>
      let desc := arg0 (frame_ s) in
      if (desc =? nullptr) || negb (valid_ptr s c desc 16 false) then ret (-2) s else
      let '(res, k) := Process.create_timer (Some c) (Some (load_desc s desc)) (kern s) in
      ret res (set_kern k s)
  end.

Definition handle_timer_start (s : Sys) : Sys :=
  let s := AUDIT_HOOK_SVC 25 s in
  match cur s with
  | None => ret (-1) s
  | Some c =>
      let desc := arg1 (frame_ s) in
      if negb (desc =? nullptr) && negb (valid_ptr s c desc 16 false) then ret (-2) s else
      let '(res, k) := Process.start_timer (Some c) (arg0 (frame_ s))
                         (if desc =? nullptr then None else Some (load_desc s desc)) (kern s) in
      ret res (set_kern k s)
  end.

Definition handle_timer_stop (s : Sys) : Sys :=
  let s := AUDIT_HOOK_SVC 26 s in
  match cur s with
  | None => ret (-1) s
  | Some c => let '(res, k) := Process.stop_timer (Some c) (arg0 (frame_ s)) (kern s) in ret res (set_kern k s)
  end.

Definition handle_timer_delete (s : Sys) : Sys :=
  let s := AUDIT_HOOK_SVC 27 s in
  match cur s with
  | None => ret (-1) s
  | Some c => let '(res, k) := Process.delete_timer (Some c) (arg0 (frame_ s)) (kern s) in ret res (set_kern k s)
  end.

Definition handle_timer_get_time (s : Sys) : Sys :=
  let s := AUDIT_HOOK_SVC 28 s in
  match cur s with
  | None => ret (-1) s
  | Some c =>
      let out_ptr := arg1 (frame_ s) in
      if (out_ptr =? nullptr) || negb (valid_ptr s c out_ptr 4 true) then ret (-2) s else
      let '(res, k) := Process.get_time (Some c) (arg0 (frame_ s)) out_ptr (kern s) in
      ret res (set_kern k s)
  end.

Definition handle_unknown (s : Sys) : Sys :=
  let s := uart_puts "[Kernel] Unknown SVC call" s in
  match cur s with
  | None => s
  | Some c => terminate c s
  end.

(** * The table *)

(** [SyscallDispatcher::init]: the entries that differ from [handle_unknown]. *)
Definition syscall_table : gmap Z (Sys -> Sys) :=
  list_to_map [
    (1, handle_print); (2, handle_yield); (3, handle_sleep); (4, handle_get_time);
    (9, handle_cap_derive); (8, handle_cap_mint); (10, handle_cap_revoke); (12, handle_cap_grant);
    (11, handle_cap_delete); (20, handle_kill); (21, handle_sigaction); (22, handle_sigprocmask);
    (24, handle_timer_create); (25, handle_timer_start); (26, handle_timer_stop); (27, handle_timer_delete);
    (28, handle_timer_get_time); (16, handle_ipc_call); (17, handle_ipc_receive); (18, handle_ipc_reply);
    (32, handle_dev_open); (33, handle_dev_read); (34, handle_dev_write); (35, handle_dev_ioctl);
    (36, handle_dev_register)].

(** [SyscallDispatcher::dispatch]. *)
Definition dispatch (svc_number : Z) : Sys -> Sys := default handle_unknown (syscall_table !! svc_number).

(** [SVC_Handler_C]: the number is the low byte of the instruction before the
    return address. *)
Definition SVC_Handler_C (pc : Z) (s : Sys) : Sys :=
  let svc_instr := load8 (mem (kern s)) (pc - 2) + 256 * load8 (mem (kern s)) (pc - 1) in
  dispatch (Z.land svc_instr 255) s.
End Syscalls.
