(* ===== verification/SyscallInv.v ===== *)
(** Every system call preserves the scheduler and IPC invariants. *)
From stdpp Require Import strings.
From S2P Require Import Prelude Kernel ReadyQueue WaitQueue Endpoint Mpu TaskTable IpcSpec Scheduler Preserve System AuditRing AuditInv CSpace Sync Timers Mutex Validator Device Syscall.

(** Drivers whose operations keep the kernel invariant. *)
Class GoodDrivers `{Drivers} : Prop := {
  read_ok : forall d buf len off k, kernel_ok k -> kernel_ok (dev_read d buf len off k).2;
  write_ok : forall d buf len off k, kernel_ok k -> kernel_ok (dev_write d buf len off k).2;
  ioctl_ok : forall d req arg k, kernel_ok k -> kernel_ok (dev_ioctl d req arg k).2;
}.

(** The argument registers hold 32-bit values. *)
Definition regs_ok (f : InterruptFrame) : Prop :=
  is_u32 (arg0 f) /\ is_u32 (arg1 f) /\ is_u32 (arg2 f) /\ is_u32 (arg3 f).

(** What holds when a task enters the kernel: the invariants of kernel and capability
    spaces, and registers and memory in their types. *)
Record sys_wf (s : Sys) : Prop := {
  so_caps : cap_state (kern s);
  so_regs : regs_ok (frame_ s);
  so_mem : forall a, 0 <= load8 (mem (kern s)) a < 256;
}.

(** Besides, the running task is in no endpoint queue. *)
Record sys_ok (s : Sys) : Prop := {
  so_wf :> sys_wf s;
  so_idle : forall c, cur s = Some c -> idle_ipc (wait_state (kern s) c);
}.

Lemma load32_nonneg m a : (forall a, 0 <= load8 m a < 256) -> 0 <= load32 m a.
Proof.
  intros Hm. unfold load32. pose proof (Hm a). pose proof (Hm (a + 1)). pose proof (Hm (a + 2)). pose proof (Hm (a + 3)). lia.
Qed.

Lemma set_mem_ok m k : kernel_ok k -> kernel_ok (set_mem m k).
Proof. intros Hk. apply (kernel_ok_env k); try done. apply Hk. Qed.

(** ** The audit hook *)

Lemma caps_ok_frame k k' : caps_ok k -> obj_frame k k' -> caps_ok k'.
Proof.
  intros [C1 C2 C3 C4 C5] [L C S R].
  assert (Hv : forall i, valid_task k' i -> valid_task k i) by (unfold valid_task, in_range; intros i; by rewrite L).
  split.
  - intros i Hi. rewrite S. by apply C1, Hv.
  - intros i j. unfold slot. rewrite S. by apply (cap_wf_count k), C2.
  - intros i Hi. unfold slot_mask. rewrite S. by apply C3, Hv.
  - intros i j Hi. unfold slot_mask, slot. rewrite S. by apply C4, Hv.
  - intros o. rewrite R. replace (caps_to k' o) with (caps_to k o); [apply C5|]. unfold caps_to. apply zsum_ext.
    intros [i j] _. unfold slot. by rewrite S.
Qed.

Lemma terminate_task_same (P : Kernel -> Prop) tid k :
  P k -> (forall id, P (set_task_state id Terminated k)) -> P (terminate_task tid k).
Proof. intros H1 H2. destruct (terminate_task_id tid k) as [-> | ->]; [done|apply H2]. Qed.

Lemma terminate_task_obj tid k : obj_frame k (terminate_task tid k).
Proof.
  apply terminate_task_same; [done|]. intros id.
  eapply obj_frame_same; [apply set_task_state_frame|done|done|]. intros e. apply ser_state.
Qed.

(** What a call finds after its hook: the kernel as it was, or the caller terminated by an
    audit rule. *)
Record hooked (s s' : Sys) : Prop := {
  hk_kern : kern s' = kern s \/ (may_kill (rules_ (audit s)) /\ kern s' = terminate_task (get_current_tid_ (kern s)) (kern s));
  hk_frame : frame_ s' = frame_ s;
  hk_registry : registry s' = registry s;
}.

Lemma hook_hooked tick now n s : kernel_ok (kern s) -> hooked s (AUDIT_HOOK_SVC tick now n s).
Proof.
  intros Hk. pose proof (record_kernel tick now (map_svc_to_event_ n) 0 n 0 (audit s) (kern s) Hk) as H.
  unfold AUDIT_HOOK_SVC, record_svc. destruct (record _ _ _ _ _ _ _) as [e k]. by split.
Qed.

Lemma hooked_same s s' (P : Kernel -> Prop) :
  hooked s s' -> P (kern s) -> (forall id, P (set_task_state id Terminated (kern s))) -> P (kern s').
Proof. intros [[-> |[_ ->]] _ _] H1 H2; [done|]. by apply terminate_task_same. Qed.

Lemma hooked_obj s s' : hooked s s' -> obj_frame (kern s) (kern s').
Proof. intros [[-> |[_ ->]] _ _]; [done|apply terminate_task_obj]. Qed.

Lemma hooked_mem s s' : hooked s s' -> mem (kern s') = mem (kern s).
Proof. intros H. apply (hooked_same s s' (fun k => mem k = mem (kern s)) H); [done|]. intros id. apply mem_set_task_state. Qed.

Lemma hooked_cur s s' : hooked s s' -> cur s' = cur s.
Proof.
  intros H. apply (hooked_same s s' (fun k => g_current_tcb_ptr k = g_current_tcb_ptr (kern s)) H); [done|]. intros id.
  by apply (su_env_proj g_current_tcb_ptr (set_task_state_frame id Terminated (kern s))).
Qed.

Lemma hooked_wf s s' : hooked s s' -> sys_wf s -> sys_wf s'.
Proof.
  intros H [[Hk Hc] Hr Hm]. split.
  - split; [|by eapply caps_ok_frame, hooked_obj]. destruct (hk_kern _ _ H) as [-> |[_ ->]]; [done|by apply terminate_task_ok].
  - by rewrite (hk_frame _ _ H).
  - intros a. by rewrite (hooked_mem _ _ H).
Qed.

Lemma hooked_ok s s' : hooked s s' -> sys_ok s -> sys_ok s'.
Proof.
  intros H [Hw Hi]. split; [by apply (hooked_wf s)|]. intros c. rewrite (hooked_cur _ _ H). intros Hcur.
  apply (hooked_same s s' (fun k => idle_ipc (wait_state k c)) H); [by apply Hi|]. intros id. unfold wait_state.
  rewrite ipc_set_task_state. by apply Hi.
Qed.

Lemma hook_ok tick now n s : sys_ok s -> sys_ok (AUDIT_HOOK_SVC tick now n s).
Proof. intros Hs. eapply hooked_ok; [|done]. apply hook_hooked, Hs. Qed.

(** Enter a handler: its state after the hook. *)
Ltac hook Hs :=
  match goal with |- context [AUDIT_HOOK_SVC ?tk ?nw ?n ?s] =>
    apply (hook_ok tk nw n) in Hs; revert Hs; generalize (AUDIT_HOOK_SVC tk nw n s); clear s; intros s Hs; cbv zeta end.

Section Inv.
Context {AS : AddressSpaces} {DR : Drivers} {GD : GoodDrivers} (mm : MemoryMap).
Context (run_handler : Z -> Z -> Kernel -> Kernel) {GH : GoodHandlers run_handler} (registry_mutex_ tick now : Z).

Lemma cur_task s c : kernel_ok (kern s) -> cur s = Some c -> is_task (kern s) c.
Proof. intros Hk Hc. by apply (proj1 (ko_cur _ Hk)). Qed.

Lemma terminate_ok c s : kernel_ok (kern s) -> is_task (kern s) c -> kernel_ok (kern (terminate run_handler c s)).
Proof. intros Hk Hc. unfold terminate. cbn [kern set_kern]. apply schedule_ok; [done|]. by apply state_of_task_ok. Qed.

(** ** Capability calls *)

Lemma or_die_ok c msg r s :
  kernel_ok r.2 -> task_count r.2 = task_count (kern s) -> is_task (kern s) c -> kernel_ok (kern (or_die run_handler c msg r s)).
Proof.
  intros Hk Hcnt Hc. unfold or_die. cbv zeta. destruct r.1; [done|]. apply terminate_ok; [done|].
  unfold is_task. cbn. by rewrite Hcnt.
Qed.

Lemma valid_is_slot j : 0 <= j -> is_valid_slot j = true -> is_slot j.
Proof. intros Hj Hv. by apply is_slot_valid. Qed.

Lemma cap_delete_ok t j k :
  cap_state k -> is_task k t -> 0 <= j ->
  kernel_ok (cap_delete (Some t) j k).2 /\ task_count (cap_delete (Some t) j k).2 = task_count k.
Proof.
  intros Hk Ht Hj. destruct (is_valid_slot j) eqn:Hv.
  - destruct (cap_delete_spec t j k Hk Ht (valid_is_slot j Hj Hv)) as [Hu Hk']. split; [apply Hk'|apply Hu].
  - cbn [cap_delete]. rewrite Hv. split; [apply Hk|done].
Qed.

Lemma copy_cap_ok t src d dst req bdg k :
  cap_state k -> is_task k d -> 0 <= dst ->
  kernel_ok (copy_cap t src d dst req bdg k) /\ task_count (copy_cap t src d dst req bdg k) = task_count k.
Proof.
  intros Hk Hd Hj. split; [apply copy_cap_kernel_ok; [apply Hk..|done]|].
  unfold copy_cap. cbv zeta. destruct (cap_delete_ok d dst k Hk Hd Hj) as [_ Hc].
  set (k1 := (cap_delete (Some d) dst k).2) in *.
  assert (Hret : forall o k, task_count (retain_opt o k) = task_count k) by (intros [[]|]; done).
  unfold mark_slot, alter_slot. cbn [task_count upd set_tasks]. by rewrite Hret.
Qed.

Lemma derive_internal_ok t src dst rights bdg k :
  cap_state k -> is_task k t -> 0 <= dst ->
  kernel_ok (cap_derive_internal (Some t) src dst rights bdg k).2 /\
  task_count (cap_derive_internal (Some t) src dst rights bdg k).2 = task_count k.
Proof.
  intros Hk Ht Hj. unfold cap_derive_internal. pose proof (cs_kernel _ Hk).
  destruct (_ || _); [done|]. cbv zeta. case_decide; [done|]. destruct (escalates _ _); [done|].
  cbn [snd]. by apply copy_cap_ok.
Qed.

Lemma cap_derive_ok t src dst rights k :
  cap_state k -> is_task k t -> 0 <= dst ->
  kernel_ok (cap_derive (Some t) src dst rights k).2 /\ task_count (cap_derive (Some t) src dst rights k).2 = task_count k.
Proof.
  intros Hk Ht Hj. unfold cap_derive. destruct (is_valid_slot src); [by apply derive_internal_ok|].
  split; [apply Hk|done].
Qed.

Lemma cap_grant_ok t u src dst rights bdg k :
  cap_state k -> is_task k u -> 0 <= dst ->
  kernel_ok (cap_grant (Some t) (Some u) src dst rights bdg k).2 /\
  task_count (cap_grant (Some t) (Some u) src dst rights bdg k).2 = task_count k.
Proof.
  intros Hk Ht Hj. unfold cap_grant. pose proof (cs_kernel _ Hk).
  destruct (_ || _); [done|]. cbv zeta. case_decide; [done|]. destruct (escalates _ _); [done|].
  cbn [snd]. by apply copy_cap_ok.
Qed.

Lemma cap_lookup_ok t j k :
  cap_state k -> is_task k t -> 0 <= j ->
  (cap_lookup (Some t) j k).2 = k /\
  forall c, (cap_lookup (Some t) j k).1 = Some c -> is_slot j /\ c = slot k t j /\ cap_type c <> CapNull.
Proof.
  intros Hk Ht Hj. destruct (is_valid_slot j) eqn:Hv.
  - pose proof (valid_is_slot j Hj Hv) as Hs. rewrite cap_lookup_spec by (done || apply Hk || by apply cap_task_valid).
    case_decide; [done|]. split; [done|]. by intros c [= <-].
  - cbn [cap_lookup]. by rewrite Hv.
Qed.

Lemma cap_revoke_ok t j k :
  cap_state k -> is_task k t -> 0 <= j ->
  kernel_ok (cap_revoke (Some t) j k).2 /\ task_count (cap_revoke (Some t) j k).2 = task_count k.
Proof.
  intros Hk Ht Hj. destruct (is_valid_slot j) eqn:Hv; [|cbn [cap_revoke]; rewrite Hv; by split; [apply Hk|]].
  pose proof (valid_is_slot j Hj Hv) as Hs. destruct (cap_object (slot k t j)) as [o|] eqn:Ho.
  - destruct (cap_revoke_spec t j k o Hk Ht Hs Ho) as [_ Hr]. split; [apply Hr|apply Hr].
  - cbn [cap_revoke]. rewrite Hv. destruct (cap_lookup_ok t j k Hk Ht Hj) as [E Hc].
    destruct (cap_lookup (Some t) j k) as [o' k1]. cbn [fst snd] in *. subst k1.
    assert (o' ≫= cap_object = None) as ->; [|by split; [apply Hk|]].
    destruct o' as [c|]; [|done]. destruct (Hc c eq_refl) as (_ & -> & _). cbn. done.
Qed.

(** ** IPC *)

Lemma call_ok e t msg len rb mrl timeout bdg k :
  kernel_ok k -> is_task k t -> idle_ipc (wait_state k t) -> kernel_ok (call e (Some t) msg len rb mrl timeout bdg k).2.
Proof.
  intros [HI Hp Hc] Ht Hw. split; [by apply call_inv|by apply call_prios|].
  eapply cur_ok_view; [apply call_view|done].
Qed.

Lemma receive_ok e t buf ml timeout label k :
  kernel_ok k -> is_task k t -> idle_ipc (wait_state k t) -> kernel_ok (receive e (Some t) buf ml timeout label k).2.
Proof.
  intros [HI Hp Hc] Ht Hw. split; [by apply receive_inv| |].
  - destruct HI as [LQ HI]. by eapply receive_prios.
  - eapply cur_ok_view; [apply receive_view|done].
Qed.

Lemma reply_ok t sid msg len k : kernel_ok k -> is_task k t -> kernel_ok (reply (Some t) sid msg len k).2.
Proof.
  intros [HI Hp Hc] Ht. split; [by apply reply_inv|by apply reply_prios|].
  eapply cur_ok_view; [apply reply_view|done].
Qed.

Lemma set_msg_type_ok t v k : kernel_ok k -> kernel_ok (upd t (set_msg_type v) k).
Proof. by apply kernel_ok_upd. Qed.

Lemma sys_ipc_call_ok t cs msg len rb mrl timeout k :
  cap_state k -> is_task k t -> idle_ipc (wait_state k t) -> 0 <= cs ->
  kernel_ok (sys_ipc_call run_handler t cs msg len rb mrl timeout k).2.
Proof.
  intros Hk Ht Hw Hj. pose proof (cs_kernel _ Hk) as Hok. unfold sys_ipc_call.
  destruct (cap_lookup_ok t cs k Hk Ht Hj) as [E _]. destruct (cap_lookup _ _ _) as [[cap|] k1]; cbn [snd] in E; subst k1; [|done].
  destruct (_ || _); [done|]. destruct (endpoint_of cap) as [e|]; [|done].
  pose proof (call_ok e t msg len rb mrl timeout (cap_badge cap) k Hok Ht Hw) as H1.
  destruct (call _ _ _ _ _ _ _ _ _) as [st k1]; cbn [snd] in H1.
  destruct (decide _); [done|]. cbv zeta. cbn [snd].
  assert (H2 : kernel_ok (if (IPC_RAW_HEADER_SIZE <=? len) && negb (msg =? nullptr)
                          then upd t (set_msg_type (load32 (mem k1) msg)) k1 else k1))
    by (destruct (_ && _); [by apply set_msg_type_ok|done]).
  set (k2 := if _ && _ then _ else _) in *. clearbody k2. destruct (ipc_state _); try done; by apply schedule_ok.
Qed.

Lemma sys_ipc_receive_ok t cs buf ml out_id out_bdg timeout label k :
  cap_state k -> is_task k t -> idle_ipc (wait_state k t) -> 0 <= cs ->
  kernel_ok (sys_ipc_receive run_handler t cs buf ml out_id out_bdg timeout label k).2.
Proof.
  intros Hk Ht Hw Hj. pose proof (cs_kernel _ Hk) as Hok. unfold sys_ipc_receive.
  destruct (cap_lookup_ok t cs k Hk Ht Hj) as [E _]. destruct (cap_lookup _ _ _) as [[cap|] k1]; cbn [snd] in E; subst k1; [|done].
  destruct (_ || _); [done|]. destruct (endpoint_of cap) as [e|]; [|done].
  pose proof (receive_ok e t buf ml timeout label k Hok Ht Hw) as H1.
  destruct (receive _ _ _ _ _ _ _) as [st k1]; cbn [snd] in H1.
  destruct (decide _); [done|]. cbv zeta. cbn [snd].
  set (k2 := if (_ <=? _) && _ then upd _ _ _ else k1).
  assert (H2 : kernel_ok k2) by (unfold k2; destruct (_ && _); [by apply set_msg_type_ok|done]). clearbody k2.
  set (k3 := match ipc_state _ with Receiving => _ | _ => _ end).
  assert (H3 : kernel_ok k3) by (unfold k3; destruct (ipc_state _); try done; by apply schedule_ok). clearbody k3.
  set (k4 := if out_id =? nullptr then _ else _).
  assert (H4 : kernel_ok k4) by (unfold k4; destruct (_ =? _); [done|by apply set_mem_ok]). clearbody k4.
  destruct (_ =? _); [done|by apply set_mem_ok].
Qed.

Lemma sys_ipc_reply_ok t sid msg len k :
  kernel_ok k -> is_task k t -> kernel_ok (sys_ipc_reply run_handler t sid msg len k).2.
Proof.
  intros Hk Ht. unfold sys_ipc_reply. pose proof (reply_ok t sid msg len k Hk Ht) as H1.
  destruct (reply _ _ _ _ _) as [st k1]. cbn [snd] in *. by apply schedule_ok.
Qed.

(** ** Devices *)

Lemma device_io_ok (io : Z -> Kernel -> Z * Kernel) (allowed : CapRights -> bool) t cs k :
  (forall d k, kernel_ok k -> kernel_ok (io d k).2) -> cap_state k -> is_task k t -> 0 <= cs ->
  kernel_ok (let '(cap, k) := cap_lookup (Some t) cs k in
             match cap_device cap with
             | None => (-1, k)
             | Some (d, r) => if negb (allowed r) then (-3, k) else io d k
             end).2.
Proof.
  intros Hio Hk Ht Hj. pose proof (cs_kernel _ Hk) as Hok.
  destruct (cap_lookup_ok t cs k Hk Ht Hj) as [E _]. destruct (cap_lookup _ _ _) as [cap k1]; cbn [snd] in E; subst k1.
  destruct (cap_device cap) as [[d r]|]; [|done]. destruct (negb _); [done|]. by apply Hio.
Qed.

Lemma device_read_ok t cs buf len off k :
  cap_state k -> is_task k t -> 0 <= cs -> kernel_ok (device_read t cs buf len off k).2.
Proof.
  intros Hk Ht Hj. unfold device_read. destruct (_ || _); [apply Hk|].
  apply (device_io_ok (fun d => dev_read d buf len off) right_read); try done. intros. by apply read_ok.
Qed.

Lemma device_write_ok t cs buf len off k :
  cap_state k -> is_task k t -> 0 <= cs -> kernel_ok (device_write t cs buf len off k).2.
Proof.
  intros Hk Ht Hj. unfold device_write. destruct (_ || _); [apply Hk|].
  apply (device_io_ok (fun d => dev_write d buf len off) right_write); try done. intros. by apply write_ok.
Qed.

Lemma device_ioctl_ok t cs req arg k :
  cap_state k -> is_task k t -> 0 <= cs -> kernel_ok (device_ioctl t cs req arg k).2.
Proof.
  intros Hk Ht Hj. apply (device_io_ok (fun d => dev_ioctl d req arg) (fun _ => true)); try done.
  intros. by apply ioctl_ok.
Qed.

(** ** Handlers *)

Lemma kern_ret v s : kern (ret v s) = kern s.
Proof. done. Qed.

Lemma field_nonneg s p i : sys_wf s -> 0 <= field s p i.
Proof. intros Hs. apply load32_nonneg, Hs. Qed.

Lemma sys_ok_kernel s : sys_wf s -> kernel_ok (kern s).
Proof. intros Hs. apply Hs. Qed.

Lemma sys_ok_cur s c : sys_ok s -> cur s = Some c -> is_task (kern s) c /\ idle_ipc (wait_state (kern s) c).
Proof. intros Hs Hc. split; [by eapply cur_task; [apply Hs|]|by apply Hs]. Qed.

(** Enter a handler with its current task [c]. *)
Ltac enter Hs c Hc Ht Hw :=
  let Hok := fresh "Hok" in pose proof (sys_ok_kernel _ Hs) as Hok;
  match goal with |- context [match cur ?s with _ => _ end] => destruct (cur s) as [c|] eqn:Hc; [|exact Hok] end;
  destruct (sys_ok_cur _ _ Hs Hc) as [Ht Hw].

Ltac early := match goal with |- context [if ?b then _ else _] => destruct b; [match goal with Hok : kernel_ok _ |- _ => exact Hok end|] end.

Lemma handle_yield_ok s : sys_ok s -> kernel_ok (kern (handle_yield run_handler tick now s)).
Proof. intros Hs. unfold handle_yield. hook Hs. apply schedule_ok; [done|]. apply Hs. Qed.

Lemma handle_get_time_ok s : sys_ok s -> kernel_ok (kern (handle_get_time tick now s)).
Proof. intros Hs. unfold handle_get_time. hook Hs. apply Hs. Qed.

Lemma handle_sleep_ok s : sys_ok s -> kernel_ok (kern (handle_sleep run_handler tick now s)).
Proof.
  intros Hs. unfold handle_sleep. hook Hs. pose proof (sys_ok_kernel _ Hs) as Hok. 
  destruct (_ <? _); [done|]. by apply sleep_ms_ok.
Qed.

Lemma handle_cap_derive_ok s : sys_ok s -> kernel_ok (kern (handle_cap_derive run_handler tick now s)).
Proof.
  intros Hs. unfold handle_cap_derive. hook Hs. enter Hs c Hc Ht Hw. destruct (so_regs _ Hs) as (?&[??]&?&?).
  destruct (cap_derive_ok c (arg0 (frame_ s)) (arg1 (frame_ s)) (arg2 (frame_ s)) (kern s)) as [Hr Hcnt]; try done; [apply Hs|].
  by apply or_die_ok; [exact Hr|exact Hcnt|].
Qed.

Lemma handle_cap_mint_ok s : sys_ok s -> kernel_ok (kern (handle_cap_mint run_handler tick now s)).
Proof.
  intros Hs. unfold handle_cap_mint. hook Hs. enter Hs c Hc Ht Hw. destruct (so_regs _ Hs) as (?&[??]&?&?).
  destruct (derive_internal_ok c (arg0 (frame_ s)) (arg1 (frame_ s)) (arg2 (frame_ s)) (arg3 (frame_ s)) (kern s)) as [Hr Hcnt];
    try done; [apply Hs|]. by apply or_die_ok; [exact Hr|exact Hcnt|].
Qed.

Lemma handle_cap_revoke_ok s : sys_ok s -> kernel_ok (kern (handle_cap_revoke run_handler tick now s)).
Proof.
  intros Hs. unfold handle_cap_revoke. hook Hs. enter Hs c Hc Ht Hw. destruct (so_regs _ Hs) as ([??]&?&?&?).
  destruct (cap_revoke_ok c (arg0 (frame_ s)) (kern s)) as [Hr Hcnt]; try done; [apply Hs|]. by apply or_die_ok; [exact Hr|exact Hcnt|].
Qed.

Lemma handle_cap_grant_ok s : sys_ok s -> kernel_ok (kern (handle_cap_grant mm run_handler tick now s)).
Proof.
  intros Hs. unfold handle_cap_grant. hook Hs. enter Hs c Hc Ht Hw. cbv zeta. early.
  destruct (get_task_by_id _ _) as [u|] eqn:Hu; [|exact Hok].
  assert (is_task (kern s) u) by by eapply get_task_by_id_task.
  destruct (cap_grant_ok c u (field s (arg0 (frame_ s)) 1) (field s (arg0 (frame_ s)) 2) (field s (arg0 (frame_ s)) 3)
    (field s (arg0 (frame_ s)) 4) (kern s)) as [Hr Hcnt]; try done; [apply Hs|apply field_nonneg, Hs|]. by apply or_die_ok; [exact Hr|exact Hcnt|].
Qed.

Lemma handle_cap_delete_ok s : sys_ok s -> kernel_ok (kern (handle_cap_delete tick now s)).
Proof.
  intros Hs. unfold handle_cap_delete. hook Hs. enter Hs c Hc Ht Hw. destruct (so_regs _ Hs) as ([??]&?&?&?).
  apply (cap_delete_ok c (arg0 (frame_ s)) (kern s)); try done. apply Hs.
Qed.

Lemma handle_kill_ok s : sys_ok s -> kernel_ok (kern (handle_kill tick now s)).
Proof.
  intros Hs. unfold handle_kill. hook Hs. enter Hs c Hc Ht Hw. cbv zeta. early.
  destruct (get_task_by_id _ _) as [u|] eqn:Hu; [|exact Hok]. rewrite kern_ret. cbn [kern set_kern].
  set (k1 := upd u _ (kern s)). assert (H1 : kernel_ok k1) by by apply kernel_ok_sec.
  assert (is_task k1 u) by (apply (is_task_count (kern s)); [done|by eapply get_task_by_id_task]).
  destruct (sched_state _); try done; by apply state_of_task_ok.
Qed.

Lemma handle_sigaction_ok s : sys_ok s -> kernel_ok (kern (handle_sigaction mm tick now s)).
Proof.
  intros Hs. unfold handle_sigaction. hook Hs. enter Hs c Hc Ht Hw. cbv zeta. do 2 early.
  set (s1 := if arg2 _ =? nullptr then s else _).
  assert (H1 : kernel_ok (kern s1)) by (unfold s1; destruct (_ =? _); [done|by apply set_mem_ok]). clearbody s1.
  destruct (_ && _); [done|]. destruct (_ =? _); [done|]. rewrite kern_ret. by apply kernel_ok_sec.
Qed.

Lemma handle_sigprocmask_ok s : sys_ok s -> kernel_ok (kern (handle_sigprocmask mm tick now s)).
Proof.
  intros Hs. unfold handle_sigprocmask. hook Hs. enter Hs c Hc Ht Hw. cbv zeta. early.
  set (s1 := if arg2 _ =? nullptr then s else _).
  assert (H1 : kernel_ok (kern s1)) by (unfold s1; destruct (_ =? _); [done|by apply set_mem_ok]). clearbody s1.
  destruct (_ =? _); [done|]. destruct (negb _); [done|].
  repeat match goal with |- context [if ?b then _ else _] => destruct b end; try done; by apply kernel_ok_sec.
Qed.

Lemma ret_pair_ok (r : Z * Kernel) s : kernel_ok r.2 -> kernel_ok (kern (let '(res, k) := r in ret res (set_kern k s))).
Proof. by destruct r. Qed.

Lemma handle_ipc_call_ok s : sys_ok s -> kernel_ok (kern (handle_ipc_call mm run_handler tick now s)).
Proof.
  intros Hs. unfold handle_ipc_call. hook Hs. enter Hs c Hc Ht Hw. cbv zeta. do 3 early. apply ret_pair_ok.
  apply sys_ipc_call_ok; try done; [apply Hs|]. apply (so_regs _ Hs).
Qed.

Lemma handle_ipc_receive_ok s : sys_ok s -> kernel_ok (kern (handle_ipc_receive mm run_handler tick now s)).
Proof.
  intros Hs. unfold handle_ipc_receive. hook Hs. enter Hs c Hc Ht Hw. cbv zeta. do 2 early. apply ret_pair_ok.
  apply sys_ipc_receive_ok; try done; [apply Hs|]. apply (so_regs _ Hs).
Qed.

Lemma handle_ipc_reply_ok s : sys_ok s -> kernel_ok (kern (handle_ipc_reply mm run_handler tick now s)).
Proof.
  intros Hs. unfold handle_ipc_reply. hook Hs. enter Hs c Hc Ht Hw. cbv zeta. early. apply ret_pair_ok. by apply sys_ipc_reply_ok.
Qed.

Lemma handle_dev_read_ok s : sys_ok s -> kernel_ok (kern (handle_dev_read mm tick now s)).
Proof.
  intros Hs. unfold handle_dev_read. hook Hs. enter Hs c Hc Ht Hw. cbv zeta. do 2 early. apply ret_pair_ok.
  apply device_read_ok; [apply Hs|done|apply field_nonneg, Hs].
Qed.

Lemma handle_dev_write_ok s : sys_ok s -> kernel_ok (kern (handle_dev_write mm tick now s)).
Proof.
  intros Hs. unfold handle_dev_write. hook Hs. enter Hs c Hc Ht Hw. cbv zeta. do 2 early. apply ret_pair_ok.
  apply device_write_ok; [apply Hs|done|apply field_nonneg, Hs].
Qed.

Lemma handle_dev_ioctl_ok s : sys_ok s -> kernel_ok (kern (handle_dev_ioctl mm tick now s)).
Proof.
  intros Hs. unfold handle_dev_ioctl. hook Hs. enter Hs c Hc Ht Hw. cbv zeta. early. apply ret_pair_ok.
  apply device_ioctl_ok; [apply Hs|done|apply field_nonneg, Hs].
Qed.

Lemma handle_timer_create_ok s : sys_ok s -> kernel_ok (kern (handle_timer_create mm tick now s)).
Proof.
  intros Hs. unfold handle_timer_create. hook Hs. enter Hs c Hc Ht Hw. cbv zeta. early. apply ret_pair_ok.
  unfold Process.create_timer. destruct (List.find _ _); [by apply upd_pt_ok|done].
Qed.

Lemma handle_timer_start_ok s : sys_ok s -> kernel_ok (kern (handle_timer_start mm tick now s)).
Proof.
  intros Hs. unfold handle_timer_start. hook Hs. enter Hs c Hc Ht Hw. cbv zeta. early. apply ret_pair_ok.
  unfold Process.start_timer. destruct (_ || _); [done|]. cbv zeta. cbn [snd]. apply upd_pt_ok.
  destruct (_ =? _); [done|by apply upd_pt_ok].
Qed.

Lemma handle_timer_stop_ok s : sys_ok s -> kernel_ok (kern (handle_timer_stop tick now s)).
Proof.
  intros Hs. unfold handle_timer_stop. hook Hs. enter Hs c Hc Ht Hw. apply ret_pair_ok.
  unfold Process.stop_timer. destruct (_ || _); [done|by apply upd_pt_ok].
Qed.

Lemma handle_timer_delete_ok s : sys_ok s -> kernel_ok (kern (handle_timer_delete tick now s)).
Proof.
  intros Hs. unfold handle_timer_delete. hook Hs. enter Hs c Hc Ht Hw. apply ret_pair_ok.
  unfold Process.delete_timer. destruct (_ || _); [done|by apply upd_pt_ok].
Qed.

Lemma handle_timer_get_time_ok s : sys_ok s -> kernel_ok (kern (handle_timer_get_time mm tick now s)).
Proof.
  intros Hs. unfold handle_timer_get_time. hook Hs. enter Hs c Hc Ht Hw. cbv zeta. early. apply ret_pair_ok.
  unfold Process.get_time. destruct (_ || _); [done|]. cbv zeta. cbn [snd]. by apply set_mem_ok.
Qed.

Lemma handle_unknown_ok s : sys_ok s -> kernel_ok (kern (handle_unknown run_handler s)).
Proof.
  intros Hs. unfold handle_unknown. cbv zeta. pose proof (sys_ok_kernel _ Hs) as Hok.
  change (cur (uart_puts _ s)) with (cur s). destruct (cur s) as [c|] eqn:Hc; [|done].
  destruct (sys_ok_cur _ _ Hs Hc) as [Ht _]. by apply terminate_ok.
Qed.

Lemma handle_print_ok s : sys_ok s -> kernel_ok (kern (handle_print mm tick now s)).
Proof.
  intros Hs. unfold handle_print. hook Hs. pose proof (sys_ok_kernel _ Hs) as Hok. 
  destruct (_ =? _); [done|]. destruct (cur s); by destruct (print_scan _ _ _ _ _ _).
Qed.
End Inv.

Create HintDb syscalls discriminated.
#[export] Hint Constants Opaque : syscalls.
#[export] Hint Resolve handle_yield_ok handle_get_time_ok handle_sleep_ok handle_cap_derive_ok handle_cap_mint_ok : syscalls.
#[export] Hint Resolve handle_cap_revoke_ok handle_cap_grant_ok handle_cap_delete_ok handle_kill_ok handle_sigaction_ok : syscalls.
#[export] Hint Resolve handle_sigprocmask_ok handle_ipc_call_ok handle_ipc_receive_ok handle_ipc_reply_ok handle_dev_read_ok : syscalls.
#[export] Hint Resolve handle_dev_write_ok handle_dev_ioctl_ok handle_timer_create_ok handle_timer_start_ok handle_timer_stop_ok : syscalls.
#[export] Hint Resolve handle_timer_delete_ok handle_timer_get_time_ok handle_unknown_ok handle_print_ok : syscalls.
