(* ===== verification/Dll.v ===== *)
(** Doubly linked, nil-terminated lists in a store of headers: segments, and
    how relinking their ends changes them. *)
From S2P Require Import Prelude.

Section Dll.
Context {A : Type} `{EqDecision A}.
Implicit Types (nx pv : A -> option A) (l : list A) (p q : option A).

(** The first element of [l], or [q]; the last element of [l], or [p]. *)
Definition first_or (q : option A) (l : list A) : option A := match l with [] => q | a :: _ => Some a end.
Definition last_or (p : option A) (l : list A) : option A := match last l with Some a => Some a | None => p end.

(** [l] is linked in both directions, after [p] and before [q]. *)
Fixpoint seg (nx pv : A -> option A) (p : option A) (l : list A) (q : option A) : Prop :=
  match l with
  | [] => True
  | a :: l => pv a = p /\ nx a = first_or q l /\ seg nx pv (Some a) l q
  end.

Lemma last_or_cons p a l : last_or p (a :: l) = last_or (Some a) l.
Proof. unfold last_or. destruct l as [|b l]; [done|]. rewrite last_cons_cons. by destruct (last_is_Some (b :: l)) as [_ [x ->]]. Qed.

Lemma last_or_snoc p l a : last_or p (l ++ [a]) = Some a.
Proof. unfold last_or. by rewrite last_snoc. Qed.

Lemma dll_app nx pv p l1 l2 q :
  seg nx pv p (l1 ++ l2) q <-> seg nx pv p l1 (first_or q l2) /\ seg nx pv (last_or p l1) l2 q.
Proof.
  revert p. induction l1 as [|a l1 IH]; intros p; cbn [app seg].
  - split; [done|by intros [_ ?]].
  - rewrite IH, last_or_cons. assert (first_or q (l1 ++ l2) = first_or (first_or q l2) l1) as -> by (by destruct l1).
    naive_solver.
Qed.

(** Relinking the ends of a segment. *)
Lemma dll_relink nx pv nx' pv' p l q p' q' :
  NoDup l -> seg nx pv p l q ->
  (forall a, a ∈ l -> pv' a = if decide (head l = Some a) then p' else pv a) ->
  (forall a, a ∈ l -> nx' a = if decide (last l = Some a) then q' else nx a) ->
  seg nx' pv' p' l q'.
Proof.
  revert p p'. induction l as [|a l IH]; intros p p' Hnd; cbn [seg]; [done|].
  apply NoDup_cons in Hnd as [Ha Hnd]. intros (Hp & Hn & Hs) Hpv Hnx. split; [|split].
  - rewrite Hpv by set_solver. by rewrite decide_True.
  - rewrite Hnx by set_solver. destruct l as [|b l]; [by rewrite decide_True|].
    rewrite last_cons_cons, decide_False; [done|]. intros E. apply Ha, last_Some_elem_of. done.
  - apply (IH (Some a)); [done|done| |].
    + intros x Hx. rewrite Hpv by set_solver. rewrite decide_False by (intros [= ->]; done).
      destruct l as [|b l]; [by apply elem_of_nil in Hx|]. cbn [seg] in Hs. destruct (decide _) as [[= ->]|]; [|done]. apply Hs.
    + intros x Hx. rewrite Hnx by set_solver. destruct l as [|b l]; [by apply elem_of_nil in Hx|]. by rewrite last_cons_cons.
Qed.

Lemma dll_ext nx pv nx' pv' p l q :
  seg nx pv p l q -> (forall a, a ∈ l -> nx' a = nx a) -> (forall a, a ∈ l -> pv' a = pv a) -> seg nx' pv' p l q.
Proof.
  revert p. induction l as [|a l IH]; intros p; cbn [seg]; [done|]. intros (Hp & Hn & Hs) Hnx Hpv.
  rewrite Hnx, Hpv by set_solver. split; [done|]. split; [done|]. apply IH; [done|set_solver..].
Qed.

(** What the links of an element say. *)
Lemma dll_mid nx pv p l1 a l2 q :
  seg nx pv p (l1 ++ a :: l2) q -> pv a = last_or p l1 /\ nx a = first_or q l2.
Proof. intros [_ (H1 & H2 & _)]%dll_app. done. Qed.

Lemma first_or_elem q l a : first_or q l = Some a -> q <> Some a -> a ∈ l.
Proof. destruct l; cbn; [done|]. intros [= ->] _. set_solver. Qed.

Lemma last_or_elem p l a : last_or p l = Some a -> p <> Some a -> a ∈ l.
Proof.
  unfold last_or. destruct (last l) as [b|] eqn:E; [|done]. intros [= ->] _. by apply last_Some_elem_of.
Qed.

(** Pushing a new element in front. *)
Lemma dll_push nx pv nx' pv' b l :
  NoDup l -> seg nx pv None l None -> pv' b = None -> nx' b = first_or None l ->
  (forall a, a ∈ l -> pv' a = if decide (first_or None l = Some a) then Some b else pv a) -> (forall a, a ∈ l -> nx' a = nx a) ->
  seg nx' pv' None (b :: l) None.
Proof.
  intros Hnd Hs Hp Hn Hpv Hnx. split; [done|]. split; [done|]. apply (dll_relink _ _ _ _ _ _ _ (Some b) None Hnd Hs); intros a Ha.
  - rewrite Hpv by done. by destruct l.
  - rewrite Hnx by done. destruct (decide (last l = Some a)) as [El|]; [|done]. apply last_Some in El as [l' El]. rewrite El in Hs.
    by apply dll_mid in Hs as [_ ?].
Qed.

(** Unlinking an element. *)
Lemma dll_remove nx pv nx' pv' l1 b l2 :
  NoDup (l1 ++ b :: l2) -> seg nx pv None (l1 ++ b :: l2) None ->
  (forall a, a ∈ l1 ++ l2 -> pv' a = if decide (first_or None l2 = Some a) then last_or None l1 else pv a) ->
  (forall a, a ∈ l1 ++ l2 -> nx' a = if decide (last_or None l1 = Some a) then first_or None l2 else nx a) ->
  seg nx' pv' None (l1 ++ l2) None.
Proof.
  intros (N1 & N12 & [Nb N2]%NoDup_cons)%NoDup_app [Hs1 (_ & _ & Hs2)]%dll_app Hpv Hnx.
  assert (Hf : forall a, a ∈ l1 -> first_or None l2 <> Some a).
  { intros a Ha E. apply (N12 a Ha). right. eapply first_or_elem; [exact E|done]. }
  assert (Hl : forall a, a ∈ l2 -> last_or None l1 <> Some a).
  { intros a Ha E. apply (N12 a); [eapply last_or_elem; [exact E|done]|by right]. }
  apply dll_app. split.
  - apply (dll_relink _ _ _ _ _ _ _ None (first_or None l2) N1 Hs1); intros a Ha.
    + rewrite Hpv, decide_False by (apply elem_of_app || apply Hf; auto). destruct (decide (head l1 = Some a)) as [Eh|]; [|done].
      destruct l1 as [|x l1']; [done|]. injection Eh as ->. by destruct Hs1.
    + rewrite Hnx by (apply elem_of_app; auto). unfold last_or. by destruct (last l1).
  - apply (dll_relink _ _ _ _ _ _ _ (last_or None l1) None N2 Hs2); intros a Ha.
    + rewrite Hpv by (apply elem_of_app; auto). by destruct l2.
    + rewrite Hnx, decide_False by (apply elem_of_app || apply Hl; auto). destruct (decide (last l2 = Some a)) as [El|]; [|done].
      apply last_Some in El as [l' El]. rewrite El in Hs2. by apply dll_mid in Hs2 as [_ ?].
Qed.
End Dll.
