(* ===== verification/Heap.v ===== *)
(** The kernel heap: the two-level segregated-fit allocator [KernelHeap] of
    kernel/mm/memory.hpp and the global [new]/[delete] of kernel/mm/memory.cpp.

    Block headers are kept in a map from their address; a header that a merge
    absorbs stays in memory, as it does in the program.  A [BlockHeader*] is the
    address of the header, [None] is [nullptr].  On the 32-bit build
    [sizeof(BlockHeader)] is 32.  The cycle counters and [Metrics] that
    [allocate] updates have no influence on the heap. *)
From S2P Require Import Prelude Dll.

Module Heap.

Definition TLSF_MAGIC : Z := 1414288198. (* 0x544C5346 *)
Definition SL_INDEX_COUNT_LOG2 : Z := 4.
Definition SL_INDEX_COUNT : Z := 16.
Definition FL_INDEX_SHIFT : Z := 5.
Definition FL_INDEX_MAX : Z := 24.
Definition FL_INDEX_COUNT : Z := 20.
Definition SMALL_BLOCK_SIZE : Z := 32.
Definition BLOCK_HEADER_SIZE : Z := 32.
Definition SIZE_MAX : Z := 4294967295.

Record BlockHeader := mkBlock {
  magic : Z;
  size : Z;
  requested_size : Z;
  is_free : bool;
  prev_phys : option Z;
  next_phys : option Z;
  next_free : option Z;
  prev_free : option Z;
}.

#[export] Instance BlockHeader_inhabited : Inhabited BlockHeader := populate (mkBlock 0 0 0 false None None None None).

Definition set_magic v b := mkBlock v (size b) (requested_size b) (is_free b) (prev_phys b) (next_phys b) (next_free b) (prev_free b).
Definition set_size v b := mkBlock (magic b) v (requested_size b) (is_free b) (prev_phys b) (next_phys b) (next_free b) (prev_free b).
Definition set_requested_size v b := mkBlock (magic b) (size b) v (is_free b) (prev_phys b) (next_phys b) (next_free b) (prev_free b).
Definition set_is_free v b := mkBlock (magic b) (size b) (requested_size b) v (prev_phys b) (next_phys b) (next_free b) (prev_free b).
Definition set_prev_phys v b := mkBlock (magic b) (size b) (requested_size b) (is_free b) v (next_phys b) (next_free b) (prev_free b).
Definition set_next_phys v b := mkBlock (magic b) (size b) (requested_size b) (is_free b) (prev_phys b) v (next_free b) (prev_free b).
Definition set_next_free v b := mkBlock (magic b) (size b) (requested_size b) (is_free b) (prev_phys b) (next_phys b) v (prev_free b).
Definition set_prev_free v b := mkBlock (magic b) (size b) (requested_size b) (is_free b) (prev_phys b) (next_phys b) (next_free b) v.

Record KernelHeap := mkHeap {
  fl_bitmap : Z;
  sl_bitmap : list Z;
  blocks : list (list (option Z));
  head_block : option Z;
  total_free_memory : Z;
  total_size : Z;
  headers : gmap Z BlockHeader;
}.

Definition set_fl_bitmap v h := mkHeap v (sl_bitmap h) (blocks h) (head_block h) (total_free_memory h) (total_size h) (headers h).
Definition set_sl_bitmap v h := mkHeap (fl_bitmap h) v (blocks h) (head_block h) (total_free_memory h) (total_size h) (headers h).
Definition set_blocks v h := mkHeap (fl_bitmap h) (sl_bitmap h) v (head_block h) (total_free_memory h) (total_size h) (headers h).
Definition set_total_free_memory v h := mkHeap (fl_bitmap h) (sl_bitmap h) (blocks h) (head_block h) v (total_size h) (headers h).
Definition set_headers v h := mkHeap (fl_bitmap h) (sl_bitmap h) (blocks h) (head_block h) (total_free_memory h) (total_size h) v.

(** [*b] and an update of it. *)
Definition hd (h : KernelHeap) (b : Z) : BlockHeader := headers h !!! b.
Definition upd_hd (b : Z) (f : BlockHeader -> BlockHeader) (h : KernelHeap) : KernelHeap :=
  set_headers (<[b := f (hd h b)]> (headers h)) h.

(** [if (o) o->field = ...]. *)
Definition upd_opt (o : option Z) (f : BlockHeader -> BlockHeader) (h : KernelHeap) : KernelHeap :=
  match o with Some b => upd_hd b f h | None => h end.

(** [blocks[fl][sl]]. *)
Definition bucket (h : KernelHeap) (fl sl : Z) : option Z := zlookup (zlookup (blocks h) fl) sl.
Definition set_bucket (fl sl : Z) (v : option Z) (h : KernelHeap) : KernelHeap :=
  set_blocks (zalter (zalter (fun _ => v) sl) fl (blocks h)) h.

(** * Size classes *)

Definition mapping_insert (size : Z) : Z * Z :=
  if size <? SMALL_BLOCK_SIZE then
    let sl := size / (SMALL_BLOCK_SIZE / SL_INDEX_COUNT) in
    (0, if SL_INDEX_COUNT <=? sl then SL_INDEX_COUNT - 1 else sl)
  else
    let msb := find_highest_bit size in
    let fl := msb - FL_INDEX_SHIFT in
    let fl := if fl <? 0 then 0 else fl in
    let fl := if FL_INDEX_COUNT <=? fl then FL_INDEX_COUNT - 1 else fl in
    let sl := Z.shiftr (Z.lxor size (bit msb)) (msb - SL_INDEX_COUNT_LOG2) in
    (fl, if SL_INDEX_COUNT <=? sl then SL_INDEX_COUNT - 1 else sl).

Definition mapping_search (size : Z) : Z * Z :=
  if SMALL_BLOCK_SIZE <=? size then
    let msb := find_highest_bit size in
    let round := bit (msb - SL_INDEX_COUNT_LOG2) - 1 in
    mapping_insert (wrap32 (size + round))
  else mapping_insert size.

(** [m & (~0u << n)]. *)
Definition from_bit (m n : Z) : Z := Z.land m (wrap32 (Z.shiftl u32_max n)).

Definition search_suitable_block (c : Z * Z) (h : KernelHeap) : option Z :=
  let '(fl, sl) := c in
  let fl := if fl <? 0 then 0 else fl in
  if FL_INDEX_COUNT <=? fl then None else
  let sl_map := from_bit (zlookup (sl_bitmap h) fl) sl in
  if negb (sl_map =? 0) then bucket h fl (find_lowest_bit sl_map) else
  if FL_INDEX_COUNT <=? fl + 1 then None else
  let fl_map := from_bit (fl_bitmap h) (fl + 1) in
  if fl_map =? 0 then None else
  let fl := find_lowest_bit fl_map in
  bucket h fl (find_lowest_bit (zlookup (sl_bitmap h) fl)).

(** * Free lists *)

Definition insert_free_block (block : Z) (h : KernelHeap) : KernelHeap :=
  let '(fl, sl) := mapping_insert (size (hd h block)) in
  let h := upd_hd block (fun b => set_next_free (bucket h fl sl) (set_prev_free None (set_is_free true b))) h in
  let h := upd_opt (bucket h fl sl) (set_prev_free (Some block)) h in
  let h := set_bucket fl sl (Some block) h in
  let h := set_fl_bitmap (bit_set (fl_bitmap h) fl) h in
  set_sl_bitmap (zalter (fun m => bit_set m sl) fl (sl_bitmap h)) h.

Definition remove_free_block (block : Z) (h : KernelHeap) : KernelHeap :=
  let '(fl, sl) := mapping_insert (size (hd h block)) in
  let h := match prev_free (hd h block) with
           | Some p => upd_hd p (set_next_free (next_free (hd h block))) h
           | None => set_bucket fl sl (next_free (hd h block)) h
           end in
  let h := upd_opt (next_free (hd h block)) (set_prev_free (prev_free (hd h block))) h in
  let h := match bucket h fl sl with
           | Some _ => h
           | None =>
               let h := set_sl_bitmap (zalter (fun m => bit_clear m sl) fl (sl_bitmap h)) h in
               if zlookup (sl_bitmap h) fl =? 0 then set_fl_bitmap (bit_clear (fl_bitmap h) fl) h else h
           end in
  upd_hd block (fun b => set_next_free None (set_prev_free None (set_is_free false b))) h.

(** * Operations *)

(** Rounding up and down to 8 bytes. *)
Definition align_up (x : Z) : Z := Z.land (wrap32 (x + 7)) (Z.lnot 7).
Definition align_down (x : Z) : Z := Z.land x (Z.lnot 7).

(** [init]; [None] is the panic loop. *)
Definition init (start_addr end_addr : Z) (h : KernelHeap) : option KernelHeap :=
  if (end_addr <=? start_addr) || (end_addr - start_addr <? BLOCK_HEADER_SIZE + 8) then None else
  let start := align_up start_addr in
  let end_ := align_down end_addr in
  let h := mkHeap 0 (replicate 20 0) (replicate 20 (replicate 16 None)) (Some start)
             (end_ - start - BLOCK_HEADER_SIZE) (end_ - start)
             (<[start := mkBlock TLSF_MAGIC (end_ - start) 0 true None None None None]> (headers h)) in
  Some (insert_free_block start h).

(** The remainder of [block] behind its first [required_space] bytes becomes a
    free block. *)
Definition split (block required_space : Z) (h : KernelHeap) : KernelHeap :=
  let rem := wrap32 (block + required_space) in
  let h := upd_hd rem (fun b => set_next_phys (next_phys (hd h block)) (set_prev_phys (Some block)
             (set_is_free true (set_requested_size 0 (set_size (wrap32 (size (hd h block) - required_space))
             (set_magic TLSF_MAGIC b)))))) h in
  let h := upd_opt (next_phys (hd h block)) (set_prev_phys (Some rem)) h in
  let h := upd_hd block (fun b => set_size required_space (set_next_phys (Some rem) b)) h in
  insert_free_block rem h.

Definition allocate_impl (size_orig : Z) (h : KernelHeap) : option Z * KernelHeap :=
  if (size_orig =? 0) || (SIZE_MAX - 7 - BLOCK_HEADER_SIZE <? size_orig) then (None, h) else
  let required_space := align_up size_orig + BLOCK_HEADER_SIZE in
  match search_suitable_block (mapping_search required_space) h with
  | None => (None, h)
  | Some block =>
      let h := remove_free_block block h in
      let h := if wrap32 (required_space + BLOCK_HEADER_SIZE + 8) <=? size (hd h block)
               then split block required_space h else h in
      let h := upd_hd block (fun b => set_requested_size size_orig (set_is_free false b)) h in
      let h := set_total_free_memory (wrap32 (total_free_memory h - (size (hd h block) - BLOCK_HEADER_SIZE))) h in
      (Some (wrap32 (block + BLOCK_HEADER_SIZE)), h)
  end.

(** [o && o->is_free && o->magic == TLSF_MAGIC]. *)
Definition mergeable (o : option Z) (h : KernelHeap) : option Z :=
  match o with
  | Some b => if is_free (hd h b) && (magic (hd h b) =? TLSF_MAGIC) then Some b else None
  | None => None
  end.

(** [a] swallows the block [b] behind it. *)
Definition absorb (a b : Z) (h : KernelHeap) : KernelHeap :=
  let h := upd_hd a (fun x => set_next_phys (next_phys (hd h b)) (set_size (wrap32 (size x + size (hd h b))) x)) h in
  upd_opt (next_phys (hd h b)) (set_prev_phys (Some a)) h.

Definition merge_next (block : Z) (h : KernelHeap) : KernelHeap :=
  match mergeable (next_phys (hd h block)) h with
  | Some next => absorb block next (remove_free_block next h)
  | None => h
  end.

(** The block that is left, and the heap. *)
Definition merge_prev (block : Z) (h : KernelHeap) : Z * KernelHeap :=
  match mergeable (prev_phys (hd h block)) h with
  | Some prev => (prev, absorb prev block (remove_free_block prev h))
  | None => (block, h)
  end.

(** The header of a pointer, if it lies in the heap. *)
Definition block_of (ptr : Z) (h : KernelHeap) : option Z :=
  let block := wrap32 (ptr - BLOCK_HEADER_SIZE) in
  let heap_start := default 0 (head_block h) in
  if (block <? heap_start) || (wrap32 (heap_start + total_size h) <=? block) then None else Some block.

Definition deallocate (ptr : Z) (h : KernelHeap) : KernelHeap :=
  if ptr =? 0 then h else
  match block_of ptr h with
  | None => h
  | Some block =>
      if negb (magic (hd h block) =? TLSF_MAGIC) then h else
      if is_free (hd h block) then h else
      let h := upd_hd block (fun b => set_requested_size 0 (set_is_free true b)) h in
      let h := set_total_free_memory (wrap32 (total_free_memory h + (size (hd h block) - BLOCK_HEADER_SIZE))) h in
      let h := merge_next block h in
      let '(block, h) := merge_prev block h in
      insert_free_block block h
  end.

Definition get_requested_size (ptr : Z) (h : KernelHeap) : Z :=
  if ptr =? 0 then 0 else
  match block_of ptr h with
  | None => 0
  | Some target =>
      if is_free (hd h target) || negb (magic (hd h target) =? TLSF_MAGIC) then 0 else requested_size (hd h target)
  end.

(** [verify_integrity]: [fuel] bounds the number of blocks. *)
Fixpoint verify_from (fuel : nat) (b : option Z) (h : KernelHeap) : option Z :=
  match b, fuel with
  | None, _ => Some 0
  | Some _, O => None
  | Some a, S fuel =>
      if negb (magic (hd h a) =? TLSF_MAGIC) then Some 1 else verify_from fuel (next_phys (hd h a)) h
  end.

Definition verify_integrity (fuel : nat) (h : KernelHeap) : option Z := verify_from fuel (head_block h) h.

(** [operator new] and [operator delete]; [None] is the panic loop. *)
Definition operator_new (n : Z) (h : KernelHeap) : option (Z * KernelHeap) :=
  match allocate_impl n h with
  | (Some p, h) => Some (p, h)
  | (None, _) => None
  end.
Definition operator_delete (p : Z) (h : KernelHeap) : KernelHeap := deallocate p h.
End Heap.
