(* ===== verification/HeapInv.v ===== *)
(** The heap's invariant: physical blocks that tile the region and free lists
    that hold exactly the free blocks of each size class. *)
From S2P Require Import Prelude Dll Heap.
Import Heap.

(** * Size classes *)

Definition is_class (c : Z * Z) : Prop := 0 <= c.1 < FL_INDEX_COUNT /\ 0 <= c.2 < SL_INDEX_COUNT.

(** The smallest size of a class, and the order of classes. *)
Definition low (c : Z * Z) : Z := 2 ^ (c.1 + 5) + c.2 * 2 ^ (c.1 + 1).
Definition class_le (c d : Z * Z) : Prop := c.1 < d.1 \/ c.1 = d.1 /\ c.2 <= d.2.
Definition class_lt (c d : Z * Z) : Prop := c.1 < d.1 \/ c.1 = d.1 /\ c.2 < d.2.

(** Sizes the two-level table distinguishes. *)
Definition MAX_SIZE : Z := 33554432. (* 2^25 *)

Lemma lxor_msb x m : 2 ^ m <= x < 2 ^ (m + 1) -> 0 <= m -> Z.lxor x (bit m) = x - 2 ^ m.
Proof.
  intros Hx Hm. unfold bit. rewrite Z.shiftl_1_l. rewrite Z.pow_add_r in Hx by lia.
  set (r := x - 2 ^ m). assert (Hr : 0 <= r < 2 ^ m) by lia.
  assert (Hl : Z.land (2 ^ m) r = 0).
  { apply (fun H => Z.bits_inj' _ _ H). intros n Hn. rewrite Z.land_spec, Z.bits_0.
    destruct (decide (n = m)) as [->|Hne]; [|by rewrite Z.pow2_bits_false by lia].
    assert (Z.testbit r m = false) as ->; [|by rewrite andb_false_r].
    apply Z.testbit_false; [lia|]. by rewrite Z.div_small by lia. }
  replace x with (2 ^ m + r) by lia. rewrite Z.add_nocarry_lxor by done.
  rewrite (Z.lxor_comm (2 ^ m) r), Z.lxor_assoc, Z.lxor_nilpotent, Z.lxor_0_r. lia.
Qed.

Lemma log2_range x : 32 <= x < MAX_SIZE -> 5 <= Z.log2 x < 25 /\ 2 ^ Z.log2 x <= x < 2 ^ (Z.log2 x + 1).
Proof.
  intros Hx. split; [|apply Z.log2_spec; lia]. split.
  - apply Z.log2_le_pow2; lia.
  - apply Z.log2_lt_pow2; unfold MAX_SIZE in Hx; lia.
Qed.

Lemma mapping_insert_spec x :
  32 <= x < MAX_SIZE ->
  is_class (mapping_insert x) /\ low (mapping_insert x) <= x < low (mapping_insert x) + 2 ^ ((mapping_insert x).1 + 1).
Proof.
  intros Hx. destruct (log2_range x Hx) as [Hm Hp]. unfold mapping_insert, SMALL_BLOCK_SIZE, find_highest_bit.
  destruct (Z.ltb_spec x 32); [lia|]. destruct (Z.eqb_spec x 0); [lia|]. cbv zeta.
  set (m := Z.log2 x) in *. clearbody m. rewrite lxor_msb by lia. unfold FL_INDEX_SHIFT, FL_INDEX_COUNT, SL_INDEX_COUNT, SL_INDEX_COUNT_LOG2.
  destruct (Z.ltb_spec (m - 5) 0); [lia|]. destruct (Z.leb_spec 20 (m - 5)); [lia|].
  rewrite Z.shiftr_div_pow2 by lia. assert (E : 2 ^ m = 16 * 2 ^ (m - 4)) by (change 16 with (2 ^ 4); rewrite <- Z.pow_add_r by lia; f_equal; lia).
  rewrite Z.pow_add_r in Hp by lia. set (g := 2 ^ (m - 4)) in *. assert (Hg : 0 < g) by (apply Z.pow_pos_nonneg; lia).
  assert (Hq : 0 <= (x - 2 ^ m) / g < 16).
  { split; [apply Z.div_pos; lia|]. apply Z.div_lt_upper_bound; lia. }
  destruct (Z.leb_spec 16 ((x - 2 ^ m) / g)); [lia|]. unfold is_class, low, FL_INDEX_COUNT, SL_INDEX_COUNT. cbn [fst snd].
  replace (m - 5 + 5) with m by lia. replace (m - 5 + 1) with (m - 4) by lia. fold g.
  pose proof (Z.div_mod (x - 2 ^ m) g ltac:(lia)). pose proof (Z.mod_pos_bound (x - 2 ^ m) g Hg). nia.
Qed.

Lemma low_lt c d : is_class c -> is_class d -> class_lt c d -> low c + 2 ^ (c.1 + 1) <= low d.
Proof.
  destruct c as [f s], d as [f' s']. unfold is_class, class_lt, low, FL_INDEX_COUNT, SL_INDEX_COUNT. cbn [fst snd].
  intros Hc Hd Hlt.
  assert (E : forall f, 0 <= f -> 2 ^ (f + 5) = 16 * 2 ^ (f + 1)).
  { intros g Hg. replace (g + 5) with (4 + (g + 1)) by lia. by rewrite Z.pow_add_r by lia. }
  assert (P : forall f, 0 <= f -> 0 < 2 ^ (f + 1)) by (intros; apply Z.pow_pos_nonneg; lia).
  destruct Hlt as [Hlt|[-> Hlt]].
  - rewrite !E by lia. assert (2 * 2 ^ (f + 1) <= 2 ^ (f' + 1)).
    { rewrite <- (Z.pow_succ_r 2 (f + 1)) by lia. apply Z.pow_le_mono_r; lia. }
    pose proof (P f). pose proof (P f'). nia.
  - pose proof (P f'). nia.
Qed.

Lemma class_total c d : class_le c d \/ class_lt d c.
Proof. unfold class_le, class_lt. lia. Qed.

Lemma class_le_low c d : is_class c -> is_class d -> class_le c d -> low c <= low d.
Proof.
  intros Hc Hd Hle. destruct (class_total d c) as [Hge|Hlt]; revgoals.
  - pose proof (low_lt c d Hc Hd Hlt). pose proof (Z.pow_nonneg 2 (c.1 + 1)). lia.
  - assert (c = d) as ->; [|lia]. destruct c as [f s], d as [f' s']. unfold class_le, class_lt in *. cbn [fst snd] in *.
    f_equal; lia.
Qed.

Lemma mapping_insert_mono x y : 32 <= x -> x <= y -> y < MAX_SIZE -> class_le (mapping_insert x) (mapping_insert y).
Proof.
  intros Hx Hxy Hy. destruct (class_total (mapping_insert x) (mapping_insert y)) as [|Hlt]; [done|].
  destruct (mapping_insert_spec x) as [Cx Lx]; [lia|]. destruct (mapping_insert_spec y) as [Cy Ly]; [lia|].
  pose proof (low_lt _ _ Cy Cx Hlt). lia.
Qed.

(** The size a search is rounded up to. *)
Definition rounded (x : Z) : Z := x + (2 ^ (Z.log2 x - 4) - 1).

(** Requests (with their header) the table can serve. *)
Definition MAX_REQUEST : Z := 32505856. (* 2^25 - 2^20 *)

Lemma rounded_range x : 32 <= x <= MAX_REQUEST -> x <= rounded x < MAX_SIZE.
Proof.
  unfold MAX_REQUEST. intros Hx. destruct (log2_range x) as [Hm _]; [unfold MAX_SIZE; lia|]. unfold rounded, MAX_SIZE.
  assert (0 < 2 ^ (Z.log2 x - 4)) by (apply Z.pow_pos_nonneg; lia).
  assert (2 ^ (Z.log2 x - 4) <= 2 ^ 20) by (apply Z.pow_le_mono_r; lia). change (2 ^ 20) with 1048576 in *. lia.
Qed.

Lemma mapping_search_rounded x : 32 <= x <= MAX_REQUEST -> mapping_search x = mapping_insert (rounded x).
Proof.
  intros Hx. pose proof (rounded_range x Hx) as Hr. unfold mapping_search, SMALL_BLOCK_SIZE, SL_INDEX_COUNT_LOG2, find_highest_bit.
  destruct (Z.leb_spec 32 x); [|lia]. destruct (Z.eqb_spec x 0); [lia|]. cbv zeta. f_equal. unfold bit. rewrite Z.shiftl_1_l.
  apply wrap32_small. unfold is_u32, rounded, MAX_SIZE in *. lia.
Qed.

(** Every class from the searched one on is large enough. *)
Lemma mapping_search_low x : 32 <= x <= MAX_REQUEST -> x <= low (mapping_search x).
Proof.
  intros Hx. rewrite mapping_search_rounded by done. pose proof (rounded_range x Hx) as Hr.
  destruct (mapping_insert_spec (rounded x)) as [Hc Hl]; [lia|]. set (c := mapping_insert (rounded x)) in *. clearbody c.
  destruct (log2_range x) as [Hm Hp]; [unfold MAX_REQUEST, MAX_SIZE in *; lia|]. unfold rounded, low in *. destruct c as [f s].
  unfold is_class in Hc. cbn [fst snd] in *. set (m := Z.log2 x) in *. clearbody m.
  assert (E : forall f, 0 <= f -> 2 ^ (f + 5) = 16 * 2 ^ (f + 1)).
  { intros g Hg. replace (g + 5) with (4 + (g + 1)) by lia. by rewrite Z.pow_add_r by lia. }
  rewrite E in * by lia. unfold FL_INDEX_COUNT, SL_INDEX_COUNT in Hc.
  destruct (Z.lt_trichotomy (f + 5) m) as [Hlt|[Heq|Hgt]].
  - assert (2 * 2 ^ (f + 5) <= 2 ^ m) by (rewrite <- Z.pow_succ_r by lia; apply Z.pow_le_mono_r; lia).
    rewrite E in * by lia. assert (0 < 2 ^ (m - 4)) by (apply Z.pow_pos_nonneg; lia). nia.
  - subst m. replace (f + 5 - 4) with (f + 1) in Hl by lia. lia.
  - assert (2 ^ (m + 1) <= 2 ^ (f + 5)) by (apply Z.pow_le_mono_r; lia). rewrite E in * by lia.
    assert (0 < 2 ^ (f + 1)) by (apply Z.pow_pos_nonneg; lia). nia.
Qed.

(** * Headers *)

Lemma hd_upd b f h a : hd (upd_hd b f h) a = if decide (b = a) then f (hd h b) else hd h a.
Proof.
  unfold hd, upd_hd. cbn [headers set_headers]. case_decide as E.
  - subst. by rewrite lookup_total_insert_eq.
  - by rewrite lookup_total_insert_ne.
Qed.

Lemma hd_upd_opt o f h a : hd (upd_opt o f h) a = if decide (o = Some a) then f (hd h a) else hd h a.
Proof.
  destruct o as [b|]; cbn [upd_opt].
  - rewrite hd_upd. destruct (decide (b = a)) as [->|Hne]; [by rewrite decide_True|]. by rewrite decide_False by congruence.
  - by rewrite decide_False.
Qed.

(** What an update of headers leaves alone. *)
Lemma upd_opt_tables o f h :
  fl_bitmap (upd_opt o f h) = fl_bitmap h /\ sl_bitmap (upd_opt o f h) = sl_bitmap h /\ blocks (upd_opt o f h) = blocks h /\
  head_block (upd_opt o f h) = head_block h /\ total_free_memory (upd_opt o f h) = total_free_memory h /\
  total_size (upd_opt o f h) = total_size h.
Proof. by destruct o. Qed.

Definition nf (h : KernelHeap) (a : Z) : option Z := next_free (hd h a).
Definition pf (h : KernelHeap) (a : Z) : option Z := prev_free (hd h a).
Definition class (h : KernelHeap) (a : Z) : Z * Z := mapping_insert (size (hd h a)).

(** The part of a header that the free lists do not use. *)
Definition phys_view (b : BlockHeader) : Z * Z * Z * option Z * option Z :=
  (magic b, size b, requested_size b, prev_phys b, next_phys b).

(** * Free lists *)

Definition Lists := Z -> Z -> list Z.
Definition set_list (F : Lists) (c : Z * Z) (l : list Z) : Lists := fun fl sl => if decide ((fl, sl) = c) then l else F fl sl.

Definition sl_map (h : KernelHeap) (fl : Z) : Z := zlookup (sl_bitmap h) fl.

Record tables_ok (h : KernelHeap) : Prop := {
  tb_sl : length (sl_bitmap h) = 20%nat;
  tb_rows : length (blocks h) = 20%nat;
  tb_cols : forall r, r ∈ blocks h -> length r = 16%nat;
}.

Record free_ok (h : KernelHeap) (F : Lists) : Prop := {
  fo_tables : tables_ok h;
  fo_head : forall fl sl, is_class (fl, sl) -> bucket h fl sl = first_or None (F fl sl);
  fo_seg : forall fl sl, is_class (fl, sl) -> seg (nf h) (pf h) None (F fl sl) None;
  fo_nodup : forall fl sl, NoDup (F fl sl);
  fo_class : forall fl sl b, b ∈ F fl sl -> is_class (fl, sl) /\ class h b = (fl, sl);
  fo_sl : forall fl sl, is_class (fl, sl) -> Z.testbit (sl_map h fl) sl = bool_decide (F fl sl <> []);
  fo_sl_range : forall fl, 0 <= fl < FL_INDEX_COUNT -> 0 <= sl_map h fl < 2 ^ 16;
  fo_fl : forall fl, 0 <= fl < FL_INDEX_COUNT -> Z.testbit (fl_bitmap h) fl = negb (sl_map h fl =? 0);
  fo_fl_range : 0 <= fl_bitmap h < 2 ^ 20;
}.

Definition in_free (F : Lists) (b : Z) : Prop := exists fl sl, b ∈ F fl sl.

Lemma in_free_class h F b : free_ok h F -> in_free F b <-> b ∈ F (class h b).1 (class h b).2.
Proof.
  intros HF. split; [|by eexists _, _]. intros (fl & sl & Hb). destruct (fo_class _ _ HF _ _ _ Hb) as [_ ->]. done.
Qed.

(** Changes that the free lists do not see. *)
Lemma free_ok_ext h h' F :
  free_ok h F -> fl_bitmap h' = fl_bitmap h -> sl_bitmap h' = sl_bitmap h -> blocks h' = blocks h ->
  (forall a, in_free F a -> nf h' a = nf h a /\ pf h' a = pf h a /\ size (hd h' a) = size (hd h a)) -> free_ok h' F.
Proof.
  intros [T H1 H2 H3 H4 H5 H6 H7 H8] E1 E2 E3 Ha.
  assert (Hs : forall fl, sl_map h' fl = sl_map h fl) by (intros; unfold sl_map; by rewrite E2).
  split; try (intros; rewrite ?Hs, ?E1; by auto).
  - destruct T as [T1 T2 T3]. split; [by rewrite E2|by rewrite E3|]. intros r. rewrite E3. apply T3.
  - intros fl sl Hc. unfold bucket. rewrite E3. by apply H1.
  - intros fl sl Hc. eapply dll_ext; [by apply H2|..]; intros a Hin; apply Ha; by eexists _, _.
  - intros fl sl b Hb. destruct (H4 fl sl b Hb) as [Hc E]. split; [done|]. rewrite <- E. unfold class.
    destruct (Ha b) as (_ & _ & ->); [by eexists _, _|done].
Qed.

(** ** Buckets and bitmaps *)

Lemma bucket_set fl sl v h fl' sl' :
  tables_ok h -> is_class (fl, sl) ->
  bucket (set_bucket fl sl v h) fl' sl' = if decide ((fl', sl') = (fl, sl)) then v else bucket h fl' sl'.
Proof.
  intros [_ Hr Hc] [[F0 F1] [S0 S1]]. unfold FL_INDEX_COUNT, SL_INDEX_COUNT in *. cbn [fst snd] in *.
  unfold bucket, set_bucket. cbn [blocks set_blocks].
  destruct (decide (fl' = fl)) as [->|Hf]; [|rewrite zlookup_zalter_ne by done; by rewrite decide_False by congruence].
  rewrite zlookup_zalter_eq by (unfold in_range; lia).
  destruct (decide (sl' = sl)) as [->|Hs]; [|rewrite zlookup_zalter_ne by done; by rewrite decide_False by congruence].
  rewrite decide_True by done. rewrite zlookup_zalter_eq; [done|].
  unfold in_range. assert (length (zlookup (blocks h) fl) = 16%nat) as ->; [|lia].
  apply Hc. unfold zlookup. destruct (Z.leb_spec 0 fl); [|lia]. apply list_elem_of_lookup_total_2. lia.
Qed.

Lemma tables_set_bucket fl sl v h : tables_ok h -> tables_ok (set_bucket fl sl v h).
Proof.
  intros [H1 H2 H3]. split; [done|by cbn; rewrite length_zalter|]. cbn [blocks set_bucket set_blocks].
  intros r (i & Hi)%list_elem_of_lookup. unfold zalter in Hi. destruct (0 <=? fl); [|by eapply H3, list_elem_of_lookup_2].
  destruct (decide (i = Z.to_nat fl)) as [->|Hne].
  - rewrite list_lookup_alter_eq in Hi. apply fmap_Some in Hi as (r' & Hr & ->).
    change (length (zalter (fun _ => v) sl r') = 16%nat). rewrite length_zalter. by eapply H3, list_elem_of_lookup_2.
  - rewrite list_lookup_alter_ne in Hi by done. by eapply H3, list_elem_of_lookup_2.
Qed.

Lemma sl_map_alter f fl h fl' :
  length (sl_bitmap h) = 20%nat -> 0 <= fl < FL_INDEX_COUNT ->
  zlookup (zalter f fl (sl_bitmap h)) fl' = if decide (fl' = fl) then f (sl_map h fl) else sl_map h fl'.
Proof.
  intros Hl Hf. unfold sl_map. case_decide as E; [subst; apply zlookup_zalter_eq|by apply zlookup_zalter_ne].
  unfold in_range, FL_INDEX_COUNT in *. lia.
Qed.

(** ** Searching *)

Lemma from_bit_testbit m n j : 0 <= n -> 0 <= j < 32 -> Z.testbit (from_bit m n) j = Z.testbit m j && (n <=? j).
Proof.
  intros Hn Hj. unfold from_bit, wrap32, u32_max. rewrite Z.land_spec. f_equal.
  change 4294967296 with (2 ^ 32). rewrite Z.mod_pow2_bits_low by lia. rewrite Z.shiftl_spec by lia.
  change 4294967295 with (Z.ones 32). destruct (Z.leb_spec n j).
  - apply Z.ones_spec_low. lia.
  - apply Z.testbit_neg_r. lia.
Qed.

Lemma from_bit_range m n b : 0 <= m < 2 ^ b -> 0 <= b -> 0 <= from_bit m n < 2 ^ b.
Proof.
  intros Hm Hb. assert (from_bit m n mod 2 ^ b = from_bit m n) as <-; [|by apply Z.mod_pos_bound, Z.pow_pos_nonneg].
  apply (fun H => Z.bits_inj' _ _ H). intros i Hi. rewrite Z.testbit_mod_pow2 by done. unfold from_bit. rewrite Z.land_spec.
  rewrite <- (Z.mod_small m (2 ^ b)) by done. rewrite Z.testbit_mod_pow2 by done. by destruct (i <? b).
Qed.

Lemma from_bit_lowest m n b :
  0 <= m < 2 ^ b -> 0 <= b <= 32 -> 0 <= n -> from_bit m n <> 0 ->
  n <= find_lowest_bit (from_bit m n) < b /\ Z.testbit m (find_lowest_bit (from_bit m n)) = true.
Proof.
  intros Hm Hb Hn Hnz. pose proof (from_bit_range m n b Hm ltac:(lia)) as Hr.
  destruct (find_lowest_bit_spec (from_bit m n)) as (L0 & L1 & _); [lia|].
  assert (Hlt : find_lowest_bit (from_bit m n) < b).
  { destruct (Z.lt_ge_cases (find_lowest_bit (from_bit m n)) b); [done|]. exfalso.
    rewrite Z.bits_above_log2 in L1; [done|lia|]. eapply Z.lt_le_trans; [|done].
    destruct (decide (from_bit m n = 0)); [done|]. apply Z.log2_lt_pow2; lia. }
  rewrite from_bit_testbit in L1 by lia. apply andb_true_iff in L1 as [? ?%Z.leb_le]. done.
Qed.

Lemma from_bit_zero m n j : 0 <= n <= j -> j < 32 -> from_bit m n = 0 -> Z.testbit m j = false.
Proof.
  intros Hn Hj Hz. assert (E : Z.testbit (from_bit m n) j = false) by (rewrite Hz; apply Z.bits_0).
  rewrite from_bit_testbit in E by lia. destruct (Z.leb_spec n j); [|lia]. by rewrite andb_true_r in E.
Qed.

(** The search finds the head of a non-empty class from [c] on, if there is one. *)
Lemma search_spec h F c :
  free_ok h F -> is_class c ->
  match search_suitable_block c h with
  | Some b => exists d, is_class d /\ class_le c d /\ b ∈ F d.1 d.2
  | None => forall d, is_class d -> class_le c d -> F d.1 d.2 = []
  end.
Proof.
  intros HF Hc. destruct c as [fl sl]. pose proof Hc as [[F0 F1] [S0 S1]]. cbn [fst snd] in *.
  unfold FL_INDEX_COUNT, SL_INDEX_COUNT in *. unfold search_suitable_block, FL_INDEX_COUNT.
  destruct (Z.ltb_spec fl 0); [lia|]. destruct (Z.leb_spec 20 fl); [lia|]. cbv zeta.
  assert (Hhead : forall f s, is_class (f, s) -> Z.testbit (sl_map h f) s = true ->
    exists b, bucket h f s = Some b /\ b ∈ F f s).
  { intros f s Hfs Hb. rewrite (fo_sl _ _ HF), bool_decide_eq_true in Hb by done. rewrite (fo_head _ _ HF) by done.
    destruct (F f s) as [|b l]; [done|]. exists b. split; [done|set_solver]. }
  assert (Hempty : forall f s, is_class (f, s) -> Z.testbit (sl_map h f) s = false -> F f s = []).
  { intros f s Hfs Hb. rewrite (fo_sl _ _ HF), bool_decide_eq_false in Hb by done. by destruct (F f s); [|exfalso; apply Hb]. }
  pose proof (fo_sl_range _ _ HF fl ltac:(unfold FL_INDEX_COUNT; lia)) as Hslr. change (zlookup (sl_bitmap h) fl) with (sl_map h fl).
  destruct (Z.eqb_spec (from_bit (sl_map h fl) sl) 0) as [Hz|Hnz]; cbn [negb].
  2:{ destruct (from_bit_lowest _ sl 16 Hslr ltac:(lia) S0 Hnz) as [Hr Ht].
      set (s := find_lowest_bit _) in *. destruct (Hhead fl s) as (b & -> & Hb); [unfold is_class, FL_INDEX_COUNT, SL_INDEX_COUNT; cbn; lia|done|].
      exists (fl, s). split; [unfold is_class, FL_INDEX_COUNT, SL_INDEX_COUNT; cbn; lia|]. split; [right; cbn; lia|done]. }
  assert (Hsame : forall s, sl <= s < 16 -> F fl s = []).
  { intros s Hs. apply Hempty; [unfold is_class, FL_INDEX_COUNT, SL_INDEX_COUNT; cbn; lia|]. apply (from_bit_zero _ sl); [lia|lia|done]. }
  assert (Hrest : (forall f, fl < f < 20 -> sl_map h f = 0) -> forall d, is_class d -> class_le (fl, sl) d -> F d.1 d.2 = []).
  { intros Hall [f s] [Hf Hs] [Hlt|[Heq Hle]]; cbn [fst snd] in *; unfold FL_INDEX_COUNT, SL_INDEX_COUNT in *.
    - apply Hempty; [done|]. rewrite Hall by lia. apply Z.bits_0.
    - subst f. apply Hsame. lia. }
  destruct (Z.leb_spec 20 (fl + 1)); [apply Hrest; intros; lia|].
  destruct (Z.eqb_spec (from_bit (fl_bitmap h) (fl + 1)) 0) as [Hfz|Hfn].
  { apply Hrest. intros f Hf. pose proof (fo_fl _ _ HF f ltac:(unfold FL_INDEX_COUNT; lia)) as Hb.
    rewrite (from_bit_zero _ (fl + 1) f) in Hb by (done || lia). symmetry in Hb. apply negb_false_iff, Z.eqb_eq in Hb. done. }
  destruct (from_bit_lowest _ (fl + 1) 20 (fo_fl_range _ _ HF) ltac:(lia) ltac:(lia) Hfn) as [Hr Ht].
  set (f := find_lowest_bit (from_bit _ _)) in *. change (zlookup (sl_bitmap h) f) with (sl_map h f).
  rewrite (fo_fl _ _ HF) in Ht by (unfold FL_INDEX_COUNT; lia). apply negb_true_iff, Z.eqb_neq in Ht.
  pose proof (fo_sl_range _ _ HF f ltac:(unfold FL_INDEX_COUNT; lia)) as Hfr.
  destruct (find_lowest_bit_spec (sl_map h f)) as (L0 & L1 & _); [lia|]. set (s := find_lowest_bit (sl_map h f)) in *.
  assert (Hs : s < 16).
  { destruct (Z.lt_ge_cases s 16); [done|]. exfalso. rewrite Z.bits_above_log2 in L1; [done|lia|].
    apply (Z.lt_le_trans _ 16); [|lia]. apply Z.log2_lt_pow2; lia. }
  assert (Hfs : is_class (f, s)) by (unfold is_class, FL_INDEX_COUNT, SL_INDEX_COUNT; cbn; lia).
  destruct (Hhead f s Hfs L1) as (b & -> & Hb). exists (f, s). split; [done|]. split; [left; cbn; lia|done].
Qed.

Lemma set_list_eq F fl sl l : set_list F (fl, sl) l fl sl = l.
Proof. unfold set_list. by rewrite decide_True. Qed.
Lemma set_list_ne F c l fl sl : (fl, sl) <> c -> set_list F c l fl sl = F fl sl.
Proof. intros. unfold set_list. by rewrite decide_False. Qed.

Lemma phys_view_size b b' : phys_view b' = phys_view b -> size b' = size b.
Proof. unfold phys_view. congruence. Qed.

(** What insertion and removal change of the other parts. *)
Record same_phys (b : Z) (flag : bool) (h h' : KernelHeap) : Prop := {
  sp_view : forall a, phys_view (hd h' a) = phys_view (hd h a);
  sp_flag : forall a, is_free (hd h' a) = if decide (a = b) then flag else is_free (hd h a);
  sp_head : head_block h' = head_block h;
  sp_free : total_free_memory h' = total_free_memory h;
  sp_total : total_size h' = total_size h;
}.

Lemma insert_frame b h : same_phys b true h (insert_free_block b h).
Proof.
  unfold insert_free_block. destruct (mapping_insert _) as [fl sl]. cbv zeta.
  set (h1 := upd_hd b _ h). set (o1 := bucket h1 fl sl). set (h2 := upd_opt o1 _ h1).
  destruct (upd_opt_tables o1 (set_prev_free (Some b)) h1) as (_ & _ & _ & E1 & E2 & E3). fold h2 in E1, E2, E3.
  assert (Hh : forall a, hd h2 a = if decide (o1 = Some a) then set_prev_free (Some b) (hd h1 a) else hd h1 a) by apply hd_upd_opt.
  assert (Hv : forall a, phys_view (hd h1 a) = phys_view (hd h a) /\ is_free (hd h1 a) = if decide (a = b) then true else is_free (hd h a)).
  { intros a. unfold h1. rewrite hd_upd. destruct (decide (b = a)) as [->|Hne]; [by rewrite decide_True|]. by rewrite decide_False by congruence. }
  split; [| |exact E1|exact E2|exact E3]; intros a; destruct (Hv a) as [V1 V2].
  - rewrite <- V1. change (phys_view (hd h2 a) = phys_view (hd h1 a)). rewrite Hh. by destruct (decide (o1 = Some a)).
  - rewrite <- V2. change (is_free (hd h2 a) = is_free (hd h1 a)). rewrite Hh. by destruct (decide (o1 = Some a)).
Qed.

(** *** The two levels of bitmaps *)

(** The bitmaps say which lists are not empty. *)
Record bitmaps_ok (flb : Z) (slm : Z -> Z) (N : Z -> Z -> bool) : Prop := {
  bm_sl : forall fl sl, is_class (fl, sl) -> Z.testbit (slm fl) sl = N fl sl;
  bm_sl_range : forall fl, 0 <= fl < FL_INDEX_COUNT -> 0 <= slm fl < 2 ^ 16;
  bm_fl : forall fl, 0 <= fl < FL_INDEX_COUNT -> Z.testbit flb fl = negb (slm fl =? 0);
  bm_fl_range : 0 <= flb < 2 ^ 20;
}.

Definition nonempty (F : Lists) (fl sl : Z) : bool := bool_decide (F fl sl <> []).

Lemma free_bitmaps h F : free_ok h F -> bitmaps_ok (fl_bitmap h) (sl_map h) (nonempty F).
Proof. intros [_ _ _ _ _ H5 H6 H7 H8]. by split. Qed.

Lemma free_ok_of h F :
  tables_ok h -> (forall fl sl, is_class (fl, sl) -> bucket h fl sl = first_or None (F fl sl)) ->
  (forall fl sl, is_class (fl, sl) -> seg (nf h) (pf h) None (F fl sl) None) -> (forall fl sl, NoDup (F fl sl)) ->
  (forall fl sl b, b ∈ F fl sl -> is_class (fl, sl) /\ class h b = (fl, sl)) ->
  bitmaps_ok (fl_bitmap h) (sl_map h) (nonempty F) -> free_ok h F.
Proof. intros H1 H2 H3 H4 H5 [B1 B2 B3 B4]. by split. Qed.

Lemma bitmaps_set flb slm N slm' N' fl sl :
  bitmaps_ok flb slm N -> is_class (fl, sl) ->
  (forall f, slm' f = if decide (f = fl) then bit_set (slm fl) sl else slm f) ->
  (forall f s, is_class (f, s) -> N' f s = if decide ((f, s) = (fl, sl)) then true else N f s) ->
  bitmaps_ok (bit_set flb fl) slm' N'.
Proof.
  intros [B1 B2 B3 B4] [[F0 F1] [S0 S1]] Hs HN. cbn [fst snd] in *. unfold FL_INDEX_COUNT, SL_INDEX_COUNT in *. split.
  - intros f s Hfs. rewrite Hs, HN by done. destruct (decide ((f, s) = (fl, sl))) as [[= -> ->]|Hne].
    + by rewrite decide_True, bit_set_testbit, Z.eqb_refl.
    + rewrite <- B1 by done. destruct (decide (f = fl)) as [->|]; [|done]. rewrite bit_set_testbit by done. by destruct (Z.eqb_spec sl s); [subst|].
  - intros f Hf. rewrite Hs. destruct (decide (f = fl)) as [->|]; [|by apply B2]. apply bit_set_range; [by apply B2|lia].
  - intros f Hf. rewrite Hs, bit_set_testbit by done. destruct (Z.eqb_spec fl f) as [->|Hne].
    + rewrite decide_True by done. symmetry. apply negb_true_iff, Z.eqb_neq. intros E.
      assert (Hb : Z.testbit (bit_set (slm f) sl) sl = true) by (rewrite bit_set_testbit, Z.eqb_refl by done; done). by rewrite E, Z.bits_0 in Hb.
    + rewrite decide_False by congruence. by apply B3.
  - apply bit_set_range; [done|lia].
Qed.

Lemma bitmaps_clear flb slm N slm' N' fl sl :
  bitmaps_ok flb slm N -> is_class (fl, sl) ->
  (forall f, slm' f = if decide (f = fl) then bit_clear (slm fl) sl else slm f) ->
  (forall f s, is_class (f, s) -> N' f s = if decide ((f, s) = (fl, sl)) then false else N f s) ->
  bitmaps_ok (if bit_clear (slm fl) sl =? 0 then bit_clear flb fl else flb) slm' N'.
Proof.
  intros [B1 B2 B3 B4] [[F0 F1] [S0 S1]] Hs HN. cbn [fst snd] in *. unfold FL_INDEX_COUNT, SL_INDEX_COUNT in *. split.
  - intros f s Hfs. rewrite Hs, HN by done. destruct (decide ((f, s) = (fl, sl))) as [[= -> ->]|Hne].
    + by rewrite decide_True, bit_clear_testbit, Z.eqb_refl.
    + rewrite <- B1 by done. destruct (decide (f = fl)) as [->|]; [|done]. destruct Hfs as [_ [Hs0 _]]. cbn in Hs0.
      rewrite bit_clear_testbit by done. by destruct (Z.eqb_spec sl s); [subst|].
  - intros f Hf. rewrite Hs. destruct (decide (f = fl)) as [->|]; [|by apply B2]. apply bit_clear_range; [by apply B2|lia].
  - intros f Hf. rewrite Hs. pose proof (B3 f Hf) as Hb. destruct (Z.eqb_spec (bit_clear (slm fl) sl) 0) as [Ez|Enz].
    + rewrite bit_clear_testbit by lia. destruct (decide (f = fl)) as [->|]; [by rewrite Z.eqb_refl, Ez|].
      destruct (Z.eqb_spec fl f); [congruence|done].
    + destruct (decide (f = fl)) as [->|]; [|done]. rewrite Hb. apply Z.eqb_neq in Enz. rewrite Enz. cbn.
      apply negb_true_iff, Z.eqb_neq. intros E0. rewrite E0 in Enz. by rewrite (proj2 (Z.eqb_eq (bit_clear 0 sl) 0)) in Enz.
  - destruct (_ =? 0); [|done]. apply bit_clear_range; [done|lia].
Qed.

Lemma bitmaps_ext flb slm N slm' N' :
  bitmaps_ok flb slm N -> (forall f, slm' f = slm f) -> (forall f s, is_class (f, s) -> N' f s = N f s) -> bitmaps_ok flb slm' N'.
Proof.
  intros [B1 B2 B3 B4] Hs HN. split; [|intros f; rewrite Hs; apply B2|intros f; rewrite Hs; apply B3|done].
  intros f s Hfs. rewrite Hs, HN by done. by apply B1.
Qed.

Lemma nonempty_set F c l f s : nonempty (set_list F c l) f s = if decide ((f, s) = c) then bool_decide (l <> []) else nonempty F f s.
Proof. unfold nonempty, set_list. by destruct (decide ((f, s) = c)). Qed.

(** A list of another class is not touched by changes to the members of one. *)
Lemma other_class h F fl sl f s a : free_ok h F -> (f, s) <> (fl, sl) -> a ∈ F f s -> a ∉ F fl sl.
Proof. intros HF Hne Ha Hin. apply (fo_class _ _ HF) in Hin as [_ ?], Ha as [_ ?]. congruence. Qed.

(** ** Insertion *)

Lemma insert_free_ok b h F :
  free_ok h F -> is_class (class h b) -> ~ in_free F b ->
  free_ok (insert_free_block b h) (set_list F (class h b) (b :: F (class h b).1 (class h b).2)).
Proof.
  intros HF Hc Hn. pose proof (insert_frame b h) as Hfr. unfold insert_free_block in *.
  change (mapping_insert (size (hd h b))) with (class h b) in *. destruct (class h b) as [fl sl] eqn:Ec. cbn [fst snd] in *.
  cbv zeta in *. set (h1 := upd_hd b _ h) in *. change (bucket h1 fl sl) with (bucket h fl sl) in *.
  rewrite (fo_head _ _ HF fl sl Hc) in *. set (o := first_or None (F fl sl)) in *. set (h2 := upd_opt o _ h1) in *.
  destruct (upd_opt_tables o (set_prev_free (Some b)) h1) as (T1 & T2 & T3 & _). fold h2 in T1, T2, T3.
  set (h3 := set_bucket fl sl (Some b) h2) in *. set (h4 := set_fl_bitmap _ h3) in *. set (h5 := set_sl_bitmap _ h4) in *.
  assert (Ht2 : tables_ok h2) by (destruct (fo_tables _ _ HF) as [A1 A2 A3]; split; [by rewrite T2|by rewrite T3|intros r; rewrite T3; apply A3]).
  assert (Hhd : forall a, a <> b -> hd h5 a = if decide (o = Some a) then set_prev_free (Some b) (hd h a) else hd h a).
  { intros a Ha. transitivity (if decide (o = Some a) then set_prev_free (Some b) (hd h1 a) else hd h1 a); [apply hd_upd_opt|].
    unfold h1. by rewrite hd_upd, (decide_False (P := b = a)) by congruence. }
  assert (Hout : forall f s a, a ∈ F f s -> a <> b) by (intros f s a Ha ->; apply Hn; by eexists _, _).
  assert (Hob : o <> Some b) by (intros E; apply (Hout fl sl b); [eapply first_or_elem; [exact E|done]|done]).
  assert (Hb5 : hd h5 b = set_next_free o (set_prev_free None (set_is_free true (hd h b)))).
  { transitivity (hd h1 b); [etransitivity; [apply hd_upd_opt|by rewrite decide_False]|].
    unfold h1. by rewrite hd_upd, decide_True, (fo_head _ _ HF fl sl Hc) by done. }
  apply free_ok_of.
  - apply (tables_set_bucket fl sl (Some b)) in Ht2 as [A1 A2 A3]. split; [|exact A2|exact A3].
    unfold h5. cbn [sl_bitmap set_sl_bitmap]. rewrite length_zalter. exact A1.
  - intros f s Hfs. change (bucket h5 f s) with (bucket h3 f s). unfold h3. rewrite bucket_set by done. unfold set_list.
    case_decide; [done|]. rewrite <- (fo_head _ _ HF) by done. unfold bucket. by rewrite T3.
  - intros f s Hfs. destruct (decide ((f, s) = (fl, sl))) as [[= -> ->]|Hne].
    + rewrite set_list_eq. apply (dll_push (nf h) (pf h)); [apply HF|by apply HF|unfold pf; by rewrite Hb5|unfold nf; by rewrite Hb5|..];
        intros a Ha; unfold nf, pf; rewrite Hhd by (by eapply Hout); fold o; by destruct (decide (o = Some a)).
    + rewrite set_list_ne by done. eapply dll_ext; [by apply HF|..]; intros a Ha; unfold nf, pf;
        (rewrite Hhd, decide_False; [done| |by eapply Hout]); intros E; eapply (other_class h F fl sl f s a HF Hne Ha), first_or_elem; done.
  - intros f s. unfold set_list. case_decide; [|apply HF]. apply NoDup_cons. split; [|apply HF]. intros Hin. by apply (Hout fl sl b).
  - intros f s a Ha. unfold class. rewrite (phys_view_size _ _ (sp_view _ _ _ _ Hfr a)). fold (class h a).
    unfold set_list in Ha. case_decide as E; [injection E as -> ->|by apply (fo_class _ _ HF)].
    apply elem_of_cons in Ha as [->|Ha]; [done|]. by apply (fo_class _ _ HF).
  - change (fl_bitmap h5) with (bit_set (fl_bitmap h2) fl). rewrite T1. change (fl_bitmap h1) with (fl_bitmap h).
    apply (bitmaps_set _ (sl_map h) (nonempty F) _ _ fl sl (free_bitmaps h F HF) Hc); [|intros f s _; apply nonempty_set].
    intros f. unfold sl_map at 1, h5. cbn [sl_bitmap set_sl_bitmap]. change (sl_bitmap h4) with (sl_bitmap h2). rewrite T2.
    change (sl_bitmap h1) with (sl_bitmap h). apply sl_map_alter; [apply HF|apply Hc].
Qed.

(** ** Removal *)

(** The part of removal that relinks the neighbours of [b]. *)
Definition unlink_prev (b fl sl : Z) (h : KernelHeap) : KernelHeap :=
  match prev_free (hd h b) with
  | Some p => upd_hd p (set_next_free (next_free (hd h b))) h
  | None => set_bucket fl sl (next_free (hd h b)) h
  end.

Definition clear_bits (fl sl : Z) (h : KernelHeap) : KernelHeap :=
  match bucket h fl sl with
  | Some _ => h
  | None =>
      let h := set_sl_bitmap (zalter (fun m => bit_clear m sl) fl (sl_bitmap h)) h in
      if zlookup (sl_bitmap h) fl =? 0 then set_fl_bitmap (bit_clear (fl_bitmap h) fl) h else h
  end.

Lemma hd_unlink_prev b fl sl h a :
  hd (unlink_prev b fl sl h) a = if decide (pf h b = Some a) then set_next_free (nf h b) (hd h a) else hd h a.
Proof. unfold unlink_prev, pf, nf. destruct (prev_free (hd h b)) as [p|]; [apply (hd_upd_opt (Some p))|done]. Qed.

Lemma hd_clear_bits fl sl h a : hd (clear_bits fl sl h) a = hd h a.
Proof. unfold clear_bits. destruct (bucket h fl sl); [done|]. cbv zeta. by destruct (_ =? 0). Qed.

Lemma clear_bits_rest fl sl h :
  blocks (clear_bits fl sl h) = blocks h /\ head_block (clear_bits fl sl h) = head_block h /\
  total_free_memory (clear_bits fl sl h) = total_free_memory h /\ total_size (clear_bits fl sl h) = total_size h.
Proof. unfold clear_bits. destruct (bucket h fl sl); [done|]. cbv zeta. by destruct (_ =? 0). Qed.

Lemma remove_frame b h : pf h b <> Some b -> same_phys b false h (remove_free_block b h).
Proof.
  intros Hp. unfold remove_free_block. destruct (mapping_insert _) as [fl sl]. cbv zeta.
  set (h1 := unlink_prev b fl sl h). set (h2 := upd_opt (next_free (hd h1 b)) (set_prev_free (prev_free (hd h1 b))) h1).
  set (h3 := clear_bits fl sl h2). destruct (clear_bits_rest fl sl h2) as (_ & C1 & C2 & C3). fold h3 in C1, C2, C3.
  destruct (upd_opt_tables (next_free (hd h1 b)) (set_prev_free (prev_free (hd h1 b))) h1) as (_ & _ & _ & U1 & U2 & U3). fold h2 in U1, U2, U3.
  assert (R : head_block h1 = head_block h /\ total_free_memory h1 = total_free_memory h /\ total_size h1 = total_size h)
    by (unfold h1, unlink_prev; by destruct (prev_free (hd h b))). destruct R as (R1 & R2 & R3).
  assert (Hv : forall a, phys_view (hd h3 a) = phys_view (hd h a) /\ is_free (hd h3 a) = is_free (hd h a)).
  { intros a. assert (H1 : phys_view (hd h1 a) = phys_view (hd h a) /\ is_free (hd h1 a) = is_free (hd h a)).
    { unfold h1. rewrite hd_unlink_prev. by case_decide. }
    unfold h3. rewrite hd_clear_bits. unfold h2. rewrite hd_upd_opt. case_decide; [|exact H1]. exact H1. }
  change (same_phys b false h (upd_hd b (fun b => set_next_free None (set_prev_free None (set_is_free false b))) h3)).
  split; try (intros a; rewrite hd_upd; destruct (Hv a) as [V1 V2]; destruct (decide (b = a)) as [->|Hne]).
  - by rewrite <- V1.
  - done.
  - by rewrite decide_True.
  - by rewrite decide_False by congruence.
  - change (head_block h3 = head_block h). congruence.
  - change (total_free_memory h3 = total_free_memory h). congruence.
  - change (total_size h3 = total_size h). congruence.
Qed.

Lemma last_or_app_head (l1 l2 : list Z) (x : Z) : first_or None (l1 ++ x :: l2) = first_or (Some x) l1.
Proof. by destruct l1. Qed.

(** What relinking the predecessor does to the tables. *)
Lemma unlink_prev_tables b h F fl sl l1 l2 :
  free_ok h F -> is_class (fl, sl) -> F fl sl = l1 ++ b :: l2 -> pf h b = last_or None l1 -> nf h b = first_or None l2 ->
  let h1 := unlink_prev b fl sl h in
  fl_bitmap h1 = fl_bitmap h /\ sl_bitmap h1 = sl_bitmap h /\ tables_ok h1 /\
  forall f s, is_class (f, s) -> bucket h1 f s = if decide ((f, s) = (fl, sl)) then first_or None (l1 ++ l2) else bucket h f s.
Proof.
  intros HF Hc HL Ep En. cbv zeta. pose proof (fo_tables _ _ HF) as Ht. unfold unlink_prev. fold (pf h b) (nf h b). rewrite Ep, En.
  destruct (last_or None l1) as [p|] eqn:El.
  - split; [done|]. split; [done|]. split; [by destruct Ht|]. intros f s Hfs.
    change (bucket h f s = if decide ((f, s) = (fl, sl)) then first_or None (l1 ++ l2) else bucket h f s).
    case_decide as E; [injection E as -> ->|done]. rewrite (fo_head _ _ HF) by done. rewrite HL. by destruct l1.
  - split; [done|]. split; [done|]. split; [by apply tables_set_bucket|]. intros f s Hfs. rewrite bucket_set by done.
    case_decide; [|done]. destruct l1 as [|x l1']; [done|]. exfalso. rewrite last_or_cons in El. unfold last_or in El. by destruct (last l1').
Qed.

(** What clearing the bits of an empty list does. *)
Lemma clear_bits_spec fl sl h :
  tables_ok h -> is_class (fl, sl) ->
  let h' := clear_bits fl sl h in
  tables_ok h' /\
  match bucket h fl sl with
  | Some _ => (forall f, sl_map h' f = sl_map h f) /\ fl_bitmap h' = fl_bitmap h
  | None => (forall f, sl_map h' f = if decide (f = fl) then bit_clear (sl_map h fl) sl else sl_map h f) /\
      fl_bitmap h' = if bit_clear (sl_map h fl) sl =? 0 then bit_clear (fl_bitmap h) fl else fl_bitmap h
  end.
Proof.
  intros Ht Hc. cbv zeta. unfold clear_bits. destruct (bucket h fl sl); [done|]. cbv zeta. cbn [sl_bitmap set_sl_bitmap].
  assert (Hsl : forall f, zlookup (zalter (fun m => bit_clear m sl) fl (sl_bitmap h)) f = if decide (f = fl) then bit_clear (sl_map h fl) sl else sl_map h f).
  { intros f. apply sl_map_alter; [apply Ht|apply Hc]. }
  rewrite Hsl, decide_True by done. destruct Ht as [A1 A2 A3].
  destruct (_ =? 0); (split; [split; [cbn; by rewrite length_zalter|done|done]|split; [exact Hsl|done]]).
Qed.

(** The headers after a removal. *)
Lemma hd_remove b h fl sl l1 l2 a :
  class h b = (fl, sl) -> pf h b = last_or None l1 -> nf h b = first_or None l2 -> pf h b <> Some b -> a <> b ->
  hd (remove_free_block b h) a =
    let x := if decide (last_or None l1 = Some a) then set_next_free (first_or None l2) (hd h a) else hd h a in
    if decide (first_or None l2 = Some a) then set_prev_free (last_or None l1) x else x.
Proof.
  intros Ec Ep En Hpb Ha. unfold remove_free_block. change (mapping_insert (size (hd h b))) with (class h b). rewrite Ec. cbv zeta.
  fold (unlink_prev b fl sl h). set (h1 := unlink_prev b fl sl h).
  assert (Hh1b : hd h1 b = hd h b) by (unfold h1; by rewrite hd_unlink_prev, decide_False). rewrite Hh1b. fold (nf h b) (pf h b). rewrite Ep, En.
  set (h2 := upd_opt (first_or None l2) (set_prev_free (last_or None l1)) h1). fold (clear_bits fl sl h2).
  rewrite hd_upd, decide_False by congruence. rewrite hd_clear_bits. unfold h2. rewrite hd_upd_opt. unfold h1. by rewrite hd_unlink_prev, Ep, En.
Qed.

(** The tables after a removal. *)
Lemma remove_tables b h F fl sl l1 l2 :
  free_ok h F -> is_class (fl, sl) -> class h b = (fl, sl) -> F fl sl = l1 ++ b :: l2 ->
  pf h b = last_or None l1 -> nf h b = first_or None l2 -> pf h b <> Some b ->
  let h' := remove_free_block b h in
  tables_ok h' /\ (forall f s, is_class (f, s) -> bucket h' f s = first_or None (set_list F (fl, sl) (l1 ++ l2) f s)) /\
  bitmaps_ok (fl_bitmap h') (sl_map h') (nonempty (set_list F (fl, sl) (l1 ++ l2))).
Proof.
  intros HF Hc Ec HL Ep En Hpb. cbv zeta. unfold remove_free_block. change (mapping_insert (size (hd h b))) with (class h b). rewrite Ec. cbv zeta.
  fold (unlink_prev b fl sl h). destruct (unlink_prev_tables b h F fl sl l1 l2 HF Hc HL Ep En) as (TA & TB & TC & TD). cbv zeta in *.
  set (h1 := unlink_prev b fl sl h) in *. set (h2 := upd_opt _ _ h1). fold (clear_bits fl sl h2).
  destruct (upd_opt_tables (next_free (hd h1 b)) (set_prev_free (prev_free (hd h1 b))) h1) as (T1 & T2 & T3 & _). fold h2 in T1, T2, T3.
  assert (Ht2 : tables_ok h2) by (destruct TC as [A1 A2 A3]; split; [by rewrite T2|by rewrite T3|intros r; rewrite T3; apply A3]).
  assert (Hb2 : forall f s, is_class (f, s) -> bucket h2 f s = first_or None (set_list F (fl, sl) (l1 ++ l2) f s)).
  { intros f s Hfs. transitivity (bucket h1 f s); [unfold bucket; by rewrite T3|]. rewrite TD by done. unfold set_list. case_decide; [done|by apply HF]. }
  assert (Hs2 : forall f, sl_map h2 f = sl_map h f) by (intros f; unfold sl_map; by rewrite T2, TB). assert (Hf2 : fl_bitmap h2 = fl_bitmap h) by congruence.
  destruct (clear_bits_rest fl sl h2) as (C1 & _). destruct (clear_bits_spec fl sl h2 Ht2 Hc) as [Ht3 Hbits]. cbv zeta in *.
  set (h3 := clear_bits fl sl h2) in *. split; [by destruct Ht3|]. split.
  - intros f s Hfs. rewrite <- Hb2 by done. change (bucket h3 f s = bucket h2 f s). unfold bucket. by rewrite C1.
  - change (bitmaps_ok (fl_bitmap h3) (sl_map h3) (nonempty (set_list F (fl, sl) (l1 ++ l2)))). pose proof (free_bitmaps h F HF) as Hbm.
    rewrite Hb2, set_list_eq in Hbits by done. destruct (l1 ++ l2) as [|x l] eqn:El; cbn [first_or] in Hbits; destruct Hbits as [Hsl Hfl]; rewrite Hfl, Hf2.
    + rewrite Hs2. apply (bitmaps_clear _ (sl_map h) (nonempty F) _ _ fl sl Hbm Hc); [|intros f s _; by rewrite nonempty_set].
      intros f. rewrite Hsl, !Hs2. done.
    + apply (bitmaps_ext _ (sl_map h) (nonempty F) _ _ Hbm); [intros f; by rewrite Hsl|]. intros f s _. rewrite nonempty_set.
      case_decide as E; [injection E as -> ->|done]. unfold nonempty. rewrite HL. rewrite !bool_decide_true; [done|by destruct l1|done].
Qed.

Lemma remove_free_ok b h F l1 l2 :
  free_ok h F -> is_class (class h b) -> F (class h b).1 (class h b).2 = l1 ++ b :: l2 ->
  pf h b <> Some b /\ free_ok (remove_free_block b h) (set_list F (class h b) (l1 ++ l2)).
Proof.
  intros HF Hc HL. destruct (class h b) as [fl sl] eqn:Ec. cbn [fst snd] in HL.
  pose proof (fo_seg _ _ HF fl sl Hc) as Hseg. pose proof (fo_nodup _ _ HF fl sl) as Hnd. rewrite HL in Hseg, Hnd.
  destruct (dll_mid _ _ _ _ _ _ _ Hseg) as [Ep En]. pose proof Hnd as (N1 & N12 & [Nb N2]%NoDup_cons)%NoDup_app.
  assert (Hpb : pf h b <> Some b).
  { rewrite Ep. intros E. apply (N12 b); [eapply last_or_elem; [exact E|done]|left]. }
  split; [done|]. pose proof (remove_frame b h Hpb) as Hfr. destruct (remove_tables b h F fl sl l1 l2 HF Hc Ec HL Ep En Hpb) as (Ht & Hb & Hbm).
  pose proof (fun a => hd_remove b h fl sl l1 l2 a Ec Ep En Hpb) as Hhd. cbv zeta in *. set (h' := remove_free_block b h) in *. clearbody h'.
  assert (Hne : forall a, a ∈ l1 ++ l2 -> a <> b).
  { intros a Ha ->. apply elem_of_app in Ha as [Ha|Ha]; [apply (N12 b Ha); left|done]. }
  assert (Hother : forall a, a ∉ l1 ++ b :: l2 -> hd h' a = hd h a).
  { intros a Hn. rewrite Hhd by (intros ->; apply Hn, elem_of_app; right; left).
    rewrite (decide_False (P := first_or None l2 = Some a)), (decide_False (P := last_or None l1 = Some a)); [done|..]; intros E; apply Hn, elem_of_app.
    - left. by eapply last_or_elem.
    - right. right. by eapply first_or_elem. }
  apply free_ok_of; [exact Ht|exact Hb| | | |exact Hbm].
  - intros f s Hfs. destruct (decide ((f, s) = (fl, sl))) as [[= -> ->]|Hd].
    + rewrite set_list_eq. apply (dll_remove (nf h) (pf h) _ _ l1 b l2 Hnd Hseg); intros a Ha; unfold nf, pf; rewrite Hhd by (by apply Hne);
        destruct (decide (last_or None l1 = Some a)), (decide (first_or None l2 = Some a)); done.
    + rewrite set_list_ne by done. eapply dll_ext; [by apply HF|..]; intros a Ha; pose proof (other_class h F fl sl f s a HF Hd Ha) as Hn; rewrite HL in Hn;
        unfold nf, pf; by rewrite Hother.
  - intros f s. unfold set_list. case_decide; [|apply HF]. apply NoDup_app. split; [done|]. split; [|done]. intros a H1 H2. apply (N12 a H1). by right.
  - intros f s a Ha. unfold class. rewrite (phys_view_size _ _ (sp_view _ _ _ _ Hfr a)). fold (class h a).
    unfold set_list in Ha. case_decide as E; [injection E as -> ->|by apply (fo_class _ _ HF)].
    apply (fo_class _ _ HF). rewrite HL. apply elem_of_app in Ha as [Ha|Ha]; apply elem_of_app; [by left|right; by right].
Qed.
