(* ===== verification/HeapOps.v ===== *)
(** The heap's operations preserve its invariant: the physical blocks tile the
    region, and allocation and release are operations on that list of blocks. *)
From S2P Require Import Prelude Dll Heap HeapInv.
Import Heap.

Definition np (h : KernelHeap) (a : Z) : option Z := next_phys (hd h a).
Definition pp (h : KernelHeap) (a : Z) : option Z := prev_phys (hd h a).
Definition bsize (h : KernelHeap) (a : Z) : Z := size (hd h a).

(** * The physical blocks *)

(** The blocks [B] lie one after the other from [a] to [e]. *)
Fixpoint tiles (h : KernelHeap) (a : Z) (B : list Z) (e : Z) : Prop :=
  match B with
  | [] => a = e
  | b :: B => b = a /\ tiles h (a + bsize h b) B e
  end.

Definition block_ok (h : KernelHeap) (b : Z) : Prop :=
  magic (hd h b) = TLSF_MAGIC /\ 32 <= bsize h b /\ bsize h b mod 8 = 0.

Lemma tiles_app h a l1 l2 e : tiles h a (l1 ++ l2) e <-> exists m, tiles h a l1 m /\ tiles h m l2 e.
Proof.
  revert a. induction l1 as [|b l1 IH]; intros a; cbn [app tiles].
  - split; [by exists a|by intros (m & -> & ?)].
  - rewrite IH. naive_solver.
Qed.

Lemma tiles_ext h h' a B e : tiles h a B e -> (forall b, b ∈ B -> bsize h' b = bsize h b) -> tiles h' a B e.
Proof.
  revert a. induction B as [|b B IH]; intros a; cbn [tiles]; [done|]. intros [-> Ht] Hb. split; [done|].
  rewrite Hb by set_solver. apply IH; [done|set_solver].
Qed.

Lemma tiles_bounds h a B e :
  tiles h a B e -> (forall b, b ∈ B -> 32 <= bsize h b) -> a <= e /\ forall b, b ∈ B -> a <= b /\ b + bsize h b <= e.
Proof.
  revert a. induction B as [|b B IH]; intros a; cbn [tiles]; [intros -> _; split; [lia|set_solver]|].
  intros [-> Ht] Hb. destruct (IH _ Ht) as [H1 H2]; [set_solver|]. pose proof (Hb a ltac:(set_solver)). split; [lia|].
  intros c [->|Hc]%elem_of_cons; [lia|]. apply H2 in Hc. lia.
Qed.

Lemma tiles_NoDup h a B e : tiles h a B e -> (forall b, b ∈ B -> 32 <= bsize h b) -> NoDup B.
Proof.
  revert a. induction B as [|b B IH]; intros a; cbn [tiles]; [constructor|]. intros [-> Ht] Hb.
  apply NoDup_cons. split; [|apply (IH _ Ht); set_solver]. intros Hin.
  destruct (tiles_bounds _ _ _ _ Ht) as [_ H2]; [set_solver|]. apply H2 in Hin. pose proof (Hb a ltac:(set_solver)). lia.
Qed.

(** The place of a block among the others. *)
Lemma tiles_mid h a l1 b l2 e :
  tiles h a (l1 ++ b :: l2) e -> (forall c, c ∈ l1 ++ b :: l2 -> 32 <= bsize h c) ->
  a <= b /\ b + bsize h b <= e /\ (forall c, c ∈ l1 -> a <= c /\ c + bsize h c <= b) /\
  (forall c, c ∈ l2 -> b + bsize h b <= c /\ c + bsize h c <= e).
Proof.
  intros (m & H1 & [-> H2])%tiles_app Hb. destruct (tiles_bounds _ _ _ _ H1) as [B1 C1]; [set_solver|].
  destruct (tiles_bounds _ _ _ _ H2) as [B2 C2]; [set_solver|]. split; [lia|]. split; [lia|]. split; [exact C1|exact C2].
Qed.

(** [x] is a block being inserted: free, but not yet in its free list. *)
Record heap_mid (start : Z) (h : KernelHeap) (B : list Z) (F : Lists) (x : option Z) : Prop := {
  hm_phys : seg (np h) (pp h) None B None;
  hm_start : head_block h = Some start /\ 0 < start /\ start mod 8 = 0 /\ B <> [];
  hm_tiles : tiles h start B (start + total_size h);
  hm_bound : start + total_size h < 4294967296 /\ total_size h < MAX_SIZE;
  hm_block : forall b, b ∈ B -> block_ok h b;
  hm_free : free_ok h F;
  hm_in : forall b, in_free F b <-> b ∈ B /\ is_free (hd h b) = true /\ Some b <> x;
}.

Lemma mid_size start h B F x b : heap_mid start h B F x -> b ∈ B -> 32 <= bsize h b.
Proof. intros H Hb. by apply (hm_block _ _ _ _ _ H). Qed.

Lemma mid_NoDup start h B F x : heap_mid start h B F x -> NoDup B.
Proof. intros H. eapply tiles_NoDup; [apply H|]. intros. by eapply mid_size. Qed.

Lemma mid_range start h B F x b :
  heap_mid start h B F x -> b ∈ B -> start <= b /\ b + bsize h b <= start + total_size h /\ 32 <= bsize h b < MAX_SIZE.
Proof.
  intros H Hb. destruct (tiles_bounds _ _ _ _ (hm_tiles _ _ _ _ _ H)) as [_ Hr]; [intros; by eapply mid_size|].
  apply Hr in Hb as Hb'. pose proof (mid_size _ _ _ _ _ _ H Hb). pose proof (hm_bound _ _ _ _ _ H). lia.
Qed.

Lemma mid_class start h B F x b : heap_mid start h B F x -> b ∈ B -> is_class (class h b).
Proof. intros H Hb. apply mapping_insert_spec. eapply mid_range; [exact H|exact Hb]. Qed.

(** ** Free-list operations *)

Lemma phys_view_all h h' a :
  phys_view (hd h' a) = phys_view (hd h a) ->
  magic (hd h' a) = magic (hd h a) /\ bsize h' a = bsize h a /\ np h' a = np h a /\ pp h' a = pp h a /\
  requested_size (hd h' a) = requested_size (hd h a).
Proof. unfold phys_view, bsize, np, pp. intros E. by simplify_eq. Qed.

Lemma mid_same_phys start h h' B F F' x x' b flag :
  heap_mid start h B F x -> same_phys b flag h h' -> free_ok h' F' ->
  (forall a, in_free F' a <-> a ∈ B /\ is_free (hd h' a) = true /\ Some a <> x') -> heap_mid start h' B F' x'.
Proof.
  intros [P S T Bd K FO I] Hs Hf Hin. pose proof (fun a => phys_view_all h h' a (sp_view _ _ _ _ Hs a)) as Hv. split; try done.
  - eapply dll_ext; [exact P|..]; intros a _; apply Hv.
  - by rewrite (sp_head _ _ _ _ Hs).
  - rewrite (sp_total _ _ _ _ Hs). eapply tiles_ext; [exact T|]. intros a _. apply Hv.
  - by rewrite (sp_total _ _ _ _ Hs).
  - intros a Ha. destruct (K a Ha) as (K1 & K2 & K3). destruct (Hv a) as (V1 & V2 & _). unfold block_ok. by rewrite V1, V2.
Qed.

Lemma mid_insert start h B F x b :
  heap_mid start h B F x -> b ∈ B -> ~ in_free F b -> (forall c, c ∈ B -> Some c = x -> c = b) ->
  exists F', heap_mid start (insert_free_block b h) B F' None.
Proof.
  intros Hm Hb Hn Hx. pose proof (mid_class _ _ _ _ _ _ Hm Hb) as Hc. pose proof (hm_free _ _ _ _ _ Hm) as HF.
  eexists. eapply (mid_same_phys start h); [exact Hm|apply insert_frame|by apply insert_free_ok|]. intros a.
  assert (E : in_free (set_list F (class h b) (b :: F (class h b).1 (class h b).2)) a <-> a = b \/ in_free F a).
  { split.
    - intros (fl & sl & Ha). unfold set_list in Ha. case_decide; [|right; by eexists _, _].
      apply elem_of_cons in Ha as [->|Ha]; [by left|right; by eexists _, _].
    - intros [->|(fl & sl & Ha)].
      + exists (class h b).1, (class h b).2. unfold set_list. rewrite decide_True by by destruct (class h b). set_solver.
      + exists fl, sl. unfold set_list. case_decide as E; [|done]. rewrite <- E. cbn. set_solver. }
  rewrite E, (sp_flag _ _ _ _ (insert_frame b h)), (hm_in _ _ _ _ _ Hm). destruct (decide (a = b)) as [->|Hne]; [naive_solver|].
  split; [intros [?|(? & ? & ?)]; [done|done]|]. intros (Ha & Hf & _). right. split; [done|]. split; [done|].
  intros Ex. by apply Hne, Hx.
Qed.

Lemma mid_remove start h B F x b :
  heap_mid start h B F x -> b ∈ B -> is_free (hd h b) = true -> Some b <> x ->
  same_phys b false h (remove_free_block b h) /\ exists F', heap_mid start (remove_free_block b h) B F' x.
Proof.
  intros Hm Hb Hfr Hx. pose proof (mid_class _ _ _ _ _ _ Hm Hb) as Hc. pose proof (hm_free _ _ _ _ _ Hm) as HF.
  assert (Hin : b ∈ F (class h b).1 (class h b).2) by by apply (in_free_class h), (hm_in _ _ _ _ _ Hm).
  apply list_elem_of_split in Hin as (l1 & l2 & HL). destruct (remove_free_ok b h F l1 l2 HF Hc HL) as [Hp HF'].
  pose proof (remove_frame b h Hp) as Hs. split; [done|]. eexists. eapply (mid_same_phys start h); [exact Hm|exact Hs|exact HF'|].
  pose proof (fo_nodup _ _ HF (class h b).1 (class h b).2) as Hnd. rewrite HL in Hnd.
  intros a. rewrite (sp_flag _ _ _ _ Hs). transitivity (in_free F a /\ a <> b).
  - split.
    + intros (fl & sl & Ha). unfold set_list in Ha. case_decide as E.
      * split; [|intros ->; apply NoDup_app in Hnd as (_ & N & [? _]%NoDup_cons); set_solver].
        exists (class h b).1, (class h b).2. rewrite HL. set_solver.
      * split; [by eexists _, _|]. intros ->. apply (fo_class _ _ HF) in Ha as [_ ?]. congruence.
    + intros [(fl & sl & Ha) Hne]. exists fl, sl. unfold set_list. case_decide as E; [|done].
      rewrite <- E in HL. cbn in HL. rewrite HL in Ha. set_solver.
  - rewrite (hm_in _ _ _ _ _ Hm). destruct (decide (a = b)); naive_solver.
Qed.

(** What a reader of the heap sees of a block. *)
Definition cell (h : KernelHeap) (b : Z) : Z * bool * Z := (bsize h b, is_free (hd h b), requested_size (hd h b)).

(** The rest of the state. *)
Definition same_rest (h h' : KernelHeap) : Prop :=
  head_block h' = head_block h /\ total_free_memory h' = total_free_memory h /\ total_size h' = total_size h.

Lemma same_phys_cell b flag h h' a : same_phys b flag h h' -> a <> b -> cell h' a = cell h a.
Proof.
  intros Hs Hne. destruct (phys_view_all h h' a (sp_view _ _ _ _ Hs a)) as (_ & E & _ & _ & R).
  unfold cell. by rewrite E, R, (sp_flag _ _ _ _ Hs), decide_False.
Qed.

Lemma same_phys_rest b flag h h' : same_phys b flag h h' -> same_rest h h'.
Proof. intros [? ? ? ? ?]. done. Qed.

(** ** Merging two neighbours *)

Lemma nodup_mid (l1 l2 : list Z) a b :
  NoDup (l1 ++ a :: b :: l2) -> a <> b /\ NoDup l1 /\ NoDup l2 /\ (forall c, c ∈ l1 -> c <> a /\ c <> b /\ c ∉ l2) /\
  (a ∉ l2) /\ (b ∉ l2) /\ NoDup (l1 ++ a :: l2).
Proof.
  intros (N1 & N12 & [Na [Nb N2]%NoDup_cons]%NoDup_cons)%NoDup_app. split; [set_solver|]. split; [done|]. split; [done|].
  split; [intros c Hc; specialize (N12 c Hc); set_solver|]. split; [set_solver|]. split; [done|].
  apply NoDup_app. split; [done|]. split; [set_solver|]. apply NoDup_cons. split; [set_solver|done].
Qed.

(** The updates of a merge, header by header. *)
Lemma hd_absorb start h l1 a b l2 F x c :
  heap_mid start h (l1 ++ a :: b :: l2) F x ->
  hd (absorb a b h) c =
    if decide (c = a) then set_next_phys (first_or None l2) (set_size (bsize h a + bsize h b) (hd h a))
    else if decide (first_or None l2 = Some c) then set_prev_phys (Some a) (hd h c) else hd h c.
Proof.
  intros Hm. pose proof (mid_NoDup _ _ _ _ _ Hm) as Hnd. apply nodup_mid in Hnd as (Hab & _ & _ & _ & Ha & Hb & _).
  pose proof (hm_phys _ _ _ _ _ Hm) as Hs. assert (En : np h b = first_or None l2).
  { replace (l1 ++ a :: b :: l2) with ((l1 ++ [a]) ++ b :: l2) in Hs by by rewrite <- app_assoc. by apply dll_mid in Hs as [_ ?]. }
  assert (Ew : wrap32 (bsize h a + bsize h b) = bsize h a + bsize h b).
  { apply wrap32_small. destruct (mid_range _ _ _ _ _ a Hm) as (_ & _ & R1); [set_solver|].
    destruct (mid_range _ _ _ _ _ b Hm) as (_ & _ & R2); [set_solver|]. unfold is_u32, MAX_SIZE in *. lia. }
  unfold absorb. fold (np h b). set (h1 := upd_hd a _ h).
  assert (H1 : forall c, hd h1 c = if decide (c = a) then set_next_phys (first_or None l2) (set_size (bsize h a + bsize h b) (hd h a)) else hd h c).
  { intros d. unfold h1. rewrite hd_upd. fold (bsize h a) (bsize h b) (np h b). rewrite Ew, En.
    destruct (decide (a = d)) as [->|]; [by rewrite decide_True|by rewrite decide_False by congruence]. }
  assert (E1 : next_phys (hd h1 b) = first_or None l2) by (rewrite H1, decide_False by congruence; done).
  rewrite E1, hd_upd_opt, H1. destruct (decide (c = a)) as [->|]; [|done].
  rewrite decide_False; [done|]. intros E. apply Ha. eapply first_or_elem; [exact E|done].
Qed.

Lemma absorb_rest a b h :
  same_rest h (absorb a b h) /\ fl_bitmap (absorb a b h) = fl_bitmap h /\ sl_bitmap (absorb a b h) = sl_bitmap h /\
  blocks (absorb a b h) = blocks h.
Proof.
  unfold absorb. cbv zeta. set (h1 := upd_hd a _ h).
  destruct (upd_opt_tables (next_phys (hd h1 b)) (set_prev_phys (Some a)) h1) as (-> & -> & -> & E1 & E2 & E3). done.
Qed.

Lemma mid_absorb start h l1 a b l2 F x :
  heap_mid start h (l1 ++ a :: b :: l2) F x -> ~ in_free F a -> ~ in_free F b ->
  heap_mid start (absorb a b h) (l1 ++ a :: l2) F x /\
  cell (absorb a b h) a = (bsize h a + bsize h b, is_free (hd h a), requested_size (hd h a)) /\
  (forall c, c <> a -> cell (absorb a b h) c = cell h c).
Proof.
  intros Hm Hna Hnb. pose proof (fun c => hd_absorb _ _ _ _ _ _ _ _ c Hm) as Hhd. pose proof (mid_NoDup _ _ _ _ _ Hm) as Hnd.
  apply nodup_mid in Hnd as (Hab & N1 & N2 & Nl & Ha2 & Hb2 & N').
  destruct (absorb_rest a b h) as ((R1 & R2 & R3) & T1 & T2 & T3). set (h' := absorb a b h) in *. clearbody h'.
  assert (Hsz : forall c, c <> a -> bsize h' c = bsize h c) by (intros c Hc; unfold bsize; rewrite Hhd, decide_False by done; by case_decide).
  assert (Hsa : bsize h' a = bsize h a + bsize h b) by (unfold bsize at 1; by rewrite Hhd, decide_True).
  assert (Hfl : forall c, is_free (hd h' c) = is_free (hd h c) /\ magic (hd h' c) = magic (hd h c) /\ requested_size (hd h' c) = requested_size (hd h c)).
  { intros c. rewrite Hhd. destruct (decide (c = a)) as [->|]; [done|]. by case_decide. }
  assert (Hfirst : forall c, c ∉ l2 -> first_or None l2 <> Some c) by (intros c Hc E; apply Hc; eapply first_or_elem; [exact E|done]).
  split; [|split].
  2:{ unfold cell. destruct (Hfl a) as (-> & _ & ->). by rewrite Hsa. }
  2:{ intros c Hc. unfold cell. destruct (Hfl c) as (-> & _ & ->). by rewrite Hsz. }
  destruct Hm as [P S T Bd K FO I]. split.
  - apply dll_app in P as [P1 (P2 & _ & (_ & _ & P4))]. apply dll_app. split; [|split; [|split]].
    + eapply dll_ext; [exact P1|..]; intros c Hc; destruct (Nl c Hc) as (C1 & _ & C3); unfold np, pp;
        rewrite Hhd, decide_False, decide_False by auto; done.
    + unfold pp. rewrite Hhd, decide_True by done. exact P2.
    + unfold np. by rewrite Hhd, decide_True.
    + apply (dll_relink _ _ _ _ _ _ _ (Some a) None N2 P4); intros c Hc; assert (c <> a) by congruence.
      * unfold pp. rewrite Hhd, decide_False by done. destruct l2 as [|y l2']; [by apply elem_of_nil in Hc|].
        cbn [first_or head]. by destruct (decide (Some y = Some c)).
      * unfold np. rewrite Hhd, decide_False by done. transitivity (np h c); [unfold np; by destruct (decide (first_or None l2 = Some c))|].
        destruct (decide (last l2 = Some c)) as [El|]; [|done]. apply last_Some in El as [l' El]. rewrite El in P4.
        by apply dll_mid in P4 as [_ ?].
  - rewrite R1. destruct S as (S1 & S2 & S3 & _). split; [done|]. split; [done|]. split; [done|]. by destruct l1.
  - rewrite R3. apply tiles_app in T as (m & T1' & -> & -> & T4). apply tiles_app. exists m. split.
    + eapply tiles_ext; [exact T1'|]. intros c Hc. apply Hsz. by destruct (Nl c Hc).
    + split; [done|]. rewrite Hsa. rewrite Z.add_assoc. eapply tiles_ext; [exact T4|]. intros c Hc. apply Hsz. congruence.
  - by rewrite R3.
  - intros c Hc. assert (Hc' : c ∈ l1 ++ a :: b :: l2) by set_solver. destruct (K c Hc') as (K1 & K2 & K3).
    destruct (Hfl c) as (_ & M & _). unfold block_ok. rewrite M. split; [done|].
    destruct (decide (c = a)) as [->|Hne]; [|by rewrite Hsz]. rewrite Hsa. destruct (K b) as (_ & B1 & B2); [set_solver|].
    split; [lia|]. Z.to_euclidean_division_equations. lia.
  - apply (free_ok_ext h); try done. intros c Hc. assert (c <> a) by congruence.
    unfold nf, pf. split; [|split]; [..|by apply Hsz]; rewrite Hhd, decide_False by done; by case_decide.
  - intros c. destruct (Hfl c) as (-> & _). rewrite I. split.
    + intros (Hc & Hf & Hx). split; [|done]. apply elem_of_app in Hc as [Hc|Hc]; [set_solver|].
      apply elem_of_cons in Hc as [->|Hc]; [set_solver|]. apply elem_of_cons in Hc as [->|Hc]; [|set_solver].
      exfalso. apply Hnb, I. split; [set_solver|done].
    + intros (Hc & Hf & Hx). split; [set_solver|done].
Qed.

(** ** Splitting a block *)

(** [split] before the remainder enters its free list. *)
Definition carve (block required_space : Z) (h : KernelHeap) : KernelHeap :=
  let rem := block + required_space in
  let h := upd_hd rem (fun b => set_next_phys (next_phys (hd h block)) (set_prev_phys (Some block)
             (set_is_free true (set_requested_size 0 (set_size (size (hd h block) - required_space)
             (set_magic TLSF_MAGIC b)))))) h in
  let h := upd_opt (next_phys (hd h block)) (set_prev_phys (Some rem)) h in
  upd_hd block (fun b => set_size required_space (set_next_phys (Some rem) b)) h.

Lemma split_carve b r h :
  is_u32 (b + r) -> is_u32 (bsize h b - r) -> split b r h = insert_free_block (b + r) (carve b r h).
Proof. unfold bsize. intros H1 H2. unfold split. by rewrite (wrap32_small _ H1), (wrap32_small _ H2). Qed.

Lemma carve_rest b r h :
  same_rest h (carve b r h) /\ fl_bitmap (carve b r h) = fl_bitmap h /\ sl_bitmap (carve b r h) = sl_bitmap h /\
  blocks (carve b r h) = blocks h.
Proof.
  unfold carve. cbv zeta. set (h1 := upd_hd (b + r) _ h).
  destruct (upd_opt_tables (next_phys (hd h1 b)) (set_prev_phys (Some (b + r))) h1) as (E1 & E2 & E3 & E4 & E5 & E6). done.
Qed.

(** The remainder is a new address. *)
Lemma rem_fresh start h l1 b l2 F x r :
  heap_mid start h (l1 ++ b :: l2) F x -> 0 < r < bsize h b -> b + r ∉ l1 ++ b :: l2.
Proof.
  intros Hm Hr Hin. destruct (tiles_mid _ _ _ _ _ _ (hm_tiles _ _ _ _ _ Hm)) as (_ & _ & T1 & T2); [intros; by eapply mid_size|].
  apply elem_of_app in Hin as [Hin|Hin].
  - apply T1 in Hin as H. pose proof (mid_size _ _ _ _ _ (b + r) Hm ltac:(set_solver)). lia.
  - apply elem_of_cons in Hin as [?|Hin]; [lia|]. apply T2 in Hin. lia.
Qed.

Lemma hd_carve start h l1 b l2 F x r c :
  heap_mid start h (l1 ++ b :: l2) F x -> 0 < r < bsize h b ->
  hd (carve b r h) c =
    if decide (c = b) then set_size r (set_next_phys (Some (b + r)) (hd h b))
    else if decide (c = b + r) then set_next_phys (first_or None l2) (set_prev_phys (Some b) (set_is_free true
      (set_requested_size 0 (set_size (bsize h b - r) (set_magic TLSF_MAGIC (hd h (b + r)))))))
    else if decide (first_or None l2 = Some c) then set_prev_phys (Some (b + r)) (hd h c) else hd h c.
Proof.
  intros Hm Hr. pose proof (rem_fresh _ _ _ _ _ _ _ _ Hm Hr) as Hfresh. pose proof (mid_NoDup _ _ _ _ _ Hm) as Hnd.
  apply NoDup_app in Hnd as (_ & _ & [Hb _]%NoDup_cons).
  assert (En : np h b = first_or None l2) by (pose proof (hm_phys _ _ _ _ _ Hm) as Hs; by apply dll_mid in Hs as [_ ?]).
  assert (Hfirst : forall c, c ∉ l2 -> first_or None l2 <> Some c) by (intros d Hd E; apply Hd; eapply first_or_elem; [exact E|done]).
  unfold carve. cbv zeta. fold (np h b) (bsize h b). rewrite En. set (h1 := upd_hd (b + r) _ h).
  assert (H1 : forall d, d <> b + r -> hd h1 d = hd h d) by (intros d Hd; unfold h1; by rewrite hd_upd, decide_False by congruence).
  assert (E1 : next_phys (hd h1 b) = first_or None l2) by (rewrite H1 by lia; exact En). rewrite E1.
  rewrite hd_upd, !hd_upd_opt. destruct (decide (c = b)) as [->|Hcb].
  { rewrite decide_True by done. rewrite decide_False by (apply Hfirst; done). by rewrite H1 by lia. }
  rewrite (decide_False (P := b = c)) by congruence. destruct (decide (c = b + r)) as [->|Hcr].
  { rewrite decide_False by (apply Hfirst; set_solver). unfold h1. by rewrite hd_upd, decide_True. }
  by rewrite H1.
Qed.

(** The three kinds of headers after the cut: the block, the remainder, the rest. *)
Lemma carve_views start h l1 b l2 F x r :
  heap_mid start h (l1 ++ b :: l2) F x -> 0 < r < bsize h b ->
  let h' := carve b r h in
  (cell h' b = (r, is_free (hd h b), requested_size (hd h b)) /\ magic (hd h' b) = magic (hd h b) /\ np h' b = Some (b + r) /\ pp h' b = pp h b) /\
  (cell h' (b + r) = (bsize h b - r, true, 0) /\ magic (hd h' (b + r)) = TLSF_MAGIC /\ np h' (b + r) = first_or None l2 /\ pp h' (b + r) = Some b) /\
  (forall c, c <> b -> c <> b + r -> cell h' c = cell h c /\ magic (hd h' c) = magic (hd h c) /\ np h' c = np h c /\ nf h' c = nf h c /\ pf h' c = pf h c /\
     pp h' c = if decide (first_or None l2 = Some c) then Some (b + r) else pp h c).
Proof.
  intros Hm Hr. cbv zeta. pose proof (fun c => hd_carve _ _ _ _ _ _ _ _ c Hm Hr) as Hhd. set (h' := carve b r h) in *. clearbody h'.
  assert (b + r <> b) by lia. split; [|split].
  - unfold cell, np, pp, bsize. by rewrite Hhd, decide_True.
  - unfold cell, bsize at 1, np, pp. by rewrite Hhd, decide_False, decide_True.
  - intros c C1 C2. unfold cell, bsize, np, pp, nf, pf. rewrite Hhd, decide_False, decide_False by done.
    destruct (decide (first_or None l2 = Some c)); done.
Qed.

Lemma mid_carve start h l1 b l2 F r :
  heap_mid start h (l1 ++ b :: l2) F None -> is_free (hd h b) = false ->
  32 <= r -> r mod 8 = 0 -> r + 32 <= bsize h b ->
  heap_mid start (carve b r h) (l1 ++ b :: b + r :: l2) F (Some (b + r)) /\
  cell (carve b r h) b = (r, false, requested_size (hd h b)) /\ cell (carve b r h) (b + r) = (bsize h b - r, true, 0) /\
  (forall c, c <> b -> c <> b + r -> cell (carve b r h) c = cell h c).
Proof.
  intros Hm Hfr Hr1 Hr8 Hr2. assert (Hr : 0 < r < bsize h b) by lia. pose proof (rem_fresh _ _ _ _ _ _ _ _ Hm Hr) as Hfresh.
  destruct (carve_views _ _ _ _ _ _ _ r Hm Hr) as ((Cb & Mb & Nxb & Ppb) & (Cr & Mr & Nxr & Ppr) & Ho). cbv zeta in *. rewrite Hfr in Cb.
  pose proof (mid_NoDup _ _ _ _ _ Hm) as Hnd. apply NoDup_app in Hnd as (N1 & N12 & [Nb N2]%NoDup_cons).
  destruct (carve_rest b r h) as ((R1 & R2 & R3) & T1 & T2 & T3). set (h' := carve b r h) in *. clearbody h'.
  assert (Hl1 : forall c, c ∈ l1 -> c <> b /\ c <> b + r /\ first_or None l2 <> Some c).
  { intros c Hc. specialize (N12 c Hc) as Nc. split; [intros ->; apply Nc; left|]. split; [intros ->; apply Hfresh, elem_of_app; by left|].
    intros E. apply Nc. right. eapply first_or_elem; [exact E|done]. }
  assert (Hl2 : forall c, c ∈ l2 -> c <> b /\ c <> b + r) by (intros c Hc; split; [by intros ->|intros ->; apply Hfresh, elem_of_app; right; by right]).
  assert (Hsz : forall c, c <> b -> c <> b + r -> bsize h' c = bsize h c) by (intros c C1 C2; destruct (Ho c C1 C2) as [E _]; unfold cell in E; congruence).
  assert (Hszb : bsize h' b = r) by (unfold cell in Cb; congruence). assert (Hszr : bsize h' (b + r) = bsize h b - r) by (unfold cell in Cr; congruence).
  split; [|split; [exact Cb|split; [exact Cr|intros; by apply Ho]]].
  destruct Hm as [P S T Bd K FO I]. split.
  - apply dll_app in P as [P1 (P2 & P3 & P4)]. apply dll_app. split; [|split; [|split; [|split; [|split]]]].
    + eapply dll_ext; [exact P1|..]; intros c Hc; destruct (Hl1 c Hc) as (C1 & C2 & C3);
        destruct (Ho c C1 C2) as (_ & _ & E3 & _ & _ & E6); [done|by rewrite E6, decide_False].
    + by rewrite Ppb.
    + done.
    + done.
    + done.
    + apply (dll_relink _ _ _ _ _ _ _ (Some (b + r)) None N2 P4); intros c Hc; destruct (Hl2 c Hc) as [C1 C2].
      * destruct (Ho c C1 C2) as (_ & _ & _ & _ & _ & ->). by destruct l2.
      * destruct (Ho c C1 C2) as (_ & _ & -> & _). destruct (decide (last l2 = Some c)) as [El|]; [|done].
        apply last_Some in El as [l' El]. rewrite El in P4. by apply dll_mid in P4 as [_ ?].
  - rewrite R1. destruct S as (S1 & S2 & S3 & _). split; [done|]. split; [done|]. split; [done|]. by destruct l1.
  - rewrite R3. apply tiles_app in T as (m & T1' & -> & T4). apply tiles_app. exists m. split.
    + eapply tiles_ext; [exact T1'|]. intros c Hc. apply Hsz; by destruct (Hl1 c Hc) as (? & ? & ?).
    + split; [done|]. rewrite Hszb. split; [done|]. rewrite Hszr. replace (m + r + (bsize h m - r)) with (m + bsize h m) by lia.
      eapply tiles_ext; [exact T4|]. intros c Hc. apply Hsz; by destruct (Hl2 c Hc).
  - by rewrite R3.
  - intros c Hc. destruct (decide (c = b)) as [->|C1].
    { destruct (K b ltac:(set_solver)) as (K1 & _). unfold block_ok. rewrite Hszb, Mb. split; [done|]. split; [lia|done]. }
    destruct (decide (c = b + r)) as [->|C2].
    { destruct (K b ltac:(set_solver)) as (_ & _ & K3). unfold block_ok. rewrite Hszr. split; [done|]. split; [lia|].
      Z.to_euclidean_division_equations. lia. }
    destruct (K c ltac:(set_solver)) as (K1 & K2 & K3). destruct (Ho c C1 C2) as (_ & M & _). unfold block_ok. by rewrite M, Hsz.
  - apply (free_ok_ext h); try done. intros c Hc%I. destruct Hc as (Hc & Hf & _). assert (C1 : c <> b) by congruence.
    assert (C2 : c <> b + r) by congruence. destruct (Ho c C1 C2) as (_ & _ & _ & E4 & E5 & _). split; [done|]. split; [done|]. by apply Hsz.
  - intros c. rewrite I. destruct (decide (c = b + r)) as [->|C2]; [split; [intros (? & _)|intros (_ & _ & ?)]; done|].
    destruct (decide (c = b)) as [->|C1].
    { apply (f_equal (fun x => x.1.2)) in Cb. cbn in Cb. rewrite Cb, Hfr. naive_solver. }
    destruct (Ho c C1 C2) as (E & _). unfold cell in E. injection E as _ -> _.
    split; intros (Hc & Hf & _); (split; [set_solver|]; split; [done|congruence]).
Qed.
