(* ===== verification/HeapSpec.v ===== *)
(** The heap against an abstract specification: a list of address, size and
    state, on which allocation takes (part of) a free block and release fuses a
    block with its free neighbours. *)
From S2P Require Import Prelude Dll Heap HeapInv HeapOps.
Import Heap.

(** * The abstract heap *)

(** A cell is an address, a size and whether the block is free. *)
Definition view (h : KernelHeap) (B : list Z) : list (Z * Z * bool) := map (fun b => (b, bsize h b, is_free (hd h b))) B.

(** Taking [r] bytes of a free block of [s] bytes at [b]. *)
Definition take_block (r b s : Z) : list (Z * Z * bool) :=
  if r + 40 <=? s then [(b, r, false); (b + r, s - r, true)] else [(b, s, false)].

(** Fusing a freed block with its right and left neighbours. *)
Definition fuse_right (b s : Z) (v : list (Z * Z * bool)) : list (Z * Z * bool) :=
  match v with
  | (_, sn, true) :: v => (b, s + sn, true) :: v
  | _ => (b, s, true) :: v
  end.

Fixpoint fuse (v1 : list (Z * Z * bool)) (b s : Z) (v2 : list (Z * Z * bool)) : list (Z * Z * bool) :=
  match v1 with
  | [] => fuse_right b s v2
  | [(p, sp, true)] => match fuse_right b s v2 with (_, s', _) :: v => (p, sp + s', true) :: v | [] => [] end
  | c :: v1 => c :: fuse v1 b s v2
  end.

(** No two neighbours are free; [p] tells whether the block before is. *)
Fixpoint coalesced (p : bool) (v : list (Z * Z * bool)) : Prop :=
  match v with
  | [] => True
  | (_, _, f) :: v => p && f = false /\ coalesced f v
  end.

Definition last_free (p : bool) (v : list (Z * Z * bool)) : bool := match last v with Some (_, _, f) => f | None => p end.

Lemma last_free_cons p a s f v : last_free p ((a, s, f) :: v) = last_free f v.
Proof. unfold last_free. destruct v as [|c v]; [done|]. rewrite last_cons_cons.
  destruct (last (c :: v)) as [[[? ?] ?]|] eqn:E; [done|]. by apply last_None in E.
Qed.

Lemma coalesced_app p v1 v2 : coalesced p (v1 ++ v2) <-> coalesced p v1 /\ coalesced (last_free p v1) v2.
Proof.
  revert p. induction v1 as [|[[a s] f] v1 IH]; intros p; cbn [app coalesced]; [by intuition|].
  rewrite IH, last_free_cons. tauto.
Qed.

Lemma coalesced_weaken p v : coalesced p v -> coalesced false v.
Proof. by destruct v as [|[[a s] f] v]; [|intros [_ ?]]. Qed.

(** What [get_free_memory] counts: all of a free block, 32 bytes of a used one. *)
Definition weight (c : Z * Z * bool) : Z := if c.2 then c.1.2 else 32.
Definition counted (v : list (Z * Z * bool)) : Z := foldr (fun c s => weight c + s) 0 v.

Lemma counted_app v1 v2 : counted (v1 ++ v2) = counted v1 + counted v2.
Proof. induction v1 as [|c v1 IH]; cbn; [done|]. fold (counted (v1 ++ v2)) (counted v1). rewrite IH. lia. Qed.

Lemma counted_cons c v : counted (c :: v) = weight c + counted v.
Proof. done. Qed.

(** ** Fusing *)

Definition starts_free (v : list (Z * Z * bool)) : bool := match v with (_, _, true) :: _ => true | _ => false end.

Lemma coalesced_false_true v : starts_free v = false -> coalesced false v -> coalesced true v.
Proof. destruct v as [|[[a s] []] v]; done. Qed.

Lemma fuse_snoc v1 p sp f b s v2 :
  fuse (v1 ++ [(p, sp, f)]) b s v2 =
  if f then v1 ++ match fuse_right b s v2 with (_, s', _) :: v => (p, sp + s', true) :: v | [] => [] end
  else v1 ++ (p, sp, false) :: fuse_right b s v2.
Proof.
  induction v1 as [|[[a sa] fa] v1 IH]; cbn [app]; [by destruct f|].
  assert (E : fuse ((a, sa, fa) :: v1 ++ [(p, sp, f)]) b s v2 = (a, sa, fa) :: fuse (v1 ++ [(p, sp, f)]) b s v2)
    by (cbn [fuse]; by destruct fa, (v1 ++ [(p, sp, f)]) eqn:E; [destruct v1| | |]).
  rewrite E, IH. by destruct f.
Qed.

(** Releasing a block just taken restores the heap. *)
Lemma fuse_take v1 b s r v2 :
  coalesced false (v1 ++ (b, s, true) :: v2) -> 0 <= r ->
  exists b1 s1 v', take_block r b s = (b1, s1, false) :: v' /\ fuse v1 b1 s1 (v' ++ v2) = v1 ++ (b, s, true) :: v2.
Proof.
  intros [_ [Hl Hc]]%coalesced_app Hr.
  assert (Hright : starts_free v2 = false) by (destruct v2 as [|[[a sa] []] v2]; cbn in *; [done|by destruct Hc|done]).
  assert (Hfuse : forall v' s1, fuse_right b s1 (v' ++ v2) = (b, s, true) :: v2 -> fuse v1 b s1 (v' ++ v2) = v1 ++ (b, s, true) :: v2).
  { intros v' s1 E. destruct v1 as [|c v1 _] using rev_ind; [exact E|]. destruct c as [[p sp] f].
    unfold last_free in Hl. rewrite last_snoc in Hl. destruct f; [done|]. rewrite fuse_snoc, E. by rewrite <- app_assoc. }
  unfold take_block. destruct (_ <=? _).
  - exists b, r, [(b + r, s - r, true)]. split; [done|]. apply Hfuse. cbn. by rewrite Zplus_minus.
  - exists b, s, []. split; [done|]. apply Hfuse. cbn. destruct v2 as [|[[a sa] []] v2]; done.
Qed.

(** * The invariant *)

Record heap_inv (start : Z) (h : KernelHeap) (B : list Z) (F : Lists) : Prop := {
  hi_mid : heap_mid start h B F None;
  hi_coal : coalesced false (view h B);
  hi_count : total_free_memory h = counted (view h B) - 32;
}.

Lemma view_app h l1 l2 : view h (l1 ++ l2) = view h l1 ++ view h l2.
Proof. apply map_app. Qed.

Lemma view_ext h h' B : (forall b, b ∈ B -> cell h' b = cell h b) -> view h' B = view h B.
Proof.
  induction B as [|b B IH]; intros H; [done|]. cbn. specialize (H b ltac:(set_solver)) as Hb. unfold cell in Hb.
  injection Hb as -> -> _. f_equal. apply IH. set_solver.
Qed.

Lemma counted_tiles h a B e :
  tiles h a B e -> (forall b, b ∈ B -> 32 <= bsize h b) -> 32 * Z.of_nat (length B) <= counted (view h B) <= e - a.
Proof.
  revert a. induction B as [|b B IH]; intros a; [cbn; lia|]. cbn [tiles view map counted foldr length]. intros [-> Ht] Hb.
  specialize (IH _ Ht ltac:(set_solver)). specialize (Hb a ltac:(set_solver)). fold (view h B) (counted (view h B)) in *.
  unfold weight. cbn [fst snd]. destruct (is_free (hd h a)); lia.
Qed.

Lemma counted_bounds start h B F x : heap_mid start h B F x -> 32 <= counted (view h B) <= total_size h.
Proof.
  intros Hm. destruct (counted_tiles h start B _ (hm_tiles _ _ _ _ _ Hm)) as [H1 H2]; [intros; by eapply mid_size|].
  destruct (hm_start _ _ _ _ _ Hm) as (_ & _ & _ & Hne). destruct B; [done|]. cbn [length] in H1. lia.
Qed.

Lemma total_wrap start h B F x : heap_mid start h B F x -> is_u32 (counted (view h B) - 32).
Proof. intros Hm. pose proof (counted_bounds _ _ _ _ _ Hm). pose proof (hm_bound _ _ _ _ _ Hm). unfold is_u32, MAX_SIZE in *. lia. Qed.

(** * Allocation *)

Lemma align_down_spec x : 0 <= x -> align_down x = x - x mod 8.
Proof.
  intros Hx. unfold align_down. change 7 with (Z.ones 3). rewrite <- Z.ldiff_land, Z.ldiff_ones_r by lia.
  rewrite Z.shiftr_div_pow2, Z.shiftl_mul_pow2 by lia. change (2 ^ 3) with 8. Z.to_euclidean_division_equations. lia.
Qed.

Lemma align_up_spec x : 0 <= x <= 4294967288 -> x <= align_up x < x + 8 /\ align_up x mod 8 = 0.
Proof.
  intros Hx. unfold align_up. fold (align_down (wrap32 (x + 7))). rewrite wrap32_small by (unfold is_u32; lia).
  rewrite align_down_spec by lia. Z.to_euclidean_division_equations. lia.
Qed.

(** The bytes a request takes, header included. *)
Definition required (n : Z) : Z := align_up n + BLOCK_HEADER_SIZE.

(** Updates of the counter and of flags that no list sees. *)
Lemma mid_total v start h B F x : heap_mid start h B F x -> heap_mid start (set_total_free_memory v h) B F x.
Proof. intros [P S T Bd K FO I]. split; try done; [by eapply tiles_ext|]. apply (free_ok_ext h); done. Qed.

Lemma mid_mark start h B F x b f :
  heap_mid start h B F x -> ~ in_free F b ->
  (forall c, phys_view (f c) = (magic c, size c, requested_size (f c), prev_phys c, next_phys c)) ->
  (forall a, a ∈ B -> Some a <> x -> is_free (f (hd h b)) = true -> a <> b) ->
  heap_mid start (upd_hd b f h) B F x.
Proof.
  intros [P S T Bd K FO I] Hn Hf Hb.
  assert (Hv : forall c, magic (hd (upd_hd b f h) c) = magic (hd h c) /\ bsize (upd_hd b f h) c = bsize h c /\
    np (upd_hd b f h) c = np h c /\ pp (upd_hd b f h) c = pp h c).
  { intros c. unfold bsize, np, pp. rewrite hd_upd. destruct (decide (b = c)) as [->|]; [|done].
    specialize (Hf (hd h c)). unfold phys_view in Hf. injection Hf as E1 E2 E3 E4. done. }
  split; try done.
  - eapply dll_ext; [exact P|..]; intros c _; apply Hv.
  - eapply tiles_ext; [exact T|]. intros c _. apply Hv.
  - intros c Hc. destruct (Hv c) as (V1 & V2 & _). unfold block_ok. rewrite V1, V2. by apply K.
  - apply (free_ok_ext h); try done. intros c Hc. assert (b <> c) by congruence. destruct (Hv c) as (_ & V & _).
    unfold nf, pf. rewrite !hd_upd, !decide_False by done. done.
  - intros c. rewrite hd_upd. destruct (decide (b = c)) as [->|]; [|apply I]. split; [done|].
    intros (Hc & Hfr & Hx). exfalso. by apply (Hb c).
Qed.

(** The block the search finds is free and large enough. *)
Lemma search_block start h B F r :
  heap_inv start h B F -> 32 <= r <= MAX_REQUEST ->
  match search_suitable_block (mapping_search r) h with
  | Some b => b ∈ B /\ is_free (hd h b) = true /\ r <= bsize h b
  | None => forall b, b ∈ B -> is_free (hd h b) = true -> bsize h b < rounded r
  end.
Proof.
  intros [Hm _ _] Hr. pose proof (hm_free _ _ _ _ _ Hm) as HF. pose proof (rounded_range r Hr) as Hrr.
  assert (Hc : is_class (mapping_search r)) by (rewrite mapping_search_rounded by done; apply mapping_insert_spec; lia).
  pose proof (search_spec h F (mapping_search r) HF Hc) as Hs. destruct (search_suitable_block _ h) as [b|].
  - destruct Hs as (d & Hd & Hle & Hin). assert (Hb : in_free F b) by by eexists _, _.
    apply (hm_in _ _ _ _ _ Hm) in Hb as (Hb & Hf & _). split; [done|]. split; [done|].
    destruct (fo_class _ _ HF _ _ _ Hin) as [_ Ec]. destruct (mid_range _ _ _ _ _ b Hm Hb) as (_ & _ & Hsz).
    destruct (mapping_insert_spec (bsize h b) Hsz) as [_ Hl]. unfold class in Ec. fold (bsize h b) in Ec. rewrite Ec in Hl.
    pose proof (mapping_search_low r Hr). pose proof (class_le_low _ _ Hc Hd Hle). destruct d. cbn [fst snd] in *. lia.
  - intros b Hb Hf. destruct (Z.lt_ge_cases (bsize h b) (rounded r)) as [|Hge]; [done|]. exfalso.
    assert (Hin : in_free F b) by (apply (hm_in _ _ _ _ _ Hm); done). apply (in_free_class h F b HF) in Hin.
    destruct (mid_range _ _ _ _ _ b Hm Hb) as (_ & _ & Hsz). rewrite (Hs (class h b)) in Hin; [by apply elem_of_nil in Hin|..].
    + by eapply mid_class.
    + rewrite mapping_search_rounded by done. apply mapping_insert_mono; [lia|done|apply Hsz].
Qed.

Lemma view_cons h b B : view h (b :: B) = (b, bsize h b, is_free (hd h b)) :: view h B.
Proof. done. Qed.

Lemma cell_eq h b s f r : cell h b = (s, f, r) -> bsize h b = s /\ is_free (hd h b) = f /\ requested_size (hd h b) = r.
Proof. by intros [= -> -> ->]. Qed.

Lemma mid_pending start h B F b : heap_mid start h B F None -> is_free (hd h b) = false -> heap_mid start h B F (Some b).
Proof.
  intros [P S T Bd K FO I] Hf. split; try done. intros c. rewrite I. split; intros (Hc & Hfc & _); split; try done.
  split; [done|]. congruence.
Qed.

Lemma pending_out start h B F b : heap_mid start h B F (Some b) -> ~ in_free F b.
Proof. intros Hm Hin. by apply (hm_in _ _ _ _ _ Hm) in Hin as (_ & _ & ?). Qed.

Lemma used_out start h B F x b : heap_mid start h B F x -> is_free (hd h b) = false -> ~ in_free F b.
Proof. intros Hm Hf Hin. apply (hm_in _ _ _ _ _ Hm) in Hin as (_ & ? & _). congruence. Qed.

(** Marking a block as used by a client. *)
Definition hand_out (n b : Z) (h : KernelHeap) : KernelHeap := upd_hd b (fun x => set_requested_size n (set_is_free false x)) h.

Lemma hand_out_cells n b h :
  (forall c, c <> b -> cell (hand_out n b h) c = cell h c) /\ cell (hand_out n b h) b = (bsize h b, false, n).
Proof.
  split; [intros c Hc|]; unfold cell, bsize, hand_out; rewrite !hd_upd; [by rewrite !decide_False by congruence|by rewrite !decide_True].
Qed.

Lemma hand_out_mid start h B F n b :
  heap_mid start h B F None -> is_free (hd h b) = false -> heap_mid start (hand_out n b h) B F None.
Proof. intros Hm Hf. apply mid_mark; [exact Hm|by eapply used_out|done|by intros]. Qed.

(** A removed block that is not split. *)
Lemma take_whole start h1 l1 b l2 F n :
  heap_mid start h1 (l1 ++ b :: l2) F None -> is_free (hd h1 b) = false -> (forall c, c ∈ l1 ++ l2 -> c <> b) ->
  let h3 := hand_out n b h1 in
  heap_mid start h3 (l1 ++ b :: l2) F None /\ same_rest h1 h3 /\ view h3 (l1 ++ b :: l2) = view h1 l1 ++ [(b, bsize h1 b, false)] ++ view h1 l2 /\
  cell h3 b = (bsize h1 b, false, n) /\ (forall c, c ∈ l1 ++ l2 -> cell h3 c = cell h1 c).
Proof.
  intros Hm Hf Hne. cbv zeta. pose proof (hand_out_mid _ _ _ _ n b Hm Hf) as Hm3. destruct (hand_out_cells n b h1) as [Co Cb].
  assert (Hr : same_rest h1 (hand_out n b h1)) by done. set (h3 := hand_out n b h1) in *. clearbody h3.
  assert (Co' : forall c, c ∈ l1 ++ l2 -> cell h3 c = cell h1 c) by (intros c Hc; by apply Co, Hne). split; [done|]. split; [done|].
  split; [|done]. apply cell_eq in Cb as (B1 & B2 & _). rewrite view_app, view_cons, B1, B2.
  rewrite !(view_ext h1 h3); [done|..]; intros c Hc; apply Co', elem_of_app; auto.
Qed.

(** A removed block that is split after [r] bytes. *)
Lemma take_split start h1 l1 b l2 F r n :
  heap_mid start h1 (l1 ++ b :: l2) F None -> is_free (hd h1 b) = false -> (forall c, c ∈ l1 ++ l2 -> c <> b) ->
  32 <= r -> r mod 8 = 0 -> r + 32 <= bsize h1 b ->
  let h3 := hand_out n b (split b r h1) in
  exists F', heap_mid start h3 (l1 ++ b :: b + r :: l2) F' None /\ same_rest h1 h3 /\
    view h3 (l1 ++ b :: b + r :: l2) = view h1 l1 ++ [(b, r, false); (b + r, bsize h1 b - r, true)] ++ view h1 l2 /\
    cell h3 b = (r, false, n) /\ (forall c, c ∈ l1 ++ l2 -> cell h3 c = cell h1 c).
Proof.
  intros Hm Hf Hne Hr1 Hr8 Hr2. cbv zeta. destruct (mid_range _ _ _ _ _ b Hm) as (Q1 & Q2 & Q3); [apply elem_of_app; right; left|].
  pose proof (hm_bound _ _ _ _ _ Hm) as [Q4 _]. destruct (hm_start _ _ _ _ _ Hm) as (_ & Q5 & _). unfold MAX_SIZE in Q3.
  rewrite split_carve by (unfold is_u32; lia). destruct (mid_carve start h1 l1 b l2 F r Hm Hf Hr1 Hr8 Hr2) as (Hm2 & Cb & Cr & Co).
  destruct (mid_insert _ _ _ _ _ (b + r) Hm2) as [F2 Hm3]; [apply elem_of_app; right; right; left|by eapply pending_out|by intros c _ [= ->]|].
  pose proof (insert_frame (b + r) (carve b r h1)) as Hs2. destruct (carve_rest b r h1) as ((A1 & A2 & A3) & _).
  pose proof (rem_fresh _ _ _ _ _ _ _ r Hm ltac:(lia)) as Hfresh. set (h2 := insert_free_block _ _) in *.
  assert (C2b : cell h2 b = (r, false, requested_size (hd h1 b))) by (rewrite (same_phys_cell _ _ _ _ b Hs2) by lia; done).
  assert (C2r : bsize h2 (b + r) = bsize h1 b - r /\ is_free (hd h2 (b + r)) = true).
  { destruct (phys_view_all _ _ _ (sp_view _ _ _ _ Hs2 (b + r))) as (_ & -> & _). rewrite (sp_flag _ _ _ _ Hs2), decide_True by done.
    by apply cell_eq in Cr as (-> & _). }
  assert (Hner : forall c, c ∈ l1 ++ l2 -> c <> b + r).
  { intros c Hc ->. apply Hfresh. apply elem_of_app in Hc as [Hc|Hc]; apply elem_of_app; [by left|right; by right]. }
  assert (Hrest : same_rest h1 h2) by (destruct Hs2 as [_ _ S4 S5 S6]; unfold same_rest; split; [|split]; congruence).
  assert (C2o : forall c, c ∈ l1 ++ l2 -> cell h2 c = cell h1 c).
  { intros c Hc. rewrite (same_phys_cell _ _ _ _ c Hs2) by by apply Hner. apply Co; [by apply Hne|by apply Hner]. }
  clearbody h2. apply cell_eq in C2b as (B1 & B2 & _). exists F2. split; [by apply hand_out_mid|]. split; [exact Hrest|].
  destruct (hand_out_cells n b h2) as [C3 C3b]. rewrite B1 in C3b. set (h3 := hand_out n b h2) in *. clearbody h3.
  assert (C3o : forall c, c ∈ l1 ++ l2 -> cell h3 c = cell h1 c) by (intros c Hc; rewrite C3 by (by apply Hne); by apply C2o).
  split; [|done]. apply cell_eq in C3b as (D1 & D2 & _). assert (E : cell h3 (b + r) = cell h2 (b + r)) by (apply C3; lia).
  destruct C2r as [<- Er]. apply cell_eq in E as (E1 & E2 & _). rewrite Er in E2. rewrite view_app, !view_cons, D1, D2, E1, E2.
  rewrite !(view_ext h1 h3); [done|..]; intros c Hc; apply C3o, elem_of_app; auto.
Qed.

(** What taking the block [b] does, before the counter is adjusted. *)
Lemma take_mid start h l1 b l2 F r n :
  heap_mid start h (l1 ++ b :: l2) F None -> is_free (hd h b) = true -> 32 <= r -> r mod 8 = 0 -> r <= bsize h b ->
  let h1 := remove_free_block b h in
  let h2 := if wrap32 (r + BLOCK_HEADER_SIZE + 8) <=? size (hd h1 b) then split b r h1 else h1 in
  let h3 := hand_out n b h2 in
  exists B' F', heap_mid start h3 B' F' None /\ same_rest h h3 /\
    view h3 B' = view h l1 ++ take_block r b (bsize h b) ++ view h l2 /\
    cell h3 b = ((if r + 40 <=? bsize h b then r else bsize h b), false, n) /\
    (forall c, c ∈ l1 ++ l2 -> cell h3 c = cell h c).
Proof.
  intros Hm Hfr Hr32 Hr8 Hrs. cbv zeta. assert (Hb : b ∈ l1 ++ b :: l2) by (apply elem_of_app; right; left).
  destruct (mid_remove _ _ _ _ _ b Hm Hb Hfr) as (Hs & F1 & Hm1); [done|]. destruct (mid_range _ _ _ _ _ b Hm Hb) as (_ & _ & Q). unfold MAX_SIZE in Q.
  set (h1 := remove_free_block b h) in *. pose proof (mid_NoDup _ _ _ _ _ Hm) as Hnd.
  apply NoDup_app in Hnd as (_ & N12 & [Nb _]%NoDup_cons).
  assert (Hne : forall c, c ∈ l1 ++ l2 -> c <> b) by (intros c [Hc|Hc]%elem_of_app ->; [apply (N12 b Hc); left|done]).
  assert (Hf1 : is_free (hd h1 b) = false) by (by rewrite (sp_flag _ _ _ _ Hs), decide_True).
  assert (Hb1 : bsize h1 b = bsize h b) by apply (phys_view_all h h1 b), Hs.
  assert (Ho1 : forall c, c ∈ l1 ++ l2 -> cell h1 c = cell h c) by (intros c Hc; eapply same_phys_cell; [exact Hs|by apply Hne]).
  assert (Hv1 : view h1 l1 = view h l1 /\ view h1 l2 = view h l2) by (split; apply view_ext; intros c Hc; apply Ho1, elem_of_app; auto).
  destruct Hv1 as [V1 V2]. pose proof (same_phys_rest _ _ _ _ Hs) as (P1 & P2 & P3).
  fold (bsize h1 b). rewrite Hb1, wrap32_small by (unfold is_u32, BLOCK_HEADER_SIZE; lia).
  unfold BLOCK_HEADER_SIZE. replace (r + 32 + 8) with (r + 40) by lia. unfold take_block. destruct (Z.leb_spec (r + 40) (bsize h b)).
  - destruct (take_split start h1 l1 b l2 F1 r n Hm1 Hf1 Hne Hr32 Hr8 ltac:(lia)) as (F2 & M & (R1 & R2 & R3) & V & Cb & Co). cbv zeta in *.
    rewrite V1, V2, Hb1 in V. exists (l1 ++ b :: b + r :: l2), F2. split; [done|]. split; [split; [|split]; congruence|].
    split; [done|]. split; [done|]. intros c Hc. by rewrite Co, Ho1.
  - destruct (take_whole start h1 l1 b l2 F1 n Hm1 Hf1 Hne) as (M & (R1 & R2 & R3) & V & Cb & Co). cbv zeta in *.
    rewrite V1, V2, Hb1 in V. rewrite Hb1 in Cb. exists (l1 ++ b :: l2), F1. split; [done|]. split; [split; [|split]; congruence|].
    split; [done|]. split; [done|]. intros c Hc. by rewrite Co, Ho1.
Qed.

(** The largest request the size classes can serve. *)
Definition MAX_ALLOC : Z := 32505824. (* MAX_REQUEST - 32 *)

Lemma required_range n : 0 < n <= MAX_ALLOC -> n + 32 <= required n <= MAX_REQUEST /\ required n mod 8 = 0.
Proof.
  unfold MAX_ALLOC, MAX_REQUEST, required, BLOCK_HEADER_SIZE. intros Hn.
  destruct (align_up_spec n) as [H1 H2]; [lia|]. split; [|Z.to_euclidean_division_equations; lia]. split; [lia|].
  assert (align_up n <= 32505824); [|lia]. Z.to_euclidean_division_equations. lia.
Qed.

Lemma take_coalesced v1 b s r v2 :
  coalesced false (v1 ++ (b, s, true) :: v2) -> coalesced false (v1 ++ take_block r b s ++ v2).
Proof.
  rewrite !coalesced_app. intros (H1 & H2 & H3). split; [done|]. unfold take_block.
  destruct (_ <=? _); cbn [app coalesced]; rewrite andb_false_r; [done|]. split; [done|by eapply coalesced_weaken].
Qed.

Lemma take_counted v1 b s r v2 :
  counted (v1 ++ take_block r b s ++ v2) =
  counted (v1 ++ (b, s, true) :: v2) - ((if r + 40 <=? s then r else s) - 32).
Proof.
  rewrite !counted_app, counted_cons. unfold take_block, weight. destruct (_ <=? _); cbn; lia.
Qed.

Lemma allocate_spec start h B F n :
  heap_inv start h B F -> 0 < n <= MAX_ALLOC ->
  match allocate_impl n h with
  | (Some p, h') => exists l1 b l2 B' F', B = l1 ++ b :: l2 /\ p = b + BLOCK_HEADER_SIZE /\ is_free (hd h b) = true /\
      required n <= bsize h b /\ heap_inv start h' B' F' /\
      view h' B' = view h l1 ++ take_block (required n) b (bsize h b) ++ view h l2 /\
      requested_size (hd h' b) = n /\ (forall c, c ∈ l1 ++ l2 -> cell h' c = cell h c) /\ total_size h' = total_size h
  | (None, h') => h' = h /\ forall b, b ∈ B -> is_free (hd h b) = true -> bsize h b < rounded (required n)
  end.
Proof.
  intros Hi Hn. destruct (required_range n Hn) as [Hr Hr8]. unfold allocate_impl. unfold MAX_ALLOC, SIZE_MAX, BLOCK_HEADER_SIZE in *.
  destruct (Z.eqb_spec n 0); [lia|]. destruct (Z.ltb_spec (4294967295 - 7 - 32) n); [lia|]. cbn [orb]. cbv zeta.
  fold (required n). pose proof (search_block start h B F (required n) Hi ltac:(lia)) as Hs.
  destruct (search_suitable_block _ h) as [b|]; [|done]. destruct Hs as (Hb & Hf & Hsz).
  apply list_elem_of_split in Hb as (l1 & l2 & ->). destruct Hi as [Hm Hco Hcnt].
  destruct (take_mid start h l1 b l2 F (required n) n Hm Hf ltac:(lia) Hr8 Hsz) as (B' & F' & Hm' & (R1 & R2 & R3) & Hv & Hcell & Ho).
  cbv zeta in *. unfold hand_out in *. set (h3 := upd_hd b _ _) in *. clearbody h3. apply cell_eq in Hcell as (Hbs & _ & Hreq). rewrite view_app, view_cons, Hf in Hco, Hcnt.
  assert (Hp : wrap32 (b + BLOCK_HEADER_SIZE) = b + BLOCK_HEADER_SIZE).
  { apply wrap32_small. destruct (mid_range _ _ _ _ _ b Hm) as (M1 & M2 & M3); [apply elem_of_app; right; left|].
    pose proof (hm_bound _ _ _ _ _ Hm) as [M4 _]. destruct (hm_start _ _ _ _ _ Hm) as (_ & M5 & _). unfold is_u32, BLOCK_HEADER_SIZE. lia. }
  exists l1, b, l2, B', F'. split; [done|]. split; [exact Hp|]. split; [done|]. split; [done|]. split; [|split; [exact Hv|split; [exact Hreq|split; [exact Ho|exact R3]]]].
  split.
  - by apply mid_total.
  - change (coalesced false (view h3 B')). rewrite Hv. by apply take_coalesced.
  - change (wrap32 (total_free_memory h3 - (bsize h3 b - 32)) = counted (view h3 B') - 32).
    pose proof (total_wrap _ _ _ _ _ Hm') as Hw. rewrite <- (wrap32_small _ Hw). f_equal. rewrite Hv, take_counted, R2, Hcnt, Hbs. lia.
Qed.

(** * Release *)

(** Whether a neighbour can be merged depends on its flag only. *)
Lemma mergeable_block start h B F x b :
  heap_mid start h B F x -> b ∈ B -> mergeable (Some b) h = if is_free (hd h b) then Some b else None.
Proof.
  intros Hm Hb. cbn. destruct (hm_block _ _ _ _ _ Hm b Hb) as [-> _]. by rewrite Z.eqb_refl, andb_true_r.
Qed.

Lemma merge_next_mid start h l1 b l2 F :
  heap_mid start h (l1 ++ b :: l2) F (Some b) -> is_free (hd h b) = true ->
  let h' := merge_next b h in
  exists l2' F', heap_mid start h' (l1 ++ b :: l2') F' (Some b) /\ same_rest h h' /\ is_free (hd h' b) = true /\
    fuse_right b (bsize h b) (view h l2) = (b, bsize h' b, true) :: view h' l2' /\
    (forall c, c ∈ l1 -> cell h' c = cell h c) /\ (forall c, c ∈ l2 -> is_free (hd h c) = false -> c ∈ l2' /\ cell h' c = cell h c).
Proof.
  intros Hm Hfb. cbv zeta. unfold merge_next. fold (np h b). pose proof (hm_phys _ _ _ _ _ Hm) as Hs. apply dll_mid in Hs as [_ ->].
  destruct l2 as [|n l2]; cbn [first_or].
  { exists [], F. split; [done|]. split; [done|]. split; [done|]. split; [done|]. split; [done|]. intros c Hc. by apply elem_of_nil in Hc. }
  pose proof (mid_NoDup _ _ _ _ _ Hm) as Hnd. apply nodup_mid in Hnd as (Hbn & _ & _ & Nl & Nb & Nn & _).
  assert (Hn : n ∈ l1 ++ b :: n :: l2) by (apply elem_of_app; right; right; left).
  rewrite (mergeable_block _ _ _ _ _ n Hm Hn). rewrite view_cons. cbn [fuse_right]. destruct (is_free (hd h n)) eqn:Hfn.
  2:{ exists (n :: l2), F. split; [done|]. split; [done|]. split; [done|]. split; [by rewrite view_cons, Hfn|done]. }
  destruct (mid_remove _ _ _ _ _ n Hm Hn Hfn) as (Hs & F1 & Hm1); [congruence|].
  set (h1 := remove_free_block n h) in *. assert (Hf1 : is_free (hd h1 n) = false) by (by rewrite (sp_flag _ _ _ _ Hs), decide_True).
  destruct (mid_absorb start h1 l1 b n l2 F1 (Some b) Hm1) as (Hm2 & Cb & Co); [by eapply pending_out|by eapply used_out|].
  destruct (absorb_rest b n h1) as ((A1 & A2 & A3) & _).
  assert (C1 : forall c, c <> n -> cell h1 c = cell h c) by (intros; by eapply same_phys_cell).
  assert (Hrest : same_rest h (absorb b n h1)) by (destruct Hs as [_ _ S1 S2 S3]; unfold same_rest; split; [|split]; congruence).
  assert (Sn : bsize h1 n = bsize h n) by apply (phys_view_all h h1 n), Hs. pose proof (C1 b Hbn) as Cb1. apply cell_eq in Cb1 as (Sb & Fb & _).
  set (h2 := absorb b n h1) in *. clearbody h2. rewrite Sb, Sn, Fb, Hfb in Cb. apply cell_eq in Cb as (B1 & B2 & _).
  exists l2, F1. split; [done|]. split; [done|]. split; [done|]. split; [|split].
  - rewrite B1. f_equal. symmetry. apply view_ext. intros c Hc. rewrite Co, C1 by (intros ->; done). done.
  - intros c Hc. destruct (Nl c Hc) as (? & ? & _). by rewrite Co, C1.
  - intros c Hc Hfc. apply elem_of_cons in Hc as [->|Hc]; [congruence|]. split; [done|]. rewrite Co, C1 by (intros ->; done). done.
Qed.

Lemma fuse_nil b s v2 : fuse [] b s v2 = fuse_right b s v2.
Proof. done. Qed.

Lemma merge_prev_mid start h l1 b l2 F :
  heap_mid start h (l1 ++ b :: l2) F (Some b) -> is_free (hd h b) = true ->
  let '(m, h') := merge_prev b h in
  exists l1' F', heap_mid start h' (l1' ++ m :: l2) F' (Some b) /\ same_rest h h' /\ ~ in_free F' m /\
    (b ∈ l1' ++ m :: l2 -> b = m) /\
    (forall s v2 v2', fuse_right b s v2 = (b, bsize h b, true) :: v2' ->
       fuse (view h l1) b s v2 = view h' l1' ++ (m, bsize h' m, true) :: v2') /\
    (forall c, c ∈ l2 -> cell h' c = cell h c) /\ (forall c, c ∈ l1 -> is_free (hd h c) = false -> c ∈ l1' /\ cell h' c = cell h c).
Proof.
  intros Hm Hfb. unfold merge_prev. fold (pp h b). pose proof (hm_phys _ _ _ _ _ Hm) as Hs. apply dll_mid in Hs as [-> _].
  pose proof (mid_NoDup _ _ _ _ _ Hm) as Hnd.
  destruct l1 as [|p l1 _] using rev_ind.
  { cbn [last_or]. exists [], F. split; [done|]. split; [done|]. split; [by eapply pending_out|]. split; [|split; [|done]].
    - intros Hin. apply elem_of_cons in Hin as [?|Hin]; [done|]. cbn in Hnd. apply NoDup_cons in Hnd as [? _]. done.
    - intros s v2 v2' E. exact E. }
  rewrite last_or_snoc. assert (Hp : p ∈ (l1 ++ [p]) ++ b :: l2) by (apply elem_of_app; left; apply elem_of_app; right; left).
  rewrite (mergeable_block _ _ _ _ _ p Hm Hp), view_app, view_cons. cbn [view map].
  assert (Hnb : (b ∉ l2) /\ (b ∉ l1 ++ [p])).
  { apply NoDup_app in Hnd as (_ & N12 & [? _]%NoDup_cons). split; [done|]. intros Hin. apply (N12 b Hin). left. }
  destruct Hnb as [Nb2 Nb1]. destruct (is_free (hd h p)) eqn:Hfp.
  2:{ exists (l1 ++ [p]), F. split; [done|]. split; [done|]. split; [by eapply pending_out|]. split; [done|]. split; [|done].
      intros s v2 v2' E. rewrite fuse_snoc, E, view_app, view_cons, Hfp, <- app_assoc. done. }
  rewrite <- app_assoc in Hnd. cbn [app] in Hnd. apply nodup_mid in Hnd as (Hpb & _ & _ & Nl & Np & _ & _).
  destruct (mid_remove _ _ _ _ _ p Hm Hp Hfp) as (Hs & F1 & Hm1); [congruence|].
  set (h1 := remove_free_block p h) in *. assert (Hf1 : is_free (hd h1 p) = false) by (by rewrite (sp_flag _ _ _ _ Hs), decide_True).
  rewrite <- app_assoc in Hm1. cbn [app] in Hm1.
  destruct (mid_absorb start h1 l1 p b l2 F1 (Some b) Hm1) as (Hm2 & Cp & Co); [by eapply used_out|by eapply pending_out|].
  destruct (absorb_rest p b h1) as ((A1 & A2 & A3) & _).
  assert (C1 : forall c, c <> p -> cell h1 c = cell h c) by (intros; by eapply same_phys_cell).
  assert (Hrest : same_rest h (absorb p b h1)) by (destruct Hs as [_ _ S1 S2 S3]; unfold same_rest; split; [|split]; congruence).
  assert (Sp : bsize h1 p = bsize h p) by apply (phys_view_all h h1 p), Hs.
  assert (Cb : cell h1 b = cell h b) by (apply C1; congruence). apply cell_eq in Cb as (Sb & _ & _).
  set (h2 := absorb p b h1) in *. clearbody h2. rewrite Sb, Sp, Hf1 in Cp. apply cell_eq in Cp as (P1 & P2 & _).
  exists l1, F1. split; [done|]. split; [done|]. split; [by eapply used_out|]. split; [|split; [|split]].
  - intros [Hin|[?|Hin]%elem_of_cons]%elem_of_app; [|done|done]. exfalso. apply Nb1, elem_of_app. by left.
  - intros s v2 v2' E. rewrite fuse_snoc, E, P1. f_equal. symmetry. apply view_ext. intros c Hc.
    destruct (Nl c Hc) as (? & ? & _). by rewrite Co, C1.
  - intros c Hc. rewrite Co, C1 by (intros ->; done). done.
  - intros c [Hc| ->%list_elem_of_singleton]%elem_of_app Hfc; [|congruence]. split; [done|].
    destruct (Nl c Hc) as (? & ? & _). by rewrite Co, C1.
Qed.

(** What a release does to the counted bytes and to the absence of free neighbours. *)
Lemma fuse_right_head b s v2 :
  coalesced false v2 -> exists s' v2', fuse_right b s v2 = (b, s', true) :: v2' /\ coalesced true v2' /\ s' + counted v2' = s + counted v2.
Proof.
  intros Hc. destruct v2 as [|[[a sa] []] v2]; [by exists s, []|..]; cbn in Hc; destruct Hc as [_ Hc].
  - exists (s + sa), v2. split; [done|]. split; [done|]. rewrite counted_cons. unfold weight. cbn. lia.
  - exists s, ((a, sa, false) :: v2). done.
Qed.

Lemma fuse_ok v1 b s v2 :
  coalesced false (v1 ++ (b, s, false) :: v2) ->
  coalesced false (fuse v1 b s v2) /\ counted (fuse v1 b s v2) = counted (v1 ++ (b, s, false) :: v2) + (s - 32).
Proof.
  intros [Hc1 [_ Hc2]]%coalesced_app. destruct (fuse_right_head b s v2 Hc2) as (s' & v2' & E & Hc' & Hn).
  rewrite counted_app, counted_cons. unfold weight at 1. cbn [fst snd].
  destruct v1 as [|[[p sp] f] v1 _] using rev_ind; [rewrite fuse_nil, E, counted_cons; cbn; unfold weight; cbn; split; [done|lia]|].
  rewrite fuse_snoc, E. apply coalesced_app in Hc1 as [Hc1 [Hp _]]. rewrite counted_app. unfold counted at 3. cbn [foldr]. destruct f.
  - rewrite coalesced_app, counted_app, counted_cons. unfold weight. cbn [fst snd coalesced]. split; [done|lia].
  - rewrite coalesced_app, counted_app, !counted_cons. unfold weight. cbn [fst snd coalesced]. rewrite andb_false_r. split; [done|lia].
Qed.

(** The used blocks of the fused list were there before. *)
Lemma fuse_used v1 b s v2 c sc : (c, sc, false) ∈ fuse v1 b s v2 -> (c, sc, false) ∈ v1 ++ v2.
Proof.
  assert (Hr : forall x s' y v, fuse_right b s v2 = (x, s', y) :: v -> y = true /\ ((c, sc, false) ∈ v -> (c, sc, false) ∈ v2)).
  { intros x s' y v. destruct v2 as [|[[a sa] []] v2']; cbn; intros [= <- <- <- <-]; [done| |done]. split; [done|]. intros. by right. }
  destruct v1 as [|[[p sp] f] v1 _] using rev_ind; [rewrite fuse_nil|rewrite fuse_snoc];
    destruct (fuse_right b s v2) as [|[[x s'] y] v] eqn:E; try (destruct v2 as [|[[? ?] []] ?]; done);
    destruct (Hr _ _ _ _ eq_refl) as [-> Hv].
  - intros [?|?]%elem_of_cons; [done|]. by apply Hv.
  - destruct f; rewrite <- app_assoc; (intros [Hin|Hin]%elem_of_app; apply elem_of_app; [by left|right]).
    + apply elem_of_cons in Hin as [?|Hin]; [done|]. right. by apply Hv.
    + apply elem_of_cons in Hin as [->|[?|Hin]%elem_of_cons]; [left|done|right; by apply Hv].
Qed.

Lemma block_of_block start h B F x b : heap_mid start h B F x -> b ∈ B -> block_of (b + BLOCK_HEADER_SIZE) h = Some b.
Proof.
  intros Hm Hb. destruct (mid_range _ _ _ _ _ b Hm Hb) as (R1 & R2 & R3). destruct (hm_start _ _ _ _ _ Hm) as (S1 & S2 & _).
  pose proof (hm_bound _ _ _ _ _ Hm) as [B1 B2]. unfold block_of. rewrite S1. change (default 0 (Some start)) with start. unfold BLOCK_HEADER_SIZE.
  replace (b + 32 - 32) with b by lia. rewrite !wrap32_small by (unfold is_u32; lia).
  destruct (Z.ltb_spec b start); [lia|]. destruct (Z.leb_spec (start + total_size h) b); [lia|done].
Qed.

(** Inserting a pending block only sets its flag. *)
Lemma insert_view start h l1 m l2 F x :
  heap_mid start h (l1 ++ m :: l2) F x ->
  let h' := insert_free_block m h in
  view h' (l1 ++ m :: l2) = view h l1 ++ (m, bsize h m, true) :: view h l2 /\
  (forall c, c ∈ l1 ++ l2 -> cell h' c = cell h c) /\ same_rest h h'.
Proof.
  intros Hm. cbv zeta. pose proof (insert_frame m h) as Hs. set (h' := insert_free_block m h) in *. clearbody h'.
  pose proof (mid_NoDup _ _ _ _ _ Hm) as Hnd. apply NoDup_app in Hnd as (_ & N12 & [Nm _]%NoDup_cons).
  assert (Ho : forall c, c ∈ l1 ++ l2 -> cell h' c = cell h c).
  { intros c Hc. apply (same_phys_cell _ _ _ _ c Hs). intros ->. apply elem_of_app in Hc as [Hc|Hc]; [|done]. apply (N12 m Hc). left. }
  split; [|split; [done|by eapply same_phys_rest]].
  destruct (phys_view_all _ _ _ (sp_view _ _ _ _ Hs m)) as (_ & V2 & _).
  rewrite view_app, view_cons, V2, (sp_flag _ _ _ _ Hs), decide_True by done.
  rewrite !(view_ext h h'); [done|..]; intros c Hc; apply Ho, elem_of_app; auto.
Qed.

(** Releasing a live block fuses it with its free neighbours. *)
Lemma deallocate_spec start h l1 b l2 F :
  heap_inv start h (l1 ++ b :: l2) F -> is_free (hd h b) = false ->
  exists B' F', let h' := deallocate (b + BLOCK_HEADER_SIZE) h in
    heap_inv start h' B' F' /\ view h' B' = fuse (view h l1) b (bsize h b) (view h l2) /\
    (forall c, c ∈ l1 ++ l2 -> is_free (hd h c) = false -> c ∈ B' /\ cell h' c = cell h c) /\ total_size h' = total_size h.
Proof.
  intros [Hm Hco Hcnt] Hfb. assert (Hb : b ∈ l1 ++ b :: l2) by (apply elem_of_app; right; left).
  destruct (mid_range _ _ _ _ _ b Hm Hb) as (R1 & _). destruct (hm_start _ _ _ _ _ Hm) as (_ & S2 & _).
  unfold deallocate. rewrite (block_of_block _ _ _ _ _ b Hm Hb). destruct (Z.eqb_spec (b + BLOCK_HEADER_SIZE) 0); [unfold BLOCK_HEADER_SIZE in *; lia|].
  destruct (hm_block _ _ _ _ _ Hm b Hb) as [-> _]. rewrite Z.eqb_refl, Hfb. cbn [negb]. cbv zeta.
  rewrite view_app, view_cons, Hfb in Hco, Hcnt. destruct (fuse_ok _ _ _ _ Hco) as [Hco' Hcnt'].
  pose proof (mid_NoDup _ _ _ _ _ Hm) as Hnd. apply NoDup_app in Hnd as (_ & N12 & [Nb _]%NoDup_cons).
  assert (Nb1 : b ∉ l1) by (intros Hin; apply (N12 b Hin); left).
  set (h1 := upd_hd b _ h).
  assert (Hm1 : heap_mid start h1 (l1 ++ b :: l2) F (Some b)).
  { apply mid_mark; [by apply mid_pending|by eapply used_out|done|]. intros a _ Ha _ ->. done. }
  assert (C1 : forall c, c <> b -> cell h1 c = cell h c) by (intros c Hc; unfold cell, bsize, h1; by rewrite !hd_upd, !decide_False by congruence).
  assert (Cb1 : cell h1 b = (bsize h b, true, 0)) by (unfold cell, bsize, h1; by rewrite !hd_upd, !decide_True).
  assert (T1 : total_free_memory h1 = total_free_memory h) by done. assert (T2 : total_size h1 = total_size h) by done.
  apply cell_eq in Cb1 as (Sb & Fb & _). fold (bsize h1 b). rewrite Sb. clearbody h1.
  set (tot := wrap32 _). set (h2 := set_total_free_memory tot h1).
  assert (Hm2 : heap_mid start h2 (l1 ++ b :: l2) F (Some b)) by by apply mid_total.
  destruct (merge_next_mid start h2 l1 b l2 F Hm2 Fb) as (l2' & F2 & Hm3 & (Q1 & Q2 & Q3) & Fb3 & Hr & Cl1 & Cl2). cbv zeta in *.
  set (h3 := merge_next b h2) in *.
  pose proof (merge_prev_mid start h3 l1 b l2' F2 Hm3 Fb3) as Hp. destruct (merge_prev b h3) as [m h4].
  destruct Hp as (l1' & F3 & Hm4 & (W1 & W2 & W3) & Hn4 & Hbm & Hl & Dl2 & Dl1).
  assert (Hmin : m ∈ l1' ++ m :: l2') by (apply elem_of_app; right; left).
  destruct (mid_insert _ _ _ _ _ m Hm4 Hmin Hn4) as [F4 Hm5]; [intros c Hc [= ->]; by apply Hbm|].
  destruct (insert_view _ _ _ _ _ _ _ Hm4) as (Hv5 & Ho5 & _ & Ht5 & Hz5). set (h5 := insert_free_block m h4) in *. clearbody h5.
  assert (C2 : forall c, c ∈ l1 ++ l2 -> cell h2 c = cell h c) by (intros c Hc; apply C1; intros ->; by apply elem_of_app in Hc as [?|?]).
  assert (Hview : view h5 (l1' ++ m :: l2') = fuse (view h l1) b (bsize h b) (view h l2)).
  { rewrite Hv5. rewrite (view_ext h3 h4 l2') by exact Dl2. rewrite <- (Hl (bsize h b) (view h l2)).
    - f_equal. apply view_ext. intros c Hc. rewrite Cl1 by done. apply C2, elem_of_app. by left.
    - rewrite <- Hr. change (bsize h2 b) with (bsize h1 b). rewrite Sb. f_equal. symmetry. apply view_ext. intros c Hc. apply C2, elem_of_app. by right. }
  exists (l1' ++ m :: l2'), F4. split; [|split; [exact Hview|split; [|by rewrite Hz5, W3, Q3]]].
  - split; [done|by rewrite Hview|]. rewrite Ht5, W2, Q2. change (total_free_memory h2) with tot. unfold tot.
    pose proof (total_wrap _ _ _ _ _ Hm5) as Hw. rewrite Hview in Hw |- *. rewrite <- (wrap32_small _ Hw), T1. f_equal. unfold BLOCK_HEADER_SIZE. lia.
  - intros c Hc Hfc. assert (E2 := C2 c Hc). pose proof E2 as E2'. apply cell_eq in E2' as (_ & F2c & _). rewrite Hfc in F2c.
    apply elem_of_app in Hc as [Hc|Hc].
    + assert (E3 := Cl1 c Hc). pose proof E3 as E3'. apply cell_eq in E3' as (_ & F3c & _). rewrite F2c in F3c.
      destruct (Dl1 c Hc F3c) as [Hin E4]. split; [apply elem_of_app; by left|]. rewrite Ho5; [congruence|apply elem_of_app; by left].
    + destruct (Cl2 c Hc F2c) as [Hin E3]. split; [apply elem_of_app; right; by right|].
      rewrite Ho5 by (apply elem_of_app; by right). rewrite Dl2 by done. congruence.
Qed.

(** * Start *)

(** The tables of an empty heap. *)
Definition empty_tables (h : KernelHeap) : Prop :=
  fl_bitmap h = 0 /\ sl_bitmap h = replicate 20 0 /\ blocks h = replicate 20 (replicate 16 None).

Lemma empty_free_ok h : empty_tables h -> free_ok h (fun _ _ => []).
Proof.
  intros (E1 & E2 & E3).
  assert (Hm : forall fl, 0 <= fl < FL_INDEX_COUNT -> sl_map h fl = 0).
  { intros fl [H1 H2]. unfold FL_INDEX_COUNT in *. unfold sl_map. rewrite E2. apply zlookup_Some; [done|]. apply lookup_replicate. split; [done|lia]. }
  assert (Hb : forall fl sl, is_class (fl, sl) -> bucket h fl sl = None).
  { intros fl sl [[H1 H2] [H3 H4]]. cbn [fst snd] in *. unfold FL_INDEX_COUNT, SL_INDEX_COUNT in *. unfold bucket. rewrite E3.
    rewrite (zlookup_Some _ fl (replicate 16 None)); [|done|apply lookup_replicate; split; [done|lia]].
    apply zlookup_Some; [lia|]. apply lookup_replicate. split; [done|lia]. }
  split.
  - split; rewrite ?E2, ?E3; [done|done|]. intros r Hr. by apply elem_of_replicate in Hr as [-> _].
  - exact Hb.
  - done.
  - intros. constructor.
  - intros fl sl b Hin. by apply elem_of_nil in Hin.
  - intros fl sl [Hc _]. by rewrite Hm, Z.testbit_0_l.
  - intros fl Hc. rewrite Hm by done. lia.
  - intros fl Hc. by rewrite Hm, E1, Z.testbit_0_l.
  - rewrite E1. lia.
Qed.

(** The regions the allocator can manage. *)
Definition region_ok (start_addr end_addr : Z) : Prop :=
  0 < start_addr /\ end_addr < 4294967296 /\ 40 <= end_addr - start_addr < MAX_SIZE.

Lemma init_spec s e h0 :
  region_ok s e ->
  let start := align_up s in let end_ := align_down e in
  exists h F, init s e h0 = Some h /\ heap_inv start h [start] F /\
    view h [start] = [(start, end_ - start, true)] /\ total_free_memory h = end_ - start - 32 /\
    total_size h = end_ - start /\ s <= start /\ end_ <= e.
Proof.
  unfold region_ok, MAX_SIZE. intros (Hs & He & Hd). cbv zeta. destruct (align_up_spec s) as [A1 A2]; [lia|].
  pose proof (align_down_spec e ltac:(lia)) as D. assert (D1 : e - 7 <= align_down e <= e) by (rewrite D; Z.to_euclidean_division_equations; lia).
  assert (D2 : align_down e mod 8 = 0) by (rewrite D; Z.to_euclidean_division_equations; lia).
  assert (D3 : (align_down e - align_up s) mod 8 = 0) by (Z.to_euclidean_division_equations; lia).
  assert (D4 : 32 <= align_down e - align_up s) by (Z.to_euclidean_division_equations; lia).
  unfold init, BLOCK_HEADER_SIZE. destruct (Z.leb_spec e s); [lia|]. destruct (Z.ltb_spec (e - s) (32 + 8)); [lia|]. cbn [orb]. cbv zeta.
  set (st := align_up s) in *. set (en := align_down e) in *. clearbody st en.
  set (h1 := mkHeap _ _ _ _ _ _ _).
  assert (Hh : hd h1 st = mkBlock TLSF_MAGIC (en - st) 0 true None None None None) by (unfold hd, h1; cbn; by rewrite lookup_total_insert_eq).
  assert (Hm : heap_mid st h1 ([] ++ st :: []) (fun _ _ => []) (Some st)).
  { split; cbn [app].
    - cbn. unfold pp, np. by rewrite Hh.
    - split; [done|]. split; [lia|]. done.
    - cbn. unfold bsize. rewrite Hh. cbn. lia.
    - cbn. unfold MAX_SIZE. lia.
    - intros b ->%list_elem_of_singleton. unfold block_ok, bsize. rewrite Hh. cbn. done.
    - by apply empty_free_ok.
    - intros b. split; [intros (? & ? & Hin); by apply elem_of_nil in Hin|]. intros (->%list_elem_of_singleton & _ & ?). done. }
  destruct (mid_insert _ _ _ _ _ st Hm) as [F' Hm']; [left|intros (? & ? & Hin); by apply elem_of_nil in Hin|by intros c _ [= ->]|].
  destruct (insert_view _ _ _ _ _ _ _ Hm) as (Hv & _ & _ & Ht & Hsz). cbn [app] in *.
  assert (Hsize : bsize h1 st = en - st) by (unfold bsize; by rewrite Hh). rewrite Hsize in Hv. cbn [view map app] in Hv.
  set (h2 := insert_free_block st h1) in *. exists h2, F'. split; [done|].
  assert (Ht' : total_free_memory h2 = en - st - 32) by (rewrite Ht; done).
  split; [|split; [exact Hv|split; [exact Ht'|split; [by rewrite Hsz|lia]]]].
  split; [exact Hm'| |]; change (view h2 [st]) with [(st, bsize h2 st, is_free (hd h2 st))] in *.
  - rewrite Hv. done.
  - rewrite Hv, Ht'. cbn. unfold weight. cbn. lia.
Qed.
