(* ===== verification/Pools.v ===== *)
(** Fixed-size allocators with the free list inside the free memory:
    [MemoryPool] (kernel/mm/memory_pool.hpp) and [PageAllocator]
    (kernel/mm/page_allocator.hpp).

    A pool's operations run under its mutex and the page allocator's with
    interrupts disabled, so each is one step. *)
From S2P Require Import Prelude.

(** * Embedded free lists *)

(** [l] is the list of addresses linked from [a] through [next], up to
    [nullptr]. *)
Fixpoint free_chain (next : Z -> Z) (a : Z) (l : list Z) : Prop :=
  match l with
  | [] => a = nullptr
  | p :: l => a = p /\ p <> nullptr /\ free_chain next (next p) l
  end.

Lemma free_chain_ext next next' a l : free_chain next a l -> (forall p, p ∈ l -> next' p = next p) -> free_chain next' a l.
Proof.
  revert a. induction l as [|p l IH]; intros a; cbn [free_chain]; [done|]. intros (-> & Hp & Hc) Hn. split; [done|]. split; [done|].
  rewrite Hn by (left). apply IH; [done|]. intros q Hq. apply Hn. by right.
Qed.

Lemma free_chain_null next a l : free_chain next a l -> a = nullptr <-> l = [].
Proof. destruct l as [|p l]; cbn; [done|]. intros (-> & Hp & _). split; done. Qed.

(** * Memory pools *)

Section MemoryPool.
Context (PoolSize sizeof_Slot buffer_start : Z).

(** The first word of each slot (the link of a free slot, data of a used one),
    the bitmap and the head of the free list. *)
Record MemoryPool := mkPool { first_word : list Z; allocated_ : list Z; free_list_ : Z }.

Definition set_first_word v p := mkPool v (allocated_ p) (free_list_ p).
Definition set_allocated_ v p := mkPool (first_word p) v (free_list_ p).
Definition set_free_list_ v p := mkPool (first_word p) (allocated_ p) v.

(** [&buffer_[i]] and [slot - &buffer_[0]]. *)
Definition slot_addr (i : Z) : Z := buffer_start + i * sizeof_Slot.
Definition slot_index (a : Z) : Z := (a - buffer_start) / sizeof_Slot.

(** [*next_ptr(slot)]. *)
Definition slot_next (p : MemoryPool) (a : Z) : Z := zlookup (first_word p) (slot_index a).
Definition set_slot_next (a v : Z) (p : MemoryPool) : MemoryPool :=
  set_first_word (zalter (fun _ => v) (slot_index a) (first_word p)) p.

(** The bit of a slot in [allocated_]. *)
Definition slot_bit (p : MemoryPool) (i : Z) : bool := bit_test (zlookup (allocated_ p) (i / 32)) (i mod 32).

Definition pool_ctor : MemoryPool :=
  mkPool (map (fun i => if i =? PoolSize - 1 then nullptr else slot_addr (i + 1)) (seqZ 0 PoolSize))
         (replicate (Z.to_nat ((PoolSize + 31) / 32)) 0) (slot_addr 0).

Definition pool_allocate (p : MemoryPool) : Z * MemoryPool :=
  if free_list_ p =? nullptr then (nullptr, p) else
  let slot := free_list_ p in
  let p := set_free_list_ (slot_next p slot) p in
  let index := slot_index slot in
  let p := set_allocated_ (zalter (fun w => bit_set w (index mod 32)) (index / 32) (allocated_ p)) p in
  (slot, p).

Definition pool_deallocate (ptr : Z) (p : MemoryPool) : MemoryPool :=
  if ptr =? nullptr then p else
  if (ptr <? buffer_start) || (buffer_start + PoolSize * sizeof_Slot <=? ptr) then p else
  let index := slot_index ptr in
  if negb (slot_bit p index) then p else
  let p := set_allocated_ (zalter (fun w => bit_clear w (index mod 32)) (index / 32) (allocated_ p)) p in
  let p := set_slot_next ptr (free_list_ p) p in
  set_free_list_ ptr p.

(** [create] and [destroy], with the constructor and destructor of [T]. *)
Definition pool_create (construct : Z -> MemoryPool -> MemoryPool) (p : MemoryPool) : Z * MemoryPool :=
  let '(ptr, p) := pool_allocate p in (ptr, if ptr =? nullptr then p else construct ptr p).

Definition pool_destroy (destruct_ : Z -> MemoryPool -> MemoryPool) (ptr : Z) (p : MemoryPool) : MemoryPool :=
  if ptr =? nullptr then p else pool_deallocate ptr (destruct_ ptr p).

Definition get_capacity : Z := PoolSize.

(** ** The invariant *)

Definition pool_ok : Prop := 0 < PoolSize /\ 0 < sizeof_Slot /\ 0 < buffer_start.

(** [ptr] is the address of a slot. *)
Definition is_slot (ptr : Z) : Prop := exists i, 0 <= i < PoolSize /\ ptr = slot_addr i.

Record pool_inv (p : MemoryPool) (free : list Z) : Prop := {
  pi_words : Z.of_nat (length (first_word p)) = PoolSize;
  pi_bits : Z.of_nat (length (allocated_ p)) = (PoolSize + 31) / 32;
  pi_chain : free_chain (slot_next p) (free_list_ p) free;
  pi_nodup : NoDup free;
  pi_slots : forall a, a ∈ free -> is_slot a;
  pi_used : forall i, 0 <= i < PoolSize -> slot_bit p i = bool_decide (slot_addr i ∉ free);
}.

Context (Hok : pool_ok).

Lemma slot_index_addr i : slot_index (slot_addr i) = i.
Proof. unfold slot_index, slot_addr. destruct Hok as (_ & Hs & _). replace (buffer_start + i * sizeof_Slot - buffer_start) with (i * sizeof_Slot) by lia.
  apply Z.div_mul. lia.
Qed.

Lemma slot_addr_inj i j : slot_addr i = slot_addr j -> i = j.
Proof. intros E. rewrite <- (slot_index_addr i), E. apply slot_index_addr. Qed.

Lemma slot_addr_pos i : 0 <= i -> slot_addr i <> nullptr.
Proof. destruct Hok as (_ & Hs & Hb). unfold slot_addr, nullptr. nia. Qed.

(** The bitmap under updates of one slot. *)
Lemma word_index i : 0 <= i < PoolSize -> 0 <= i / 32 < (PoolSize + 31) / 32 /\ 0 <= i mod 32 < 32.
Proof. intros Hi. Z.to_euclidean_division_equations. lia. Qed.

Lemma slot_bit_alter (f : Z -> Z -> Z) (v : bool) p i j :
  (forall w n m, 0 <= n < 32 -> 0 <= m < 32 -> Z.testbit (f w n) m = if decide (n = m) then v else Z.testbit w m) ->
  Z.of_nat (length (allocated_ p)) = (PoolSize + 31) / 32 -> 0 <= i < PoolSize -> 0 <= j < PoolSize ->
  slot_bit (set_allocated_ (zalter (fun w => f w (i mod 32)) (i / 32) (allocated_ p)) p) j = if decide (i = j) then v else slot_bit p j.
Proof.
  intros Hf Hl Hi Hj. destruct (word_index i Hi) as [I1 I2], (word_index j Hj) as [J1 J2]. unfold slot_bit. cbn [allocated_ set_allocated_].
  rewrite zlookup_zalter by (split; lia). rewrite !bit_test_testbit by lia. destruct (decide (i / 32 = j / 32)) as [E|Ne].
  - rewrite Hf by lia. destruct (decide (i mod 32 = j mod 32)) as [E'|Ne'].
    + rewrite decide_True; [done|]. rewrite (Z.div_mod i 32), (Z.div_mod j 32) by lia. lia.
    + rewrite decide_False; [done|]. congruence.
  - rewrite decide_False; [done|]. congruence.
Qed.

Lemma slot_bit_set p i j :
  Z.of_nat (length (allocated_ p)) = (PoolSize + 31) / 32 -> 0 <= i < PoolSize -> 0 <= j < PoolSize ->
  slot_bit (set_allocated_ (zalter (fun w => bit_set w (i mod 32)) (i / 32) (allocated_ p)) p) j = if decide (i = j) then true else slot_bit p j.
Proof.
  apply (slot_bit_alter bit_set). intros w n m Hn Hm. rewrite bit_set_testbit by lia. destruct (decide (n = m)) as [->|]; [by rewrite Z.eqb_refl|].
  by destruct (Z.eqb_spec n m).
Qed.

Lemma slot_bit_clear p i j :
  Z.of_nat (length (allocated_ p)) = (PoolSize + 31) / 32 -> 0 <= i < PoolSize -> 0 <= j < PoolSize ->
  slot_bit (set_allocated_ (zalter (fun w => bit_clear w (i mod 32)) (i / 32) (allocated_ p)) p) j = if decide (i = j) then false else slot_bit p j.
Proof.
  apply (slot_bit_alter bit_clear). intros w n m Hn Hm. rewrite bit_clear_testbit by lia. destruct (decide (n = m)) as [->|]; [by rewrite Z.eqb_refl|].
  by destruct (Z.eqb_spec n m).
Qed.

(** ** Operations *)

Lemma slot_next_set p a v b :
  is_slot a -> is_slot b -> Z.of_nat (length (first_word p)) = PoolSize ->
  slot_next (set_slot_next a v p) b = if decide (a = b) then v else slot_next p b.
Proof.
  intros (i & Hi & ->) (j & Hj & ->) Hl. unfold slot_next, set_slot_next. cbn [first_word set_first_word]. rewrite !slot_index_addr.
  rewrite zlookup_zalter by (split; lia). destruct (decide (i = j)) as [->|Ne]; [by rewrite decide_True|].
  rewrite decide_False; [done|]. intros E. by apply Ne, slot_addr_inj.
Qed.

Lemma pool_ctor_inv : pool_inv pool_ctor (map slot_addr (seqZ 0 PoolSize)).
Proof.
  destruct Hok as (HN & _ & _).
  assert (Hnext : forall i, 0 <= i < PoolSize -> slot_next pool_ctor (slot_addr i) = if i =? PoolSize - 1 then nullptr else slot_addr (i + 1)).
  { intros i Hi. unfold slot_next. rewrite slot_index_addr. cbn [first_word pool_ctor]. apply zlookup_Some; [lia|].
    rewrite list_lookup_fmap, lookup_seqZ_lt by lia. cbn. rewrite Z2Nat.id by lia. done. }
  assert (Hin : forall a, a ∈ map slot_addr (seqZ 0 PoolSize) -> is_slot a).
  { intros a (i & -> & Hi)%list_elem_of_fmap. apply elem_of_seqZ in Hi. by exists i. }
  split; cbn [first_word allocated_ free_list_ pool_ctor].
  - rewrite length_map, length_seqZ. lia.
  - rewrite length_replicate, Z2Nat.id; [done|]. apply Z.div_pos; lia.
  - assert (H : forall n i, 0 <= i -> i + Z.of_nat n = PoolSize ->
      free_chain (slot_next pool_ctor) (if decide (n = O) then nullptr else slot_addr i) (map slot_addr (seqZ i (Z.of_nat n)))).
    { induction n as [|n IH]; intros i Hi Hn; [done|]. rewrite seqZ_cons by lia. cbn [map free_chain]. rewrite decide_False by done.
      split; [done|]. split; [by apply slot_addr_pos|]. rewrite Hnext by lia. replace (Z.pred (Z.of_nat (S n))) with (Z.of_nat n) by lia.
      specialize (IH (Z.succ i) ltac:(lia) ltac:(lia)). destruct (decide (n = O)) as [->|Hne].
      - destruct (Z.eqb_spec i (PoolSize - 1)); [exact IH|lia].
      - destruct (Z.eqb_spec i (PoolSize - 1)); [lia|exact IH]. }
    specialize (H (Z.to_nat PoolSize) 0 ltac:(lia) ltac:(lia)). rewrite Z2Nat.id in H by lia. rewrite decide_False in H by lia. exact H.
  - apply NoDup_fmap_2_strong; [|apply NoDup_seqZ]. intros i j _ _. apply slot_addr_inj.
  - exact Hin.
  - intros i Hi. rewrite bool_decide_false.
    + unfold slot_bit. destruct (word_index i Hi) as [W1 W2]. cbn [allocated_ pool_ctor].
      rewrite (zlookup_Some _ _ 0); [|lia|apply lookup_replicate; split; [done|lia]]. by rewrite bit_test_testbit, Z.testbit_0_l by lia.
    + intros Hn. apply Hn, list_elem_of_fmap. exists i. split; [done|]. apply elem_of_seqZ. lia.
Qed.

Lemma pool_allocate_inv p free :
  pool_inv p free ->
  match free with
  | [] => pool_allocate p = (nullptr, p)
  | a :: free => (pool_allocate p).1 = a /\ pool_inv (pool_allocate p).2 free
  end.
Proof.
  intros [H1 H2 H3 H4 H5 H6]. unfold pool_allocate. pose proof (free_chain_null _ _ _ H3) as Hn.
  destruct free as [|a free]; [by rewrite (proj2 Hn eq_refl)|]. destruct (Z.eqb_spec (free_list_ p) nullptr) as [E|_]; [by apply Hn in E|].
  destruct H3 as (E & Ha & Hc). apply NoDup_cons in H4 as [Hnin Hnd]. cbn [fst snd]. split; [done|].
  destruct (H5 a ltac:(left)) as (i & Hi & Ei). rewrite E, Ei, slot_index_addr.
  split; cbn [first_word free_list_ set_allocated_ set_free_list_]; [done| | |done|intros b Hb; apply H5; by right|].
  - cbn. by rewrite length_zalter.
  - rewrite <- Ei. exact Hc.
  - intros j Hj. rewrite (slot_bit_set (set_free_list_ _ p)) by done. destruct (decide (i = j)) as [->|Ne].
    + rewrite bool_decide_true; [done|]. by rewrite <- Ei.
    + change (slot_bit (set_free_list_ _ p) j) with (slot_bit p j). rewrite H6 by done. apply bool_decide_ext. rewrite Ei.
      split; [intros Hx Hy; apply Hx; by right|]. intros Hx [Hy|Hy]%elem_of_cons; [apply Ne; symmetry; by apply slot_addr_inj|done].
Qed.

Lemma pool_deallocate_inv p free a :
  pool_inv p free -> is_slot a ->
  if decide (a ∈ free) then pool_deallocate a p = p else pool_inv (pool_deallocate a p) (a :: free).
Proof.
  intros [H1 H2 H3 H4 H5 H6] Ha. pose proof Ha as (i & Hi & Ei). unfold pool_deallocate. destruct Hok as (_ & Hs & Hb).
  destruct (Z.eqb_spec a nullptr) as [E|Hnn]; [exfalso; apply (slot_addr_pos i); [lia|congruence]|].
  assert (Hr : (a <? buffer_start) || (buffer_start + PoolSize * sizeof_Slot <=? a) = false).
  { rewrite Ei. unfold slot_addr. apply orb_false_iff. split; [apply Z.ltb_ge; nia|apply Z.leb_gt; nia]. }
  assert (Ix : slot_index a = i) by (rewrite Ei; apply slot_index_addr). pose proof (H6 i Hi) as Hbit. rewrite <- Ei in Hbit.
  rewrite Hr. cbv zeta. rewrite Ix, Hbit. destruct (decide (a ∈ free)) as [Hin|Hin].
  { by rewrite bool_decide_false by (intros Hx; by apply Hx). }
  rewrite bool_decide_true by done. cbn [negb].
  set (p1 := set_allocated_ _ p).
  assert (Hbits : forall j, 0 <= j < PoolSize -> slot_bit p1 j = if decide (i = j) then false else slot_bit p j) by (intros j Hj; by apply slot_bit_clear).
  assert (Hlen : length (allocated_ p1) = length (allocated_ p)) by (unfold p1; cbn; apply length_zalter).
  assert (Hw : first_word p1 = first_word p /\ free_list_ p1 = free_list_ p) by done. clearbody p1. destruct Hw as [W1 W2].
  assert (Hn : forall b, is_slot b -> slot_next (set_slot_next a (free_list_ p1) p1) b = if decide (a = b) then free_list_ p else slot_next p b).
  { intros b Hb'. rewrite slot_next_set by (done || by rewrite W1). rewrite W2. unfold slot_next. by rewrite W1. }
  split.
  - cbn. rewrite length_zalter. by rewrite W1.
  - cbn. by rewrite Hlen.
  - cbn [free_chain free_list_ set_free_list_]. split; [done|]. split; [done|].
    change (slot_next (set_free_list_ a ?q)) with (slot_next q). rewrite Hn, decide_True by done. eapply free_chain_ext; [exact H3|].
    intros b Hb'. rewrite Hn by by apply H5. rewrite decide_False; [done|]. by intros ->.
  - by apply NoDup_cons.
  - intros b [->|Hb']%elem_of_cons; [done|by apply H5].
  - intros j Hj. change (slot_bit (set_free_list_ a (set_slot_next a (free_list_ p1) p1)) j) with (slot_bit p1 j). rewrite Hbits by done.
    destruct (decide (i = j)) as [->|Ne]; [rewrite bool_decide_false; [done|]; intros Hx; apply Hx; rewrite Ei; left|].
    rewrite H6 by done. apply bool_decide_ext. split; [|intros Hx Hy; apply Hx; by right].
    intros Hx [Hy|Hy]%elem_of_cons; [|done]. apply Ne. symmetry. apply slot_addr_inj. by rewrite Hy.
Qed.

(** A client writes to the first word of a slot that is not free. *)
Lemma pool_write_inv p free a v : pool_inv p free -> is_slot a -> a ∉ free -> pool_inv (set_slot_next a v p) free.
Proof.
  intros [H1 H2 H3 H4 H5 H6] Ha Hn. split; [by cbn; rewrite length_zalter|done| |done|done|exact H6].
  eapply free_chain_ext; [exact H3|]. intros b Hb. rewrite slot_next_set by (done || by apply H5). rewrite decide_False; [done|]. by intros ->.
Qed.
End MemoryPool.

(** * Pages *)

Definition PAGE_SIZE : Z := 4096.
Definition page_up (a : Z) : Z := Z.land (wrap32 (a + PAGE_SIZE - 1)) (Z.lnot (PAGE_SIZE - 1)).
Definition page_down (a : Z) : Z := Z.land (wrap32 a) (Z.lnot (PAGE_SIZE - 1)).

(** The allocator and the memory it manages. *)
Record PageAllocator := mkPages { base_addr_ : Z; total_pages_ : Z; free_pages_ : Z; free_list_head_ : Z; page_mem : gmap Z Z }.

Definition set_page_mem v p := mkPages (base_addr_ p) (total_pages_ p) (free_pages_ p) (free_list_head_ p) v.

(** The linking loop of [init]: [n] pages behind [current]. *)
Fixpoint link_pages (n : nat) (current : Z) (m : gmap Z Z) : gmap Z Z :=
  match n with
  | O => store32 m current nullptr
  | S n => let next := wrap32 (current + PAGE_SIZE) in link_pages n next (store32 m current next)
  end.

Definition pages_init (start_addr size : Z) (m : gmap Z Z) : PageAllocator :=
  let start := page_up start_addr in
  let end_ := page_down (start_addr + size) in
  let total := wrap32 (end_ - start) / PAGE_SIZE in
  if total =? 0 then mkPages start total total nullptr m
  else mkPages start total total start (link_pages (Z.to_nat (total - 1)) start m).

(** [for (i = 0; i < PAGE_SIZE; ++i) p[i] = 0]. *)
Fixpoint zero_bytes (n : nat) (a : Z) (m : gmap Z Z) : gmap Z Z :=
  match n with
  | O => m
  | S n => zero_bytes n (a + 1) (store8 m a 0)
  end.

Definition alloc_page (p : PageAllocator) : Z * PageAllocator :=
  if free_list_head_ p =? nullptr then (nullptr, p) else
  let allocated := free_list_head_ p in
  (allocated, mkPages (base_addr_ p) (total_pages_ p) (wrap32 (free_pages_ p - 1)) (load32 (page_mem p) allocated)
                (zero_bytes (Z.to_nat PAGE_SIZE) allocated (page_mem p))).

Definition free_page (page : Z) (p : PageAllocator) : PageAllocator :=
  if page =? nullptr then p else
  mkPages (base_addr_ p) (total_pages_ p) (wrap32 (free_pages_ p + 1)) page (store32 (page_mem p) page (free_list_head_ p)).

(** ** Memory *)

Lemma load32_ext m m' a : (forall b, a <= b < a + 4 -> load8 m' b = load8 m b) -> load32 m' a = load32 m a.
Proof. intros H. unfold load32. rewrite !H by lia. done. Qed.

Lemma load8_store32_ne m a v b : b < a \/ a + 4 <= b -> load8 (store32 m a v) b = load8 m b.
Proof. intros H. unfold store32. rewrite !load8_store8, !decide_False by lia. done. Qed.

Lemma load8_zero_bytes n a m b :
  load8 (zero_bytes n a m) b = if decide (a <= b < a + Z.of_nat n) then 0 else load8 m b.
Proof.
  revert a m. induction n as [|n IH]; intros a m; cbn [zero_bytes]; [destruct (decide _); [lia|done]|].
  rewrite IH, load8_store8. destruct (decide (a + 1 <= b < a + 1 + Z.of_nat n)), (decide (a <= b < a + Z.of_nat (S n))), (decide (a = b)); (done || lia).
Qed.

(** ** The invariant *)

Definition is_page (p : PageAllocator) (a : Z) : Prop :=
  exists i, 0 <= i < total_pages_ p /\ a = base_addr_ p + i * PAGE_SIZE.

Record pages_inv (p : PageAllocator) (free : list Z) : Prop := {
  pg_range : 0 < base_addr_ p /\ 0 <= total_pages_ p /\ base_addr_ p + total_pages_ p * PAGE_SIZE <= 4294967296;
  pg_chain : free_chain (load32 (page_mem p)) (free_list_head_ p) free;
  pg_nodup : NoDup free;
  pg_pages : forall a, a ∈ free -> is_page p a;
  pg_count : free_pages_ p = Z.of_nat (length free);
}.

(** Two pages do not overlap. *)
Lemma pages_apart p a b : is_page p a -> is_page p b -> a <> b -> a + PAGE_SIZE <= b \/ b + PAGE_SIZE <= a.
Proof. unfold PAGE_SIZE. intros (i & Hi & ->) (j & Hj & ->) Hne. assert (i <> j) by congruence. unfold PAGE_SIZE in *. nia. Qed.

Lemma page_u32 p free a : pages_inv p free -> is_page p a -> 0 < a /\ a + PAGE_SIZE <= 4294967296.
Proof. intros [(H1 & H2 & H3) _ _ _ _] (i & Hi & ->). unfold PAGE_SIZE in *. nia. Qed.

(** The number of pages bounds a list of distinct pages. *)
Lemma pages_length p l : NoDup l -> (forall a, a ∈ l -> is_page p a) -> 0 <= total_pages_ p -> Z.of_nat (length l) <= total_pages_ p.
Proof.
  intros Hnd Hp H0. assert (Hsub : l ⊆+ map (fun i => base_addr_ p + i * PAGE_SIZE) (seqZ 0 (total_pages_ p))).
  { apply NoDup_submseteq; [done|]. intros a Ha. destruct (Hp a Ha) as (i & Hi & ->). apply list_elem_of_fmap. exists i. split; [done|].
    apply elem_of_seqZ. lia. }
  apply submseteq_length in Hsub. rewrite length_map, length_seqZ in Hsub. lia.
Qed.

(** Changes of the memory outside the free pages. *)
Lemma pages_write_inv p free m :
  pages_inv p free -> (forall a b, a ∈ free -> a <= b < a + PAGE_SIZE -> load8 m b = load8 (page_mem p) b) ->
  pages_inv (set_page_mem m p) free.
Proof.
  intros [H1 H2 H3 H4 H5] Hm. split; [done| |done|done|done]. eapply free_chain_ext; [exact H2|]. intros a Ha. apply load32_ext.
  intros b Hb. apply (Hm a); [done|]. unfold PAGE_SIZE. lia.
Qed.

Lemma alloc_page_inv p free :
  pages_inv p free ->
  match free with
  | [] => alloc_page p = (nullptr, p)
  | a :: free => (alloc_page p).1 = a /\ pages_inv (alloc_page p).2 free /\
      (forall b, load8 (page_mem (alloc_page p).2) b = if decide (a <= b < a + PAGE_SIZE) then 0 else load8 (page_mem p) b) /\
      base_addr_ (alloc_page p).2 = base_addr_ p /\ total_pages_ (alloc_page p).2 = total_pages_ p
  end.
Proof.
  intros Hi. pose proof Hi as [H1 H2 H3 H4 H5]. unfold alloc_page. pose proof (free_chain_null _ _ _ H2) as Hn.
  destruct free as [|a free]; [by rewrite (proj2 Hn eq_refl)|]. destruct (Z.eqb_spec (free_list_head_ p) nullptr) as [E|_]; [by apply Hn in E|].
  destruct H2 as (E & Ha & Hc). apply NoDup_cons in H3 as [Hnin Hnd]. cbv zeta. rewrite E. cbn [fst snd page_mem base_addr_ total_pages_].
  assert (Hz : forall b, load8 (zero_bytes (Z.to_nat PAGE_SIZE) a (page_mem p)) b = if decide (a <= b < a + PAGE_SIZE) then 0 else load8 (page_mem p) b).
  { intros b. rewrite load8_zero_bytes, Z2Nat.id by (unfold PAGE_SIZE; lia). done. }
  split; [done|]. split; [|done]. split; cbn [base_addr_ total_pages_ free_pages_ free_list_head_ page_mem]; [done| |done| |].
  - eapply free_chain_ext; [exact Hc|]. intros b Hb. apply load32_ext. intros c Hc'. rewrite Hz, decide_False; [done|].
    destruct (pages_apart p a b) as [?|?]; [apply H4; left|apply H4; by right|by intros ->|unfold PAGE_SIZE in *; lia..].
  - intros b Hb. apply (H4 b). by right.
  - rewrite H5. cbn [length]. assert (Hl := pages_length p (a :: free) ltac:(by apply NoDup_cons) H4 ltac:(lia)). cbn [length] in Hl.
    rewrite wrap32_small; [lia|]. unfold is_u32, PAGE_SIZE in *. lia.
Qed.

Lemma free_page_inv p free a :
  pages_inv p free -> is_page p a -> a ∉ free ->
  pages_inv (free_page a p) (a :: free) /\
  (forall b, b < a \/ a + 4 <= b -> load8 (page_mem (free_page a p)) b = load8 (page_mem p) b) /\
  base_addr_ (free_page a p) = base_addr_ p /\ total_pages_ (free_page a p) = total_pages_ p.
Proof.
  intros Hi Ha Hn. pose proof Hi as [H1 H2 H3 H4 H5]. destruct (page_u32 p free a Hi Ha) as [U1 U2]. unfold free_page.
  destruct (Z.eqb_spec a nullptr) as [E|_]; [unfold nullptr in E; lia|]. cbn [page_mem base_addr_ total_pages_].
  split; [|split; [intros b Hb; by apply load8_store32_ne|done]].
  assert (Hhead : is_u32 (free_list_head_ p)).
  { destruct free as [|b free]; [cbn in H2; rewrite H2; unfold is_u32, nullptr; lia|]. destruct H2 as (-> & _ & _).
    destruct (page_u32 p _ b Hi) as [V1 V2]; [apply H4; left|]. unfold is_u32, PAGE_SIZE in *. lia. }
  split; cbn [base_addr_ total_pages_ free_pages_ free_list_head_ page_mem]; [done| | | |].
  - split; [done|]. split; [unfold nullptr; lia|]. rewrite load32_store32 by done. eapply free_chain_ext; [exact H2|]. intros b Hb.
    apply load32_ext. intros c Hc. apply load8_store32_ne.
    destruct (pages_apart p a b) as [?|?]; [done|by apply H4|by intros ->|unfold PAGE_SIZE in *; lia..].
  - by apply NoDup_cons.
  - intros b [->|Hb]%elem_of_cons; [exact Ha|by apply (H4 b)].
  - rewrite H5. cbn [length]. assert (Hl := pages_length p (a :: free)). cbn [length] in Hl. rewrite wrap32_small; [lia|].
    unfold is_u32, PAGE_SIZE in *. assert (Z.of_nat (S (length free)) <= total_pages_ p); [|lia].
    apply Hl; [by apply NoDup_cons| |lia]. intros b [->|Hb]%elem_of_cons; [done|by apply H4].
Qed.

(** ** Initialisation *)

Definition pages_from (a n : Z) : list Z := map (fun i => a + i * PAGE_SIZE) (seqZ 0 n).

Lemma pages_from_cons a n : 0 < n -> pages_from a n = a :: pages_from (a + PAGE_SIZE) (n - 1).
Proof.
  intros Hn. unfold pages_from. rewrite seqZ_cons by lia. cbn [map]. f_equal; [lia|].
  change (Z.succ 0) with (0 + 1). rewrite Z.add_comm, <- (fmap_add_seqZ 1). unfold fmap. rewrite map_map.
  replace (Z.pred n) with (n - 1) by lia. apply map_ext. intros i. lia.
Qed.

Lemma link_pages_frame n cur m b :
  0 <= cur -> cur + (Z.of_nat n + 1) * PAGE_SIZE <= 4294967296 -> b < cur -> load8 (link_pages n cur m) b = load8 m b.
Proof.
  revert cur m. unfold PAGE_SIZE. induction n as [|n IH]; intros cur m H0 Hw Hb; cbn [link_pages]; [apply load8_store32_ne; lia|].
  unfold PAGE_SIZE. rewrite wrap32_small by (unfold is_u32; lia). rewrite IH by lia. apply load8_store32_ne. lia.
Qed.

Lemma link_pages_chain n cur m :
  0 < cur -> cur + (Z.of_nat n + 1) * PAGE_SIZE <= 4294967296 ->
  free_chain (load32 (link_pages n cur m)) cur (pages_from cur (Z.of_nat n + 1)).
Proof.
  revert cur m. unfold PAGE_SIZE. induction n as [|n IH]; intros cur m H0 Hw.
  - cbn [link_pages]. rewrite pages_from_cons by lia. cbn. split; [done|]. split; [unfold nullptr; lia|].
    rewrite load32_store32 by (unfold is_u32, nullptr; lia). done.
  - cbn [link_pages]. unfold PAGE_SIZE. rewrite wrap32_small by (unfold is_u32; lia). rewrite pages_from_cons by lia. cbn [free_chain].
    split; [done|]. split; [unfold nullptr; lia|]. rewrite (load32_ext (store32 m cur (cur + 4096))).
    + rewrite load32_store32 by (unfold is_u32; lia). unfold PAGE_SIZE. replace (Z.of_nat (S n) + 1 - 1) with (Z.of_nat n + 1) by lia. apply IH; lia.
    + intros b Hb. apply link_pages_frame; unfold PAGE_SIZE; lia.
Qed.

Lemma page_mask x : 0 <= x -> Z.land x (Z.lnot (PAGE_SIZE - 1)) = x - x mod 4096.
Proof.
  intros Hx. change (PAGE_SIZE - 1) with (Z.ones 12). rewrite <- Z.ldiff_land, Z.ldiff_ones_r by lia.
  rewrite Z.shiftr_div_pow2, Z.shiftl_mul_pow2 by lia. change (2 ^ 12) with 4096. Z.to_euclidean_division_equations. lia.
Qed.

(** The region holds a page boundary. *)
Definition page_region (start_addr size : Z) : Prop :=
  0 < start_addr /\ 0 <= size /\ start_addr + size < 4294967296 /\ start_addr + PAGE_SIZE - 1 < 4294967296 /\
  page_up start_addr <= page_down (start_addr + size).

Lemma pages_init_inv s n m :
  page_region s n ->
  let p := pages_init s n m in
  pages_inv p (pages_from (base_addr_ p) (total_pages_ p)) /\ s <= base_addr_ p /\ base_addr_ p mod 4096 = 0 /\
  base_addr_ p + total_pages_ p * PAGE_SIZE <= s + n /\ s + n - 2 * PAGE_SIZE < base_addr_ p + total_pages_ p * PAGE_SIZE - (base_addr_ p - s).
Proof.
  intros (H1 & H2 & H3 & H4 & H5). cbv zeta. unfold pages_init. set (st := page_up s) in *. set (en := page_down (s + n)) in *.
  assert (Est : s <= st < s + 4096 /\ st mod 4096 = 0).
  { unfold st, page_up. unfold PAGE_SIZE in H4. rewrite wrap32_small by (unfold is_u32, PAGE_SIZE; lia). rewrite page_mask by (unfold PAGE_SIZE; lia).
    unfold PAGE_SIZE. Z.to_euclidean_division_equations. lia. }
  assert (Een : s + n - 4096 < en <= s + n /\ en mod 4096 = 0).
  { unfold en, page_down. rewrite wrap32_small by (unfold is_u32; lia). rewrite page_mask by lia. Z.to_euclidean_division_equations. lia. }
  clearbody st en. rewrite wrap32_small by (unfold is_u32; lia). set (t := (en - st) / PAGE_SIZE).
  assert (Et : t * 4096 = en - st) by (unfold t, PAGE_SIZE; Z.to_euclidean_division_equations; lia). clearbody t.
  assert (Hfree : forall q, base_addr_ q = st -> total_pages_ q = t -> free_pages_ q = t ->
    free_chain (load32 (page_mem q)) (free_list_head_ q) (pages_from st t) -> pages_inv q (pages_from st t)).
  { intros q Q1 Q2 Q3 Hc. split.
    - rewrite Q1, Q2. unfold PAGE_SIZE. lia.
    - done.
    - apply NoDup_fmap_2_strong; [|apply NoDup_seqZ]. unfold PAGE_SIZE. intros; lia.
    - intros a (i & -> & Hi)%list_elem_of_fmap. apply elem_of_seqZ in Hi. exists i. rewrite Q1, Q2. split; [lia|done].
    - rewrite Q3. unfold pages_from. rewrite length_map, length_seqZ. lia. }
  destruct (Z.eqb_spec t 0) as [E0|Hne]; cbn [base_addr_ total_pages_]; (split; [apply Hfree; [done..|]|unfold PAGE_SIZE; lia]).
  - rewrite E0. done.
  - cbn [page_mem free_list_head_]. pose proof (link_pages_chain (Z.to_nat (t - 1)) st m ltac:(lia)) as Hc. unfold PAGE_SIZE in Hc.
    replace (Z.of_nat (Z.to_nat (t - 1)) + 1) with t in Hc by lia. apply Hc. lia.
Qed.
