(* ===== verification/Pte.v ===== *)
(** Page-table entries of the AArch64 translation tables
    (arch/arm/cortex-a/mmu/mmu_pte.hpp) and the flags of a mapping
    (kernel/mm/vasp.hpp).

    An entry is the raw 64-bit word; a bit field of the C++ structure is a pair
    of a position and a width, read with [field] and written with [set_field].
    The lemmas are the algebra of bit fields and the round trip between mapping
    flags and entry attributes. *)
From S2P Require Import Prelude.

(** * Bit fields *)

Definition field (lo len w : Z) : Z := Z.land (Z.shiftr w lo) (Z.ones len).

(** Assigning to a bit field keeps the low [len] bits of the value. *)
Definition set_field (lo len v w : Z) : Z :=
  Z.lor (Z.ldiff w (Z.shiftl (Z.ones len) lo)) (Z.shiftl (Z.land v (Z.ones len)) lo).

Lemma ones_testbit len j : 0 <= len -> 0 <= j -> Z.testbit (Z.ones len) j = (j <? len).
Proof.
  intros Hl Hj. destruct (Z.ltb_spec j len); [apply Z.ones_spec_low; lia|apply Z.ones_spec_high; lia].
Qed.

Lemma field_testbit lo len w j :
  0 <= lo -> 0 <= len -> 0 <= j -> Z.testbit (field lo len w) j = (j <? len) && Z.testbit w (j + lo).
Proof.
  intros. unfold field. rewrite Z.land_spec, Z.shiftr_spec, ones_testbit, andb_comm by lia. done.
Qed.

Lemma set_field_testbit lo len v w j :
  0 <= lo -> 0 <= len -> 0 <= j ->
  Z.testbit (set_field lo len v w) j =
  if (lo <=? j) && (j <? lo + len) then Z.testbit v (j - lo) else Z.testbit w j.
Proof.
  intros Hlo Hlen Hj. unfold set_field. rewrite Z.lor_spec, Z.ldiff_spec, !Z.shiftl_spec by lia.
  destruct (Z.leb_spec lo j); cbn [andb].
  - rewrite Z.land_spec, ones_testbit by lia. destruct (Z.ltb_spec (j - lo) len), (Z.ltb_spec j (lo + len)); try lia;
      destruct (Z.testbit w j), (Z.testbit v (j - lo)); done.
  - rewrite !(Z.testbit_neg_r _ (j - lo)) by lia. destruct (Z.testbit w j); done.
Qed.

Lemma field_set_eq lo len v w : 0 <= lo -> 0 <= len -> field lo len (set_field lo len v w) = Z.land v (Z.ones len).
Proof.
  intros Hlo Hlen. apply Z.bits_inj'. intros j Hj.
  rewrite field_testbit, set_field_testbit, Z.land_spec, ones_testbit by lia.
  replace (j + lo - lo) with j by lia.
  destruct (Z.ltb_spec j len), (Z.leb_spec lo (j + lo)), (Z.ltb_spec (j + lo) (lo + len)); try lia;
    destruct (Z.testbit v j); done.
Qed.

Lemma field_set_ne lo len lo' len' v w :
  0 <= lo -> 0 <= len -> 0 <= lo' -> 0 <= len' -> lo + len <= lo' \/ lo' + len' <= lo ->
  field lo len (set_field lo' len' v w) = field lo len w.
Proof.
  intros ? ? ? ? Hd. apply Z.bits_inj'. intros j Hj. rewrite !field_testbit, set_field_testbit by lia.
  destruct (Z.ltb_spec j len); [|done]. destruct (Z.leb_spec lo' (j + lo)), (Z.ltb_spec (j + lo) (lo' + len')); (lia || done).
Qed.

Lemma field_range lo len w : 0 <= len -> 0 <= field lo len w < 2 ^ len.
Proof. intros. unfold field. rewrite Z.land_ones by done. apply Z.mod_pos_bound. lia. Qed.

Lemma field_zero lo len : field lo len 0 = 0.
Proof. unfold field. by rewrite Z.shiftr_0_l, Z.land_0_l. Qed.

(** A field written with a value that fits is read back. *)
Lemma ones_small v len : 0 <= len -> 0 <= v < 2 ^ len -> Z.land v (Z.ones len) = v.
Proof. intros. rewrite Z.land_ones by done. apply Z.mod_small. done. Qed.

Lemma set_field_range lo len v w n :
  0 <= lo -> 0 <= len -> lo + len <= n -> 0 <= w < 2 ^ n -> 0 <= set_field lo len v w < 2 ^ n.
Proof.
  intros Hlo Hlen Hn Hw. assert (H0 : 0 <= set_field lo len v w).
  { unfold set_field. apply Z.lor_nonneg. split; [apply Z.ldiff_nonneg; left; lia|].
    apply Z.shiftl_nonneg, Z.land_nonneg. right. rewrite Z.ones_equiv. pose proof (Z.pow_pos_nonneg 2 len). lia. }
  split; [done|]. apply bits_bound; [done|lia|]. intros j Hj. rewrite set_field_testbit by lia.
  rewrite (bits_above w n j) by done. destruct (Z.leb_spec lo j), (Z.ltb_spec j (lo + len)); (lia || done).
Qed.

(** * The entry *)

Definition valid (w : Z) : Z := field 0 1 w.
Definition is_table (w : Z) : Z := field 1 1 w.
Definition attr_indx (w : Z) : Z := field 2 3 w.
Definition ap (w : Z) : Z := field 6 2 w.
Definition sh (w : Z) : Z := field 8 2 w.
Definition af (w : Z) : Z := field 10 1 w.
Definition output_addr (w : Z) : Z := field 12 36 w.
Definition pxn (w : Z) : Z := field 53 1 w.
Definition uxn (w : Z) : Z := field 54 1 w.

Definition set_valid v w := set_field 0 1 v w.
Definition set_is_table v w := set_field 1 1 v w.
Definition set_attr_indx v w := set_field 2 3 v w.
Definition set_ap v w := set_field 6 2 v w.
Definition set_sh v w := set_field 8 2 v w.
Definition set_af v w := set_field 10 1 v w.
Definition set_output_addr v w := set_field 12 36 v w.
Definition set_pxn v w := set_field 53 1 v w.
Definition set_uxn v w := set_field 54 1 v w.

(** [get_address], [set_address] and [clear]. *)
Definition get_address (w : Z) : Z := Z.shiftl (output_addr w) 12.
Definition set_address (addr w : Z) : Z := set_output_addr (Z.land (Z.shiftr addr 12) (Z.ones 36)) w.
Definition clear : Z := 0.

Definition MAIR_IDX_DEVICE_nGnRnE : Z := 0.
Definition MAIR_IDX_DEVICE_nGnRE : Z := 1.
Definition MAIR_IDX_NORMAL_WB : Z := 3.
Definition SH_OUTER_SHAREABLE : Z := 2.
Definition SH_INNER_SHAREABLE : Z := 3.
Definition AP_EL1_RW_EL0_NONE : Z := 0.
Definition AP_ALL_RW : Z := 1.
Definition AP_EL1_RO_EL0_NONE : Z := 2.
Definition AP_ALL_RO : Z := 3.

(** * Flags of a mapping *)

Definition MapRead : Z := 1.
Definition MapWrite : Z := 2.
Definition MapExecute : Z := 4.
Definition MapUser : Z := 8.
Definition MapDevice : Z := 16.

Definition test_flags (a b : Z) : bool := negb (Z.land a b =? 0).

(** The attribute part of [map] and [protect]: memory type and shareability,
    access permissions, execution permissions. *)
Definition set_memory_type (flags w : Z) : Z :=
  if test_flags flags MapDevice
  then set_sh SH_OUTER_SHAREABLE (set_attr_indx MAIR_IDX_DEVICE_nGnRE w)
  else set_sh SH_INNER_SHAREABLE (set_attr_indx MAIR_IDX_NORMAL_WB w).

Definition set_access (flags w : Z) : Z :=
  if test_flags flags MapUser
  then set_ap (if test_flags flags MapWrite then AP_ALL_RW else AP_ALL_RO) w
  else set_ap (if test_flags flags MapWrite then AP_EL1_RW_EL0_NONE else AP_EL1_RO_EL0_NONE) w.

Definition set_execution (flags w : Z) : Z :=
  if test_flags flags MapExecute
  then set_pxn (if test_flags flags MapUser then 1 else 0) (set_uxn (if test_flags flags MapUser then 0 else 1) w)
  else set_pxn 1 (set_uxn 1 w).

Definition set_attributes (flags w : Z) : Z := set_execution flags (set_access flags (set_memory_type flags w)).

(** The leaf entry that [map] writes. *)
Definition page_entry (paddr flags : Z) : Z :=
  set_attributes flags (set_af 1 (set_output_addr (Z.shiftr paddr 12) (set_is_table 1 (set_valid 1 clear)))).

(** The entry for a next-level table that [get_or_allocate_next_level] writes. *)
Definition table_entry (page : Z) : Z :=
  set_output_addr (Z.shiftr page 12) (set_is_table 1 (set_valid 1 clear)).

(** The flags that [translate] reports. *)
Definition entry_flags (w : Z) : Z :=
  let f := MapRead in
  let f := if (ap w =? AP_ALL_RW) || (ap w =? AP_EL1_RW_EL0_NONE) then Z.lor f MapWrite else f in
  let f := if (ap w =? AP_ALL_RW) || (ap w =? AP_ALL_RO) then Z.lor f MapUser else f in
  let f := if (uxn w =? 0) || (pxn w =? 0) then Z.lor f MapExecute else f in
  if (attr_indx w =? MAIR_IDX_DEVICE_nGnRE) || (attr_indx w =? MAIR_IDX_DEVICE_nGnRnE) then Z.lor f MapDevice else f.

(** What the entry keeps of the requested flags: a mapping is always readable,
    the other four flags are kept. *)
Definition effective_flags (flags : Z) : Z := Z.lor MapRead (Z.land flags 30).

(** * Lemmas *)

(** Reads of a field through writes of others. *)
Ltac pte_fields :=
  unfold valid, is_table, attr_indx, ap, sh, af, output_addr, pxn, uxn,
    set_valid, set_is_table, set_attr_indx, set_ap, set_sh, set_af, set_output_addr, set_pxn, set_uxn in *;
  repeat first [rewrite field_set_eq by lia | rewrite field_set_ne by lia].

Lemma set_attributes_keep flags w :
  valid (set_attributes flags w) = valid w /\ is_table (set_attributes flags w) = is_table w /\
  output_addr (set_attributes flags w) = output_addr w /\ af (set_attributes flags w) = af w.
Proof.
  unfold set_attributes, set_execution, set_access, set_memory_type.
  destruct (test_flags flags MapExecute), (test_flags flags MapUser), (test_flags flags MapDevice); pte_fields; done.
Qed.

Lemma page_entry_valid paddr flags : valid (page_entry paddr flags) = 1.
Proof. unfold page_entry. rewrite (proj1 (set_attributes_keep _ _)). pte_fields. done. Qed.

Lemma page_entry_is_table paddr flags : is_table (page_entry paddr flags) = 1.
Proof. unfold page_entry. destruct (set_attributes_keep flags (set_af 1 (set_output_addr (Z.shiftr paddr 12) (set_is_table 1 (set_valid 1 clear))))) as (_ & -> & _). pte_fields. done. Qed.

Lemma page_entry_addr paddr flags : output_addr (page_entry paddr flags) = Z.land (Z.shiftr paddr 12) (Z.ones 36).
Proof. unfold page_entry. destruct (set_attributes_keep flags (set_af 1 (set_output_addr (Z.shiftr paddr 12) (set_is_table 1 (set_valid 1 clear))))) as (_ & _ & -> & _). pte_fields. done. Qed.

(** The attributes of an entry depend only on the flags. *)
Lemma set_attributes_flags flags w :
  entry_flags (set_attributes flags w) =
  let f := MapRead in
  let f := if test_flags flags MapWrite then Z.lor f MapWrite else f in
  let f := if test_flags flags MapUser then Z.lor f MapUser else f in
  let f := if test_flags flags MapExecute then Z.lor f MapExecute else f in
  if test_flags flags MapDevice then Z.lor f MapDevice else f.
Proof.
  unfold entry_flags, set_attributes, set_execution, set_access, set_memory_type.
  destruct (test_flags flags MapExecute), (test_flags flags MapUser), (test_flags flags MapDevice), (test_flags flags MapWrite);
    pte_fields; reflexivity.
Qed.

Lemma test_flags_bit flags n : 0 <= n -> test_flags flags (bit n) = Z.testbit flags n.
Proof. apply bit_test_testbit. Qed.

(** Flags round trip through an entry. *)
Lemma set_attributes_roundtrip flags w : entry_flags (set_attributes flags w) = effective_flags flags.
Proof.
  rewrite set_attributes_flags. cbv zeta.
  change MapWrite with (bit 1). change MapUser with (bit 3). change MapExecute with (bit 2). change MapDevice with (bit 4).
  rewrite !test_flags_bit by lia. unfold effective_flags.
  assert (E : Z.land flags 30 = Z.lor (if Z.testbit flags 1 then 2 else 0) (Z.lor (if Z.testbit flags 2 then 4 else 0)
    (Z.lor (if Z.testbit flags 3 then 8 else 0) (if Z.testbit flags 4 then 16 else 0)))).
  { apply Z.bits_inj'. intros j Hj. rewrite Z.land_spec, !Z.lor_spec.
    destruct (Z.lt_ge_cases j 5) as [Hs|Hs].
    - assert (Hc : j = 0 \/ j = 1 \/ j = 2 \/ j = 3 \/ j = 4) by lia.
      destruct Hc as [->|[->|[->|[->| ->]]]];
        destruct (Z.testbit flags 0), (Z.testbit flags 1), (Z.testbit flags 2), (Z.testbit flags 3), (Z.testbit flags 4); reflexivity.
    - assert (Hb : forall v, 0 <= v < 2 ^ 5 -> Z.testbit v j = false) by (intros v Hv; by apply (bits_above v 5)).
      rewrite (Hb 30) by lia. rewrite andb_false_r.
      destruct (Z.testbit flags 1), (Z.testbit flags 2), (Z.testbit flags 3), (Z.testbit flags 4); rewrite ?Hb by lia; done. }
  rewrite E. destruct (Z.testbit flags 1), (Z.testbit flags 2), (Z.testbit flags 3), (Z.testbit flags 4); reflexivity.
Qed.

Lemma page_entry_flags paddr flags : entry_flags (page_entry paddr flags) = effective_flags flags.
Proof. apply set_attributes_roundtrip. Qed.

Lemma table_entry_valid page : valid (table_entry page) = 1.
Proof. unfold table_entry. pte_fields. done. Qed.

Lemma table_entry_is_table page : is_table (table_entry page) = 1.
Proof. unfold table_entry. pte_fields. done. Qed.

(** A page address of at most 48 bits survives in an entry. *)
Lemma shift_page a : a mod 4096 = 0 -> Z.shiftl (Z.shiftr a 12) 12 = a.
Proof. intros H. rewrite Z.shiftl_mul_pow2, Z.shiftr_div_pow2 by lia. change (2 ^ 12) with 4096. Z.to_euclidean_division_equations. lia. Qed.

Lemma table_entry_addr page :
  0 <= page < 2 ^ 48 -> page mod 4096 = 0 -> get_address (table_entry page) = page.
Proof.
  intros Hp Ha. unfold get_address, table_entry. pte_fields. rewrite ones_small; [by apply shift_page|lia|].
  rewrite Z.shiftr_div_pow2 by lia. change (2 ^ 12) with 4096. change (2 ^ 36) with (2 ^ 48 / 4096).
  split; [apply Z.div_pos; lia|]. apply Z.div_lt_upper_bound; [lia|]. change (4096 * (2 ^ 48 / 4096)) with (2 ^ 48). lia.
Qed.

Lemma valid_cases w : valid w = 0 \/ valid w = 1.
Proof. pose proof (field_range 0 1 w). unfold valid. change (2 ^ 1) with 2 in *. lia. Qed.
