(* ===== verification/Frames.v ===== *)
(** The page allocator (kernel/mm/page_allocator.hpp) in the 64-bit AArch64
    build, where it supplies the pages of the translation tables.

    Pages are zero-filled, linked and used as tables only through aligned 64-bit
    words, so the memory is a map from 8-byte aligned addresses to words.
    [frames_inv] is the invariant: the free list is a duplicate-free list of
    frames of the pool, and the counter is its length. *)
From S2P Require Import Prelude Pools.

Definition wrap64 (x : Z) : Z := x mod 18446744073709551616.

Definition load64 (m : gmap Z Z) (a : Z) : Z := default 0 (m !! a).
Definition store64 (m : gmap Z Z) (a v : Z) : gmap Z Z := <[a := v]> m.

Record Frames := mkFrames { fr_base : Z; fr_total : Z; fr_free : Z; fr_head : Z; words : gmap Z Z }.

Definition set_words v p := mkFrames (fr_base p) (fr_total p) (fr_free p) (fr_head p) v.

(** ** Operations *)

Fixpoint link_frames (n : nat) (current : Z) (m : gmap Z Z) : gmap Z Z :=
  match n with
  | O => store64 m current nullptr
  | S n => let next := wrap64 (current + PAGE_SIZE) in link_frames n next (store64 m current next)
  end.

Definition frames_init (start_addr size : Z) (m : gmap Z Z) : Frames :=
  let start := Z.land (wrap64 (start_addr + PAGE_SIZE - 1)) (Z.lnot (PAGE_SIZE - 1)) in
  let end_ := Z.land (wrap64 (start_addr + size)) (Z.lnot (PAGE_SIZE - 1)) in
  let total := wrap64 (end_ - start) / PAGE_SIZE in
  if total =? 0 then mkFrames start total total nullptr m
  else mkFrames start total total start (link_frames (Z.to_nat (total - 1)) start m).

(** [for (i = 0; i < PAGE_SIZE; ++i) p[i] = 0], one word of eight bytes at a
    time. *)
Fixpoint zero_words (n : nat) (a : Z) (m : gmap Z Z) : gmap Z Z :=
  match n with
  | O => m
  | S n => zero_words n (a + 8) (store64 m a 0)
  end.

Definition alloc_frame (p : Frames) : Z * Frames :=
  if fr_head p =? nullptr then (nullptr, p) else
  let allocated := fr_head p in
  (allocated, mkFrames (fr_base p) (fr_total p) (wrap64 (fr_free p - 1)) (load64 (words p) allocated)
                (zero_words 512 allocated (words p))).

Definition free_frame (page : Z) (p : Frames) : Frames :=
  if page =? nullptr then p else
  mkFrames (fr_base p) (fr_total p) (wrap64 (fr_free p + 1)) page (store64 (words p) page (fr_head p)).

(** ** The invariant *)

(** The page that holds an address. *)
Definition page_of (a : Z) : Z := a - a mod 4096.

Definition is_frame (p : Frames) (a : Z) : Prop :=
  exists i, 0 <= i < fr_total p /\ a = fr_base p + i * PAGE_SIZE.

Record frames_inv (p : Frames) (free : list Z) : Prop := {
  fr_range : 0 < fr_base p /\ fr_base p mod 4096 = 0 /\ 0 <= fr_total p /\ fr_base p + fr_total p * PAGE_SIZE <= 2 ^ 48;
  fr_chain : free_chain (load64 (words p)) (fr_head p) free;
  fr_nodup : NoDup free;
  fr_pages : forall a, a ∈ free -> is_frame p a;
  fr_count : fr_free p = Z.of_nat (length free);
}.

(** The pool itself does not move. *)
Definition same_pool (p q : Frames) : Prop := fr_base q = fr_base p /\ fr_total q = fr_total p.

#[export] Instance same_pool_equiv : Equivalence same_pool.
Proof. unfold same_pool. split; red; intuition congruence. Qed.

Lemma is_frame_pool p q a : same_pool p q -> is_frame p a -> is_frame q a.
Proof. intros [E1 E2] (i & Hi & ->). exists i. by rewrite E1, E2. Qed.

Lemma load64_store64 m a v b : load64 (store64 m a v) b = if decide (a = b) then v else load64 m b.
Proof. unfold load64, store64. rewrite lookup_insert. by case_decide. Qed.

Lemma wrap64_small x : 0 <= x < 18446744073709551616 -> wrap64 x = x.
Proof. intros. by apply Z.mod_small. Qed.

Lemma zero_words_spec n a m b :
  load64 (zero_words n a m) b = if decide (a <= b < a + 8 * Z.of_nat n /\ (b - a) mod 8 = 0) then 0 else load64 m b.
Proof.
  revert a m. induction n as [|n IH]; intros a m; cbn [zero_words]; [destruct (decide _); [lia|done]|].
  rewrite IH, load64_store64.
  destruct (decide (a + 8 <= b < a + 8 + 8 * Z.of_nat n /\ (b - (a + 8)) mod 8 = 0)) as [H1|H1],
    (decide (a <= b < a + 8 * Z.of_nat (S n) /\ (b - a) mod 8 = 0)) as [H2|H2], (decide (a = b)) as [H3|H3]; try done; exfalso.
  1, 2: apply H2; split; [lia|]; destruct H1 as [_ H1]; Z.to_euclidean_division_equations; lia.
  1: apply H1; split; [|destruct H2 as [_ H2]; Z.to_euclidean_division_equations; lia]; destruct H2 as [H2 H4]; Z.to_euclidean_division_equations; lia.
  apply H2. subst. rewrite Z.sub_diag. split; [lia|done].
Qed.

Lemma frame_aligned p free a : frames_inv p free -> is_frame p a -> 0 < a /\ a mod 4096 = 0 /\ a + 4096 <= 2 ^ 48.
Proof.
  intros [(H1 & H2 & H3 & H4) _ _ _ _] (i & Hi & ->). unfold PAGE_SIZE in *.
  assert (Hm : (fr_base p + i * 4096) mod 4096 = 0) by (rewrite Z.mod_add by lia; done). nia.
Qed.

(** The words of a page. *)
Lemma page_of_word a i : a mod 4096 = 0 -> 0 <= i < 512 -> page_of (a + 8 * i) = a.
Proof. intros Ha Hi. unfold page_of. Z.to_euclidean_division_equations. lia. Qed.

Lemma page_of_base a : a mod 4096 = 0 -> page_of a = a.
Proof. intros Ha. unfold page_of. lia. Qed.

Lemma frames_length p l : NoDup l -> (forall a, a ∈ l -> is_frame p a) -> 0 <= fr_total p -> Z.of_nat (length l) <= fr_total p.
Proof.
  intros Hnd Hp H0. assert (Hsub : l ⊆+ map (fun i => fr_base p + i * PAGE_SIZE) (seqZ 0 (fr_total p))).
  { apply NoDup_submseteq; [done|]. intros a Ha. destruct (Hp a Ha) as (i & Hi & ->). apply list_elem_of_fmap. exists i. split; [done|].
    apply elem_of_seqZ. lia. }
  apply submseteq_length in Hsub. rewrite length_map, length_seqZ in Hsub. lia.
Qed.

Lemma frames_total_small p free : frames_inv p free -> fr_total p < 2 ^ 36.
Proof. intros [(H1 & _ & H3 & H4) _ _ _ _]. unfold PAGE_SIZE in H4. lia. Qed.

(** Words outside the free pages may change. *)
Lemma frames_write p free m :
  frames_inv p free -> (forall b, page_of b ∈ free -> load64 m b = load64 (words p) b) -> frames_inv (set_words m p) free.
Proof.
  intros Hi Hm. pose proof Hi as [H1 H2 H3 H4 H5]. split; [done| |done|done|done]. eapply free_chain_ext; [exact H2|].
  intros a Ha. apply Hm. destruct (frame_aligned p free a Hi (H4 a Ha)) as (_ & Hal & _). by rewrite page_of_base.
Qed.

Lemma alloc_frame_spec p free :
  frames_inv p free ->
  match free with
  | [] => alloc_frame p = (nullptr, p)
  | a :: free => (alloc_frame p).1 = a /\ frames_inv (alloc_frame p).2 free /\
      (forall i, 0 <= i < 512 -> load64 (words (alloc_frame p).2) (a + 8 * i) = 0) /\
      (forall b, page_of b <> a -> load64 (words (alloc_frame p).2) b = load64 (words p) b) /\ same_pool p (alloc_frame p).2
  end.
Proof.
  intros Hi. pose proof Hi as [H1 H2 H3 H4 H5]. unfold alloc_frame. pose proof (free_chain_null _ _ _ H2) as Hn.
  destruct free as [|a free]; [by rewrite (proj2 Hn eq_refl)|]. destruct (Z.eqb_spec (fr_head p) nullptr) as [E|_]; [by apply Hn in E|].
  destruct (frame_aligned p _ a Hi ltac:(apply H4; left)) as (A1 & A2 & A3).
  destruct H2 as (E & Ha & Hc). apply NoDup_cons in H3 as [Hnin Hnd]. cbv zeta. rewrite E. cbn [fst snd words].
  assert (Hout : forall b, page_of b <> a -> load64 (zero_words 512 a (words p)) b = load64 (words p) b).
  { intros b Hb. rewrite zero_words_spec, decide_False; [done|]. intros [Hr _]. apply Hb. unfold page_of. Z.to_euclidean_division_equations. lia. }
  split; [done|]. split; [|split; [|by split]].
  - split; cbn [fr_base fr_total fr_free fr_head words]; [done| |done|intros b Hb; apply (H4 b); by right|].
    + eapply free_chain_ext; [exact Hc|]. intros b Hb. apply Hout. destruct (frame_aligned p _ b Hi ltac:(apply H4; by right)) as (_ & B2 & _).
      rewrite page_of_base by done. by intros ->.
    + rewrite H5. cbn [length]. pose proof (frames_total_small p _ Hi).
      assert (Hl := frames_length p (a :: free) ltac:(by apply NoDup_cons) H4 ltac:(lia)). cbn [length] in Hl. rewrite wrap64_small; lia.
  - intros i Hi'. rewrite zero_words_spec, decide_True; [done|]. split; [lia|]. replace (a + 8 * i - a) with (i * 8) by lia. apply Z.mod_mul. lia.
Qed.

Lemma free_frame_spec p free a :
  frames_inv p free -> is_frame p a -> a ∉ free ->
  frames_inv (free_frame a p) (a :: free) /\
  (forall b, page_of b <> a -> load64 (words (free_frame a p)) b = load64 (words p) b) /\ same_pool p (free_frame a p).
Proof.
  intros Hi Ha Hn. pose proof Hi as [H1 H2 H3 H4 H5]. destruct (frame_aligned p free a Hi Ha) as (A1 & A2 & A3). unfold free_frame.
  destruct (Z.eqb_spec a nullptr) as [E|_]; [unfold nullptr in E; lia|]. cbn [words].
  assert (Hout : forall b, page_of b <> a -> load64 (store64 (words p) a (fr_head p)) b = load64 (words p) b).
  { intros b Hb. rewrite load64_store64, decide_False; [done|]. intros <-. apply Hb. by apply page_of_base. }
  assert (Hall : forall b, b ∈ a :: free -> is_frame p b) by (intros b [->|Hb]%elem_of_cons; [done|by apply H4]).
  split; [|by split]. split; cbn [fr_base fr_total fr_free fr_head words]; [done| |by apply NoDup_cons|exact Hall|].
  - split; [done|]. split; [unfold nullptr; lia|]. rewrite load64_store64, decide_True by done. eapply free_chain_ext; [exact H2|].
    intros b Hb. apply Hout. destruct (frame_aligned p _ b Hi ltac:(by apply H4)) as (_ & B2 & _). rewrite page_of_base by done. by intros ->.
  - rewrite H5. cbn [length]. pose proof (frames_total_small p _ Hi).
    assert (Hl := frames_length p (a :: free) ltac:(by apply NoDup_cons) Hall ltac:(lia)). cbn [length] in Hl. rewrite wrap64_small; lia.
Qed.

(** ** Initialisation *)

Lemma link_frames_frame n cur m b :
  0 <= cur -> cur + (Z.of_nat n + 1) * PAGE_SIZE <= 2 ^ 48 -> b < cur -> load64 (link_frames n cur m) b = load64 m b.
Proof.
  revert cur m. unfold PAGE_SIZE. induction n as [|n IH]; intros cur m H0 Hw Hb; cbn [link_frames].
  - rewrite load64_store64, decide_False by lia. done.
  - unfold PAGE_SIZE. rewrite wrap64_small by lia. rewrite IH by lia. rewrite load64_store64, decide_False by lia. done.
Qed.

Lemma link_frames_chain n cur m :
  0 < cur -> cur + (Z.of_nat n + 1) * PAGE_SIZE <= 2 ^ 48 ->
  free_chain (load64 (link_frames n cur m)) cur (pages_from cur (Z.of_nat n + 1)).
Proof.
  revert cur m. unfold PAGE_SIZE. induction n as [|n IH]; intros cur m H0 Hw; cbn [link_frames]; rewrite pages_from_cons by lia; cbn [free_chain].
  - split; [done|]. split; [unfold nullptr; lia|]. rewrite load64_store64, decide_True by done. done.
  - unfold PAGE_SIZE. rewrite wrap64_small by lia. split; [done|]. split; [unfold nullptr; lia|].
    rewrite link_frames_frame by (unfold PAGE_SIZE; lia). rewrite load64_store64, decide_True by done.
    replace (Z.of_nat (S n) + 1 - 1) with (Z.of_nat n + 1) by lia. apply IH; lia.
Qed.

(** A pool that contains at least one page boundary, below [2^48]. *)
Definition frame_region (start_addr size : Z) : Prop :=
  0 < start_addr /\ 4096 <= size /\ start_addr + size <= 2 ^ 48.

Lemma frames_init_inv s n m :
  frame_region s n ->
  let p := frames_init s n m in
  frames_inv p (pages_from (fr_base p) (fr_total p)) /\ s <= fr_base p /\ fr_base p + fr_total p * PAGE_SIZE <= s + n.
Proof.
  intros (H1 & H2 & H3). cbv zeta. unfold frames_init.
  set (st := Z.land (wrap64 (s + PAGE_SIZE - 1)) _). set (en := Z.land (wrap64 (s + n)) _).
  assert (Est : s <= st < s + 4096 /\ st mod 4096 = 0).
  { unfold st. rewrite wrap64_small by (unfold PAGE_SIZE; lia). rewrite page_mask by (unfold PAGE_SIZE; lia). unfold PAGE_SIZE. Z.to_euclidean_division_equations. lia. }
  assert (Een : s + n - 4096 < en <= s + n /\ en mod 4096 = 0).
  { unfold en. rewrite wrap64_small by lia. rewrite page_mask by lia. Z.to_euclidean_division_equations. lia. }
  clearbody st en. assert (Hle : 0 <= en - st) by (Z.to_euclidean_division_equations; lia).
  rewrite wrap64_small by lia. set (t := (en - st) / PAGE_SIZE).
  assert (Et : t * 4096 = en - st) by (unfold t, PAGE_SIZE; Z.to_euclidean_division_equations; lia). clearbody t.
  assert (Hfree : forall q, fr_base q = st -> fr_total q = t -> fr_free q = t ->
    free_chain (load64 (words q)) (fr_head q) (pages_from st t) -> frames_inv q (pages_from st t)).
  { intros q Q1 Q2 Q3 Hc. split; [rewrite Q1, Q2; unfold PAGE_SIZE; lia|done| | |].
    - apply NoDup_fmap_2_strong; [|apply NoDup_seqZ]. unfold PAGE_SIZE. intros; lia.
    - intros a (i & -> & Hi)%list_elem_of_fmap. apply elem_of_seqZ in Hi. exists i. rewrite Q1, Q2. split; [lia|done].
    - rewrite Q3. unfold pages_from. rewrite length_map, length_seqZ. lia. }
  destruct (Z.eqb_spec t 0) as [E0|Hne]; cbn [fr_base fr_total]; (split; [apply Hfree; [done..|]|unfold PAGE_SIZE; lia]).
  - rewrite E0. done.
  - cbn [words fr_head]. pose proof (link_frames_chain (Z.to_nat (t - 1)) st m ltac:(lia)) as Hc. unfold PAGE_SIZE in Hc.
    replace (Z.of_nat (Z.to_nat (t - 1)) + 1) with t in Hc by lia. apply Hc. lia.
Qed.
