(* ===== verification/PageTable.v ===== *)
(** The four-level AArch64 translation tables
    (arch/arm/cortex-a/mmu/mmu_manager.cpp): [AArch64MmuManager].

    The tables are pages of the frame allocator, and every entry is a word of
    memory that the operations read and write through addresses, as the code
    does.  An address space is its root pointer [l0_table_]; all address spaces
    share the memory of [Hw], which also logs the TLB invalidations issued.  The
    operations return the result and the new root and memory. *)
From S2P Require Import Prelude Pools Frames Pte.

(** The memory shared by all address spaces, and the pages whose TLB entries
    have been invalidated ([tlbi vaae1is]), latest first. *)
Record Hw := mkHw { frames : Frames; tlbi : list Z }.

Definition set_frames v h := mkHw v (tlbi h).
Definition rd (h : Hw) (a : Z) : Z := load64 (words (frames h)) a.
Definition wr (a v : Z) (h : Hw) : Hw := set_frames (set_words (store64 (words (frames h)) a v) (frames h)) h.
Definition alloc_page_hw (h : Hw) : Z * Hw := let (a, f) := alloc_frame (frames h) in (a, set_frames f h).
Definition free_page_hw (a : Z) (h : Hw) : Hw := set_frames (free_frame a (frames h)) h.
Definition invalidate_tlb_va (vaddr : Z) (h : Hw) : Hw := mkHw (frames h) (Z.shiftr vaddr 12 :: tlbi h).

(** [&table[i]], entries of eight bytes. *)
Definition entry_at (table i : Z) : Z := table + 8 * i.

Definition page_aligned (a : Z) : bool := Z.land a 4095 =? 0.

Definition l0_idx (vaddr : Z) : Z := Z.land (Z.shiftr vaddr 39) 511.
Definition l1_idx (vaddr : Z) : Z := Z.land (Z.shiftr vaddr 30) 511.
Definition l2_idx (vaddr : Z) : Z := Z.land (Z.shiftr vaddr 21) 511.
Definition l3_idx (vaddr : Z) : Z := Z.land (Z.shiftr vaddr 12) 511.

(** * Operations *)

(** The constructor: the root table. *)
Definition mmu_ctor (h : Hw) : Z * Hw := alloc_page_hw h.

(** [free_table_recursive(table, 3 - depth)]. *)
Fixpoint free_table_recursive (depth : nat) (table : Z) (h : Hw) : Hw :=
  if table =? nullptr then h else
  free_page_hw table
    match depth with
    | O => h
    | S depth =>
        foldl (fun h i =>
          let e := rd h (entry_at table i) in
          if (valid e =? 1) && (is_table e =? 1) then free_table_recursive depth (get_address e) h else h)
        h (seqZ 0 512)
    end.

(** The destructor, and the move operations. *)
Definition mmu_dtor (root : Z) (h : Hw) : Hw :=
  if root =? nullptr then h else free_table_recursive 3 root h.

Definition mmu_move_assign (root other : Z) (h : Hw) : Z * Z * Hw :=
  (other, nullptr, if root =? nullptr then h else free_table_recursive 3 root h).

Definition get_or_allocate_next_level (e : Z) (h : Hw) : Z * Hw :=
  if valid (rd h e) =? 1 then (get_address (rd h e), h) else
  let (new_page, h) := alloc_page_hw h in
  if new_page =? nullptr then (nullptr, h) else (new_page, wr e (table_entry new_page) h).

Definition mmu_map (vaddr paddr flags root : Z) (h : Hw) : bool * Z * Hw :=
  if negb (page_aligned vaddr) || negb (page_aligned paddr) then (false, root, h) else
  let (root, h) := if root =? nullptr then alloc_page_hw h else (root, h) in
  if root =? nullptr then (false, root, h) else
  let (l1_table, h) := get_or_allocate_next_level (entry_at root (l0_idx vaddr)) h in
  if l1_table =? nullptr then (false, root, h) else
  let (l2_table, h) := get_or_allocate_next_level (entry_at l1_table (l1_idx vaddr)) h in
  if l2_table =? nullptr then (false, root, h) else
  let (l3_table, h) := get_or_allocate_next_level (entry_at l2_table (l2_idx vaddr)) h in
  if l3_table =? nullptr then (false, root, h) else
  (true, root, wr (entry_at l3_table (l3_idx vaddr)) (page_entry paddr flags) h).

(** The descent shared by [unmap], [translate] and [protect]: the three lower
    tables, when every entry on the way is valid. *)
Definition walk (vaddr root : Z) (h : Hw) : option (Z * Z * Z) :=
  if root =? nullptr then None else
  let e0 := rd h (entry_at root (l0_idx vaddr)) in
  if valid e0 =? 0 then None else
  let l1_table := get_address e0 in
  let e1 := rd h (entry_at l1_table (l1_idx vaddr)) in
  if valid e1 =? 0 then None else
  let l2_table := get_address e1 in
  let e2 := rd h (entry_at l2_table (l2_idx vaddr)) in
  if valid e2 =? 0 then None else
  Some (l1_table, l2_table, get_address e2).

(** The loops over the 512 entries that set [l3_empty] and the like. *)
Definition table_empty (table : Z) (h : Hw) : bool :=
  forallb (fun i => valid (rd h (entry_at table i)) =? 0) (seqZ 0 512).

Definition mmu_unmap (vaddr root : Z) (h : Hw) : bool * Hw :=
  if negb (page_aligned vaddr) then (false, h) else
  match walk vaddr root h with
  | None => (false, h)
  | Some (l1_table, l2_table, l3_table) =>
      if valid (rd h (entry_at l3_table (l3_idx vaddr))) =? 0 then (false, h) else
      let h := wr (entry_at l3_table (l3_idx vaddr)) clear h in
      let h := invalidate_tlb_va vaddr h in
      if table_empty l3_table h then
        let h := free_page_hw l3_table h in
        let h := wr (entry_at l2_table (l2_idx vaddr)) clear h in
        if table_empty l2_table h then
          let h := free_page_hw l2_table h in
          let h := wr (entry_at l1_table (l1_idx vaddr)) clear h in
          if table_empty l1_table h then
            let h := free_page_hw l1_table h in
            (true, wr (entry_at root (l0_idx vaddr)) clear h)
          else (true, h)
        else (true, h)
      else (true, h)
  end.

(** The leaf entry of an address. *)
Definition leaf (vaddr root : Z) (h : Hw) : option Z :=
  match walk vaddr root h with
  | None => None
  | Some (_, _, l3_table) =>
      let pte := rd h (entry_at l3_table (l3_idx vaddr)) in
      if valid pte =? 0 then None else Some pte
  end.

(** Physical address and flags. *)
Definition mmu_translate (vaddr root : Z) (h : Hw) : option (Z * Z) :=
  match leaf vaddr root h with
  | None => None
  | Some pte => Some (Z.lor (get_address pte) (Z.land vaddr 4095), entry_flags pte)
  end.

Definition mmu_protect (vaddr flags root : Z) (h : Hw) : bool * Hw :=
  if negb (page_aligned vaddr) then (false, h) else
  match walk vaddr root h with
  | None => (false, h)
  | Some (_, _, l3_table) =>
      let e := entry_at l3_table (l3_idx vaddr) in
      if valid (rd h e) =? 0 then (false, h) else
      (true, invalidate_tlb_va vaddr (wr e (set_attributes flags (rd h e)) h))
  end.

(** * The tables as a tree *)

(** A table is named by the path of indices that leads to it; [T] gives the
    page of every table of an address space. *)
Definition tables (T : gmap (list Z) Z) : list Z := (map_to_list T).*2.

Record vas_ok (h : Hw) (root : Z) (T : gmap (list Z) Z) (free : list Z) : Prop := {
  v_frames : frames_inv (frames h) free;
  v_root : T !! [] = if root =? nullptr then None else Some root;
  v_depth : forall p a, T !! p = Some a -> (length p <= 3)%nat;
  v_parent : forall p i a, T !! (p ++ [i]) = Some a -> is_Some (T !! p) /\ 0 <= i < 512;
  v_entry : forall p a i, T !! p = Some a -> (length p < 3)%nat -> 0 <= i < 512 ->
    match T !! (p ++ [i]) with
    | Some b => rd h (entry_at a i) = table_entry b
    | None => valid (rd h (entry_at a i)) = 0
    end;
  v_page : forall p a, T !! p = Some a -> is_frame (frames h) a;
  v_nodup : NoDup (tables T ++ free);
}.

(** The valid leaf entry at index [i] of the last-level table at path [p]. *)
Definition tleaf (h : Hw) (T : gmap (list Z) Z) (p : list Z) (i : Z) : option Z :=
  match T !! p with
  | None => None
  | Some a => let e := rd h (entry_at a i) in if valid e =? 0 then None else Some e
  end.

Definition path (vaddr : Z) : list Z := [l0_idx vaddr; l1_idx vaddr; l2_idx vaddr].
