(* ===== verification/PageTableInv.v ===== *)
(** The translation tables keep their tree shape: each primitive change of the
    tables (a new table, a pruned table, a written leaf) preserves [vas_ok], has a
    known effect on the leaf entries, conserves pages and touches only pages of
    the address space and free pages.  The operations compose these. *)
From S2P Require Import Prelude Pools Frames Pte PageTable.

(** * Basic facts *)

Lemma rd_wr a v h b : rd (wr a v h) b = if decide (a = b) then v else rd h b.
Proof. apply load64_store64. Qed.

Lemma rd_invalidate va h b : rd (invalidate_tlb_va va h) b = rd h b.
Proof. done. Qed.

Lemma land_511 x : 0 <= Z.land x 511 < 512.
Proof. change 511 with (Z.ones 9). rewrite Z.land_ones by lia. apply Z.mod_pos_bound. lia. Qed.

Lemma l0_idx_range va : 0 <= l0_idx va < 512. Proof. apply land_511. Qed.
Lemma l1_idx_range va : 0 <= l1_idx va < 512. Proof. apply land_511. Qed.
Lemma l2_idx_range va : 0 <= l2_idx va < 512. Proof. apply land_511. Qed.
Lemma l3_idx_range va : 0 <= l3_idx va < 512. Proof. apply land_511. Qed.

Create HintDb vas discriminated.
#[export] Hint Resolve l0_idx_range l1_idx_range l2_idx_range l3_idx_range : vas.

Lemma entry_page a i : a mod 4096 = 0 -> 0 <= i < 512 -> page_of (entry_at a i) = a.
Proof. apply page_of_word. Qed.

Lemma entry_inj a b i j : a mod 4096 = 0 -> b mod 4096 = 0 -> 0 <= i < 512 -> 0 <= j < 512 -> entry_at a i = entry_at b j -> a = b /\ i = j.
Proof.
  intros Ha Hb Hi Hj E. assert (a = b) as -> by (rewrite <- (entry_page a i), <- (entry_page b j), E; done).
  unfold entry_at in E. split; [done|lia].
Qed.

Lemma tables_elem T x : x ∈ tables T <-> exists p, T !! p = Some x.
Proof.
  unfold tables. rewrite list_elem_of_fmap. split.
  - intros ([p y] & -> & H%elem_of_map_to_list). by exists p.
  - intros [p H]. exists (p, x). split; [done|]. by apply elem_of_map_to_list.
Qed.

Lemma NoDup_snd_inj {A B} (l : list (A * B)) x y b : NoDup l.*2 -> (x, b) ∈ l -> (y, b) ∈ l -> x = y.
Proof.
  induction l as [|[z c] l IH]; [intros _ H; by apply elem_of_nil in H|].
  cbn. intros [Hn Hd]%NoDup_cons. intros Hx Hy. apply elem_of_cons in Hx, Hy.
  destruct Hx as [Ex|Hx], Hy as [Ey|Hy]; [congruence| | |by apply IH].
  - exfalso. apply Hn. injection Ex as -> ->. apply list_elem_of_fmap. by exists (y, c).
  - exfalso. apply Hn. injection Ey as -> ->. apply list_elem_of_fmap. by exists (x, c).
Qed.

Lemma tables_inj T free p q a : NoDup (tables T ++ free) -> T !! p = Some a -> T !! q = Some a -> p = q.
Proof.
  intros [Hd _]%NoDup_app Hp Hq. apply (NoDup_snd_inj (map_to_list T) p q a); [done| |]; by apply elem_of_map_to_list.
Qed.

Lemma tables_insert T p a : T !! p = None -> tables (<[p := a]> T) ≡ₚ a :: tables T.
Proof. intros H. unfold tables. by rewrite map_to_list_insert. Qed.

Lemma tables_delete T p a : T !! p = Some a -> tables T ≡ₚ a :: tables (delete p T).
Proof. intros H. unfold tables. by rewrite <- (map_to_list_delete T p a H). Qed.

Lemma app_snoc_inj (p q : list Z) i j : p ++ [i] = q ++ [j] -> p = q /\ i = j.
Proof. intros H. apply app_inj_tail in H. done. Qed.

(** * What an operation may do *)

(** An operation on one address space conserves pages and touches only words of
    its own tables and of free pages. *)
Definition vas_frame (h h' : Hw) (T T' : gmap (list Z) Z) (free free' : list Z) : Prop :=
  same_pool (frames h) (frames h') /\ tables T' ++ free' ≡ₚ tables T ++ free /\
  forall b, page_of b ∉ tables T ++ free -> rd h' b = rd h b.

Lemma vas_frame_refl h T free : vas_frame h h T T free free.
Proof. by split. Qed.

Lemma vas_frame_trans h1 h2 h3 T1 T2 T3 f1 f2 f3 :
  vas_frame h1 h2 T1 T2 f1 f2 -> vas_frame h2 h3 T2 T3 f2 f3 -> vas_frame h1 h3 T1 T3 f1 f3.
Proof.
  intros (P1 & Q1 & R1) (P2 & Q2 & R2). split; [by transitivity (frames h2)|]. split; [by rewrite Q2|].
  intros b Hb. rewrite R2; [by apply R1|]. by rewrite Q1.
Qed.

Section Facts.
Context {h : Hw} {root : Z} {T : gmap (list Z) Z} {free : list Z} (Hok : vas_ok h root T free).

Lemma v_aligned p a : T !! p = Some a -> 0 < a /\ a mod 4096 = 0 /\ a + 4096 <= 2 ^ 48.
Proof. intros Hp. apply (frame_aligned (frames h) free); [apply Hok|]. by eapply v_page. Qed.

Lemma v_not_null p a : T !! p = Some a -> (a =? nullptr) = false.
Proof. intros Hp. destruct (v_aligned p a Hp). apply Z.eqb_neq. unfold nullptr. lia. Qed.

Lemma v_inj p q a : T !! p = Some a -> T !! q = Some a -> p = q.
Proof. apply (tables_inj T free), Hok. Qed.

Lemma v_not_free p a : T !! p = Some a -> a ∉ free.
Proof. intros Hp. pose proof (v_nodup _ _ _ _ Hok) as (_ & Hn & _)%NoDup_app. apply Hn, tables_elem. by exists p. Qed.

Lemma v_disjoint p a q b i j :
  T !! p = Some a -> T !! q = Some b -> 0 <= i < 512 -> 0 <= j < 512 -> entry_at a i = entry_at b j -> p = q /\ i = j.
Proof.
  intros Hp Hq Hi Hj E. destruct (v_aligned p a Hp) as (_ & Ha & _), (v_aligned q b Hq) as (_ & Hb & _).
  destruct (entry_inj a b i j) as [-> ->]; try done. split; [|done]. by apply (v_inj p q b).
Qed.

Lemma v_free_entry p a i : T !! p = Some a -> 0 <= i < 512 -> page_of (entry_at a i) ∉ free.
Proof. intros Hp Hi. rewrite entry_page; [by eapply v_not_free|by eapply v_aligned|done]. Qed.

Lemma v_own_entry p a i : T !! p = Some a -> 0 <= i < 512 -> page_of (entry_at a i) ∈ tables T ++ free.
Proof. intros Hp Hi. rewrite entry_page; [|by eapply v_aligned|done]. apply elem_of_app. left. apply tables_elem. by exists p. Qed.

(** The tables of an address space stay as they are when their words and the
    pool do. *)
Lemma vas_ok_same h' free' :
  (forall b, page_of b ∈ tables T -> rd h' b = rd h b) -> frames_inv (frames h') free' -> same_pool (frames h) (frames h') ->
  NoDup (tables T ++ free') -> vas_ok h' root T free'.
Proof.
  intros Hrd Hf Hs Hnd. pose proof Hok as [H1 H2 H3 H4 H5 H6 H7]. split; [done|done|done|done| | |done].
  - intros p a i Hp Hl Hi. rewrite Hrd; [by apply (H5 p a i)|]. rewrite entry_page; [apply tables_elem; by exists p|by eapply v_aligned|done].
  - intros p a Hp. eapply is_frame_pool; [done|by eapply H6].
Qed.

Lemma tleaf_same h' q i :
  (forall b, page_of b ∈ tables T -> rd h' b = rd h b) -> 0 <= i < 512 -> tleaf h' T q i = tleaf h T q i.
Proof.
  intros Hrd Hi. unfold tleaf. destruct (T !! q) as [a|] eqn:E; [|done]. rewrite Hrd; [done|].
  rewrite entry_page; [apply tables_elem; by exists q|by eapply v_aligned|done].
Qed.

Lemma wr_frame p a i v : T !! p = Some a -> 0 <= i < 512 -> vas_frame h (wr (entry_at a i) v h) T T free free.
Proof.
  intros Hp Hi. split; [done|]. split; [done|]. intros b Hb. rewrite rd_wr, decide_False; [done|].
  intros <-. apply Hb. by eapply v_own_entry.
Qed.

Lemma wr_frames_inv p a i v : T !! p = Some a -> 0 <= i < 512 -> frames_inv (frames (wr (entry_at a i) v h)) free.
Proof.
  intros Hp Hi. apply frames_write; [apply Hok|]. intros b Hb. rewrite load64_store64, decide_False; [done|].
  intros <-. revert Hb. by eapply v_free_entry.
Qed.

(** Writing a leaf. *)
Lemma wr_leaf_ok p a i v :
  T !! p = Some a -> length p = 3%nat -> 0 <= i < 512 ->
  vas_ok (wr (entry_at a i) v h) root T free /\
  forall q j, 0 <= j < 512 ->
    tleaf (wr (entry_at a i) v h) T q j =
    if decide (q = p /\ j = i) then (if valid v =? 0 then None else Some v) else tleaf h T q j.
Proof.
  intros Hp Hl Hi. split.
  - pose proof Hok as [H1 H2 H3 H4 H5 H6 H7]. split; [by eapply wr_frames_inv|done|done|done| |done|done].
    intros q b j Hq Hlq Hj. rewrite rd_wr, decide_False; [by apply (H5 q b j)|].
    intros E. destruct (v_disjoint p a q b i j Hp Hq Hi Hj E) as [-> _]. lia.
  - intros q j Hj. unfold tleaf. destruct (T !! q) as [b|] eqn:Hq.
    + rewrite rd_wr. destruct (decide (q = p /\ j = i)) as [[-> ->]|Hne].
      * rewrite Hp in Hq. injection Hq as ->. by rewrite decide_True.
      * rewrite decide_False; [done|]. intros E. apply Hne. destruct (v_disjoint p a q b i j) as [-> ->]; done.
    + destruct (decide _) as [[-> _]|]; [congruence|done].
Qed.
End Facts.

(** * Growing the tree *)

Lemma path_snoc_ne (p : list Z) i : p ++ [i] <> p.
Proof. intros E. apply (f_equal length) in E. rewrite length_app in E. cbn in E. lia. Qed.

(** The memory after linking a fresh page [n] into entry [i] of table [a]. *)
Lemma grow_words h root T free n p a i :
  vas_ok h root T (n :: free) -> T !! p = Some a -> 0 <= i < 512 ->
  forall h', h' = wr (entry_at a i) (table_entry n) (alloc_page_hw h).2 ->
  frames_inv (frames h') free /\ same_pool (frames h) (frames h') /\ is_frame (frames h) n /\
  (forall j, 0 <= j < 512 -> rd h' (entry_at n j) = 0) /\
  (forall q b j, T !! q = Some b -> 0 <= j < 512 ->
    rd h' (entry_at b j) = if decide (q = p /\ j = i) then table_entry n else rd h (entry_at b j)) /\
  (forall b, n <> page_of b -> entry_at a i <> b -> rd h' b = rd h b).
Proof.
  intros Hok Hp Hi h' Eh'. pose proof Hok as [H1 H2 H3 H4 H5 H6 H7].
  pose proof (alloc_frame_spec _ _ H1) as (En & Hf & Hz & Ho & Hs).
  assert (Hn : is_frame (frames h) n) by (apply (fr_pages _ _ H1); left).
  assert (Hnt : n ∉ tables T) by (intros Hx; apply NoDup_app in H7 as (_ & H7 & _); apply (H7 n Hx); left).
  assert (Ha : a <> n) by (intros ->; apply Hnt, tables_elem; by exists p).
  destruct (v_aligned Hok p a Hp) as (A1 & A2 & A3). destruct (frame_aligned _ _ n H1 Hn) as (N1 & N2 & N3).
  assert (Halloc : (alloc_page_hw h).2 = set_frames (alloc_frame (frames h)).2 h) by (unfold alloc_page_hw; by destruct (alloc_frame (frames h))).
  rewrite Halloc in Eh'. set (h1 := set_frames _ h) in Eh'.
  assert (Rz : forall j, 0 <= j < 512 -> rd h1 (entry_at n j) = 0) by (intros j Hj; apply (Hz j Hj)).
  assert (Ro : forall b, page_of b <> n -> rd h1 b = rd h b) by (intros b Hb; apply (Ho b Hb)).
  assert (Hf1 : frames_inv (frames h1) free) by exact Hf. assert (Hs1 : same_pool (frames h) (frames h1)) by exact Hs.
  clearbody h1. clear Hz Ho Hf Hs Halloc En.
  assert (Rd : forall b, rd h' b = if decide (entry_at a i = b) then table_entry n else rd h1 b) by (intros b; subst h'; apply rd_wr).
  split; [|split; [by subst h'|split; [done|split; [|split]]]].
  - subst h'. apply frames_write; [done|]. intros b Hb. rewrite load64_store64, decide_False; [done|]. intros <-. revert Hb.
    rewrite entry_page by done. intros Hb. apply (v_not_free Hok p a Hp). by right.
  - intros j Hj. rewrite Rd, decide_False; [by apply Rz|]. intros E. by destruct (entry_inj a n i j) as [? _].
  - intros q b j Hq Hj. rewrite Rd. destruct (v_aligned Hok q b Hq) as (B1 & B2 & B3). destruct (decide (q = p /\ j = i)) as [[-> ->]|Hne].
    + rewrite Hp in Hq. injection Hq as ->. by rewrite decide_True.
    + rewrite decide_False; [|intros E; apply Hne; destruct (v_disjoint Hok p a q b i j) as [-> ->]; done].
      apply Ro. rewrite entry_page by done. intros ->. apply Hnt, tables_elem. by exists q.
  - intros b Hb1 Hb2. rewrite Rd, decide_False by done. apply Ro. congruence.
Qed.

(** A new table under a present one. *)
Lemma grow_ok h root T free n p a i :
  vas_ok h root T (n :: free) -> T !! p = Some a -> (length p < 3)%nat -> 0 <= i < 512 -> T !! (p ++ [i]) = None ->
  forall h', h' = wr (entry_at a i) (table_entry n) (alloc_page_hw h).2 ->
  vas_ok h' root (<[p ++ [i] := n]> T) free /\
  (forall q j, length q = 3%nat -> 0 <= j < 512 -> tleaf h' (<[p ++ [i] := n]> T) q j = tleaf h T q j) /\
  vas_frame h h' T (<[p ++ [i] := n]> T) (n :: free) free.
Proof.
  intros Hok Hp Hl Hi Hnone h' Eh'. pose proof Hok as [H1 H2 H3 H4 H5 H6 H7].
  destruct (grow_words _ _ _ _ _ _ _ _ Hok Hp Hi h' Eh') as (Hf' & Hs' & Hn & Rn & Rt & Ro'). clear Eh'. split; [|split].
  - split; [done| | | | | |by rewrite tables_insert by done; cbn; rewrite Permutation_middle].
    + rewrite lookup_insert_ne; [done|]. by destruct p.
    + intros q b. rewrite lookup_insert. case_decide as E; [subst q; intros _; rewrite length_app; cbn; lia|by apply H3].
    + intros q j b. rewrite !lookup_insert. destruct (decide (p ++ [i] = q ++ [j])) as [E|Hne].
      * apply app_snoc_inj in E as [<- <-]. intros _. split; [|done]. case_decide; by eexists.
      * intros Hq. destruct (H4 q j b Hq) as [Hq' Hj]. split; [|done]. case_decide; [by eexists|done].
    + intros q b j. rewrite (lookup_insert T (p ++ [i]) q). destruct (decide (p ++ [i] = q)) as [<-|Hne].
      * intros [= <-] Hlq Hj. rewrite Rn by done. rewrite lookup_insert_ne by (intros E; symmetry in E; by apply path_snoc_ne in E).
        destruct (T !! ((p ++ [i]) ++ [j])) as [c|] eqn:Ec; [|done]. destruct (H4 _ _ _ Ec) as [[d Hd] _]. congruence.
      * intros Hq Hlq Hj. rewrite (Rt q b j Hq Hj). destruct (decide (q = p /\ j = i)) as [[-> ->]|Hne'].
        -- rewrite lookup_insert, decide_True by done. done.
        -- rewrite lookup_insert, decide_False; [by apply (H5 q b j)|]. intros E. apply app_snoc_inj in E as [-> ->]. by apply Hne'.
    + intros q b. rewrite lookup_insert. case_decide; [intros [= <-]|intros Hq; apply H6 in Hq]; by eapply is_frame_pool.
  - intros q j Hlq Hj. unfold tleaf. rewrite lookup_insert. destruct (decide (p ++ [i] = q)) as [<-|Hne].
    + rewrite Hnone, Rn by done. done.
    + destruct (T !! q) as [b|] eqn:Hq; [|done]. rewrite (Rt q b j Hq Hj). rewrite decide_False; [done|]. intros [-> _]. lia.
  - split; [done|]. split; [rewrite tables_insert by done; cbn; by rewrite Permutation_middle|]. intros b Hb. apply Ro'.
    + intros E. apply Hb. rewrite <- E. apply elem_of_app. right. left.
    + intros <-. apply Hb. by eapply (v_own_entry Hok).
Qed.

(** * Pruning the tree *)

(** A table without valid entries has no tables below it. *)
Lemma empty_no_child h root T free p b j :
  vas_ok h root T free -> T !! p = Some b -> (forall j, 0 <= j < 512 -> valid (rd h (entry_at b j)) = 0) -> T !! (p ++ [j]) = None.
Proof.
  intros Hok Hp He. destruct (T !! (p ++ [j])) as [c|] eqn:Ec; [|done]. exfalso.
  destruct (v_parent _ _ _ _ Hok _ _ _ Ec) as [_ Hj]. pose proof (v_depth _ _ _ _ Hok _ _ Ec) as Hd. rewrite length_app in Hd. cbn in Hd.
  pose proof (v_entry _ _ _ _ Hok p b j Hp ltac:(lia) Hj) as Hx. rewrite Ec in Hx. specialize (He j Hj). rewrite Hx, table_entry_valid in He. done.
Qed.

(** The memory after freeing the table [b] below entry [i] of table [a]. *)
Lemma prune_words h root T free p a i b :
  vas_ok h root T free -> T !! p = Some a -> 0 <= i < 512 -> T !! (p ++ [i]) = Some b ->
  forall h', h' = wr (entry_at a i) clear (free_page_hw b h) ->
  frames_inv (frames h') (b :: free) /\ same_pool (frames h) (frames h') /\
  (forall q c j, T !! q = Some c -> q <> p ++ [i] -> 0 <= j < 512 ->
    rd h' (entry_at c j) = if decide (q = p /\ j = i) then clear else rd h (entry_at c j)) /\
  (forall c, b <> page_of c -> entry_at a i <> c -> rd h' c = rd h c).
Proof.
  intros Hok Hp Hi Hb h' Eh'. pose proof Hok as [H1 H2 H3 H4 H5 H6 H7].
  assert (Hab : a <> b) by (intros ->; apply (path_snoc_ne p i); by eapply (v_inj Hok)).
  destruct (v_aligned Hok p a Hp) as (A1 & A2 & A3). destruct (v_aligned Hok _ b Hb) as (B1 & B2 & B3).
  destruct (free_frame_spec (frames h) free b H1 (H6 _ _ Hb) (v_not_free Hok _ _ Hb)) as (Hf & Ho & Hs).
  assert (Ro : forall c, page_of c <> b -> rd (free_page_hw b h) c = rd h c) by (intros c Hc; apply (Ho c Hc)).
  assert (Rd : forall c, rd h' c = if decide (entry_at a i = c) then clear else rd (free_page_hw b h) c) by (intros c; subst h'; apply rd_wr).
  split; [|split; [by subst h'|split]].
  - subst h'. apply frames_write; [exact Hf|]. intros c Hc. rewrite load64_store64, decide_False; [done|]. intros <-. revert Hc.
    rewrite entry_page by done. intros [Hc|Hc]%elem_of_cons; [done|]. by apply (v_not_free Hok p a Hp).
  - intros q c j Hq Hne Hj. rewrite Rd. destruct (v_aligned Hok q c Hq) as (C1 & C2 & C3). destruct (decide (q = p /\ j = i)) as [[-> ->]|Hne'].
    + rewrite Hp in Hq. injection Hq as ->. by rewrite decide_True.
    + rewrite decide_False; [|intros E; apply Hne'; destruct (v_disjoint Hok p a q c i j) as [-> ->]; done].
      apply Ro. rewrite entry_page by done. intros ->. apply Hne. by eapply (v_inj Hok).
  - intros c Hc1 Hc2. rewrite Rd, decide_False by done. apply Ro. congruence.
Qed.

(** Freeing an empty table and clearing the entry that leads to it. *)
Lemma prune_ok h root T free p a i b :
  vas_ok h root T free -> T !! p = Some a -> 0 <= i < 512 -> T !! (p ++ [i]) = Some b ->
  (forall j, 0 <= j < 512 -> valid (rd h (entry_at b j)) = 0) ->
  forall h', h' = wr (entry_at a i) clear (free_page_hw b h) ->
  vas_ok h' root (delete (p ++ [i]) T) (b :: free) /\
  (forall q j, length q = 3%nat -> 0 <= j < 512 -> tleaf h' (delete (p ++ [i]) T) q j = tleaf h T q j) /\
  vas_frame h h' T (delete (p ++ [i]) T) free (b :: free).
Proof.
  intros Hok Hp Hi Hb He h' Eh'. pose proof Hok as [H1 H2 H3 H4 H5 H6 H7].
  destruct (prune_words _ _ _ _ _ _ _ _ Hok Hp Hi Hb h' Eh') as (Hf' & Hs' & Rt & Ro'). clear Eh'.
  assert (Hperm : tables (delete (p ++ [i]) T) ++ b :: free ≡ₚ tables T ++ free) by (rewrite (tables_delete T _ b Hb); by rewrite <- Permutation_middle).
  assert (Hl : (length p < 3)%nat) by (pose proof (H3 _ _ Hb) as Hx; rewrite length_app in Hx; cbn in Hx; lia).
  split; [|split].
  - split; [done| | | | | |by rewrite Hperm].
    + rewrite lookup_delete_ne; [done|]. by destruct p.
    + intros q c [Hne Hq]%lookup_delete_Some. by eapply H3.
    + intros q j c [Hne Hq]%lookup_delete_Some. destruct (H4 q j c Hq) as [Hq' Hj]. split; [|done].
      rewrite lookup_delete_ne; [done|]. intros <-. rewrite (empty_no_child h root T free (p ++ [i]) b j) in Hq; done.
    + intros q c j [Hne Hq]%lookup_delete_Some Hlq Hj. rewrite (Rt q c j Hq ltac:(congruence) Hj).
      destruct (decide (q = p /\ j = i)) as [[-> ->]|Hne']; [by rewrite lookup_delete_eq|].
      rewrite lookup_delete_ne; [by apply (H5 q c j)|]. intros E. apply app_snoc_inj in E as [-> ->]. by apply Hne'.
    + intros q c [Hne Hq]%lookup_delete_Some. eapply is_frame_pool; [done|by eapply H6].
  - intros q j Hlq Hj. unfold tleaf. destruct (decide (q = p ++ [i])) as [->|Hne].
    + rewrite lookup_delete_eq, Hb. cbv zeta. by rewrite He by done.
    + rewrite lookup_delete_ne by congruence. destruct (T !! q) as [c|] eqn:Hq; [|done]. rewrite (Rt q c j Hq Hne Hj).
      rewrite decide_False; [done|]. intros [-> _]. lia.
  - split; [done|]. split; [done|]. intros c Hc. apply Ro'.
    + intros E. apply Hc. rewrite <- E. apply elem_of_app. left. apply tables_elem. by eexists.
    + intros <-. apply Hc. by eapply (v_own_entry Hok).
Qed.
