(* ===== verification/PageTableOps.v ===== *)
(** The operations of [AArch64MmuManager] on a well-formed address space: what
    they return, what they do to the leaf entries, and that they keep the
    invariant, conserve pages and touch only their own pages.  Destruction
    ([free_table_recursive]) returns every table of the tree to the allocator exactly
    once, children before parents, although each returned page loses its first entry
    to the free list. *)
From S2P Require Import Prelude Pools Frames Pte PageTable PageTableInv.

(** Two descriptions of the leaves agree. *)
Definition same_leaves (h h' : Hw) (T T' : gmap (list Z) Z) : Prop :=
  forall q j, length q = 3%nat -> 0 <= j < 512 -> tleaf h' T' q j = tleaf h T q j.

Lemma same_leaves_refl h T : same_leaves h h T T.
Proof. by intros q j _ _. Qed.

Lemma same_leaves_trans h1 h2 h3 T1 T2 T3 : same_leaves h1 h2 T1 T2 -> same_leaves h2 h3 T2 T3 -> same_leaves h1 h3 T1 T3.
Proof. intros H1 H2 q j Hq Hj. rewrite (H2 q j), (H1 q j); done. Qed.

#[export] Hint Resolve vas_frame_refl same_leaves_refl : vas.

Lemma list_case {A} (l : list A) : l = [] \/ exists x k, l = x :: k.
Proof. destruct l as [|x k]; [by left|right; by exists x, k]. Qed.

(** ** The walk *)

Section Walk.
Context {h : Hw} {root : Z} {T : gmap (list Z) Z} {free : list Z} (Hok : vas_ok h root T free).

Lemma table_addr p a : T !! p = Some a -> get_address (table_entry a) = a.
Proof. intros Hp. destruct (v_aligned Hok p a Hp) as (A1 & A2 & A3). apply table_entry_addr; [lia|done]. Qed.

(** One level of the descent. *)
Lemma entry_step p a i :
  T !! p = Some a -> (length p < 3)%nat -> 0 <= i < 512 ->
  match T !! (p ++ [i]) with
  | Some b => (valid (rd h (entry_at a i)) =? 0) = false /\ (valid (rd h (entry_at a i)) =? 1) = true /\
      is_table (rd h (entry_at a i)) = 1 /\ get_address (rd h (entry_at a i)) = b
  | None => (valid (rd h (entry_at a i)) =? 0) = true /\ (valid (rd h (entry_at a i)) =? 1) = false
  end.
Proof.
  intros Hp Hl Hi. pose proof (v_entry _ _ _ _ Hok p a i Hp Hl Hi) as He. destruct (T !! (p ++ [i])) as [b|] eqn:Eb.
  - rewrite He, table_entry_valid, table_entry_is_table. split; [done|]. split; [done|]. split; [done|]. by eapply table_addr.
  - by rewrite He.
Qed.

Lemma no_root : T !! [] = None -> T = ∅.
Proof.
  intros Hn. apply map_eq. intros p. rewrite lookup_empty. induction p as [|i p IH] using rev_ind; [done|].
  destruct (T !! (p ++ [i])) as [a|] eqn:E; [|done]. destruct (v_parent _ _ _ _ Hok _ _ _ E) as [[b Hb] _]. congruence.
Qed.

Lemma child_none p i : T !! p = None -> T !! (p ++ [i]) = None.
Proof. intros Hn. destruct (T !! (p ++ [i])) as [a|] eqn:E; [|done]. destruct (v_parent _ _ _ _ Hok _ _ _ E) as [[b Hb] _]. congruence. Qed.

Lemma walk_spec va :
  match walk va root h with
  | Some (t1, t2, t3) => T !! [] = Some root /\ T !! [l0_idx va] = Some t1 /\ T !! [l0_idx va; l1_idx va] = Some t2 /\ T !! path va = Some t3
  | None => T !! path va = None
  end.
Proof.
  unfold walk, path. pose proof (v_root _ _ _ _ Hok) as Hr. destruct (root =? nullptr) eqn:Er.
  - by rewrite (no_root Hr).
  - pose proof (entry_step [] root (l0_idx va) Hr ltac:(cbn; lia) ltac:(auto with vas)) as S0. cbn [app] in S0.
    destruct (T !! [l0_idx va]) as [t1|] eqn:E1.
    2:{ destruct S0 as [-> _]. apply (child_none [_; _]), (child_none [_]). done. }
    destruct S0 as (-> & _ & _ & ->).
    pose proof (entry_step [l0_idx va] t1 (l1_idx va) E1 ltac:(cbn; lia) ltac:(auto with vas)) as S1. cbn [app] in S1.
    destruct (T !! [l0_idx va; l1_idx va]) as [t2|] eqn:E2.
    2:{ destruct S1 as [-> _]. apply (child_none [_; _]). done. }
    destruct S1 as (-> & _ & _ & ->).
    pose proof (entry_step [l0_idx va; l1_idx va] t2 (l2_idx va) E2 ltac:(cbn; lia) ltac:(auto with vas)) as S2. cbn [app] in S2.
    destruct (T !! [l0_idx va; l1_idx va; l2_idx va]) as [t3|] eqn:E3; [|by destruct S2 as [-> _]].
    by destruct S2 as (-> & _ & _ & ->).
Qed.

Lemma leaf_spec va : leaf va root h = tleaf h T (path va) (l3_idx va).
Proof.
  unfold leaf, tleaf. pose proof (walk_spec va) as Hw. destruct (walk va root h) as [[[t1 t2] t3]|]; [|by rewrite Hw].
  destruct Hw as (_ & _ & _ & ->). done.
Qed.

Lemma alloc_page_none : free = [] -> alloc_page_hw h = (nullptr, h).
Proof.
  intros ->. pose proof (alloc_frame_spec _ _ (v_frames _ _ _ _ Hok)) as Ha. cbn in Ha. unfold alloc_page_hw. rewrite Ha. by destruct h.
Qed.

Lemma alloc_page_some n fr : free = n :: fr -> (alloc_page_hw h).1 = n /\ tlbi (alloc_page_hw h).2 = tlbi h /\ (n =? nullptr) = false.
Proof.
  intros ->. pose proof (alloc_frame_spec _ _ (v_frames _ _ _ _ Hok)) as (Ha & _).
  assert (Hn : is_frame (frames h) n) by (apply (fr_pages _ _ (v_frames _ _ _ _ Hok)); left).
  destruct (frame_aligned _ _ n (v_frames _ _ _ _ Hok) Hn) as [Hp _].
  unfold alloc_page_hw. destruct (alloc_frame (frames h)) as [a f]. cbn in *. split; [done|]. split; [done|]. apply Z.eqb_neq. unfold nullptr. lia.
Qed.

(** ** One level of [map] *)

Lemma next_level_ok p a i r h' :
  T !! p = Some a -> (length p < 3)%nat -> 0 <= i < 512 -> get_or_allocate_next_level (entry_at a i) h = (r, h') ->
  (r = nullptr /\ free = [] /\ h' = h) \/
  ((r =? nullptr) = false /\ exists T' free', T' !! (p ++ [i]) = Some r /\ vas_ok h' root T' free' /\ same_leaves h h' T T' /\
    vas_frame h h' T T' free free' /\ tlbi h' = tlbi h).
Proof.
  intros Hp Hl Hi. unfold get_or_allocate_next_level. pose proof (entry_step p a i Hp Hl Hi) as Hs.
  destruct (T !! (p ++ [i])) as [b|] eqn:Eb.
  - destruct Hs as (_ & -> & _ & ->). intros [= <- <-]. right. split; [by eapply (v_not_null Hok)|].
    exists T, free. auto with vas.
  - destruct Hs as (_ & ->). destruct (list_case free) as [Ef|(n & fr & Ef)].
    + rewrite alloc_page_none by done. cbn. intros [= <- <-]. by left.
    + destruct (alloc_page_some n fr Ef) as (E1 & Et & En). destruct (alloc_page_hw h) as [m h1] eqn:Ea. cbn in E1, Et. subst m. rewrite En.
      intros [= <- <-]. right. split; [done|]. pose proof Hok as Hok'. rewrite Ef in Hok' |- *.
      destruct (grow_ok h root T fr n p a i Hok' Hp Hl Hi Eb (wr (entry_at a i) (table_entry n) h1)) as (G1 & G2 & G3); [by rewrite Ea|].
      exists (<[p ++ [i] := n]> T), fr. split; [by rewrite lookup_insert, decide_True|]. done.
Qed.
End Walk.

(** ** The root table *)

Lemma fresh_root h T free n fr :
  vas_ok h nullptr T free -> free = n :: fr ->
  vas_ok (alloc_page_hw h).2 n {[ [] := n ]} fr /\ same_leaves h (alloc_page_hw h).2 T {[ [] := n ]} /\
  vas_frame h (alloc_page_hw h).2 T {[ [] := n ]} free fr.
Proof.
  intros Hok Ef. destruct (alloc_page_some Hok n fr Ef) as (_ & _ & Hnn).
  assert (ET : T = ∅) by (eapply no_root; [done|apply (v_root _ _ _ _ Hok)]). subst T free.
  pose proof (alloc_frame_spec _ _ (v_frames _ _ _ _ Hok)) as (_ & Hf & Hz & Ho & Hs).
  assert (Hn : is_frame (frames h) n) by (apply (fr_pages _ _ (v_frames _ _ _ _ Hok)); left).
  assert (Halloc : (alloc_page_hw h).2 = set_frames (alloc_frame (frames h)).2 h) by (unfold alloc_page_hw; by destruct (alloc_frame (frames h))).
  rewrite Halloc. set (h1 := set_frames _ h) in *.
  assert (Rz : forall j, 0 <= j < 512 -> rd h1 (entry_at n j) = 0) by (intros j Hj; apply (Hz j Hj)).
  assert (Et : tables {[ [] := n ]} = [n]) by (unfold tables; by rewrite map_to_list_singleton).
  pose proof (v_nodup _ _ _ _ Hok) as Hnd. split; [|split; [|split; [done|split; [by rewrite Et|]]]].
  - split; [done|by rewrite lookup_singleton_eq, Hnn| | | | |by rewrite Et].
    + intros p a [<- _]%lookup_singleton_Some. cbn. lia.
    + intros p i a [Hx _]%lookup_singleton_Some. by destruct p.
    + intros p a i [<- <-]%lookup_singleton_Some _ Hi. rewrite lookup_singleton_ne by done. by rewrite Rz.
    + intros p a [_ <-]%lookup_singleton_Some. by eapply is_frame_pool.
  - intros q j Hq _. unfold tleaf. rewrite lookup_singleton_ne by (by intros <-). by rewrite lookup_empty.
  - intros b Hb. apply Ho. intros E. apply Hb. rewrite E. apply elem_of_app. right. left.
Qed.

(** ** [map] *)

(** The leaves after an update at one address. *)
Definition leaves_upd (va : Z) (v : option Z) (h h' : Hw) (T T' : gmap (list Z) Z) : Prop :=
  forall q j, length q = 3%nat -> 0 <= j < 512 ->
    tleaf h' T' q j = if decide (q = path va /\ j = l3_idx va) then v else tleaf h T q j.

Definition map_result (va pa fl : Z) (b : bool) (h h' : Hw) (T T' : gmap (list Z) Z) (free' : list Z) : Prop :=
  if b then page_aligned va = true /\ page_aligned pa = true /\ leaves_upd va (Some (page_entry pa fl)) h h' T T'
  else same_leaves h h' T T' /\ (page_aligned va && page_aligned pa = true -> free' = []).

(** [map] from a present root. *)
Lemma map_from_root va pa fl root h T free b root' h' :
  vas_ok h root T free -> T !! [] = Some root -> page_aligned va = true -> page_aligned pa = true ->
  mmu_map va pa fl root h = (b, root', h') ->
  root' = root /\ exists T' free', vas_ok h' root T' free' /\ vas_frame h h' T T' free free' /\ tlbi h' = tlbi h /\
    map_result va pa fl b h h' T T' free'.
Proof.
  intros Hok Hr Ea Ep. unfold mmu_map. rewrite Ea, Ep, (v_not_null Hok _ _ Hr). cbn [negb orb]. cbv zeta. rewrite (v_not_null Hok _ _ Hr).
  assert (Hfail : forall h1 T1 f1, vas_ok h1 root T1 f1 -> same_leaves h h1 T T1 -> vas_frame h h1 T T1 free f1 -> tlbi h1 = tlbi h -> f1 = [] ->
    (false, root, h1) = (b, root', h') -> root' = root /\ exists T' free', vas_ok h' root T' free' /\ vas_frame h h' T T' free free' /\ tlbi h' = tlbi h /\
    map_result va pa fl b h h' T T' free').
  { intros h1 T1 f1 O1 L1 F1 E1 -> [= <- <- <-]. split; [done|]. exists T1, []. split; [done|]. split; [done|]. split; [done|]. by split. }
  destruct (get_or_allocate_next_level (entry_at root (l0_idx va)) h) as [t1 h1] eqn:E1.
  destruct (next_level_ok Hok [] root (l0_idx va) t1 h1 Hr ltac:(cbn; lia) ltac:(auto with vas) E1) as [(-> & Ef & ->)|(-> & T1 & f1 & P1 & O1 & L1 & F1 & X1)].
  { apply (Hfail h T free); auto with vas. }
  destruct (get_or_allocate_next_level (entry_at t1 (l1_idx va)) h1) as [t2 h2] eqn:E2.
  destruct (next_level_ok O1 [l0_idx va] t1 (l1_idx va) t2 h2 P1 ltac:(cbn; lia) ltac:(auto with vas) E2) as [(-> & Ef & ->)|(-> & T2 & f2 & P2 & O2 & L2 & F2 & X2)].
  { apply (Hfail h1 T1 f1); auto with vas. }
  destruct (get_or_allocate_next_level (entry_at t2 (l2_idx va)) h2) as [t3 h3] eqn:E3.
  assert (L12 := same_leaves_trans _ _ _ _ _ _ L1 L2). assert (F12 := vas_frame_trans _ _ _ _ _ _ _ _ _ F1 F2).
  destruct (next_level_ok O2 [l0_idx va; l1_idx va] t2 (l2_idx va) t3 h3 P2 ltac:(cbn; lia) ltac:(auto with vas) E3) as [(-> & Ef & ->)|(-> & T3 & f3 & P3 & O3 & L3 & F3 & X3)].
  { apply (Hfail h2 T2 f2); [done..|congruence|done]. }
  assert (L13 := same_leaves_trans _ _ _ _ _ _ L12 L3). assert (F13 := vas_frame_trans _ _ _ _ _ _ _ _ _ F12 F3).
  intros [= <- <- <-]. split; [done|]. exists T3, f3.
  destruct (wr_leaf_ok O3 (path va) t3 (l3_idx va) (page_entry pa fl) P3 eq_refl ltac:(auto with vas)) as [O4 L4].
  split; [done|]. split; [eapply vas_frame_trans; [done|]; eapply (wr_frame O3); [exact P3|auto with vas]|]. split; [cbn; congruence|].
  split; [done|]. split; [done|]. intros q j Hq Hj. rewrite L4 by done. rewrite page_entry_valid. cbn. rewrite (L13 q j) by done. done.
Qed.

Lemma mmu_map_ok va pa fl root h T free b root' h' :
  vas_ok h root T free -> mmu_map va pa fl root h = (b, root', h') ->
  (root <> nullptr -> root' = root) /\
  exists T' free', vas_ok h' root' T' free' /\ vas_frame h h' T T' free free' /\ tlbi h' = tlbi h /\ map_result va pa fl b h h' T T' free'.
Proof.
  intros Hok. destruct (page_aligned va) eqn:Ea, (page_aligned pa) eqn:Ep; cycle 1.
  1-3: unfold mmu_map; rewrite Ea, Ep; intros [= <- <- <-]; split; [done|]; exists T, free; split; [done|]; split; [auto with vas|]; split; [done|];
    split; [auto with vas|]; by rewrite Ea, Ep.
  pose proof (v_root _ _ _ _ Hok) as Hr. destruct (Z.eqb_spec root nullptr) as [->|Hnn].
  - destruct (list_case free) as [Ef|(n & fr & Ef)].
    + unfold mmu_map. rewrite Ea, Ep, (alloc_page_none Hok Ef). intros [= <- <- <-]. split; [done|]. exists T, free. split; [done|].
      split; [auto with vas|]. split; [done|]. split; [auto with vas|done].
    + destruct (fresh_root h T free n fr Hok Ef) as (O1 & L1 & F1). destruct (alloc_page_some Hok n fr Ef) as (E1 & X1 & Hn).
      intros Hm. assert (Hm' : mmu_map va pa fl n (alloc_page_hw h).2 = (b, root', h')).
      { rewrite <- Hm. unfold mmu_map. rewrite Ea, Ep, Hn. cbn [negb orb]. destruct (alloc_page_hw h) as [m h1]. cbn in E1. subst m. done. }
      destruct (map_from_root _ _ _ _ _ _ _ _ _ _ O1 (lookup_singleton_eq _ _) Ea Ep Hm') as (-> & T' & f' & O2 & F2 & X2 & R2).
      split; [done|]. exists T', f'. split; [done|]. split; [by eapply vas_frame_trans|]. split; [congruence|].
      destruct b; [destruct R2 as (_ & _ & R2); split; [done|]; split; [done|]; intros q j Hq Hj; rewrite (R2 q j), (L1 q j) by done; done|].
      destruct R2 as [R2 R3]. split; [by eapply same_leaves_trans|done].
  - intros Hm. destruct (map_from_root _ _ _ _ _ _ _ _ _ _ Hok Hr Ea Ep Hm) as (-> & T' & f' & R). split; [done|]. by exists T', f'.
Qed.

(** ** [unmap] *)

Lemma table_empty_spec a h : table_empty a h = true <-> forall j, 0 <= j < 512 -> valid (rd h (entry_at a j)) = 0.
Proof.
  unfold table_empty. rewrite <- Is_true_true, forallb_True, Forall_forall. split.
  - intros H j Hj. apply Z.eqb_eq, Is_true_true, H. apply elem_of_seqZ. lia.
  - intros H j Hj%elem_of_seqZ. apply Is_true_true, Z.eqb_eq, H. lia.
Qed.

(** The TLB log is not part of the tables. *)
Lemma vas_ok_invalidate va h root T free : vas_ok h root T free -> vas_ok (invalidate_tlb_va va h) root T free.
Proof. intros [H1 H2 H3 H4 H5 H6 H7]. by split. Qed.

(** One pruning step. *)
Lemma prune_step h root T free p a i b :
  vas_ok h root T free -> T !! p = Some a -> 0 <= i < 512 -> T !! (p ++ [i]) = Some b -> table_empty b h = true ->
  exists T' free', vas_ok (wr (entry_at a i) clear (free_page_hw b h)) root T' free' /\
    same_leaves h (wr (entry_at a i) clear (free_page_hw b h)) T T' /\
    vas_frame h (wr (entry_at a i) clear (free_page_hw b h)) T T' free free' /\
    forall q, q <> p ++ [i] -> T' !! q = T !! q.
Proof.
  intros Hok Hp Hi Hb He. destruct (prune_ok h root T free p a i b Hok Hp Hi Hb (proj1 (table_empty_spec b h) He) _ eq_refl) as (P1 & P2 & P3).
  exists (delete (p ++ [i]) T), (b :: free). split; [done|]. split; [done|]. split; [done|]. intros q Hq. by rewrite lookup_delete_ne.
Qed.

Definition unmap_result (va : Z) (b : bool) (h h' : Hw) (T T' : gmap (list Z) Z) : Prop :=
  if b then leaves_upd va None h h' T T' /\ tlbi h' = Z.shiftr va 12 :: tlbi h else h' = h /\ T' = T.

Lemma unmap_tail h1 root T1 f1 t1 t2 t3 va :
  vas_ok h1 root T1 f1 -> T1 !! [] = Some root -> T1 !! [l0_idx va] = Some t1 -> T1 !! [l0_idx va; l1_idx va] = Some t2 -> T1 !! path va = Some t3 ->
  let h' := if table_empty t3 h1 then
      let h := wr (entry_at t2 (l2_idx va)) clear (free_page_hw t3 h1) in
      if table_empty t2 h then
        let h := wr (entry_at t1 (l1_idx va)) clear (free_page_hw t2 h) in
        if table_empty t1 h then wr (entry_at root (l0_idx va)) clear (free_page_hw t1 h) else h
      else h
    else h1 in
  exists T' f', vas_ok h' root T' f' /\ same_leaves h1 h' T1 T' /\ vas_frame h1 h' T1 T' f1 f' /\ tlbi h' = tlbi h1.
Proof.
  intros O1 P0 P1 P2 P3. cbv zeta. destruct (table_empty t3 h1) eqn:E3; [|exists T1, f1; auto with vas].
  destruct (prune_step h1 root T1 f1 [l0_idx va; l1_idx va] t2 (l2_idx va) t3 O1 P2 ltac:(auto with vas) P3 E3) as (T2 & f2 & O2 & L2 & F2 & K2).
  set (h2 := wr (entry_at t2 (l2_idx va)) clear _) in *. assert (X2 : tlbi h2 = tlbi h1) by done. clearbody h2.
  destruct (table_empty t2 h2) eqn:E2; [|by exists T2, f2].
  destruct (prune_step h2 root T2 f2 [l0_idx va] t1 (l1_idx va) t2 O2 ltac:(by rewrite K2) ltac:(auto with vas) ltac:(by rewrite K2) E2) as (T3 & f3 & O3 & L3 & F3 & K3).
  set (h3 := wr (entry_at t1 (l1_idx va)) clear _) in *. assert (X3 : tlbi h3 = tlbi h1) by done. clearbody h3.
  assert (L13 := same_leaves_trans _ _ _ _ _ _ L2 L3). assert (F13 := vas_frame_trans _ _ _ _ _ _ _ _ _ F2 F3).
  destruct (table_empty t1 h3) eqn:E1; [|by exists T3, f3].
  destruct (prune_step h3 root T3 f3 [] root (l0_idx va) t1 O3 ltac:(by rewrite K3, K2) ltac:(auto with vas) ltac:(by rewrite K3, K2) E1) as (T4 & f4 & O4 & L4 & F4 & K4).
  exists T4, f4. split; [done|]. split; [by eapply same_leaves_trans|]. split; [by eapply vas_frame_trans|done].
Qed.

Lemma mmu_unmap_ok va root h T free b h' :
  vas_ok h root T free -> mmu_unmap va root h = (b, h') ->
  b = page_aligned va && bool_decide (is_Some (leaf va root h)) /\
  exists T' free', vas_ok h' root T' free' /\ vas_frame h h' T T' free free' /\ unmap_result va b h h' T T'.
Proof.
  intros Hok. unfold mmu_unmap, leaf. destruct (page_aligned va); cbn [negb andb].
  2:{ intros [= <- <-]. split; [done|]. exists T, free. split; [done|]. split; [auto with vas|done]. }
  pose proof (walk_spec Hok va) as Hw. destruct (walk va root h) as [[[t1 t2] t3]|].
  2:{ intros [= <- <-]. split; [done|]. exists T, free. split; [done|]. split; [auto with vas|done]. }
  destruct Hw as (P0 & P1 & P2 & P3). cbv zeta. destruct (valid (rd h (entry_at t3 (l3_idx va))) =? 0).
  { intros [= <- <-]. split; [done|]. exists T, free. split; [done|]. split; [auto with vas|done]. }
  set (h0 := wr (entry_at t3 (l3_idx va)) clear h).
  destruct (wr_leaf_ok Hok (path va) t3 (l3_idx va) clear P3 eq_refl ltac:(auto with vas)) as [O0 L0]. fold h0 in O0, L0.
  assert (F0 : vas_frame h h0 T T free free) by (eapply (wr_frame Hok); [exact P3|auto with vas]).
  assert (X0 : tlbi h0 = tlbi h) by done. clearbody h0. apply (vas_ok_invalidate va) in O0. set (h1 := invalidate_tlb_va va h0) in *.
  destruct (unmap_tail h1 root T free t1 t2 t3 va O0 P0 P1 P2 P3) as (T' & f' & O1 & L1 & F1 & X1).
  intros Hres. assert (Hb : b = true /\ h' = if table_empty t3 h1 then
      let h := wr (entry_at t2 (l2_idx va)) clear (free_page_hw t3 h1) in
      if table_empty t2 h then
        let h := wr (entry_at t1 (l1_idx va)) clear (free_page_hw t2 h) in
        if table_empty t1 h then wr (entry_at root (l0_idx va)) clear (free_page_hw t1 h) else h
      else h
    else h1).
  { revert Hres. cbv zeta. repeat match goal with |- context [if table_empty ?x ?y then _ else _] => destruct (table_empty x y) end; by intros [= <- <-]. }
  destruct Hb as [-> ->]. split; [done|]. exists T', f'. split; [exact O1|]. split; [by eapply vas_frame_trans|]. split.
  - intros q j Hq Hj. rewrite (L1 q j) by done. change (tleaf h1 T q j) with (tleaf h0 T q j). rewrite L0 by done. done.
  - rewrite X1. unfold h1. cbn. by rewrite X0.
Qed.

(** ** [protect] *)

Definition protect_result (va fl : Z) (b : bool) (h h' : Hw) (T : gmap (list Z) Z) : Prop :=
  if b then exists e, tleaf h T (path va) (l3_idx va) = Some e /\ leaves_upd va (Some (set_attributes fl e)) h h' T T /\ tlbi h' = Z.shiftr va 12 :: tlbi h
  else h' = h.

Lemma mmu_protect_ok va fl root h T free b h' :
  vas_ok h root T free -> mmu_protect va fl root h = (b, h') ->
  b = page_aligned va && bool_decide (is_Some (leaf va root h)) /\
  vas_ok h' root T free /\ vas_frame h h' T T free free /\ protect_result va fl b h h' T.
Proof.
  intros Hok. rewrite (leaf_spec Hok). unfold mmu_protect. destruct (page_aligned va); cbn [negb andb]; [|intros [= <- <-]; split_and!; (done || auto with vas)].
  pose proof (walk_spec Hok va) as Hw. unfold tleaf. destruct (walk va root h) as [[[t1 t2] t3]|]; [|rewrite Hw; intros [= <- <-]; split_and!; (done || auto with vas)].
  destruct Hw as (P0 & P1 & P2 & P3). rewrite P3. cbv zeta. set (e := rd h (entry_at t3 (l3_idx va))).
  destruct (valid e =? 0) eqn:Ev; [intros [= <- <-]; split_and!; (done || auto with vas)|]. intros [= <- <-]. split; [done|].
  destruct (wr_leaf_ok Hok (path va) t3 (l3_idx va) (set_attributes fl e) P3 eq_refl ltac:(auto with vas)) as [O0 L0].
  split; [by apply vas_ok_invalidate|]. split; [eapply (wr_frame Hok); [exact P3|auto with vas]|]. exists e.
  split; [unfold tleaf; rewrite P3; fold e; by rewrite Ev|]. split; [|done]. intros q j Hq Hj.
  etransitivity; [apply (L0 q j Hj)|]. destruct (set_attributes_keep fl e) as (-> & _). by rewrite Ev.
Qed.

(** * Destruction *)

(** The tables at and below path [p], in the order in which they are freed. *)
Fixpoint pages_below (n : nat) (T : gmap (list Z) Z) (p : list Z) : list Z :=
  match T !! p with
  | None => []
  | Some a =>
      match n with
      | O => []
      | S n => i ← seqZ 0 512; pages_below n T (p ++ [i])
      end ++ [a]
  end.

Section Free.
Context {h0 : Hw} {root : Z} {T : gmap (list Z) Z} {free0 : list Z} (Hok : vas_ok h0 root T free0).

Lemma below_elem n p x : x ∈ pages_below n T p -> exists q, T !! (p ++ q) = Some x.
Proof.
  revert p. induction n as [|n IH]; intros p; cbn [pages_below]; (destruct (T !! p) as [a|] eqn:E; [|by intros ?%elem_of_nil]).
  - intros ->%list_elem_of_singleton. exists []. by rewrite app_nil_r.
  - intros [Hx|Hx]%elem_of_app; [|apply list_elem_of_singleton in Hx as ->; exists []; by rewrite app_nil_r].
    apply list_elem_of_bind in Hx as (i & Hx & _). destruct (IH _ Hx) as [q Hq]. exists (i :: q). by rewrite <- app_assoc in Hq.
Qed.

Lemma prefix_some p q a : T !! (p ++ q) = Some a -> is_Some (T !! p).
Proof.
  revert a. induction q as [|i q IH] using rev_ind; intros a; [rewrite app_nil_r; by eexists|]. rewrite app_assoc. intros H.
  destruct (v_parent _ _ _ _ Hok _ _ _ H) as [[b Hb] _]. by apply (IH b).
Qed.

Lemma below_complete n p q x : T !! (p ++ q) = Some x -> (length q <= n)%nat -> x ∈ pages_below n T p.
Proof.
  revert p q. induction n as [|n IH]; intros p q Hx Hl; destruct (prefix_some p q x Hx) as [a Ha]; cbn [pages_below]; rewrite Ha.
  - destruct q; [|cbn in Hl; lia]. rewrite app_nil_r in Hx. assert (a = x) as -> by congruence. by left.
  - apply elem_of_app. destruct q as [|i q]; [right; rewrite app_nil_r in Hx; assert (a = x) as -> by congruence; by left|]. left.
    replace (p ++ i :: q) with ((p ++ [i]) ++ q) in Hx by (by rewrite <- app_assoc).
    apply list_elem_of_bind. exists i. split; [apply IH with q; [done|cbn in Hl; lia]|].
    destruct (prefix_some _ _ _ Hx) as [b Hb]. destruct (v_parent _ _ _ _ Hok _ _ _ Hb) as [_ Hi]. apply elem_of_seqZ. lia.
Qed.

(** Subtrees do not share pages. *)
Lemma below_disjoint n m p i j x : x ∈ pages_below n T (p ++ [i]) -> x ∈ pages_below m T (p ++ [j]) -> i = j.
Proof.
  intros [q Hq]%below_elem [r Hr]%below_elem. rewrite <- app_assoc in Hq, Hr.
  pose proof (v_inj Hok _ _ _ Hq Hr) as E. apply app_inv_head in E. by injection E.
Qed.

Lemma below_not_self n p i a : T !! p = Some a -> a ∉ pages_below n T (p ++ [i]).
Proof.
  intros Hp [q Hq]%below_elem. pose proof (v_inj Hok _ _ _ Hp Hq) as E. apply (f_equal length) in E. rewrite !length_app in E. cbn in E. lia.
Qed.

Lemma below_nodup n p : NoDup (pages_below n T p).
Proof.
  revert p. induction n as [|n IH]; intros p; cbn [pages_below]; (destruct (T !! p) as [a|] eqn:E; [|constructor]); [apply NoDup_singleton|].
  apply NoDup_app. split; [|split; [|apply NoDup_singleton]].
  - apply NoDup_bind; [|intros i _; apply IH|apply NoDup_seqZ]. intros i j x _ _. apply below_disjoint.
  - intros x Hx ->%list_elem_of_singleton. apply list_elem_of_bind in Hx as (i & Hx & _). by eapply below_not_self.
Qed.

Lemma below_root_tables : pages_below 3 T [] ≡ₚ tables T.
Proof.
  apply NoDup_Permutation; [apply below_nodup|by pose proof (v_nodup _ _ _ _ Hok) as [? _]%NoDup_app|]. intros x. rewrite tables_elem. split.
  - intros [q Hq]%below_elem. by exists q.
  - intros [q Hq]. apply (below_complete 3 [] q); [done|]. by eapply v_depth.
Qed.

(** What a state of the destruction keeps of the original memory: the pages in
    [l] are intact and not yet free. *)
Definition intact (h : Hw) (l free : list Z) : Prop :=
  frames_inv (frames h) free /\ same_pool (frames h0) (frames h) /\ (forall b, page_of b ∈ l -> rd h b = rd h0 b) /\ (forall x, x ∈ l -> x ∉ free).

Definition freed (h h' : Hw) (l free : list Z) : Prop :=
  frames_inv (frames h') (reverse l ++ free) /\ same_pool (frames h) (frames h') /\ (forall b, page_of b ∉ l -> rd h' b = rd h b) /\ tlbi h' = tlbi h.

Lemma freed_app h1 h2 h3 l1 l2 free :
  freed h1 h2 l1 free -> freed h2 h3 l2 (reverse l1 ++ free) -> freed h1 h3 (l1 ++ l2) free.
Proof.
  intros (A1 & A2 & A3 & A4) (B1 & B2 & B3 & B4). split; [by rewrite reverse_app, <- app_assoc|]. split; [by transitivity (frames h2)|].
  split; [|congruence]. intros b Hb. rewrite B3, A3; [done| |]; intros Hx; apply Hb, elem_of_app; tauto.
Qed.

Lemma intact_after h h' l k free : intact h (l ++ k) free -> freed h h' l free -> (forall x, x ∈ l -> x ∉ k) -> intact h' k (reverse l ++ free).
Proof.
  intros (A1 & A2 & A3 & A4) (B1 & B2 & B3 & B4) Hd. split; [done|]. split; [by transitivity (frames h)|]. split.
  - intros b Hb. rewrite B3 by (intros Hx; by apply (Hd _ Hx)). apply A3, elem_of_app. by right.
  - intros x Hx [Hin|Hin]%elem_of_app; [rewrite elem_of_reverse in Hin; exact (Hd x Hin Hx)|]. apply (A4 x); [apply elem_of_app; by right|done].
Qed.

Lemma intact_sub h l k free : intact h l free -> (forall x, x ∈ k -> x ∈ l) -> intact h k free.
Proof. intros (A1 & A2 & A3 & A4) Hs. split; [done|]. split; [done|]. split; [intros b Hb; apply A3; by apply Hs|intros x Hx; apply A4; by apply Hs]. Qed.

Lemma free_own p a h free : T !! p = Some a -> intact h [a] free -> freed h (free_page_hw a h) [a] free.
Proof.
  intros Hp (A1 & A2 & A3 & A4). destruct (free_frame_spec (frames h) free a A1) as (B1 & B2 & B3).
  - eapply is_frame_pool; [done|]. by eapply (v_page _ _ _ _ Hok).
  - apply A4. by left.
  - split; [done|]. split; [done|]. split; [|done]. intros b Hb. apply B2. intros E. apply Hb. rewrite E. by left.
Qed.

Lemma free_table_ok n p a h free :
  T !! p = Some a -> (length p + n = 3)%nat -> intact h (pages_below n T p) free -> freed h (free_table_recursive n a h) (pages_below n T p) free.
Proof.
  revert p a h free. induction n as [|n IH]; intros p a h free Hp Hl Hin; cbn [free_table_recursive pages_below] in *; rewrite Hp in *;
    rewrite (v_not_null Hok p a Hp); [by eapply free_own|].
  set (step := fun (h : Hw) i => _). 
  assert (Hloop : forall L h free, (forall i, i ∈ L -> 0 <= i < 512) -> NoDup L -> intact h ((i ← L; pages_below n T (p ++ [i])) ++ [a]) free ->
    freed h (foldl step h L) (i ← L; pages_below n T (p ++ [i])) free).
  { clear h free Hin. induction L as [|i L IHL]; intros h free HL Hnd Hin; cbn [foldl].
    - destruct Hin as (A1 & _). by split.
    - apply NoDup_cons in Hnd as [HiL Hnd]. rewrite bind_cons in Hin |- *.
      assert (Hhead : freed h (step h i) (pages_below n T (p ++ [i])) free).
      { unfold step. assert (Hi := HL i ltac:(left)). rewrite (proj1 (proj2 (proj2 Hin)) (entry_at a i)).
        2:{ rewrite entry_page; [apply elem_of_app; right; by left|by eapply (v_aligned Hok)|done]. }
        pose proof (entry_step Hok p a i Hp ltac:(lia) Hi) as Hs. destruct (T !! (p ++ [i])) as [b|] eqn:Eb.
        - destruct Hs as (_ & -> & -> & ->). cbn. apply IH; [done|rewrite length_app; cbn; lia|]. eapply intact_sub; [exact Hin|].
          intros x Hx. rewrite <- app_assoc. apply elem_of_app. by left.
        - destruct Hs as (_ & ->). cbn. assert (pages_below n T (p ++ [i]) = []) as -> by (destruct n; cbn; by rewrite Eb).
          destruct Hin as (A1 & _). by split. }
      eapply freed_app; [exact Hhead|]. apply IHL; [intros j Hj; apply HL; by right|done|]. rewrite <- app_assoc in Hin.
      eapply intact_after; [exact Hin|done|]. intros x Hx [Hy|Hy]%elem_of_app.
      + apply list_elem_of_bind in Hy as (j & Hy & Hj). apply HiL. by rewrite (below_disjoint n n p i j x).
      + apply list_elem_of_singleton in Hy as ->. by eapply below_not_self. }
  assert (H1 := Hloop (seqZ 0 512) h free ltac:(intros i Hi%elem_of_seqZ; lia) ltac:(apply NoDup_seqZ) Hin).
  eapply freed_app; [exact H1|]. eapply free_own; [done|]. eapply intact_after; [exact Hin|done|].
  intros x Hx Hy%list_elem_of_singleton. subst x. apply list_elem_of_bind in Hx as (i & Hx & _). by eapply below_not_self.
Qed.

(** The destructor returns exactly the tables. *)
Lemma mmu_dtor_ok :
  exists l, l ≡ₚ tables T /\ freed h0 (mmu_dtor root h0) l free0.
Proof.
  unfold mmu_dtor. pose proof (v_root _ _ _ _ Hok) as Hr. destruct (Z.eqb_spec root nullptr) as [->|Hn].
  - exists []. rewrite (no_root Hok Hr). split; [done|]. split; [apply Hok|done].
  - exists (pages_below 3 T []). split; [apply below_root_tables|]. apply (free_table_ok 3 []); [done|done|]. split; [apply Hok|]. split; [done|].
    split; [done|]. intros x Hx. rewrite below_root_tables, tables_elem in Hx. destruct Hx as [q Hq]. by eapply (v_not_free Hok).
Qed.
End Free.
