(* ===== verification/Vasp.v ===== *)
(** The interface of address spaces (kernel/mm/vasp.hpp): the class
    [VirtualAddressSpace] with its operations on ranges, which are inherited by
    every implementation and verified here against the laws of the interface.

    An address space is abstractly a partial map from 36-bit virtual page numbers
    to physical page numbers and flags ([as_view]). *)
From S2P Require Import Prelude Pools Frames Pte.

(** ** The interface *)

Class VirtualAddressSpace (S : Type) := {
  as_map : Z -> Z -> Z -> S -> bool * S;
  as_unmap : Z -> S -> bool * S;
  as_translate : Z -> S -> option (Z * Z);
  as_protect : Z -> Z -> S -> bool * S;
  get_pgdir_base : S -> Z;
}.

(** 4 KiB pages of a 48-bit space. *)
Definition page_number (a : Z) : Z := (a / 4096) mod 2 ^ 36.
Definition aligned (a : Z) : Prop := a mod 4096 = 0.

Definition in_vpn (n : Z) : Prop := 0 <= n < 2 ^ 36.

Class AddressSpaceLaws (S : Type) `{VirtualAddressSpace S} := {
  as_inv : S -> Prop;
  as_view : S -> Z -> option (Z * Z);
  as_rel : relation S;
  as_full : S -> Prop;
  #[global] as_rel_preorder :: PreOrder as_rel;
  translate_view s va : as_inv s ->
    as_translate va s = (fun '(n, fl) => (n * 4096 + va mod 4096, fl)) <$> as_view s (page_number va);
  map_view s va pa fl b s' : as_inv s -> as_map va pa fl s = (b, s') ->
    as_inv s' /\ as_rel s s' /\
    (if b then aligned va /\ aligned pa /\
       forall n, in_vpn n -> as_view s' n = if decide (n = page_number va) then Some (page_number pa, effective_flags fl) else as_view s n
     else (forall n, in_vpn n -> as_view s' n = as_view s n) /\ (aligned va -> aligned pa -> as_full s'));
  unmap_view s va b s' : as_inv s -> as_unmap va s = (b, s') ->
    as_inv s' /\ as_rel s s' /\ (b = true <-> aligned va /\ is_Some (as_view s (page_number va))) /\
    forall n, in_vpn n -> as_view s' n = if decide (b = true /\ n = page_number va) then None else as_view s n;
  protect_view s va fl b s' : as_inv s -> as_protect va fl s = (b, s') ->
    as_inv s' /\ as_rel s s' /\ (b = true <-> aligned va /\ is_Some (as_view s (page_number va))) /\
    forall n, in_vpn n -> as_view s' n =
      if decide (b = true /\ n = page_number va) then (fun '(m, _) => (m, effective_flags fl)) <$> as_view s n else as_view s n;
}.

(** ** Page loops *)

Section Loops.
Context {S : Type}.

(** [for (offset = 0; offset < size; offset += PAGE_SIZE)], with [fuel] rounds;
    [None] when the loop has not ended by then.  The body returns [false] to leave
    the loop. *)
Fixpoint for_pages (fuel : nat) (offset size : Z) (body : Z -> S -> bool * S) (s : S) : option (bool * S) :=
  if offset <? size then
    match fuel with
    | O => None
    | Datatypes.S fuel =>
        let (ok, s) := body offset s in
        if ok then for_pages fuel (wrap64 (offset + PAGE_SIZE)) size body s else Some (false, s)
    end
  else Some (true, s).

(** One round per page. *)
Definition rounds (size : Z) : nat := Z.to_nat (size / PAGE_SIZE + 1).

Definition page_count (size : Z) : Z := (size + 4095) / 4096.

Lemma page_count_bound (i size : Z) : 0 < size -> 4096 * i < size <-> i < page_count size.
Proof. intros Hs. unfold page_count. Z.to_euclidean_division_equations. lia. Qed.

(** Loop rule: [P i] holds before round [i]; a round that leaves the loop
    establishes [Q i].  The loop ends when the size leaves room for the last
    increment of the offset. *)
Lemma for_pages_rule (P Q : Z -> S -> Prop) size (body : Z -> S -> bool * S) s :
  0 < size <= 2 ^ 64 - 4096 ->
  (forall i s b s', 0 <= i < page_count size -> P i s -> body (4096 * i) s = (b, s') -> if b then P (i + 1) s' else Q i s') ->
  P 0 s ->
  exists b s', for_pages (rounds size) 0 size body s = Some (b, s') /\
    if b then P (page_count size) s' else exists i, 0 <= i < page_count size /\ Q i s'.
Proof.
  intros Hs Hbody HP.
  assert (Hgen : forall fuel i s, 0 <= i <= page_count size -> page_count size - i <= Z.of_nat fuel -> P i s ->
    exists b s', for_pages fuel (4096 * i) size body s = Some (b, s') /\
      if b then P (page_count size) s' else exists i, 0 <= i < page_count size /\ Q i s').
  { clear s HP. induction fuel as [|fuel IH]; intros i s Hi Hf HP; cbn [for_pages]; pose proof (page_count_bound i size ltac:(lia)) as Hc.
    - destruct (Z.ltb_spec (4096 * i) size); [lia|]. exists true, s. split; [done|]. by replace (page_count size) with i by lia.
    - destruct (Z.ltb_spec (4096 * i) size); [|exists true, s; split; [done|]; by replace (page_count size) with i by lia].
      destruct (body (4096 * i) s) as [b s1] eqn:Eb. assert (Hi' : 0 <= i < page_count size) by lia. specialize (Hbody i s b s1 Hi' HP Eb). destruct b; [|exists false, s1; split; [done|by exists i]].
      unfold PAGE_SIZE. rewrite wrap64_small by lia. replace (4096 * i + 4096) with (4096 * (i + 1)) by lia. apply IH; [lia|lia|done]. }
  apply (Hgen (rounds size) 0 s); [unfold page_count; Z.to_euclidean_division_equations; lia| |done].
  unfold rounds, PAGE_SIZE, page_count. Z.to_euclidean_division_equations. lia.
Qed.

End Loops.

(** ** Operations on ranges *)

Section Ranges.
Context {S : Type} {HV : VirtualAddressSpace S} {HL : AddressSpaceLaws S}.

Definition map_range (vaddr paddr size flags : Z) (s : S) : option (bool * S) :=
  if negb (vaddr mod PAGE_SIZE =? 0) || negb (paddr mod PAGE_SIZE =? 0) || (size =? 0) then Some (false, s) else
  for_pages (rounds size) 0 size (fun off => as_map (wrap64 (vaddr + off)) (wrap64 (paddr + off)) flags) s.

Definition protect_range (vaddr size flags : Z) (s : S) : option (bool * S) :=
  if negb (vaddr mod PAGE_SIZE =? 0) || (size =? 0) then Some (false, s) else
  for_pages (rounds size) 0 size (fun off => as_protect (wrap64 (vaddr + off)) flags) s.

(** [unmap_range] goes on after a failure and reports it at the end. *)
Definition unmap_body (vaddr off : Z) (s : bool * S) : bool * S :=
  let (ok, s') := as_unmap (wrap64 (vaddr + off)) s.2 in (s.1 && ok, s').

Definition unmap_range (vaddr size : Z) (s : S) : option (bool * S) :=
  if negb (vaddr mod PAGE_SIZE =? 0) || (size =? 0) then Some (false, s) else
  snd <$> for_pages (rounds size) 0 size (fun off s => (true, unmap_body vaddr off s)) (true, s).

Definition is_mapped (vaddr : Z) (s : S) : bool := bool_decide (is_Some (as_translate vaddr s)).

(** ** Any range *)

(** Whatever the arguments, a range operation ends, keeps the invariant and does
    only what the page operations may do. *)
Lemma for_pages_any (body : Z -> S -> bool * S) size s :
  (forall off s b s', as_inv s -> body off s = (b, s') -> as_inv s' /\ as_rel s s') -> 0 < size <= 2 ^ 64 - 4096 -> as_inv s ->
  exists b s', for_pages (rounds size) 0 size body s = Some (b, s') /\ as_inv s' /\ as_rel s s'.
Proof.
  intros Hbody Hs Hinv. destruct (for_pages_rule (fun _ s1 => as_inv s1 /\ as_rel s s1) (fun _ s1 => as_inv s1 /\ as_rel s s1) size body s Hs) as (b & s' & E & Hr).
  - intros i s1 b s2 _ [I1 R1] Eb. destruct (Hbody _ _ _ _ I1 Eb) as [I2 R2]. assert (as_rel s s2) by (by transitivity s1). by destruct b.
  - by split.
  - exists b, s'. split; [done|]. destruct b; [done|]. by destruct Hr as (i & _ & Hr).
Qed.

Lemma map_range_any va pa size fl s : 0 <= size <= 2 ^ 64 - 4096 -> as_inv s ->
  exists b s', map_range va pa size fl s = Some (b, s') /\ as_inv s' /\ as_rel s s'.
Proof.
  intros Hs Hinv. unfold map_range. destruct (_ || _ || _) eqn:E; [by exists false, s|]. apply orb_false_iff in E as [_ E%Z.eqb_neq].
  apply for_pages_any; [|lia|done]. intros off s1 b s2 I1 Eb. destruct (map_view _ _ _ _ _ _ I1 Eb) as (I2 & R2 & _). done.
Qed.

Lemma protect_range_any va size fl s : 0 <= size <= 2 ^ 64 - 4096 -> as_inv s ->
  exists b s', protect_range va size fl s = Some (b, s') /\ as_inv s' /\ as_rel s s'.
Proof.
  intros Hs Hinv. unfold protect_range. destruct (_ || _) eqn:E; [by exists false, s|]. apply orb_false_iff in E as [_ E%Z.eqb_neq].
  apply for_pages_any; [|lia|done]. intros off s1 b s2 I1 Eb. destruct (protect_view _ _ _ _ _ I1 Eb) as (I2 & R2 & _). done.
Qed.

Lemma unmap_range_any va size s : 0 <= size <= 2 ^ 64 - 4096 -> as_inv s ->
  exists b s', unmap_range va size s = Some (b, s') /\ as_inv s' /\ as_rel s s'.
Proof.
  intros Hs Hinv. unfold unmap_range. destruct (_ || _) eqn:E; [by exists false, s|]. apply orb_false_iff in E as [_ E%Z.eqb_neq].
  destruct (for_pages_rule (fun _ (x : bool * S) => as_inv x.2 /\ as_rel s x.2) (fun _ _ => False) size
    (fun off s => (true, unmap_body va off s)) (true, s) ltac:(lia)) as (b & [ok s'] & E' & Hr).
  - intros i [ok s1] b s2 _ [I1 R1] [= <- <-]. cbn in *. unfold unmap_body. cbn. destruct (as_unmap _ s1) as [b2 s2] eqn:Em.
    destruct (unmap_view _ _ _ _ I1 Em) as (I2 & R2 & _). split; [done|]. by transitivity s1.
  - by split.
  - rewrite E'. destruct b; [|by destruct Hr as (i & _ & [])]. cbn. by exists ok, s'.
Qed.

(** A range of whole pages below [2^48]. *)
Definition page_range (a size : Z) : Prop := aligned a /\ 0 <= a /\ 0 < size /\ a + size <= 2 ^ 48.

Lemma page_range_number a size i :
  page_range a size -> 0 <= i < page_count size ->
  wrap64 (a + 4096 * i) = a + 4096 * i /\ page_number (a + 4096 * i) = a / 4096 + i /\ aligned (a + 4096 * i) /\ in_vpn (a / 4096 + i).
Proof.
  intros (Ha & H0 & H1 & H2) Hi. pose proof (proj2 (page_count_bound i size H1) (proj2 Hi)). unfold aligned in *.
  assert (E : (a + 4096 * i) / 4096 = a / 4096 + i) by (rewrite (Z.mul_comm 4096 i), Z.div_add by lia; done).
  assert (Hr : in_vpn (a / 4096 + i)) by (unfold in_vpn; rewrite <- E; split; [apply Z.div_pos; lia|apply Z.div_lt_upper_bound; lia]).
  split; [apply wrap64_small; lia|]. split; [unfold page_number; rewrite E; by apply Z.mod_small|]. split; [|done].
  rewrite (Z.mul_comm 4096 i), Z.mod_add by lia. done.
Qed.

Lemma range_guard a : aligned a -> negb (a mod PAGE_SIZE =? 0) = false.
Proof. intros Ha. unfold PAGE_SIZE. by rewrite Ha. Qed.

(** ** [map_range] *)

(** The first [k] pages of the range are mapped to consecutive frames. *)
Definition mapped_upto (va pa fl k : Z) (s s' : S) : Prop :=
  forall n, in_vpn n -> as_view s' n =
    if decide (va / 4096 <= n < va / 4096 + k) then Some (pa / 4096 + (n - va / 4096), effective_flags fl) else as_view s n.

Lemma map_range_spec va pa size fl s :
  as_inv s -> page_range va size -> page_range pa size ->
  exists b s' k, map_range va pa size fl s = Some (b, s') /\ as_inv s' /\ as_rel s s' /\ 0 <= k <= page_count size /\
    mapped_upto va pa fl k s s' /\ (if b then k = page_count size else as_full s').
Proof.
  intros Hinv Hv Hp. unfold map_range. rewrite (range_guard va), (range_guard pa) by (apply Hv || apply Hp). pose proof Hv as (_ & Hv0 & Hs & Hs').
  destruct (Z.eqb_spec size 0) as [|_]; [lia|]. cbn [orb].
  destruct (for_pages_rule (fun i s1 => as_inv s1 /\ as_rel s s1 /\ mapped_upto va pa fl i s s1)
    (fun i s1 => as_inv s1 /\ as_rel s s1 /\ mapped_upto va pa fl i s s1 /\ as_full s1) size
    (fun off => as_map (wrap64 (va + off)) (wrap64 (pa + off)) fl) s) as (b & s' & E & Hres).
  - lia.
  - intros i s1 b s2 Hi (I1 & R1 & M1) Em. destruct (page_range_number va size i Hv Hi) as (Ev & Nv & Av & Bv).
    destruct (page_range_number pa size i Hp Hi) as (Ep & Np & Ap & Bp). rewrite Ev, Ep in Em.
    destruct (map_view _ _ _ _ _ _ I1 Em) as (I2 & R2 & V2). assert (R3 : as_rel s s2) by (by transitivity s1).
    destruct b.
    + split; [done|]. split; [done|]. destruct V2 as (_ & _ & V2). intros n Hn. rewrite V2, Nv, Np, M1 by done.
      destruct (decide (n = va / 4096 + i)) as [->|Hne]; [rewrite decide_True by lia; do 2 f_equal; lia|].
      destruct (decide (va / 4096 <= n < va / 4096 + i)), (decide (va / 4096 <= n < va / 4096 + (i + 1))); (done || lia).
    + destruct V2 as [V2 F2]. split; [done|]. split; [done|]. split; [|by apply F2]. intros n Hn. rewrite V2 by done. by apply M1.
  - split; [done|]. split; [done|]. intros n Hn. rewrite decide_False by lia. done.
  - rewrite E. destruct b.
    + destruct Hres as (I & R & M). exists true, s', (page_count size). split; [done|]. split; [done|]. split; [done|]. split; [|done].
      unfold page_count. Z.to_euclidean_division_equations. lia.
    + destruct Hres as (i & Hi & I & R & M & F). exists false, s', i. split; [done|]. split; [done|]. split; [done|]. split; [lia|done].
Qed.

(** ** [protect_range] *)

Definition protected_upto (va fl k : Z) (s s' : S) : Prop :=
  forall n, in_vpn n -> as_view s' n =
    if decide (va / 4096 <= n < va / 4096 + k) then (fun '(m, _) => (m, effective_flags fl)) <$> as_view s n else as_view s n.

Definition mapped_pages (va k : Z) (s : S) : Prop := forall n, va / 4096 <= n < va / 4096 + k -> is_Some (as_view s n).

Lemma protect_range_spec va size fl s :
  as_inv s -> page_range va size ->
  exists b s' k, protect_range va size fl s = Some (b, s') /\ as_inv s' /\ as_rel s s' /\ 0 <= k <= page_count size /\
    protected_upto va fl k s s' /\ mapped_pages va k s /\
    (if b then k = page_count size else k < page_count size /\ as_view s (va / 4096 + k) = None).
Proof.
  intros Hinv Hv. unfold protect_range. rewrite (range_guard va) by apply Hv. pose proof Hv as (_ & Hv0 & Hs & Hs').
  destruct (Z.eqb_spec size 0) as [|_]; [lia|]. cbn [orb].
  destruct (for_pages_rule (fun i s1 => as_inv s1 /\ as_rel s s1 /\ protected_upto va fl i s s1 /\ mapped_pages va i s)
    (fun i s1 => (as_inv s1 /\ as_rel s s1 /\ protected_upto va fl i s s1 /\ mapped_pages va i s) /\ as_view s (va / 4096 + i) = None) size
    (fun off => as_protect (wrap64 (va + off)) fl) s) as (b & s' & E & Hres).
  - lia.
  - intros i s1 b s2 Hi (I1 & R1 & M1 & X1) Em. destruct (page_range_number va size i Hv Hi) as (Ev & Nv & Av & Bv). rewrite Ev in Em.
    destruct (protect_view _ _ _ _ _ I1 Em) as (I2 & R2 & B2 & V2). rewrite Nv in B2, V2. assert (R3 : as_rel s s2) by (by transitivity s1).
    rewrite (M1 _ Bv), decide_False in B2 by lia. destruct b.
    + split; [done|]. split; [done|]. split.
      * intros n Hn. rewrite V2, M1 by done. destruct (decide (true = true /\ n = va / 4096 + i)) as [[_ ->]|Hne].
        -- rewrite decide_False by lia. rewrite decide_True by lia. done.
        -- assert (n <> va / 4096 + i) by (intros ->; by apply Hne).
           destruct (decide (va / 4096 <= n < va / 4096 + i)), (decide (va / 4096 <= n < va / 4096 + (i + 1))); (done || lia).
      * intros n Hn. destruct (decide (n = va / 4096 + i)) as [->|]; [by apply B2|]. apply X1. lia.
    + split; [|destruct (as_view s (va / 4096 + i)) eqn:En; [|done]; assert (false = true) by (apply B2; split; [done|by eexists]); done].
      split; [done|]. split; [done|]. split; [|done]. intros n Hn. rewrite V2, decide_False by (done || intros [? _]; done). by apply M1.
  - split; [done|]. split; [done|]. split; [intros n Hn; rewrite decide_False by lia; done|]. intros n Hn. lia.
  - rewrite E. destruct b.
    + destruct Hres as (I & R & M & X). exists true, s', (page_count size). split; [done|]. split; [done|]. split; [done|]. split; [|done].
      unfold page_count. Z.to_euclidean_division_equations. lia.
    + destruct Hres as (i & Hi & (I & R & M & X) & F). exists false, s', i. split; [done|]. split; [done|]. split; [done|]. split; [lia|].
      split; [done|]. split; [done|]. split; [lia|done].
Qed.

(** ** [unmap_range] *)

Definition unmapped_upto (va k : Z) (s s' : S) : Prop :=
  forall n, in_vpn n -> as_view s' n = if decide (va / 4096 <= n < va / 4096 + k) then None else as_view s n.

Lemma unmap_range_spec va size s :
  as_inv s -> page_range va size ->
  exists b s', unmap_range va size s = Some (b, s') /\ as_inv s' /\ as_rel s s' /\ unmapped_upto va (page_count size) s s' /\
    (b = true <-> mapped_pages va (page_count size) s).
Proof.
  intros Hinv Hv. unfold unmap_range. rewrite (range_guard va) by apply Hv. pose proof Hv as (_ & Hv0 & Hs & Hs').
  destruct (Z.eqb_spec size 0) as [|_]; [lia|]. cbn [orb].
  destruct (for_pages_rule (fun i (x : bool * S) => as_inv x.2 /\ as_rel s x.2 /\ unmapped_upto va i s x.2 /\ (x.1 = true <-> mapped_pages va i s))
    (fun _ _ => False) size (fun off s => (true, unmap_body va off s)) (true, s)) as (b & [ok s'] & E & Hres).
  - lia.
  - intros i [ok s1] b s2 Hi (I1 & R1 & M1 & X1) [= <- <-]. cbn [fst snd] in *. unfold unmap_body. cbn [fst snd].
    destruct (page_range_number va size i Hv Hi) as (Ev & Nv & Av & Bv). rewrite Ev.
    destruct (as_unmap (va + 4096 * i) s1) as [b2 s2] eqn:Em. cbn [fst snd].
    destruct (unmap_view _ _ _ _ I1 Em) as (I2 & R2 & B2 & V2). rewrite Nv in B2, V2. rewrite (M1 _ Bv), decide_False in B2 by lia.
    split; [done|]. split; [by transitivity s1|]. split.
    + intros n Hn. rewrite V2, M1 by done. destruct (decide (n = va / 4096 + i)) as [->|Hne].
      * rewrite (decide_True (P := va / 4096 <= va / 4096 + i < va / 4096 + (i + 1))) by lia. destruct b2; [by rewrite decide_True|].
        rewrite !decide_False by (lia || intros [? _]; done). destruct (as_view s (va / 4096 + i)) eqn:En; [|done].
        assert (false = true) by (apply B2; split; [done|by eexists]). done.
      * rewrite (decide_False (P := b2 = true /\ n = _)) by tauto.
        destruct (decide (va / 4096 <= n < va / 4096 + i)), (decide (va / 4096 <= n < va / 4096 + (i + 1))); (done || lia).
    + rewrite andb_true_iff, X1, B2. split.
      * intros [Hm [_ Hx]] n Hn. destruct (decide (n = va / 4096 + i)) as [->|]; [done|]. apply Hm. lia.
      * intros Hm. split; [intros n Hn; apply Hm; lia|]. split; [done|]. apply Hm. lia.
  - split; [done|]. split; [done|]. split; [intros n Hn; rewrite decide_False by lia; done|]. split; [|done]. intros _ n Hn. lia.
  - rewrite E. destruct b; [|destruct Hres as (i & _ & [])]. cbn [fmap option_fmap option_map fst snd] in *. exists ok, s'. tauto.
Qed.
End Ranges.
