(* ===== verification/AddressSpace.v ===== *)
(** The AArch64 translation tables implement the interface of address spaces:
    [AArch64MmuManager] as an instance of [VirtualAddressSpace] that satisfies
    its laws. *)
From S2P Require Import Prelude Pools Frames Pte PageTable PageTableInv PageTableOps Vasp.

(** ** Addresses and paths *)

Lemma land_ones_mod x n m : 0 <= n -> m = 2 ^ n -> Z.land x (Z.ones n) = x mod m.
Proof. intros Hn ->. by apply Z.land_ones. Qed.

Lemma page_aligned_spec a : page_aligned a = true <-> aligned a.
Proof. unfold page_aligned, aligned. change 4095 with (Z.ones 12). rewrite (land_ones_mod a 12 4096), Z.eqb_eq by done. done. Qed.

Lemma idx_div x k m : 0 <= k -> m = 2 ^ k -> Z.land (Z.shiftr x k) 511 = (x / m) mod 512.
Proof. intros Hk ->. change 511 with (Z.ones 9). rewrite Z.land_ones, Z.shiftr_div_pow2 by lia. done. Qed.

(** The four indices are the base-512 digits of the page number. *)
Lemma page_number_digits va :
  page_number va = l3_idx va + 512 * (l2_idx va + 512 * (l1_idx va + 512 * l0_idx va)).
Proof.
  unfold page_number, l0_idx, l1_idx, l2_idx, l3_idx.
  rewrite (idx_div va 39 (4096 * 512 * 512 * 512)), (idx_div va 30 (4096 * 512 * 512)), (idx_div va 21 (4096 * 512)), (idx_div va 12 4096) by lia.
  rewrite <- !Zdiv.Zdiv_Zdiv by lia. set (x := va / 4096). change (2 ^ 36) with (512 * (512 * (512 * 512))).
  rewrite (Z.rem_mul_r x 512) by lia. rewrite (Z.rem_mul_r (x / 512) 512) by lia. rewrite (Z.rem_mul_r (x / 512 / 512) 512) by lia. done.
Qed.

Lemma path_page_number va vb : path va = path vb /\ l3_idx va = l3_idx vb <-> page_number va = page_number vb.
Proof.
  rewrite !page_number_digits. unfold path.
  pose proof (l0_idx_range va). pose proof (l1_idx_range va). pose proof (l2_idx_range va). pose proof (l3_idx_range va).
  pose proof (l0_idx_range vb). pose proof (l1_idx_range vb). pose proof (l2_idx_range vb). pose proof (l3_idx_range vb).
  split; [intros [[= -> -> ->] ->]; done|]. intros E.
  assert (l3_idx va = l3_idx vb /\ l2_idx va = l2_idx vb /\ l1_idx va = l1_idx vb /\ l0_idx va = l0_idx vb) as (-> & -> & -> & ->) by lia. done.
Qed.

Lemma page_number_page n : in_vpn n -> page_number (n * 4096) = n.
Proof. intros Hn. unfold page_number. rewrite Z.div_mul by lia. by apply Z.mod_small. Qed.

Lemma page_number_range va : in_vpn (page_number va).
Proof. apply Z.mod_pos_bound. lia. Qed.

(** ** The abstract map of an address space *)

(** The entry an address-space holds for a virtual page, as page number and
    flags. *)
Definition entry_view (e : Z) : Z * Z := (output_addr e, entry_flags e).
Definition vas_view (s : Z * Hw) (n : Z) : option (Z * Z) := entry_view <$> leaf (n * 4096) s.1 s.2.

(** The leaf depends on the page number only. *)
Lemma leaf_page va vb root h : page_number va = page_number vb -> leaf va root h = leaf vb root h.
Proof.
  intros E. apply path_page_number in E as [Hp E3]. unfold path in Hp. injection Hp as E0 E1 E2. unfold leaf, walk. by rewrite E0, E1, E2, E3.
Qed.

Lemma vas_view_leaf va root h : vas_view (root, h) (page_number va) = entry_view <$> leaf va root h.
Proof. unfold vas_view. cbn. f_equal. apply leaf_page, page_number_page, page_number_range. Qed.

Lemma vas_view_tleaf h root T free va : vas_ok h root T free -> vas_view (root, h) (page_number va) = entry_view <$> tleaf h T (path va) (l3_idx va).
Proof. intros Hok. by rewrite vas_view_leaf, (leaf_spec Hok). Qed.

(** Updates of leaves are updates of the view. *)
Lemma view_upd h root T free h' root' T' free' va v :
  vas_ok h root T free -> vas_ok h' root' T' free' -> leaves_upd va v h h' T T' ->
  forall n, in_vpn n -> vas_view (root', h') n = if decide (n = page_number va) then entry_view <$> v else vas_view (root, h) n.
Proof.
  intros O1 O2 HU n Hn.
  assert (HE : forall s, vas_view s n = vas_view s (page_number (n * 4096))) by (intros s; by rewrite page_number_page).
  rewrite !HE, (vas_view_tleaf _ _ _ _ _ O1), (vas_view_tleaf _ _ _ _ _ O2).
  rewrite HU by (done || auto with vas). destruct (decide (n = page_number va)) as [->|Hne].
  - rewrite decide_True; [done|]. apply path_page_number. apply page_number_page, page_number_range.
  - rewrite decide_False; [done|]. rewrite path_page_number, page_number_page by done. done.
Qed.

Lemma view_same h root T free h' root' T' free' :
  vas_ok h root T free -> vas_ok h' root' T' free' -> same_leaves h h' T T' -> forall n, in_vpn n -> vas_view (root', h') n = vas_view (root, h) n.
Proof.
  intros O1 O2 HU n Hn. rewrite <- (page_number_page n Hn). rewrite (vas_view_tleaf _ _ _ _ _ O1), (vas_view_tleaf _ _ _ _ _ O2).
  rewrite HU by (done || auto with vas). done.
Qed.

Lemma page_entry_view pa fl : entry_view (page_entry pa fl) = (page_number pa, effective_flags fl).
Proof.
  unfold entry_view. rewrite page_entry_flags, page_entry_addr. f_equal. unfold page_number.
  rewrite Z.land_ones, Z.shiftr_div_pow2 by lia. done.
Qed.

Lemma set_attributes_view fl e : entry_view (set_attributes fl e) = (output_addr e, effective_flags fl).
Proof. unfold entry_view. rewrite set_attributes_roundtrip. by destruct (set_attributes_keep fl e) as (_ & _ & -> & _). Qed.

(** Page number and offset make an address. *)
Lemma join_offset n va : Z.lor (Z.shiftl n 12) (Z.land va 4095) = n * 4096 + va mod 4096.
Proof.
  change 4095 with (Z.ones 12). rewrite (land_ones_mod va 12 4096) by done. pose proof (Z.mod_pos_bound va 4096 ltac:(lia)).
  rewrite <- Z.lxor_lor, <- Z.add_nocarry_lxor; [rewrite Z.shiftl_mul_pow2 by lia; done| |];
    (apply Z.bits_inj'; intros j Hj; rewrite Z.land_spec, Z.bits_0; destruct (Z.lt_ge_cases j 12);
      [rewrite Z.shiftl_spec_low by lia; done|rewrite (bits_above (va mod 4096) 12) by (lia || done); apply andb_false_r]).
Qed.

(** ** The instance *)

#[export] Instance aarch64_vas : VirtualAddressSpace (Z * Hw) := {
  as_map va pa fl s := let '(b, r, h) := mmu_map va pa fl s.1 s.2 in (b, (r, h));
  as_unmap va s := let (b, h) := mmu_unmap va s.1 s.2 in (b, (s.1, h));
  as_translate va s := mmu_translate va s.1 s.2;
  as_protect va fl s := let (b, h) := mmu_protect va fl s.1 s.2 in (b, (s.1, h));
  get_pgdir_base s := s.1;
}.

Definition vas_inv (s : Z * Hw) : Prop := exists T free, vas_ok s.2 s.1 T free.

(** A root table stays where it is; whatever the tables were, they are tables
    afterwards, pages are conserved and foreign pages keep their words. *)
Definition vas_rel (s s' : Z * Hw) : Prop :=
  (s.1 <> nullptr -> s'.1 = s.1) /\
  forall T free, vas_ok s.2 s.1 T free -> exists T' free', vas_ok s'.2 s'.1 T' free' /\ vas_frame s.2 s'.2 T T' free free'.

Definition vas_full (s : Z * Hw) : Prop := fr_head (frames s.2) = nullptr.

#[export] Instance vas_rel_preorder : PreOrder vas_rel.
Proof.
  split.
  - intros s. split; [done|]. intros T free Ho. exists T, free. auto with vas.
  - intros s1 s2 s3 [E1 R1] [E2 R2]. split; [intros Hn; rewrite E2, E1; [done..|by rewrite E1]|]. intros T1 f1 O1. destruct (R1 T1 f1 O1) as (T2 & f2 & O2 & F2). destruct (R2 T2 f2 O2) as (T3 & f3 & O3 & F3).
    exists T3, f3. split; [done|]. by eapply vas_frame_trans.
Qed.

(** The tables of an address space are determined by its memory, and so is the
    free list; the operation's effect holds for each reading of them. *)
Lemma vas_map_view s va pa fl b s' : vas_inv s -> as_map va pa fl s = (b, s') ->
  vas_inv s' /\ vas_rel s s' /\
  (if b then aligned va /\ aligned pa /\
     forall n, in_vpn n -> vas_view s' n = if decide (n = page_number va) then Some (page_number pa, effective_flags fl) else vas_view s n
   else (forall n, in_vpn n -> vas_view s' n = vas_view s n) /\ (aligned va -> aligned pa -> vas_full s')).
Proof.
  destruct s as [root h]. intros (T & free & Ho). cbn in Ho |- *. destruct (mmu_map va pa fl root h) as [[b1 root'] h'] eqn:E. intros [= <- <-].
  destruct (mmu_map_ok _ _ _ _ _ _ _ _ _ _ Ho E) as (Hr & T' & free' & O' & F' & _ & R'). split; [by exists T', free'|]. split.
  - split; [done|]. intros T1 f1 O1. destruct (mmu_map_ok _ _ _ _ _ _ _ _ _ _ O1 E) as (_ & T2 & f2 & O2 & F2 & _). by exists T2, f2.
  - destruct b1.
    + destruct R' as (A1 & A2 & R'). apply page_aligned_spec in A1, A2. split; [done|]. split; [done|]. intros n Hn.
      rewrite (view_upd _ _ _ _ _ _ _ _ _ _ Ho O' R' n Hn). by rewrite <- page_entry_view.
    + destruct R' as (R' & Hfull). split; [by eapply view_same|]. intros A1%page_aligned_spec A2%page_aligned_spec. rewrite A1, A2 in Hfull.
      pose proof (fr_chain _ _ (v_frames _ _ _ _ O')) as Hc. rewrite Hfull in Hc by done. exact Hc.
Qed.

Lemma vas_view_some va root h : is_Some (vas_view (root, h) (page_number va)) <-> is_Some (leaf va root h).
Proof. rewrite vas_view_leaf. apply fmap_is_Some. Qed.

Lemma vas_unmap_view s va b s' : vas_inv s -> as_unmap va s = (b, s') ->
  vas_inv s' /\ vas_rel s s' /\ (b = true <-> aligned va /\ is_Some (vas_view s (page_number va))) /\
  forall n, in_vpn n -> vas_view s' n = if decide (b = true /\ n = page_number va) then None else vas_view s n.
Proof.
  destruct s as [root h]. intros (T & free & Ho). cbn in Ho |- *. destruct (mmu_unmap va root h) as [b1 h'] eqn:E. intros [= <- <-].
  destruct (mmu_unmap_ok _ _ _ _ _ _ _ Ho E) as (Eb & T' & free' & O' & F' & R'). split; [by exists T', free'|]. split; [|split].
  - split; [done|]. intros T1 f1 O1. destruct (mmu_unmap_ok _ _ _ _ _ _ _ O1 E) as (_ & T2 & f2 & O2 & F2 & _). by exists T2, f2.
  - rewrite vas_view_some, <- page_aligned_spec, Eb, andb_true_iff, bool_decide_eq_true. done.
  - intros n Hn. destruct b1.
    + destruct R' as (R' & _). rewrite (view_upd _ _ _ _ _ _ _ _ _ _ Ho O' R' n Hn).
      destruct (decide (n = page_number va)), (decide (true = true /\ n = page_number va)); (done || tauto).
    + destruct R' as [-> _]. rewrite decide_False by (intros [? _]; done). done.
Qed.

Lemma vas_protect_view s va fl b s' : vas_inv s -> as_protect va fl s = (b, s') ->
  vas_inv s' /\ vas_rel s s' /\ (b = true <-> aligned va /\ is_Some (vas_view s (page_number va))) /\
  forall n, in_vpn n -> vas_view s' n =
    if decide (b = true /\ n = page_number va) then (fun '(m, _) => (m, effective_flags fl)) <$> vas_view s n else vas_view s n.
Proof.
  destruct s as [root h]. intros (T & free & Ho). cbn in Ho |- *. destruct (mmu_protect va fl root h) as [b1 h'] eqn:E. intros [= <- <-].
  destruct (mmu_protect_ok _ _ _ _ _ _ _ _ Ho E) as (Eb & O' & F' & R'). split; [by exists T, free|]. split; [|split].
  - split; [done|]. intros T1 f1 O1. destruct (mmu_protect_ok _ _ _ _ _ _ _ _ O1 E) as (_ & O2 & F2 & _). by exists T1, f1.
  - rewrite vas_view_some, <- page_aligned_spec, Eb, andb_true_iff, bool_decide_eq_true. done.
  - intros n Hn. destruct b1.
    + destruct R' as (e & Ee & R' & _). rewrite (view_upd _ _ _ _ _ _ _ _ _ _ Ho O' R' n Hn).
      destruct (decide (n = page_number va)) as [->|], (decide (true = true /\ _)) as [?|?]; try tauto.
      rewrite (vas_view_tleaf _ _ _ _ _ Ho), Ee. cbn. by rewrite set_attributes_view.
    + rewrite decide_False by (intros [? _]; done). by rewrite R'.
Qed.

Lemma vas_translate_view (s : Z * Hw) va : vas_inv s ->
  as_translate va s = (fun '(n, fl) => (n * 4096 + va mod 4096, fl)) <$> vas_view s (page_number va).
Proof.
  destruct s as [root h]. intros _. cbn. rewrite vas_view_leaf. unfold mmu_translate. destruct (leaf va root h) as [e|]; [|done]. cbn.
  unfold get_address. by rewrite join_offset.
Qed.

#[export] Instance aarch64_laws : AddressSpaceLaws (Z * Hw) := {
  as_inv := vas_inv; as_view := vas_view; as_rel := vas_rel; as_full := vas_full;
  translate_view := vas_translate_view; map_view := vas_map_view; unmap_view := vas_unmap_view; protect_view := vas_protect_view;
}.
