(* ===== verification/Mmu.v ===== *)
(** The MMU subsystem (kernel/mm/mmu.cpp, kernel/mm/mmu.hpp) and
    [AArch64MmuManager::map_kernel_regions], in the AArch64 build: one address
    space per task, the kernel's own, and the page pool they share.

    Address-space objects are named by their addresses; [operator new] is an
    argument (the address it returns, 0 on failure) of the operations that call
    it.  [mmu_ok] is the invariant: every page of the pool is in exactly one place
    (a table of one address space, held by a client, or free) and every task's
    pointer leads to a live address space of its own. *)
From S2P Require Import Prelude Pools Frames Pte PageTable PageTableInv PageTableOps Vasp AddressSpace.

(** * State *)

Record Mmu := mkMmu {
  hw : Hw;
  vases : gmap Z Z;              (* live objects and their [l0_table_] *)
  kernel_vas_ : Z;
  mmu_enabled_ : bool;
  task_memory : gmap Z (Z * Z);  (* per task: [vasp], [pgdir_base] *)
  ttbr0 : Z;
}.

Definition set_hw v m := mkMmu v (vases m) (kernel_vas_ m) (mmu_enabled_ m) (task_memory m) (ttbr0 m).
Definition set_vases v m := mkMmu (hw m) v (kernel_vas_ m) (mmu_enabled_ m) (task_memory m) (ttbr0 m).
Definition set_kernel_vas v m := mkMmu (hw m) (vases m) v (mmu_enabled_ m) (task_memory m) (ttbr0 m).
Definition set_enabled v m := mkMmu (hw m) (vases m) (kernel_vas_ m) v (task_memory m) (ttbr0 m).
Definition set_task_memory v m := mkMmu (hw m) (vases m) (kernel_vas_ m) (mmu_enabled_ m) v (ttbr0 m).
Definition set_ttbr0 v m := mkMmu (hw m) (vases m) (kernel_vas_ m) (mmu_enabled_ m) (task_memory m) v.

(** [task->memory.vasp] and [task->memory.pgdir_base]. *)
Definition vasp (t : Z) (m : Mmu) : Z := (default (nullptr, 0) (task_memory m !! t)).1.
Definition pgdir_base (t : Z) (m : Mmu) : Z := (default (nullptr, 0) (task_memory m !! t)).2.
Definition root_of (o : Z) (m : Mmu) : Z := default nullptr (vases m !! o).

(** * Kernel regions *)

Definition KERNEL_RAM_BASE : Z := 0x40000000.
Definition KERNEL_RAM_SIZE : Z := 128 * 1024 * 1024.
Definition BOARD_UART0_BASE : Z := 0x09000000.
Definition BOARD_GIC_DIST_BASE : Z := 0x08000000.
Definition BOARD_GIC_DIST_SIZE : Z := 128 * 1024.

Definition map_kernel_regions (s : Z * Hw) : option (bool * (Z * Hw)) :=
  '(ok, s) ← map_range KERNEL_RAM_BASE KERNEL_RAM_BASE KERNEL_RAM_SIZE (Z.lor (Z.lor MapRead MapWrite) MapExecute) s;
  if negb ok then Some (false, s) else
  let (ok, s) := as_map BOARD_UART0_BASE BOARD_UART0_BASE (Z.lor (Z.lor MapRead MapWrite) MapDevice) s in
  if negb ok then Some (false, s) else
  '(ok, s) ← map_range BOARD_GIC_DIST_BASE BOARD_GIC_DIST_BASE BOARD_GIC_DIST_SIZE (Z.lor (Z.lor MapRead MapWrite) MapDevice) s;
  if negb ok then Some (false, s) else Some (true, s).

(** * Operations *)

(** Running an operation of the address space at [o]. *)
Definition store_vas (o : Z) (s : Z * Hw) (m : Mmu) : Mmu := set_vases (<[o := s.1]> (vases m)) (set_hw s.2 m).
Definition load_vas (o : Z) (m : Mmu) : Z * Hw := (root_of o m, hw m).

(** [create_vas]: the result of [map_kernel_regions] is not looked at. *)
Definition create_vas (obj : Z) (m : Mmu) : option (Z * Mmu) :=
  if obj =? nullptr then Some (nullptr, m) else
  r ← map_kernel_regions (mmu_ctor (hw m));
  Some (obj, store_vas obj r.2 m).

Definition destroy_vas (o : Z) (m : Mmu) : Mmu :=
  if o =? nullptr then m else set_vases (delete o (vases m)) (set_hw (mmu_dtor (root_of o m) (hw m)) m).

Definition destroy_task_vas (task : option Z) (m : Mmu) : Mmu :=
  match task with
  | None => m
  | Some t =>
      if vasp t m =? nullptr then m else
      let m := destroy_vas (vasp t m) m in
      set_task_memory (<[t := (nullptr, 0)]> (task_memory m)) m
  end.

Definition create_task_vas (task : option Z) (obj : Z) (m : Mmu) : option (bool * Mmu) :=
  match task with
  | None => Some (false, m)
  | Some t =>
      let m := destroy_task_vas task m in
      '(vas, m) ← create_vas obj m;
      if vas =? nullptr then Some (false, m) else
      Some (true, set_task_memory (<[t := (vas, root_of vas m)]> (task_memory m)) m)
  end.

(** [Arch::switch_address_space] of the AArch64 port. *)
Definition switch_address_space (pgdir : Z) (m : Mmu) : Mmu := if pgdir =? 0 then m else set_ttbr0 pgdir m.

Definition switch_vas (task : option Z) (m : Mmu) : Mmu :=
  match task with
  | None => m
  | Some t =>
      let pgdir := pgdir_base t m in
      let pgdir := if (pgdir =? 0) && negb (kernel_vas_ m =? nullptr) then root_of (kernel_vas_ m) m else pgdir in
      if pgdir =? 0 then m else switch_address_space pgdir m
  end.

Definition on_vas (t : Z) (f : Z * Hw -> option (bool * (Z * Hw))) (m : Mmu) : option (bool * Mmu) :=
  '(ok, s) ← f (load_vas (vasp t m) m); Some (ok, store_vas (vasp t m) s m).

Definition map_user_memory (task : option Z) (vaddr paddr size flags : Z) (m : Mmu) : option (bool * Mmu) :=
  match task with
  | None => Some (false, m)
  | Some t =>
      if (vasp t m =? nullptr) || (size =? 0) then Some (false, m) else
      on_vas t (map_range vaddr paddr size (Z.lor flags MapUser)) m
  end.

Definition unmap_user_memory (task : option Z) (vaddr size : Z) (m : Mmu) : option (bool * Mmu) :=
  match task with
  | None => Some (false, m)
  | Some t =>
      if (vasp t m =? nullptr) || (size =? 0) then Some (false, m) else on_vas t (unmap_range vaddr size) m
  end.

Definition protect_user_memory (task : option Z) (vaddr size flags : Z) (m : Mmu) : option (bool * Mmu) :=
  match task with
  | None => Some (false, m)
  | Some t =>
      if (vasp t m =? nullptr) || (size =? 0) then Some (false, m) else
      on_vas t (protect_range vaddr size (Z.lor flags MapUser)) m
  end.

Definition translate (task : option Z) (vaddr : Z) (m : Mmu) : option (Z * Z) :=
  match task with
  | None => None
  | Some t => if vasp t m =? nullptr then None else as_translate vaddr (load_vas (vasp t m) m)
  end.

(** The proxies of the page allocator. *)
Definition mmu_alloc_page (m : Mmu) : Z * Mmu := let (a, h) := alloc_page_hw (hw m) in (a, set_hw h m).
Definition mmu_free_page (page : Z) (m : Mmu) : Mmu := set_hw (free_page_hw page (hw m)) m.
Definition get_free_pages (m : Mmu) : Z := fr_free (frames (hw m)).

Definition enable_mmu (m : Mmu) : Mmu := set_enabled true m.
Definition disable_mmu (m : Mmu) : Mmu := set_enabled false m.

Definition init (page_pool pool_size obj : Z) (m : Mmu) : option (bool * Mmu) :=
  let m := if negb (page_pool =? nullptr) && (0 <? pool_size)
           then set_hw (set_frames (frames_init page_pool pool_size (words (frames (hw m)))) (hw m)) m else m in
  m ← (if kernel_vas_ m =? nullptr then '(vas, m) ← create_vas obj m; Some (set_kernel_vas vas m) else Some m);
  let m := if kernel_vas_ m =? nullptr then m else set_ttbr0 (root_of (kernel_vas_ m) m) m in
  let m := enable_mmu m in
  Some (negb (kernel_vas_ m =? nullptr), m).
