(* ===== verification/MmuInv.v ===== *)
(** The invariant of the MMU subsystem: the pages of the pool are shared out
    between the address spaces, the clients and the free list, and an operation
    on one address space leaves the others alone. *)
From S2P Require Import Prelude Pools Frames Pte PageTable PageTableInv PageTableOps Vasp AddressSpace Mmu.

(** * Several address spaces in one memory *)

Definition all_tables (TT : gmap Z (gmap (list Z) Z)) : list Z := x ← map_to_list TT; tables x.2.

Definition pool_pages (h : Hw) : list Z := pages_from (fr_base (frames h)) (fr_total (frames h)).

Record spaces_ok (h : Hw) (vs : gmap Z Z) (TT : gmap Z (gmap (list Z) Z)) (held free : list Z) : Prop := {
  sp_frames : frames_inv (frames h) free;
  sp_dom : forall o, is_Some (vs !! o) <-> is_Some (TT !! o);
  sp_vas : forall o r T, vs !! o = Some r -> TT !! o = Some T -> vas_ok h r T free;
  sp_all : all_tables TT ++ held ++ free ≡ₚ pool_pages h;
}.

Lemma all_tables_insert TT o T : TT !! o = None -> all_tables (<[o := T]> TT) ≡ₚ tables T ++ all_tables TT.
Proof. intros Ho. unfold all_tables. rewrite map_to_list_insert by done. done. Qed.

Lemma all_tables_delete TT o T : TT !! o = Some T -> all_tables TT ≡ₚ tables T ++ all_tables (delete o TT).
Proof. intros Ho. unfold all_tables. rewrite <- (map_to_list_delete TT o T Ho). done. Qed.

Lemma all_tables_update TT o T T' : TT !! o = Some T -> all_tables (<[o := T']> TT) ≡ₚ tables T' ++ all_tables (delete o TT).
Proof. intros Ho. rewrite <- insert_delete_eq. apply all_tables_insert, lookup_delete_eq. Qed.

Lemma all_tables_elem TT o T x : TT !! o = Some T -> x ∈ tables T -> x ∈ all_tables TT.
Proof. intros Ho Hx. rewrite (all_tables_delete TT o T Ho). apply elem_of_app. by left. Qed.

Lemma pool_nodup h : NoDup (pool_pages h).
Proof. apply NoDup_fmap_2_strong; [|apply NoDup_seqZ]. unfold PAGE_SIZE. intros; lia. Qed.

Lemma pool_pages_same h h' : same_pool (frames h) (frames h') -> pool_pages h' = pool_pages h.
Proof. intros [E1 E2]. unfold pool_pages. by rewrite E1, E2. Qed.

Lemma pool_frame h a : a ∈ pool_pages h <-> is_frame (frames h) a.
Proof.
  unfold pool_pages, pages_from. rewrite list_elem_of_fmap. split.
  - intros (i & -> & Hi%elem_of_seqZ). exists i. split; [lia|done].
  - intros (i & Hi & ->). exists i. split; [done|]. apply elem_of_seqZ. lia.
Qed.

(** Two address spaces share no page with each other nor with the free list. *)
Section Spaces.
Context {h : Hw} {vs : gmap Z Z} {TT : gmap Z (gmap (list Z) Z)} {held free : list Z} (Hok : spaces_ok h vs TT held free).

Lemma spaces_nodup : NoDup (all_tables TT ++ held ++ free).
Proof. rewrite (sp_all _ _ _ _ _ Hok). apply pool_nodup. Qed.

Lemma spaces_table o r : vs !! o = Some r -> exists T, TT !! o = Some T /\ vas_ok h r T free.
Proof.
  intros Hr. destruct (proj1 (sp_dom _ _ _ _ _ Hok o) ltac:(by eexists)) as [T HT]. exists T. split; [done|]. by eapply sp_vas.
Qed.

(** The pages of another address space are foreign to this one. *)
Lemma spaces_apart o1 o2 T1 T2 x : TT !! o1 = Some T1 -> TT !! o2 = Some T2 -> o1 <> o2 -> x ∈ tables T2 -> x ∉ tables T1 ++ free.
Proof.
  intros H1 H2 Hne Hx. pose proof spaces_nodup as Hnd. rewrite (all_tables_delete TT o1 T1 H1), <- app_assoc in Hnd.
  assert (Hx' : x ∈ all_tables (delete o1 TT)) by (eapply all_tables_elem; [rewrite lookup_delete_ne by done; exact H2|done]).
  apply NoDup_app in Hnd as (_ & N1 & (_ & N2 & _)%NoDup_app). intros [Hy|Hy]%elem_of_app.
  - apply (N1 x Hy). apply elem_of_app. by left.
  - apply (N2 x Hx'). apply elem_of_app. by right.
Qed.

Lemma held_apart o T x : TT !! o = Some T -> x ∈ held -> x ∉ tables T ++ free.
Proof.
  intros HT Hx. pose proof spaces_nodup as (_ & N1 & (_ & N2 & _)%NoDup_app)%NoDup_app. intros [Hy|Hy]%elem_of_app.
  - apply (N1 x); [by eapply all_tables_elem|]. apply elem_of_app. by left.
  - by apply (N2 x).
Qed.

(** One address space changes within its frame: the others keep their tables
    and their views. *)
Lemma spaces_step o T h' r' T' free' :
  TT !! o = Some T -> vas_ok h' r' T' free' -> vas_frame h h' T T' free free' ->
  spaces_ok h' (<[o := r']> vs) (<[o := T']> TT) held free' /\
  (forall o2 r2, o2 <> o -> vs !! o2 = Some r2 -> forall n, in_vpn n -> vas_view (r2, h') n = vas_view (r2, h) n) /\
  same_pool (frames h) (frames h') /\ (forall b, page_of b ∈ held -> rd h' b = rd h b).
Proof.
  intros HT Ho' (Hs & Hp & Hrd).
  assert (Hall : all_tables (<[o := T']> TT) ++ held ++ free' ≡ₚ pool_pages h').
  { rewrite (pool_pages_same _ _ Hs), <- (sp_all _ _ _ _ _ Hok), (all_tables_update TT o T T' HT), (all_tables_delete TT o T HT).
    rewrite (Permutation_app_comm held free'), (Permutation_app_comm held free), !app_assoc. apply Permutation_app_tail.
    rewrite <- !app_assoc, !(Permutation_app_comm (all_tables (delete o TT))), !app_assoc. by rewrite Hp. }
  assert (Hother : forall o2 T2, o2 <> o -> TT !! o2 = Some T2 -> forall b, page_of b ∈ tables T2 -> rd h' b = rd h b).
  { intros o2 T2 Hne HT2 b Hb. apply Hrd. by eapply spaces_apart. }
  assert (Hnd : NoDup (all_tables (<[o := T']> TT) ++ held ++ free')) by (rewrite Hall; apply pool_nodup).
  assert (Hvas : forall o2 r2 T2, o2 <> o -> vs !! o2 = Some r2 -> TT !! o2 = Some T2 -> vas_ok h' r2 T2 free').
  { intros o2 r2 T2 Hne Hr2 HT2. eapply vas_ok_same; [by eapply (sp_vas _ _ _ _ _ Hok)|by eapply Hother|apply Ho'|done|].
    apply NoDup_app in Hnd as (N1 & N2 & (_ & _ & N3)%NoDup_app). rewrite (all_tables_delete _ o2 T2) in N1 by (by rewrite lookup_insert_ne).
    apply NoDup_app in N1 as (N1 & _). apply NoDup_app. split; [done|]. split; [|done]. intros x Hx Hf. apply (N2 x).
    - eapply all_tables_elem; [rewrite lookup_insert_ne by done; exact HT2|done].
    - apply elem_of_app. by right. }
  split; [split|split; [|split; [done|]]].
  - apply Ho'.
  - intros o2. rewrite !lookup_insert. case_decide; [split; by eexists|apply Hok].
  - intros o2 r2 T2. rewrite !lookup_insert. destruct (decide (o = o2)) as [<-|Hne]; [intros [= <-] [= <-]; done|].
    intros Hr2 HT2. by apply (Hvas o2 r2 T2).
  - done.
  - intros o2 r2 Hne Hr2 n Hn. destruct (spaces_table o2 r2 Hr2) as (T2 & HT2 & O2).
    eapply view_same; [exact O2|by eapply Hvas| |done]. intros q j _ Hj. eapply tleaf_same; [exact O2|by eapply Hother|done].
  - intros b Hb. apply Hrd. by eapply held_apart.
Qed.
End Spaces.

(** ** Objects come and go *)

Lemma empty_vas_ok h free : frames_inv (frames h) free -> vas_ok h nullptr ∅ free.
Proof.
  intros Hf. split; [done|done|..]; try (intros *; rewrite lookup_empty; done). unfold tables. rewrite map_to_list_empty. apply Hf.
Qed.

Lemma tables_empty : tables ∅ = [].
Proof. unfold tables. by rewrite map_to_list_empty. Qed.

Lemma spaces_add h vs TT held free o :
  spaces_ok h vs TT held free -> vs !! o = None -> spaces_ok h (<[o := nullptr]> vs) (<[o := ∅]> TT) held free.
Proof.
  intros Hok Ho. assert (HT : TT !! o = None).
  { destruct (TT !! o) eqn:E; [|done]. destruct (proj2 (sp_dom _ _ _ _ _ Hok o) ltac:(by eexists)). congruence. }
  split; [apply Hok| | |].
  - intros o2. rewrite !lookup_insert. case_decide; [split; by eexists|apply Hok].
  - intros o2 r T. rewrite !lookup_insert. case_decide; [intros [= <-] [= <-]; apply empty_vas_ok, Hok|by eapply (sp_vas _ _ _ _ _ Hok)].
  - rewrite all_tables_insert, tables_empty by done. apply Hok.
Qed.

Lemma spaces_remove h vs TT held free o :
  spaces_ok h vs TT held free -> TT !! o = Some ∅ -> spaces_ok h (delete o vs) (delete o TT) held free.
Proof.
  intros Hok Ho. split; [apply Hok| | |].
  - intros o2. rewrite !lookup_delete. case_decide; [split; intros [? ?]; done|apply Hok].
  - intros o2 r T [_ Hr]%lookup_delete_Some [_ HT]%lookup_delete_Some. by eapply (sp_vas _ _ _ _ _ Hok).
  - pose proof (sp_all _ _ _ _ _ Hok) as Ha. rewrite (all_tables_delete TT o ∅ Ho), tables_empty in Ha. done.
Qed.

(** The destructor as a change of one address space. *)
Lemma dtor_step h root T free :
  vas_ok h root T free -> exists free', vas_ok (mmu_dtor root h) nullptr ∅ free' /\ vas_frame h (mmu_dtor root h) T ∅ free free'.
Proof.
  intros Ho. destruct (mmu_dtor_ok Ho) as (l & Hl & F1 & F2 & F3 & _). exists (reverse l ++ free). split; [by apply empty_vas_ok|].
  split; [done|]. split; [rewrite tables_empty, reverse_Permutation, Hl; done|]. intros b Hb. apply F3. rewrite Hl. intros Hx. apply Hb, elem_of_app. by left.
Qed.

(** The constructor, likewise. *)
Lemma ctor_rel h : vas_rel (nullptr, h) (mmu_ctor h).
Proof.
  split; [done|]. intros T free Ho. cbn in Ho. unfold mmu_ctor. destruct (list_case free) as [Ef|(n & fr & Ef)].
  - rewrite (alloc_page_none Ho Ef). exists T, free. auto with vas.
  - destruct (fresh_root h T free n fr Ho Ef) as (O1 & _ & F1). destruct (alloc_page_some Ho n fr Ef) as (E1 & _). rewrite E1. by exists {[ [] := n ]}, fr.
Qed.

(** * The whole state *)

Record tasks_ok (m : Mmu) : Prop := {
  ts_null : vases m !! nullptr = None;
  ts_live : forall t, vasp t m <> nullptr -> is_Some (vases m !! vasp t m);
  ts_own : forall t u, vasp t m <> nullptr -> vasp t m = vasp u m -> t = u;
  ts_kernel : kernel_vas_ m <> nullptr -> is_Some (vases m !! kernel_vas_ m) /\ forall t, vasp t m <> kernel_vas_ m;
  ts_owner : forall o, is_Some (vases m !! o) -> o = kernel_vas_ m \/ exists t, vasp t m = o;
  ts_pgdir : forall t, pgdir_base t m = 0 \/ pgdir_base t m = root_of (vasp t m) m;
}.

(** [TT] gives the tables of every address space, [held] the pages handed out to
    clients. *)
Definition mmu_at (m : Mmu) (held : list Z) (TT : gmap Z (gmap (list Z) Z)) : Prop :=
  tasks_ok m /\ exists free, spaces_ok (hw m) (vases m) TT held free.

Definition mmu_ok (m : Mmu) (held : list Z) : Prop := exists TT, mmu_at m held TT.

(** The mapping of every address space but [o] is as before. *)
Definition others_same (o : Z) (m m' : Mmu) : Prop :=
  forall o2 r2, o2 <> o -> vases m !! o2 = Some r2 ->
    vases m' !! o2 = Some r2 /\ forall n, in_vpn n -> vas_view (r2, hw m') n = vas_view (r2, hw m) n.

(** The pool and the words of the pages that clients hold are as before. *)
Definition held_same (held : list Z) (m m' : Mmu) : Prop :=
  same_pool (frames (hw m)) (frames (hw m')) /\ forall b, page_of b ∈ held -> rd (hw m') b = rd (hw m) b.

Lemma vas_rel_step m held TT free o r s' :
  spaces_ok (hw m) (vases m) TT held free -> vases m !! o = Some r -> vas_rel (r, hw m) s' ->
  (exists TT' free', spaces_ok (hw (store_vas o s' m)) (vases (store_vas o s' m)) TT' held free' /\ delete o TT' = delete o TT) /\
  others_same o m (store_vas o s' m) /\ held_same held m (store_vas o s' m).
Proof.
  intros Hok Hr [_ Hrel]. destruct (spaces_table Hok o r Hr) as (T & HT & Ho). destruct (Hrel T free Ho) as (T' & free' & O' & F').
  destruct s' as [r' h']. cbn in O', F' |- *. destruct (spaces_step Hok o T h' r' T' free' HT O' F') as (S1 & S2 & S3).
  split; [exists (<[o := T']> TT), free'; split; [done|by rewrite delete_insert_eq]|]. split; [|done]. intros o2 r2 Hne Hr2. split; [cbn; by rewrite lookup_insert_ne|]. by eapply S2.
Qed.

Lemma store_vas_root o s m o2 : root_of o2 (store_vas o s m) = if decide (o = o2) then s.1 else root_of o2 m.
Proof. unfold root_of, store_vas. cbn. rewrite lookup_insert. by case_decide. Qed.

(** Operations on a live address space keep the tasks' pointers right. *)
Lemma store_vas_tasks o r s m : tasks_ok m -> vases m !! o = Some r -> (r <> nullptr -> s.1 = r) -> tasks_ok (store_vas o s m).
Proof.
  intros [H1 H2 H3 H4 H5 H6] Hr Hroot.
  assert (Hdom : forall o2, is_Some (<[o := s.1]> (vases m) !! o2) <-> is_Some (vases m !! o2)).
  { intros o2. rewrite lookup_insert. case_decide as E; [subst o2; rewrite Hr; split; by eexists|done]. }
  split; cbn [store_vas set_vases set_hw vases kernel_vas_ task_memory]; change (vasp ?t (store_vas o s m)) with (vasp t m).
  - rewrite lookup_insert_ne; [done|]. intros ->. congruence.
  - intros t Ht. apply Hdom. by apply H2.
  - done.
  - intros Hk. rewrite Hdom. by apply H4.
  - intros o2 Ho2%Hdom. by apply H5.
  - intros t. change (pgdir_base t (store_vas o s m)) with (pgdir_base t m). rewrite store_vas_root. destruct (H6 t) as [E|E]; [by left|].
    case_decide as Eo; [|by right]. rewrite E, <- Eo. unfold root_of. rewrite Hr. cbn. destruct (decide (r = nullptr)) as [->|Hn]; [by left|right].
    symmetry. by apply Hroot.
Qed.

Lemma on_vas_ok m held TT t (f : Z * Hw -> option (bool * (Z * Hw))) :
  mmu_at m held TT -> vasp t m <> nullptr -> (forall s, vas_inv s -> exists b s', f s = Some (b, s') /\ vas_inv s' /\ vas_rel s s') ->
  exists b m' s', on_vas t f m = Some (b, m') /\ f (load_vas (vasp t m) m) = Some (b, s') /\ m' = store_vas (vasp t m) s' m /\
    (exists TT', mmu_at m' held TT' /\ delete (vasp t m) TT' = delete (vasp t m) TT) /\ others_same (vasp t m) m m' /\ held_same held m m'.
Proof.
  intros (Ht & free & Hs) Hv Hf. destruct (ts_live _ Ht t Hv) as [r Hr]. unfold on_vas.
  assert (El : load_vas (vasp t m) m = (r, hw m)) by (unfold load_vas, root_of; by rewrite Hr). rewrite El.
  destruct (spaces_table Hs _ _ Hr) as (T & HT & Ho). destruct (Hf (r, hw m)) as (b & s' & E & I & R); [by exists T, free|]. rewrite E. cbn.
  exists b, (store_vas (vasp t m) s' m), s'. split; [done|]. split; [done|]. split; [done|].
  destruct (vas_rel_step m held TT free _ r s' Hs Hr R) as ((TT' & free' & S1 & E1) & S2 & S3). split; [|done]. exists TT'.
  split; [|done]. split; [|by exists free']. eapply store_vas_tasks; [done|exact Hr|apply R].
Qed.

(** ** Kernel regions *)

Definition RWX : Z := 7.
Definition RW_device : Z := 19.

(** Kernel RAM, the interrupt controller and the UART are mapped to themselves,
    for privileged access only. *)
Definition kernel_mapped (view : Z -> option (Z * Z)) : Prop :=
  (forall n, KERNEL_RAM_BASE / 4096 <= n < (KERNEL_RAM_BASE + KERNEL_RAM_SIZE) / 4096 -> view n = Some (n, RWX)) /\
  (forall n, BOARD_GIC_DIST_BASE / 4096 <= n < (BOARD_GIC_DIST_BASE + BOARD_GIC_DIST_SIZE) / 4096 -> view n = Some (n, RW_device)) /\
  view (BOARD_UART0_BASE / 4096) = Some (BOARD_UART0_BASE / 4096, RW_device).

Lemma map_kernel_regions_ok (s : Z * Hw) :
  vas_inv s -> exists b s', map_kernel_regions s = Some (b, s') /\ vas_inv s' /\ vas_rel s s' /\
    if b then kernel_mapped (vas_view s') else vas_full s'.
Proof.
  intros I0. unfold map_kernel_regions.
  destruct (map_range_spec (HL := aarch64_laws) KERNEL_RAM_BASE KERNEL_RAM_BASE KERNEL_RAM_SIZE (Z.lor (Z.lor MapRead MapWrite) MapExecute) s I0) as (b1 & s1 & k1 & -> & I1 & R1 & _ & M1 & K1);
    [by vm_compute|by vm_compute|]. cbn [mbind option_bind].
  destruct b1; cbn [negb]; [subst k1|by exists false, s1].
  destruct (as_map BOARD_UART0_BASE BOARD_UART0_BASE (Z.lor (Z.lor MapRead MapWrite) MapDevice) s1) as [b2 s2] eqn:E2.
  destruct (map_view _ _ _ _ _ _ I1 E2) as (I2 & R2 & V2). assert (R12 : vas_rel s s2) by (etransitivity; [exact R1|exact R2]).
  destruct b2; cbn [negb]; [|exists false, s2; split; [done|]; split; [done|]; split; [done|]; by apply V2].
  destruct V2 as (_ & _ & V2).
  destruct (map_range_spec (HL := aarch64_laws) BOARD_GIC_DIST_BASE BOARD_GIC_DIST_BASE BOARD_GIC_DIST_SIZE (Z.lor (Z.lor MapRead MapWrite) MapDevice) s2 I2) as (b3 & s3 & k3 & -> & I3 & R3 & _ & M3 & K3);
    [by vm_compute|by vm_compute|]. cbn [mbind option_bind].
  assert (R13 : vas_rel s s3) by (etransitivity; [exact R12|exact R3]). destruct b3; cbn [negb]; [subst k3|by exists false, s3].
  exists true, s3. split; [done|]. split; [done|]. split; [done|].
  unfold mapped_upto in M1, M3. change (KERNEL_RAM_BASE / 4096) with 262144 in *. change (BOARD_GIC_DIST_BASE / 4096) with 32768 in *.
  change (page_count KERNEL_RAM_SIZE) with 32768 in *. change (page_count BOARD_GIC_DIST_SIZE) with 32 in *.
  change (page_number BOARD_UART0_BASE) with 36864 in *.
  split; [|split].
  - intros n Hn. change ((KERNEL_RAM_BASE + KERNEL_RAM_SIZE) / 4096) with 294912 in Hn. change (KERNEL_RAM_BASE / 4096) with 262144 in Hn.
    assert (Hv : in_vpn n) by (unfold in_vpn; lia). change (vas_view s3 n) with (as_view s3 n).
    rewrite (M3 n Hv), decide_False, (V2 n Hv), decide_False, (M1 n Hv), decide_True by lia. f_equal. f_equal. lia.
  - intros n Hn. change ((BOARD_GIC_DIST_BASE + BOARD_GIC_DIST_SIZE) / 4096) with 32800 in Hn. change (BOARD_GIC_DIST_BASE / 4096) with 32768 in Hn.
    assert (Hv : in_vpn n) by (unfold in_vpn; lia). change (vas_view s3 n) with (as_view s3 n). rewrite (M3 n Hv), decide_True by lia. f_equal. f_equal. lia.
  - change (BOARD_UART0_BASE / 4096) with 36864. change (vas_view s3 36864) with (as_view s3 36864).
    rewrite (M3 36864), decide_False, (V2 36864), decide_True by (unfold in_vpn; lia || done). done.
Qed.

(** ** Creation and destruction *)

Lemma create_vas_ok m held TT free obj :
  spaces_ok (hw m) (vases m) TT held free -> obj <> nullptr -> vases m !! obj = None ->
  exists s', create_vas obj m = Some (obj, store_vas obj s' m) /\ (kernel_mapped (vas_view s') \/ vas_full s') /\
    (exists TT' free', spaces_ok (hw (store_vas obj s' m)) (vases (store_vas obj s' m)) TT' held free' /\ delete obj TT' = delete obj TT) /\
    others_same obj m (store_vas obj s' m) /\ held_same held m (store_vas obj s' m).
Proof.
  intros Hs Hn Hf. unfold create_vas. destruct (Z.eqb_spec obj nullptr) as [|_]; [done|].
  assert (I0 : vas_inv (nullptr, hw m)) by (exists ∅, free; apply empty_vas_ok, Hs).
  pose proof (ctor_rel (hw m)) as R0. assert (I1 : vas_inv (mmu_ctor (hw m))).
  { destruct I0 as (T0 & f0 & O0). destruct (proj2 R0 T0 f0 O0) as (T1 & f1 & O1 & _). by exists T1, f1. }
  destruct (map_kernel_regions_ok _ I1) as (b & s' & -> & I2 & R2 & V2). cbn. exists s'. split; [done|].
  split; [destruct b; [by left|by right]|].
  pose proof (spaces_add _ _ _ _ _ _ Hs Hf) as Hs0. set (m0 := set_vases (<[obj := nullptr]> (vases m)) m).
  destruct (vas_rel_step m0 held (<[obj := ∅]> TT) free obj nullptr s' Hs0 ltac:(cbn; by rewrite lookup_insert, decide_True)) as ((TT' & free' & S1 & E1) & S2 & S3).
  { etransitivity; [exact R0|exact R2]. }
  assert (Em : store_vas obj s' m0 = store_vas obj s' m).
  { unfold store_vas, m0. cbn. by rewrite insert_insert_eq. }
  rewrite Em in S1, S2, S3. split; [exists TT', free'; split; [done|]; by rewrite E1, delete_insert_eq|]. split; [|done]. intros o2 r2 Hne Hr2. apply S2; [done|]. cbn. by rewrite lookup_insert_ne.
Qed.

Lemma destroy_vas_ok m held TT free o r :
  spaces_ok (hw m) (vases m) TT held free -> vases m !! o = Some r -> o <> nullptr ->
  (exists free', spaces_ok (hw (destroy_vas o m)) (vases (destroy_vas o m)) (delete o TT) held free') /\
  others_same o m (destroy_vas o m) /\ held_same held m (destroy_vas o m) /\ vases (destroy_vas o m) = delete o (vases m).
Proof.
  intros Hs Hr Hn. unfold destroy_vas. destruct (Z.eqb_spec o nullptr) as [|_]; [done|]. cbn.
  destruct (spaces_table Hs o r Hr) as (T & HT & Ho). assert (root_of o m = r) as -> by (unfold root_of; by rewrite Hr).
  destruct (dtor_step _ _ _ _ Ho) as (free' & O' & F').
  destruct (spaces_step Hs o T (mmu_dtor r (hw m)) nullptr ∅ free' HT O' F') as (S1 & S2 & S3). split; [|split; [|by split]].
  - exists free'. rewrite <- (delete_insert_eq (vases m) o nullptr), <- (delete_insert_eq TT o ∅). apply spaces_remove; [done|]. by rewrite lookup_insert, decide_True.
  - intros o2 r2 Hne Hr2. split; [cbn; by rewrite lookup_delete_ne|]. by eapply S2.
Qed.

Lemma vasp_update t v m u mem : mem = task_memory m -> vasp u (set_task_memory (<[t := v]> mem) m) = if decide (t = u) then v.1 else vasp u m.
Proof. intros ->. unfold vasp. cbn. rewrite lookup_insert. by case_decide. Qed.

Lemma pgdir_update t v m u mem : mem = task_memory m -> pgdir_base u (set_task_memory (<[t := v]> mem) m) = if decide (t = u) then v.2 else pgdir_base u m.
Proof. intros ->. unfold pgdir_base. cbn. rewrite lookup_insert. by case_decide. Qed.

Lemma destroy_task_vas_ok m held TT t :
  mmu_at m held TT -> let m' := destroy_task_vas (Some t) m in
  mmu_at m' held (delete (vasp t m) TT) /\ vasp t m' = nullptr /\ (forall u, u <> t -> vasp u m' = vasp u m) /\ kernel_vas_ m' = kernel_vas_ m /\
  others_same (vasp t m) m m' /\ held_same held m m' /\
  forall o, vases m' !! o = if decide (o = vasp t m) then None else vases m !! o.
Proof.
  intros Hm. pose proof Hm as (Ht & free & Hs). cbv zeta. unfold destroy_task_vas. destruct (Z.eqb_spec (vasp t m) nullptr) as [E|Hn].
  { split; [|split; [done|]; split; [done|]; split; [done|]; split; [by intros o2 r2 _ Hr2|]; split; [done|];
      intros o; case_decide as Eo; [|done]; rewrite Eo, E; by apply ts_null].
    rewrite delete_id; [done|]. rewrite E. destruct (TT !! nullptr) eqn:En; [|done].
    destruct (proj2 (sp_dom _ _ _ _ _ Hs nullptr) ltac:(by eexists)) as [r Hr]. by rewrite (ts_null _ Ht) in Hr. }
  destruct (ts_live _ Ht t Hn) as [r Hr]. destruct (destroy_vas_ok m held TT free _ r Hs Hr Hn) as (S1 & S2 & S3 & S4).
  assert (Em : task_memory (destroy_vas (vasp t m) m) = task_memory m /\ kernel_vas_ (destroy_vas (vasp t m) m) = kernel_vas_ m) by (unfold destroy_vas; by case_match).
  destruct Em as [Em Ek]. set (m1 := destroy_vas (vasp t m) m) in *. set (o := vasp t m) in *. pose proof Ht as [H1 H2 H3 H4 H5 H6].
  assert (Hv : forall u, vasp u (set_task_memory (<[t := (nullptr, 0)]> (task_memory m1)) m1) = if decide (t = u) then nullptr else vasp u m).
  { intros u. rewrite vasp_update by done. unfold vasp. by rewrite Em. }
  split; [split|split; [|split; [|split; [done|split; [done|split; [done|]]]]]].
  - split; cbn [set_task_memory vases kernel_vas_]; rewrite ?S4, ?Ek.
    + rewrite lookup_delete_ne; [done|]. done.
    + intros u. rewrite Hv. case_decide as Eu; [done|]. intros Hu. rewrite lookup_delete_ne; [by apply H2|]. intros Eo. apply Eu. by apply H3.
    + intros u w. rewrite !Hv. destruct (decide (t = u)); [done|]. destruct (decide (t = w)) as [|]; [intros Hu E; congruence|]. apply H3.
    + intros Hk. destruct (H4 Hk) as [K1 K2]. rewrite lookup_delete_ne by apply K2. split; [done|]. intros u. rewrite Hv. case_decide; [done|apply K2].
    + intros o2 Ho2. rewrite lookup_delete in Ho2. destruct (decide (o = o2)) as [|Hne]; [by destruct Ho2|].
      destruct (H5 o2 Ho2) as [->|[u Hu]]; [by left|]. right. exists u. rewrite Hv. case_decide as Eu; [subst u; done|done].
    + intros u. rewrite Hv, pgdir_update by done. case_decide as Eu; [by left|]. destruct (H6 u) as [E|E]; [left; unfold pgdir_base; by rewrite Em|].
      unfold pgdir_base in *. rewrite Em, E. unfold root_of. cbn. rewrite S4. rewrite lookup_delete. case_decide as Eo; [|by right].
      exfalso. apply Eu. by apply H3.
  - cbn [hw vases set_task_memory]. done.
  - rewrite Hv. by rewrite decide_True.
  - intros u Hu. rewrite Hv. by rewrite decide_False by congruence.
  - intros o2. cbn [set_task_memory vases]. rewrite S4, lookup_delete. repeat case_decide; (done || congruence).
Qed.

Lemma create_task_vas_ok m held TT t obj :
  mmu_at m held TT -> obj <> nullptr -> vases (destroy_task_vas (Some t) m) !! obj = None ->
  exists m' TT', create_task_vas (Some t) obj m = Some (true, m') /\ mmu_at m' held TT' /\
    delete obj TT' = delete obj (delete (vasp t m) TT) /\ vasp t m' = obj /\ (forall u, u <> t -> vasp u m' = vasp u m) /\
    (kernel_mapped (vas_view (load_vas obj m')) \/ vas_full (load_vas obj m')) /\
    (forall o2 r2, o2 <> obj -> o2 <> vasp t m -> vases m !! o2 = Some r2 ->
      vases m' !! o2 = Some r2 /\ forall n, in_vpn n -> vas_view (r2, hw m') n = vas_view (r2, hw m) n) /\ held_same held m m'.
Proof.
  intros Hm Hn Hf. destruct (destroy_task_vas_ok m held TT t Hm) as (A1 & A2 & A3 & A4 & A5 & A6 & A7). unfold create_task_vas.
  set (m1 := destroy_task_vas (Some t) m) in *. clearbody m1. destruct A1 as (Ht1 & free1 & Hs1).
  destruct (create_vas_ok m1 held _ free1 obj Hs1 Hn Hf) as (s' & -> & V & (TT' & free' & S1 & E1) & S2 & S3).
  cbn [mbind option_bind]. destruct (Z.eqb_spec obj nullptr) as [|_]; [done|]. set (m2 := store_vas obj s' m1) in *.
  assert (Er : root_of obj m2 = s'.1) by (unfold m2; rewrite store_vas_root; by rewrite decide_True).
  set (m' := set_task_memory (<[t := (obj, root_of obj m2)]> (task_memory m2)) m2). exists m', TT'. pose proof Ht1 as [H1 H2 H3 H4 H5 H6].
  assert (Hv : forall u, vasp u m' = if decide (t = u) then obj else vasp u m1) by (intros u; unfold m'; rewrite vasp_update by done; done).
  assert (Hne : forall u, vasp u m1 <> obj) by (intros u E; destruct (H2 u) as [x Hx]; [by rewrite E|]; rewrite E in Hx; congruence).
  assert (Hd : forall o2, o2 <> obj -> vases m' !! o2 = vases m1 !! o2) by (intros o2 Ho2; unfold m', m2; cbn; by rewrite lookup_insert_ne).
  assert (Ho : vases m' !! obj = Some s'.1) by (unfold m', m2; cbn; by rewrite lookup_insert, decide_True).
  split; [done|]. split; [split; [|by exists free']|split; [done|split; [by rewrite Hv, decide_True|split; [|split; [|split]]]]].
  - split; rewrite ?(eq_refl : kernel_vas_ m' = kernel_vas_ m1).
    + by rewrite Hd.
    + intros u. rewrite Hv. case_decide; [intros _; rewrite Ho; by eexists|]. intros Hu. rewrite Hd by apply Hne. by apply H2.
    + intros u w. rewrite !Hv. destruct (decide (t = u)) as [<-|], (decide (t = w)) as [<-|]; [done|intros _ E; by destruct (Hne w)|intros _ E; by destruct (Hne u)|apply H3].
    + intros Hk. destruct (H4 Hk) as [K1 K2]. assert (kernel_vas_ m1 <> obj) by (intros E; rewrite E, Hf in K1; by destruct K1).
      rewrite Hd by done. split; [done|]. intros u. rewrite Hv. case_decide; [done|apply K2].
    + intros o2 Ho2. destruct (decide (o2 = obj)) as [->|Hne2]; [right; exists t; by rewrite Hv, decide_True|]. rewrite Hd in Ho2 by done.
      destruct (H5 o2 Ho2) as [->|[u Hu]]; [by left|]. right. exists u. rewrite Hv, decide_False; [done|]. intros <-.
      rewrite A2 in Hu. subst o2. rewrite H1 in Ho2. by destruct Ho2.
    + intros u. rewrite Hv. unfold m'. rewrite pgdir_update by done. case_decide; [by right|]. destruct (H6 u) as [E|E]; [by left|right].
      change (pgdir_base u m2) with (pgdir_base u m1). rewrite E. unfold root_of. by rewrite <- Hd by apply Hne.
  - intros u Hu. rewrite Hv, decide_False by congruence. by apply A3.
  - assert (El : load_vas obj m' = s') by (unfold load_vas, root_of; rewrite Ho; by destruct s'). by rewrite El.
  - intros o2 r2 Ho2 Ho2' Hr2. destruct (A5 o2 r2 Ho2' Hr2) as [B1 B2]. destruct (S2 o2 r2 Ho2 B1) as [C1 C2]. split; [done|].
    intros n Hvn. etransitivity; [apply (C2 n Hvn)|by apply B2].
  - destruct S3 as [P3 S3], A6 as [P6 A6]. split; [by etransitivity|]. intros b Hb. etransitivity; [apply (S3 b Hb)|by apply A6].
Qed.

(** ** Pages for clients *)

Lemma spaces_alloc h vs TT held free n fr :
  spaces_ok h vs TT held free -> free = n :: fr ->
  spaces_ok (alloc_page_hw h).2 vs TT (n :: held) fr /\ (forall b, page_of b <> n -> rd (alloc_page_hw h).2 b = rd h b) /\
  (alloc_page_hw h).1 = n /\ (n =? nullptr) = false.
Proof.
  intros Hs ->. pose proof (alloc_frame_spec _ _ (sp_frames _ _ _ _ _ Hs)) as (E & Hf & _ & Ho & Hp).
  assert (Halloc : alloc_page_hw h = ((alloc_frame (frames h)).1, set_frames (alloc_frame (frames h)).2 h)) by (unfold alloc_page_hw; by destruct (alloc_frame (frames h))).
  rewrite Halloc. cbn [fst snd]. assert (Rd : forall b, page_of b <> n -> rd (set_frames (alloc_frame (frames h)).2 h) b = rd h b) by (intros b Hb; apply (Ho b Hb)).
  split; [|split; [done|split; [done|]]].
  - split; [done|apply Hs| |].
    + intros o r T Hr HT. pose proof (sp_vas _ _ _ _ _ Hs o r T Hr HT) as Hv. eapply vas_ok_same; [exact Hv| |done|done|].
      * intros b Hb. apply Rd. intros Eb. rewrite Eb in Hb. pose proof (v_nodup _ _ _ _ Hv) as (_ & N & _)%NoDup_app. apply (N n Hb). left.
      * pose proof (v_nodup _ _ _ _ Hv) as N. rewrite <- Permutation_middle in N. by apply NoDup_cons in N as [_ N].
    + unfold pool_pages. cbn [frames set_frames]. destruct Hp as [-> ->]. pose proof (sp_all _ _ _ _ _ Hs) as Ha. rewrite <- Permutation_middle in Ha. exact Ha.
  - assert (Hn : is_frame (frames h) n) by (apply (fr_pages _ _ (sp_frames _ _ _ _ _ Hs)); left).
    destruct (frame_aligned _ _ n (sp_frames _ _ _ _ _ Hs) Hn) as [Hpos _]. apply Z.eqb_neq. unfold nullptr. lia.
Qed.

Lemma spaces_free h vs TT held free a :
  spaces_ok h vs TT (a :: held) free -> spaces_ok (free_page_hw a h) vs TT held (a :: free) /\ (forall b, page_of b <> a -> rd (free_page_hw a h) b = rd h b).
Proof.
  intros Hs. pose proof (spaces_nodup Hs) as N. cbn in N. rewrite <- Permutation_middle in N. apply NoDup_cons in N as [Na N].
  assert (Hna : a ∉ free) by (intros Hx; apply Na; apply elem_of_app; right; apply elem_of_app; by right).
  assert (Hfr : is_frame (frames h) a) by (apply pool_frame; rewrite <- (sp_all _ _ _ _ _ Hs); apply elem_of_app; right; left).
  destruct (free_frame_spec (frames h) free a (sp_frames _ _ _ _ _ Hs) Hfr Hna) as (Hf & Ho & Hp).
  assert (Rd : forall b, page_of b <> a -> rd (free_page_hw a h) b = rd h b) by (intros b Hb; apply (Ho b Hb)). split; [|done].
  split; [done|apply Hs| |].
  - intros o r T Hr HT. pose proof (sp_vas _ _ _ _ _ Hs o r T Hr HT) as Hv.
    assert (HaT : a ∉ tables T) by (intros Hx; apply Na, elem_of_app; left; by eapply all_tables_elem).
    eapply vas_ok_same; [exact Hv| |done|done|].
    + intros b Hb. apply Rd. intros Eb. by rewrite Eb in Hb.
    + rewrite <- Permutation_middle. apply NoDup_cons. split; [|apply Hv]. intros [Hx|Hx]%elem_of_app; done.
  - unfold pool_pages. cbn [frames free_page_hw set_frames]. destruct Hp as [-> ->]. pose proof (sp_all _ _ _ _ _ Hs) as Ha.
    rewrite <- Permutation_middle. exact Ha.
Qed.
