(* ===== verification/AuditLog.v ===== *)
(** The /proc/audit_log node (kernel/core/audit.hpp, [AuditLogNode]): formatting
    of the ring into a bounded buffer.  [out] is the text written so far, so [pos]
    is its length. *)
From S2P Require Import Prelude Text Glob AuditRing.
From stdpp Require Import strings.
#[local] Open Scope Z_scope.

(** ** The code *)

Section Read.
Variable len : Z.

(** [while (... && pos < len - 1) buf[pos++] = ...] *)
Fixpoint app_chars (s : list Z) (out : list Z) : list Z :=
  match s with
  | [] => out
  | c :: s => if Z.of_nat (length out) <? len - 1 then app_chars s (out ++ [c]) else out
  end.

Definition app_s (s : list Z) (out : list Z) : list Z := app_chars (cstr s) out.

Definition app_u (num : Z) (out : list Z) : list Z := app_chars (decimal num) out.

Definition event_name_ (ev : Z) : list Z :=
  let name : string :=
  if ev =? event_code FileOpen then "open"%string else if ev =? event_code FileClose then "close"%string
  else if ev =? event_code FileRead then "read"%string else if ev =? event_code FileWrite then "write"%string
  else if ev =? event_code FileSeek then "lseek"%string else if ev =? event_code FileIoctl then "ioctl"%string
  else if ev =? event_code SocketCreate then "socket"%string else if ev =? event_code SocketConnect then "connect"%string
  else if ev =? event_code SocketSend then "send"%string else if ev =? event_code SocketRecv then "recv"%string
  else if ev =? event_code SocketClose then "sockclose"%string else if ev =? event_code SysPrint then "svc_print"%string
  else if ev =? event_code SysYield then "svc_yield"%string else if ev =? event_code SysSleep then "svc_sleep"%string
  else if ev =? event_code SysCapDerive then "cap_derive"%string else if ev =? event_code SysCapMint then "cap_mint"%string
  else if ev =? event_code SysCapRevoke then "cap_revoke"%string else if ev =? event_code SysCapGrant then "cap_grant"%string
  else if ev =? event_code SysCapDelete then "cap_delete"%string else if ev =? event_code SysKill then "kill"%string
  else if ev =? event_code SysSigAction then "sigaction"%string else if ev =? event_code SysSigMask then "sigprocmask"%string
  else if ev =? event_code SysIpcCall then "ipc_call"%string else if ev =? event_code SysIpcRecv then "ipc_recv"%string
  else if ev =? event_code SysIpcReply then "ipc_reply"%string else if ev =? event_code SysUnknown then "svc_unknown"%string
  else if ev =? event_code AuditAlert then "ALERT"%string else "?"%string in
  str name.

Definition tab : list Z := [9].
Definition newline : list Z := [10].

Definition result_name (e : AuditEntry) : list Z := if ent_result e =? 0 then str "OK" else str "FAIL".

Definition app_line (e : AuditEntry) (out : list Z) : list Z :=
  let out := app_u (timestamp e) out in
  let out := app_s tab out in
  let out := app_u (ent_task_id e) out in
  let out := app_s tab out in
  let out := app_s (event_name_ (ent_event e)) out in
  let out := app_s tab out in
  let out := app_s (result_name e) out in
  let out := app_s tab out in
  let out := if negb (char_at (ent_path e) 0 =? 0) then app_s (ent_path e) out else app_u (arg0 e) out in
  let out := app_s tab out in
  let out := app_u (arg1 e) out in
  app_s newline out.

(** The loop from [idx] down to 0. *)
Fixpoint read_loop (fuel : nat) (idx : Z) (ring : list AuditEntry) (out : list Z) : list Z :=
  match fuel with
  | O => out
  | S fuel =>
      if (0 <=? idx) && (Z.of_nat (length out) <? len - 80)
      then read_loop fuel (idx - 1) ring (app_line (zlookup ring (Z.rem idx kRingCapacity)) out)
      else out
  end.

(** The text returned by [read]; its length is the result.  [init] hands ring and
    count to the node. *)
Definition read_log (offset : Z) (e : AuditEngine) : list Z :=
  if negb (initialized_ e) then [] else
  let total := write_count_ e in
  let readable := if kRingCapacity <? total then kRingCapacity else total in
  if readable <=? offset then [] else
  let idx := readable - 1 - offset in
  read_loop (Z.to_nat (idx + 1)) idx (ring_buffer_ e) [].
End Read.

(** ** A complete line *)

Definition subject (e : AuditEntry) : list Z := if negb (char_at (ent_path e) 0 =? 0) then cstr (ent_path e) else decimal (arg0 e).

Definition line (e : AuditEntry) : list Z :=
  decimal (timestamp e) ++ tab ++ decimal (ent_task_id e) ++ tab ++ event_name_ (ent_event e) ++ tab ++
  result_name e ++ tab ++
  subject e ++ tab ++ decimal (arg1 e) ++ newline.

(** The fields of an entry fit their C types. *)
Record entry_typed (e : AuditEntry) : Prop := {
  ty_time : is_u32 (timestamp e);
  ty_task : 0 <= ent_task_id e < 65536;
  ty_event : 0 <= ent_event e < 256;
  ty_result : 0 <= ent_result e < 256;
  ty_arg0 : 0 <= arg0 e < 65536;
  ty_arg1 : is_u32 (arg1 e);
  ty_path : length (ent_path e) = 16%nat /\ (length (cstr (ent_path e)) <= 15)%nat;
}.

Lemma app_chars_fits len s out :
  Z.of_nat (length out) + Z.of_nat (length s) <= len - 1 -> app_chars len s out = out ++ s.
Proof.
  revert out. induction s as [|c s IH]; intros out H; cbn [app_chars]; [by rewrite app_nil_r|]. cbn [length] in H.
  destruct (Z.ltb_spec (Z.of_nat (length out)) (len - 1)); [|lia]. rewrite IH by (rewrite length_app; cbn [length]; lia). by rewrite <- app_assoc.
Qed.

(** ** Lines *)

Lemma event_name_facts ev : cstr (event_name_ ev) = event_name_ ev /\ (length (event_name_ ev) <= 11)%nat.
Proof.
  unfold event_name_. repeat match goal with |- context [if ?b then _ else _] => destruct b; [vm_compute; split; [done|lia]|] end.
  vm_compute. split; [done|lia].
Qed.

Lemma line_length e : entry_typed e -> (length (line e) <= 61)%nat.
Proof.
  intros [H1 H2 H3 H4 H5 H6 H7]. unfold line, is_u32 in *. rewrite !length_app. destruct (event_name_facts (ent_event e)) as [_ Hn].
  pose proof (decimal_length (timestamp e) 10 ltac:(lia) ltac:(cbn; lia)). pose proof (decimal_length (ent_task_id e) 5 ltac:(lia) ltac:(cbn; lia)).
  pose proof (decimal_length (arg1 e) 10 ltac:(lia) ltac:(cbn; lia)). pose proof (decimal_length (arg0 e) 5 ltac:(lia) ltac:(cbn; lia)).
  assert (length (result_name e) <= 4)%nat by (unfold result_name; destruct (ent_result e =? 0); cbn; lia).
  assert (length (subject e) <= 15)%nat by (unfold subject; destruct (negb _); lia).
  change (length tab) with 1%nat. change (length newline) with 1%nat. lia.
Qed.

(** The pieces of a line, one per call of [app_u] and [app_s]. *)
Definition pieces (e : AuditEntry) : list (list Z) :=
  [decimal (timestamp e); tab; decimal (ent_task_id e); tab; event_name_ (ent_event e); tab;
   result_name e; tab; subject e; tab; decimal (arg1 e); newline].

Lemma line_pieces e : line e = concat (pieces e).
Proof. unfold line, pieces. cbn [concat]. by rewrite app_nil_r. Qed.

Lemma app_line_pieces len e out : app_line len e out = foldl (fun o s => app_chars len s o) out (pieces e).
Proof.
  unfold app_line, pieces, app_s, app_u. cbn [foldl]. destruct (event_name_facts (ent_event e)) as [-> _].
  assert (Es : cstr (result_name e) = result_name e) by (unfold result_name; by destruct (ent_result e =? 0)).
  rewrite Es. unfold subject. by destruct (negb (char_at (ent_path e) 0 =? 0)).
Qed.

Lemma app_all_fits len ss out :
  Z.of_nat (length out) + Z.of_nat (length (concat ss)) <= len - 1 -> foldl (fun o s => app_chars len s o) out ss = out ++ concat ss.
Proof.
  revert out. induction ss as [|s ss IH]; intros out H; cbn [foldl concat] in *; [by rewrite app_nil_r|]. rewrite length_app in H.
  rewrite app_chars_fits by lia. rewrite IH by (rewrite length_app; lia). by rewrite <- app_assoc.
Qed.

(** A line is written completely when 80 bytes are left. *)
Lemma app_line_fits len e out : entry_typed e -> Z.of_nat (length out) < len - 80 -> app_line len e out = out ++ line e.
Proof.
  intros He Hl. pose proof (line_length e He) as Hn. rewrite line_pieces in *. rewrite app_line_pieces. apply app_all_fits. lia.
Qed.

(** ** The text *)

(** The slots [idx, idx-1, ..., 0] that the loop visits. *)
Definition slots_from (idx : Z) (ring : list AuditEntry) : list AuditEntry :=
  (fun i => zlookup ring (Z.rem (idx - i) kRingCapacity)) <$> seqZ 0 (idx + 1).

Lemma slots_from_cons idx ring : 0 <= idx -> slots_from idx ring = zlookup ring (Z.rem idx kRingCapacity) :: slots_from (idx - 1) ring.
Proof.
  intros H. unfold slots_from. rewrite seqZ_cons by lia. cbn [fmap list_fmap]. rewrite Z.sub_0_r. f_equal.
  change (Z.succ 0) with (0 + 1). rewrite Z.add_comm, <- (fmap_add_seqZ 1). rewrite <- list_fmap_compose.
  replace (Z.pred (1 + idx)) with (idx - 1 + 1) by lia. replace (Z.pred (idx + 1)) with (idx - 1 + 1) by lia. apply list_fmap_ext. intros i x _. cbn. do 2 f_equal. lia.
Qed.

Lemma read_loop_spec len ring idx out :
  (forall i, entry_typed (zlookup ring i)) -> -1 <= idx ->
  exists n, read_loop len (Z.to_nat (idx + 1)) idx ring out = out ++ concat (line <$> take n (slots_from idx ring)) /\
    (Z.of_nat (length (read_loop len (Z.to_nat (idx + 1)) idx ring out)) <= Z.max (Z.of_nat (length out)) (len - 20)) /\
    ((n < length (slots_from idx ring))%nat -> len - 80 <= Z.of_nat (length (read_loop len (Z.to_nat (idx + 1)) idx ring out))).
Proof.
  intros Hty. remember (Z.to_nat (idx + 1)) as fuel eqn:Ef. revert idx out Ef. induction fuel as [|fuel IH]; intros idx out Ef Hidx.
  - exists 0%nat. cbn [read_loop]. rewrite take_0. cbn. rewrite app_nil_r. split; [done|]. split; [lia|]. unfold slots_from. rewrite length_fmap, length_seqZ. lia.
  - cbn [read_loop]. destruct (Z.leb_spec 0 idx) as [H0|]; [|lia]. cbn [andb]. rewrite slots_from_cons by done.
    destruct (Z.ltb_spec (Z.of_nat (length out)) (len - 80)) as [Hl|Hl].
    + set (e := zlookup ring (Z.rem idx kRingCapacity)). rewrite (app_line_fits len e out (Hty _) Hl). pose proof (line_length e (Hty _)) as Hn.
      destruct (IH (idx - 1) (out ++ line e) ltac:(lia) ltac:(lia)) as (n & E & B1 & B2). exists (S n). cbn [take fmap list_fmap concat length].
      split; [by rewrite E, <- app_assoc|]. rewrite length_app in B1. split; [lia|]. intros Hlt. apply B2. lia.
    + exists 0%nat. rewrite take_0. cbn. rewrite app_nil_r. split; [done|]. split; [lia|]. intros _. lia.
Qed.
