(* ===== verification/SecMon.v ===== *)
(** The security monitor (kernel/core/security_monitor.hpp): heartbeats, the
    watchdog and the response to heap pressure.

    A round of the monitor task is [monitor_round]; it reads the tick counter once
    ([now]) and the heap counters through [KernelHeap].  Messages to the debug UART
    are returned as text. *)
From S2P Require Import Prelude Kernel ReadyQueue Endpoint Scheduler Heap Text.
From stdpp Require Import strings.
#[local] Open Scope Z_scope.

(** * Data *)

Record HeartbeatEntry := mkHeartbeat { hb_task_id : Z; last_beat_tick : Z; timeout_ticks : Z; hb_active : bool }.

#[export] Instance HeartbeatEntry_inhabited : Inhabited HeartbeatEntry := populate (mkHeartbeat 0 0 0 false).

Definition set_last_beat v e := mkHeartbeat (hb_task_id e) v (timeout_ticks e) (hb_active e).
Definition set_hb_active v e := mkHeartbeat (hb_task_id e) (last_beat_tick e) (timeout_ticks e) v.

Record SecurityMonitor := mkMonitor {
  heartbeat_table_ : list HeartbeatEntry;
  stack_overflow_count_ : Z;
  last_overflow_task_ : Z;
  heap_warn_count_ : Z;
  firewall_anomaly_count_ : Z;
  throttled_ids_ : list Z;
  throttled_count_ : Z;
}.

Definition set_heartbeats v m := mkMonitor v (stack_overflow_count_ m) (last_overflow_task_ m) (heap_warn_count_ m) (firewall_anomaly_count_ m) (throttled_ids_ m) (throttled_count_ m).
Definition set_overflow n t m := mkMonitor (heartbeat_table_ m) n t (heap_warn_count_ m) (firewall_anomaly_count_ m) (throttled_ids_ m) (throttled_count_ m).
Definition set_heap_warn v m := mkMonitor (heartbeat_table_ m) (stack_overflow_count_ m) (last_overflow_task_ m) v (firewall_anomaly_count_ m) (throttled_ids_ m) (throttled_count_ m).
Definition set_anomalies v m := mkMonitor (heartbeat_table_ m) (stack_overflow_count_ m) (last_overflow_task_ m) (heap_warn_count_ m) v (throttled_ids_ m) (throttled_count_ m).
Definition set_throttled ids n m := mkMonitor (heartbeat_table_ m) (stack_overflow_count_ m) (last_overflow_task_ m) (heap_warn_count_ m) (firewall_anomaly_count_ m) ids n.

Definition MAX_MONITORED_TASKS : Z := 8.
Definition MAX_THROTTLED : Z := 8.
Definition TaskPriority_Low : Z := 4.

Definition monitor_ctor : SecurityMonitor := mkMonitor (replicate 8 inhabitant) 0 0 0 0 (replicate 8 0) 0.

(** * Heartbeats *)

Fixpoint register_from (es : list HeartbeatEntry) (task_id timeout now : Z) : list HeartbeatEntry :=
  match es with
  | [] => []
  | e :: es => if negb (hb_active e) then mkHeartbeat task_id now timeout true :: es else e :: register_from es task_id timeout now
  end.

Definition register_task (task_id timeout now : Z) (m : SecurityMonitor) : SecurityMonitor :=
  set_heartbeats (register_from (heartbeat_table_ m) task_id timeout now) m.

Fixpoint beat_from (es : list HeartbeatEntry) (task_id now : Z) : list HeartbeatEntry :=
  match es with
  | [] => []
  | e :: es => if hb_active e && (hb_task_id e =? task_id) then set_last_beat now e :: es else e :: beat_from es task_id now
  end.

Definition task_heartbeat (task_id now : Z) (m : SecurityMonitor) : SecurityMonitor :=
  set_heartbeats (beat_from (heartbeat_table_ m) task_id now) m.

(** * Reports *)

(** [do { digits[n++] = '0' + v % 10; v /= 10; } while (v && n < 10)] *)
Fixpoint low_digits (fuel : nat) (v : Z) : list Z :=
  match fuel with
  | O => []
  | S fuel => (48 + v mod 10) :: (if v / 10 =? 0 then [] else low_digits fuel (v / 10))
  end.

(** The contents of [msg] up to its terminator. *)
Definition overflow_message (task_id : Z) : list Z :=
  str "[SECMON] stack overflow task=" ++ rev (low_digits 10 task_id) ++ [13; 10].

Definition report_stack_overflow (task_id : Z) (m : SecurityMonitor) : list Z * SecurityMonitor :=
  (overflow_message task_id, set_overflow (wrap32 (stack_overflow_count_ m + 1)) task_id m).

Definition report_firewall_anomaly (reason : option (list Z)) (m : SecurityMonitor) : list Z * SecurityMonitor :=
  (str "[SECMON] firewall anomaly: " ++ match reason with Some r => cstr r | None => str "(no reason)" end ++ [13; 10],
   set_anomalies (wrap32 (firewall_anomaly_count_ m + 1)) m).

(** * Heap pressure *)

Definition get_task (index : Z) (k : Kernel) : option Z := if (0 <=? index) && (index <? task_count k) then Some index else None.

Definition is_throttled (m : SecurityMonitor) (i : Z) : bool :=
  existsb (fun j => zlookup (throttled_ids_ m) j =? i) (seqZ 0 (throttled_count_ m)).

Definition runnable (s : TaskState) : bool := bool_decide (s = Ready) || bool_decide (s = Running).

(** The loop over [ids], with its [continue]s and the [break] when the list is full. *)
Fixpoint suspend_loop (ids : list Z) (st : SecurityMonitor * Kernel) : SecurityMonitor * Kernel :=
  match ids with
  | [] => st
  | i :: ids =>
      let (m, k) := st in
      match get_task i k with
      | None => suspend_loop ids st
      | Some t =>
          if negb (current_priority (scheduler (tcb k t)) =? TaskPriority_Low) then suspend_loop ids st
          else if negb (runnable (sched_state (scheduler (tcb k t)))) then suspend_loop ids st
          else if MAX_THROTTLED <=? throttled_count_ m then st
          else if is_throttled m i then suspend_loop ids st
          else suspend_loop ids
                 (set_throttled (zalter (fun _ => i) (throttled_count_ m) (throttled_ids_ m)) (throttled_count_ m + 1) m,
                  set_task_state i Suspended k)
      end
  end.

Definition suspend_low_priority_tasks (st : SecurityMonitor * Kernel) : SecurityMonitor * Kernel :=
  suspend_loop (seqZ 0 MAX_TASKS) st.

Definition resume_one (m : SecurityMonitor) (k : Kernel) (j : Z) : Kernel :=
  match get_task_by_id k (zlookup (throttled_ids_ m) j) with
  | Some t =>
      if decide (sched_state (scheduler (tcb k t)) = Suspended) then set_task_state (zlookup (throttled_ids_ m) j) Ready k else k
  | None => k
  end.

Definition resume_suspended_low_priority_tasks (st : SecurityMonitor * Kernel) : SecurityMonitor * Kernel :=
  let (m, k) := st in
  if throttled_count_ m =? 0 then st else
  (set_throttled (throttled_ids_ m) 0 m, foldl (resume_one m) k (seqZ 0 (throttled_count_ m))).

Definition check_heap_pressure (h : Heap.KernelHeap) (st : SecurityMonitor * Kernel) : SecurityMonitor * Kernel :=
  let free_mem := Heap.total_free_memory h in
  let total_mem := Heap.total_size h in
  if total_mem =? 0 then st
  else if wrap32 (free_mem * 10) <? total_mem then
    suspend_low_priority_tasks (set_heap_warn (wrap32 (heap_warn_count_ st.1 + 1)) st.1, st.2)
  else if total_mem <? wrap32 (free_mem * 5) then resume_suspended_low_priority_tasks st
  else st.

(** * The monitor task *)

Definition overdue (now : Z) (e : HeartbeatEntry) : bool := hb_active e && (timeout_ticks e <? wrap32 (now - last_beat_tick e)).

(** The heartbeat audit: the entries, the kernel and [all_ok]. *)
Fixpoint audit_from (now : Z) (es : list HeartbeatEntry) (k : Kernel) (all_ok : bool) : list HeartbeatEntry * Kernel * bool :=
  match es with
  | [] => ([], k, all_ok)
  | e :: es =>
      if overdue now e then
        let '(es, k, all_ok) := audit_from now es (set_task_state (hb_task_id e) Terminated k) false in
        (set_hb_active false e :: es, k, all_ok)
      else let '(es, k, all_ok) := audit_from now es k all_ok in (e :: es, k, all_ok)
  end.

(** A round up to the sleep; the last component tells whether the watchdog was fed. *)
Definition monitor_round (now : Z) (h : Heap.KernelHeap) (st : SecurityMonitor * Kernel) : SecurityMonitor * Kernel * bool :=
  let '(es, k, all_ok) := audit_from now (heartbeat_table_ st.1) st.2 true in
  (check_heap_pressure h (set_heartbeats es st.1, k), all_ok).

(** The whole body of the monitor loop. *)
Definition monitor_body (run_handler : Z -> Z -> Kernel -> Kernel) (now : Z) (h : Heap.KernelHeap) (st : SecurityMonitor * Kernel) : SecurityMonitor * Kernel * bool :=
  let '(m, k, fed) := monitor_round now h st in (m, sleep_ms run_handler 100 k, fed).
