(* ===== verification/Stealth.v ===== *)
(** The stealth identity (net/stealth_identity.hpp): presets, the filter for inbound
    probes, DHCP fingerprints, decoy banners and the spoofed MAC address. *)
From S2P Require Import Prelude Text.
From stdpp Require Import strings.
#[local] Open Scope Z_scope.

Inductive Preset :=
  | NONE | APPLE_IPAD | APPLE_IPHONE | APPLE_MACBOOK | HP_LASERJET | HP_OFFICEJET
  | SAMSUNG_GALAXY | HIKVISION_CAM | XIAOMI_IOT | CISCO_SWITCH | TESLA_VEHICLE | SILENT_GHOST.

#[export] Instance Preset_eq_dec : EqDecision Preset.
Proof. solve_decision. Defined.

Record MacOui := mkOui { oui_prefix : Z * Z * Z; vendor : string }.

Definition kOuiApple := mkOui (0x10, 0xDD, 0xB1) "Apple Inc.".
Definition kOuiApplePhone := mkOui (0xF0, 0x18, 0x98) "Apple Inc.".
Definition kOuiAppleMac := mkOui (0x3C, 0x22, 0xFB) "Apple Inc.".
Definition kOuiHpLaser := mkOui (0x00, 0x26, 0x55) "Hewlett Packard".
Definition kOuiHpOffice := mkOui (0x00, 0x1E, 0x0B) "Hewlett Packard".
Definition kOuiSamsung := mkOui (0x8C, 0xF5, 0xA3) "Samsung Electronics".
Definition kOuiHikvision := mkOui (0x00, 0x18, 0xAE) "Hikvision Digital Technology".
Definition kOuiXiaomi := mkOui (0x78, 0x11, 0xDC) "Xiaomi Communications".
Definition kOuiCisco := mkOui (0x00, 0x00, 0x0C) "Cisco Systems".
Definition kOuiTesla := mkOui (0x98, 0xED, 0x5C) "Tesla Motors".
Definition kOuiGhost := mkOui (0x02, 0xFA, 0xCE) "Locally Administered Ghost".

Record PresetConfig := mkConfig {
  oui : MacOui; hostname : option string; dhcp_fingerprint : Z; default_ttl : Z; tcp_window_size : Z; tcp_mss : Z;
  drop_icmp_echo : bool; drop_discovery : bool; suppress_garp : bool }.

Definition get_preset (preset : Preset) : PresetConfig :=
  match preset with
  | APPLE_IPAD => mkConfig kOuiApple (Some "iPad-of-Staff") 1 64 65535 1460 false false false
  | APPLE_IPHONE => mkConfig kOuiApplePhone (Some "iPhone-15") 1 64 65535 1460 false false false
  | APPLE_MACBOOK => mkConfig kOuiAppleMac (Some "MacBook-Pro") 1 64 65535 1460 false false false
  | HP_LASERJET => mkConfig kOuiHpLaser (Some "HP-LaserJet-M402dn") 3 255 8192 1460 false false false
  | HP_OFFICEJET => mkConfig kOuiHpOffice (Some "HP-OfficeJet-Pro9010") 3 255 8192 1460 false false false
  | SAMSUNG_GALAXY => mkConfig kOuiSamsung (Some "Galaxy-S24") 4 64 65535 1460 false false false
  | HIKVISION_CAM => mkConfig kOuiHikvision (Some "HIKVISION-DS-2CD2042WD") 4 64 29200 1460 false false false
  | XIAOMI_IOT => mkConfig kOuiXiaomi (Some "xiaomi-smartplug-v3") 4 64 14600 1460 false false false
  | CISCO_SWITCH => mkConfig kOuiCisco (Some "cisco-catalyst-2960") 5 255 4128 1460 false false false
  | TESLA_VEHICLE => mkConfig kOuiTesla (Some "Tesla-Model3") 4 64 65535 1460 false false false
  | SILENT_GHOST => mkConfig kOuiGhost None 0 64 65535 1460 true true true
  | NONE => mkConfig kOuiApple None 0 64 65535 1460 false false false
  end%string.

Record StealthIdentity := mkStealth { active_preset_ : Preset; active_config_ : PresetConfig }.

Definition stealth_ctor : StealthIdentity := mkStealth NONE (get_preset NONE).
Definition set_active_preset (p : Preset) (s : StealthIdentity) : StealthIdentity := mkStealth p (get_preset p).
Definition is_ghost_mode (s : StealthIdentity) : bool := bool_decide (active_preset_ s = SILENT_GHOST).

Definition should_drop_inbound_probe (ip_proto dport icmp_type : Z) (s : StealthIdentity) : bool :=
  if (ip_proto =? 1) && (icmp_type =? 8) && drop_icmp_echo (active_config_ s) then true
  else if drop_discovery (active_config_ s) && (ip_proto =? 17) then
    (dport =? 5353) || (dport =? 1900) || (dport =? 5355) || (dport =? 137)
  else false.

Definition kFingerprint_iOS : list Z := [1; 3; 6; 15; 42; 33; 121; 44; 46; 252].
Definition kFingerprint_Win10 : list Z := [1; 3; 6; 15; 44; 46; 47; 31; 33; 121; 249; 43].
Definition kFingerprint_HPPrinter : list Z := [1; 3; 6; 15; 44; 46].
Definition kFingerprint_LinuxIoT : list Z := [1; 3; 6; 15; 28; 33; 121; 42].
Definition kFingerprint_CiscoIOS : list Z := [1; 3; 6; 15; 67; 43].

Definition get_fingerprint_by_id (fp_id : Z) : option (list Z) :=
  if fp_id =? 1 then Some kFingerprint_iOS else if fp_id =? 2 then Some kFingerprint_Win10
  else if fp_id =? 3 then Some kFingerprint_HPPrinter else if fp_id =? 4 then Some kFingerprint_LinuxIoT
  else if fp_id =? 5 then Some kFingerprint_CiscoIOS else None.

Definition get_dhcp_fingerprint_data (s : StealthIdentity) : option (list Z) := get_fingerprint_by_id (dhcp_fingerprint (active_config_ s)).

Definition get_hostname (s : StealthIdentity) : option string := hostname (active_config_ s).
Definition get_target_ttl (s : StealthIdentity) : Z := default_ttl (active_config_ s).
Definition get_target_tcp_window (s : StealthIdentity) : Z := tcp_window_size (active_config_ s).
Definition get_target_mss (s : StealthIdentity) : Z := tcp_mss (active_config_ s).
Definition is_icmp_echo_suppressed (s : StealthIdentity) : bool := drop_icmp_echo (active_config_ s).
Definition is_gratuitous_arp_suppressed (s : StealthIdentity) : bool := suppress_garp (active_config_ s).

(** Lines that end with CR LF. *)
Definition lines (ls : list string) : list Z := concat ((fun l => str l ++ [13; 10]) <$> ls).

Definition get_decoy_service_banner (port : Z) (s : StealthIdentity) : option (list Z) :=
  match active_preset_ s with
  | HP_LASERJET | HP_OFFICEJET =>
      if port =? 9100 then Some (lines ["HP JetDirect Ready"%string])
      else if port =? 80 then Some (lines ["HTTP/1.1 200 OK"%string; "Server: HP-HTTP-Server/1.0"%string]) else None
  | HIKVISION_CAM =>
      if (port =? 80) || (port =? 8000) then Some (lines ["HTTP/1.1 401 Unauthorized"%string; "Server: Hikvision-Webs"%string])
      else if port =? 554 then Some (lines ["RTSP/1.0 200 OK"%string; "Server: HIKVISION-RTSP/1.0"%string]) else None
  | CISCO_SWITCH =>
      if port =? 23 then Some (lines [EmptyString; "User Access Verification"%string; EmptyString] ++ str "Password: ")
      else if port =? 80 then Some (lines ["HTTP/1.1 200 OK"%string; "Server: cisco-IOS"%string]) else None
  | _ => None
  end.

(** The six bytes that [apply_mac_oui] writes, from two readings of the cycle
    counter. *)
Definition entropy_of (cycle0 cycle1 : Z) : Z :=
  Z.lxor (Z.lxor (Z.lxor cycle0 (wrap32 (Z.shiftl cycle1 7))) (Z.shiftr cycle0 13)) (Z.shiftr cycle1 21).

Definition apply_mac_oui (o : MacOui) (cycle0 cycle1 : Z) : list Z :=
  let entropy := entropy_of cycle0 cycle1 in
  let '(p0, p1, p2) := oui_prefix o in
  [p0; p1; p2; Z.land (Z.land entropy 0xFF) 0xFC; Z.land (Z.shiftr entropy 8) 0xFF; Z.land (Z.shiftr entropy 16) 0xFF].
