(* ===== verification/Firewall.v ===== *)
(** The packet filter (net/firewall): rule table, stateful inspection of TCP,
    flood protection, and the engine that runs them over a packet.

    A packet is its bytes with the length that comes with it; behind the bytes it
    reads as 0.  [tick_count] is the argument [now]; what is printed is appended to
    a console. *)
From S2P Require Import Prelude Text SecMon Stealth.
From stdpp Require Import strings.
#[local] Open Scope Z_scope.

(** * Packets *)

Definition be16 (packet : list Z) (i : Z) : Z := Z.lor (Z.shiftl (char_at packet i) 8) (char_at packet (i + 1)).
Definition be32 (packet : list Z) (i : Z) : Z :=
  Z.lor (Z.lor (Z.lor (Z.shiftl (char_at packet i) 24) (Z.shiftl (char_at packet (i + 1)) 16)) (Z.shiftl (char_at packet (i + 2)) 8)) (char_at packet (i + 3)).

Definition eth_type (packet : list Z) : Z := be16 packet 12.
Definition pkt_protocol (packet : list Z) : Z := char_at packet 23.
Definition pkt_ihl (packet : list Z) : Z := Z.land (char_at packet 14) 0x0F.
Definition pkt_src_ip (packet : list Z) : Z := be32 packet 26.
Definition pkt_dst_ip (packet : list Z) : Z := be32 packet 30.

(** * The rule table *)

Inductive FwAction := ACCEPT | DROP | REJECT.

#[export] Instance FwAction_eq_dec : EqDecision FwAction.
Proof. solve_decision. Defined.

(** An optional filter is a flag with its value. *)
Record FwRule := mkFwRule {
  fw_enabled : bool;
  match_src_ip : bool; r_src_ip : Z;
  match_dst_ip : bool; r_dst_ip : Z;
  match_src_port : bool; r_src_port : Z;
  match_dst_port : bool; r_dst_port : Z;
  match_protocol : bool; r_protocol : Z;
  match_tcp_flags : bool; tcp_flags_mask : Z; tcp_flags_value : Z;
  match_interface : bool; r_interface : list Z;
  fw_action : FwAction;
}.

Definition set_fw_enabled v r := mkFwRule v (match_src_ip r) (r_src_ip r) (match_dst_ip r) (r_dst_ip r) (match_src_port r) (r_src_port r)
  (match_dst_port r) (r_dst_port r) (match_protocol r) (r_protocol r) (match_tcp_flags r) (tcp_flags_mask r) (tcp_flags_value r) (match_interface r) (r_interface r) (fw_action r).

Definition default_rule : FwRule := mkFwRule false false 0 false 0 false 0 false 0 false 0 false 0 0 false (replicate 8 0) ACCEPT.
#[export] Instance FwRule_inhabited : Inhabited FwRule := populate default_rule.

Definition RuleTable := list FwRule.
Definition MAX_RULES : Z := 16.

Fixpoint fw_add_rule (rule : FwRule) (rules_ : RuleTable) : bool * RuleTable :=
  match rules_ with
  | [] => (false, [])
  | r :: rs => if negb (fw_enabled r) then (true, set_fw_enabled true rule :: rs)
               else let (ok, rs) := fw_add_rule rule rs in (ok, r :: rs)
  end.

Definition enable_rule (index : Z) (enable : bool) (rules_ : RuleTable) : bool * RuleTable :=
  if (0 <=? index) && (index <? MAX_RULES) then (true, zalter (set_fw_enabled enable) index rules_) else (false, rules_).

Definition delete_rule (index : Z) (rules_ : RuleTable) : bool * RuleTable :=
  if (0 <=? index) && (index <? MAX_RULES) then (true, zalter (set_fw_enabled false) index rules_) else (false, rules_).

(** [strncmp(a, b, n) == 0] *)
Fixpoint strneq (n : nat) (a b : list Z) : bool :=
  match n with
  | O => true
  | S n => (char_at a 0 =? char_at b 0) && ((char_at a 0 =? 0) || strneq n (drop 1 a) (drop 1 b))
  end.

(** The fields the rules look at. *)
Record Header := mkHeader { h_src_ip : Z; h_dst_ip : Z; h_protocol : Z; h_src_port : Z; h_dst_port : Z; h_tcp_flags : Z }.

(** The header of an IPv4 packet; [None] where [match] lets the packet pass before
    looking at the rules. *)
Definition parse_header (packet : list Z) (len : Z) : option Header :=
  if len <? 14 then None
  else if negb (eth_type packet =? 0x0800) then None
  else if len <? 34 then None
  else if pkt_ihl packet <? 5 then None
  else let ip_header_len := pkt_ihl packet * 4 in
  if len <? 14 + ip_header_len then None
  else
    let l4 := 14 + ip_header_len in
    let protocol := pkt_protocol packet in
    let has_l4 := ((protocol =? 6) || (protocol =? 17)) && (l4 + 4 <=? len) in
    let has_tcp := (protocol =? 6) && (l4 + 14 <=? len) in
    Some (mkHeader (pkt_src_ip packet) (pkt_dst_ip packet) protocol
      (if has_l4 then be16 packet l4 else 0) (if has_l4 then be16 packet (l4 + 2) else 0)
      (if has_tcp then char_at packet (l4 + 13) else 0)).

(** The [continue]s of the loop. *)
Definition rule_matches (h : Header) (interface : list Z) (r : FwRule) : bool :=
  fw_enabled r &&
  negb (match_interface r && negb (strneq 8 (r_interface r) interface)) &&
  negb (match_src_ip r && negb (r_src_ip r =? h_src_ip h)) &&
  negb (match_dst_ip r && negb (r_dst_ip r =? h_dst_ip h)) &&
  negb (match_protocol r && negb (r_protocol r =? h_protocol h)) &&
  negb (match_src_port r && negb (r_src_port r =? h_src_port h)) &&
  negb (match_dst_port r && negb (r_dst_port r =? h_dst_port h)) &&
  negb (match_tcp_flags r && (h_protocol h =? 6) && negb (Z.land (h_tcp_flags h) (tcp_flags_mask r) =? tcp_flags_value r)).

Fixpoint first_action (h : Header) (interface : list Z) (rules_ : RuleTable) : FwAction :=
  match rules_ with
  | [] => ACCEPT
  | r :: rs => if rule_matches h interface r then fw_action r else first_action h interface rs
  end.

Definition match_rules (packet : list Z) (len : Z) (interface : list Z) (rules_ : RuleTable) : FwAction :=
  match parse_header packet len with
  | None => ACCEPT
  | Some h => first_action h interface rules_
  end.

(** * Stateful inspection *)

Inductive TcpState := CLOSED | SYN_SENT | SYN_RECEIVED | ESTABLISHED | FIN_WAIT.

#[export] Instance TcpState_eq_dec : EqDecision TcpState.
Proof. solve_decision. Defined.

Record TcpConnection := mkConn { c_active : bool; c_src_ip : Z; c_dst_ip : Z; c_src_port : Z; c_dst_port : Z; c_state : TcpState; c_last : Z }.

#[export] Instance TcpConnection_inhabited : Inhabited TcpConnection := populate (mkConn false 0 0 0 0 CLOSED 0).

Definition MAX_CONNECTIONS : Z := 16.
Definition TIMEOUT_TICKS : Z := 30000.

(** The addresses, ports and flags of a TCP packet. *)
Record Segment := mkSegment { s_src_ip : Z; s_dst_ip : Z; s_src_port : Z; s_dst_port : Z; is_syn : bool; is_ack : bool; is_fin : bool; is_rst : bool }.

(** Why a packet is not looked up: the verdict [process_tcp_packet] gives without
    consulting the connections, or the segment. *)
Definition parse_segment (packet : list Z) (len : Z) : bool + Segment :=
  if len <? 34 then inl true
  else if negb (eth_type packet =? 0x0800) then inl true
  else if negb (pkt_protocol packet =? 6) then inl true
  else if pkt_ihl packet <? 5 then inl false
  else let l4 := 14 + pkt_ihl packet * 4 in
  if len <? l4 + 14 then inl true
  else
    let flags := char_at packet (l4 + 13) in
    inr (mkSegment (pkt_src_ip packet) (pkt_dst_ip packet) (be16 packet l4) (be16 packet (l4 + 2))
      (negb (Z.land flags 0x02 =? 0)) (negb (Z.land flags 0x10 =? 0)) (negb (Z.land flags 0x01 =? 0)) (negb (Z.land flags 0x04 =? 0))).

Definition same_flow (s : Segment) (c : TcpConnection) : bool :=
  ((c_src_ip c =? s_src_ip s) && (c_dst_ip c =? s_dst_ip s) && (c_src_port c =? s_src_port s) && (c_dst_port c =? s_dst_port s)) ||
  ((c_src_ip c =? s_dst_ip s) && (c_dst_ip c =? s_src_ip s) && (c_src_port c =? s_dst_port s) && (c_dst_port c =? s_src_port s)).

(** The state machine of a known connection. *)
Definition conn_update (now : Z) (s : Segment) (c : TcpConnection) : TcpConnection :=
  let with_state (a : bool) (st : TcpState) := mkConn a (c_src_ip c) (c_dst_ip c) (c_src_port c) (c_dst_port c) st now in
  if is_rst s then with_state false CLOSED
  else if is_fin s then with_state (c_active c) FIN_WAIT
  else if decide (c_state c = SYN_SENT) then (if is_syn s && is_ack s then with_state (c_active c) SYN_RECEIVED else with_state (c_active c) (c_state c))
  else if decide (c_state c = SYN_RECEIVED) then (if is_ack s then with_state (c_active c) ESTABLISHED else with_state (c_active c) (c_state c))
  else with_state (c_active c) (c_state c).

(** The first loop: the first active connection of the flow is updated. *)
Fixpoint update_known (now : Z) (s : Segment) (cs : list TcpConnection) : option (list TcpConnection) :=
  match cs with
  | [] => None
  | c :: cs => if c_active c && same_flow s c then Some (conn_update now s c :: cs) else cons c <$> update_known now s cs
  end.

(** The second loop: the first free entry takes a new connection. *)
Fixpoint open_new (now : Z) (s : Segment) (cs : list TcpConnection) : option (list TcpConnection) :=
  match cs with
  | [] => None
  | c :: cs => if negb (c_active c) then Some (mkConn true (s_src_ip s) (s_dst_ip s) (s_src_port s) (s_dst_port s) SYN_SENT now :: cs)
               else cons c <$> open_new now s cs
  end.

Definition inspect (now : Z) (s : Segment) (cs : list TcpConnection) : bool * list TcpConnection :=
  match update_known now s cs with
  | Some cs => (true, cs)
  | None =>
      if is_syn s && negb (is_ack s) then
        match open_new now s cs with
        | Some cs => (true, cs)
        | None => (false, cs)
        end
      else (false, cs)
  end.

Definition process_tcp_packet (now : Z) (packet : list Z) (len : Z) (cs : list TcpConnection) : bool * list TcpConnection :=
  match parse_segment packet len with
  | inl verdict => (verdict, cs)
  | inr s => inspect now s cs
  end.

Definition conn_tick (now : Z) (c : TcpConnection) : TcpConnection :=
  if c_active c && (TIMEOUT_TICKS <? wrap32 (now - c_last c))
  then mkConn false (c_src_ip c) (c_dst_ip c) (c_src_port c) (c_dst_port c) (c_state c) (c_last c) else c.

Definition inspector_tick (now : Z) (cs : list TcpConnection) : list TcpConnection := conn_tick now <$> cs.

(** * Flood protection *)

Record HostStats := mkHost { ho_active : bool; ho_src_ip : Z; syn_count : Z; icmp_count : Z; port_scan_count : Z; last_dst_port : Z; ho_last : Z }.

#[export] Instance HostStats_inhabited : Inhabited HostStats := populate (mkHost false 0 0 0 0 0 0).

Definition set_ho_last v h := mkHost (ho_active h) (ho_src_ip h) (syn_count h) (icmp_count h) (port_scan_count h) (last_dst_port h) v.
Definition set_syn_count v h := mkHost (ho_active h) (ho_src_ip h) v (icmp_count h) (port_scan_count h) (last_dst_port h) (ho_last h).
Definition set_icmp_count v h := mkHost (ho_active h) (ho_src_ip h) (syn_count h) v (port_scan_count h) (last_dst_port h) (ho_last h).
Definition set_port_scan n p h := mkHost (ho_active h) (ho_src_ip h) (syn_count h) (icmp_count h) n p (ho_last h).

Definition MAX_HOSTS : Z := 8.
Definition SYN_LIMIT : Z := 50.
Definition ICMP_LIMIT : Z := 20.
Definition PORT_SCAN_LIMIT : Z := 10.
Definition RESET_INTERVAL : Z := 1000.

(** [get_or_create_stats] as the change [f] that the caller makes to the entry it
    returns: the known host, else the first free entry; [None] when the table is
    full. *)
Fixpoint at_known {A} (f : HostStats -> A * HostStats) (src_ip now : Z) (hosts_ : list HostStats) : option (A * list HostStats) :=
  match hosts_ with
  | [] => None
  | h :: hs =>
      if ho_active h && (ho_src_ip h =? src_ip) then let (a, h) := f (set_ho_last now h) in Some (a, h :: hs)
      else match at_known f src_ip now hs with Some (a, hs) => Some (a, h :: hs) | None => None end
  end.

Fixpoint at_free {A} (f : HostStats -> A * HostStats) (src_ip now : Z) (hosts_ : list HostStats) : option (A * list HostStats) :=
  match hosts_ with
  | [] => None
  | h :: hs =>
      if negb (ho_active h) then let (a, h) := f (mkHost true src_ip 0 0 0 0 now) in Some (a, h :: hs)
      else match at_free f src_ip now hs with Some (a, hs) => Some (a, h :: hs) | None => None end
  end.

Definition at_stats {A} (f : HostStats -> A * HostStats) (src_ip now : Z) (hosts_ : list HostStats) : option (A * list HostStats) :=
  match at_known f src_ip now hosts_ with
  | Some r => Some r
  | None => at_free f src_ip now hosts_
  end.

(** The verdict on one packet of a host: [None] to pass, or the anomaly reported. *)
Definition judge (packet : list Z) (len : Z) (stats : HostStats) : option string * HostStats :=
  if pkt_protocol packet =? 1 then
    let stats := set_icmp_count (wrap32 (icmp_count stats + 1)) stats in
    (if ICMP_LIMIT <? icmp_count stats then Some "ICMP Flood"%string else None, stats)
  else if pkt_protocol packet =? 6 then
    if pkt_ihl packet <? 5 then (None, stats) else
    let l4 := 14 + pkt_ihl packet * 4 in
    if (l4 + 14 <=? len) && negb (Z.land (char_at packet (l4 + 13)) 0x02 =? 0) then
      let dst_port := be16 packet (l4 + 2) in
      let stats := set_syn_count (wrap32 (syn_count stats + 1)) stats in
      if SYN_LIMIT <? syn_count stats then (Some "SYN Flood"%string, stats)
      else if negb (last_dst_port stats =? dst_port) then
        let stats := set_port_scan (wrap32 (port_scan_count stats + 1)) dst_port stats in
        (if PORT_SCAN_LIMIT <? port_scan_count stats then Some "Port Scan"%string else None, stats)
      else (None, stats)
    else (None, stats)
  else (None, stats).

(** The result is the verdict and the anomaly reported to the security monitor. *)
Definition shape (now : Z) (packet : list Z) (len : Z) (hosts_ : list HostStats) : bool * option string * list HostStats :=
  if len <? 34 then (true, None, hosts_)
  else if negb (eth_type packet =? 0x0800) then (true, None, hosts_)
  else match at_stats (judge packet len) (pkt_src_ip packet) now hosts_ with
       | None => (true, None, hosts_)
       | Some (None, hs) => (true, None, hs)
       | Some (Some reason, hs) => (false, Some reason, hs)
       end.

Definition host_tick (now : Z) (h : HostStats) : HostStats :=
  if ho_active h && (RESET_INTERVAL <? wrap32 (now - ho_last h))
  then mkHost false (ho_src_ip h) (syn_count h) (icmp_count h) (port_scan_count h) (last_dst_port h) (ho_last h) else h.

Definition shaper_tick (now : Z) (hosts_ : list HostStats) : list HostStats := host_tick now <$> hosts_.

(** * The engine *)

Record FirewallEngine := mkFw { rule_table_ : RuleTable; connections_ : list TcpConnection; hosts_ : list HostStats; enabled_ : bool }.

Definition set_rule_table v f := mkFw v (connections_ f) (hosts_ f) (enabled_ f).
Definition set_connections v f := mkFw (rule_table_ f) v (hosts_ f) (enabled_ f).
Definition set_hosts v f := mkFw (rule_table_ f) (connections_ f) v (enabled_ f).
Definition set_enabled_ v f := mkFw (rule_table_ f) (connections_ f) (hosts_ f) v.

Definition firewall_ctor : FirewallEngine := mkFw (replicate 16 default_rule) (replicate 16 inhabitant) (replicate 8 inhabitant) true.

(** The firewall with the security monitor it reports to and the console. *)
Record FwWorld := mkFwWorld { fw : FirewallEngine; monitor : SecurityMonitor; console : list Z }.

Definition set_fw v w := mkFwWorld v (monitor w) (console w).
Definition print (s : string) (w : FwWorld) : FwWorld := mkFwWorld (fw w) (monitor w) (console w ++ str s).

Definition report (reason : string) (w : FwWorld) : FwWorld :=
  let (msg, m) := report_firewall_anomaly (Some (str reason)) (monitor w) in mkFwWorld (fw w) m (console w ++ msg).

Definition log_drop (reason : string) (w : FwWorld) : FwWorld :=
  let w := print "[Firewall Audit] DROPPED packet (len=" w in
  let w := print reason w in
  mkFwWorld (fw w) (monitor w) (console w ++ str ")" ++ [13; 10]).

(** Stage 0: the probe filter of the stealth identity. *)
Definition probe_dropped (s : StealthIdentity) (packet : list Z) (len : Z) : bool :=
  if (34 <=? len) && (eth_type packet =? 0x0800) then
    let l4 := 14 + pkt_ihl packet * 4 in
    if (5 <=? pkt_ihl packet) && (l4 <=? len) then
      if (pkt_protocol packet =? 1) && (l4 + 1 <=? len) then should_drop_inbound_probe 1 0 (char_at packet l4) s
      else if (pkt_protocol packet =? 17) && (l4 + 4 <=? len) then should_drop_inbound_probe 17 (be16 packet (l4 + 2)) 0 s
      else false
    else false
  else false.

Definition process_packet (s : StealthIdentity) (now : Z) (packet : list Z) (len : Z) (interface : list Z) (w : FwWorld) : bool * FwWorld :=
  if negb (enabled_ (fw w)) then (true, w) else
  if probe_dropped s packet len then (false, w) else
  let '(pass, anomaly, hs) := shape now packet len (hosts_ (fw w)) in
  let w := set_fw (set_hosts hs (fw w)) w in
  let w := match anomaly with Some reason => report reason w | None => w end in
  if negb pass then (false, w) else
  if negb (bool_decide (match_rules packet len interface (rule_table_ (fw w)) = ACCEPT)) then (false, log_drop "Rule Drop" w) else
  let (pass, cs) := process_tcp_packet now packet len (connections_ (fw w)) in
  let w := set_fw (set_connections cs (fw w)) w in
  if negb pass then (false, log_drop "Stateful Drop" w) else (true, w).

Definition fw_tick (now : Z) (f : FirewallEngine) : FirewallEngine :=
  if negb (enabled_ f) then f else set_hosts (shaper_tick now (hosts_ f)) (set_connections (inspector_tick now (connections_ f)) f).

Definition fw_enable (enable : bool) (f : FirewallEngine) : FirewallEngine := set_enabled_ enable f.

(** * The service (services/firewall) *)

(** The service's answer to a request; the buffers have 1500 bytes. *)
Inductive FirewallRequest :=
  | ProcessPacket (len : Z) (interface_name payload : list Z)
  | AddRule | RemoveRule | GetStats | OtherOpcode.

Definition serve (s : StealthIdentity) (now msg_type : Z) (req : FirewallRequest) (w : FwWorld) : Z * FwWorld :=
  if msg_type =? 1 then
    match req with
    | ProcessPacket len interface_name payload =>
        if (0 <=? len) && (len <=? 1500) then
          let (accept, w) := process_packet s now payload len interface_name w in (if accept then 0 else -1, w)
        else (-1, w)
    | AddRule | RemoveRule | GetStats => (0, w)
    | OtherOpcode => (-1, w)
    end
  else (-1, w).

(** [strncpy(dst, src, 7); dst[7] = 0] into a buffer of 8 bytes: padded with
    zeros. *)
Definition copy_name (src : list Z) : list Z := take 7 (cstr src) ++ replicate (8 - length (take 7 (cstr src))) 0.

(** The client: [service_ep_cap_] and [g_firewall_service_ep]; [call] is the IPC
    round trip, whose answer is the reply's status. *)
Definition client_process_packet (service_ep_cap_ g_firewall_service_ep : Z) (call : Z -> FirewallRequest -> FwWorld -> Z * FwWorld)
    (packet : list Z) (len : Z) (interface : list Z) (w : FwWorld) : bool * Z * FwWorld :=
  let ep := if service_ep_cap_ <? 0 then g_firewall_service_ep else service_ep_cap_ in
  if ep <? 0 then (true, ep, w)
  else if 1500 <? len then (false, ep, w)
  else let (status, w) := call ep (ProcessPacket len (copy_name interface) (take (Z.to_nat len) packet)) w in (status =? 0, ep, w).
