(* ===== verification/FwParser.v ===== *)
(** The firewall's command line (net/firewall/rule_parser.cpp).  A pointer into the
    command is the rest of the string. *)
From S2P Require Import Prelude Text SecMon Stealth Firewall.
From stdpp Require Import strings.
#[local] Open Scope Z_scope.

(** * String functions *)

Fixpoint has_prefix (pat s : list Z) : bool :=
  match pat, s with
  | [], _ => true
  | p :: pat, c :: s => (p =? c) && has_prefix pat s
  | _ :: _, [] => false
  end.

(** [strstr]: the string from the first occurrence on. *)
Fixpoint strstr (s pat : list Z) : option (list Z) :=
  if has_prefix pat s then Some s else
  match s with
  | [] => None
  | _ :: s => strstr s pat
  end.

Definition contains (s : list Z) (pat : string) : bool := match strstr s (str pat) with Some _ => true | None => false end.

Definition is_space (c : Z) : bool := c =? 32.

Fixpoint skip_while (f : Z -> bool) (s : list Z) : list Z :=
  match s with
  | [] => []
  | c :: s' => if f c then skip_while f s' else s
  end.

(** * Numbers and addresses *)

Definition digit_of (c : Z) : option Z :=
  if (48 <=? c) && (c <=? 57) then Some (c - 48)
  else if (97 <=? c) && (c <=? 102) then Some (c - 97 + 10)
  else if (65 <=? c) && (c <=? 70) then Some (c - 65 + 10)
  else None.

Fixpoint parse_digits (base : Z) (s : list Z) (result : Z) : Z :=
  match s with
  | [] => result
  | c :: s =>
      match digit_of c with
      | Some digit => if base <=? digit then result else parse_digits base s (wrap32 (result * base + digit))
      | None => result
      end
  end.

(** [str[0] == '0' && (str[1] == 'x' || str[1] == 'X')] *)
Definition is_hex (s : list Z) : bool := (char_at s 0 =? 48) && ((char_at s 1 =? 120) || (char_at s 1 =? 88)).

Definition parse_uint (s : list Z) : Z :=
  let s := skip_while (fun c => is_space c || (c =? 9)) s in
  if is_hex s then parse_digits 16 (drop 2 s) 0 else parse_digits 10 s 0.

Definition count_dots (s : list Z) : Z := Z.of_nat (length (List.filter (fun c => c =? 46) s)).

(** The four octets; [None] is the malformed case.  [n] rounds are left. *)
Fixpoint parse_octets (n : nat) (s : list Z) : option (list Z) :=
  match n with
  | O => Some []
  | S n =>
      let octet := parse_uint s mod 256 in
      let s := skip_while (fun c => negb (c =? 46)) s in
      match n with
      | O => Some [octet]
      | _ => if char_at s 0 =? 46 then cons octet <$> parse_octets n (drop 1 s) else None
      end
  end.

Definition parse_ip (s : list Z) : Z :=
  let s := skip_while is_space s in
  if is_hex s then parse_uint s
  else if count_dots s =? 3 then
    match parse_octets 4 s with
    | Some [a; b; c; d] => Z.lor (Z.lor (Z.lor (Z.shiftl a 24) (Z.shiftl b 16)) (Z.shiftl c 8)) d
    | _ => 0
    end
  else parse_uint s.

(** * The rules of a command *)

Definition parse_action (ptr : list Z) : FwAction :=
  if contains ptr "action DROP" then DROP else if contains ptr "action REJECT" then REJECT else ACCEPT.

Definition parse_protocol (ptr : list Z) : option Z :=
  if contains ptr "protocol TCP" then Some 6
  else if contains ptr "protocol UDP" then Some 17
  else if contains ptr "protocol ICMP" then Some 1
  else None.

(** [key = strstr(ptr, "..."); if (key) ... parse(key + n)] *)
Definition keyed (ptr : list Z) (key : string) (parse : list Z -> Z) : option Z :=
  match strstr ptr (str key) with
  | Some s => Some (parse (drop (length (str key)) s))
  | None => None
  end.

Definition given (o : option Z) : bool := match o with Some _ => true | None => false end.
Definition value_or_0 (o : option Z) : Z := match o with Some v => v | None => 0 end.

Definition parse_rule (ptr : list Z) : FwRule :=
  let proto := parse_protocol ptr in
  let src_ip := keyed ptr "src_ip " parse_ip in
  let dst_ip := keyed ptr "dst_ip " parse_ip in
  let src_port := keyed ptr "src_port " (fun s => parse_uint s mod 65536) in
  let dst_port := keyed ptr "dst_port " (fun s => parse_uint s mod 65536) in
  mkFwRule false (given src_ip) (value_or_0 src_ip) (given dst_ip) (value_or_0 dst_ip) (given src_port) (value_or_0 src_port)
    (given dst_port) (value_or_0 dst_port) (given proto) (value_or_0 proto) false 0 0 false (replicate 8 0) (parse_action ptr).

Definition has_predicate (r : FwRule) : bool :=
  match_src_ip r || match_dst_ip r || match_src_port r || match_dst_port r || match_protocol r.

(** * Listing *)

Definition print_text (t : list Z) (w : FwWorld) : FwWorld := mkFwWorld (fw w) (monitor w) (console w ++ t).
Definition print_u32 (val : Z) : list Z := decimal val.
Definition crlf : list Z := [13; 10].

(** The four numbers with the dots between them. *)
Definition dotted (ip : Z) : list Z :=
  print_u32 (Z.land (Z.shiftr ip 24) 0xFF) ++ str "." ++ print_u32 (Z.land (Z.shiftr ip 16) 0xFF) ++ str "." ++
  print_u32 (Z.land (Z.shiftr ip 8) 0xFF) ++ str "." ++ print_u32 (Z.land ip 0xFF).

Definition list_rule (i : Z) (r : FwRule) : list Z :=
  if negb (fw_enabled r) then [] else
  str "  Rule " ++ print_u32 i ++ str ": action=" ++
  str (match fw_action r with ACCEPT => "ACCEPT" | DROP => "DROP" | REJECT => "REJECT" end)%string ++
  (if match_protocol r then str ", proto=" ++ print_u32 (r_protocol r) else []) ++
  (if match_src_ip r then str ", src_ip=" ++ dotted (r_src_ip r) else []) ++
  (if match_dst_ip r then str ", dst_ip=" ++ dotted (r_dst_ip r) else []) ++
  (if match_src_port r then str ", src_port=" ++ print_u32 (r_src_port r) else []) ++
  (if match_dst_port r then str ", dst_port=" ++ print_u32 (r_dst_port r) else []) ++
  str " (active)" ++ crlf.

Definition list_rules (rules_ : RuleTable) : list Z :=
  concat ((fun i => list_rule i (zlookup rules_ i)) <$> seqZ 0 MAX_RULES).

(** * Commands *)

(** [strncmp(s, pat, strlen(pat)) == 0] *)
Definition starts (s : list Z) (pat : string) : bool := strneq (length (str pat)) s (str pat).

Definition int_of (x : Z) : Z := (x + 2147483648) mod 4294967296 - 2147483648.

Definition set_rules_of (rs : RuleTable) (w : FwWorld) : FwWorld := set_fw (set_rule_table rs (fw w)) w.

Definition cmd_delete (args : list Z) (w : FwWorld) : FwWorld :=
  let (ok, rs) := delete_rule (int_of (parse_uint (drop 7 args))) (rule_table_ (fw w)) in
  print_text (str (if ok then "Rule deleted." else "Failed to delete rule.")%string ++ crlf) (set_rules_of rs w).

Definition no_predicate_error : list Z :=
  str "Error: rule requires at least one match predicate (src_ip, dst_ip, src_port, dst_port, protocol)." ++ crlf.

Definition cmd_add (args : list Z) (w : FwWorld) : FwWorld :=
  let new_rule := parse_rule (drop 4 args) in
  if negb (has_predicate new_rule) then print_text no_predicate_error w else
  let (ok, rs) := fw_add_rule new_rule (rule_table_ (fw w)) in
  print_text (str (if ok then "Rule added." else "Rule table full.")%string ++ crlf) (set_rules_of rs w).

Definition parse_command (cmd : list Z) (w : FwWorld) : FwWorld :=
  let cmd := cstr cmd in
  if negb (starts cmd "fw ") then w else
  let args := drop 3 cmd in
  if starts args "enable" then print_text (str "Firewall enabled." ++ crlf) (set_fw (fw_enable true (fw w)) w)
  else if starts args "disable" then print_text (str "Firewall disabled." ++ crlf) (set_fw (fw_enable false (fw w)) w)
  else if starts args "list" then print_text (str "Firewall rules:" ++ crlf ++ list_rules (rule_table_ (fw w))) w
  else if starts args "delete " then cmd_delete args w
  else if starts args "add " then cmd_add args w
  else print_text (str "Unknown fw command." ++ crlf) w.
