(* ===== verification/FwParserInv.v ===== *)
(** The command line reads back what it prints: numbers, addresses, and the keys of a
    command around them. *)
From S2P Require Import Prelude Text SecMon Stealth Firewall FwParser.
From stdpp Require Import strings.
#[local] Open Scope Z_scope.

(** * Digits *)

Definition is_digit (c : Z) : Prop := 48 <= c <= 57.

Lemma digits_are_digits fuel num : 0 <= num -> Forall is_digit (digits fuel num).
Proof.
  revert num. induction fuel as [|fuel IH]; intros num Hn; cbn [digits]; [constructor|]. destruct (0 <? num); [|constructor]. constructor.
  - pose proof (Z.mod_pos_bound num 10 ltac:(lia)). unfold is_digit. lia.
  - apply IH, Z.div_pos; lia.
Qed.

Lemma decimal_digits num : 0 <= num -> Forall is_digit (decimal num).
Proof.
  intros Hn. unfold decimal. apply Forall_rev. destruct (num =? 0); [repeat constructor; lia|by apply digits_are_digits].
Qed.

Lemma decimal_nonempty num : 0 <= num -> exists c s, decimal num = c :: s.
Proof.
  intros Hn. unfold decimal. destruct (rev _) as [|c s] eqn:E; [|by eexists _, _]. exfalso. apply (f_equal length) in E. rewrite length_rev in E.
  destruct (Z.eqb_spec num 0); [done|]. cbn [digits] in E. destruct (Z.ltb_spec 0 num); [done|lia].
Qed.

Lemma digit_of_digit c : is_digit c -> digit_of c = Some (c - 48).
Proof. intros [H1 H2]. unfold digit_of. destruct (Z.leb_spec 48 c), (Z.leb_spec c 57); try lia. done. Qed.

(** What may follow a number. *)
Definition stops (s : list Z) : Prop := match s with [] => True | c :: _ => c = 32 \/ c = 46 end.

Lemma fold_digits_ge ds a : Forall is_digit ds -> 0 <= a -> a <= foldl (fun a c => 10 * a + (c - 48)) a ds.
Proof.
  intros Hd. revert a. induction Hd as [|c ds [H1 H2] _ IH]; intros a Ha; cbn [foldl]; [lia|]. specialize (IH (10 * a + (c - 48)) ltac:(lia)). lia.
Qed.

Lemma parse_digits_app ds rest a :
  Forall is_digit ds -> stops rest -> 0 <= a -> foldl (fun a c => 10 * a + (c - 48)) a ds < 4294967296 ->
  parse_digits 10 (ds ++ rest) a = foldl (fun a c => 10 * a + (c - 48)) a ds.
Proof.
  intros Hd Hr. revert a. induction Hd as [|c ds Hc Hd IH]; intros a Ha Hb; cbn [app parse_digits foldl] in *.
  - destruct rest as [|c rest]; [done|]. cbn [parse_digits]. by destruct Hr as [-> | ->].
  - rewrite digit_of_digit by done. destruct Hc as [H1 H2]. destruct (Z.leb_spec 10 (c - 48)); [lia|].
    pose proof (fold_digits_ge ds (10 * a + (c - 48)) Hd ltac:(lia)). rewrite wrap32_small by (unfold is_u32; lia).
    replace (a * 10 + (c - 48)) with (10 * a + (c - 48)) by lia. apply IH; lia.
Qed.

Lemma not_hex c s rest : Forall is_digit (c :: s) -> stops rest -> is_hex ((c :: s) ++ rest) = false.
Proof.
  intros Hd Hr. unfold is_hex. apply andb_false_iff. right. apply orb_false_iff. inversion Hd as [|? ? _ Hs]; subst.
  destruct s as [|d s]; cbn [app].
  - destruct rest as [|r rest]; [done|]. change (char_at (c :: r :: rest) 1) with r. by destruct Hr as [-> | ->].
  - change (char_at (c :: d :: s ++ rest) 1) with d. inversion Hs as [|? ? [H1 H2] _]; subst. split; apply Z.eqb_neq; lia.
Qed.

Lemma skip_none f c s : f c = false -> skip_while f (c :: s) = c :: s.
Proof. intros H. cbn. by rewrite H. Qed.

(** Numbers read back. *)
Lemma parse_uint_decimal num rest : is_u32 num -> stops rest -> parse_uint (decimal num ++ rest) = num.
Proof.
  intros [H0 H1] Hr. pose proof (decimal_digits num H0) as Hd. pose proof (decimal_value num ltac:(by split)) as Hv. destruct (decimal_nonempty num H0) as (c & s & E).
  rewrite E in *. unfold parse_uint. change ((c :: s) ++ rest) with (c :: s ++ rest). pose proof (Forall_inv Hd) as [Hc1 Hc2].
  rewrite skip_none by (unfold is_space; apply orb_false_iff; split; apply Z.eqb_neq; lia). change (c :: s ++ rest) with ((c :: s) ++ rest).
  rewrite (not_hex c s rest Hd Hr). unfold value in Hv. rewrite parse_digits_app; [done|done|done|lia|lia].
Qed.

(** * Addresses *)

Definition octet (ip : Z) (k : Z) : Z := Z.land (Z.shiftr ip k) 0xFF.

Lemma octet_range ip k : 0 <= octet ip k < 256.
Proof. unfold octet. change 255 with (Z.ones 8). rewrite Z.land_ones by lia. apply Z.mod_pos_bound. lia. Qed.

Lemma octets_join ip : is_u32 ip ->
  Z.lor (Z.lor (Z.lor (Z.shiftl (octet ip 24) 24) (Z.shiftl (octet ip 16) 16)) (Z.shiftl (octet ip 8) 8)) (octet ip 0) = ip.
Proof.
  intros [H0 H1]. apply Z.bits_inj'. intros n Hn. unfold octet. change 255 with (Z.ones 8).
  rewrite !Z.lor_spec, !Z.shiftl_spec, !Z.land_spec by done.
  assert (Hb : forall k, 0 <= k -> Z.testbit (Z.shiftr ip k) (n - k) && Z.testbit (Z.ones 8) (n - k) = Z.testbit ip n && ((k <=? n) && (n <? k + 8))).
  { intros k Hk. destruct (Z.leb_spec k n), (Z.ltb_spec n (k + 8)); cbn [andb].
    - rewrite Z.shiftr_spec, Z.ones_spec_low by lia. do 2 f_equal. lia.
    - rewrite Z.ones_spec_high by lia. by rewrite !andb_false_r.
    - rewrite Z.testbit_neg_r by lia. by rewrite andb_false_r.
    - rewrite Z.testbit_neg_r by lia. by rewrite andb_false_r. }
  pose proof (Hb 0 ltac:(lia)) as Hb0. rewrite Z.sub_0_r in Hb0. rewrite !Hb, Hb0 by lia. destruct (Z.testbit ip n) eqn:Et; cbn [andb]; [|done].
  assert (Hn32 : n < 32).
  { destruct (Z.lt_ge_cases n 32); [done|]. rewrite (Z.bits_above_log2 ip n) in Et; [done|lia|]. destruct (decide (ip = 0)) as [->|]; [cbn; lia|]. apply Z.log2_lt_pow2; [lia|].
    assert (2 ^ 32 <= 2 ^ n) by (apply Z.pow_le_mono_r; lia). lia. }
  destruct (Z.leb_spec 24 n), (Z.leb_spec 16 n), (Z.leb_spec 8 n), (Z.leb_spec 0 n), (Z.ltb_spec n (24 + 8)), (Z.ltb_spec n (16 + 8)), (Z.ltb_spec n (8 + 8)), (Z.ltb_spec n (0 + 8)); try lia; done.
Qed.

Lemma skip_digits ds s : Forall is_digit ds -> skip_while (fun c => negb (c =? 46)) (ds ++ 46 :: s) = 46 :: s.
Proof.
  induction 1 as [|c ds [H1 H2] _ IH]; cbn; [done|]. destruct (Z.eqb_spec c 46); [lia|]. exact IH.
Qed.

Lemma octet_text v rest : 0 <= v < 256 -> stops rest -> parse_uint (decimal v ++ rest) mod 256 = v.
Proof. intros Hv Hr. rewrite parse_uint_decimal by (done || (unfold is_u32; lia)). by apply Z.mod_small. Qed.

Lemma parse_octets_step n v s : 0 <= v < 256 -> parse_octets (S (S n)) (decimal v ++ 46 :: s) = cons v <$> parse_octets (S n) s.
Proof.
  intros Hv. remember (S n) as m eqn:Em. cbn [parse_octets]. rewrite octet_text by (done || by right). rewrite skip_digits by (apply decimal_digits; lia).
  subst m. done.
Qed.

(** The last octet may be followed by anything that ends a number. *)
Lemma parse_octets_dotted a b c d rest :
  0 <= a < 256 -> 0 <= b < 256 -> 0 <= c < 256 -> 0 <= d < 256 -> stops rest ->
  parse_octets 4 (decimal a ++ 46 :: decimal b ++ 46 :: decimal c ++ 46 :: decimal d ++ rest) = Some [a; b; c; d].
Proof. intros Ha Hb Hc Hd Hr. rewrite !parse_octets_step by done. cbn [parse_octets]. by rewrite octet_text. Qed.

Lemma dotted_text ip rest :
  dotted ip ++ rest = decimal (octet ip 24) ++ 46 :: decimal (octet ip 16) ++ 46 :: decimal (octet ip 8) ++ 46 :: decimal (octet ip 0) ++ rest.
Proof. unfold dotted, print_u32, octet. rewrite Z.shiftr_0_r. change (str ".") with [46]. by rewrite <- !app_assoc. Qed.

Lemma count_dots_digits ds s : Forall is_digit ds -> count_dots (ds ++ s) = count_dots s.
Proof.
  induction 1 as [|c ds [H1 H2] _ IH]; [done|]. unfold count_dots in *. cbn [app List.filter]. destruct (Z.eqb_spec c 46); [lia|]. exact IH.
Qed.

Lemma count_dots_cons s : count_dots (46 :: s) = count_dots s + 1.
Proof. unfold count_dots. cbn [List.filter Z.eqb Pos.eqb length]. lia. Qed.

(** An address reads back as printed, when no further dot follows in the command. *)
Lemma parse_ip_dotted ip rest : is_u32 ip -> stops rest -> count_dots rest = 0 -> parse_ip (dotted ip ++ rest) = ip.
Proof.
  intros Hip Hr Hd. pose proof (octet_range ip) as Ho. rewrite dotted_text.
  set (r1 := decimal (octet ip 16) ++ 46 :: decimal (octet ip 8) ++ 46 :: decimal (octet ip 0) ++ rest).
  assert (Hdots : count_dots (decimal (octet ip 24) ++ 46 :: r1) = 3).
  { unfold r1. repeat (rewrite count_dots_digits by (apply decimal_digits; apply Ho); rewrite ?count_dots_cons). lia. }
  assert (Hoct : parse_octets 4 (decimal (octet ip 24) ++ 46 :: r1) = Some [octet ip 24; octet ip 16; octet ip 8; octet ip 0]) by (by apply parse_octets_dotted).
  clearbody r1. unfold parse_ip. destruct (decimal_nonempty (octet ip 24) ltac:(apply Ho)) as (c & s & E). pose proof (decimal_digits (octet ip 24) ltac:(apply Ho)) as Hds.
  rewrite E in *. change ((c :: s) ++ 46 :: r1) with (c :: s ++ 46 :: r1) in *. pose proof (Forall_inv Hds) as [Hc1 Hc2].
  rewrite skip_none by (unfold is_space; apply Z.eqb_neq; lia). change (c :: s ++ 46 :: r1) with ((c :: s) ++ 46 :: r1) in *.
  rewrite (not_hex c s (46 :: r1) Hds ltac:(by right)), Hdots. cbn [Z.eqb Pos.eqb]. rewrite Hoct. by apply octets_join.
Qed.

(** * Keys *)

Lemma strstr_next pat c s : has_prefix pat (c :: s) = false -> strstr (c :: s) pat = strstr s pat.
Proof. intros H. cbn [strstr]. by rewrite H. Qed.

Lemma strstr_skip p pat a b : Forall (fun c => c <> p) a -> strstr (a ++ b) (p :: pat) = strstr b (p :: pat).
Proof.
  induction 1 as [|c a Hc _ IH]; [done|]. cbn [app]. rewrite strstr_next; [done|]. cbn [has_prefix]. destruct (Z.eqb_spec p c); [congruence|done].
Qed.

(** Digits and dots: no key begins with them. *)
Definition numeral (c : Z) : Prop := 46 <= c <= 57.

Lemma numeral_digits ds : Forall is_digit ds -> Forall numeral ds.
Proof. intros H. eapply Forall_impl; [exact H|]. unfold is_digit, numeral. lia. Qed.

Lemma numeral_dotted ip : Forall numeral (dotted ip).
Proof.
  pose proof (octet_range ip) as Ho. rewrite <- (app_nil_r (dotted ip)), dotted_text.
  repeat (apply Forall_app; split; [apply numeral_digits, decimal_digits, Ho|]; try (apply Forall_cons; split; [unfold numeral; lia|])). constructor.
Qed.

Lemma strstr_numerals p pat a b : Forall numeral a -> 57 < p -> strstr (a ++ b) (p :: pat) = strstr b (p :: pat).
Proof. intros Ha Hp. apply strstr_skip. eapply Forall_impl; [exact Ha|]. unfold numeral. lia. Qed.

(** Walk over the fixed text and the numerals of a command. *)
Ltac scan := repeat first [rewrite strstr_next by reflexivity | rewrite strstr_numerals by (assumption || lia)].

(** The command "add K A L P action W" behind its first word: [si] and [sp] say whether
    address and port are those of the source. *)
Definition ip_key (si : bool) : list Z := str (if si then "src_ip " else "dst_ip ")%string.
Definition port_key (sp : bool) : list Z := str (if sp then "src_port " else "dst_port ")%string.
Definition action_word (act : FwAction) : list Z :=
  str (match act with ACCEPT => " action ACCEPT" | DROP => " action DROP" | REJECT => " action REJECT" end)%string.

Definition rule_text (si sp : bool) (act : FwAction) (addr port : list Z) : list Z :=
  ip_key si ++ addr ++ str " " ++ port_key sp ++ port ++ action_word act.

Lemma rule_text_keys si sp act addr port :
  Forall numeral addr -> Forall numeral port ->
  let ptr := rule_text si sp act addr port in
  let found := Some (port_key sp ++ port ++ action_word act) in
  strstr ptr (str "src_ip ") = (if si then Some ptr else None) /\
  strstr ptr (str "dst_ip ") = (if si then None else Some ptr) /\
  strstr ptr (str "src_port ") = (if sp then found else None) /\
  strstr ptr (str "dst_port ") = (if sp then None else found) /\
  contains ptr "action DROP" = bool_decide (act = DROP) /\ contains ptr "action REJECT" = bool_decide (act = REJECT) /\
  contains ptr "protocol TCP" = false /\ contains ptr "protocol UDP" = false /\ contains ptr "protocol ICMP" = false.
Proof.
  intros Ha Hp. cbv zeta. unfold rule_text, contains, ip_key, port_key, action_word.
  destruct si, sp, act;
  repeat match goal with |- context [str ?s] => let t := eval vm_compute in (str s) in change (str s) with t end; cbn [app];
  (split; [scan; reflexivity|]); (split; [scan; reflexivity|]); (split; [scan; reflexivity|]); (split; [scan; reflexivity|]);
  repeat split; scan; reflexivity.
Qed.
