(* ===== verification/FwInv.v ===== *)
(** The tables of the firewall: connections as the flows opened by a SYN, and the
    hosts as a map from addresses to counters. *)
From S2P Require Import Prelude Text SecMon Stealth Firewall.
From stdpp Require Import strings.
#[local] Open Scope Z_scope.

(** * Connections *)

(** Two segments of the same flow, in either direction. *)
Definition same_conn (s t : Segment) : Prop :=
  (s_src_ip s = s_src_ip t /\ s_dst_ip s = s_dst_ip t /\ s_src_port s = s_src_port t /\ s_dst_port s = s_dst_port t) \/
  (s_src_ip s = s_dst_ip t /\ s_dst_ip s = s_src_ip t /\ s_src_port s = s_dst_port t /\ s_dst_port s = s_src_port t).

(** The flow of an entry, as the segment that opened it. *)
Definition conn_key (c : TcpConnection) : Segment := mkSegment (c_src_ip c) (c_dst_ip c) (c_src_port c) (c_dst_port c) false false false false.

Lemma same_conn_sym s t : same_conn s t -> same_conn t s.
Proof. unfold same_conn. intuition congruence. Qed.

Lemma same_conn_trans s t u : same_conn s t -> same_conn t u -> same_conn s u.
Proof. unfold same_conn. intuition congruence. Qed.

Lemma same_flow_iff s c : same_flow s c = true <-> same_conn s (conn_key c).
Proof. unfold same_flow, same_conn. rewrite orb_true_iff, !andb_true_iff, !Z.eqb_eq. cbn. intuition congruence. Qed.

Lemma conn_update_key now s c : conn_key (conn_update now s c) = conn_key c.
Proof. unfold conn_update. repeat case_match; done. Qed.

Lemma conn_update_active now s c : c_active (conn_update now s c) = c_active c && negb (is_rst s).
Proof. unfold conn_update. destruct (is_rst s); [by rewrite andb_false_r|]. rewrite andb_true_r. repeat case_match; done. Qed.

(** The first active entry of the flow is updated in place. *)
Lemma update_known_some now s cs cs' :
  update_known now s cs = Some cs' ->
  exists l1 c l2, cs = l1 ++ c :: l2 /\ cs' = l1 ++ conn_update now s c :: l2 /\ c_active c = true /\ same_conn s (conn_key c).
Proof.
  revert cs'. induction cs as [|c cs IH]; intros cs'; cbn [update_known]; [done|]. destruct (c_active c && same_flow s c) eqn:E.
  - intros [= <-]. apply andb_true_iff in E as [Ea Ef%same_flow_iff]. by exists [], c, cs.
  - destruct (update_known now s cs) as [cs1|]; [|done]. intros [= <-]. destruct (IH cs1 eq_refl) as (l1 & c' & l2 & -> & -> & H1 & H2). by exists (c :: l1), c', l2.
Qed.

Lemma update_known_none now s cs c : update_known now s cs = None -> c ∈ cs -> c_active c = true -> ~ same_conn s (conn_key c).
Proof.
  induction cs as [|d cs IH]; cbn [update_known]; [intros _ H; by apply not_elem_of_nil in H|]. destruct (c_active d && same_flow s d) eqn:E; [done|].
  destruct (update_known now s cs); [done|]. intros _ [->|Hc]%elem_of_cons Ha; [|by apply IH]. rewrite Ha in E. cbn in E. intros H%same_flow_iff. congruence.
Qed.

Lemma open_new_some now s cs cs' :
  open_new now s cs = Some cs' ->
  exists l1 c l2, cs = l1 ++ c :: l2 /\ cs' = l1 ++ mkConn true (s_src_ip s) (s_dst_ip s) (s_src_port s) (s_dst_port s) SYN_SENT now :: l2 /\ c_active c = false.
Proof.
  revert cs'. induction cs as [|c cs IH]; intros cs'; cbn [open_new]; [done|]. destruct (c_active c) eqn:E; cbn [negb].
  - destruct (open_new now s cs) as [cs1|]; [|done]. intros [= <-]. destruct (IH cs1 eq_refl) as (l1 & c' & l2 & -> & -> & H1). by exists (c :: l1), c', l2.
  - intros [= <-]. by exists [], c, cs.
Qed.

Lemma open_new_none now s cs : open_new now s cs = None <-> Forall (fun c => c_active c = true) cs.
Proof.
  induction cs as [|c cs IH]; cbn [open_new]; [split; [constructor|done]|]. destruct (c_active c) eqn:E; cbn [negb].
  - rewrite Forall_cons, <- IH. destruct (open_new now s cs); cbn; split; try done; by intros [_ ?].
  - rewrite Forall_cons. split; [done|]. intros [H _]. congruence.
Qed.

(** ** The history of a table *)

(** A SYN without ACK. *)
Definition opening (s : Segment) : Prop := is_syn s = true /\ is_ack s = false.

(** [hist] holds the accepted segments, newest first: the flow of [c] was opened and
    not reset since. *)
Definition opened (hist : list Segment) (c : TcpConnection) : Prop :=
  exists h1 s0 h2, hist = h1 ++ s0 :: h2 /\ opening s0 /\ same_conn s0 (conn_key c) /\
    Forall (fun s => same_conn s (conn_key c) -> is_rst s = false) h1.

(** No flow has two active entries. *)
Definition flows_unique (cs : list TcpConnection) : Prop :=
  forall i j c d, cs !! i = Some c -> cs !! j = Some d -> c_active c = true -> c_active d = true -> same_conn (conn_key c) (conn_key d) -> i = j.

Definition conns_ok (hist : list Segment) (cs : list TcpConnection) : Prop :=
  flows_unique cs /\ forall c, c ∈ cs -> c_active c = true -> opened hist c.

Lemma opened_cons hist s c : opened hist c -> (same_conn s (conn_key c) -> is_rst s = false) -> opened (s :: hist) c.
Proof. intros (h1 & s0 & h2 & -> & H1 & H2 & H3) Hs. exists (s :: h1), s0, h2. split; [done|]. split; [done|]. split; [done|]. by constructor. Qed.

Lemma opened_key hist c d : conn_key c = conn_key d -> opened hist c -> opened hist d.
Proof. unfold opened. by intros ->. Qed.

(** Changing one entry keeps the flows unique, when its new flow is old or unknown. *)
Lemma flows_unique_change l1 c c' l2 :
  flows_unique (l1 ++ c :: l2) ->
  (c_active c' = true -> (c_active c = true /\ conn_key c' = conn_key c) \/
    (forall d, d ∈ l1 ++ c :: l2 -> c_active d = true -> ~ same_conn (conn_key c') (conn_key d))) ->
  flows_unique (l1 ++ c' :: l2).
Proof.
  intros Hu Hc. set (cs := l1 ++ c :: l2). assert (Hlk : forall i, (l1 ++ c' :: l2) !! i = if decide (i = length l1) then Some c' else cs !! i).
  { intros i. unfold cs. case_decide as E; [subst i; by rewrite lookup_app_r, Nat.sub_diag|]. destruct (decide (i < length l1)%nat); [by rewrite !lookup_app_l|].
    rewrite !lookup_app_r by lia. destruct (i - length l1)%nat eqn:En; [lia|done]. }
  assert (Hmid : cs !! length l1 = Some c) by (unfold cs; by rewrite lookup_app_r, Nat.sub_diag).
  intros i j x y Hi Hj Hx Hy Hs. rewrite Hlk in Hi, Hj. repeat case_decide; simplify_eq; [done| | |by eapply Hu].
  - destruct (Hc Hy) as [[Ha E]|Hn]; [rewrite E in Hs; by eapply Hu|]. destruct (Hn x); try done; [by eapply list_elem_of_lookup_2|by apply same_conn_sym].
  - destruct (Hc Hx) as [[Ha E]|Hn]; [rewrite E in Hs; by eapply Hu|]. destruct (Hn y); try done. by eapply list_elem_of_lookup_2.
Qed.

Lemma elem_of_middle {A} (l1 l2 : list A) c c' d : d ∈ l1 ++ c' :: l2 -> d = c' \/ d ∈ l1 ++ c :: l2.
Proof. rewrite !elem_of_app, !elem_of_cons. tauto. Qed.

(** The two ways to accept. *)
Lemma inspect_known now s cs cs' hist :
  conns_ok hist cs -> update_known now s cs = Some cs' -> conns_ok (s :: hist) cs'.
Proof.
  intros [Hu Ho] E. apply update_known_some in E as (l1 & c & l2 & -> & -> & Ha & Hs). split.
  - apply (flows_unique_change _ c); [done|]. intros _. left. split; [done|apply conn_update_key].
  - assert (Hc : c ∈ l1 ++ c :: l2) by set_solver. intros d Hd Hda. destruct (decide (is_rst s = true /\ same_conn s (conn_key d))) as [[Hr Hsd]|Hno].
    + exfalso. assert (Hck : same_conn (conn_key c) (conn_key d)) by (eapply same_conn_trans; [apply same_conn_sym; exact Hs|exact Hsd]).
      apply list_elem_of_lookup in Hd as [j Hj]. destruct (decide (j = length l1)) as [->|Hne].
      * rewrite lookup_app_r, Nat.sub_diag in Hj by done. cbn in Hj. simplify_eq. rewrite conn_update_active, Hr, andb_false_r in Hda. done.
      * assert (Hj' : (l1 ++ c :: l2) !! j = Some d).
        { destruct (decide (j < length l1)%nat); [by rewrite lookup_app_l in Hj |- *|]. rewrite lookup_app_r in Hj |- * by lia. destruct (j - length l1)%nat eqn:En; [lia|done]. }
        apply Hne. symmetry. eapply (Hu (length l1) j c d); try done. by rewrite lookup_app_r, Nat.sub_diag.
    + apply opened_cons; [|intros Hsd; destruct (is_rst s); [destruct Hno; done|done]].
      apply (elem_of_middle _ _ c) in Hd as [->|Hd]; [|by apply Ho]. rewrite conn_update_active in Hda. apply andb_true_iff in Hda as [Hda _].
      eapply opened_key; [symmetry; apply conn_update_key|]. by apply Ho.
Qed.

Lemma inspect_new now s cs cs' hist :
  conns_ok hist cs -> update_known now s cs = None -> opening s -> open_new now s cs = Some cs' -> conns_ok (s :: hist) cs'.
Proof.
  intros [Hu Ho] Hn Hs E. apply open_new_some in E as (l1 & c & l2 & -> & -> & Ha). set (c' := mkConn true _ _ _ _ _ _).
  assert (Hkey : same_conn s (conn_key c')) by (left; done). split.
  - apply (flows_unique_change _ c); [done|]. intros _. right. intros d Hd Hda Hsd. eapply update_known_none; [exact Hn|exact Hd|exact Hda|].
    eapply same_conn_trans; [exact Hkey|exact Hsd].
  - intros d Hd Hda. apply (elem_of_middle _ _ c) in Hd as [->|Hd].
    + exists [], s, hist. split; [done|]. split; [done|]. split; [done|]. constructor.
    + apply opened_cons; [by apply Ho|]. intros Hsd. exfalso. by eapply update_known_none.
Qed.

Lemma conn_tick_key now c : conn_key (conn_tick now c) = conn_key c.
Proof. unfold conn_tick. by destruct (_ && _). Qed.

Lemma conn_tick_active now c : c_active (conn_tick now c) = true -> c_active c = true.
Proof. unfold conn_tick. destruct (c_active c) eqn:E; [done|]. cbn [andb]. congruence. Qed.

Lemma tick_ok now hist cs : conns_ok hist cs -> conns_ok hist (inspector_tick now cs).
Proof.
  intros [Hu Ho]. unfold inspector_tick. split.
  - intros i j c d. rewrite !list_lookup_fmap. destruct (cs !! i) as [c0|] eqn:Ei, (cs !! j) as [d0|] eqn:Ej; cbn; try done. intros [= <-] [= <-] Hc%conn_tick_active Hd%conn_tick_active.
    rewrite !conn_tick_key. by eapply Hu.
  - intros c (c0 & -> & Hc)%list_elem_of_fmap Ha%conn_tick_active. eapply opened_key; [symmetry; apply conn_tick_key|]. by apply Ho.
Qed.

Lemma inspect_ok now s cs hist :
  conns_ok hist cs -> let (b, cs') := inspect now s cs in conns_ok (if b then s :: hist else hist) cs'.
Proof.
  intros Hok. unfold inspect. destruct (update_known now s cs) as [cs1|] eqn:E1; [by eapply inspect_known|].
  destruct (is_syn s && negb (is_ack s)) eqn:E2; [|done]. destruct (open_new now s cs) as [cs1|] eqn:E3; [|done]. eapply inspect_new; try done.
  apply andb_true_iff in E2 as [H1 H2]. split; [done|]. by destruct (is_ack s).
Qed.

(** A segment that is no opening is accepted only for an active flow. *)
Lemma inspect_accepts now s cs hist :
  conns_ok hist cs -> (inspect now s cs).1 = true -> ~ opening s ->
  exists h1 s0 h2, hist = h1 ++ s0 :: h2 /\ opening s0 /\ same_conn s0 s /\ Forall (fun t => same_conn t s -> is_rst t = false) h1.
Proof.
  intros [Hu Ho] Hacc Hn. unfold inspect in Hacc. destruct (update_known now s cs) as [cs1|] eqn:E1.
  - apply update_known_some in E1 as (l1 & c & l2 & -> & _ & Ha & Hs). destruct (Ho c ltac:(set_solver) Ha) as (h1 & s0 & h2 & -> & H1 & H2 & H3).
    exists h1, s0, h2. split; [done|]. split; [done|]. split; [eapply same_conn_trans; [exact H2|by apply same_conn_sym]|].
    eapply Forall_impl; [exact H3|]. intros t Ht Hts. apply Ht. by eapply same_conn_trans.
  - destruct (is_syn s && negb (is_ack s)) eqn:E2; [|done]. destruct Hn. apply andb_true_iff in E2 as [H1 H2]. split; [done|]. by destruct (is_ack s).
Qed.

(** * Hosts *)

(** The counters of an address. *)
Fixpoint stats_of (ip : Z) (hs : list HostStats) : option HostStats :=
  match hs with
  | [] => None
  | h :: hs => if ho_active h && (ho_src_ip h =? ip) then Some h else stats_of ip hs
  end.

Section Stats.
Context {A : Type} (f : HostStats -> A * HostStats) (Hf : forall h, ho_active (f h).2 = ho_active h /\ ho_src_ip (f h).2 = ho_src_ip h).

Lemma at_known_spec ip now hs :
  match stats_of ip hs with
  | Some h => exists hs', at_known f ip now hs = Some ((f (set_ho_last now h)).1, hs') /\ stats_of ip hs' = Some (f (set_ho_last now h)).2 /\
                (forall ip', ip' <> ip -> stats_of ip' hs' = stats_of ip' hs)
  | None => at_known f ip now hs = None
  end.
Proof.
  induction hs as [|h hs IH]; cbn [stats_of at_known]; [done|]. destruct (ho_active h && (ho_src_ip h =? ip)) eqn:E.
  - pose proof (Hf (set_ho_last now h)) as [H1 H2]. destruct (f (set_ho_last now h)) as [a h']. cbn [fst snd] in *. eexists. split; [done|]. cbn [stats_of].
    rewrite H1, H2. cbn [ho_active ho_src_ip set_ho_last]. rewrite E. split; [done|]. intros ip' Hne. apply andb_true_iff in E as [-> ->%Z.eqb_eq].
    destruct (Z.eqb_spec ip ip'); [congruence|done].
  - destruct (stats_of ip hs) as [h0|]; [|by rewrite IH]. destruct IH as (hs' & -> & H1 & H2). eexists. split; [done|]. cbn [stats_of]. rewrite E.
    split; [done|]. intros ip' Hne. destruct (ho_active h && (ho_src_ip h =? ip')); [done|by apply H2].
Qed.

Lemma at_free_spec ip now hs :
  stats_of ip hs = None ->
  match at_free f ip now hs with
  | Some (a, hs') => a = (f (mkHost true ip 0 0 0 0 now)).1 /\ stats_of ip hs' = Some (f (mkHost true ip 0 0 0 0 now)).2 /\
      (forall ip', ip' <> ip -> stats_of ip' hs' = stats_of ip' hs)
  | None => Forall (fun h => ho_active h = true) hs
  end.
Proof.
  induction hs as [|h hs IH]; cbn [stats_of at_free]; [constructor|]. destruct (ho_active h) eqn:Ea; cbn [negb andb].
  - destruct (ho_src_ip h =? ip) eqn:Ei; [done|]. intros Hn. specialize (IH Hn). destruct (at_free f ip now hs) as [[a hs']|]; [|by constructor].
    destruct IH as (-> & H1 & H2). split; [done|]. cbn [stats_of]. rewrite Ea, Ei. split; [done|]. intros ip' Hne.
    cbn [andb]. destruct (ho_src_ip h =? ip'); [done|by apply H2].
  - intros Hn. pose proof (Hf (mkHost true ip 0 0 0 0 now)) as [H1 H2]. destruct (f _) as [a h']. cbn [fst snd] in *. split; [done|]. cbn [stats_of]. rewrite H1, H2, Z.eqb_refl.
    split; [done|]. intros ip' Hne. cbn. destruct (Z.eqb_spec ip ip'); [congruence|done].
Qed.

(** [get_or_create_stats] as a lookup in the map, which fails only when every entry
    belongs to some other host. *)
Lemma at_stats_spec ip now hs :
  match at_stats f ip now hs with
  | Some (a, hs') =>
      let h := match stats_of ip hs with Some h => set_ho_last now h | None => mkHost true ip 0 0 0 0 now end in
      a = (f h).1 /\ stats_of ip hs' = Some (f h).2 /\ (forall ip', ip' <> ip -> stats_of ip' hs' = stats_of ip' hs)
  | None => stats_of ip hs = None /\ Forall (fun h => ho_active h = true) hs
  end.
Proof.
  unfold at_stats. pose proof (at_known_spec ip now hs) as Hk. destruct (stats_of ip hs) as [h|] eqn:E.
  - destruct Hk as (hs' & -> & H1 & H2). done.
  - rewrite Hk. pose proof (at_free_spec ip now hs E) as Hfr. destruct (at_free f ip now hs) as [[a hs']|]; [|done]. done.
Qed.
End Stats.

Lemma judge_frame packet len h : ho_active (judge packet len h).2 = ho_active h /\ ho_src_ip (judge packet len h).2 = ho_src_ip h.
Proof. unfold judge. repeat case_match; done. Qed.

(** Whether [shape] looks at a packet. *)
Definition shaped (packet : list Z) (len : Z) : bool := (34 <=? len) && (eth_type packet =? 0x0800).

Lemma shape_spec now packet len hs :
  let '(pass, anomaly, hs') := shape now packet len hs in
  let ip := pkt_src_ip packet in
  if shaped packet len && (bool_decide (is_Some (stats_of ip hs)) || existsb (fun h => negb (ho_active h)) hs) then
    let h := match stats_of ip hs with Some h => set_ho_last now h | None => mkHost true ip 0 0 0 0 now end in
    anomaly = (judge packet len h).1 /\ pass = bool_decide (anomaly = None) /\
    stats_of ip hs' = Some (judge packet len h).2 /\ (forall ip', ip' <> ip -> stats_of ip' hs' = stats_of ip' hs)
  else pass = true /\ anomaly = None /\ hs' = hs.
Proof.
  unfold shape, shaped. rewrite (Z.leb_antisym len 34). destruct (len <? 34); cbn [negb andb]; [done|]. destruct (eth_type packet =? 2048); cbn [negb andb]; [|done].
  pose proof (at_stats_spec (judge packet len) (judge_frame packet len) (pkt_src_ip packet) now hs) as Hs.
  destruct (at_stats (judge packet len) (pkt_src_ip packet) now hs) as [[a hs']|] eqn:Ea.
  - assert (Hroom : bool_decide (is_Some (stats_of (pkt_src_ip packet) hs)) || existsb (fun h => negb (ho_active h)) hs = true).
    { destruct (stats_of (pkt_src_ip packet) hs) as [h0|] eqn:E0; [done|]. cbn [orb]. apply existsb_exists.
      unfold at_stats in Ea. pose proof (at_known_spec (judge packet len) (judge_frame packet len) (pkt_src_ip packet) now hs) as Hk. rewrite E0 in Hk. rewrite Hk in Ea.
      clear - Ea. revert hs' Ea. induction hs as [|h hs IH]; intros hs'; cbn [at_free]; [done|]. destruct (ho_active h) eqn:Eh; cbn [negb].
      - destruct (at_free _ _ _ hs) as [[a' hs1]|]; [|done]. intros [= -> _]. destruct (IH hs1 eq_refl) as (x & Hx & Hn). exists x. split; [by right|done].
      - intros _. exists h. split; [by left|by rewrite Eh]. }
    rewrite Hroom. cbn zeta in Hs. destruct Hs as (-> & H1 & H2). destruct (judge packet len _).1 eqn:Ej; (split; [done|]); split; done.
  - destruct Hs as [-> Hall]. replace (existsb _ hs) with false; [done|]. symmetry. apply not_true_is_false. intros (h & Hh & Hn)%existsb_exists.
    rewrite Forall_forall in Hall. rewrite (Hall h) in Hn by (by apply list_elem_of_In). done.
Qed.
