(* ===== verification/RamFs.v ===== *)
(** The memory file (vfs/ramfs.cpp), in the build with dynamic allocation: a buffer
    that grows by doubling, and its refinement to a list of bytes.

    [alloc n] tells whether [new char[n]] succeeds; sizes are [int]s whose bounds the
    invariant keeps. *)
From S2P Require Import Prelude.

Record RamFile := mkRamFile { data_ : option (list Z); capacity_ : Z; file_size_ : Z }.

Definition kRamFileMaxCapacity : Z := 1073741824.

(** [memcpy(dst + offset, src, n)] on a buffer. *)
Definition blit (dst : list Z) (offset : Z) (src : list Z) : list Z :=
  take (Z.to_nat offset) dst ++ src ++ drop (Z.to_nat offset + length src) dst.

(** [memset(dst + offset, 0, n)] *)
Definition zero_from (dst : list Z) (offset n : Z) : list Z := blit dst offset (replicate (Z.to_nat n) 0).

Section Ram.
Variable alloc : Z -> bool.

Definition ramfile_ctor (capacity : Z) : RamFile :=
  if alloc capacity then mkRamFile (Some (replicate (Z.to_nat capacity) 0)) capacity 0 else mkRamFile None 0 0.

Definition ram_read (len offset : Z) (f : RamFile) : Z * list Z :=
  match data_ f with
  | None => (0, [])
  | Some data =>
      if file_size_ f <=? offset then (0, []) else
      let bytes_to_read := if file_size_ f - offset <? len then file_size_ f - offset else len in
      (bytes_to_read, take (Z.to_nat bytes_to_read) (drop (Z.to_nat offset) data))
  end.

(** [while (new_capacity < required_capacity) new_capacity *= 2] *)
Fixpoint double_until (fuel : nat) (new_capacity required : Z) : Z :=
  match fuel with
  | O => new_capacity
  | S fuel => if new_capacity <? required then double_until fuel (new_capacity * 2) required else new_capacity
  end.

(** The rounds that suffice below 1 GB. *)
Definition double_fuel : nat := 31.

(** The bytes of the new buffer that are neither copied nor cleared are arbitrary. *)
Definition grow (fresh : Z -> list Z) (new_capacity : Z) (f : RamFile) : RamFile :=
  let new_data := fresh new_capacity in
  let new_data := match data_ f with
                  | Some data =>
                      let copy_bytes := if file_size_ f <? capacity_ f then file_size_ f else capacity_ f in
                      blit new_data 0 (take (Z.to_nat copy_bytes) data)
                  | None => new_data
                  end in
  mkRamFile (Some (zero_from new_data (file_size_ f) (new_capacity - file_size_ f))) new_capacity (file_size_ f).

(** The capacity part of [write]: the file and the number of bytes to write, [None]
    when nothing can be written. *)
Definition make_room (fresh : Z -> list Z) (len offset : Z) (f : RamFile) : option (Z * RamFile) :=
  let truncated := if capacity_ f <=? offset then None else Some (capacity_ f - offset, f) in
  let required_capacity := offset + len in
  if (required_capacity <? 0) || (kRamFileMaxCapacity <? required_capacity) then truncated
  else if capacity_ f <? required_capacity then
    let new_capacity := double_until double_fuel (if capacity_ f =? 0 then 512 else capacity_ f * 2) required_capacity in
    if alloc new_capacity then Some (len, grow fresh new_capacity f) else truncated
  else Some (len, f).

Definition ram_write (fresh : Z -> list Z) (buf : list Z) (len offset : Z) (f : RamFile) : Z * RamFile :=
  match make_room fresh len offset f with
  | None => (0, f)
  | Some (bytes_to_write, f) =>
      match data_ f with
      | None => (0, f)
      | Some data =>
          let data := blit data offset (take (Z.to_nat bytes_to_write) buf) in
          (bytes_to_write, mkRamFile (Some data) (capacity_ f) (if file_size_ f <? offset + bytes_to_write then offset + bytes_to_write else file_size_ f))
      end
  end.
End Ram.

Definition ram_truncate (new_size : Z) (f : RamFile) : Z * RamFile :=
  if new_size <? 0 then (-1, f)
  else if new_size <? file_size_ f then
    (0, mkRamFile (match data_ f with Some data => Some (zero_from data new_size (capacity_ f - new_size)) | None => None end) (capacity_ f) new_size)
  else (0, f).

Definition ram_clear (f : RamFile) : RamFile :=
  mkRamFile (match data_ f with
             | Some data => if 0 <? capacity_ f then Some (zero_from data 0 (capacity_ f)) else Some data
             | None => None
             end) (capacity_ f) 0.

(** * The file as a list of bytes *)

(** Bytes up to [n], with zeros behind the end. *)
Definition extend (n : Z) (content : list Z) : list Z := content ++ replicate (Z.to_nat n - length content) 0.

Definition spec_read (len offset : Z) (content : list Z) : list Z := take (Z.to_nat len) (drop (Z.to_nat offset) content).
Definition spec_write (bytes : list Z) (offset : Z) (content : list Z) : list Z := blit (extend offset content) offset bytes.

(** The buffer is the content followed by zeros. *)
Record ram_ok (content : list Z) (f : RamFile) : Prop := {
  rf_size : file_size_ f = Z.of_nat (length content);
  rf_cap : file_size_ f <= capacity_ f < 2147483648;
  rf_data : match data_ f with
            | Some data => data = content ++ replicate (Z.to_nat (capacity_ f - file_size_ f)) 0
            | None => capacity_ f = 0
            end;
}.

Lemma ramfile_ctor_ok alloc capacity : 0 <= capacity < 2147483648 -> ram_ok [] (ramfile_ctor alloc capacity).
Proof. intros Hc. unfold ramfile_ctor. destruct (alloc capacity); split; cbn; try done; try lia. by rewrite Z.sub_0_r. Qed.

(** ** Reading *)

Lemma ram_read_ok content f len offset :
  ram_ok content f -> 0 <= offset -> 0 <= len ->
  ram_read len offset f = (Z.of_nat (length (spec_read len offset content)), spec_read len offset content).
Proof.
  intros [Hs Hc Hd] Ho Hl. unfold ram_read, spec_read. rewrite length_take, length_drop. destruct (data_ f) as [data|].
  - subst data. destruct (Z.leb_spec (file_size_ f) offset).
    + rewrite drop_ge, take_nil by lia. f_equal. lia.
    + set (n := if file_size_ f - offset <? len then file_size_ f - offset else len).
      assert (Hn : n = Z.min len (file_size_ f - offset)) by (unfold n; destruct (Z.ltb_spec (file_size_ f - offset) len); lia). f_equal; [lia|].
      rewrite drop_app_le, take_app_le by (rewrite ?length_drop; lia).
      rewrite Hn. destruct (Z.le_gt_cases len (file_size_ f - offset)); [by rewrite Z.min_l by lia|]. rewrite !take_ge; [done|rewrite length_drop; lia|rewrite length_drop; lia].
  - assert (content = []) as -> by (apply nil_length_inv; lia). rewrite drop_nil, take_nil. f_equal. cbn. lia.
Qed.

(** ** Writing *)

Lemma double_until_spec fuel c required :
  0 < c -> required <= c * 2 ^ Z.of_nat fuel -> required <= double_until fuel c required /\ (double_until fuel c required = c \/ double_until fuel c required < 2 * required).
Proof.
  revert c. induction fuel as [|fuel IH]; intros c Hc Hr; cbn [double_until]; [cbn in Hr; lia|]. rewrite Nat2Z.inj_succ, Z.pow_succ_r in Hr by lia.
  destruct (Z.ltb_spec c required); [|lia]. destruct (IH (c * 2) ltac:(lia) ltac:(lia)) as [H1 H2]. lia.
Qed.

(** The doubling ends above the required size and within an [int]. *)
Lemma new_capacity_ok cap required :
  0 <= cap < required -> required <= kRamFileMaxCapacity ->
  let n := double_until double_fuel (if cap =? 0 then 512 else cap * 2) required in required <= n < 2147483648.
Proof.
  unfold kRamFileMaxCapacity, double_fuel. intros Hc Hr. cbv zeta. set (c := if cap =? 0 then 512 else cap * 2).
  assert (Hc0 : 2 <= c < 2147483648) by (unfold c; destruct (Z.eqb_spec cap 0); lia).
  destruct (double_until_spec 31 c required ltac:(lia)) as [H1 H2]; [change (2 ^ Z.of_nat 31) with 2147483648; lia|]. lia.
Qed.

Lemma ram_grow_ok fresh content f n :
  ram_ok content f -> file_size_ f <= n < 2147483648 -> length (fresh n) = Z.to_nat n ->
  ram_ok content (grow fresh n f) /\ capacity_ (grow fresh n f) = n /\ is_Some (data_ (grow fresh n f)).
Proof.
  intros [Hs Hc Hd] Hn Hf. split; [|split; [done|by eexists]]. split; [done|done|]. cbn [data_ capacity_ file_size_ grow]. unfold zero_from.
  assert (Hpre : forall l, length l = Z.to_nat n -> take (Z.to_nat (file_size_ f)) l = content -> blit l (file_size_ f) (replicate (Z.to_nat (n - file_size_ f)) 0) = content ++ replicate (Z.to_nat (n - file_size_ f)) 0).
  { intros l Hl Ht. unfold blit. rewrite Ht, drop_ge by (rewrite length_replicate; lia). by rewrite app_nil_r. }
  destruct (data_ f) as [data|].
  - subst data. replace (if file_size_ f <? capacity_ f then file_size_ f else capacity_ f) with (file_size_ f) by (destruct (Z.ltb_spec (file_size_ f) (capacity_ f)); lia).
    assert (Et : take (Z.to_nat (file_size_ f)) (content ++ replicate (Z.to_nat (capacity_ f - file_size_ f)) 0) = content) by (rewrite take_app_le, take_ge by lia; done).
    rewrite Et. apply Hpre; unfold blit; cbn [Z.to_nat take app].
    + change (Z.to_nat 0) with 0%nat. rewrite take_0, !length_app, length_drop. cbn [length]. lia.
    + change (Z.to_nat 0) with 0%nat. rewrite take_0. cbn [app]. rewrite take_app_le, take_ge by lia. done.
  - apply Hpre; [done|]. assert (content = []) as -> by (apply nil_length_inv; lia). rewrite Hs. done.
Qed.

(** Writing [w] inside the capacity. *)
Lemma blit_content content w offset cap :
  0 <= offset -> Z.of_nat (length content) <= cap -> offset + Z.of_nat (length w) <= cap ->
  blit (content ++ replicate (Z.to_nat (cap - Z.of_nat (length content))) 0) offset w =
  spec_write w offset content ++ replicate (Z.to_nat (cap - Z.of_nat (length (spec_write w offset content)))) 0 /\
  Z.of_nat (length (spec_write w offset content)) = Z.max (Z.of_nat (length content)) (offset + Z.of_nat (length w)).
Proof.
  intros Ho Hc Hw. unfold spec_write, blit, extend.
  assert (Hlen : Z.of_nat (length (take (Z.to_nat offset) (content ++ replicate (Z.to_nat offset - length content) 0) ++ w ++
    drop (Z.to_nat offset + length w) (content ++ replicate (Z.to_nat offset - length content) 0))) = Z.max (Z.of_nat (length content)) (offset + Z.of_nat (length w))).
  { rewrite !length_app, length_take, length_drop, !length_app, !length_replicate. lia. }
  split; [|done]. rewrite Hlen, <- !app_assoc. f_equal.
  - rewrite !take_app, !take_replicate. f_equal. f_equal. lia.
  - f_equal. rewrite !drop_app, !drop_replicate, <- app_assoc. f_equal. rewrite <- replicate_add. f_equal. lia.
Qed.

(** Every [new] succeeds.  Without it a write that cannot grow the buffer takes only the
    bytes that fit: see [accepts]. *)
Definition whole_alloc (alloc : Z -> bool) : Prop := forall n, alloc n = true.

(** A write of all bytes, of the part that fits, or of nothing. *)
Lemma ram_write_ok alloc fresh content f buf offset :
  ram_ok content f -> 0 <= offset -> offset + Z.of_nat (length buf) <= kRamFileMaxCapacity -> (forall n, length (fresh n) = Z.to_nat n) ->
  let '(n, f') := ram_write alloc fresh buf (Z.of_nat (length buf)) offset f in
  (n = 0 /\ ram_ok content f' \/ 0 <= n <= Z.of_nat (length buf) /\ ram_ok (spec_write (take (Z.to_nat n) buf) offset content) f') /\
  (whole_alloc alloc -> 0 < offset + Z.of_nat (length buf) -> n = Z.of_nat (length buf) /\ ram_ok (spec_write buf offset content) f').
Proof.
  intros Hok Ho Hmax Hf. unfold ram_write, make_room. pose proof Hok as [Hs Hc Hd]. set (len := Z.of_nat (length buf)) in *.
  destruct (Z.ltb_spec (offset + len) 0); [lia|]. destruct (Z.ltb_spec kRamFileMaxCapacity (offset + len)); [lia|]. cbn [orb].
  assert (Hput : forall g n, ram_ok content g -> offset + n <= capacity_ g -> 0 <= n <= len -> is_Some (data_ g) ->
    let '(n', f') := match data_ g with
      | None => (0, g)
      | Some data => (n, mkRamFile (Some (blit data offset (take (Z.to_nat n) buf))) (capacity_ g) (if file_size_ g <? offset + n then offset + n else file_size_ g))
      end in n' = n /\ ram_ok (spec_write (take (Z.to_nat n) buf) offset content) f').
  { intros g n [Gs Gc Gd] Hn Hl [data Edata]. rewrite Edata in *. subst data. split; [done|]. rewrite Gs.
    assert (Hw : Z.of_nat (length (take (Z.to_nat n) buf)) = n) by (rewrite length_take; lia).
    destruct (blit_content content (take (Z.to_nat n) buf) offset (capacity_ g)) as [E1 E2]; [lia|lia|lia|].
    assert (Esz : (if Z.of_nat (length content) <? offset + n then offset + n else Z.of_nat (length content)) = Z.of_nat (length (spec_write (take (Z.to_nat n) buf) offset content))).
    { rewrite E2, Hw. destruct (Z.ltb_spec (Z.of_nat (length content)) (offset + n)); lia. }
    rewrite Esz. split; cbn [file_size_ capacity_ data_]; [done|lia|exact E1]. }
  destruct (Z.ltb_spec (capacity_ f) (offset + len)) as [Hbig|Hfit].
  - pose proof (new_capacity_ok (capacity_ f) (offset + len) ltac:(lia) Hmax) as Hn. cbv zeta in Hn. set (nc := double_until _ _ _) in *. destruct (alloc nc) eqn:Ea.
    + destruct (ram_grow_ok fresh content f nc Hok ltac:(lia) (Hf nc)) as (G1 & G2 & G3). specialize (Hput (grow fresh nc f) len G1 ltac:(lia) ltac:(lia) G3).
      destruct (data_ (grow fresh nc f)); [|by destruct G3]. destruct Hput as [_ Hput]. rewrite take_ge in Hput by lia.
      split; [right; split; [lia|]; by rewrite take_ge by lia|]. intros _ _. split; [done|]. by rewrite take_ge by lia.
    + assert (Hno : ~ whole_alloc alloc) by (intros Hw; rewrite Hw in Ea; done).
      destruct (Z.leb_spec (capacity_ f) offset); [split; [by left|done]|]. assert (Hdat : is_Some (data_ f)) by (destruct (data_ f); [by eexists|lia]).
      specialize (Hput f (capacity_ f - offset) Hok ltac:(lia) ltac:(lia) Hdat). destruct (data_ f); [|by destruct Hdat].
      destruct Hput as [_ Hput]. split; [right; split; [lia|done]|done].
  - destruct (decide (is_Some (data_ f))) as [Hdat|Hnone].
    + specialize (Hput f len Hok ltac:(lia) ltac:(lia) Hdat). destruct (data_ f); [|by destruct Hdat]. destruct Hput as [_ Hput]. rewrite take_ge in Hput by lia.
      split; [right; split; [lia|]; by rewrite take_ge by lia|]. intros _ _. split; [done|]. by rewrite take_ge by lia.
    + destruct (data_ f) as [data|] eqn:Ed; [by destruct Hnone|]. split; [by left|]. lia.
Qed.

Lemma ram_truncate_ok content f n :
  ram_ok content f -> 0 <= n -> (ram_truncate n f).1 = 0 /\ ram_ok (take (Z.to_nat n) content) (ram_truncate n f).2.
Proof.
  intros [Hs Hc Hd] Hn. unfold ram_truncate. destruct (Z.ltb_spec n 0); [lia|]. destruct (Z.ltb_spec n (file_size_ f)); cbn [fst snd].
  - split; [done|]. assert (Hl : length (take (Z.to_nat n) content) = Z.to_nat n) by (rewrite length_take; lia). split; cbn [file_size_ capacity_ data_]; [lia|lia|].
    destruct (data_ f) as [data|]; [|done]. subst data. unfold zero_from, blit. rewrite take_app_le by lia. f_equal.
    rewrite drop_ge, app_nil_r; [done|]. rewrite length_app, !length_replicate. lia.
  - split; [done|]. rewrite take_ge by lia. by split.
Qed.

Lemma ram_clear_ok content f : ram_ok content f -> ram_ok [] (ram_clear f).
Proof.
  intros [Hs Hc Hd]. split; cbn [file_size_ capacity_ data_ ram_clear]; [done|lia|]. destruct (data_ f) as [data|]; [|done]. subst data. rewrite Z.sub_0_r.
  destruct (Z.ltb_spec 0 (capacity_ f)); [unfold zero_from, blit; cbn; rewrite drop_ge, app_nil_r; [done|]; rewrite length_app, !length_replicate; lia|].
  assert (content = []) as -> by (apply nil_length_inv; lia). cbn. f_equal. lia.
Qed.

(** * Sequences of operations *)

Inductive RamOp := OpRead (len offset : Z) | OpWrite (bytes : list Z) (offset : Z) | OpTruncate (n : Z) | OpClear.

(** What the caller sees: the status and the bytes read. *)
Definition ram_op alloc fresh (op : RamOp) (f : RamFile) : Z * list Z * RamFile :=
  match op with
  | OpRead len offset => (ram_read len offset f, f)
  | OpWrite bytes offset => let (n, f) := ram_write alloc fresh bytes (Z.of_nat (length bytes)) offset f in (n, [], f)
  | OpTruncate n => let (r, f) := ram_truncate n f in (r, [], f)
  | OpClear => (0, [], ram_clear f)
  end.

Definition spec_op (op : RamOp) (c : list Z) : Z * list Z * list Z :=
  match op with
  | OpRead len offset => (Z.of_nat (length (spec_read len offset c)), spec_read len offset c, c)
  | OpWrite bytes offset => (Z.of_nat (length bytes), [], spec_write bytes offset c)
  | OpTruncate n => if n <? 0 then (-1, [], c) else (0, [], take (Z.to_nat n) c)
  | OpClear => (0, [], [])
  end.

Fixpoint run_ops {S} (step : RamOp -> S -> Z * list Z * S) (ops : list RamOp) (s : S) : list (Z * list Z) * S :=
  match ops with
  | [] => ([], s)
  | op :: ops => let '(r, d, s) := step op s in let (rs, s) := run_ops step ops s in ((r, d) :: rs, s)
  end.

(** The operations a caller may ask for: positive lengths and offsets below 1 GB. *)
Definition op_ok (op : RamOp) : Prop :=
  match op with
  | OpRead len offset => 0 <= len /\ 0 <= offset
  | OpWrite bytes offset => 0 <= offset /\ offset + Z.of_nat (length bytes) <= kRamFileMaxCapacity
  | _ => True
  end.

Lemma spec_write_nil c : spec_write [] 0 c = c.
Proof. unfold spec_write, blit, extend. cbn [Z.to_nat Nat.sub replicate length Nat.add app]. by rewrite app_nil_r, take_0, drop_0. Qed.

Lemma ram_op_ok alloc fresh op c f :
  ram_ok c f -> op_ok op -> whole_alloc alloc -> (forall n, length (fresh n) = Z.to_nat n) ->
  (ram_op alloc fresh op f).1 = (spec_op op c).1 /\ ram_ok (spec_op op c).2 (ram_op alloc fresh op f).2.
Proof.
  intros Hok Hop Ha Hf. destruct op as [len offset|bytes offset|n|]; cbn [ram_op spec_op op_ok fst snd] in *.
  - split; [|done]. apply ram_read_ok; tauto.
  - destruct Hop as [Ho Hm]. pose proof (ram_write_ok alloc fresh c f bytes offset Hok Ho Hm Hf) as Hw. destruct (ram_write _ _ _ _ _ _) as [n f']. destruct Hw as [Hany Hall].
    cbn [fst snd]. destruct (Z.lt_ge_cases 0 (offset + Z.of_nat (length bytes))) as [Hpos|Hz]; [by destruct (Hall Ha Hpos) as [-> ?]|].
    assert (offset = 0) as -> by lia. assert (bytes = []) as -> by (apply nil_length_inv; lia). rewrite take_nil in Hany. rewrite spec_write_nil in *.
    destruct Hany as [[-> ?]|[? ?]]; [done|]. cbn in *. by replace n with 0 by lia.
  - destruct (Z.ltb_spec n 0) as [Hn|Hn]; cbn [fst snd]; [unfold ram_truncate; rewrite (proj2 (Z.ltb_lt n 0) Hn); done|].
    destruct (ram_truncate_ok c f n Hok Hn) as [E1 E2]. destruct (ram_truncate n f). cbn [fst snd] in *. by subst.
  - split; [done|]. by apply (ram_clear_ok c).
Qed.

Lemma run_ops_ok alloc fresh ops c f :
  ram_ok c f -> Forall op_ok ops -> whole_alloc alloc -> (forall n, length (fresh n) = Z.to_nat n) ->
  (run_ops (ram_op alloc fresh) ops f).1 = (run_ops spec_op ops c).1 /\ ram_ok (run_ops spec_op ops c).2 (run_ops (ram_op alloc fresh) ops f).2.
Proof.
  intros Hok Hops Ha Hf. revert c f Hok. induction Hops as [|op ops Hop _ IH]; intros c f Hok; cbn [run_ops]; [done|].
  destruct (ram_op_ok alloc fresh op c f Hok Hop Ha Hf) as [E1 E2]. destruct (ram_op alloc fresh op f) as [[r d] f'], (spec_op op c) as [[r' d'] c']. cbn [fst snd] in *.
  injection E1 as -> ->. destruct (IH c' f' E2) as [E3 E4]. destruct (run_ops _ ops f') as [rs f''], (run_ops spec_op ops c') as [rs' c'']. cbn [fst snd] in *. by subst.
Qed.

(** ** When an allocation may fail *)

(** What a caller may see: a write takes a prefix of its bytes, or nothing. *)
Definition accepts (op : RamOp) (r : Z) (d c c' : list Z) : Prop :=
  match op with
  | OpWrite bytes offset =>
      d = [] /\ (r = 0 /\ c' = c \/ 0 <= r <= Z.of_nat (length bytes) /\ c' = spec_write (take (Z.to_nat r) bytes) offset c)
  | _ => (r, d, c') = spec_op op c
  end.

Fixpoint all_accepted (ops : list RamOp) (rs : list (Z * list Z)) (c c' : list Z) : Prop :=
  match ops, rs with
  | [], [] => c' = c
  | op :: ops, (r, d) :: rs => exists c1, accepts op r d c c1 /\ all_accepted ops rs c1 c'
  | _, _ => False
  end.

Lemma ram_op_accepts alloc fresh op c f :
  ram_ok c f -> op_ok op -> (forall n, length (fresh n) = Z.to_nat n) ->
  let '(r, d, f') := ram_op alloc fresh op f in exists c', accepts op r d c c' /\ ram_ok c' f'.
Proof.
  intros Hok Hop Hf. destruct op as [len offset|bytes offset|n|]; cbn [ram_op accepts spec_op op_ok] in *.
  - rewrite (ram_read_ok c) by tauto. by exists c.
  - destruct Hop as [Ho Hm]. pose proof (ram_write_ok alloc fresh c f bytes offset Hok Ho Hm Hf) as Hw. destruct (ram_write _ _ _ _ _ _) as [n f'].
    destruct Hw as [[[-> ?]|[? ?]] _]; [exists c; split; [split; [done|by left]|done]|eexists; split; [split; [done|right; split; done]|done]].
  - destruct (Z.ltb_spec n 0) as [Hn|Hn]; [unfold ram_truncate; rewrite (proj2 (Z.ltb_lt n 0) Hn); by exists c|].
    destruct (ram_truncate_ok c f n Hok Hn) as [E1 E2]. destruct (ram_truncate n f). cbn [fst snd] in *. subst. by eexists.
  - exists []. split; [done|]. by apply (ram_clear_ok c).
Qed.

Lemma run_ops_accepted alloc fresh ops c f :
  ram_ok c f -> Forall op_ok ops -> (forall n, length (fresh n) = Z.to_nat n) ->
  let (rs, f') := run_ops (ram_op alloc fresh) ops f in exists c', all_accepted ops rs c c' /\ ram_ok c' f'.
Proof.
  intros Hok Hops Hf. revert c f Hok. induction Hops as [|op ops Hop _ IH]; intros c f Hok; cbn [run_ops]; [by exists c|].
  pose proof (ram_op_accepts alloc fresh op c f Hok Hop Hf) as H1. destruct (ram_op alloc fresh op f) as [[r d] f1]. destruct H1 as (c1 & H1 & Hok1).
  specialize (IH c1 f1 Hok1). destruct (run_ops _ ops f1) as [rs f2]. destruct IH as (c2 & H2 & Hok2). exists c2. split; [|done]. by exists c1.
Qed.
