(* ===== verification/Vfs.v ===== *)
(** The virtual file system: the server (services/vfs/vfs_service.cpp) with its mount
    and descriptor tables over the interface [VNode] (vfs/vfs.hpp), and the client
    side [VfsManager] (vfs/vfs.cpp).

    The interface is a type class over the state [W] of the file systems; a [VNode*]
    is a number (0 for null), [priv] a value the node gave on opening.  Paths are C
    strings; lengths given to [write] are not negative and offsets do not overflow. *)
From S2P Require Import Prelude Text.

(** * The interface *)

Class VNode (W : Type) := {
  open_file : Z -> list Z -> Z -> W -> Z * Z * W;          (* vnode, path, flags: status, priv *)
  close_file : Z -> Z -> W -> Z * W;                       (* vnode, priv *)
  vn_read : Z -> Z -> Z -> Z -> W -> Z * list Z * W;       (* vnode, len, offset, priv: status, data *)
  vn_write : Z -> list Z -> Z -> Z -> Z -> W -> Z * W;     (* vnode, data, len, offset, priv *)
  vn_ioctl : Z -> Z -> Z -> Z -> W -> Z * W;               (* vnode, request, arg, priv *)
  vn_get_size : Z -> Z -> W -> Z;
}.

(** * Data *)

Record MountPoint := mkMount { mnt_path : list Z; mnt_vnode : Z }.
Record FileDescriptor := mkFd { fd_vnode : Z; fd_offset : Z; fd_used : bool; fd_priv : Z; fd_ref_count : Z }.

#[export] Instance MountPoint_inhabited : Inhabited MountPoint := populate (mkMount [0] 0).
#[export] Instance FileDescriptor_inhabited : Inhabited FileDescriptor := populate (mkFd 0 0 false 0 0).

Definition MAX_MOUNT_POINTS : Z := 16.
Definition MAX_OPEN_FILES : Z := 16.
Definition VFS_IPC_BUFFER_SIZE : Z := 1024.

Record VfsServer := mkVfs { mounts_ : list MountPoint; mount_count_ : Z; fd_table_ : list FileDescriptor }.

Definition set_mounts ms n v := mkVfs ms n (fd_table_ v).
Definition set_fds t v := mkVfs (mounts_ v) (mount_count_ v) t.
Definition upd_fd (fd : Z) (f : FileDescriptor -> FileDescriptor) (v : VfsServer) : VfsServer := set_fds (zalter f fd (fd_table_ v)) v.

Definition vfs_ctor : VfsServer := mkVfs (replicate 16 inhabitant) 0 (replicate 16 inhabitant).

(** * Strings *)

Fixpoint list_equal (a b : list Z) : bool :=
  match a, b with
  | x :: a, y :: b => (x =? y) && list_equal a b
  | [], [] => true
  | _, _ => false
  end.

Definition strings_equal (s1 s2 : list Z) : bool := list_equal (cstr s1) (cstr s2).

Definition str_copy (src : list Z) (max_len : nat) : list Z := take (max_len - 1) (cstr src) ++ [0].

(** The length of [prefix], or 0 when [str] does not start with it. *)
Fixpoint match_prefix (prefix s : list Z) (len : Z) : Z :=
  match prefix with
  | [] => len
  | p :: prefix =>
      match s with
      | c :: s => if p =? c then match_prefix prefix s (len + 1) else 0
      | [] => 0
      end
  end.

Definition starts_with (prefix s : list Z) : Z := match_prefix (cstr prefix) (cstr s) 0.

(** [p[0] == '.' && p[1] == '.' && (p[2] == '/' || p[2] == 0) && (p == path ||
    p[-1] == '/')] at index [i]. *)
Definition dotdot_at (path : list Z) (i : Z) : bool :=
  (char_at path i =? 46) && (char_at path (i + 1) =? 46) &&
  ((char_at path (i + 2) =? 47) || (char_at path (i + 2) =? 0)) &&
  ((i =? 0) || (char_at path (i - 1) =? 47)).

Definition has_traversal (path : list Z) : bool := existsb (dotdot_at (cstr path)) (seqZ 0 (Z.of_nat (length (cstr path)))).

(** The checking loop: [false] when the path is too long or contains "..". *)
Definition path_valid (limit : Z) (path : list Z) : bool := (Z.of_nat (length (cstr path)) <=? limit) && negb (has_traversal path).

(** * Mounting *)

Definition vfs_init (v : VfsServer) : VfsServer :=
  mkVfs (mounts_ v) 0 ((fun d => mkFd (fd_vnode d) (fd_offset d) false 0 (fd_ref_count d)) <$> fd_table_ v).

Definition vfs_mount (path : list Z) (vnode : Z) (v : VfsServer) : bool * VfsServer :=
  if vnode =? 0 then (false, v)
  else if negb (path_valid 31 path) then (false, v)
  else if MAX_MOUNT_POINTS <=? mount_count_ v then (false, v)
  else (true, set_mounts (zalter (fun _ => mkMount (str_copy path 32) vnode) (mount_count_ v) (mounts_ v)) (mount_count_ v + 1) v).

(** [for (j = i; j < mount_count_ - 1; j++) mounts_[j] = mounts_[j + 1]] *)
Definition shift_left (i n : Z) (ms : list MountPoint) : list MountPoint :=
  foldl (fun ms j => zalter (fun _ => zlookup ms (j + 1)) j ms) ms (seqZ i (n - 1 - i)).

Fixpoint unmount_from (ids : list Z) (path : list Z) (v : VfsServer) : bool * VfsServer :=
  match ids with
  | [] => (false, v)
  | i :: ids =>
      if strings_equal (mnt_path (zlookup (mounts_ v) i)) path
      then (true, set_mounts (shift_left i (mount_count_ v) (mounts_ v)) (mount_count_ v - 1) v)
      else unmount_from ids path v
  end.

Definition vfs_unmount (path : list Z) (v : VfsServer) : bool * VfsServer := unmount_from (seqZ 0 (mount_count_ v)) path v.

(** * Opening *)

(** One round of the search: the best prefix length so far and its node. *)
Definition better_mount (path : list Z) (best : Z * option Z) (m : MountPoint) : Z * option Z :=
  let prefix_len := starts_with (mnt_path m) path in
  if (best.1 <? prefix_len) &&
     ((char_at (cstr path) prefix_len =? 0) || (char_at (cstr path) prefix_len =? 47) || (char_at (cstr (mnt_path m)) (prefix_len - 1) =? 47))
  then (prefix_len, Some (mnt_vnode m)) else best.

Definition find_mount (path : list Z) (v : VfsServer) : Z * option Z :=
  foldl (better_mount path) (0, None) (take (Z.to_nat (mount_count_ v)) (mounts_ v)).

Fixpoint skip_slashes (s : list Z) : list Z :=
  match s with
  | [] => []
  | c :: s' => if c =? 47 then skip_slashes s' else s
  end.

Definition relative_path (path : list Z) (prefix_len : Z) : list Z :=
  match skip_slashes (drop (Z.to_nat prefix_len) (cstr path)) with
  | [] => [47]
  | r => r
  end.

Definition first_free_fd (t : list FileDescriptor) : option Z := List.find (fun i => negb (fd_used (zlookup t i))) (seqZ 0 MAX_OPEN_FILES).

Section Server.
Context {W : Type} `{!VNode W}.

Definition handle_open (path : list Z) (flags : Z) (v : VfsServer) (w : W) : Z * VfsServer * W :=
  if negb (path_valid 63 path) then (-1, v, w) else
  match find_mount path v with
  | (_, None) => (-1, v, w)
  | (max_prefix_len, Some target) =>
      match first_free_fd (fd_table_ v) with
      | None => (-1, v, w)
      | Some fd =>
          let v := upd_fd fd (fun d => mkFd (fd_vnode d) (fd_offset d) true 0 0) v in
          let '(status, priv, w) := open_file target (relative_path path max_prefix_len) flags w in
          let v := upd_fd fd (fun d => mkFd (fd_vnode d) (fd_offset d) true priv (fd_ref_count d)) v in
          if status <? 0 then (-1, upd_fd fd (fun d => mkFd (fd_vnode d) (fd_offset d) false (fd_priv d) (fd_ref_count d)) v, w)
          else (fd, upd_fd fd (fun d => mkFd target 0 (fd_used d) (fd_priv d) (fd_ref_count d)) v, w)
      end
  end.

Definition valid_fd (fd : Z) (v : VfsServer) : bool := negb ((fd <? 0) || (MAX_OPEN_FILES <=? fd) || negb (fd_used (zlookup (fd_table_ v) fd))).

Definition set_offset (o : Z) (d : FileDescriptor) : FileDescriptor := mkFd (fd_vnode d) o (fd_used d) (fd_priv d) (fd_ref_count d).

(** [if (len < 0 || len > sizeof(data)) len = sizeof(data)] *)
Definition clamp (len : Z) : Z := if (len <? 0) || (VFS_IPC_BUFFER_SIZE <? len) then VFS_IPC_BUFFER_SIZE else len.

Definition handle_read (fd len : Z) (v : VfsServer) (w : W) : Z * list Z * VfsServer * W :=
  if negb (valid_fd fd v) then (-1, [], v, w) else
  let d := zlookup (fd_table_ v) fd in
  let '(bytes, data, w) := vn_read (fd_vnode d) (clamp len) (fd_offset d) (fd_priv d) w in
  (bytes, data, if 0 <? bytes then upd_fd fd (set_offset (fd_offset d + bytes)) v else v, w).

Definition handle_write (fd len : Z) (data : list Z) (v : VfsServer) (w : W) : Z * VfsServer * W :=
  if negb (valid_fd fd v) then (-1, v, w) else
  let d := zlookup (fd_table_ v) fd in
  let '(bytes, w) := vn_write (fd_vnode d) data (clamp len) (fd_offset d) (fd_priv d) w in
  (bytes, if 0 <? bytes then upd_fd fd (set_offset (fd_offset d + bytes)) v else v, w).

Definition handle_lseek (fd offset whence : Z) (v : VfsServer) (w : W) : Z * VfsServer :=
  if negb (valid_fd fd v) then (-1, v) else
  let d := zlookup (fd_table_ v) fd in
  let new_offset := if whence =? 0 then offset
                    else if whence =? 1 then fd_offset d + offset
                    else if whence =? 2 then vn_get_size (fd_vnode d) (fd_priv d) w + offset
                    else -1 in
  if 0 <=? new_offset then (new_offset, upd_fd fd (set_offset new_offset) v) else (-1, v).

Definition handle_close (fd : Z) (v : VfsServer) (w : W) : Z * VfsServer * W :=
  if negb (valid_fd fd v) then (-1, v, w) else
  let d := zlookup (fd_table_ v) fd in
  let v := upd_fd fd (fun d => mkFd (fd_vnode d) (fd_offset d) false 0 (fd_ref_count d)) v in
  let '(status, w) := close_file (fd_vnode d) (fd_priv d) w in (status, v, w).

Definition handle_ioctl (fd request arg : Z) (v : VfsServer) (w : W) : Z * VfsServer * W :=
  if negb (valid_fd fd v) then (-1, v, w) else
  let d := zlookup (fd_table_ v) fd in
  let '(status, w) := vn_ioctl (fd_vnode d) request arg (fd_priv d) w in (status, v, w).

(** ** Requests *)

Inductive VfsRequest :=
  | RMount (path : list Z) (vnode : Z)
  | ROpen (path : list Z) (flags : Z)
  | RRead (fd len : Z)
  | RWrite (fd len : Z) (data : list Z)
  | RClose (fd : Z)
  | RIoctl (fd request arg : Z)
  | RLseek (fd offset whence : Z)
  | RUnmount (path : list Z).

Record VfsReply := mkReply { rp_status : Z; rp_data : list Z }.

Definition process_request (req : VfsRequest) (v : VfsServer) (w : W) : VfsReply * VfsServer * W :=
  match req with
  | RMount path vnode => let (ok, v) := vfs_mount path vnode v in (mkReply (if ok then 0 else -1) [], v, w)
  | RUnmount path => let (ok, v) := vfs_unmount path v in (mkReply (if ok then 0 else -1) [], v, w)
  | ROpen path flags => let '(st, v, w) := handle_open path flags v w in (mkReply st [], v, w)
  | RRead fd len => let '(st, data, v, w) := handle_read fd len v w in (mkReply st data, v, w)
  | RWrite fd len data => let '(st, v, w) := handle_write fd len data v w in (mkReply st [], v, w)
  | RLseek fd offset whence => let (st, v) := handle_lseek fd offset whence v w in (mkReply st [], v, w)
  | RClose fd => let '(st, v, w) := handle_close fd v w in (mkReply st [], v, w)
  | RIoctl fd request arg => let '(st, v, w) := handle_ioctl fd request arg v w in (mkReply st [], v, w)
  end.

(** * The client *)

Section Client.
(** The endpoint, and the IPC round trip when there is one. *)
Variable service_ep_cap_ : Z.
Variable ipc_call : Z -> VfsRequest -> VfsServer -> W -> VfsReply * VfsServer * W.

Definition call_vfs (req : VfsRequest) (v : VfsServer) (w : W) : VfsReply * VfsServer * W :=
  if service_ep_cap_ <? 0 then process_request req v w else ipc_call service_ep_cap_ req v w.

(** [strncpy(dst, src, 63)] into a cleared buffer. *)
Definition req_path (path : list Z) : list Z := take 63 (cstr path) ++ [0].

Definition mgr_mount (path : list Z) (vnode : Z) (v : VfsServer) (w : W) : bool * VfsServer * W :=
  if vnode =? 0 then (false, v, w) else
  let (ok, v) := vfs_mount path vnode v in
  if ok then (true, v, w) else
  if service_ep_cap_ <? 0 then (false, v, w) else
  let '(rp, v, w) := call_vfs (RMount (req_path path) vnode) v w in (rp_status rp =? 0, v, w).

Definition mgr_unmount (path : list Z) (v : VfsServer) (w : W) : bool * VfsServer * W :=
  let (ok, v) := vfs_unmount path v in
  if ok then (true, v, w) else
  if service_ep_cap_ <? 0 then (false, v, w) else
  let '(rp, v, w) := call_vfs (RUnmount (req_path path)) v w in (rp_status rp =? 0, v, w).

Definition mgr_open (path : list Z) (flags : Z) (v : VfsServer) (w : W) : Z * VfsServer * W :=
  let '(rp, v, w) := call_vfs (ROpen (req_path path) flags) v w in (rp_status rp, v, w).

(** The bytes copied to the caller's buffer are the first [status] of the reply. *)
Definition mgr_read (fd len : Z) (v : VfsServer) (w : W) : Z * list Z * VfsServer * W :=
  let len := if 1024 <? len then 1024 else len in
  let '(rp, v, w) := call_vfs (RRead fd len) v w in
  (rp_status rp, if 0 <? rp_status rp then take (Z.to_nat (rp_status rp)) (rp_data rp) else [], v, w).

Definition mgr_write (fd : Z) (buf : list Z) (len : Z) (v : VfsServer) (w : W) : Z * VfsServer * W :=
  let len := if 1024 <? len then 1024 else len in
  let '(rp, v, w) := call_vfs (RWrite fd len (take (Z.to_nat len) buf)) v w in (rp_status rp, v, w).

Definition mgr_close (fd : Z) (v : VfsServer) (w : W) : Z * VfsServer * W :=
  let '(rp, v, w) := call_vfs (RClose fd) v w in (rp_status rp, v, w).

Definition mgr_ioctl (fd request arg : Z) (v : VfsServer) (w : W) : Z * VfsServer * W :=
  let '(rp, v, w) := call_vfs (RIoctl fd request arg) v w in (rp_status rp, v, w).

Definition mgr_lseek (fd offset whence : Z) (v : VfsServer) (w : W) : Z * VfsServer * W :=
  let '(rp, v, w) := call_vfs (RLseek fd offset whence) v w in (rp_status rp, v, w).
End Client.
End Server.
