(* ===== verification/Flash.v ===== *)
(** The simulated NOR flash (drivers/storage/flash_device.hpp): reading, programming,
    which can only clear bits and goes by words where it can, and erasing of blocks.

    The hardware mutex only serialises the operations; buffers are not null. *)
From S2P Require Import Prelude.

(** * In-place loops over bytes *)

(** [for (i = 0; i < n; i++) l[start + i] = f(i, l[start + i])] *)
Definition zupdate (f : Z -> Z -> Z) (start n : Z) (l : list Z) : list Z := foldl (fun l i => zalter (f i) (start + i) l) l (seqZ 0 n).

Lemma seqZ_snoc k : seqZ 0 (Z.of_nat (S k)) = seqZ 0 (Z.of_nat k) ++ [Z.of_nat k].
Proof.
  rewrite Nat2Z.inj_succ, <- Z.add_1_r, seqZ_app by lia. done.
Qed.

Lemma length_zupdate f start n l : length (zupdate f start n l) = length l.
Proof. unfold zupdate. generalize (seqZ 0 n). intros ids. revert l. induction ids as [|i ids IH]; intros l; cbn; [done|]. by rewrite IH, length_zalter. Qed.

Lemma zupdate_lookup f start n l j :
  0 <= start -> 0 <= n -> start + n <= Z.of_nat (length l) ->
  zlookup (zupdate f start n l) j = if decide (start <= j < start + n) then f (j - start) (zlookup l j) else zlookup l j.
Proof.
  intros Hs Hn Hl. unfold zupdate. replace n with (Z.of_nat (Z.to_nat n)) in * by lia. induction (Z.to_nat n) as [|k IH]; [rewrite seqZ_nil by lia; cbn; case_decide; [lia|done]|].
  rewrite seqZ_snoc, foldl_app. cbn [foldl].
  rewrite zlookup_zalter by (unfold in_range; rewrite (length_zupdate f start (Z.of_nat k) l : length (foldl _ l (seqZ 0 (Z.of_nat k))) = _); lia).
  rewrite IH by lia. repeat case_decide; subst; try lia; try done. f_equal. lia.
Qed.

(** * Little-endian words *)

Definition byte_of (k w : Z) : Z := (w / 2 ^ (8 * k)) mod 256.
Definition load32 (l : list Z) (a : Z) : Z := zlookup l a + 256 * zlookup l (a + 1) + 65536 * zlookup l (a + 2) + 16777216 * zlookup l (a + 3).
Definition store32 (l : list Z) (a w : Z) : list Z := zupdate (fun k _ => byte_of k w) a 4 l.

Definition is_byte (x : Z) : Prop := 0 <= x < 256.
Definition all_bytes (l : list Z) : Prop := Forall is_byte l.

Lemma all_bytes_lookup l i : all_bytes l -> in_range l i -> is_byte (zlookup l i).
Proof.
  intros Hl [H0 H1]. destruct (lookup_lt_is_Some_2 l (Z.to_nat i)) as [x Hx]; [lia|]. rewrite (zlookup_Some l i x H0 Hx). by apply (Forall_lookup_1 _ _ _ _ Hl Hx).
Qed.

Lemma byte_of_load l a k : all_bytes l -> 0 <= a -> a + 3 < Z.of_nat (length l) -> 0 <= k < 4 -> byte_of k (load32 l a) = zlookup l (a + k).
Proof.
  intros Hl Ha Hr Hk. unfold load32, byte_of. assert (Hb : forall i, 0 <= i < 4 -> is_byte (zlookup l (a + i))) by (intros i Hi; apply all_bytes_lookup; [done|split; lia]).
  pose proof (Hb 0 ltac:(lia)) as H0. rewrite Z.add_0_r in H0. pose proof (Hb 1 ltac:(lia)) as H1. pose proof (Hb 2 ltac:(lia)) as H2. pose proof (Hb 3 ltac:(lia)) as H3. unfold is_byte in *.
  assert (k = 0 \/ k = 1 \/ k = 2 \/ k = 3) as [->|[->|[->| ->]]] by lia.
  - change (2 ^ (8 * 0)) with 1. rewrite Z.div_1_r, Z.add_0_r. symmetry. apply (Z.mod_unique_pos _ _ (zlookup l (a + 1) + 256 * zlookup l (a + 2) + 65536 * zlookup l (a + 3))); lia.
  - change (2 ^ (8 * 1)) with 256. rewrite <- (Z.div_unique_pos _ 256 (zlookup l (a + 1) + 256 * zlookup l (a + 2) + 65536 * zlookup l (a + 3)) (zlookup l a)) by lia.
    symmetry. apply (Z.mod_unique_pos _ _ (zlookup l (a + 2) + 256 * zlookup l (a + 3))); lia.
  - change (2 ^ (8 * 2)) with 65536. rewrite <- (Z.div_unique_pos _ 65536 (zlookup l (a + 2) + 256 * zlookup l (a + 3)) (zlookup l a + 256 * zlookup l (a + 1))) by lia.
    symmetry. apply (Z.mod_unique_pos _ _ (zlookup l (a + 3))); lia.
  - change (2 ^ (8 * 3)) with 16777216. rewrite <- (Z.div_unique_pos _ 16777216 (zlookup l (a + 3)) (zlookup l a + 256 * zlookup l (a + 1) + 65536 * zlookup l (a + 2))) by lia. by apply Z.mod_small.
Qed.

Lemma byte_of_land k x y : 0 <= k -> byte_of k (Z.land x y) = Z.land (byte_of k x) (byte_of k y).
Proof.
  intros Hk. unfold byte_of. change 256 with (2 ^ 8). rewrite <- !Z.land_ones, <- !Z.shiftr_div_pow2, Z.shiftr_land by lia.
  apply Z.bits_inj. intros i. rewrite !Z.land_spec. by destruct (Z.testbit _ i), (Z.testbit _ i), (Z.testbit _ i).
Qed.

Lemma land_byte x y : is_byte x -> is_byte y -> is_byte (Z.land x y).
Proof.
  unfold is_byte. intros Hx Hy. split; [apply Z.land_nonneg; lia|]. destruct (Z.eq_dec (Z.land x y) 0) as [->|Hne]; [lia|].
  change 256 with (2 ^ 8). apply Z.log2_lt_pow2; [pose proof (proj2 (Z.land_nonneg x y) ltac:(lia)); lia|]. pose proof (Z.log2_land x y ltac:(lia) ltac:(lia)).
  assert (Z.log2 x <= 7) by (change 7 with (Z.log2 255); apply Z.log2_le_mono; lia). lia.
Qed.

(** * The device *)

Record Flash := mkFlash { memory_ : list Z; block_size_ : Z; block_count_ : Z; page_size_ : Z; write_count_ : Z; erase_count_ : Z }.

Definition FLASH_BACKING_STORE_BYTES : Z := 524288.

(** [None] is the endless loop of a device larger than the store. *)
Definition flash_ctor (block_size block_count page_size : Z) : option Flash :=
  let needed := wrap32 (block_size * block_count) in
  if FLASH_BACKING_STORE_BYTES <? needed then None
  else Some (mkFlash (replicate (Z.to_nat needed) 255 ++ replicate (Z.to_nat (FLASH_BACKING_STORE_BYTES - needed)) 0) block_size block_count page_size 0 0).

Definition set_memory (m : list Z) (f : Flash) : Flash := mkFlash m (block_size_ f) (block_count_ f) (page_size_ f) (write_count_ f) (erase_count_ f).

Definition bad_range (block_addr offset size : Z) (f : Flash) : bool := (block_count_ f <=? block_addr) || (block_size_ f <? wrap32 (offset + size)).

Definition phys_addr (block_addr offset : Z) (f : Flash) : Z := wrap32 (wrap32 (block_addr * block_size_ f) + offset).

(** [None] is the status -1; the buffer is then untouched. *)
Definition read_blocks (block_addr offset size : Z) (f : Flash) : option (list Z) :=
  if bad_range block_addr offset size f then None
  else Some (zlookup (memory_ f) <$> seqZ (phys_addr block_addr offset f) size).

(** [dst32[w] &= src32[w]] *)
Definition and_word (phys : Z) (buf : list Z) (m : list Z) (w : Z) : list Z :=
  store32 m (phys + 4 * w) (Z.land (load32 m (phys + 4 * w)) (load32 buf (4 * w))).

Definition and_words (phys : Z) (buf : list Z) (words : Z) (m : list Z) : list Z := foldl (and_word phys buf) m (seqZ 0 words).

(** [for (; idx < size; ++idx) memory_[phys + idx] &= buf[idx]] *)
Definition and_bytes (phys : Z) (buf : list Z) (idx size : Z) (m : list Z) : list Z :=
  zupdate (fun i x => Z.land x (zlookup buf (idx + i))) (phys + idx) (size - idx) m.

(** [buf_addr] is the address of the caller's buffer. *)
Definition write_blocks (buf_addr block_addr offset : Z) (buf : list Z) (size : Z) (f : Flash) : Z * Flash :=
  if bad_range block_addr offset size f then (-1, f) else
  let phys := phys_addr block_addr offset f in
  let '(idx, m) := if (Z.land phys 3 =? 0) && (Z.land buf_addr 3 =? 0)
                   then let words := size / 4 in (words * 4, and_words phys buf words (memory_ f))
                   else (0, memory_ f) in
  let m := and_bytes phys buf idx size m in
  (0, mkFlash m (block_size_ f) (block_count_ f) (page_size_ f) (wrap32 (write_count_ f + 1)) (erase_count_ f)).

Definition erase_block (block_addr : Z) (f : Flash) : Z * Flash :=
  if block_count_ f <=? block_addr then (-1, f) else
  let m := zupdate (fun _ _ => 255) (wrap32 (block_addr * block_size_ f)) (block_size_ f) (memory_ f) in
  (0, mkFlash m (block_size_ f) (block_count_ f) (page_size_ f) (write_count_ f) (wrap32 (erase_count_ f + 1))).

Definition is_erased (block_addr offset size : Z) (f : Flash) : bool :=
  if block_count_ f <=? block_addr then false else
  let size := if size =? 0 then wrap32 (block_size_ f - offset) else size in
  if block_size_ f <? wrap32 (offset + size) then false else
  forallb (fun i => zlookup (memory_ f) (phys_addr block_addr offset f + i) =? 255) (seqZ 0 size).

Definition get_total_capacity (f : Flash) : Z := wrap32 (block_size_ f * block_count_ f).

(** * Invariant *)

Record flash_ok (f : Flash) : Prop := {
  fl_pos : 0 < block_size_ f /\ 0 < block_count_ f;
  fl_len : block_size_ f * block_count_ f <= Z.of_nat (length (memory_ f)) < 4294967296;
  fl_bytes : all_bytes (memory_ f);
}.

(** Position [offset] of a block. *)
Definition addr_of (f : Flash) (block_addr offset : Z) : Z := block_addr * block_size_ f + offset.

(** A range inside a block. *)
Definition good_range (f : Flash) (block_addr offset size : Z) : Prop := 0 <= block_addr < block_count_ f /\ 0 <= offset /\ 0 <= size /\ offset + size <= block_size_ f.

Lemma flash_ctor_ok bs bc ps : 0 < bs -> 0 < bc -> bs * bc <= FLASH_BACKING_STORE_BYTES -> exists f, flash_ctor bs bc ps = Some f /\ flash_ok f.
Proof.
  unfold FLASH_BACKING_STORE_BYTES. intros Hs Hc Hn. assert (0 < bs * bc) by nia. unfold flash_ctor, FLASH_BACKING_STORE_BYTES. rewrite wrap32_small by (unfold is_u32; lia).
  destruct (Z.ltb_spec 524288 (bs * bc)); [lia|]. eexists. split; [done|]. split; cbn [memory_ block_size_ block_count_]; [lia|rewrite length_app, !length_replicate; lia|].
  apply Forall_app; split; apply Forall_replicate; unfold is_byte; lia.
Qed.

Lemma range_in_memory f b o n : flash_ok f -> good_range f b o n -> 0 <= addr_of f b o /\ addr_of f b o + n <= block_size_ f * block_count_ f.
Proof. intros [[H1 H2] H3 _] (Hb & Ho & Hn & Hr). unfold addr_of. nia. Qed.

Lemma good_range_spec f b o n :
  flash_ok f -> good_range f b o n -> bad_range b o n f = false /\ phys_addr b o f = addr_of f b o.
Proof.
  intros Hf Hg. pose proof (range_in_memory f b o n Hf Hg). destruct Hf as [[H1 H2] H3 _]. destruct Hg as (Hb & Ho & Hn & Hr).
  assert (b * block_size_ f <= block_size_ f * block_count_ f) by nia. assert (0 <= b * block_size_ f) by nia. assert (block_size_ f <= block_size_ f * block_count_ f) by nia. unfold bad_range, phys_addr, addr_of in *.
  rewrite (wrap32_small (o + n)) by (unfold is_u32; lia). rewrite (wrap32_small (b * block_size_ f)) by (unfold is_u32; lia). rewrite (wrap32_small (b * block_size_ f + o)) by (unfold is_u32; lia).
  split; [|done]. destruct (Z.leb_spec (block_count_ f) b), (Z.ltb_spec (block_size_ f) (o + n)); (lia || done).
Qed.

Lemma read_blocks_ok f b o n : flash_ok f -> good_range f b o n -> read_blocks b o n f = Some (zlookup (memory_ f) <$> seqZ (addr_of f b o) n).
Proof. intros Hf Hg. unfold read_blocks. destruct (good_range_spec f b o n Hf Hg) as [-> ->]. done. Qed.

(** ** Programming *)

(** The reference: every byte of the range is and-ed. *)
Definition programmed (m : list Z) (phys : Z) (buf : list Z) (size j : Z) : Z :=
  if decide (phys <= j < phys + size) then Z.land (zlookup m j) (zlookup buf (j - phys)) else zlookup m j.

Lemma all_bytes_intro l : (forall i, in_range l i -> is_byte (zlookup l i)) -> all_bytes l.
Proof.
  intros H. apply Forall_lookup. intros i x Hx. rewrite <- (zlookup_Some l (Z.of_nat i) x); [|lia|by rewrite Nat2Z.id]. apply H. apply lookup_lt_Some in Hx. split; lia.
Qed.

Lemma and_word_lookup phys buf m w j :
  all_bytes m -> all_bytes buf -> 0 <= phys -> 0 <= w -> phys + 4 * w + 3 < Z.of_nat (length m) -> 4 * w + 3 < Z.of_nat (length buf) ->
  zlookup (and_word phys buf m w) j = if decide (phys + 4 * w <= j < phys + 4 * w + 4) then Z.land (zlookup m j) (zlookup buf (j - phys)) else zlookup m j.
Proof.
  intros Hm Hb Hp Hw Hl Hlb. unfold and_word, store32. rewrite zupdate_lookup by lia. case_decide; [|done].
  rewrite byte_of_land, !byte_of_load by (done || lia). f_equal; f_equal; lia.
Qed.

Lemma and_words_spec phys buf m words :
  all_bytes m -> all_bytes buf -> 0 <= phys -> 0 <= words -> phys + 4 * words <= Z.of_nat (length m) -> 4 * words <= Z.of_nat (length buf) ->
  length (and_words phys buf words m) = length m /\ forall j, zlookup (and_words phys buf words m) j = programmed m phys buf (4 * words) j.
Proof.
  intros Hm Hb Hp Hw Hl Hlb. unfold and_words, programmed. replace words with (Z.of_nat (Z.to_nat words)) in * by lia.
  induction (Z.to_nat words) as [|k IH]; [rewrite seqZ_nil by lia; cbn [foldl]; split; [done|]; intros j; case_decide; [lia|done]|].
  rewrite seqZ_snoc, foldl_app. cbn [foldl].
  destruct IH as [L IH]; [lia|lia|lia|]. set (m1 := foldl _ m (seqZ 0 (Z.of_nat k))) in *.
  assert (Hm1 : all_bytes m1). { apply all_bytes_intro. intros i [Hi0 Hi]. rewrite IH. rewrite L in Hi. case_decide; [|by apply all_bytes_lookup]. apply land_byte; apply all_bytes_lookup; (done || split; lia). }
  split; [unfold and_word, store32; by rewrite length_zupdate|]. intros j. rewrite and_word_lookup by (done || lia). rewrite !IH. repeat case_decide; (lia || done).
Qed.

Lemma write_blocks_ok f buf_addr b o buf n :
  flash_ok f -> all_bytes buf -> Z.of_nat (length buf) >= n -> good_range f b o n ->
  let '(st, f') := write_blocks buf_addr b o buf n f in
  st = 0 /\ flash_ok f' /\ block_size_ f' = block_size_ f /\ block_count_ f' = block_count_ f /\ page_size_ f' = page_size_ f /\ length (memory_ f') = length (memory_ f) /\
  forall j, zlookup (memory_ f') j = programmed (memory_ f) (addr_of f b o) buf n j.
Proof.
  intros Hf Hb Hl Hg. unfold write_blocks. cbv zeta. destruct (good_range_spec f b o n Hf Hg) as [-> ->]. pose proof (range_in_memory f b o n Hf Hg) as [Ha Hr].
  destruct Hg as (_ & _ & Hn & _). pose proof Hf as [Hpos Hlen Hby]. set (phys := addr_of f b o) in *.
  assert (Hpart : exists idx m, (if (Z.land phys 3 =? 0) && (Z.land buf_addr 3 =? 0) then (n / 4 * 4, and_words phys buf (n / 4) (memory_ f)) else (0, memory_ f)) = (idx, m) /\
    0 <= idx <= n /\ length m = length (memory_ f) /\ forall j, zlookup m j = programmed (memory_ f) phys buf idx j).
  { pose proof (Z.div_mod n 4 ltac:(lia)). pose proof (Z.mod_pos_bound n 4 ltac:(lia)). destruct (_ && _).
    - destruct (and_words_spec phys buf (memory_ f) (n / 4)) as [L E]; try done; [lia|lia|lia|]. eexists _, _. split; [done|]. split; [lia|]. split; [done|]. intros j. rewrite E. by rewrite Z.mul_comm.
    - eexists _, _. split; [done|]. split; [lia|]. split; [done|]. intros j. unfold programmed. case_decide; [lia|done]. }
  destruct Hpart as (idx & m & -> & Hidx & L & E). cbn [memory_ block_size_ block_count_ page_size_ fst snd]. set (m' := and_bytes phys buf idx n m).
  assert (L' : length m' = length (memory_ f)) by (unfold m', and_bytes; by rewrite length_zupdate).
  assert (E' : forall j, zlookup m' j = programmed (memory_ f) phys buf n j).
  { intros j. unfold m', and_bytes. rewrite zupdate_lookup by lia. rewrite E. unfold programmed. replace (idx + (j - (phys + idx))) with (j - phys) by lia. repeat case_decide; (lia || done). }
  split; [done|]. split; [|done]. split; cbn; [done|by rewrite L'|]. apply all_bytes_intro. intros i [Hi0 Hi]. rewrite E'. unfold programmed. rewrite L' in Hi.
  case_decide; [|by apply all_bytes_lookup]. apply land_byte; apply all_bytes_lookup; (done || split; lia).
Qed.

Lemma erase_block_ok f b :
  flash_ok f -> 0 <= b < block_count_ f ->
  let '(st, f') := erase_block b f in
  st = 0 /\ flash_ok f' /\ block_size_ f' = block_size_ f /\ block_count_ f' = block_count_ f /\ page_size_ f' = page_size_ f /\
  forall j, zlookup (memory_ f') j = if decide (addr_of f b 0 <= j < addr_of f b 0 + block_size_ f) then 255 else zlookup (memory_ f) j.
Proof.
  intros Hf Hb. pose proof Hf as [[H1 H2] Hlen Hby]. assert (Hg : good_range f b 0 (block_size_ f)) by (unfold good_range; lia). pose proof (range_in_memory _ _ _ _ Hf Hg) as [Ha Hr].
  unfold erase_block. destruct (Z.leb_spec (block_count_ f) b); [lia|]. unfold addr_of in *. rewrite Z.add_0_r in *. rewrite wrap32_small by (unfold is_u32; lia). cbn.
  assert (E : forall j, zlookup (zupdate (fun _ _ => 255) (b * block_size_ f) (block_size_ f) (memory_ f)) j = if decide (b * block_size_ f <= j < b * block_size_ f + block_size_ f) then 255 else zlookup (memory_ f) j) by (intros j; apply zupdate_lookup; lia).
  split; [done|]. split; [|done]. split; cbn; [done|by rewrite length_zupdate|]. apply all_bytes_intro. intros i [Hi0 Hi]. rewrite length_zupdate in Hi. rewrite E.
  case_decide; [unfold is_byte; lia|]. by apply all_bytes_lookup.
Qed.

Lemma is_erased_spec f b o n : flash_ok f -> good_range f b o n -> 0 < n -> is_erased b o n f = true <-> forall j, addr_of f b o <= j < addr_of f b o + n -> zlookup (memory_ f) j = 255.
Proof.
  intros Hf Hg Hn. destruct (good_range_spec f b o n Hf Hg) as [Hbad Hp]. unfold is_erased. unfold bad_range in Hbad. apply orb_false_iff in Hbad as [-> Hb2].
  destruct (Z.eqb_spec n 0); [lia|]. rewrite Hb2, Hp, forallb_forall. split.
  - intros H j Hj. specialize (H (j - addr_of f b o)). rewrite <- list_elem_of_In, elem_of_seqZ, Z.eqb_eq in H. replace (addr_of f b o + (j - addr_of f b o)) with j in H by lia. apply H. lia.
  - intros H i Hi. apply list_elem_of_In, elem_of_seqZ in Hi. apply Z.eqb_eq, H. lia.
Qed.
