(* ===== verification/Photon.v ===== *)
(** The photon cache (vfs/photon_cache.hpp): eight page slots in front of the flash,
    written back on eviction and on [sync].

    A miss gives up the cache mutex while the flash is read: [begin_page] is the part
    before, [finish_page] the part after, and the arguments [before_read] and
    [after_read] of [get_or_alloc_page] are what other threads do meanwhile.  [stack] is
    what the temporary buffer on the stack holds before the read, [data_addr] the
    addresses of the slots' buffers. *)
From S2P Require Import Prelude Flash.

(** * Data *)

Record CachePage := mkPage {
  block_addr : Z;
  page_offset : Z;
  cp_data : list Z;
  is_valid : bool;
  is_dirty : bool;
  is_reserved : bool;
  last_access_tick : Z;
}.

#[export] Instance CachePage_inhabited : Inhabited CachePage := populate (mkPage 0 0 [] false false false 0).

Record Photon := mkPhoton { pool_ : list CachePage; flash_ : Flash; tick_counter_ : Z; hit_count_ : Z; miss_count_ : Z; flush_count_ : Z }.

Definition CACHE_POOL_SIZE : Z := 8.

Definition set_pool pool c := mkPhoton pool (flash_ c) (tick_counter_ c) (hit_count_ c) (miss_count_ c) (flush_count_ c).
Definition set_flash fl c := mkPhoton (pool_ c) fl (tick_counter_ c) (hit_count_ c) (miss_count_ c) (flush_count_ c).
Definition page (i : Z) (c : Photon) : CachePage := zlookup (pool_ c) i.
Definition upd_page (i : Z) (f : CachePage -> CachePage) (c : Photon) : Photon := set_pool (zalter f i (pool_ c)) c.

Definition set_flags valid dirty reserved p := mkPage (block_addr p) (page_offset p) (cp_data p) valid dirty reserved (last_access_tick p).
Definition set_tick t p := mkPage (block_addr p) (page_offset p) (cp_data p) (is_valid p) (is_dirty p) (is_reserved p) t.

(** A cache whose slots are not in use, over a flash. *)
Definition photon_ctor (fl : Flash) : Photon := mkPhoton (replicate 8 (mkPage 0 0 (replicate 256 0) false false false 0)) fl 0 0 0 0.

(** [if (page_size > 256) page_size = 256] *)
Definition page_size (c : Photon) : Z := if 256 <? page_size_ (flash_ c) then 256 else page_size_ (flash_ c).

Section Cache.
Variable data_addr : Z -> Z.
Variable stack : list Z.

(** * Slots *)

Fixpoint write_retry (tries : nat) (i : Z) (p : CachePage) (res : Z) (fl : Flash) : Z * Flash :=
  match tries with
  | O => (res, fl)
  | S tries =>
      let '(res, fl) := write_blocks (data_addr i) (block_addr p) (page_offset p) (cp_data p) (page_size_ fl) fl in
      if res =? 0 then (res, fl) else write_retry tries i p res fl
  end.

Definition flush_page (i : Z) (c : Photon) : Z * Photon :=
  let p := page i c in
  if negb (is_valid p) || negb (is_dirty p) then (0, c) else
  let '(res, fl) := write_retry 3 i p (-1) (flash_ c) in
  let c := set_flash fl c in
  if res =? 0
  then (res, mkPhoton (zalter (fun p => set_flags (is_valid p) false (is_reserved p) p) i (pool_ c)) (flash_ c) (tick_counter_ c) (hit_count_ c) (miss_count_ c) (wrap32 (flush_count_ c + 1)))
  else (res, c).

(** The scan: [inl i] for a hit, [inr i] for the slot to replace, -1 for none. *)
Fixpoint scan (pages : list CachePage) (i : Z) (blk off : Z) (oldest_idx oldest_tick : Z) : Z + Z :=
  match pages with
  | [] => inr oldest_idx
  | p :: pages =>
      if is_valid p && (block_addr p =? blk) && (page_offset p =? off) then inl i
      else if negb (is_valid p) && negb (is_reserved p) then scan pages (i + 1) blk off i 0
      else if negb (is_reserved p) && (last_access_tick p <? oldest_tick) then scan pages (i + 1) blk off i (last_access_tick p)
      else scan pages (i + 1) blk off oldest_idx oldest_tick
  end.

(** [pool_[i].last_access_tick = ++tick_counter_] *)
Definition touch (i : Z) (c : Photon) : Photon :=
  let t := wrap32 (tick_counter_ c + 1) in
  mkPhoton (zalter (set_tick t) i (pool_ c)) (flash_ c) t (hit_count_ c) (miss_count_ c) (flush_count_ c).

Definition count_hit (c : Photon) : Photon := mkPhoton (pool_ c) (flash_ c) (tick_counter_ c) (wrap32 (hit_count_ c + 1)) (miss_count_ c) (flush_count_ c).
Definition count_miss (c : Photon) : Photon := mkPhoton (pool_ c) (flash_ c) (tick_counter_ c) (hit_count_ c) (wrap32 (miss_count_ c + 1)) (flush_count_ c).

Inductive Lookup := Found (i : Z) | Refused | Loading (i : Z).

(** Up to the release of the mutex. *)
Definition begin_page (blk off : Z) (c : Photon) : Lookup * Photon :=
  match scan (pool_ c) 0 blk off (-1) 4294967295 with
  | inl i => (Found i, count_hit (touch i c))
  | inr idx =>
      let c := count_miss c in
      if idx =? -1 then (Refused, c) else
      let '(res, c) := if is_valid (page idx c) && is_dirty (page idx c) then flush_page idx c else (0, c) in
      if negb (res =? 0) then (Refused, c) else
      (Loading idx, upd_page idx (fun p => mkPage blk off (cp_data p) false false true (last_access_tick p)) c)
  end.

(** The temporary buffer after the read, whose failure is not looked at. *)
Definition read_page (blk off : Z) (c : Photon) : list Z :=
  match read_blocks blk off (page_size c) (flash_ c) with
  | Some d => d ++ drop (length d) stack
  | None => stack
  end.

(** Another slot that holds the page by now. *)
Definition loaded_elsewhere (idx blk off : Z) (c : Photon) : option Z :=
  List.find (fun i => negb (i =? idx) && is_valid (page i c) && (block_addr (page i c) =? blk) && (page_offset (page i c) =? off)) (seqZ 0 CACHE_POOL_SIZE).

(** From the re-acquisition of the mutex; [None] asks for another attempt. *)
Definition finish_page (idx blk off : Z) (tmp : list Z) (c : Photon) : option Z * Photon :=
  match loaded_elsewhere idx blk off c with
  | Some i => (Some i, touch i (upd_page idx (fun p => set_flags (is_valid p) (is_dirty p) false p) c))
  | None =>
      if negb (is_reserved (page idx c)) then (None, c) else
      let data := zupdate (fun i _ => zlookup tmp i) 0 (page_size c) (cp_data (page idx c)) in
      let c := touch idx (upd_page idx (fun p => mkPage blk off data (is_valid p) (is_dirty p) (is_reserved p) (last_access_tick p)) c) in
      (Some idx, upd_page idx (fun p => set_flags true (is_dirty p) false p) c)
  end.

Section Threads.
Variables before_read after_read : Photon -> Photon.
Variable attempts : nat.

(** [fuel], in the operations [attempts], bounds the recursion; -1 is a refusal. *)
Fixpoint get_or_alloc_page (fuel : nat) (blk off : Z) (c : Photon) : Z * Photon :=
  match fuel with
  | O => (-1, c)
  | S fuel =>
      match begin_page blk off c with
      | (Found i, c) => (i, c)
      | (Refused, c) => (-1, c)
      | (Loading idx, c) =>
          let c := before_read c in
          let tmp := read_page blk off c in
          let c := after_read c in
          match finish_page idx blk off tmp c with
          | (Some i, c) => (i, c)
          | (None, c) => get_or_alloc_page fuel blk off c
          end
      end
  end.

(** * Operations *)

(** Position, place in the page and length of the next piece. *)
Definition chunk_at (offset size done : Z) (c : Photon) : Z * Z * Z :=
  let ps := page_size c in
  let curr := wrap32 (offset + done) in
  let in_page_idx := Z.land curr (ps - 1) in
  let chunk := ps - in_page_idx in
  (Z.land curr (Z.lnot (ps - 1)), in_page_idx, if size - done <? chunk then size - done else chunk).

Fixpoint read_loop (fuel : nat) (blk offset size done : Z) (buf : list Z) (c : Photon) : Z * list Z * Photon :=
  if done <? size then
    match fuel with
    | O => (-1, buf, c)
    | S fuel =>
        let '(off, in_page_idx, chunk) := chunk_at offset size done c in
        let '(idx, c) := get_or_alloc_page attempts blk off c in
        if idx =? -1 then (-1, buf, c) else
        read_loop fuel blk offset size (done + chunk) (buf ++ (zlookup (cp_data (page idx c)) <$> seqZ in_page_idx chunk)) c
    end
  else (done, buf, c).

(** A round moves at least one byte. *)
Definition photon_read (blk offset size : Z) (c : Photon) : Z * list Z * Photon := read_loop (Z.to_nat size) blk offset size 0 [] c.

Fixpoint write_loop (fuel : nat) (blk offset : Z) (buf : list Z) (size done : Z) (c : Photon) : Z * Photon :=
  if done <? size then
    match fuel with
    | O => (-1, c)
    | S fuel =>
        let '(off, in_page_idx, chunk) := chunk_at offset size done c in
        let '(idx, c) := get_or_alloc_page attempts blk off c in
        if idx =? -1 then (-1, c) else
        let c := upd_page idx (fun p => mkPage (block_addr p) (page_offset p) (zupdate (fun i _ => zlookup buf (done + i)) in_page_idx chunk (cp_data p)) (is_valid p) true (is_reserved p) (last_access_tick p)) c in
        write_loop fuel blk offset buf size (done + chunk) c
    end
  else (done, c).

Definition photon_write (blk offset : Z) (buf : list Z) (size : Z) (c : Photon) : Z * Photon := write_loop (Z.to_nat size) blk offset buf size 0 c.

End Threads.

Definition drop_page (blk : Z) (p : CachePage) : CachePage :=
  if (is_valid p || is_reserved p) && (block_addr p =? blk) then set_flags false false false p else p.

Definition photon_erase (blk : Z) (c : Photon) : Z * Photon :=
  let c := set_pool (drop_page blk <$> pool_ c) c in
  let '(res, fl) := erase_block blk (flash_ c) in (res, set_flash fl c).

(** One slot of the loop of [sync]. *)
Definition sync_slot (acc : Z * Photon) (i : Z) : Z * Photon :=
  let '(final_res, c) := acc in
  if is_valid (page i c) && is_dirty (page i c) then
    let '(res, c) := flush_page i c in
    (if negb (res =? 0) && (final_res =? 0) then res else final_res, c)
  else (final_res, c).

Definition photon_sync (c : Photon) : Z * Photon := foldl sync_slot (0, c) (seqZ 0 CACHE_POOL_SIZE).

Definition get_dirty_count (c : Photon) : Z := Z.of_nat (length (filter (fun p => is_valid p && is_dirty p = true) (pool_ c))).
End Cache.
