(* ===== verification/PhotonInv.v ===== *)
(** The photon cache without interference: its invariant [cache_ok A c], that flash and
    slots together hold the bytes [A], and its preservation by every operation. *)
From S2P Require Import Prelude Flash Photon.

(** * Invariant *)

(** Addresses of the store. *)
Definition in_store (fl : Flash) (a : Z) : Prop := 0 <= a < block_size_ fl * block_count_ fl.

(** A page the cache may hold. *)
Definition page_place (fl : Flash) (blk off : Z) : Prop := good_range fl blk off (page_size_ fl) /\ (page_size_ fl | off).

(** The addresses of a slot's page. *)
Definition holds_addr (fl : Flash) (p : CachePage) (a : Z) : Prop := addr_of fl (block_addr p) (page_offset p) <= a < addr_of fl (block_addr p) (page_offset p) + page_size_ fl.

(** Slot [r], if any, is reserved for a load. *)
Record page_ok (A : Z -> Z) (r : option Z) (c : Photon) (i : Z) : Prop := {
  pg_len : length (cp_data (page i c)) = 256%nat;
  pg_bytes : all_bytes (cp_data (page i c));
  pg_reserved : is_reserved (page i c) = true <-> r = Some i;
  pg_free : r = Some i -> is_valid (page i c) = false;
  pg_place : is_valid (page i c) = true -> page_place (flash_ c) (block_addr (page i c)) (page_offset (page i c));
  pg_data : is_valid (page i c) = true -> forall k, 0 <= k < page_size_ (flash_ c) ->
    zlookup (cp_data (page i c)) k = A (addr_of (flash_ c) (block_addr (page i c)) (page_offset (page i c)) + k);
  pg_tick : is_valid (page i c) = true -> last_access_tick (page i c) <= tick_counter_ c;
}.

Record cache_ok (A : Z -> Z) (r : option Z) (c : Photon) : Prop := {
  co_flash : flash_ok (flash_ c);
  co_geom : exists k, 0 <= k <= 8 /\ page_size_ (flash_ c) = 2 ^ k;
  co_div : (page_size_ (flash_ c) | block_size_ (flash_ c));
  co_len : length (pool_ c) = 8%nat;
  co_tick : 0 <= tick_counter_ c < 4294967295;
  co_pages : forall i, 0 <= i < 8 -> page_ok A r c i;
  co_distinct : forall i j, 0 <= i < 8 -> 0 <= j < 8 -> is_valid (page i c) = true -> is_valid (page j c) = true ->
    block_addr (page i c) = block_addr (page j c) -> page_offset (page i c) = page_offset (page j c) -> i = j;
  co_bytes : forall a, in_store (flash_ c) a -> is_byte (A a);
  co_legal : forall a, in_store (flash_ c) a -> Z.land (zlookup (memory_ (flash_ c)) a) (A a) = A a;
  co_coherent : forall a, in_store (flash_ c) a ->
    zlookup (memory_ (flash_ c)) a = A a \/ exists i, 0 <= i < 8 /\ is_valid (page i c) = true /\ is_dirty (page i c) = true /\ holds_addr (flash_ c) (page i c) a;
}.

(** ** Geometry *)

Lemma page_size_bounds A r c : cache_ok A r c -> 0 < page_size_ (flash_ c) <= 256 /\ page_size c = page_size_ (flash_ c).
Proof.
  intros H. destruct (co_geom _ _ _ H) as (k & Hk & E). assert (Hp : 1 <= 2 ^ k <= 2 ^ 8) by (split; [change 1 with (2 ^ 0)|]; apply Z.pow_le_mono_r; lia). change (2 ^ 8) with 256 in Hp.
  split; [lia|]. unfold page_size. rewrite E. destruct (Z.ltb_spec 256 (2 ^ k)); [lia|done].
Qed.

(** Two aligned pages that share an address are the same page. *)
Lemma page_unique fl b o b' o' a :
  flash_ok fl -> 0 < page_size_ fl -> (page_size_ fl | block_size_ fl) -> page_place fl b o -> page_place fl b' o' ->
  addr_of fl b o <= a < addr_of fl b o + page_size_ fl -> addr_of fl b' o' <= a < addr_of fl b' o' + page_size_ fl -> b = b' /\ o = o'.
Proof.
  intros Hf Hps [q Eq] [(Hb & Ho & _ & Hr) [x Ex]] [(Hb' & Ho' & _ & Hr') [y Ey]]. unfold addr_of. intros H1 H2.
  assert (Hbb : b = b') by nia. subst b'. split; [done|]. assert (x = y) by nia. congruence.
Qed.

Lemma page_addr_in fl b o a : flash_ok fl -> page_place fl b o -> addr_of fl b o <= a < addr_of fl b o + page_size_ fl -> in_store fl a.
Proof. intros Hf [Hg _] Ha. pose proof (range_in_memory _ _ _ _ Hf Hg). unfold in_store. lia. Qed.

(** ** Reading and updating slots *)

Lemma page_upd i j f c : length (pool_ c) = 8%nat -> 0 <= i < 8 -> page j (upd_page i f c) = if decide (i = j) then f (page j c) else page j c.
Proof. intros Hl Hi. unfold page, upd_page. cbn. apply zlookup_zalter. unfold in_range. rewrite Hl. lia. Qed.

Lemma scan_spec pages i blk off best t :
  match scan pages i blk off best t with
  | inl j => exists p, i <= j < i + Z.of_nat (length pages) /\ pages !! Z.to_nat (j - i) = Some p /\ is_valid p = true /\ block_addr p = blk /\ page_offset p = off
  | inr j =>
      (forall p, p ∈ pages -> is_valid p = true -> ~ (block_addr p = blk /\ page_offset p = off)) /\
      ((j = best /\ forall p, p ∈ pages -> is_reserved p = true \/ is_valid p = true /\ t <= last_access_tick p) \/
       exists p, i <= j < i + Z.of_nat (length pages) /\ pages !! Z.to_nat (j - i) = Some p /\ is_reserved p = false)
  end.
Proof.
  revert i best t. induction pages as [|p pages IH]; intros i best t; cbn [scan]; [split; [set_solver|left; split; [done|set_solver]]|].
  destruct (is_valid p && (block_addr p =? blk) && (page_offset p =? off)) eqn:Ehit.
  { apply andb_true_iff in Ehit as [[Hv Hb%Z.eqb_eq]%andb_true_iff Ho%Z.eqb_eq]. exists p. rewrite Z.sub_diag. cbn. split; [lia|done]. }
  assert (Hno : is_valid p = true -> ~ (block_addr p = blk /\ page_offset p = off)) by (intros Hv [<- <-]; rewrite Hv, !Z.eqb_refl in Ehit; done).
  assert (Hstep : forall best' t', (best' = i /\ is_reserved p = false) \/ (best' = best /\ t' = t /\ (is_reserved p = true \/ is_valid p = true /\ t <= last_access_tick p)) ->
    match scan pages (i + 1) blk off best' t' with
    | inl j => exists q, i <= j < i + Z.of_nat (S (length pages)) /\ (p :: pages) !! Z.to_nat (j - i) = Some q /\ is_valid q = true /\ block_addr q = blk /\ page_offset q = off
    | inr j => (forall q, q ∈ p :: pages -> is_valid q = true -> ~ (block_addr q = blk /\ page_offset q = off)) /\
        ((j = best /\ forall q, q ∈ p :: pages -> is_reserved q = true \/ is_valid q = true /\ t <= last_access_tick q) \/
         exists q, i <= j < i + Z.of_nat (S (length pages)) /\ (p :: pages) !! Z.to_nat (j - i) = Some q /\ is_reserved q = false)
    end).
  { intros best' t' Hbest. specialize (IH (i + 1) best' t').
    assert (Hlk : forall j, i + 1 <= j -> (p :: pages) !! Z.to_nat (j - i) = pages !! Z.to_nat (j - (i + 1))) by (intros j Hj; replace (Z.to_nat (j - i)) with (S (Z.to_nat (j - (i + 1)))) by lia; done).
    destruct (scan pages (i + 1) blk off best' t') as [j|j].
    - destruct IH as (q & Hj & Hq & H). exists q. split; [lia|]. by rewrite Hlk by lia.
    - destruct IH as [Hn IH]. split; [intros q [->|Hq]%elem_of_cons; [done|by apply Hn]|]. destruct IH as [[-> Hall]|(q & Hj & Hq & Hr)].
      + destruct Hbest as [[-> Hr]|(-> & -> & Hp)]; [right; exists p; rewrite Z.sub_diag; cbn; split; [lia|done]|left]. split; [done|]. intros q [->|Hq]%elem_of_cons; [done|by apply Hall].
      + right. exists q. split; [lia|]. by rewrite Hlk by lia. }
  cbn [length]. destruct (is_valid p) eqn:Ev, (is_reserved p) eqn:Er; cbn [negb andb]; try (apply Hstep; by auto).
  destruct (Z.ltb_spec (last_access_tick p) t); apply Hstep; auto 8.
Qed.

(** What the scan finds in a pool. *)
Lemma scan_pool A r c blk off :
  cache_ok A r c ->
  match scan (pool_ c) 0 blk off (-1) 4294967295 with
  | inl i => 0 <= i < 8 /\ is_valid (page i c) = true /\ block_addr (page i c) = blk /\ page_offset (page i c) = off
  | inr i => (forall j, 0 <= j < 8 -> is_valid (page j c) = true -> ~ (block_addr (page j c) = blk /\ page_offset (page j c) = off)) /\
      (r = None -> 0 <= i < 8 /\ is_reserved (page i c) = false)
  end.
Proof.
  intros Hok. pose proof (scan_spec (pool_ c) 0 blk off (-1) 4294967295) as Hs. rewrite (co_len _ _ _ Hok) in Hs.
  assert (Hpg : forall j p, 0 <= j -> pool_ c !! Z.to_nat (j - 0) = Some p -> page j c = p) by (intros j p Hj Hp; rewrite Z.sub_0_r in Hp; by apply zlookup_Some).
  assert (Hin : forall j, 0 <= j < 8 -> page j c ∈ pool_ c).
  { intros j Hj. destruct (lookup_lt_is_Some_2 (pool_ c) (Z.to_nat j)) as [p Hp]; [rewrite (co_len _ _ _ Hok); lia|]. unfold page. rewrite (zlookup_Some _ _ p) by (done || lia). by eapply list_elem_of_lookup_2. }
  destruct (scan _ 0 blk off (-1) 4294967295) as [i|i].
  - destruct Hs as (p & Hi & Hp & H). rewrite (Hpg i p) by (done || lia). split; [lia|done].
  - destruct Hs as [Hn Hs]. split; [intros j Hj Hv; apply (Hn (page j c)); auto|]. intros ->. destruct Hs as [[_ Hall]|(p & Hi & Hp & Hr)].
    + exfalso. pose proof (co_pages _ _ _ Hok 0 ltac:(lia)) as Hp. destruct (Hall (page 0 c) (Hin 0 ltac:(lia))) as [Hr|[Hv Ht]].
      * by apply (pg_reserved _ _ _ _ Hp) in Hr.
      * pose proof (pg_tick _ _ _ _ Hp Hv). pose proof (co_tick _ _ _ Hok). lia.
    + rewrite (Hpg i p) by (done || lia). split; [lia|done].
Qed.

(** ** Steps that keep the bytes *)

(** Nothing but ticks and counters changes. *)
Lemma cache_ok_ext A r c c' :
  cache_ok A r c -> flash_ c' = flash_ c -> length (pool_ c') = 8%nat -> tick_counter_ c <= tick_counter_ c' < 4294967295 ->
  (forall i, 0 <= i < 8 -> exists t, page i c' = set_tick t (page i c) /\ (t = last_access_tick (page i c) \/ t <= tick_counter_ c')) ->
  cache_ok A r c'.
Proof.
  intros [] Ef Hl Ht Hp. split; rewrite ?Ef; try done; [lia| | |].
  - intros i Hi. destruct (co_pages0 i Hi), (Hp i Hi) as (t & Et & Htt). split; rewrite ?Et, ?Ef; try done. cbn. intros Hv. specialize (pg_tick0 Hv). lia.
  - intros i j Hi Hj. destruct (Hp i Hi) as (ti & -> & _), (Hp j Hj) as (tj & -> & _). by apply co_distinct0.
  - intros a Ha. destruct (co_coherent0 a Ha) as [?|(i & Hi & H)]; [by left|right]. exists i. destruct (Hp i Hi) as (t & -> & _). done.
Qed.

Lemma touch_ok A r c i : cache_ok A r c -> 0 <= i < 8 -> tick_counter_ c + 1 < 4294967295 ->
  cache_ok A r (touch i c) /\ tick_counter_ (touch i c) = tick_counter_ c + 1 /\ flash_ (touch i c) = flash_ c /\
  forall j, page j (touch i c) = if decide (i = j) then set_tick (tick_counter_ c + 1) (page j c) else page j c.
Proof.
  intros Hok Hi Ht. pose proof (co_tick _ _ _ Hok). assert (Et : tick_counter_ (touch i c) = tick_counter_ c + 1) by (cbn; apply wrap32_small; unfold is_u32; lia).
  assert (Hp : forall j, page j (touch i c) = if decide (i = j) then set_tick (tick_counter_ c + 1) (page j c) else page j c).
  { intros j. unfold page, touch. cbn. rewrite zlookup_zalter by (unfold in_range; rewrite (co_len _ _ _ Hok); lia). rewrite wrap32_small by (unfold is_u32; lia). done. }
  split; [|done]. apply (cache_ok_ext A r c); [done|done|cbn; rewrite length_zalter; apply Hok|lia|].
  intros j Hj. rewrite Hp. case_decide; [eexists; split; [done|]; lia|]. exists (last_access_tick (page j c)). split; [by destruct (page j c)|by left].
Qed.

Lemma write_retry_ok data_addr i p fl :
  flash_ok fl -> 0 < page_size_ fl <= 256 -> all_bytes (cp_data p) -> length (cp_data p) = 256%nat -> page_place fl (block_addr p) (page_offset p) ->
  let '(res, fl') := write_retry data_addr 3 i p (-1) fl in
  res = 0 /\ flash_ok fl' /\ block_size_ fl' = block_size_ fl /\ block_count_ fl' = block_count_ fl /\ page_size_ fl' = page_size_ fl /\
  forall j, zlookup (memory_ fl') j = programmed (memory_ fl) (addr_of fl (block_addr p) (page_offset p)) (cp_data p) (page_size_ fl) j.
Proof.
  intros Hf Hps Hb Hl [Hg _]. cbn [write_retry]. pose proof (write_blocks_ok fl (data_addr i) (block_addr p) (page_offset p) (cp_data p) (page_size_ fl) Hf Hb ltac:(lia) Hg) as Hw.
  destruct (write_blocks _ _ _ _ _ fl) as [res fl']. destruct Hw as (-> & H1 & H2 & H3 & H4 & _ & H5). cbn. done.
Qed.

Lemma flush_ok data_addr A r c i :
  cache_ok A r c -> 0 <= i < 8 ->
  let '(res, c') := flush_page data_addr i c in
  res = 0 /\ cache_ok A r c' /\ tick_counter_ c' = tick_counter_ c /\
  (forall j, page j c' = if decide (i = j) then set_flags (is_valid (page j c)) (is_dirty (page j c) && negb (is_valid (page j c))) (is_reserved (page j c)) (page j c) else page j c) /\
  block_size_ (flash_ c') = block_size_ (flash_ c) /\ block_count_ (flash_ c') = block_count_ (flash_ c) /\ page_size_ (flash_ c') = page_size_ (flash_ c).
Proof.
  intros Hok Hi. pose proof (page_size_bounds _ _ _ Hok) as [Hps _]. pose proof Hok as []. destruct (co_pages0 i Hi). unfold flush_page.
  destruct (is_valid (page i c)) eqn:Ev; cbn [negb orb]; [destruct (is_dirty (page i c)) eqn:Ed; cbn [negb orb]|].
  2: { split; [done|]. split; [done|]. split; [done|]. split; [|done]. intros j. destruct (decide (i = j)) as [<-|]; [|done]. rewrite Ed. by destruct (page i c); cbn in *; subst. }
  2: { split; [done|]. split; [done|]. split; [done|]. split; [|done]. intros j. destruct (decide (i = j)) as [<-|]; [|done]. rewrite Ev, andb_true_r. by destruct (page i c); cbn in *; subst. }
  pose proof (write_retry_ok data_addr i (page i c) (flash_ c) co_flash0 Hps pg_bytes0 pg_len0 (pg_place0 eq_refl)) as Hw.
  destruct (write_retry data_addr 3 i (page i c) (-1) (flash_ c)) as [res fl']. destruct Hw as (-> & Hf' & Ebs & Ebc & Eps & Hmem). cbn [Z.eqb].
  set (c' := mkPhoton _ _ _ _ _ _). assert (Hin : forall a, in_store fl' a <-> in_store (flash_ c) a) by (intros a; unfold in_store; by rewrite Ebs, Ebc).
  assert (Haddr : forall b o, addr_of fl' b o = addr_of (flash_ c) b o) by (intros b o; unfold addr_of; by rewrite Ebs).
  assert (Hplace : forall b o, page_place fl' b o <-> page_place (flash_ c) b o) by (intros b o; unfold page_place, good_range; by rewrite Ebs, Ebc, Eps).
  assert (Hpage : forall j, page j c' = if decide (i = j) then set_flags (is_valid (page j c)) (is_dirty (page j c) && negb (is_valid (page j c))) (is_reserved (page j c)) (page j c) else page j c).
  { intros j. unfold page, c'. cbn. rewrite zlookup_zalter by (unfold in_range; rewrite co_len0; lia). destruct (decide (i = j)) as [<-|]; [|done]. fold (page i c). by rewrite Ev, andb_false_r. }
  assert (Hholds : forall j a, holds_addr fl' (page j c') a <-> holds_addr (flash_ c) (page j c) a) by (intros j a; unfold holds_addr; rewrite Haddr, Eps, Hpage; by destruct (decide (i = j))).
  assert (Hval : forall a, in_store (flash_ c) a -> zlookup (memory_ fl') a = if decide (addr_of (flash_ c) (block_addr (page i c)) (page_offset (page i c)) <= a < addr_of (flash_ c) (block_addr (page i c)) (page_offset (page i c)) + page_size_ (flash_ c)) then A a else zlookup (memory_ (flash_ c)) a).
  { intros a Ha. rewrite Hmem. unfold programmed. case_decide as Hd; [|done]. rewrite (pg_data0 eq_refl) by lia. rewrite Zplus_minus. by apply co_legal0. }
  split; [done|]. split; [|done]. split; cbn [flash_ tick_counter_ pool_ c' set_flash]; rewrite ?Eps, ?Ebs; try done.
  - by rewrite length_zalter.
  - intros j Hj. destruct (co_pages0 j Hj). split; rewrite !Hpage; case_decide; cbn [cp_data is_reserved is_valid is_dirty block_addr page_offset last_access_tick set_flags flash_ tick_counter_ c' set_flash]; rewrite ?Eps; try done;
      (intros; rewrite ?Hplace, ?Haddr; auto).
  - intros j k Hj Hk. rewrite !Hpage. repeat case_decide; cbn; subst; try done; intros; by apply co_distinct0.
  - intros a Ha%Hin. by apply co_bytes0.
  - intros a Ha%Hin. rewrite Hval by done. case_decide; [apply Z.land_diag|by apply co_legal0].
  - intros a Ha%Hin. rewrite Hval by done. case_decide as Hd; [by left|]. destruct (co_coherent0 a Ha) as [?|(j & Hj & Hv & Hdj & Ha')]; [by left|right].
    exists j. rewrite Hholds, !Hpage. destruct (decide (i = j)) as [<-|]; [unfold holds_addr in Ha'; lia|]. done.
Qed.

(** Taking a slot that holds nothing unsaved for a load. *)
Lemma reserve_ok A c idx blk off :
  cache_ok A None c -> 0 <= idx < 8 -> is_valid (page idx c) && is_dirty (page idx c) = false ->
  cache_ok A (Some idx) (upd_page idx (fun p => mkPage blk off (cp_data p) false false true (last_access_tick p)) c).
Proof.
  intros [] Hi Hcl. set (c' := upd_page _ _ c). assert (Hp : forall j, page j c' = if decide (idx = j) then mkPage blk off (cp_data (page j c)) false false true (last_access_tick (page j c)) else page j c) by (intros j; by apply page_upd).
  split; try done.
  - cbn. by rewrite length_zalter.
  - intros j Hj. destruct (co_pages0 j Hj). split; rewrite Hp; destruct (decide (idx = j)) as [<-|Hne]; cbn; try done; [rewrite pg_reserved0; split; [done|congruence]|congruence].
  - intros i j Hi' Hj. rewrite !Hp. destruct (decide (idx = i)), (decide (idx = j)); cbn; try done. by apply co_distinct0.
  - intros a Ha. destruct (co_coherent0 a Ha) as [?|(i & Hi' & Hv & Hd & Hh)]; [by left|right]. exists i. rewrite Hp. destruct (decide (idx = i)) as [<-|]; [by rewrite Hv, Hd in Hcl|]. done.
Qed.

Lemma begin_ok data_addr A c blk off :
  cache_ok A None c -> tick_counter_ c + 1 < 4294967295 ->
  let '(l, c') := begin_page data_addr blk off c in
  block_size_ (flash_ c') = block_size_ (flash_ c) /\ block_count_ (flash_ c') = block_count_ (flash_ c) /\ page_size_ (flash_ c') = page_size_ (flash_ c) /\
  match l with
  | Found i => cache_ok A None c' /\ tick_counter_ c' = tick_counter_ c + 1 /\ 0 <= i < 8 /\ is_valid (page i c') = true /\ block_addr (page i c') = blk /\ page_offset (page i c') = off
  | Refused => False
  | Loading i => cache_ok A (Some i) c' /\ tick_counter_ c' = tick_counter_ c /\ 0 <= i < 8 /\
      (forall j, 0 <= j < 8 -> is_valid (page j c') = true -> ~ (block_addr (page j c') = blk /\ page_offset (page j c') = off))
  end.
Proof.
  intros Hok Ht. unfold begin_page. pose proof (scan_pool A None c blk off Hok) as Hs. destruct (scan _ 0 blk off (-1) 4294967295) as [i|i].
  - destruct Hs as (Hi & Hv & Hb & Ho). destruct (touch_ok A None c i Hok Hi Ht) as (H1 & H2 & H3 & H4). split; [done|]. split; [done|]. split; [done|].
    split; [|split; [done|split; [done|]]].
    + apply (cache_ok_ext A None (touch i c)); try done; [apply H1|pose proof (co_tick _ _ _ H1); cbn in *; lia|]. intros j Hj. exists (last_access_tick (page j (touch i c))). split; [|by left]. change (page j (count_hit (touch i c))) with (page j (touch i c)). by destruct (page j (touch i c)).
    + change (page i (count_hit (touch i c))) with (page i (touch i c)). rewrite H4, decide_True by done. done.
  - destruct Hs as [Hn Hs]. destruct (Hs eq_refl) as [Hi Hr]. clear Hs. destruct (Z.eqb_spec i (-1)); [lia|].
    assert (Hm : cache_ok A None (count_miss c)).
    { apply (cache_ok_ext A None c); try done; [apply Hok|pose proof (co_tick _ _ _ Hok); cbn; lia|]. intros j Hj. exists (last_access_tick (page j c)). split; [|by left]. change (page j (count_miss c)) with (page j c). by destruct (page j c). }
    change (page i (count_miss c)) with (page i c).
    assert (Hstep : exists c1, (if is_valid (page i c) && is_dirty (page i c) then flush_page data_addr i (count_miss c) else (0, count_miss c)) = (0, c1) /\ cache_ok A None c1 /\ tick_counter_ c1 = tick_counter_ c /\
      is_valid (page i c1) && is_dirty (page i c1) = false /\
      (forall j, is_valid (page j c1) = is_valid (page j c) /\ block_addr (page j c1) = block_addr (page j c) /\ page_offset (page j c1) = page_offset (page j c)) /\
      block_size_ (flash_ c1) = block_size_ (flash_ c) /\ block_count_ (flash_ c1) = block_count_ (flash_ c) /\ page_size_ (flash_ c1) = page_size_ (flash_ c)).
    { destruct (is_valid (page i c) && is_dirty (page i c)) eqn:Ed; [|by exists (count_miss c)].
      pose proof (flush_ok data_addr A None (count_miss c) i Hm Hi) as Hf. destruct (flush_page data_addr i (count_miss c)) as [res c1]. destruct Hf as (-> & Hok1 & Ht1 & Hp & Hg). exists c1.
      split; [done|]. split; [done|]. split; [done|]. apply andb_true_iff in Ed as [Ev Ed]. split; [|split; [|done]].
      - rewrite Hp, decide_True by done. cbn. change (page i (count_miss c)) with (page i c). by rewrite Ev, Ed.
      - intros j. rewrite Hp. destruct (decide (i = j)); done. }
    destruct Hstep as (c1 & -> & Hok1 & Ht1 & Hcl & Hsame & Hg1 & Hg2 & Hg3). cbn [Z.eqb negb]. set (c2 := upd_page _ _ c1). split; [done|]. split; [done|]. split; [done|]. split; [by apply reserve_ok|]. split; [done|]. split; [done|].
    intros j Hj. unfold c2. rewrite page_upd by (apply Hok1 || done). destruct (decide (i = j)); cbn; [done|]. destruct (Hsame j) as (-> & -> & ->). by apply Hn.
Qed.

Lemma zlookup_fmap_seqZ (f : Z -> Z) a n l k : 0 <= k < n -> zlookup ((f <$> seqZ a n) ++ l) k = f (a + k).
Proof.
  intros Hk. apply zlookup_Some; [lia|]. rewrite lookup_app_l by (rewrite length_fmap, length_seqZ; lia). rewrite list_lookup_fmap.
  rewrite (proj2 (lookup_seqZ a n (Z.to_nat k) (a + k))) by lia. done.
Qed.

Lemma loaded_elsewhere_none idx blk off c :
  (forall j, 0 <= j < 8 -> is_valid (page j c) = true -> ~ (block_addr (page j c) = blk /\ page_offset (page j c) = off)) -> loaded_elsewhere idx blk off c = None.
Proof.
  intros Hn. unfold loaded_elsewhere. destruct (List.find _ _) as [i|] eqn:E; [|done]. apply List.find_some in E as [Hi%list_elem_of_In%elem_of_seqZ Hc]. unfold CACHE_POOL_SIZE in Hi.
  rewrite !andb_true_iff, !Z.eqb_eq in Hc. destruct Hc as [[[_ Hv] Hb] Ho]. destruct (Hn i); [lia|done|done].
Qed.

(** What a load reads is what the store holds. *)
Lemma read_page_ok stack A r c blk off k :
  cache_ok A r c -> page_place (flash_ c) blk off -> (forall j, 0 <= j < 8 -> is_valid (page j c) = true -> ~ (block_addr (page j c) = blk /\ page_offset (page j c) = off)) ->
  0 <= k < page_size_ (flash_ c) -> zlookup (read_page stack blk off c) k = A (addr_of (flash_ c) blk off + k).
Proof.
  intros Hok Hpl Hn Hk. pose proof (page_size_bounds _ _ _ Hok) as [Hps Eps]. unfold read_page. rewrite Eps, (read_blocks_ok _ _ _ _ (co_flash _ _ _ Hok) (proj1 Hpl)).
  rewrite zlookup_fmap_seqZ by done. assert (Ha : in_store (flash_ c) (addr_of (flash_ c) blk off + k)) by (apply (page_addr_in _ blk off); [apply Hok|done|lia]).
  destruct (co_coherent _ _ _ Hok _ Ha) as [->|(i & Hi & Hv & _ & Hh)]; [done|]. destruct (Hn i Hi Hv).
  apply (page_unique (flash_ c) _ _ blk off (addr_of (flash_ c) blk off + k)); [apply Hok|lia|apply Hok| |done|exact Hh|lia]. by apply (co_pages _ _ _ Hok i Hi).
Qed.

Lemma finish_ok A c idx blk off tmp :
  cache_ok A (Some idx) c -> 0 <= idx < 8 -> tick_counter_ c + 1 < 4294967295 -> page_place (flash_ c) blk off ->
  (forall j, 0 <= j < 8 -> is_valid (page j c) = true -> ~ (block_addr (page j c) = blk /\ page_offset (page j c) = off)) ->
  (forall k, 0 <= k < page_size_ (flash_ c) -> zlookup tmp k = A (addr_of (flash_ c) blk off + k)) ->
  let '(l, c') := finish_page idx blk off tmp c in
  l = Some idx /\ cache_ok A None c' /\ tick_counter_ c' = tick_counter_ c + 1 /\ flash_ c' = flash_ c /\
  is_valid (page idx c') = true /\ block_addr (page idx c') = blk /\ page_offset (page idx c') = off.
Proof.
  intros Hok Hi Ht Hpl Hn Htmp. pose proof (page_size_bounds _ _ _ Hok) as [Hps Eps]. unfold finish_page. rewrite loaded_elsewhere_none by done. pose proof Hok as []. destruct (co_pages0 idx Hi).
  rewrite (proj2 pg_reserved0 eq_refl). cbn [negb]. rewrite Eps. set (data := zupdate _ 0 _ _). set (c' := upd_page idx _ (touch idx _)).
  assert (Hd : forall k, zlookup data k = if decide (0 <= k < 0 + page_size_ (flash_ c)) then zlookup tmp (k - 0) else zlookup (cp_data (page idx c)) k) by (intros k; apply zupdate_lookup; lia).
  assert (Hp : forall j, page j c' = if decide (idx = j) then mkPage blk off data true (is_dirty (page j c)) false (tick_counter_ c + 1) else page j c).
  { intros j. unfold c'. rewrite page_upd by (cbn; rewrite ?length_zalter; done). unfold touch, page. cbn. rewrite !zlookup_zalter by (unfold in_range; rewrite ?length_zalter, co_len0; lia).
    rewrite wrap32_small by (unfold is_u32; lia). destruct (decide (idx = j)); done. }
  assert (Et : tick_counter_ c' = tick_counter_ c + 1) by (cbn; apply wrap32_small; unfold is_u32; lia).
  assert (Hby : all_bytes data).
  { apply all_bytes_intro. intros k [Hk0 Hk1]. unfold data in Hk1. rewrite length_zupdate, pg_len0 in Hk1. rewrite Hd. destruct (decide _) as [Hin|]; [|apply all_bytes_lookup; [done|split; [lia|rewrite pg_len0; lia]]].
    rewrite Z.sub_0_r, Htmp by lia. apply co_bytes0. apply (page_addr_in _ blk off); [done|done|lia]. }
  split; [done|]. split; [|split; [done|split; [done|rewrite Hp, decide_True by done; done]]].
  split; rewrite ?Et; try done; [cbn; by rewrite !length_zalter|lia| | |].
  - intros j Hj. destruct (co_pages0 j Hj). split; rewrite ?Et, Hp; destruct (decide (idx = j)) as [<-|Hne]; cbn; try done.
    + unfold data. by rewrite length_zupdate.
    + rewrite pg_reserved1. split; [congruence|done].
    + intros _ k Hk. rewrite Hd, decide_True, Z.sub_0_r by lia. by apply Htmp.
    + intros Hv. specialize (pg_tick1 Hv). lia.
  - intros i j Hi' Hj. rewrite !Hp. destruct (decide (idx = i)) as [<-|], (decide (idx = j)) as [<-|]; cbn; try done; [|intros|].
    + intros _ Hv Eb Eo. destruct (Hn j Hj Hv). done.
    + by destruct (Hn i).
    + by apply co_distinct0.
  - intros a Ha. destruct (co_coherent0 a Ha) as [?|(i & Hi' & Hv & Hdi & Hh)]; [by left|right]. exists i. rewrite Hp. destruct (decide (idx = i)) as [<-|]; [rewrite pg_free0 in Hv by done; done|]. done.
Qed.

(** Getting a page, without interference: it always succeeds, at the first attempt. *)
Lemma get_page_ok data_addr stack attempts A c blk off :
  cache_ok A None c -> (0 < attempts)%nat -> tick_counter_ c + 1 < 4294967295 -> page_place (flash_ c) blk off ->
  let '(i, c') := get_or_alloc_page data_addr stack (fun c => c) (fun c => c) attempts blk off c in
  cache_ok A None c' /\ tick_counter_ c' = tick_counter_ c + 1 /\ 0 <= i < 8 /\ is_valid (page i c') = true /\ block_addr (page i c') = blk /\ page_offset (page i c') = off /\
  block_size_ (flash_ c') = block_size_ (flash_ c) /\ block_count_ (flash_ c') = block_count_ (flash_ c) /\ page_size_ (flash_ c') = page_size_ (flash_ c).
Proof.
  intros Hok Ha Ht Hpl. destruct attempts as [|attempts]; [lia|]. cbn [get_or_alloc_page]. pose proof (begin_ok data_addr A c blk off Hok Ht) as Hb.
  destruct (begin_page data_addr blk off c) as [[i| |i] c1]; destruct Hb as (G1 & G2 & G3 & Hb); [destruct Hb as (H1 & H2 & H3 & H4 & H5 & H6); done|done|].
  destruct Hb as (Hok1 & Ht1 & Hi & Hn). assert (Hpl1 : page_place (flash_ c1) blk off) by (unfold page_place, good_range in *; by rewrite G1, G2, G3).
  pose proof (finish_ok A c1 i blk off (read_page stack blk off c1) Hok1 Hi ltac:(lia) Hpl1 Hn (fun k Hk => read_page_ok stack A (Some i) c1 blk off k Hok1 Hpl1 Hn Hk)) as Hf.
  destruct (finish_page i blk off (read_page stack blk off c1) c1) as [l c2]. destruct Hf as (-> & H1 & H2 & H3 & H4 & H5 & H6). rewrite H3, G1, G2, G3. split; [done|]. split; [lia|]. done.
Qed.

(** * Operations *)

Definition same_geom (c c' : Photon) : Prop :=
  block_size_ (flash_ c') = block_size_ (flash_ c) /\ block_count_ (flash_ c') = block_count_ (flash_ c) /\ page_size_ (flash_ c') = page_size_ (flash_ c).

(** The store as a function of addresses: reading and overwriting a range, erasing a
    block. *)
Definition store_read (A : Z -> Z) (a n : Z) : list Z := A <$> seqZ a n.
Definition store_write (A : Z -> Z) (a : Z) (buf : list Z) (n x : Z) : Z := if (a <=? x) && (x <? a + n) then zlookup buf (x - a) else A x.
Definition store_erase (A : Z -> Z) (a n x : Z) : Z := if (a <=? x) && (x <? a + n) then 255 else A x.

Lemma range_bool a n x : (a <=? x) && (x <? a + n) = bool_decide (a <= x < a + n).
Proof. apply eq_true_iff_eq. rewrite andb_true_iff, Z.leb_le, Z.ltb_lt, bool_decide_eq_true. done. Qed.

Lemma cache_ok_store A A' r c : cache_ok A r c -> (forall a, in_store (flash_ c) a -> A' a = A a) -> cache_ok A' r c.
Proof.
  intros Hok He. pose proof Hok as []. split; try done.
  - intros i Hi. destruct (co_pages0 i Hi). split; try done. intros Hv k Hk. rewrite pg_data0 by done. symmetry. apply He.
    apply (page_addr_in _ (block_addr (page i c)) (page_offset (page i c))); [done|by apply pg_place0|lia].
  - intros a Ha. rewrite He by done. by apply co_bytes0.
  - intros a Ha. rewrite He by done. by apply co_legal0.
  - intros a Ha. rewrite He by done. by apply co_coherent0.
Qed.

Lemma chunk_ok A r c blk offset size k :
  cache_ok A r c -> 0 <= blk < block_count_ (flash_ c) -> 0 <= offset -> offset + size <= block_size_ (flash_ c) -> 0 <= k < size ->
  exists off ip n, chunk_at offset size k c = (off, ip, n) /\ page_place (flash_ c) blk off /\ off + ip = offset + k /\ 0 <= ip /\ ip + n <= page_size_ (flash_ c) /\ 1 <= n <= size - k.
Proof.
  intros Hok Hb Ho Hs Hk. pose proof (page_size_bounds _ _ _ Hok) as [Hps Eps]. destruct (co_geom _ _ _ Hok) as (e & He & Ee). pose proof (co_flash _ _ _ Hok) as [[F1 F2] F3 _]. destruct (co_div _ _ _ Hok) as [q Eq].
  assert (block_size_ (flash_ c) <= block_size_ (flash_ c) * block_count_ (flash_ c)) by nia. unfold chunk_at. rewrite Eps, wrap32_small by (unfold is_u32; lia).
  set (ps := page_size_ (flash_ c)) in *. set (x := offset + k) in *. assert (Eo : ps - 1 = Z.ones e) by (rewrite Z.ones_equiv; lia).
  assert (E1 : Z.land x (ps - 1) = x mod ps) by (rewrite Eo, Z.land_ones, Ee by lia; done).
  assert (E2 : Z.land x (Z.lnot (ps - 1)) = ps * (x / ps)). { rewrite <- Z.ldiff_land, Eo, Z.ldiff_ones_r, Z.shiftl_mul_pow2, Z.shiftr_div_pow2, <- Ee by lia. apply Z.mul_comm. }
  rewrite E1, E2. pose proof (Z.div_mod x ps ltac:(lia)). pose proof (Z.mod_pos_bound x ps ltac:(lia)). eexists _, _, _. split; [done|].
  assert (0 <= x / ps) by (apply Z.div_pos; lia). assert (x / ps < q) by nia. split; [split; [split; [done|]; fold ps; nia|exists (x / ps); fold ps; lia]|].
  destruct (Z.ltb_spec (size - k) (ps - x mod ps)); lia.
Qed.

Section Ops.
Context (data_addr : Z -> Z) (stack : list Z) (attempts : nat) (Hatt : (0 < attempts)%nat).

Lemma read_loop_ok fuel A c blk offset size k :
  cache_ok A None c -> 0 <= blk < block_count_ (flash_ c) -> 0 <= offset -> offset + size <= block_size_ (flash_ c) -> 0 <= k <= size ->
  size - k <= Z.of_nat fuel -> tick_counter_ c + (size - k) < 4294967295 ->
  exists c', read_loop data_addr stack (fun c => c) (fun c => c) attempts fuel blk offset size k (store_read A (addr_of (flash_ c) blk offset) k) c =
    (size, store_read A (addr_of (flash_ c) blk offset) size, c') /\ cache_ok A None c' /\ same_geom c c' /\ tick_counter_ c' <= tick_counter_ c + (size - k).
Proof.
  revert c k. induction fuel as [|fuel IH]; intros c k Hok Hb Ho Hs Hk Hf Ht; cbn [read_loop].
  - assert (k = size) as -> by lia. rewrite (proj2 (Z.ltb_ge size size)) by lia. exists c. split; [done|]. split; [done|]. split; [done|]. lia.
  - destruct (Z.ltb_spec k size); [|assert (k = size) as -> by lia; exists c; split; [done|]; split; [done|]; split; [done|]; lia].
    destruct (chunk_ok A None c blk offset size k Hok Hb Ho Hs ltac:(lia)) as (off & ip & n & -> & Hpl & Eoff & Hip & Hn & Hn1).
    pose proof (get_page_ok data_addr stack attempts A c blk off Hok Hatt ltac:(lia) Hpl) as Hg. destruct (get_or_alloc_page _ _ _ _ attempts blk off c) as [i c1].
    destruct Hg as (Hok1 & Ht1 & Hi & Hv & Eb & Eo & G1 & G2 & G3). destruct (Z.eqb_spec i (-1)); [lia|].
    assert (Hbuf : store_read A (addr_of (flash_ c) blk offset) k ++ (zlookup (cp_data (page i c1)) <$> seqZ ip n) = store_read A (addr_of (flash_ c1) blk offset) (k + n)).
    { unfold store_read, addr_of. rewrite G1, seqZ_app, fmap_app by lia. f_equal. apply list_eq. intros j. rewrite !list_lookup_fmap. destruct (decide (Z.of_nat j < n)) as [Hj|Hj].
      - rewrite (proj2 (lookup_seqZ ip n j (ip + Z.of_nat j))) by lia. rewrite (proj2 (lookup_seqZ (blk * block_size_ (flash_ c) + offset + k) n j (blk * block_size_ (flash_ c) + offset + k + Z.of_nat j))) by lia.
        cbn. f_equal. rewrite (pg_data _ _ _ _ (co_pages _ _ _ Hok1 i Hi) Hv) by lia. f_equal. unfold addr_of. rewrite Eb, Eo, G1. lia.
      - rewrite !lookup_seqZ_ge by lia. done. }
    rewrite Hbuf. destruct (IH c1 (k + n)) as (c2 & E & Hok2 & (S1 & S2 & S3) & Ht2); [done|by rewrite G2|lia|by rewrite G1|lia|lia|lia|]. exists c2.
    rewrite E. unfold addr_of. rewrite G1. split; [done|]. split; [done|]. split; [split; [congruence|split; congruence]|]. lia.
Qed.

(** Overwriting a piece of a cached page with bytes that only clear bits. *)
Lemma put_ok A c i blk off ip n buf k :
  cache_ok A None c -> 0 <= i < 8 -> is_valid (page i c) = true -> block_addr (page i c) = blk -> page_offset (page i c) = off ->
  0 <= ip -> 0 <= n -> ip + n <= page_size_ (flash_ c) -> all_bytes buf -> 0 <= k -> k + n <= Z.of_nat (length buf) ->
  (forall x, 0 <= x < n -> Z.land (A (addr_of (flash_ c) blk off + ip + x)) (zlookup buf (k + x)) = zlookup buf (k + x)) ->
  let c' := upd_page i (fun p => mkPage (block_addr p) (page_offset p) (zupdate (fun j _ => zlookup buf (k + j)) ip n (cp_data p)) (is_valid p) true (is_reserved p) (last_access_tick p)) c in
  cache_ok (fun x => if decide (addr_of (flash_ c) blk off + ip <= x < addr_of (flash_ c) blk off + ip + n) then zlookup buf (k + (x - (addr_of (flash_ c) blk off + ip))) else A x) None c'.
Proof.
  intros Hok Hi Hv Eb Eo Hip Hn Hr Hby Hk Hl Hleg. cbv zeta. pose proof (page_size_bounds _ _ _ Hok) as [Hps _]. pose proof Hok as []. set (c' := upd_page i _ c). set (A' := fun x => _). set (base := addr_of (flash_ c) blk off) in *.
  assert (Hpl : page_place (flash_ c) blk off) by (rewrite <- Eb, <- Eo; by apply (co_pages0 i Hi)).
  assert (Hp : forall j, page j c' = if decide (i = j) then mkPage blk off (zupdate (fun j _ => zlookup buf (k + j)) ip n (cp_data (page i c))) true true false (last_access_tick (page i c)) else page j c).
  { intros j. unfold c'. rewrite page_upd by done. destruct (decide (i = j)) as [<-|]; [|done]. rewrite Eb, Eo, Hv. f_equal. destruct (is_reserved (page i c)) eqn:Er; [|done]. by apply (co_pages0 i Hi) in Er. }
  assert (Hd : forall j, zlookup (zupdate (fun j _ => zlookup buf (k + j)) ip n (cp_data (page i c))) j = if decide (ip <= j < ip + n) then zlookup buf (k + (j - ip)) else zlookup (cp_data (page i c)) j).
  { intros j. apply zupdate_lookup; [done|done|]. rewrite (pg_len _ _ _ _ (co_pages0 i Hi)). lia. }
  assert (Hland : forall x, in_store (flash_ c) x -> Z.land (A x) (A' x) = A' x).
  { intros x Hx. unfold A'. destruct (decide _) as [Hin|]; [|apply Z.land_diag]. specialize (Hleg (x - (base + ip)) ltac:(lia)). replace (base + ip + (x - (base + ip))) with x in Hleg by lia. exact Hleg. }
  assert (Hother : forall j, 0 <= j < 8 -> i <> j -> is_valid (page j c) = true -> forall x, holds_addr (flash_ c) (page j c) x -> A' x = A x).
  { intros j Hj Hne Hvj x Hx. unfold A'. destruct (decide _) as [Hin|]; [|done]. destruct Hne. apply co_distinct0; try done;
      destruct (page_unique (flash_ c) (block_addr (page j c)) (page_offset (page j c)) blk off x) as [E1 E2]; try done; try (by apply (co_pages0 j Hj)); try lia; fold base; try lia; congruence. }
  split; try done.
  - cbn. by rewrite length_zalter.
  - intros j Hj. destruct (co_pages0 j Hj). split; rewrite Hp; destruct (decide (i = j)) as [<-|Hne]; cbn; try done.
    + by rewrite length_zupdate.
    + apply all_bytes_intro. intros x [Hx0 Hx1]. rewrite length_zupdate in Hx1. rewrite Hd. destruct (decide _); apply all_bytes_lookup; (done || split; lia).
    + intros _ x Hx. rewrite Hd. unfold A'. fold base. destruct (decide (ip <= x < ip + n)), (decide (base + ip <= base + x < base + ip + n)); try lia; [f_equal; lia|]. rewrite pg_data0 by done. unfold base. by rewrite Eb, Eo.
    + intros Hvj x Hx. rewrite pg_data0 by done. symmetry. apply (Hother j); [done|done|done|]. unfold holds_addr. lia.
    + intros _. by apply pg_tick0.
  - intros a b Ha Hb. rewrite !Hp. destruct (decide (i = a)) as [<-|], (decide (i = b)) as [<-|]; cbn; intros; try done; apply co_distinct0; (done || congruence).
  - intros x Hx. unfold A'. destruct (decide _); [apply all_bytes_lookup; [done|split; lia]|by apply co_bytes0].
  - intros x Hx. rewrite <- (Hland x Hx), Z.land_assoc. f_equal. by apply co_legal0.
  - intros x Hx. destruct (decide (base <= x < base + page_size_ (flash_ c))) as [Hin|Hout].
    + right. exists i. rewrite Hp, decide_True by done. unfold holds_addr. cbn. fold base. done.
    + assert (E : A' x = A x) by (unfold A'; destruct (decide _); [lia|done]). rewrite E. destruct (co_coherent0 x Hx) as [?|(j & Hj & Hvj & Hdj & Hh)]; [by left|right]. exists j. rewrite Hp.
      destruct (decide (i = j)) as [<-|]; [unfold holds_addr in Hh; rewrite Eb, Eo in Hh; fold base in Hh; lia|]. done.
Qed.

(** Bytes that only clear bits of what the store holds. *)
Definition clears_bits (A : Z -> Z) (a : Z) (buf : list Z) (n : Z) : Prop := forall x, 0 <= x < n -> Z.land (A (a + x)) (zlookup buf x) = zlookup buf x.

Lemma write_loop_ok fuel A c blk offset buf size k :
  cache_ok (store_write A (addr_of (flash_ c) blk offset) buf k) None c -> 0 <= blk < block_count_ (flash_ c) -> 0 <= offset -> offset + size <= block_size_ (flash_ c) -> 0 <= k <= size ->
  size - k <= Z.of_nat fuel -> tick_counter_ c + (size - k) < 4294967295 -> all_bytes buf -> size <= Z.of_nat (length buf) -> clears_bits A (addr_of (flash_ c) blk offset) buf size ->
  exists c', write_loop data_addr stack (fun c => c) (fun c => c) attempts fuel blk offset buf size k c = (size, c') /\
    cache_ok (store_write A (addr_of (flash_ c) blk offset) buf size) None c' /\ same_geom c c' /\ tick_counter_ c' <= tick_counter_ c + (size - k).
Proof.
  revert c k. induction fuel as [|fuel IH]; intros c k Hok Hb Ho Hs Hk Hf Ht Hby Hl Hleg; cbn [write_loop].
  - assert (k = size) as -> by lia. rewrite (proj2 (Z.ltb_ge size size)) by lia. exists c. split; [done|]. split; [done|]. split; [done|]. lia.
  - destruct (Z.ltb_spec k size); [|assert (k = size) as -> by lia; exists c; split; [done|]; split; [done|]; split; [done|]; lia].
    destruct (chunk_ok _ None c blk offset size k Hok Hb Ho Hs ltac:(lia)) as (off & ip & n & -> & Hpl & Eoff & Hip & Hn & Hn1).
    pose proof (get_page_ok data_addr stack attempts _ c blk off Hok Hatt ltac:(lia) Hpl) as Hg. destruct (get_or_alloc_page _ _ _ _ attempts blk off c) as [i c1].
    destruct Hg as (Hok1 & Ht1 & Hi & Hv & Eb & Eo & G1 & G2 & G3). destruct (Z.eqb_spec i (-1)); [lia|].
    assert (Ea : addr_of (flash_ c1) blk off + ip = addr_of (flash_ c) blk offset + k) by (unfold addr_of; rewrite G1; lia). set (a := addr_of (flash_ c) blk offset) in *.
    pose proof (put_ok _ c1 i blk off ip n buf k Hok1 Hi Hv Eb Eo Hip ltac:(lia) ltac:(lia) Hby ltac:(lia) ltac:(lia)) as Hput. cbv zeta in Hput. rewrite Ea in Hput.
    assert (Hlegal : forall x, 0 <= x < n -> Z.land (store_write A a buf k (a + k + x)) (zlookup buf (k + x)) = zlookup buf (k + x)).
    { intros x Hx. unfold store_write. rewrite range_bool, bool_decide_false by lia. rewrite <- Z.add_assoc. apply Hleg. lia. }
    specialize (Hput Hlegal). set (c2 := upd_page i _ c1) in *. assert (Hok2 : cache_ok (store_write A (addr_of (flash_ c2) blk offset) buf (k + n)) None c2).
    { apply (cache_ok_store _ _ _ _ Hput). intros x _. unfold store_write. change (flash_ c2) with (flash_ c1). unfold addr_of. rewrite G1. change (blk * block_size_ (flash_ c) + offset) with a. rewrite !range_bool.
      destruct (decide (a + k <= x < a + k + n)); [rewrite bool_decide_true by lia; f_equal; lia|]. repeat case_bool_decide; try lia; try done. }
    assert (Ea2 : addr_of (flash_ c2) blk offset = a) by (unfold addr_of, a; change (flash_ c2) with (flash_ c1); by rewrite G1).
    destruct (IH c2 (k + n) Hok2) as (c3 & E & Hok3 & (S1 & S2 & S3) & Ht3); [by change (flash_ c2) with (flash_ c1); rewrite G2|lia|by change (flash_ c2) with (flash_ c1); rewrite G1|lia|lia|change (tick_counter_ c2) with (tick_counter_ c1); lia|done|done|by rewrite Ea2|].
    exists c3. rewrite Ea2 in Hok3. change (tick_counter_ c2) with (tick_counter_ c1) in Ht3. change (flash_ c2) with (flash_ c1) in *. split; [done|]. split; [done|]. split; [split; [congruence|split; congruence]|]. lia.
Qed.

Lemma photon_read_ok A c blk offset size :
  cache_ok A None c -> 0 <= blk < block_count_ (flash_ c) -> 0 <= offset -> 0 <= size -> offset + size <= block_size_ (flash_ c) -> tick_counter_ c + size < 4294967295 ->
  exists c', photon_read data_addr stack (fun c => c) (fun c => c) attempts blk offset size c = (size, store_read A (addr_of (flash_ c) blk offset) size, c') /\
    cache_ok A None c' /\ same_geom c c' /\ tick_counter_ c' <= tick_counter_ c + size.
Proof.
  intros Hok Hb Ho Hs Hr Ht. destruct (read_loop_ok (Z.to_nat size) A c blk offset size 0 Hok Hb Ho Hr ltac:(lia) ltac:(lia) ltac:(lia)) as (c' & E & H1 & H2 & H3).
  exists c'. split; [exact E|]. split; [done|]. split; [done|]. lia.
Qed.

Lemma photon_write_ok A c blk offset buf :
  cache_ok A None c -> 0 <= blk < block_count_ (flash_ c) -> 0 <= offset -> offset + Z.of_nat (length buf) <= block_size_ (flash_ c) -> tick_counter_ c + Z.of_nat (length buf) < 4294967295 ->
  all_bytes buf -> clears_bits A (addr_of (flash_ c) blk offset) buf (Z.of_nat (length buf)) ->
  exists c', photon_write data_addr stack (fun c => c) (fun c => c) attempts blk offset buf (Z.of_nat (length buf)) c = (Z.of_nat (length buf), c') /\
    cache_ok (store_write A (addr_of (flash_ c) blk offset) buf (Z.of_nat (length buf))) None c' /\ same_geom c c' /\ tick_counter_ c' <= tick_counter_ c + Z.of_nat (length buf).
Proof.
  intros Hok Hb Ho Hr Ht Hby Hleg. assert (Hok0 : cache_ok (store_write A (addr_of (flash_ c) blk offset) buf 0) None c).
  { apply (cache_ok_store A); [done|]. intros x _. unfold store_write. by rewrite range_bool, bool_decide_false by lia. }
  destruct (write_loop_ok (Z.to_nat (Z.of_nat (length buf))) A c blk offset buf (Z.of_nat (length buf)) 0 Hok0 Hb Ho Hr ltac:(lia) ltac:(lia) ltac:(lia) Hby ltac:(lia) Hleg) as (c' & E & H1 & H2 & H3).
  exists c'. split; [exact E|]. split; [done|]. split; [done|]. lia.
Qed.

End Ops.

Lemma photon_erase_ok A c blk :
  cache_ok A None c -> 0 <= blk < block_count_ (flash_ c) ->
  exists c', photon_erase blk c = (0, c') /\ cache_ok (store_erase A (addr_of (flash_ c) blk 0) (block_size_ (flash_ c))) None c' /\ same_geom c c' /\ tick_counter_ c' = tick_counter_ c.
Proof.
  intros Hok Hb. pose proof Hok as []. unfold photon_erase. pose proof (erase_block_ok (flash_ c) blk co_flash0 Hb) as He. cbn [flash_ set_pool].
  destruct (erase_block blk (flash_ c)) as [res fl']. destruct He as (-> & Hf & Ebs & Ebc & Eps & Hmem). set (c' := set_flash _ _). exists c'. split; [done|]. split; [|done].
  set (base := addr_of (flash_ c) blk 0) in *. set (bs := block_size_ (flash_ c)) in *. set (A' := store_erase A base bs).
  assert (Hp : forall j, 0 <= j < 8 -> page j c' = drop_page blk (page j c)).
  { intros j Hj. unfold page, c'. cbn. destruct (lookup_lt_is_Some_2 (pool_ c) (Z.to_nat j)) as [p Ep]; [lia|]. rewrite (zlookup_Some (pool_ c) j p) by (done || lia). apply zlookup_Some; [lia|]. by rewrite list_lookup_fmap, Ep. }
  assert (HA : forall a, A' a = if decide (base <= a < base + bs) then 255 else A a) by (intros a; unfold A', store_erase; rewrite range_bool; by case_bool_decide; case_decide).
  assert (Hin : forall a, in_store fl' a <-> in_store (flash_ c) a) by (intros a; unfold in_store; by rewrite Ebs, Ebc).
  assert (Haddr : forall b o, addr_of fl' b o = addr_of (flash_ c) b o) by (intros b o; unfold addr_of; by rewrite Ebs).
  assert (Hplace : forall b o, page_place fl' b o <-> page_place (flash_ c) b o) by (intros b o; unfold page_place, good_range; by rewrite Ebs, Ebc, Eps).
  assert (Hkeep : forall j, 0 <= j < 8 -> is_valid (page j c') = true -> page j c' = page j c /\ block_addr (page j c) <> blk).
  { intros j Hj Hv. rewrite Hp in * by done. unfold drop_page in *. destruct (is_valid (page j c)) eqn:Ev; cbn [orb andb] in *.
    - destruct (Z.eqb_spec (block_addr (page j c)) blk); [done|]. done.
    - destruct (is_reserved (page j c)) eqn:Er; [by apply (co_pages0 j Hj) in Er|]. cbn in Hv. congruence. }
  assert (Hout : forall j x, 0 <= j < 8 -> is_valid (page j c') = true -> holds_addr (flash_ c) (page j c) x -> ~ (base <= x < base + bs)).
  { intros j x Hj Hv Hx Hx'. destruct (Hkeep j Hj Hv) as [E Hne]. rewrite E in Hv. destruct (pg_place _ _ _ _ (co_pages0 j Hj) Hv) as [(P1 & P2 & _ & P3) _]. unfold holds_addr, addr_of in Hx. unfold base, addr_of, bs in Hx'.
    destruct (Z.lt_trichotomy (block_addr (page j c)) blk) as [?|[?|?]]; [nia|done|nia]. }
  split; cbn [flash_ tick_counter_ c' set_flash set_pool]; rewrite ?Eps, ?Ebs; try done.
  - cbn. by rewrite length_fmap.
  - intros j Hj. destruct (co_pages0 j Hj). assert (Hshape : cp_data (page j c') = cp_data (page j c) /\ (is_reserved (page j c') = true -> is_reserved (page j c) = true)) by (rewrite Hp by done; unfold drop_page; destruct (_ && _); done).
    destruct Hshape as [Ed Er]. split; cbn [flash_ tick_counter_ c' set_flash set_pool]; rewrite ?Ed, ?Eps; try done.
    + split; [|done]. intros H. by apply Er, pg_reserved0 in H.
    + intros Hv. destruct (Hkeep j Hj Hv) as [E _]. rewrite E in *. by apply Hplace, pg_place0.
    + intros Hv k Hk. destruct (Hkeep j Hj Hv) as [E _]. assert (Hv' := Hv). rewrite E in Hv |- *. rewrite Haddr, HA, pg_data0 by done. destruct (decide _) as [Hx|]; [|done]. exfalso. apply (Hout j (addr_of (flash_ c) (block_addr (page j c)) (page_offset (page j c)) + k) Hj Hv'); [unfold holds_addr; lia|done].
    + intros Hv. destruct (Hkeep j Hj Hv) as [E _]. rewrite E in *. by apply pg_tick0.
  - intros i j Hi Hj Hvi Hvj. destruct (Hkeep i Hi Hvi) as [Ei _], (Hkeep j Hj Hvj) as [Ej _]. rewrite Ei in *. rewrite Ej in *. by apply co_distinct0.
  - intros a Ha%Hin. rewrite HA. destruct (decide _); [unfold is_byte; lia|by apply co_bytes0].
  - intros a Ha%Hin. rewrite Hmem, HA. destruct (decide _); [done|by apply co_legal0].
  - intros a Ha%Hin. rewrite Hmem, HA. destruct (decide (base <= a < base + bs)) as [|Hn]; [by left|]. destruct (co_coherent0 a Ha) as [?|(j & Hj & Hv & Hd & Hh)]; [by left|right]. exists j. split; [done|].
    assert (E : page j c' = page j c).
    { rewrite Hp by done. unfold drop_page. rewrite Hv. cbn. destruct (Z.eqb_spec (block_addr (page j c)) blk) as [Eb|]; [|done]. destruct Hn.
      destruct (pg_place _ _ _ _ (co_pages0 j Hj) Hv) as [(P1 & P2 & _ & P3) _]. unfold holds_addr, addr_of in Hh. unfold base, addr_of, bs. rewrite Eb in *. lia. }
    rewrite E. unfold holds_addr. by rewrite Haddr, Eps.
Qed.

(** [sync] writes everything back. *)
Lemma photon_sync_ok data_addr A c :
  cache_ok A None c -> exists c', photon_sync data_addr c = (0, c') /\ cache_ok A None c' /\ same_geom c c' /\ tick_counter_ c' = tick_counter_ c /\
    (forall a, in_store (flash_ c') a -> zlookup (memory_ (flash_ c')) a = A a) /\ (forall i, 0 <= i < 8 -> is_valid (page i c') && is_dirty (page i c') = false).
Proof.
  intros Hok. unfold photon_sync, CACHE_POOL_SIZE.
  assert (H : forall n, (n <= 8)%nat -> exists c', foldl (sync_slot data_addr) (0, c) (seqZ 0 (Z.of_nat n)) = (0, c') /\ cache_ok A None c' /\ same_geom c c' /\ tick_counter_ c' = tick_counter_ c /\
    forall i, 0 <= i < Z.of_nat n -> is_valid (page i c') && is_dirty (page i c') = false).
  { induction n as [|n IH]; intros Hn; [exists c; split; [done|]; split; [done|]; split; [done|]; split; [done|]; lia|].
    destruct (IH ltac:(lia)) as (c1 & E1 & Hok1 & (G1 & G2 & G3) & Ht1 & Hcl). rewrite seqZ_snoc, foldl_app, E1. cbn [foldl sync_slot].
    destruct (is_valid (page (Z.of_nat n) c1) && is_dirty (page (Z.of_nat n) c1)) eqn:Ed.
    - pose proof (flush_ok data_addr A None c1 (Z.of_nat n) Hok1 ltac:(lia)) as Hf. destruct (flush_page data_addr (Z.of_nat n) c1) as [res c2]. destruct Hf as (-> & Hok2 & Ht2 & Hp & S1 & S2 & S3).
      exists c2. cbn [Z.eqb negb andb]. split; [done|]. split; [done|]. split; [split; [congruence|split; congruence]|]. split; [congruence|]. apply andb_true_iff in Ed as [Ev Ed].
      intros i Hi. rewrite Hp. destruct (decide (Z.of_nat n = i)) as [<-|]; [cbn; by rewrite Ev, Ed|apply Hcl; lia].
    - exists c1. split; [done|]. split; [done|]. split; [done|]. split; [done|]. intros i Hi. destruct (decide (Z.of_nat n = i)) as [<-|]; [done|apply Hcl; lia]. }
  destruct (H 8%nat ltac:(lia)) as (c' & E & Hok' & Hg & Ht & Hcl). exists c'. split; [exact E|]. split; [done|]. split; [done|]. split; [done|]. split; [|done].
  intros a Ha. destruct (co_coherent _ _ _ Hok' a Ha) as [?|(i & Hi & Hv & Hd & _)]; [done|]. specialize (Hcl i Hi). by rewrite Hv, Hd in Hcl.
Qed.
Lemma photon_ctor_ok fl :
  flash_ok fl -> (exists k, 0 <= k <= 8 /\ page_size_ fl = 2 ^ k) -> (page_size_ fl | block_size_ fl) -> cache_ok (zlookup (memory_ fl)) None (photon_ctor fl).
Proof.
  intros Hf Hk Hd. assert (Hp : forall i, 0 <= i < 8 -> page i (photon_ctor fl) = mkPage 0 0 (replicate 256 0) false false false 0).
  { intros i Hi. unfold page. apply zlookup_Some; [lia|]. cbn [pool_ photon_ctor]. apply lookup_replicate_2. lia. }
  split; try done.
  - intros i Hi. split; rewrite Hp by done; cbn [cp_data is_valid is_reserved]; try done. apply Forall_replicate. unfold is_byte. lia.
  - intros i j Hi Hj. rewrite Hp by done. done.
  - intros a Ha. pose proof (fl_len _ Hf). apply all_bytes_lookup; [apply Hf|]. unfold in_store in Ha. unfold in_range. cbn in *. lia.
  - intros a _. apply Z.land_diag.
  - intros a _. by left.
Qed.
