(* ===== verification/Aho.v ===== *)
(** The multi-pattern matcher of the intrusion detection (security/ids/signature_db.hpp):
    an Aho-Corasick automaton in fixed arrays, edges in linked lists, failure links by a
    breadth-first pass; and the signature database on it.

    A walk along an edge list, a failure chain or the queue is bounded by the size of the
    array it walks through; the invariant shows the bounds are never reached. *)
From S2P Require Import Prelude Text.
From stdpp Require Import strings.
#[local] Open Scope Z_scope.

(** * Data *)

Record AcNode := mkAcNode { fail : Z; output : Z; edge_head : Z }.
Record AcEdge := mkAcEdge { ebyte : Z; enext : Z; next_edge : Z }.

#[export] Instance AcNode_inhabited : Inhabited AcNode := populate (mkAcNode 0 0 0).
#[export] Instance AcEdge_inhabited : Inhabited AcEdge := populate (mkAcEdge 0 0 0).

Definition kMaxNodes : Z := 96.
Definition kMaxEdges : Z := 192.
Definition kMaxPatterns : Z := 16.
Definition kMaxPatternLen : Z := 48.

Record AhoCorasick := mkAc {
  ac_nodes : list AcNode;
  ac_edges : list AcEdge;
  node_count_ : Z;
  edge_count_ : Z;
  patterns_ : list (list Z);
  pattern_len_ : list Z;
  pattern_count_ : Z;
  queue_ : list Z;
}.

Definition ac_ctor : AhoCorasick := mkAc (replicate 96 inhabitant) (replicate 192 inhabitant) 1 0 (replicate 16 (replicate 48 0)) (replicate 16 0) 0 (replicate 96 0).

Definition set_nodes ns ac := mkAc ns (ac_edges ac) (node_count_ ac) (edge_count_ ac) (patterns_ ac) (pattern_len_ ac) (pattern_count_ ac) (queue_ ac).
Definition set_patterns ps ls n ac := mkAc (ac_nodes ac) (ac_edges ac) (node_count_ ac) (edge_count_ ac) ps ls n (queue_ ac).
Definition set_queue q ac := mkAc (ac_nodes ac) (ac_edges ac) (node_count_ ac) (edge_count_ ac) (patterns_ ac) (pattern_len_ ac) (pattern_count_ ac) q.
Definition node (s : Z) (ac : AhoCorasick) : AcNode := zlookup (ac_nodes ac) s.
Definition set_output o s ac := set_nodes (zalter (fun n => mkAcNode (fail n) o (edge_head n)) s (ac_nodes ac)) ac.
Definition set_fail f s ac := set_nodes (zalter (fun n => mkAcNode f (output n) (edge_head n)) s (ac_nodes ac)) ac.

Definition ac_reset (ac : AhoCorasick) : AhoCorasick :=
  mkAc (zalter (fun _ => mkAcNode 0 (-1) (-1)) 0 (ac_nodes ac)) (ac_edges ac) 1 0 (patterns_ ac) (pattern_len_ ac) 0 (queue_ ac).

(** * The trie *)

(** The edges of the list that starts at [e]. *)
Fixpoint edges_walk (fuel : nat) (edges : list AcEdge) (e : Z) : list AcEdge :=
  match fuel with
  | O => []
  | S fuel => if e =? -1 then [] else zlookup edges e :: edges_walk fuel edges (next_edge (zlookup edges e))
  end.

Definition edges_from (ac : AhoCorasick) (s : Z) : list AcEdge := edges_walk (Z.to_nat kMaxEdges) (ac_edges ac) (edge_head (node s ac)).

Definition goto_ (ac : AhoCorasick) (s b : Z) : Z :=
  match List.find (fun ed => ebyte ed =? b) (edges_from ac s) with
  | Some ed => enext ed
  | None => -1
  end.

Definition new_node_ (ac : AhoCorasick) : Z * AhoCorasick :=
  if kMaxNodes <=? node_count_ ac then (-1, ac) else
  let idx := node_count_ ac in
  (idx, mkAc (zalter (fun _ => mkAcNode 0 (-1) (-1)) idx (ac_nodes ac)) (ac_edges ac) (idx + 1) (edge_count_ ac) (patterns_ ac) (pattern_len_ ac) (pattern_count_ ac) (queue_ ac)).

Definition new_edge_ (from b to_ : Z) (ac : AhoCorasick) : Z * AhoCorasick :=
  if kMaxEdges <=? edge_count_ ac then (-1, ac) else
  let idx := edge_count_ ac in
  let edges := zalter (fun _ => mkAcEdge b to_ (edge_head (node from ac))) idx (ac_edges ac) in
  let nodes := zalter (fun n => mkAcNode (fail n) (output n) idx) from (ac_nodes ac) in
  (idx, mkAc nodes edges (node_count_ ac) (idx + 1) (patterns_ ac) (pattern_len_ ac) (pattern_count_ ac) (queue_ ac)).

(** The insertion loop: the node reached, [None] when a node or an edge is missing. *)
Fixpoint insert_path (p : list Z) (state : Z) (ac : AhoCorasick) : option Z * AhoCorasick :=
  match p with
  | [] => (Some state, ac)
  | b :: p =>
      let g := goto_ ac state b in
      if g =? -1 then
        let (child, ac) := new_node_ ac in
        if child <? 0 then (None, ac) else
        let (e, ac) := new_edge_ state b child ac in
        if e <? 0 then (None, ac) else insert_path p child ac
      else insert_path p g ac
  end.

Definition add_pattern (p : list Z) (ac : AhoCorasick) : Z * AhoCorasick :=
  let len := Z.of_nat (length p) in
  if (kMaxPatterns <=? pattern_count_ ac) || (len <=? 0) || (kMaxPatternLen <? len) then (-1, ac) else
  let id := pattern_count_ ac in
  let ac := set_patterns (zalter (fun old => p ++ drop (length p) old) id (patterns_ ac)) (zalter (fun _ => len) id (pattern_len_ ac)) id ac in
  match insert_path p 0 ac with
  | (None, ac) => (-1, ac)
  | (Some state, ac) => (id, set_patterns (patterns_ ac) (pattern_len_ ac) (id + 1) (set_output id state ac))
  end.

(** * Failure links *)

(** [while (state != 0 && goto_(state, b) == -1) state = nodes_[state].fail] *)
Fixpoint follow (fuel : nat) (ac : AhoCorasick) (state b : Z) : Z :=
  match fuel with
  | O => state
  | S fuel => if negb (state =? 0) && (goto_ ac state b =? -1) then follow fuel ac (fail (node state ac)) b else state
  end.

Definition enqueue (child : Z) (acc : AhoCorasick * Z) : AhoCorasick * Z :=
  let (ac, tail) := acc in
  if tail <? kMaxNodes then (set_queue (zalter (fun _ => child) tail (queue_ ac)) ac, tail + 1) else (ac, tail).

(** A child of the root. *)
Definition visit_root (acc : AhoCorasick * Z) (ed : AcEdge) : AhoCorasick * Z := enqueue (enext ed) (set_fail 0 (enext ed) acc.1, acc.2).

(** A child of node [r]. *)
Definition visit (r : Z) (acc : AhoCorasick * Z) (ed : AcEdge) : AhoCorasick * Z :=
  let (ac, tail) := enqueue (enext ed) acc in
  let child := enext ed in
  let state := follow (Z.to_nat kMaxNodes) ac (fail (node r ac)) (ebyte ed) in
  let f := goto_ ac state (ebyte ed) in
  let ac := set_fail (if negb (f =? -1) && negb (f =? child) then f else 0) child ac in
  (if output (node child ac) =? -1 then set_output (output (node (fail (node child ac)) ac)) child ac else ac, tail).

Fixpoint bfs (fuel : nat) (head : Z) (acc : AhoCorasick * Z) : AhoCorasick * Z :=
  match fuel with
  | O => acc
  | S fuel =>
      if head <? acc.2 then
        let r := zlookup (queue_ acc.1) head in
        bfs fuel (head + 1) (foldl (visit r) acc (edges_from acc.1 r))
      else acc
  end.

Definition ac_build (ac : AhoCorasick) : AhoCorasick := (bfs (Z.to_nat kMaxNodes) 0 (foldl visit_root (ac, 0) (edges_from ac 0))).1.

(** * Searching *)

Definition ac_step (ac : AhoCorasick) (state b : Z) : Z :=
  let state := follow (Z.to_nat kMaxNodes) ac state b in
  let g := goto_ ac state b in
  if negb (g =? -1) then g else 0.

Fixpoint search_from (ac : AhoCorasick) (data : list Z) (state : Z) : Z :=
  match data with
  | [] => -1
  | b :: data =>
      let state := ac_step ac state b in
      if negb (output (node state ac) =? -1) then output (node state ac) else search_from ac data state
  end.

Definition ac_search (ac : AhoCorasick) (data : list Z) : Z := search_from ac data 0.

(** * The signature database *)

Inductive IdsSeverity := SevInfo | SevLow | SevMedium | SevHigh | SevCritical.

Record SignatureRule := mkSig { sig_pattern : list Z; sig_len : Z; sig_severity : IdsSeverity; sig_message : list Z }.

Definition default_rules_ : list SignatureRule := [
  mkSig [144; 144; 144; 144; 144] 5 SevHigh (str "NOP sled / shellcode");
  mkSig (str "/bin/sh") 7 SevCritical (str "shell command injection");
  mkSig (str "../../") 5 SevMedium (str "path traversal");
  mkSig (str "union select") 12 SevHigh (str "SQL injection");
  mkSig (str "USER root") 9 SevLow (str "FTP root login");
  mkSig (str "GET /cgi-bin") 12 SevLow (str "CGI scan") ].

Definition load_rule (ac : AhoCorasick) (r : SignatureRule) : AhoCorasick := (add_pattern (take (Z.to_nat (sig_len r)) (sig_pattern r)) ac).2.

(** The automaton after [SignatureDb::init]. *)
Definition sigdb_init (ac : AhoCorasick) : AhoCorasick := ac_build (foldl load_rule (ac_reset ac) default_rules_).

Definition sig_match (ac : AhoCorasick) (payload : list Z) : Z := if Z.of_nat (length payload) <=? 0 then -1 else ac_search ac payload.
