(* ===== verification/AhoInv.v ===== *)
(** The Aho-Corasick automaton: the trie invariant of insertion, the meaning of failure
    links and outputs after the breadth-first pass, and the search. *)
From S2P Require Import Prelude Aho.

(** * Patterns and suffixes *)

(** The last pattern equal to [x], or -1. *)
Fixpoint own_from (i : Z) (pats : list (list Z)) (x : list Z) (acc : Z) : Z :=
  match pats with
  | [] => acc
  | p :: pats => own_from (i + 1) pats x (if decide (p = x) then i else acc)
  end.

Definition own (pats : list (list Z)) (x : list Z) : Z := own_from 0 pats x (-1).

(** The longest suffix of [x] that is a pattern. *)
Fixpoint best (pats : list (list Z)) (x : list Z) : Z :=
  match x with
  | [] => -1
  | _ :: x' => if own pats x =? -1 then best pats x' else own pats x
  end.

(** The longest suffix of [x] among the labels. *)
Fixpoint lsuf (lab : list (list Z)) (x : list Z) : list Z :=
  if decide (x ∈ lab) then x else match x with [] => [] | _ :: x' => lsuf lab x' end.

Lemma own_from_snoc i pats p x acc : own_from i (pats ++ [p]) x acc = if decide (p = x) then i + Z.of_nat (length pats) else own_from i pats x acc.
Proof.
  revert i acc. induction pats as [|q pats IH]; intros i acc; cbn [app own_from length]; [by rewrite Z.add_0_r|]. rewrite IH. case_decide; [lia|done].
Qed.

Lemma own_snoc pats p x : own (pats ++ [p]) x = if decide (p = x) then Z.of_nat (length pats) else own pats x.
Proof. apply own_from_snoc. Qed.

Lemma own_spec pats x : (own pats x = -1 /\ x ∉ pats) \/ (0 <= own pats x < Z.of_nat (length pats) /\ pats !! Z.to_nat (own pats x) = Some x).
Proof.
  induction pats as [|p pats IH] using rev_ind; [left; split; [done|apply not_elem_of_nil]|]. rewrite own_snoc, length_app. cbn [length]. case_decide as Hp.
  - right. split; [lia|]. rewrite Nat2Z.id, lookup_app_r, Nat.sub_diag by lia. cbn. by rewrite Hp.
  - destruct IH as [[-> Hn]|[Hr Hl]]; [left; split; [done|]; rewrite elem_of_app, list_elem_of_singleton; intros [?|?]; congruence|].
    right. split; [lia|]. rewrite lookup_app_l by lia. done.
Qed.

Lemma own_none pats x : own pats x = -1 <-> x ∉ pats.
Proof.
  destruct (own_spec pats x) as [[-> H]|[H1 H2]]; [done|]. split; [lia|]. intros Hn. destruct Hn. by eapply list_elem_of_lookup_2.
Qed.

Lemma lsuf_self lab x : x ∈ lab -> lsuf lab x = x.
Proof. intros H. destruct x; cbn [lsuf]; by rewrite decide_True. Qed.

Lemma lsuf_tail lab a x : a :: x ∉ lab -> lsuf lab (a :: x) = lsuf lab x.
Proof. intros H. cbn [lsuf]. by rewrite decide_False. Qed.

Lemma lsuf_length lab x : (length (lsuf lab x) <= length x)%nat.
Proof. induction x as [|a x IH]; cbn [lsuf]; case_decide; cbn; lia. Qed.

(** Labels are closed under prefixes. *)
Definition prefix_closed (lab : list (list Z)) : Prop := forall x b, x ++ [b] ∈ lab -> x ∈ lab.

Lemma lsuf_snoc lab x b : [] ∈ lab -> prefix_closed lab -> lsuf lab (lsuf lab x ++ [b]) = lsuf lab (x ++ [b]).
Proof.
  intros H0 Hc. induction x as [|a x IH]; [by rewrite (lsuf_self lab [] H0)|]. destruct (decide (a :: x ∈ lab)) as [Hin|Hn]; [by rewrite (lsuf_self lab (a :: x))|].
  rewrite (lsuf_tail lab a x Hn), IH. cbn [app]. symmetry. apply lsuf_tail. intros Hx. apply Hn. by apply (Hc (a :: x) b).
Qed.

Lemma best_lsuf lab pats x : [] ∈ lab -> (forall p, p ∈ pats -> p ∈ lab) -> best pats (lsuf lab x) = best pats x.
Proof.
  intros H0 Hp. induction x as [|a x IH]; [by rewrite (lsuf_self lab [] H0)|]. destruct (decide (a :: x ∈ lab)) as [Hin|Hn]; [by rewrite (lsuf_self lab (a :: x))|].
  rewrite (lsuf_tail lab a x Hn), IH. cbn [best]. rewrite (proj2 (own_none pats (a :: x))); [done|]. intros H. by apply Hn, Hp.
Qed.

(** * The trie *)

Definition label (lab : list (list Z)) (s : Z) : list Z := zlookup lab s.

Record trie_ok (ac : AhoCorasick) (lab : list (list Z)) : Prop := {
  tr_nodes : length (ac_nodes ac) = 96%nat;
  tr_edges : length (ac_edges ac) = 192%nat;
  tr_queue : length (queue_ ac) = 96%nat;
  tr_count : node_count_ ac = Z.of_nat (length lab);
  tr_size : (1 <= length lab <= 96)%nat;
  tr_ecount : edge_count_ ac = node_count_ ac - 1;
  tr_root : label lab 0 = [];
  tr_nodup : NoDup lab;
  tr_short : forall x, x ∈ lab -> (length x <= 48)%nat;
  tr_heads : forall s, 0 <= s < node_count_ ac -> -1 <= edge_head (node s ac) < edge_count_ ac;
  tr_next : forall e, 0 <= e < edge_count_ ac -> -1 <= next_edge (zlookup (ac_edges ac) e) < e;
  tr_target : forall e, 0 <= e < edge_count_ ac -> enext (zlookup (ac_edges ac) e) = e + 1;
  tr_sound : forall s ed, 0 <= s < node_count_ ac -> ed ∈ edges_from ac s -> 0 < enext ed < node_count_ ac /\ label lab (enext ed) = label lab s ++ [ebyte ed];
  tr_complete : forall c, 0 < c < node_count_ ac -> exists s ed, 0 <= s < node_count_ ac /\ ed ∈ edges_from ac s /\ enext ed = c;
}.

Lemma label_in ac lab s : trie_ok ac lab -> 0 <= s < node_count_ ac -> lab !! Z.to_nat s = Some (label lab s).
Proof.
  intros Ht Hs. rewrite (tr_count _ _ Ht) in Hs. unfold label, zlookup. destruct (Z.leb_spec 0 s); [|lia]. apply list_lookup_lookup_total_lt. lia.
Qed.

Lemma label_elem ac lab s : trie_ok ac lab -> 0 <= s < node_count_ ac -> label lab s ∈ lab.
Proof. intros Ht Hs. eapply list_elem_of_lookup_2. by apply (label_in ac). Qed.

Lemma label_inj ac lab s t : trie_ok ac lab -> 0 <= s < node_count_ ac -> 0 <= t < node_count_ ac -> label lab s = label lab t -> s = t.
Proof.
  intros Ht Hs Hr E. pose proof (label_in ac lab s Ht Hs) as E1. pose proof (label_in ac lab t Ht Hr) as E2. rewrite E in E1. pose proof (NoDup_lookup _ _ _ _ (tr_nodup _ _ Ht) E1 E2). lia.
Qed.

Lemma label_find ac lab x : trie_ok ac lab -> x ∈ lab -> exists s, 0 <= s < node_count_ ac /\ label lab s = x.
Proof.
  intros Ht [i Hi]%list_elem_of_lookup. exists (Z.of_nat i). split; [rewrite (tr_count _ _ Ht); apply lookup_lt_Some in Hi; lia|]. unfold label. apply zlookup_Some; [lia|by rewrite Nat2Z.id].
Qed.

Lemma trie_root_in ac lab : trie_ok ac lab -> 0 <= 0 < node_count_ ac /\ [] ∈ lab.
Proof.
  intros Ht. assert (H : 0 <= 0 < node_count_ ac) by (pose proof (tr_count _ _ Ht); pose proof (tr_size _ _ Ht); lia). split; [done|]. pose proof (label_elem ac lab 0 Ht H) as He. by rewrite (tr_root _ _ Ht) in He.
Qed.

Lemma label_nil ac lab s : trie_ok ac lab -> 0 <= s < node_count_ ac -> label lab s = [] <-> s = 0.
Proof.
  intros Ht Hs. split; [|intros ->; apply Ht]. intros E. apply (label_inj ac lab); [done|done|apply (trie_root_in ac lab Ht)|]. by rewrite E, (tr_root _ _ Ht).
Qed.

Lemma trie_closed ac lab : trie_ok ac lab -> prefix_closed lab.
Proof.
  intros Ht x b Hx. destruct (label_find ac lab _ Ht Hx) as (c & Hc & E). assert (c <> 0) by (intros ->; rewrite (tr_root _ _ Ht) in E; by destruct x).
  destruct (tr_complete _ _ Ht c ltac:(lia)) as (s & ed & Hs & Hed & <-). destruct (tr_sound _ _ Ht s ed Hs Hed) as [_ E']. rewrite E' in E. apply app_inj_tail in E as [<- _]. by apply (label_elem ac).
Qed.

Lemma goto_spec ac lab s b :
  trie_ok ac lab -> 0 <= s < node_count_ ac ->
  (0 < goto_ ac s b < node_count_ ac /\ label lab (goto_ ac s b) = label lab s ++ [b]) \/ (goto_ ac s b = -1 /\ label lab s ++ [b] ∉ lab).
Proof.
  intros Ht Hs. unfold goto_. destruct (List.find _ _) as [ed|] eqn:E.
  - apply List.find_some in E as [Hin%list_elem_of_In Hb%Z.eqb_eq]. left. destruct (tr_sound _ _ Ht s ed Hs Hin) as [H1 H2]. by rewrite <- Hb.
  - right. split; [done|]. intros Hin. destruct (label_find ac lab _ Ht Hin) as (c & Hc & Ec). assert (c <> 0) by (intros ->; rewrite (tr_root _ _ Ht) in Ec; by destruct (label lab s)).
    destruct (tr_complete _ _ Ht c ltac:(lia)) as (s' & ed & Hs' & Hed & Ed). destruct (tr_sound _ _ Ht s' ed Hs' Hed) as [_ E']. rewrite Ed, Ec in E'. apply app_inj_tail in E' as [El Eb].
    apply (label_inj ac lab) in El; [|done|done|done]. subst s'. apply List.find_none with (x := ed) in E; [|by apply list_elem_of_In]. rewrite Eb in E. by rewrite Z.eqb_refl in E.
Qed.

(** ** Edge lists *)

Definition descending (E : list AcEdge) (n : Z) : Prop := forall e, 0 <= e < n -> -1 <= next_edge (zlookup E e) < e.

Lemma edges_walk_ext fuel E E' e n :
  descending E n -> (forall i, 0 <= i < n -> zlookup E' i = zlookup E i) -> -1 <= e < n -> edges_walk fuel E' e = edges_walk fuel E e.
Proof.
  intros Hd Hs. revert e. induction fuel as [|fuel IH]; intros e He; cbn [edges_walk]; [done|]. destruct (Z.eqb_spec e (-1)); [done|]. rewrite Hs by lia. f_equal. apply IH. specialize (Hd e ltac:(lia)). lia.
Qed.

Lemma edges_walk_fuel fuel E e n : descending E n -> -1 <= e < n -> e < Z.of_nat fuel -> edges_walk (S fuel) E e = edges_walk fuel E e.
Proof.
  intros Hd. revert e. induction fuel as [|fuel IH]; intros e He Hf; [cbn [edges_walk]; destruct (Z.eqb_spec e (-1)); [done|lia]|].
  change (edges_walk (S (S fuel)) E e) with (if e =? -1 then [] else zlookup E e :: edges_walk (S fuel) E (next_edge (zlookup E e))).
  change (edges_walk (S fuel) E e) with (if e =? -1 then [] else zlookup E e :: edges_walk fuel E (next_edge (zlookup E e))).
  destruct (Z.eqb_spec e (-1)); [done|]. f_equal. specialize (Hd e ltac:(lia)). apply IH; lia.
Qed.

Lemma edges_walk_cons fuel E e n : descending E n -> 0 <= e < n -> e < Z.of_nat fuel -> edges_walk fuel E e = zlookup E e :: edges_walk fuel E (next_edge (zlookup E e)).
Proof.
  intros Hd He Hf. destruct fuel as [|fuel]; [lia|]. change (edges_walk (S fuel) E e) with (if e =? -1 then [] else zlookup E e :: edges_walk fuel E (next_edge (zlookup E e))). destruct (Z.eqb_spec e (-1)); [lia|]. f_equal. pose proof (Hd e He). symmetry. apply (edges_walk_fuel _ _ _ n); [done|lia|lia].
Qed.

(** Every edge of a list is an entry of the array. *)
Lemma edges_walk_in fuel E e n ed : descending E n -> -1 <= e < n -> ed ∈ edges_walk fuel E e -> exists i, 0 <= i <= e /\ ed = zlookup E i.
Proof.
  intros Hd. revert e. induction fuel as [|fuel IH]; intros e He; cbn [edges_walk]; [intros H; by apply not_elem_of_nil in H|]. destruct (Z.eqb_spec e (-1)); [intros H; by apply not_elem_of_nil in H|].
  specialize (Hd e ltac:(lia)) as Hn. intros [->|Hin]%elem_of_cons; [exists e; split; [lia|done]|]. apply IH in Hin as (i & Hi & ->); [|lia]. exists i. split; [lia|done].
Qed.

Lemma edges_from_nodup ac lab s : trie_ok ac lab -> 0 <= s < node_count_ ac -> NoDup (enext <$> edges_from ac s).
Proof.
  intros Ht Hs. pose proof (tr_heads _ _ Ht s Hs) as Hh. unfold edges_from. revert Hh. generalize (edge_head (node s ac)). generalize (Z.to_nat kMaxEdges). intros fuel.
  induction fuel as [|fuel IH]; intros e He; cbn [edges_walk fmap list_fmap]; [constructor|]. destruct (Z.eqb_spec e (-1)); cbn [fmap list_fmap]; [constructor|].
  pose proof (tr_next _ _ Ht e ltac:(lia)) as Hn. constructor; [|apply IH; lia]. intros (ed & E & Hin)%list_elem_of_fmap.
  apply (edges_walk_in _ _ _ (edge_count_ ac)) in Hin as (i & Hi & ->); [|exact (tr_next _ _ Ht)|lia]. rewrite !(tr_target _ _ Ht) in E by lia. lia.
Qed.

Lemma edges_walk_nil fuel E : edges_walk fuel E (-1) = [].
Proof. by destruct fuel. Qed.

#[local] Opaque edges_walk.

(** ** Insertion *)

(** [node] and [edges_from] after a new node with its edge. *)
Definition grown (ac : AhoCorasick) (s b : Z) : AhoCorasick := (new_edge_ s b (node_count_ ac) (new_node_ ac).2).2.

Lemma grow_path ac lab s b :
  trie_ok ac lab -> 0 <= s < node_count_ ac -> goto_ ac s b = -1 -> (length (label lab s) < 48)%nat -> node_count_ ac < kMaxNodes ->
  let ac' := grown ac s b in
  new_node_ ac = (node_count_ ac, (new_node_ ac).2) /\ new_edge_ s b (node_count_ ac) (new_node_ ac).2 = (edge_count_ ac, ac') /\
  trie_ok ac' (lab ++ [label lab s ++ [b]]) /\
  (forall t, 0 <= t < node_count_ ac -> output (node t ac') = output (node t ac)) /\ output (node (node_count_ ac) ac') = -1 /\ pattern_count_ ac' = pattern_count_ ac.
Proof.
  unfold kMaxNodes. intros Ht Hs Hg Hsh Hroom. cbv zeta. pose proof Ht as []. destruct (goto_spec ac lab s b Ht Hs) as [[? _]|[_ Hnew]]; [lia|].
  set (nc := node_count_ ac) in *. pose (mid := (new_node_ ac).2). pose (ac' := grown ac s b).
  assert (Em : new_node_ ac = (nc, mid)) by (unfold mid, new_node_, kMaxNodes; by rewrite (proj2 (Z.leb_gt 96 (node_count_ ac))) by lia).
  assert (Emid : mid = mkAc (zalter (fun _ => mkAcNode 0 (-1) (-1)) nc (ac_nodes ac)) (ac_edges ac) (nc + 1) (edge_count_ ac) (patterns_ ac) (pattern_len_ ac) (pattern_count_ ac) (queue_ ac)).
  { unfold mid, new_node_, kMaxNodes. by rewrite (proj2 (Z.leb_gt 96 (node_count_ ac))) by lia. }
  assert (Ee : new_edge_ s b nc mid = (edge_count_ ac, ac')).
  { unfold ac', grown. fold mid nc. rewrite Emid. unfold new_edge_, kMaxEdges. cbn [edge_count_]. by rewrite (proj2 (Z.leb_gt 192 (edge_count_ ac))) by lia. }
  assert (Eac : ac' = mkAc (zalter (fun n => mkAcNode (fail n) (output n) (edge_count_ ac)) s (zalter (fun _ => mkAcNode 0 (-1) (-1)) nc (ac_nodes ac)))
    (zalter (fun _ => mkAcEdge b nc (edge_head (node s mid))) (edge_count_ ac) (ac_edges ac)) (nc + 1) (edge_count_ ac + 1) (patterns_ ac) (pattern_len_ ac) (pattern_count_ ac) (queue_ ac)).
  { unfold ac', grown. fold mid nc. rewrite Emid. unfold new_edge_, kMaxEdges. cbn [edge_count_]. by rewrite (proj2 (Z.leb_gt 192 (edge_count_ ac))) by lia. }
  split; [exact Em|]. split; [exact Ee|]. change (grown ac s b) with ac'. clearbody ac'. clear Em Ee.
  assert (Hhead : edge_head (zlookup (zalter (fun _ => mkAcNode 0 (-1) (-1)) nc (ac_nodes ac)) s) = edge_head (node s ac)) by (rewrite zlookup_zalter_ne by lia; done).
  assert (Hnode : forall t, node t ac' = if decide (t = s) then mkAcNode (fail (node s ac)) (output (node s ac)) (edge_count_ ac) else if decide (t = nc) then mkAcNode 0 (-1) (-1) else node t ac).
  { intros t. rewrite Eac. unfold node. cbn [ac_nodes]. destruct (decide (t = s)) as [->|].
    - rewrite zlookup_zalter_eq by (unfold in_range; rewrite length_zalter, tr_nodes0; lia). by rewrite zlookup_zalter_ne by lia.
    - rewrite zlookup_zalter_ne by done. destruct (decide (t = nc)) as [->|]; [|by rewrite zlookup_zalter_ne by done]. by rewrite zlookup_zalter_eq by (unfold in_range; rewrite tr_nodes0; lia). }
  assert (Hedge : forall e, zlookup (ac_edges ac') e = if decide (e = edge_count_ ac) then mkAcEdge b nc (edge_head (node s ac)) else zlookup (ac_edges ac) e).
  { intros e. rewrite Eac. cbn [ac_edges]. rewrite Emid. unfold node. cbn [ac_nodes]. rewrite Hhead. destruct (decide (e = edge_count_ ac)) as [->|]; [|by rewrite zlookup_zalter_ne by done]. by rewrite zlookup_zalter_eq by (unfold in_range; rewrite tr_edges0; lia). }
  assert (Hlen : Z.of_nat (length (lab ++ [label lab s ++ [b]])) = nc + 1) by (rewrite length_app; cbn; lia).
  assert (Hlab : forall t, 0 <= t < nc -> label (lab ++ [label lab s ++ [b]]) t = label lab t).
  { intros t Hr. apply zlookup_Some; [lia|]. rewrite lookup_app_l by lia. by apply (label_in ac). }
  assert (Hlabn : label (lab ++ [label lab s ++ [b]]) nc = label lab s ++ [b]).
  { apply zlookup_Some; [lia|]. rewrite lookup_app_r by lia. by replace (Z.to_nat nc - length lab)%nat with 0%nat by lia. }
  assert (Hd : descending (ac_edges ac) (edge_count_ ac)) by exact tr_next0.
  assert (Hsame : forall i, 0 <= i < edge_count_ ac -> zlookup (ac_edges ac') i = zlookup (ac_edges ac) i) by (intros i Hi; rewrite Hedge; by destruct (decide _); [lia|]).
  assert (Hd' : descending (ac_edges ac') (edge_count_ ac + 1)).
  { intros e He. rewrite Hedge. destruct (decide (e = edge_count_ ac)) as [->|]; cbn; [by apply tr_heads0|apply Hd; lia]. }
  assert (Hfrom : forall t, 0 <= t < nc + 1 -> edges_from ac' t = if decide (t = s) then mkAcEdge b nc (edge_head (node s ac)) :: edges_from ac s else if decide (t = nc) then [] else edges_from ac t).
  { intros t Hr. unfold edges_from. rewrite Hnode. assert (Hfuel : Z.of_nat (Z.to_nat kMaxEdges) = 192) by done. revert Hfuel. generalize (Z.to_nat kMaxEdges). intros fuel Hfuel. destruct (decide (t = s)) as [->|]; cbn [edge_head].
    - rewrite (edges_walk_cons _ _ _ (edge_count_ ac + 1)) by (done || lia). rewrite Hedge, decide_True by done. cbn [next_edge]. f_equal. apply (edges_walk_ext _ _ _ _ (edge_count_ ac)); [done|done|by apply tr_heads0].
    - destruct (decide (t = nc)); [apply edges_walk_nil|]. apply (edges_walk_ext _ _ _ _ (edge_count_ ac)); [done|done|apply tr_heads0; lia]. }
  assert (Enc : node_count_ ac' = nc + 1) by (by rewrite Eac). assert (Eec : edge_count_ ac' = edge_count_ ac + 1) by (by rewrite Eac).
  split; [|split; [|split]].
  - split.
    + rewrite Eac. cbn. by rewrite !length_zalter.
    + rewrite Eac. cbn. by rewrite length_zalter.
    + by rewrite Eac.
    + rewrite Enc. lia.
    + lia.
    + rewrite Enc, Eec. lia.
    + rewrite Hlab by lia. done.
    + apply NoDup_app. split; [done|]. split; [|apply NoDup_singleton]. intros x Hx Hx'. apply list_elem_of_singleton in Hx' as ->. done.
    + intros x [Hx|Hx]%elem_of_app; [by apply tr_short0|]. apply list_elem_of_singleton in Hx as ->. rewrite length_app. cbn. lia.
    + rewrite Enc, Eec. intros t Hr. rewrite Hnode. repeat case_decide; cbn; [lia|lia|]. specialize (tr_heads0 t ltac:(lia)). lia.
    + rewrite Eec. exact Hd'.
    + rewrite Eec. intros e He. rewrite Hedge. case_decide; cbn; [lia|]. apply tr_target0. lia.
    + rewrite Enc. intros t ed Hr. rewrite Hfrom by done. destruct (decide (t = s)) as [->|].
      * intros [->|Hin]%elem_of_cons; cbn [enext ebyte]; [split; [lia|]; by rewrite Hlabn, Hlab|]. destruct (tr_sound0 s ed Hs Hin) as [H1 H2]. split; [lia|]. by rewrite !Hlab by lia.
      * destruct (decide (t = nc)); [intros Hin; by apply not_elem_of_nil in Hin|]. intros Hin. destruct (tr_sound0 t ed ltac:(lia) Hin) as [H1 H2]. split; [lia|]. by rewrite !Hlab by lia.
    + rewrite Enc. intros c Hc. destruct (decide (c = nc)) as [->|].
      * exists s, (mkAcEdge b nc (edge_head (node s ac))). split; [lia|]. rewrite Hfrom, decide_True by (done || lia). split; [apply list_elem_of_here|done].
      * destruct (tr_complete0 c ltac:(lia)) as (t & ed & Hr & Hin & E). exists t, ed. split; [lia|]. split; [|done]. rewrite Hfrom by lia.
        destruct (decide (t = s)) as [->|]; [by apply list_elem_of_further|]. by rewrite decide_False by lia.
  - intros t Hr. rewrite Hnode. repeat case_decide; subst; (lia || done).
  - rewrite Hnode. repeat case_decide; (lia || done).
  - by rewrite Eac.
Qed.

(** A trie with the outputs of the patterns inserted so far. *)
Record ac_ok (ac : AhoCorasick) (lab pats : list (list Z)) : Prop := {
  ao_trie : trie_ok ac lab;
  ao_count : pattern_count_ ac = Z.of_nat (length pats);
  ao_pats : forall p, p ∈ pats -> p ∈ lab /\ p <> [];
  ao_out : forall s, 0 <= s < node_count_ ac -> output (node s ac) = own pats (label lab s);
}.

Lemma insert_path_ok p s ac lab pats :
  ac_ok ac lab pats -> 0 <= s < node_count_ ac -> (length (label lab s) + length p <= 48)%nat ->
  let (r, ac') := insert_path p s ac in
  exists lab', ac_ok ac' lab' pats /\
    match r with Some t => 0 <= t < node_count_ ac' /\ label lab' t = label lab s ++ p | None => node_count_ ac' = kMaxNodes end.
Proof.
  revert s ac lab. induction p as [|b p IH]; intros s ac lab Hok Hs Hlen; cbn [insert_path]; [exists lab; by rewrite app_nil_r|].
  destruct Hok as [Ht Hc Hp Ho]. cbn [length] in Hlen. destruct (goto_spec ac lab s b Ht Hs) as [[Hg El]|[Hg Hnew]].
  - destruct (Z.eqb_spec (goto_ ac s b) (-1)); [lia|]. specialize (IH (goto_ ac s b) ac lab). rewrite El, length_app in IH. cbn [length] in IH.
    specialize (IH ltac:(by split) ltac:(lia) ltac:(lia)). destruct (insert_path p (goto_ ac s b) ac) as [r ac']. destruct IH as (lab' & H1 & H2). exists lab'. split; [done|].
    destruct r; [|done]. by rewrite <- app_assoc in H2.
  - rewrite Hg. cbn [Z.eqb Z.opp Pos.eqb]. destruct (Z.lt_ge_cases (node_count_ ac) kMaxNodes) as [Hroom|Hfull].
    + destruct (grow_path ac lab s b Ht Hs Hg ltac:(lia) Hroom) as (E1 & E2 & Ht' & Hold & Hnw & Hpc). pose proof (tr_size _ _ Ht). pose proof (tr_count _ _ Ht) as Hnc. pose proof (tr_ecount _ _ Ht).
      rewrite E1. destruct (Z.ltb_spec (node_count_ ac) 0); [lia|]. rewrite E2. destruct (Z.ltb_spec (edge_count_ ac) 0); [lia|].
      set (ac' := grown ac s b) in *. set (lab' := lab ++ [label lab s ++ [b]]) in *. pose proof (tr_count _ _ Ht') as Hnc'. unfold lab' in Hnc'. rewrite length_app in Hnc'. cbn [length] in Hnc'.
      assert (Hlab : forall t, 0 <= t < node_count_ ac -> label lab' t = label lab t) by (intros t Hr; apply zlookup_Some; [lia|]; unfold lab'; rewrite lookup_app_l by lia; by apply (label_in ac)).
      assert (Hlabn : label lab' (node_count_ ac) = label lab s ++ [b]) by (apply zlookup_Some; [lia|]; unfold lab'; rewrite lookup_app_r by lia; by replace (Z.to_nat (node_count_ ac) - length lab)%nat with 0%nat by lia).
      assert (Hok' : ac_ok ac' lab' pats).
      { split; [done|congruence| |].
        - intros q Hq. destruct (Hp q Hq). split; [by apply elem_of_app; left|done].
        - intros t Hr. destruct (decide (t = node_count_ ac)) as [->|]; [|rewrite Hold, Hlab by lia; apply Ho; lia]. rewrite Hnw, Hlabn. symmetry. apply own_none. intros Hq. destruct (Hp _ Hq). done. }
      specialize (IH (node_count_ ac) ac' lab' Hok' ltac:(lia)). rewrite Hlabn, length_app in IH. cbn [length] in IH. specialize (IH ltac:(lia)). destruct (insert_path p (node_count_ ac) ac') as [r ac''].
      destruct IH as (lab'' & J1 & J2). exists lab''. split; [done|]. destruct r; [|done]. by rewrite <- app_assoc in J2.
    + unfold new_node_. destruct (Z.leb_spec kMaxNodes (node_count_ ac)); [|lia]. cbn [Z.ltb Z.compare]. exists lab. split; [by split|]. pose proof (tr_size _ _ Ht). pose proof (tr_count _ _ Ht). unfold kMaxNodes in *. lia.
Qed.

Lemma trie_ok_ext ac ac' lab :
  trie_ok ac lab -> length (ac_nodes ac') = 96%nat -> ac_edges ac' = ac_edges ac -> length (queue_ ac') = 96%nat -> node_count_ ac' = node_count_ ac -> edge_count_ ac' = edge_count_ ac ->
  (forall s, edge_head (node s ac') = edge_head (node s ac)) -> trie_ok ac' lab.
Proof.
  intros [] Hn He Hq Ec Ee Hh. assert (Hf : forall s, edges_from ac' s = edges_from ac s) by (intros s; unfold edges_from; by rewrite He, Hh).
  split; rewrite ?Ec, ?Ee, ?He; [exact Hn|exact tr_edges0|exact Hq|exact tr_count0|exact tr_size0|exact tr_ecount0|exact tr_root0|exact tr_nodup0|exact tr_short0| |exact tr_next0|exact tr_target0| |].
  - intros s Hs. rewrite Hh. exact (tr_heads0 s Hs).
  - intros s ed Hs. rewrite Hf. exact (tr_sound0 s ed Hs).
  - intros c Hc. destruct (tr_complete0 c Hc) as (s & ed & H1 & H2 & H3). exists s, ed. rewrite Hf. split; [exact H1|]. split; [exact H2|exact H3].
Qed.

Lemma node_set_output o s ac t : length (ac_nodes ac) = 96%nat -> 0 <= s < 96 -> node t (set_output o s ac) = if decide (s = t) then mkAcNode (fail (node t ac)) o (edge_head (node t ac)) else node t ac.
Proof. intros Hl Hs. unfold node, set_output. cbn. rewrite zlookup_zalter; [done|]. unfold in_range. lia. Qed.

Lemma node_set_fail f s ac t : length (ac_nodes ac) = 96%nat -> 0 <= s < 96 -> node t (set_fail f s ac) = if decide (s = t) then mkAcNode f (output (node t ac)) (edge_head (node t ac)) else node t ac.
Proof. intros Hl Hs. unfold node, set_fail. cbn. rewrite zlookup_zalter; [done|]. unfold in_range. lia. Qed.

Lemma trie_range ac lab s : trie_ok ac lab -> 0 <= s < node_count_ ac -> 0 <= s < 96.
Proof. intros [] Hs. lia. Qed.

(** Adding a pattern: its number and the automaton of one more pattern, or -1 and the
    patterns as before. *)
Lemma add_pattern_ok p ac lab pats :
  ac_ok ac lab pats ->
  let (id, ac') := add_pattern p ac in
  exists lab', (id = Z.of_nat (length pats) /\ ac_ok ac' lab' (pats ++ [p])) \/ (id = -1 /\ ac_ok ac' lab' pats /\ (node_count_ ac' = kMaxNodes \/ kMaxPatterns <= Z.of_nat (length pats) \/ p = [] \/ (48 < length p)%nat)).
Proof.
  intros Hok. pose proof Hok as [Ht Hc Hp Ho]. unfold add_pattern, kMaxPatterns, kMaxPatternLen. destruct (Z.leb_spec 16 (pattern_count_ ac)); cbn [orb].
  { exists lab. right. split; [done|]. split; [done|]. right. left. lia. }
  destruct (Z.leb_spec (Z.of_nat (length p)) 0); cbn [orb]; [exists lab; right; split; [done|]; split; [done|]; right; right; left; apply nil_length_inv; lia|].
  destruct (Z.ltb_spec 48 (Z.of_nat (length p))); [exists lab; right; split; [done|]; split; [done|]; right; right; right; lia|].
  set (ac0 := set_patterns _ _ _ ac). assert (Hok0 : ac_ok ac0 lab pats) by (split; [|done|done|done]; apply (trie_ok_ext ac); try done; apply Ht).
  pose proof (insert_path_ok p 0 ac0 lab pats Hok0 (proj1 (trie_root_in _ _ (ao_trie _ _ _ Hok0)))) as Hi. rewrite (tr_root _ _ Ht) in Hi. cbn [length app Nat.add] in Hi. specialize (Hi ltac:(lia)).
  destruct (insert_path p 0 ac0) as [[t|] ac1]; destruct Hi as (lab' & Hok1 & Hr); exists lab'.
  - left. split; [done|]. destruct Hr as [Hr El]. destruct Hok1 as [Ht1 Hc1 Hp1 Ho1]. pose proof (trie_range _ _ _ Ht1 Hr) as Hr96. pose proof (tr_nodes _ _ Ht1) as Hn1.
    assert (Hnode : forall s, node s (set_patterns (patterns_ ac1) (pattern_len_ ac1) (pattern_count_ ac + 1) (set_output (pattern_count_ ac) t ac1)) = if decide (t = s) then mkAcNode (fail (node s ac1)) (pattern_count_ ac) (edge_head (node s ac1)) else node s ac1) by (intros s; by apply node_set_output).
    split.
    + apply (trie_ok_ext ac1); try done; [cbn; by rewrite length_zalter|apply Ht1|]. intros s. rewrite Hnode. by destruct (decide (t = s)).
    + rewrite length_app. cbn. lia.
    + intros q [Hq|Hq]%elem_of_app; [by apply Hp1|]. apply list_elem_of_singleton in Hq as ->. split; [rewrite <- El; by apply (label_elem ac1)|]. intros ->. cbn in *. lia.
    + intros s Hs. rewrite Hnode, own_snoc. destruct (decide (t = s)) as [<-|Hne]; cbn [output].
      * by rewrite decide_True by done.
      * rewrite decide_False; [by apply Ho1|]. rewrite <- El. intros E. apply (label_inj ac1) in E; done.
  - right. split; [done|]. split; [done|]. by left.
Qed.

Lemma ac_reset_ok ac : length (ac_nodes ac) = 96%nat -> length (ac_edges ac) = 192%nat -> length (queue_ ac) = 96%nat -> ac_ok (ac_reset ac) [[]] [].
Proof.
  intros Hn He Hq. assert (H0 : node 0 (ac_reset ac) = mkAcNode 0 (-1) (-1)) by (unfold node; cbn [ac_nodes ac_reset]; rewrite zlookup_zalter_eq; [done|unfold in_range; lia]).
  assert (Hf : edges_from (ac_reset ac) 0 = []) by (unfold edges_from; rewrite H0; apply edges_walk_nil).
  split; [|done|intros p Hp; by apply not_elem_of_nil in Hp|].
  - split; cbn [node_count_ edge_count_ ac_reset]; try done; try lia; [by etrans; [apply length_zalter|]|cbn; lia|apply NoDup_singleton|intros x Hx; apply list_elem_of_singleton in Hx as ->; cbn; lia| |].
    + intros s Hs. assert (s = 0) as -> by lia. rewrite H0. cbn. lia.
    + intros s ed Hs. assert (s = 0) as -> by lia. rewrite Hf. intros H. by apply not_elem_of_nil in H.
  - intros s Hs. cbn in Hs. assert (s = 0) as -> by lia. by rewrite H0.
Qed.

(** * Failure links *)

(** The failure links of the nodes of depth at most [n] lead to the longest proper suffix
    in the trie. *)
Definition links_ok (ac : AhoCorasick) (lab : list (list Z)) (n : nat) : Prop :=
  forall s, 0 < s < node_count_ ac -> (length (label lab s) <= n)%nat -> 0 <= fail (node s ac) < node_count_ ac /\ label lab (fail (node s ac)) = lsuf lab (tail (label lab s)).

(** The node a byte leads to from [s]. *)
Definition move (ac : AhoCorasick) (s b : Z) : Z := let g := goto_ ac s b in if negb (g =? -1) then g else 0.

Lemma follow_ok fuel ac lab n s b :
  trie_ok ac lab -> links_ok ac lab n -> 0 <= s < node_count_ ac -> (length (label lab s) <= n)%nat -> (length (label lab s) < fuel)%nat ->
  0 <= move ac (follow fuel ac s b) b < node_count_ ac /\ label lab (move ac (follow fuel ac s b) b) = lsuf lab (label lab s ++ [b]).
Proof.
  intros Ht Hl. destruct (trie_root_in ac lab Ht) as [H0 Hnil]. pose proof (trie_closed ac lab Ht) as Hcl. revert s.
  induction fuel as [|fuel IH]; intros s Hs Hn Hf; [lia|]. cbn [follow].
  assert (Hstop : goto_ ac s b <> -1 \/ s = 0 -> 0 <= move ac s b < node_count_ ac /\ label lab (move ac s b) = lsuf lab (label lab s ++ [b])).
  { intros Hst. unfold move. destruct (goto_spec ac lab s b Ht Hs) as [[Hg El]|[Hg Hnew]].
    - destruct (Z.eqb_spec (goto_ ac s b) (-1)); [lia|]. cbn [negb]. split; [lia|]. rewrite El, lsuf_self; [done|]. rewrite <- El. apply (label_elem ac); [done|lia].
    - rewrite Hg in *. destruct Hst as [|Hst]; [done|]. subst s. rewrite Z.eqb_refl. cbn [negb]. split; [done|]. rewrite (tr_root _ _ Ht) in *. cbn [app] in *. rewrite lsuf_tail by done. by rewrite lsuf_self. }
  destruct (Z.eqb_spec s 0) as [->|Hs0]; cbn [negb andb]; [apply Hstop; by right|]. destruct (Z.eqb_spec (goto_ ac s b) (-1)) as [Hg|Hg]; [|apply Hstop; by left].
  destruct (Hl s ltac:(lia) Hn) as [Hr El]. destruct (goto_spec ac lab s b Ht Hs) as [[? _]|[_ Hnew]]; [lia|].
  destruct (label lab s) as [|a x] eqn:Ex; [apply (label_nil ac) in Ex; done|]. cbn [tail] in El. pose proof (lsuf_length lab x) as Hlen. cbn [length] in *.
  destruct (IH (fail (node s ac)) Hr) as [G1 G2]; [rewrite El; lia|rewrite El; lia|]. split; [done|]. rewrite G2, El, lsuf_snoc by done. cbn [app]. symmetry. by apply lsuf_tail.
Qed.

(** Where a child's failure link must lead. *)
Lemma child_link ac lab n r b c :
  trie_ok ac lab -> links_ok ac lab n -> 0 < r < node_count_ ac -> (length (label lab r) <= n)%nat -> 0 < c < node_count_ ac -> label lab c = label lab r ++ [b] ->
  let f := goto_ ac (follow (Z.to_nat kMaxNodes) ac (fail (node r ac)) b) b in
  let link := if negb (f =? -1) && negb (f =? c) then f else 0 in
  0 <= link < node_count_ ac /\ label lab link = lsuf lab (tail (label lab c)) /\ (length (label lab link) <= length (label lab r))%nat.
Proof.
  intros Ht Hl Hr Hn Hc Ec. cbv zeta. destruct (Hl r Hr Hn) as [Hf Ef]. destruct (label lab r) as [|a x] eqn:Er; [apply (label_nil ac) in Er; (done || lia)|].
  cbn [tail length] in *. pose proof (lsuf_length lab x) as Hlen. pose proof (tr_short _ _ Ht _ (label_elem ac lab r Ht ltac:(lia))) as Hsh. rewrite Er in Hsh. cbn [length] in Hsh.
  destruct (trie_root_in ac lab Ht) as [H0 Hnil]. destruct (follow_ok (Z.to_nat kMaxNodes) ac lab n (fail (node r ac)) b Ht Hl Hf) as [G1 G2]; [rewrite Ef; lia|rewrite Ef; unfold kMaxNodes; lia|].
  rewrite Ef, lsuf_snoc in G2 by (done || by apply (trie_closed ac)). set (st := follow _ ac _ b) in *. unfold move in *. set (f := goto_ ac st b) in *. pose proof (lsuf_length lab (x ++ [b])) as Hl2. rewrite length_app in Hl2. cbn [length] in Hl2.
  assert (Et : tail (label lab c) = x ++ [b]) by (by rewrite Ec). rewrite Et.
  destruct (Z.eqb_spec f (-1)); cbn [negb andb] in *; [split; [done|]; split; [done|]; rewrite G2; lia|].
  destruct (Z.eqb_spec f c) as [Efc|]; cbn [negb andb] in *; [|split; [done|]; split; [done|]; rewrite G2; lia].
  rewrite Efc, Ec in G2. apply (f_equal length) in G2. rewrite !length_app in G2. cbn [length] in G2. lia.
Qed.

(** * The breadth-first pass *)

(** Nodes [Q] have been queued: their links and outputs are final; the others still have
    the output of insertion. *)
Record queue_ok (ac : AhoCorasick) (lab pats : list (list Z)) (Q : list Z) : Prop := {
  qo_trie : trie_ok ac lab;
  qo_pats : forall p, p ∈ pats -> p ∈ lab /\ p <> [];
  qo_queue : forall i q, Q !! i = Some q -> zlookup (queue_ ac) (Z.of_nat i) = q;
  qo_nodup : NoDup Q;
  qo_range : forall q, q ∈ Q -> 0 < q < node_count_ ac;
  qo_link : forall q, q ∈ Q -> 0 <= fail (node q ac) < node_count_ ac /\ label lab (fail (node q ac)) = lsuf lab (tail (label lab q)) /\ output (node q ac) = best pats (label lab q);
  qo_out : forall s, 0 <= s < node_count_ ac -> s ∉ Q -> output (node s ac) = own pats (label lab s);
}.

Lemma queue_bound ac lab pats Q : queue_ok ac lab pats Q -> (length Q < 96)%nat.
Proof.
  intros H. assert (Hs : Q ⊆+ seqZ 1 (node_count_ ac - 1)).
  { apply NoDup_submseteq; [apply H|]. intros q Hq. apply elem_of_seqZ. pose proof (qo_range _ _ _ _ H q Hq). lia. }
  apply submseteq_length in Hs. rewrite length_seqZ in Hs. pose proof (tr_size _ _ (qo_trie _ _ _ _ H)). pose proof (tr_count _ _ (qo_trie _ _ _ _ H)). lia.
Qed.

Lemma root_output ac lab pats Q : queue_ok ac lab pats Q -> output (node 0 ac) = -1.
Proof.
  intros H. pose proof (qo_trie _ _ _ _ H) as Ht. rewrite (qo_out _ _ _ _ H 0); [|apply (trie_root_in ac lab Ht)|intros Hq; apply (qo_range _ _ _ _ H) in Hq; lia].
  rewrite (tr_root _ _ Ht). apply own_none. intros Hp. by destruct (qo_pats _ _ _ _ H [] Hp).
Qed.

(** Queuing [c] with its link and output. *)
Lemma enqueue_ok ac ac' lab pats Q c :
  queue_ok ac lab pats Q -> trie_ok ac' lab -> node_count_ ac' = node_count_ ac -> 0 < c < node_count_ ac -> c ∉ Q ->
  (forall s, s <> c -> node s ac' = node s ac) -> queue_ ac' = zalter (fun _ => c) (Z.of_nat (length Q)) (queue_ ac) ->
  0 <= fail (node c ac') < node_count_ ac -> label lab (fail (node c ac')) = lsuf lab (tail (label lab c)) -> output (node c ac') = best pats (label lab c) ->
  queue_ok ac' lab pats (Q ++ [c]).
Proof.
  intros H Ht' Ec Hc Hn Hnode Hq Hf Hl Ho. pose proof (queue_bound _ _ _ _ H) as Hb. pose proof H as []. split; [done|done| | | | |]; rewrite ?Ec.
  - intros i q Hi. rewrite Hq. destruct (decide (i = length Q)) as [->|Hne].
    + rewrite zlookup_zalter_eq by (unfold in_range; rewrite (tr_queue _ _ qo_trie0); lia). rewrite lookup_app_r, Nat.sub_diag in Hi by done. cbn in Hi. congruence.
    + rewrite zlookup_zalter_ne by lia. apply qo_queue0. pose proof (lookup_lt_Some _ _ _ Hi) as Hlt. rewrite length_app in Hlt. cbn in Hlt. by rewrite lookup_app_l in Hi by lia.
  - apply NoDup_app. split; [done|]. split; [|apply NoDup_singleton]. intros x Hx Hx'. apply list_elem_of_singleton in Hx' as ->. done.
  - intros q [Hq'|Hq']%elem_of_app; [by apply qo_range0|]. apply list_elem_of_singleton in Hq' as ->. done.
  - intros q [Hq'|Hq']%elem_of_app; [|apply list_elem_of_singleton in Hq' as ->; done]. rewrite Hnode by (intros ->; done). by apply qo_link0.
  - intros s Hs Hns. rewrite elem_of_app, list_elem_of_singleton in Hns. rewrite Hnode by tauto. apply qo_out0; tauto.
Qed.

(** The edges of every node stay as they are. *)
Definition same_edges (ac ac' : AhoCorasick) : Prop := node_count_ ac' = node_count_ ac /\ forall s, edges_from ac' s = edges_from ac s.

Lemma enqueue_step c ac Q : (length Q < 96)%nat -> enqueue c (ac, Z.of_nat (length Q)) = (set_queue (zalter (fun _ => c) (Z.of_nat (length Q)) (queue_ ac)) ac, Z.of_nat (length (Q ++ [c]))).
Proof. intros Hl. unfold enqueue, kMaxNodes. destruct (Z.ltb_spec (Z.of_nat (length Q)) 96); [|lia]. rewrite length_app. cbn [length]. f_equal. lia. Qed.

Lemma visit_root_ok ac lab pats Q ed :
  queue_ok ac lab pats Q -> ed ∈ edges_from ac 0 -> enext ed ∉ Q ->
  exists ac', visit_root (ac, Z.of_nat (length Q)) ed = (ac', Z.of_nat (length (Q ++ [enext ed]))) /\ queue_ok ac' lab pats (Q ++ [enext ed]) /\ same_edges ac ac'.
Proof.
  intros H Hed Hn. pose proof (qo_trie _ _ _ _ H) as Ht. destruct (trie_root_in ac lab Ht) as [H0 Hnil]. destruct (tr_sound _ _ Ht 0 ed H0 Hed) as [Hc El]. rewrite (tr_root _ _ Ht) in El. cbn [app] in El.
  unfold visit_root. cbn [fst snd]. rewrite enqueue_step by (by eapply queue_bound). eexists. split; [done|]. set (c := enext ed) in *. set (ac' := set_queue _ _).
  pose proof (trie_range ac lab c Ht ltac:(lia)) as Hc96. pose proof (tr_nodes _ _ Ht) as Hn96.
  assert (Hnode : forall s, node s ac' = if decide (c = s) then mkAcNode 0 (output (node s ac)) (edge_head (node s ac)) else node s ac) by (intros s; by apply node_set_fail).
  assert (Hhead : forall s, edge_head (node s ac') = edge_head (node s ac)) by (intros s; rewrite Hnode; by destruct (decide (c = s))).
  assert (Ht' : trie_ok ac' lab).
  { apply (trie_ok_ext ac); [exact Ht|etrans; [apply length_zalter|exact Hn96]|reflexivity|etrans; [apply length_zalter|apply Ht]|reflexivity|reflexivity|exact Hhead]. }
  split; [|split; [reflexivity|intros s; unfold edges_from; by rewrite Hhead]].
  apply (enqueue_ok ac); try done.
  - intros s Hs. rewrite Hnode. by destruct (decide (c = s)).
  - rewrite Hnode, decide_True by done. exact H0.
  - rewrite Hnode, decide_True by done. cbn [fail]. rewrite El. cbn [tail]. rewrite (lsuf_self lab [] Hnil). apply Ht.
  - rewrite Hnode, decide_True by done. cbn [output]. rewrite (qo_out _ _ _ _ H) by (done || lia). rewrite El. cbn [best]. by destruct (Z.eqb_spec (own pats [ebyte ed]) (-1)).
Qed.

Lemma visit_ok ac lab pats Q r ed :
  queue_ok ac lab pats Q -> r ∈ Q -> (forall s, 0 < s < node_count_ ac -> (length (label lab s) <= length (label lab r))%nat -> s ∈ Q) -> ed ∈ edges_from ac r -> enext ed ∉ Q ->
  exists ac', visit r (ac, Z.of_nat (length Q)) ed = (ac', Z.of_nat (length (Q ++ [enext ed]))) /\ queue_ok ac' lab pats (Q ++ [enext ed]) /\ same_edges ac ac'.
Proof.
  intros H Hr Hdeep Hed Hn. pose proof (qo_trie _ _ _ _ H) as Ht. pose proof (qo_range _ _ _ _ H r Hr) as Hrr. destruct (tr_sound _ _ Ht r ed ltac:(lia) Hed) as [Hc El].
  unfold visit. rewrite enqueue_step by (by eapply queue_bound). set (ac0 := set_queue _ ac). set (c := enext ed) in *. cbv zeta.
  assert (Ht0 : trie_ok ac0 lab) by (apply (trie_ok_ext ac); [exact Ht|apply Ht|reflexivity|etrans; [apply length_zalter|apply Ht]|reflexivity|reflexivity|reflexivity]).
  assert (Hl0 : links_ok ac0 lab (length (label lab r))). { intros s Hs Hls. destruct (qo_link _ _ _ _ H s (Hdeep s Hs Hls)) as (L1 & L2 & _). split; [exact L1|exact L2]. }
  destruct (child_link ac0 lab _ r (ebyte ed) c Ht0 Hl0 Hrr ltac:(lia) Hc El) as (K1 & K2 & K3). cbv zeta in K1, K2, K3. set (link := if negb _ && negb _ then _ else 0) in *. set (ac1 := set_fail link c ac0).
  pose proof (trie_range ac lab c Ht ltac:(lia)) as Hc96. pose proof (tr_nodes _ _ Ht) as Hn96.
  assert (Hnode1 : forall s, node s ac1 = if decide (c = s) then mkAcNode link (output (node s ac)) (edge_head (node s ac)) else node s ac) by (intros s; by apply (node_set_fail link c ac0)).
  assert (Hlc : link <> c) by (intros E; rewrite E, El, length_app in K3; cbn in K3; lia).
  assert (Hoc : output (node c ac1) = own pats (label lab c)) by (rewrite Hnode1, decide_True by done; cbn [output]; apply (qo_out _ _ _ _ H); [lia|done]).
  assert (Hol : output (node link ac1) = best pats (tail (label lab c))).
  { rewrite Hnode1, decide_False by congruence. rewrite <- (best_lsuf lab) by (first [apply (trie_root_in ac lab Ht)|intros p Hp; by apply (qo_pats _ _ _ _ H)]). rewrite <- K2.
    destruct (decide (link = 0)) as [E0|E0]; [rewrite E0, (root_output _ _ _ _ H), (tr_root _ _ Ht); done|]. apply (qo_link _ _ _ _ H). apply Hdeep; [change (node_count_ ac0) with (node_count_ ac) in K1; lia|done]. }
  assert (Hbest : best pats (label lab c) = if own pats (label lab c) =? -1 then best pats (tail (label lab c)) else own pats (label lab c)).
  { destruct (label lab c) as [|a x] eqn:Ex; [apply (label_nil ac) in Ex; [lia|done|lia]|done]. }
  assert (Hfc : fail (node c ac1) = link) by (rewrite Hnode1, decide_True by done; done). rewrite Hfc.
  assert (Ht1 : trie_ok ac1 lab).
  { apply (trie_ok_ext ac0); [exact Ht0|etrans; [apply length_zalter|exact Hn96]|reflexivity|apply Ht0|reflexivity|reflexivity|]. intros s. rewrite Hnode1. change (node s ac0) with (node s ac). by destruct (decide (c = s)). }
  destruct (Z.eqb_spec (output (node c ac1)) (-1)) as [Eo|Eo]; (eexists; split; [done|]).
  - set (ac2 := set_output _ c ac1). assert (Hnode2 : forall s, node s ac2 = if decide (c = s) then mkAcNode (fail (node s ac1)) (output (node link ac1)) (edge_head (node s ac1)) else node s ac1) by (intros s; by apply node_set_output; [apply Ht1|]).
    assert (Hhead : forall s, edge_head (node s ac2) = edge_head (node s ac)) by (intros s; rewrite Hnode2, Hnode1; by destruct (decide (c = s))).
    split; [|split; [reflexivity|intros s; unfold edges_from; by rewrite Hhead]].
    apply (enqueue_ok ac); [exact H| |reflexivity|exact Hc|exact Hn| |reflexivity| | |].
    + apply (trie_ok_ext ac1); [exact Ht1|etrans; [apply length_zalter|apply Ht1]|reflexivity|apply Ht1|reflexivity|reflexivity|]. intros s. rewrite Hnode2. by destruct (decide (c = s)).
    + intros s Hs. rewrite Hnode2, Hnode1. by destruct (decide (c = s)).
    + rewrite Hnode2, decide_True by done. cbn [fail]. rewrite Hfc. exact K1.
    + rewrite Hnode2, decide_True by done. cbn [fail]. rewrite Hfc. exact K2.
    + rewrite Hnode2, decide_True by done. cbn [output]. rewrite Hol, Hbest, <- Hoc, Eo. done.
  - assert (Hhead : forall s, edge_head (node s ac1) = edge_head (node s ac)) by (intros s; rewrite Hnode1; by destruct (decide (c = s))).
    split; [|split; [reflexivity|intros s; unfold edges_from; by rewrite Hhead]].
    apply (enqueue_ok ac); [exact H|exact Ht1|reflexivity|exact Hc|exact Hn| |reflexivity| | |].
    + intros s Hs. rewrite Hnode1. by destruct (decide (c = s)).
    + rewrite Hfc. exact K1.
    + rewrite Hfc. exact K2.
    + rewrite Hbest, <- Hoc. destruct (Z.eqb_spec (output (node c ac1)) (-1)); [done|]. done.
Qed.

(** All edges of one node. *)
Lemma fold_visits step s lab pats n0 (Q0 : list Z) l :
  (forall ac Q ed, queue_ok ac lab pats Q -> node_count_ ac = n0 -> (forall q, q ∈ Q0 -> q ∈ Q) -> ed ∈ edges_from ac s -> enext ed ∉ Q ->
     exists ac', step (ac, Z.of_nat (length Q)) ed = (ac', Z.of_nat (length (Q ++ [enext ed]))) /\ queue_ok ac' lab pats (Q ++ [enext ed]) /\ same_edges ac ac') ->
  forall ac Q, queue_ok ac lab pats Q -> node_count_ ac = n0 -> (forall q, q ∈ Q0 -> q ∈ Q) -> (forall ed, ed ∈ l -> ed ∈ edges_from ac s) -> NoDup (enext <$> l) -> (forall ed, ed ∈ l -> enext ed ∉ Q) ->
  exists ac', foldl step (ac, Z.of_nat (length Q)) l = (ac', Z.of_nat (length (Q ++ (enext <$> l)))) /\ queue_ok ac' lab pats (Q ++ (enext <$> l)) /\ same_edges ac ac'.
Proof.
  intros Hstep. induction l as [|ed l IH]; intros ac Q H Hnc Hsub Hin Hnd Hnew; cbn [foldl fmap list_fmap]; [exists ac; by rewrite app_nil_r|].
  apply NoDup_cons in Hnd as [Hnd1 Hnd2]. destruct (Hstep ac Q ed H Hnc Hsub) as (ac1 & E1 & H1 & S1 & S2); [apply Hin, list_elem_of_here|apply Hnew, list_elem_of_here|].
  change (enext ed :: (enext <$> l)) with ([enext ed] ++ (enext <$> l)). rewrite E1, app_assoc. destruct (IH ac1 (Q ++ [enext ed]) H1) as (ac2 & E2 & H2 & T1 & T2).
  - congruence.
  - intros q Hq. apply elem_of_app. left. by apply Hsub.
  - intros e He. rewrite S2. by apply Hin, list_elem_of_further.
  - done.
  - intros e He. rewrite elem_of_app, list_elem_of_singleton. intros [Hq|Hq]; [by apply (Hnew e); [apply list_elem_of_further|]|]. apply Hnd1. rewrite <- Hq. by apply (list_elem_of_fmap_2 enext).
  - exists ac2. split; [done|]. split; [done|]. split; [congruence|]. intros t. by rewrite T2, S2.
Qed.

(** [c] hangs below [s]. *)
Definition child (ac : AhoCorasick) (s c : Z) : Prop := exists ed, ed ∈ edges_from ac s /\ enext ed = c.

(** The queue in breadth-first order; the first [head] nodes have been expanded. *)
Record bfs_ok (ac : AhoCorasick) (lab pats : list (list Z)) (Q : list Z) (head : nat) : Prop := {
  bf_queue : queue_ok ac lab pats Q;
  bf_sorted : forall i j a b, (i <= j)%nat -> Q !! i = Some a -> Q !! j = Some b -> (length (label lab a) <= length (label lab b))%nat;
  bf_bound : forall h q, Q !! head = Some h -> q ∈ Q -> (length (label lab q) <= length (label lab h) + 1)%nat;
  bf_closed : forall s c, child ac s c -> s = 0 \/ s ∈ take head Q -> c ∈ Q;
  bf_origin : forall q, q ∈ Q -> exists s, child ac s q /\ (s = 0 \/ s ∈ take head Q);
}.

Lemma child_label ac lab s c : trie_ok ac lab -> 0 <= s < node_count_ ac -> child ac s c -> 0 < c < node_count_ ac /\ exists b, label lab c = label lab s ++ [b].
Proof. intros Ht Hs (ed & Hed & <-). destruct (tr_sound _ _ Ht s ed Hs Hed) as [H1 H2]. split; [done|]. by exists (ebyte ed). Qed.

(** Every node is below an earlier one. *)
Lemma parent_of ac lab c : trie_ok ac lab -> 0 < c < node_count_ ac -> exists s, 0 <= s < node_count_ ac /\ child ac s c /\ length (label lab c) = S (length (label lab s)).
Proof.
  intros Ht Hc. destruct (tr_complete _ _ Ht c Hc) as (s & ed & Hs & Hed & E). exists s. split; [done|]. split; [by exists ed|]. destruct (tr_sound _ _ Ht s ed Hs Hed) as [_ El]. rewrite <- E, El, length_app. cbn. lia.
Qed.

(** Nodes no deeper than the one to expand are queued. *)
Lemma bfs_deep ac lab pats Q head r s :
  bfs_ok ac lab pats Q head -> Q !! head = Some r -> 0 < s < node_count_ ac -> (length (label lab s) <= length (label lab r))%nat -> s ∈ Q.
Proof.
  intros [Hq Hsort _ Hcl _] Hr. pose proof (qo_trie _ _ _ _ Hq) as Ht. remember (length (label lab s)) as n eqn:En. revert s En. induction n as [n IH] using lt_wf_ind. intros s En Hs Hn.
  destruct (parent_of ac lab s Ht Hs) as (p & Hp & Hch & El). apply (Hcl p s Hch). destruct (decide (p = 0)) as [|Hp0]; [by left|]. right.
  assert (Hpq : p ∈ Q) by (apply (IH (length (label lab p))); (done || lia)). apply list_elem_of_lookup in Hpq as [i Hi].
  destruct (decide (i < head)%nat) as [Hlt|Hge]; [eapply list_elem_of_lookup_2; by rewrite lookup_take_lt|]. pose proof (Hsort head i r p ltac:(lia) Hr Hi). lia.
Qed.

Lemma bfs_all ac lab pats Q head s : bfs_ok ac lab pats Q head -> (length Q <= head)%nat -> 0 < s < node_count_ ac -> s ∈ Q.
Proof.
  intros [Hq _ _ Hcl _] Hh. pose proof (qo_trie _ _ _ _ Hq) as Ht. remember (length (label lab s)) as n eqn:En. revert s En. induction n as [n IH] using lt_wf_ind. intros s En Hs.
  destruct (parent_of ac lab s Ht Hs) as (p & Hp & Hch & El). apply (Hcl p s Hch). destruct (decide (p = 0)) as [|Hp0]; [by left|]. right. rewrite take_ge by done. apply (IH (length (label lab p))); (done || lia).
Qed.

Lemma same_child ac ac' s c : same_edges ac ac' -> child ac' s c <-> child ac s c.
Proof. intros [_ He]. unfold child. by rewrite He. Qed.

(** Expanding one node. *)
Lemma expand_ok ac lab pats Q head r :
  bfs_ok ac lab pats Q head -> Q !! head = Some r ->
  exists ac' Q', foldl (visit r) (ac, Z.of_nat (length Q)) (edges_from ac r) = (ac', Z.of_nat (length Q')) /\ bfs_ok ac' lab pats Q' (S head) /\ (length Q <= length Q')%nat.
Proof.
  intros Hb Hr. pose proof Hb as [Hq Hsort Hbd Hcl Hor]. pose proof (qo_trie _ _ _ _ Hq) as Ht. assert (Hrq : r ∈ Q) by (by eapply list_elem_of_lookup_2). pose proof (qo_range _ _ _ _ Hq r Hrq) as Hrr.
  assert (Hnew : forall ed, ed ∈ edges_from ac r -> enext ed ∉ Q).
  { intros ed Hed Hin. destruct (Hor _ Hin) as (s & Hch & Hs). assert (Hsr : 0 <= s < node_count_ ac).
    { destruct Hs as [->|Hs]; [apply (trie_root_in ac lab Ht)|]. assert (Hsq : s ∈ Q) by (rewrite <- (take_drop head Q); apply elem_of_app; by left). pose proof (qo_range _ _ _ _ Hq s Hsq). lia. }
    destruct (child_label ac lab s _ Ht Hsr Hch) as (_ & b & E1). destruct (tr_sound _ _ Ht r ed ltac:(lia) Hed) as [_ E2]. rewrite E2 in E1. apply app_inj_tail in E1 as [E1 _].
    apply (label_inj ac lab) in E1; [|done|lia|done]. subst s. destruct Hs as [->|Hs]; [lia|]. apply list_elem_of_lookup in Hs as [i Hi]. apply lookup_take_Some in Hi as [Hi Hlt].
    pose proof (NoDup_lookup _ _ _ _ (qo_nodup _ _ _ _ Hq) Hi Hr). lia. }
  destruct (fold_visits (visit r) r lab pats (node_count_ ac) Q (edges_from ac r)) with (ac := ac) (Q := Q) as (ac' & E & Hq' & Hs'); try done.
  { intros ac1 Q1 ed H1 Hn1 Hsub Hed Hn. apply visit_ok; [done|by apply Hsub| |done|done]. intros s Hs Hl. apply Hsub. rewrite Hn1 in Hs. by apply (bfs_deep ac lab pats Q head r). }
  { by apply (edges_from_nodup ac lab); [|lia]. }
  exists ac', (Q ++ (enext <$> edges_from ac r)). split; [done|]. split; [|rewrite length_app; lia].
  assert (Hdep : forall q, q ∈ (enext <$> edges_from ac r) -> length (label lab q) = S (length (label lab r))).
  { intros q (ed & -> & Hed)%list_elem_of_fmap. destruct (tr_sound _ _ Ht r ed ltac:(lia) Hed) as [_ El]. rewrite El, length_app. cbn. lia. }
  assert (Hhead : (head < length Q)%nat) by (by eapply lookup_lt_Some).
  assert (Htake : take (S head) (Q ++ (enext <$> edges_from ac r)) = take head Q ++ [r]) by (rewrite take_app_le by lia; by apply take_S_r).
  split.
  - done.
  - intros i j a b Hij Ha Hbj. destruct (decide (j < length Q)%nat) as [Hj|Hj].
    + rewrite lookup_app_l in Ha, Hbj by lia. by apply (Hsort i j).
    + rewrite lookup_app_r in Hbj by lia. rewrite (Hdep b) by (by eapply list_elem_of_lookup_2). destruct (decide (i < length Q)%nat).
      * rewrite lookup_app_l in Ha by lia. pose proof (Hbd r a Hr ltac:(by eapply list_elem_of_lookup_2)). lia.
      * rewrite lookup_app_r in Ha by lia. rewrite (Hdep a) by (by eapply list_elem_of_lookup_2). done.
  - intros h q Hh Hqq. assert (Hrh : (length (label lab r) <= length (label lab h))%nat).
    { destruct (decide (S head < length Q)%nat) as [Hl|Hl]; [rewrite lookup_app_l in Hh by lia; apply (Hsort head (S head)); (done || lia)|]. rewrite lookup_app_r in Hh by lia. rewrite (Hdep h) by (by eapply list_elem_of_lookup_2). lia. }
    apply elem_of_app in Hqq as [Hqq|Hqq]; [pose proof (Hbd r q Hr Hqq); lia|]. rewrite (Hdep q Hqq). lia.
  - intros s c Hch Hs. apply (same_child ac) in Hch; [|done]. rewrite Htake in Hs. apply elem_of_app. destruct Hs as [->|Hs]; [left; by apply (Hcl 0 c Hch); left|].
    apply elem_of_app in Hs as [Hs|Hs]; [left; by apply (Hcl s c Hch); right|]. apply list_elem_of_singleton in Hs as ->. right. destruct Hch as (ed & Hed & <-). by apply (list_elem_of_fmap_2 enext).
  - intros q [Hqq|Hqq]%elem_of_app; rewrite Htake.
    + destruct (Hor q Hqq) as (s & Hch & Hs). exists s. rewrite (same_child ac) by done. split; [done|]. destruct Hs; [by left|right; apply elem_of_app; by left].
    + apply list_elem_of_fmap in Hqq as (ed & -> & Hed). exists r. rewrite (same_child ac) by done. split; [by exists ed|]. right. apply elem_of_app. right. apply list_elem_of_here.
Qed.

(** After the pass. *)
Record built (ac : AhoCorasick) (lab pats : list (list Z)) : Prop := {
  bu_trie : trie_ok ac lab;
  bu_pats : forall p, p ∈ pats -> p ∈ lab /\ p <> [];
  bu_links : links_ok ac lab 48;
  bu_out : forall s, 0 <= s < node_count_ ac -> output (node s ac) = best pats (label lab s);
}.

Lemma bfs_run_ok fuel head ac lab pats Q :
  bfs_ok ac lab pats Q head -> (head <= length Q)%nat -> (96 <= fuel + head)%nat -> built (bfs fuel (Z.of_nat head) (ac, Z.of_nat (length Q))).1 lab pats.
Proof.
  revert head ac Q. induction fuel as [|fuel IH]; intros head ac Q Hb Hh Hf; [pose proof (queue_bound _ _ _ _ (bf_queue _ _ _ _ _ Hb)); lia|].
  cbn [bfs snd]. destruct (Z.ltb_spec (Z.of_nat head) (Z.of_nat (length Q))) as [Hlt|Hge].
  - destruct (lookup_lt_is_Some_2 Q head ltac:(lia)) as [r Hr]. cbn [fst]. rewrite (qo_queue _ _ _ _ (bf_queue _ _ _ _ _ Hb) head r Hr).
    destruct (expand_ok ac lab pats Q head r Hb Hr) as (ac' & Q' & E & Hb' & Hlen). rewrite E. replace (Z.of_nat head + 1) with (Z.of_nat (S head)) by lia. apply IH; [done|lia|lia].
  - cbn [fst]. pose proof (bf_queue _ _ _ _ _ Hb) as Hq. pose proof (qo_trie _ _ _ _ Hq) as Ht. assert (Hall : forall s, 0 < s < node_count_ ac -> s ∈ Q) by (intros s Hs; apply (bfs_all ac lab pats Q head); (done || lia)).
    split; [done|apply Hq| |].
    + intros s Hs _. destruct (qo_link _ _ _ _ Hq s (Hall s Hs)) as (L1 & L2 & _). done.
    + intros s Hs. destruct (decide (s = 0)) as [->|Hne]; [rewrite (root_output _ _ _ _ Hq), (tr_root _ _ Ht); done|]. apply (qo_link _ _ _ _ Hq). apply Hall. lia.
Qed.

Lemma ac_build_ok ac lab pats : ac_ok ac lab pats -> built (ac_build ac) lab pats.
Proof.
  intros [Ht Hc Hp Ho]. unfold ac_build. destruct (trie_root_in ac lab Ht) as [H0 Hnil].
  assert (Hq0 : queue_ok ac lab pats []). { split; [done|done|done|constructor|intros q Hq; by apply not_elem_of_nil in Hq|intros q Hq; by apply not_elem_of_nil in Hq|intros s Hs _; by apply Ho]. }
  destruct (fold_visits visit_root 0 lab pats (node_count_ ac) [] (edges_from ac 0)) with (ac := ac) (Q := @nil Z) as (ac1 & E & Hq & Hs); try done.
  { intros ac1 Q1 ed H1 _ _ Hed Hn. by apply visit_root_ok. }
  { by apply (edges_from_nodup ac lab). }
  { intros ed _ Hq. by apply not_elem_of_nil in Hq. }
  cbn [length app] in E, Hq. change (Z.of_nat 0) with 0 in E. rewrite E. set (Q := enext <$> edges_from ac 0) in *.
  assert (Hdep : forall q, q ∈ Q -> length (label lab q) = 1%nat). { intros q (ed & -> & Hed)%list_elem_of_fmap. destruct (tr_sound _ _ Ht 0 ed H0 Hed) as [_ El]. rewrite El, (tr_root _ _ Ht). done. }
  apply (bfs_run_ok _ 0 ac1 lab pats Q); [|lia|unfold kMaxNodes; lia]. split.
  - done.
  - intros i j a b _ Ha Hb. rewrite (Hdep a), (Hdep b) by (by eapply list_elem_of_lookup_2). done.
  - intros h q _ Hq'. rewrite (Hdep q Hq'). lia.
  - intros s c Hch Hs'. apply (same_child ac) in Hch; [|done]. rewrite take_0 in Hs'. destruct Hs' as [->|Hs']; [|by apply not_elem_of_nil in Hs']. destruct Hch as (ed & Hed & <-). by apply (list_elem_of_fmap_2 enext).
  - intros q (ed & -> & Hed)%list_elem_of_fmap. exists 0. rewrite (same_child ac) by done. split; [by exists ed|by left].
Qed.

(** * Searching *)

(** The first prefix of the data that ends in a pattern, and the longest such pattern. *)
Fixpoint naive_from (pats : list (list Z)) (seen data : list Z) : Z :=
  match data with
  | [] => -1
  | b :: data => if best pats (seen ++ [b]) =? -1 then naive_from pats (seen ++ [b]) data else best pats (seen ++ [b])
  end.

Lemma search_from_ok ac lab pats data seen s :
  built ac lab pats -> 0 <= s < node_count_ ac -> label lab s = lsuf lab seen -> search_from ac data s = naive_from pats seen data.
Proof.
  intros [Ht Hp Hl Ho]. destruct (trie_root_in ac lab Ht) as [H0 Hnil]. revert seen s. induction data as [|b data IH]; intros seen s Hs El; cbn [search_from naive_from]; [done|].
  pose proof (tr_short _ _ Ht _ (label_elem ac lab s Ht Hs)) as Hsh. destruct (follow_ok (Z.to_nat kMaxNodes) ac lab 48 s b Ht Hl Hs Hsh ltac:(unfold kMaxNodes; lia)) as [G1 G2].
  fold (move ac (follow (Z.to_nat kMaxNodes) ac s b) b) in G1, G2. change (ac_step ac s b) with (move ac (follow (Z.to_nat kMaxNodes) ac s b) b). set (s' := move ac _ b) in *.
  rewrite El, lsuf_snoc in G2 by (done || by apply (trie_closed ac)). rewrite (Ho s' G1), G2, best_lsuf by (done || (intros p Hin; by apply Hp)).
  destruct (Z.eqb_spec (best pats (seen ++ [b])) (-1)); cbn [negb]; [|done]. by apply IH.
Qed.

Lemma ac_search_ok ac lab pats data : built ac lab pats -> ac_search ac data = naive_from pats [] data.
Proof.
  intros Hb. pose proof (bu_trie _ _ _ Hb) as Ht. destruct (trie_root_in ac lab Ht) as [H0 Hnil]. apply (search_from_ok ac lab); [done|done|]. by rewrite (tr_root _ _ Ht), (lsuf_self lab [] Hnil).
Qed.

(** ** What the reference computes *)

Lemma best_spec pats x :
  (forall p, p ∈ pats -> p <> []) ->
  (best pats x = -1 /\ forall p, p ∈ pats -> ~ p `suffix_of` x) \/
  (exists p, 0 <= best pats x /\ pats !! Z.to_nat (best pats x) = Some p /\ p `suffix_of` x /\ forall q, q ∈ pats -> q `suffix_of` x -> (length q <= length p)%nat).
Proof.
  intros Hne. induction x as [|a x IH]; cbn [best].
  - left. split; [done|]. intros p Hp Hs. apply suffix_nil_inv in Hs. by apply (Hne p).
  - destruct (own_spec pats (a :: x)) as [[E Hn]|[Hr Hl]].
    + rewrite E. cbn [Z.eqb Z.opp Pos.eqb]. assert (Hsuf : forall q, q ∈ pats -> q `suffix_of` a :: x <-> q `suffix_of` x).
      { intros q Hq. split; [|apply suffix_cons_r]. destruct q as [|c q]; [by destruct (Hne [] Hq)|]. intros [E'|Hs]%suffix_cons_inv; [by rewrite E' in Hq|done]. }
      destruct IH as [[-> IH]|(p & Hr & Hl & Hs & Hm)]; [left; split; [done|]; intros p Hp; rewrite Hsuf by done; by apply IH|].
      right. exists p. split; [done|]. split; [done|]. split; [by apply suffix_cons_r|]. intros q Hq. rewrite Hsuf by done. by apply Hm.
    + destruct (Z.eqb_spec (own pats (a :: x)) (-1)); [lia|]. right. exists (a :: x). split; [lia|]. split; [done|]. split; [done|]. intros q _ Hs. by apply suffix_length.
Qed.
