(* ===== verification/Ids.v ===== *)
(** The network intrusion detection (security/ids): alerts (alert_manager.hpp), packet
    parsing and per-host statistics (traffic_analyzer.hpp), the detector
    (anomaly_detector.hpp) and the engine with its status file (ids_engine.hpp).

    [now] is the tick counter, read once per call.  A frame is a list of bytes with its
    length; pointers into it are offsets or the bytes they point to. *)
From S2P Require Import Prelude Kernel SecMon Text Aho.
From stdpp Require Import strings.
#[local] Open Scope Z_scope.

(** * Alerts *)

Inductive IdsCategory := PortScan | HostScan | SynFlood | ArpSpoof | DnsTunnel | MalformedPacket | Fragmentation | TcpFlagAnomaly | PayloadSignature | TrafficAnomaly.

#[export] Instance IdsCategory_eq_dec : EqDecision IdsCategory.
Proof. solve_decision. Defined.

Definition sev_rank (s : IdsSeverity) : Z := match s with SevInfo => 0 | SevLow => 1 | SevMedium => 2 | SevHigh => 3 | SevCritical => 4 end.

Record IdsAlert := mkAlert {
  al_timestamp : Z;
  al_category : IdsCategory;
  al_severity : IdsSeverity;
  al_src_ip : Z;
  al_dst_ip : Z;
  al_src_port : Z;
  al_dst_port : Z;
  al_count : Z;
  al_description : list Z;
}.

#[export] Instance IdsAlert_inhabited : Inhabited IdsAlert := populate (mkAlert 0 PortScan SevInfo 0 0 0 0 0 []).

Record AlertManager := mkAlerts { alerts_ : list IdsAlert; alert_count_ : Z; last_report_ms_ : Z }.

Definition kMaxAlerts : Z := 64.
Definition kDedupWindowMs : Z := 5000.
Definition kReportCooldownMs : Z := 1000.

Definition alerts_ctor : AlertManager := mkAlerts (replicate 64 inhabitant) 0 0.

(** The alerts with the security monitor they are reported to and the console. *)
Record IdsWorld := mkIdsWorld { am : AlertManager; ids_monitor : SecurityMonitor; ids_console : list Z }.

Definition set_am v w := mkIdsWorld v (ids_monitor w) (ids_console w).

Definition category_name (c : IdsCategory) : list Z :=
  match c with
  | PortScan => str "port_scan" | HostScan => str "host_scan" | SynFlood => str "syn_flood" | ArpSpoof => str "arp_spoof" | DnsTunnel => str "dns_tunnel"
  | MalformedPacket => str "malformed_packet" | Fragmentation => str "fragmentation" | TcpFlagAnomaly => str "tcp_flag_anomaly"
  | PayloadSignature => str "payload_signature" | TrafficAnomaly => str "traffic_anomaly"
  end.

(** The description up to its terminator. *)
Definition fill_desc_ (c : IdsCategory) (desc : list Z) : list Z := take 63 (category_name c ++ str ": " ++ cstr desc).

Definition maybe_report_ (now : Z) (a : IdsAlert) (w : IdsWorld) : IdsWorld :=
  if sev_rank (al_severity a) <? 3 then w
  else if wrap32 (now - last_report_ms_ (am w)) <? kReportCooldownMs then w
  else
    let w := set_am (mkAlerts (alerts_ (am w)) (alert_count_ (am w)) now) w in
    let (msg, m) := report_firewall_anomaly (Some (al_description a)) (ids_monitor w) in mkIdsWorld (am w) m (ids_console w ++ msg).

(** An alert of the same kind that is recent enough to absorb a new one. *)
Definition absorbs (now : Z) (cat : IdsCategory) (src dst : Z) (a : IdsAlert) : bool :=
  bool_decide (al_category a = cat) && (al_src_ip a =? src) && (al_dst_ip a =? dst) && (wrap32 (now - al_timestamp a) <=? kDedupWindowMs).

(** The positions of the ring still held, oldest first. *)
Definition live_positions (m : AlertManager) : list Z :=
  let start := if kMaxAlerts <? alert_count_ m then alert_count_ m - kMaxAlerts else 0 in
  (fun i => i mod kMaxAlerts) <$> seqZ start (alert_count_ m - start).

Definition aggregate (now : Z) (sev : IdsSeverity) (a : IdsAlert) : IdsAlert :=
  mkAlert now (al_category a) (if sev_rank (al_severity a) <? sev_rank sev then sev else al_severity a) (al_src_ip a) (al_dst_ip a) (al_src_port a) (al_dst_port a) (wrap32 (al_count a + 1)) (al_description a).

Definition submit (now : Z) (cat : IdsCategory) (sev : IdsSeverity) (src dst sport dport : Z) (desc : list Z) (w : IdsWorld) : IdsWorld :=
  let m := am w in
  match List.find (fun i => absorbs now cat src dst (zlookup (alerts_ m) i)) (live_positions m) with
  | Some i =>
      let a := aggregate now sev (zlookup (alerts_ m) i) in
      maybe_report_ now a (set_am (mkAlerts (zalter (fun _ => a) i (alerts_ m)) (alert_count_ m) (last_report_ms_ m)) w)
  | None =>
      let a := mkAlert now cat sev src dst sport dport 1 (fill_desc_ cat desc) in
      maybe_report_ now a (set_am (mkAlerts (zalter (fun _ => a) (alert_count_ m mod kMaxAlerts) (alerts_ m)) (wrap32 (alert_count_ m + 1)) (last_report_ms_ m)) w)
  end.

Definition get_alert (index : Z) (m : AlertManager) : option IdsAlert := if index <? 0 then None else Some (zlookup (alerts_ m) (index mod kMaxAlerts)).

(** [static_cast<int>(i)] *)
Definition as_int (i : Z) : Z := if 2147483648 <=? i then i - 4294967296 else i.

Definition alerts_reset (m : AlertManager) : AlertManager := alerts_ctor.

(** * Packets *)

Record ParsedPacket := mkParsed {
  p_eth_type : Z; p_is_ipv4 : bool; p_is_arp : bool;
  p_proto : Z; p_ihl : Z; p_src_ip : Z; p_dst_ip : Z; p_frag_off : Z; p_more_frag : bool; p_total_len : Z;
  p_src_port : Z; p_dst_port : Z; p_tcp_flags : Z; p_data_off : Z;
  p_payload : list Z; p_payload_len : Z;
  p_arp_op : Z; p_arp_spa : Z; p_arp_sha : option (list Z);
  p_malformed : option (list Z);
}.

Definition read16be (pkt : list Z) (i : Z) : Z := Z.lor (Z.shiftl (char_at pkt i) 8) (char_at pkt (i + 1)).
Definition read32be (pkt : list Z) (i : Z) : Z :=
  Z.lor (Z.lor (Z.lor (Z.shiftl (char_at pkt i) 24) (Z.shiftl (char_at pkt (i + 1)) 16)) (Z.shiftl (char_at pkt (i + 2)) 8)) (char_at pkt (i + 3)).

(** The bytes a pointer to offset [i] sees. *)
Definition bytes_from (pkt : list Z) (i : Z) : list Z := drop (Z.to_nat i) pkt.

(** [n] bytes from offset [i]. *)
Definition bytes_at (pkt : list Z) (i n : Z) : list Z := char_at pkt <$> seqZ i n.

Definition set_malformed (reason : list Z) (p : ParsedPacket) : ParsedPacket :=
  mkParsed (p_eth_type p) (p_is_ipv4 p) (p_is_arp p) (p_proto p) (p_ihl p) (p_src_ip p) (p_dst_ip p) (p_frag_off p) (p_more_frag p) (p_total_len p)
    (p_src_port p) (p_dst_port p) (p_tcp_flags p) (p_data_off p) (p_payload p) (p_payload_len p) (p_arp_op p) (p_arp_spa p) (p_arp_sha p) (Some reason).
Definition set_l4 sp dp fl off pl n (p : ParsedPacket) : ParsedPacket :=
  mkParsed (p_eth_type p) (p_is_ipv4 p) (p_is_arp p) (p_proto p) (p_ihl p) (p_src_ip p) (p_dst_ip p) (p_frag_off p) (p_more_frag p) (p_total_len p)
    sp dp fl off pl n (p_arp_op p) (p_arp_spa p) (p_arp_sha p) (p_malformed p).

(** The part behind the IP header. *)
Definition parse_l4 (pkt : list Z) (len : Z) (p : ParsedPacket) : ParsedPacket :=
  let l4_off := 14 + p_ihl p * 4 in
  if p_proto p =? 6 then
    if len <? l4_off + 20 then set_malformed (str "TCP header too short") p else
    let sp := read16be pkt l4_off in
    let dp := read16be pkt (l4_off + 2) in
    let off := Z.land (Z.shiftr (char_at pkt (l4_off + 12)) 4) 0x0F in
    let fl := char_at pkt (l4_off + 13) in
    if off <? 5 then set_malformed (str "TCP data offset < 5") (set_l4 sp dp fl off [] 0 p) else
    let n := len - (l4_off + off * 4) in
    let n := if n <? 0 then 0 else n in
    set_l4 sp dp fl off (bytes_from pkt (l4_off + off * 4)) n p
  else if p_proto p =? 17 then
    if len <? l4_off + 8 then set_malformed (str "UDP header too short") p else
    let n := len - (l4_off + 8) in
    set_l4 (read16be pkt l4_off) (read16be pkt (l4_off + 2)) 0 0 (bytes_from pkt (l4_off + 8)) n p
  else let n := len - l4_off in set_l4 0 0 0 0 (bytes_from pkt l4_off) n p.

(** [None] when the frame is too short to look at. *)
Definition parse_packet (pkt : list Z) (len : Z) : option ParsedPacket :=
  if len <? 14 then None else
  let eth := read16be pkt 12 in
  if eth =? 0x0806 then
    let p := mkParsed eth false true 0 0 0 0 0 false 0 0 0 0 0 [] 0 0 0 None None in
    if len <? 42 then Some (set_malformed (str "ARP too short") p)
    else Some (mkParsed eth false true 0 0 0 0 0 false 0 0 0 0 0 [] 0 (read16be pkt 20) (read32be pkt 28) (Some (bytes_at pkt 22 6)) None)
  else if negb (eth =? 0x0800) then Some (mkParsed eth false false 0 0 0 0 0 false 0 0 0 0 0 [] 0 0 0 None None)
  else
    let ip ihl := mkParsed eth true false 0 ihl 0 0 0 false 0 0 0 0 0 [] 0 0 0 None None in
    if len <? 34 then Some (set_malformed (str "IP header too short") (ip 0)) else
    let ihl := Z.land (char_at pkt 14) 0x0F in
    if ihl <? 5 then Some (set_malformed (str "IHL < 5") (ip ihl)) else
    let frag := read16be pkt 20 in
    let total_len := read16be pkt 16 in
    let p := mkParsed eth true false (char_at pkt 23) ihl (read32be pkt 26) (read32be pkt 30) (Z.land frag 0x1FFF) (negb (Z.land frag 0x2000 =? 0)) total_len
               0 0 0 0 [] 0 0 0 None None in
    if total_len <? ihl * 4 then Some (set_malformed (str "total_len < IP header") p)
    else if negb (total_len =? 0) && (len <? 14 + total_len) then Some (set_malformed (str "total_len exceeds frame") p)
    else Some (parse_l4 pkt len p).

(** * Traffic *)

Record HostFlow := mkFlow {
  fl_active : bool; fl_src_ip : Z; fl_pkt_count : Z; fl_byte_count : Z; fl_syn_count : Z;
  fl_ports : list Z;        (* dst_ports[0 .. port_count) *)
  fl_hosts : list Z;        (* dst_ips[0 .. dst_ip_count) *)
  fl_window : Z; fl_baseline : Z;
}.

#[export] Instance HostFlow_inhabited : Inhabited HostFlow := populate (mkFlow false 0 0 0 0 [] [] 0 0).

Definition kMaxHosts : Z := 16.
Definition kWindowMs : Z := 1000.

(** The slot of a source: a known one, else the first free one, taken. *)
Definition get_or_create_ (src_ip now : Z) (flows : list HostFlow) : option (Z * list HostFlow) :=
  match List.find (fun i => fl_active (zlookup flows i) && (fl_src_ip (zlookup flows i) =? src_ip)) (seqZ 0 kMaxHosts) with
  | Some i => Some (i, flows)
  | None =>
      match List.find (fun i => negb (fl_active (zlookup flows i))) (seqZ 0 kMaxHosts) with
      | Some i => Some (i, zalter (fun _ => mkFlow true src_ip 0 0 0 [] [] now 0) i flows)
      | None => None
      end
  end.

(** [record_port_] and [record_host_]: a set of at most [cap] values. *)
Definition record_seen (cap : nat) (x : Z) (seen : list Z) : list Z :=
  if existsb (Z.eqb x) seen then seen else if (length seen <? cap)%nat then seen ++ [x] else seen.

Definition flow_packet (p : ParsedPacket) (frame_len : Z) (f : HostFlow) : HostFlow :=
  let syn := (p_proto p =? 6) && negb (Z.land (p_tcp_flags p) 0x02 =? 0) in
  mkFlow (fl_active f) (fl_src_ip f) (wrap32 (fl_pkt_count f + 1)) (wrap32 (fl_byte_count f + (if 0 <? frame_len then frame_len else 0)))
    (if syn then wrap32 (fl_syn_count f + 1) else fl_syn_count f)
    (if syn then record_seen 16 (p_dst_port p) (fl_ports f) else fl_ports f) (record_seen 8 (p_dst_ip p) (fl_hosts f)) (fl_window f) (fl_baseline f).

Definition traffic_packet (now : Z) (p : ParsedPacket) (frame_len : Z) (flows : list HostFlow) : option HostFlow * list HostFlow :=
  match get_or_create_ (p_src_ip p) now flows with
  | None => (None, flows)
  | Some (i, flows) => let flows := zalter (flow_packet p frame_len) i flows in (Some (zlookup flows i), flows)
  end.

(** Whether the window was an outlier, and the next window; all in 32 bits. *)
Definition roll_flow_ (now : Z) (f : HostFlow) : bool * HostFlow :=
  let rate_q8 := wrap32 (fl_pkt_count f * 256) in
  let outlier := (0 <? fl_baseline f) && (wrap32 (wrap32 (fl_baseline f * 2) + 5120) <? rate_q8) in
  (outlier, mkFlow (fl_active f) (fl_src_ip f) 0 0 0 [] [] now (wrap32 (fl_baseline f + wrap32 (rate_q8 - fl_baseline f) / 4))).

Fixpoint traffic_tick (now : Z) (flows : list HostFlow) : Z * list HostFlow :=
  match flows with
  | [] => (0, [])
  | f :: flows =>
      let (n, flows) := traffic_tick now flows in
      if fl_active f && (kWindowMs <=? wrap32 (now - fl_window f)) then
        let (out, f) := roll_flow_ now f in ((if out then n + 1 else n), f :: flows)
      else (n, f :: flows)
  end.

Definition get_active_count (flows : list HostFlow) : Z := Z.of_nat (length (List.filter fl_active flows)).

(** * The detector *)

Record ArpEntry := mkArp { ar_active : bool; ar_ip : Z; ar_mac : list Z }.
Record DnsHost := mkDns { dn_active : bool; dn_ip : Z; dn_count : Z; dn_window : Z }.

#[export] Instance ArpEntry_inhabited : Inhabited ArpEntry := populate (mkArp false 0 []).
#[export] Instance DnsHost_inhabited : Inhabited DnsHost := populate (mkDns false 0 0 0).

Record Thresholds := mkThresholds { port_scan_threshold_ : Z; host_scan_threshold_ : Z; syn_flood_threshold_ : Z; dns_query_threshold_ : Z }.

Definition kDnsWindowMs : Z := 1000.
Definition kMaxDnsNameLen : Z := 52.
Definition kMaxDnsLabels : Z := 6.

Record IdsEngine := mkIds {
  flows_ : list HostFlow; sigdb_ : AhoCorasick; arp_table_ : list ArpEntry; dns_hosts_ : list DnsHost; thresholds : Thresholds;
  ids_enabled_ : bool; ids_initialized_ : bool; packet_count_ : Z;
}.

Definition ids_ctor : IdsEngine :=
  mkIds (replicate 16 inhabitant) ac_ctor (replicate 16 (mkArp false 0 (replicate 6 0))) (replicate 8 inhabitant) (mkThresholds 10 5 50 20) true false 0.

Definition set_flows v e := mkIds v (sigdb_ e) (arp_table_ e) (dns_hosts_ e) (thresholds e) (ids_enabled_ e) (ids_initialized_ e) (packet_count_ e).
Definition set_arp v e := mkIds (flows_ e) (sigdb_ e) v (dns_hosts_ e) (thresholds e) (ids_enabled_ e) (ids_initialized_ e) (packet_count_ e).
Definition set_dns v e := mkIds (flows_ e) (sigdb_ e) (arp_table_ e) v (thresholds e) (ids_enabled_ e) (ids_initialized_ e) (packet_count_ e).
Definition set_thresholds v e := mkIds (flows_ e) (sigdb_ e) (arp_table_ e) (dns_hosts_ e) v (ids_enabled_ e) (ids_initialized_ e) (packet_count_ e).

(** ** ARP *)

Fixpoint arp_known (ip : Z) (sha : list Z) (t : list ArpEntry) : option (bool * list ArpEntry) :=
  match t with
  | [] => None
  | e :: t =>
      if ar_active e && (ar_ip e =? ip)
      then if bool_decide (ar_mac e = sha) then Some (false, e :: t) else Some (true, mkArp true (ar_ip e) sha :: t)
      else match arp_known ip sha t with Some (b, t) => Some (b, e :: t) | None => None end
  end.

Fixpoint arp_learn (ip : Z) (sha : list Z) (t : list ArpEntry) : list ArpEntry :=
  match t with
  | [] => []
  | e :: t => if negb (ar_active e) then mkArp true ip sha :: t else e :: arp_learn ip sha t
  end.

Definition check_arp_ (now : Z) (p : ParsedPacket) (t : list ArpEntry) (w : IdsWorld) : list ArpEntry * IdsWorld :=
  match p_arp_sha p with
  | None => (t, w)
  | Some sha =>
      if negb (p_arp_op p =? 2) then (t, w) else
      match arp_known (p_arp_spa p) sha t with
      | Some (false, t) => (t, w)
      | Some (true, t) => (t, submit now ArpSpoof SevHigh (p_arp_spa p) 0 0 0 (str "ARP spoofing (MAC change)") w)
      | None => (arp_learn (p_arp_spa p) sha t, w)
      end
  end.

(** ** TCP *)

Definition tcp_flag (f m : Z) : bool := negb (Z.land f m =? 0).

Definition check_tcp_flags_ (now : Z) (p : ParsedPacket) (w : IdsWorld) : IdsWorld :=
  let f := p_tcp_flags p in
  let alert msg := submit now TcpFlagAnomaly SevMedium (p_src_ip p) (p_dst_ip p) (p_src_port p) (p_dst_port p) msg w in
  if Z.land f 0x3F =? 0 then alert (str "NULL scan")
  else if tcp_flag f 0x01 && tcp_flag f 0x08 && tcp_flag f 0x20 then alert (str "XMAS scan")
  else if tcp_flag f 0x01 && negb (tcp_flag f 0x10) && negb (tcp_flag f 0x02) then alert (str "FIN scan")
  else w.

Definition check_scan_ (now : Z) (th : Thresholds) (p : ParsedPacket) (f : HostFlow) (w : IdsWorld) : IdsWorld :=
  let w := if port_scan_threshold_ th <? Z.of_nat (length (fl_ports f)) then submit now PortScan SevHigh (p_src_ip p) 0 0 0 (str "port scan") w else w in
  let w := if host_scan_threshold_ th <? Z.of_nat (length (fl_hosts f)) then submit now HostScan SevHigh (p_src_ip p) 0 0 0 (str "host scan") w else w in
  if syn_flood_threshold_ th <? fl_syn_count f then submit now SynFlood SevCritical (p_src_ip p) 0 0 0 (str "SYN flood") w else w.

(** ** DNS *)

(** The question's name: position behind it, its length and its labels. *)
Fixpoint dns_name (fuel : nat) (dns : list Z) (dlen pos name_len labels : Z) : Z * Z * Z :=
  if dlen <=? pos then (pos, name_len, labels) else
  match fuel with
  | O => (pos, name_len, labels)
  | S fuel =>
      let l := char_at dns pos in
      if l =? 0 then (pos + 1, name_len, labels)
      else if Z.land l 0xC0 =? 0xC0 then (pos + 2, name_len, labels)
      else if 255 <? name_len + (l + 1) then (pos + (l + 1), name_len + (l + 1), labels + 1)
      else dns_name fuel dns dlen (pos + (l + 1)) (name_len + (l + 1)) (labels + 1)
  end.

Fixpoint dns_known (ip : Z) (t : list DnsHost) : option (Z * list DnsHost) :=
  match t with
  | [] => None
  | h :: t =>
      if dn_active h && (dn_ip h =? ip) then Some (wrap32 (dn_count h + 1), mkDns true (dn_ip h) (wrap32 (dn_count h + 1)) (dn_window h) :: t)
      else match dns_known ip t with Some (n, t) => Some (n, h :: t) | None => None end
  end.

Fixpoint dns_new (ip now : Z) (t : list DnsHost) : option (Z * list DnsHost) :=
  match t with
  | [] => None
  | h :: t =>
      if negb (dn_active h) then Some (1, mkDns true ip 1 now :: t)
      else match dns_new ip now t with Some (n, t) => Some (n, h :: t) | None => None end
  end.

(** The count after this query, when there is a slot. *)
Definition dns_query_count_ (ip now : Z) (t : list DnsHost) : option (Z * list DnsHost) :=
  match dns_known ip t with Some r => Some r | None => dns_new ip now t end.

Definition check_dns_ (now : Z) (th : Thresholds) (p : ParsedPacket) (t : list DnsHost) (w : IdsWorld) : list DnsHost * IdsWorld :=
  let dns := p_payload p in
  let dlen := p_payload_len p in
  if dlen <? 12 then (t, w) else
  if negb (Z.land (char_at dns 2) 0x80 =? 0) then (t, w) else
  let '(pos, name_len, labels) := dns_name (Z.to_nat dlen) dns dlen 12 0 0 in
  if dlen <? pos + 2 then (t, w) else
  let qtype := read16be dns pos in
  let alert sev msg w := submit now DnsTunnel sev (p_src_ip p) (p_dst_ip p) (p_src_port p) (p_dst_port p) msg w in
  let '(t, w) := match dns_query_count_ (p_src_ip p) now t with
                 | Some (n, t) => (t, if dns_query_threshold_ th <? n then alert SevHigh (str "DNS query flood") w else w)
                 | None => (t, w)
                 end in
  (t, if kMaxDnsNameLen <? name_len then alert SevMedium (str "long DNS name") w
      else if kMaxDnsLabels <? labels then alert SevLow (str "many DNS labels") w
      else if (qtype =? 16) || (qtype =? 10) then alert SevLow (str "TXT/NULL record") w
      else w).

(** ** One packet *)

Definition detect (now : Z) (p : ParsedPacket) (len : Z) (e : IdsEngine) (w : IdsWorld) : IdsEngine * IdsWorld :=
  let w := match p_malformed p with
           | Some reason => submit now MalformedPacket SevMedium (p_src_ip p) (p_dst_ip p) (p_src_port p) (p_dst_port p) reason w
           | None => w
           end in
  if p_is_arp p then let (t, w) := check_arp_ now p (arp_table_ e) w in (set_arp t e, w) else
  if negb (p_is_ipv4 p) then (e, w) else
  let w := if negb (p_frag_off p =? 0) || p_more_frag p then submit now Fragmentation SevLow (p_src_ip p) (p_dst_ip p) 0 0 (str "IP fragmentation") w else w in
  let w := if (p_proto p =? 6) && bool_decide (p_malformed p = None) then check_tcp_flags_ now p w else w in
  let (f, flows) := traffic_packet now p len (flows_ e) in
  let e := set_flows flows e in
  let w := match f with Some f => check_scan_ now (thresholds e) p f w | None => w end in
  let '(e, w) := if (p_proto p =? 17) && ((p_dst_port p =? 53) || (p_src_port p =? 53))
                 then let (t, w) := check_dns_ now (thresholds e) p (dns_hosts_ e) w in (set_dns t e, w) else (e, w) in
  (e, if 0 <? p_payload_len p then
        let sid := sig_match (sigdb_ e) (bytes_at (p_payload p) 0 (p_payload_len p)) in
        if 0 <=? sid then
          match default_rules_ !! Z.to_nat sid with
          | Some r => submit now PayloadSignature (sig_severity r) (p_src_ip p) (p_dst_ip p) (p_src_port p) (p_dst_port p) (sig_message r) w
          | None => w
          end
        else w
      else w).

Definition detector_packet (now : Z) (pkt : list Z) (len : Z) (e : IdsEngine) (w : IdsWorld) : IdsEngine * IdsWorld :=
  match parse_packet pkt len with Some p => detect now p len e w | None => (e, w) end.

Definition dns_tick (now : Z) (h : DnsHost) : DnsHost :=
  if dn_active h && (kDnsWindowMs <=? wrap32 (now - dn_window h)) then mkDns true (dn_ip h) 0 now else h.

Definition detector_tick (now : Z) (e : IdsEngine) (w : IdsWorld) : IdsEngine * IdsWorld :=
  let (outliers, flows) := traffic_tick now (flows_ e) in
  let w := if 0 <? outliers then submit now TrafficAnomaly SevMedium 0 0 0 0 (str "traffic rate outlier") w else w in
  (set_dns (dns_tick now <$> dns_hosts_ e) (set_flows flows e), w).

(** * The engine *)

(** Mounting the status file is the file system's business. *)
Definition ids_init (e : IdsEngine) : IdsEngine :=
  if ids_initialized_ e then e
  else mkIds (flows_ e) (sigdb_init (sigdb_ e)) (arp_table_ e) (dns_hosts_ e) (thresholds e) (ids_enabled_ e) true (packet_count_ e).

Definition ids_process_packet (now : Z) (pkt : list Z) (len : Z) (e : IdsEngine) (w : IdsWorld) : IdsEngine * IdsWorld :=
  if negb (ids_enabled_ e) then (e, w)
  else detector_packet now pkt len (mkIds (flows_ e) (sigdb_ e) (arp_table_ e) (dns_hosts_ e) (thresholds e) (ids_enabled_ e) (ids_initialized_ e) (wrap32 (packet_count_ e + 1))) w.

Definition ids_enable (b : bool) (e : IdsEngine) : IdsEngine := mkIds (flows_ e) (sigdb_ e) (arp_table_ e) (dns_hosts_ e) (thresholds e) b (ids_initialized_ e) (packet_count_ e).

Definition ids_reset (e : IdsEngine) (w : IdsWorld) : IdsEngine * IdsWorld :=
  (mkIds (replicate 16 inhabitant) (sigdb_ e) (replicate 16 (mkArp false 0 (replicate 6 0))) (replicate 8 inhabitant) (thresholds e) (ids_enabled_ e) (ids_initialized_ e) 0,
   set_am (alerts_reset (am w)) w).

(** ** The status file *)

(** [app_s] and [app_u]: appending within [len - 1] bytes. *)
Definition app_text (len : Z) (s out : list Z) : list Z := out ++ take (Z.to_nat (len - 1) - length out) s.

Definition alert_line (a : IdsAlert) : list (list Z) :=
  [decimal (al_timestamp a); str " "; category_name (al_category a); str " x"; decimal (al_count a); str " ["; decimal (sev_rank (al_severity a)); str "] "; al_description a; [10]].

Fixpoint print_alerts (len : Z) (ids : list Z) (m : AlertManager) (out : list Z) : list Z :=
  match ids with
  | [] => out
  | i :: ids =>
      if Z.of_nat (length out) <? len - 96 then
        print_alerts len ids m (match get_alert (as_int i) m with Some a => foldl (fun out s => app_text len s out) out (alert_line a) | None => out end)
      else out
  end.

Definition ids_status (e : IdsEngine) (m : AlertManager) : list (list Z) :=
  [str "AuroraOS NIDS Status"; [10]; str "==================="; [10]; str "Enabled: "; str (if ids_enabled_ e then "yes" else "no"); [10]; str "Packets: "; decimal (packet_count_ e); [10];
   str "Alerts: "; decimal (alert_count_ m); [10; 10]; str "--- Recent Alerts ---"; [10]].

(** The text written to the buffer, before its terminator. *)
Definition ids_node_read (len : Z) (e : IdsEngine) (m : AlertManager) : list Z :=
  let total := alert_count_ m in
  let start := if 20 <? total then total - 20 else 0 in
  print_alerts len (seqZ start (total - start)) m (foldl (fun out s => app_text len s out) [] (ids_status e m)).
