(* ===== verification/Hids.v ===== *)
(** The host intrusion detection (security/hids): file integrity by hashes
    (file_integrity.hpp), the scan of the task table (process_monitor.hpp), the audit of
    capability spaces (privilege_auditor.hpp), the scan of the kernel heap
    (rootkit_scanner.hpp) and the engine with its alerts and status file
    (hids_engine.hpp).

    [now] is the tick counter, read once per call.  Files are read through the client of
    the file system (Vfs). *)
From S2P Require Import Prelude Kernel Scheduler Heap SecMon Text Vfs Aho Ids.
From stdpp Require Import strings.
#[local] Open Scope Z_scope.

(** What a module keeps for the status file: [total_findings_] and [last_finding_], the
    text up to its terminator. *)
Record Findings := mkFindings { total_findings_ : Z; last_finding_ : list Z }.

Definition no_findings : Findings := mkFindings 0 [].

(** [record_]: [what] in front of [id], or [path] in front of [what]. *)
Definition record_finding (what : list Z) (rest : list Z) (f : Findings) : Findings :=
  mkFindings (wrap32 (total_findings_ f + 1)) (take 63 (what ++ str ": " ++ rest)).

(** * File integrity *)

Definition fnv_step (hash b : Z) : Z := wrap32 (Z.lxor hash b * 16777619).
Definition fnv1a32 (data : list Z) : Z := foldl fnv_step 2166136261 data.
Definition fnv1a32_str (s : list Z) : Z := fnv1a32 (cstr s).

Record IntegrityEntry := mkEntry { ie_path : list Z; baseline_hash : Z; ie_active : bool }.

#[export] Instance IntegrityEntry_inhabited : Inhabited IntegrityEntry := populate (mkEntry [] 0 false).

Record FileIntegrityMonitor := mkFim { fim_entries : list IntegrityEntry; fim_findings : Findings }.

Definition fim_ctor : FileIntegrityMonitor := mkFim (replicate 16 inhabitant) no_findings.
Definition kReadBufSize : Z := 256.

(** The stored part of a path: [copy_str_] into 48 characters. *)
Definition stored_path (path : list Z) : list Z := take 47 (cstr path).

Definition names (path : list Z) (e : IntegrityEntry) : bool := ie_active e && list_equal (ie_path e) (cstr path).

Fixpoint enter (path : list Z) (es : list IntegrityEntry) : option (list IntegrityEntry) :=
  match es with
  | [] => None
  | e :: es =>
      if negb (ie_active e) then Some (mkEntry (stored_path path) 0 true :: es)
      else match enter path es with Some es => Some (e :: es) | None => None end
  end.

Definition add_path (path : list Z) (f : FileIntegrityMonitor) : bool * FileIntegrityMonitor :=
  if existsb (names path) (fim_entries f) then (true, f)
  else match enter path (fim_entries f) with Some es => (true, mkFim es (fim_findings f)) | None => (false, f) end.

(** [find_]: the first entry of the path, changed by [g]; [None] when there is none. *)
Fixpoint at_path (path : list Z) (g : IntegrityEntry -> IntegrityEntry) (es : list IntegrityEntry) : option (list IntegrityEntry) :=
  match es with
  | [] => None
  | e :: es => if names path e then Some (g e :: es) else match at_path path g es with Some es => Some (e :: es) | None => None end
  end.

Definition set_baseline (path : list Z) (hash : Z) (f : FileIntegrityMonitor) : bool * FileIntegrityMonitor :=
  let put f := match at_path path (fun e => mkEntry (ie_path e) hash (ie_active e)) (fim_entries f) with
               | Some es => Some (mkFim es (fim_findings f)) | None => None end in
  match put f with
  | Some f => (true, f)
  | None =>
      let (ok, f) := add_path path f in
      if negb ok then (false, f) else match put f with Some f => (true, f) | None => (false, f) end
  end.

Definition verify_content (path data : list Z) (f : FileIntegrityMonitor) : bool * FileIntegrityMonitor :=
  match List.find (names path) (fim_entries f) with
  | None => (false, f)
  | Some e =>
      if baseline_hash e =? 0 then (false, f)
      else if negb (fnv1a32 data =? baseline_hash e) then (true, mkFim (fim_entries f) (record_finding (cstr path) (str "content modified") (fim_findings f)))
      else (false, f)
  end.

Section Files.
Context {W : Type} `{!VNode W}.
Variable service_ep_cap_ : Z.
Variable ipc_call : Z -> VfsRequest -> VfsServer -> W -> VfsReply * VfsServer * W.

Definition read_file_ (path : list Z) (len : Z) (v : VfsServer) (w : W) : Z * list Z * VfsServer * W :=
  let '(fd, v, w) := mgr_open service_ep_cap_ ipc_call path 0 v w in
  if fd <? 0 then (-1, [], v, w) else
  let '(n, data, v, w) := mgr_read service_ep_cap_ ipc_call fd len v w in
  let '(_, v, w) := mgr_close service_ep_cap_ ipc_call fd v w in
  (n, data, v, w).

(** The hash of a file's contents, 0 when nothing can be read. *)
Definition file_hash (path : list Z) (v : VfsServer) (w : W) : Z * VfsServer * W :=
  let '(n, data, v, w) := read_file_ path kReadBufSize v w in ((if 0 <? n then fnv1a32 data else 0), v, w).

Fixpoint baseline (es : list IntegrityEntry) (v : VfsServer) (w : W) : list IntegrityEntry * VfsServer * W :=
  match es with
  | [] => ([], v, w)
  | e :: es =>
      if negb (ie_active e) then let '(es, v, w) := baseline es v w in (e :: es, v, w) else
      let '(h, v, w) := file_hash (ie_path e) v w in
      let '(es, v, w) := baseline es v w in (mkEntry (ie_path e) h true :: es, v, w)
  end.

Fixpoint verify (es : list IntegrityEntry) (findings : Z) (f : Findings) (v : VfsServer) (w : W) : Z * Findings * VfsServer * W :=
  match es with
  | [] => (findings, f, v, w)
  | e :: es =>
      if negb (ie_active e) then verify es findings f v w else
      let '(h, v, w) := file_hash (ie_path e) v w in
      if negb (baseline_hash e =? 0) && negb (h =? baseline_hash e)
      then verify es (findings + 1) (record_finding (ie_path e) (str "file modified") f) v w
      else verify es findings f v w
  end.

Definition fim_scan (f : FileIntegrityMonitor) (v : VfsServer) (w : W) : Z * FileIntegrityMonitor * VfsServer * W :=
  let '(n, fs, v, w) := verify (fim_entries f) 0 (fim_findings f) v w in (n, mkFim (fim_entries f) fs, v, w).
End Files.

(** * Tasks *)

Record ProcessMonitor := mkPm { last_overflow_count_ : Z; last_terminated_count_ : Z; pm_findings : Findings }.

Definition pm_ctor : ProcessMonitor := mkPm 0 0 no_findings.

(** One task: counts of overflows and terminations, and the last terminated task. *)
Definition scan_task (k : Kernel) (s : Z * Z * Z * Findings) (i : Z) : Z * Z * Z * Findings :=
  let '(overflow, terminated, last, f) := s in
  let t := tcb k i in
  if decide (sched_state (scheduler t) = Unallocated) then s else
  let '(overflow, f) := if canary_broken k t then (overflow + 1, record_finding (str "stack overflow") (decimal i) f) else (overflow, f) in
  if decide (sched_state (scheduler t) = Terminated) then (overflow, terminated + 1, i, f) else (overflow, terminated, last, f).

Definition pm_scan (k : Kernel) (p : ProcessMonitor) : Z * ProcessMonitor :=
  let '(overflow, terminated, last, f) := foldl (scan_task k) (0, 0, 0, pm_findings p) (seqZ 0 (task_count k)) in
  let findings := if last_overflow_count_ p <? overflow then overflow - last_overflow_count_ p else 0 in
  let '(findings, f) := if last_terminated_count_ p <? terminated
                        then (findings + (terminated - last_terminated_count_ p), record_finding (str "task terminated") (decimal last) f) else (findings, f) in
  (findings, mkPm overflow terminated f).

(** * Capabilities *)

Record PrivilegeAuditor := mkPa { attempt_count_ : Z; last_violation_count_ : Z; pa_findings : Findings }.

Definition pa_ctor : PrivilegeAuditor := mkPa 0 0 no_findings.

(** A user task that holds a capability with the grant right. *)
Definition violates (t : TaskControlBlock) : bool :=
  bool_decide (sched_state (scheduler t) <> Unallocated) && (privilege (task t) =? 1) &&
  existsb (fun c => negb (bool_decide (cap_type c = CapNull)) && right_grant (cap_rights c)) (take 16 (cspace (security t))).

Definition audit_task (k : Kernel) (s : Z * Z) (i : Z) : Z * Z := if violates (tcb k i) then (s.1 + 1, i) else s.

Definition pa_scan (k : Kernel) (p : PrivilegeAuditor) : Z * PrivilegeAuditor :=
  let '(violations, last) := foldl (audit_task k) (0, 0) (seqZ 0 (task_count k)) in
  if last_violation_count_ p <? violations
  then (violations - last_violation_count_ p, mkPa (attempt_count_ p) violations (record_finding (str "user task holds grant capability") (decimal last) (pa_findings p)))
  else (0, mkPa (attempt_count_ p) violations (pa_findings p)).

Definition report_escalation_attempt (task_id : Z) (p : PrivilegeAuditor) : PrivilegeAuditor :=
  mkPa (wrap32 (attempt_count_ p + 1)) (last_violation_count_ p) (record_finding (str "privilege escalation attempt") (decimal task_id) (pa_findings p)).

(** * The kernel heap *)

Record RootkitScanner := mkRk { last_heap_corrupt_ : Z; rk_findings : Findings }.

Definition rk_ctor : RootkitScanner := mkRk 0 no_findings.

(** [None] when the walk through the heap takes more than [fuel] blocks. *)
Definition rk_scan (fuel : nat) (h : Heap.KernelHeap) (r : RootkitScanner) : option (Z * RootkitScanner) :=
  match Heap.verify_integrity fuel h with
  | None => None
  | Some corrupt =>
      Some (if last_heap_corrupt_ r <? corrupt
            then (corrupt - last_heap_corrupt_ r, mkRk corrupt (mkFindings (wrap32 (total_findings_ (rk_findings r) + 1)) (str "kernel heap corruption")))
            else (0, mkRk corrupt (rk_findings r)))
  end.

Definition check_prologue (func expected n : Z) (m : gmap Z Z) : bool :=
  negb (func =? nullptr) && negb (expected =? nullptr) && (0 <? n) && forallb (fun i => load8 m (func + i) =? load8 m (expected + i)) (seqZ 0 n).

(** * Alerts *)

Record HidsAlert := mkHidsAlert { ha_timestamp : Z; ha_severity : IdsSeverity; ha_count : Z; ha_source : list Z; ha_description : list Z }.

#[export] Instance HidsAlert_inhabited : Inhabited HidsAlert := populate (mkHidsAlert 0 SevInfo 0 [] []).

Record HidsAlertManager := mkHidsAlerts { hids_alerts_ : list HidsAlert; hids_count_ : Z; hids_last_report_ : Z }.

Definition hids_alerts_ctor : HidsAlertManager := mkHidsAlerts (replicate 32 inhabitant) 0 0.

(** The alerts with the security monitor they are reported to and the console. *)
Record HidsWorld := mkHidsWorld { ham : HidsAlertManager; hids_monitor : SecurityMonitor; hids_console : list Z }.

Definition set_ham v w := mkHidsWorld v (hids_monitor w) (hids_console w).

Definition hids_maybe_report_ (now : Z) (a : HidsAlert) (w : HidsWorld) : HidsWorld :=
  if sev_rank (ha_severity a) <? 3 then w
  else if wrap32 (now - hids_last_report_ (ham w)) <? kReportCooldownMs then w
  else
    let w := set_ham (mkHidsAlerts (hids_alerts_ (ham w)) (hids_count_ (ham w)) now) w in
    let (msg, m) := report_firewall_anomaly (Some (ha_description a)) (hids_monitor w) in mkHidsWorld (ham w) m (hids_console w ++ msg).

Definition hids_absorbs (now : Z) (source : list Z) (a : HidsAlert) : bool :=
  list_equal (ha_source a) source && (wrap32 (now - ha_timestamp a) <=? kDedupWindowMs).

Definition hids_positions (m : HidsAlertManager) : list Z :=
  let start := if 32 <? hids_count_ m then hids_count_ m - 32 else 0 in (fun i => i mod 32) <$> seqZ start (hids_count_ m - start).

Definition hids_aggregate (now : Z) (sev : IdsSeverity) (a : HidsAlert) : HidsAlert :=
  mkHidsAlert now (if sev_rank (ha_severity a) <? sev_rank sev then sev else ha_severity a) (wrap32 (ha_count a + 1)) (ha_source a) (ha_description a).

Definition hids_submit (now : Z) (sev : IdsSeverity) (source desc : list Z) (w : HidsWorld) : HidsWorld :=
  let m := ham w in
  match List.find (fun i => hids_absorbs now source (zlookup (hids_alerts_ m) i)) (hids_positions m) with
  | Some i =>
      let a := hids_aggregate now sev (zlookup (hids_alerts_ m) i) in
      hids_maybe_report_ now a (set_ham (mkHidsAlerts (zalter (fun _ => a) i (hids_alerts_ m)) (hids_count_ m) (hids_last_report_ m)) w)
  | None =>
      let a := mkHidsAlert now sev 1 (take 23 source) (take 63 desc) in
      hids_maybe_report_ now a (set_ham (mkHidsAlerts (zalter (fun _ => a) (hids_count_ m mod 32) (hids_alerts_ m)) (wrap32 (hids_count_ m + 1)) (hids_last_report_ m)) w)
  end.

Definition hids_get_alert (index : Z) (m : HidsAlertManager) : option HidsAlert := if index <? 0 then None else Some (zlookup (hids_alerts_ m) (index mod 32)).

(** * The engine *)

Record HidsEngine := mkHids { file_integrity_ : FileIntegrityMonitor; process_monitor_ : ProcessMonitor; privilege_auditor_ : PrivilegeAuditor; rootkit_scanner_ : RootkitScanner }.

Definition hids_ctor : HidsEngine := mkHids fim_ctor pm_ctor pa_ctor rk_ctor.

(** Every module and the alerts back to their initial values. *)
Definition hids_reset (e : HidsEngine) (w : HidsWorld) : HidsEngine * HidsWorld :=
  (mkHids (mkFim ((fun _ => inhabitant) <$> fim_entries (file_integrity_ e)) no_findings) pm_ctor pa_ctor rk_ctor, set_ham hids_alerts_ctor w).

(** [scan_module_], behind the scan. *)
Definition raise_alert (now : Z) (sev : IdsSeverity) (name : list Z) (findings : Z) (f : Findings) (w : HidsWorld) : HidsWorld :=
  if 0 <? findings then hids_submit now sev name (last_finding_ f) w else w.

Section Engine.
Context {W : Type} `{!VNode W}.
Variable service_ep_cap_ : Z.
Variable ipc_call : Z -> VfsRequest -> VfsServer -> W -> VfsReply * VfsServer * W.

(** [None] when the heap scan does not end within [fuel] blocks. *)
Definition hids_tick (fuel : nat) (now : Z) (k : Kernel) (h : Heap.KernelHeap) (e : HidsEngine) (aw : HidsWorld) (v : VfsServer) (w : W) : option (HidsEngine * HidsWorld * VfsServer * W) :=
  let '(n1, fi, v, w) := fim_scan service_ep_cap_ ipc_call (file_integrity_ e) v w in
  let aw := raise_alert now SevHigh (str "file_integrity") n1 (fim_findings fi) aw in
  let (n2, pm) := pm_scan k (process_monitor_ e) in
  let aw := raise_alert now SevCritical (str "process_monitor") n2 (pm_findings pm) aw in
  let (n3, pa) := pa_scan k (privilege_auditor_ e) in
  let aw := raise_alert now SevCritical (str "privilege_auditor") n3 (pa_findings pa) aw in
  match rk_scan fuel h (rootkit_scanner_ e) with
  | None => None
  | Some (n4, rk) => Some (mkHids fi pm pa rk, raise_alert now SevCritical (str "rootkit_scanner") n4 (rk_findings rk) aw, v, w)
  end.
End Engine.

(** ** The status file *)

Definition hids_alert_line (a : HidsAlert) : list (list Z) :=
  [decimal (ha_timestamp a); str " "; ha_source a; str " x"; decimal (ha_count a); str " ["; decimal (sev_rank (ha_severity a)); str "] "; ha_description a; [10]].

Fixpoint hids_print_alerts (len : Z) (ids : list Z) (m : HidsAlertManager) (out : list Z) : list Z :=
  match ids with
  | [] => out
  | i :: ids =>
      if Z.of_nat (length out) <? len - 96 then
        hids_print_alerts len ids m (match hids_get_alert (as_int i) m with Some a => foldl (fun out s => app_text len s out) out (hids_alert_line a) | None => out end)
      else out
  end.

Definition hids_status (e : HidsEngine) (m : HidsAlertManager) : list (list Z) :=
  [str "AuroraOS HIDS Status"; [10]; str "==================="; [10];
   [10]; str "[file_integrity] findings="; decimal (total_findings_ (fim_findings (file_integrity_ e)));
   [10]; str "[process_monitor] findings="; decimal (total_findings_ (pm_findings (process_monitor_ e)));
   str " overflow="; decimal (last_overflow_count_ (process_monitor_ e)); str " terminated="; decimal (last_terminated_count_ (process_monitor_ e));
   [10]; str "[privilege_auditor] findings="; decimal (total_findings_ (pa_findings (privilege_auditor_ e))); str " attempts="; decimal (attempt_count_ (privilege_auditor_ e));
   [10]; str "[rootkit_scanner] findings="; decimal (total_findings_ (rk_findings (rootkit_scanner_ e))); str " heap_corrupt="; decimal (last_heap_corrupt_ (rootkit_scanner_ e));
   [10; 10]; str "Alerts: "; decimal (hids_count_ m); [10]; str "--- Recent Alerts ---"; [10]].

(** The text written to the buffer, before its terminator. *)
Definition hids_node_read (len : Z) (e : HidsEngine) (m : HidsAlertManager) : list Z :=
  let total := hids_count_ m in
  let start := if 16 <? total then total - 16 else 0 in
  hids_print_alerts len (seqZ start (total - start)) m (foldl (fun out s => app_text len s out) [] (hids_status e m)).
