(* ===== verification/Response.v ===== *)
(** The automatic response (security/response): blocking sources in the firewall
    (auto_block.hpp), quarantine of tasks and interfaces (quarantine.hpp), forensic
    snapshots (forensic_snapshot.hpp), the policy with its log and status file
    (response_engine.hpp) and the loop that feeds alerts into it
    (response_monitor_task.cpp).

    The engine changes the rule table of the firewall, the states of tasks and the
    security monitor; [now] is the tick counter. *)
From S2P Require Import Prelude Kernel ReadyQueue Endpoint Heap SecMon Text Firewall Aho Ids Hids.
From stdpp Require Import strings.
#[local] Open Scope Z_scope.

(** What the engine acts on. *)
Record RespWorld := mkRespWorld { rw_rules : RuleTable; rw_kernel : Kernel; rw_heap : Heap.KernelHeap; rw_monitor : SecurityMonitor; rw_console : list Z }.

Definition set_rw_rules v w := mkRespWorld v (rw_kernel w) (rw_heap w) (rw_monitor w) (rw_console w).
Definition set_rw_kernel v w := mkRespWorld (rw_rules w) v (rw_heap w) (rw_monitor w) (rw_console w).

Definition kPermanent : Z := 0xFFFFFFFF.
Definition kNoTask : Z := 0xFFFFFFFF.
Definition kDefaultBlockMs : Z := 60000.

(** The end of a block or a quarantine of [duration_ms], 0 for no end. *)
Definition expiry (now duration_ms : Z) : Z := if duration_ms =? 0 then kPermanent else wrap32 (now + duration_ms).
Definition has_expired (now expire : Z) : bool := negb (expire =? kPermanent) && (expire <=? now).

(** [record_]: [what], a space and the rest, cut at 63 characters. *)
Definition action_text (what rest : list Z) : list Z := take 63 (what ++ [32] ++ rest).

(** * Blocking sources *)

Record BlockEntry := mkBlock { be_active : bool; be_ip : Z; be_expire : Z }.

#[export] Instance BlockEntry_inhabited : Inhabited BlockEntry := populate (mkBlock false 0 0).

Record AutoBlockManager := mkAb { ab_entries : list BlockEntry; total_blocks_ : Z; ab_last_action : list Z }.

Definition ab_ctor : AutoBlockManager := mkAb (replicate 16 inhabitant) 0 [].

Definition blocks_ip (ip : Z) (b : BlockEntry) : bool := be_active b && (be_ip b =? ip).

(** The first entry that satisfies [p], changed by [g]. *)
Fixpoint at_first {A} (p : A -> bool) (g : A -> A) (l : list A) : option (list A) :=
  match l with
  | [] => None
  | x :: l => if p x then Some (g x :: l) else match at_first p g l with Some l => Some (x :: l) | None => None end
  end.

Definition block_rule (ip : Z) : FwRule := mkFwRule false true ip false 0 false 0 false 0 false 0 false 0 0 false (replicate 8 0) DROP.

Definition block_ip (now ip duration_ms : Z) (a : AutoBlockManager) (rules_ : RuleTable) : bool * AutoBlockManager * RuleTable :=
  match at_first (blocks_ip ip) (fun b => mkBlock true (be_ip b) (expiry now duration_ms)) (ab_entries a) with
  | Some es => (true, mkAb es (total_blocks_ a) (ab_last_action a), rules_)
  | None =>
      match at_first (fun b => negb (be_active b)) (fun _ => mkBlock true ip (expiry now duration_ms)) (ab_entries a) with
      | Some es => (true, mkAb es (wrap32 (total_blocks_ a + 1)) (action_text (str "blocked") (decimal ip)), (fw_add_rule (block_rule ip) rules_).2)
      | None => (false, a, rules_)
      end
  end.

(** A rule taken for one that [block_ip] installed. *)
Definition is_block_rule (ip : Z) (r : FwRule) : bool :=
  fw_enabled r && match_src_ip r && (r_src_ip r =? ip) && bool_decide (fw_action r = DROP) &&
  negb (match_dst_ip r) && negb (match_protocol r) && negb (match_src_port r) && negb (match_dst_port r) && negb (match_interface r).

Definition find_block_rule_ (ip : Z) (rules_ : RuleTable) : Z :=
  match List.find (fun i => is_block_rule ip (zlookup rules_ i)) (seqZ 0 MAX_RULES) with Some i => i | None => -1 end.

Definition remove_block_rule (ip : Z) (rules_ : RuleTable) : RuleTable :=
  let r := find_block_rule_ ip rules_ in if 0 <=? r then (delete_rule r rules_).2 else rules_.

Definition unblock_ip (ip : Z) (a : AutoBlockManager) (rules_ : RuleTable) : bool * AutoBlockManager * RuleTable :=
  match at_first (blocks_ip ip) (fun b => mkBlock false (be_ip b) (be_expire b)) (ab_entries a) with
  | Some es => (true, mkAb es (total_blocks_ a) (action_text (str "unblocked") (decimal ip)), remove_block_rule ip rules_)
  | None => (false, a, rules_)
  end.

Definition is_blocked (ip : Z) (a : AutoBlockManager) : bool := existsb (blocks_ip ip) (ab_entries a).

Definition ab_tick_entry (now : Z) (s : AutoBlockManager * RuleTable) (i : Z) : AutoBlockManager * RuleTable :=
  let b := zlookup (ab_entries s.1) i in
  if be_active b && has_expired now (be_expire b) then let '(_, a, rs) := unblock_ip (be_ip b) s.1 s.2 in (a, rs) else s.

Definition ab_tick (now : Z) (a : AutoBlockManager) (rules_ : RuleTable) : AutoBlockManager * RuleTable := foldl (ab_tick_entry now) (a, rules_) (seqZ 0 16).

Definition get_block_count (a : AutoBlockManager) : Z := Z.of_nat (length (List.filter be_active (ab_entries a))).

Definition ab_reset (a : AutoBlockManager) (rules_ : RuleTable) : AutoBlockManager * RuleTable :=
  (mkAb ((fun b => mkBlock false (be_ip b) (be_expire b)) <$> ab_entries a) 0 [],
   foldl (fun rs b => if be_active b then remove_block_rule (be_ip b) rs else rs) rules_ (ab_entries a)).

(** * Quarantine *)

Record TaskQuarantine := mkTq { tq_active : bool; tq_task : Z; tq_expire : Z }.
Record DeviceQuarantine := mkDq { dq_active : bool; dq_ifname : list Z; dq_expire : Z }.

#[export] Instance TaskQuarantine_inhabited : Inhabited TaskQuarantine := populate (mkTq false 0 0).
#[export] Instance DeviceQuarantine_inhabited : Inhabited DeviceQuarantine := populate (mkDq false (replicate 8 0) 0).

Record QuarantineManager := mkQm { q_tasks : list TaskQuarantine; q_devices : list DeviceQuarantine; q_last_action : list Z }.

Definition qm_ctor : QuarantineManager := mkQm (replicate 8 inhabitant) (replicate 8 inhabitant) [].

Definition holds_task (task_id : Z) (t : TaskQuarantine) : bool := tq_active t && (tq_task t =? task_id).
Definition holds_device (ifname : list Z) (d : DeviceQuarantine) : bool := dq_active d && strneq 8 (dq_ifname d) ifname.

Definition quarantine_task (now task_id duration_ms : Z) (q : QuarantineManager) (k : Kernel) : bool * QuarantineManager * Kernel :=
  if task_id =? kNoTask then (false, q, k) else
  match get_task_by_id k task_id with
  | None => (false, q, k)
  | Some _ =>
      match at_first (holds_task task_id) (fun t => mkTq true (tq_task t) (expiry now duration_ms)) (q_tasks q) with
      | Some ts => (true, mkQm ts (q_devices q) (q_last_action q), k)
      | None =>
          match at_first (fun t => negb (tq_active t)) (fun _ => mkTq true task_id (expiry now duration_ms)) (q_tasks q) with
          | Some ts => (true, mkQm ts (q_devices q) (action_text (str "task quarantined") (decimal task_id)), set_task_state task_id Suspended k)
          | None => (false, q, k)
          end
      end
  end.

Definition release_task (task_id : Z) (q : QuarantineManager) (k : Kernel) : bool * QuarantineManager * Kernel :=
  match at_first (holds_task task_id) (fun t => mkTq false (tq_task t) (tq_expire t)) (q_tasks q) with
  | Some ts => (true, mkQm ts (q_devices q) (action_text (str "task released") (decimal task_id)), set_task_state task_id Ready k)
  | None => (false, q, k)
  end.

Definition is_quarantined (task_id : Z) (q : QuarantineManager) : bool := existsb (holds_task task_id) (q_tasks q).

Definition device_rule (ifname : list Z) : FwRule := mkFwRule false false 0 false 0 false 0 false 0 false 0 false 0 0 true (copy_name ifname) DROP.

Definition quarantine_device (now : Z) (ifname : list Z) (duration_ms : Z) (q : QuarantineManager) (rules_ : RuleTable) : bool * QuarantineManager * RuleTable :=
  match at_first (holds_device ifname) (fun d => mkDq true (dq_ifname d) (expiry now duration_ms)) (q_devices q) with
  | Some ds => (true, mkQm (q_tasks q) ds (q_last_action q), rules_)
  | None =>
      match at_first (fun d => negb (dq_active d)) (fun _ => mkDq true (copy_name ifname) (expiry now duration_ms)) (q_devices q) with
      | Some ds => (true, mkQm (q_tasks q) ds (action_text (str "device quarantined") (cstr ifname)), (fw_add_rule (device_rule ifname) rules_).2)
      | None => (false, q, rules_)
      end
  end.

Definition is_device_rule (ifname : list Z) (r : FwRule) : bool := fw_enabled r && match_interface r && bool_decide (fw_action r = DROP) && strneq 8 (r_interface r) ifname.

Definition remove_device_rule (ifname : list Z) (rules_ : RuleTable) : RuleTable :=
  match List.find (fun i => is_device_rule ifname (zlookup rules_ i)) (seqZ 0 MAX_RULES) with Some i => (delete_rule i rules_).2 | None => rules_ end.

Definition release_device (ifname : list Z) (q : QuarantineManager) (rules_ : RuleTable) : bool * QuarantineManager * RuleTable :=
  match at_first (holds_device ifname) (fun d => mkDq false (dq_ifname d) (dq_expire d)) (q_devices q) with
  | Some ds => (true, mkQm (q_tasks q) ds (action_text (str "device released") (cstr ifname)), remove_device_rule ifname rules_)
  | None => (false, q, rules_)
  end.

Definition q_tick_entry (now : Z) (s : QuarantineManager * RespWorld) (i : Z) : QuarantineManager * RespWorld :=
  let t := zlookup (q_tasks s.1) i in
  let s := if tq_active t && has_expired now (tq_expire t)
           then let '(_, q, k) := release_task (tq_task t) s.1 (rw_kernel s.2) in (q, set_rw_kernel k s.2) else s in
  let d := zlookup (q_devices s.1) i in
  if dq_active d && has_expired now (dq_expire d)
  then let '(_, q, rs) := release_device (dq_ifname d) s.1 (rw_rules s.2) in (q, set_rw_rules rs s.2) else s.

Definition q_tick (now : Z) (q : QuarantineManager) (w : RespWorld) : QuarantineManager * RespWorld := foldl (q_tick_entry now) (q, w) (seqZ 0 8).

Definition q_reset_entry (w : RespWorld) (e : TaskQuarantine * DeviceQuarantine) : RespWorld :=
  let w := if tq_active e.1 then set_rw_kernel (set_task_state (tq_task e.1) Ready (rw_kernel w)) w else w in
  if dq_active e.2 then set_rw_rules (remove_device_rule (dq_ifname e.2) (rw_rules w)) w else w.

Definition q_reset (q : QuarantineManager) (w : RespWorld) : QuarantineManager * RespWorld :=
  (mkQm ((fun t => mkTq false (tq_task t) (tq_expire t)) <$> q_tasks q) ((fun d => mkDq false (dq_ifname d) (dq_expire d)) <$> q_devices q) [],
   foldl q_reset_entry w (zip (q_tasks q) (q_devices q))).

(** * Snapshots *)

Record Snapshot := mkSnap {
  sn_timestamp : Z; sn_heap_free : Z; sn_heap_total : Z; sn_task_count : Z; sn_terminated : Z; sn_packets : Z; sn_bytes : Z;
  sn_region_addr : Z; sn_region_len : Z; sn_region : list Z;
}.

#[export] Instance Snapshot_inhabited : Inhabited Snapshot := populate (mkSnap 0 0 0 0 0 0 0 0 0 (replicate 64 0)).

Record ForensicRecorder := mkFr { snapshots_ : list Snapshot; snapshot_count_ : Z; traffic_packets_ : Z; traffic_bytes_ : Z }.

Definition fr_ctor : ForensicRecorder := mkFr (replicate 8 inhabitant) 0 0 0.

Definition count_terminated_ (k : Kernel) : Z :=
  Z.of_nat (length (List.filter (fun i => bool_decide (sched_state (scheduler (tcb k i)) = Terminated)) (seqZ 0 (task_count k)))).

(** A copy of at most 64 bytes of [region], over the bytes of the slot's earlier use. *)
Definition capture (now region len : Z) (k : Kernel) (h : Heap.KernelHeap) (f : ForensicRecorder) : ForensicRecorder :=
  let i := snapshot_count_ f mod 8 in
  let n := if negb (region =? nullptr) && (0 <? len) then if 64 <? len then 64 else len else 0 in
  let s := mkSnap now (Heap.total_free_memory h) (Heap.total_size h) (task_count k) (count_terminated_ k) (traffic_packets_ f) (traffic_bytes_ f) region n
             (((fun i => load8 (mem k) (region + i)) <$> seqZ 0 n) ++ drop (Z.to_nat n) (sn_region (zlookup (snapshots_ f) i))) in
  mkFr (zalter (fun _ => s) i (snapshots_ f)) (wrap32 (snapshot_count_ f + 1)) (traffic_packets_ f) (traffic_bytes_ f).

Definition set_traffic_stats (packets bytes : Z) (f : ForensicRecorder) : ForensicRecorder := mkFr (snapshots_ f) (snapshot_count_ f) packets bytes.

Definition fr_reset (f : ForensicRecorder) : ForensicRecorder := mkFr (snapshots_ f) 0 0 0.

(** * The policy *)

Inductive ResponseActionType := Ignore | BlockSource | QuarantineTask | TakeSnapshot.

Record ResponseAction := mkAction { ra_timestamp : Z; ra_severity : IdsSeverity; ra_type : ResponseActionType; ra_src_ip : Z; ra_task : Z; ra_description : list Z }.

#[export] Instance ResponseAction_inhabited : Inhabited ResponseAction := populate (mkAction 0 SevInfo Ignore 0 0 []).

Record ResponseEngine := mkResp { auto_block_ : AutoBlockManager; quarantine_ : QuarantineManager; forensic_ : ForensicRecorder; actions_ : list ResponseAction; action_count_ : Z }.

Definition resp_ctor : ResponseEngine := mkResp ab_ctor qm_ctor fr_ctor (replicate 32 inhabitant) 0.

Definition log_action_ (a : ResponseAction) (e : ResponseEngine) : ResponseEngine :=
  mkResp (auto_block_ e) (quarantine_ e) (forensic_ e) (zalter (fun _ => a) (action_count_ e mod 32) (actions_ e)) (wrap32 (action_count_ e + 1)).

(** What an alert leads to: the action and the changed parts. *)
Definition respond (now : Z) (sev : IdsSeverity) (src_ip task_id : Z) (e : ResponseEngine) (w : RespWorld) : ResponseActionType * ResponseEngine * RespWorld :=
  let snap k := capture now nullptr 0 k (rw_heap w) (forensic_ e) in
  if (3 <=? sev_rank sev) && negb (src_ip =? 0) then
    let '(_, a, rs) := block_ip now src_ip kDefaultBlockMs (auto_block_ e) (rw_rules w) in
    (BlockSource, mkResp a (quarantine_ e) (snap (rw_kernel w)) (actions_ e) (action_count_ e), set_rw_rules rs w)
  else if (3 <=? sev_rank sev) && negb (task_id =? kNoTask) then
    let '(_, q, k) := quarantine_task now task_id kDefaultBlockMs (quarantine_ e) (rw_kernel w) in
    (QuarantineTask, mkResp (auto_block_ e) q (snap k) (actions_ e) (action_count_ e), set_rw_kernel k w)
  else if 2 <=? sev_rank sev then (TakeSnapshot, mkResp (auto_block_ e) (quarantine_ e) (snap (rw_kernel w)) (actions_ e) (action_count_ e), w)
  else (Ignore, e, w).

Definition handle_alert (now : Z) (sev : IdsSeverity) (src_ip task_id : Z) (desc : list Z) (e : ResponseEngine) (w : RespWorld) : ResponseEngine * RespWorld :=
  let '(type, e, w) := respond now sev src_ip task_id e w in
  let e := log_action_ (mkAction now sev type src_ip task_id (take 63 (cstr desc))) e in
  if 3 <=? sev_rank sev
  then let (msg, m) := report_firewall_anomaly (Some desc) (rw_monitor w) in (e, mkRespWorld (rw_rules w) (rw_kernel w) (rw_heap w) m (rw_console w ++ msg))
  else (e, w).

Definition resp_tick (now : Z) (e : ResponseEngine) (w : RespWorld) : ResponseEngine * RespWorld :=
  let (a, rs) := ab_tick now (auto_block_ e) (rw_rules w) in
  let (q, w) := q_tick now (quarantine_ e) (set_rw_rules rs w) in
  (mkResp a q (forensic_ e) (actions_ e) (action_count_ e), w).

Definition resp_reset (e : ResponseEngine) (w : RespWorld) : ResponseEngine * RespWorld :=
  let (a, rs) := ab_reset (auto_block_ e) (rw_rules w) in
  let (q, w) := q_reset (quarantine_ e) (set_rw_rules rs w) in
  (mkResp a q (fr_reset (forensic_ e)) (replicate 32 inhabitant) 0, w).

(** ** The monitor loop *)

(** One round up to the sleep: expiry, then the alerts behind the cursors.  The new
    cursors are the alert counts. *)
Definition poll_nids (now cursor : Z) (m : AlertManager) (s : ResponseEngine * RespWorld) : ResponseEngine * RespWorld :=
  foldl (fun s i => match get_alert (as_int i) m with
                    | Some a => handle_alert now (al_severity a) (al_src_ip a) kNoTask (al_description a) s.1 s.2
                    | None => s
                    end) s (seqZ cursor (alert_count_ m - cursor)).

Definition poll_hids (now cursor : Z) (m : HidsAlertManager) (s : ResponseEngine * RespWorld) : ResponseEngine * RespWorld :=
  foldl (fun s i => match hids_get_alert (as_int i) m with
                    | Some a => handle_alert now (ha_severity a) 0 kNoTask (ha_description a) s.1 s.2
                    | None => s
                    end) s (seqZ cursor (hids_count_ m - cursor)).

Definition response_round (now nids_cursor hids_cursor : Z) (nm : AlertManager) (hm : HidsAlertManager) (s : ResponseEngine * RespWorld) : ResponseEngine * RespWorld :=
  poll_hids now hids_cursor hm (poll_nids now nids_cursor nm (resp_tick now s.1 s.2)).

(** ** The status file *)

Definition get_action (index : Z) (e : ResponseEngine) : option ResponseAction := if index <? 0 then None else Some (zlookup (actions_ e) (index mod 32)).

Definition action_line (a : ResponseAction) : list (list Z) :=
  [decimal (ra_timestamp a); str " ["; decimal (sev_rank (ra_severity a)); str "] ";
   match ra_type a with BlockSource => str "block" | QuarantineTask => str "quarantine" | TakeSnapshot => str "snapshot" | Ignore => str "ignore" end;
   str " "; ra_description a; [10]].

Fixpoint print_actions (len : Z) (ids : list Z) (e : ResponseEngine) (out : list Z) : list Z :=
  match ids with
  | [] => out
  | i :: ids =>
      if Z.of_nat (length out) <? len - 96 then
        print_actions len ids e (match get_action (as_int i) e with Some a => foldl (fun out s => app_text len s out) out (action_line a) | None => out end)
      else out
  end.

Definition resp_status (e : ResponseEngine) : list (list Z) :=
  [str "AuroraOS Response Status"; [10]; str "========================"; [10]; str "Blocked IPs: "; decimal (get_block_count (auto_block_ e)); [10];
   str "Quarantined tasks: "; decimal (Z.of_nat (length (List.filter tq_active (q_tasks (quarantine_ e))))); [10];
   str "Quarantined devices: "; decimal (Z.of_nat (length (List.filter dq_active (q_devices (quarantine_ e))))); [10];
   str "Snapshots: "; decimal (snapshot_count_ (forensic_ e)); [10; 10]; str "Actions: "; decimal (action_count_ e); [10]; str "--- Recent Actions ---"; [10]].

(** The text written to the buffer, before its terminator. *)
Definition resp_node_read (len : Z) (e : ResponseEngine) : list Z :=
  let total := action_count_ e in
  let start := if 16 <? total then total - 16 else 0 in
  print_actions len (seqZ start (total - start)) e (foldl (fun out s => app_text len s out) [] (resp_status e)).
