(* ===== verification/Boot.v ===== *)
(** Firmware update and secure boot (kernel/core/ota.cpp, bootloader/boot_main.cpp): staging
    an image in partition B, and the boot loader that verifies the partitions, copies B to
    A and starts A.

    Both run on flash memory, bytes by address.  The flash controller is hardware: the
    class [FlashController] gives the effect and the status of one erase or write command,
    and what the cells hold when power fails during it.  A run has a budget of commands;
    the command that exceeds it is the one power fails in, and the run ends there.  Messages
    on the console are left out. *)
From S2P Require Import Prelude.
#[local] Open Scope Z_scope.

Abbreviation flash := (gmap Z Z).

(** * Commands *)

Class FlashController := {
  erase_op : Z -> flash -> bool * flash;         (* page *)
  write_op : Z -> Z -> flash -> bool * flash;    (* address, word *)
  torn_erase : Z -> flash -> flash;
  torn_write : Z -> Z -> flash -> flash;
}.

(** The [i]-th byte of a word. *)
Definition word_byte (w i : Z) : Z := w / 256 ^ i mod 256.

(** Every cell holds a byte. *)
Definition cells (m : flash) : Prop := forall a, 0 <= load8 m a < 256.

(** What the controller promises: cells hold bytes; a command changes only its page or word; a successful
    erasure sets all bits of the page, a successful write can only clear bits. *)
Class FlashLaws `{!FlashController} : Prop := {
  erase_frame p m a : ~ (p <= a < p + 1024) -> load8 (erase_op p m).2 a = load8 m a;
  erase_done p m a : (erase_op p m).1 = true -> p <= a < p + 1024 -> load8 (erase_op p m).2 a = 255;
  write_frame p w m a : ~ (p <= a < p + 4) -> load8 (write_op p w m).2 a = load8 m a;
  write_done p w m i : (write_op p w m).1 = true -> 0 <= i < 4 -> load8 (write_op p w m).2 (p + i) = Z.land (load8 m (p + i)) (word_byte w i);
  torn_erase_frame p m a : ~ (p <= a < p + 1024) -> load8 (torn_erase p m) a = load8 m a;
  torn_write_frame p w m a : ~ (p <= a < p + 4) -> load8 (torn_write p w m) a = load8 m a;
  erase_cells p m : cells m -> cells (erase_op p m).2;
  write_cells p w m : cells m -> cells (write_op p w m).2;
  torn_erase_cells p m : cells m -> cells (torn_erase p m);
  torn_write_cells p w m : cells m -> cells (torn_write p w m);
}.

(** A controller whose commands never time out.  A command that fails makes the loader
    abandon the copy, which [update_installed] excludes with this class and
    [power_loss_safe], stated without it, covers. *)
Class Reliable `{!FlashController} : Prop := {
  erase_ok p m : (erase_op p m).1 = true;
  write_ok p w m : (write_op p w m).1 = true;
}.

(** A run: a budget of commands and the flash; [None] when power failed. *)
Definition Op (A : Type) : Type := nat -> flash -> option (A * nat) * flash.

#[export] Instance op_ret : MRet Op := fun A x n m => (Some (x, n), m).
#[export] Instance op_bind : MBind Op := fun A B k e n m => match e n m with (Some (x, n'), m') => k x n' m' | (None, m') => (None, m') end.

(** The flash as the processor reads it. *)
Definition contents : Op flash := fun n m => (Some (m, n), m).

Definition command (torn : flash -> flash) (op : flash -> bool * flash) : Op bool :=
  fun n m => match n with O => (None, torn m) | S n => let (ok, m) := op m in (Some (ok, n), m) end.

Section Boot.
Context `{!FlashController}.

(** [address & ~(1024 - 1)] *)
Definition flash_page (address : Z) : Z := Z.land address (Z.lnot 1023).

Definition erase_page (address : Z) : Op bool := command (torn_erase (flash_page address)) (erase_op (flash_page address)).
Definition write_word (address data : Z) : Op bool := command (torn_write address data) (write_op address data).

(** [for (addr = start; addr < start + size; addr += 1024)]; [fuel] is the number of pages. *)
Fixpoint erase_loop (fuel : nat) (addr limit : Z) : Op bool :=
  match fuel with
  | O => mret true
  | S fuel =>
      if addr <? limit then ok ← erase_page addr; if (ok : bool) then erase_loop fuel (wrap32 (addr + 1024)) limit else mret false
      else mret true
  end.

Definition erase_partition (start_addr size : Z) : Op bool := erase_loop (Z.to_nat (size / 1024 + 1)) start_addr (wrap32 (start_addr + size)).

(** * Partitions and headers *)

Definition PT_MAGIC : Z := 0x50415254.
Definition PT_TABLE_ADDR : Z := 0x7000.
Definition FIRMWARE_MAGIC : Z := 0x41555241.
Definition UPDATE_PENDING : Z := 0x55AA55AA.
Definition VALID : Z := 0x12345678.

Record Layout := mkLayout { part_a : Z; part_b : Z; size_a : Z; size_b : Z }.

(** The partition table in flash, or the defaults of the build. *)
Definition layout (m : flash) : Layout :=
  if load32 m PT_TABLE_ADDR =? PT_MAGIC
  then mkLayout (load32 m (PT_TABLE_ADDR + 12)) (load32 m (PT_TABLE_ADDR + 20)) (load32 m (PT_TABLE_ADDR + 16)) (load32 m (PT_TABLE_ADDR + 24))
  else mkLayout 0x8000 0x20000 0x18000 0x18000.

Definition bytes_of (m : flash) (a n : Z) : list Z := (fun i => load8 m (a + i)) <$> seqZ 0 n.

(** The fields of a [FirmwareHeader] at [offset]. *)
Definition hdr_magic (m : flash) (offset : Z) : Z := load32 m offset.
Definition hdr_image_size (m : flash) (offset : Z) : Z := load32 m (offset + 8).
Definition hdr_status (m : flash) (offset : Z) : Z := load32 m (offset + 12).
Definition hdr_signature (m : flash) (offset : Z) : list Z := bytes_of m (offset + 16) 64.
Definition payload (m : flash) (offset : Z) : list Z := bytes_of m (offset + 128) (hdr_image_size m offset).

(** [image_size == 0 || image_size > part_size - 128] *)
Definition bad_size (image_size part_size : Z) : bool := (image_size =? 0) || (wrap32 (part_size - 128) <? image_size).

(** [ed25519_verify(signature, message, length, ROOT_PUBLIC_KEY)] *)
Variable ed25519_verify : list Z -> list Z -> bool.

Definition verify_firmware (m : flash) (offset part_size : Z) : bool :=
  (hdr_magic m offset =? FIRMWARE_MAGIC) && negb (bad_size (hdr_image_size m offset) part_size) && ed25519_verify (hdr_signature m offset) (payload m offset).

(** * The boot loader *)

(** Words [i], [i + 1], ... up to [n] of them, each read when it is written. *)
Fixpoint copy_words (n : nat) (i dst src : Z) : Op bool :=
  match n with
  | O => mret true
  | S n => m ← contents; ok ← write_word (dst + 4 * i) (load32 m (src + 4 * i)); if (ok : bool) then copy_words n (i + 1) dst src else mret false
  end.

(** The 32 words of the header, with the status set to VALID. *)
Fixpoint copy_header (n : nat) (i dst src : Z) : Op bool :=
  match n with
  | O => mret true
  | S n => m ← contents; ok ← write_word (dst + 4 * i) (if i =? 3 then VALID else load32 m (src + 4 * i)); if (ok : bool) then copy_header n (i + 1) dst src else mret false
  end.

Definition words_to_copy (image_size : Z) : Z := image_size / 4 + (if negb (image_size mod 4 =? 0) then 1 else 0).

(** B is copied to A: body first, header last; B is dropped once A is valid. *)
Definition swap (a b size : Z) : Op bool :=
  m ← contents;
  ok ← (if bad_size (hdr_image_size m b) size then mret false else erase_partition a size);
  m ← contents;
  ok ← (if (ok : bool) then copy_words (Z.to_nat (words_to_copy (hdr_image_size m b))) 0 (a + 128) (b + 128) else mret false);
  ok ← (if (ok : bool) then copy_header 32 0 a b else mret false);
  m ← contents;
  if verify_firmware m a size then _ ← erase_page b; mret true else mret false.

Inductive BootEnd := Jump (sp pc : Z) | Halt.

(** [kernel_main]: [Halt] stands for its endless loops. *)
Definition boot : Op BootEnd :=
  m ← contents;
  let '(mkLayout a b size _) := layout m in
  let a_valid := verify_firmware m a size in
  let b_valid := verify_firmware m b size in
  a_valid ← (if b_valid && (negb a_valid || (hdr_status m b =? UPDATE_PENDING)) then swap a b size else mret a_valid);
  m ← contents;
  if (a_valid : bool) then
    let app_sp := load32 m (a + 128) in
    let app_pc := load32 m (a + 132) in
    mret (if negb (Z.land app_sp 0xF0000000 =? 0x20000000) || (Z.land app_pc 1 =? 0) then Halt else Jump app_sp app_pc)
  else mret Halt.

(** * Staging an update *)

(** [read(fd, buf, n)]: the next result of the file, at most [n] bytes; nothing at its end
    or on an error. *)
Definition read_next (n : Z) (reads : list (list Z)) : list Z * list (list Z) :=
  match reads with [] => ([], []) | r :: rs => (take (Z.to_nat n) r, rs) end.

(** The word at byte [i] of a buffer that is 0 behind the bytes read. *)
Definition buffer_word (bytes : list Z) (i : Z) : Z :=
  let b j := nth (Z.to_nat (i + j)) bytes 0 in b 0 + 256 * b 1 + 65536 * b 2 + 16777216 * b 3.

Fixpoint write_words (n : nat) (i offset : Z) (bytes : list Z) : Op bool :=
  match n with
  | O => mret true
  | S n => ok ← write_word (offset + i * 4) (buffer_word bytes (4 * i)); if (ok : bool) then write_words n (i + 1) offset bytes else mret false
  end.

(** The end of the write loop: [Some remaining], or [None] after a failed write.  Each
    round reads at least a byte, so [remaining] rounds are enough. *)
Fixpoint write_image (fuel : nat) (offset remaining : Z) (reads : list (list Z)) : Op (option Z) :=
  if remaining <=? 0 then mret (Some remaining) else
  match fuel with
  | O => mret (Some remaining)
  | S fuel =>
      let (bytes, reads) := read_next (if 256 <? remaining then 256 else remaining) reads in
      if bool_decide (bytes = []) then mret (Some remaining) else
      let words := (Z.of_nat (length bytes) + 3) / 4 in
      ok ← write_words (Z.to_nat words) 0 offset bytes;
      if (ok : bool) then write_image fuel (offset + words * 4) (remaining - Z.of_nat (length bytes)) reads else mret None
  end.

(** The header with its status set, written word by word; failures are ignored. *)
Fixpoint write_header (n : nat) (i offset : Z) (header : list Z) : Op unit :=
  match n with
  | O => mret tt
  | S n => _ ← write_word (offset + i * 4) (if i =? 3 then UPDATE_PENDING else buffer_word header (4 * i)); write_header n (i + 1) offset header
  end.

(** Behind the checks of the header: erase, write the image, verify it, write the header. *)
Definition stage (b size : Z) (header : list Z) (reads : list (list Z)) : Op bool :=
  let image_size := buffer_word header 8 in
  ok ← erase_partition b size;
  if negb (ok : bool) then mret false else
  r ← write_image (Z.to_nat image_size) (b + 128) image_size reads;
  match (r : option Z) with
  | None => _ ← erase_partition b size; mret false
  | Some remaining =>
      if 0 <? remaining then _ ← erase_partition b size; mret false else
      m ← contents;
      if negb (ed25519_verify (take 64 (drop 16 header)) (bytes_of m (b + 128) image_size)) then _ ← erase_partition b size; mret false else
      _ ← write_header 32 0 b header;
      mret true
  end.

(** [unpack_from_vfs] of a file whose reads give [reads], up to the reboot; [None] is a
    file that cannot be opened. *)
Definition unpack_from_vfs (file : option (list (list Z))) : Op bool :=
  match file with
  | None => mret false
  | Some reads =>
      m ← contents;
      let '(mkLayout _ b _ size) := layout m in
      let (header, reads) := read_next 128 reads in
      if negb (Z.of_nat (length header) =? 128) || negb (buffer_word header 0 =? FIRMWARE_MAGIC) then mret false else
      if bad_size (buffer_word header 8) size then mret false else stage b size header reads
  end.
End Boot.
