(* ===== verification/Queues.v ===== *)
(** Bounded queues between tasks: [MessageQueue] (kernel/core/msg_queue.hpp), a
    lock-free ring guarded by two semaphores, and [WorkQueue]
    (kernel/task/work_queue.hpp), filled from interrupts and drained by a daemon.

    Each operation is given whole; for the concurrent theorems it is also cut at
    the points where other code can run, as the steps of a transition system. *)
From S2P Require Import Prelude Kernel Scheduler Sync.

(** * Rings *)

Section RingBuffer.
Context {T : Type} `{!Inhabited T}.
Implicit Types (buf l : list T).

(** The elements of [l] from index [lo] on are in the ring, element [i] at
    [(base + i) % cap]. *)
Definition ring_holds (cap base : Z) (buf l : list T) (lo : nat) : Prop :=
  forall i x, (lo <= i)%nat -> l !! i = Some x -> zlookup buf ((base + Z.of_nat i) mod cap) = x.

Lemma ring_holds_mono cap base buf l lo lo' : ring_holds cap base buf l lo -> (lo <= lo')%nat -> ring_holds cap base buf l lo'.
Proof. intros H Hle i x Hi. apply H. lia. Qed.

Lemma ring_slots_differ cap base i j : 0 < cap -> i < j < i + cap -> (base + i) mod cap <> (base + j) mod cap.
Proof.
  intros Hc Hij E. assert (E0 : (j - i) mod cap = 0).
  { replace (j - i) with (base + j - (base + i)) by lia. rewrite Zminus_mod, E, Z.sub_diag. apply Z.mod_0_l. lia. }
  rewrite Z.mod_small in E0; lia.
Qed.

(** Storing one more element in a ring that is not full. *)
Lemma ring_holds_store cap base buf l lo x :
  0 < cap -> Z.of_nat (length buf) = cap -> (lo <= length l)%nat -> Z.of_nat (length l) - Z.of_nat lo < cap ->
  ring_holds cap base buf l lo ->
  ring_holds cap base (zalter (fun _ => x) ((base + Z.of_nat (length l)) mod cap) buf) (l ++ [x]) lo.
Proof.
  intros Hc Hb Hlo Hroom H i y Hi Hy. assert (Hr : in_range buf ((base + Z.of_nat (length l)) mod cap)).
  { split; [apply Z.mod_pos_bound; lia|]. rewrite Hb. apply Z.mod_pos_bound. lia. }
  apply lookup_app_Some in Hy as [Hy|[Hge Hy]].
  - apply lookup_lt_Some in Hy as Hlt. rewrite zlookup_zalter_ne; [by apply H|]. symmetry. apply ring_slots_differ; lia.
  - destruct (i - length l)%nat as [|n] eqn:E; [|done]. injection Hy as <-. replace i with (length l) by lia. by apply zlookup_zalter_eq.
Qed.
End RingBuffer.

(** * Message queues *)

Section MessageQueue.
Context {T : Type} `{!Inhabited T} (Capacity : Z) (run_handler : Z -> Z -> Kernel -> Kernel).

Record MessageQueue := mkMessageQueue {
  buffer_ : list T;
  head_ : Z;
  tail_ : Z;
  items_ : Semaphore;
  spaces_ : Semaphore;
}.

Definition set_buffer_ v q := mkMessageQueue v (head_ q) (tail_ q) (items_ q) (spaces_ q).
Definition set_head_ v q := mkMessageQueue (buffer_ q) v (tail_ q) (items_ q) (spaces_ q).
Definition set_tail_ v q := mkMessageQueue (buffer_ q) (head_ q) v (items_ q) (spaces_ q).
Definition set_items_ v q := mkMessageQueue (buffer_ q) (head_ q) (tail_ q) v (spaces_ q).
Definition set_spaces_ v q := mkMessageQueue (buffer_ q) (head_ q) (tail_ q) (items_ q) v.

(** A queue as it is constructed. *)
Definition mq_ctor : MessageQueue := mkMessageQueue (replicate (Z.to_nat Capacity) inhabitant) 0 0 (mkSemaphore 0 0) (mkSemaphore 0 0).

Definition mq_init (q : MessageQueue) : MessageQueue :=
  set_spaces_ (sem_init Capacity (spaces_ q)) (set_items_ (sem_init 0 (items_ q)) q).

(** The statements of [push] and [pop] between waiting and signalling. *)
Definition mq_store (slot : Z) (x : T) (q : MessageQueue) : MessageQueue := set_buffer_ (zalter (fun _ => x) slot (buffer_ q)) q.
Definition next_index (i : Z) : Z := (i + 1) mod Capacity.
Definition signal_items (q : MessageQueue) (k : Kernel) : MessageQueue * Kernel :=
  let '(s, k) := sem_signal run_handler (items_ q) k in (set_items_ s q, k).
Definition signal_spaces (q : MessageQueue) (k : Kernel) : MessageQueue * Kernel :=
  let '(s, k) := sem_signal run_handler (spaces_ q) k in (set_spaces_ s q, k).

Definition put (x : T) (q : MessageQueue) (k : Kernel) : MessageQueue * Kernel :=
  let current_tail := tail_ q in
  let q := mq_store current_tail x q in
  let q := set_tail_ (next_index current_tail) q in
  signal_items q k.

Definition get (q : MessageQueue) (k : Kernel) : T * MessageQueue * Kernel :=
  let current_head := head_ q in
  let x := zlookup (buffer_ q) current_head in
  let q := set_head_ (next_index current_head) q in
  let '(q, k) := signal_spaces q k in (x, q, k).

(** [push] and [pop]; [false] and [None] mean blocked in [wait], which starts
    again at its next pass.  The result of [wait] is ignored. *)
Definition push (x : T) (start_tick : Z) (q : MessageQueue) (k : Kernel) : bool * MessageQueue * Kernel :=
  match sem_wait run_handler FOREVER start_tick (spaces_ q) k with
  | (None, s, k) => (false, set_spaces_ s q, k)
  | (Some _, s, k) => let '(q, k) := put x (set_spaces_ s q) k in (true, q, k)
  end.

Definition pop (start_tick : Z) (q : MessageQueue) (k : Kernel) : option T * MessageQueue * Kernel :=
  match sem_wait run_handler FOREVER start_tick (items_ q) k with
  | (None, s, k) => (None, set_items_ s q, k)
  | (Some _, s, k) => let '(x, q, k) := get (set_items_ s q) k in (Some x, q, k)
  end.

Definition try_push (x : T) (q : MessageQueue) (k : Kernel) : bool * MessageQueue * Kernel :=
  match try_wait (spaces_ q) with
  | (false, s) => (false, set_spaces_ s q, k)
  | (true, s) => let '(q, k) := put x (set_spaces_ s q) k in (true, q, k)
  end.

Definition try_pop (q : MessageQueue) (k : Kernel) : option T * MessageQueue * Kernel :=
  match try_wait (items_ q) with
  | (false, s) => (None, set_items_ s q, k)
  | (true, s) => let '(x, q, k) := get (set_items_ s q) k in (Some x, q, k)
  end.
End MessageQueue.

Arguments MessageQueue T : clear implicits.

(** * Work queues *)

Record WorkItem := mkWorkItem { callback : Z; arg : Z }.
#[export] Instance WorkItem_inhabited : Inhabited WorkItem := populate (mkWorkItem 0 0).

Definition CAPACITY : Z := 16.

Record WorkQueue := mkWorkQueue {
  work_buffer : list WorkItem;
  work_head : Z;
  work_tail : Z;
  work_count : Z;
  work_items : Semaphore;
}.

Definition set_work_items s w := mkWorkQueue (work_buffer w) (work_head w) (work_tail w) (work_count w) s.

Definition work_ctor : WorkQueue := mkWorkQueue (replicate 16 (mkWorkItem nullptr nullptr)) 0 0 0 (mkSemaphore 0 0).

(** The critical section of [submit_from_isr] and that of [worker_task]. *)
Definition work_enqueue (cb a : Z) (w : WorkQueue) : bool * WorkQueue :=
  if work_count w <? CAPACITY then
    (true, mkWorkQueue (zalter (fun _ => mkWorkItem cb a) (work_tail w) (work_buffer w)) (work_head w)
             ((work_tail w + 1) mod CAPACITY) (work_count w + 1) (work_items w))
  else (false, w).

Definition work_dequeue (w : WorkQueue) : WorkItem * WorkQueue :=
  (zlookup (work_buffer w) (work_head w),
   mkWorkQueue (work_buffer w) ((work_head w + 1) mod CAPACITY) (work_tail w) (work_count w - 1) (work_items w)).

Section WorkQueue.
Context (run_handler : Z -> Z -> Kernel -> Kernel) (call_back : Z -> Z -> Kernel -> Kernel).

Definition submit_from_isr (cb a : Z) (w : WorkQueue) (k : Kernel) : bool * WorkQueue * Kernel :=
  let '(success, w) := work_enqueue cb a w in
  if success then
    let '(s, k) := sem_signal run_handler (work_items w) k in (true, set_work_items s w, k)
  else (false, w, k).

(** One round of [worker_task]; [false] means blocked in [wait]. *)
Definition worker_round (start_tick : Z) (w : WorkQueue) (k : Kernel) : bool * WorkQueue * Kernel :=
  match sem_wait run_handler FOREVER start_tick (work_items w) k with
  | (None, s, k) => (false, set_work_items s w, k)
  | (Some _, s, k) =>
      let '(item, w) := work_dequeue (set_work_items s w) in
      (true, w, if callback item =? nullptr then k else call_back (callback item) (arg item) k)
  end.
End WorkQueue.
