(* ===== verification/CapClaims.v ===== *)
(** Theorems on the capability system of kernel/core/cspace.cpp: reference
    accounting, attenuation, confinement of authority, revocation. *)
From S2P Require Import Prelude Kernel ReadyQueue WaitQueue Endpoint Mpu TaskTable IpcSpec Scheduler Preserve System CSpace.

(** * Rights *)

Definition rights_le (a b : CapRights) : Prop :=
  (right_read a -> right_read b) /\ (right_write a -> right_write b) /\ (right_grant a -> right_grant b).

Lemma escalates_spec req have : escalates req have = false <-> rights_le req have.
Proof. destruct req as [[] [] []], have as [[] [] []]; unfold escalates, rights_le; cbn; naive_solver. Qed.

#[export] Instance rights_le_refl : Reflexive rights_le.
Proof. intros a. by repeat split. Qed.
#[export] Instance rights_le_trans : Transitive rights_le.
Proof. intros a b c. unfold rights_le. naive_solver. Qed.

(** * Steps of the capability system *)

(** [derivable k c]: [c] carries no more than some capability held in [k]. *)
Definition derivable (k : Kernel) (c : Capability) : Prop :=
  exists i j, is_task k i /\ cap_type (slot k i j) <> CapNull /\
    cap_type c = cap_type (slot k i j) /\ cap_object c = cap_object (slot k i j) /\
    rights_le (cap_rights c) (cap_rights (slot k i j)).

(** The operations under which the spaces stay well formed: a capability is not derived,
    minted or granted onto its own slot, and the reference counter of the object has
    room. *)
Inductive cap_step (k : Kernel) : Kernel -> Prop :=
| st_delete t s : is_task k t -> 0 <= s -> cap_step k (cap_delete (Some t) s k).2
| st_lookup t s : is_task k t -> 0 <= s -> cap_step k (cap_lookup (Some t) s k).2
| st_derive t s d rights :
    is_task k t -> 0 <= s -> 0 <= d -> s <> d -> can_retain k (cap_object (slot k t s)) ->
    cap_step k (cap_derive (Some t) s d rights k).2
| st_mint t s d rights bdg :
    is_task k t -> 0 <= s -> 0 <= d -> s <> d -> can_retain k (cap_object (slot k t s)) ->
    cap_step k (cap_mint (Some t) s d rights bdg k).2
| st_grant t u s d rights bdg :
    is_task k t -> is_task k u -> 0 <= s -> 0 <= d -> (t, s) <> (u, d) ->
    can_retain k (cap_object (slot k t s)) ->
    cap_step k (cap_grant (Some t) (Some u) s d rights bdg k).2
| st_revoke t s : is_task k t -> 0 <= s -> cap_step k (cap_revoke (Some t) s k).2.

(** The effect of one step on the slots. *)
Record cap_effect (k k' : Kernel) : Prop := {
  ce_state : cap_state k';
  ce_count : task_count k' = task_count k;
  ce_balance : forall o, balance k' o = balance k o;
  ce_slots : forall i j, is_task k i -> cap_type (slot k' i j) <> CapNull -> derivable k (slot k' i j);
}.

Lemma effect_refl k : cap_state k -> cap_effect k k.
Proof. intros Hk. split; try done. intros i j Hi Hn. exists i, j. by split_and!. Qed.

Lemma effect_update i j c k k' :
  cap_state k -> is_task k i -> is_slot j -> slot_update i j c k k' -> cap_state k' ->
  (cap_type c <> CapNull -> derivable k c) -> cap_effect k k'.
Proof.
  intros Hk Hi Hj Hu Hk' Hd. split; [done|apply Hu| |].
  - intros o. by apply (balance_update i j c).
  - intros i' j' Hi'. rewrite (up_slot _ _ _ _ _ Hu). case_decide; [done|]. intros Hn. exists i', j'. by split_and!.
Qed.

Lemma copy_cap_effect t s d ds rights bdg k :
  cap_state k -> is_task k t -> is_task k d -> is_slot ds -> (t, s) <> (d, ds) ->
  cap_type (slot k t s) <> CapNull -> escalates (requested rights) (cap_rights (slot k t s)) = false ->
  can_retain k (cap_object (slot k t s)) -> cap_effect k (copy_cap t s d ds (requested rights) bdg k).
Proof.
  intros Hk Ht Hd Hs Hne Hn He Hr.
  destruct (copy_cap_spec t s d ds (requested rights) bdg k) as [Hu Hk']; [done..|].
  eapply effect_update; try done. intros _. exists t, s. split_and!; try done. by apply escalates_spec.
Qed.

Lemma derive_internal_effect t s d rights bdg k :
  cap_state k -> is_task k t -> 0 <= d -> s <> d -> can_retain k (cap_object (slot k t s)) ->
  cap_effect k (cap_derive_internal (Some t) s d rights bdg k).2.
Proof.
  intros Hk Ht Hd Hne Hr. unfold cap_derive_internal.
  destruct (is_valid_slot s) eqn:Hs; [|by apply effect_refl]. cbn [negb orb].
  destruct (is_valid_slot d) eqn:Hds; [|by apply effect_refl]. cbn [negb]. cbv zeta. apply is_slot_valid in Hds; [|done].
  case_decide; [by apply effect_refl|]. destruct (escalates _ _) eqn:He; [by apply effect_refl|]. cbn [snd].
  apply copy_cap_effect; try done. congruence.
Qed.

Lemma cap_grant_effect t u s d rights bdg k :
  cap_state k -> is_task k t -> is_task k u -> 0 <= d -> (t, s) <> (u, d) ->
  can_retain k (cap_object (slot k t s)) -> cap_effect k (cap_grant (Some t) (Some u) s d rights bdg k).2.
Proof.
  intros Hk Ht Hu Hd Hne Hr. unfold cap_grant.
  destruct (is_valid_slot s) eqn:Hs; [|by apply effect_refl]. cbn [negb orb].
  destruct (is_valid_slot d) eqn:Hds; [|by apply effect_refl]. cbn [negb]. cbv zeta. apply is_slot_valid in Hds; [|done].
  case_decide; [by apply effect_refl|]. destruct (escalates _ _) eqn:He; [by apply effect_refl|]. cbn [snd].
  by apply copy_cap_effect.
Qed.

Lemma revokes_effect P target k k' : revokes P target k k' -> cap_effect k k'.
Proof.
  intros [S C L B]. split; try done. intros i j Hi. rewrite L. destruct (_ && _); [done|].
  intros Hn. exists i, j. by split_and!.
Qed.

Lemma cap_step_effect k k' : cap_state k -> cap_step k k' -> cap_effect k k'.
Proof.
  intros Hk Hs. destruct Hs as [t s Ht Hs|t s Ht Hs|t s d rights Ht Hs Hd Hne Hr|t s d rights bdg Ht Hs Hd Hne Hr|
    t u s d rights bdg Ht Hu Hs Hd Hne Hr|t s Ht Hs].
  - destruct (is_valid_slot s) eqn:Hv.
    + apply is_slot_valid in Hv; [|done]. destruct (cap_delete_spec t s k Hk Ht Hv) as [Hu Hk'].
      by eapply effect_update.
    + unfold cap_delete. rewrite Hv. by apply effect_refl.
  - destruct (is_valid_slot s) eqn:Hv.
    + apply is_slot_valid in Hv; [|done]. rewrite cap_lookup_spec by (done || apply Hk || by apply cap_task_valid).
      by apply effect_refl.
    + unfold cap_lookup. rewrite Hv. by apply effect_refl.
  - unfold cap_derive. destruct (is_valid_slot s); [|by apply effect_refl]. by apply derive_internal_effect.
  - by apply derive_internal_effect.
  - by apply cap_grant_effect.
  - destruct (is_valid_slot s) eqn:Hv.
    + apply is_slot_valid in Hv; [|done]. destruct (cap_object (slot k t s)) as [target|] eqn:Ho.
      * eapply revokes_effect, (cap_revoke_spec t s k target); done.
      * unfold cap_revoke. destruct (is_valid_slot s) eqn:E; [|by apply effect_refl].
        rewrite cap_lookup_spec by (done || apply Hk || by apply cap_task_valid).
        case_decide; cbn; rewrite ?Ho; by apply effect_refl.
    + unfold cap_revoke. rewrite Hv. by apply effect_refl.
Qed.

Lemma derivable_trans k k' c : cap_effect k k' -> derivable k' c -> derivable k c.
Proof.
  intros He (i & j & Hi & Hn & Ht & Ho & Hr).
  assert (Hi' : is_task k i) by (unfold is_task in *; by rewrite <- (ce_count _ _ He)).
  destruct (ce_slots _ _ He i j Hi' Hn) as (i2 & j2 & Hi2 & Hn2 & Ht2 & Ho2 & Hr2).
  exists i2, j2. split_and!; try done; [congruence|congruence|by etrans].
Qed.

Lemma cap_steps_effect k k' : cap_state k -> rtc cap_step k k' -> cap_effect k k'.
Proof.
  intros Hk Hr. induction Hr as [k|k1 k2 k3 Hs Hr IH]; [by apply effect_refl|].
  pose proof (cap_step_effect _ _ Hk Hs) as H1. specialize (IH (ce_state _ _ H1)).
  split; [apply IH| | |].
  - by rewrite (ce_count _ _ IH), (ce_count _ _ H1).
  - intros o. by rewrite (ce_balance _ _ IH), (ce_balance _ _ H1).
  - intros i j Hi Hn. apply (derivable_trans _ _ _ H1), IH; [|done].
    unfold is_task in *. by rewrite (ce_count _ _ H1).
Qed.

(** * Authority under any operation *)

(** Every operation of a task on the capability spaces, its own slot as destination and a
    saturated reference counter included. *)
Inductive cap_op (k : Kernel) : Kernel -> Prop :=
| op_delete t s : is_task k t -> 0 <= s -> cap_op k (cap_delete (Some t) s k).2
| op_lookup t s : is_task k t -> 0 <= s -> cap_op k (cap_lookup (Some t) s k).2
| op_derive t s d rights : is_task k t -> 0 <= s -> 0 <= d -> cap_op k (cap_derive (Some t) s d rights k).2
| op_mint t s d rights bdg : is_task k t -> 0 <= s -> 0 <= d -> cap_op k (cap_mint (Some t) s d rights bdg k).2
| op_grant t u s d rights bdg :
    is_task k t -> is_task k u -> 0 <= s -> 0 <= d -> cap_op k (cap_grant (Some t) (Some u) s d rights bdg k).2
| op_revoke t s : is_task k t -> 0 <= s -> cap_op k (cap_revoke (Some t) s k).2.

(** The arrays have their sizes: every task has a control block, every block 16 slots. *)
Definition slots_wf (k : Kernel) : Prop := slots_len k /\ task_count k <= Z.of_nat (length (tasks k)).

(** Slots are kept or emptied. *)
Record shrinks (k k' : Kernel) : Prop := {
  sh_len : length (tasks k') = length (tasks k);
  sh_count : task_count k' = task_count k;
  sh_slots : slots_len k -> slots_len k';
  sh_slot : slots_len k -> forall i j, slot k' i j = slot k i j \/ cap_type (slot k' i j) = CapNull;
}.

#[export] Instance shrinks_refl : Reflexive shrinks.
Proof. intros k. split; auto. Qed.
#[export] Instance shrinks_trans : Transitive shrinks.
Proof.
  intros k1 k2 k3 [L1 C1 N1 S1] [L2 C2 N2 S2]. split; [congruence|congruence|auto|]. intros Hl i j.
  destruct (S2 (N1 Hl) i j) as [-> |]; auto.
Qed.

Lemma shrinks_sec k k' :
  length (tasks k') = length (tasks k) -> task_count k' = task_count k -> (forall i, security (tcb k' i) = security (tcb k i)) -> shrinks k k'.
Proof.
  intros L C S. split; [done|done|..].
  - intros Hl i Hi. rewrite S. apply Hl. unfold valid_task, in_range in *. by rewrite <- L.
  - intros _ i j. left. unfold slot. by rewrite S.
Qed.

Lemma shrinks_obj k k' : obj_frame k k' -> shrinks k k'.
Proof. intros [L C S _]. by apply shrinks_sec. Qed.

Lemma shrinks_upd i f k :
  (forall t, cspace (security (f t)) = cspace (security t)) -> shrinks k (upd i f k).
Proof.
  intros Hf. split; [apply length_tasks_upd|done|apply slots_len_upd; intros t; by rewrite Hf|].
  intros _ i' j. left. by apply slot_upd.
Qed.

Lemma shrinks_nullify i j k : (slots_len k -> valid_task k i /\ is_slot j) -> shrinks k (alter_slot i j nullify k).
Proof.
  intros Hv. split; [apply length_tasks_upd|done|apply slots_len_alter|]. intros Hl i' j'. destruct (Hv Hl).
  rewrite slot_alter by done. case_decide; [by right|by left].
Qed.

Lemma shrinks_set_refs o v k : shrinks k (set_obj_refs o v k).
Proof. destruct (len_set_obj_refs o v k). apply shrinks_sec; [done|done|]. intros i. apply sec_set_obj_refs. Qed.

Lemma shrinks_drop t ty o k : shrinks k (drop_object t ty o k).
Proof.
  unfold drop_object. set (k1 := if decide _ then _ else k). trans k1.
  { unfold k1. case_decide; [apply shrinks_obj, cancel_if_waiting_obj|done]. }
  unfold release. destruct (_ <? _); [|done]. cbv zeta. etrans; [apply shrinks_set_refs|].
  destruct (_ =? _); [apply shrinks_obj, destroy_obj|done].
Qed.

Lemma shrinks_valid k k' i : shrinks k k' -> valid_task k' i <-> valid_task k i.
Proof. intros H. unfold valid_task, in_range. by rewrite (sh_len _ _ H). Qed.

Lemma shrinks_delete t s k : valid_task k t -> 0 <= s -> shrinks k (cap_delete (Some t) s k).2.
Proof.
  intros Ht Hs. unfold cap_delete. destruct (is_valid_slot s) eqn:Hv; [|done]. apply is_slot_valid in Hv; [|done]. cbv zeta. cbn [snd].
  match goal with |- context [alter_slot t s nullify ?K] => set (k1 := K) end.
  assert (H1 : shrinks k k1) by (unfold k1; destruct (cap_object _); [case_decide; [done|apply shrinks_drop]|done]).
  trans k1; [done|]. etrans; [apply shrinks_nullify|by apply shrinks_upd]. intros _. split; [by apply (shrinks_valid k)|done].
Qed.

Lemma shrinks_lookup t s k : shrinks k (cap_lookup (Some t) s k).2.
Proof. unfold cap_lookup. destruct (is_valid_slot s); [|done]. cbv zeta. case_decide; by apply shrinks_upd. Qed.

Lemma shrinks_foldl {A} (f : Kernel -> A -> Kernel) (P : A -> Prop) xs k0 k :
  (forall k x, shrinks k0 k -> P x -> shrinks k (f k x)) -> shrinks k0 k -> Forall P xs -> shrinks k0 (foldl f k xs).
Proof.
  intros Hf. revert k. induction xs as [|x xs IH]; intros k H0 HP; [done|]. inversion_clear HP as [|? ? Hx Hxs]. cbn [foldl].
  apply IH; [|done]. trans k; [done|by apply Hf].
Qed.

Lemma zlookup_out {A} `{Inhabited A} (l : list A) i : ~ (0 <= i < Z.of_nat (length l)) -> zlookup l i = inhabitant.
Proof.
  intros Hn. unfold zlookup. destruct (Z.leb_spec 0 i); [|done]. rewrite list_lookup_total_alt, lookup_ge_None_2; [done|lia].
Qed.

(** A slot with an object exists. *)
Lemma object_slot k i j o : slots_len k -> cap_object (slot k i j) = Some o -> valid_task k i /\ is_slot j.
Proof.
  intros Hl Ho. unfold slot in Ho. assert (Hv : valid_task k i).
  { unfold valid_task. destruct (decide (0 <= i < Z.of_nat (length (tasks k)))) as [|Hn]; [done|].
    unfold tcb in Ho. rewrite (zlookup_out (tasks k)) in Ho by done. rewrite zlookup_out in Ho; [done|cbn; lia]. }
  split; [done|]. specialize (Hl i Hv). unfold is_slot, MAX_CSPACE_SLOTS.
  destruct (decide (0 <= j < Z.of_nat (length (cspace (security (tcb k i)))))) as [|Hn]; [lia|]. by rewrite zlookup_out in Ho.
Qed.

Lemma shrinks_revoke_slot i target j k : shrinks k (revoke_slot i target j k).
Proof.
  unfold revoke_slot. case_decide as Ho; [|done]. pose proof (shrinks_drop i (cap_type (slot k i j)) target k) as Hd.
  set (k1 := drop_object _ _ _ _) in *.
  assert (Hs : slots_len k -> shrinks k (unmark_slot i j (alter_slot i j nullify k1))).
  { intros Hl. destruct (object_slot k i j target Hl Ho) as [Hv Hj]. trans k1; [done|].
    etrans; [apply shrinks_nullify|by apply shrinks_upd]. intros _. split; [by apply (shrinks_valid k)|done]. }
  split; [|exact (sh_count _ _ Hd)|intros Hl; by apply (Hs Hl)|intros Hl; by apply (Hs Hl)].
  unfold unmark_slot, alter_slot. rewrite !length_tasks_upd. apply Hd.
Qed.

Lemma shrinks_revoke_task t s target i k : shrinks k (revoke_task t s target k i).
Proof.
  unfold revoke_task. cbv zeta. trans (sync_mask i k).
  - unfold sync_mask. apply (shrinks_foldl _ (fun _ => True)); [|done|by apply Forall_true]. intros k1 x _ _. unfold sync_slot.
    case_decide; by apply shrinks_upd.
  - generalize (sync_mask i k). intros k1. generalize (if i =? t then bit_clear (occupied_mask (security (tcb k1 i))) s else occupied_mask (security (tcb k1 i))).
    generalize 16%nat. intros n. revert k1. induction n as [|n IH]; intros k1 m; cbn [revoke_loop]; [done|].
    destruct (m =? 0); [done|]. etrans; [apply shrinks_revoke_slot|apply IH].
Qed.

Lemma shrinks_revoke t s k : shrinks k (cap_revoke (Some t) s k).2.
Proof.
  unfold cap_revoke. destruct (is_valid_slot s); [|done]. pose proof (shrinks_lookup t s k) as Hl.
  destruct (cap_lookup (Some t) s k) as [o k1]. cbn [snd] in Hl. destruct (o ≫= cap_object); [|done]. cbn [snd].
  apply (shrinks_foldl _ (fun _ => True)); [|done|by apply Forall_true]. intros k2 i _ _. apply shrinks_revoke_task.
Qed.

(** Every slot of [k'] holds no more than a slot of [k]. *)
Record confines (k k' : Kernel) : Prop := {
  cf_wf : slots_wf k';
  cf_count : task_count k' = task_count k;
  cf_slot : forall i j, is_task k i -> cap_type (slot k' i j) <> CapNull -> derivable k (slot k' i j);
}.

Lemma shrinks_confines k k' : slots_wf k -> shrinks k k' -> confines k k'.
Proof.
  intros [Hl Hc] [L C N S]. split; [split; [by apply N|by rewrite C, L]|done|]. intros i j Hi.
  destruct (S Hl i j) as [-> |E]; [|by rewrite E]. intros Hn. by exists i, j.
Qed.

Lemma copy_cap_confines t s d ds rights bdg k :
  slots_wf k -> is_task k t -> is_task k d -> is_slot ds -> cap_type (slot k t s) <> CapNull ->
  escalates (requested rights) (cap_rights (slot k t s)) = false -> confines k (copy_cap t s d ds (requested rights) bdg k).
Proof.
  intros [Hl Hc] Ht Hd Hs Hn He. unfold copy_cap. cbv zeta.
  assert (Hv : valid_task k d) by (unfold valid_task, in_range, is_task in *; lia).
  pose proof (shrinks_delete d ds k Hv (proj1 Hs)) as H1. set (k1 := (cap_delete (Some d) ds k).2) in *.
  pose proof (sh_slots _ _ H1 Hl) as Hl1. pose proof (proj2 (shrinks_valid _ _ d H1) Hv) as Hv1.
  set (f := fun c => set_cap_object _ (set_cap_type _ c)). set (k2 := alter_slot d ds f k1).
  assert (Hl2 : slots_len k2) by by apply slots_len_alter. assert (Hv2 : valid_task k2 d) by by apply valid_task_upd.
  set (k3 := retain_opt _ k2). assert (H3 : shrinks k2 k3 /\ forall i j, slot k3 i j = slot k2 i j).
  { unfold k3, retain_opt, retain. destruct (cap_object (slot k2 d ds)); [|by split]. split; [apply shrinks_set_refs|]. intros i j.
    unfold slot. by rewrite sec_set_obj_refs. }
  destruct H3 as [H3 E3]. pose proof (sh_slots _ _ H3 Hl2) as Hl3. pose proof (proj2 (shrinks_valid _ _ d H3) Hv2) as Hv3.
  set (g := fun c => set_cap_badge bdg (set_cap_rights _ c)).
  assert (Hlen : length (tasks k3) = length (tasks k)) by (rewrite (sh_len _ _ H3); unfold k2, alter_slot; rewrite length_tasks_upd; apply H1).
  assert (Hcnt : task_count k3 = task_count k) by (rewrite (sh_count _ _ H3); apply H1).
  split.
  - split; [by apply slots_len_upd, slots_len_alter|]. unfold mark_slot, alter_slot. rewrite !length_tasks_upd, Hlen. cbn. by rewrite Hcnt.
  - exact Hcnt.
  - intros i j Hi. unfold mark_slot. rewrite slot_upd by done. rewrite slot_alter, E3 by done. unfold k2. rewrite slot_alter by done.
    destruct (decide (d = i /\ ds = j)) as [[<- <-]|Hne].
    + unfold g, f. intros Hty. destruct (sh_slot _ _ H1 Hl t s) as [E|E]; [|cbn in Hty; by rewrite E in Hty]. rewrite E. exists t, s.
      split_and!; try done. by apply escalates_spec.
    + intros Hty. destruct (sh_slot _ _ H1 Hl i j) as [E|E]; [|by rewrite E in Hty]. rewrite E in *. by exists i, j.
Qed.

Lemma derive_internal_confines t s d rights bdg k :
  slots_wf k -> is_task k t -> 0 <= d -> confines k (cap_derive_internal (Some t) s d rights bdg k).2.
Proof.
  intros Hk Ht Hd. assert (Hr : confines k k) by by apply shrinks_confines. unfold cap_derive_internal.
  destruct (is_valid_slot s); [|done]. cbn [negb orb]. destruct (is_valid_slot d) eqn:Hds; [|done]. cbn [negb]. cbv zeta.
  apply is_slot_valid in Hds; [|done]. case_decide; [done|]. destruct (escalates _ _) eqn:He; [done|]. by apply copy_cap_confines.
Qed.

Lemma cap_op_confines k k' : slots_wf k -> cap_op k k' -> confines k k'.
Proof.
  intros Hk Ho. assert (Hv : forall t, is_task k t -> valid_task k t).
  { intros t Ht. destruct Hk. unfold valid_task, in_range, is_task in *. lia. }
  assert (Hr : confines k k) by by apply shrinks_confines.
  destruct Ho as [t s Ht Hs|t s Ht Hs|t s d rights Ht Hs Hd|t s d rights bdg Ht Hs Hd|t u s d rights bdg Ht Hu Hs Hd|t s Ht Hs].
  - apply shrinks_confines; [done|]. apply shrinks_delete; auto.
  - apply shrinks_confines; [done|apply shrinks_lookup].
  - unfold cap_derive. destruct (is_valid_slot s); [by apply derive_internal_confines|done].
  - by apply derive_internal_confines.
  - unfold cap_grant. destruct (is_valid_slot s); [|done]. cbn [negb orb]. destruct (is_valid_slot d) eqn:Hds; [|done].
    cbn [negb]. cbv zeta. apply is_slot_valid in Hds; [|done]. case_decide; [done|]. destruct (escalates _ _) eqn:He; [done|].
    by apply copy_cap_confines.
  - apply shrinks_confines; [done|apply shrinks_revoke].
Qed.

Lemma cap_ops_confine k k' : slots_wf k -> rtc cap_op k k' -> confines k k'.
Proof.
  intros Hk Hr. induction Hr as [k|k1 k2 k3 Hs Hr IH]; [by apply shrinks_confines|].
  pose proof (cap_op_confines _ _ Hk Hs) as [W C S]. specialize (IH W). split; [apply IH|by rewrite (cf_count _ _ IH)|].
  intros i j Hi Hn. assert (Hi2 : is_task k2 i) by (unfold is_task in *; by rewrite C).
  destruct (cf_slot _ _ IH i j Hi2 Hn) as (i2 & j2 & Hi3 & Hn2 & Ht & Ho & Hri).
  assert (Hi4 : is_task k1 i2) by (unfold is_task in *; by rewrite <- C).
  destruct (S i2 j2 Hi4 Hn2) as (i3 & j3 & Hi5 & Hn3 & Ht3 & Ho3 & Hr3).
  exists i3, j3. split_and!; try done; [congruence|congruence|by etrans].
Qed.

Lemma cap_state_wf k : cap_state k -> slots_wf k.
Proof.
  intros Hk. split; [apply Hk|]. destruct (Z.le_gt_cases (task_count k) 0) as [|Hp]; [lia|].
  pose proof (cap_task_valid k (task_count k - 1) Hk) as Hv. unfold valid_task, in_range, is_task in Hv. lia.
Qed.

(** * Concrete capability spaces *)

(** A kernel in which no capability has been handed out yet. *)
Definition fresh_task (t : TaskControlBlock) : bool :=
  (length (cspace (security t)) =? 16)%nat &&
  forallb (fun c => bool_decide (cap_type c = CapNull /\ cap_object c = None)) (cspace (security t)) &&
  (occupied_mask (security t) =? 0) && (0 <=? ref_count t) && (ref_count t <? 2 ^ 32).

Definition is_count (n : Z) : bool := (0 <=? n) && (n <? 2 ^ 32).

Definition no_caps (k : Kernel) : bool :=
  forallb fresh_task (tasks k) &&
  forallb (fun p => is_count (ep_ref_count p.2)) (map_to_list (endpoints k)) &&
  forallb (fun p => is_count p.2) (map_to_list (other_refs k)).

Lemma lookup_total_map_check {A} `{Inhabited A} (m : gmap Z A) (P : A -> Prop) x :
  P inhabitant -> (forall p, p ∈ map_to_list m -> P p.2) -> P (m !!! x).
Proof.
  intros H0 Hm. rewrite lookup_total_alt. destruct (m !! x) as [a|] eqn:E; [|done].
  apply (Hm (x, a)). by apply elem_of_map_to_list.
Qed.

Lemma no_caps_tcb k i :
  no_caps k = true -> fresh_task (tcb k i) = true \/ ~ valid_task k i /\ tcb k i = inhabitant.
Proof.
  unfold no_caps. rewrite !andb_true_iff. intros [[Ht _] _]. rewrite forallb_forall in Ht.
  unfold valid_task, in_range, tcb, zlookup. destruct (Z.leb_spec 0 i); [|right; split; [lia|done]].
  rewrite list_lookup_total_alt. destruct (tasks k !! Z.to_nat i) as [t|] eqn:E.
  - left. apply Ht, list_elem_of_In. by eapply list_elem_of_lookup_2.
  - right. split; [|done]. apply lookup_ge_None in E. lia.
Qed.

Lemma no_caps_slot k i j :
  no_caps k = true -> cap_type (slot k i j) = CapNull /\ cap_object (slot k i j) = None.
Proof.
  intros Hk. unfold slot. destruct (no_caps_tcb k i Hk) as [Hf|[_ ->]].
  - unfold fresh_task in Hf. rewrite !andb_true_iff, forallb_forall in Hf. destruct Hf as [[[[_ Hf] _] _] _].
    unfold zlookup. destruct (0 <=? j); [|done]. rewrite list_lookup_total_alt.
    destruct (_ !! Z.to_nat j) as [c|] eqn:E; [|done]. cbn.
    apply list_elem_of_lookup_2, list_elem_of_In, Hf, bool_decide_eq_true in E. done.
  - unfold zlookup. by destruct (0 <=? j).
Qed.

Lemma no_caps_refs k o : no_caps k = true -> 0 <= obj_refs k o < 2 ^ 32.
Proof.
  intros Hk. pose proof (fun i => no_caps_tcb k i Hk) as Ht.
  unfold no_caps in Hk. rewrite !andb_true_iff, !forallb_forall in Hk. destruct Hk as [[_ He] Ho].
  assert (Hc : forall n, is_count n = true -> 0 <= n < 2 ^ 32) by (intros n; unfold is_count; lia).
  destruct o as [i|e|x]; cbn [obj_refs].
  - destruct (Ht i) as [Hf|[_ ->]]; [|done]. unfold fresh_task in Hf. apply Hc. unfold is_count.
    rewrite !andb_true_iff in *. tauto.
  - apply (lookup_total_map_check (endpoints k) (fun p => 0 <= ep_ref_count p < 2 ^ 32)); [done|].
    intros p Hp%list_elem_of_In. by apply Hc, He.
  - destruct (other_refs k !! x) as [n|] eqn:E; [|done]. cbn. apply Hc, (Ho (x, n)), list_elem_of_In.
    by apply elem_of_map_to_list.
Qed.

Lemma no_caps_ok k : no_caps k = true -> caps_ok k.
Proof.
  intros Hk. pose proof (fun i => no_caps_tcb k i Hk) as Ht. pose proof (fun i j => no_caps_slot k i j Hk) as Hs.
  assert (Hfresh : forall i, valid_task k i -> fresh_task (tcb k i) = true).
  { intros i Hi. destruct (Ht i) as [|[? _]]; tauto. }
  assert (Hmask : forall i, valid_task k i -> slot_mask k i = 0).
  { intros i Hi%Hfresh. unfold fresh_task in Hi. rewrite !andb_true_iff, Z.eqb_eq in Hi. apply Hi. }
  split.
  - intros i Hi%Hfresh. unfold fresh_task in Hi. rewrite !andb_true_iff, Nat.eqb_eq in Hi. apply Hi.
  - intros i j. destruct (Hs i j) as [E1 E2]. by split; rewrite ?E1, ?E2.
  - intros i Hi. rewrite Hmask by done. lia.
  - intros i j Hi Hj. rewrite Hmask, Z.bits_0 by done. destruct (Hs i j) as [-> _].
    by rewrite bool_decide_false by naive_solver.
  - intros o. pose proof (no_caps_refs k o Hk). assert (caps_to k o = 0) as ->; [|done].
    unfold caps_to. rewrite (zsum_ext _ (fun _ => 0)); [done|]. intros p _. unfold points_to.
    destruct (Hs p.1 p.2) as [-> _]. by rewrite decide_False by naive_solver.
Qed.

(** The demo system with one endpoint (7), for which task 1 holds a full
    capability in slot 0. *)
Definition demo_endpoint : Kernel := set_obj_refs (ObjEndpoint 7) 1 demo.
Definition full_cap : Capability := mkCap CapEndpoint (mkRights true true true) 5 (Some (ObjEndpoint 7)).
Definition demo_caps : Kernel := (cap_insert (Some 1) 0 full_cap demo_endpoint).2.

Lemma demo_endpoint_ok : cap_state demo_endpoint.
Proof. split; [apply set_obj_refs_ok, demo_kernel_ok|]. apply no_caps_ok. by vm_compute. Qed.

Lemma full_cap_wf k : cap_wf k full_cap.
Proof. split; [done|done|]. intros o _ [= <-]. by eexists. Qed.

Lemma full_cap_retain k : obj_refs k (ObjEndpoint 7) < u32_max -> can_retain k (cap_object full_cap).
Proof. intros H x [= <-]. done. Qed.

Lemma demo_caps_ok : cap_state demo_caps.
Proof.
  apply cap_insert_spec; [apply demo_endpoint_ok|by vm_compute|by vm_compute|done|apply full_cap_wf|].
  apply full_cap_retain. by vm_compute.
Qed.

(** A derived, read-only capability in slot 3 of the client (2). *)
Definition demo_granted : Kernel := (cap_grant (Some 1) (Some 2) 0 3 CAP_RIGHT_READ 9 demo_caps).2.

Lemma demo_slot : slot demo_caps 1 0 = full_cap.
Proof. by vm_compute. Qed.

Lemma demo_retain : can_retain demo_caps (cap_object (slot demo_caps 1 0)).
Proof. rewrite demo_slot. apply full_cap_retain. by vm_compute. Qed.

Lemma demo_grant_step : cap_step demo_caps demo_granted.
Proof. apply st_grant; [by vm_compute..|done|apply demo_retain]. Qed.

(** * Theorems *)

(** C34: Deleting, deriving, minting, granting, revoking and looking up, except onto the
    slot of the source itself and while the object's 32-bit counter has room, keep the
    capability spaces well formed (bitmap and slots agree, every capability is
    covered by a reference of its object), and each object's count moves by
    exactly the number of capabilities for it: no sequence of such operations leaks
    or loses a reference, so an object is destroyed only when no capability for
    it is left.  Onto the own slot the bitmap goes wrong: [derive_onto_itself_destroys]. *)
Theorem capability_accounting k k' :
  cap_state k -> rtc cap_step k k' ->
  cap_state k' /\ forall o, obj_refs k' o - caps_to k' o = obj_refs k o - caps_to k o.
Proof. intros Hk Hr. apply (cap_steps_effect k k' Hk) in Hr. split; apply Hr. Qed.

Lemma capability_accounting_witness :
  cap_state demo_granted /\ obj_refs demo_granted (ObjEndpoint 7) - caps_to demo_granted (ObjEndpoint 7) = 1.
Proof.
  destruct (capability_accounting demo_caps demo_granted demo_caps_ok) as [H1 H2].
  - apply rtc_once, demo_grant_step.
  - split; [exact H1|]. etrans; [exact (H2 (ObjEndpoint 7))|]. by vm_compute.
Defined.

(** C4: Authority is confined: after any sequence of capability operations by any tasks
    on any slots, from a well-formed state, every capability a task holds has the type
    and object of a capability held before and no right that capability lacked.  Deriving
    or granting a capability onto its own slot and objects with a saturated reference
    counter are included. *)
Theorem authority_confined k k' i j :
  cap_state k -> rtc cap_op k k' -> is_task k i -> cap_type (slot k' i j) <> CapNull ->
  exists i0 j0, is_task k i0 /\ cap_type (slot k' i j) = cap_type (slot k i0 j0) /\
    cap_object (slot k' i j) = cap_object (slot k i0 j0) /\
    rights_le (cap_rights (slot k' i j)) (cap_rights (slot k i0 j0)).
Proof.
  intros Hk Hr Hi Hn. apply (cap_ops_confine k k' (cap_state_wf k Hk)) in Hr.
  destruct (cf_slot _ _ Hr i j Hi Hn) as (i0 & j0 & H1 & _ & H2 & H3 & H4). by exists i0, j0.
Qed.

(** The grant of [demo_granted], then a derivation onto the own slot. *)
Lemma authority_confined_witness :
  let k := (cap_derive (Some 1) 0 0 CAP_RIGHT_READ demo_granted).2 in
  exists i0 j0, is_task demo_caps i0 /\ cap_type (slot k 2 3) = cap_type (slot demo_caps i0 j0) /\
    cap_object (slot k 2 3) = cap_object (slot demo_caps i0 j0) /\
    rights_le (cap_rights (slot k 2 3)) (cap_rights (slot demo_caps i0 j0)).
Proof.
  cbv zeta. apply (authority_confined demo_caps _ 2 3 demo_caps_ok).
  - eapply rtc_l; [|apply rtc_once, op_derive; by vm_compute]. by apply op_grant; vm_compute.
  - by vm_compute.
  - by vm_compute.
Defined.

(** Deriving and minting are grants to oneself. *)
Lemma derive_self_grant k t s d rights :
  cap_derive (Some t) s d rights k = cap_grant (Some t) (Some t) s d rights (cap_badge (slot k t s)) k.
Proof.
  unfold cap_derive. destruct (is_valid_slot s) eqn:E; [done|]. unfold cap_grant. by rewrite E.
Qed.

Lemma cap_grant_result k t u s d rights bdg ok k' :
  cap_state k -> is_task k t -> is_task k u -> 0 <= s -> 0 <= d -> (t, s) <> (u, d) ->
  can_retain k (cap_object (slot k t s)) -> cap_grant (Some t) (Some u) s d rights bdg k = (ok, k') ->
  (ok = true <-> is_slot s /\ is_slot d /\ cap_type (slot k t s) <> CapNull /\
     rights_le (requested rights) (cap_rights (slot k t s))) /\
  (ok = false -> k' = k) /\
  (ok = true -> forall i j, slot k' i j =
     if decide (u = i /\ d = j) then mkCap (cap_type (slot k t s)) (requested rights) bdg (cap_object (slot k t s))
     else slot k i j).
Proof.
  intros Hk Ht Hu Hs Hd Hne Hr. unfold cap_grant.
  pose proof (is_slot_valid s Hs) as Vs. pose proof (is_slot_valid d Hd) as Vd.
  pose proof (escalates_spec (requested rights) (cap_rights (slot k t s))) as Ve.
  destruct (is_valid_slot s); cbn [negb orb]; [|intros [= <- <-]; by split; [split; naive_solver|]].
  destruct (is_valid_slot d); cbn [negb]; [|intros [= <- <-]; by split; [split; naive_solver|]]. cbv zeta.
  destruct (decide (cap_type (slot k t s) = CapNull)) as [Hn|Hn];
    [intros [= <- <-]; by split; [split; naive_solver|]|].
  destruct (escalates _ _); intros [= <- <-]; [by split; [split; naive_solver|]|].
  destruct (copy_cap_spec t s u d (requested rights) bdg k) as [Hup _]; [tauto..|].
  split; [tauto|]. split; [done|]. intros _. apply Hup.
Qed.

(** [cap_grant] succeeds exactly when both slot numbers are valid, the
    source is not null and the requested rights are a subset of its rights.  On
    success the destination holds the source's type and object with the
    requested rights and badge and no other slot changes; on failure nothing
    changes.  Within one task, [cap_mint] is the same operation and [cap_derive]
    is the one that keeps the source's badge. *)
Theorem grant_attenuates k t u s d rights bdg ok k' :
  cap_state k -> is_task k t -> is_task k u -> 0 <= s -> 0 <= d -> (t, s) <> (u, d) ->
  can_retain k (cap_object (slot k t s)) -> cap_grant (Some t) (Some u) s d rights bdg k = (ok, k') ->
  (ok = true <-> is_slot s /\ is_slot d /\ cap_type (slot k t s) <> CapNull /\
     rights_le (requested rights) (cap_rights (slot k t s))) /\
  (ok = false -> k' = k) /\
  (ok = true -> forall i j, slot k' i j =
     if decide (u = i /\ d = j) then mkCap (cap_type (slot k t s)) (requested rights) bdg (cap_object (slot k t s))
     else slot k i j) /\
  cap_mint (Some t) s d rights bdg k = cap_grant (Some t) (Some t) s d rights bdg k /\
  cap_derive (Some t) s d rights k = cap_grant (Some t) (Some t) s d rights (cap_badge (slot k t s)) k.
Proof.
  intros. destruct (cap_grant_result k t u s d rights bdg ok k') as (R1 & R2 & R3); [done..|].
  do 4 (split; [done|]). apply derive_self_grant.
Qed.

(** [cap_revoke] on a capability removes every other capability for the
    same object from every task (type and object of those slots become null),
    keeps the revoking capability and every capability for other objects, and
    leaves the object with the references the remaining capabilities need. *)
Theorem revoke_removes_all_others k t s target ok k' :
  cap_state k -> is_task k t -> is_slot s -> cap_object (slot k t s) = Some target ->
  cap_revoke (Some t) s k = (ok, k') ->
  ok = true /\ cap_state k' /\ slot k' t s = slot k t s /\
  (forall i j, is_task k i -> (i, j) <> (t, s) ->
     if decide (cap_object (slot k i j) = Some target)
     then cap_type (slot k' i j) = CapNull /\ cap_object (slot k' i j) = None
     else slot k' i j = slot k i j) /\
  obj_refs k' target - caps_to k' target = obj_refs k target - caps_to k target.
Proof.
  intros Hk Ht Hs Ho Hr. pose proof (cap_revoke_spec t s k target Hk Ht Hs Ho) as [H1 H2].
  rewrite Hr in H1, H2. cbn [fst snd] in *. destruct H2 as [S C L B].
  split_and!; [done|done| | |by apply B].
  - rewrite L. unfold revocable. by rewrite !Z.eqb_refl, andb_false_r.
  - intros i j Hi Hne. rewrite L, bool_decide_true by done. cbn. unfold revocable.
    assert ((i =? t) && (j =? s) = false) as ->.
    { destruct (Z.eqb_spec i t), (Z.eqb_spec j s); try done. congruence. }
    cbn. case_decide; [by rewrite bool_decide_true|by rewrite bool_decide_false].
Qed.

Lemma cap_alloc_slot_spec t k :
  caps_ok k -> valid_task k t ->
  let a := cap_alloc_slot (Some t) k in
  a = -1 /\ (forall j, is_slot j -> cap_type (slot k t j) <> CapNull) \/
  is_slot a /\ cap_type (slot k t a) = CapNull /\ (forall j, 0 <= j < a -> cap_type (slot k t j) <> CapNull).
Proof.
  intros Hk Ht a. unfold a, cap_alloc_slot. fold (slot_mask k t). cbv zeta.
  set (m := Z.land _ _). assert (Hm : forall j, 0 <= j -> Z.testbit m j = true <-> is_slot j /\ cap_type (slot k t j) = CapNull).
  { intros j Hj. unfold m. rewrite Z.land_spec, Z.lnot_spec by done.
    change (bit MAX_CSPACE_SLOTS - 1) with (Z.ones 16). rewrite Z.testbit_ones_nonneg by lia.
    rewrite andb_true_iff, Z.ltb_lt. split.
    - intros [H1 H2]. assert (Hs : is_slot j) by done. split; [done|].
      rewrite (co_bit _ Hk t j Ht Hs) in H1. by case_bool_decide as E; [|destruct (decide (cap_type (slot k t j) = CapNull))].
    - intros [Hs Hn]. split; [|apply Hs]. rewrite (co_bit _ Hk t j Ht Hs). by rewrite bool_decide_false by naive_solver. }
  assert (H0 : 0 <= m) by (apply Z.land_nonneg; right; by vm_compute).
  destruct (Z.eqb_spec m 0) as [E|Hne].
  - left. split; [done|]. intros j Hs Hn. assert (Z.testbit m j = true) as Hb by (apply Hm; [apply Hs|done]).
    by rewrite E, Z.bits_0 in Hb.
  - right. destruct (find_lowest_bit_spec m) as (L0 & L1 & L2); [lia|]. apply Hm in L1 as [L1 L3]; [|done].
    split; [done|]. split; [done|]. intros j Hj Hn. specialize (L2 j Hj).
    assert (Z.testbit m j = true) as Hb; [|congruence]. apply Hm; [lia|]. split; [|done].
    unfold is_slot in *. lia.
Qed.

(** [cap_alloc_slot] returns the lowest empty slot, or -1 exactly when all
    sixteen are taken; inserting a capability there makes [cap_lookup] return
    it, marks the slot occupied and disturbs no other slot. *)
Theorem alloc_insert_lookup k t cap k' :
  cap_state k -> is_task k t -> cap_type cap <> CapNull -> cap_wf k cap -> can_retain k (cap_object cap) ->
  let a := cap_alloc_slot (Some t) k in
  (a = -1 <-> forall j, is_slot j -> cap_type (slot k t j) <> CapNull) /\
  (a <> -1 -> cap_insert (Some t) a cap k = (true, k') ->
   (forall j, 0 <= j < a -> cap_type (slot k t j) <> CapNull) /\ cap_type (slot k t a) = CapNull /\
   cap_lookup (Some t) a k' = (Some cap, k') /\ is_slot_occupied (Some t) a k' = true /\
   forall i j, (i, j) <> (t, a) -> slot k' i j = slot k i j).
Proof.
  intros Hk Ht Hn Hwf Hr a. pose proof (cap_task_valid _ _ Hk Ht) as Hv.
  pose proof (cap_alloc_slot_spec t k (cs_caps _ Hk) Hv) as Hspec. cbv zeta in Hspec. fold a in Hspec. clearbody a.
  destruct Hspec as [[E Hall]|(Ha & Hfree & Hlow)].
  { split; [done|]. by rewrite E. }
  split; [split; [unfold is_slot in Ha; lia|intros Hall; by apply Hall in Hfree]|]. intros _ Hi.
  destruct (cap_insert_spec t a cap k Hk Ht Ha Hn Hwf Hr) as (_ & Hu & Hk'). rewrite Hi in Hu, Hk'. cbn [snd] in *.
  assert (Hv' : valid_task k' t) by (apply cap_task_valid; [done|]; unfold is_task; by rewrite (up_count _ _ _ _ _ Hu)).
  assert (Hs : slot k' t a = cap) by by rewrite (up_slot _ _ _ _ _ Hu), decide_True.
  split_and!; [done|done| | |].
  - rewrite cap_lookup_spec by (done || apply Hk'). by rewrite Hs, decide_False.
  - unfold is_slot_occupied. pose proof Ha as Hsv. apply is_slot_valid in Hsv as ->; [|apply Ha].
    rewrite bit_test_testbit by apply Ha. fold (slot_mask k' t).
    rewrite (co_bit _ (cs_caps _ Hk') t a Hv' Ha), Hs. by rewrite bool_decide_true.
  - intros i j Hne. rewrite (up_slot _ _ _ _ _ Hu), decide_False; [done|]. intros [-> ->]. done.
Qed.

(** Deriving, minting or granting a capability onto its own slot reports
    success but destroys it: the slot is deleted before the source is read
    again, so the slot ends up null, while its bit in the occupancy map stays
    set. *)
Theorem derive_onto_itself_destroys k t s rights bdg :
  cap_state k -> is_task k t -> is_slot s -> cap_type (slot k t s) <> CapNull ->
  rights_le (requested rights) (cap_rights (slot k t s)) ->
  exists k', cap_grant (Some t) (Some t) s s rights bdg k = (true, k') /\
    cap_type (slot k' t s) = CapNull /\ cap_object (slot k' t s) = None /\ is_slot_occupied (Some t) s k' = true.
Proof.
  intros Hk Ht Hs Hn Hle. unfold cap_grant. pose proof Hs as Hsv.
  apply is_slot_valid in Hsv; [|apply Hs]. rewrite Hsv. cbn [negb orb]. cbv zeta. rewrite decide_False by done.
  apply escalates_spec in Hle as ->. eexists. split; [done|]. unfold copy_cap. cbv zeta.
  destruct (cap_delete_spec t s k Hk Ht Hs) as [Hu Hk1]. set (k1 := (cap_delete (Some t) s k).2) in *.
  assert (Hv1 : valid_task k1 t) by (apply cap_task_valid; [done|]; unfold is_task; by rewrite (up_count _ _ _ _ _ Hu)).
  assert (Hs1 : slot k1 t s = nullify (slot k t s)) by by rewrite (up_slot _ _ _ _ _ Hu), decide_True.
  rewrite Hs1. cbn [cap_object cap_type nullify set_cap_object set_cap_type].
  rewrite (slot_alter t s _ k1 t s), decide_True by (done || apply Hk1). cbn [cap_object set_cap_object retain_opt].
  set (k2 := alter_slot t s _ k1). assert (Hv2 : valid_task k2 t) by by apply valid_task_upd.
  assert (Hl2 : slots_len k2) by apply slots_len_alter, Hk1.
  assert (Hs2 : slot (mark_slot t s (alter_slot t s (fun c => set_cap_badge bdg (set_cap_rights (requested rights) c)) k2)) t s =
    set_cap_badge bdg (set_cap_rights (requested rights) (nullify (slot k t s)))).
  { unfold mark_slot. rewrite slot_upd by done. rewrite slot_alter, decide_True by done. unfold k2.
    rewrite slot_alter, decide_True by (done || apply Hk1). by rewrite Hs1. }
  rewrite Hs2. split_and!; [done|done|]. unfold is_slot_occupied. rewrite Hsv.
  rewrite bit_test_testbit by apply Hs.
  match goal with |- Z.testbit (occupied_mask (security (tcb ?K t))) s = true => change (Z.testbit (slot_mask K t) s = true) end.
  rewrite mask_mark by by apply valid_task_upd. rewrite decide_True, bit_set_testbit, Z.eqb_refl by (done || apply Hs). done.
Qed.

