(* ===== verification/MutexClaims.v ===== *)
(** Theorems on the recursive mutexes of kernel/core/mutex.hpp: the held lists
    stay consistent, the wait-for graph stays acyclic, deadlock detection is
    exact, and a release restores the owner's priority and wakes the best
    waiter. *)
From S2P Require Import Prelude Kernel ReadyQueue WaitQueue Endpoint Mpu TaskTable IpcSpec Scheduler Preserve System Sync Mutex.

(** * Who waits for what *)

Definition same_waits (k k' : Kernel) : Prop := forall t, waits k' t = waits k t.

#[export] Instance same_waits_refl : Reflexive same_waits.
Proof. by intros k. Qed.
#[export] Instance same_waits_trans : Transitive same_waits.
Proof. intros k1 k2 k3 H1 H2 t. by rewrite H2. Qed.

Lemma sw_frame eK eT k k' :
  same_upto eK eT k k' -> (forall t, waiting_on_mutex (scheduler (eT t)) = waiting_on_mutex (scheduler t)) ->
  same_waits k k'.
Proof. intros Hf HT t. by apply (su_proj (fun t => waiting_on_mutex (scheduler t)) t Hf). Qed.

Lemma sw_priority id p k : same_waits k (set_task_priority id p k).
Proof. by eapply sw_frame; [apply set_task_priority_frame|]. Qed.
Lemma sw_state id s k : same_waits k (set_task_state id s k).
Proof. by eapply sw_frame; [apply set_task_state_frame|]. Qed.
Lemma sw_upd i f k :
  (forall t, waiting_on_mutex (scheduler (f t)) = waiting_on_mutex (scheduler t)) -> same_waits k (upd i f k).
Proof. intros Hf t. by apply (tcb_upd_frame (fun t => waiting_on_mutex (scheduler t))). Qed.
Lemma sw_mtx m f k : same_waits k (upd_mtx m f k).
Proof. done. Qed.

Lemma sw_propagate fuel s t k : same_waits k (propagate_loop fuel s t k).
Proof.
  revert t k. induction fuel as [|fuel IH]; intros t k; cbn [propagate_loop]; [done|].
  destruct (waits k t) as [m|]; [|done]. destruct (owner k m) as [o|]; [|done].
  destruct (_ =? _); [done|]. destruct (_ <? _); [|done]. etrans; [apply sw_priority|apply IH].
Qed.

Lemma sw_recalculate fuel t k : same_waits k (recalculate_loop fuel t k).
Proof.
  revert t k. induction fuel as [|fuel IH]; intros t k; cbn [recalculate_loop]; [done|]. cbv zeta.
  destruct (_ =? _); [done|]. destruct (blocks_on _ t) as [o|]; [|apply sw_priority].
  etrans; [apply sw_priority|apply IH].
Qed.

Lemma sw_recalculate_chain t k : same_waits k (recalculate_priority_chain t k).
Proof. unfold recalculate_priority_chain. apply sw_recalculate. Qed.
Lemma sw_propagate_priority t k : same_waits k (propagate_priority t k).
Proof. unfold propagate_priority. apply sw_propagate. Qed.

Lemma sw_wake m k : same_waits k (wake_highest_waiter m k).
Proof.
  unfold wake_highest_waiter. destruct (_ =? 0); [done|]. destruct (foldl _ _ _) as [mask [b|]]; [|done].
  etrans; [apply (sw_mtx m (set_mutex_wait_mask_ (bit_clear mask b)))|apply sw_state].
Qed.

Lemma sw_unlink fuel m a k : same_waits k (unlink_held fuel m a k).
Proof.
  revert a. induction fuel as [|fuel IH]; intros a; cbn [unlink_held]; [done|].
  destruct (next_held_ (mtx k a)) as [n|]; [|done]. destruct (n =? m); [done|apply IH].
Qed.

Lemma sw_detach m cur b k : same_waits k (detach m cur b k).
Proof.
  unfold detach. cbv zeta. transitivity (match cur with Some o => remove_held m o k | None => k end).
  - destruct cur as [o|]; [|done]. unfold remove_held. destruct (held k o) as [h|]; [|done].
    destruct (h =? m); [by apply sw_upd|apply sw_unlink].
  - intros t. by destruct b.
Qed.

Lemma sw_release m cur b k : same_waits k (release_mutex m cur b k).
Proof.
  unfold release_mutex. cbv zeta. etrans; [apply (sw_detach m cur b)|]. etrans; [|apply sw_wake].
  destruct cur; [apply sw_recalculate_chain|done].
Qed.

Lemma same_owner_of k k' m : same_locks k k' -> owner k' m = owner k m.
Proof. intros (_ & H & _). specialize (H m). unfold lock_view, owner in *. congruence. Qed.

Lemma owner_upd_mtx m f k x :
  owner (upd_mtx m f k) x = if decide (m = x) then owner_ (f (mtx k m)) else owner k x.
Proof. unfold owner. rewrite mtx_upd_mtx. case_decide; [by subst|done]. Qed.

Lemma owner_unlink fuel m a k x : owner (unlink_held fuel m a k) x = owner k x.
Proof.
  revert a. induction fuel as [|fuel IH]; intros a; cbn [unlink_held]; [done|].
  destruct (next_held_ (mtx k a)) as [n|]; [|done]. destruct (n =? m); [|apply IH].
  rewrite owner_upd_mtx. case_decide; [by subst|done].
Qed.

Lemma owner_detach m cur b k x : owner (detach m cur b k) x = if decide (m = x) then None else owner k x.
Proof.
  unfold detach. cbv zeta. set (k1 := match cur with Some o => _ | None => k end).
  assert (E1 : owner k1 x = owner k x).
  { unfold k1. destruct cur as [o|]; [|done]. unfold remove_held. destruct (held k o) as [h|]; [|done].
    destruct (h =? m); [done|apply owner_unlink]. }
  set (k2 := upd_mtx m _ k1).
  assert (E2 : forall y, owner k2 y = if decide (m = y) then None else owner k1 y).
  { intros y. unfold k2. by rewrite owner_upd_mtx. }
  rewrite <- E1, <- E2. destruct b; [|done]. rewrite owner_upd_mtx. case_decide; [by subst|done].
Qed.

Lemma owner_release m cur b k x : owner (release_mutex m cur b k) x = if decide (m = x) then None else owner k x.
Proof.
  unfold release_mutex. cbv zeta. rewrite (same_owner_of _ _ x (sl_wake _ _)), <- (owner_detach m cur b).
  destruct cur as [o|]; [|done]. apply (same_owner_of _ _ x (sl_recalculate_chain _ _)).
Qed.

(** * The wait-for graph *)

(** No task waits, through a chain of owners, for itself. *)
Definition no_deadlock (k : Kernel) : Prop := forall t n, chain k (S n) (Some t) <> Some t.

Lemma chain_step k n t u :
  chain k (S n) (Some t) = Some u <-> exists v, chain k n (Some t) = Some v /\ blocks_on k v = Some u.
Proof. unfold chain. cbn [Nat.iter]. apply bind_Some. Qed.

(** Edges may disappear or be redirected to a task that waits for nothing. *)
Lemma no_deadlock_sink c k k' :
  (forall t, blocks_on k' t = blocks_on k t \/ blocks_on k' t = None \/ blocks_on k' t = Some c /\ blocks_on k' c = None) ->
  no_deadlock k -> no_deadlock k'.
Proof.
  intros He Hk. assert (Hpath : forall n t u, chain k' n (Some t) = Some u ->
    chain k n (Some t) = Some u \/ (u = c /\ blocks_on k' c = None)).
  { intros n t. induction n as [|n IH]; intros u; [by left|]. intros (v & Hv & Hu)%chain_step.
    destruct (IH v Hv) as [Hv'|[-> Hc]]; [|congruence].
    destruct (He v) as [E|[E|[E Hc]]]; [|congruence|right; split; [congruence|done]].
    left. apply chain_step. exists v. split; [done|congruence]. }
  intros t n Hn. destruct (Hpath (S n) t t Hn) as [?|[-> Hc]]; [by apply (Hk t n)|].
  rewrite chain_S in Hn. cbn in Hn. by rewrite Hc, chain_None in Hn.
Qed.

Lemma no_deadlock_same k k' : (forall t, blocks_on k' t = blocks_on k t) -> no_deadlock k -> no_deadlock k'.
Proof. intros He. apply (no_deadlock_sink 0). intros t. left. apply He. Qed.

(** An edge may be added when its target does not lead back to its source. *)
Lemma no_deadlock_add c o k k' :
  (forall t, t <> c -> blocks_on k' t = blocks_on k t) -> blocks_on k' c = o -> (forall n, chain k n o <> Some c) ->
  no_deadlock k -> no_deadlock k'.
Proof.
  intros He Hc Hno Hk. destruct o as [o|].
  2:{ apply (no_deadlock_sink 0 k); [|done]. intros t. destruct (decide (t = c)) as [->|Ht]; [by right; left|].
      left. by apply He. }
  assert (Hold : forall n u, chain k' n (Some o) = Some u -> chain k n (Some o) = Some u /\ u <> c).
  { intros n. induction n as [|n IH]; intros u.
    - intros [= <-]. split; [done|]. intros ->. by apply (Hno 0%nat).
    - intros (v & Hv & Hu)%chain_step. destruct (IH v Hv) as [Hv' Hvc]. rewrite He in Hu by done.
      assert (Hn : chain k (S n) (Some o) = Some u) by (apply chain_step; by exists v).
      split; [done|]. intros ->. by apply (Hno (S n)). }
  assert (Hpath : forall n t u, chain k' n (Some t) = Some u ->
    chain k n (Some t) = Some u \/ exists j, (j < n)%nat /\ chain k' j (Some t) = Some c).
  { intros n t. induction n as [|n IH]; intros u; [by left|]. intros (v & Hv & Hu)%chain_step.
    destruct (decide (v = c)) as [->|Hvc]; [right; exists n; split; [lia|done]|].
    destruct (IH v Hv) as [Hv'|(j & Hj & E)]; [|right; exists j; split; [lia|done]].
    left. apply chain_step. exists v. split; [done|]. by rewrite <- He. }
  intros t n Hn. destruct (Hpath (S n) t t Hn) as [?|(j & Hj & Ej)]; [by apply (Hk t n)|].
  assert (Et : chain k' (n - j) (Some o) = Some t).
  { replace (S n) with (n - j + S j)%nat in Hn by lia. rewrite chain_add in Hn.
    assert (chain k' (S j) (Some t) = Some o) as E by (apply chain_step; by exists c). by rewrite E in Hn. }
  assert (Ec : chain k' (j + (n - j)) (Some o) = Some c) by by rewrite chain_add, Et.
  by apply Hold in Ec as [_ ?].
Qed.

(** ** Every mutex operation keeps the graph acyclic *)

Lemma blocks_same k k' t : same_waits k k' -> same_locks k k' -> blocks_on k' t = blocks_on k t.
Proof.
  intros Hw Hl. unfold blocks_on. rewrite Hw. destruct (waits k t) as [m|]; [|done]. by apply same_owner_of.
Qed.

Lemma nd_same k k' : same_waits k k' -> same_locks k k' -> no_deadlock k -> no_deadlock k'.
Proof. intros Hw Hl. apply no_deadlock_same. intros t. by apply blocks_same. Qed.

Lemma waits_stop m c k t :
  valid_task k c -> waits (stop_waiting m c k) t = if decide (c = t) then None else waits k t.
Proof. intros Hv. unfold stop_waiting, waits. cbv zeta. rewrite tcb_upd by done. by case_decide. Qed.

Lemma nd_stop m c k : valid_task k c -> no_deadlock k -> no_deadlock (stop_waiting m c k).
Proof.
  intros Hv. apply (no_deadlock_sink 0). intros t. unfold blocks_on. rewrite waits_stop by done.
  case_decide; [by right; left|]. left. destruct (waits k t) as [x|]; [|done].
  apply (same_owner_of _ _ x (sl_stop_waiting m c k)).
Qed.

Lemma waits_acquire m cur k : same_waits k (acquire m cur k).
Proof.
  unfold acquire. cbv zeta. destruct cur as [c|]; [|done]. set (k1 := upd_mtx m _ (upd_mtx m _ k)).
  transitivity (upd c (set_held_mutexes (Some m)) k1); [by apply (sw_upd c (set_held_mutexes (Some m)) k1)|].
  destruct (_ <? _); [apply sw_priority|done].
Qed.

Lemma owner_acquire m cur k x : owner (acquire m cur k) x = if decide (m = x) then cur else owner k x.
Proof.
  unfold acquire. cbv zeta. set (k1 := upd_mtx m _ k).
  assert (E1 : owner k1 x = if decide (m = x) then cur else owner k x) by (unfold k1; by rewrite owner_upd_mtx).
  destruct cur as [c|]; [|done]. set (k2 := upd c _ _).
  assert (E2 : owner k2 x = owner k1 x).
  { change (owner (upd_mtx m (set_next_held_ (held k1 c)) k1) x = owner k1 x). rewrite owner_upd_mtx.
    case_decide; [by subst|done]. }
  rewrite <- E1, <- E2. destruct (_ <? _); [|done]. apply (same_owner_of _ _ x (sl_priority _ _ _)).
Qed.

(** The new owner waits for nothing. *)
Lemma nd_acquire m c k : waits k c = None -> no_deadlock k -> no_deadlock (acquire m (Some c) k).
Proof.
  intros Hc. apply (no_deadlock_sink c). intros t. unfold blocks_on. rewrite !(waits_acquire m (Some c) k), Hc.
  destruct (waits k t) as [x|]; [|by left]. cbn [mbind option_bind]. rewrite owner_acquire. case_decide; [by right; right|by left].
Qed.

Lemma nd_acquire_none m k : no_deadlock k -> no_deadlock (acquire m None k).
Proof.
  apply (no_deadlock_sink 0). intros t. unfold blocks_on. rewrite (waits_acquire m None k).
  destruct (waits k t) as [x|]; [|by left]. cbn [mbind option_bind]. rewrite owner_acquire. case_decide; [by right; left|by left].
Qed.

Lemma nd_release m cur b k : no_deadlock k -> no_deadlock (release_mutex m cur b k).
Proof.
  apply (no_deadlock_sink 0). intros t. unfold blocks_on. rewrite (sw_release m cur b k).
  destruct (waits k t) as [x|]; [|by left]. cbn [mbind option_bind]. rewrite owner_release. case_decide; [by right; left|by left].
Qed.

Lemma nd_mtx m f k : (forall x, owner_ (f x) = owner_ x) -> no_deadlock k -> no_deadlock (upd_mtx m f k).
Proof.
  intros Hf. apply no_deadlock_same. intros t. unfold blocks_on. rewrite (sw_mtx m f k).
  destruct (waits k t) as [x|]; [|done]. cbn [mbind option_bind]. rewrite owner_upd_mtx. case_decide; [subst; apply Hf|done].
Qed.

Lemma nd_unlock m k : no_deadlock k -> no_deadlock (unlock_core m k).2.
Proof.
  intros Hk. unfold unlock_core. cbv zeta. destruct (_ && _); [|done].
  set (k1 := upd_mtx m _ k). assert (H1 : no_deadlock k1) by by apply nd_mtx.
  destruct (_ =? 0); [by apply nd_release|done].
Qed.

Lemma kernel_ok_count k : kernel_ok k -> task_count k <= MAX_TASKS.
Proof. intros Hk. destruct (kernel_ok_sched k Hk) as [Q HI]. apply (rl_count _ _ (si_linked _ _ HI)). Qed.

Lemma mutex_owners k : mutex_state k -> owners_ok k.
Proof.
  intros [Hk [H HI]] m o Ho. apply (lk_owner _ _ HI) in Ho as [? ?]. pose proof (kernel_ok_count k Hk). lia.
Qed.

Lemma nd_enter m k :
  mutex_state k -> (forall c, g_current_tcb_ptr k = Some c -> waits k c = None) ->
  no_deadlock k -> no_deadlock (lock_enter m k).2.
Proof.
  intros Hs Hw Hn. pose proof Hs as [Hk _]. pose proof (proj1 (ko_cur _ Hk)) as Hcur. unfold lock_enter. cbv zeta.
  destruct (locked_ (mtx k m)); cbn [negb snd].
  2:{ destruct (g_current_tcb_ptr k) as [c|]; [by apply nd_acquire, Hn; apply Hw|by apply nd_acquire_none]. }
  destruct (owned_by k m (g_current_tcb_ptr k)); cbn [snd]; [by apply nd_mtx|].
  destruct (g_current_tcb_ptr k) as [c|]; [|done]. specialize (Hcur c eq_refl).
  assert (Hv : valid_task k c) by by apply (sched_ok_valid k); [apply kernel_ok_sched|].
  destruct (check_deadlock c m k) eqn:Hd; cbn [snd].
  { apply (nd_same k); [by apply sw_upd|by apply sl_upd|done]. }
  set (k1 := upd c _ k). set (k2 := upd_mtx m _ k1).
  assert (H2 : no_deadlock k2).
  { apply (no_deadlock_add c (owner k m) k); [| | |done].
    - intros t Ht. transitivity (blocks_on k1 t).
      + unfold blocks_on. change (waits k2 t) with (waits k1 t). destruct (waits k1 t) as [x|]; [|done].
        cbn [mbind option_bind]. unfold k2. rewrite owner_upd_mtx. case_decide; [by subst|done].
      + unfold blocks_on, k1, waits. by rewrite tcb_upd_ne.
    - unfold blocks_on. change (waits k2 c) with (waits k1 c).
      assert (waits k1 c = Some m) as -> by (unfold waits, k1; by rewrite tcb_upd_eq).
      cbn [mbind option_bind]. unfold k2. by rewrite owner_upd_mtx, decide_True.
    - intros n Hc. assert (Ht : check_deadlock c m k = true); [|congruence].
      apply check_deadlock_spec; [by apply mutex_owners|by exists n]. }
  destruct (owner k2 m) as [o|]; [|done]. destruct (_ <? _); [|done].
  apply (nd_same k2); [apply sw_propagate_priority|apply sl_propagate_priority|done].
Qed.

Lemma nd_pass m c timeout start k :
  mutex_state k -> is_task k c -> no_deadlock k -> no_deadlock (lock_pass m c timeout start k).2.
Proof.
  intros [Hk _] Hc Hn. assert (Hv : valid_task k c) by by apply (sched_ok_valid k); [apply kernel_ok_sched|].
  pose proof (nd_stop m c k Hv Hn) as Hst. unfold lock_pass. cbv zeta.
  destruct (negb _); cbn [snd].
  { apply nd_acquire; [|done]. by rewrite waits_stop, decide_True. }
  destruct (owned_by _ _ _); cbn [snd]; [by apply nd_mtx|]. destruct (_ && _); cbn [snd].
  - destruct (owner _ m) as [o|]; [|done]. eapply nd_same; [apply sw_recalculate_chain|apply sl_recalculate_chain|done].
  - set (k1 := upd_mtx m _ k). assert (H1 : no_deadlock k1) by by apply nd_mtx.
    destruct (negb _); cbn [snd]; [|by eapply nd_same; [apply sw_state|apply sl_state|]].
    set (k2 := upd c _ k1). assert (H2 : no_deadlock k2) by (by apply (nd_same k1); [apply sw_upd|apply sl_upd|]).
    by eapply nd_same; [apply sw_state|apply sl_state|].
Qed.

(** * The steps *)

(** The atomic steps of the mutex operations.  A task enters [lock] while it
    waits for no mutex and stays in its loop until it returns; in between,
    anything that leaves the mutexes alone may happen. *)
Inductive mstep (k : Kernel) : Kernel -> Prop :=
| mu_enter m :
    (forall c, g_current_tcb_ptr k = Some c -> waits k c = None) -> recursive_count_ (mtx k m) < u32_max ->
    mstep k (lock_enter m k).2
| mu_pass m c timeout start :
    is_task k c -> waits k c = Some m -> recursive_count_ (mtx k m) < u32_max ->
    mstep k (lock_pass m c timeout start k).2
| mu_unlock m : mstep k (unlock_core m k).2
| mu_force m t : mstep k (force_unlock m t k)
| mu_ceiling m p : is_prio p -> mstep k (set_ceiling m p k)
| mu_other k' : kernel_ok k' -> same_locks k k' -> same_waits k k' -> mstep k k'.

Lemma mstep_state k k' : mutex_state k -> mstep k k' -> mutex_state k'.
Proof.
  intros Hk [|m c timeout start Hc _| | | |k'' Hk'' Hl _]; [by apply lock_enter_state|by apply lock_pass_state|
    by apply unlock_core_state|by apply force_unlock_state|by apply set_ceiling_state|].
  by apply (mutex_state_same k); [..|apply Hk].
Qed.

Lemma mstep_nd k k' : mutex_state k -> no_deadlock k -> mstep k k' -> no_deadlock k'.
Proof.
  intros Hk Hn [m Hw _|m c timeout start Hc _ _|m|m t|m p|k'' _ Hl Hw].
  - by apply nd_enter.
  - by apply nd_pass.
  - by apply nd_unlock.
  - unfold force_unlock. destruct (_ && _); [by apply nd_release|done].
  - by apply nd_mtx.
  - by apply (nd_same k).
Qed.

Lemma msteps k k' : mutex_state k -> no_deadlock k -> rtc mstep k k' -> mutex_state k' /\ no_deadlock k'.
Proof.
  intros Hk Hn Hr. induction Hr as [|k1 k2 k3 Hs _ IH]; [done|]. apply IH; [by eapply mstep_state|by eapply mstep_nd].
Qed.

(** * Releasing *)

(** The walk over a held list computes the maximum of the ceilings and the
    highest waiters. *)
Lemma held_max_bounds fuel o l p k :
  hseg (nxh k) o l -> (length l <= fuel)%nat ->
  let r := held_max fuel o p k in
  p <= r /\ (forall x, x ∈ l -> ceiling_prio_ (mtx k x) <= r /\ get_highest_waiter x k <= r) /\
  (r = p \/ exists x, x ∈ l /\ (r = ceiling_prio_ (mtx k x) \/ r = get_highest_waiter x k)).
Proof.
  revert o l p. induction fuel as [|fuel IH]; intros o l p Hs Hl.
  - destruct l as [|x l]; [|cbn in Hl; lia]. cbn in Hs. subst o. cbn. split; [lia|]. split; [set_solver|by left].
  - destruct l as [|x l]; cbn in Hs; [subst o; cbn; split; [lia|]; split; [set_solver|by left]|].
    destruct Hs as [-> Hs]. cbn [held_max]. cbv zeta.
    set (c := ceiling_prio_ (mtx k x)). set (w := get_highest_waiter x k).
    set (p1 := if p <? c then c else p). set (p2 := if p1 <? w then w else p1).
    destruct (IH (next_held_ (mtx k x)) l p2 Hs ltac:(cbn in Hl; lia)) as (H1 & H2 & H3).
    set (r := held_max fuel _ p2 k) in *.
    assert (Hp : p <= p2 /\ c <= p2 /\ w <= p2 /\ (p2 = p \/ p2 = c \/ p2 = w)).
    { clear. unfold p2, p1. destruct (Z.ltb_spec p c) as [?|?]; [destruct (Z.ltb_spec c w)|destruct (Z.ltb_spec p w)]; lia. }
    split; [lia|]. split.
    + intros y [->|Hy]%elem_of_cons; [fold c w; lia|by apply H2].
    + destruct H3 as [->|(y & Hy & Er)]; [|right; exists y; split; [set_solver|done]].
      destruct Hp as (_ & _ & _ & [->|[E|E]]); [by left|right; exists x; split; [set_solver|]..]; fold c w; auto.
Qed.

(** A task that waits for nothing gets the priority it is entitled to. *)
Lemma recalculate_top fuel c k :
  mutex_state k -> is_task k c -> waits k c = None ->
  recalculate_loop (S fuel) c k = set_task_priority c (entitled_prio c k) k.
Proof.
  intros [Hk [H HI]] Hc Hw. cbn [recalculate_loop]. cbv zeta.
  assert (Hid : task_id k c = c) by (apply (sched_ok_id k c); [by apply kernel_ok_sched|done]). rewrite Hid.
  pose proof (kernel_ok_count k Hk) as Hcnt. destruct Hc as [Hc0 Hc1].
  destruct (Z.eqb_spec (entitled_prio c k) (prio k c)) as [E|Hne].
  - rewrite E. unfold set_task_priority. rewrite (proj2 (Z.leb_gt MAX_TASKS c)), (proj2 (Z.leb_gt (task_count k) c)) by lia.
    cbn [orb]. unfold prio. by rewrite Z.eqb_refl.
  - set (k1 := set_task_priority c _ k). unfold blocks_on.
    assert (waits k1 c = None) as ->; [|done]. unfold k1. by rewrite (sw_priority c _ k).
Qed.

Lemma recalculate_chain_top c k :
  mutex_state k -> is_task k c -> waits k c = None ->
  recalculate_priority_chain c k = set_task_priority c (entitled_prio c k) k.
Proof. intros. unfold recalculate_priority_chain, task_fuel. by apply recalculate_top. Qed.

(** [detach] only changes links. *)
Definition mask_view (x : Mutex) : Z * Z := (mutex_wait_mask_ x, ceiling_prio_ x).

Lemma detach_view m cur b k :
  (forall x, mask_view (mtx (detach m cur b k) x) = mask_view (mtx k x)) /\
  same_upto (fun k => set_tasks [] (set_mutexes ∅ k)) (set_held_mutexes None) k (detach m cur b k).
Proof.
  assert (Hu : forall fuel a, (forall x, mask_view (mtx (unlink_held fuel m a k) x) = mask_view (mtx k x)) /\
    same_upto (fun k => set_tasks [] (set_mutexes ∅ k)) (set_held_mutexes None) k (unlink_held fuel m a k)).
  { intros fuel. induction fuel as [|fuel IH]; intros a; cbn [unlink_held]; [done|].
    destruct (next_held_ (mtx k a)) as [n|]; [|done]. destruct (n =? m); [|apply IH]. split; [|by split].
    intros x. rewrite mtx_upd_mtx. by case_decide. }
  unfold detach. cbv zeta. set (k1 := match cur with Some o => _ | None => k end).
  assert (H1 : (forall x, mask_view (mtx k1 x) = mask_view (mtx k x)) /\
    same_upto (fun k => set_tasks [] (set_mutexes ∅ k)) (set_held_mutexes None) k k1).
  { unfold k1. destruct cur as [o|]; [|done]. unfold remove_held. destruct (held k o) as [h|]; [|done].
    destruct (h =? m); [|apply Hu]. split; [done|]. by apply su_upd. }
  destruct H1 as [Hv Hf]. split.
  - intros x. rewrite <- Hv. destruct b; rewrite !mtx_upd_mtx; by repeat case_decide.
  - etrans; [exact Hf|]. destruct b; by split.
Qed.

Lemma get_highest_waiter_ext m k k' :
  task_count k' = task_count k -> mutex_wait_mask_ (mtx k' m) = mutex_wait_mask_ (mtx k m) ->
  (forall i, prio k' i = prio k i) -> get_highest_waiter m k' = get_highest_waiter m k.
Proof.
  intros Hc Hm Hp. unfold get_highest_waiter.
  assert (E : forall l p, foldl (higher_waiter m k') p l = foldl (higher_waiter m k) p l); [|apply E].
  intros l. induction l as [|i l IH]; intros p; cbn [foldl]; [done|]. rewrite IH. f_equal.
  unfold higher_waiter. rewrite Hm. destruct (bit_test _ i); [|done]. unfold get_task_by_id. rewrite Hc.
  destruct (_ && _); [|done]. by rewrite Hp.
Qed.

Lemma waiter_ext k k' mask i :
  task_count k' = task_count k -> sched_state (scheduler (tcb k' i)) = sched_state (scheduler (tcb k i)) ->
  waiter k' mask i <-> waiter k mask i.
Proof. intros Hc Hst. unfold waiter, is_task, sem_blocked. by rewrite Hc, Hst. Qed.

Lemma bit_test_cleared mask i : 0 <= i -> bit_test (bit_clear mask i) i = false.
Proof. intros Hi. rewrite bit_test_testbit, bit_clear_testbit, Z.eqb_refl by done. done. Qed.

(** Waking chooses a waiter of the highest priority. *)
Lemma wake_spec m k :
  kernel_ok k -> (forall i, prio (wake_highest_waiter m k) i = prio k i) /\
  forall w, waiter k (mutex_wait_mask_ (mtx k m)) w ->
  exists b, waiter k (mutex_wait_mask_ (mtx k m)) b /\ prio k w <= prio k b /\
    sched_state (scheduler (tcb (wake_highest_waiter m k) b)) = Ready /\
    bit_test (mutex_wait_mask_ (mtx (wake_highest_waiter m k) m)) b = false.
Proof.
  intros Hk. pose proof (best_waiter_spec k (mutex_wait_mask_ (mtx k m)) (kernel_ok_count k Hk)) as Hb.
  rewrite wake_highest_waiter_spec. destruct (Z.eqb_spec (mutex_wait_mask_ (mtx k m)) 0) as [E|_].
  { split; [done|]. intros w (Hw & [Hw0 _] & _). by rewrite E, bit_test_testbit, Z.testbit_0_l in Hw. }
  cbv zeta. set (mask := (foldl _ _ _).1). destruct (best_waiter _ _) as [b|]; [|split; [done|]; intros w Hw; by apply Hb in Hw].
  set (k1 := upd_mtx m _ k). split.
  { intros i. unfold prio. by rewrite (su_proj (fun t => current_priority (scheduler t)) i (set_task_state_frame b Ready k1)). }
  intros w Hw. exists b. destruct Hb as [Hbw Hmax]. split; [done|]. split; [by apply Hmax|]. split.
  - rewrite (set_task_state_state k1) by first [apply Hbw|by apply kernel_ok_sched, upd_mtx_ok]. by rewrite decide_True.
  - assert (E : mtx (set_task_state b Ready k1) m = mtx k1 m).
    { unfold mtx. by rewrite (su_env_proj mutexes (set_task_state_frame b Ready k1)). }
    rewrite E. unfold k1. rewrite mtx_upd_mtx, decide_True by done. apply bit_test_cleared, Hbw.
Qed.

(** [p] is the priority task [c] is entitled to without mutex [m]. *)
Definition entitled_without (m c p : Z) (k : Kernel) : Prop :=
  base_priority (scheduler (tcb k c)) <= p /\
  (forall x, x <> m -> owner k x = Some c -> ceiling_prio_ (mtx k x) <= p /\ get_highest_waiter x k <= p) /\
  (p = base_priority (scheduler (tcb k c)) \/
   exists x, x <> m /\ owner k x = Some c /\ (p = ceiling_prio_ (mtx k x) \/ p = get_highest_waiter x k)).

Lemma detach_entitled m c b k H :
  kernel_ok k -> locks_inv' (Some m) k H -> owner k m = Some c ->
  entitled_without m c (entitled_prio c (detach m (Some c) b k)) k.
Proof.
  intros Hk HI Ho. pose proof (lk_owner _ _ HI m c Ho) as Hc.
  pose proof (detach_inv (Some m) m c b k H HI ltac:(by right) (kernel_ok_sched k Hk) Hc Ho) as HI'.
  destruct (detach_view m (Some c) b k) as [Hv Hf]. pose proof (detach_count m (Some c) b k) as Hcnt.
  set (k' := detach m (Some c) b k) in *. assert (Hc' : is_task k' c) by (unfold is_task; by rewrite Hcnt).
  pose proof (lk_list _ _ HI' c Hc') as Hseg. pose proof (held_length _ _ _ _ HI' Hc') as Hlen.
  cbv beta in Hseg, Hlen. rewrite decide_True in Hseg, Hlen by done.
  assert (Hprio : forall i, prio k' i = prio k i).
  { intros i. unfold prio. by apply (su_proj (fun t => current_priority (scheduler t)) i Hf). }
  assert (Hmask : forall x, mutex_wait_mask_ (mtx k' x) = mutex_wait_mask_ (mtx k x) /\ ceiling_prio_ (mtx k' x) = ceiling_prio_ (mtx k x)).
  { intros x. specialize (Hv x). unfold mask_view in Hv. by injection Hv. }
  assert (Hghw : forall x, get_highest_waiter x k' = get_highest_waiter x k).
  { intros x. apply get_highest_waiter_ext; [done|apply Hmask|done]. }
  assert (Hmem : forall x, x ∈ del m (H c) <-> x <> m /\ owner k x = Some c).
  { intros x. rewrite elem_of_del, (lk_mem _ _ HI c x Hc). tauto. }
  destruct (held_max_bounds (held_fuel k') (held k' c) _ (base_priority (scheduler (tcb k' c))) k' Hseg Hlen) as (H1 & H2 & H3).
  unfold entitled_prio. set (p := held_max _ _ _ k') in *.
  rewrite (su_proj (fun t => base_priority (scheduler t)) c Hf) in H1, H3 by done. split; [done|]. split.
  - intros x Hx Hox. destruct (Hmask x) as [_ <-]. rewrite <- Hghw. apply H2. by apply Hmem.
  - destruct H3 as [->|(x & Hx & E)]; [by left|]. right. exists x. apply Hmem in Hx as [Hx Hox].
    destruct (Hmask x) as [_ Ec]. by rewrite Ec, Hghw in E.
Qed.

Lemma entitled_without_ext m c p k k' :
  task_count k' = task_count k -> tasks k' = tasks k -> (forall x, owner k' x = owner k x) ->
  (forall x, mask_view (mtx k' x) = mask_view (mtx k x)) -> entitled_without m c p k' -> entitled_without m c p k.
Proof.
  intros Hc Ht Ho Hm (H1 & H2 & H3). assert (Htcb : forall i, tcb k' i = tcb k i) by (intros; unfold tcb; by rewrite Ht).
  assert (Hceil : forall x, ceiling_prio_ (mtx k' x) = ceiling_prio_ (mtx k x)).
  { intros x. specialize (Hm x). unfold mask_view in Hm. by injection Hm. }
  assert (Hghw : forall x, get_highest_waiter x k' = get_highest_waiter x k).
  { intros x. apply get_highest_waiter_ext; [done| |intros; unfold prio; by rewrite Htcb].
    specialize (Hm x). unfold mask_view in Hm. by injection Hm. }
  rewrite Htcb in H1, H3. split; [done|]. split.
  - intros x Hx Hox. rewrite <- Hceil, <- Hghw. apply H2; [done|by rewrite Ho].
  - destruct H3 as [?|(x & Hx & Hox & E)]; [by left|]. right. exists x. by rewrite <- Ho, <- Hceil, <- Hghw.
Qed.

(** Releasing a mutex of a running task [c]. *)
Lemma release_spec m c b k H :
  kernel_ok k -> locks_inv' (Some m) k H -> owner k m = Some c -> waits k c = None -> sem_blocked (tcb k c) = false ->
  let k' := release_mutex m (Some c) b k in
  locked_ (mtx k' m) = false /\ entitled_without m c (prio k' c) k /\
  forall w, waiter k (mutex_wait_mask_ (mtx k m)) w ->
  exists b, waiter k (mutex_wait_mask_ (mtx k m)) b /\ prio k w <= prio k b /\
    sched_state (scheduler (tcb k' b)) = Ready /\ bit_test (mutex_wait_mask_ (mtx k' m)) b = false.
Proof.
  intros Hk HI Ho Hw Hrun. pose proof (lk_owner _ _ HI m c Ho) as Hc. unfold release_mutex. cbv zeta.
  pose proof (detach_entitled m c b k H Hk HI Ho) as He.
  pose proof (detach_inv (Some m) m c b k H HI ltac:(by right) (kernel_ok_sched k Hk) Hc Ho) as HI1.
  destruct (detach_view m (Some c) b k) as [Hv Hf]. pose proof (detach_count m (Some c) b k) as Hcnt.
  pose proof (detach_ok m (Some c) b k Hk) as Hk1. pose proof (sw_detach m (Some c) b k c) as Hw1.
  assert (Hl1 : locked_ (mtx (detach m (Some c) b k) m) = false).
  { unfold detach. cbv zeta. destruct b; rewrite ?mtx_upd_mtx, ?decide_True by done; cbn; rewrite ?mtx_upd_mtx, ?decide_True by done; done. }
  set (k1 := detach m (Some c) b k) in *. assert (Hc1 : is_task k1 c) by (unfold is_task; by rewrite Hcnt).
  rewrite (recalculate_chain_top c k1) by (done || congruence || by split; [|eexists]). set (p := entitled_prio c k1) in *.
  set (k2 := set_task_priority c p k1).
  assert (Hp : is_prio p) by (apply entitled_prio_ok; [done|by eapply locks_wf_of|done]).
  assert (Hk2 : kernel_ok k2) by (apply kernel_ok_set_priority; [apply Hc|done|done]).
  assert (Hp2 : forall i, prio k2 i = if decide (i = c) then p else prio k i).
  { intros i. unfold prio, k2. rewrite set_task_priority_prio by (done || by apply kernel_ok_sched). case_decide; [done|].
    by apply (su_proj (fun t => current_priority (scheduler t)) i Hf). }
  assert (Hst : forall i, sched_state (scheduler (tcb k2 i)) = sched_state (scheduler (tcb k i))).
  { intros i. unfold k2. rewrite (su_proj (fun t => sched_state (scheduler t)) i (set_task_priority_frame c p k1)) by done.
    by apply (su_proj (fun t => sched_state (scheduler t)) i Hf). }
  assert (Hc2 : task_count k2 = task_count k) by (unfold k2; by rewrite count_set_task_priority).
  assert (Hm2 : mtx k2 m = mtx k1 m) by (unfold mtx, k2; by rewrite (su_env_proj mutexes (set_task_priority_frame c p k1))).
  assert (Emask : mutex_wait_mask_ (mtx k2 m) = mutex_wait_mask_ (mtx k m)).
  { rewrite Hm2. specialize (Hv m). unfold mask_view in Hv. by injection Hv. }
  destruct (wake_spec m k2 Hk2) as [Hpw Hwake]. rewrite Emask in Hwake. split_and!.
  - pose proof (sl_wake m k2) as (_ & Hlv & _). specialize (Hlv m). unfold lock_view in Hlv. rewrite Hm2 in Hlv. congruence.
  - by rewrite Hpw, Hp2, decide_True.
  - assert (Hne : forall i, waiter k (mutex_wait_mask_ (mtx k m)) i -> prio k2 i = prio k i).
    { intros i (_ & _ & Hb). rewrite Hp2, decide_False; [done|]. intros ->. congruence. }
    intros w Hww. destruct (Hwake w) as (x & Hx & Hle & Hr & Hbit); [by apply (waiter_ext k)|].
    apply (waiter_ext k) in Hx; [|done|done]. exists x. rewrite !Hne in Hle by done. done.
Qed.

(** * A small history *)

Definition run_as (c : Z) (k : Kernel) : Kernel := set_g_current_tcb_ptr (Some c) k.

Lemma switch_step c k : kernel_ok k -> is_task k c -> mstep k (run_as c k).
Proof.
  intros Hk Hc. apply mu_other; [|by split_and!|done]. apply (kernel_ok_env k); try done. split; [by intros ? [= <-]|].
  apply (ko_cur _ Hk).
Qed.

(** Task 0 holds mutex 10 and waits for mutex 11, which the running task 1 holds. *)
Definition demo_locks : Kernel :=
  run_as 1 (lock_enter 11 (run_as 0 (lock_enter 11 (run_as 1 (lock_enter 10 (run_as 0 demo)).2)).2)).2.

Lemma no_mutexes_ok : mutex_state demo /\ no_deadlock demo.
Proof.
  split; [split; [apply demo_kernel_ok|]|].
  - exists (fun _ => []). assert (Hm : forall m, mtx demo m = inhabitant) by by intros m; vm_compute.
    split; unfold owner; intros *; rewrite ?Hm; try done.
    + intros [H0 H1]. unfold held. assert (t = 0 \/ t = 1 \/ t = 2) as [->|[->| ->]] by (change (t < 3) in H1; lia); by vm_compute.
    + intros _. apply NoDup_nil_2.
    + intros _. split; [set_solver|done].
  - intros t n. rewrite chain_S. cbn [mbind option_bind]. assert (blocks_on demo t = None) as ->; [|by rewrite chain_None].
    unfold blocks_on. destruct (waits demo t) as [m|]; [|done]. cbn [mbind option_bind]. by vm_compute.
Qed.

Lemma demo_locks_steps : rtc mstep demo demo_locks.
Proof.
  pose proof no_mutexes_ok as [H0 _]. unfold demo_locks.
  assert (E : forall c m k, mutex_state k -> is_task k c -> waits k c = None ->
    recursive_count_ (mtx k m) < u32_max -> rtc mstep k (lock_enter m (run_as c k)).2 /\
    mutex_state (lock_enter m (run_as c k)).2).
  { intros c m k Hk Hc Hw Hr. pose proof (switch_step c k (ms_kernel _ Hk) Hc) as H1.
    pose proof (mstep_state _ _ Hk H1) as Hk1. assert (H2 : mstep (run_as c k) (lock_enter m (run_as c k)).2).
    { apply mu_enter; [by intros ? [= <-]|done]. }
    split; [by do 2 (eapply rtc_l; [eassumption|])|by eapply mstep_state]. }
  destruct (E 0 10 demo H0) as [R1 S1]; [by vm_compute..|]. set (k1 := (lock_enter 10 _).2) in *.
  destruct (E 1 11 k1 S1) as [R2 S2]; [by vm_compute..|]. set (k2 := (lock_enter 11 (run_as 1 k1)).2) in *.
  destruct (E 0 11 k2 S2) as [R3 S3]; [by vm_compute..|]. set (k3 := (lock_enter 11 (run_as 0 k2)).2) in *.
  etrans; [exact R1|]. etrans; [exact R2|]. etrans; [exact R3|]. apply rtc_once, switch_step; [apply S3|by vm_compute].
Qed.

(** * Claims *)

(** Whatever sequence of [lock], [unlock], [force_unlock] and [set_ceiling]
    steps runs, interleaved with anything that leaves the mutexes alone, the
    list of held mutexes of every task is exactly the duplicate-free list of
    the mutexes it owns, every owned mutex is locked with a recursion count of
    at least one, and the scheduler and IPC invariants hold. *)
Theorem mutex_lists_consistent k k' :
  mutex_state k -> no_deadlock k -> rtc mstep k k' ->
  kernel_ok k' /\ exists H, forall t, is_task k' t ->
    hseg (nxh k') (held k' t) (H t) /\ NoDup (H t) /\
    forall m, m ∈ H t <-> owner k' m = Some t /\ locked_ (mtx k' m) = true /\ 1 <= recursive_count_ (mtx k' m).
Proof.
  intros Hk Hn Hr. destruct (msteps k k' Hk Hn Hr) as [[Hk' [H HI]] _]. split; [done|]. exists H. intros t Ht.
  split; [by apply HI|]. split; [by apply HI|]. intros m. rewrite (lk_mem _ _ HI t m Ht). split; [|by intros [? _]].
  intros Ho. split; [done|]. split; [by eapply HI|]. by eapply (lk_count _ _ HI).
Qed.

(** C24: Mutexes cannot deadlock: no sequence of mutex operations makes a task
    wait, through any chain of owners and their waits, for itself. *)
Theorem wait_graph_acyclic k k' :
  mutex_state k -> no_deadlock k -> rtc mstep k k' -> forall t n, chain k' (S n) (Some t) <> Some t.
Proof. intros Hk Hn Hr. by destruct (msteps k k' Hk Hn Hr). Qed.

Lemma wait_graph_acyclic_witness :
  chain demo_locks 1 (Some 0) = Some 1 /\ forall t n, chain demo_locks (S n) (Some t) <> Some t.
Proof.
  split; [by vm_compute|]. apply (wait_graph_acyclic demo demo_locks); [apply no_mutexes_ok..|apply demo_locks_steps].
Defined.

(** C38: [lock] on a mutex held by another task, in a state that satisfies the mutex
    and kernel invariants, refuses with EDEADLK exactly when the owner waits, directly
    or through other owners, for the caller (the search is cut off after 16 steps,
    which is never too early); otherwise the caller is recorded as a waiter. *)
Theorem deadlock_detection_exact m c k r k' :
  mutex_state k -> g_current_tcb_ptr k = Some c -> locked_ (mtx k m) = true -> owned_by k m (Some c) = false ->
  lock_enter m k = (r, k') ->
  (r = Some false <-> exists n, chain k n (owner k m) = Some c) /\
  (r = Some false -> errno_val (task (tcb k' c)) = EDEADLK /\ waits k' c = waits k c) /\
  (r <> Some false -> r = None /\ waits k' c = Some m).
Proof.
  intros Hs Hcur Hl Ho. unfold lock_enter. cbv zeta. rewrite Hl, Hcur, Ho. cbn [negb].
  pose proof (check_deadlock_spec c m k (mutex_owners k Hs)) as Hd.
  assert (Hc : is_task k c) by by apply (proj1 (ko_cur _ (ms_kernel _ Hs))).
  assert (Hv : valid_task k c) by by apply (sched_ok_valid k); [apply kernel_ok_sched, Hs|].
  destruct (check_deadlock c m k).
  - intros [= <- <-]. split; [by rewrite <- Hd|]. split; [|done]. intros _. unfold waits.
    by rewrite !tcb_upd_eq.
  - intros [= <- <-]. split; [split; [done|intros Hn%Hd; done]|]. split; [done|]. intros _. split; [done|].
    set (k1 := upd c _ k). set (k2 := upd_mtx m _ k1).
    assert (E : waits k2 c = Some m) by (change (waits k1 c = Some m); unfold waits, k1; by rewrite tcb_upd_eq).
    destruct (owner k2 m); [|done]. destruct (_ <? _); [|done]. by rewrite (sw_propagate_priority c k2).
Qed.

Lemma demo_locks_state : mutex_state demo_locks.
Proof. destruct no_mutexes_ok. by apply (msteps demo demo_locks); [| |apply demo_locks_steps]. Qed.

(** Task 0 holds mutex 10 and waits for 11, which the running task 1 holds. *)
Lemma deadlock_detection_exact_witness :
  (lock_enter 10 demo_locks).1 = Some false /\ errno_val (task (tcb (lock_enter 10 demo_locks).2 1)) = EDEADLK.
Proof.
  destruct (deadlock_detection_exact 10 1 demo_locks (lock_enter 10 demo_locks).1 (lock_enter 10 demo_locks).2) as (H1 & H2 & _).
  - apply demo_locks_state.
  - vm_compute. reflexivity.
  - vm_compute. reflexivity.
  - vm_compute. reflexivity.
  - apply surjective_pairing.
  - assert (E : (lock_enter 10 demo_locks).1 = Some false) by (apply H1; exists 1%nat; vm_compute; reflexivity).
    split; [exact E|]. by apply H2.
Defined.

(** When the running task gives up its last hold on a mutex, the mutex is
    free; the task's priority becomes exactly the maximum of its base priority,
    the ceilings of the mutexes it still owns and the priorities of their
    waiters; and if tasks are blocked on the mutex, one of the highest priority
    among them becomes ready and leaves the wait set. *)
Theorem unlock_restores_and_wakes m c k r k' :
  mutex_state k -> g_current_tcb_ptr k = Some c -> sem_blocked (tcb k c) = false -> waits k c = None ->
  owner k m = Some c -> recursive_count_ (mtx k m) = 1 -> unlock_core m k = (r, k') ->
  r = true /\ locked_ (mtx k' m) = false /\ owner k' m = None /\
  entitled_without m c (prio k' c) k /\
  (forall w, waiter k (mutex_wait_mask_ (mtx k m)) w ->
   exists b, waiter k (mutex_wait_mask_ (mtx k m)) b /\ prio k w <= prio k b /\
     sched_state (scheduler (tcb k' b)) = Ready /\ bit_test (mutex_wait_mask_ (mtx k' m)) b = false).
Proof.
  intros Hs Hcur Hrun Hw Ho Hr. pose proof Hs as [Hk [H HI]]. pose proof (lk_owner _ _ HI m c Ho) as Hc.
  pose proof (lk_locked _ _ HI m c Ho) as Hl. unfold unlock_core. cbv zeta. rewrite Hl, Hcur, Ho.
  unfold same_owner. rewrite bool_decide_true by done. cbn [andb]. set (k1 := upd_mtx m _ k).
  assert (E1 : recursive_count_ (mtx k1 m) = 0) by (unfold k1; rewrite mtx_upd_mtx, decide_True by done; cbn; by rewrite Hr).
  rewrite E1. cbn [Z.eqb]. intros [= <- <-]. split; [done|].
  assert (Hk1 : kernel_ok k1) by by apply upd_mtx_ok.
  assert (HI1 : locks_inv' (Some m) k1 H) by (apply (set_count_inv (Some m) m (fun n => wrap32 (n - 1))); [done|by left]).
  assert (Ho1 : forall x, owner k1 x = owner k x) by (intros x; unfold k1; rewrite owner_upd_mtx; case_decide; by subst).
  assert (Hm1 : forall x, mask_view (mtx k1 x) = mask_view (mtx k x)).
  { intros x. unfold k1. rewrite mtx_upd_mtx. by case_decide. }
  pose proof (release_spec m c false k1 H Hk1 HI1 ltac:(by rewrite Ho1) Hw Hrun) as (Hf & He & Hwake).
  rewrite owner_release, decide_True by done. split; [done|]. split; [done|]. split.
  - revert He. apply entitled_without_ext; [done|done|done|done].
  - intros w. assert (E : mutex_wait_mask_ (mtx k1 m) = mutex_wait_mask_ (mtx k m)).
    { specialize (Hm1 m). unfold mask_view in Hm1. by injection Hm1. }
    rewrite <- E. apply Hwake.
Qed.

