(* ===== verification/TimerClaims.v ===== *)
(** Theorems on the timers (kernel/interrupt/timer.hpp,
    kernel/core/process_timer.cpp), semaphores (kernel/core/semaphore.cpp) and
    notifications (kernel/task/task_notify.hpp). *)
From S2P Require Import Prelude Kernel ReadyQueue WaitQueue Endpoint Mpu TaskTable IpcSpec Scheduler Preserve System Sync Timers.

(** * The timer daemon *)

Lemma lag_le tick t : 0 <= tick -> timer_fits tick t -> lag tick t <= tick + 1.
Proof.
  intros H0 [He Hp]. unfold lag. destruct (Soft.expired tick t) eqn:E; [|lia].
  unfold Soft.expired in E. apply andb_true_iff in E as [_ Hd]. apply Z.leb_le in Hd.
  destruct (st_type t); [lia|]. destruct (Hp eq_refl) as [Hpos _].
  assert ((tick - st_expire_tick t) / st_period_ticks t <= tick - st_expire_tick t); [|lia].
  apply Z.div_le_upper_bound; [done|]. nia.
Qed.

(** C36: The timer daemon does not spin behind a backlog: when callbacks start and stop
    no timer and no tick passes while they run, every periodic timer has a non-zero
    period and its next deadline fits in 32 bits, the daemon's inner loop ends
    (within [tick + 2] scans), and afterwards no timer is expired, however far
    behind the timers were.  A callback that lasts as long as the period keeps the loop
    running: [slow_callback_spins]. *)
Theorem timer_daemon_terminates callback k :
  (forall h arg k, timer_mgr (callback h arg k) = timer_mgr k) ->
  length (timers_ (timer_mgr k)) = 8%nat -> is_u32 (get_current_tick k) ->
  (forall i, 0 <= i < Soft.MAX_TIMERS -> timer_fits (get_current_tick k) (Soft.stimer k i)) ->
  exists k', Soft.daemon_run callback (Z.to_nat (get_current_tick k) + 2) k = Some k' /\
    forall i, 0 <= i < Soft.MAX_TIMERS -> Soft.expired (get_current_tick k) (Soft.stimer k' i) = false.
Proof.
  intros Hcb Hl [H0 _] Hf. destruct (daemon_run_spec callback Hcb (Z.to_nat (get_current_tick k) + 1) k Hl H0) as (k' & Hr & _ & He).
  - intros i Hi. split; [by apply Hf|]. pose proof (lag_le _ _ H0 (Hf i Hi)). lia.
  - exists k'. split; [|done]. by replace (Z.to_nat (get_current_tick k) + 2)%nat with (S (Z.to_nat (get_current_tick k) + 1)) by lia.
Qed.

(** A periodic timer of period 10 due since tick 3, at tick 25. *)
Definition demo_timers (period : Z) : Kernel :=
  set_timer_mgr (mkTimerManager (mkSoftwareTimer true Periodic 3 period 100 0 :: repeat inhabitant 7) inhabitant 25) demo.

Definition no_callback (h arg : Z) (k : Kernel) : Kernel := k.

Lemma timer_daemon_terminates_witness :
  exists k', Soft.daemon_run no_callback (Z.to_nat 25 + 2) (demo_timers 10) = Some k' /\
    forall i, 0 <= i < Soft.MAX_TIMERS -> Soft.expired 25 (Soft.stimer k' i) = false.
Proof.
  apply (timer_daemon_terminates no_callback (demo_timers 10)); [done|done|done|].
  intros i Hi. unfold Soft.MAX_TIMERS in Hi.
  assert (i = 0 \/ i = 1 \/ i = 2 \/ i = 3 \/ i = 4 \/ i = 5 \/ i = 6 \/ i = 7) as Hc by lia.
  repeat destruct Hc as [->|Hc]; subst; split; vm_compute; done.
Defined.

(** A callback during which one tick passes. *)
Definition one_tick_callback (h arg : Z) (k : Kernel) : Kernel :=
  set_timer_mgr (set_current_tick_ (get_current_tick k + 1) (timer_mgr k)) k.

(** With a timer of period 1 and a callback that lasts one tick every scan finds the timer
    expired again: after 1000 scans the daemon is still in its inner loop. *)
Theorem slow_callback_spins : Soft.daemon_run one_tick_callback 1000 (demo_timers 1) = None.
Proof. by vm_compute. Qed.

(** A periodic software timer started with period 0 makes the daemon spin
    for ever: its deadline never moves past the current tick. *)
Theorem zero_period_spins callback k i fuel :
  (forall h arg k, timer_mgr (callback h arg k) = timer_mgr k) ->
  length (timers_ (timer_mgr k)) = 8%nat -> 0 <= i < Soft.MAX_TIMERS ->
  Soft.expired (get_current_tick k) (Soft.stimer k i) = true ->
  st_type (Soft.stimer k i) = Periodic -> st_period_ticks (Soft.stimer k i) = 0 ->
  is_u32 (st_expire_tick (Soft.stimer k i)) ->
  Soft.daemon_run callback fuel k = None.
Proof.
  intros Hcb Hl Hi He Ht Hp Hu. revert k Hl He Ht Hp Hu. induction fuel as [|fuel IH]; intros k Hl He Ht Hp Hu; [done|].
  cbn [Soft.daemon_run]. pose proof (daemon_scan_spec callback Hcb k Hl) as Hs.
  destruct (Soft.daemon_scan callback k) as [b k1]. destruct Hs as (Hb & Hk1 & Hl1 & Ht1).
  assert (Ef : fire (get_current_tick k) (Soft.stimer k i) = Soft.stimer k i).
  { unfold fire. rewrite He, Ht, Hp, Z.add_0_r, wrap32_small by done. by destruct (Soft.stimer k i). }
  assert (b = true) as ->.
  { rewrite Hb. apply existsb_exists. exists i. split; [apply list_elem_of_In, elem_of_seqZ; lia|].
    unfold rescan. by rewrite Ef, He, orb_true_r. }
  apply IH; rewrite ?Ht1, ?(Hk1 i Hi), ?Ef; done.
Qed.

(** * Process timers *)

(** The next deadline of a periodic timer fits in 32 bits. *)
Definition ptimer_fits (cur : Z) (t : ProcessTimer) : Prop :=
  0 <= pt_expire_tick t /\ 0 <= pt_period_ticks t /\ cur + pt_period_ticks t < 4294967296.

Lemma reload_not_due cur t : 0 <= cur -> ptimer_fits cur t -> Process.due cur (ticked cur t) = false.
Proof.
  intros H0 (He & Hp & Hf). unfold ticked. destruct (Process.due cur t) eqn:Hd; [|done].
  pose proof Hd as Hx. unfold Process.due in Hx. apply andb_true_iff in Hx as [_ Hle%Z.leb_le].
  unfold Process.reload. destruct (_ && _) eqn:Hper.
  - apply andb_true_iff in Hper as [_ Hpos%Z.ltb_lt]. cbv zeta. cbn [pt_expire_tick set_pt_expire_tick].
    rewrite (wrap32_small (pt_expire_tick t + _)) by (unfold is_u32; lia). unfold Process.due.
    destruct (Z.leb_spec (pt_expire_tick t + pt_period_ticks t) cur); cbn.
    + rewrite wrap32_small by (unfold is_u32; lia). apply andb_false_intro2, Z.leb_gt. lia.
    + by apply andb_false_intro2, Z.leb_gt.
  - unfold Process.due. cbn. by rewrite andb_false_r.
Qed.

(** One tick fires exactly the due process timers and rearms them into the
    future: a timer that is not due is untouched, a due one-shot timer becomes
    inactive, a due periodic timer keeps its period, and afterwards no timer
    is due, even when several periods were missed. *)
Theorem process_tick_exact k j :
  length (ptimers_ k) = 16%nat -> 0 <= j < Process.MAX_TIMERS -> is_u32 (get_current_tick k) ->
  ptimer_fits (get_current_tick k) (Process.ptimer k j) ->
  let cur := get_current_tick k in let t := Process.ptimer k j in let t' := Process.ptimer (Process.on_tick k) j in
  Process.due cur t' = false /\
  (Process.due cur t = false -> t' = t) /\
  (Process.due cur t = true -> pt_period_ticks t' = pt_period_ticks t /\ pt_owner_task_id t' = pt_owner_task_id t /\
     (Process.flag (pt_flags t) Process.Periodic = false -> pt_active t' = false) /\
     (Process.flag (pt_flags t) Process.Periodic = true -> 0 < pt_period_ticks t ->
        pt_active t' = true /\ cur < pt_expire_tick t' <= cur + pt_period_ticks t)).
Proof.
  intros Hl Hj [H0 _] Hf. cbv zeta. rewrite process_on_tick_spec by done.
  split; [by apply reload_not_due|]. split; [intros Hd; unfold ticked; by rewrite Hd|].
  intros Hd. unfold ticked. rewrite Hd. unfold Process.reload. set (t := Process.ptimer k j) in *.
  set (cur := get_current_tick k) in *. destruct Hf as (He & Hp & Hf).
  unfold Process.due in Hd. apply andb_true_iff in Hd as [Ha Hle%Z.leb_le]. apply andb_true_iff in Ha as [_ Ha].
  split_and!; try by (destruct (_ && _); [cbv zeta; destruct (_ <=? _)|]; done).
  - intros ->. done.
  - intros -> Hpos. rewrite (proj2 (Z.ltb_lt 0 (pt_period_ticks t))) by done. cbn [andb]. cbv zeta. cbn [pt_expire_tick set_pt_expire_tick].
    rewrite (wrap32_small (pt_expire_tick t + _)) by (unfold is_u32; lia).
    destruct (Z.leb_spec (pt_expire_tick t + pt_period_ticks t) cur); cbn; split; try done; [|lia].
    rewrite wrap32_small by (unfold is_u32; lia). lia.
Qed.

(** ** Ownership *)

(** The system calls on process timers made by task [o]. *)
Inductive timer_call (o : Z) (k : Kernel) : Kernel -> Prop :=
| tc_create d : timer_call o k (Process.create_timer (Some o) d k).2
| tc_start id d : 0 <= id -> timer_call o k (Process.start_timer (Some o) id d k).2
| tc_stop id : 0 <= id -> timer_call o k (Process.stop_timer (Some o) id k).2
| tc_delete id : 0 <= id -> timer_call o k (Process.delete_timer (Some o) id k).2
| tc_get id out : timer_call o k (Process.get_time (Some o) id out k).2.

Lemma ptimer_upd_ne i f k j : i <> j -> Process.ptimer (Process.upd_pt i f k) j = Process.ptimer k j.
Proof. intros Hne. unfold Process.ptimer, Process.upd_pt. cbn. by apply zlookup_zalter_ne. Qed.

Lemma owns_ne k o id j :
  Process.owns k o id = true -> pt_owner_task_id (Process.ptimer k j) <> sched_id (scheduler (tcb k o)) -> id <> j.
Proof. unfold Process.owns. intros [_ H%Z.eqb_eq]%andb_true_iff Hne ->. by apply Hne. Qed.

(** A call leaves a timer of another task, and the task ids, alone. *)
Lemma timer_call_frame o k k' j :
  timer_call o k k' -> pt_allocated (Process.ptimer k j) = true ->
  pt_owner_task_id (Process.ptimer k j) <> sched_id (scheduler (tcb k o)) ->
  Process.ptimer k' j = Process.ptimer k j /\ tasks k' = tasks k.
Proof.
  intros Hc Ha Hne. destruct Hc as [d|id d H0|id H0|id H0|id out]; cbn [Process.create_timer Process.start_timer Process.stop_timer
    Process.delete_timer Process.get_time].
  - destruct d as [d|]; [|done]. destruct (List.find _ _) as [i|] eqn:Hf; [|done]. cbn [snd].
    apply find_some in Hf as [_ Hf]. apply negb_true_iff in Hf. split; [|done]. apply ptimer_upd_ne. intros ->. congruence.
  - destruct (_ || _) eqn:E; [done|]. apply orb_false_iff in E as [_ Ho%negb_false_iff]. cbv zeta. cbn [snd].
    pose proof (owns_ne k o id j Ho Hne) as Hij. destruct d; split; try done; by rewrite !ptimer_upd_ne.
  - destruct (_ || _) eqn:E; [done|]. apply orb_false_iff in E as [_ Ho%negb_false_iff]. cbn [snd].
    split; [|done]. apply ptimer_upd_ne. by eapply owns_ne.
  - destruct (_ || _) eqn:E; [done|]. apply orb_false_iff in E as [_ Ho%negb_false_iff]. cbn [snd].
    split; [|done]. apply ptimer_upd_ne. by eapply owns_ne.
  - by destruct (_ || _).
Qed.

(** Timers are private: no sequence of timer system calls by other tasks
    starts, stops, changes, frees or reuses a timer that a task has allocated. *)
Theorem timer_isolation k k' j :
  pt_allocated (Process.ptimer k j) = true ->
  rtc (fun a b => exists o, sched_id (scheduler (tcb k o)) <> pt_owner_task_id (Process.ptimer k j) /\ timer_call o a b) k k' ->
  Process.ptimer k' j = Process.ptimer k j.
Proof.
  intros Ha Hr. assert (H : forall a b, rtc (fun a b => exists o,
      sched_id (scheduler (tcb k o)) <> pt_owner_task_id (Process.ptimer k j) /\ timer_call o a b) a b ->
    Process.ptimer a j = Process.ptimer k j -> tasks a = tasks k -> Process.ptimer b j = Process.ptimer k j); [|by apply (H k k')].
  intros a b Hab. induction Hab as [|a b c (o & Hne & Hc) _ IH]; [done|]. intros Ep Et.
  assert (Ho : tcb a o = tcb k o) by (unfold tcb; by rewrite Et).
  destruct (timer_call_frame o a b j Hc) as [E1 E2]; [by rewrite Ep|rewrite Ep, Ho; congruence|].
  apply IH; congruence.
Qed.

(** ** Milliseconds and ticks *)

(** The conversion of a delay to ticks is exact up to 4294966 ms (about 71
    minutes); every longer delay is shortened, because the product is computed
    in 32 bits (4294968 ms become 1 tick). *)
Theorem ms_to_ticks_range ms :
  is_u32 ms ->
  (ms <= 4294966 -> Process.ms_to_ticks ms = ms) /\
  (4294967 < ms -> 0 < Process.ms_to_ticks ms <= 4294967 /\ Process.ms_to_ticks ms < ms).
Proof.
  intros [H0 H1]. unfold Process.ms_to_ticks, TICK_RATE_HZ. split; intros Hm.
  - destruct (Z.eqb_spec ms 0) as [->|Hne]; [done|]. cbv zeta.
    rewrite (wrap32_small (ms * 1000)) by (unfold is_u32; lia).
    assert (E : wrap32 (ms * 1000 + 999) / 1000 = ms).
    { rewrite wrap32_small by (unfold is_u32; lia). symmetry. apply Z.div_unique with 999; lia. }
    rewrite E. by destruct (Z.eqb_spec ms 0).
  - destruct (Z.eqb_spec ms 0) as [->|_]; [lia|]. cbv zeta. set (x := wrap32 (_ + 999)).
    pose proof (wrap32_range (wrap32 (ms * 1000) + 999)) as Hx. fold x in Hx. destruct Hx as [Hx0 Hx1].
    assert (0 <= x / 1000 <= 4294967).
    { split; [by apply Z.div_pos|]. apply Z.lt_succ_r, Z.div_lt_upper_bound; lia. }
    destruct (Z.eqb_spec (x / 1000) 0); lia.
Qed.

(** ** Skipping ticks *)

Lemma foldl_min {A} (g : A -> option Z) l m :
  let r := foldl (fun m i => match g i with Some v => if v <? m then v else m | None => m end) m l in
  r <= m /\ (forall i v, i ∈ l -> g i = Some v -> r <= v) /\ (r = m \/ exists i, i ∈ l /\ g i = Some r).
Proof.
  revert m. induction l as [|i l IH]; intros m; cbn [foldl].
  - cbv zeta. split; [lia|]. split; [set_solver|by left].
  - set (m' := match g i with Some v => _ | None => m end). destruct (IH m') as (H1 & H2 & H3).
    set (r := foldl _ m' l) in *. cbv zeta.
    assert (Hm : m' <= m /\ (forall v, g i = Some v -> m' <= v) /\ (m' = m \/ g i = Some m')).
    { unfold m'. destruct (g i) as [v|]; [|split; [lia|]; split; [done|by left]].
      destruct (Z.ltb_spec v m); (split; [lia|]); split; try (intros ? [= <-]; lia); auto. }
    destruct Hm as (M1 & M2 & M3). split; [lia|]. split.
    + intros j v [->|Hj]%elem_of_cons Hv; [specialize (M2 v Hv); lia|by apply (H2 j)].
    + destruct H3 as [H3|(j & Hj & Hv)]; [|right; exists j; split; [set_solver|done]].
      destruct M3 as [M3|M3]; [left; congruence|]. right. exists i. split; [set_solver|congruence].
Qed.

(** The ticks left of an armed timer. *)
Definition soft_left (k : Kernel) (i : Z) : option Z :=
  let t := Soft.stimer k i in
  if st_active t then
    Some (if get_current_tick k <? st_expire_tick t then st_expire_tick t - get_current_tick k else 0)
  else None.
Definition process_left (k : Kernel) (i : Z) : option Z :=
  let t := Process.ptimer k i in
  if pt_allocated t && pt_active t then Some (Process.remaining (get_current_tick k) t) else None.

Lemma process_next_spec k :
  let r := Process.get_next_expire_ticks k in
  r <= u32_max /\ (forall i v, i ∈ Process.timer_slots -> process_left k i = Some v -> r <= v) /\
  (r = u32_max \/ exists i, i ∈ Process.timer_slots /\ process_left k i = Some r).
Proof.
  pose proof (foldl_min (process_left k) Process.timer_slots u32_max) as H.
  assert (E : foldl (fun m i => match process_left k i with Some v => if v <? m then v else m | None => m end) u32_max Process.timer_slots =
    Process.get_next_expire_ticks k); [|by rewrite E in H].
  unfold Process.get_next_expire_ticks. generalize Process.timer_slots u32_max.
  intros l. induction l as [|i l IH]; intros m; [done|].
  cbn [foldl]. rewrite IH. f_equal. unfold process_left. cbv zeta. by destruct (_ && _).
Qed.

Lemma soft_next_spec k :
  let r := Soft.get_next_expire_ticks k in
  (forall i v, i ∈ Soft.timer_slots -> soft_left k i = Some v -> r <= v) /\
  (forall i v, i ∈ Process.timer_slots -> process_left k i = Some v -> r <= v) /\
  (r = u32_max \/ (exists i, i ∈ Soft.timer_slots /\ soft_left k i = Some r) \/
   exists i, i ∈ Process.timer_slots /\ process_left k i = Some r).
Proof.
  pose proof (foldl_min (soft_left k) Soft.timer_slots u32_max) as H.
  set (s := foldl _ u32_max Soft.timer_slots) in *.
  assert (E : Soft.get_next_expire_ticks k = let p := Process.get_next_expire_ticks k in if p <? s then p else s).
  { unfold Soft.get_next_expire_ticks. cbv zeta. set (s' := foldl _ u32_max Soft.timer_slots).
    assert (s' = s) as ->; [|done]. unfold s', s. clear. generalize Soft.timer_slots u32_max.
    intros l. induction l as [|i l IH]; intros m; [done|]. cbn [foldl]. rewrite IH. f_equal.
    unfold soft_left. cbv zeta. by destruct (st_active _). }
  rewrite E. cbv zeta. destruct H as (S1 & S2 & S3). destruct (process_next_spec k) as (P1 & P2 & P3).
  set (p := Process.get_next_expire_ticks k) in *. destruct (Z.ltb_spec p s).
  - split; [intros i v Hi Hv; specialize (S2 i v Hi Hv); lia|]. split; [done|]. destruct P3; auto.
  - split; [done|]. split; [intros i v Hi Hv; specialize (P2 i v Hi Hv); lia|]. destruct S3; auto.
Qed.

(** Tickless idle misses no deadline and does not wake for nothing: while
    fewer ticks pass than [get_next_expire_ticks] reports, no software or
    process timer becomes due, and when exactly that many have passed (and the
    answer is not "never") some timer is due. *)
Theorem next_expiry_exact k n :
  is_u32 (get_current_tick k) -> 0 <= n ->
  let due_at n := (exists i, 0 <= i < Soft.MAX_TIMERS /\ Soft.expired (get_current_tick k + n) (Soft.stimer k i) = true) \/
                  (exists i, 0 <= i < Process.MAX_TIMERS /\ Process.due (get_current_tick k + n) (Process.ptimer k i) = true) in
  (n < Soft.get_next_expire_ticks k -> due_at n -> False) /\
  (n = Soft.get_next_expire_ticks k -> n <> u32_max -> due_at n).
Proof.
  intros [H0 _] Hn. cbv zeta. destruct (soft_next_spec k) as (HS & HP & HE). set (r := Soft.get_next_expire_ticks k) in *.
  set (cur := get_current_tick k) in *. split.
  - intros Hlt [(i & Hi & He)|(i & Hi & He)].
    + unfold Soft.expired in He. apply andb_true_iff in He as [Ha Hle%Z.leb_le].
      assert (Hin : i ∈ Soft.timer_slots) by (apply elem_of_seqZ; lia).
      assert (E : exists v, soft_left k i = Some v /\ v <= n).
      { unfold soft_left. cbv zeta. rewrite Ha. eexists. split; [done|]. fold cur.
        destruct (Z.ltb_spec cur (st_expire_tick (Soft.stimer k i))); lia. }
      destruct E as (v & Ev & Hv). specialize (HS i v Hin Ev). lia.
    + unfold Process.due in He. apply andb_true_iff in He as [Ha Hle%Z.leb_le].
      assert (Hin : i ∈ Process.timer_slots) by (apply elem_of_seqZ; lia).
      assert (E : exists v, process_left k i = Some v /\ v <= n).
      { unfold process_left. cbv zeta. rewrite Ha. eexists. split; [done|]. unfold Process.remaining. fold cur.
        destruct (Z.ltb_spec cur (pt_expire_tick (Process.ptimer k i))); lia. }
      destruct E as (v & Ev & Hv). specialize (HP i v Hin Ev). lia.
  - intros -> Hne. destruct HE as [?|[(i & Hi & Ev)|(i & Hi & Ev)]]; [done|left|right]; exists i.
    + apply elem_of_seqZ in Hi. split; [lia|]. unfold soft_left in Ev. cbv zeta in Ev. unfold Soft.expired.
      destruct (st_active _); [|done]. injection Ev as Ev. apply Z.leb_le. fold cur in Ev.
      destruct (Z.ltb_spec cur (st_expire_tick (Soft.stimer k i))); lia.
    + apply elem_of_seqZ in Hi. split; [lia|]. unfold process_left in Ev. cbv zeta in Ev. unfold Process.due.
      destruct (_ && _); [|done]. injection Ev as Ev. apply Z.leb_le. unfold Process.remaining in Ev. fold cur in Ev.
      destruct (Z.ltb_spec cur (pt_expire_tick (Process.ptimer k i))); lia.
Qed.

(** * Semaphores *)

Section SemaphoreTrace.
Context (run_handler : Z -> Z -> Kernel -> Kernel).

(** One operation on a semaphore, with the number of units it adds; other
    kernel activity may happen in between. *)
Inductive sem_step : Semaphore * Kernel -> Z -> Semaphore * Kernel -> Prop :=
| ss_signal s k : sem_step (s, k) 1 (sem_signal run_handler s k)
| ss_wait timeout start s k r s' k' :
    sem_wait run_handler timeout start s k = (r, s', k') ->
    sem_step (s, k) (if bool_decide (r = Some true) then -1 else 0) (s', k')
| ss_try s k b s' : try_wait s = (b, s') -> sem_step (s, k) (if b then -1 else 0) (s', k)
| ss_other s k k' : sem_step (s, k) 0 (s, k').

Inductive sem_trace : Semaphore * Kernel -> list Z -> Semaphore * Kernel -> Prop :=
| sr_nil x : sem_trace x [] x
| sr_cons x d y l z : sem_step x d y -> sem_trace y l z -> sem_trace x (d :: l) z.

Lemma sem_signal_count s k : count_ (sem_signal run_handler s k).1 = count_ s + 1.
Proof. unfold sem_signal. cbv zeta. destruct (_ =? 0); [done|]. by destruct (best_waiter _ _). Qed.

Lemma sem_acquire_count o s : count_ (sem_acquire o s) = count_ s - 1.
Proof. by destruct o. Qed.

Lemma sem_wait_count timeout start s k r s' k' :
  sem_wait run_handler timeout start s k = (r, s', k') ->
  if bool_decide (r = Some true) then 0 < count_ s /\ count_ s' = count_ s - 1 else count_ s' = count_ s.
Proof.
  unfold sem_wait, sem_wait_pass. destruct (g_current_tcb_ptr k) as [c|].
  - cbv zeta. destruct (Z.ltb_spec 0 (count_ s)); [by intros [= <- <- <-]|].
    destruct (_ && _); [by intros [= <- <- <-]|]. destruct (negb _); by intros [= <- <- <-].
  - destruct (Z.ltb_spec 0 (count_ s)); by intros [= <- <- <-].
Qed.

Lemma sem_step_count x d y : sem_step x d y -> count_ y.1 = count_ x.1 + d /\ (0 <= count_ x.1 -> 0 <= count_ y.1).
Proof.
  intros [s k|timeout start s k r s' k' H|s k b s' H|s k k']; cbn [fst].
  - rewrite sem_signal_count. lia.
  - apply sem_wait_count in H. destruct (bool_decide _); lia.
  - unfold try_wait in H. destruct (Z.ltb_spec 0 (count_ s)); injection H as <- <-; cbn; lia.
  - lia.
Qed.

(** A semaphore neither loses nor invents units: after any sequence of
    [signal], [wait] and [try_wait] operations, interleaved with anything else,
    the count is the initial count plus the signals minus the successful waits,
    and it is never negative. *)
Theorem semaphore_conserves s k l s' k' :
  0 <= count_ s -> sem_trace (s, k) l (s', k') ->
  count_ s' = count_ s + foldr Z.add 0 l /\ 0 <= count_ s'.
Proof.
  intros H0 Ht. assert (H : forall x l y, sem_trace x l y -> 0 <= count_ x.1 ->
    count_ y.1 = count_ x.1 + foldr Z.add 0 l /\ 0 <= count_ y.1); [|exact (H _ _ _ Ht H0)].
  clear. intros x l y Hxy. induction Hxy as [x|x d y l z Hs _ IH]; intros Hx; cbn [foldr]; [lia|].
  destruct (sem_step_count _ _ _ Hs) as [Hd Hpos]. destruct (IH (Hpos Hx)). lia.
Qed.

(** [Semaphore::signal] adds one unit and readies exactly one task: one of
    the highest priority among the tasks blocked on the semaphore; without a
    blocked task nothing but the count changes. *)
Theorem semaphore_signal_wakes_best s k :
  task_count k <= MAX_TASKS ->
  let '(s', k') := sem_signal run_handler s k in
  count_ s' = count_ s + 1 /\ wait_mask_ s' = wait_mask_ s /\
  ((exists b, waiter k (wait_mask_ s) b /\ k' = schedule run_handler (set_task_state b Ready k) /\
     forall i, waiter k (wait_mask_ s) i -> current_priority (scheduler (tcb k i)) <= current_priority (scheduler (tcb k b))) \/
   (forall i, waiter k (wait_mask_ s) i -> False) /\ k' = k).
Proof.
  intros Hc. unfold sem_signal. cbv zeta. cbn [wait_mask_ set_count_]. destruct (Z.eqb_spec (wait_mask_ s) 0) as [E|_].
  - split; [done|]. split; [done|]. right. split; [|done]. intros i (Hb & [H0 _] & _).
    by rewrite E, bit_test_testbit, Z.testbit_0_l in Hb.
  - pose proof (best_waiter_spec k (wait_mask_ s) Hc) as Hb. destruct (best_waiter k (wait_mask_ s)) as [b|].
    + split; [done|]. split; [done|]. left. exists b. split; [apply Hb|]. split; [done|]. apply Hb.
    + split; [done|]. split; [done|]. by right.
Qed.
End SemaphoreTrace.

(** * Notifications *)

(** A notification is delivered: what [give] sends to a task is part of what
    the task's next [take] returns without blocking, together with bits that
    were pending, and when [take] clears on exit a second [take] blocks; a
    task blocked in [take] becomes ready. *)
Theorem notify_roundtrip run_handler id val k :
  kernel_ok k -> is_task k id ->
  let k1 := (give run_handler id val false k).2 in
  let '(v, k2) := take_pass id true k1 in
  (give run_handler id val false k).1 = true /\
  v = Some (Z.lor (notify_value (ipc (tcb k id))) val) /\
  (take_pass id true k2).1 = None /\
  (sched_state (scheduler (tcb k id)) = Blocked_On_Notify -> sched_state (scheduler (tcb k1 id)) = Ready).
Proof.
  intros Hk Hi. pose proof (kernel_ok_sched k Hk) as Hs. pose proof (sched_ok_valid k id Hs Hi) as Hv.
  unfold give. assert (get_task_by_id k id = Some id) as -> by by apply get_task_by_id_Some. cbv zeta.
  set (k0 := upd id _ k).
  assert (E0 : tcb k0 id = set_notify_pending true (set_notify_value (Z.lor (notify_value (ipc (tcb k id))) val) (tcb k id))).
  { unfold k0. by rewrite tcb_upd_eq. }
  assert (Hk0 : kernel_ok k0) by by apply kernel_ok_upd.
  assert (Hst : sched_state (scheduler (tcb k0 id)) = sched_state (scheduler (tcb k id))) by by rewrite E0.
  assert (Hid : sched_id (scheduler (tcb k0 id)) = id) by (rewrite E0; by apply (sched_ok_id k)).
  rewrite Hst, Hid. set (k1 := set_task_state id Ready k0).
  assert (H : forall kk, ipc (tcb kk id) = ipc (tcb k0 id) -> valid_task kk id ->
    (take_pass id true kk).1 = Some (Z.lor (notify_value (ipc (tcb k id))) val) /\
    (take_pass id true (take_pass id true kk).2).1 = None).
  { intros kk E V. unfold take_pass at 1 3. rewrite E, E0. cbn [notify_pending ipc set_notify_pending fst snd].
    cbn. split; [done|]. unfold take_pass. by rewrite tcb_upd_eq. }
  destruct (decide (sched_state (scheduler (tcb k id)) = Blocked_On_Notify)) as [Hb|Hb]; cbn [fst snd].
  - destruct (H k1) as [H1 H2]; [apply ipc_set_task_state|by apply (su_valid _ (set_task_state_frame id Ready k0)), valid_task_upd|].
    destruct (take_pass id true k1) as [v k2]. cbn [fst snd] in *. split_and!; [done|done|done|]. intros _.
    unfold k1. rewrite set_task_state_state by (by apply kernel_ok_sched || done). by rewrite decide_True.
  - destruct (H k0) as [H1 H2]; [done|by apply valid_task_upd|].
    destruct (take_pass id true k0) as [v k2]. cbn [fst snd] in *. by split_and!.
Qed.

