(* ===== verification/DeviceClaims.v ===== *)
(** Theorems on the device registry (kernel/core/device.cpp): what registering,
    looking up and unregistering a name do to each other. *)
From S2P Require Import Prelude Kernel ReadyQueue WaitQueue Endpoint Mpu TaskTable IpcSpec Scheduler Preserve CSpace Sync Mutex Device.

(** * C strings *)

(** Two strings agree on [n] bytes from [i], or up to a common terminator. *)
Definition agree (n : nat) (a b : Z -> Z) (i : Z) : Prop :=
  forall j, i <= j < i + Z.of_nat n -> (forall x, i <= x < j -> b x <> 0) -> a j = b j.

Lemma same_name_agree n a b i : same_name n a b i = true <-> agree n a b i.
Proof.
  revert i. induction n as [|n IH]; intros i; cbn [same_name].
  { split; [intros _ j Hj; lia|done]. }
  destruct (Z.eqb_spec (a i) (b i)) as [E|Hne].
  2:{ split; [done|]. intros Ha. exfalso. apply Hne, Ha; [lia|]. intros x Hx. lia. }
  destruct (Z.eqb_spec (a i) 0) as [Ez|Hz].
  { split; [intros _ j Hj Hb|done]. destruct (decide (j = i)) as [->|Hji]; [done|].
    exfalso. apply (Hb i); [lia|congruence]. }
  rewrite IH. split; intros Ha j Hj Hb.
  - destruct (decide (j = i)) as [->|Hji]; [done|]. apply Ha; [lia|]. intros x Hx. apply Hb. lia.
  - apply Ha; [lia|]. intros x Hx. destruct (decide (x = i)) as [->|Hxi]; [congruence|]. apply Hb. lia.
Qed.

Lemma agree_trans n a b c i : agree n a b i -> agree n b c i -> agree n a c i.
Proof.
  intros Hab Hbc j Hj Hc. rewrite <- (Hbc j Hj Hc). apply Hab; [done|]. intros x Hx.
  rewrite (Hbc x); [by apply Hc|lia|]. intros y Hy. apply Hc. lia.
Qed.

Lemma agree_sym n a b i : agree n a b i -> agree n b a i.
Proof.
  intros Hab j Hj Ha. assert (H : forall m : nat, i + Z.of_nat m <= j -> forall x, i <= x < i + Z.of_nat m -> b x <> 0).
  { intros m. induction m as [|m IH]; intros Hm x Hx; [lia|]. specialize (IH ltac:(lia)).
    destruct (decide (x < i + Z.of_nat m)) as [|Hlast]; [apply IH; lia|].
    rewrite <- (Hab x); [apply Ha; lia|lia|]. intros y Hy. apply IH. lia. }
  symmetry. apply Hab; [done|]. intros x Hx. apply (H (Z.to_nat (j - i))); lia.
Qed.

Lemma name_length_spec n k name i :
  i <= name_length n k name i <= i + Z.of_nat n /\
  (forall j, i <= j < name_length n k name i -> char_at k name j <> 0) /\
  (name_length n k name i < i + Z.of_nat n -> char_at k name (name_length n k name i) = 0).
Proof.
  revert i. induction n as [|n IH]; intros i; cbn [name_length].
  { split; [lia|]. split; intros; lia. }
  destruct (Z.eqb_spec (char_at k name i) 0) as [E|Hne].
  { split; [lia|]. split; [intros; lia|done]. }
  destruct (IH (i + 1)) as (H1 & H2 & H3). split; [lia|]. split; [|intros; apply H3; lia].
  intros j Hj. destruct (decide (j = i)) as [->|]; [done|]. apply H2. lia.
Qed.

Lemma name_len_spec k name :
  0 <= name_len k name <= 31 /\ (forall j, 0 <= j < name_len k name -> char_at k name j <> 0) /\
  (name_len k name < 31 -> char_at k name (name_len k name) = 0).
Proof. apply (name_length_spec 31 k name 0). Qed.

(** * The stored name *)

(** The name ends within the 32 bytes an entry compares. *)
Definition short_name (k : Kernel) (name : Z) : Prop := exists j, 0 <= j < NAME_MAX_LEN /\ char_at k name j = 0.

Lemma stored_char k name old j :
  0 <= j <= name_len k name ->
  zlookup (store_name k name (name_len k name) old) j = if decide (j = name_len k name) then 0 else char_at k name j.
Proof.
  intros Hj. destruct (name_len_spec k name) as (Hn & _ & _). unfold store_name, zlookup.
  destruct (Z.leb_spec 0 j); [|lia].
  assert (Hlen : length (name_bytes k name (name_len k name)) = Z.to_nat (name_len k name))
    by (unfold name_bytes; rewrite length_map, length_seqZ; done).
  case_decide as Hd.
  - rewrite list_lookup_total_alt, lookup_app_r by lia. rewrite Hlen. subst j. by rewrite Nat.sub_diag.
  - rewrite list_lookup_total_alt, lookup_app_l by lia. unfold name_bytes. rewrite list_lookup_fmap, lookup_seqZ_lt by lia.
    cbn. f_equal. lia.
Qed.

Lemma stored_agrees k name old :
  short_name k name -> agree 32 (zlookup (store_name k name (name_len k name) old)) (char_at k name) 0.
Proof.
  intros (z & Hz & Ez) j Hj Hb. destruct (name_len_spec k name) as (Hn & Hnz & Hend).
  assert (E0 : char_at k name (name_len k name) = 0).
  { destruct (decide (name_len k name < 31)); [by apply Hend|]. destruct (decide (z < name_len k name)).
    - exfalso. apply (Hnz z); [lia|done].
    - unfold NAME_MAX_LEN in Hz. replace (name_len k name) with z by lia. done. }
  assert (j <= name_len k name).
  { destruct (decide (name_len k name < j)); [|lia]. exfalso. apply (Hb (name_len k name)); [lia|done]. }
  rewrite stored_char by lia. case_decide; [by subst|done].
Qed.

(** A name without a terminator in its first 32 bytes disagrees with its own
    stored copy, which is cut after 31. *)
Lemma stored_disagrees k name old :
  (forall j, 0 <= j < NAME_MAX_LEN -> char_at k name j <> 0) ->
  ~ agree 32 (zlookup (store_name k name (name_len k name) old)) (char_at k name) 0.
Proof.
  intros Hnz Ha. destruct (name_len_spec k name) as (Hn & _ & Hend). unfold NAME_MAX_LEN in *.
  assert (E31 : name_len k name = 31).
  { destruct (decide (name_len k name < 31)) as [Hlt|]; [|lia]. exfalso. by apply (Hnz (name_len k name)); [lia|apply Hend]. }
  specialize (Ha 31 ltac:(lia) ltac:(intros; apply Hnz; lia)).
  rewrite stored_char, E31, decide_True in Ha by lia. symmetry in Ha. revert Ha. apply Hnz. lia.
Qed.

(** * The registry *)

(** The number of entries in use. *)
Definition in_use_count (used : Z -> bool) : Z := Z.of_nat (length (filter (fun i => used i = true) slots_)).

Record registry_ok (r : DeviceRegistry) : Prop := {
  ro_len : length (entries_ r) = Z.to_nat MAX_DEVICES;
  ro_device : forall i, de_in_use (entry r i) = true -> is_Some (de_device (entry r i));
  ro_count : device_count_ r = in_use_count (fun i => de_in_use (entry r i));
}.

Lemma slot_spec i : i ∈ slots_ <-> 0 <= i < MAX_DEVICES.
Proof. unfold slots_. rewrite elem_of_seqZ. lia. Qed.

Lemma entry_upd r i f j :
  length (entries_ r) = Z.to_nat MAX_DEVICES -> 0 <= i < MAX_DEVICES ->
  entry (upd_entry i f r) j = if decide (i = j) then f (entry r j) else entry r j.
Proof. intros Hl Hi. apply zlookup_zalter. unfold in_range, MAX_DEVICES in *. lia. Qed.

Lemma find_Some {A} (P : A -> bool) l x : List.find P l = Some x -> x ∈ l /\ P x = true.
Proof. intros [H1 H2]%find_some. split; [by apply list_elem_of_In|done]. Qed.

Lemma find_None {A} (P : A -> bool) l x : List.find P l = None -> x ∈ l -> P x = false.
Proof. intros H Hx%list_elem_of_In. by eapply find_none. Qed.

Lemma find_unique {A} (P : A -> bool) l i : i ∈ l -> P i = true -> (forall j, j ∈ l -> P j = true -> j = i) -> List.find P l = Some i.
Proof.
  intros Hi HP Hu. destruct (List.find P l) as [j|] eqn:E.
  - apply find_Some in E as [Hj Pj]. by rewrite (Hu j Hj Pj).
  - by rewrite (find_None P l i E Hi) in HP.
Qed.

Lemma find_ext {A} (P Q : A -> bool) l : (forall x, x ∈ l -> P x = Q x) -> List.find P l = List.find Q l.
Proof.
  induction l as [|x l IH]; intros H; cbn; [done|]. rewrite (H x) by set_solver. rewrite IH; [done|].
  intros y Hy. apply H. set_solver.
Qed.

Lemma find_none_all {A} (P : A -> bool) l : (forall x, x ∈ l -> P x = false) -> List.find P l = None.
Proof.
  induction l as [|x l IH]; intros H; cbn; [done|]. rewrite (H x) by set_solver. apply IH. set_solver.
Qed.

(** ** The number of entries in use *)

Lemma filter_agree (P Q : Z -> bool) (l : list Z) :
  (forall j, j ∈ l -> Q j = P j) -> filter (fun j => Q j = true) l = filter (fun j => P j = true) l.
Proof.
  induction l as [|x l IH]; intros H; [done|]. rewrite !filter_cons, (H x), IH by set_solver. done.
Qed.

Lemma count_flip_aux (P Q : Z -> bool) (i : Z) (l : list Z) :
  NoDup l -> i ∈ l -> P i = false -> Q i = true -> (forall j, j <> i -> Q j = P j) ->
  length (filter (fun j => Q j = true) l) = S (length (filter (fun j => P j = true) l)).
Proof.
  intros Hnd Hi HP HQ Hj. induction Hnd as [|x l Hx Hnd IH]; [by apply elem_of_nil in Hi|].
  apply elem_of_cons in Hi as [->|Hi].
  - rewrite !filter_cons, decide_True, decide_False by congruence. cbn. f_equal. f_equal.
    apply filter_agree. intros y Hy. apply Hj. by intros ->.
  - assert (x <> i) by set_solver. rewrite !filter_cons. rewrite (Hj x) by done.
    destruct (decide (P x = true)); cbn; by rewrite IH.
Qed.

Lemma count_flip (P Q : Z -> bool) i :
  0 <= i < MAX_DEVICES -> P i = false -> Q i = true -> (forall j, j <> i -> Q j = P j) ->
  in_use_count Q = in_use_count P + 1.
Proof.
  intros Hi HP HQ Hj. unfold in_use_count. rewrite (count_flip_aux P Q i); [lia|apply NoDup_seqZ|by apply slot_spec|done..].
Qed.

Lemma count_ext (P Q : Z -> bool) : (forall j, Q j = P j) -> in_use_count Q = in_use_count P.
Proof.
  intros Hj. unfold in_use_count. f_equal. f_equal. apply list_filter_iff. intros j. by rewrite Hj.
Qed.

Lemma count_bound (P : Z -> bool) : 0 <= in_use_count P <= MAX_DEVICES.
Proof.
  unfold in_use_count. pose proof (length_filter (fun i => P i = true) slots_) as Hl.
  assert (length slots_ = 16%nat) by done. unfold MAX_DEVICES. lia.
Qed.

(** * Registering, looking up, unregistering *)

Lemma matches_agree k name e :
  name_matches k name e = true <-> de_in_use e = true /\ agree 32 (zlookup (de_name e)) (char_at k name) 0.
Proof. unfold name_matches. by rewrite andb_true_iff, same_name_agree. Qed.

Lemma matches_mem k k' name e : mem k' = mem k -> name_matches k' name e = name_matches k name e.
Proof. intros Hm. unfold name_matches, char_at. by rewrite Hm. Qed.

Lemma find_name_mem k k' name r : mem k' = mem k -> find_name k' name r = find_name k name r.
Proof. intros Hm. apply find_ext. intros i _. by apply matches_mem. Qed.

Lemma lookup_body_mem k k' name r : mem k' = mem k -> lookup_body name r k' = lookup_body name r k.
Proof. intros Hm. unfold lookup_body. by rewrite (find_name_mem k k'). Qed.

Section Claims.
Context {DR : Drivers} (mount_mem : forall path d k, mem (vfs_mount path d k).2 = mem k).

Lemma mount_device_frame d name n r k :
  entries_ (mount_device d name n r k).1 = entries_ r /\ device_count_ (mount_device d name n r k).1 = device_count_ r /\
  mem (mount_device d name n r k).2 = mem k.
Proof.
  unfold mount_device. destruct (_ <=? _); [|done]. cbv zeta.
  match goal with |- context [vfs_mount ?p ?d ?k] => pose proof (mount_mem p d k) as Hm; destruct (vfs_mount p d k) as [b k'] end.
  done.
Qed.

(** What a successful registration did. *)
Record registered (d rights : Z) (r : DeviceRegistry) (k : Kernel) (i : Z) (r' : DeviceRegistry) (k' : Kernel) : Prop := {
  rg_fresh : find_name k (get_name r d) r = None;
  rg_slot : 0 <= i < MAX_DEVICES;
  rg_free : de_in_use (entry r i) = false;
  rg_entry : forall j, entry r' j = if decide (i = j)
    then mkEntry (store_name k (get_name r d) (name_len k (get_name r d)) (de_name (entry r i))) (Some d) rights true
    else entry r j;
  rg_len : length (entries_ r') = length (entries_ r);
  rg_count : device_count_ r' = wrap32 (device_count_ r + 1);
  rg_mem : mem k' = mem k;
}.

Lemma register_body_spec d rights r k r' k' :
  registry_ok r -> register_body d rights r k = (true, (r', k')) -> exists i, registered d rights r k i r' k'.
Proof.
  intros Hr. unfold register_body. cbv zeta. destruct (_ =? 0); [done|].
  destruct (find_name k (get_name r d) r) eqn:Hf; [done|]. destruct (find_free_entry r) as [i|] eqn:Hi; [|done].
  apply find_Some in Hi as [Hi%slot_spec Hfree%negb_true_iff].
  match goal with |- context [mount_device ?d ?n ?l ?r0 ?k0] =>
    pose proof (mount_device_frame d n l r0 k0) as (M1 & M2 & M3); destruct (mount_device d n l r0 k0) as [r1 k1] end.
  cbn [fst snd] in *. intros [= <- <-]. exists i. split; try done.
  - intros j. unfold entry at 1. rewrite M1. change (zlookup _ j) with (entry (upd_entry i (fun e =>
      mkEntry (store_name k (get_name r d) (name_len k (get_name r d)) (de_name e)) (Some d) rights true) r) j).
    rewrite entry_upd by (done || apply Hr). case_decide; [by subst|done].
  - rewrite M1. apply length_zalter.
Qed.

Lemma registered_ok d rights r k i r' k' : registry_ok r -> registered d rights r k i r' k' -> registry_ok r'.
Proof.
  intros Hr Hg. split.
  - rewrite (rg_len _ _ _ _ _ _ _ Hg). apply Hr.
  - intros j. rewrite (rg_entry _ _ _ _ _ _ _ Hg). case_decide; [by eexists|apply Hr].
  - rewrite (rg_count _ _ _ _ _ _ _ Hg), (ro_count _ Hr).
    rewrite (count_flip (fun i => de_in_use (entry r i)) (fun i => de_in_use (entry r' i)) i).
    + apply wrap32_small. unfold is_u32. pose proof (count_bound (fun i => de_in_use (entry r i))). unfold MAX_DEVICES in *. lia.
    + apply Hg.
    + apply Hg.
    + by rewrite (rg_entry _ _ _ _ _ _ _ Hg), decide_True.
    + intros j Hj. by rewrite (rg_entry _ _ _ _ _ _ _ Hg), decide_False.
Qed.

(** The new entry is the only one that answers to the name. *)
Lemma registered_find d rights r k i r' k' :
  registered d rights r k i r' k' -> short_name k (get_name r d) -> find_name k' (get_name r d) r' = Some i.
Proof.
  intros Hg Hs. rewrite (find_name_mem k k') by apply Hg. apply find_unique.
  - apply slot_spec, Hg.
  - rewrite (rg_entry _ _ _ _ _ _ _ Hg), decide_True by done. apply matches_agree. split; [done|]. by apply stored_agrees.
  - intros j Hj. rewrite (rg_entry _ _ _ _ _ _ _ Hg). case_decide; [done|]. 
    by rewrite (find_None _ _ j (rg_fresh _ _ _ _ _ _ _ Hg) Hj).
Qed.

(** Names that were found are found where they were. *)
Lemma registered_others d rights r k i r' k' name :
  registered d rights r k i r' k' -> short_name k (get_name r d) -> is_Some (find_name k name r) ->
  find_name k' name r' = find_name k name r.
Proof.
  intros Hg Hs [i2 H2]. rewrite (find_name_mem k k') by apply Hg. apply find_ext. intros j Hj.
  rewrite (rg_entry _ _ _ _ _ _ _ Hg). case_decide as Hd; [subst j|done].
  assert (name_matches k name (entry r i) = false) as -> by (unfold name_matches; by rewrite (rg_free _ _ _ _ _ _ _ Hg)).
  apply not_true_iff_false. intros [_ Ha]%matches_agree. cbn [de_name] in Ha.
  apply find_Some in H2 as [Hi2 [Hu2 Ha2]%matches_agree].
  assert (Hm : name_matches k (get_name r d) (entry r i2) = true).
  { apply matches_agree. split; [done|]. eapply agree_trans; [exact Ha2|]. apply agree_sym in Ha.
    eapply agree_trans; [exact Ha|]. by apply stored_agrees. }
  by rewrite (find_None _ _ i2 (rg_fresh _ _ _ _ _ _ _ Hg) Hi2) in Hm.
Qed.

(** What unregistering the name of entry [i] did. *)
Lemma unregister_body_spec name r k i :
  registry_ok r -> find_name k name r = Some i ->
  exists r' k', unregister_body name r k = (true, (r', k')) /\ mem k' = mem k /\
    (forall j, entry r' j = if decide (i = j) then clear_entry (entry r i) else entry r j) /\
    length (entries_ r') = length (entries_ r) /\ device_count_ r' = device_count_ r - 1.
Proof.
  intros Hr Hf. unfold unregister_body. rewrite Hf. apply find_Some in Hf as [Hi%slot_spec [Hu _]%matches_agree].
  destruct (ro_device _ Hr i Hu) as [d Hd]. rewrite Hd. cbn [fst snd].
  assert (Hpos : 0 < device_count_ r).
  { rewrite (ro_count _ Hr). set (P := fun i => de_in_use (entry r i)).
    assert (in_use_count P = in_use_count (fun j => P j && negb (j =? i)) + 1) as ->.
    { apply (count_flip _ _ i); [done|by rewrite Z.eqb_refl, andb_false_r|done|]. intros j Hj.
      apply Z.eqb_neq in Hj. by rewrite Hj, andb_true_r. }
    pose proof (count_bound (fun j => P j && negb (j =? i))). lia. }
  change (device_count_ (upd_entry _ _ _)) with (device_count_ r). rewrite (proj2 (Z.ltb_lt 0 _) Hpos).
  eexists _, _. split; [reflexivity|]. split; [|split; [|split; [apply length_zalter|done]]].
  - unfold release. destruct (0 <? _); [|done]. cbv zeta. by destruct (_ =? 0).
  - intros j. change (entry (upd_entry i clear_entry r) j = if decide (i = j) then clear_entry (entry r i) else entry r j).
    rewrite entry_upd by (done || apply Hr). case_decide; [by subst|done].
Qed.

(** registering a device under a name that ends within 32 bytes makes the
    lookup of that name return the device, leaves every name that was found
    where it was, keeps the registry consistent (every entry in use names a
    device, the counter is the number of entries in use), and unregistering the
    name then makes it unknown again and restores the occupancy and the count. *)
Theorem register_lookup_roundtrip d rights r k r1 k1 :
  registry_ok r -> short_name k (get_name r d) -> register_body d rights r k = (true, (r1, k1)) ->
  registry_ok r1 /\ lookup_body (get_name r d) r1 k1 = Some d /\
  (forall name d2, lookup_body name r k = Some d2 -> lookup_body name r1 k1 = Some d2) /\
  exists r2 k2, unregister_body (get_name r d) r1 k1 = (true, (r2, k2)) /\
    lookup_body (get_name r d) r2 k2 = None /\ device_count_ r2 = device_count_ r /\
    (forall i, de_in_use (entry r2 i) = de_in_use (entry r i)).
Proof.
  intros Hr Hs Hb. destruct (register_body_spec d rights r k r1 k1 Hr Hb) as [i Hg].
  pose proof (registered_ok _ _ _ _ _ _ _ Hr Hg) as Hr1. pose proof (registered_find _ _ _ _ _ _ _ Hg Hs) as Hf.
  split; [done|]. split; [|split].
  - unfold lookup_body. rewrite Hf. cbn [mbind option_bind]. by rewrite (rg_entry _ _ _ _ _ _ _ Hg), decide_True.
  - intros name d2. unfold lookup_body. intros (i2 & H2 & Hd)%bind_Some.
    rewrite (registered_others _ _ _ _ _ _ _ name Hg Hs) by by exists i2. rewrite H2. cbn [mbind option_bind].
    rewrite (rg_entry _ _ _ _ _ _ _ Hg). case_decide as He; [|done]. subst i2.
    apply find_Some in H2 as [_ [Hu _]%matches_agree]. by rewrite (rg_free _ _ _ _ _ _ _ Hg) in Hu.
  - destruct (unregister_body_spec _ _ _ _ Hr1 Hf) as (r2 & k2 & E & Hm & He & Hl & Hc). exists r2, k2. split; [done|].
    assert (Hu : forall j, de_in_use (entry r2 j) = de_in_use (entry r j)).
    { intros j. rewrite He. case_decide; [subst; symmetry; apply Hg|]. by rewrite (rg_entry _ _ _ _ _ _ _ Hg), decide_False. }
    split; [|split; [|done]].
    + unfold lookup_body. rewrite (find_name_mem k1 k2) by done.
      assert (find_name k1 (get_name r d) r2 = None) as ->; [|done]. apply find_none_all. intros j Hj.
      rewrite (matches_mem k k1) by apply Hg. rewrite He. case_decide; [done|]. rewrite (rg_entry _ _ _ _ _ _ _ Hg), decide_False by done.
      by apply (find_None _ _ j (rg_fresh _ _ _ _ _ _ _ Hg) Hj).
    + rewrite Hc, (ro_count _ Hr1), (ro_count _ Hr), (count_flip (fun i => de_in_use (entry r i)) _ i); [lia|apply Hg|apply Hg| |].
      * by rewrite (rg_entry _ _ _ _ _ _ _ Hg), decide_True.
      * intros j Hj. by rewrite (rg_entry _ _ _ _ _ _ _ Hg), decide_False.
Qed.

(** a device whose name has no terminator in its first 32 bytes is
    registered, because only 31 bytes are stored, but its entry answers to no
    lookup of that name: the comparison covers 32 bytes.  So the device cannot
    be opened or unregistered by name, and registering it again succeeds. *)
Theorem long_names_lost d rights r k r1 k1 :
  registry_ok r -> (forall j, 0 <= j < NAME_MAX_LEN -> char_at k (get_name r d) j <> 0) ->
  register_body d rights r k = (true, (r1, k1)) ->
  device_count_ r1 = device_count_ r + 1 /\ lookup_body (get_name r d) r1 k1 = None /\
  (unregister_body (get_name r d) r1 k1).1 = false.
Proof.
  intros Hr Hlong Hb. destruct (register_body_spec d rights r k r1 k1 Hr Hb) as [i Hg].
  assert (Hn : find_name k1 (get_name r d) r1 = None).
  { rewrite (find_name_mem k k1) by apply Hg. apply find_none_all. intros j Hj. rewrite (rg_entry _ _ _ _ _ _ _ Hg).
    case_decide; [|by apply (find_None _ _ j (rg_fresh _ _ _ _ _ _ _ Hg) Hj)].
    apply not_true_iff_false. intros [_ Ha]%matches_agree. by apply stored_disagrees in Ha. }
  split; [|split].
  - rewrite (rg_count _ _ _ _ _ _ _ Hg), (ro_count _ Hr). apply wrap32_small. unfold is_u32.
    pose proof (count_bound (fun i => de_in_use (entry r i))). unfold MAX_DEVICES in *. lia.
  - unfold lookup_body. by rewrite Hn.
  - unfold unregister_body. by rewrite Hn.
Qed.
End Claims.

(** * Examples *)

(** Drivers that do nothing. *)
Definition null_drivers : Drivers := {|
  dev_open := fun _ k => (0, k); dev_close := fun _ k => (0, k);
  dev_read := fun _ _ _ _ k => (0, k); dev_write := fun _ _ _ _ k => (0, k);
  dev_ioctl := fun _ _ _ k => (0, k); vfs_mount := fun _ _ k => (true, k) |}.

Definition empty_registry : DeviceRegistry := registry_ctor (mkRegistry (replicate 16 inhabitant) 0 ∅).

(** A 40-byte name. *)
