(* ===== verification/SyscallClaims.v ===== *)
(** Theorems on the system-call path: validated pointers, the invariants after
    every call, the authority a call needs, and where a call may write. *)
From stdpp Require Import strings.
From S2P Require Import Prelude Kernel ReadyQueue WaitQueue Endpoint Mpu TaskTable IpcSpec Scheduler Preserve System AuditRing AuditInv CSpace Sync Timers Mutex Validator Device Syscall SyscallInv CapClaims DeviceClaims.

(** * A running system *)

(** No virtual address spaces. *)
Definition no_pages (vas va : Z) : option Z := None.
Lemma null_drivers_good : @GoodDrivers null_drivers.
Proof. by split. Qed.

(** A Cortex-M memory map: 64 KiB of data at 0x20000000. *)
Definition demo_map : MemoryMap := mkMap 536936448 4096 0 0 536870912 536936448 0 0 0 0.

(** The server (1) runs with the argument registers [a0] to [a3]; a call
    descriptor is at 0x20000100. *)
Definition demo_desc : Z := 536871168.
Definition demo_sys (a0 a1 a2 a3 : Z) : Sys :=
  let k := set_started_ true (set_g_current_tcb_ptr (Some 1) demo_caps) in
  mkSys (set_mem (store32 (store32 (mem k) demo_desc 536871424) (demo_desc + 8) IPC_TIMEOUT_INFINITE) k)
    (mkFrameRegs a0 a1 a2 a3) empty_registry [] engine_ctor.

Definition bytes_ok (m : gmap Z Z) : Prop := map_Forall (fun _ v => 0 <= v < 256) m.

Lemma bytes_ok_load m a : bytes_ok m -> 0 <= load8 m a < 256.
Proof. intros Hm. unfold load8. destruct (m !! a) as [v|] eqn:E; [by apply (Hm a v)|cbn; lia]. Qed.

Lemma cap_state_enter c m k :
  cap_state k -> is_task k c -> cap_state (set_mem m (set_started_ true (set_g_current_tcb_ptr (Some c) k))).
Proof.
  intros [Hk [C1 C2 C3 C4 C5]] Hc. split; [|split; [exact C1| |exact C3|exact C4|]].
  2:{ intros i j. apply (cap_wf_count k); [done|apply C2]. }
  2:{ intros o. specialize (C5 o). by destruct o. }
  apply (kernel_ok_env k); try done. split; [by intros ? [= <-]|apply (ko_cur _ Hk)].
Qed.

Lemma demo_server_task : is_task demo_caps 1.
Proof. by vm_compute. Qed.

Lemma demo_sys_ok a0 a1 a2 a3 : is_u32 a0 -> is_u32 a1 -> is_u32 a2 -> is_u32 a3 -> sys_ok (demo_sys a0 a1 a2 a3).
Proof.
  intros H0 H1 H2 H3. split; [split|].
  - apply cap_state_enter; [apply demo_caps_ok|apply demo_server_task].
  - exact (conj H0 (conj H1 (conj H2 H3))).
  - intros a. apply bytes_ok_load. apply (bool_decide_unpack _). by vm_compute.
  - intros c [= <-]. change (idle_ipc IpcReady). by intros [].
Qed.

(** * Validated pointers *)

(** C35: a pointer that passes [validate_user_ptr] is not null, its range does
    not wrap around the address space, and every byte of it lies in memory the
    task may name: its stack, its canary region, its valid MPU sandbox, pages
    mapped for the user (writable ones when the kernel will write), the kernel
    heap and data sections, or, for reading only, flash.  A range inside the
    caller's own stack is always accepted. *)
Theorem validated_bytes_permitted {AS : AddressSpaces} mm p len c nw :
  is_u32 p -> is_u32 len -> 0 < len -> map_ok mm -> tcb_ok c ->
  (validate_user_ptr mm p len (Some c) nw = true ->
   p <> nullptr /\ p + len < 4294967296 /\ forall a, p <= a < p + len -> permitted mm (Some c) nw a) /\
  (p <> nullptr -> stack_base (memory c) + region_size (size_pow2 (memory c)) < 4294967296 ->
   stack_base (memory c) <= p -> p + len <= stack_base (memory c) + region_size (size_pow2 (memory c)) ->
   validate_user_ptr mm p len (Some c) nw = true).
Proof.
  intros Hp Hl Hl0 Hm Hc. split.
  - apply validate_user_ptr_permitted; try done. by intros ? [= <-].
  - intros. apply validate_own_stack; try done; [lia|apply Hc].
Qed.

Lemma validated_bytes_permitted_witness :
  536870916 <> nullptr /\ 536870916 + 64 < 4294967296 /\
  forall a, 536870916 <= a < 536870916 + 64 -> @permitted no_pages demo_map (Some (tcb demo 1)) true a.
Proof.
  refine (proj1 (@validated_bytes_permitted no_pages demo_map 536870916 64 (tcb demo 1) true _ _ _ _ _) _);
    by vm_compute.
Defined.

(** * The invariants after a call *)

Section Claims.
Context {AS : AddressSpaces} {DR : Drivers} (mm : MemoryMap).
Context (run_handler : Z -> Z -> Kernel -> Kernel) (registry_mutex_ tick now : Z).

(** A call runs the handler of its entry, or the one for unknown numbers. *)
Lemma dispatch_cases n s :
  dispatch mm run_handler registry_mutex_ tick now n s = handle_unknown run_handler s \/
  exists h, syscall_table mm run_handler registry_mutex_ tick now !! n = Some h /\ dispatch mm run_handler registry_mutex_ tick now n s = h s.
Proof.
  unfold dispatch. destruct (_ !! n) as [h|]; [right; by exists h|by left].
Qed.

(** C5: every system call except device open and device registration (which
    run under the registry mutex), valid or not, with any argument registers, memory
    contents and audit rules, made by a task that is in no endpoint queue in a state with
    well-formed capability spaces, preserves the scheduler and IPC invariants: the ready rings, the endpoint
    queues, the priorities and the dispatcher's pointers, provided drivers and user
    signal handlers do.  The audit hook of the call, which may terminate the caller,
    is included.  A task that a signal woke inside an IPC wait is excluded:
    [signalled_waiter_corrupts_queue] shows what its next call does. *)
Theorem syscall_preserves_kernel {GD : GoodDrivers} {GH : GoodHandlers run_handler} n s :
  sys_ok s -> n <> 32 -> n <> 36 -> kernel_ok (kern (dispatch mm run_handler registry_mutex_ tick now n s)).
Proof.
  intros Hs H32 H36. destruct (dispatch_cases n s) as [->|(h & Hh & ->)]; [by apply handle_unknown_ok|].
  unfold syscall_table in Hh. apply elem_of_list_to_map_2 in Hh.
  repeat (apply elem_of_cons in Hh as [[= -> ->]|Hh]); try done.
  all: try solve [eauto with syscalls nocore].
  by apply elem_of_nil in Hh.
Qed.

(** * Authority *)

(** The slot, the kind of object and the right a call requires. *)
Definition required (n : Z) (s : Sys) : option (Z * CapType * (CapRights -> bool)) :=
  let desc := arg0 (frame_ s) in
  if n =? 16 then Some (arg0 (frame_ s), CapEndpoint, right_write) else
  if n =? 17 then Some (arg0 (frame_ s), CapEndpoint, right_read) else
  if n =? 33 then Some (field s desc 0, CapDevice, right_read) else
  if n =? 34 then Some (field s desc 0, CapDevice, right_write) else
  if n =? 35 then Some (field s desc 0, CapDevice, fun _ => true) else None.

(** Task [c] holds a capability of that kind with that right. *)
Definition holds (k : Kernel) (c : Z) (q : Z * CapType * (CapRights -> bool)) : bool :=
  is_valid_slot q.1.1 && bool_decide (cap_type (slot k c q.1.1) = q.1.2) && q.2 (cap_rights (slot k c q.1.1)).

(** After its hook the call failed with a negative status and left everything alone. *)
Definition refused (s s' : Sys) : Prop :=
  kern s' = kern s /\ audit s' = audit s /\ registry s' = registry s /\ to_int (arg0 (frame_ s')) < 0.

Lemma refused_ret v s s' : -6 <= v < 0 -> kern s' = kern s -> audit s' = audit s -> registry s' = registry s -> refused s (ret v s').
Proof.
  intros Hv Hk Ha Hr. do 3 (split; [done|]). cbn. unfold to_int, wrap32.
  destruct (Z.ltb_spec (v mod 4294967296) 2147483648); Z.to_euclidean_division_equations; lia.
Qed.

(** The whole call, hook included. *)
Definition refused_call (n : Z) (s s' : Sys) : Prop :=
  (kern s' = kern s \/
   exists c, cur s = Some c /\ may_kill (rules_ (audit s)) /\ kern s' = terminate_task c (kern s)) /\
  audit s' = audit (AUDIT_HOOK_SVC tick now n s) /\ registry s' = registry s /\ to_int (arg0 (frame_ s')) < 0.

Lemma current_tid c s : kernel_ok (kern s) -> cur s = Some c -> get_current_tid_ (kern s) = c.
Proof.
  intros Hk Hc. pose proof (cur_task s c Hk Hc) as Ht. unfold get_current_tid_. unfold cur in Hc. rewrite Hc.
  pose proof (kernel_ok_sched _ Hk) as Hs. rewrite sched_ok_id by done. unfold wrap16.
  pose proof (sched_ok_valid _ _ Hs Ht) as Hv. unfold valid_task, in_range in Hv. rewrite (sched_ok_len _ Hs) in Hv.
  apply Z.mod_small. unfold MAX_TASKS in Hv. lia.
Qed.

Lemma refused_hooked n s c s' :
  kernel_ok (kern s) -> cur s = Some c -> refused (AUDIT_HOOK_SVC tick now n s) s' -> refused_call n s s'.
Proof.
  intros Hk Hc (H1 & H2 & H3 & H4). pose proof (hook_hooked tick now n s Hk) as H. rewrite (hk_registry _ _ H) in H3.
  split; [|done]. rewrite H1. destruct (hk_kern _ _ H) as [E|[Hm E]]; [by left|right]. exists c.
  by rewrite (current_tid c s Hk Hc) in E.
Qed.

(** What the lookup of the required slot finds. *)
Lemma lookup_without t j ty r k :
  cap_state k -> is_task k t -> 0 <= j -> ty <> CapNull -> holds k t (j, ty, r) = false ->
  (cap_lookup (Some t) j k).2 = k /\
  forall c, (cap_lookup (Some t) j k).1 = Some c -> cap_type c = ty -> r (cap_rights c) = false.
Proof.
  intros Hk Ht Hj Hty Hh. destruct (cap_lookup_ok t j k Hk Ht Hj) as [E Hc]. split; [done|].
  intros c E1 <-. destruct (Hc c E1) as (Hs & -> & _). unfold holds in Hh. cbn [fst snd] in Hh.
  rewrite (proj2 (is_slot_valid j Hj) Hs), bool_decide_true in Hh by done. exact Hh.
Qed.

Lemma refused_bool (b : bool) v s1 s2 s :
  -6 <= v < 0 -> kern s1 = kern s -> audit s1 = audit s -> registry s1 = registry s -> (b = false -> refused s s2) ->
  refused s (if b then ret v s1 else s2).
Proof. intros Hv Hk Ha Hr Hs. destruct b; [by apply refused_ret|by apply Hs]. Qed.

Lemma refused_pair (r : Z * Kernel) s : -6 <= r.1 < 0 -> r.2 = kern s -> refused s (let '(res, k) := r in ret res (set_kern k s)).
Proof. destruct r as [v k]. cbn [fst snd]. intros Hv ->. by apply refused_ret. Qed.

Lemma ipc_call_refused t j msg len rb mrl tm k :
  cap_state k -> is_task k t -> 0 <= j -> holds k t (j, CapEndpoint, right_write) = false ->
  sys_ipc_call run_handler t j msg len rb mrl tm k = (status_code IpcNoPermission, k).
Proof.
  intros Hk Ht Hj Hh. destruct (lookup_without t j CapEndpoint right_write k Hk Ht Hj) as [E Hc]; [done|done|].
  unfold sys_ipc_call. destruct (cap_lookup _ _ _) as [[cap|] k1]; cbn [fst snd] in *; subst k1; [|done].
  specialize (Hc cap eq_refl). case_bool_decide; [|done]. by rewrite Hc.
Qed.

Lemma ipc_receive_refused t j buf ml oi ob tm lb k :
  cap_state k -> is_task k t -> 0 <= j -> holds k t (j, CapEndpoint, right_read) = false ->
  sys_ipc_receive run_handler t j buf ml oi ob tm lb k = (status_code IpcNoPermission, k).
Proof.
  intros Hk Ht Hj Hh. destruct (lookup_without t j CapEndpoint right_read k Hk Ht Hj) as [E Hc]; [done|done|].
  unfold sys_ipc_receive. destruct (cap_lookup _ _ _) as [[cap|] k1]; cbn [fst snd] in *; subst k1; [|done].
  specialize (Hc cap eq_refl). case_bool_decide; [|done]. by rewrite Hc.
Qed.

Lemma cap_device_right cap d r ty_ok :
  cap_device cap = Some (d, r) -> (forall c, cap = Some c -> cap_type c = CapDevice -> ty_ok (cap_rights c) = false) ->
  ty_ok r = false.
Proof.
  unfold cap_device. destruct cap as [c|]; [|done]. case_decide as Hd; [|done].
  destruct (cap_object c) as [[]|]; try done. intros [= <- <-] Hc. by apply Hc.
Qed.

Lemma device_io_refused (io : Z -> Kernel -> Z * Kernel) (right : CapRights -> bool) t j k :
  cap_state k -> is_task k t -> 0 <= j -> holds k t (j, CapDevice, right) = false ->
  let r := let '(cap, k) := cap_lookup (Some t) j k in
           match cap_device cap with
           | None => (-1, k)
           | Some (d, rights) => if negb (right rights) then (-3, k) else io d k
           end in
  -6 <= r.1 < 0 /\ r.2 = k.
Proof.
  intros Hk Ht Hj Hh. cbv zeta. destruct (lookup_without t j CapDevice right k Hk Ht Hj) as [E Hc]; [done|done|].
  destruct (cap_lookup _ _ _) as [cap k1]; cbn [fst snd] in *; subst k1.
  destruct (cap_device cap) as [[d r]|] eqn:Ed; [|by split].
  by rewrite (cap_device_right cap d r right Ed Hc).
Qed.

(** The slots, the memory and the registers are those before the hook. *)
Lemma required_hooked n s s' : hooked s s' -> required n s' = required n s.
Proof. intros H. unfold required, field. by rewrite (hk_frame _ _ H), (hooked_mem _ _ H). Qed.

Lemma holds_hooked s s' c q : hooked s s' -> holds (kern s') c q = holds (kern s) c q.
Proof. intros H. unfold holds, slot. by rewrite (of_sec _ _ (hooked_obj _ _ H)). Qed.

Ltac step_refused := apply refused_bool; [done|done|done|done|intros _].

(** The five calls after their hooks. *)
Lemma body_refused n s0 c q :
  let s := AUDIT_HOOK_SVC tick now n s0 in
  sys_wf s -> cur s = Some c -> required n s = Some q -> holds (kern s) c q = false ->
  refused s (dispatch mm run_handler registry_mutex_ tick now n s0).
Proof.
  intros s Hs Hc Hq Hh. pose proof (so_caps _ Hs) as Hk. pose proof (cur_task s c (cs_kernel _ Hk) Hc) as Ht.
  assert (Hf : forall i, 0 <= field s (arg0 (frame_ s)) i) by (intros; by apply field_nonneg).
  assert (Ha : 0 <= arg0 (frame_ s)) by apply (so_regs _ Hs). unfold required in Hq. cbv zeta in Hq.
  destruct (Z.eqb_spec n 16) as [->|_]; [injection Hq as <-|].
  { change (refused s (handle_ipc_call mm run_handler tick now s0)). unfold handle_ipc_call. cbv zeta. fold s. rewrite Hc.
    do 3 step_refused. apply refused_pair; by rewrite ipc_call_refused. }
  destruct (Z.eqb_spec n 17) as [->|_]; [injection Hq as <-|].
  { change (refused s (handle_ipc_receive mm run_handler tick now s0)). unfold handle_ipc_receive. cbv zeta. fold s. rewrite Hc.
    do 2 step_refused. apply refused_pair; by rewrite ipc_receive_refused. }
  destruct (Z.eqb_spec n 33) as [->|_]; [injection Hq as <-|].
  { change (refused s (handle_dev_read mm tick now s0)). unfold handle_dev_read. cbv zeta. fold s. rewrite Hc.
    do 2 step_refused. unfold device_read.
    destruct (_ || _); [by apply refused_ret|]. by apply refused_pair; apply device_io_refused. }
  destruct (Z.eqb_spec n 34) as [->|_]; [injection Hq as <-|].
  { change (refused s (handle_dev_write mm tick now s0)). unfold handle_dev_write. cbv zeta. fold s. rewrite Hc.
    do 2 step_refused. unfold device_write.
    destruct (_ || _); [by apply refused_ret|]. by apply refused_pair; apply device_io_refused. }
  destruct (Z.eqb_spec n 35) as [->|_]; [injection Hq as <-|done].
  change (refused s (handle_dev_ioctl mm tick now s0)). unfold handle_dev_ioctl. cbv zeta. fold s. rewrite Hc.
  step_refused. by apply refused_pair; apply (device_io_refused (fun d => dev_ioctl d _ _) (fun _ => true)).
Qed.

(** C3: a call that names an object through the capability space needs the
    capability: with well-formed capability spaces ([cap_state], kept as C34 says), but
    without a valid slot holding a capability of the right kind and
    with the right the operation requires, IPC call (write), IPC receive (read),
    device read, device write and device ioctl fail with a
    negative status.  They record themselves in the audit engine, and apart from that
    leave the whole state (kernel, memory, registry) as it was; only a terminating audit
    rule can add its punishment, the termination of the caller. *)
Theorem calls_need_authority n s c q :
  sys_wf s -> cur s = Some c -> required n s = Some q -> holds (kern s) c q = false ->
  refused_call n s (dispatch mm run_handler registry_mutex_ tick now n s).
Proof.
  intros Hs Hc Hq Hh. pose proof (hook_hooked tick now n s (sys_ok_kernel _ Hs)) as H.
  apply (refused_hooked n s c); [by apply sys_ok_kernel|done|]. apply (body_refused n s c q).
  - by eapply hooked_wf.
  - by rewrite (hooked_cur _ _ H).
  - by rewrite (required_hooked _ _ _ H).
  - by rewrite (holds_hooked _ _ _ _ H).
Qed.

(** * Where a call writes *)

(** Calls that neither switch tasks nor enter a driver: time, signals and the
    process timers. *)
Definition direct_calls : list Z := [4; 20; 21; 22; 24; 25; 26; 27; 28].

Lemma store32_outside m p v a : ~ (p <= a < p + 4) -> load8 (store32 m p v) a = load8 m a.
Proof. intros Ha. unfold store32. rewrite !load8_store8. repeat (case_decide; try lia); done. Qed.

Lemma store_action_outside act p m a : ~ (p <= a < p + 12) -> load8 (store_action act p m) a = load8 m a.
Proof. intros Ha. unfold store_action. rewrite !store32_outside by lia. done. Qed.

(** A range of [len] bytes the running task may write. *)
Definition writable (s : Sys) (c p len : Z) : Prop :=
  forall a, p <= a < p + len -> permitted mm (Some (tcb (kern s) c)) true a.

Lemma valid_writable s c p len :
  map_ok mm -> tcb_ok (tcb (kern s) c) -> is_u32 p -> 0 < len < 4294967296 ->
  valid_ptr mm s c p len true = true -> writable s c p len.
Proof.
  intros Hm Ht Hp Hl Hv.
  destruct (validate_user_ptr_permitted mm p len (Some (tcb (kern s) c)) true) as (_ & _ & Hw); try done;
    [unfold is_u32; lia|lia|by intros ? [= <-]].
Qed.

(** The memory of [s'] differs from that of [s] only where the task may write. *)
Definition confined (s : Sys) (c : Z) (m : gmap Z Z) : Prop :=
  forall a, load8 m a <> load8 (mem (kern s)) a -> permitted mm (Some (tcb (kern s) c)) true a.

Lemma confined_refl s c : confined s c (mem (kern s)).
Proof. by intros a. Qed.

Lemma confined_range s c p len m :
  writable s c p len -> (forall a, ~ (p <= a < p + len) -> load8 m a = load8 (mem (kern s)) a) -> confined s c m.
Proof.
  intros Hw Hm a Ha. destruct (decide (p <= a < p + len)) as [Hin|Hout]; [by apply Hw|]. by apply Hm in Hout.
Qed.

(** The hook changes nothing that permissions depend on. *)
Lemma hooked_tcb s s' c :
  hooked s s' -> memory (tcb (kern s') c) = memory (tcb (kern s) c) /\ task (tcb (kern s') c) = task (tcb (kern s) c).
Proof.
  intros H. apply (hooked_same s s' (fun k => memory (tcb k c) = memory (tcb (kern s) c) /\ task (tcb k c) = task (tcb (kern s) c)) H); [done|].
  intros id. pose proof (set_task_state_frame id Terminated (kern s)) as Hf. split; [by apply (su_proj memory c Hf)|by apply (su_proj task c Hf)].
Qed.

Lemma permitted_same t t' nw a : memory t' = memory t -> task t' = task t -> permitted mm (Some t') nw a -> permitted mm (Some t) nw a.
Proof.
  intros E1 E2 H. destruct H; simplify_eq; rewrite ?E1, ?E2 in *; eauto using pm_stack, pm_canary, pm_sandbox, pm_page, pm_kheap, pm_heap, pm_data, pm_bss, pm_flash.
Qed.

(** A handler confined from its hook on is confined. *)
Lemma confined_hooked s s' c m : hooked s s' -> confined s' c m -> confined s c m.
Proof.
  intros H Hc a Ha. destruct (hooked_tcb s s' c H) as [E1 E2]. apply (permitted_same _ _ _ _ E1 E2), Hc.
  by rewrite (hooked_mem _ _ H).
Qed.

(** Enter a handler whose effect on memory is asked for. *)
Ltac enter_confined s c Hs Ht Hc :=
  match goal with |- context [AUDIT_HOOK_SVC tick now ?n s] =>
    let H := fresh "H" in let E1 := fresh "E" in let E2 := fresh "E" in
    pose proof (hook_hooked tick now n s (sys_ok_kernel _ Hs)) as H; apply (confined_hooked _ _ c _ H);
    apply (hook_ok tick now n) in Hs; destruct (hooked_tcb _ _ c H) as [E1 E2]; rewrite <- (hooked_cur _ _ H) in Hc;
    unfold tcb_ok in Ht; rewrite <- E1, <- E2 in Ht; clear H E1 E2;
    revert Hs Ht Hc; generalize (AUDIT_HOOK_SVC tick now n s); clear s; intros s Hs Ht Hc; rewrite Hc end.

Lemma sigaction_confined s c :
  sys_ok s -> map_ok mm -> tcb_ok (tcb (kern s) c) -> cur s = Some c -> confined s c (mem (kern (handle_sigaction mm tick now s))).
Proof.
  intros Hs Hm Ht Hc. unfold handle_sigaction. cbv zeta. enter_confined s c Hs Ht Hc. pose proof (confined_refl s c) as Hr.
  destruct (_ || _); [done|]. destruct (negb _ && _) eqn:Ev; [done|].
  set (s1 := if arg2 _ =? nullptr then s else _).
  assert (H1 : confined s c (mem (kern s1))).
  { unfold s1. destruct (arg2 (frame_ s) =? nullptr) eqn:En; [done|].
    apply (confined_range s c (arg2 (frame_ s)) 12); [apply valid_writable; [done|done|apply (so_regs _ Hs)|done|by apply negb_false_iff in Ev]|].
    intros a. apply store_action_outside. }
  clearbody s1. clear Ev. destruct (negb _ && _); [exact H1|]. destruct (_ =? _); exact H1.
Qed.

Lemma sigprocmask_confined s c :
  sys_ok s -> map_ok mm -> tcb_ok (tcb (kern s) c) -> cur s = Some c -> confined s c (mem (kern (handle_sigprocmask mm tick now s))).
Proof.
  intros Hs Hm Ht Hc. unfold handle_sigprocmask. cbv zeta. enter_confined s c Hs Ht Hc. pose proof (confined_refl s c) as Hr.
  destruct (negb _ && _) eqn:Ev; [done|].
  set (s1 := if arg2 _ =? nullptr then s else _).
  assert (H1 : confined s c (mem (kern s1))).
  { unfold s1. destruct (arg2 (frame_ s) =? nullptr) eqn:En; [done|].
    apply (confined_range s c (arg2 (frame_ s)) 4); [apply valid_writable; [done|done|apply (so_regs _ Hs)|done|by apply negb_false_iff in Ev]|].
    intros a. apply store32_outside. }
  clearbody s1. clear Ev. repeat match goal with |- context [if ?b then _ else _] => destruct b end; exact H1.
Qed.

Lemma get_time_confined s c :
  sys_ok s -> map_ok mm -> tcb_ok (tcb (kern s) c) -> cur s = Some c -> confined s c (mem (kern (handle_timer_get_time mm tick now s))).
Proof.
  intros Hs Hm Ht Hc. unfold handle_timer_get_time. cbv zeta. enter_confined s c Hs Ht Hc. pose proof (confined_refl s c) as Hr.
  destruct (_ || _) eqn:Ev; [done|]. apply orb_false_iff in Ev as [_ Ev%negb_false_iff].
  unfold Process.get_time. destruct (_ || _); [done|]. cbv zeta. cbn [kern ret set_kern mem set_mem].
  apply (confined_range s c (arg1 (frame_ s)) 4); [apply valid_writable; try done; apply (so_regs _ Hs)|].
  intros a. apply store32_outside.
Qed.

(** A handler that writes no memory after its hook writes none. *)
Ltac enter_mem s Hk :=
  match goal with |- context [AUDIT_HOOK_SVC tick now ?n s] =>
    rewrite <- (hooked_mem _ _ (hook_hooked tick now n s Hk)); generalize (AUDIT_HOOK_SVC tick now n s); clear s Hk; intros s;
    destruct (cur s); [|done]; cbv zeta end.

Lemma kill_mem s : kernel_ok (kern s) -> mem (kern (handle_kill tick now s)) = mem (kern s).
Proof.
  intros Hk. unfold handle_kill. enter_mem s Hk. destruct (_ || _); [done|].
  destruct (get_task_by_id _ _); [|done]. cbn [kern ret set_kern]. destruct (sched_state _); try done; by rewrite mem_set_task_state.
Qed.

Lemma timer_create_mem s : kernel_ok (kern s) -> mem (kern (handle_timer_create mm tick now s)) = mem (kern s).
Proof.
  intros Hk. unfold handle_timer_create. enter_mem s Hk. destruct (_ || _); [done|]. unfold Process.create_timer. by destruct (List.find _ _).
Qed.
Lemma timer_start_mem s : kernel_ok (kern s) -> mem (kern (handle_timer_start mm tick now s)) = mem (kern s).
Proof.
  intros Hk. unfold handle_timer_start. enter_mem s Hk. destruct (_ && _); [done|]. unfold Process.start_timer.
  destruct (_ || _); [done|]. by destruct (_ =? _).
Qed.
Lemma timer_stop_mem s : kernel_ok (kern s) -> mem (kern (handle_timer_stop tick now s)) = mem (kern s).
Proof. intros Hk. unfold handle_timer_stop. enter_mem s Hk. unfold Process.stop_timer. by destruct (_ || _). Qed.
Lemma timer_delete_mem s : kernel_ok (kern s) -> mem (kern (handle_timer_delete tick now s)) = mem (kern s).
Proof. intros Hk. unfold handle_timer_delete. enter_mem s Hk. unfold Process.delete_timer. by destruct (_ || _). Qed.

(** a time, signal or process-timer call changes no byte of memory that its
    caller may not write: every changed byte lies in a range that was validated
    for writing by the calling task, whatever pointers it passed. *)
Theorem syscall_writes_validated n s c a :
  n ∈ direct_calls -> sys_ok s -> map_ok mm -> cur s = Some c -> tcb_ok (tcb (kern s) c) ->
  load8 (mem (kern (dispatch mm run_handler registry_mutex_ tick now n s))) a <> load8 (mem (kern s)) a ->
  permitted mm (Some (tcb (kern s) c)) true a.
Proof.
  intros Hn Hs Hm Hc Ht. pose proof (sys_ok_kernel _ Hs) as Hk.
  repeat (apply elem_of_cons in Hn as [->|Hn]); [..|by apply elem_of_nil in Hn].
  - change (dispatch _ _ _ _ _ 4) with (handle_get_time tick now). unfold handle_get_time. cbv zeta.
    by rewrite (hooked_mem _ _ (hook_hooked tick now 4 s Hk) : mem (kern (ret _ _)) = _).
  - change (dispatch _ _ _ _ _ 20) with (handle_kill tick now). by rewrite kill_mem.
  - by apply sigaction_confined.
  - by apply sigprocmask_confined.
  - change (dispatch _ _ _ _ _ 24) with (handle_timer_create mm tick now). by rewrite timer_create_mem.
  - change (dispatch _ _ _ _ _ 25) with (handle_timer_start mm tick now). by rewrite timer_start_mem.
  - change (dispatch _ _ _ _ _ 26) with (handle_timer_stop tick now). by rewrite timer_stop_mem.
  - change (dispatch _ _ _ _ _ 27) with (handle_timer_delete tick now). by rewrite timer_delete_mem.
  - by apply get_time_confined.
Qed.
End Claims.

Lemma syscall_preserves_kernel_witness :
  kernel_ok (kern (@dispatch no_pages null_drivers demo_map no_handler 3 7 7 16 (demo_sys 0 536871424 8 demo_desc))).
Proof.
  apply (@syscall_preserves_kernel no_pages null_drivers demo_map no_handler 3 7 7 null_drivers_good no_handler_good);
    [apply demo_sys_ok; by vm_compute|done|done].
Defined.

Lemma calls_need_authority_witness :
  refused_call 7 7 16 (demo_sys 5 536871424 8 demo_desc)
    (@dispatch no_pages null_drivers demo_map no_handler 3 7 7 16 (demo_sys 5 536871424 8 demo_desc)).
Proof.
  apply (@calls_need_authority no_pages null_drivers demo_map no_handler 3 7 7 16 (demo_sys 5 536871424 8 demo_desc) 1
    (5, CapEndpoint, right_write)); [apply demo_sys_ok; by vm_compute|reflexivity|reflexivity|by vm_compute].
Defined.

(** a blocking IPC call reports success before it has happened.  With no
    receiver waiting, the server's call on its endpoint queues it as a sender
    and pends a switch, but the handler then runs to its end and stores the
    status, which is still the initial [Ok]: the stacked result register holds
    0 while the task waits in [Sending], and nothing on the path that completes,
    cancels or times out the call writes that register again. *)
Theorem blocked_call_reports_ok :
  let s := @dispatch no_pages null_drivers demo_map no_handler 3 7 7 16 (demo_sys 0 536871424 8 demo_desc) in
  arg0 (frame_ s) = 0 /\ wait_state (kern s) 1 = Sending /\ sched_state (scheduler (tcb (kern s) 1)) <> Ready.
Proof. vm_compute. done. Qed.

(** An audit rule that terminates whoever calls [SYS_SLEEP]. *)
Definition no_sleep_rule : AuditRule := mkRule (event_code SysSleep) (replicate 32 0) 0 0 0 2 true.

(** the punishment of an audit rule is undone by the call it punishes: the hook marks the
    sleeping caller as terminated, but the handler goes on and [sleep_ms] puts the task to
    sleep, from which the next ticks wake it.  The ring holds record and alert. *)
Theorem audit_termination_undone :
  let s := demo_sys 5 0 0 0 in
  let s := mkSys (kern s) (frame_ s) (registry s) (console s) (add_rule no_sleep_rule (audit s)).2 in
  sched_state (scheduler (tcb (kern (AUDIT_HOOK_SVC 7 7 3 s)) 1)) = Terminated /\
  let s := @dispatch no_pages null_drivers demo_map no_handler 3 7 7 3 s in
  sched_state (scheduler (tcb (kern s) 1)) = Sleeping /\ write_count_ (audit s) = 2 /\
  sched_state (scheduler (tcb (Nat.iter 5 tick_update (kern s)) 1)) = Ready.
Proof. vm_compute. done. Qed.

(** * Opening devices *)

(** opening a device mints a capability with exactly the requested rights,
    none of them beyond the entry's default rights, but does not mark the slot
    as occupied: the slot holds a device capability while the occupancy bit that
    the slot allocator reads says it is free. *)
Theorem opened_slot_reported_free {DR : Drivers} t name j rights r k k' :
  (forall d, cap_state k -> is_task k t -> cap_state (dev_open d k).2 /\ is_task (dev_open d k).2 t) ->
  cap_state k -> is_task k t -> is_slot j -> open_body t name j rights r k = (0, k') ->
  cap_type (slot k' t j) = CapDevice /\ cap_rights (slot k' t j) = requested rights /\
  (exists i, find_name k name r = Some i /\ escalates (requested rights) (requested (de_default_rights (entry r i))) = false) /\
  Z.testbit (slot_mask k' t) j = false.
Proof.
  intros Hopen Hk Ht Hj. unfold open_body.
  destruct (find_name k name r) as [i|]; [|done]. cbn [mbind option_bind].
  destruct (de_device (entry r i)) as [d|]; [|done]. cbn [mbind option_bind].
  destruct (escalates _ _) eqn:He; [done|]. destruct (Hopen d Hk Ht) as [Hk1 Ht1].
  destruct (dev_open d k) as [res k1]. cbn [snd] in *. destruct (negb _); [done|]. cbv zeta. intros E. apply (f_equal snd) in E. cbn [snd] in E. subst k'.
  destruct (cap_delete_spec t j k1 Hk1 Ht1 Hj) as [Hu Hk2]. set (k2 := (cap_delete (Some t) j k1).2) in *.
  assert (Ht2 : is_task k2 t) by (unfold is_task; rewrite (up_count _ _ _ _ _ Hu); exact Ht1).
  pose proof (cap_task_valid k2 t Hk2 Ht2) as Hv. pose proof (up_slots _ _ _ _ _ Hu) as Hl. pose proof Hj as [Hj0 _].
  set (k3 := alter_slot t j _ k2). set (k4 := retain (ObjOther d) k3).
  assert (Hv3 : valid_task k3 t) by by apply valid_task_upd.
  assert (Hv4 : valid_task k4 t) by exact Hv3.
  assert (Hl3 : slots_len k3) by by apply slots_len_alter.
  assert (E4 : forall i j, slot k4 i j = slot k3 i j) by done.
  rewrite !slot_alter, !decide_True, E4 by (done || exact Hl3). unfold k3. rewrite slot_alter, decide_True by done.
  split; [done|]. split; [done|]. split; [by exists i|].
  unfold alter_slot at 1. rewrite mask_upd by done. change (slot_mask k4 t) with (slot_mask k3 t).
  unfold k3, alter_slot. rewrite mask_upd by done. rewrite (up_mask _ _ _ _ _ Hu), !decide_True by done.
  rewrite bit_clear_testbit by lia. by rewrite Z.eqb_refl.
Qed.
