(* ===== verification/IpcClaims.v ===== *)
(** Theorems on the wait queues and the synchronous IPC of
    kernel/task/wait_queue.cpp and kernel/core/ipc.cpp, each applied to a
    concrete system. *)
From S2P Require Import Prelude Kernel ReadyQueue WaitQueue Endpoint Mpu TaskTable IpcSpec.

(** * A concrete system with waiting tasks *)

(** The one waiter of a queue, computed from the task table. *)
Definition waiters (k : Kernel) (r : role) (e : Z) : list Z :=
  filter (fun i => wait_state k i = role_state r /\ wait_ep k i = Some e) (task_indices k).

Lemma queue_singleton k LQ r e a : ipc_inv k LQ -> waiters k r e = [a] -> LQ r e = [a].
Proof.
  intros HI Hw. pose proof (wq_nodup _ _ _ (ii_repr _ _ _ HI r e)) as Hnd.
  assert (Hm : forall i, i ∈ LQ r e <-> i = a).
  { intros i. assert (i = a <-> i ∈ waiters k r e) as -> by (by rewrite Hw, list_elem_of_singleton).
    rewrite (ii_mem _ _ _ HI). unfold waiters. rewrite list_elem_of_filter. unfold task_indices.
    rewrite elem_of_seqZ. unfold is_task. rewrite Z.add_0_l. naive_solver. }
  destruct (LQ r e) as [|b l]; [exfalso; by eapply not_elem_of_nil, Hm|].
  assert (b = a) as -> by (apply Hm; set_solver). f_equal.
  destruct l as [|c l]; [done|]. assert (c = a) as -> by (apply Hm; set_solver).
  apply NoDup_cons in Hnd as [Hnd _]. set_solver.
Qed.

Lemma queue_empty k LQ r e : ipc_inv k LQ -> waiters k r e = [] -> LQ r e = [].
Proof.
  intros HI Hw. destruct (LQ r e) as [|b l] eqn:E; [done|]. exfalso.
  assert (Hin : b ∈ LQ r e) by (rewrite E; set_solver). apply (ii_mem _ _ _ HI) in Hin as (_ & Hi & Hs & He).
  assert (Hb : b ∈ waiters k r e).
  { unfold waiters. rewrite list_elem_of_filter. unfold task_indices. rewrite elem_of_seqZ.
    destruct Hi. split; [done|lia]. }
  rewrite Hw in Hb. set_solver.
Qed.

(** The server (1) waits on endpoint 7 with a 64-byte buffer; then the client
    (2), whose message lies at 45056, waits on it instead. *)
Definition demo_server : Kernel := (receive 7 (Some 1) 49152 64 IPC_TIMEOUT_INFINITE 0 demo).2.
Definition demo_client : Kernel := (call 7 (Some 2) 45056 12 53248 32 IPC_TIMEOUT_INFINITE 99 demo).2.
Definition demo_pending : Kernel := (call 7 (Some 2) 45056 12 53248 32 IPC_TIMEOUT_INFINITE 99 demo_server).2.

Lemma demo_server_ok : ipc_ok demo_server.
Proof. apply receive_inv; [apply demo_ok|by vm_compute|by intros []; vm_compute]. Qed.
Lemma demo_client_ok : ipc_ok demo_client.
Proof. apply call_inv; [apply demo_ok|by vm_compute|by intros []; vm_compute]. Qed.
Lemma demo_pending_ok : ipc_ok demo_pending.
Proof. apply call_inv; [apply demo_server_ok|by vm_compute|by intros []; vm_compute]. Qed.

(** * Wait queues *)

(** [WaitQueue::enqueue] puts a task behind every waiter of at least its
    priority and in front of every less urgent one: on a queue sorted by
    priority the result is the stable priority insertion, hence sorted, and
    first-come first-served within a priority. *)
Theorem enqueue_stable_priority k q l t :
  wq_repr k q l -> Z.of_nat (length (tasks k)) = MAX_TASKS -> by_prio (prio k) l ->
  t ∉ l -> valid_task k t ->
  let '(q', k') := enqueue (Some t) q k in
  let l' := filter (fun a => prio k t <= prio k a) l ++ t :: filter (fun a => prio k a < prio k t) l in
  wq_repr k' q' l' /\ by_prio (prio k') l'.
Proof.
  intros HR Hlen Hs Ht Hv. pose proof (enqueue_repr HR Hlen t Ht Hv) as He.
  destruct (enqueue (Some t) q k) as [q' k']. destruct He as [HR' [Hf _]]. cbv zeta.
  rewrite <- pins_split by done. split; [done|].
  apply (by_prio_ext (prio k)); [|by apply pins_sorted].
  intros i. by apply (su_proj (fun t => current_priority (scheduler t)) i Hf).
Qed.

(** The selective dequeues return the first waiter in queue order that
    matches (a sender's label, or a receiver's filter), unlink exactly that one
    and keep the others in order; without a match they return null and change
    nothing. *)
Theorem selective_dequeue_first_match label k q l :
  wq_repr k q l -> Z.of_nat (length (tasks k)) = MAX_TASKS ->
  dequeues_first (matches_sender label) k q l (dequeue_matching_sender label q k) /\
  dequeues_first (matches_receiver label) k q l (dequeue_matching_receiver label q k).
Proof.
  intros HR Hlen. split; [by apply dequeue_matching_sender_spec|by apply dequeue_matching_receiver_spec].
Qed.

(** * Delivery *)

(** C2: a [call] that finds a matching receiver hands it the message of the
    sender at once: at most 4 KB and at most the receiver's buffer, with the
    sender's id, the badge and the label; the receiver becomes ready.  Unless
    the call is non-blocking, the sender then waits for the reply of exactly
    this receiver, which runs with at least the sender's priority. *)
Theorem call_delivers_to_first_match e s msg len rb mrl timeout bdg k LQ l1 r l2 :
  ipc_inv k LQ -> is_task k s -> idle_ipc (wait_state k s) ->
  LQ RecvQ e = l1 ++ r :: l2 ->
  matches_receiver (call_label msg len (mem k)) (tcb k r) = true ->
  (forall i, i ∈ l1 -> matches_receiver (call_label msg len (mem k)) (tcb k i) = false) ->
  let '(st, k') := call e (Some s) msg len rb mrl timeout bdg k in
  let c := ipc_copy len (max_len (ipc (tcb k r))) msg (msg_buf (ipc (tcb k r))) k in
  st = IpcOk /\ has_message k' r s c.1 bdg (call_label msg len (mem k)) /\ mem k' = mem c.2 /\
  sched_state (scheduler (tcb k' r)) = Ready /\
  (timeout = IPC_NONBLOCK -> ipc_state (ipc (tcb k' s)) = IpcReady) /\
  (timeout <> IPC_NONBLOCK -> awaits_reply k' s r /\ waiting_endpoint (ipc (tcb k' s)) = Some e).
Proof. apply call_fast_path. Qed.

Lemma call_delivers_to_first_match_witness :
  let '(st, k') := call 7 (Some 2) 45056 12 53248 32 IPC_TIMEOUT_INFINITE 99 demo_server in
  st = IpcOk /\ has_message k' 1 2 12 99 0.
Proof.
  destruct demo_server_ok as [LQ HI].
  pose proof (call_delivers_to_first_match 7 2 45056 12 53248 32 IPC_TIMEOUT_INFINITE 99 demo_server LQ [] 1 [] HI) as H.
  destruct (call _ _ _ _ _ _ _ _ _) as [st k']. destruct H as (H1 & H2 & _).
  - by vm_compute.
  - by intros []; vm_compute.
  - apply (queue_singleton demo_server LQ RecvQ 7 1 HI). by vm_compute.
  - by vm_compute.
  - intros i Hi. destruct (proj1 (elem_of_nil i) Hi).
  - split; [exact H1|exact H2].
Defined.

(** a [receive] that finds a matching sender takes the first one in queue
    order: message, badge and label are those of that sender, which now waits
    for this receiver's reply and lends it its priority. *)
Theorem receive_takes_first_match e r buf ml timeout label k LQ l1 s l2 :
  ipc_inv k LQ -> is_task k r -> idle_ipc (wait_state k r) ->
  LQ SendQ e = l1 ++ s :: l2 ->
  matches_sender label (tcb k s) = true ->
  (forall i, i ∈ l1 -> matches_sender label (tcb k i) = false) ->
  let '(st, k') := receive e (Some r) buf ml timeout label k in
  let c := ipc_copy (msg_len (ipc (tcb k s))) ml (msg_buf (ipc (tcb k s))) buf k in
  st = IpcOk /\ has_message k' r s c.1 (badge (ipc (tcb k s))) (msg_type (ipc (tcb k s))) /\
  mem k' = mem c.2 /\ awaits_reply k' s r /\ wait_ep k' s = Some e.
Proof. apply receive_fast_path. Qed.

(** The transfer moves [min(len, capacity, 4096)] bytes between disjoint
    non-null buffers, reports that length, and touches no other byte. *)
Theorem ipc_copy_transfers len max src dst k :
  0 < len -> 0 < max -> src <> nullptr -> dst <> nullptr -> (dst + len <= src \/ src + len <= dst) ->
  let n := Z.min (Z.min len max) MAX_IPC_MSG_SIZE in
  (ipc_copy len max src dst k).1 = n /\
  forall a, load8 (mem (ipc_copy len max src dst k).2) a =
    if decide (dst <= a < dst + n) then load8 (mem k) (src + (a - dst)) else load8 (mem k) a.
Proof.
  intros Hl Hm Hs Hd Hdis. assert (Hn : clip_len len max = Z.min (Z.min len max) MAX_IPC_MSG_SIZE).
  { unfold clip_len. cbv zeta. destruct (Z.ltb_spec len max); zbool. }
  unfold ipc_copy. cbv zeta. rewrite Hn. set (n := Z.min _ _) in *.
  assert (0 < n <= len) by (unfold n, MAX_IPC_MSG_SIZE; lia).
  rewrite (proj2 (Z.ltb_lt 0 n)), !(proj2 (Z.eqb_neq _ nullptr)) by (done || lia). cbn [andb negb fst snd].
  split; [done|]. intros a. cbn [mem set_mem]. apply copy_bytes_spec; lia.
Qed.

(** a [call] without a matching receiver touches no message memory; with
    [IPC_NONBLOCK] it returns [WouldBlock] and leaves every queue and the
    caller's scheduling alone, otherwise the caller is blocked in the send queue
    at the place its priority gives it. *)
Theorem call_without_receiver e s msg len rb mrl timeout bdg k LQ :
  ipc_inv k LQ -> is_task k s -> idle_ipc (wait_state k s) ->
  (forall i, i ∈ LQ RecvQ e -> matches_receiver (call_label msg len (mem k)) (tcb k i) = false) ->
  let '(st, k') := call e (Some s) msg len rb mrl timeout bdg k in
  mem k' = mem k /\
  if timeout =? IPC_NONBLOCK
  then st = IpcWouldBlock /\ ipc_inv k' LQ /\ wait_state k' s = IpcReady /\
       sched_state (scheduler (tcb k' s)) = sched_state (scheduler (tcb k s))
  else st = IpcOk /\ ipc_inv k' (upl LQ SendQ e (pins (prio k) s (LQ SendQ e))) /\
       sched_state (scheduler (tcb k' s)) = Blocked_On_Notify.
Proof. apply call_no_receiver. Qed.

(** * Replies *)

(** reply authorisation.  [reply] has an effect only on a sender that is
    reply-blocked on exactly the replying task; for any other target it returns
    an error and the kernel state is unchanged. *)
Theorem reply_needs_authority r sid msg len k :
  (forall s, get_task_by_id k sid = Some s ->
     wait_state k s <> ReplyBlocked \/ receiver_id (ipc (tcb k s)) <> sched_id (scheduler (tcb k r))) ->
  let '(st, k') := reply (Some r) sid msg len k in
  (st = IpcInvalid \/ st = IpcReceiverDead) /\ k' = k.
Proof.
  intros Hno. unfold reply. destruct (_ <=? _); [by split; [right|]|].
  destruct (get_task_by_id k sid) as [s|]; [|by split; [right|]].
  case_bool_decide as Hst; cbn [andb]; [|by split; [left|]].
  destruct (Z.eqb_spec (receiver_id (ipc (tcb k s))) (sched_id (scheduler (tcb k r)))); [|by split; [left|]].
  destruct (Hno s eq_refl); done.
Qed.

(** C22: an authorised [reply] copies the answer into the sender's reply buffer,
    wakes the sender with status [Ok], and restores the replying task's
    priority to the largest of its base priority and the priorities of the
    senders that still wait for it (priority-inheritance release). *)
Theorem reply_wakes_and_restores_priority r s msg len k :
  ipc_ok k -> is_task k r -> is_task k s -> wait_state k r = IpcReady ->
  wait_state k s = ReplyBlocked -> receiver_id (ipc (tcb k s)) = r ->
  let '(st, k') := reply (Some r) s msg len k in
  let c := ipc_copy len (max_len (ipc (tcb k s))) msg (reply_buf (ipc (tcb k s))) k in
  st = IpcOk /\ mem k' = mem c.2 /\ msg_len (ipc (tcb k' s)) = c.1 /\
  wait_state k' s = IpcReady /\ ipc_status (ipc (tcb k' s)) = IpcOk /\ wait_ep k' s = None /\
  sched_state (scheduler (tcb k' s)) = Ready /\ pip_priority k' r.
Proof. apply reply_authorised. Qed.

Lemma reply_wakes_and_restores_priority_witness :
  let k' := (reply (Some 1) 2 0 0 demo_pending).2 in
  prio demo_pending 1 = Prio_High /\ prio k' 1 = Prio_Normal /\ sched_state (scheduler (tcb k' 2)) = Ready /\
  pip_priority k' 1.
Proof.
  pose proof (reply_wakes_and_restores_priority 1 2 0 0 demo_pending demo_pending_ok) as H.
  split; [by vm_compute|]. split; [by vm_compute|]. destruct (reply _ _ _ _ _) as [st k'].
  destruct H as (_ & _ & _ & _ & _ & _ & H1 & H2); [by vm_compute..|]. split; [exact H1|exact H2].
Defined.

(** * Cancellation *)

(** destroying an endpoint releases everybody.  [cancel_all] empties both
    queues (its loops terminate), no task waits on the endpoint any more, every
    task that did is ready with the given status, and every other task keeps its
    IPC and scheduling state; the IPC invariant holds afterwards. *)
Theorem cancel_all_releases_everyone e reason k :
  ipc_ok k ->
  exists LQ, ipc_inv (cancel_all e reason k) LQ /\ LQ SendQ e = [] /\ LQ RecvQ e = [] /\
    cancels e reason k (cancel_all e reason k) /\
    forall i, is_task k i -> wait_ep (cancel_all e reason k) i <> Some e.
Proof. apply cancel_all_spec. Qed.

