(* ===== verification/SchedClaims.v ===== *)
(** Theorems on the scheduler of kernel/task/task.hpp: the reachable states,
    the ready queues, task selection, signals, time and the task table. *)
From S2P Require Import Prelude Kernel Ring ReadyQueue WaitQueue Endpoint Mpu TaskTable IpcSpec Scheduler.
From S2P Require Import Tickless Preserve System.

(** The demo system with its scheduler running the client (2). *)
Definition demo_running : Kernel := set_g_current_tcb_ptr (Some 2) (start demo).

Lemma kernel_ok_run c k : kernel_ok k -> is_task k c -> kernel_ok (set_g_current_tcb_ptr (Some c) k).
Proof.
  intros Hk Hc. apply (kernel_ok_env k); try done. split; [by intros ? [= <-]|apply (ko_cur _ Hk)].
Qed.

Lemma demo_running_ok : kernel_ok demo_running.
Proof. apply kernel_ok_run; [apply start_ok; [apply demo_kernel_ok|]|]; by vm_compute. Qed.

(** The same system running the idle task (0). *)
Definition demo_idle : Kernel := set_g_current_tcb_ptr (Some 0) (start demo).

Lemma demo_idle_ok : kernel_ok demo_idle.
Proof. apply kernel_ok_run; [apply start_ok; [apply demo_kernel_ok|]|]; by vm_compute. Qed.

(** * Reachable states *)

Lemma demo_reachable : rtc (kstep no_handler) boot_kernel demo.
Proof.
  unfold demo, spawn.
  do 3 (eapply rtc_r; [|apply ks_create; [by vm_compute|intros i Hi; apply (all_tasks
    (fun k i => bool_decide (sched_state (scheduler (tcb k i)) = Unallocated -> wait_state k i = IpcReady))) in Hi;
    [apply bool_decide_eq_true in Hi; intros Hst; rewrite (Hi Hst); by intros []|by vm_compute]]]). apply rtc_refl.
Qed.

(** C1: whatever sequence of IPC operations, signals, ticks, scheduling points, task
    creations and destructions the kernel executes from boot, with any signal handlers
    that enter the kernel only through its operations, as long as no task that is still
    in an endpoint queue makes an IPC call or receive, no slot is reused while it is
    in one, new tasks have one of the 32 priorities and a waiter is cancelled only on
    the endpoint that holds it, the ready queues stay well-formed rings that hold exactly the ready tasks of
    each priority, the endpoint queues hold exactly the tasks blocked on them,
    priorities stay in range and the dispatcher's pointers name allocated slots.  The
    code does not ensure the condition, and without it the queues break:
    [signalled_waiter_corrupts_queue]. *)
Theorem reachable_kernel_ok `{Arch} run_handler `{!GoodHandlers run_handler} k :
  rtc (kstep run_handler) boot_kernel k -> kernel_ok k.
Proof. intros Hr. exact (reachable_ok run_handler _ _ boot_kernel_kernel_ok Hr). Qed.

Lemma reachable_kernel_ok_witness : kernel_ok demo.
Proof. apply (reachable_kernel_ok no_handler), demo_reachable. Defined.

(** ** A waiter woken by a signal *)

(** The client (2) calls endpoint 0 and is queued, a signal makes it ready again, and it
    is switched to. *)
Definition woken_waiter : Kernel :=
  let k := (call 0 (Some 2) 0 0 0 0 IPC_TIMEOUT_INFINITE 0 (start demo)).2 in
  pendsv_handler (schedule no_handler (send_signal 2 2 k).2).

Lemma self_loop_not_ok k e i :
  head_ (send_queue_ (ep k e)) = Some i -> blocked_next (ipc (tcb k i)) = Some i -> ~ kernel_ok k.
Proof.
  intros E1 E2 [[LQ HI] _ _]. pose proof (ii_repr _ _ _ HI SendQ e) as [Hh _ Hs Hn _]. cbn [role_queue] in Hh.
  rewrite E1 in Hh. destruct (LQ SendQ e) as [|x l]; [done|]. injection Hh as <-. destruct Hs as [Hs _]. unfold bn in Hs.
  rewrite E2 in Hs. destruct l as [|y l]; [done|]. injection Hs as <-. apply NoDup_cons in Hn as [Hn _]. by destruct Hn; left.
Qed.

Lemma woken_waiter_reachable : rtc (kstep no_handler) boot_kernel woken_waiter.
Proof.
  unfold woken_waiter. cbv zeta.
  eapply rtc_r; [|apply ks_pendsv]. eapply rtc_r; [|apply ks_schedule]. eapply rtc_r; [|apply ks_signal].
  eapply rtc_r; [|apply ks_call; [by vm_compute|assert (wait_state (start demo) 2 = IpcReady) as -> by (by vm_compute); by intros []]].
  eapply rtc_r; [apply demo_reachable|apply ks_start; by vm_compute].
Qed.

(** a signal readies a task that is blocked in an endpoint queue without taking it out of
    the queue: the task runs again, and its next call queues it a second time, behind
    itself, so that the queue is a ring that no operation can walk to its end.  The state
    before that call is reachable and well formed. *)
Theorem signalled_waiter_corrupts_queue :
  rtc (kstep no_handler) boot_kernel woken_waiter /\ g_current_tcb_ptr woken_waiter = Some 2 /\
  ~ kernel_ok (call 0 (Some 2) 0 0 0 0 IPC_TIMEOUT_INFINITE 0 woken_waiter).2.
Proof.
  split; [apply woken_waiter_reachable|split; [by vm_compute|]].
  apply (self_loop_not_ok _ 0 2); by vm_compute.
Qed.

(** * Ready queues *)

(** C23: refinement of the ready queues.  On the abstract queues [Q] (one list of
    tasks per priority) [set_task_state] removes a task that leaves [Ready] and
    appends one that becomes [Ready] at the tail of its priority, and
    [set_task_priority] moves a ready task to the tail of its new priority; the
    linked rings, queue heads and the bitmap represent exactly these lists. *)
Theorem ready_queue_refinement k Q id s p :
  sched_inv k Q -> 0 <= id -> 0 <= p ->
  sched_inv (set_task_state id s k) (abs_set_state k id s Q) /\
  sched_inv (set_task_priority id p k) (abs_set_priority k id p Q).
Proof. intros HI H0 Hp. split; [by apply set_task_state_inv|by apply set_task_priority_inv]. Qed.

Lemma ready_queue_refinement_witness :
  exists Q, sched_inv (set_task_state 1 Sleeping demo) (abs_set_state demo 1 Sleeping Q).
Proof.
  destruct (kernel_ok_sched _ demo_kernel_ok) as [Q HI]. exists Q.
  destruct (ready_queue_refinement demo Q 1 Sleeping 0 HI) as [H _]; [lia|lia|exact H].
Defined.

(** The bitmap lookup is the highest priority of any ready task, and -1
    exactly when no task is ready. *)
Theorem highest_ready_priority k Q :
  sched_inv k Q ->
  (get_highest_ready_priority k = -1 <->
     forall i, is_task k i -> sched_state (scheduler (tcb k i)) <> Ready) /\
  forall i, is_task k i -> sched_state (scheduler (tcb k i)) = Ready ->
    prio_slot (tcb k i) <= get_highest_ready_priority k /\
    exists h l, Q (get_highest_ready_priority k) = h :: l.
Proof.
  intros HI. pose proof (mask_range HI) as Hm. unfold get_highest_ready_priority.
  assert (Hbits : forall i, is_task k i -> sched_state (scheduler (tcb k i)) = Ready ->
    prio_slot (tcb k i) <= find_highest_bit (ready_bitmask k) /\ 0 < ready_bitmask k).
  { intros i Hi Hr. destruct (ready_bit HI i Hi Hr) as [Hb [P0 _]].
    pose proof (bits_nonzero _ _ (proj1 Hm) Hb) as Hpos.
    destruct (find_highest_bit_spec _ Hpos) as (_ & _ & Habove). split; [|done].
    destruct (Z.le_gt_cases (prio_slot (tcb k i)) (find_highest_bit (ready_bitmask k))); [done|].
    rewrite Habove in Hb by lia. done. }
  split; [split|].
  - intros Hf i Hi Hr. destruct (Hbits i Hi Hr) as [Hle Hpos].
    pose proof (find_highest_bit_spec _ Hpos). lia.
  - intros Hno. destruct (Z.eq_dec (ready_bitmask k) 0) as [->|Hne]; [done|].
    destruct (find_highest_bit_spec (ready_bitmask k)) as (P0 & Hb & _); [lia|].
    destruct (ready_head_task HI _ P0 Hb) as (_ & _ & Ht & Hr & _). by apply Hno in Hr.
  - intros i Hi Hr. destruct (Hbits i Hi Hr) as [Hle Hpos]. split; [done|].
    destruct (find_highest_bit_spec _ Hpos) as (P0 & Hb & _).
    destruct (ready_head_task HI _ P0 Hb) as (_ & Hh & _). destruct (Q _); [done|]. by eexists _, _.
Qed.

(** * Selection *)

(** The queues after the round-robin step of [schedule]. *)
Definition after_rotation (k : Kernel) (c : Z) (Q : Z -> list Z) : Z -> list Z :=
  if decide (sched_state (scheduler (tcb k c)) = Ready) then abs_rotate k c Q else Q.

Definition rotated (c : Z) (k : Kernel) : Kernel :=
  if decide (sched_state (scheduler (tcb k c)) = Terminated) then k else rotate_head c k.

Lemma rotated_inv k Q c :
  sched_inv k Q -> is_task k c -> current_priority (scheduler (tcb k c)) < NUM_PRIORITIES ->
  sched_inv (rotated c k) (after_rotation k c Q).
Proof.
  intros HI Hc Hp. unfold rotated, after_rotation.
  destruct (decide (sched_state (scheduler (tcb k c)) = Ready)) as [Hr|Hr].
  - rewrite decide_False by congruence. by apply rotate_head_inv.
  - case_decide; [done|]. unfold rotate_head. by rewrite decide_False.
Qed.

Lemma rotated_frame c k : frame (rotated c k) = frame k /\ tasks (rotated c k) = tasks k /\
  task_count (rotated c k) = task_count k.
Proof. unfold rotated, rotate_head. cbv zeta. repeat case_decide; try done. by destruct (_ =? _). Qed.

Lemma schedule_no_signal rh k c :
  started_ k = true -> 1 < task_count k -> current_id k = c ->
  pending_signals (security (tcb k c)) = 0 ->
  schedule rh k =
    let k1 := rotated c k in
    let k2 := switch_to c (select_next c k1) k1 in
    watchdog_feed (current_priority (scheduler (tcb k2 c))) k2.
Proof.
  intros Hst Hcnt Hc Hp. unfold schedule. rewrite Hst, (proj2 (Z.leb_gt _ _)), Hc by lia. cbn [negb orb].
  unfold dispatch_signals. rewrite Hp. cbn [Z.eqb]. done.
Qed.

Lemma switch_to_next c n k : n <> c ->
  g_next_tcb_ptr (switch_to c n k) = Some n /\ pendsv (switch_to c n k) = true.
Proof.
  intros Hne. unfold switch_to. rewrite (proj2 (Z.eqb_neq _ _)) by done. cbv zeta. by destruct (negb _).
Qed.

Lemma feed_fields p k :
  g_next_tcb_ptr (watchdog_feed p k) = g_next_tcb_ptr k /\ pendsv (watchdog_feed p k) = pendsv k.
Proof. done. Qed.

Lemma switch_to_same c k : switch_to c c k = k.
Proof. unfold switch_to. by rewrite Z.eqb_refl. Qed.

(** C15: preemption and round robin.  With no signal pending, [schedule] first
    moves the running task from the head to the tail of its queue; when the head of the
    highest non-empty priority that the frame scheduler allows is then another task, it
    requests a switch to that task, and the queues change only by the rotation.  When
    the running task is itself that head, an idle task may be chosen instead:
    [running_task_preempted_by_idle]. *)
Theorem schedule_switches_to_highest rh k Q c p h l :
  sched_inv k Q -> is_task k c -> current_priority (scheduler (tcb k c)) < NUM_PRIORITIES ->
  started_ k = true -> 1 < task_count k -> current_id k = c ->
  pending_signals (security (tcb k c)) = 0 ->
  is_prio p -> after_rotation k c Q p = h :: l -> h <> c ->
  is_task_allowed (frame k) p = true ->
  (forall q, p < q -> is_prio q -> after_rotation k c Q q <> [] -> is_task_allowed (frame k) q = false) ->
  g_next_tcb_ptr (schedule rh k) = Some h /\ pendsv (schedule rh k) = true /\
  sched_inv (schedule rh k) (after_rotation k c Q).
Proof.
  intros HI Hc Hcp Hst Hcnt Hid Hsig Hp Hq Hne Ha Hhi.
  rewrite (schedule_no_signal rh k c) by done. cbv zeta.
  pose proof (rotated_inv k Q c HI Hc Hcp) as HR. destruct (rotated_frame c k) as (Ef & _ & _).
  set (k1 := rotated c k) in *. rewrite <- Ef in Ha.
  rewrite (select_next_highest HR c p h l); [|done..|intros q; rewrite Ef; apply Hhi|done].
  destruct (switch_to_next c h k1 Hne) as [E1 E2]. split; [exact E1|]. split; [exact E2|].
  destruct (switch_to_tasks c h k1) as (F1 & F2 & F3 & F4 & _).
  eapply sched_inv_ext; [| |exact HR].
  - split; [by rewrite <- F1|]. done.
  - intros i _. unfold tcb. by rewrite <- F1.
Qed.

Lemma schedule_switches_to_highest_witness :
  g_next_tcb_ptr (schedule no_handler demo_idle) = Some 2.
Proof.
  set (k := demo_idle). destruct (kernel_ok_sched _ demo_idle_ok) as [Q HQ]. fold k in HQ.
  pose proof (rotated_inv k Q 0 HQ ltac:(by vm_compute) ltac:(by vm_compute)) as HR.
  pose proof (ready_head_task HR 16 ltac:(lia) ltac:(by vm_compute)) as (_ & Hh & _).
  destruct (after_rotation k 0 Q 16) as [|h l] eqn:Hq; [done|].
  assert (h = 2) as -> by (injection Hh as ->; by vm_compute).
  destruct (schedule_switches_to_highest no_handler k Q 0 16 2 l HQ) as [H _];
    [by vm_compute|by vm_compute|by vm_compute|by vm_compute|by vm_compute|by vm_compute|by vm_compute
    |exact Hq|lia|by vm_compute| |exact H].
  intros q Hq1 Hq2 Hq3. exfalso. destruct (after_rotation k 0 Q q) as [|b t] eqn:Hb; [done|].
  assert (Hbit : Z.testbit (ready_bitmask (rotated 0 k)) q = true).
  { rewrite (rl_bit _ _ (si_linked _ _ HR)), Hb by done. by apply bool_decide_eq_true. }
  change (ready_bitmask (rotated 0 k)) with 65793 in Hbit.
  rewrite (bits_above 65793 17 q) in Hbit; [done|lia|lia].
Defined.

(** The dispatcher never selects a blocked task.  After a scheduling point a
    requested switch targets a ready task, whatever the frame filter and the
    signals did, as long as some task is ready. *)
Theorem schedule_targets_ready_task rh k Q c i :
  sched_inv k Q -> is_task k c -> current_priority (scheduler (tcb k c)) < NUM_PRIORITIES ->
  started_ k = true -> 1 < task_count k -> current_id k = c ->
  pending_signals (security (tcb k c)) = 0 -> pendsv k = false ->
  is_task k i -> sched_state (scheduler (tcb k i)) = Ready ->
  pendsv (schedule rh k) = true ->
  exists n, g_next_tcb_ptr (schedule rh k) = Some n /\ is_task k n /\
    sched_state (scheduler (tcb k n)) = Ready /\ n <> c.
Proof.
  intros HI Hc Hcp Hst Hcnt Hid Hsig Hps Hi Hr. rewrite (schedule_no_signal rh k c) by done. cbv zeta.
  pose proof (rotated_inv k Q c HI Hc Hcp) as HR. destruct (rotated_frame c k) as (_ & Et & Ec).
  assert (Hps1 : pendsv (rotated c k) = false).
  { unfold rotated, rotate_head. cbv zeta. repeat case_decide; try done. by destruct (_ =? _). }
  set (k1 := rotated c k) in *.
  assert (Htcb : forall j, tcb k1 j = tcb k j) by (intros j; unfold tcb; by rewrite Et).
  assert (Htask : forall j, is_task k1 j <-> is_task k j) by (intros j; unfold is_task; by rewrite Ec).
  pose proof (select_next_task HR c (proj2 (Htask c) Hc)) as [Hn _].
  pose proof (select_next_ready HR c i (proj2 (Htask c) Hc) (proj2 (Htask i) Hi)) as Hrd.
  rewrite !Htcb in Hrd. specialize (Hrd Hr). revert Hn Hrd. generalize (select_next c k1). intros n Hn Hrd.
  destruct (feed_fields (current_priority (scheduler (tcb (switch_to c n k1) c))) (switch_to c n k1)) as [-> ->].
  destruct (decide (n = c)) as [->|Hne]; [rewrite switch_to_same; congruence|].
  destruct (switch_to_next c n k1 Hne) as [E1 E2]. intros _. exists n. split; [exact E1|].
  split; [by apply Htask|]. split; [done|done].
Qed.

(** The running task, when it is the only one at the highest allowed priority,
    is passed over for the idle queue as soon as that queue is not empty. *)
Lemma select_next_idle k Q c p h l :
  sched_inv k Q -> is_task k c -> is_prio p -> 0 < p -> Q p = [c] -> Q 0 = h :: l ->
  is_task_allowed (frame k) p = true ->
  (forall q, p < q -> is_prio q -> Q q <> [] -> is_task_allowed (frame k) q = false) ->
  select_next c k = h /\ h <> c.
Proof.
  intros HI Hc Hp Hp0 Hq Hq0 Ha Hhi. pose proof (si_linked _ _ HI) as HL.
  assert (H0 : is_prio 0) by (unfold is_prio, NUM_PRIORITIES; lia).
  assert (Hb0 : Z.testbit (ready_bitmask k) 0 = true).
  { rewrite (rl_bit _ _ HL) by done. rewrite Hq0. by apply bool_decide_eq_true. }
  destruct (ready_head_task HI 0 ltac:(lia) Hb0) as (_ & _ & _ & Hr0 & _).
  assert (Hh0 : zlookup (ready_head k) 0 = h) by by rewrite (rl_head _ _ HL), Hq0.
  assert (Hne : h <> c).
  { intros ->. assert (0 = p); [|lia]. apply (rl_disjoint HL 0 p c); rewrite ?Hq, ?Hq0; set_solver. }
  split; [|done]. unfold select_next. cbv zeta.
  assert (Hpk : match pick_allowed prio_fuel (ready_bitmask k) k with Some h => h | None => c end = c).
  { pose proof (pick_allowed_spec prio_fuel _ k (mask_range HI)) as Hs.
    destruct (pick_allowed _ _ _) as [h'|]; [|done]. destruct Hs as (p' & [P0 _] & Hb & Ha' & -> & Hmax).
    destruct (ready_head_task HI p' P0 Hb) as (Hp' & Hhd & _).
    assert (p' = p) as ->; [|rewrite Hq in Hhd; by injection Hhd].
    destruct (Z.lt_trichotomy p p') as [Hlt|[?|Hlt]]; [|done|].
    - rewrite Hhi in Ha'; [done|done|done|]. intros E. by rewrite E in Hhd.
    - rewrite (Hmax p) in Ha; [done|done|]. rewrite (rl_bit _ _ HL) by done. rewrite Hq.
      by apply bool_decide_eq_true. }
  rewrite Hpk, Z.eqb_refl, bit_test_testbit, Hb0, Hh0 by lia. rewrite Hh0 in Hr0. by rewrite decide_True.
Qed.

(** the first-level fallback of [schedule] also fires when the frame filter
    blocked nothing: a running task that is alone at the highest ready priority
    loses the CPU to an idle-priority task at the next scheduling point, although
    the comment restricts the fallback to the case that every priority was
    filtered out. *)
Theorem running_task_preempted_by_idle rh k Q c p h l :
  sched_inv k Q -> is_task k c -> current_priority (scheduler (tcb k c)) < NUM_PRIORITIES ->
  started_ k = true -> 1 < task_count k -> current_id k = c ->
  pending_signals (security (tcb k c)) = 0 ->
  is_prio p -> 0 < p -> Q p = [c] -> Q 0 = h :: l ->
  (forall q, is_prio q -> is_task_allowed (frame k) q = true) ->
  (forall q, p < q -> is_prio q -> Q q = []) ->
  g_next_tcb_ptr (schedule rh k) = Some h /\ pendsv (schedule rh k) = true /\
  prio_slot (tcb k h) < prio_slot (tcb k c).
Proof.
  intros HI Hc Hcp Hst Hcnt Hid Hsig Hp Hp0 Hq Hq0 Ha Hhi. pose proof (si_linked _ _ HI) as HL.
  assert (Hsc : prio_slot (tcb k c) = p) by (apply (rl_elem _ _ HL p c Hp); rewrite Hq; set_solver).
  assert (Hrot : forall q, after_rotation k c Q q = Q q).
  { intros q. unfold after_rotation, abs_rotate. cbv zeta. rewrite Hsc, Hq. case_decide; [|done].
    rewrite decide_True by done. unfold upq. by case_decide; [subst|]. }
  rewrite (schedule_no_signal rh k c) by done. cbv zeta.
  pose proof (rotated_inv k Q c HI Hc Hcp) as HR. destruct (rotated_frame c k) as (Ef & Et & Ec).
  set (k1 := rotated c k) in *.
  destruct (select_next_idle k1 (after_rotation k c Q) c p h l HR) as [Hsel Hne]; rewrite ?Hrot; try done.
  - unfold is_task. by rewrite Ec.
  - rewrite Ef. by apply Ha.
  - intros q Hlt Hpq. rewrite Hrot, Hhi by done. done.
  - rewrite Hsel.
    destruct (feed_fields (current_priority (scheduler (tcb (switch_to c h k1) c))) (switch_to c h k1)) as [-> ->].
    destruct (switch_to_next c h k1 Hne) as [E1 E2]. split; [done|]. split; [done|].
    assert (Hsh : prio_slot (tcb k h) = 0).
    { apply (rl_elem _ _ HL 0 h); [unfold is_prio, NUM_PRIORITIES; lia|]. rewrite Hq0. set_solver. }
    lia.
Qed.

(** * Signals *)

(** SIGKILL can be neither masked nor handled.  A task with SIGKILL pending
    is [Terminated] when [dispatch_signals] returns, whatever its signal mask and
    whatever the handlers of lower-numbered signals did. *)
Theorem sigkill_terminates run_handler `{!GoodHandlers run_handler} i k :
  kernel_ok k -> is_task k i -> Z.testbit (pending_signals (security (tcb k i))) SIGKILL = true ->
  sched_state (scheduler (tcb (dispatch_signals run_handler i k) i)) = Terminated.
Proof.
  intros Hk Hi Hp. unfold dispatch_signals. cbv zeta.
  set (s := security (tcb k i)) in *. assert (Hand : Z.land (pending_signals s) (bit SIGKILL) <> 0).
  { intros E. assert (Z.testbit (Z.land (pending_signals s) (bit SIGKILL)) SIGKILL = false) as Hf by (rewrite E; apply Z.bits_0).
    rewrite Z.land_spec, Hp, bit_testbit in Hf by (unfold SIGKILL; lia). done. }
  assert (Hp0 : pending_signals s <> 0) by (intros E; by rewrite E, Z.bits_0 in Hp).
  rewrite (proj2 (Z.eqb_neq _ _)) by done.
  rewrite (proj2 (Z.eqb_neq _ _)) by (intros [_ E]%Z.lor_eq_0_iff; done).
  generalize dependent (pending_signals s). clear s. intros pend Hp Hand Hp0. set (k0 := upd i (set_pending_signals 0) k).
  assert (H0 : kernel_ok k0 /\ is_task k0 i) by (split; [by apply kernel_ok_upd|done]).
  clearbody k0. clear Hk Hi Hand Hp0.
  assert (Hloop : forall sigs k, SIGKILL ∈ sigs -> kernel_ok k -> is_task k i ->
    sched_state (scheduler (tcb (dispatch_loop run_handler i pend sigs k) i)) = Terminated).
  { clear k k0 H0. intros sigs. induction sigs as [|sig sigs IH]; intros k Hin Hk Hi; [set_solver|]. cbn [dispatch_loop].
    destruct (Z.eqb_spec sig SIGKILL) as [->|Hne].
    - rewrite bit_test_testbit, Hp by (unfold SIGKILL; lia). cbn [negb andb].
      apply state_of_eq; [by apply kernel_ok_sched|done].
    - assert (Hin' : SIGKILL ∈ sigs) by set_solver. destruct (bit_test pend sig); [|by apply IH].
      destruct (_ && _); [apply IH; [done|by apply kernel_ok_upd|done]|].
      destruct (run_action_ok run_handler i sig k Hk) as [H1 C1]. apply IH; [done|done|]. destruct Hi. split; lia. }
  apply Hloop; [|apply H0..]. unfold handled_signals. apply elem_of_seqZ. unfold SIGKILL, NUM_SIG_ACTIONS. lia.
Qed.

Lemma dispatch_loop_none rh i pend sigs k :
  (forall s, s ∈ sigs -> bit_test pend s = false) -> dispatch_loop rh i pend sigs k = k.
Proof.
  revert k. induction sigs as [|s sigs IH]; intros k Hs; cbn [dispatch_loop]; [done|].
  rewrite Hs by set_solver. apply IH. intros; apply Hs; set_solver.
Qed.

(** Signals 16 to 31 are lost.  [send_signal] accepts them and reports
    success, but [dispatch_signals] clears the whole pending word and looks only
    at signals 1 to 15: no handler runs, the task is not terminated and the
    signal is no longer pending. *)
Theorem high_signals_are_dropped rh i sig k :
  16 <= sig < 32 -> is_task k i -> valid_task k i ->
  pending_signals (security (tcb k i)) = 0 -> signal_mask (security (tcb k i)) = 0 ->
  sched_state (scheduler (tcb k i)) = Ready ->
  let '(ok, k1) := send_signal i sig k in
  ok = true /\ pending_signals (security (tcb k1 i)) = bit sig /\
  dispatch_signals rh i k1 = upd i (set_pending_signals 0) k1.
Proof.
  intros Hsig Hi Hv Hp Hm Hr. unfold send_signal. destruct Hi as [Hi0 Hi1].
  rewrite (proj2 (Z.leb_gt _ _)) by lia. rewrite (proj2 (Z.leb_gt sig 0)), (proj2 (Z.leb_gt 32 sig)) by lia.
  cbn [orb]. rewrite decide_False by congruence. cbv zeta.
  set (k1 := upd i _ k). assert (E : tcb k1 i = set_pending_signals (bit sig) (tcb k i)).
  { unfold k1. rewrite tcb_upd_eq by done. by rewrite Hp. }
  rewrite decide_False by (rewrite E; cbn; intros []; congruence). split; [done|].
  split; [by rewrite E|]. unfold dispatch_signals. cbv zeta. rewrite E. cbn [security pending_signals signal_mask
    set_pending_signals on_security set_security].
  assert (Hb : bit sig <> 0) by (unfold bit; rewrite Z.shiftl_1_l; apply Z.pow_nonzero; lia).
  rewrite (proj2 (Z.eqb_neq _ _)) by done.
  rewrite (proj2 (Z.eqb_neq _ _)).
  - apply dispatch_loop_none. intros s. unfold handled_signals, NUM_SIG_ACTIONS. rewrite elem_of_seqZ. intros Hs.
    rewrite bit_test_testbit, bit_testbit by lia. apply Z.eqb_neq. lia.
  - rewrite Hm. change (Z.lnot 0) with (-1). rewrite Z.land_m1_r. intros [? _]%Z.lor_eq_0_iff. done.
Qed.

(** * Time *)

(** tickless idle is exact.  Skipping [n] ticks, for any [n] below the
    prediction of [get_expected_idle_ticks], and compensating with
    [compensate_ticks n] yields the same kernel state as taking the [n] ticks
    one by one, provided no stack canary is broken and no sleeping task has a
    zero counter. *)
Theorem tickless_is_exact n k :
  sched_ok k -> Z.of_nat n < get_expected_idle_ticks k ->
  (forall i, is_task k i -> canary_broken k (tcb k i) = false /\
     (sched_state (scheduler (tcb k i)) = Sleeping -> 0 < sleep_ticks (scheduler (tcb k i)))) ->
  Nat.iter n tick_update k = compensate_ticks (Z.of_nat n) k.
Proof.
  intros Hok Hn Ht. assert (Hq : quiet (Z.of_nat n) k).
  { intros i Hi. destruct (Ht i Hi) as [H1 H2]. split; [done|]. split; [done|].
    unfold counting. intros [_ Hs%Z.ltb_lt]%andb_true_iff. pose proof (get_expected_le k i Hi Hs). lia. }
  by rewrite ticks_dec_all, compensate_dec_all.
Qed.

(** * The task table *)

(** [create_task] takes the lowest unallocated slot, gives the task its index
    as id and queues it, ready, at the tail of its priority; every other queue is
    unchanged.  It fails exactly when no slot is free, and then changes nothing. *)
Theorem create_task_spec `{Arch} entry base size p pow priv srd k Q :
  sched_inv k Q -> 0 <= p < NUM_PRIORITIES ->
  let '(o, k') := create_task entry base size p pow priv srd k in
  match o with
  | Some i =>
      is_task k' i /\ sched_id (scheduler (tcb k' i)) = i /\ sched_state (scheduler (tcb k' i)) = Ready /\
      entry_point (task (tcb k' i)) = entry /\ sched_state (scheduler (tcb k i)) = Unallocated /\
      (forall j, 0 <= j < i -> sched_state (scheduler (tcb k j)) <> Unallocated) /\
      sched_inv k' (upq Q p (Q p ++ [i]))
  | None => k' = k /\ forall j, 0 <= j < MAX_TASKS -> sched_state (scheduler (tcb k j)) <> Unallocated
  end.
Proof.
  intros HI [P0 P1]. destruct (create_task _ _ _ _ _ _ _ k) as [[i|] k'] eqn:E.
  - pose proof (create_task_slot _ _ _ _ _ _ _ _ _ _ E) as Hf.
    pose proof (find_free_Some _ _ Hf) as (_ & Hu & Hfirst).
    pose proof (create_task_inv _ _ _ _ _ _ _ _ _ _ _ HI P0 E) as HS.
    replace (clamp_prio p) with p in HS by (unfold clamp_prio; zbool).
    apply create_task_shape in E as (_ & k1 & sp & -> & Ht & _ & _ & _ & _ & _ & _ & Hcnt);
      [|by eapply find_free_valid].
    pose proof (push_ready_frame i k1) as Hfr.
    assert (Hi : is_task (push_ready i k1) i).
    { apply (sbl_is_task Hfr), (count_fresh k Q i k1 i HI Hf Hcnt). by left. }
    assert (Hti : tcb k1 i = set_stack_ptr sp (fresh_tcb i entry base p pow priv (auto_srd srd pow size)))
      by by rewrite Ht, decide_True.
    split; [done|]. split; [by apply HS|].
    rewrite (sbl_proj Hfr (fun t => sched_state (scheduler t))), (sbl_proj Hfr (fun t => entry_point (task t))), Hti by done.
    done.
  - unfold create_task in E. destruct (find_free k) eqn:Hf.
    + cbv zeta in E. by destruct (init_thread_stack _ _ _ _).
    + injection E as <-. split; [done|]. by apply find_free_None.
Qed.

(** The forged stack frame of the Cortex-M4 port.  For a stack of at least
    68 bytes the initial stack pointer lies inside the stack with room for the
    16-word frame, exception return pops the task's entry point and the Thumb
    state bit, and the canary at the stack base survives. *)
Theorem initial_frame_well_formed entry base size m :
  is_u32 entry -> 68 <= size ->
  let '(sp, m') := cm4_init_thread_stack entry base size (store32 m base STACK_CANARY) in
  base + 4 <= sp /\ sp + 64 <= base + size /\ load32 m' (sp + 56) = entry /\
  load32 m' (sp + 60) = XPSR_THUMB /\ load32 m' base = STACK_CANARY.
Proof. apply cm4_stack_frame. Qed.

(** * Faults *)

Lemma schedule_dead rh k c :
  current_id k = c -> sched_state (scheduler (tcb k c)) = Terminated ->
  pending_signals (security (tcb k c)) = 0 ->
  tasks (schedule rh k) = tasks k /\ ready_head (schedule rh k) = ready_head k /\
  task_count (schedule rh k) = task_count k.
Proof.
  intros Hc Ht Hp. destruct (started_ k) eqn:Hs; [|unfold schedule; by rewrite Hs].
  destruct (Z.le_gt_cases (task_count k) 1); [unfold schedule; by rewrite (proj2 (Z.leb_le _ _)), orb_true_r by lia|].
  rewrite (schedule_no_signal rh k c) by (done || lia). cbv zeta.
  assert (E : rotated c k = k) by (unfold rotated; by rewrite decide_True). rewrite E.
  generalize (select_next c k). intros n. destruct (switch_to_tasks c n k) as (E1 & E2 & E3 & _). done.
Qed.

(** the memory-fault handler leaves a dead task in the ready queue.  It
    writes [Terminated] into the control block without taking the task off its
    ring, so a task that faults while it heads its queue still heads it when the
    handler returns, and the scheduler invariant is lost. *)
Theorem fault_leaves_dead_task_queued rh k Q c :
  sched_inv k Q -> is_task k c -> g_current_tcb_ptr k = Some c ->
  pending_signals (security (tcb k c)) = 0 ->
  zlookup (ready_head k) (prio_slot (tcb k c)) = c ->
  ~ sched_ok (MemManage_Handler rh k).
Proof.
  intros HI Hc Hcur Hsig Hh [Q' HI']. unfold MemManage_Handler in HI'. rewrite Hcur in HI'. cbv zeta in HI'.
  pose proof (si_linked _ _ HI) as HL. pose proof (si_linked _ _ HI') as HL'.
  set (k1 := upd c (set_sched_state Terminated) k) in *.
  assert (Et : tcb k1 c = set_sched_state Terminated (tcb k c)).
  { unfold k1. by rewrite tcb_upd_eq by by apply (rl_valid HL). }
  assert (Hid : current_id k1 = c).
  { unfold current_id. change (g_current_tcb_ptr k1) with (g_current_tcb_ptr k). rewrite Hcur, Et. by apply HI. }
  destruct (schedule_dead rh k1 c Hid) as (E1 & E2 & E3); [by rewrite Et..|].
  set (k2 := schedule rh k1) in *.
  assert (Et2 : tcb k2 c = set_sched_state Terminated (tcb k c)) by (unfold tcb at 1; by rewrite E1).
  pose proof (rl_slot HL c Hc) as Hp. pose proof (rl_head _ _ HL' _ Hp) as Hh'.
  rewrite E2 in Hh'. change (ready_head k1) with (ready_head k) in Hh'. rewrite Hh in Hh'.
  assert (Hin : c ∈ Q' (prio_slot (tcb k2 c))).
  { rewrite Et2. change (prio_slot (set_sched_state Terminated (tcb k c))) with (prio_slot (tcb k c)).
    destruct (Q' (prio_slot (tcb k c))) as [|h l]; cbn in Hh'; [destruct Hc; lia|]. set_solver. }
  apply (si_ready _ _ HI') in Hin; [|unfold is_task; by rewrite E3]. by rewrite Et2 in Hin.
Qed.

