(* ===== verification/Lifecycle.v ===== *)
(** The life cycle of applications (kernel/task/app_lifecycle.hpp): foreground
    and background priorities, and suspension, which takes the application's
    mutexes away. *)
From S2P Require Import Prelude Kernel ReadyQueue WaitQueue Endpoint Mpu TaskTable IpcSpec Scheduler Preserve System Sync Mutex MutexClaims.

Inductive AppState := NOT_RUNNING | FOREGROUND | BACKGROUND | SUSPENDED.

Record AppControlBlock := mkApp { tid : Z; app_state : AppState; app_name : Z }.

(** [while (m) { next = m->get_next_held(); m->force_unlock(tcb); m = next; }] *)
Fixpoint release_held (fuel : nat) (m : option Z) (t : Z) (k : Kernel) : Kernel :=
  match m, fuel with
  | Some m, S fuel =>
      let next := next_held_ (mtx k m) in
      release_held fuel next t (force_unlock m (Some t) k)
  | _, _ => k
  end.

Definition transition_to (new_state : AppState) (a : AppControlBlock) (k : Kernel) : AppControlBlock * Kernel :=
  let a := mkApp (tid a) new_state (app_name a) in
  match get_task_by_id k (tid a) with
  | None => (a, k)
  | Some t =>
      match new_state with
      | FOREGROUND => (a, set_task_state (tid a) Ready (set_task_priority (tid a) Prio_Realtime k))
      | BACKGROUND => (a, set_task_priority (tid a) Prio_Low k)
      | SUSPENDED =>
          let k := release_held (held_fuel k) (held k t) t k in
          let k := upd t (set_held_mutexes None) k in
          (a, set_task_state (tid a) Suspended k)
      | NOT_RUNNING => (a, k)
      end
  end.

(** * Releasing the held mutexes *)

Lemma release_same_locks m t b k : same_locks (detach m (Some t) b k) (release_mutex m (Some t) b k).
Proof.
  unfold release_mutex. cbv zeta. generalize (detach m (Some t) b k) as k1. intros k1.
  transitivity (recalculate_priority_chain t k1); [apply sl_recalculate_chain|apply sl_wake].
Qed.

Lemma force_unlock_owned m t k :
  locked_ (mtx k m) = true -> owner k m = Some t -> force_unlock m (Some t) k = release_mutex m (Some t) true k.
Proof. intros Hl Ho. unfold force_unlock, same_owner. by rewrite Hl, Ho, bool_decide_true. Qed.

(** What a release by force does to the held lists: the first mutex of [t]
    leaves its list. *)
Lemma force_unlock_head k H t m l :
  kernel_ok k -> locks_inv k H -> is_task k t -> H t = m :: l ->
  let k' := force_unlock m (Some t) k in
  mutex_state k' /\ task_count k' = task_count k /\
  locks_inv k' (fun i => if decide (i = t) then l else H i) /\ (forall x, x <> m -> owner k' x = owner k x).
Proof.
  intros Hk HI Ht El. cbv zeta. assert (Hm : owner k m = Some t) by (apply (lk_mem _ _ HI t m Ht); rewrite El; left).
  pose proof (force_unlock_state m (Some t) k (Build_mutex_state k Hk (ex_intro _ H HI))) as Hst.
  rewrite (force_unlock_owned m t k (lk_locked _ _ HI m t Hm) Hm) in *. split; [exact Hst|].
  pose proof (detach_inv None m t true k H HI (or_introl eq_refl) (kernel_ok_sched k Hk) Ht Hm) as HD.
  assert (Hdel : del m (H t) = l) by (rewrite El; apply (del_split m [] l); change ([] ++ m :: l) with (m :: l); rewrite <- El; by apply HI).
  pose proof (release_same_locks m t true k) as Hs.
  assert (Hdo : forall x, x <> m -> owner (detach m (Some t) true k) x = owner k x).
  { intros x Hx. destruct (remove_held_spec None m t k H HI (kernel_ok_sched k Hk) Ht Hm) as (_ & _ & Hr & _). specialize (Hr x). unfold lock_rest in Hr.
    unfold detach, owner. cbv zeta. rewrite !mtx_upd_mtx, !decide_False by congruence. congruence. }
  pose proof (detach_count m (Some t) true k) as Hcnt. revert Hst Hs. generalize (release_mutex m (Some t) true k) as k2. intros k2 Hst Hs.
  split; [destruct Hs as [-> _]; exact Hcnt|]. split.
  - apply (locks_inv_same _ _ _ Hs). rewrite Hdel in HD. exact HD.
  - intros x Hx. rewrite (same_owner_of _ _ x Hs). by apply Hdo.
Qed.

Lemma release_held_spec fuel l k H t :
  kernel_ok k -> locks_inv k H -> is_task k t -> H t = l -> (length l <= fuel)%nat ->
  let k' := release_held fuel (held k t) t k in
  mutex_state k' /\ task_count k' = task_count k /\ held k' t = None /\
  locks_inv k' (fun i => if decide (i = t) then [] else H i) /\ (forall x o, o <> t -> owner k' x = Some o <-> owner k x = Some o).
Proof.
  revert fuel k H. induction l as [|m l IH]; intros fuel k H Hk HI Ht El Hf; cbv zeta.
  - pose proof (lk_list _ _ HI t Ht) as Hs. rewrite El in Hs. cbn in Hs. rewrite Hs.
    assert (release_held fuel None t k = k) as -> by by destruct fuel. split; [split; [done|by exists H]|]. split; [done|]. split; [done|]. split; [|done].
    destruct HI as [I1 I2 I3 I4 I5 I6 I7 I8]. split; try done; intros i; [intros Hi|intros Hi|intros x Hi]; destruct (decide (i = t)) as [->|]; auto;
      [by constructor|]. by rewrite <- (I3 t x Hi), El.
  - pose proof (lk_list _ _ HI t Ht) as Hs. rewrite El in Hs. destruct Hs as [Hh Hs]. rewrite Hh. destruct fuel as [|fuel]; [cbn in Hf; lia|].
    cbn [release_held]. destruct (force_unlock_head k H t m l Hk HI Ht El) as ([Hk1 _] & Hc1 & HI1 & Ho1). set (k1 := force_unlock m (Some t) k) in *.
    assert (Ht1 : is_task k1 t) by (unfold is_task; by rewrite Hc1).
    assert (Hnext : held k1 t = nxh k m).
    { pose proof (lk_list _ _ HI1 t Ht1) as Hs1. cbv beta in Hs1. rewrite decide_True in Hs1 by done. destruct l as [|n l]; cbn in Hs, Hs1; [congruence|].
      destruct Hs as [Hs _], Hs1 as [Hs1 _]. congruence. }
    unfold nxh in Hnext. rewrite <- Hnext.
    destruct (IH fuel k1 _ Hk1 HI1 Ht1) as (S1 & S2 & S3 & S4 & S5); [by rewrite decide_True|cbn in Hf; lia|]. cbv zeta in *.
    split; [done|]. split; [congruence|]. split; [done|]. split.
    + destruct S4 as [I1 I2 I3 I4 I5 I6 I7 I8]. split; try done; intros i; [intros Hi|intros Hi|intros x Hi];
        [specialize (I1 i Hi)|specialize (I2 i Hi)|specialize (I3 i x Hi)]; by destruct (decide (i = t)).
    + intros x o Hne. rewrite S5 by done. destruct (decide (x = m)) as [->|Hx]; [|by rewrite Ho1].
      assert (Hm : owner k m = Some t) by (apply (lk_mem _ _ HI t m Ht); rewrite El; left).
      assert (E1 : owner k1 m <> Some o).
      { intros E. assert (Hot : is_task k1 o) by by apply (lk_owner _ _ HI1 m o). apply (lk_mem _ _ HI1 o m Hot) in E. rewrite decide_False in E by done.
        apply (lk_mem _ _ HI o m) in E; [congruence|]. unfold is_task in *. by rewrite <- Hc1. }
      split; [done|congruence].
Qed.

(** Suspending an application releases every mutex it holds (each waiter can
    proceed), takes no mutex from anyone else, suspends its task and keeps the
    mutex and kernel invariants. *)
Theorem app_suspend_releases_mutexes a k :
  mutex_state k -> is_task k (tid a) ->
  let k' := (transition_to SUSPENDED a k).2 in
  mutex_state k' /\ sched_state (scheduler (tcb k' (tid a))) = Suspended /\ held k' (tid a) = None /\
  (forall m, owner k' m <> Some (tid a)) /\ (forall m o, o <> tid a -> owner k' m = Some o <-> owner k m = Some o).
Proof.
  intros [Hk [H HI]] Ht. cbv zeta. unfold transition_to. cbn [tid]. rewrite (proj2 (get_task_by_id_Some k (tid a) (tid a))) by done. set (t := tid a) in *. cbv zeta. cbn [snd].
  destruct (release_held_spec (held_fuel k) (H t) k H t Hk HI Ht eq_refl (held_length _ _ _ _ HI Ht)) as ([Hk1 _] & Hc & Hh & HI1 & Ho).
  set (k1 := release_held _ _ _ k) in *. set (k2 := upd t _ k1).
  assert (Hk2 : kernel_ok k2) by by apply held_upd_ok.
  assert (Hs : same_locks k1 k2).
  { split; [done|]. split; [done|]. split; [|done]. intros i. unfold held, k2. destruct (decide (i = t)) as [->|]; [|by rewrite tcb_upd_ne].
    rewrite tcb_upd_eq; [by rewrite <- Hh|]. apply (sched_ok_valid k1); [by apply kernel_ok_sched|]. unfold is_task. by rewrite Hc. }
  assert (Ht2 : is_task k2 t) by (unfold is_task; by rewrite (proj1 Hs), Hc).
  assert (HI2 : locks_inv k2 (fun i => if decide (i = t) then [] else H i)) by by apply (locks_inv_same k1).
  pose proof (sl_state t Suspended k2) as Hs3. set (k3 := set_task_state t Suspended k2) in *.
  split; [|split; [|split; [|split]]].
  - split; [apply kernel_ok_set_state; [apply Ht2|done]|]. eexists. by apply (locks_inv_same k2).
  - unfold k3. rewrite set_task_state_state by (done || by apply kernel_ok_sched). by rewrite decide_True.
  - destruct Hs3 as (_ & _ & -> & _). destruct Hs as (_ & _ & -> & _). exact Hh.
  - intros m E. rewrite (same_owner_of _ _ m Hs3) in E. apply (lk_mem _ _ HI2 t m Ht2) in E. rewrite decide_True in E by done. by apply elem_of_nil in E.
  - intros m o Hne. rewrite (same_owner_of _ _ m Hs3), (same_owner_of _ _ m Hs). by apply Ho.
Qed.

