(* ===== verification/HeapClaims.v ===== *)
(** What the kernel heap promises its clients: live blocks are aligned, inside
    the region and disjoint; releasing everything restores the heap; each
    operation is a step of the abstract block list; the integrity scan ends.
    Two behaviours outside the contract: a request above the size classes and a
    second release of a merged block. *)
From S2P Require Import Prelude Dll Heap HeapInv HeapOps HeapSpec.
Import Heap.

(** * Clients *)

(** The heap after a sequence of allocations of 1 to [MAX_ALLOC] = 32505824 bytes and of
    releases of live pointers; the list holds the live pointers with the sizes asked
    for.  The code also accepts larger requests and can grant them from a block that is
    too small: [huge_request_granted]. *)
Inductive heap_reach (s e : Z) : KernelHeap -> list (Z * Z) -> Prop :=
| hr_init h0 h : init s e h0 = Some h -> heap_reach s e h []
| hr_new h L n p h' : heap_reach s e h L -> 0 < n <= MAX_ALLOC -> allocate_impl n h = (Some p, h') -> heap_reach s e h' ((p, n) :: L)
| hr_full h L n h' : heap_reach s e h L -> 0 < n <= MAX_ALLOC -> allocate_impl n h = (None, h') -> heap_reach s e h' L
| hr_delete h L1 p n L2 : heap_reach s e h (L1 ++ (p, n) :: L2) -> heap_reach s e (deallocate p h) (L1 ++ L2).

(** A live pointer is a used block with room for the request. *)
Definition live_block (h : KernelHeap) (B : list Z) (x : Z * Z) : Prop :=
  exists b, b ∈ B /\ x.1 = b + BLOCK_HEADER_SIZE /\ is_free (hd h b) = false /\ requested_size (hd h b) = x.2 /\
    x.2 + BLOCK_HEADER_SIZE <= bsize h b.

Record heap_live (s e : Z) (h : KernelHeap) (L : list (Z * Z)) (start : Z) (B : list Z) (F : Lists) : Prop := {
  hl_inv : heap_inv start h B F;
  hl_region : s <= start /\ start + total_size h = align_down e /\ align_down e <= e;
  hl_nodup : NoDup (map fst L);
  hl_live : forall x, x ∈ L -> live_block h B x;
  hl_used : forall b, b ∈ B -> is_free (hd h b) = false -> b + BLOCK_HEADER_SIZE ∈ map fst L;
}.

(** A block whose cell is kept stays live. *)
Lemma live_block_keep h h' B B' x :
  live_block h B x -> (forall b, x.1 = b + BLOCK_HEADER_SIZE -> b ∈ B -> is_free (hd h b) = false -> b ∈ B' /\ cell h' b = cell h b) ->
  live_block h' B' x.
Proof.
  intros (b & Hb & Ep & Hf & Hr & Hs) Hk. destruct (Hk b Ep Hb Hf) as [Hb' Hc]. apply cell_eq in Hc as (C1 & C2 & C3).
  exists b. rewrite C1, C2, C3. done.
Qed.

(** Membership in a view. *)
Lemma view_elem h B b s f : (b, s, f) ∈ view h B <-> b ∈ B /\ bsize h b = s /\ is_free (hd h b) = f.
Proof.
  unfold view. split.
  - by intros (b' & [= -> -> ->] & Hb)%list_elem_of_fmap.
  - intros (Hb & <- & <-). apply list_elem_of_fmap. by exists b.
Qed.

Lemma view_app_in h l1 l2 h' B' v c :
  view h' B' = view h l1 ++ v ++ view h l2 -> c ∈ l1 ++ l2 -> c ∈ B'.
Proof.
  intros Hv Hc. apply (view_elem h' B' c (bsize h c) (is_free (hd h c))). rewrite Hv.
  apply elem_of_app in Hc as [Hc|Hc]; [apply elem_of_app; left|apply elem_of_app; right; apply elem_of_app; right]; by apply view_elem.
Qed.

Lemma view_split_at h B v1 c v2 :
  view h B = v1 ++ c :: v2 ->
  exists l1 b l2, B = l1 ++ b :: l2 /\ view h l1 = v1 /\ (b, bsize h b, is_free (hd h b)) = c /\ view h l2 = v2.
Proof.
  revert v1. induction B as [|b B IH]; intros v1 E; [by destruct v1|]. rewrite view_cons in E. destruct v1 as [|c' v1]; injection E as <- E.
  - by exists [], b, B.
  - destruct (IH _ E) as (l1 & b' & l2 & -> & <- & H1 & H2). by exists (b :: l1), b', l2.
Qed.

Lemma live_new s e h L start B F n p h' :
  heap_live s e h L start B F -> 0 < n <= MAX_ALLOC -> allocate_impl n h = (Some p, h') ->
  exists B' F', heap_live s e h' ((p, n) :: L) start B' F'.
Proof.
  intros [Hi Hr Hnd Hl Hu] Hn Ha. pose proof (allocate_spec start h B F n Hi Hn) as Hs. rewrite Ha in Hs.
  destruct Hs as (l1 & b & l2 & B' & F' & -> & -> & Hf & Hsz & Hi' & Hv & Hreq & Ho & Ht). exists B', F'.
  destruct (required_range n Hn) as [Hreqn _].
  assert (Hold : forall c, c ∈ l1 ++ b :: l2 -> c <> b -> c ∈ l1 ++ l2).
  { intros c [Hc|[->|Hc]%elem_of_cons]%elem_of_app Hne; [|done|]; apply elem_of_app; auto. }
  assert (Hnew : exists s1, required n <= s1 /\ (b, s1, false) ∈ view h' B').
  { rewrite Hv. unfold take_block. destruct (_ <=? _); [exists (required n)|exists (bsize h b)]; (split; [lia|]);
      apply elem_of_app; right; apply elem_of_app; left; left. }
  destruct Hnew as (s1 & Hs1 & (Hb' & Hbs & Hbf)%view_elem). split.
  - exact Hi'.
  - by rewrite Ht.
  - cbn. apply NoDup_cons. split; [|done]. intros Hin. apply list_elem_of_fmap in Hin as ([q m] & Eq & Hin). cbn in Eq.
    destruct (Hl _ Hin) as (c & _ & Ec & Hfc & _). cbn in Ec. assert (c = b) as -> by (unfold BLOCK_HEADER_SIZE in *; lia). congruence.
  - intros x [->|Hx]%elem_of_cons.
    + exists b. cbn. rewrite Hbs. unfold BLOCK_HEADER_SIZE. split; [done|]. split; [done|]. split; [done|]. split; [done|lia].
    + eapply live_block_keep; [by apply Hl|]. intros c _ Hc Hfc. assert (Hc' : c ∈ l1 ++ l2) by (apply Hold; [done|congruence]).
      split; [by eapply view_app_in|by apply Ho].
  - intros c Hc Hfc. cbn. destruct (decide (c = b)) as [->|Hne]; [left|right].
    assert (Hcv : (c, bsize h' c, false) ∈ view h' B') by by apply view_elem. rewrite Hv in Hcv.
    apply elem_of_app in Hcv as [Hcv|[Hcv|Hcv]%elem_of_app].
    + apply view_elem in Hcv as (Hc1 & _ & Hf1). apply Hu; [apply elem_of_app; by left|done].
    + exfalso. unfold take_block in Hcv. destruct (_ <=? _).
      * apply elem_of_cons in Hcv as [[= ? ?]|Hcv]; [done|]. by apply list_elem_of_singleton in Hcv.
      * apply list_elem_of_singleton in Hcv as [= ? ?]. done.
    + apply view_elem in Hcv as (Hc1 & _ & Hf1). apply Hu; [apply elem_of_app; right; by right|done].
Qed.

Lemma live_delete s e h L1 p n L2 start B F :
  heap_live s e h (L1 ++ (p, n) :: L2) start B F -> exists B' F', heap_live s e (deallocate p h) (L1 ++ L2) start B' F'.
Proof.
  intros [Hi Hr Hnd Hl Hu]. destruct (Hl (p, n)) as (b & Hb & Ep & Hf & _ & _); [apply elem_of_app; right; left|]. cbn in Ep. subst p.
  apply list_elem_of_split in Hb as (l1 & l2 & ->). destruct (deallocate_spec start h l1 b l2 F Hi Hf) as (B' & F' & Hi' & Hv & Hk & Ht).
  cbv zeta in *. exists B', F'. rewrite map_app in Hnd, Hu. cbn [map fst] in Hnd, Hu.
  apply NoDup_app in Hnd as (N1 & N12 & [Nb N2]%NoDup_cons).
  assert (Hold : forall c, c ∈ l1 ++ b :: l2 -> c <> b -> c ∈ l1 ++ l2).
  { intros c [Hc|[->|Hc]%elem_of_cons]%elem_of_app Hne; [|done|]; apply elem_of_app; auto. }
  split.
  - exact Hi'.
  - by rewrite Ht.
  - rewrite map_app. apply NoDup_app. split; [done|]. split; [|done]. intros x Hx Hx2. apply (N12 x Hx). by right.
  - intros x Hx. eapply live_block_keep; [apply Hl; apply elem_of_app in Hx as [?|?]; apply elem_of_app; [by left|right; by right]|].
    intros c Ex Hc Hfc. apply Hk; [|done]. apply Hold; [done|]. intros ->. apply elem_of_app in Hx as [Hx|Hx].
    + apply (N12 x.1); [by apply list_elem_of_fmap_2|]. rewrite Ex. left.
    + apply Nb. rewrite <- Ex. by apply list_elem_of_fmap_2.
  - intros c Hc Hfc. set (h' := deallocate _ h) in *.
    assert (Hcv : (c, bsize h' c, false) ∈ view h' B') by by apply view_elem. rewrite Hv in Hcv. apply fuse_used in Hcv.
    rewrite <- view_app in Hcv. apply view_elem in Hcv as (Hin & _ & Hf').
    assert (c <> b). { intros ->. pose proof (mid_NoDup _ _ _ _ _ (hi_mid _ _ _ _ Hi)) as M. apply NoDup_app in M as (_ & M12 & [Mb _]%NoDup_cons).
      apply elem_of_app in Hin as [Hin|Hin]; [apply (M12 b Hin); left|done]. }
    rewrite map_app. specialize (Hu c). apply elem_of_app in Hin as Hin'.
    assert (Hu' : c ∈ l1 ++ b :: l2) by (destruct Hin'; apply elem_of_app; [by left|right; by right]).
    apply Hu in Hu' as [?|[?|?]%elem_of_cons]%elem_of_app; [|..|done];
      [apply elem_of_app; by left|unfold BLOCK_HEADER_SIZE in *; lia|apply elem_of_app; by right].
Qed.

Lemma reach_live s e h L : region_ok s e -> heap_reach s e h L -> exists B F, heap_live s e h L (align_up s) B F.
Proof.
  intros Hr. induction 1 as [h0 h Hi|h L n p h' _ (B & F & IH) Hn Ha|h L n h' _ (B & F & IH) Hn Ha|h L1 p n L2 _ (B & F & IH)].
  - destruct (init_spec s e h0 Hr) as (h1 & F & Hi1 & Hinv & Hv & _ & Ht & R1 & R2). rewrite Hi1 in Hi. injection Hi as ->.
    exists [align_up s], F. split; [done|rewrite Ht; lia|constructor|intros x Hx; by apply elem_of_nil in Hx|].
    intros b Hb Hf. exfalso. assert (Hin : (b, bsize h b, false) ∈ view h [align_up s]) by by apply view_elem.
    rewrite Hv in Hin. by apply list_elem_of_singleton in Hin.
  - by eapply live_new.
  - pose proof (allocate_spec _ h B F n (hl_inv _ _ _ _ _ _ _ IH) Hn) as Hs. rewrite Ha in Hs. destruct Hs as [-> _]. by exists B, F.
  - by eapply live_delete.
Qed.

(** ** Arithmetic of the blocks *)

Lemma tiles_aligned h a B e b :
  tiles h a B e -> a mod 8 = 0 -> (forall c, c ∈ B -> bsize h c mod 8 = 0) -> b ∈ B -> b mod 8 = 0.
Proof.
  revert a. induction B as [|c B IH]; intros a; cbn [tiles]; [intros _ _ _ Hb; by apply elem_of_nil in Hb|].
  intros [-> Ht] Ha Hc [->|Hb]%elem_of_cons; [done|]. apply (IH (a + bsize h a)); [done| |intros; apply Hc; by right|done].
  pose proof (Hc a ltac:(left)). Z.to_euclidean_division_equations. lia.
Qed.

Lemma blocks_disjoint start h B F x b c :
  heap_mid start h B F x -> b ∈ B -> c ∈ B -> b <> c -> b + bsize h b <= c \/ c + bsize h c <= b.
Proof.
  intros Hm Hb Hc Hne. apply list_elem_of_split in Hb as (l1 & l2 & ->).
  destruct (tiles_mid _ _ _ _ _ _ (hm_tiles _ _ _ _ _ Hm)) as (_ & _ & T1 & T2); [intros; by eapply mid_size|].
  apply elem_of_app in Hc as [Hc|[->|Hc]%elem_of_cons]; [right; apply T1 in Hc; lia|done|left; apply T2 in Hc; lia].
Qed.

(** A list without free neighbours whose blocks are all free has one block. *)
Lemma all_free_single v :
  coalesced false v -> (forall b s f, (b, s, f) ∈ v -> f = true) -> v = [] \/ exists b s, v = [(b, s, true)].
Proof.
  intros Hc Hf. destruct v as [|[[b s] f] [|[[b' s'] f'] v]]; [by left|right; exists b, s; by rewrite (Hf b s f ltac:(left))|].
  exfalso. rewrite (Hf b s f ltac:(left)) in Hc. rewrite (Hf b' s' f') in Hc by (right; left). cbn in Hc. by destruct Hc as (_ & ? & _).
Qed.

(** ** The scan of the block chain *)

Lemma verify_seg h p B :
  seg (np h) (pp h) p B None -> (forall b, b ∈ B -> magic (hd h b) = TLSF_MAGIC) ->
  forall k, (length B <= k)%nat -> verify_from k (first_or None B) h = Some 0.
Proof.
  revert p. induction B as [|b B IH]; intros p Hs Hm k Hk; [by destruct k|]. destruct k as [|k]; [cbn in Hk; lia|].
  destruct Hs as (_ & Hn & Hs). cbn [first_or verify_from]. rewrite (Hm b ltac:(left)), Z.eqb_refl. cbn [negb]. fold (np h b). rewrite Hn.
  apply (IH (Some b)); [done| |cbn in Hk; lia]. intros c Hc. apply Hm. by right.
Qed.

Lemma tiles_length h a B e : tiles h a B e -> (forall b, b ∈ B -> 32 <= bsize h b) -> Z.of_nat (length B) <= (e - a) / 32.
Proof.
  intros Ht Hb. pose proof (counted_tiles h a B e Ht Hb) as H. apply Z.div_le_lower_bound; lia.
Qed.

(** * A small heap for the examples *)

Definition blank_heap : KernelHeap := mkHeap 0 [] [] None 0 0 ∅.
Definition RAM_START : Z := 536870912. (* 0x20000000 *)
Definition RAM_END : Z := 536875008.
Definition boot_heap : KernelHeap := default blank_heap (init RAM_START RAM_END blank_heap).
Definition one_block : option Z * KernelHeap := allocate_impl 100 boot_heap.
Definition two_blocks : option Z * KernelHeap := allocate_impl 50 one_block.2.

Lemma ram_ok : region_ok RAM_START RAM_END.
Proof. unfold region_ok, RAM_START, RAM_END, MAX_SIZE. lia. Qed.

Lemma boot_reach : heap_reach RAM_START RAM_END boot_heap [].
Proof. apply (hr_init _ _ blank_heap). vm_compute. reflexivity. Qed.

Lemma two_reach : heap_reach RAM_START RAM_END two_blocks.2 [(536871080, 50); (536870944, 100)].
Proof.
  apply (hr_new _ _ one_block.2); [|unfold MAX_ALLOC; lia|vm_compute; reflexivity].
  apply (hr_new _ _ boot_heap); [exact boot_reach|unfold MAX_ALLOC; lia|vm_compute; reflexivity].
Qed.

(** * Properties *)

(** C6: In a heap over a region of 40 bytes to less than 32 MiB, after any sequence of
    allocations of 1 to 32505824 bytes, the requests the size classes cover, and of
    releases of live pointers, every live pointer is 8-byte aligned, lies with its requested bytes inside the
    region behind its header, reports the size asked for, and shares no byte with
    another live block or its header.  Larger requests break this:
    [huge_request_granted]. *)
Theorem heap_live_blocks_disjoint s e h L :
  region_ok s e -> heap_reach s e h L ->
  NoDup (map fst L) /\
  (forall p n, (p, n) ∈ L -> p mod 8 = 0 /\ s + BLOCK_HEADER_SIZE <= p /\ p + n <= e /\ get_requested_size p h = n) /\
  (forall p n q m, (p, n) ∈ L -> (q, m) ∈ L -> p <> q -> p + n <= q - BLOCK_HEADER_SIZE \/ q + m <= p - BLOCK_HEADER_SIZE).
Proof.
  intros Hr Hre. destruct (reach_live s e h L Hr Hre) as (B & F & [[Hm _ _] (R1 & R2 & R3) Hnd Hl _]). split; [exact Hnd|].
  destruct (hm_start _ _ _ _ _ Hm) as (_ & S2 & S3 & _). split.
  - intros p n Hp. destruct (Hl _ Hp) as (b & Hb & Ep & Hf & Hrs & Hs). cbn [fst snd] in *. subst p.
    destruct (mid_range _ _ _ _ _ b Hm Hb) as (M1 & M2 & _). destruct (hm_block _ _ _ _ _ Hm b Hb) as [Hmag _].
    assert (b mod 8 = 0) by (eapply tiles_aligned; [apply Hm|done|intros c Hc; by apply (hm_block _ _ _ _ _ Hm)|done]).
    split; [unfold BLOCK_HEADER_SIZE; Z.to_euclidean_division_equations; lia|]. split; [lia|]. split; [lia|].
    unfold get_requested_size. rewrite (block_of_block _ _ _ _ _ b Hm Hb), Hf, Hmag, Z.eqb_refl.
    destruct (Z.eqb_spec (b + BLOCK_HEADER_SIZE) 0); [unfold BLOCK_HEADER_SIZE in *; lia|done].
  - intros p n q m Hp Hq Hne. destruct (Hl _ Hp) as (b & Hb & Eb & _ & _ & Sb), (Hl _ Hq) as (c & Hc & Ec & _ & _ & Sc).
    cbn [fst snd] in *. destruct (blocks_disjoint _ _ _ _ _ b c Hm Hb Hc) as [D|D]; [congruence|left; lia|right; lia].
Qed.

Lemma heap_live_blocks_disjoint_witness :
  (536870944, 100) ∈ [(536871080, 50); (536870944, 100)] /\ get_requested_size 536870944 two_blocks.2 = 100.
Proof.
  split; [right; left|]. apply (heap_live_blocks_disjoint RAM_START RAM_END two_blocks.2 _ ram_ok two_reach). right; left.
Defined.

(** When every allocated block has been released, in any order, the heap is
    one free block that spans the region, the free-memory counter has its initial
    value, and every request whose rounded size fits the region is served. *)
Theorem heap_drained_is_whole s e h :
  region_ok s e -> heap_reach s e h [] ->
  head_block h = Some (align_up s) /\ is_free (hd h (align_up s)) = true /\ next_phys (hd h (align_up s)) = None /\
  size (hd h (align_up s)) = align_down e - align_up s /\
  total_free_memory h = align_down e - align_up s - BLOCK_HEADER_SIZE /\
  (forall n, 0 < n <= MAX_ALLOC -> rounded (required n) <= align_down e - align_up s ->
     exists h', allocate_impl n h = (Some (align_up s + BLOCK_HEADER_SIZE), h')).
Proof.
  intros Hr Hre. destruct (reach_live s e h [] Hr Hre) as (B & F & [Hi (R1 & R2 & R3) _ _ Hu]). pose proof Hi as [Hm Hco Hcnt].
  destruct (hm_start _ _ _ _ _ Hm) as (S1 & _ & _ & Hne). pose proof (hm_tiles _ _ _ _ _ Hm) as Ht. pose proof (hm_phys _ _ _ _ _ Hm) as Hp.
  assert (Hfree : forall b, b ∈ B -> is_free (hd h b) = true).
  { intros b Hb. destruct (is_free (hd h b)) eqn:E; [done|]. specialize (Hu b Hb E). by apply elem_of_nil in Hu. }
  destruct (all_free_single _ Hco) as [E|(b & sz & E)]; [intros b sz f Hin; apply view_elem in Hin as (Hb & _ & <-); by apply Hfree|by destruct B|].
  destruct B as [|b' [|]]; [done| |done]. cbn [view map] in E. injection E as -> Esz Efr. destruct Ht as [Eb Ht]. cbn [tiles] in Ht.
  subst b. unfold bsize in *. set (st := align_up s) in *.
  split; [done|]. split; [done|]. split; [by destruct Hp as (_ & Hp & _)|]. split; [lia|].
  split. { rewrite Hcnt. cbn. unfold weight. cbn. rewrite Efr. unfold bsize, BLOCK_HEADER_SIZE. lia. }
  intros n Hn Hfit. pose proof (allocate_spec st h [st] F n Hi Hn) as Hs. destruct (allocate_impl n h) as [[p|] h'].
  - destruct Hs as (l1 & b & l2 & _ & _ & E & -> & _). destruct l1 as [|? [|]]; [|done|done]. injection E as <- _. by exists h'.
  - exfalso. destruct Hs as [_ Hs]. specialize (Hs st ltac:(left) Efr). unfold bsize in Hs. lia.
Qed.

(** The abstract heap: a list of blocks with address, size and state.
    Allocation takes (part of) some free block that is large enough and fails
    only when no free block reaches the rounded size; release fuses. *)
Inductive HeapOp := Allocate (n : Z) | Deallocate (p : Z).

Definition exec (op : HeapOp) (h : KernelHeap) : option Z * KernelHeap :=
  match op with
  | Allocate n => allocate_impl n h
  | Deallocate p => (None, deallocate p h)
  end.

Definition op_ok (v : list (Z * Z * bool)) (op : HeapOp) : Prop :=
  match op with
  | Allocate n => 0 < n <= MAX_ALLOC
  | Deallocate p => exists s, (p - BLOCK_HEADER_SIZE, s, false) ∈ v
  end.

Inductive heap_step : list (Z * Z * bool) -> HeapOp -> option Z -> list (Z * Z * bool) -> Prop :=
| hs_take v1 b s v2 n : required n <= s ->
    heap_step (v1 ++ (b, s, true) :: v2) (Allocate n) (Some (b + BLOCK_HEADER_SIZE)) (v1 ++ take_block (required n) b s ++ v2)
| hs_full v n : (forall b s, (b, s, true) ∈ v -> s < rounded (required n)) -> heap_step v (Allocate n) None v
| hs_fuse v1 b s v2 : heap_step (v1 ++ (b, s, false) :: v2) (Deallocate (b + BLOCK_HEADER_SIZE)) None (fuse v1 b s v2).

(** C7: The headers, the free lists and the two bitmaps implement the list of
    blocks: every allocation of 1 to 32505824 bytes, the requests the size classes
    cover, and every release of a live pointer is a step of the abstract heap and keeps the invariant (the blocks
    tile the region, the free lists hold exactly the free blocks of their class,
    no two neighbours are free, the counter is exact).  For larger requests see
    [huge_request_granted]. *)
Theorem heap_refines_block_list start h B F op :
  heap_inv start h B F -> op_ok (view h B) op ->
  exists B' F', heap_inv start (exec op h).2 B' F' /\ heap_step (view h B) op (exec op h).1 (view (exec op h).2 B').
Proof.
  intros Hi Hok. destruct op as [n|p]; cbn [op_ok exec] in *.
  - pose proof (allocate_spec start h B F n Hi Hok) as Hs. destruct (allocate_impl n h) as [[p|] h']; cbn [fst snd].
    + destruct Hs as (l1 & b & l2 & B' & F' & -> & -> & Hf & Hsz & Hi' & Hv & _). exists B', F'. split; [done|].
      rewrite Hv, view_app, view_cons, Hf. by apply hs_take.
    + destruct Hs as [-> Hs]. exists B, F. split; [done|]. apply hs_full. intros b sz (Hb & <- & Hf)%view_elem. by apply Hs.
  - destruct Hok as (sz & (Hb & Hsz & Hf)%view_elem). apply list_elem_of_split in Hb as (l1 & l2 & EB). rewrite EB in *.
    set (b := p - BLOCK_HEADER_SIZE) in *. replace p with (b + BLOCK_HEADER_SIZE) by (unfold b; lia). cbn [fst snd].
    destruct (deallocate_spec start h l1 b l2 F Hi Hf) as (B' & F' & Hi' & Hv & _). exists B', F'. split; [done|].
    rewrite Hv, view_app, view_cons, Hf. apply hs_fuse.
Qed.

Lemma heap_refines_block_list_witness :
  exists F B' F', heap_inv RAM_START boot_heap [RAM_START] F /\ heap_inv RAM_START (exec (Allocate 100) boot_heap).2 B' F' /\
    heap_step [(RAM_START, 4096, true)] (Allocate 100) (Some (RAM_START + 32)) (view (exec (Allocate 100) boot_heap).2 B').
Proof.
  destruct (init_spec RAM_START RAM_END blank_heap ram_ok) as (h & F & E & Hi & _).
  assert (Eh : init RAM_START RAM_END blank_heap = Some boot_heap) by (vm_compute; reflexivity). rewrite Eh in E. injection E as <-.
  assert (Hn : 0 < 100 <= MAX_ALLOC) by (unfold MAX_ALLOC; lia).
  destruct (heap_refines_block_list RAM_START boot_heap [RAM_START] F (Allocate 100) Hi Hn) as (B' & F' & H1 & H2).
  exists F, B', F'. split; [exact Hi|]. split; [exact H1|exact H2].
Defined.

(** Releasing a block that was just allocated restores the block list and the
    free-memory counter, whatever the allocation split. *)
Theorem heap_release_undoes_allocation start h B F n p h' :
  heap_inv start h B F -> 0 < n <= MAX_ALLOC -> allocate_impl n h = (Some p, h') ->
  exists B' F', heap_inv start (deallocate p h') B' F' /\ view (deallocate p h') B' = view h B /\
    total_free_memory (deallocate p h') = total_free_memory h.
Proof.
  intros Hi Hn Ha. pose proof (allocate_spec start h B F n Hi Hn) as Hs. rewrite Ha in Hs.
  destruct Hs as (l1 & b & l2 & B1 & F1 & -> & -> & Hf & Hsz & Hi1 & Hv & _).
  pose proof (hi_coal _ _ _ _ Hi) as Hco. pose proof (hi_count _ _ _ _ Hi) as Hcnt. rewrite view_app, view_cons, Hf in *.
  destruct (required_range n Hn) as [Hrq _]. destruct (fuse_take _ _ _ (required n) _ Hco ltac:(lia)) as (b1 & s1 & v' & Et & Ef).
  assert (b1 = b) as -> by (unfold take_block in Et; destruct (_ <=? _); congruence). rewrite Et in Hv.
  destruct (view_split_at h' B1 (view h l1) (b, s1, false) (v' ++ view h l2) Hv) as (k1 & c & k2 & -> & V1 & Vc & V2). injection Vc as -> Sc Fc.
  destruct (deallocate_spec start h' k1 b k2 F1 Hi1 Fc) as (B' & F' & Hi' & Hv' & _). exists B', F'. cbv zeta in *.
  rewrite V1, V2, Sc, Ef in Hv'. split; [done|]. split; [done|]. rewrite (hi_count _ _ _ _ Hi'), Hv'. lia.
Qed.

(** On every reachable heap the integrity scan ends within one pass over the
    region (at most one step per 32 bytes) and finds no damaged header. *)
Theorem heap_integrity_scan_terminates s e h L :
  region_ok s e -> heap_reach s e h L -> verify_integrity (Z.to_nat ((e - s) / BLOCK_HEADER_SIZE)) h = Some 0.
Proof.
  intros Hr Hre. destruct (reach_live s e h L Hr Hre) as (B & F & [[Hm _ _] (R1 & R2 & R3) _ _ _]).
  destruct (hm_start _ _ _ _ _ Hm) as (S1 & _ & _ & Hne). pose proof (hm_tiles _ _ _ _ _ Hm) as Ht.
  assert (Hsz : forall b, b ∈ B -> 32 <= bsize h b) by (intros; by eapply mid_size).
  assert (Hlen : Z.of_nat (length B) <= (e - s) / BLOCK_HEADER_SIZE).
  { etransitivity; [by eapply tiles_length|]. unfold BLOCK_HEADER_SIZE. apply Z.div_le_mono; lia. }
  unfold verify_integrity. rewrite S1. assert (Eh : Some (align_up s) = first_or None B) by (destruct B; [done|by destruct Ht as [-> _]]). rewrite Eh.
  eapply verify_seg; [apply Hm|intros b Hb; by apply (hm_block _ _ _ _ _ Hm)|lia].
Qed.

(** ** Outside the contract *)

(** A request of nearly 4 GiB is granted on a 4 KiB heap: rounding up to the
    next size class wraps at 32 bits, so the search looks for a tiny block. *)
Theorem huge_request_granted :
  exists p h', allocate_impl 4160749544 boot_heap = (Some p, h') /\ total_size h' = 4096 /\ p = RAM_START + BLOCK_HEADER_SIZE /\
    get_requested_size p h' = 4160749544.
Proof. eexists _, _. split; [vm_compute; reflexivity|]. vm_compute. done. Qed.

(** A pointer released twice is not always caught: when the block was merged
    into its predecessor its stale header still says used, the second release is
    accepted, and the heap ends with a free block larger than the whole region. *)
Theorem double_free_after_merge_accepted :
  let h := deallocate 536870944 (deallocate 536871080 two_blocks.2) in
  let h' := deallocate 536871080 h in
  heap_reach RAM_START RAM_END h [] /\ h' <> h /\
  exists b, is_free (hd h' b) = true /\ head_block h' = Some b /\ total_size h' < size (hd h' b).
Proof.
  cbv zeta. split.
  { apply (hr_delete _ _ _ [] 536870944 100 []). apply (hr_delete _ _ _ [] 536871080 50 [(536870944, 100)]). exact two_reach. }
  split.
  - intros E. apply (f_equal total_free_memory) in E. vm_compute in E. done.
  - exists RAM_START. vm_compute. done.
Qed.
