(* ===== verification/PoolClaims.v ===== *)
(** Theorems on the fixed-size allocators: at any time the slots (pages) are
    split between clients and free list, so that no slot is handed out twice. *)
From S2P Require Import Prelude Pools.

(** Moving an element between the two parts of a partition of [all]. *)
Lemma part_take (all L free : list Z) a : L ++ a :: free ≡ₚ all -> (a :: L) ++ free ≡ₚ all.
Proof. intros <-. cbn. apply Permutation_middle. Qed.

Lemma part_give (all L1 L2 free : list Z) a : (L1 ++ a :: L2) ++ free ≡ₚ all -> (L1 ++ L2) ++ a :: free ≡ₚ all.
Proof. intros <-. rewrite <- !app_assoc. cbn. rewrite <- Permutation_middle, <- (Permutation_middle L1). done. Qed.

Lemma part_facts (all L free : list Z) :
  L ++ free ≡ₚ all -> NoDup all ->
  NoDup L /\ (forall a, a ∈ L -> a ∈ all /\ a ∉ free) /\ Z.of_nat (length L) + Z.of_nat (length free) = Z.of_nat (length all) /\
  (forall a, a ∈ all -> a ∉ L -> a ∈ free).
Proof.
  intros Hp Hnd. rewrite <- Hp in Hnd. apply NoDup_app in Hnd as (N1 & N2 & _). split; [done|]. split; [|split].
  - intros a Ha. split; [rewrite <- Hp; apply elem_of_app; by left|by apply N2].
  - rewrite <- Hp, length_app. lia.
  - intros a Ha Hn. rewrite <- Hp in Ha. by apply elem_of_app in Ha as [?|?].
Qed.

(** * Memory pools *)

Section Pool.
Context (PoolSize sizeof_Slot buffer_start : Z).

(** Allocations, releases of live slots, of other slots (a second release) and
    of pointers outside the pool, and writes of clients to their slots; the list
    holds the slots in use. *)
Inductive pool_reach : MemoryPool -> list Z -> Prop :=
| pr_init : pool_reach (pool_ctor PoolSize sizeof_Slot buffer_start) []
| pr_alloc p L a p' : pool_reach p L -> pool_allocate sizeof_Slot buffer_start p = (a, p') -> a <> nullptr -> pool_reach p' (a :: L)
| pr_full p L p' : pool_reach p L -> pool_allocate sizeof_Slot buffer_start p = (nullptr, p') -> pool_reach p' L
| pr_free p L1 a L2 : pool_reach p (L1 ++ a :: L2) -> pool_reach (pool_deallocate PoolSize sizeof_Slot buffer_start a p) (L1 ++ L2)
| pr_again p L a : pool_reach p L -> is_slot PoolSize sizeof_Slot buffer_start a -> a ∉ L ->
    pool_reach (pool_deallocate PoolSize sizeof_Slot buffer_start a p) L
| pr_foreign p L a : pool_reach p L -> a < buffer_start \/ buffer_start + PoolSize * sizeof_Slot <= a ->
    pool_reach (pool_deallocate PoolSize sizeof_Slot buffer_start a p) L
| pr_write p L a v : pool_reach p L -> a ∈ L -> pool_reach (set_slot_next sizeof_Slot buffer_start a v p) L.

Definition all_slots : list Z := map (slot_addr sizeof_Slot buffer_start) (seqZ 0 PoolSize).

Context (Hok : pool_ok PoolSize sizeof_Slot buffer_start).

Lemma all_slots_spec a : a ∈ all_slots <-> is_slot PoolSize sizeof_Slot buffer_start a.
Proof.
  unfold all_slots. split.
  - intros (i & -> & Hi)%list_elem_of_fmap. apply elem_of_seqZ in Hi. exists i. split; [lia|done].
  - intros (i & Hi & ->). apply list_elem_of_fmap. exists i. split; [done|]. apply elem_of_seqZ. lia.
Qed.

Lemma all_slots_nodup : NoDup all_slots.
Proof. apply NoDup_fmap_2_strong; [|apply NoDup_seqZ]. intros i j _ _. by eapply slot_addr_inj. Qed.

Lemma pool_reach_inv p L :
  pool_reach p L -> exists free, pool_inv PoolSize sizeof_Slot buffer_start p free /\ L ++ free ≡ₚ all_slots.
Proof.
  induction 1 as [|p L a p' _ (free & Hi & Hp) Ea Hn|p L p' _ (free & Hi & Hp) Ea|p L1 a L2 _ (free & Hi & Hp)
    |p L a _ (free & Hi & Hp) Ha Hn|p L a _ (free & Hi & Hp) Ha|p L a v _ (free & Hi & Hp) Ha].
  - exists all_slots. split; [by apply pool_ctor_inv|done].
  - pose proof (pool_allocate_inv _ _ _ Hok p free Hi) as H. rewrite Ea in H. destruct free as [|b free]; [by injection H as -> _|].
    cbn in H. destruct H as [-> H]. exists free. split; [done|]. by apply part_take.
  - pose proof (pool_allocate_inv _ _ _ Hok p free Hi) as H. rewrite Ea in H. destruct free as [|b free]; [injection H as ->; by exists []|].
    cbn in H. destruct H as [<- _]. destruct (pi_chain _ _ _ _ _ Hi) as (_ & Hb & _). done.
  - destruct (part_facts _ _ _ Hp all_slots_nodup) as (_ & Hf & _). destruct (Hf a) as [Ha Hnf]; [apply elem_of_app; right; left|].
    apply all_slots_spec in Ha. pose proof (pool_deallocate_inv _ _ _ Hok p free a Hi Ha) as H. rewrite decide_False in H by done.
    exists (a :: free). split; [done|]. by apply part_give.
  - destruct (part_facts _ _ _ Hp all_slots_nodup) as (_ & _ & _ & Hf). pose proof (pool_deallocate_inv _ _ _ Hok p free a Hi Ha) as H.
    rewrite decide_True in H by (apply Hf; [by apply all_slots_spec|done]). rewrite H. by exists free.
  - exists free. split; [|done]. unfold pool_deallocate. destruct (a =? nullptr); [done|].
    destruct (Z.ltb_spec a buffer_start), (Z.leb_spec (buffer_start + PoolSize * sizeof_Slot) a); (done || lia).
  - destruct (part_facts _ _ _ Hp all_slots_nodup) as (_ & Hf & _). destruct (Hf a Ha) as [Has Hnf].
    exists free. split; [|done]. by apply pool_write_inv; [..|apply all_slots_spec|].
Qed.

(** Whatever clients do with their slots, and whatever pointers they release
    (a second release or a pointer outside the pool is ignored), the slots in use
    are distinct slots of the pool; an allocation returns a slot not in use, and
    fails exactly when all [PoolSize] slots are in use. *)
Theorem memory_pool_correct p L :
  pool_reach p L ->
  NoDup L /\ (forall a, a ∈ L -> is_slot PoolSize sizeof_Slot buffer_start a) /\
  let a := (pool_allocate sizeof_Slot buffer_start p).1 in
  (a = nullptr <-> Z.of_nat (length L) = PoolSize) /\
  (a <> nullptr -> is_slot PoolSize sizeof_Slot buffer_start a /\ a ∉ L).
Proof.
  intros Hr. destruct (pool_reach_inv p L Hr) as (free & Hi & Hp). destruct (part_facts _ _ _ Hp all_slots_nodup) as (Hnd & Hf & Hl & _).
  split; [done|]. split; [intros a Ha; by apply all_slots_spec, Hf|]. cbv zeta.
  assert (Hlen : Z.of_nat (length all_slots) = PoolSize) by (unfold all_slots; rewrite length_map, length_seqZ; destruct Hok; lia).
  pose proof (pool_allocate_inv _ _ _ Hok p free Hi) as H. destruct free as [|b free].
  - rewrite H. cbn in *. split; [|done]. split; [|done]. intros _. lia.
  - destruct H as [-> _]. destruct (pi_chain _ _ _ _ _ Hi) as (_ & Hb & _). cbn [length] in Hl. split; [split; [done|lia]|]. intros _.
    split; [apply (pi_slots _ _ _ _ _ Hi); left|]. intros Hb'. destruct (Hf b Hb') as [_ Hnf]. apply Hnf. left.
Qed.
End Pool.

(** * Pages *)

Section Pages.
Context (start_addr size : Z).

(** Allocations, releases of pages in use, and writes of clients inside their
    pages; the list holds the pages in use. *)
Inductive page_reach : PageAllocator -> list Z -> Prop :=
| gr_init m : page_reach (pages_init start_addr size m) []
| gr_alloc p L a p' : page_reach p L -> alloc_page p = (a, p') -> a <> nullptr -> page_reach p' (a :: L)
| gr_full p L p' : page_reach p L -> alloc_page p = (nullptr, p') -> page_reach p' L
| gr_free p L1 a L2 : page_reach p (L1 ++ a :: L2) -> page_reach (free_page a p) (L1 ++ L2)
| gr_write p L m : page_reach p L ->
    (forall b, (forall a, a ∈ L -> b < a \/ a + PAGE_SIZE <= b) -> load8 m b = load8 (page_mem p) b) -> page_reach (set_page_mem m p) L.

Context (Hreg : page_region start_addr size).

Definition page_base : Z := page_up start_addr.
Definition page_count : Z := total_pages_ (pages_init start_addr size ∅).

Definition page_ok (p : PageAllocator) (L free : list Z) : Prop :=
  pages_inv p free /\ L ++ free ≡ₚ pages_from page_base page_count /\ base_addr_ p = page_base /\ total_pages_ p = page_count.

Lemma pages_init_shape m :
  base_addr_ (pages_init start_addr size m) = page_base /\ total_pages_ (pages_init start_addr size m) = page_count.
Proof. unfold page_count, page_base, pages_init. cbv zeta. by destruct (_ =? 0). Qed.

Lemma pages_from_spec p a : base_addr_ p = page_base -> total_pages_ p = page_count -> a ∈ pages_from page_base page_count <-> is_page p a.
Proof.
  intros E1 E2. unfold pages_from, is_page. rewrite E1, E2. split.
  - intros (i & -> & Hi)%list_elem_of_fmap. apply elem_of_seqZ in Hi. exists i. split; [lia|done].
  - intros (i & Hi & ->). apply list_elem_of_fmap. exists i. split; [done|]. apply elem_of_seqZ. lia.
Qed.

Lemma pages_from_nodup a n : NoDup (pages_from a n).
Proof. apply NoDup_fmap_2_strong; [|apply NoDup_seqZ]. unfold PAGE_SIZE. intros; lia. Qed.

Lemma page_reach_ok p L : page_reach p L -> exists free, page_ok p L free.
Proof.
  unfold page_ok. induction 1 as [m|p L a p' _ (free & Hi & Hp & E1 & E2) Ea Hn|p L p' _ (free & Hi & Hp & E1 & E2) Ea
    |p L1 a L2 _ (free & Hi & Hp & E1 & E2)|p L m _ (free & Hi & Hp & E1 & E2) Hm].
  - destruct (pages_init_shape m) as [S1 S2]. destruct (pages_init_inv start_addr size m Hreg) as [Hi _]. cbv zeta in Hi. rewrite S1, S2 in Hi.
    by exists (pages_from page_base page_count).
  - pose proof (alloc_page_inv p free Hi) as H. rewrite Ea in H. destruct free as [|b free]; [by injection H as -> _|].
    cbn [fst snd] in H. destruct H as (-> & H & _ & B1 & B2). exists free. split; [done|]. split; [by apply part_take|]. by rewrite B1, B2.
  - pose proof (alloc_page_inv p free Hi) as H. rewrite Ea in H. destruct free as [|b free]; [injection H as ->; by exists []|].
    cbn [fst snd] in H. destruct H as (<- & _). destruct (pg_chain _ _ Hi) as (_ & Hb & _). done.
  - destruct (part_facts _ _ _ Hp (pages_from_nodup _ _)) as (_ & Hf & _). destruct (Hf a) as [Ha Hnf]; [apply elem_of_app; right; left|].
    apply (pages_from_spec p a E1 E2) in Ha. destruct (free_page_inv p free a Hi Ha Hnf) as (H & _ & B1 & B2).
    exists (a :: free). split; [done|]. split; [by apply part_give|]. by rewrite B1, B2.
  - destruct (part_facts _ _ _ Hp (pages_from_nodup _ _)) as (_ & Hf & _). exists free. split; [|done]. apply pages_write_inv; [done|].
    intros a b Ha Hb. apply Hm. intros c Hc. destruct (Hf c Hc) as [Hc' Hnf]. apply (pages_from_spec p c E1 E2) in Hc'.
    destruct (pages_apart p a c) as [?|?]; [by apply (pg_pages _ _ Hi)|done|by intros ->|lia..].
Qed.

(** Whatever clients write inside their pages, the pages in use are distinct
    aligned pages inside the region, the counter is exactly the number of free
    pages, an allocation returns a page not in use filled with zeros and leaves
    every other byte alone, and it fails exactly when all pages are in use. *)
Theorem page_allocator_correct p L :
  page_reach p L ->
  NoDup L /\ (forall a, a ∈ L -> a mod PAGE_SIZE = 0 /\ start_addr <= a /\ a + PAGE_SIZE <= start_addr + size) /\
  free_pages_ p = total_pages_ p - Z.of_nat (length L) /\
  let '(a, p') := alloc_page p in
  (a = nullptr <-> Z.of_nat (length L) = total_pages_ p) /\
  (a <> nullptr -> (a ∉ L) /\ free_pages_ p' = free_pages_ p - 1 /\
     forall b, load8 (page_mem p') b = if decide (a <= b < a + PAGE_SIZE) then 0 else load8 (page_mem p) b).
Proof.
  intros Hr. destruct (page_reach_ok p L Hr) as (free & Hi & Hp & E1 & E2).
  destruct (part_facts _ _ _ Hp (pages_from_nodup _ _)) as (Hnd & Hf & Hl & _). split; [done|].
  destruct (pages_init_inv start_addr size ∅ Hreg) as (_ & R1 & R2 & R3 & _). cbv zeta in *. destruct (pages_init_shape ∅) as [S1 S2].
  rewrite S1 in R1, R2, R3. rewrite S2 in R3. destruct (pg_range _ _ Hi) as (_ & T0 & _).
  assert (Hlen : Z.of_nat (length (pages_from page_base page_count)) = total_pages_ p).
  { unfold pages_from. rewrite length_map, length_seqZ, E2. rewrite E2 in T0. lia. }
  split; [|split; [rewrite (pg_count _ _ Hi); lia|]].
  - intros a Ha. destruct (Hf a Ha) as [Ha' _]. apply (pages_from_spec p a E1 E2) in Ha' as (i & Hi' & ->). rewrite E1, E2 in *.
    unfold PAGE_SIZE in *. split; [|nia]. rewrite Z.mod_add by lia. done.
  - pose proof (alloc_page_inv p free Hi) as H. destruct free as [|b free].
    + rewrite H. cbn in *. split; [|done]. split; [|done]. intros _. lia.
    + destruct (alloc_page p) as [a p']. cbn [fst snd] in H. destruct H as (-> & Hi' & Hz & _). destruct (pg_chain _ _ Hi) as (_ & Hb & _).
      cbn [length] in *. split; [split; [done|lia]|]. intros _. split; [|split; [|done]].
      * intros Hb'. destruct (Hf b Hb') as [_ Hnf]. apply Hnf. left.
      * rewrite (pg_count _ _ Hi), (pg_count _ _ Hi'). cbn [length]. lia.
Qed.
End Pages.

(** Releasing a page twice is not detected: the page is then handed out twice in
    a row, and the rest of the free list is lost. *)
Theorem page_double_free p free a :
  pages_inv p free -> is_page p a -> a ∉ free ->
  let p := free_page a (free_page a p) in
  let '(a1, p) := alloc_page p in let '(a2, p) := alloc_page p in a1 = a /\ a2 = a /\ free_list_head_ p = nullptr.
Proof.
  intros Hi Ha Hn. destruct (page_u32 p free a Hi Ha) as [U1 U2]. cbv zeta.
  assert (Ea : (a =? nullptr) = false) by (apply Z.eqb_neq; unfold nullptr; lia).
  unfold alloc_page, free_page. rewrite Ea. cbn [free_list_head_ page_mem]. rewrite Ea. cbn [free_list_head_ page_mem].
  rewrite load32_store32 by (unfold is_u32, PAGE_SIZE in *; lia). rewrite Ea. split; [done|]. split; [done|].
  unfold load32. rewrite !load8_zero_bytes, !decide_True; [done|unfold PAGE_SIZE; lia..].
Qed.

(** A region without a page boundary: the page count wraps to almost 2^20. *)
Theorem small_region_wraps m : total_pages_ (pages_init 4097 256 m) = 1048575.
Proof. unfold pages_init. cbv zeta. destruct (_ =? 0); cbn [total_pages_]; vm_compute; reflexivity. Qed.
