(* ===== verification/MmuClaims.v ===== *)
(** Theorems about virtual memory: the AArch64 translation tables implement a
    map of pages, address spaces are isolated from each other, creation and
    destruction conserve pages, and the kernel is present in every address
    space. *)
From S2P Require Import Prelude Pools Frames Pte PageTable PageTableInv PageTableOps Vasp AddressSpace Mmu MmuInv.

(** * The MMU subsystem as a transition system *)

(** The operations that run after [Mmu::init].  A second [init] is none of them: it
    rebuilds the page pool while address spaces are alive, [init_twice_frees_live_root]. *)
Inductive MmuOp :=
  | CreateTaskVas (t obj : Z)
  | DestroyTaskVas (t : Z)
  | MapUserMemory (t vaddr paddr size flags : Z)
  | UnmapUserMemory (t vaddr size : Z)
  | ProtectUserMemory (t vaddr size flags : Z)
  | SwitchVas (t : Z)
  | AllocPage
  | FreePage (page : Z).

(** The task an operation works for. *)
Definition op_task (op : MmuOp) : option Z :=
  match op with
  | CreateTaskVas t _ | DestroyTaskVas t | MapUserMemory t _ _ _ _ | UnmapUserMemory t _ _ | ProtectUserMemory t _ _ _ | SwitchVas t => Some t
  | AllocPage | FreePage _ => None
  end.

Definition run_op (op : MmuOp) (m : Mmu) : option Mmu :=
  match op with
  | CreateTaskVas t obj => snd <$> create_task_vas (Some t) obj m
  | DestroyTaskVas t => Some (destroy_task_vas (Some t) m)
  | MapUserMemory t va pa size fl => snd <$> map_user_memory (Some t) va pa size fl m
  | UnmapUserMemory t va size => snd <$> unmap_user_memory (Some t) va size m
  | ProtectUserMemory t va size fl => snd <$> protect_user_memory (Some t) va size fl m
  | SwitchVas t => Some (switch_vas (Some t) m)
  | AllocPage => Some (mmu_alloc_page m).2
  | FreePage a => Some (mmu_free_page a m)
  end.

(** [operator new] returns 0 or an address not in use, sizes are at most 2^64 - 4096,
    so that the loops' last increment does not wrap ([unmap_range_never_ends] shows a
    larger one), and clients free only pages they hold. *)
Definition op_ok (op : MmuOp) (m : Mmu) (held : list Z) : Prop :=
  match op with
  | CreateTaskVas t obj => vases (destroy_task_vas (Some t) m) !! obj = None
  | MapUserMemory _ _ _ size _ | UnmapUserMemory _ _ size | ProtectUserMemory _ _ size _ => 0 <= size <= 2 ^ 64 - 4096
  | FreePage a => a ∈ held
  | _ => True
  end.

(** The pages in the hands of clients after an operation. *)
Definition held_after (op : MmuOp) (m : Mmu) (held : list Z) : list Z :=
  match op with
  | AllocPage => if (mmu_alloc_page m).1 =? nullptr then held else (mmu_alloc_page m).1 :: held
  | FreePage a => filter (fun x => x <> a) held
  | _ => held
  end.

(** ** One step *)

(** What a step does to the address space of a task that it does not concern. *)
Definition task_same (u : Z) (m m' : Mmu) : Prop :=
  vasp u m' = vasp u m /\
  forall r, vases m !! vasp u m = Some r ->
    vases m' !! vasp u m = Some r /\ forall n, in_vpn n -> vas_view (r, hw m') n = vas_view (r, hw m) n.

Lemma null_tables m held TT : mmu_at m held TT -> delete nullptr TT = TT.
Proof.
  intros (Ht & free & Hs). apply delete_id. destruct (TT !! nullptr) eqn:E; [|done].
  destruct (proj2 (sp_dom _ _ _ _ _ Hs nullptr) ltac:(by eexists)) as [r Hr]. by rewrite (ts_null _ Ht) in Hr.
Qed.

Lemma task_same_others m m' TT held t u :
  mmu_at m held TT -> u <> t -> vasp u m' = vasp u m -> others_same (vasp t m) m m' -> task_same u m m'.
Proof.
  intros (Ht & _) Hne Ev Ho. split; [done|]. intros r Hr. apply Ho; [|done]. intros E. apply Hne. apply (ts_own _ Ht); [|done].
  intros E0. rewrite E0, (ts_null _ Ht) in Hr. done.
Qed.

Lemma task_same_refl u m : task_same u m m.
Proof. by split. Qed.

Definition step_ok (op : MmuOp) (m : Mmu) (held : list Z) (TT : gmap Z (gmap (list Z) Z)) : Prop :=
  exists m' TT', run_op op m = Some m' /\ mmu_at m' (held_after op m held) TT' /\
    (forall u, op_task op <> Some u -> task_same u m m') /\
    (match op_task op with Some t => delete (vasp t m') TT' = delete (vasp t m) TT | None => TT' = TT end) /\
    (op_task op <> None -> fr_total (frames (hw m')) = fr_total (frames (hw m))) /\
    (forall b, page_of b ∈ held -> page_of b ∈ held_after op m held -> rd (hw m') b = rd (hw m) b).

Lemma nothing_ok op m held TT :
  mmu_at m held TT -> run_op op m = Some m -> held_after op m held = held -> step_ok op m held TT.
Proof.
  intros Hm Er Eh. exists m, TT. rewrite Eh. split; [done|]. split; [done|]. split; [intros u _; apply task_same_refl|].
  split; [by destruct (op_task op)|]. by split.
Qed.

(** Operations through [on_vas]. *)
Lemma on_vas_step op t f m held TT :
  mmu_at m held TT -> vasp t m <> nullptr -> (forall s, vas_inv s -> exists b s', f s = Some (b, s') /\ vas_inv s' /\ vas_rel s s') ->
  op_task op = Some t -> run_op op m = snd <$> on_vas t f m -> held_after op m held = held -> step_ok op m held TT.
Proof.
  intros Hm Hv Hf Et Er Eh. destruct (on_vas_ok m held TT t f Hm Hv Hf) as (b & m' & s' & E & _ & Em & (TT' & A1 & A2) & A3 & A4).
  exists m', TT'. rewrite Er, E, Eh, Et. assert (Hvasp : forall u, vasp u m' = vasp u m) by (by intros u; rewrite Em).
  split; [done|]. split; [done|]. split; [|split; [by rewrite Hvasp|split; [intros _; apply A4|intros b' Hb _; by apply A4]]].
  intros u Hu. apply (task_same_others m m' TT held t); [done|congruence|done|done].
Qed.

Lemma create_step t obj m held TT : mmu_at m held TT -> op_ok (CreateTaskVas t obj) m held -> step_ok (CreateTaskVas t obj) m held TT.
Proof.
  cbn [op_ok]. intros Hm Hf. destruct (decide (obj = nullptr)) as [->|Hn].
  - destruct (destroy_task_vas_ok m held TT t Hm) as (A1 & A2 & A3 & A4 & A5 & A6 & A7). set (m1 := destroy_task_vas (Some t) m) in *.
    exists m1, (delete (vasp t m) TT). split; [done|]. split; [done|]. split; [|split; [cbn [op_task]; rewrite A2; by eapply null_tables|split; [intros _; apply A6|intros b Hb _; by apply A6]]].
    intros u Hu. apply (task_same_others m m1 TT held t); [done|cbn in Hu; congruence|apply A3; cbn in Hu; congruence|done].
  - destruct (create_task_vas_ok m held TT t obj Hm Hn Hf) as (m' & TT' & E & A1 & A2 & A3 & A4 & _ & A5 & A6).
    exists m', TT'. cbn [run_op op_task held_after]. rewrite E. split; [done|]. split; [done|]. split; [|split; [|split; [intros _; apply A6|intros b Hb _; by apply A6]]].
    + intros u Hu. assert (Hut : u <> t) by congruence. split; [by apply A4|]. intros r Hr. apply A5; [| |done].
      * intros Eo. destruct (destroy_task_vas_ok m held TT t Hm) as (_ & _ & _ & _ & _ & _ & A7). rewrite A7 in Hf.
        destruct (decide (obj = vasp t m)) as [E'|]; [|congruence]. apply Hut. destruct Hm as (Ht & _). apply (ts_own _ Ht); [|congruence]. congruence.
      * intros Eo. apply Hut. destruct Hm as (Ht & _). apply (ts_own _ Ht); [|done]. intros E0. by rewrite E0, (ts_null _ Ht) in Hr.
    + rewrite A3, A2. apply delete_id. destruct (destroy_task_vas_ok m held TT t Hm) as ((_ & free & Hs) & _).
      destruct (delete (vasp t m) TT !! obj) eqn:E'; [|done]. destruct (proj2 (sp_dom _ _ _ _ _ Hs obj) ltac:(by eexists)). congruence.
Qed.

Lemma alloc_step m held TT : mmu_at m held TT -> step_ok AllocPage m held TT.
Proof.
  intros (Ht & free & Hs). destruct (list_case free) as [Ef|(n & fr & Ef)].
  - assert (Ea : mmu_alloc_page m = (nullptr, m)).
    { pose proof (alloc_frame_spec _ _ (sp_frames _ _ _ _ _ Hs)) as Ha. rewrite Ef in Ha. unfold mmu_alloc_page, alloc_page_hw. rewrite Ha. by destruct m as [[]]. }
    apply nothing_ok; [by split; [|exists free]|by cbn; rewrite Ea|by cbn; rewrite Ea].
  - destruct (spaces_alloc _ _ _ _ _ n fr Hs Ef) as (S1 & S2 & S3 & S4).
    assert (Ea : mmu_alloc_page m = (n, set_hw (alloc_page_hw (hw m)).2 m)) by (unfold mmu_alloc_page; destruct (alloc_page_hw (hw m)); cbn in S3; by subst).
    unfold step_ok. cbn [run_op held_after op_task]. rewrite Ea. cbn [fst snd]. rewrite S4. exists (set_hw (alloc_page_hw (hw m)).2 m), TT.
    assert (Hnh : n ∉ held).
    { pose proof (spaces_nodup Hs) as (_ & _ & (_ & N & _)%NoDup_app)%NoDup_app. intros Hx. apply (N n Hx). rewrite Ef. left. }
    split; [done|]. split; [|split; [|split; [done|split; [done|]]]].
    + split; [|by exists fr]. destruct Ht as [H1 H2 H3 H4 H5 H6]. by split.
    + intros u _. split; [done|]. intros r Hr. split; [done|]. destruct (spaces_table Hs _ _ Hr) as (T & HT & O1).
      destruct (spaces_table S1 _ _ Hr) as (T' & HT' & O2). assert (T' = T) as -> by congruence. eapply view_same; [exact O1|exact O2|].
      intros q j _ Hj. eapply tleaf_same; [exact O1| |done]. intros b Hb. apply S2. intros E. rewrite E in Hb.
      pose proof (v_nodup _ _ _ _ O1) as (_ & N & _)%NoDup_app. apply (N n Hb). rewrite Ef. left.
    + intros b Hb _. apply S2. intros E. by rewrite E in Hb.
Qed.

Lemma filter_ne_perm (a : Z) l : NoDup l -> a ∈ l -> l ≡ₚ a :: filter (fun x => x <> a) l.
Proof.
  intros Hnd Ha. apply NoDup_Permutation; [done| |].
  - apply NoDup_cons. split; [|by apply NoDup_filter]. intros [? _]%list_elem_of_filter. done.
  - intros x. rewrite elem_of_cons, list_elem_of_filter. destruct (decide (x = a)) as [->|]; tauto.
Qed.

Lemma free_step a m held TT : mmu_at m held TT -> a ∈ held -> step_ok (FreePage a) m held TT.
Proof.
  intros (Ht & free & Hs) Ha. pose proof (spaces_nodup Hs) as (_ & _ & (N & _)%NoDup_app)%NoDup_app.
  set (held' := filter (fun x => x <> a) held). assert (Hs' : spaces_ok (hw m) (vases m) TT (a :: held') free).
  { destruct Hs as [H1 H2 H3 H4]. split; [done|done|done|]. unfold held'. rewrite <- filter_ne_perm by done. done. }
  destruct (spaces_free _ _ _ _ _ _ Hs') as (S1 & S2). exists (mmu_free_page a m), TT. cbn [run_op held_after op_task]. fold held'.
  split; [done|]. split; [|split; [|split; [done|split; [done|]]]].
  - split; [|by exists (a :: free)]. destruct Ht as [H1 H2 H3 H4 H5 H6]. by split.
  - intros u _. split; [done|]. intros r Hr. split; [done|]. destruct (spaces_table Hs _ _ Hr) as (T & HT & O1).
    destruct (spaces_table S1 _ _ Hr) as (T' & HT' & O2). assert (T' = T) as -> by congruence. eapply view_same; [exact O1|exact O2|].
    intros q j _ Hj. eapply tleaf_same; [exact O1| |done]. intros b Hb. apply S2. intros E. rewrite E in Hb.
    apply (held_apart Hs _ T a HT Ha). apply elem_of_app. by left.
  - intros b _ [Hb _]%list_elem_of_filter. by apply S2.
Qed.

Lemma run_op_ok op m held TT : mmu_at m held TT -> op_ok op m held -> step_ok op m held TT.
Proof.
  intros Hm Hop. destruct op as [t obj|t|t va pa size fl|t va size|t va size fl|t| |a]; cbn [op_ok] in Hop.
  - by apply create_step.
  - destruct (destroy_task_vas_ok m held TT t Hm) as (A1 & A2 & A3 & _ & A5 & A6 & _).
    exists (destroy_task_vas (Some t) m), (delete (vasp t m) TT). split; [done|]. split; [done|].
    split; [|split; [cbn [op_task]; rewrite A2; by eapply null_tables|split; [intros _; apply A6|intros b Hb _; by apply A6]]].
    intros u Hu. cbn in Hu. apply (task_same_others m _ TT held t); [done|congruence|apply A3; congruence|done].
  - destruct ((vasp t m =? nullptr) || (size =? 0)) eqn:E; [apply nothing_ok; [done| |done]; cbn; by rewrite E|].
    eapply (on_vas_step _ t); [done| | |done|by cbn; rewrite E|done].
    + apply orb_false_iff in E as [E%Z.eqb_neq _]. done.
    + intros s Hs. by apply (map_range_any (HL := aarch64_laws)).
  - destruct ((vasp t m =? nullptr) || (size =? 0)) eqn:E; [apply nothing_ok; [done| |done]; cbn; by rewrite E|].
    eapply (on_vas_step _ t); [done| | |done|by cbn; rewrite E|done].
    + apply orb_false_iff in E as [E%Z.eqb_neq _]. done.
    + intros s Hs. by apply (unmap_range_any (HL := aarch64_laws)).
  - destruct ((vasp t m =? nullptr) || (size =? 0)) eqn:E; [apply nothing_ok; [done| |done]; cbn; by rewrite E|].
    eapply (on_vas_step _ t); [done| | |done|by cbn; rewrite E|done].
    + apply orb_false_iff in E as [E%Z.eqb_neq _]. done.
    + intros s Hs. by apply (protect_range_any (HL := aarch64_laws)).
  - exists (switch_vas (Some t) m), TT. destruct Hm as (Ht & free & Hs).
    assert (E : hw (switch_vas (Some t) m) = hw m /\ vases (switch_vas (Some t) m) = vases m /\ task_memory (switch_vas (Some t) m) = task_memory m /\
      kernel_vas_ (switch_vas (Some t) m) = kernel_vas_ m) by (unfold switch_vas, switch_address_space; repeat case_match; done).
    destruct (switch_vas (Some t) m) as [h v k e mem tt] eqn:Es. cbn in E. destruct E as (-> & -> & -> & ->).
    split; [cbn [run_op]; by rewrite Es|]. split; [split; [destruct Ht as [H1 H2 H3 H4 H5 H6]; by split|by exists free]|]. split; [by intros u _|]. done.
  - by apply alloc_step.
  - by apply free_step.
Qed.

(** ** Translation *)

Definition to_address (va : Z) (e : Z * Z) : Z * Z := (e.1 * 4096 + va mod 4096, e.2).

Lemma task_space m held TT t :
  mmu_at m held TT -> vasp t m <> nullptr -> exists r, vases m !! vasp t m = Some r /\ load_vas (vasp t m) m = (r, hw m) /\ vas_inv (r, hw m).
Proof.
  intros (Ht & free & Hs) Hv. destruct (ts_live _ Ht t Hv) as [r Hr]. exists r. split; [done|]. split; [unfold load_vas, root_of; by rewrite Hr|].
  destruct (spaces_table Hs _ _ Hr) as (T & HT & Ho). by exists T, free.
Qed.

Lemma translate_task m held TT t va :
  mmu_at m held TT -> vasp t m <> nullptr -> translate (Some t) va m = to_address va <$> vas_view (load_vas (vasp t m) m) (page_number va).
Proof.
  intros Hm Hv. destruct (task_space m held TT t Hm Hv) as (r & Hr & El & Hi). unfold translate. destruct (Z.eqb_spec (vasp t m) nullptr) as [|_]; [done|].
  rewrite El. rewrite (vas_translate_view (r, hw m) va Hi). destruct (vas_view (r, hw m) (page_number va)) as [[n fl]|]; done.
Qed.

Lemma task_same_translate m m' held held' TT TT' u va :
  mmu_at m held TT -> mmu_at m' held' TT' -> task_same u m m' -> translate (Some u) va m' = translate (Some u) va m.
Proof.
  intros Hm Hm' (Ev & Hv). destruct (decide (vasp u m = nullptr)) as [E|Hn]; [unfold translate; by rewrite Ev, E|].
  rewrite (translate_task m held TT u va Hm Hn), (translate_task m' held' TT' u va Hm') by (by rewrite Ev).
  destruct (task_space m held TT u Hm Hn) as (r & Hr & El & _). destruct (Hv r Hr) as [Hr' Hview]. rewrite Ev, El.
  assert (load_vas (vasp u m) m' = (r, hw m')) as -> by (unfold load_vas, root_of; by rewrite Hr'). rewrite Hview; [done|apply page_number_range].
Qed.

Lemma free_pages_spec m TT held free :
  spaces_ok (hw m) (vases m) TT held free -> get_free_pages m = Z.of_nat (length free) /\
  Z.of_nat (length (all_tables TT)) + Z.of_nat (length held) + get_free_pages m = fr_total (frames (hw m)).
Proof.
  intros Hs. pose proof (fr_count _ _ (sp_frames _ _ _ _ _ Hs)) as Hc. split; [done|]. unfold get_free_pages. rewrite Hc.
  pose proof (Permutation_length (sp_all _ _ _ _ _ Hs)) as Hl. rewrite !length_app in Hl. unfold pool_pages, pages_from in Hl.
  rewrite length_map, length_seqZ in Hl. pose proof (fr_range _ _ (sp_frames _ _ _ _ _ Hs)). lia.
Qed.

Lemma not_full m TT held free r : spaces_ok (hw m) (vases m) TT held free -> 0 < get_free_pages m -> vas_full (r, hw m) -> False.
Proof.
  intros Hs Hp Hf. destruct (free_pages_spec m TT held free Hs) as [E _]. pose proof (fr_chain _ _ (sp_frames _ _ _ _ _ Hs)) as Hc.
  apply free_chain_null in Hc. unfold vas_full in Hf. cbn in Hf. rewrite (proj1 Hc Hf) in E. cbn in E. lia.
Qed.

(** ** A first state *)

Definition boot_mmu (pool size : Z) : Mmu := mkMmu (mkHw (frames_init pool size ∅) []) ∅ nullptr false ∅ 0.

Lemma boot_mmu_ok pool size : frame_region pool size -> mmu_ok (boot_mmu pool size) [].
Proof.
  intros Hr. destruct (frames_init_inv pool size ∅ Hr) as (Hi & _). exists ∅. split.
  - split; cbn; try done; try (intros o [? Ho]; by rewrite lookup_empty in Ho). intros t. by left.
  - eexists. split; [exact Hi| | |].
    + intros o. cbn. rewrite !lookup_empty. done.
    + intros o r T. cbn. by rewrite lookup_empty.
    + cbn. unfold all_tables. rewrite map_to_list_empty. done.
Qed.

(** * Theorems *)

(** C9: the AArch64 translation tables implement a partial map from virtual
    page numbers to physical page numbers and flags: [translate] reads it, [map]
    binds a page (or, when the page pool is exhausted, leaves it as it is),
    [unmap] and [protect] succeed exactly on aligned mapped addresses and remove
    the page or replace its flags; nothing else changes. *)
Theorem page_tables_refine_map (root : Z) (h : Hw) :
  vas_inv (root, h) ->
  (forall va, mmu_translate va root h = to_address va <$> vas_view (root, h) (page_number va)) /\
  (forall va pa fl b root' h', mmu_map va pa fl root h = (b, root', h') -> vas_inv (root', h') /\
    if b then page_aligned va = true /\ page_aligned pa = true /\
      forall n, in_vpn n -> vas_view (root', h') n = if decide (n = page_number va) then Some (page_number pa, effective_flags fl) else vas_view (root, h) n
    else (forall n, in_vpn n -> vas_view (root', h') n = vas_view (root, h) n) /\
      (page_aligned va = true -> page_aligned pa = true -> fr_free (frames h') = 0)) /\
  (forall va b h', mmu_unmap va root h = (b, h') -> vas_inv (root, h') /\
    b = page_aligned va && bool_decide (is_Some (vas_view (root, h) (page_number va))) /\
    forall n, in_vpn n -> vas_view (root, h') n = if decide (b = true /\ n = page_number va) then None else vas_view (root, h) n) /\
  (forall va fl b h', mmu_protect va fl root h = (b, h') -> vas_inv (root, h') /\
    b = page_aligned va && bool_decide (is_Some (vas_view (root, h) (page_number va))) /\
    forall n, in_vpn n -> vas_view (root, h') n =
      if decide (b = true /\ n = page_number va) then (fun '(m, _) => (m, effective_flags fl)) <$> vas_view (root, h) n else vas_view (root, h) n).
Proof.
  intros Hi. split; [|split; [|split]].
  - intros va. etransitivity; [apply (vas_translate_view (root, h) va Hi)|]. by destruct (vas_view (root, h) (page_number va)) as [[]|].
  - intros va pa fl b root' h' E. destruct (vas_map_view (root, h) va pa fl b (root', h') Hi) as (I' & _ & V); [cbn; by rewrite E|]. split; [done|].
    destruct b; [destruct V as (A1 & A2 & V); by rewrite <- page_aligned_spec in A1, A2|]. destruct V as [V F]. split; [done|].
    intros A1%page_aligned_spec A2%page_aligned_spec. specialize (F A1 A2).
    destruct I' as (T' & free' & O'). pose proof (v_frames _ _ _ _ O') as Hf. cbn in Hf. rewrite (fr_count _ _ Hf).
    pose proof (free_chain_null _ _ _ (fr_chain _ _ Hf)) as Hc. by rewrite (proj1 Hc F).
  - intros va b h' E. destruct (vas_unmap_view (root, h) va b (root, h') Hi) as (I' & _ & B & V); [cbn; by rewrite E|]. split; [done|]. split; [|done].
    apply eq_bool_prop_intro. rewrite !Is_true_true, andb_true_iff, bool_decide_eq_true, page_aligned_spec. done.
  - intros va fl b h' E. destruct (vas_protect_view (root, h) va fl b (root, h') Hi) as (I' & _ & B & V); [cbn; by rewrite E|]. split; [done|]. split; [|done].
    apply eq_bool_prop_intro. rewrite !Is_true_true, andb_true_iff, bool_decide_eq_true, page_aligned_spec. done.
Qed.

Lemma page_tables_refine_map_witness :
  vas_inv (nullptr, hw (boot_mmu 4096 65536)) /\
  forall n, in_vpn n -> vas_view (let '(_, r, h) := mmu_map 8192 4096 3 nullptr (hw (boot_mmu 4096 65536)) in (r, h)) n =
    if decide (n = 2) then Some (1, 3) else vas_view (nullptr, hw (boot_mmu 4096 65536)) n.
Proof.
  assert (Hi : vas_inv (nullptr, hw (boot_mmu 4096 65536))).
  { destruct (boot_mmu_ok 4096 65536) as (TT & _ & free & Hs); [by vm_compute|]. exists ∅, free. apply empty_vas_ok, Hs. }
  split; [exact Hi|]. destruct (page_tables_refine_map _ _ Hi) as (_ & Hm & _).
  destruct (mmu_map 8192 4096 3 nullptr (hw (boot_mmu 4096 65536))) as [[b r] h] eqn:E.
  assert (b = true) as -> by (change b with ((b, r, h).1.1); rewrite <- E; vm_compute; reflexivity).
  destruct (Hm _ _ _ _ _ _ E) as (_ & _ & _ & V). exact V.
Defined.

(** C8: address spaces are isolated.  After initialisation, every operation of the
    MMU subsystem with a range of at most 2^64 - 4096 bytes, an [operator new] that
    returns 0 or an unused address and a freed page that the client holds, ends
    and keeps its invariant (each page of the pool in one place, each task's
    pointer to a live address space of its own); the translation of every address
    by every task it does not concern stays the same, and so do the words of the
    pages that clients hold before and after.  Outside these conditions:
    [unmap_range_never_ends], [init_twice_frees_live_root]. *)
Theorem address_spaces_isolated m held op :
  mmu_ok m held -> op_ok op m held ->
  exists m', run_op op m = Some m' /\ mmu_ok m' (held_after op m held) /\
    (forall u va, op_task op <> Some u -> translate (Some u) va m' = translate (Some u) va m) /\
    (forall b, page_of b ∈ held -> page_of b ∈ held_after op m held -> rd (hw m') b = rd (hw m) b).
Proof.
  intros (TT & Hm) Hop. destruct (run_op_ok op m held TT Hm Hop) as (m' & TT' & E & Hm' & Hu & _ & _ & Hh).
  exists m'. split; [done|]. split; [by exists TT'|]. split; [|done]. intros u va Hne. by eapply task_same_translate; [| |apply Hu].
Qed.

Lemma address_spaces_isolated_witness :
  exists m', run_op (CreateTaskVas 1 20480) (boot_mmu 4096 65536) = Some m' /\ forall va, translate (Some 2) va m' = None.
Proof.
  destruct (address_spaces_isolated (boot_mmu 4096 65536) [] (CreateTaskVas 1 20480)) as (m' & E & _ & Hu & _).
  - apply boot_mmu_ok. by vm_compute.
  - reflexivity.
  - exists m'. split; [exact E|]. intros va. rewrite Hu by discriminate. reflexivity.
Defined.

(** ** Ranges of addresses *)

Lemma page_number_small x : 0 <= x < 2 ^ 48 -> page_number x = x / 4096.
Proof. intros Hx. apply Z.mod_small. split; [apply Z.div_pos; lia|apply Z.div_lt_upper_bound; lia]. Qed.

(** The page loops cover the range rounded up to whole pages. *)
Definition in_pages (va size x : Z) : Prop := va <= x < va + 4096 * page_count size.

Lemma in_pages_number va size x :
  page_range va size -> 0 <= x < 2 ^ 48 -> in_pages va size x <-> va / 4096 <= page_number x < va / 4096 + page_count size.
Proof.
  intros (Ha & H0 & H1 & H2) Hx. rewrite page_number_small by done. unfold in_pages, aligned in *. Z.to_euclidean_division_equations. lia.
Qed.

Lemma page_offset va x : aligned va -> va <= x -> (x / 4096 - va / 4096) * 4096 + x mod 4096 = x - va.
Proof. unfold aligned. intros Ha Hx. Z.to_euclidean_division_equations. lia. Qed.

Lemma identity_address x : x / 4096 * 4096 + x mod 4096 = x.
Proof. Z.to_euclidean_division_equations. lia. Qed.

(** a new address space of a task holds the kernel: unless the page pool ran
    out, RAM, interrupt controller and UART are mapped to themselves for
    privileged access, and the task's page directory is the new root table. *)
Theorem kernel_present m held t obj :
  mmu_ok m held -> obj <> nullptr -> vases (destroy_task_vas (Some t) m) !! obj = None ->
  exists m', create_task_vas (Some t) obj m = Some (true, m') /\ mmu_ok m' held /\ vasp t m' = obj /\
    (0 < get_free_pages m' ->
      (forall x, KERNEL_RAM_BASE <= x < KERNEL_RAM_BASE + KERNEL_RAM_SIZE -> translate (Some t) x m' = Some (x, RWX)) /\
      (forall x, BOARD_GIC_DIST_BASE <= x < BOARD_GIC_DIST_BASE + BOARD_GIC_DIST_SIZE -> translate (Some t) x m' = Some (x, RW_device)) /\
      (forall x, BOARD_UART0_BASE <= x < BOARD_UART0_BASE + 4096 -> translate (Some t) x m' = Some (x, RW_device)) /\
      test_flags RWX MapUser = false /\ test_flags RW_device MapUser = false).
Proof.
  intros (TT & Hm) Hn Hf. destruct (create_task_vas_ok m held TT t obj Hm Hn Hf) as (m' & TT' & E & Hm' & _ & Hv & _ & Hk & _).
  exists m'. split; [done|]. split; [by exists TT'|]. split; [done|]. intros Hp.
  destruct Hk as [Hk|Hk]; [|exfalso; destruct Hm' as (_ & free & Hs); by eapply not_full].
  assert (Ht : forall x n fl, vas_view (load_vas obj m') n = Some (n, fl) -> 0 <= x < 2 ^ 48 -> x / 4096 = n -> translate (Some t) x m' = Some (x, fl)).
  { intros x n fl Hview Hx En. rewrite (translate_task m' held TT' t x Hm') by (by rewrite Hv). rewrite Hv, page_number_small, En, Hview by done.
    cbn. unfold to_address. cbn. by rewrite <- En, identity_address. }
  destruct Hk as (K1 & K2 & K3). unfold KERNEL_RAM_BASE, KERNEL_RAM_SIZE, BOARD_GIC_DIST_BASE, BOARD_GIC_DIST_SIZE, BOARD_UART0_BASE in *.
  split; [|split; [|split; [|by split]]]; intros x Hx.
  - apply (Ht x (x / 4096)); [apply K1|lia|done]. Z.to_euclidean_division_equations. lia.
  - apply (Ht x (x / 4096)); [apply K2|lia|done]. Z.to_euclidean_division_equations. lia.
  - apply (Ht x (0x09000000 / 4096)); [exact K3|lia|]. Z.to_euclidean_division_equations. lia.
Qed.

(** ** User memory *)

Lemma user_op m held TT t f b m' :
  mmu_at m held TT -> vasp t m <> nullptr -> on_vas t f m = Some (b, m') ->
  (forall s, vas_inv s -> exists b s', f s = Some (b, s') /\ vas_inv s' /\ vas_rel s s') ->
  exists s', f (load_vas (vasp t m) m) = Some (b, s') /\ vas_inv (load_vas (vasp t m) m) /\ s' = load_vas (vasp t m') m' /\
    (exists TT', mmu_at m' held TT') /\ vasp t m' = vasp t m.
Proof.
  intros Hm Hv E Hf. destruct (on_vas_ok m held TT t f Hm Hv Hf) as (b1 & m1 & s' & E1 & Ef & Em & (TT' & A1 & _) & _).
  rewrite E in E1. injection E1 as <- <-. destruct (task_space m held TT t Hm Hv) as (r & Hr & El & Hi).
  exists s'. split; [done|]. split; [by rewrite El|]. assert (Ev : vasp t m' = vasp t m) by (by rewrite Em). split; [|split; [by exists TT'|done]].
  rewrite Ev, Em. unfold load_vas. rewrite store_vas_root, decide_True by done. by destruct s'.
Qed.

Lemma user_guard m t size : vasp t m <> nullptr -> 0 < size -> (vasp t m =? nullptr) || (size =? 0) = false.
Proof. intros Hv Hs. apply orb_false_iff. split; apply Z.eqb_neq; [done|lia]. Qed.

(** mapping user memory.  For whole pages below [2^48] the call ends; when it
    succeeds, every address of the range translates to the corresponding physical
    address with the requested flags and user access, and no other translation of
    the task changes; it fails only when the page pool is exhausted. *)
Theorem map_user_memory_spec m held t va pa size fl :
  mmu_ok m held -> vasp t m <> nullptr -> page_range va size -> page_range pa size ->
  exists b m', map_user_memory (Some t) va pa size fl m = Some (b, m') /\ mmu_ok m' held /\
    if b then forall x, 0 <= x < 2 ^ 48 ->
      (in_pages va size x -> translate (Some t) x m' = Some (pa + (x - va), effective_flags (Z.lor fl MapUser))) /\
      (~ in_pages va size x -> translate (Some t) x m' = translate (Some t) x m)
    else get_free_pages m' = 0.
Proof.
  intros (TT & Hm) Hv Hva Hpa. pose proof Hva as (Ha & H0 & Hs & He). unfold map_user_memory. rewrite user_guard by done.
  assert (Hany : forall s, vas_inv s -> exists b s', map_range va pa size (Z.lor fl MapUser) s = Some (b, s') /\ vas_inv s' /\ vas_rel s s').
  { intros s Hi. apply (map_range_any (HL := aarch64_laws)); [lia|done]. }
  destruct (on_vas_ok m held TT t _ Hm Hv Hany) as (b & m' & _ & E & _). rewrite E.
  destruct (user_op m held TT t _ b m' Hm Hv E Hany) as (s' & Ef & Hi & Es & (TT' & Hm') & Ev).
  destruct (map_range_spec (HL := aarch64_laws) va pa size (Z.lor fl MapUser) _ Hi Hva Hpa) as (b1 & s1 & k & Ef1 & I1 & _ & _ & M1 & K1).
  rewrite Ef in Ef1. injection Ef1 as <- <-. exists b, m'. split; [done|]. split; [by exists TT'|]. destruct b.
  - subst k. intros x Hx. assert (Hv' : vasp t m' <> nullptr) by (by rewrite Ev). rewrite (translate_task m' held TT' t x Hm' Hv'), <- Es.
    pose proof (in_pages_number va size x Hva Hx) as Hin. change (vas_view s' (page_number x)) with (as_view s' (page_number x)).
    rewrite (M1 _ (page_number_range x)). split; intros Hp.
    + rewrite decide_True by tauto. cbn [fmap option_fmap option_map]. unfold to_address. cbn [fst snd]. f_equal. f_equal. rewrite page_number_small by done.
      pose proof (page_offset va x Ha ltac:(apply Hp)). pose proof Hpa as (Hpa' & _). pose proof (identity_address pa). unfold aligned in Hpa'. lia.
    + rewrite decide_False by tauto. by rewrite (translate_task m held TT t x Hm Hv).
  - destruct Hm' as (_ & free & Hsp). destruct (free_pages_spec m' TT' held free Hsp) as [Efree _]. rewrite Efree.
    pose proof (free_chain_null _ _ _ (fr_chain _ _ (sp_frames _ _ _ _ _ Hsp))) as Hc. rewrite Es in K1. rewrite (proj1 Hc K1). done.
Qed.

(** A state with one address space. *)
(** Unmapping and protecting user memory.  For whole pages below [2^48] both
    calls end.  Unmapping removes every translation of the range and succeeds
    exactly when all its pages were mapped; protecting replaces the flags of the
    pages up to the first unmapped one, keeps their physical addresses and
    succeeds exactly when there is none; other translations of the task stay. *)
Theorem unmap_protect_user_memory m held t va size fl :
  mmu_ok m held -> vasp t m <> nullptr -> page_range va size ->
  (exists b m', unmap_user_memory (Some t) va size m = Some (b, m') /\ mmu_ok m' held /\
    (b = true <-> forall x, in_pages va size x -> is_Some (translate (Some t) x m)) /\
    forall x, 0 <= x < 2 ^ 48 -> translate (Some t) x m' = if decide (in_pages va size x) then None else translate (Some t) x m) /\
  (exists b m' k, protect_user_memory (Some t) va size fl m = Some (b, m') /\ mmu_ok m' held /\
    (if b then k = page_count size else 0 <= k < page_count size /\ translate (Some t) (va + 4096 * k) m = None) /\
    forall x, 0 <= x < 2 ^ 48 -> translate (Some t) x m' =
      if decide (va <= x < va + 4096 * k) then (fun '(pa, _) => (pa, effective_flags (Z.lor fl MapUser))) <$> translate (Some t) x m
      else translate (Some t) x m).
Proof.
  intros (TT & Hm) Hv Hva. pose proof Hva as (Ha & H0 & Hs & He). unfold unmap_user_memory, protect_user_memory. rewrite user_guard by done. split.
  - assert (Hany : forall s, vas_inv s -> exists b s', unmap_range va size s = Some (b, s') /\ vas_inv s' /\ vas_rel s s').
    { intros s Hi. apply (unmap_range_any (HL := aarch64_laws)); [lia|done]. }
    destruct (on_vas_ok m held TT t _ Hm Hv Hany) as (b & m' & _ & E & _). rewrite E.
    destruct (user_op m held TT t _ b m' Hm Hv E Hany) as (s' & Ef & Hi & Es & (TT' & Hm') & Ev).
    destruct (unmap_range_spec (HL := aarch64_laws) va size _ Hi Hva) as (b1 & s1 & Ef1 & I1 & _ & M1 & K1).
    rewrite Ef in Ef1. injection Ef1 as <- <-. exists b, m'. split; [done|]. split; [by exists TT'|]. split.
    + rewrite K1. unfold mapped_pages. split.
      * intros Hmp x Hx. assert (Hx' : 0 <= x < 2 ^ 48) by (unfold in_pages in Hx; pose proof (page_count_bound (page_count size - 1) size Hs); unfold aligned in Ha; Z.to_euclidean_division_equations; lia).
        rewrite (translate_task m held TT t x Hm Hv). apply fmap_is_Some, Hmp. by apply in_pages_number.
      * intros Ht n Hn. assert (Hx : in_pages va size (n * 4096)) by (unfold in_pages; unfold aligned in Ha; Z.to_euclidean_division_equations; lia).
        specialize (Ht _ Hx). rewrite (translate_task m held TT t _ Hm Hv), fmap_is_Some, page_number_page in Ht; [done|].
        destruct (page_range_number va size (n - va / 4096) Hva ltac:(lia)) as (_ & _ & _ & Hr). by replace (va / 4096 + (n - va / 4096)) with n in Hr by lia.
    + intros x Hx. rewrite (translate_task m' held TT' t x Hm') by (by rewrite Ev). rewrite <- Es.
      change (vas_view s' (page_number x)) with (as_view s' (page_number x)). rewrite (M1 _ (page_number_range x)).
      pose proof (in_pages_number va size x Hva Hx) as Hin. destruct (decide (in_pages va size x)).
      * by rewrite decide_True by tauto.
      * rewrite decide_False by tauto. by rewrite (translate_task m held TT t x Hm Hv).
  - assert (Hany : forall s, vas_inv s -> exists b s', protect_range va size (Z.lor fl MapUser) s = Some (b, s') /\ vas_inv s' /\ vas_rel s s').
    { intros s Hi. apply (protect_range_any (HL := aarch64_laws)); [lia|done]. }
    destruct (on_vas_ok m held TT t _ Hm Hv Hany) as (b & m' & _ & E & _). rewrite E.
    destruct (user_op m held TT t _ b m' Hm Hv E Hany) as (s' & Ef & Hi & Es & (TT' & Hm') & Ev).
    destruct (protect_range_spec (HL := aarch64_laws) va size (Z.lor fl MapUser) _ Hi Hva) as (b1 & s1 & k & Ef1 & I1 & _ & Hk & M1 & _ & K1).
    rewrite Ef in Ef1. injection Ef1 as <- <-. exists b, m', k. split; [done|]. split; [by exists TT'|]. split.
    + destruct b; [done|]. destruct K1 as [K1 K2]. split; [lia|]. rewrite (translate_task m held TT t _ Hm Hv).
      destruct (page_range_number va size k Hva ltac:(lia)) as (_ & En & _). rewrite En. change (vas_view (load_vas (vasp t m) m) (va / 4096 + k) = None) in K2. by rewrite K2.
    + intros x Hx. rewrite (translate_task m' held TT' t x Hm') by (by rewrite Ev). rewrite <- Es.
      change (vas_view s' (page_number x)) with (as_view s' (page_number x)). rewrite (M1 _ (page_number_range x)).
      rewrite (translate_task m held TT t x Hm Hv).
      assert (Hin : va <= x < va + 4096 * k <-> va / 4096 <= page_number x < va / 4096 + k).
      { rewrite page_number_small by done. unfold aligned in Ha. Z.to_euclidean_division_equations. lia. }
      change (as_view (load_vas (vasp t m) m)) with (vas_view (load_vas (vasp t m) m)).
      destruct (decide (va <= x < va + 4096 * k)); [rewrite decide_True by tauto|by rewrite decide_False by tauto].
      destruct (vas_view (load_vas (vasp t m) m) (page_number x)) as [[n f]|]; done.
Qed.

(** ** Life cycle *)

(** A run of operations for task [t]. *)
Inductive task_run (t : Z) (held : list Z) : Mmu -> Mmu -> Prop :=
  | run_nil m : task_run t held m m
  | run_cons op m m1 m2 : op_task op = Some t -> op_ok op m held -> run_op op m = Some m1 -> task_run t held m1 m2 -> task_run t held m m2.

Lemma task_op_held op t m held : op_task op = Some t -> held_after op m held = held.
Proof. by destruct op. Qed.

Lemma task_run_tables t held m m' TT :
  task_run t held m m' -> mmu_at m held TT -> exists TT', mmu_at m' held TT' /\ delete (vasp t m') TT' = delete (vasp t m) TT /\
    fr_total (frames (hw m')) = fr_total (frames (hw m)) /\
    forall u, u <> t -> forall va, translate (Some u) va m' = translate (Some u) va m.
Proof.
  intros Hr. revert TT. induction Hr as [m|op m m1 m2 Et Hop Er _ IH]; intros TT Hm; [by exists TT|].
  destruct (run_op_ok op m held TT Hm Hop) as (m1' & TT1 & E & Hm1 & Hu & Hd & Hp & _). rewrite Er in E. injection E as <-.
  rewrite (task_op_held op t) in Hm1 by done. rewrite Et in Hd, Hp. destruct (IH TT1 Hm1) as (TT2 & Hm2 & Hd2 & Hp2 & Hu2).
  exists TT2. split; [done|]. split; [congruence|]. split; [rewrite Hp2; by apply Hp|]. intros u Hne va. rewrite Hu2 by done. eapply task_same_translate; [exact Hm|exact Hm1|].
  apply Hu. rewrite Et. congruence.
Qed.

Lemma task_run_snoc t held m m' : task_run t held m m' -> task_run t held m (destroy_task_vas (Some t) m').
Proof.
  induction 1 as [m|op m m1 m2 Et Hop Er Hr IH]; [|by eapply run_cons].
  by eapply (run_cons t held (DestroyTaskVas t)); [| | |apply run_nil].
Qed.

(** C10: no page is lost over the life of an address space.  Whatever a task
    without an address space does (creating, mapping, unmapping, protecting,
    creating again) under any flags and failures, once its address space is
    destroyed the page pool holds exactly the pages it held at the start, and the
    other tasks translate as before. *)
Theorem vas_lifecycle_conserves t held m m' :
  mmu_ok m held -> vasp t m = nullptr -> task_run t held m m' ->
  mmu_ok (destroy_task_vas (Some t) m') held /\ vasp t (destroy_task_vas (Some t) m') = nullptr /\
  get_free_pages (destroy_task_vas (Some t) m') = get_free_pages m /\
  forall u, u <> t -> forall va, translate (Some u) va (destroy_task_vas (Some t) m') = translate (Some u) va m.
Proof.
  intros (TT & Hm) Hv Hr.
  pose proof (task_run_snoc t held m m' Hr) as Hr'.
  destruct (task_run_tables t held m _ TT Hr' Hm) as (TT' & Hm' & Hd & Hp & Hu).
  assert (Hv' : vasp t (destroy_task_vas (Some t) m') = nullptr).
  { destruct (task_run_tables t held m m' TT Hr Hm) as (TT1 & Hm1 & _). by destruct (destroy_task_vas_ok m' held TT1 t Hm1) as (_ & ? & _). }
  split; [by exists TT'|]. split; [done|]. split; [|done]. rewrite Hv', Hv, (null_tables _ _ _ Hm), (null_tables _ _ _ Hm') in Hd. subst TT'.
  destruct Hm as (_ & free & Hs), Hm' as (_ & free' & Hs'). pose proof (free_pages_spec _ _ _ _ Hs) as [_ E1]. pose proof (free_pages_spec _ _ _ _ Hs') as [_ E2]. lia.
Qed.

Lemma vas_lifecycle_conserves_witness :
  exists m', run_op (CreateTaskVas 1 20480) (boot_mmu 4096 65536) = Some m' /\
    get_free_pages (destroy_task_vas (Some 1) m') = get_free_pages (boot_mmu 4096 65536).
Proof.
  assert (Hb : mmu_ok (boot_mmu 4096 65536) []) by (apply boot_mmu_ok; by vm_compute).
  destruct (run_op_ok (CreateTaskVas 1 20480) (boot_mmu 4096 65536) [] ∅) as (m' & _ & E & _).
  { destruct (boot_mmu_ok 4096 65536) as (TT & Ht & free & Hs); [by vm_compute|]. split; [exact Ht|]. exists free.
    assert (TT = ∅) as <-; [|exact Hs]. apply map_eq. intros o. rewrite lookup_empty. destruct (TT !! o) eqn:E; [|reflexivity].
    destruct (proj2 (sp_dom _ _ _ _ _ Hs o) ltac:(rewrite E; eexists; reflexivity)) as [r Hr]. cbn in Hr. by rewrite lookup_empty in Hr. }
  { reflexivity. }
  exists m'. split; [exact E|].
  apply (vas_lifecycle_conserves 1 [] (boot_mmu 4096 65536) m').
  - exact Hb.
  - exact eq_refl.
  - exact (run_cons 1 [] (CreateTaskVas 1 20480) (boot_mmu 4096 65536) _ _ eq_refl eq_refl E (run_nil 1 [] m')).
Defined.

(** * What the code also does *)

(** [create_task_vas] reports success although the kernel could not be mapped
    because the pool ran out of pages. *)
Theorem kernel_map_failure_ignored :
  match create_task_vas (Some 1) 20480 (boot_mmu 4096 (3 * 4096)) with
  | Some (ok, m) => ok = true /\ pgdir_base 1 m <> 0 /\ translate (Some 1) KERNEL_RAM_BASE m = None /\ get_free_pages m = 0
  | None => False
  end.
Proof. vm_compute. repeat split; discriminate. Qed.

(** A root table allocated by [map], after the constructor found no page, never
    reaches [pgdir_base]: the task keeps running in another address space. *)
Definition late_root : option Mmu :=
  let (a, m) := mmu_alloc_page (boot_mmu 4096 4096) in
  '(_, m) ← create_task_vas (Some 1) 20480 m;
  let m := mmu_free_page a m in
  '(_, m) ← map_user_memory (Some 1) 0x400000 0x50000000 4096 3 m;
  Some m.

Theorem late_root_not_published :
  match late_root with
  | Some m => root_of (vasp 1 m) m <> nullptr /\ pgdir_base 1 m = 0 /\ ttbr0 (switch_vas (Some 1) m) = ttbr0 m
  | None => False
  end.
Proof. vm_compute. repeat split; discriminate. Qed.

(** [map] replaces a privileged mapping of the kernel by a user mapping, and does
    so without invalidating the old translation. *)
Theorem remap_replaces_kernel_page :
  let h := hw (boot_mmu 4096 65536) in
  let '(b1, r1, h1) := mmu_map KERNEL_RAM_BASE KERNEL_RAM_BASE RWX nullptr h in
  let '(b2, r2, h2) := mmu_map KERNEL_RAM_BASE 0x50000000 (Z.lor 3 MapUser) r1 h1 in
  b1 = true /\ b2 = true /\ mmu_translate KERNEL_RAM_BASE r1 h1 = Some (KERNEL_RAM_BASE, RWX) /\
  mmu_translate KERNEL_RAM_BASE r2 h2 = Some (0x50000000, 11) /\ tlbi h2 = [].
Proof. vm_compute. repeat split. Qed.

(** Bits 48 and above of a virtual address are ignored. *)
Theorem high_address_aliases va root h : leaf (va + 2 ^ 48) root h = leaf va root h.
Proof. apply leaf_page. unfold page_number. change (2 ^ 48) with (2 ^ 36 * 4096). rewrite Z.div_add by lia. rewrite <- (Z.mul_1_l (2 ^ 36)) at 1. apply Z.mod_add. lia. Qed.

(** A second [init] with a pool puts the kernel's live root table back on the
    free list. *)
Definition init_twice : option Mmu :=
  '(_, m) ← init 4096 (3 * 4096) 20480 (boot_mmu 4096 4096);
  '(_, m) ← init 4096 (3 * 4096) 24576 m;
  Some m.

Theorem init_twice_frees_live_root :
  match init_twice with
  | Some m => root_of (kernel_vas_ m) m <> nullptr /\ (mmu_alloc_page m).1 = root_of (kernel_vas_ m) m
  | None => False
  end.
Proof. vm_compute. split; [discriminate|reflexivity]. Qed.

(** For a size above [2^64 - 4096] the offset wraps to 0 and a loop that is not
    left early never ends. *)
Theorem unmap_range_never_ends {A} (body : Z -> A -> A) size s fuel :
  2 ^ 64 - 4096 < size < 2 ^ 64 -> for_pages fuel 0 size (fun off s => (true, body off s)) s = None.
Proof.
  intros Hs. assert (Hg : forall fuel i s, 0 <= i < 2 ^ 52 -> for_pages fuel (4096 * i) size (fun off s => (true, body off s)) s = None).
  { clear fuel s. induction fuel as [|fuel IH]; intros i s Hi; cbn [for_pages]; (destruct (Z.ltb_spec (4096 * i) size); [|lia]); [done|].
    unfold PAGE_SIZE. destruct (decide (i = 2 ^ 52 - 1)) as [->|Hne]; [apply (IH 0); lia|].
    rewrite wrap64_small by lia. replace (4096 * i + 4096) with (4096 * (i + 1)) by lia. apply IH. lia. }
  apply (Hg fuel 0 s). lia.
Qed.
