(* ===== verification/AuditClaims.v ===== *)
(** Theorems on the audit engine (kernel/core/audit.hpp): the rule filters, the
    ring as a bounded log, what a rule does to the kernel, and the text of
    /proc/audit_log. *)
From S2P Require Import Prelude Kernel ReadyQueue WaitQueue Endpoint TaskTable Scheduler System SchedClaims Text Glob AuditRing AuditInv AuditLog.
From Stdlib Require Import Sorted.
From stdpp Require Import strings.
#[local] Open Scope Z_scope.

(** * Filters *)

Lemma eqb_or a b : negb (negb a && negb b) = a || b.
Proof. by destruct a, b. Qed.

Lemma path_ok_spec rule entry :
  path_ok rule entry = true <->
  cstr (path_pattern rule) = [] \/ cstr (ent_path entry) = [] \/ glob (cstr (path_pattern rule)) (cstr (ent_path entry)).
Proof.
  assert (Hn : forall s, (char_at s 0 =? 0) = true <-> cstr s = []) by (intros [|c s]; [done|]; change (char_at (c :: s) 0) with c; cbn [cstr]; destruct (c =? 0); done).
  unfold path_ok. destruct (path_match_spec (ent_path entry) (path_pattern rule)) as (b & -> & Hb). rewrite <- Hb, <- !Hn.
  destruct (char_at (path_pattern rule) 0 =? 0), (char_at (ent_path entry) 0 =? 0); cbn; naive_solver.
Qed.

(** C37: The backtracking matcher always ends and decides the language of the pattern, in
    which a star stands for any bytes and a question mark for one.  A rule selects a record
    exactly when it is active, its event filter is the record's event or 255, its task
    filter is the record's task or 0, and its pattern is empty, the record has no path, or
    the path belongs to the language of the pattern. *)
Theorem rule_selects_exactly rule entry :
  (exists b, path_match_ (ent_path entry) (path_pattern rule) = Some b /\
    (b = true <-> glob (cstr (path_pattern rule)) (cstr (ent_path entry)))) /\
  (filters_pass rule entry = true <->
   active rule = true /\
   (event_filter rule = 255 \/ event_filter rule = ent_event entry) /\
   (tid_filter rule = 0 \/ tid_filter rule = ent_task_id entry) /\
   (cstr (path_pattern rule) = [] \/ cstr (ent_path entry) = [] \/ glob (cstr (path_pattern rule)) (cstr (ent_path entry)))).
Proof.
  split; [apply path_match_spec|].
  unfold filters_pass. rewrite !eqb_or, !andb_true_iff, !orb_true_iff, !Z.eqb_eq, path_ok_spec. tauto.
Qed.

(** * The engine and its log *)

(** What clients call: the rule table, records with and without a path, and the
    public evaluation of an entry. *)
Inductive AuditOp :=
  | OpAddRule (rule : AuditRule)
  | OpRemoveRule (index : Z)
  | OpClearRules
  | OpRecord (tick now : Z) (event : AuditEvent) (result a0 a1 : Z)
  | OpRecordPath (tick now : Z) (event : AuditEvent) (result a0 a1 : Z) (path : option (list Z))
  | OpEvaluate (now : Z) (entry : AuditEntry).

Definition run_op (st : AuditEngine * Kernel) (op : AuditOp) : AuditEngine * Kernel :=
  match op with
  | OpAddRule rule => ((add_rule rule st.1).2, st.2)
  | OpRemoveRule i => (remove_rule i st.1, st.2)
  | OpClearRules => (clear_rules st.1, st.2)
  | OpRecord tick now ev r a0 a1 => record tick now ev r a0 a1 st
  | OpRecordPath tick now ev r a0 a1 path => record_path tick now ev r a0 a1 path st
  | OpEvaluate now entry => evaluate_rules now entry st
  end.

(** The specification: an unbounded log, newest first, and the rule table. *)
Record LogState := mkLog { entries : list AuditEntry; rule_table : list AuditRule; log_kernel : Kernel }.

Definition new_entry (tick : Z) (ev : AuditEvent) (r a0 a1 : Z) (path : option (list Z)) (k : Kernel) : AuditEntry :=
  mkEntry tick (get_current_tid_ k) (event_code ev) r a0 a1
    (match path with Some p => take 15 (cstr p) ++ replicate (16 - length (take 15 (cstr p))) 0 | None => replicate 16 0 end).

Definition log_apply (stop : AuditEntry -> AuditRule -> AuditEntry -> bool) (now : Z) (entry : AuditEntry) (L : list AuditEntry) (s : LogState) : LogState :=
  let r := log_eval (stop entry) now entry (rule_table s) L in
  mkLog r.1 (rule_table s) (if r.2 then terminate_task (ent_task_id entry) (log_kernel s) else log_kernel s).

Definition log_op (s : LogState) (op : AuditOp) : LogState :=
  match op with
  | OpAddRule rule => mkLog (entries s) (add_rule_from (rule_table s) rule).2 (log_kernel s)
  | OpRemoveRule i =>
      mkLog (entries s) (if (0 <=? i) && (i <? kMaxRules) then zalter (set_active false) i (rule_table s) else rule_table s) (log_kernel s)
  | OpClearRules => mkLog (entries s) (set_active false <$> rule_table s) (log_kernel s)
  | OpRecord tick now ev r a0 a1 =>
      let x := new_entry tick ev r a0 a1 None (log_kernel s) in log_apply outside_window now x (x :: entries s) s
  | OpRecordPath tick now ev r a0 a1 path =>
      let x := new_entry tick ev r a0 a1 path (log_kernel s) in log_apply outside_window now x (x :: entries s) s
  | OpEvaluate now entry => log_apply before_window now entry (entries s) s
  end.

(** ** The path of a record *)

Lemma set_pad i l (x : Z) : (i < 16)%nat -> length l = i -> zalter (fun _ => x) (Z.of_nat i) (l ++ replicate (16 - i) 0) = l ++ x :: replicate (15 - i) 0.
Proof.
  intros Hi Hl. unfold zalter. destruct (Z.leb_spec 0 (Z.of_nat i)); [|lia]. rewrite Nat2Z.id, alter_app_r_alt by lia. rewrite Hl, Nat.sub_diag.
  by replace (16 - i)%nat with (S (15 - i)) by lia.
Qed.

Lemma fill_path_steps path fuel i :
  (i <= length (take 15 (cstr path)))%nat -> (length (take 15 (cstr path)) - i < fuel)%nat ->
  fill_path fuel path (Z.of_nat i) (take i (cstr path) ++ replicate (16 - i) 0) =
  take 15 (cstr path) ++ replicate (16 - length (take 15 (cstr path))) 0.
Proof.
  revert i. induction fuel as [|fuel IH]; intros i Hi Hf; [lia|]. rewrite length_take in Hi, Hf. cbn [fill_path].
  assert (Hlen : length (take i (cstr path)) = i) by (rewrite length_take; lia).
  pose proof (suffix_cons path (Z.of_nat i) ltac:(lia)) as Hc. unfold suffix_at in Hc. rewrite Nat2Z.id in Hc.
  destruct (decide (i = length (take 15 (cstr path)))) as [E|Hne]; [rewrite length_take in E|rewrite length_take in Hne]; rewrite ?length_take.
  - assert (Hguard : (Z.of_nat i <? 15) && negb (char_at path (Z.of_nat i) =? 0) = false).
    { destruct (Z.ltb_spec (Z.of_nat i) 15); [|done]. destruct (char_at path (Z.of_nat i) =? 0); [done|lia]. }
    rewrite Hguard, set_pad by lia. rewrite <- E. replace (16 - i)%nat with (S (15 - i)) by lia. cbn [replicate]. f_equal.
    destruct (decide (i = 15)%nat) as [->|]; [done|]. rewrite !take_ge by lia. done.
  - destruct (Z.ltb_spec (Z.of_nat i) 15); [|lia]. destruct (Z.eqb_spec (char_at path (Z.of_nat i)) 0) as [Ez|Hz]; [lia|]. cbn [andb negb].
    destruct Hc as [Hlt Hd]. rewrite set_pad by lia. replace (Z.of_nat i + 1) with (Z.of_nat (S i)) by lia.
    assert (El : cstr path !! i = Some (char_at path (Z.of_nat i))) by (rewrite <- (Nat.add_0_r i), <- lookup_drop, Nat.add_0_r, Hd; done).
    rewrite (cons_middle _ (take i (cstr path))), app_assoc, <- (take_S_r _ _ _ El). rewrite <- length_take. apply (IH (S i)); rewrite length_take; lia.
Qed.

Lemma fill_path_ok path :
  fill_path 16 path 0 (replicate 16 0) = take 15 (cstr path) ++ replicate (16 - length (take 15 (cstr path))) 0.
Proof. apply (fill_path_steps path 16 0); rewrite length_take; lia. Qed.

Lemma padded_cstr path : cstr (take 15 (cstr path) ++ replicate (16 - length (take 15 (cstr path))) 0) = take 15 (cstr path).
Proof.
  rewrite length_take. replace (16 - 15 `min` length (cstr path))%nat with (S (15 - 15 `min` length (cstr path))) by lia.
  apply cstr_app_nonzero, Forall_take, cstr_nonzeros.
Qed.

(** ** The refinement *)

(** The engine implements the log. *)
Definition implements (st : AuditEngine * Kernel) (s : LogState) : Prop :=
  ring_ok st.1 (entries s) /\ rules_ st.1 = rule_table s /\ st.2 = log_kernel s /\ length (rule_table s) = 16%nat /\ kernel_ok (log_kernel s).

Lemma add_rule_from_length rs rule : length (add_rule_from rs rule).2 = length rs.
Proof.
  induction rs as [|r rs IH]; cbn; [done|]. destruct (active r); cbn; [|done]. destruct (add_rule_from rs rule) as [ok rs']. cbn in *. by rewrite IH.
Qed.

Lemma ring_ok_rules rs e L : ring_ok e L -> ring_ok (set_rules rs e) L.
Proof. by intros [H1 H2 H3 H4]. Qed.

Lemma log_eval_length stop now entry rs L :
  (length (log_eval stop now entry rs L).1 <= length L + length rs)%nat.
Proof.
  unfold log_eval. generalize false. revert L. induction rs as [|r rs IH]; intros L b; cbn [foldl length]; [cbn; lia|].
  unfold log_step at 2. cbn [fst snd]. destruct (fires stop entry L r); [etrans; [apply IH|cbn; lia]|etrans; [apply IH|lia]].
Qed.

Lemma log_op_length s op : length (rule_table s) = 16%nat -> (length (entries (log_op s op)) <= length (entries s) + 17)%nat.
Proof.
  intros Hr. destruct op; cbn [log_op entries log_apply]; try lia; (etrans; [apply log_eval_length|rewrite Hr; cbn [length]; lia]).
Qed.

Lemma apply_implements now entry st s :
  implements st s -> Z.of_nat (length (entries s)) + 17 < 2147483648 ->
  implements (push_entry_ now entry st) (log_apply outside_window now entry (entry :: entries s) s) /\
  implements (evaluate_rules now entry st) (log_apply before_window now entry (entries s) s).
Proof.
  destruct st as [e k]. intros (Hr & Hrs & Hk & Hl & Hok) Hs. cbn [fst snd] in *. subst k. unfold implements, log_apply. cbn [entries rule_table log_kernel]. rewrite <- Hrs in *.
  assert (Hok' : forall b : bool, kernel_ok (if b then terminate_task (ent_task_id entry) (log_kernel s) else log_kernel s)) by (intros [|]; [by apply terminate_task_ok|done]).
  split.
  - destruct (push_entry_ok now entry e (log_kernel s) (entries s) Hr Hok ltac:(lia)) as (A1 & A2 & A3). by rewrite A2.
  - destruct (eval_ok (before_window entry) now entry (rules_ e) e (entries s) (log_kernel s) Hr Hok ltac:(lia)) as (A1 & A2 & A3).
    unfold evaluate_rules. cbn [fst]. by rewrite A2.
Qed.

Lemma run_op_implements st s op :
  implements st s -> Z.of_nat (length (entries s)) + 17 < 2147483648 -> implements (run_op st op) (log_op s op).
Proof.
  intros Hi Hs. pose proof Hi as (Hr & Hrs & Hk & Hl & Hok). destruct op as [rule|i| |tick now ev r a0 a1|tick now ev r a0 a1 path|now entry]; cbn [run_op log_op].
  - unfold add_rule. rewrite Hrs. destruct (add_rule_from (rule_table s) rule) as [ok rs] eqn:E. cbn [snd]. split; [by apply ring_ok_rules|].
    split; [done|]. split; [done|]. split; [|done]. cbn [rule_table]. rewrite <- Hl, <- (add_rule_from_length (rule_table s) rule). by rewrite E.
  - unfold remove_rule. rewrite Hrs. destruct (_ && _); [|by split]. split; [by apply ring_ok_rules|]. split; [done|]. split; [done|].
    split; [|done]. cbn [rule_table]. by rewrite length_zalter.
  - unfold clear_rules. rewrite Hrs. split; [by apply ring_ok_rules|]. split; [done|]. split; [done|]. split; [|done]. cbn [rule_table]. by rewrite length_fmap.
  - unfold record. rewrite Hk. by apply apply_implements.
  - unfold record_path. rewrite Hk. unfold new_entry. destruct path as [path|]; [rewrite fill_path_ok|]; by apply apply_implements.
  - by apply apply_implements.
Qed.

Lemma run_ops_implements ops st s :
  implements st s -> Z.of_nat (length (entries s)) + 17 * Z.of_nat (length ops) < 2147483648 ->
  implements (foldl run_op st ops) (foldl log_op s ops).
Proof.
  revert st s. induction ops as [|op ops IH]; intros st s Hi Hs; cbn [foldl length] in *; [done|]. pose proof Hi as (_ & _ & _ & Hl & _).
  pose proof (log_op_length s op Hl). apply IH; [apply run_op_implements; [done|lia]|lia].
Qed.

(** The recent records, by their distance from the newest. *)
Lemma recent_entry e L j :
  ring_ok e L -> (j < 128)%nat -> (j < length L)%nat ->
  get_entry ((get_total_records e - 1 - Z.of_nat j) mod kRingCapacity) e = L !! j.
Proof.
  intros [H1 H2 H3 H4] Hj Hl. rewrite (H4 j Hj Hl). unfold get_entry, get_total_records, kRingCapacity. rewrite H2, wrap32_small by (unfold is_u32; lia).
  pose proof (Z.mod_pos_bound (Z.of_nat (length L) - 1 - Z.of_nat j) 128 ltac:(lia)) as Hb.
  destruct (Z.ltb_spec ((Z.of_nat (length L) - 1 - Z.of_nat j) mod 128) 0); [lia|].
  destruct (Z.leb_spec 128 ((Z.of_nat (length L) - 1 - Z.of_nat j) mod 128)); [lia|]. done.
Qed.

(** C13: The audit engine implements an unbounded log: after any sequence of rule
    changes, records and evaluations from the fresh engine, as long as fewer than
    2^31 records can have been written (the counter is a signed 32-bit integer), the
    total and the entry count are those of the log, the ring holds its latest 128
    entries, the rule table is the log's, and the kernel is changed only by the
    terminations the log demands, keeping its invariants.  The log, like the code,
    writes an alert for every rule that fires, also for one of action 0, which the
    comment of [AuditRule] calls record only. *)
Theorem audit_log_refines ops k :
  kernel_ok k -> 17 * Z.of_nat (length ops) < 2147483648 ->
  let st := foldl run_op (engine_ctor, k) ops in
  let s := foldl log_op (mkLog [] (rules_ engine_ctor) k) ops in
  get_total_records st.1 = Z.of_nat (length (entries s)) /\
  get_entry_count st.1 = Z.min 128 (Z.of_nat (length (entries s))) /\
  (forall j, (j < 128)%nat -> (j < length (entries s))%nat ->
    get_entry ((get_total_records st.1 - 1 - Z.of_nat j) mod kRingCapacity) st.1 = entries s !! j) /\
  rules_ st.1 = rule_table s /\ st.2 = log_kernel s /\ kernel_ok st.2.
Proof.
  intros Hk Hs. cbv zeta. destruct (run_ops_implements ops (engine_ctor, k) (mkLog [] (rules_ engine_ctor) k)) as (Hr & Hrs & Hkk & _ & Hok).
  - split; [apply engine_ctor_ok|]. by split.
  - cbn [entries length]. lia.
  - set (st := foldl run_op _ ops) in *. set (s := foldl log_op _ ops) in *. clearbody st s. pose proof Hr as [H1 H2 H3 _].
    split; [unfold get_total_records; rewrite H2, wrap32_small; [done|unfold is_u32; lia]|].
    split; [unfold get_entry_count, kRingCapacity; rewrite H2; destruct (Z.ltb_spec 128 (Z.of_nat (length (entries s)))); lia|].
    split; [intros j Hj Hl; by apply recent_entry|]. split; [done|]. split; [done|]. by rewrite Hkk.
Qed.

(** A rule against writes below /sys, which terminates, and three records. *)
Definition sys_rule : AuditRule := mkRule 3 (cstr (str "/sys/*") ++ replicate 26 0) 0 0 0 2 false.

Definition demo_ops : list AuditOp :=
  [OpAddRule sys_rule; OpRecord 10 10 FileRead 0 3 64; OpRecordPath 11 11 FileWrite 0 3 8 (Some (str "/tmp/a"));
   OpRecordPath 12 12 FileWrite 0 4 8 (Some (str "/sys/power"))].

Lemma audit_log_refines_witness :
  let st := foldl run_op (engine_ctor, demo_running) demo_ops in
  get_total_records st.1 = 4 /\ kernel_ok st.2 /\ sched_state (scheduler (tcb st.2 2)) = Terminated.
Proof.
  cbv zeta. assert (Ht : sched_state (scheduler (tcb (foldl run_op (engine_ctor, demo_running) demo_ops).2 2)) = Terminated) by (vm_compute; reflexivity).
  assert (Hn : length (entries (foldl log_op (mkLog [] (rules_ engine_ctor) demo_running) demo_ops)) = 4%nat) by (vm_compute; reflexivity).
  destruct (audit_log_refines demo_ops demo_running demo_running_ok ltac:(cbn; lia)) as (H1 & _ & _ & _ & _ & H6).
  rewrite Hn in H1. split; [exact H1|]. split; [exact H6|exact Ht].
Defined.

(** * Thresholds *)

(** The records of the window: not older than [threshold_ms]. *)
Definition in_window (rule : AuditRule) (entry h : AuditEntry) : bool := timestamp entry - timestamp h <=? threshold_ms rule.

Lemma log_count_sorted rule entry L :
  is_u32 (timestamp entry) -> Forall (fun h => is_u32 (timestamp h) /\ timestamp h <= timestamp entry) L ->
  StronglySorted (fun a b => timestamp b <= timestamp a) L ->
  log_count (outside_window entry rule) rule L = Z.of_nat (length (List.filter (fun h => in_window rule entry h && counts_as rule h) L)).
Proof.
  intros He Hf Hs. induction Hs as [|h L Hs IH Hh]; cbn [log_count List.filter]; [done|]. inversion Hf as [|? ? [Hu Hle] Hf' E1]; subst.
  unfold outside_window, in_window in *. unfold is_u32 in *. rewrite wrap32_small by (unfold is_u32; lia).
  destruct (Z.ltb_spec (threshold_ms rule) (timestamp entry - timestamp h)) as [Hout|Hin].
  - destruct (Z.leb_spec (timestamp entry - timestamp h) (threshold_ms rule)); [lia|]. cbn [andb].
    assert (En : List.filter (fun h0 => (timestamp entry - timestamp h0 <=? threshold_ms rule) && counts_as rule h0) L = []).
    { clear - Hout Hh. induction Hh as [|x L Hx _ IH']; cbn; [done|]. destruct (Z.leb_spec (timestamp entry - timestamp x) (threshold_ms rule)); [lia|done]. }
    by rewrite En.
  - destruct (Z.leb_spec (timestamp entry - timestamp h) (threshold_ms rule)); [|lia]. cbn [andb]. rewrite IH by done.
    destruct (counts_as rule h); cbn [length]; lia.
Qed.

(** While the tick counter has not wrapped, so that the log is in order of
    time, a rule with a threshold fires on a record it selects exactly when, among
    the latest 128 records (the new one included), at least that many match its
    event and task filters and are not older than its window; otherwise the engine
    and the kernel stay as they are. *)
Theorem threshold_counts_window now entry rule e k L :
  ring_ok e L -> filters_pass rule entry = true -> 0 < threshold_count rule -> is_u32 (timestamp entry) ->
  Forall (fun h => is_u32 (timestamp h) /\ timestamp h <= timestamp entry) L ->
  StronglySorted (fun a b => timestamp b <= timestamp a) L ->
  rule_step (outside_window entry) now entry (e, k) rule =
    if threshold_count rule <=? Z.of_nat (length (List.filter (fun h => in_window rule entry h && counts_as rule h) (take 128 L)))
    then execute_rule_action_ now rule entry (e, k) else (e, k).
Proof.
  intros Hr Hp Ht He Hf Hs. unfold rule_step. cbn [fst]. rewrite Hp, (count_matches_ok _ _ _ _ Hr), log_count_sorted; [|done|by apply Forall_take|].
  - cbn [negb]. destruct (Z.ltb_spec 0 (threshold_count rule)); [|lia]. cbn [andb].
    destruct (Z.ltb_spec (Z.of_nat (length (List.filter (fun h => in_window rule entry h && counts_as rule h) (take 128 L)))) (threshold_count rule)),
      (Z.leb_spec (threshold_count rule) (Z.of_nat (length (List.filter (fun h => in_window rule entry h && counts_as rule h) (take 128 L))))); (lia || done).
  - clear - Hs. revert L Hs. generalize 128%nat. induction n as [|n IH]; intros [|h L] Hs; cbn; try constructor; inversion Hs; subst; [by apply IH|by apply Forall_take].
Qed.

(** A log with three opens. *)
Definition open_at (t : Z) : AuditEntry := mkEntry t 2 0 0 3 0 (replicate 16 0).
(** * What a record does to the system *)

Lemma log_eval_alerts stop now entry rs L :
  exists n, (n <= length (List.filter (fun r => filters_pass r entry) rs))%nat /\
    (log_eval stop now entry rs L).1 = replicate n (alert_entry now entry) ++ L.
Proof.
  unfold log_eval. generalize false. revert L. induction rs as [|r rs IH]; intros L b; cbn [foldl List.filter]; [by exists 0%nat|].
  unfold log_step at 2. cbn [fst snd]. unfold fires. destruct (filters_pass r entry); cbn [andb]; [|apply IH]. destruct (_ || _).
  - destruct (IH (alert_entry now entry :: L) (b || (2 <=? action r))) as (n & Hn & ->). exists (S n). cbn [length].
    split; [lia|]. rewrite cons_middle, app_assoc, <- replicate_cons_app. done.
  - destruct (IH L b) as (n & Hn & ->). exists n. cbn [length]. split; [lia|done].
Qed.

Lemma log_eval_demand stop now entry rs L (b : bool) :
  (foldl (log_step stop now entry) (L, b) rs).2 = true ->
  b = true \/ exists r, In r rs /\ filters_pass r entry = true /\ 2 <= action r.
Proof.
  revert L b. induction rs as [|r rs IH]; intros L b; cbn [foldl]; [by left|]. unfold log_step at 2. cbn [fst snd].
  destruct (fires stop entry L r) eqn:Ef; intros [H|(r' & Hin & Hr')]%IH; [|right; exists r'; split; [by right|done]|by left|right; exists r'; split; [by right|done]].
  apply orb_true_iff in H as [H|H%Z.leb_le]; [by left|]. right. exists r. unfold fires in Ef. apply andb_true_iff in Ef as [Ef _]. split; [by left|]. by split.
Qed.

Lemma log_eval_keeps stop now entry rs L : (foldl (log_step stop now entry) (L, true) rs).2 = true.
Proof.
  revert L. induction rs as [|r rs IH]; intros L; cbn [foldl]; [done|]. unfold log_step at 2. cbn [fst snd orb]. destruct (fires _ _ _ _); apply IH.
Qed.

Lemma log_eval_immediate stop now entry rs L (b : bool) r :
  In r rs -> filters_pass r entry = true -> threshold_count r <= 0 -> 2 <= action r ->
  (foldl (log_step stop now entry) (L, b) rs).2 = true.
Proof.
  intros Hin Hp Ht Ha. revert L b Hin. induction rs as [|r' rs IH]; intros L b Hin; [done|]. cbn [foldl]. destruct Hin as [->|Hin].
  - unfold log_step at 2, fires. cbn [fst snd]. rewrite Hp. destruct (Z.leb_spec (threshold_count r) 0); [|lia]. cbn [andb orb].
    destruct (Z.leb_spec 2 (action r)); [|lia]. rewrite orb_true_r. apply log_eval_keeps.
  - destruct (log_step stop now entry (L, b) r') as [L' b']. by apply IH.
Qed.

(** C14: Recording an entry appends it to the log, followed by at most one alert per
    rule that selects it, and nothing else; no task but the recorded one changes
    its state, that one only to Terminated and only when a selecting rule demands
    it (action 2 or more), and certainly when such a rule has no threshold; the
    scheduler and IPC invariants survive. *)
Theorem audit_punishes_only_offender now entry e k L :
  ring_ok e L -> kernel_ok k -> is_task k (ent_task_id entry) -> Z.of_nat (length L) + 1 + Z.of_nat (length (rules_ e)) < 2147483648 ->
  let (e', k') := push_entry_ now entry (e, k) in
  (exists n, (n <= length (List.filter (fun r => filters_pass r entry) (rules_ e)))%nat /\
    ring_ok e' (replicate n (alert_entry now entry) ++ entry :: L)) /\
  rules_ e' = rules_ e /\ kernel_ok k' /\
  (forall i, i <> ent_task_id entry -> sched_state (scheduler (tcb k' i)) = sched_state (scheduler (tcb k i))) /\
  (sched_state (scheduler (tcb k' (ent_task_id entry))) = sched_state (scheduler (tcb k (ent_task_id entry))) \/
   sched_state (scheduler (tcb k' (ent_task_id entry))) = Terminated /\
   exists r, In r (rules_ e) /\ filters_pass r entry = true /\ 2 <= action r) /\
  (forall r, In r (rules_ e) -> filters_pass r entry = true -> threshold_count r <= 0 -> 2 <= action r ->
   sched_state (scheduler (tcb k' (ent_task_id entry))) = Terminated).
Proof.
  intros Hr Hk Ht Hs. destruct (push_entry_ok now entry e k L Hr Hk Hs) as (A1 & A2 & A3). destruct (push_entry_ now entry (e, k)) as [e' k'].
  cbn [fst snd] in *. destruct (log_eval_alerts (outside_window entry) now entry (rules_ e) (entry :: L)) as (n & Hn & El). rewrite El in A1.
  split; [by exists n|]. split; [done|]. pose proof (log_eval_demand (outside_window entry) now entry (rules_ e) (entry :: L) false) as Hd.
  pose proof (fun r => log_eval_immediate (outside_window entry) now entry (rules_ e) (entry :: L) false r) as Hi.
  unfold log_eval in A3. set (b := snd (foldl _ _ _)) in *. clearbody b. subst k'.
  split; [destruct b; [by apply terminate_task_ok|done]|]. split; [|split].
  - intros i Hne. destruct b; [|done]. rewrite terminate_task_state by done. by rewrite decide_False.
  - destruct b; [|by left]. right. rewrite terminate_task_state by done. rewrite decide_True by done. split; [done|]. by destruct (Hd eq_refl) as [|].
  - intros r Hin Hp Hth Ha. rewrite (Hi r Hin Hp Hth Ha). rewrite terminate_task_state by done. by rewrite decide_True.
Qed.

(** The client (2) writes /sys/power. *)
Definition sys_write : AuditEntry := mkEntry 12 2 3 0 4 8 (str "/sys/power" ++ replicate 6 0).
Definition sys_engine : AuditEngine := (add_rule sys_rule engine_ctor).2.

Lemma audit_punishes_only_offender_witness :
  sched_state (scheduler (tcb (push_entry_ 12 sys_write (sys_engine, demo_running)).2 2)) = Terminated.
Proof.
  pose proof (audit_punishes_only_offender 12 sys_write sys_engine demo_running []) as H.
  destruct (push_entry_ 12 sys_write (sys_engine, demo_running)) as [e' k']. destruct H as (_ & _ & _ & _ & _ & H).
  - apply (ring_ok_rules (rules_ sys_engine) engine_ctor), engine_ctor_ok.
  - exact demo_running_ok.
  - split; [cbn; lia|vm_compute; reflexivity].
  - cbn. lia.
  - apply (H (set_active true sys_rule)); [left; reflexivity|vm_compute; reflexivity|cbn; lia|cbn; lia].
Defined.

(** * Types *)

(** The arguments that C passes fit their types. *)
Definition op_typed (op : AuditOp) : Prop :=
  match op with
  | OpAddRule _ | OpRemoveRule _ | OpClearRules => True
  | OpRecord tick now _ r a0 a1 | OpRecordPath tick now _ r a0 a1 _ =>
      is_u32 tick /\ is_u32 now /\ 0 <= r < 256 /\ 0 <= a0 < 65536 /\ is_u32 a1
  | OpEvaluate now entry => is_u32 now /\ entry_typed entry
  end.

Definition engine_typed (e : AuditEngine) : Prop := length (ring_buffer_ e) = 128%nat /\ Forall entry_typed (ring_buffer_ e).

Lemma event_code_range ev : 0 <= event_code ev < 256.
Proof. destruct ev; cbn; lia. Qed.

Lemma current_tid_range k : 0 <= get_current_tid_ k < 65536.
Proof. unfold get_current_tid_, wrap16. destruct (g_current_tcb_ptr k); [apply Z.mod_pos_bound; lia|lia]. Qed.

Lemma no_path_typed : length (replicate 16 0) = 16%nat /\ (length (cstr (replicate 16 0%Z)) <= 15)%nat.
Proof. split; [done|cbn; lia]. Qed.

Lemma alert_typed now entry : is_u32 now -> entry_typed entry -> entry_typed (alert_entry now entry).
Proof.
  intros Hn [H1 H2 H3 H4 H5 H6 H7]. unfold is_u32 in *. split; cbn [timestamp ent_task_id ent_event ent_result arg0 arg1 ent_path alert_entry]; unfold is_u32; try lia;
    [cbn; lia|apply no_path_typed].
Qed.

Lemma new_entry_typed tick ev r a0 a1 path k :
  is_u32 tick -> 0 <= r < 256 -> 0 <= a0 < 65536 -> is_u32 a1 -> entry_typed (new_entry tick ev r a0 a1 path k).
Proof.
  intros H1 H2 H3 H4. split; cbn [timestamp ent_task_id ent_event ent_result arg0 arg1 ent_path new_entry]; try done;
    [apply current_tid_range|apply event_code_range|]. destruct path as [p|]; [|apply no_path_typed].
  rewrite padded_cstr, length_app, length_replicate, length_take. split; lia.
Qed.

Lemma write_slot_typed x e : entry_typed x -> engine_typed e -> engine_typed (write_slot x e).
Proof.
  intros Hx [Hl Hf]. split; cbn [ring_buffer_ write_slot set_write_count set_ring]; [by rewrite length_zalter|].
  unfold zalter. destruct (0 <=? _); [|done]. apply Forall_alter; [done|]. intros. done.
Qed.

Lemma eval_typed stop now entry rs st :
  is_u32 now -> entry_typed entry -> engine_typed st.1 -> engine_typed (foldl (rule_step stop now entry) st rs).1.
Proof.
  intros Hn He. revert st. induction rs as [|r rs IH]; intros [e k] Ht; cbn [foldl]; [done|]. apply IH. unfold rule_step.
  destruct (negb _); [done|]. destruct (_ && _); [done|]. cbn [execute_rule_action_ fst]. by apply write_slot_typed; [apply alert_typed|].
Qed.

Lemma run_op_typed st op : op_typed op -> engine_typed st.1 -> engine_typed (run_op st op).1.
Proof.
  assert (Hpush : forall now x st, is_u32 now -> entry_typed x -> engine_typed st.1 -> engine_typed (push_entry_ now x st).1).
  { intros now x [e k] Hn Hx Ht. unfold push_entry_, evaluate_rules_. apply eval_typed; [done|done|]. by apply write_slot_typed. }
  destruct op as [rule|i| |tick now ev r a0 a1|tick now ev r a0 a1 path|now entry]; cbn [op_typed run_op fst]; intros Ho Ht.
  - unfold add_rule. by destruct (add_rule_from _ _).
  - unfold remove_rule. by destruct (_ && _).
  - done.
  - destruct Ho as (H1 & H2 & H3 & H4 & H5). apply Hpush; [done| |done]. by apply (new_entry_typed tick ev r a0 a1 None).
  - destruct Ho as (H1 & H2 & H3 & H4 & H5). unfold record_path. pose proof (new_entry_typed tick ev r a0 a1 path st.2 H1 H3 H4 H5) as Hx.
    unfold new_entry in Hx. apply Hpush; [done| |done]. destruct path as [p|]; [by rewrite fill_path_ok|done].
  - destruct Ho as [H1 H2]. by apply eval_typed.
Qed.

Lemma engine_ctor_typed : engine_typed engine_ctor.
Proof.
  split; [done|]. apply Forall_replicate. split; cbn; unfold is_u32; (lia || apply no_path_typed).
Qed.

(** Every record in the ring fits its C types, as long as fewer than 2^31 can have been
    written: time and
    second argument in 32 bits, task and first argument in 16, event and result in
    8, and a path of 16 bytes that is terminated within the array. *)
Theorem audit_entries_typed ops k :
  17 * Z.of_nat (length ops) < 2147483648 -> Forall op_typed ops ->
  let e := (foldl run_op (engine_ctor, k) ops).1 in
  forall i, 0 <= i < kRingCapacity -> exists x, get_entry i e = Some x /\ entry_typed x.
Proof.
  intros _ Ho. assert (H : forall st, engine_typed st.1 -> engine_typed (foldl run_op st ops).1).
  { induction Ho as [|op ops Hop _ IH]; intros st Ht; cbn [foldl]; [done|]. by apply IH, run_op_typed. }
  destruct (H (engine_ctor, k) engine_ctor_typed) as [Hl Hf]. cbv zeta. intros i Hi. unfold kRingCapacity in *. eexists. unfold get_entry, kRingCapacity.
  destruct (Z.ltb_spec i 0); [lia|]. destruct (Z.leb_spec 128 i); [lia|]. split; [done|]. rewrite Forall_forall in Hf. apply Hf.
  unfold zlookup. destruct (Z.leb_spec 0 i); [|lia]. apply list_elem_of_lookup_total_2. lia.
Qed.

(** * The text of /proc/audit_log *)

Lemma engine_typed_lookup e i : engine_typed e -> entry_typed (zlookup (ring_buffer_ e) i).
Proof.
  intros [Hl Hf]. rewrite Forall_forall in Hf. assert (Hd : entry_typed inhabitant) by (split; cbn; unfold is_u32; (lia || apply no_path_typed)).
  unfold zlookup. destruct (0 <=? i); [|done]. destruct (decide (Z.to_nat i < length (ring_buffer_ e))%nat) as [Hlt|Hge].
  - by apply Hf, list_elem_of_lookup_total_2.
  - by rewrite list_lookup_total_alt, lookup_ge_None_2 by lia.
Qed.

Lemma slots_newest_first e L offset :
  ring_ok e L -> (length L <= 128)%nat -> (offset < length L)%nat ->
  slots_from (Z.of_nat (length L) - 1 - Z.of_nat offset) (ring_buffer_ e) = drop offset L.
Proof.
  intros [H1 H2 H3 H4] Hl Ho. apply list_eq. intros j. unfold slots_from. rewrite lookup_drop, list_lookup_fmap.
  destruct (decide (offset + j < length L)%nat) as [Hj|Hj].
  - rewrite lookup_seqZ_lt by lia. cbn [fmap option_fmap option_map]. rewrite H4 by lia. do 2 f_equal. unfold kRingCapacity.
    rewrite Z.rem_small, Z.mod_small by lia. lia.
  - rewrite (lookup_ge_None_2 L) by lia. rewrite lookup_seqZ_ge by lia. done.
Qed.

(** A read of /proc/audit_log with a buffer of [len] bytes returns complete lines
    only, ends at least 20 bytes before the end of the buffer, and stops before the
    last record only when fewer than 80 bytes are left; until the ring wraps, the
    lines are those of the records from [offset] on, newest first. *)
Theorem audit_log_read_bounded len offset e L :
  ring_ok e L -> engine_typed e -> initialized_ e = true ->
  let out := read_log len (Z.of_nat offset) e in
  let avail := Z.min 128 (Z.of_nat (length L)) in
  let shown := slots_from (avail - 1 - Z.of_nat offset) (ring_buffer_ e) in
  exists n, out = concat (line <$> take n shown) /\
    Z.of_nat (length out) <= Z.max 0 (len - 20) /\
    ((n < length shown)%nat -> len - 80 <= Z.of_nat (length out)) /\
    ((length L <= 128)%nat -> shown = drop offset L).
Proof.
  intros Hr Ht Hin. cbv zeta. unfold read_log, kRingCapacity. pose proof Hr as [H1 H2 H3 H4]. rewrite Hin, H2. cbn [negb].
  set (avail := Z.min 128 (Z.of_nat (length L))).
  replace (if 128 <? Z.of_nat (length L) then 128 else Z.of_nat (length L)) with avail by (unfold avail; destruct (Z.ltb_spec 128 (Z.of_nat (length L))); lia).
  assert (Hshown : (length L <= 128)%nat -> slots_from (avail - 1 - Z.of_nat offset) (ring_buffer_ e) = drop offset L).
  { intros Hle. unfold avail. rewrite Z.min_r by lia. destruct (decide (offset < length L)%nat) as [Hlt|Hge]; [by apply slots_newest_first|].
    rewrite drop_ge by lia. unfold slots_from. rewrite seqZ_nil by lia. done. }
  destruct (Z.leb_spec avail (Z.of_nat offset)).
  - exists 0%nat. rewrite take_0. cbn [concat fmap list_fmap length]. split; [done|]. split; [lia|]. split; [|done].
    unfold slots_from. rewrite seqZ_nil by lia. cbn. lia.
  - destruct (read_loop_spec len (ring_buffer_ e) (avail - 1 - Z.of_nat offset) [] (fun i => engine_typed_lookup e i Ht) ltac:(lia)) as (n & E & B1 & B2).
    exists n. split; [exact E|]. split; [cbn [length] in B1; lia|]. by split.
Qed.

(** ** What the code also does *)

(** Once the ring has wrapped the text is no longer newest first: after 129 records
    it begins with the last but one, and the newest record (in slot 0) is the very
    last line. *)
Definition wrapped_engine : AuditEngine := foldl (fun e t => write_slot (open_at t) e) (audit_init engine_ctor) (seqZ 0 129).

Theorem wrapped_log_not_newest_first :
  get_total_records wrapped_engine = 129 /\
  take (length (line (open_at 127))) (read_log 8192 0 wrapped_engine) = line (open_at 127) /\
  get_entry 0 wrapped_engine = Some (open_at 128) /\ last (slots_from 127 (ring_buffer_ wrapped_engine)) = Some (open_at 128).
Proof. repeat split; by vm_compute. Qed.

(** The window of the public [evaluate_rules] starts at a wrapped time during the
    first [threshold_ms] ticks: then no record counts, and no rule with a threshold
    can fire. *)
Theorem early_window_counts_nothing rule entry h :
  0 <= timestamp entry < threshold_ms rule -> threshold_ms rule < 4294967 -> 0 <= timestamp h <= timestamp entry ->
  before_window entry rule h = true /\ outside_window entry rule h = false.
Proof.
  intros H1 H2 H3. unfold before_window, outside_window. rewrite (wrap32_small (threshold_ms rule * 1000)) by (unfold is_u32; lia).
  rewrite Z.div_mul by lia. rewrite (wrap32_small (timestamp entry - timestamp h)) by (unfold is_u32; lia). split; [|apply Z.ltb_ge; lia].
  apply Z.ltb_lt. unfold wrap32. replace (timestamp entry - threshold_ms rule) with (timestamp entry - threshold_ms rule + 4294967296 + (-1) * 4294967296) by lia.
  rewrite Z.mod_add, Z.mod_small by lia. lia.
Qed.

(** ** The rule table *)

Lemma add_rule_from_spec rs rule :
  (add_rule_from rs rule).1 = existsb (fun r => negb (active r)) rs /\
  length (List.filter active (add_rule_from rs rule).2) =
    ((if (add_rule_from rs rule).1 then 1 else 0) + length (List.filter active rs))%nat.
Proof.
  induction rs as [|r rs [IH1 IH2]]; cbn; [done|]. destruct (active r) eqn:Ea; cbn [negb orb]; [|done].
  destruct (add_rule_from rs rule) as [ok rs']. cbn in *. rewrite Ea. subst ok. split; [done|]. cbn. rewrite IH2. lia.
Qed.

(** Adding a rule succeeds exactly when a slot is inactive, and then one rule more is
    active; clearing leaves none. *)
Theorem rule_table_counts rule e :
  ((add_rule rule e).1 = true <-> exists r, In r (rules_ e) /\ active r = false) /\
  get_active_rule_count (add_rule rule e).2 = get_active_rule_count e + (if (add_rule rule e).1 then 1 else 0) /\
  get_active_rule_count (clear_rules e) = 0.
Proof.
  unfold add_rule, get_active_rule_count. destruct (add_rule_from_spec (rules_ e) rule) as [H1 H2]. destruct (add_rule_from (rules_ e) rule) as [ok rs]. cbn [fst snd rules_ set_rules] in *.
  split; [|split].
  - rewrite H1, existsb_exists. split; intros (r & Hr & Ha); exists r; (split; [done|]); by destruct (active r).
  - rewrite H2. destruct ok; lia.
  - unfold clear_rules. cbn [rules_ set_rules]. assert (En : List.filter active (set_active false <$> rules_ e) = []); [|by rewrite En].
    clear H1 H2. induction (rules_ e) as [|r l IH]; [done|]. exact IH.
Qed.
