(* ===== verification/SecMonClaims.v ===== *)
(** Theorems on the security monitor (kernel/core/security_monitor.hpp). *)
From S2P Require Import Prelude Kernel ReadyQueue WaitQueue Endpoint TaskTable IpcSpec Scheduler System Mutex Heap SchedClaims Text SecMon.
From stdpp Require Import strings.
#[local] Open Scope Z_scope.

(** * Changes of scheduling states *)

Definition sstate (k : Kernel) (i : Z) : TaskState := sched_state (scheduler (tcb k i)).

(** [k'] is [k] with the states of the tasks given by [f], the invariants intact. *)
Record restated (f : Z -> TaskState) (k k' : Kernel) : Prop := {
  rs_ok : kernel_ok k';
  rs_count : task_count k' = task_count k;
  rs_prio : forall i, current_priority (scheduler (tcb k' i)) = current_priority (scheduler (tcb k i));
  rs_state : forall i, is_task k i -> sstate k' i = f i;
}.

Lemma restated_refl k : kernel_ok k -> restated (sstate k) k k.
Proof. by split. Qed.

Lemma restated_ext f g k k' : (forall i, is_task k i -> f i = g i) -> restated f k k' -> restated g k k'.
Proof. intros E [H1 H2 H3 H4]. split; [done|done|done|]. intros i Hi. by rewrite <- E, H4. Qed.

Lemma restated_trans f g k k1 k2 : restated f k k1 -> restated g k1 k2 -> restated g k k2.
Proof.
  intros [A1 A2 A3 A4] [B1 B2 B3 B4]. split; [done|congruence|intros i; by rewrite B3, A3|]. intros i [Hi1 Hi2]. apply B4. split; [done|]. by rewrite A2.
Qed.

Lemma set_state_restated id s k :
  kernel_ok k -> 0 <= id -> restated (fun i => if decide (i = id) then s else sstate k i) k (set_task_state id s k).
Proof.
  intros Hk H0. pose proof (kernel_ok_sched _ Hk) as Hs. split; [by apply kernel_ok_set_state|apply count_set_task_state|intros i; apply prio_set_task_state|].
  intros i Hi. destruct (decide (is_task k id)) as [Ht|Hn]; [by apply set_task_state_state|]. rewrite decide_False.
  - unfold set_task_state. destruct (Z.leb_spec (task_count k) id); [|destruct Hn; by split]. by rewrite orb_true_r.
  - intros ->. done.
Qed.

(** * Heartbeats *)

Definition hb_typed (e : HeartbeatEntry) : Prop := 0 <= hb_task_id e.

(** Some overdue entry names task [i]. *)
Definition condemned (now : Z) (es : list HeartbeatEntry) (i : Z) : bool := existsb (fun e => overdue now e && (hb_task_id e =? i)) es.

Lemma audit_from_spec now es k ok :
  kernel_ok k -> Forall hb_typed es ->
  let '(es', k', ok') := audit_from now es k ok in
  es' = (fun e => if overdue now e then set_hb_active false e else e) <$> es /\
  ok' = ok && forallb (fun e => negb (overdue now e)) es /\
  restated (fun i => if condemned now es i then Terminated else sstate k i) k k'.
Proof.
  intros Hk Hty. revert k ok Hk. induction Hty as [|e es He _ IH]; intros k ok Hk; cbn [audit_from].
  - split; [done|]. split; [by rewrite andb_true_r|]. by apply restated_refl.
  - destruct (overdue now e) eqn:Eo.
    + pose proof (set_state_restated (hb_task_id e) Terminated k Hk He) as Hr. specialize (IH (set_task_state (hb_task_id e) Terminated k) false (rs_ok _ _ _ Hr)).
      destruct (audit_from now es _ false) as [[es' k'] ok']. destruct IH as (-> & -> & IH). split; [cbn [fmap list_fmap]; by rewrite Eo|].
      split; [cbn [forallb]; by rewrite Eo, andb_false_r|]. eapply restated_ext; [|exact (restated_trans _ _ _ _ _ Hr IH)].
      intros i Hi. unfold condemned. cbn [existsb]. rewrite Eo. destruct (existsb _ es); [by rewrite orb_true_r|]. rewrite (rs_state _ _ _ Hr i Hi).
      cbn [andb orb]. destruct (Z.eqb_spec (hb_task_id e) i) as [->|Hne]; [by rewrite decide_True|by rewrite decide_False].
    + specialize (IH k ok Hk). destruct (audit_from now es k ok) as [[es' k'] ok']. destruct IH as (-> & -> & IH). split; [cbn [fmap list_fmap]; by rewrite Eo|].
      split; [cbn [forallb]; by rewrite Eo|]. eapply restated_ext; [|exact IH]. intros i Hi. unfold condemned. cbn [existsb]. by rewrite Eo.
Qed.

(** * Throttling *)

Definition throttled (m : SecurityMonitor) : list Z := take (Z.to_nat (throttled_count_ m)) (throttled_ids_ m).

Record monitor_ok (m : SecurityMonitor) : Prop := {
  mo_table : length (heartbeat_table_ m) = 8%nat /\ Forall hb_typed (heartbeat_table_ m);
  mo_ids : length (throttled_ids_ m) = 8%nat;
  mo_count : 0 <= throttled_count_ m <= 8;
  mo_nodup : NoDup (throttled m);
  mo_pos : Forall (fun i => 0 <= i) (throttled m);
}.

Lemma throttled_seq m : monitor_ok m -> (fun j => zlookup (throttled_ids_ m) j) <$> seqZ 0 (throttled_count_ m) = throttled m.
Proof.
  intros [_ Hl Hc _ _]. apply list_eq. intros j. unfold throttled. rewrite list_lookup_fmap. destruct (decide (Z.of_nat j < throttled_count_ m)) as [Hj|Hj].
  - rewrite lookup_seqZ_lt, lookup_take_lt by lia. cbn [fmap option_fmap option_map]. unfold zlookup. destruct (Z.leb_spec 0 (0 + Z.of_nat j)); [|lia].
    rewrite Z.add_0_l, Nat2Z.id, list_lookup_lookup_total_lt by lia. done.
  - rewrite lookup_seqZ_ge, lookup_take_ge by lia. done.
Qed.

Lemma is_throttled_spec m i : monitor_ok m -> is_throttled m i = true <-> i ∈ throttled m.
Proof.
  intros Hm. rewrite <- (throttled_seq m Hm). unfold is_throttled. rewrite existsb_exists, list_elem_of_fmap. split.
  - intros (j & Hj & E%Z.eqb_eq). exists j. split; [done|]. by apply list_elem_of_In.
  - intros (j & -> & Hj). exists j. split; [by apply list_elem_of_In|]. apply Z.eqb_refl.
Qed.

(** Recording one more task. *)
Definition throttle_add (i : Z) (m : SecurityMonitor) : SecurityMonitor :=
  set_throttled (zalter (fun _ => i) (throttled_count_ m) (throttled_ids_ m)) (throttled_count_ m + 1) m.

Lemma throttled_add i m : monitor_ok m -> throttled_count_ m < 8 -> throttled (throttle_add i m) = throttled m ++ [i].
Proof.
  intros [_ Hl Hc _ _] Hlt. unfold throttled, throttle_add. cbn [throttled_ids_ throttled_count_ set_throttled]. unfold zalter.
  destruct (Z.leb_spec 0 (throttled_count_ m)); [|lia]. replace (Z.to_nat (throttled_count_ m + 1)) with (S (Z.to_nat (throttled_count_ m))) by lia.
  erewrite take_S_r; [f_equal; rewrite take_alter, decide_False by lia; done|].
  rewrite list_lookup_alter, decide_True by done. rewrite (list_lookup_lookup_total_lt (throttled_ids_ m)) by lia. done.
Qed.

Lemma throttle_add_ok i m : monitor_ok m -> throttled_count_ m < 8 -> 0 <= i -> i ∉ throttled m -> monitor_ok (throttle_add i m).
Proof.
  intros Hm Hlt H0 Hn. pose proof (throttled_add i m Hm Hlt) as E. destruct Hm as [Ht Hl Hc Hnd Hp]. split; [done|..].
  - cbn [throttle_add throttled_ids_ set_throttled]. by rewrite length_zalter.
  - cbn [throttle_add throttled_count_ set_throttled]. lia.
  - rewrite E. apply NoDup_app. split; [done|]. split; [|apply NoDup_singleton]. intros x Hx ->%list_elem_of_singleton. done.
  - rewrite E. apply Forall_app. split; [done|]. by repeat constructor.
Qed.

(** What the monitor may suspend. *)
Definition candidate (k : Kernel) (i : Z) : Prop :=
  is_task k i /\ current_priority (scheduler (tcb k i)) = TaskPriority_Low /\ runnable (sstate k i) = true.

(** What a pass over [ids] does. *)
Definition suspend_post (ids : list Z) (m : SecurityMonitor) (k : Kernel) (st : SecurityMonitor * Kernel) : Prop :=
  exists fresh, monitor_ok st.1 /\ heartbeat_table_ st.1 = heartbeat_table_ m /\ throttled st.1 = throttled m ++ fresh /\ Forall (candidate k) fresh /\
    restated (fun i => if decide (i ∈ fresh) then Suspended else sstate k i) k st.2 /\
    (throttled_count_ st.1 = 8 \/ forall i, i ∈ ids -> candidate k i -> i ∈ throttled st.1).

Lemma suspend_none ids m k : monitor_ok m -> kernel_ok k -> throttled_count_ m = 8 \/ ids = [] -> suspend_post ids m k (m, k).
Proof.
  intros Hm Hk Hc. exists []. rewrite app_nil_r. split; [done|]. split; [done|]. split; [done|]. split; [constructor|]. split; [by apply restated_refl|].
  destruct Hc as [Hc| ->]; [by left|]. right. intros i Hin. by apply not_elem_of_nil in Hin.
Qed.

Lemma suspend_skip i ids m k st : ~ candidate k i \/ i ∈ throttled m -> suspend_post ids m k st -> suspend_post (i :: ids) m k st.
Proof.
  intros Hc (fresh & H1 & H2 & H3 & H4 & H5 & H6). exists fresh. do 5 (split; [done|]). destruct H6 as [H6|H6]; [by left|]. right.
  intros j [->|Hj]%elem_of_cons Hcj; [|by apply H6]. rewrite H3. destruct Hc as [Hc|Hc]; [done|]. apply elem_of_app. by left.
Qed.

Lemma candidate_suspended i k j :
  kernel_ok k -> 0 <= i -> candidate (set_task_state i Suspended k) j <-> candidate k j /\ j <> i.
Proof.
  intros Hk Hi. pose proof (set_state_restated i Suspended k Hk Hi) as Hr. unfold candidate, is_task. rewrite (rs_prio _ _ _ Hr), (rs_count _ _ _ Hr).
  destruct (decide (is_task k j)) as [Hj|Hj]; [|unfold is_task in Hj; tauto]. rewrite (rs_state _ _ _ Hr j Hj). case_decide as E; [|tauto].
  subst j. split; [by intros (_ & _ & ?)|tauto].
Qed.

Lemma suspend_take i ids m k st :
  monitor_ok m -> kernel_ok k -> throttled_count_ m < 8 -> i ∉ throttled m -> candidate k i -> 0 <= i ->
  suspend_post ids (throttle_add i m) (set_task_state i Suspended k) st -> suspend_post (i :: ids) m k st.
Proof.
  intros Hm Hk Hroom Hn Hci Hi (fresh & H1 & H2 & H3 & H4 & H5 & H6). pose proof (set_state_restated i Suspended k Hk Hi) as Hr.
  rewrite throttled_add, <- app_assoc in H3 by done. exists (i :: fresh). split; [done|]. split; [done|]. split; [done|].
  split; [constructor; [done|]; eapply Forall_impl; [exact H4|]; intros j Hj; by apply candidate_suspended in Hj as [? _]|]. split.
  - eapply restated_ext; [|exact (restated_trans _ _ _ _ _ Hr H5)]. intros j Hj. cbn beta. rewrite (rs_state _ _ _ Hr j Hj). repeat case_decide; set_solver.
  - destruct H6 as [H6|H6]; [by left|]. right. intros j Hj Hcj. destruct (decide (j = i)) as [->|Hne]; [rewrite H3; set_solver +|].
    apply H6; [set_solver|]. by apply candidate_suspended.
Qed.

Lemma suspend_loop_spec ids m k :
  monitor_ok m -> kernel_ok k -> Forall (fun i => 0 <= i) ids -> suspend_post ids m k (suspend_loop ids (m, k)).
Proof.
  intros Hm Hk Hids. revert m k Hm Hk. induction Hids as [|i ids Hi _ IH]; intros m k Hm Hk; [apply suspend_none; tauto|].
  cbn [suspend_loop]. unfold get_task. destruct (Z.leb_spec 0 i); [|lia].
  destruct (Z.ltb_spec i (task_count k)) as [Hlt|Hge]; cbn [andb]; [|apply suspend_skip; [left; intros [[_ ?] _]; lia|by apply IH]].
  destruct (Z.eqb_spec (current_priority (scheduler (tcb k i))) TaskPriority_Low) as [Ep|Hp]; cbn [negb]; [|apply suspend_skip; [left; by intros (_ & ? & _)|by apply IH]].
  fold (sstate k i). destruct (runnable (sstate k i)) eqn:Er; cbn [negb]; [|apply suspend_skip; [left; intros (_ & _ & ?); congruence|by apply IH]].
  unfold MAX_THROTTLED. destruct (Z.leb_spec 8 (throttled_count_ m)) as [Hfull|Hroom]; [apply suspend_none; [done|done|left; destruct Hm; lia]|].
  destruct (is_throttled m i) eqn:Et; [apply suspend_skip; [right; by apply is_throttled_spec|by apply IH]|].
  assert (Hn : i ∉ throttled m) by (intros Hin; apply (is_throttled_spec m i Hm) in Hin; congruence).
  apply suspend_take; try done. apply IH; [by apply throttle_add_ok|by apply kernel_ok_set_state].
Qed.

Lemma resume_one_spec m k j :
  kernel_ok k -> 0 <= zlookup (throttled_ids_ m) j ->
  restated (fun i => if decide (i = zlookup (throttled_ids_ m) j /\ sstate k i = Suspended) then Ready else sstate k i) k (resume_one m k j).
Proof.
  intros Hk H0. unfold resume_one, get_task_by_id. set (t := zlookup (throttled_ids_ m) j) in *. destruct (Z.leb_spec 0 t); [|lia].
  destruct (Z.ltb_spec t (task_count k)); cbn [andb].
  - fold (sstate k t). destruct (decide (sstate k t = Suspended)) as [E|Hne].
    + eapply restated_ext; [|by apply set_state_restated]. intros i Hi. cbn beta. repeat case_decide; naive_solver.
    + eapply restated_ext; [|by apply restated_refl]. intros i Hi. cbn beta. case_decide; naive_solver.
  - eapply restated_ext; [|by apply restated_refl]. intros i [Hi1 Hi2]. cbn beta. case_decide as E; [|done]. destruct E as [-> _]. lia.
Qed.

Lemma resume_loop_spec m js k :
  kernel_ok k -> Forall (fun i => 0 <= i) ((fun j => zlookup (throttled_ids_ m) j) <$> js) ->
  restated (fun i => if decide (i ∈ (fun j => zlookup (throttled_ids_ m) j) <$> js /\ sstate k i = Suspended) then Ready else sstate k i) k (foldl (resume_one m) k js).
Proof.
  revert k. induction js as [|j js IH]; intros k Hk Hp; cbn [foldl fmap list_fmap].
  - eapply restated_ext; [|by apply restated_refl]. intros i _. cbn beta. case_decide as E; [|done]. destruct E as [E _]. by apply not_elem_of_nil in E.
  - inversion Hp as [|? ? H0 Hp' E1]; subst. pose proof (resume_one_spec m k j Hk H0) as Hr.
    eapply restated_ext; [|exact (restated_trans _ _ _ _ _ Hr (IH _ (rs_ok _ _ _ Hr) Hp'))]. intros i Hi. cbn beta. rewrite (rs_state _ _ _ Hr i Hi). cbn beta.
    destruct (decide (i ∈ (fun j => zlookup (throttled_ids_ m) j) <$> js)) as [Hin|Hout], (decide (i = zlookup (throttled_ids_ m) j)) as [->|Hne];
      repeat case_decide; try done; set_solver.
Qed.

Lemma resume_spec m k :
  monitor_ok m -> kernel_ok k ->
  let st := resume_suspended_low_priority_tasks (m, k) in
  monitor_ok st.1 /\ heartbeat_table_ st.1 = heartbeat_table_ m /\ throttled st.1 = [] /\
  restated (fun i => if decide (i ∈ throttled m /\ sstate k i = Suspended) then Ready else sstate k i) k st.2.
Proof.
  intros Hm Hk. cbv zeta. unfold resume_suspended_low_priority_tasks. pose proof (throttled_seq m Hm) as Es. destruct Hm as [Ht Hl Hc Hnd Hp].
  destruct (Z.eqb_spec (throttled_count_ m) 0) as [E0|Hne].
  - assert (En : throttled m = []) by (unfold throttled; by rewrite E0). rewrite En. split; [by split|]. split; [done|]. split; [done|].
    eapply restated_ext; [|by apply restated_refl]. intros i _. cbn beta. case_decide as E; [|done]. destruct E as [E _]. by apply not_elem_of_nil in E.
  - cbn [fst snd]. split; [|split; [done|split; [done|]]].
    + split; [done|done|cbn; lia|constructor|constructor].
    + rewrite <- Es. apply resume_loop_spec; [done|]. by rewrite Es.
Qed.

(** * A round *)

Lemma pressure_spec h m k :
  monitor_ok m -> kernel_ok k ->
  let st := check_heap_pressure h (m, k) in
  monitor_ok st.1 /\ heartbeat_table_ st.1 = heartbeat_table_ m /\
  exists f, restated f k st.2 /\
    forall i, f i = sstate k i \/ (candidate k i /\ f i = Suspended) \/ (i ∈ throttled m /\ sstate k i = Suspended /\ f i = Ready).
Proof.
  intros Hm Hk. cbv zeta. unfold check_heap_pressure. assert (Hnone : exists f, restated f k k /\
    forall i, f i = sstate k i \/ (candidate k i /\ f i = Suspended) \/ (i ∈ throttled m /\ sstate k i = Suspended /\ f i = Ready)).
  { exists (sstate k). split; [by apply restated_refl|]. intros i. by left. }
  destruct (_ =? 0); [done|]. destruct (_ <? _).
  - cbn [fst snd]. assert (Hm' : monitor_ok (set_heap_warn (wrap32 (heap_warn_count_ m + 1)) m)) by (by destruct Hm as [A1 A2 A3 A4 A5]; split).
    destruct (suspend_loop_spec (seqZ 0 MAX_TASKS) _ k Hm' Hk) as (fresh & H1 & H2 & H3 & H4 & H5 & _).
    { apply Forall_forall. intros i Hi%elem_of_seqZ. lia. }
    split; [exact H1|]. split; [exact H2|]. eexists. split; [exact H5|]. intros i. cbn beta. case_decide as Hi; [|by left].
    right. left. split; [|done]. rewrite Forall_forall in H4. by apply H4.
  - destruct (_ <? _); [|done]. destruct (resume_spec m k Hm Hk) as (H1 & H2 & _ & H4). split; [done|]. split; [done|]. eexists. split; [exact H4|].
    intros i. cbn beta. case_decide as Hi; [|by left]. right. right. tauto.
Qed.

Lemma monitor_round_spec now h m k :
  monitor_ok m -> kernel_ok k ->
  let '(m', k', fed) := monitor_round now h (m, k) in
  monitor_ok m' /\ heartbeat_table_ m' = (fun e => if overdue now e then set_hb_active false e else e) <$> heartbeat_table_ m /\
  fed = forallb (fun e => negb (overdue now e)) (heartbeat_table_ m) /\
  exists f, restated f k k' /\ forall i, is_task k i ->
    if condemned now (heartbeat_table_ m) i then f i = Terminated
    else f i = sstate k i \/ (candidate k i /\ f i = Suspended) \/ (i ∈ throttled m /\ sstate k i = Suspended /\ f i = Ready).
Proof.
  intros Hm Hk. unfold monitor_round. cbn [fst snd]. pose proof Hm as [[Ht Hty] Hl Hc Hnd Hp]. pose proof (audit_from_spec now (heartbeat_table_ m) k true Hk Hty) as Ha.
  destruct (audit_from now (heartbeat_table_ m) k true) as [[es k1] ok]. destruct Ha as (-> & -> & Hr).
  set (es := (fun e => if overdue now e then set_hb_active false e else e) <$> heartbeat_table_ m).
  assert (Hm' : monitor_ok (set_heartbeats es m)).
  { split; [|done..]. split; [unfold es; cbn; by rewrite length_fmap|]. unfold es. cbn. apply Forall_fmap. eapply Forall_impl; [exact Hty|].
    intros e He. unfold compose. by destruct (overdue now e). }
  destruct (pressure_spec h _ k1 Hm' (rs_ok _ _ _ Hr)) as (H1 & H2 & f & Hf & Hfi). destruct (check_heap_pressure h _) as [m' k']. cbn [fst snd] in *.
  split; [done|]. split; [exact H2|]. split; [done|]. exists f. split; [by eapply restated_trans|]. intros i Hi. specialize (Hfi i).
  unfold candidate in *. rewrite (rs_state _ _ _ Hr i Hi), (rs_prio _ _ _ Hr) in Hfi. unfold is_task in *. rewrite (rs_count _ _ _ Hr) in Hfi.
  destruct (condemned now (heartbeat_table_ m) i); [|done]. destruct Hfi as [|[[(_ & _ & Hn) _]|(_ & Hn & _)]]; done.
Qed.

(** C16: A round of the security monitor feeds the watchdog exactly when no heartbeat
    is overdue, terminates exactly the tasks whose heartbeat is overdue and strikes
    them off, and otherwise changes a task only by suspending a runnable task of
    low priority or resuming one it has suspended; the scheduler and IPC invariants
    survive. *)
Theorem monitor_round_exact now h m k :
  monitor_ok m -> kernel_ok k ->
  let '(m', k', fed) := monitor_round now h (m, k) in
  monitor_ok m' /\ kernel_ok k' /\
  (fed = true <-> forall e, In e (heartbeat_table_ m) -> overdue now e = false) /\
  heartbeat_table_ m' = (fun e => if overdue now e then set_hb_active false e else e) <$> heartbeat_table_ m /\
  forall i, is_task k i ->
    if condemned now (heartbeat_table_ m) i then sstate k' i = Terminated
    else sstate k' i = sstate k i \/
      (current_priority (scheduler (tcb k i)) = TaskPriority_Low /\ runnable (sstate k i) = true /\ sstate k' i = Suspended) \/
      (i ∈ throttled m /\ sstate k i = Suspended /\ sstate k' i = Ready).
Proof.
  intros Hm Hk. pose proof (monitor_round_spec now h m k Hm Hk) as Hs. destruct (monitor_round now h (m, k)) as [[m' k'] fed].
  destruct Hs as (H1 & H2 & H3 & f & Hf & Hfi). split; [done|]. split; [apply (rs_ok _ _ _ Hf)|]. split.
  - rewrite H3, forallb_forall. split; intros H e He; specialize (H e He); by destruct (overdue now e).
  - split; [done|]. intros i Hi. specialize (Hfi i Hi). rewrite (rs_state _ _ _ Hf i Hi).
    destruct (condemned now (heartbeat_table_ m) i); [done|]. unfold candidate in Hfi. tauto.
Qed.

(** The client (2) has not reported for 60 ticks. *)
Definition demo_monitor : SecurityMonitor := register_task 1 500 100 (register_task 2 50 100 monitor_ctor).
Definition demo_heap : Heap.KernelHeap := Heap.mkHeap 0 [] [] None 4000 4096 ∅.

Lemma demo_monitor_ok : monitor_ok demo_monitor.
Proof.
  split; [split; [done|]|done|cbn; lia|constructor|constructor]. repeat constructor; unfold hb_typed; cbn; lia.
Qed.

Lemma monitor_round_exact_witness :
  let '(m', k', fed) := monitor_round 160 demo_heap (demo_monitor, demo_running) in
  sstate k' 2 = Terminated /\ kernel_ok k' /\ fed = false.
Proof.
  assert (Ef : (monitor_round 160 demo_heap (demo_monitor, demo_running)).2 = false) by (vm_compute; reflexivity).
  pose proof (monitor_round_exact 160 demo_heap demo_monitor demo_running demo_monitor_ok demo_running_ok) as H.
  destruct (monitor_round 160 demo_heap (demo_monitor, demo_running)) as [[m' k'] fed]. destruct H as (_ & H2 & _ & _ & H5).
  split; [|split; [exact H2|exact Ef]]. specialize (H5 2). change (condemned 160 (heartbeat_table_ demo_monitor) 2) with true in H5. cbn [fst] in H5.
  apply H5. split; [lia|vm_compute; reflexivity].
Defined.

(** The whole body of the loop, with the sleep, keeps the invariants. *)
Theorem monitor_body_ok run_handler `{!GoodHandlers run_handler} now h m k :
  monitor_ok m -> kernel_ok k ->
  let '(m', k', _) := monitor_body run_handler now h (m, k) in monitor_ok m' /\ kernel_ok k'.
Proof.
  intros Hm Hk. unfold monitor_body. pose proof (monitor_round_spec now h m k Hm Hk) as Hr. destruct (monitor_round now h (m, k)) as [[m' k'] fed].
  destruct Hr as (H1 & _ & _ & f & Hf & _). split; [done|]. apply (sleep_ms_ok run_handler), (rs_ok _ _ _ Hf).
Qed.

(** * Silent tasks *)

(** What happens to the monitor: its rounds, calls of the monitored tasks, and
    anything the rest of the system does to the kernel. *)
Inductive MonEvent :=
  | EvRound (now : Z) (h : Heap.KernelHeap)
  | EvBeat (task_id now : Z)
  | EvRegister (task_id timeout now : Z)
  | EvOthers (k : Kernel).

Definition mon_step (st : SecurityMonitor * Kernel) (ev : MonEvent) : SecurityMonitor * Kernel :=
  match ev with
  | EvRound now h => (monitor_round now h st).1
  | EvBeat t now => (task_heartbeat t now st.1, st.2)
  | EvRegister t timeout now => (register_task t timeout now st.1, st.2)
  | EvOthers k => (st.1, k)
  end.

(** Task [t] stays silent; the system keeps its invariants and the task's slot. *)
Definition silent (t : Z) (ev : MonEvent) : Prop :=
  match ev with
  | EvRound _ _ => True
  | EvBeat t' _ => t' <> t
  | EvRegister t' _ _ => 0 <= t'
  | EvOthers k => kernel_ok k /\ is_task k t
  end.

Lemma register_from_keeps es t timeout now i e :
  es !! i = Some e -> hb_active e = true -> register_from es t timeout now !! i = Some e.
Proof.
  revert i. induction es as [|x es IH]; intros i Hi Ha; [done|]. cbn [register_from]. destruct (hb_active x) eqn:Ex; cbn [negb]; destruct i as [|i]; cbn in *; try done;
    [by apply IH|congruence].
Qed.

Lemma beat_from_keeps es t now i e : es !! i = Some e -> hb_task_id e <> t -> beat_from es t now !! i = Some e.
Proof.
  revert i. induction es as [|x es IH]; intros i Hi Ha; [done|]. cbn [beat_from]. destruct (hb_active x && (hb_task_id x =? t)) eqn:Ex; destruct i as [|i]; cbn in *; try done;
    [|by apply IH]. apply andb_true_iff in Ex as [_ Ex%Z.eqb_eq]. congruence.
Qed.

Lemma register_ok t timeout now m : 0 <= t -> monitor_ok m -> monitor_ok (register_task t timeout now m).
Proof.
  intros Ht [[H1 H2] H3 H4 H5 H6]. split; [|done..]. cbn [heartbeat_table_ register_task set_heartbeats]. rewrite <- H1. clear - H2 Ht.
  induction H2 as [|e es He Hes [IH1 IH2]]; cbn [register_from]; [done|]. destruct (negb _); split; cbn [length]; [done|by constructor|by rewrite IH1|by constructor].
Qed.

Lemma heartbeat_ok t now m : monitor_ok m -> monitor_ok (task_heartbeat t now m).
Proof.
  intros [[H1 H2] H3 H4 H5 H6]. split; [|done..]. cbn [heartbeat_table_ task_heartbeat set_heartbeats]. rewrite <- H1. clear - H2.
  induction H2 as [|e es He Hes [IH1 IH2]]; cbn [beat_from]; [done|]. destruct (_ && _); split; cbn [length]; [done|by constructor|by rewrite IH1|by constructor].
Qed.

(** As long as the entry is not overdue at a round, it stays. *)
Lemma mon_step_keeps st ev i e :
  monitor_ok st.1 -> kernel_ok st.2 -> is_task st.2 (hb_task_id e) -> silent (hb_task_id e) ev ->
  heartbeat_table_ st.1 !! i = Some e -> hb_active e = true -> (forall now h, ev = EvRound now h -> overdue now e = false) ->
  monitor_ok (mon_step st ev).1 /\ kernel_ok (mon_step st ev).2 /\ is_task (mon_step st ev).2 (hb_task_id e) /\
  heartbeat_table_ (mon_step st ev).1 !! i = Some e.
Proof.
  destruct st as [m k]. cbn [fst snd]. intros Hm Hk Ht Hs Hi Ha Hno. destruct ev as [now h|t now|t timeout now|k']; cbn [mon_step silent] in *.
  - specialize (Hno now h eq_refl). pose proof (monitor_round_spec now h m k Hm Hk) as Hr. destruct (monitor_round now h (m, k)) as [[m' k'] fed].
    destruct Hr as (H1 & H2 & _ & f & Hf & _). cbn [fst snd]. split; [done|]. split; [apply (rs_ok _ _ _ Hf)|].
    split; [unfold is_task in *; by rewrite (rs_count _ _ _ Hf)|]. rewrite H2, list_lookup_fmap, Hi. cbn. by rewrite Hno.
  - split; [by apply heartbeat_ok|]. split; [done|]. split; [done|]. by apply beat_from_keeps.
  - split; [by apply register_ok|]. split; [done|]. split; [done|]. by apply register_from_keeps.
  - cbn [fst snd]. tauto.
Qed.

Lemma overdue_condemned now es i e : es !! i = Some e -> overdue now e = true -> condemned now es (hb_task_id e) = true.
Proof.
  intros Hi Ho. apply existsb_exists. exists e. split; [apply list_elem_of_In; by eapply list_elem_of_lookup_2|]. by rewrite Ho, Z.eqb_refl.
Qed.

(** C17: A monitored task that falls silent does not go unnoticed: whatever else happens
    in the system, at the latest the first round of the monitor after its deadline
    finds it, terminates it and withholds the watchdog. *)
Theorem silent_task_caught evs now h m k i e :
  monitor_ok m -> kernel_ok k -> is_task k (hb_task_id e) ->
  heartbeat_table_ m !! i = Some e -> hb_active e = true -> Forall (silent (hb_task_id e)) evs ->
  0 <= last_beat_tick e -> last_beat_tick e + timeout_ticks e < now < 4294967296 -> 0 <= timeout_ticks e ->
  exists evs1 now' h' evs2, evs ++ [EvRound now h] = evs1 ++ EvRound now' h' :: evs2 /\
    let st := foldl mon_step (m, k) evs1 in
    sstate (monitor_round now' h' st).1.2 (hb_task_id e) = Terminated /\ (monitor_round now' h' st).2 = false.
Proof.
  intros Hm Hk Ht Hi Ha Hs H0 Hn Hto. assert (Hcaught : forall now h st, monitor_ok st.1 -> kernel_ok st.2 -> is_task st.2 (hb_task_id e) ->
    heartbeat_table_ st.1 !! i = Some e -> overdue now e = true ->
    sstate (monitor_round now h st).1.2 (hb_task_id e) = Terminated /\ (monitor_round now h st).2 = false).
  { clear. intros now h [m k] Hm Hk Ht Hi Ho. pose proof (monitor_round_spec now h m k Hm Hk) as Hr. destruct (monitor_round now h (m, k)) as [[m' k'] fed].
    destruct Hr as (_ & _ & H3 & f & Hf & Hfi). specialize (Hfi _ Ht). cbn [fst snd] in *. rewrite (overdue_condemned _ _ _ _ Hi Ho) in Hfi.
    split; [by rewrite (rs_state _ _ _ Hf _ Ht)|]. rewrite H3. apply not_true_is_false. intros Hall. rewrite forallb_forall in Hall.
    specialize (Hall e ltac:(apply list_elem_of_In; by eapply list_elem_of_lookup_2)). by rewrite Ho in Hall. }
  assert (Hend : overdue now e = true).
  { unfold overdue. rewrite Ha, wrap32_small by (unfold is_u32; lia). cbn [andb]. apply Z.ltb_lt. lia. }
  change m with (m, k).1 in Hm, Hi. change k with (m, k).2 in Hk, Ht. generalize dependent (m, k). clear m k. induction Hs as [|ev evs Hev Hs IH]; intros st Hm Hk Ht Hi.
  - exists [], now, h, []. split; [done|]. cbn [foldl]. by apply Hcaught.
  - destruct (match ev with EvRound now' _ => overdue now' e | _ => false end) eqn:Eo.
    + destruct ev as [now' h'| | |]; try done. exists [], now', h', (evs ++ [EvRound now h]). split; [done|]. cbn [foldl]. by apply Hcaught.
    + destruct (mon_step_keeps st ev i e) as (K1 & K2 & K3 & K4); try done; [by intros now' h' ->|].
      destruct (IH (mon_step st ev) K1 K2 K3 K4) as (evs1 & now' & h' & evs2 & E & Hc). exists (ev :: evs1), now', h', evs2.
      split; [cbn; by rewrite E|exact Hc].
Qed.

Lemma silent_task_caught_witness :
  exists evs1 now' h' evs2, [EvBeat 1 120; EvRound 140 demo_heap] ++ [EvRound 160 demo_heap] = evs1 ++ EvRound now' h' :: evs2 /\
    let st := foldl mon_step (demo_monitor, demo_running) evs1 in
    sstate (monitor_round now' h' st).1.2 2 = Terminated /\ (monitor_round now' h' st).2 = false.
Proof.
  apply (silent_task_caught [EvBeat 1 120; EvRound 140 demo_heap] 160 demo_heap demo_monitor demo_running 0 (mkHeartbeat 2 100 50 true));
    [exact demo_monitor_ok|exact demo_running_ok|split; [cbn; lia|vm_compute; reflexivity]|reflexivity|reflexivity| |cbn; lia|cbn; lia|cbn; lia].
  repeat constructor. cbn. lia.
Defined.

(** * Heap pressure *)

(** Heap pressure is relieved and undone: suspending moves every runnable task of low
    priority (the first eight) to Suspended and touches no other task, and when the
    pressure has gone each of them is ready again, so that every task that was not
    running is back in its old state. *)
Theorem throttle_roundtrip m k :
  monitor_ok m -> kernel_ok k -> throttled m = [] ->
  let (m1, k1) := suspend_low_priority_tasks (m, k) in
  let (m2, k2) := resume_suspended_low_priority_tasks (m1, k1) in
  (forall i, is_task k i -> sstate k1 i = if decide (i ∈ throttled m1) then Suspended else sstate k i) /\
  (forall i, i ∈ throttled m1 -> candidate k i) /\
  ((length (throttled m1) < 8)%nat -> forall i, candidate k i -> i ∈ throttled m1) /\
  kernel_ok k1 /\ kernel_ok k2 /\ throttled m2 = [] /\
  (forall i, is_task k i -> sstate k2 i = if decide (i ∈ throttled m1) then Ready else sstate k i).
Proof.
  intros Hm Hk He. unfold suspend_low_priority_tasks. destruct (suspend_loop_spec (seqZ 0 MAX_TASKS) m k Hm Hk) as (fresh & H1 & H2 & H3 & H4 & H5 & H6).
  { apply Forall_forall. intros i Hi%elem_of_seqZ. lia. }
  destruct (suspend_loop _ (m, k)) as [m1 k1]. cbn [fst snd] in *. rewrite He in H3. cbn [app] in H3. pose proof (resume_spec m1 k1 H1 (rs_ok _ _ _ H5)) as (R1 & _ & R3 & R4).
  destruct (resume_suspended_low_priority_tasks (m1, k1)) as [m2 k2]. cbn [fst snd] in *. rewrite H3 in *. rewrite Forall_forall in H4.
  split; [apply (rs_state _ _ _ H5)|]. split; [exact H4|]. split; [|split; [apply (rs_ok _ _ _ H5)|split; [apply (rs_ok _ _ _ R4)|split; [done|]]]].
  - intros Hlen i Hc. destruct H6 as [H6|H6]; [|apply H6; [|done]].
    + pose proof H1 as [_ Hl Hcnt _ _]. rewrite <- H3 in Hlen. unfold throttled in Hlen. rewrite length_take, H6, Hl in Hlen. cbn in Hlen. lia.
    + destruct Hc as [Hi _]. apply elem_of_seqZ. destruct (kernel_ok_sched _ Hk) as [Q HQ]. pose proof (rl_lt_max (si_linked _ _ HQ) i Hi). destruct Hi. lia.
  - intros i Hi. assert (Hi1 : is_task k1 i) by (unfold is_task in *; by rewrite (rs_count _ _ _ H5)). rewrite (rs_state _ _ _ R4 i Hi1).
    rewrite (rs_state _ _ _ H5 i Hi). destruct (decide (i ∈ fresh)) as [Hin|Hout]; [by rewrite decide_True|]. rewrite decide_False; [done|tauto].
Qed.

(** ** What the code also does *)

(** The comments promise that the watchdog starves after a silent task; but the entry
    is struck off, so that the very next round feeds it again, and the reset that
    takes 30 s without feeding never comes. *)
Theorem watchdog_fed_again now now' h h' m k :
  monitor_ok m -> kernel_ok k ->
  (forall e, In e (heartbeat_table_ m) -> overdue now e = true \/ overdue now' e = false) ->
  (monitor_round now' h' (monitor_round now h (m, k)).1).2 = true.
Proof.
  intros Hm Hk Hno. pose proof (monitor_round_spec now h m k Hm Hk) as Hr. destruct (monitor_round now h (m, k)) as [[m1 k1] fed].
  destruct Hr as (H1 & H2 & _ & f & Hf & _). cbn [fst]. pose proof (monitor_round_spec now' h' m1 k1 H1 (rs_ok _ _ _ Hf)) as Hr.
  destruct (monitor_round now' h' (m1, k1)) as [[m2 k2] fed2]. destruct Hr as (_ & _ & -> & _). cbn [snd]. rewrite H2. apply forallb_forall.
  intros e' He'%list_elem_of_In. apply list_elem_of_fmap in He' as (e & -> & He%list_elem_of_In). destruct (Hno e He) as [Ho|Ho]; [by rewrite Ho|].
  destruct (overdue now e); [done|]. by rewrite Ho.
Qed.

(** A task may be monitored twice; its heartbeat then refreshes the first entry only,
    and the second one condemns the living task. *)
Definition double_monitor : SecurityMonitor := task_heartbeat 2 140 (register_task 2 50 100 (register_task 2 50 100 monitor_ctor)).

Theorem second_registration_condemns : condemned 160 (heartbeat_table_ double_monitor) 2 = true.
Proof. by vm_compute. Qed.

(** ** Reports *)

Lemma low_digits_length fuel v : (length (low_digits fuel v) <= fuel)%nat.
Proof. revert v. induction fuel as [|fuel IH]; intros v; cbn [low_digits length]; [done|]. destruct (_ =? 0); cbn [length]; [lia|]. specialize (IH (v / 10)). lia. Qed.

Lemma low_digits_value fuel v : 0 <= v < 10 ^ Z.of_nat fuel -> (0 < fuel)%nat -> value (rev (low_digits fuel v)) = v.
Proof.
  revert v. induction fuel as [|fuel IH]; intros v Hv Hf; [lia|]. cbn [low_digits rev]. rewrite value_snoc. rewrite Nat2Z.inj_succ, Z.pow_succ_r in Hv by lia.
  destruct (Z.eqb_spec (v / 10) 0) as [E|Hne].
  - change (value (rev [])) with 0. Z.to_euclidean_division_equations. lia.
  - destruct fuel as [|fuel]; [change (10 ^ Z.of_nat 0) with 1 in Hv; exfalso; apply Hne; apply Z.div_small; lia|].
    rewrite IH; [Z.to_euclidean_division_equations; lia| |lia]. split; [apply Z.div_pos; lia|]. apply Z.div_lt_upper_bound; lia.
Qed.

(** The message fits the 64-byte buffer with its terminator, and its number reads back
    as the task. *)
Theorem overflow_message_fits t :
  is_u32 t -> (length (overflow_message t) < 64)%nat /\ value (rev (low_digits 10 t)) = t.
Proof.
  intros Ht. split.
  - unfold overflow_message. rewrite !length_app, length_rev. change (length (str "[SECMON] stack overflow task=")) with 29%nat. pose proof (low_digits_length 10 t). cbn [length]. lia.
  - apply low_digits_value; [unfold is_u32 in Ht; cbn; lia|lia].
Qed.
