(* ===== verification/FwClaims.v ===== *)
(** Theorems on the firewall (net/firewall, services/firewall). *)
From S2P Require Import Prelude Text SecMon Stealth Firewall FwParser FwParserInv FwInv.
From stdpp Require Import strings.
#[local] Open Scope Z_scope.

(** * Stateful inspection *)

Inductive InsEvent := IPacket (now : Z) (packet : list Z) (len : Z) | ITick (now : Z).

(** The connections and the segments accepted so far, newest first. *)
Definition ins_step (st : list TcpConnection * list Segment) (ev : InsEvent) : list TcpConnection * list Segment :=
  match ev with
  | IPacket now packet len =>
      let (pass, cs) := process_tcp_packet now packet len st.1 in
      (cs, match parse_segment packet len with inr s => if pass then s :: st.2 else st.2 | inl _ => st.2 end)
  | ITick now => (inspector_tick now st.1, st.2)
  end.

Lemma ins_run_ok evs st : conns_ok st.2 st.1 -> conns_ok (foldl ins_step st evs).2 (foldl ins_step st evs).1.
Proof.
  revert st. induction evs as [|ev evs IH]; intros [cs hist] Hok; cbn [foldl]; [done|]. apply IH. destruct ev as [now packet len|now]; cbn [ins_step fst snd].
  - unfold process_tcp_packet. destruct (parse_segment packet len) as [b|s]; [done|]. pose proof (inspect_ok now s cs hist Hok) as Hi. by destruct (inspect now s cs).
  - by apply tick_ok.
Qed.

Lemma no_conns_ok : conns_ok [] (replicate 16 inhabitant).
Proof.
  split.
  - intros i j c d Hi _ Ha _ _. apply lookup_replicate in Hi as [-> _]. done.
  - intros c Hc Ha. apply elem_of_replicate in Hc as [-> _]. done.
Qed.

(** C18: After any traffic and timeouts, a TCP segment other than a first SYN passes the
    stateful inspection only if an accepted SYN opened its flow (in either
    direction) and no accepted segment has reset that flow since. *)
Theorem accepted_follows_syn evs now packet len s :
  parse_segment packet len = inr s -> ~ opening s ->
  let st := foldl ins_step (replicate 16 inhabitant, []) evs in
  (process_tcp_packet now packet len st.1).1 = true ->
  exists h1 s0 h2, st.2 = h1 ++ s0 :: h2 /\ opening s0 /\ same_conn s0 s /\ Forall (fun t => same_conn t s -> is_rst t = false) h1.
Proof.
  intros Hs Hn. cbv zeta. pose proof (ins_run_ok evs (replicate 16 inhabitant, []) no_conns_ok) as Hok. destruct (foldl ins_step _ evs) as [cs hist].
  cbn [fst snd] in *. unfold process_tcp_packet. rewrite Hs. intros Hacc. by eapply inspect_accepts.
Qed.

(** A minimal Ethernet, IPv4 and TCP packet: addresses, ports, flags. *)
Definition tcp_packet (src dst sport dport flags : Z) : list Z :=
  replicate 12 0 ++ [8; 0] ++ [69; 0; 0; 40; 0; 0; 0; 0; 64; 6; 0; 0] ++ [10; 0; 0; src; 10; 0; 0; dst] ++
  [0; sport; 0; dport] ++ replicate 8 0 ++ [80; flags; 0; 0].

Lemma accepted_follows_syn_witness :
  let st := foldl ins_step (replicate 16 inhabitant, []) [IPacket 5 (tcp_packet 1 2 9 80 2) 50] in
  exists h1 s0 h2, st.2 = h1 ++ s0 :: h2 /\ opening s0.
Proof.
  cbv zeta. assert (Ha : (process_tcp_packet 7 (tcp_packet 2 1 80 9 18) 50 (foldl ins_step (replicate 16 inhabitant, []) [IPacket 5 (tcp_packet 1 2 9 80 2) 50]).1).1 = true)
    by (vm_compute; reflexivity).
  destruct (accepted_follows_syn [IPacket 5 (tcp_packet 1 2 9 80 2) 50] 7 (tcp_packet 2 1 80 9 18) 50
    (mkSegment 167772162 167772161 80 9 true true false false)) as (h1 & s0 & h2 & E & Ho & _ & _); [vm_compute; reflexivity|intros [_ H]; discriminate H|exact Ha|].
  exists h1, s0, h2. split; [exact E|exact Ho].
Defined.

(** A connection that has been idle for more than 30000 ticks is gone after the next
    tick, and no other. *)
Theorem idle_connections_expire now cs i c :
  cs !! i = Some c -> c_active c = true -> 0 <= c_last c <= now -> now < 4294967296 ->
  exists c', inspector_tick now cs !! i = Some c' /\ (c_active c' = false <-> TIMEOUT_TICKS < now - c_last c).
Proof.
  intros Hi Ha Hl Hn. exists (conn_tick now c). split; [unfold inspector_tick; by rewrite list_lookup_fmap, Hi|].
  unfold conn_tick. rewrite Ha, wrap32_small by (unfold is_u32; lia). cbn [andb]. destruct (Z.ltb_spec TIMEOUT_TICKS (now - c_last c)); cbn; [done|].
  rewrite Ha. split; [done|lia].
Qed.

(** * Flood protection *)

Definition icmp_from (ip : Z) (packet : list Z) (len : Z) : bool :=
  shaped packet len && (pkt_src_ip packet =? ip) && (pkt_protocol packet =? 1).

Definition syn_from (ip : Z) (packet : list Z) (len : Z) : bool :=
  shaped packet len && (pkt_src_ip packet =? ip) && (pkt_protocol packet =? 6) && (5 <=? pkt_ihl packet) &&
  (14 + pkt_ihl packet * 4 + 14 <=? len) && negb (Z.land (char_at packet (14 + pkt_ihl packet * 4 + 13)) 0x02 =? 0).

(** How many of the packets that satisfy [p] pass. *)
Fixpoint passed (p : list Z -> Z -> bool) (evs : list (Z * list Z * Z)) (hs : list HostStats) : Z :=
  match evs with
  | [] => 0
  | (now, packet, len) :: evs =>
      let '(pass, _, hs) := shape now packet len hs in (if pass && p packet len then 1 else 0) + passed p evs hs
  end.

(** The counters behind one packet. *)
Lemma judge_counts packet len ip h :
  shaped packet len = true -> pkt_src_ip packet = ip -> 0 <= icmp_count h < 4294967295 -> 0 <= syn_count h < 4294967295 ->
  let h' := (judge packet len h).2 in let pass := bool_decide ((judge packet len h).1 = None) in
  icmp_count h' = icmp_count h + (if icmp_from ip packet len then 1 else 0) /\
  syn_count h' = syn_count h + (if syn_from ip packet len then 1 else 0) /\
  (pass = true -> icmp_from ip packet len = true -> icmp_count h < 20) /\
  (pass = true -> syn_from ip packet len = true -> syn_count h < 50).
Proof.
  intros Hs Hip Hi Hy. cbv zeta. unfold icmp_from, syn_from, judge. rewrite Hs, Hip, Z.eqb_refl. cbn [andb].
  destruct (Z.eqb_spec (pkt_protocol packet) 1) as [E1|Hn1].
  - rewrite E1. cbn [Z.eqb andb]. cbn -[wrap32]. rewrite wrap32_small by (unfold is_u32; lia). unfold ICMP_LIMIT.
    split; [done|]. split; [lia|]. destruct (Z.ltb_spec 20 (icmp_count h + 1)); cbn; (split; [|done]); [done|lia].
  - destruct (Z.eqb_spec (pkt_protocol packet) 6) as [E6|Hn6]; cbn [andb]; [|cbn; split; [lia|]; split; [lia|done]].
    destruct (Z.ltb_spec (pkt_ihl packet) 5), (Z.leb_spec 5 (pkt_ihl packet)); try lia; cbn [andb]; [cbn; split; [lia|]; split; [lia|done]|].
    destruct (14 + pkt_ihl packet * 4 + 14 <=? len); cbn [andb]; [|cbn; split; [lia|]; split; [lia|done]].
    destruct (negb _); cbn [andb]; [|cbn; split; [lia|]; split; [lia|done]]. cbn -[wrap32]. rewrite (wrap32_small (syn_count h + 1)) by (unfold is_u32; lia). unfold SYN_LIMIT.
    destruct (Z.ltb_spec 50 (syn_count h + 1)); [cbn; split; [lia|]; split; [lia|done]|].
    destruct (negb (last_dst_port h =? _)); cbn; (split; [lia|]); split; (lia || (split; [done|lia])).
Qed.

Lemma icmp_from_shaped ip packet len : icmp_from ip packet len = true -> shaped packet len = true /\ pkt_src_ip packet = ip.
Proof. unfold icmp_from. intros [[H1 H2%Z.eqb_eq]%andb_true_iff _]%andb_true_iff. done. Qed.

Lemma syn_from_shaped ip packet len : syn_from ip packet len = true -> shaped packet len = true /\ pkt_src_ip packet = ip.
Proof. unfold syn_from. rewrite !andb_true_iff, Z.eqb_eq. tauto. Qed.

(** C31: Flood protection: once a host is tracked, and until it is dropped from the table
    for inactivity, whatever anybody else sends, at most 20 ICMP packets and at most
    50 TCP SYNs of that host pass, less those already counted. *)
Theorem flood_limited ip evs hs h :
  stats_of ip hs = Some h -> 0 <= icmp_count h -> 0 <= syn_count h ->
  icmp_count h + Z.of_nat (length evs) < 4294967295 -> syn_count h + Z.of_nat (length evs) < 4294967295 ->
  passed (icmp_from ip) evs hs <= Z.max 0 (20 - icmp_count h) /\ passed (syn_from ip) evs hs <= Z.max 0 (50 - syn_count h).
Proof.
  revert hs h. induction evs as [|[[now packet] len] evs IH]; intros hs h Hh Hi Hy Hli Hly; cbn [passed length] in *; [lia|].
  pose proof (shape_spec now packet len hs) as Hs. destruct (shape now packet len hs) as [[pass anomaly] hs']. cbn zeta in Hs.
  destruct (decide (shaped packet len = true /\ pkt_src_ip packet = ip)) as [[Hsh Hip]|Hother].
  - rewrite Hsh, Hip, Hh in Hs. change (bool_decide (is_Some (Some h))) with true in Hs. cbn [orb andb] in Hs. destruct Hs as (-> & -> & Hst & _).
    destruct (judge_counts packet len ip (set_ho_last now h) Hsh Hip ltac:(cbn; lia) ltac:(cbn; lia)) as (J1 & J2 & J3 & J4). cbn [icmp_count syn_count set_ho_last] in *.
    destruct (judge packet len (set_ho_last now h)) as [anomaly h']. cbn [fst snd] in *.
    destruct (IH hs' h' Hst) as [B1 B2]; [destruct (icmp_from ip packet len); lia|destruct (syn_from ip packet len); lia|destruct (icmp_from ip packet len); lia|destruct (syn_from ip packet len); lia|].
    destruct (bool_decide (anomaly = None)); cbn [andb]; destruct (icmp_from ip packet len), (syn_from ip packet len); try specialize (J3 eq_refl eq_refl); try specialize (J4 eq_refl eq_refl); lia.
  - assert (Hn : icmp_from ip packet len = false /\ syn_from ip packet len = false).
    { split; apply not_true_is_false; intros H; apply Hother; [by apply icmp_from_shaped|by apply syn_from_shaped]. }
    destruct Hn as [-> ->]. rewrite andb_false_r. assert (Hst : stats_of ip hs' = Some h).
    { destruct (shaped packet len && _) eqn:E in Hs; [|by destruct Hs as (_ & _ & ->)]. destruct Hs as (_ & _ & _ & Hs). rewrite Hs; [done|].
      intros ->. apply Hother. apply andb_true_iff in E as [E _]. done. }
    destruct (IH hs' h Hst) as [B1 B2]; lia.
Qed.

(** Host 10.0.0.3 sends 30 pings. *)
Definition ping_packet (src : Z) : list Z :=
  replicate 12 0 ++ [8; 0] ++ [69; 0; 0; 28; 0; 0; 0; 0; 64; 1; 0; 0] ++ [10; 0; 0; src; 10; 0; 0; 1] ++ [8; 0; 0; 0].

Lemma flood_limited_witness :
  passed (icmp_from 167772163) (replicate 30 (7, ping_packet 3, 38)) (mkHost true 167772163 0 0 0 0 5 :: replicate 7 inhabitant) <= 20.
Proof.
  destruct (flood_limited 167772163 (replicate 30 (7, ping_packet 3, 38)) (mkHost true 167772163 0 0 0 0 5 :: replicate 7 inhabitant)
    (mkHost true 167772163 0 0 0 0 5)) as [H _]; [reflexivity|cbn; lia|cbn; lia|rewrite length_replicate; cbn; lia|rewrite length_replicate; cbn; lia|]. exact H.
Defined.

(** ** What the code also does *)

(** A host that is never idle for a second is never forgotten: with one SYN every 900
    ticks, far below the 50 per second that the limit is meant to be, and the tick
    handler running in between, the 51st is dropped. *)
Definition steady_run (n : Z) : bool * list HostStats :=
  foldl (fun st i => let '(pass, _, hs) := shape (900 * i) (tcp_packet 3 1 9 80 2) 50 (shaper_tick (900 * i) st.2) in (pass, hs))
    (true, replicate 8 inhabitant) (seqZ 1 n).

Theorem steady_host_blocked : (steady_run 50).1 = true /\ (steady_run 51).1 = false.
Proof. by vm_compute. Qed.

(** With eight hosts in the table nobody else is limited: their packets pass and leave
    no trace. *)
Theorem ninth_host_unlimited now packet len hs :
  stats_of (pkt_src_ip packet) hs = None -> Forall (fun h => ho_active h = true) hs -> shape now packet len hs = (true, None, hs).
Proof.
  intros Hn Hall. pose proof (shape_spec now packet len hs) as Hs. destruct (shape now packet len hs) as [[pass anomaly] hs']. cbn zeta in Hs.
  assert (He : existsb (fun h => negb (ho_active h)) hs = false).
  { apply not_true_is_false. intros (h & Hh & Ha)%existsb_exists. rewrite Forall_forall in Hall. by rewrite (Hall h) in Ha by (by apply list_elem_of_In). }
  rewrite Hn, He, andb_false_r in Hs. destruct Hs as (-> & -> & ->). done.
Qed.

(** The handshake is not checked for direction: the initiator alone can lead a
    connection to ESTABLISHED. *)
Theorem one_sided_handshake :
  let run := foldl ins_step (replicate 16 inhabitant, [])
    [IPacket 1 (tcp_packet 3 1 9 80 2) 50; IPacket 2 (tcp_packet 3 1 9 80 18) 50; IPacket 3 (tcp_packet 3 1 9 80 16) 50] in
  c_state (zlookup run.1 0) = ESTABLISHED.
Proof. by vm_compute. Qed.

(** * Decisions *)

Lemma first_action_spec h interface rs :
  first_action h interface rs = ACCEPT <->
  (forall j r, rs !! j = Some r -> rule_matches h interface r = false) \/
  (exists i r, rs !! i = Some r /\ rule_matches h interface r = true /\ fw_action r = ACCEPT /\
     forall j r', (j < i)%nat -> rs !! j = Some r' -> rule_matches h interface r' = false).
Proof.
  induction rs as [|r rs IH]; cbn [first_action]; [split; [left; by intros [|j]|done]|]. destruct (rule_matches h interface r) eqn:E.
  - split.
    + intros Ha. right. exists 0%nat, r. split; [done|]. split; [done|]. split; [done|]. intros j r' Hj. lia.
    + intros [H|(i & r' & Hi & Hm & Ha & Hj)]; [specialize (H 0%nat r eq_refl); congruence|]. destruct i as [|i]; [cbn in Hi; congruence|].
      specialize (Hj 0%nat r ltac:(lia) eq_refl). congruence.
  - rewrite IH. split.
    + intros [H|(i & r' & Hi & Hm & Ha & Hj)]; [left; intros [|j] r'; cbn; [intros [= <-]; done|apply H]|]. right. exists (S i), r'.
      split; [done|]. split; [done|]. split; [done|]. intros [|j] x Hlt; cbn; [intros [= <-]; done|]. apply Hj. lia.
    + intros [H|(i & r' & Hi & Hm & Ha & Hj)]; [left; intros j r' Hj; by apply (H (S j))|]. destruct i as [|i]; [cbn in Hi; simplify_eq; congruence|].
      right. exists i, r'. split; [done|]. split; [done|]. split; [done|]. intros j x Hlt Hx. by apply (Hj (S j)); [lia|].
Qed.

(** The rules let a packet pass. *)
Definition rules_allow (packet : list Z) (len : Z) (interface : list Z) (rs : RuleTable) : Prop :=
  match parse_header packet len with
  | None => True
  | Some h =>
      (forall j r, rs !! j = Some r -> rule_matches h interface r = false) \/
      (exists i r, rs !! i = Some r /\ rule_matches h interface r = true /\ fw_action r = ACCEPT /\
         forall j r', (j < i)%nat -> rs !! j = Some r' -> rule_matches h interface r' = false)
  end.

Lemma match_rules_spec packet len interface rs : match_rules packet len interface rs = ACCEPT <-> rules_allow packet len interface rs.
Proof. unfold match_rules, rules_allow. destruct (parse_header packet len); [apply first_action_spec|done]. Qed.

Lemma report_fw reason w : fw (report reason w) = fw w.
Proof. unfold report. by destruct (report_firewall_anomaly _ _). Qed.

(** C30: The verdict of the firewall: switched off it passes everything and changes
    nothing; switched on a packet passes exactly when the stealth filter, the flood
    protection, the first matching rule (or the default) and the stateful inspection
    all let it pass.  A packet dropped by the stealth filter changes nothing at all; the
    flood counters are updated only behind it, connections only behind the rules, and
    the rules never. *)
Theorem firewall_decision s now packet len interface w :
  (enabled_ (fw w) = false -> process_packet s now packet len interface w = (true, w)) /\
  (enabled_ (fw w) = true ->
   let r := process_packet s now packet len interface w in
   let shaping := shape now packet len (hosts_ (fw w)) in
   let inspection := process_tcp_packet now packet len (connections_ (fw w)) in
   let reached_rules := probe_dropped s packet len = false /\ shaping.1.1 = true in
   (r.1 = true <-> reached_rules /\ rules_allow packet len interface (rule_table_ (fw w)) /\ inspection.1 = true) /\
   (probe_dropped s packet len = true -> r = (false, w)) /\
   (probe_dropped s packet len = false -> hosts_ (fw r.2) = shaping.2) /\
   (reached_rules /\ rules_allow packet len interface (rule_table_ (fw w)) -> connections_ (fw r.2) = inspection.2) /\
   (~ (reached_rules /\ rules_allow packet len interface (rule_table_ (fw w))) -> connections_ (fw r.2) = connections_ (fw w)) /\
   rule_table_ (fw r.2) = rule_table_ (fw w) /\ enabled_ (fw r.2) = true).
Proof.
  unfold process_packet. split; [by intros ->|]. intros En. rewrite En. cbn [negb]. cbv zeta. destruct (probe_dropped s packet len).
  { cbn [fst snd]. split; [split; [done|by intros [[? _] _]]|]. split; [done|]. split; [done|]. split; [by intros [[? _] _]|]. done. }
  destruct (shape now packet len (hosts_ (fw w))) as [[pass anomaly] hs]. cbn [fst snd].
  set (w1 := match anomaly with Some reason => report reason (set_fw (set_hosts hs (fw w)) w) | None => set_fw (set_hosts hs (fw w)) w end).
  assert (E1 : fw w1 = set_hosts hs (fw w)) by (unfold w1; destruct anomaly; [apply report_fw|done]). clearbody w1. rewrite !E1. cbn [rule_table_ connections_ set_hosts].
  destruct pass; cbn [negb].
  2: { cbn [fst snd]. rewrite E1. split; [split; [done|by intros [[_ ?] _]]|]. split; [done|]. split; [done|]. split; [by intros [[_ ?] _]|]. done. }
  pose proof (match_rules_spec packet len interface (rule_table_ (fw w))) as Hm. destruct (decide (match_rules packet len interface (rule_table_ (fw w)) = ACCEPT)) as [Ea|Hna].
  - rewrite (bool_decide_eq_true_2 _ Ea). apply Hm in Ea. cbn [negb]. destruct (process_tcp_packet now packet len (connections_ (fw w))) as [ok cs]. cbn [fst snd].
    destruct ok; cbn [negb fst snd fw set_fw log_drop print]; (split; [tauto|]; split; [done|]; split; [done|]; split; [done|]; split; [tauto|done]).
  - rewrite (bool_decide_eq_false_2 _ Hna). cbn [negb fst snd fw log_drop print]. rewrite E1. assert (Hno : ~ rules_allow packet len interface (rule_table_ (fw w))) by tauto.
    split; [split; [done|tauto]|]. split; [done|]. split; [done|]. split; [tauto|]. done.
Qed.

(** * Reading the packet *)

(** Two buffers with the same first [len] bytes. *)
Definition agree (len : Z) (p q : list Z) : Prop := forall i, i < len -> char_at p i = char_at q i.

Section Agree.
Context (len : Z) (p q : list Z) (H : agree len p q).

Lemma be16_agree i : i + 1 < len -> be16 p i = be16 q i.
Proof. intros Hi. unfold be16. rewrite !H by lia. done. Qed.

Lemma be32_agree i : i + 3 < len -> be32 p i = be32 q i.
Proof. intros Hi. unfold be32. rewrite !H by lia. done. Qed.

Lemma eth_type_agree : 14 <= len -> eth_type p = eth_type q.
Proof. intros Hl. apply be16_agree. lia. Qed.

Lemma ip_agree : 34 <= len -> pkt_protocol p = pkt_protocol q /\ pkt_ihl p = pkt_ihl q /\ pkt_src_ip p = pkt_src_ip q /\ pkt_dst_ip p = pkt_dst_ip q.
Proof. intros Hl. unfold pkt_protocol, pkt_ihl. rewrite !H by lia. split; [done|]. split; [done|]. split; apply be32_agree; lia. Qed.

Lemma probe_dropped_agree s : probe_dropped s p len = probe_dropped s q len.
Proof.
  unfold probe_dropped. destruct (Z.leb_spec 34 len) as [Hl|]; cbn [andb]; [|done]. rewrite eth_type_agree by lia. destruct (ip_agree Hl) as (-> & -> & _ & _).
  destruct (_ =? 2048); [|done]. set (l4 := 14 + pkt_ihl q * 4). destruct (_ && _); [|done]. destruct (Z.leb_spec (l4 + 1) len), (Z.leb_spec (l4 + 4) len); try lia;
    rewrite ?(H l4), ?(be16_agree (l4 + 2)) by lia; rewrite ?andb_false_r; done.
Qed.

Lemma parse_header_agree : parse_header p len = parse_header q len.
Proof.
  unfold parse_header. destruct (Z.ltb_spec len 14); [done|]. rewrite eth_type_agree by lia. destruct (negb _); [done|]. destruct (Z.ltb_spec len 34) as [|Hl]; [done|].
  destruct (ip_agree Hl) as (-> & -> & -> & ->). destruct (_ <? 5); [done|]. destruct (_ <? _); [done|]. set (l4 := 14 + pkt_ihl q * 4). do 2 f_equal.
  - destruct (Z.leb_spec (l4 + 4) len); [by rewrite be16_agree by lia|by rewrite andb_false_r].
  - destruct (Z.leb_spec (l4 + 4) len); [by rewrite be16_agree by lia|by rewrite andb_false_r].
  - destruct (Z.leb_spec (l4 + 14) len); [by rewrite H by lia|by rewrite andb_false_r].
Qed.

Lemma parse_segment_agree : parse_segment p len = parse_segment q len.
Proof.
  unfold parse_segment. destruct (Z.ltb_spec len 34) as [|Hl]; [done|]. rewrite eth_type_agree by lia. destruct (ip_agree Hl) as (-> & -> & -> & ->).
  destruct (negb _); [done|]. destruct (negb _); [done|]. destruct (_ <? 5); [done|]. cbv zeta. destruct (Z.ltb_spec len (14 + pkt_ihl q * 4 + 14)); [done|].
  rewrite !be16_agree, !H by lia. done.
Qed.

Lemma judge_agree : 34 <= len -> judge p len = judge q len.
Proof.
  intros Hl. unfold judge. destruct (ip_agree Hl) as (-> & -> & _ & _). destruct (_ =? 1); [done|]. destruct (_ =? 6); [|done]. destruct (_ <? 5); [done|]. cbv zeta.
  destruct (Z.leb_spec (14 + pkt_ihl q * 4 + 14) len); [|done]. rewrite be16_agree, H by lia. done.
Qed.

Lemma shape_agree now hs : shape now p len hs = shape now q len hs.
Proof.
  unfold shape. destruct (Z.ltb_spec len 34) as [|Hl]; [done|]. rewrite eth_type_agree by lia. destruct (ip_agree Hl) as (_ & _ & -> & _). by rewrite judge_agree.
Qed.
End Agree.

(** C39: The firewall never looks behind the packet: verdict, counters, connections and
    messages are the same for any two buffers that agree on the first [len] bytes,
    whatever length is claimed. *)
Theorem firewall_reads_in_bounds len p q s now interface w :
  agree len p q -> process_packet s now p len interface w = process_packet s now q len interface w.
Proof.
  intros H. unfold process_packet, process_tcp_packet, match_rules.
  by rewrite (probe_dropped_agree len p q H), (shape_agree len p q H), (parse_header_agree len p q H), (parse_segment_agree len p q H).
Qed.

Definition fresh_world : FwWorld := mkFwWorld firewall_ctor monitor_ctor [].

Lemma firewall_reads_in_bounds_witness :
  (process_packet stealth_ctor 5 (tcp_packet 1 2 9 80 16) 50 (str "en0") fresh_world).1 =
  (process_packet stealth_ctor 5 (tcp_packet 1 2 9 80 16 ++ [1; 2; 3]) 50 (str "en0") fresh_world).1.
Proof.
  rewrite (firewall_reads_in_bounds 50 (tcp_packet 1 2 9 80 16) (tcp_packet 1 2 9 80 16 ++ [1; 2; 3]) stealth_ctor 5 (str "en0") fresh_world); [reflexivity|].
  intros i Hi. unfold char_at. destruct (0 <=? i); [|reflexivity]. rewrite app_nth1; [reflexivity|]. change (length (tcp_packet 1 2 9 80 16)) with 50%nat. lia.
Defined.

(** ** The service *)

(** A request that comes through the client: the answer is the firewall's verdict on the
    packet, and packets longer than an Ethernet payload are refused. *)
Theorem client_gets_verdict s now ep gep packet len interface w :
  0 <= ep -> 0 <= len <= Z.of_nat (length packet) ->
  let call := fun _ req w => serve s now 1 req w in
  client_process_packet ep gep call packet len interface w =
    if 1500 <? len then (false, ep, w)
    else let (pass, w') := process_packet s now packet len (copy_name interface) w in (pass, ep, w').
Proof.
  intros He Hl. cbv zeta. unfold client_process_packet. destruct (Z.ltb_spec ep 0); [lia|]. destruct (Z.ltb_spec ep 0); [lia|]. destruct (Z.ltb_spec 1500 len); [done|].
  unfold serve. cbn [Z.eqb Pos.eqb]. destruct (Z.leb_spec 0 len), (Z.leb_spec len 1500); try lia. cbn [andb].
  assert (E : process_packet s now (take (Z.to_nat len) packet) len (copy_name interface) w = process_packet s now packet len (copy_name interface) w).
  { unfold process_packet, process_tcp_packet, match_rules. assert (Ha : agree len (take (Z.to_nat len) packet) packet).
    { intros i Hi. unfold char_at. destruct (Z.leb_spec 0 i); [|done]. rewrite !nth_lookup. by rewrite lookup_take_lt by lia. }
    by rewrite (probe_dropped_agree _ _ _ Ha), (shape_agree _ _ _ Ha), (parse_header_agree _ _ _ Ha), (parse_segment_agree _ _ _ Ha). }
  rewrite E. by destruct (process_packet s now packet len (copy_name interface) w) as [[|] w'].
Qed.

(** * Commands *)

Lemma fw_add_rule_spec rule rs :
  match fw_add_rule rule rs with
  | (true, rs') => exists i r, rs !! i = Some r /\ fw_enabled r = false /\ (forall j x, (j < i)%nat -> rs !! j = Some x -> fw_enabled x = true) /\
      rs' = <[i := set_fw_enabled true rule]> rs
  | (false, rs') => rs' = rs /\ Forall (fun r => fw_enabled r = true) rs
  end.
Proof.
  induction rs as [|r rs IH]; cbn [fw_add_rule]; [done|]. destruct (fw_enabled r) eqn:E; cbn [negb].
  - destruct (fw_add_rule rule rs) as [[|] rs'].
    + destruct IH as (i & x & H1 & H2 & H3 & ->). exists (S i), x. split; [done|]. split; [done|]. split; [|done]. intros [|j] y Hj Hy; [cbn in Hy; congruence|].
      apply (H3 j); [lia|done].
    + destruct IH as [-> IH]. split; [done|]. by constructor.
  - exists 0%nat, r. split; [done|]. split; [done|]. split; [intros j x Hj; lia|done].
Qed.

Lemma has_predicate_enabled b r : has_predicate (set_fw_enabled b r) = has_predicate r.
Proof. done. Qed.

(** What a command may do to the rules. *)
Definition rules_step (rs rs' : RuleTable) : Prop :=
  rs' = rs \/
  (exists i r0 r, rs !! i = Some r0 /\ fw_enabled r0 = false /\ has_predicate r = true /\ rs' = <[i := set_fw_enabled true r]> rs) \/
  (exists i, 0 <= i < MAX_RULES /\ rs' = zalter (set_fw_enabled false) i rs).

Lemma cmd_add_step args w : rules_step (rule_table_ (fw w)) (rule_table_ (fw (cmd_add args w))).
Proof.
  unfold cmd_add. destruct (has_predicate (parse_rule (drop 4 args))) eqn:Ep; cbn [negb]; [|by left].
  pose proof (fw_add_rule_spec (parse_rule (drop 4 args)) (rule_table_ (fw w))) as Hs. destruct (fw_add_rule _ _) as [[|] rs']; cbn.
  - destruct Hs as (i & r0 & H1 & H2 & _ & ->). right. left. by exists i, r0, (parse_rule (drop 4 args)).
  - destruct Hs as [-> _]. by left.
Qed.

Lemma cmd_delete_step args w : rules_step (rule_table_ (fw w)) (rule_table_ (fw (cmd_delete args w))).
Proof.
  unfold cmd_delete, delete_rule. set (i := int_of _). destruct ((0 <=? i) && (i <? MAX_RULES)) eqn:E; cbn; [|by left].
  apply andb_true_iff in E as [E1%Z.leb_le E2%Z.ltb_lt]. right. right. by exists i.
Qed.

Lemma command_step cmd w : rules_step (rule_table_ (fw w)) (rule_table_ (fw (parse_command cmd w))).
Proof.
  unfold parse_command. destruct (negb _); [by left|]. destruct (starts _ "enable"); [by left|]. destruct (starts _ "disable"); [by left|].
  destruct (starts _ "list"); [by left|]. destruct (starts _ "delete "); [apply cmd_delete_step|]. destruct (starts _ "add "); [apply cmd_add_step|by left].
Qed.

Lemma rules_step_predicates rs rs' :
  rules_step rs rs' -> length rs = 16%nat /\ Forall (fun r => fw_enabled r = true -> has_predicate r = true) rs ->
  length rs' = 16%nat /\ Forall (fun r => fw_enabled r = true -> has_predicate r = true) rs'.
Proof.
  intros [->|[(i & r0 & r & _ & _ & Hp & ->)|(i & _ & ->)]] [Hl Hf]; [done|split; [etrans; [apply length_insert|done]|by apply Forall_insert]|split; [by rewrite length_zalter|]].
  unfold zalter. destruct (0 <=? i); [|done]. by apply Forall_alter.
Qed.

(** Whatever is typed, the firewall never gets a rule that matches every packet: after
    any sequence of commands every enabled rule has at least one of the address, port
    and protocol predicates, and the table keeps its 16 entries. *)
Theorem commands_keep_predicates cmds :
  let w := foldl (fun w cmd => parse_command cmd w) fresh_world cmds in
  length (rule_table_ (fw w)) = 16%nat /\
  forall i r, rule_table_ (fw w) !! i = Some r -> fw_enabled r = true -> has_predicate r = true.
Proof.
  cbv zeta. assert (H : forall w, length (rule_table_ (fw w)) = 16%nat /\ Forall (fun r => fw_enabled r = true -> has_predicate r = true) (rule_table_ (fw w)) ->
    let w' := foldl (fun w cmd => parse_command cmd w) w cmds in
    length (rule_table_ (fw w')) = 16%nat /\ Forall (fun r => fw_enabled r = true -> has_predicate r = true) (rule_table_ (fw w'))).
  { induction cmds as [|cmd cmds IH]; intros w Hw; cbn [foldl]; [done|]. apply IH. eapply rules_step_predicates; [apply command_step|done]. }
  destruct (H fresh_world) as [H1 H2]; [split; [done|]; apply Forall_replicate; done|]. split; [done|]. intros i r Hi. rewrite Forall_lookup in H2. by apply (H2 i).
Qed.

(** ** A command and its rule *)

Lemma cstr_app s t : Forall (fun c => c <> 0) s -> cstr (s ++ t) = s ++ cstr t.
Proof. induction 1 as [|c s Hc _ IH]; cbn; [done|]. destruct (Z.eqb_spec c 0); [done|]. by rewrite IH. Qed.

Lemma numeral_nonzero s : Forall numeral s -> Forall (fun c => c <> 0) s.
Proof. intros H. eapply Forall_impl; [exact H|]. unfold numeral. lia. Qed.

Lemma nonzero_dec s : forallb (fun c => negb (c =? 0)) s = true -> Forall (fun c => c <> 0) s.
Proof. rewrite forallb_forall. intros H. apply Forall_forall. intros c Hc%list_elem_of_In. specialize (H c Hc). by destruct (Z.eqb_spec c 0). Qed.

(** The rule of such a command. *)
Definition rule_for (si sp : bool) (act : FwAction) (ip port : Z) : FwRule :=
  mkFwRule false si (if si then ip else 0) (negb si) (if si then 0 else ip) sp (if sp then port else 0) (negb sp) (if sp then 0 else port)
    false 0 false 0 0 false (replicate 8 0) act.

Lemma count_dots_tail sp act port : Forall is_digit port -> count_dots (str " " ++ port_key sp ++ port ++ action_word act) = 0.
Proof.
  intros Hp. unfold count_dots. rewrite !List.filter_app, !length_app.
  assert (E : List.filter (fun c => c =? 46) port = []).
  { clear - Hp. induction Hp as [|c l [H1 H2] _ IH]; [done|]. cbn. by destruct (Z.eqb_spec c 46); [lia|]. }
  rewrite E. by destruct sp, act.
Qed.

Lemma parse_rule_text si sp act ip port :
  is_u32 ip -> 0 <= port < 65536 -> parse_rule (rule_text si sp act (dotted ip) (decimal port)) = rule_for si sp act ip port.
Proof.
  intros Hip Hport. pose proof (numeral_dotted ip) as Ha. assert (Hdp : Forall is_digit (decimal port)) by (apply decimal_digits; lia).
  destruct (rule_text_keys si sp act (dotted ip) (decimal port) Ha (numeral_digits _ Hdp)) as (K1 & K2 & K3 & K4 & K5 & K6 & K7 & K8 & K9).
  unfold parse_rule, keyed, parse_protocol, parse_action. rewrite K1, K2, K3, K4, K5, K6, K7, K8, K9. unfold rule_for.
  assert (E1 : parse_ip (drop (length (ip_key si)) (rule_text si sp act (dotted ip) (decimal port))) = ip).
  { unfold rule_text. rewrite drop_app_length. apply parse_ip_dotted; [done|by left|]. by apply count_dots_tail. }
  assert (E2 : parse_uint (drop (length (port_key sp)) (port_key sp ++ decimal port ++ action_word act)) mod 65536 = port).
  { rewrite drop_app_length, parse_uint_decimal; [by apply Z.mod_small|unfold is_u32; lia|by destruct act; left]. }
  unfold ip_key, port_key in *. destruct si, sp; cbn [given value_or_0 negb]; rewrite E1, E2; by destruct act.
Qed.

Lemma starts_add rest : starts (str "fw add " ++ rest) "fw " = true /\ starts (str "add " ++ rest) "enable" = false /\
  starts (str "add " ++ rest) "disable" = false /\ starts (str "add " ++ rest) "list" = false /\ starts (str "add " ++ rest) "delete " = false /\
  starts (str "add " ++ rest) "add " = true.
Proof. repeat split; reflexivity. Qed.

(** A command after its first word. *)
Lemma parse_add rest w : Forall (fun c => c <> 0) rest -> parse_command (str "fw add " ++ rest) w = cmd_add (str "add " ++ rest) w.
Proof.
  intros Hr. unfold parse_command. rewrite cstr_app by (by apply nonzero_dec). rewrite str_cstr_of by done.
  destruct (starts_add rest) as (S1 & S2 & S3 & S4 & S5 & S6). rewrite S1. cbn [negb].
  change (drop 3 (str "fw add " ++ ?x)) with (str "add " ++ x). by rewrite S2, S3, S4, S5, S6.
Qed.

Lemma parse_delete rest w : Forall (fun c => c <> 0) rest -> parse_command (str "fw delete " ++ rest) w = cmd_delete (str "delete " ++ rest) w.
Proof. intros Hr. unfold parse_command. rewrite cstr_app by (by apply nonzero_dec). by rewrite str_cstr_of. Qed.

Lemma same_rules w : set_rules_of (rule_table_ (fw w)) w = w.
Proof. by destruct w as [[] ? ?]. Qed.

(** C40: Commands that cannot be carried out change nothing but the console: text that is
    not a firewall command, an unknown word behind "fw ", an added rule without a predicate,
    an added rule for a full table, and the deletion of a rule whose number, in decimal
    and below 2^32, lies outside the table, each with its message.  A larger or negative
    number is misread instead: [delete_number_wraps]. *)
Theorem bad_commands_refused w :
  (forall cmd, starts (cstr cmd) "fw " = false -> parse_command cmd w = w) /\
  (forall cmd, starts (cstr cmd) "fw " = true ->
   Forall (fun word => starts (drop 3 (cstr cmd)) word = false) ["enable"; "disable"; "list"; "delete "; "add "]%string ->
   parse_command cmd w = print_text (str "Unknown fw command." ++ crlf) w) /\
  (forall rest, Forall (fun c => c <> 0) rest -> has_predicate (parse_rule rest) = false ->
   parse_command (str "fw add " ++ rest) w = print_text no_predicate_error w) /\
  (forall rest, Forall (fun c => c <> 0) rest -> has_predicate (parse_rule rest) = true ->
   Forall (fun r => fw_enabled r = true) (rule_table_ (fw w)) ->
   parse_command (str "fw add " ++ rest) w = print_text (str "Rule table full." ++ crlf) w) /\
  (forall n, MAX_RULES <= n < 4294967296 ->
   parse_command (str "fw delete " ++ decimal n) w = print_text (str "Failed to delete rule." ++ crlf) w).
Proof.
  split; [|split; [|split; [|split]]].
  - intros cmd H. unfold parse_command. by rewrite H.
  - intros cmd H Hw. unfold parse_command. rewrite H. cbn [negb]. rewrite !Forall_cons in Hw. by destruct Hw as (-> & -> & -> & -> & -> & _).
  - intros rest Hr H. rewrite parse_add by done. unfold cmd_add. change (drop 4 (str "add " ++ rest)) with rest. by rewrite H.
  - intros rest Hr Hp Hall. rewrite parse_add by done. unfold cmd_add. change (drop 4 (str "add " ++ rest)) with rest. rewrite Hp. cbn [negb].
    pose proof (fw_add_rule_spec (parse_rule rest) (rule_table_ (fw w))) as Hs. destruct (fw_add_rule _ _) as [[|] rs'].
    + destruct Hs as (i & r & Hi & Hd & _). rewrite Forall_lookup in Hall. rewrite (Hall i r Hi) in Hd. done.
    + destruct Hs as [-> _]. by rewrite same_rules.
  - unfold MAX_RULES. intros n Hn. rewrite parse_delete by (apply numeral_nonzero, numeral_digits, decimal_digits; lia).
    unfold cmd_delete, delete_rule, MAX_RULES. change (drop 7 (str "delete " ++ decimal n)) with (decimal n).
    assert (Ev : parse_uint (decimal n) = n) by (rewrite <- (app_nil_r (decimal n)); apply parse_uint_decimal; [unfold is_u32; lia|done]).
    rewrite Ev. unfold int_of.
    assert (Hr : (0 <=? (n + 2147483648) mod 4294967296 - 2147483648) && ((n + 2147483648) mod 4294967296 - 2147483648 <? 16) = false).
    { apply andb_false_iff. destruct (Z.lt_ge_cases n 2147483648).
      - right. apply Z.ltb_ge. rewrite Z.mod_small by lia. lia.
      - left. apply Z.leb_gt. replace (n + 2147483648) with (n - 2147483648 + 1 * 4294967296) by lia. rewrite Z.mod_add, Z.mod_small by lia. lia. }
    rewrite Hr. by rewrite same_rules.
Qed.

(** A number is read modulo 2^32 and a sign ends it: "fw delete 4294967296" and
    "fw delete -1" disable rule 0. *)
Theorem delete_number_wraps :
  let w := parse_command (str "fw add dst_port 80 action DROP") fresh_world in
  fw_enabled (zlookup (rule_table_ (fw w)) 0) = true /\
  fw_enabled (zlookup (rule_table_ (fw (parse_command (str "fw delete 4294967296") w))) 0) = false /\
  fw_enabled (zlookup (rule_table_ (fw (parse_command (str "fw delete -1") w))) 0) = false.
Proof. by vm_compute. Qed.

(** C32: A command reads back what the firewall prints: "fw add K A L P action W" with one
    address and one port, for K src_ip or dst_ip, L src_port or dst_port, W ACCEPT, DROP
    or REJECT, any address A in dotted decimal and any port P, puts into the first
    disabled entry an enabled rule with exactly that address, port and action and no
    other condition.  With two addresses the first is misread: [two_addresses_misparsed]. *)
Theorem fw_add_roundtrip si sp act ip port w i r0 :
  is_u32 ip -> 0 <= port < 65536 ->
  rule_table_ (fw w) !! i = Some r0 -> fw_enabled r0 = false ->
  (forall j x, (j < i)%nat -> rule_table_ (fw w) !! j = Some x -> fw_enabled x = true) ->
  parse_command (str "fw add " ++ rule_text si sp act (dotted ip) (decimal port)) w =
  print_text (str "Rule added." ++ crlf) (set_rules_of (<[i := set_fw_enabled true (rule_for si sp act ip port)]> (rule_table_ (fw w))) w).
Proof.
  intros Hip Hport Hi Hd Hj. pose proof (numeral_dotted ip) as Ha. assert (Hdp : Forall is_digit (decimal port)) by (apply decimal_digits; lia).
  rewrite parse_add by (unfold rule_text; rewrite !Forall_app; split_and!; first
    [by apply numeral_nonzero|by apply numeral_nonzero, numeral_digits|destruct si, sp, act; by apply nonzero_dec]).
  unfold cmd_add. change (drop 4 (str "add " ++ ?x)) with x. rewrite parse_rule_text by done.
  assert (has_predicate (rule_for si sp act ip port) = true) as -> by (by destruct si). cbn [negb].
  pose proof (fw_add_rule_spec (rule_for si sp act ip port) (rule_table_ (fw w))) as Hs. destruct (fw_add_rule _ _) as [[|] rs'].
  - destruct Hs as (i' & x & H1 & H2 & H3 & ->). assert (i' = i) as ->; [|done]. destruct (Nat.lt_trichotomy i' i) as [Hlt|[->|Hgt]]; [|done|].
    + rewrite (Hj i' x Hlt H1) in H2. done.
    + rewrite (H3 i r0 Hgt Hi) in Hd. done.
  - destruct Hs as [_ Hall]. rewrite Forall_lookup in Hall. rewrite (Hall i r0 Hi) in Hd. done.
Qed.

Lemma fw_add_roundtrip_witness :
  zlookup (rule_table_ (fw (parse_command (str "fw add " ++ rule_text true false DROP (dotted 3232235777) (decimal 80)) fresh_world))) 0 =
  set_fw_enabled true (rule_for true false DROP 3232235777 80).
Proof.
  rewrite (fw_add_roundtrip true false DROP 3232235777 80 fresh_world 0 default_rule); [reflexivity|unfold is_u32; lia|lia|reflexivity|reflexivity|].
  intros j x Hj. lia.
Defined.

(** ** What the code also does *)

(** The dots are counted to the end of the command: with two dotted addresses the first
    one is taken for a plain number and becomes its first octet. *)
Theorem two_addresses_misparsed :
  r_src_ip (parse_rule (str "src_ip 192.168.1.1 dst_ip 10.0.0.1 action DROP")) = 192 /\
  r_dst_ip (parse_rule (str "src_ip 192.168.1.1 dst_ip 10.0.0.1 action DROP")) = 167772161.
Proof. by vm_compute. Qed.

(** A deletion without a number deletes rule 0, and a number too large for an octet is
    reduced instead of refused. *)
Theorem malformed_numbers_accepted :
  int_of (parse_uint (str "all")) = 0 /\ parse_ip (str "192.168.1.257") = parse_ip (str "192.168.1.1").
Proof. by vm_compute. Qed.

(** ** Stealth *)

(** In ghost mode echo requests and service discovery never reach the later stages; no
    other preset drops a probe. *)
Theorem ghost_drops_probes p ip_proto dport icmp_type :
  should_drop_inbound_probe ip_proto dport icmp_type (set_active_preset p stealth_ctor) = true <->
  p = SILENT_GHOST /\ (ip_proto = 1 /\ icmp_type = 8 \/ ip_proto = 17 /\ In dport [5353; 1900; 5355; 137]).
Proof.
  unfold should_drop_inbound_probe. destruct p; cbn; rewrite ?andb_false_r, ?andb_true_r; cbn; try (split; [done|by intros [? _]]).
  destruct (Z.eqb_spec ip_proto 1), (Z.eqb_spec icmp_type 8), (Z.eqb_spec ip_proto 17); cbn [andb];
    rewrite ?orb_true_iff, ?Z.eqb_eq; intuition (congruence || lia).
Qed.

(** The spoofed address keeps the vendor's prefix and consists of bytes; the two bits
    that are cleared are those of the fourth byte, so the unicast and administration
    bits of the first are the vendor's. *)
Theorem mac_keeps_prefix o c0 c1 p0 p1 p2 :
  oui_prefix o = (p0, p1, p2) ->
  exists b3 b4 b5, apply_mac_oui o c0 c1 = [p0; p1; p2; b3; b4; b5] /\ 0 <= b3 < 256 /\ b3 mod 4 = 0 /\ 0 <= b4 < 256 /\ 0 <= b5 < 256.
Proof.
  intros Ho. unfold apply_mac_oui. rewrite Ho. set (e := entropy_of c0 c1). eexists _, _, _. split; [done|]. change 255 with (Z.ones 8). rewrite !Z.land_ones by lia.
  assert (E : Z.land (e mod 2 ^ 8) 252 = e mod 2 ^ 8 - e mod 4).
  { pose proof (Z.mod_pos_bound e (2 ^ 8) ltac:(lia)) as Hb. set (v := e mod 2 ^ 8) in *. replace (e mod 4) with (v mod 4) by (unfold v; Z.to_euclidean_division_equations; lia).
    assert (Hv : exists n, (n < 256)%nat /\ v = Z.of_nat n) by (exists (Z.to_nat v); lia). destruct Hv as (n & Hn & ->). clear - Hn. do 256 (destruct n as [|n]; [reflexivity|]). lia. }
  rewrite E. Z.to_euclidean_division_equations. lia.
Qed.
