(* ===== verification/VfsClaims.v ===== *)
(** Theorems on the virtual file system (services/vfs, vfs): path resolution, refusal of
    traversal, descriptors, and files read back as written. *)
From S2P Require Import Prelude Text RamFs Vfs.
From stdpp Require Import strings.
#[local] Open Scope Z_scope.

(** * Paths *)

(** A component ".." somewhere in the path. *)
Definition has_dotdot (s : list Z) : Prop :=
  exists pre post, s = pre ++ [46; 46] ++ post /\ (pre = [] \/ last pre = Some 47) /\ (post = [] \/ head post = Some 47).

Lemma char_at_lookup s i c : (i < length s)%nat -> char_at s (Z.of_nat i) = c <-> s !! i = Some c.
Proof.
  intros Hi. unfold char_at. destruct (Z.leb_spec 0 (Z.of_nat i)); [|lia]. rewrite Nat2Z.id, nth_lookup. destruct (lookup_lt_is_Some_2 s i Hi) as [x ->]. cbn. naive_solver.
Qed.

Lemma char_at_end s i : (length s <= i)%nat -> char_at s (Z.of_nat i) = 0.
Proof. intros Hi. unfold char_at. destruct (Z.leb_spec 0 (Z.of_nat i)); [|lia]. rewrite Nat2Z.id. by apply nth_overflow. Qed.

Lemma dotdot_at_spec s i :
  Forall (fun c => c <> 0) s -> (i < length s)%nat ->
  dotdot_at s (Z.of_nat i) = true <->
  exists post, drop i s = [46; 46] ++ post /\ (i = 0%nat \/ s !! (i - 1)%nat = Some 47) /\ (post = [] \/ head post = Some 47).
Proof.
  intros Hnz Hi. unfold dotdot_at. rewrite !andb_true_iff, !orb_true_iff, !Z.eqb_eq.
  replace (Z.of_nat i + 1) with (Z.of_nat (i + 1)) by lia. replace (Z.of_nat i + 2) with (Z.of_nat (i + 2)) by lia.
  assert (Hpre : (Z.of_nat i = 0 \/ char_at s (Z.of_nat i - 1) = 47) <-> (i = 0%nat \/ s !! (i - 1)%nat = Some 47)).
  { destruct i as [|i]; [split; by left|]. replace (Z.of_nat (S i) - 1) with (Z.of_nat i) by lia. rewrite char_at_lookup by lia. cbn. rewrite Nat.sub_0_r. split; intros [?|?]; (lia || by right). }
  rewrite Hpre. clear Hpre. rewrite (char_at_lookup s i 46 Hi). split.
  - intros [[[H0 H1] H2] H3]. assert (Hl1 : (i + 1 < length s)%nat) by (destruct (decide (i + 1 < length s)%nat); [done|]; rewrite char_at_end in H1 by lia; done).
    rewrite char_at_lookup in H1 by done. rewrite (drop_S _ _ _ H0), <- Nat.add_1_r, (drop_S _ _ _ H1). exists (drop (S (i + 1)) s). split; [done|]. split; [done|].
    replace (S (i + 1)) with (i + 2)%nat by lia. destruct (decide (i + 2 < length s)%nat) as [Hl|Hl]; [|left; apply drop_ge; lia]. right.
    rewrite !char_at_lookup in H2 by done. destruct H2 as [H2|H2]; [by rewrite (drop_S _ _ _ H2)|]. rewrite Forall_lookup in Hnz. by apply Hnz in H2.
  - intros (post & Hd & H3 & Hp). assert (Hlk : forall j, s !! (i + j)%nat = ([46; 46] ++ post) !! j) by (intros j; by rewrite <- Hd, lookup_drop).
    assert (Hl : length s = (i + 2 + length post)%nat) by (apply (f_equal length) in Hd; rewrite length_drop, length_app in Hd; cbn in Hd; lia).
    split; [|done]. split; [split|]; [by rewrite <- (Nat.add_0_r i), Hlk|apply char_at_lookup; [lia|by rewrite Hlk]|].
    destruct post as [|x post]; [right; apply char_at_end; cbn in Hl; lia|]. left. apply char_at_lookup; [cbn in Hl; lia|]. rewrite Hlk. destruct Hp as [|Hp]; [done|exact Hp].
Qed.

Lemma has_traversal_spec path : has_traversal path = true <-> has_dotdot (cstr path).
Proof.
  pose proof (cstr_nonzeros path) as Hnz. unfold has_traversal. set (s := cstr path) in *. rewrite existsb_exists. split.
  - intros (i & Hi%list_elem_of_In%elem_of_seqZ & Hd). replace i with (Z.of_nat (Z.to_nat i)) in Hd by lia. apply dotdot_at_spec in Hd as (post & Ed & H1 & H2); [|done|lia].
    exists (take (Z.to_nat i) s), post. split; [by rewrite <- Ed, take_drop|]. split; [|done]. destruct H1 as [->|H1]; [left; by rewrite take_0|].
    destruct (Z.to_nat i) as [|n] eqn:En; [by left|]. right. cbn in H1. rewrite Nat.sub_0_r in H1. rewrite (take_S_r _ _ _ H1). apply last_snoc.
  - intros (pre & post & E & H1 & H2). exists (Z.of_nat (length pre)). assert (Hl : (length pre < length s)%nat) by (rewrite E, !length_app; cbn; lia).
    split; [apply list_elem_of_In, elem_of_seqZ; lia|]. apply dotdot_at_spec; [done|done|]. exists post. split; [by rewrite E, drop_app_length|]. split; [|done].
    destruct H1 as [->|H1]; [by left|]. right. rewrite E, lookup_app_l; [|destruct pre; [done|cbn; lia]]. rewrite last_lookup in H1. by replace (length pre - 1)%nat with (pred (length pre)) by lia.
Qed.

(** * Mounts *)

(** The mount covers the path: its path is a non-empty prefix that ends at a slash or at
    the end. *)
Definition covers (m : MountPoint) (path : list Z) : Prop :=
  exists rest, cstr path = cstr (mnt_path m) ++ rest /\ cstr (mnt_path m) <> [] /\
    (rest = [] \/ head rest = Some 47 \/ last (cstr (mnt_path m)) = Some 47).

Lemma prefix_length_spec p s len : 0 <= len ->
  (exists rest, s = p ++ rest /\ match_prefix p s len = len + Z.of_nat (length p)) \/
  ((forall rest, s <> p ++ rest) /\ match_prefix p s len = 0).
Proof.
  revert s len. induction p as [|x p IH]; intros s len Hl; cbn [match_prefix]; [left; exists s; split; [done|cbn; lia]|].
  destruct s as [|c s]; [by right|]. destruct (Z.eqb_spec x c) as [->|Hne]; [|right; split; [intros rest; cbn; congruence|done]].
  destruct (IH s (len + 1) ltac:(lia)) as [(rest & -> & ->)|[Hn ->]]; [left; exists rest; split; [done|cbn; lia]|].
  right. split; [|done]. intros rest. cbn. intros [= E]. by apply (Hn rest).
Qed.

(** What the search accepts. *)
Lemma better_mount_cond m path :
  let n := starts_with (mnt_path m) path in
  ((0 <? n) && ((char_at (cstr path) n =? 0) || (char_at (cstr path) n =? 47) || (char_at (cstr (mnt_path m)) (n - 1) =? 47)) = true <-> covers m path) /\
  (covers m path -> n = Z.of_nat (length (cstr (mnt_path m)))).
Proof.
  cbv zeta. unfold starts_with. destruct (prefix_length_spec (cstr (mnt_path m)) (cstr path) 0 ltac:(lia)) as [(rest & E & ->)|[Hn ->]].
  - rewrite Z.add_0_l. split; [|done]. set (p := cstr (mnt_path m)) in *. rewrite andb_true_iff, !orb_true_iff, Z.ltb_lt, !Z.eqb_eq. unfold covers. fold p. split.
    + intros [Hpos Hb]. exists rest. split; [done|]. split; [intros Ep; rewrite Ep in Hpos; cbn in Hpos; lia|]. destruct Hb as [[H|H]|H].
      * left. destruct rest as [|c rest]; [done|]. apply char_at_lookup in H; [|rewrite E, length_app; cbn; lia]. pose proof (cstr_nonzeros path) as Hnz. rewrite Forall_lookup in Hnz. by apply Hnz in H.
      * right. left. destruct rest as [|c rest]; [rewrite char_at_end in H by (rewrite E, app_nil_r; done); done|].
        apply char_at_lookup in H; [|rewrite E, length_app; cbn; lia]. rewrite E, lookup_app_r, Nat.sub_diag in H by done. exact H.
      * right. right. replace (Z.of_nat (length p) - 1) with (Z.of_nat (pred (length p))) in H by lia. apply char_at_lookup in H; [|lia]. by rewrite last_lookup.
    + intros (rest' & E' & Hne & Hb). assert (rest' = rest) as -> by (apply (app_inv_head p); congruence). assert (Hpos : (0 < length p)%nat) by (destruct p; [done|cbn; lia]).
      split; [lia|]. destruct Hb as [->|[Hh|Hlast]].
      * left. left. apply char_at_end. by rewrite E, app_nil_r.
      * left. right. destruct rest as [|c rest]; [done|]. apply char_at_lookup; [rewrite E, length_app; cbn; lia|]. by rewrite E, lookup_app_r, Nat.sub_diag.
      * right. replace (Z.of_nat (length p) - 1) with (Z.of_nat (pred (length p))) by lia. apply char_at_lookup; [lia|]. by rewrite last_lookup in Hlast.
  - split; [|intros (rest & E & _); by apply Hn in E]. split; [done|]. intros (rest & E & _). by apply Hn in E.
Qed.

#[local] Instance covers_dec m path : Decision (covers m path).
Proof. destruct (better_mount_cond m path) as [Hc _]. cbv zeta in Hc. destruct (_ && _) in Hc; [left; by apply Hc|right; intros H; by apply Hc in H]. Defined.

(** The result of the search over the mounts: the longest one that covers the path. *)
Definition best_mount (path : list Z) (ms : list MountPoint) (r : Z * option Z) : Prop :=
  match r with
  | (n, Some vnode) => exists m, m ∈ ms /\ covers m path /\ mnt_vnode m = vnode /\ n = Z.of_nat (length (cstr (mnt_path m))) /\
      forall m', m' ∈ ms -> covers m' path -> (length (cstr (mnt_path m')) <= length (cstr (mnt_path m)))%nat
  | (n, None) => n = 0 /\ forall m, m ∈ ms -> ~ covers m path
  end.

Lemma better_mount_best path ms m r : best_mount path ms r -> best_mount path (ms ++ [m]) (better_mount path r m).
Proof.
  intros Hr. destruct (better_mount_cond m path) as [Hc Hn]. cbv zeta in Hc, Hn. unfold better_mount. set (n := starts_with (mnt_path m) path) in *.
  destruct (decide (covers m path)) as [Hcov|Hncov].
  - specialize (Hn Hcov). apply Hc in Hcov as Hb. apply andb_true_iff in Hb as [Hpos Hb]. rewrite Hb, andb_true_r. destruct r as [best [vnode|]]; cbn [fst].
    + destruct Hr as (m0 & Hin & Hc0 & Hv & E & Hmax). destruct (Z.ltb_spec best n).
      * exists m. split; [set_solver|]. split; [done|]. split; [done|]. split; [done|]. intros m' [Hm'|Hm']%elem_of_app Hcm'; [specialize (Hmax m' Hm' Hcm'); lia|].
        apply list_elem_of_singleton in Hm' as ->. done.
      * exists m0. split; [set_solver|]. split; [done|]. split; [done|]. split; [done|]. intros m' [Hm'|Hm']%elem_of_app Hcm'; [by apply Hmax|].
        apply list_elem_of_singleton in Hm' as ->. lia.
    + destruct Hr as [-> Hnone]. rewrite Hpos. exists m. split; [set_solver|]. split; [done|]. split; [done|]. split; [done|].
      intros m' [Hm'|Hm']%elem_of_app Hcm'; [by destruct (Hnone m' Hm')|]. apply list_elem_of_singleton in Hm' as ->. done.
  - assert (Hskip : (r.1 <? n) && ((char_at (cstr path) n =? 0) || (char_at (cstr path) n =? 47) || (char_at (cstr (mnt_path m)) (n - 1) =? 47)) = false).
    { apply not_true_is_false. intros [H1%Z.ltb_lt H2]%andb_true_iff. apply Hncov, Hc. rewrite H2, andb_true_r. apply Z.ltb_lt.
      destruct r as [best [vnode|]]; cbn in *; [destruct Hr as (m0 & _ & _ & _ & E & _); lia|destruct Hr; lia]. }
    rewrite Hskip. destruct r as [best [vnode|]].
    + destruct Hr as (m0 & Hin & Hc0 & Hv & E & Hmax). exists m0. split; [set_solver|]. split; [done|]. split; [done|]. split; [done|].
      intros m' [Hm'|Hm']%elem_of_app Hcm'; [by apply Hmax|]. apply list_elem_of_singleton in Hm' as ->. done.
    + destruct Hr as [-> Hnone]. split; [done|]. intros m' [Hm'|Hm']%elem_of_app; [by apply Hnone|]. apply list_elem_of_singleton in Hm' as ->. done.
Qed.

(** The mounts in use. *)
Definition mounted (v : VfsServer) : list MountPoint := take (Z.to_nat (mount_count_ v)) (mounts_ v).

Lemma find_mount_best path v : best_mount path (mounted v) (find_mount path v).
Proof.
  unfold find_mount. fold (mounted v). assert (H : forall ms' ms r, best_mount path ms r -> best_mount path (ms ++ ms') (foldl (better_mount path) r ms')).
  { induction ms' as [|m ms' IH]; intros ms r Hr; cbn [foldl]; [by rewrite app_nil_r|]. rewrite cons_middle, app_assoc. apply IH. by apply better_mount_best. }
  apply (H (mounted v) [] (0, None)). split; [done|]. intros m Hm. by apply not_elem_of_nil in Hm.
Qed.

(** * Opening *)

Definition table_ok (v : VfsServer) : Prop := length (fd_table_ v) = 16%nat.

Lemma first_free_spec t :
  match first_free_fd t with
  | Some fd => 0 <= fd < 16 /\ fd_used (zlookup t fd) = false /\ forall j, 0 <= j < fd -> fd_used (zlookup t j) = true
  | None => forall j, 0 <= j < 16 -> fd_used (zlookup t j) = true
  end.
Proof.
  unfold first_free_fd, MAX_OPEN_FILES. assert (H : forall n i, match List.find (fun j => negb (fd_used (zlookup t j))) (seqZ i (Z.of_nat n)) with
    | Some fd => i <= fd < i + Z.of_nat n /\ fd_used (zlookup t fd) = false /\ forall j, i <= j < fd -> fd_used (zlookup t j) = true
    | None => forall j, i <= j < i + Z.of_nat n -> fd_used (zlookup t j) = true
    end).
  { induction n as [|n IH]; intros i; [rewrite seqZ_nil by lia; cbn [List.find]; intros; lia|]. rewrite seqZ_cons by lia. cbn [List.find]. destruct (fd_used (zlookup t i)) eqn:E; cbn [negb].
    - replace (Z.pred (Z.of_nat (S n))) with (Z.of_nat n) by lia. specialize (IH (Z.succ i)). destruct (List.find _ _).
      + destruct IH as (H1 & H2 & H3). split; [lia|]. split; [done|]. intros j Hj. destruct (decide (j = i)) as [->|]; [done|]. apply H3. lia.
      + intros j Hj. destruct (decide (j = i)) as [->|]; [done|]. apply IH. lia.
    - split; [lia|]. split; [done|]. intros j Hj. lia. }
  specialize (H 16%nat 0). exact H.
Qed.

Lemma upd_fd_table fd f v : table_ok v -> table_ok (upd_fd fd f v).
Proof. intros H. unfold table_ok, upd_fd. cbn. by rewrite length_zalter. Qed.

Lemma upd_fd_lookup fd f v j :
  table_ok v -> 0 <= fd < 16 -> zlookup (fd_table_ (upd_fd fd f v)) j = if decide (fd = j) then f (zlookup (fd_table_ v) j) else zlookup (fd_table_ v) j.
Proof. intros Ht Hf. unfold upd_fd. cbn. apply zlookup_zalter. unfold in_range. rewrite Ht. lia. Qed.

Section Generic.
Context {W : Type} `{!VNode W}.

(** The path is refused before any node is asked. *)
Definition open_refused (path : list Z) (v : VfsServer) : Prop :=
  63 < Z.of_nat (length (cstr path)) \/ has_dotdot (cstr path) \/ (forall m, m ∈ mounted v -> ~ covers m path) \/
  (forall j, 0 <= j < 16 -> fd_used (zlookup (fd_table_ v) j) = true).

(** [handle_open], whole. *)
Lemma handle_open_full path flags (v : VfsServer) (w : W) :
  table_ok v ->
  let '(st, v', w') := handle_open path flags v w in
  (open_refused path v -> st = -1 /\ v' = v /\ w' = w) /\
  (~ open_refused path v ->
   exists m fd status priv, m ∈ mounted v /\ covers m path /\
     (forall m', m' ∈ mounted v -> covers m' path -> (length (cstr (mnt_path m')) <= length (cstr (mnt_path m)))%nat) /\
     0 <= fd < 16 /\ fd_used (zlookup (fd_table_ v) fd) = false /\ (forall j, 0 <= j < fd -> fd_used (zlookup (fd_table_ v) j) = true) /\
     open_file (mnt_vnode m) (relative_path path (Z.of_nat (length (cstr (mnt_path m))))) flags w = (status, priv, w') /\
     mounts_ v' = mounts_ v /\ mount_count_ v' = mount_count_ v /\
     (forall j, j <> fd -> zlookup (fd_table_ v') j = zlookup (fd_table_ v) j) /\
     (0 <= status -> st = fd /\ zlookup (fd_table_ v') fd = mkFd (mnt_vnode m) 0 true priv 0) /\
     (status < 0 -> st = -1 /\ fd_used (zlookup (fd_table_ v') fd) = false)).
Proof.
  intros Ht. unfold handle_open, path_valid. pose proof (find_mount_best path v) as Hb. destruct (find_mount path v) as [n o].
  assert (Hbad : 63 < Z.of_nat (length (cstr path)) \/ has_dotdot (cstr path) <->
    negb ((Z.of_nat (length (cstr path)) <=? 63) && negb (has_traversal path)) = true).
  { rewrite negb_true_iff, andb_false_iff, negb_false_iff, has_traversal_spec, Z.leb_gt. tauto. }
  unfold open_refused. destruct (negb _) eqn:Ebad; [apply proj2 in Hbad; split; [done|]; intros Hn; destruct Hn; tauto|].
  assert (Hgood : ~ (63 < Z.of_nat (length (cstr path)) \/ has_dotdot (cstr path))) by (intros H; apply Hbad in H; done). clear Hbad Ebad.
  destruct o as [vnode|]; cbn [best_mount] in Hb; [|destruct Hb as [_ Hb]; split; [done|]; intros Hn; destruct Hn; tauto]. destruct Hb as (m & Hin & Hcov & Hv & En & Hmax).
  pose proof (first_free_spec (fd_table_ v)) as Hf. destruct (first_free_fd (fd_table_ v)) as [fd|]; [|split; [done|]; intros Hn; destruct Hn; tauto].
  destruct Hf as (Hr & Hfree & Hlow). destruct (open_file vnode (relative_path path n) flags w) as [[status priv] w'] eqn:Eo.
  assert (Hno : ~ open_refused path v).
  { intros [H|[H|[H|H]]]; [tauto|tauto|by apply (H m)|]. rewrite H in Hfree by done. done. }
  assert (T1 : forall f, table_ok (upd_fd fd f v)) by (intros f; by apply upd_fd_table).
  assert (T2 : forall f g, table_ok (upd_fd fd g (upd_fd fd f v))) by (intros f g; by apply upd_fd_table).
  destruct (Z.ltb_spec status 0); (split; [intros Hx; by destruct Hno|]; intros _; exists m, fd, status, priv; rewrite Hv, <- En;
    do 9 (split; [done|]); split; [intros j Hj; rewrite !upd_fd_lookup by done; by rewrite !decide_False by congruence|]).
  - split; [lia|]. intros _. split; [done|]. rewrite !upd_fd_lookup by done. by rewrite !decide_True by done.
  - split; [|lia]. intros _. split; [done|]. rewrite !upd_fd_lookup by done. by rewrite !decide_True by done.
Qed.

(** What a successful open has found. *)
Lemma handle_open_spec path flags (v : VfsServer) (w : W) :
  table_ok v ->
  let '(st, v', w') := handle_open path flags v w in
  0 <= st ->
  exists m priv status, m ∈ mounted v /\ covers m path /\
    open_file (mnt_vnode m) (relative_path path (Z.of_nat (length (cstr (mnt_path m))))) flags w = (status, priv, w') /\
    st < 16 /\ zlookup (fd_table_ v') st = mkFd (mnt_vnode m) 0 true priv 0.
Proof.
  intros Ht. pose proof (handle_open_full path flags v w Ht) as H. destruct (handle_open path flags v w) as [[st v'] w']. destruct H as [H1 H2]. intros Hst.
  destruct H2 as (m & fd & status & priv & A1 & A2 & _ & A4 & _ & _ & A7 & _ & _ & _ & A11 & A12); [intros Hr; destruct (H1 Hr); lia|].
  exists m, priv, status. split; [done|]. split; [done|]. split; [done|]. destruct (Z.lt_ge_cases status 0) as [Hn|Hp]; [destruct (A12 Hn); lia|].
  destruct (A11 Hp) as [-> E]. split; [lia|done].
Qed.

Lemma handle_open_table path flags (v : VfsServer) (w : W) : table_ok v -> table_ok (handle_open path flags v w).1.2.
Proof.
  intros Ht. unfold handle_open. destruct (negb _); [done|]. destruct (find_mount path v) as [n [vnode|]]; [|done]. destruct (first_free_fd _); [|done].
  destruct (open_file vnode _ flags w) as [[status priv] w']. destruct (status <? 0); cbn [fst snd]; by repeat apply upd_fd_table.
Qed.

(** C26: Opening a path goes to the right file system.  A path of more than 63 characters,
    one that contains "..", one that no mount covers, and any path when all 16 descriptors
    are in use, is refused without effect.  Every other path is passed on: the node asked
    is the one of the longest mount that covers the path at a component boundary, with the
    rest of the path; when the node accepts, the lowest free descriptor is returned, open
    on that node at offset 0; when it refuses, the result is -1 and that descriptor stays
    free.  Mounts and all other descriptors stay as they are. *)
Theorem open_resolves_longest_mount path flags (v : VfsServer) (w : W) :
  table_ok v ->
  let '(st, v', w') := handle_open path flags v w in
  (open_refused path v -> st = -1 /\ v' = v /\ w' = w) /\
  (~ open_refused path v ->
   exists m fd status priv, m ∈ mounted v /\ covers m path /\
     (forall m', m' ∈ mounted v -> covers m' path -> (length (cstr (mnt_path m')) <= length (cstr (mnt_path m)))%nat) /\
     0 <= fd < 16 /\ fd_used (zlookup (fd_table_ v) fd) = false /\ (forall j, 0 <= j < fd -> fd_used (zlookup (fd_table_ v) j) = true) /\
     open_file (mnt_vnode m) (relative_path path (Z.of_nat (length (cstr (mnt_path m))))) flags w = (status, priv, w') /\
     mounts_ v' = mounts_ v /\ mount_count_ v' = mount_count_ v /\
     (forall j, j <> fd -> zlookup (fd_table_ v') j = zlookup (fd_table_ v) j) /\
     (0 <= status -> st = fd /\ zlookup (fd_table_ v') fd = mkFd (mnt_vnode m) 0 true priv 0) /\
     (status < 0 -> st = -1 /\ fd_used (zlookup (fd_table_ v') fd) = false)).
Proof. apply handle_open_full. Qed.

(** Which descriptor a request names. *)
Definition names_fd (req : VfsRequest) : option Z :=
  match req with
  | RRead fd _ | RWrite fd _ _ | RClose fd | RIoctl fd _ _ | RLseek fd _ _ => Some fd
  | _ => None
  end.

Lemma valid_fd_spec fd v : valid_fd fd v = true <-> 0 <= fd < 16 /\ fd_used (zlookup (fd_table_ v) fd) = true.
Proof.
  unfold valid_fd, MAX_OPEN_FILES. rewrite negb_true_iff, !orb_false_iff, negb_false_iff, Z.ltb_ge, Z.leb_gt. tauto.
Qed.

Lemma upd_fd_other fd f v j : fd <> j -> zlookup (fd_table_ (upd_fd fd f v)) j = zlookup (fd_table_ v) j.
Proof. intros Hne. unfold upd_fd. cbn. by apply zlookup_zalter_ne. Qed.

Lemma unmount_fds ids path v : fd_table_ (unmount_from ids path v).2 = fd_table_ v.
Proof. induction ids as [|i ids IH]; cbn [unmount_from]; [done|]. by destruct (strings_equal _ _). Qed.

(** Descriptors are independent: a request changes no descriptor in use but the one it
    names. *)
Theorem descriptors_independent req (v : VfsServer) (w : W) j :
  table_ok v -> fd_used (zlookup (fd_table_ v) j) = true -> names_fd req <> Some j ->
  zlookup (fd_table_ (process_request req v w).1.2) j = zlookup (fd_table_ v) j.
Proof.
  intros Ht Hu Hn. destruct req as [path vnode|path flags|fd len|fd len data|fd|fd request arg|fd offset whence|path]; cbn [process_request names_fd] in *.
  - unfold vfs_mount. destruct (vnode =? 0); [done|]. destruct (negb _); [done|]. by destruct (_ <=? _).
  - unfold handle_open. destruct (negb _); [done|]. destruct (find_mount path v) as [n [vnode|]]; [|done]. pose proof (first_free_spec (fd_table_ v)) as Hf.
    destruct (first_free_fd (fd_table_ v)) as [fd|]; [|done]. assert (fd <> j) by (intros ->; destruct Hf as (_ & Hf & _); congruence).
    destruct (open_file vnode _ flags w) as [[status priv] w']. destruct (status <? 0); cbn [fst snd]; by rewrite !upd_fd_other.
  - unfold handle_read. destruct (negb _); [done|]. destruct (vn_read _ _ _ _ w) as [[bytes data] w']. cbn [fst snd]. destruct (0 <? bytes); [|done]. rewrite upd_fd_other; [done|congruence].
  - unfold handle_write. destruct (negb _); [done|]. destruct (vn_write _ _ _ _ _ w) as [bytes w']. cbn [fst snd]. destruct (0 <? bytes); [|done]. rewrite upd_fd_other; [done|congruence].
  - unfold handle_close. destruct (negb _); [done|]. destruct (close_file _ _ w) as [st w']. cbn [fst snd]. rewrite upd_fd_other; [done|congruence].
  - unfold handle_ioctl. destruct (negb _); [done|]. by destruct (vn_ioctl _ _ _ _ w) as [st w'].
  - unfold handle_lseek. destruct (negb _); [done|]. cbv zeta. destruct (0 <=? _); [|done]. cbn [fst snd]. rewrite upd_fd_other; [done|congruence].
  - unfold vfs_unmount. pose proof (unmount_fds (seqZ 0 (mount_count_ v)) path v) as Hm. destruct (unmount_from _ path v) as [ok v']. cbn in *. by rewrite Hm.
Qed.
End Generic.

(** * Regular files *)

(** What a file system promises of its regular files: [holds n c w] says that node [n]
    holds the bytes [c]. *)
Class RegularFiles {W : Type} `{!VNode W} (holds : Z -> list Z -> W -> Prop) := {
  reg_open n c path flags w : holds n c w ->
    exists st priv w', open_file n path flags w = (st, priv, w') /\ 0 <= st /\ (forall m c', holds m c' w -> holds m c' w');
  reg_read n c len offset priv w : holds n c w -> 0 <= len -> 0 <= offset ->
    exists w', vn_read n len offset priv w = (Z.of_nat (length (spec_read len offset c)), spec_read len offset c, w') /\ (forall m c', holds m c' w -> holds m c' w');
  reg_write n c data offset priv w : holds n c w -> 0 <= offset -> data <> [] -> offset + Z.of_nat (length data) <= kRamFileMaxCapacity ->
    exists w', vn_write n data (Z.of_nat (length data)) offset priv w = (Z.of_nat (length data), w') /\
      holds n (spec_write data offset c) w' /\ (forall m c', m <> n -> holds m c' w -> holds m c' w');
  reg_size n c priv w : holds n c w -> vn_get_size n priv w = Z.of_nat (length c);
}.

Lemma read_back data c : spec_read (Z.of_nat (length data)) 0 (spec_write data 0 c) = data.
Proof. unfold spec_read, spec_write, blit. cbn [Z.to_nat]. rewrite take_0, drop_0, Nat2Z.id. cbn [app]. by rewrite take_app_length. Qed.

Lemma spec_write_start data c : spec_write data 0 c = data ++ drop (length data) c.
Proof. unfold spec_write, blit, extend. cbn [Z.to_nat Nat.sub replicate]. by rewrite app_nil_r, take_0. Qed.

Section Files.
Context {W : Type} `{!VNode W} (holds : Z -> list Z -> W -> Prop) `{!RegularFiles holds}.
Context (ipc : Z -> VfsRequest -> VfsServer -> W -> VfsReply * VfsServer * W).

(** Descriptor [fd] is open on node [n] at [offset]. *)
Definition fd_open (v : VfsServer) (fd n offset : Z) : Prop :=
  table_ok v /\ 0 <= fd < 16 /\ fd_used (zlookup (fd_table_ v) fd) = true /\ fd_vnode (zlookup (fd_table_ v) fd) = n /\ fd_offset (zlookup (fd_table_ v) fd) = offset.

Lemma fd_open_valid v fd n o : fd_open v fd n o -> valid_fd fd v = true.
Proof. intros (_ & H1 & H2 & _). by apply valid_fd_spec. Qed.

Lemma fd_open_seek v fd n o o' : fd_open v fd n o -> fd_open (upd_fd fd (set_offset o') v) fd n o'.
Proof.
  intros (Ht & Hr & Hu & Hn & Ho). split; [by apply upd_fd_table|]. rewrite upd_fd_lookup, decide_True by done. cbn. done.
Qed.

Lemma mgr_write_ok v w fd n o c data :
  fd_open v fd n o -> holds n c w -> 0 <= o -> data <> [] -> (length data <= 1024)%nat -> o + Z.of_nat (length data) <= kRamFileMaxCapacity ->
  exists v' w', mgr_write (-1) ipc fd data (Z.of_nat (length data)) v w = (Z.of_nat (length data), v', w') /\
    fd_open v' fd n (o + Z.of_nat (length data)) /\ holds n (spec_write data o c) w'.
Proof.
  intros Hfd Hh Ho Hne Hl Hmax. unfold mgr_write, call_vfs. cbn [Z.ltb Z.compare]. destruct (Z.ltb_spec 1024 (Z.of_nat (length data))); [lia|].
  rewrite Nat2Z.id, take_ge by done. cbn [process_request]. unfold handle_write. rewrite (fd_open_valid _ _ _ _ Hfd). cbn [negb].
  pose proof Hfd as (_ & _ & _ & En & Eo). assert (Ec : clamp (Z.of_nat (length data)) = Z.of_nat (length data)).
  { unfold clamp, VFS_IPC_BUFFER_SIZE. destruct (Z.ltb_spec (Z.of_nat (length data)) 0), (Z.ltb_spec 1024 (Z.of_nat (length data))); (lia || done). }
  rewrite Ec, En, Eo. destruct (reg_write n c data o (fd_priv (zlookup (fd_table_ v) fd)) w Hh Ho Hne Hmax) as (w' & -> & Hh' & _).
  destruct (Z.ltb_spec 0 (Z.of_nat (length data))); [|destruct data; [done|cbn in *; lia]]. eexists _, w'. split; [done|]. split; [|done]. by eapply fd_open_seek.
Qed.

Lemma mgr_read_ok v w fd n o c len :
  fd_open v fd n o -> holds n c w -> 0 <= o -> 0 <= len <= 1024 ->
  exists v' w', mgr_read (-1) ipc fd len v w = (Z.of_nat (length (spec_read len o c)), spec_read len o c, v', w') /\
    fd_open v' fd n (o + Z.of_nat (length (spec_read len o c))) /\ holds n c w'.
Proof.
  intros Hfd Hh Ho Hl. unfold mgr_read, call_vfs. cbn [Z.ltb Z.compare]. destruct (Z.ltb_spec 1024 len); [lia|]. cbn [process_request]. unfold handle_read.
  rewrite (fd_open_valid _ _ _ _ Hfd). cbn [negb]. pose proof Hfd as (_ & _ & _ & En & Eo).
  assert (Ec : clamp len = len) by (unfold clamp, VFS_IPC_BUFFER_SIZE; destruct (Z.ltb_spec len 0), (Z.ltb_spec 1024 len); (lia || done)).
  rewrite Ec, En, Eo. destruct (reg_read n c len o (fd_priv (zlookup (fd_table_ v) fd)) w Hh ltac:(lia) Ho) as (w' & -> & Hh').
  cbn [rp_status rp_data]. rewrite Nat2Z.id, take_ge by done. destruct (Z.ltb_spec 0 (Z.of_nat (length (spec_read len o c)))).
  - eexists _, w'. split; [done|]. split; [by eapply fd_open_seek|by apply Hh'].
  - assert (En0 : spec_read len o c = []) by (apply nil_length_inv; lia). rewrite En0 in *. cbn [length]. rewrite Z.add_0_r. eexists _, w'. split; [done|]. split; [done|by apply Hh'].
Qed.

Lemma mgr_lseek_ok v w fd n o : fd_open v fd n o -> exists v', mgr_lseek (-1) ipc fd 0 0 v w = (0, v', w) /\ fd_open v' fd n 0.
Proof.
  intros Hfd. unfold mgr_lseek, call_vfs. cbn [Z.ltb Z.compare process_request]. unfold handle_lseek. rewrite (fd_open_valid _ _ _ _ Hfd). cbn [negb Z.eqb Z.leb Z.compare].
  eexists. split; [done|]. by eapply fd_open_seek.
Qed.

Lemma mgr_open_ok path flags v w fd v1 w1 :
  table_ok v -> (forall m, m ∈ mounted v -> covers m (req_path path) -> exists c, holds (mnt_vnode m) c w) ->
  mgr_open (-1) ipc path flags v w = (fd, v1, w1) -> 0 <= fd ->
  exists m c, m ∈ mounted v /\ covers m (req_path path) /\ holds (mnt_vnode m) c w /\ holds (mnt_vnode m) c w1 /\ fd_open v1 fd (mnt_vnode m) 0.
Proof.
  intros Ht Hcov Eo Hfd. unfold mgr_open, call_vfs in Eo. cbn [Z.ltb Z.compare process_request] in Eo.
  pose proof (handle_open_spec (req_path path) flags v w Ht) as Hs. pose proof (handle_open_table (req_path path) flags v w Ht) as Ht1.
  destruct (handle_open (req_path path) flags v w) as [[st v'] w']. cbn [rp_status fst snd] in *. injection Eo as -> -> ->.
  destruct (Hs Hfd) as (m & priv & status & Hin & Hc & Hop & Hlt & Efd).
  destruct (Hcov m Hin Hc) as [c Hh]. exists m, c. split; [done|]. split; [done|]. split; [done|].
  destruct (reg_open (mnt_vnode m) c (relative_path (req_path path) (Z.of_nat (length (cstr (mnt_path m))))) flags w Hh) as (st' & priv' & w'' & Hop' & _ & Hpres).
  rewrite Hop in Hop'. injection Hop' as <- <- <-. split; [by apply Hpres|]. unfold fd_open. rewrite Efd. done.
Qed.

(** C28: What is written to a file is read back: after a successful open, by a client that
    shares the server's address space, of a path whose mounts hold regular files, a write of 1
    to 1024 bytes takes them all, a seek to the start succeeds, and a read returns exactly
    those bytes; what the file held behind them stays.  Proved for every file system that
    keeps the promises of [RegularFiles], among them that writes below 1 GB are complete:
    [ram_regular] shows them for the memory file while its allocations succeed. *)
Theorem file_write_read_roundtrip path flags data v w fd v1 w1 :
  table_ok v -> (forall m, m ∈ mounted v -> covers m (req_path path) -> exists c, holds (mnt_vnode m) c w) ->
  mgr_open (-1) ipc path flags v w = (fd, v1, w1) -> 0 <= fd -> data <> [] -> (length data <= 1024)%nat ->
  exists m c v2 w2 v3 v4 w4,
    m ∈ mounted v /\ covers m (req_path path) /\ holds (mnt_vnode m) c w /\
    mgr_write (-1) ipc fd data (Z.of_nat (length data)) v1 w1 = (Z.of_nat (length data), v2, w2) /\
    mgr_lseek (-1) ipc fd 0 0 v2 w2 = (0, v3, w2) /\
    mgr_read (-1) ipc fd (Z.of_nat (length data)) v3 w2 = (Z.of_nat (length data), data, v4, w4) /\
    holds (mnt_vnode m) (data ++ drop (length data) c) w4.
Proof.
  intros Ht Hcov Eo Hfd0 Hne Hl. destruct (mgr_open_ok path flags v w fd v1 w1 Ht Hcov Eo Hfd0) as (m & c & Hin & Hc & Hh0 & Hh & Hfd).
  destruct (mgr_write_ok v1 w1 fd _ 0 c data Hfd Hh ltac:(lia) Hne Hl) as (v2 & w2 & E2 & Hfd2 & Hh2); [unfold kRamFileMaxCapacity; lia|].
  destruct (mgr_lseek_ok v2 w2 fd _ _ Hfd2) as (v3 & E3 & Hfd3). destruct (mgr_read_ok v3 w2 fd _ 0 _ (Z.of_nat (length data)) Hfd3 Hh2 ltac:(lia) ltac:(lia)) as (v4 & w4 & E4 & _ & Hh4).
  rewrite read_back in E4. exists m, c, v2, w2, v3, v4, w4. by rewrite spec_write_start in Hh4.
Qed.
End Files.

(** * The memory file as a file system *)

Section Memory.
Variable alloc : Z -> bool.
Variable fresh : Z -> list Z.

(** [RamFile] overrides [read], [write] and [get_size]; the rest is [VNode]'s default. *)
Definition ram_vn_read (n len offset : Z) (w : gmap Z RamFile) : Z * list Z * gmap Z RamFile :=
  match w !! n with Some f => (ram_read len offset f, w) | None => (-1, [], w) end.

Definition ram_vn_write (n : Z) (data : list Z) (len offset : Z) (w : gmap Z RamFile) : Z * gmap Z RamFile :=
  match w !! n with Some f => let (r, f) := ram_write alloc fresh data len offset f in (r, <[n := f]> w) | None => (-1, w) end.

Definition ram_vn_get_size (n : Z) (w : gmap Z RamFile) : Z := match w !! n with Some f => file_size_ f | None => 0 end.

#[local] Instance ram_vnodes : VNode (gmap Z RamFile) := {|
  open_file _ _ _ w := (0, 0, w);
  close_file _ _ w := (0, w);
  vn_read n len offset _ w := ram_vn_read n len offset w;
  vn_write n data len offset _ w := ram_vn_write n data len offset w;
  vn_ioctl _ _ _ _ w := (-1, w);
  vn_get_size n _ w := ram_vn_get_size n w;
|}.

Definition ram_holds (n : Z) (c : list Z) (w : gmap Z RamFile) : Prop := exists f, w !! n = Some f /\ ram_ok c f.

#[local] Instance ram_regular (Ha : whole_alloc alloc) (Hf : forall n, length (fresh n) = Z.to_nat n) : RegularFiles ram_holds.
Proof.
  split.
  - intros n c path flags w _. exists 0, 0, w. done.
  - intros n c len offset priv w (f & Ef & Hok) Hl Ho. exists w. cbn. unfold ram_vn_read. rewrite Ef. split; [|done]. f_equal. by apply ram_read_ok.
  - intros n c data offset priv w (f & Ef & Hok) Ho Hne Hm. cbn. unfold ram_vn_write. rewrite Ef. pose proof (ram_write_ok alloc fresh c f data offset Hok Ho Hm Hf) as Hw.
    destruct (ram_write _ _ _ _ _ _) as [r f']. destruct Hw as [_ Hall]. destruct (Hall Ha) as [-> Hok']; [destruct data; [done|cbn; lia]|].
    exists (<[n := f']> w). split; [done|]. split; [exists f'; by rewrite lookup_insert_eq|]. intros m c' Hmn (g & Eg & Hg). exists g. by rewrite lookup_insert_ne.
  - intros n c priv w (f & Ef & Hok). cbn. unfold ram_vn_get_size. rewrite Ef. apply Hok.
Qed.
End Memory.

(** * The mount table *)

Lemma shift_left_lookup k i ms j :
  0 <= i -> i + Z.of_nat k < Z.of_nat (length ms) ->
  zlookup (shift_left i (i + Z.of_nat k + 1) ms) j = if decide (i <= j < i + Z.of_nat k) then zlookup ms (j + 1) else zlookup ms j.
Proof.
  intros Hi. unfold shift_left. replace (i + Z.of_nat k + 1 - 1 - i) with (Z.of_nat k) by lia. revert i ms Hi.
  induction k as [|k IH]; intros i ms Hi Hk; [rewrite seqZ_nil by lia; cbn [foldl]; case_decide; [lia|done]|].
  rewrite seqZ_cons by lia. cbn [foldl]. replace (Z.pred (Z.of_nat (S k))) with (Z.of_nat k) by lia.
  rewrite (IH (Z.succ i)) by (rewrite ?length_zalter; lia). repeat case_decide; try lia.
  - rewrite zlookup_zalter_ne by lia. done.
  - assert (j = i) as -> by lia. rewrite zlookup_zalter by (unfold in_range; lia). by rewrite decide_True.
  - rewrite zlookup_zalter_ne by lia. done.
Qed.

Lemma length_shift_left i n ms : length (shift_left i n ms) = length ms.
Proof. unfold shift_left. generalize (seqZ i (n - 1 - i)). intros l. revert ms. induction l as [|j l IH]; intros ms; cbn; [done|]. by rewrite IH, length_zalter. Qed.

Definition mounts_ok (v : VfsServer) : Prop := length (mounts_ v) = 16%nat /\ 0 <= mount_count_ v <= 16.

Lemma strings_equal_spec s1 s2 : strings_equal s1 s2 = true <-> cstr s1 = cstr s2.
Proof.
  unfold strings_equal. generalize (cstr s1) (cstr s2). induction l as [|x l IH]; intros [|y l']; cbn; try done. rewrite andb_true_iff, Z.eqb_eq, IH.
  split; [intros [-> ->]; done|by intros [= -> ->]].
Qed.

Lemma mounted_lookup v i : mounts_ok v -> 0 <= i < mount_count_ v -> mounted v !! Z.to_nat i = Some (zlookup (mounts_ v) i).
Proof.
  intros [Hl Hc] Hi. unfold mounted, zlookup. rewrite lookup_take, decide_True by lia. destruct (Z.leb_spec 0 i); [|lia]. apply list_lookup_lookup_total_lt. lia.
Qed.

Lemma mounted_length v : mounts_ok v -> length (mounted v) = Z.to_nat (mount_count_ v).
Proof. intros [Hl Hc]. unfold mounted. rewrite length_take. lia. Qed.

(** Removing entry [i] from the table deletes it from the mounts in use. *)
Lemma mounted_shift v i :
  mounts_ok v -> 0 <= i < mount_count_ v ->
  mounted (set_mounts (shift_left i (mount_count_ v) (mounts_ v)) (mount_count_ v - 1) v) = delete (Z.to_nat i) (mounted v) /\
  mounts_ok (set_mounts (shift_left i (mount_count_ v) (mounts_ v)) (mount_count_ v - 1) v).
Proof.
  intros Hm Hi. pose proof Hm as [Hl Hc]. set (v' := set_mounts _ _ v). assert (Hm' : mounts_ok v') by (split; cbn; [by rewrite length_shift_left|lia]). split; [|done].
  apply list_eq_same_length with (n := Z.to_nat (mount_count_ v - 1)); [|rewrite mounted_length by done; cbn; lia|].
  { rewrite length_delete by (rewrite mounted_lookup by done; by eexists). rewrite mounted_length by done. lia. }
  intros j x y Hj Hx Hy. replace j with (Z.to_nat (Z.of_nat j)) in Hx by lia. rewrite mounted_lookup in Hx by (cbn; (done || lia)). injection Hx as <-. cbn [mounts_ set_mounts].
  pose proof (shift_left_lookup (Z.to_nat (mount_count_ v - 1 - i)) i (mounts_ v) (Z.of_nat j) ltac:(lia) ltac:(lia)) as E.
  replace (i + Z.of_nat (Z.to_nat (mount_count_ v - 1 - i)) + 1) with (mount_count_ v) in E by lia. unfold v'. cbn [mounts_ set_mounts]. rewrite E.
  case_decide as Hd.
  - rewrite list_lookup_delete_ge in Hy by lia. replace (S j) with (Z.to_nat (Z.of_nat j + 1)) in Hy by lia. rewrite mounted_lookup in Hy by (done || lia). congruence.
  - rewrite list_lookup_delete_lt in Hy by lia. replace j with (Z.to_nat (Z.of_nat j)) in Hy by lia. rewrite mounted_lookup in Hy by (done || lia). congruence.
Qed.

(** Unmounting removes the first mount with that path, and nothing when there is none;
    descriptors opened through it stay usable on its node. *)
Theorem unmount_removes_first path v :
  mounts_ok v ->
  let '(ok, v') := vfs_unmount path v in
  fd_table_ v' = fd_table_ v /\ mounts_ok v' /\
  if ok then exists i m, mounted v !! i = Some m /\ cstr (mnt_path m) = cstr path /\ mounted v' = delete i (mounted v) /\
    (forall j m', (j < i)%nat -> mounted v !! j = Some m' -> cstr (mnt_path m') <> cstr path)
  else v' = v /\ forall m, m ∈ mounted v -> cstr (mnt_path m) <> cstr path.
Proof.
  intros Hm. pose proof (unmount_fds (seqZ 0 (mount_count_ v)) path v) as Hfds. unfold vfs_unmount.
  assert (H : forall n i, 0 <= i -> i + Z.of_nat n = mount_count_ v -> (forall j m', (j < Z.to_nat i)%nat -> mounted v !! j = Some m' -> cstr (mnt_path m') <> cstr path) ->
    let '(ok, v') := unmount_from (seqZ i (Z.of_nat n)) path v in mounts_ok v' /\
    if ok then exists i m, mounted v !! i = Some m /\ cstr (mnt_path m) = cstr path /\ mounted v' = delete i (mounted v) /\ (forall j m', (j < i)%nat -> mounted v !! j = Some m' -> cstr (mnt_path m') <> cstr path)
    else v' = v /\ forall m, m ∈ mounted v -> cstr (mnt_path m) <> cstr path).
  { induction n as [|n IH]; intros i Hi Hn Hbefore.
    - rewrite seqZ_nil by lia. cbn [unmount_from]. split; [done|]. split; [done|]. intros m [j Hj]%list_elem_of_lookup. apply (Hbefore j m); [|done].
      apply lookup_lt_Some in Hj. rewrite mounted_length in Hj by done. lia.
    - rewrite seqZ_cons by lia. cbn [unmount_from]. destruct (strings_equal _ path) eqn:E.
      + apply strings_equal_spec in E. destruct (mounted_shift v i Hm ltac:(lia)) as [E1 E2]. split; [done|]. exists (Z.to_nat i), (zlookup (mounts_ v) i).
        split; [apply mounted_lookup; [done|lia]|]. done.
      + replace (Z.pred (Z.of_nat (S n))) with (Z.of_nat n) by lia. apply IH; [lia|lia|]. intros j m' Hj Hl. destruct (decide (j = Z.to_nat i)) as [->|]; [|apply (Hbefore j m'); [lia|done]].
        rewrite mounted_lookup in Hl by (done || lia). injection Hl as <-. intros Hc. apply strings_equal_spec in Hc. congruence. }
  specialize (H (Z.to_nat (mount_count_ v)) 0 ltac:(lia) ltac:(destruct Hm; lia)). replace (Z.of_nat (Z.to_nat (mount_count_ v))) with (mount_count_ v) in H by (destruct Hm; lia).
  destruct (unmount_from _ path v) as [ok v']. split; [done|]. apply H. intros j m' Hj. lia.
Qed.

(** ** Paths the client cuts *)

Lemma cstr_clean s : Forall (fun c => c <> 0) s -> cstr s = s.
Proof. induction 1 as [|c s Hc _ IH]; cbn [cstr]; [done|]. destruct (Z.eqb_spec c 0); [done|]. by rewrite IH. Qed.

Lemma cstr_req_path path : cstr (req_path path) = take 63 (cstr path).
Proof. unfold req_path. apply cstr_app_nonzero. apply Forall_take, cstr_nonzeros. Qed.

(** The client cuts a path at 63 characters before the server sees it, so that the
    server's length check never fires for it: a longer path opens whatever its first 63
    characters name. *)
Theorem long_path_opens_prefix {W} `{!VNode W} ipc path flags v (w : W) :
  mgr_open (-1) ipc path flags v w = mgr_open (-1) ipc (take 63 (cstr path)) flags v w /\ Z.of_nat (length (cstr (req_path path))) <= 63.
Proof.
  split; [|rewrite cstr_req_path, length_take; lia]. unfold mgr_open. f_equal. f_equal. f_equal. unfold req_path.
  rewrite (cstr_clean (take 63 (cstr path))) by (apply Forall_take, cstr_nonzeros). by rewrite take_idemp.
Qed.

(** * The memory file *)

(** C29: The memory file of the build with dynamic allocation is a list of bytes: through
    any sequence of reads, writes, truncations and clears with accesses below 1 GB, every
    status and every byte read is that of the list semantics (a write past the end fills
    with zeros) and the buffer keeps holding the content followed by zeros.  A write takes
    all its bytes when every allocation succeeds; when one fails it takes the first bytes,
    as many as its status says, or none. *)
Theorem ramfile_refines alloc fresh ops capacity :
  (forall n, length (fresh n) = Z.to_nat n) -> 0 <= capacity < 2147483648 -> Forall op_ok ops ->
  let (rs, f) := run_ops (ram_op alloc fresh) ops (ramfile_ctor alloc capacity) in
  (exists c, all_accepted ops rs [] c /\ ram_ok c f) /\
  (whole_alloc alloc -> rs = (run_ops spec_op ops []).1 /\ ram_ok (run_ops spec_op ops []).2 f).
Proof.
  intros Hf Hc Hops. pose proof (ramfile_ctor_ok alloc capacity Hc) as Hok. pose proof (run_ops_accepted alloc fresh ops [] _ Hok Hops Hf) as H1.
  pose proof (fun Ha => run_ops_ok alloc fresh ops [] _ Hok Hops Ha Hf) as H2. by destruct (run_ops _ ops _).
Qed.

(** A concrete system: a 4-byte memory file mounted at "/tmp", another at "/tmp/log". *)
Definition demo_alloc (n : Z) : bool := true.
Definition demo_fresh (n : Z) : list Z := replicate (Z.to_nat n) 170.
Definition demo_ops : list RamOp := [OpWrite [1; 2; 3] 2; OpRead 10 0; OpTruncate 3; OpWrite [9; 9] 4; OpRead 10 0; OpClear; OpRead 1 0].

Lemma demo_fresh_length n : length (demo_fresh n) = Z.to_nat n.
Proof. apply length_replicate. Qed.

Lemma demo_ops_ok : Forall op_ok demo_ops.
Proof. unfold demo_ops. repeat constructor; (lia || (intros H; vm_compute in H; discriminate)). Qed.

(** Growth beyond 4 bytes fails: the second write is cut. *)
Lemma ramfile_refines_witness :
  (run_ops (ram_op demo_alloc demo_fresh) demo_ops (ramfile_ctor demo_alloc 4)).1 = [(3, []); (5, [0; 0; 1; 2; 3]); (0, []); (2, []); (6, [0; 0; 1; 0; 9; 9]); (0, []); (0, [])] /\
  exists c, all_accepted demo_ops (run_ops (ram_op (fun n => n <=? 4) demo_fresh) demo_ops (ramfile_ctor (fun n => n <=? 4) 4)).1 [] c.
Proof.
  split.
  - pose proof (ramfile_refines demo_alloc demo_fresh demo_ops 4 demo_fresh_length ltac:(lia) demo_ops_ok) as H.
    destruct (run_ops (ram_op _ _) _ _) as [rs f]. destruct H as [_ H]. destruct (H (fun _ => eq_refl)) as [-> _]. vm_compute. reflexivity.
  - pose proof (ramfile_refines (fun n => n <=? 4) demo_fresh demo_ops 4 demo_fresh_length ltac:(lia) demo_ops_ok) as H.
    destruct (run_ops (ram_op _ _) _ _) as [rs f]. destruct H as [(c & H & _) _]. exists c. exact H.
Defined.

#[local] Instance demo_vnodes : VNode (gmap Z RamFile) := ram_vnodes demo_alloc demo_fresh.
Definition demo_world : gmap Z RamFile := {[ 1 := ramfile_ctor demo_alloc 4; 2 := ramfile_ctor demo_alloc 4 ]}.
Definition demo_server : VfsServer := (vfs_mount (str "/tmp/log") 2 (vfs_mount (str "/tmp") 1 vfs_ctor).2).2.

Lemma open_resolves_longest_mount_witness :
  exists m, m ∈ mounted demo_server /\ covers m (str "/tmp/log/a") /\
    zlookup (fd_table_ (handle_open (str "/tmp/log/a") 0 demo_server demo_world).1.2) 0 = mkFd (mnt_vnode m) 0 true 0 0 /\ mnt_vnode m = 2.
Proof.
  assert (E0 : (handle_open (str "/tmp/log/a") 0 demo_server demo_world).1.1 = 0) by (vm_compute; reflexivity).
  assert (E1 : zlookup (fd_table_ (handle_open (str "/tmp/log/a") 0 demo_server demo_world).1.2) 0 = mkFd 2 0 true 0 0) by (vm_compute; reflexivity).
  pose proof (open_resolves_longest_mount (str "/tmp/log/a") 0 demo_server demo_world eq_refl) as H.
  destruct (handle_open _ 0 demo_server demo_world) as [[st v'] w']. cbn [fst snd] in *. subst st. destruct H as [H1 H2].
  destruct H2 as (m & fd & status & priv & A1 & A2 & _ & _ & _ & _ & _ & _ & _ & _ & A11 & A12); [intros Hr; destruct (H1 Hr); lia|].
  exists m. destruct (Z.lt_ge_cases status 0) as [Hn|Hp]; [destruct (A12 Hn); lia|]. destruct (A11 Hp) as [<- E]. rewrite E1 in E. injection E as <- <-. rewrite E1. done.
Defined.

Lemma demo_holds m : m ∈ mounted demo_server -> exists c, ram_holds (mnt_vnode m) c demo_world.
Proof.
  intros Hm. exists [], (ramfile_ctor demo_alloc 4). split; [|apply ramfile_ctor_ok; lia]. assert (Hl : mounted demo_server = [mkMount (str "/tmp" ++ [0]) 1; mkMount (str "/tmp/log" ++ [0]) 2]) by (vm_compute; reflexivity).
  rewrite Hl in Hm. apply elem_of_cons in Hm as [->|Hm]; [reflexivity|]. apply list_elem_of_singleton in Hm as ->. reflexivity.
Qed.

Lemma file_write_read_roundtrip_witness :
  exists m c v1 w1 v2 w2 v3 v4 w4,
    mgr_open (-1) (fun _ => process_request) (str "/tmp/log/a") 0 demo_server demo_world = (0, v1, w1) /\
    ram_holds (mnt_vnode m) c demo_world /\
    mgr_write (-1) (fun _ => process_request) 0 [7; 8; 9; 10; 11] 5 v1 w1 = (5, v2, w2) /\
    mgr_lseek (-1) (fun _ => process_request) 0 0 0 v2 w2 = (0, v3, w2) /\
    mgr_read (-1) (fun _ => process_request) 0 5 v3 w2 = (5, [7; 8; 9; 10; 11], v4, w4).
Proof.
  assert (E0 : (mgr_open (-1) (fun _ => process_request) (str "/tmp/log/a") 0 demo_server demo_world).1.1 = 0) by (vm_compute; reflexivity).
  destruct (mgr_open (-1) (fun _ => process_request) (str "/tmp/log/a") 0 demo_server demo_world) as [[fd v1] w1] eqn:Eo. cbn [fst snd] in E0. subst fd.
  destruct (file_write_read_roundtrip ram_holds (RegularFiles0 := ram_regular demo_alloc demo_fresh (fun _ => eq_refl) demo_fresh_length) (fun _ => process_request)
    (str "/tmp/log/a") 0 [7; 8; 9; 10; 11] demo_server demo_world 0 v1 w1 eq_refl (fun m Hm _ => demo_holds m Hm) Eo ltac:(lia) ltac:(done) ltac:(cbn; lia))
    as (m & c & v2 & w2 & v3 & v4 & w4 & _ & _ & H1 & H2 & H3 & H4 & _).
  exists m, c, v1, w1, v2, w2, v3, v4, w4. done.
Defined.
