(* ===== verification/PhotonClaims.v ===== *)
(** Theorems on the flash and the photon cache (drivers/storage/flash_device.hpp,
    vfs/photon_cache.hpp): the word-wise programming equals the byte-wise one, the cache
    is transparent for writes that only clear bits, and where it is not. *)
From S2P Require Import Prelude Flash Photon PhotonInv.

(** * Programming *)

(** Programming by 32-bit words where the addresses allow it has the same effect as
    and-ing byte by byte, for every alignment and length. *)
Theorem program_words_equal_bytes f buf_addr b o buf n :
  flash_ok f -> all_bytes buf -> n <= Z.of_nat (length buf) -> good_range f b o n ->
  (write_blocks buf_addr b o buf n f).1 = 0 /\
  memory_ (write_blocks buf_addr b o buf n f).2 = and_bytes (addr_of f b o) buf 0 n (memory_ f).
Proof.
  intros Hf Hb Hl Hg. pose proof (write_blocks_ok f buf_addr b o buf n Hf Hb ltac:(lia) Hg) as Hw. destruct (write_blocks buf_addr b o buf n f) as [st f']. cbn [fst snd].
  destruct Hw as (-> & _ & _ & _ & _ & Hlen & Hmem). split; [done|]. pose proof (range_in_memory _ _ _ _ Hf Hg) as [Ha Hr]. destruct Hg as (_ & _ & Hn & _). destruct Hf as [_ Hl' _].
  apply (list_eq_same_length _ _ (length (memory_ f))); [unfold and_bytes; apply length_zupdate|done|]. intros i x y Hi Hx Hy.
  assert (E : forall (l : list Z) z, l !! i = Some z -> zlookup l (Z.of_nat i) = z) by (intros l z Hz; apply zlookup_Some; [lia|by rewrite Nat2Z.id]). rewrite <- (E _ _ Hx), <- (E _ _ Hy), Hmem. unfold and_bytes, programmed. rewrite zupdate_lookup by lia.
  replace (addr_of f b o + 0) with (addr_of f b o) by lia. replace (n - 0) with n by lia. cbn [Z.add]. by destruct (decide _).
Qed.

(** * Sequences of operations *)

Inductive CacheOp := CRead (blk offset size : Z) | CWrite (blk offset : Z) (buf : list Z) | CErase (blk : Z) | CSync.

Section Run.
Context (data_addr : Z -> Z) (stack : list Z) (attempts : nat).

(** What the caller sees: the status and the bytes read. *)
Definition cache_op (op : CacheOp) (c : Photon) : Z * list Z * Photon :=
  match op with
  | CRead blk offset size => photon_read data_addr stack (fun c => c) (fun c => c) attempts blk offset size c
  | CWrite blk offset buf => let (n, c) := photon_write data_addr stack (fun c => c) (fun c => c) attempts blk offset buf (Z.of_nat (length buf)) c in (n, [], c)
  | CErase blk => let (r, c) := photon_erase blk c in (r, [], c)
  | CSync => let (r, c) := photon_sync data_addr c in (r, [], c)
  end.

Fixpoint run_cache (ops : list CacheOp) (c : Photon) : list (Z * list Z) * Photon :=
  match ops with
  | [] => ([], c)
  | op :: ops => let '(r, d, c) := cache_op op c in let (rs, c) := run_cache ops c in ((r, d) :: rs, c)
  end.
End Run.

(** The store of bytes the cache stands for; [bs] is the block size. *)
Definition store_op (bs : Z) (op : CacheOp) (A : Z -> Z) : Z * list Z * (Z -> Z) :=
  match op with
  | CRead blk offset size => (size, store_read A (blk * bs + offset) size, A)
  | CWrite blk offset buf => (Z.of_nat (length buf), [], store_write A (blk * bs + offset) buf (Z.of_nat (length buf)))
  | CErase blk => (0, [], store_erase A (blk * bs) bs)
  | CSync => (0, [], A)
  end.

Fixpoint run_store (bs : Z) (ops : list CacheOp) (A : Z -> Z) : list (Z * list Z) * (Z -> Z) :=
  match ops with
  | [] => ([], A)
  | op :: ops => let '(r, d, A) := store_op bs op A in let (rs, A) := run_store bs ops A in ((r, d) :: rs, A)
  end.

(** Operations inside the device whose writes only clear bits of what is stored. *)
Definition op_legal (bs bc : Z) (A : Z -> Z) (op : CacheOp) : Prop :=
  match op with
  | CRead blk offset size => 0 <= blk < bc /\ 0 <= offset /\ 0 <= size /\ offset + size <= bs
  | CWrite blk offset buf => 0 <= blk < bc /\ 0 <= offset /\ offset + Z.of_nat (length buf) <= bs /\ all_bytes buf /\ clears_bits A (blk * bs + offset) buf (Z.of_nat (length buf))
  | CErase blk => 0 <= blk < bc
  | CSync => True
  end.

Fixpoint run_legal (bs bc : Z) (A : Z -> Z) (ops : list CacheOp) : Prop :=
  match ops with
  | [] => True
  | op :: ops => op_legal bs bc A op /\ run_legal bs bc (store_op bs op A).2 ops
  end.

(** An upper bound of the page accesses. *)
Definition op_cost (op : CacheOp) : Z := match op with CRead _ _ size => size | CWrite _ _ buf => Z.of_nat (length buf) | _ => 0 end.
Definition run_cost (ops : list CacheOp) : Z := foldr (fun op n => op_cost op + n) 0 ops.

Lemma op_cost_nonneg bs bc A op : op_legal bs bc A op -> 0 <= op_cost op.
Proof. destruct op; cbn; lia. Qed.

Lemma run_cost_nonneg bs bc ops A : run_legal bs bc A ops -> 0 <= run_cost ops.
Proof.
  revert A. induction ops as [|op ops IH]; intros A; cbn; [done|]. intros [H1 H2]. pose proof (op_cost_nonneg _ _ _ _ H1). specialize (IH _ H2). unfold run_cost in IH. lia.
Qed.

Lemma cache_op_ok data_addr stack attempts op A c :
  (0 < attempts)%nat -> cache_ok A None c -> op_legal (block_size_ (flash_ c)) (block_count_ (flash_ c)) A op -> tick_counter_ c + op_cost op < 4294967295 ->
  (cache_op data_addr stack attempts op c).1 = (store_op (block_size_ (flash_ c)) op A).1 /\
  let c' := (cache_op data_addr stack attempts op c).2 in
  cache_ok (store_op (block_size_ (flash_ c)) op A).2 None c' /\ same_geom c c' /\ tick_counter_ c' <= tick_counter_ c + op_cost op.
Proof.
  intros Hatt Hok Hl Ht. destruct op as [blk offset size|blk offset buf|blk|]; cbn [cache_op store_op op_legal op_cost fst snd] in *.
  - destruct Hl as (Hb & Ho & Hs & Hr). destruct (photon_read_ok data_addr stack attempts Hatt A c blk offset size Hok Hb Ho Hs Hr Ht) as (c' & -> & H). done.
  - destruct Hl as (Hb & Ho & Hr & Hby & Hc). destruct (photon_write_ok data_addr stack attempts Hatt A c blk offset buf Hok Hb Ho Hr Ht Hby Hc) as (c' & -> & H). done.
  - destruct (photon_erase_ok A c blk Hok Hl) as (c' & -> & H1 & H2 & H3). unfold addr_of in H1. rewrite Z.add_0_r in H1. cbn [fst snd]. split; [done|]. split; [done|]. split; [done|]. lia.
  - destruct (photon_sync_ok data_addr A c Hok) as (c' & -> & H1 & H2 & H3 & _). cbn [fst snd]. split; [done|]. split; [done|]. split; [done|]. lia.
Qed.

Lemma run_cache_ok data_addr stack attempts ops A c :
  (0 < attempts)%nat -> cache_ok A None c -> run_legal (block_size_ (flash_ c)) (block_count_ (flash_ c)) A ops -> tick_counter_ c + run_cost ops < 4294967295 ->
  (run_cache data_addr stack attempts ops c).1 = (run_store (block_size_ (flash_ c)) ops A).1 /\
  cache_ok (run_store (block_size_ (flash_ c)) ops A).2 None (run_cache data_addr stack attempts ops c).2 /\
  same_geom c (run_cache data_addr stack attempts ops c).2.
Proof.
  intros Hatt. revert A c. induction ops as [|op ops IH]; intros A c Hok Hl Ht; cbn [run_cache run_store run_legal run_cost foldr] in *; [done|]. destruct Hl as [Hop Hl].
  pose proof (run_cost_nonneg _ _ _ _ Hl) as Hc. fold (run_cost ops) in Ht. destruct (cache_op_ok data_addr stack attempts op A c Hatt Hok Hop ltac:(lia)) as [E H].
  destruct (cache_op data_addr stack attempts op c) as [[r d] c1], (store_op (block_size_ (flash_ c)) op A) as [[r' d'] A1]. cbn [fst snd] in *. injection E as -> ->.
  destruct H as (Hok1 & (G1 & G2 & G3) & Ht1). rewrite <- G1, <- G2 in Hl. destruct (IH A1 c1 Hok1 Hl ltac:(lia)) as (E1 & E2 & S1 & S2 & S3). rewrite G1 in E1, E2.
  destruct (run_cache data_addr stack attempts ops c1) as [rs c2], (run_store (block_size_ (flash_ c)) ops A1) as [rs' A2]. cbn [fst snd] in *. subst. split; [done|]. split; [done|]. split; [congruence|split; congruence].
Qed.

(** C27: The cache is transparent: through any sequence of reads, writes that only clear
    bits of what is stored, erasures and syncs inside the device, every status and every
    byte read is that of a plain store of bytes, and a final [sync] succeeds and leaves
    exactly those bytes in the flash. *)
Theorem photon_cache_transparent data_addr stack attempts ops fl :
  (0 < attempts)%nat -> flash_ok fl -> (exists k, 0 <= k <= 8 /\ page_size_ fl = 2 ^ k) -> (page_size_ fl | block_size_ fl) ->
  run_legal (block_size_ fl) (block_count_ fl) (zlookup (memory_ fl)) ops -> run_cost ops < 4294967295 ->
  let c := (run_cache data_addr stack attempts ops (photon_ctor fl)).2 in
  let A := (run_store (block_size_ fl) ops (zlookup (memory_ fl))).2 in
  (run_cache data_addr stack attempts ops (photon_ctor fl)).1 = (run_store (block_size_ fl) ops (zlookup (memory_ fl))).1 /\
  (photon_sync data_addr c).1 = 0 /\
  forall a, 0 <= a < block_size_ fl * block_count_ fl -> zlookup (memory_ (flash_ (photon_sync data_addr c).2)) a = A a.
Proof.
  intros Hatt Hf Hk Hd Hl Hc. cbv zeta. pose proof (photon_ctor_ok fl Hf Hk Hd) as Hok.
  destruct (run_cache_ok data_addr stack attempts ops (zlookup (memory_ fl)) (photon_ctor fl) Hatt Hok Hl Hc) as (E & Hok' & H1 & H2 & _). split; [exact E|].
  destruct (photon_sync_ok data_addr _ _ Hok') as (c' & -> & _ & (G1 & G2 & _) & _ & Hm & _). split; [done|].
  intros a Ha. apply Hm. unfold in_store. cbn [snd]. rewrite G1, G2, H1, H2. done.
Qed.

(** * A small device: two blocks of 40 bytes in pages of 4 *)

Definition small_flash : Flash := mkFlash (replicate 80 255) 40 2 4 0 0.
Definition small_addr (i : Z) : Z := 0.

Lemma small_flash_ok : flash_ok small_flash.
Proof. split; cbn; [lia|lia|]. apply (Forall_replicate is_byte 80 255). unfold is_byte. lia. Qed.

Definition small_ops : list CacheOp := [CWrite 0 2 [1; 2; 3; 4]; CRead 0 0 8; CErase 0; CWrite 1 4 [9]; CRead 0 0 4; CRead 1 3 3; CSync].

Lemma photon_cache_transparent_witness :
  (run_cache small_addr [] 1 small_ops (photon_ctor small_flash)).1 = [(4, []); (8, [255; 255; 1; 2; 3; 4; 255; 255]); (0, []); (1, []); (4, [255; 255; 255; 255]); (3, [255; 9; 255]); (0, [])].
Proof.
  rewrite (proj1 (photon_cache_transparent small_addr [] 1 small_ops small_flash ltac:(lia) small_flash_ok ltac:(exists 2; split; [lia|reflexivity]) ltac:(exists 10; reflexivity)
    ltac:(cbn [small_ops run_legal op_legal store_op snd]; repeat split; try (cbn; lia); try (repeat constructor; lia);
      intros x Hx; cbn in Hx; assert (x = 0 \/ x = 1 \/ x = 2 \/ x = 3) as [->|[->|[->| ->]]] by lia; (reflexivity || lia)) ltac:(reflexivity))).
  vm_compute. reflexivity.
Defined.

(** * Where the cache is not transparent *)

(** Reading pages to push others out. *)
Definition touch_pages (blk n : Z) (c : Photon) : Photon := foldl (fun c i => (photon_read small_addr [] (fun c => c) (fun c => c) 1 blk (4 * i) 1 c).2) c (seqZ 0 n).

(** A write that sets bits reads back as written only until its page is evicted: the
    flash has and-ed it with what it held. *)
Theorem set_bits_lost_on_eviction :
  let write blk off buf c := (photon_write small_addr [] (fun c => c) (fun c => c) 1 blk off buf (Z.of_nat (length buf)) c).2 in
  let read c := (photon_read small_addr [] (fun c => c) (fun c => c) 1 0 0 1 c).1 in
  let c0 := (photon_sync small_addr (write 0 0 [1] (photon_ctor small_flash))).2 in
  let c1 := write 0 0 [6] c0 in
  read c1 = (1, [6]) /\ read (touch_pages 1 8 c1) = (1, [0]).
Proof. vm_compute. done. Qed.

(** A read outside the device succeeds and returns what the stack held: the failure of
    the flash is not looked at. *)
Theorem read_outside_returns_stack a b c d : (photon_read small_addr [a; b; c; d] (fun c => c) (fun c => c) 1 9 0 4 (photon_ctor small_flash)).1 = (4, [a; b; c; d]).
Proof. reflexivity. Qed.

(** One write outside the device, which reports success, wedges the cache: its page can
    never be written back, and once it is the oldest every miss fails, also after [sync]
    and for pages inside the device. *)
Theorem write_outside_wedges :
  let w := photon_write small_addr [] (fun c => c) (fun c => c) 1 9 0 [1] 1 (photon_ctor small_flash) in
  let c := touch_pages 0 7 w.2 in
  w.1 = 1 /\ (photon_read small_addr [] (fun c => c) (fun c => c) 1 1 0 1 c).1 = (-1, []) /\
  (photon_sync small_addr c).1 = -1 /\
  (photon_read small_addr [] (fun c => c) (fun c => c) 1 1 0 1 (photon_sync small_addr c).2).1 = (-1, []).
Proof. vm_compute. done. Qed.

(** An erasure that runs while a page of the block is being loaded is meant to cancel the
    load; but when another thread takes the slot for its own load before the first one
    resumes, the first one mistakes the new reservation for its own and publishes the
    bytes from before the erasure. *)
Theorem erase_race_exposes_stale :
  let c0 := (photon_sync small_addr (photon_write small_addr [] (fun c => c) (fun c => c) 1 0 0 [7; 7; 7; 7] 4 (photon_ctor small_flash)).2).2 in
  let c1 := photon_ctor (flash_ c0) in
  let a := begin_page small_addr 0 0 c1 in
  let tmp := read_page [] 0 0 a.2 in
  let c2 := (photon_erase 0 a.2).2 in
  let other := begin_page small_addr 1 0 c2 in
  exists i, a.1 = Loading i /\ other.1 = Loading i /\
    (finish_page i 0 0 tmp other.2).1 = Some i /\
    (photon_read small_addr [] (fun c => c) (fun c => c) 1 0 0 4 (finish_page i 0 0 tmp other.2).2).1 = (4, [7; 7; 7; 7]) /\
    is_erased 0 0 40 (flash_ other.2) = true.
Proof. exists 7. vm_compute. done. Qed.

(** The device's range check wraps around: an offset just below 2^32 passes it, and the
    byte read lies before the block. *)
Theorem wrapped_range_accepted f b :
  flash_ok f -> 1 <= b < block_count_ f -> read_blocks b 4294967295 1 f = Some [zlookup (memory_ f) (addr_of f b 0 - 1)].
Proof.
  intros Hf Hb. pose proof Hf as [[H1 H2] H3 _]. pose proof (range_in_memory f b 0 0 Hf ltac:(unfold good_range; lia)) as [Ha Hr]. unfold read_blocks, bad_range, phys_addr, addr_of in *. rewrite Z.add_0_r in *.
  destruct (Z.leb_spec (block_count_ f) b); [lia|]. change (wrap32 (4294967295 + 1)) with 0. destruct (Z.ltb_spec (block_size_ f) 0); [lia|]. cbn [orb].
  assert (0 < b * block_size_ f) by nia. rewrite (wrap32_small (b * block_size_ f)) by (unfold is_u32; lia). replace (wrap32 (b * block_size_ f + 4294967295)) with (b * block_size_ f - 1); [done|].
  unfold wrap32. symmetry. replace (b * block_size_ f + 4294967295) with (b * block_size_ f - 1 + 1 * 4294967296) by lia. rewrite Z.mod_add by lia. apply Z.mod_small. lia.
Qed.
