(* ===== verification/IdsClaims.v ===== *)
(** Theorems on the intrusion detection (security/ids): the signature search finds
    exactly the first occurrence, alerts are aggregated, frames are read in bounds, and
    what the statistics do. *)
From S2P Require Import Prelude Kernel SecMon Text Aho AhoInv Ids.
From stdpp Require Import strings.
#[local] Open Scope Z_scope.

(** * Signatures *)

(** Adding patterns one after the other; [None] when one is refused. *)
Fixpoint load_patterns (ps : list (list Z)) (ac : AhoCorasick) : option AhoCorasick :=
  match ps with
  | [] => Some ac
  | p :: ps => let (id, ac) := add_pattern p ac in if id =? -1 then None else load_patterns ps ac
  end.

Lemma load_patterns_ok ps ac lab pats ac' : ac_ok ac lab pats -> load_patterns ps ac = Some ac' -> exists lab', ac_ok ac' lab' (pats ++ ps).
Proof.
  revert ac lab pats. induction ps as [|p ps IH]; intros ac lab pats Hok; cbn [load_patterns]; [intros [= <-]; exists lab; by rewrite app_nil_r|].
  pose proof (add_pattern_ok p ac lab pats Hok) as Ha. destruct (add_pattern p ac) as [id ac1]. destruct Ha as (lab1 & [[-> H1]|[-> _]]); [|done].
  destruct (Z.eqb_spec (Z.of_nat (length pats)) (-1)); [lia|]. intros Hl. destruct (IH ac1 lab1 (pats ++ [p]) H1 Hl) as (lab2 & H2). exists lab2. by rewrite <- app_assoc in H2.
Qed.

(** Pattern [p] occurs in [data] so that [pre] is before it. *)
Definition occurs (p pre data : list Z) : Prop := exists post, data = pre ++ p ++ post.

Lemma naive_spec pats seen data :
  (forall p, p ∈ pats -> p <> []) ->
  let r := naive_from pats seen data in
  (r = -1 /\ forall x y p, data = x ++ y -> x <> [] -> p ∈ pats -> ~ p `suffix_of` seen ++ x) \/
  (exists p x y, 0 <= r /\ pats !! Z.to_nat r = Some p /\ data = x ++ y /\ p `suffix_of` seen ++ x /\
    forall q x' y', q ∈ pats -> data = x' ++ y' -> x' <> [] -> q `suffix_of` seen ++ x' -> (length x <= length x')%nat /\ (length x = length x' -> (length q <= length p)%nat)).
Proof.
  intros Hne. cbv zeta. revert seen. induction data as [|b data IH]; intros seen; cbn [naive_from].
  { left. split; [done|]. intros x y p E. symmetry in E. apply app_eq_nil in E as [-> _]. done. }
  destruct (best_spec pats (seen ++ [b]) Hne) as [[E Hn]|(p & Hr & Hl & Hs & Hm)].
  - rewrite E. cbn [Z.eqb Z.opp Pos.eqb].
    assert (Hfirst : forall q x y, q ∈ pats -> b :: data = x ++ y -> x <> [] -> q `suffix_of` seen ++ x -> exists x', x = b :: x' /\ x' <> [] /\ data = x' ++ y).
    { intros q x y Hq Ex Hx Hsuf. destruct x as [|c x]; [done|]. injection Ex as -> Ed. exists x. split; [done|]. split; [|done]. intros ->. by apply (Hn q). }
    destruct (IH (seen ++ [b])) as [[E1 H1]|(p & x & y & H1 & H2 & -> & H4 & H5)].
    + left. split; [done|]. intros x y p Ex Hx Hp Hsuf. destruct (Hfirst p x y Hp Ex Hx Hsuf) as (x' & -> & Hx' & Ed). apply (H1 x' y p Ed Hx' Hp). by rewrite <- app_assoc.
    + right. exists p, (b :: x), y. split; [done|]. split; [done|]. split; [done|]. rewrite <- app_assoc in H4. split; [done|].
      intros q x0 y0 Hq Ex Hx Hsuf. destruct (Hfirst q x0 y0 Hq Ex Hx Hsuf) as (x' & -> & Hx' & Ed). destruct (H5 q x' y0 Hq Ed Hx') as [H6 H7]; [by rewrite <- app_assoc|]. cbn [length]. split; [lia|]. intros El. apply H7. lia.
  - destruct (Z.eqb_spec (best pats (seen ++ [b])) (-1)); [lia|]. right. exists p, [b], data. split; [done|]. split; [done|]. split; [done|]. split; [done|].
    intros q x' y' Hq Ex Hx Hsuf. destruct x' as [|c x']; [done|]. injection Ex as -> Ed. split; [cbn; lia|]. intros El. destruct x'; [|cbn in El; lia]. by apply Hm.
Qed.

(** C20: The automaton finds exactly what is there: for any patterns that were all
    accepted, after building the failure links a search returns -1 precisely when no
    pattern occurs in the data; otherwise it returns a pattern that occurs, whose
    occurrence ends no later than any other, and the longest of those that end there. *)
Theorem aho_search_exact ac0 ps ac data :
  length (ac_nodes ac0) = 96%nat -> length (ac_edges ac0) = 192%nat -> length (queue_ ac0) = 96%nat ->
  load_patterns ps (ac_reset ac0) = Some ac ->
  let r := ac_search (ac_build ac) data in
  (r = -1 /\ forall p pre, p ∈ ps -> ~ occurs p pre data) \/
  (exists p pre, 0 <= r /\ ps !! Z.to_nat r = Some p /\ occurs p pre data /\
    forall q pre', q ∈ ps -> occurs q pre' data ->
      (length (pre ++ p) <= length (pre' ++ q))%nat /\ (length (pre ++ p) = length (pre' ++ q) -> (length q <= length p)%nat)).
Proof.
  intros L1 L2 L3 Hl. cbv zeta. destruct (load_patterns_ok ps _ _ _ _ (ac_reset_ok ac0 L1 L2 L3) Hl) as (lab & Hok). cbn [app] in Hok.
  rewrite (ac_search_ok _ lab ps data (ac_build_ok _ _ _ Hok)). assert (Hne : forall p, p ∈ ps -> p <> []) by (intros p Hp; by apply (ao_pats _ _ _ Hok)).
  assert (Hocc : forall q pre', q ∈ ps -> occurs q pre' data -> exists y, data = (pre' ++ q) ++ y /\ pre' ++ q <> [] /\ q `suffix_of` [] ++ (pre' ++ q)).
  { intros q pre' Hq (post & ->). exists post. rewrite <- app_assoc. split; [done|]. split; [intros [_ ->]%app_eq_nil; by apply (Hne [])|by exists pre']. }
  destruct (naive_spec ps [] data Hne) as [[E H]|(p & x & y & H1 & H2 & Ed & [pre Ex] & H5)].
  - left. split; [done|]. intros p pre Hp Ho. destruct (Hocc p pre Hp Ho) as (y & Ey & Hx & Hs). exact (H (pre ++ p) y p Ey Hx Hp Hs).
  - right. cbn [app] in Ex. subst x. exists p, pre. split; [done|]. split; [done|]. split; [exists y; by rewrite app_assoc|]. intros q pre' Hq Ho.
    destruct (Hocc q pre' Hq Ho) as (y' & Ey & Hx & Hs). exact (H5 q (pre' ++ q) y' Hq Ey Hx Hs).
Qed.

Lemma aho_search_exact_witness :
  exists ac, load_patterns [str "he"; str "she"; str "hers"] (ac_reset ac_ctor) = Some ac /\ ac_search (ac_build ac) (str "ushers") = 1 /\
    forall q pre, q ∈ [str "he"; str "she"; str "hers"] -> occurs q pre (str "ushers") -> (4 <= length (pre ++ q))%nat.
Proof.
  destruct (load_patterns [str "he"; str "she"; str "hers"] (ac_reset ac_ctor)) as [ac|] eqn:El; [|vm_compute in El; discriminate].
  assert (Er : ac_search (ac_build ac) (str "ushers") = 1) by (apply (f_equal (fun o => match o with Some a => ac_search (ac_build a) (str "ushers") | None => 0 end)) in El; rewrite <- El; vm_compute; reflexivity).
  exists ac. split; [reflexivity|]. split; [exact Er|]. intros q pre Hq Ho.
  destruct (aho_search_exact ac_ctor [str "he"; str "she"; str "hers"] ac (str "ushers") eq_refl eq_refl eq_refl El) as [[E _]|(p & pre0 & _ & Ep & (post & Eo) & H)]; [rewrite Er in E; discriminate|].
  rewrite Er in Ep. change (Some (str "she") = Some p) in Ep. injection Ep as <-. destruct (H q pre Hq Ho) as [H1 _]. assert (Hlen : (4 <= length (pre0 ++ str "she"))%nat); [|lia].
  destruct pre0 as [|c pre0]; [vm_compute in Eo; discriminate|]. rewrite length_app. change (length (str "she")) with 3%nat. cbn [length]. lia.
Defined.

(** The patterns of the default rules, cut at their stated lengths. *)
Definition default_patterns : list (list Z) := (fun r => take (Z.to_nat (sig_len r)) (sig_pattern r)) <$> default_rules_.

Lemma search_none ac lab ps data : built ac lab ps -> ac_search ac data = -1 <-> forall p pre, p ∈ ps -> ~ occurs p pre data.
Proof.
  intros Hb. rewrite (ac_search_ok ac lab ps data Hb). assert (Hne : forall p, p ∈ ps -> p <> []) by (intros p Hp; by apply (bu_pats _ _ _ Hb)).
  destruct (naive_spec ps [] data Hne) as [[E H]|(p & x & y & H1 & H2 & Ed & [pre Ex] & _)].
  - split; [|done]. intros _ p pre Hp (post & Eo). apply (H (pre ++ p) post p); [by rewrite <- app_assoc|intros [_ ->]%app_eq_nil; by apply (Hne [])|done|by exists pre].
  - split; [intros E; lia|]. intros Hno. exfalso. apply (Hno p pre); [by eapply list_elem_of_lookup_2|]. exists y. cbn [app] in Ex. by rewrite Ed, Ex, <- app_assoc.
Qed.

(** The default database raises a signature alert for a payload precisely when one of its
    six patterns occurs in it. *)
Theorem default_signatures_exact payload :
  sig_match (sigdb_init ac_ctor) payload = -1 <-> forall p pre, p ∈ default_patterns -> ~ occurs p pre payload.
Proof.
  assert (Hl : exists ac, load_patterns default_patterns (ac_reset ac_ctor) = Some ac /\ sigdb_init ac_ctor = ac_build ac) by (eexists; split; [vm_compute; reflexivity|vm_compute; reflexivity]).
  destruct Hl as (ac & Hl & ->). destruct (load_patterns_ok _ _ _ _ _ (ac_reset_ok ac_ctor eq_refl eq_refl eq_refl) Hl) as (lab & Hok). pose proof (ac_build_ok _ _ _ Hok) as Hb. cbn [app] in Hb.
  rewrite <- (search_none _ lab _ payload Hb). unfold sig_match. destruct payload as [|b payload]; [done|]. destruct (Z.leb_spec (Z.of_nat (length (b :: payload))) 0); [cbn in *; lia|done].
Qed.

(** * Alerts *)

(** Alerts of one kind at the times [ts]. *)
Definition submit_all (cat : IdsCategory) (sev : IdsSeverity) (src dst sport dport : Z) (desc : list Z) (ts : list Z) (w : IdsWorld) : IdsWorld :=
  foldl (fun w t => submit t cat sev src dst sport dport desc w) w ts.

(** Each time is at most 5 seconds after the one before. *)
Fixpoint dense (t : Z) (ts : list Z) : Prop :=
  match ts with
  | [] => True
  | t' :: ts => wrap32 (t' - t) <= kDedupWindowMs /\ dense t' ts
  end.

Lemma report_keeps now a w : alerts_ (am (maybe_report_ now a w)) = alerts_ (am w) /\ alert_count_ (am (maybe_report_ now a w)) = alert_count_ (am w).
Proof. unfold maybe_report_. destruct (_ <? 3); [done|]. destruct (_ <? kReportCooldownMs); [done|]. by destruct (report_firewall_anomaly _ _). Qed.

Definition alerts_ok (m : AlertManager) : Prop := length (alerts_ m) = 64%nat /\ 0 <= alert_count_ m < 4294967296.

Lemma live_position_range m i : alerts_ok m -> i ∈ live_positions m -> 0 <= i < 64.
Proof. intros _ (j & -> & _)%list_elem_of_fmap. unfold kMaxAlerts. apply Z.mod_pos_bound. lia. Qed.

(** A live alert of the kind with timestamp [t]. *)
Definition has_alert (m : AlertManager) (cat : IdsCategory) (src dst t : Z) : Prop :=
  exists i, i ∈ live_positions m /\ al_category (zlookup (alerts_ m) i) = cat /\ al_src_ip (zlookup (alerts_ m) i) = src /\ al_dst_ip (zlookup (alerts_ m) i) = dst /\ al_timestamp (zlookup (alerts_ m) i) = t.

Lemma absorbs_spec now cat src dst a :
  absorbs now cat src dst a = true <-> al_category a = cat /\ al_src_ip a = src /\ al_dst_ip a = dst /\ wrap32 (now - al_timestamp a) <= kDedupWindowMs.
Proof. unfold absorbs. rewrite !andb_true_iff, bool_decide_eq_true, !Z.eqb_eq, Z.leb_le. tauto. Qed.

Lemma live_new_alert count : 0 <= count < 4294967295 -> count mod kMaxAlerts ∈ live_positions (mkAlerts [] (count + 1) 0).
Proof.
  intros Hc. unfold live_positions, kMaxAlerts. cbn [alert_count_]. apply list_elem_of_fmap. exists count. split; [done|]. apply elem_of_seqZ. destruct (Z.ltb_spec 64 (count + 1)); lia.
Qed.

(** One submission: an alert of the kind is there with the time of the submission. *)
Lemma submit_has t cat sev src dst sport dport desc w :
  alerts_ok (am w) -> alert_count_ (am w) < 4294967295 ->
  let w' := submit t cat sev src dst sport dport desc w in
  alerts_ok (am w') /\ has_alert (am w') cat src dst t /\ alert_count_ (am w) <= alert_count_ (am w') <= alert_count_ (am w) + 1 /\
  (forall t0, has_alert (am w) cat src dst t0 -> wrap32 (t - t0) <= kDedupWindowMs -> alert_count_ (am w') = alert_count_ (am w)).
Proof.
  intros [Hl Hc] Hlt. unfold submit. cbv zeta. destruct (List.find _ (live_positions (am w))) as [i|] eqn:Ef.
  - apply List.find_some in Ef as [Hin%list_elem_of_In Ha]. apply absorbs_spec in Ha as (E1 & E2 & E3 & _). pose proof (live_position_range (am w) i (conj Hl Hc) Hin) as Hi.
    set (a := aggregate t sev _). set (w1 := set_am _ w). destruct (report_keeps t a w1) as [R1 R2]. unfold alerts_ok, has_alert, live_positions. rewrite R1, R2. cbn [alerts_ alert_count_ am set_am w1]. rewrite length_zalter.
    split; [done|]. split; [|split; [lia|done]]. exists i. split; [exact Hin|]. rewrite zlookup_zalter_eq by (unfold in_range; lia). done.
  - set (a := mkAlert _ _ _ _ _ _ _ _ _). set (w1 := set_am _ w). destruct (report_keeps t a w1) as [R1 R2]. unfold alerts_ok, has_alert. rewrite R1, R2. cbn [alerts_ alert_count_ am set_am w1]. rewrite length_zalter, wrap32_small by (unfold is_u32; lia).
    pose proof (Z.mod_pos_bound (alert_count_ (am w)) 64 ltac:(lia)) as Hm. split; [lia|]. split; [|split; [lia|]].
    + exists (alert_count_ (am w) mod kMaxAlerts). split; [unfold live_positions; rewrite R2; cbn [alert_count_ am set_am w1]; rewrite wrap32_small by (unfold is_u32; lia); apply live_new_alert; lia|].
      unfold kMaxAlerts. rewrite zlookup_zalter_eq by (unfold in_range; lia). done.
    + intros t0 (i & Hin & E1 & E2 & E3 & E4) Hw. exfalso. apply List.find_none with (x := i) in Ef; [|by apply list_elem_of_In]. apply not_true_iff_false in Ef. apply Ef, absorbs_spec. by rewrite E4.
Qed.

Lemma submit_all_has cat sev src dst sport dport desc ts t w :
  alerts_ok (am w) -> alert_count_ (am w) < 4294967295 -> has_alert (am w) cat src dst t -> dense t ts -> alert_count_ (am (submit_all cat sev src dst sport dport desc ts w)) = alert_count_ (am w).
Proof.
  revert t w. induction ts as [|t' ts IH]; intros t w Hok Hc Hh; cbn [dense submit_all foldl]; [done|]. intros [Hd Hds].
  destruct (submit_has t' cat sev src dst sport dport desc w Hok Hc) as (H1 & H2 & H3 & H4). cbv zeta in *. specialize (H4 t Hh Hd). unfold submit_all in IH. rewrite (IH t'); [done|done|lia|done|done].
Qed.

(** An alert storm makes one alert: however many alerts of one category, source and
    destination arrive, each within 5 seconds of the one before, at most one new alert
    is recorded, and none when the first still falls into the window of a recorded
    one. *)
Theorem alert_storm_aggregated cat sev src dst sport dport desc t ts w :
  alerts_ok (am w) -> alert_count_ (am w) < 4294967294 -> dense t ts ->
  let n := alert_count_ (am (submit_all cat sev src dst sport dport desc (t :: ts) w)) in
  alert_count_ (am w) <= n <= alert_count_ (am w) + 1 /\
  (forall t0, has_alert (am w) cat src dst t0 -> wrap32 (t - t0) <= kDedupWindowMs -> n = alert_count_ (am w)).
Proof.
  intros Hok Hc Hd. cbn [submit_all foldl]. destruct (submit_has t cat sev src dst sport dport desc w Hok ltac:(lia)) as (H1 & H2 & H3 & H4). cbv zeta in *.
  fold (submit_all cat sev src dst sport dport desc ts (submit t cat sev src dst sport dport desc w)). rewrite (submit_all_has cat sev src dst sport dport desc ts t) by (done || lia). split; [lia|done].
Qed.

(** * Frames *)

(** The two buffers have the same first [len] bytes. *)
Definition same_prefix (len : Z) (p q : list Z) : Prop := forall i, i < len -> char_at p i = char_at q i.

(** Two parses that differ at most in what lies behind the payload's end. *)
Definition same_packet (p q : ParsedPacket) : Prop :=
  q = set_l4 (p_src_port p) (p_dst_port p) (p_tcp_flags p) (p_data_off p) (p_payload q) (p_payload_len p) p /\ same_prefix (p_payload_len p) (p_payload p) (p_payload q).

Lemma same_packet_refl p : same_packet p p.
Proof. by destruct p. Qed.

Lemma char_at_from pkt o i : 0 <= o -> 0 <= i -> char_at (bytes_from pkt o) i = char_at pkt (o + i).
Proof. intros Ho Hi. unfold char_at, bytes_from. destruct (Z.leb_spec 0 i), (Z.leb_spec 0 (o + i)); try lia. rewrite nth_skipn. f_equal. lia. Qed.

Section SamePrefix.
Context (len : Z) (p q : list Z) (H : same_prefix len p q).

Lemma read16_same i : i + 1 < len -> read16be p i = read16be q i.
Proof. intros Hi. unfold read16be. by rewrite !H by lia. Qed.

Lemma read32_same i : i + 3 < len -> read32be p i = read32be q i.
Proof. intros Hi. unfold read32be. by rewrite !H by lia. Qed.

Lemma bytes_at_same i n : i + n <= len -> bytes_at p i n = bytes_at q i n.
Proof. intros Hi. unfold bytes_at. apply list_fmap_ext. intros k x Hx%list_elem_of_lookup_2%elem_of_seqZ. apply H. lia. Qed.

Lemma bytes_from_same o : 0 <= o -> same_prefix (len - o) (bytes_from p o) (bytes_from q o).
Proof. intros Ho i Hi. destruct (Z.lt_ge_cases i 0) as [Hn|Hn]; [unfold char_at; destruct (Z.leb_spec 0 i); [lia|done]|]. rewrite !char_at_from by lia. apply H. lia. Qed.

Lemma parse_l4_same x : 0 <= p_ihl x -> same_packet (parse_l4 p len x) (parse_l4 q len x).
Proof.
  intros Hi. unfold parse_l4. set (o := 14 + p_ihl x * 4). assert (Ho : 0 <= o) by lia. destruct (_ =? 6).
  - destruct (Z.ltb_spec len (o + 20)); [apply same_packet_refl|]. rewrite !read16_same, !H by lia. set (d := Z.land _ 15). assert (Hd : 0 <= d) by (apply Z.land_nonneg; lia).
    destruct (d <? 5); [apply same_packet_refl|]. split; [done|]. cbn [p_payload p_payload_len set_l4]. intros i Hl. destruct (Z.ltb_spec (len - (o + d * 4)) 0) as [|Hp]; [|apply bytes_from_same; lia].
    unfold char_at. destruct (Z.leb_spec 0 i); [lia|done].
  - destruct (_ =? 17).
    + destruct (Z.ltb_spec len (o + 8)); [apply same_packet_refl|]. rewrite !read16_same by lia. split; [done|]. cbn [p_payload p_payload_len set_l4]. apply bytes_from_same. lia.
    + split; [done|]. cbn [p_payload p_payload_len set_l4]. by apply bytes_from_same.
Qed.

Lemma parse_packet_same : option_Forall2 same_packet (parse_packet p len) (parse_packet q len).
Proof.
  unfold parse_packet. destruct (Z.ltb_spec len 14); [constructor|]. rewrite read16_same by lia. destruct (_ =? 0x0806).
  { destruct (Z.ltb_spec len 42); constructor; [apply same_packet_refl|]. rewrite read16_same, read32_same, bytes_at_same by lia. apply same_packet_refl. }
  destruct (negb _); [constructor; apply same_packet_refl|]. destruct (Z.ltb_spec len 34); [constructor; apply same_packet_refl|]. rewrite !H by lia. set (ihl := Z.land _ 15). assert (Hi : 0 <= ihl) by (apply Z.land_nonneg; lia).
  destruct (ihl <? 5); [constructor; apply same_packet_refl|]. rewrite !read16_same, !read32_same by lia. destruct (_ <? ihl * 4); [constructor; apply same_packet_refl|]. destruct (_ && _); [constructor; apply same_packet_refl|].
  constructor. by apply parse_l4_same.
Qed.

Lemma dns_name_same fuel pos nl lb : dns_name fuel p len pos nl lb = dns_name fuel q len pos nl lb.
Proof.
  revert pos nl lb. induction fuel as [|fuel IH]; intros pos nl lb; cbn [dns_name]; [done|]. destruct (Z.leb_spec len pos); [done|]. rewrite H by lia.
  destruct (_ =? 0); [done|]. destruct (_ =? 0xC0); [done|]. destruct (_ <? _); [done|]. apply IH.
Qed.
End SamePrefix.

Lemma check_dns_same now th x y t w : same_packet x y -> check_dns_ now th x t w = check_dns_ now th y t w.
Proof.
  intros [-> Hp]. unfold check_dns_. cbn [p_payload p_payload_len p_src_ip p_dst_ip p_src_port p_dst_port set_l4]. destruct (Z.ltb_spec (p_payload_len x) 12); [done|]. rewrite (Hp 2) by lia. destruct (negb _); [done|].
  rewrite (dns_name_same _ _ _ Hp). destruct (dns_name _ _ _ _ _ _) as [[pos nl] lb]. destruct (Z.ltb_spec (p_payload_len x) (pos + 2)); [done|]. by rewrite (read16_same _ _ _ Hp) by lia.
Qed.

Lemma detect_same now x y len e w : same_packet x y -> detect now x len e w = detect now y len e w.
Proof.
  intros Hs. pose proof (fun th t v => check_dns_same now th x y t v Hs) as Hd. destruct Hs as [E Hp]. unfold detect.
  assert (Hb : bytes_at (p_payload x) 0 (p_payload_len x) = bytes_at (p_payload y) 0 (p_payload_len x)) by (apply (bytes_at_same _ _ _ Hp); lia).
  assert (Ht : traffic_packet now y len (flows_ e) = traffic_packet now x len (flows_ e)) by (rewrite E; reflexivity).
  rewrite Hb, Ht. destruct (traffic_packet now x len (flows_ e)) as [f fs]. rewrite Hd. remember (p_payload y) as z eqn:Ez. clear Ez Hb Hp Hd Ht. subst y. by destruct x.
Qed.

(** The detector stays inside the frame: alerts, statistics, tables and the monitor
    after a packet depend only on the first [len] bytes of the buffer, whatever lies
    behind them; a frame of fewer than 14 bytes is counted and otherwise ignored. *)
Theorem ids_reads_in_bounds now p q len e w :
  same_prefix len p q ->
  ids_process_packet now p len e w = ids_process_packet now q len e w /\
  (len < 14 -> ids_enabled_ e = true -> ids_process_packet now p len e w =
     (mkIds (flows_ e) (sigdb_ e) (arp_table_ e) (dns_hosts_ e) (thresholds e) (ids_enabled_ e) (ids_initialized_ e) (wrap32 (packet_count_ e + 1)), w)).
Proof.
  intros H. unfold ids_process_packet, detector_packet. split.
  - destruct (negb _); [done|]. destruct (parse_packet_same len p q H) as [x y Hs|]; [by apply detect_same|done].
  - intros Hl He. rewrite He. cbn [negb]. unfold parse_packet. destruct (Z.ltb_spec len 14); [done|lia].
Qed.

(** * Statistics *)

(** The packet rate is learnt in unsigned arithmetic: after a window quieter than its
    baseline the baseline jumps above 2^30, and the next window is no outlier, whatever
    is sent in it (up to four million packets). *)
Theorem quiet_window_blinds now f :
  0 < fl_baseline f < 16777216 -> 0 <= fl_pkt_count f * 256 < fl_baseline f ->
  let f1 := snd (roll_flow_ now f) in
  1073741824 <= fl_baseline f1 /\
  forall now' g, fl_baseline g = fl_baseline f1 -> 0 <= fl_pkt_count g < 4194304 -> fst (roll_flow_ now' g) = false.
Proof.
  intros Hb Hr. cbn [snd roll_flow_ fl_baseline]. set (r := fl_pkt_count f * 256) in *. pose proof (Z.div_mod (4294967296 + r - fl_baseline f) 4 ltac:(lia)) as Hq. pose proof (Z.mod_pos_bound (4294967296 + r - fl_baseline f) 4 ltac:(lia)) as Hm. rewrite (wrap32_small r) by (unfold is_u32; lia).
  assert (E : wrap32 (fl_baseline f + wrap32 (r - fl_baseline f) / 4) = fl_baseline f + (4294967296 + r - fl_baseline f) / 4).
  { replace (wrap32 (r - fl_baseline f)) with (4294967296 + r - fl_baseline f); [apply wrap32_small; unfold is_u32; lia|]. unfold wrap32. rewrite <- (Z_mod_plus_full (r - fl_baseline f) 1). rewrite Z.mod_small; lia. }
  rewrite E. set (b := fl_baseline f + _). assert (Hb1 : 1073741824 <= b < 1207959552) by (unfold b; lia). split; [lia|]. intros now' g Eg Hg. cbn [fst roll_flow_]. rewrite Eg.
  rewrite !wrap32_small by (unfold is_u32; rewrite ?wrap32_small by (unfold is_u32; lia); lia). destruct (Z.ltb_spec (b * 2 + 5120) (fl_pkt_count g * 256)); [lia|apply andb_false_r].
Qed.

(** The recorded ports and hosts of a flow: distinct, at most 16 and 8. *)
Definition flow_ok (f : HostFlow) : Prop := NoDup (fl_ports f) /\ (length (fl_ports f) <= 16)%nat /\ NoDup (fl_hosts f) /\ (length (fl_hosts f) <= 8)%nat.

Lemma record_ok cap x seen : NoDup seen -> (length seen <= cap)%nat -> NoDup (record_seen cap x seen) /\ (length (record_seen cap x seen) <= cap)%nat.
Proof.
  intros Hn Hl. unfold record_seen. destruct (existsb (Z.eqb x) seen) eqn:E; [done|]. destruct (Nat.ltb_spec (length seen) cap); [|done]. rewrite length_app. split; [|cbn; lia].
  apply NoDup_app. split; [done|]. split; [|apply NoDup_singleton]. intros y Hy ->%list_elem_of_singleton. apply not_true_iff_false in E. apply E, existsb_exists. exists x. by rewrite Z.eqb_refl, <- list_elem_of_In.
Qed.

Lemma flow_packet_ok p n f : flow_ok f -> flow_ok (flow_packet p n f).
Proof.
  intros (H1 & H2 & H3 & H4). unfold flow_ok, flow_packet. cbn [fl_ports fl_hosts]. destruct (record_ok 16 (p_dst_port p) _ H1 H2), (record_ok 8 (p_dst_ip p) _ H3 H4). by destruct (_ && _).
Qed.

Lemma flow_new_ok src now : flow_ok (mkFlow true src 0 0 0 [] [] now 0).
Proof. split; [constructor|]. split; [cbn; lia|]. split; [constructor|cbn; lia]. Qed.

Lemma Forall_zalter {A} `{!Inhabited A} (P : A -> Prop) g i l : (forall x, P x -> P (g x)) -> Forall P l -> Forall P (zalter g i l).
Proof. intros Hg Hl. unfold zalter. destruct (0 <=? i); [|done]. apply Forall_alter; [done|]. intros x _ Hx. by apply Hg. Qed.

(** A window keeps the sets of every host distinct and within their arrays, so the lengths compared with the scan thresholds count distinct ports
    and hosts of the window. *)
Theorem scan_sets_exact now p n flows : Forall flow_ok flows -> Forall flow_ok (snd (traffic_packet now p n flows)) /\ Forall flow_ok (snd (traffic_tick now flows)).
Proof.
  intros Hf. split.
  - unfold traffic_packet, get_or_create_. destruct (List.find _ _) as [i|]; [cbn [snd]; apply Forall_zalter; [apply flow_packet_ok|done]|].
    destruct (List.find _ _) as [i|]; [|done]. cbn [snd]. apply Forall_zalter; [apply flow_packet_ok|]. apply Forall_zalter; [intros; apply flow_new_ok|done].
  - induction Hf as [|f fs Hf Hfs IH]; cbn [traffic_tick]; [constructor|]. destruct (traffic_tick now fs) as [k fs']. cbn [snd] in IH. destruct (_ && _); [|by constructor]. destruct (roll_flow_ now f) as [o g] eqn:E.
    unfold roll_flow_ in E. injection E as _ <-. constructor; [|done]. split; [constructor|]. split; [cbn; lia|]. split; [constructor|cbn; lia].
Qed.
