(* ===== verification/HidsClaims.v ===== *)
(** Theorems on the host intrusion detection (security/hids): which changes of a file are
    found, what the scans of the task table count, and what escapes them. *)
From S2P Require Import Prelude Kernel Scheduler Heap HeapInv HeapOps HeapSpec HeapClaims SecMon Text RamFs Vfs VfsClaims Aho Ids Hids.
From stdpp Require Import strings.
#[local] Open Scope Z_scope.

(** * The hash *)

Definition byte (b : Z) : Prop := 0 <= b < 256.

Lemma lxor_byte_u32 h b : is_u32 h -> byte b -> is_u32 (Z.lxor h b).
Proof.
  intros Hh Hb. assert (H0 : 0 <= Z.lxor h b) by (apply Z.lxor_nonneg; unfold is_u32, byte in *; lia). split; [done|].
  change 4294967296 with (2 ^ 32). apply bits_bound; [done|lia|]. intros j Hj. rewrite Z.lxor_spec, (bits_above h 32), (bits_above b 32) by (unfold is_u32, byte in *; lia). done.
Qed.

(** Multiplication by the prime can be undone modulo 2^32. *)
Lemma fnv_step_inj h h' b b' : is_u32 h -> is_u32 h' -> byte b -> byte b' -> fnv_step h b = fnv_step h' b' -> Z.lxor h b = Z.lxor h' b'.
Proof.
  intros H1 H2 H3 H4 E. pose proof (lxor_byte_u32 h b H1 H3) as Hx. pose proof (lxor_byte_u32 h' b' H2 H4) as Hy. unfold fnv_step in E.
  assert (U : forall x, is_u32 x -> wrap32 (wrap32 (x * 16777619) * 899433627) = x).
  { intros x Hx'. unfold wrap32. rewrite Z.mul_mod_idemp_l by lia. replace (x * 16777619 * 899433627) with (x + x * 3513497 * 4294967296) by lia. rewrite Z_mod_plus_full. apply Z.mod_small. exact Hx'. }
  rewrite <- (U _ Hx), <- (U _ Hy). by rewrite E.
Qed.

Lemma fnv_step_u32 h b : is_u32 (fnv_step h b).
Proof. apply wrap32_range. Qed.

Lemma fnv_fold_u32 data h : is_u32 h -> is_u32 (foldl fnv_step h data).
Proof. revert h. induction data as [|b data IH]; intros h Hh; cbn [foldl]; [done|]. apply IH, fnv_step_u32. Qed.

Lemma fnv_fold_inj data h h' : Forall byte data -> is_u32 h -> is_u32 h' -> foldl fnv_step h data = foldl fnv_step h' data -> h = h'.
Proof.
  intros Hd. revert h h'. induction Hd as [|b data Hb Hd IH]; intros h h' H1 H2 E; cbn [foldl] in E; [done|].
  apply IH in E; [|apply fnv_step_u32|apply fnv_step_u32]. apply fnv_step_inj in E; [|done..]. apply (f_equal (fun x => Z.lxor x b)) in E. by rewrite !Z.lxor_assoc, !Z.lxor_nilpotent, !Z.lxor_0_r in E.
Qed.

(** The two contents differ in exactly one byte. *)
Definition one_byte_changed (x y : list Z) : Prop := exists pre a b post, x = pre ++ a :: post /\ y = pre ++ b :: post /\ a <> b.

Lemma fnv_one_byte x y : Forall byte x -> Forall byte y -> one_byte_changed x y -> fnv1a32 x <> fnv1a32 y.
Proof.
  intros Hx Hy (pre & a & b & post & -> & -> & Hne) E. apply Forall_app in Hx as [_ [Ha Hp]%Forall_cons], Hy as [_ [Hb _]%Forall_cons].
  unfold fnv1a32 in E. rewrite !foldl_app in E. cbn [foldl] in E. assert (Hh : is_u32 (foldl fnv_step 2166136261 pre)) by (apply fnv_fold_u32; unfold is_u32; lia).
  apply fnv_fold_inj in E; [|done|apply fnv_step_u32|apply fnv_step_u32]. apply fnv_step_inj in E; [|done..]. apply Hne.
  apply (f_equal (Z.lxor (foldl fnv_step 2166136261 pre))) in E. by rewrite <- !Z.lxor_assoc, !Z.lxor_nilpotent, !Z.lxor_0_l in E.
Qed.

(** * File integrity *)

Section Integrity.
Context {W : Type} `{!VNode W} (holds : Z -> list Z -> W -> Prop) `{!RegularFiles holds}.
Variable ipc : Z -> VfsRequest -> VfsServer -> W -> VfsReply * VfsServer * W.

(** The path can be opened, and what is mounted over it holds [c]. *)
Definition served (path c : list Z) (v : VfsServer) (w : W) : Prop :=
  table_ok v /\ (forall m, m ∈ mounted v -> covers m (req_path path) -> forall c', holds (mnt_vnode m) c' w <-> c' = c) /\ 0 <= (mgr_open (-1) ipc path 0 v w).1.1.

Definition content_hash (c : list Z) : Z := if bool_decide (c = []) then 0 else fnv1a32 (take 256 c).

Lemma file_hash_served path c v w : served path c v w -> (file_hash (-1) ipc path v w).1.1 = content_hash c.
Proof.
  intros (Ht & Hc & Hfd). unfold file_hash, read_file_. destruct (mgr_open (-1) ipc path 0 v w) as [[fd v1] w1] eqn:Eo. cbn [fst] in Hfd. destruct (Z.ltb_spec fd 0); [lia|].
  assert (Hcov : forall m, m ∈ mounted v -> covers m (req_path path) -> exists c', holds (mnt_vnode m) c' w) by (intros m Hm Hcv; exists c; by apply Hc).
  destruct (mgr_open_ok holds ipc path 0 v w fd v1 w1 Ht Hcov Eo Hfd) as (m & c' & Hm & Hcv & Hh & Hh1 & Hop). apply (Hc m Hm Hcv) in Hh as ->.
  destruct (mgr_read_ok holds ipc v1 w1 fd _ 0 c kReadBufSize Hop Hh1 ltac:(lia) ltac:(unfold kReadBufSize; lia)) as (v2 & w2 & -> & _ & _).
  destruct (mgr_close (-1) ipc fd v2 w2) as [[st v3] w3]. cbn [fst]. unfold content_hash, spec_read. change (Z.to_nat 0) with 0%nat. rewrite drop_0. change (Z.to_nat kReadBufSize) with 256%nat.
  destruct c as [|x c]; [done|]. rewrite bool_decide_eq_false_2 by done. destruct (Z.ltb_spec 0 (Z.of_nat (length (take 256 (x :: c))))); [done|cbn in *; lia].
Qed.

(** What a path shows when it is read: contents, or nothing because it cannot be opened. *)
Definition shows (path : list Z) (o : option (list Z)) (v : VfsServer) (w : W) : Prop :=
  match o with
  | Some c => served path c v w
  | None => (mgr_open (-1) ipc path 0 v w).1.1 < 0
  end.

Definition hash_of (o : option (list Z)) : Z := match o with Some c => content_hash c | None => 0 end.

Lemma file_hash_shows path o v w : shows path o v w -> (file_hash (-1) ipc path v w).1.1 = hash_of o.
Proof.
  destruct o as [c|]; [apply file_hash_served|]. cbn [shows hash_of]. intros Hn. unfold file_hash, read_file_.
  destruct (mgr_open (-1) ipc path 0 v w) as [[fd v1] w1]. cbn [fst] in Hn. by destruct (Z.ltb_spec fd 0); [|lia].
Qed.

(** What the monitored files of a table show, each when the scan reaches it: the system may
    change while the files before it are read. *)
Fixpoint table_shows (es : list IntegrityEntry) (os : list (option (list Z))) (v : VfsServer) (w : W) : Prop :=
  match es, os with
  | [], [] => True
  | e :: es, o :: os =>
      if ie_active e
      then shows (ie_path e) o v w /\ let '(_, v, w) := file_hash (-1) ipc (ie_path e) v w in table_shows es os v w
      else table_shows es os v w
  | _, _ => False
  end.

(** Reported as modified: the baseline is not the reserved 0 and the hash differs. *)
Definition modified (o o' : option (list Z)) : bool := negb (hash_of o =? 0) && negb (hash_of o' =? hash_of o).

Fixpoint reported (es : list IntegrityEntry) (os os' : list (option (list Z))) : list (list Z) :=
  match es, os, os' with
  | e :: es, o :: os, o' :: os' =>
      if ie_active e && modified o o' then ie_path e :: reported es os os' else reported es os os'
  | _, _, _ => []
  end.

Lemma baseline_table es os v w :
  table_shows es os v w ->
  (baseline (-1) ipc es v w).1.1 = zip_with (fun e o => if ie_active e then mkEntry (ie_path e) (hash_of o) true else e) es os.
Proof.
  revert os v w. induction es as [|e es IH]; intros [|o os] v w H; cbn [table_shows baseline zip_with] in *; try done. destruct (ie_active e); cbn [negb].
  - destruct H as [Hs H]. pose proof (file_hash_shows _ _ _ _ Hs) as E. destruct (file_hash (-1) ipc (ie_path e) v w) as [[h v1] w1]. cbn [fst] in E. subst h.
    specialize (IH os v1 w1 H). destruct (baseline (-1) ipc es v1 w1) as [[es1 v2] w2]. cbn [fst] in *. by rewrite IH.
  - specialize (IH os v w H). destruct (baseline (-1) ipc es v w) as [[es1 v2] w2]. cbn [fst] in *. by rewrite IH.
Qed.

Lemma verify_table es os os' n f v w :
  length os = length es -> table_shows es os' v w ->
  (verify (-1) ipc (zip_with (fun e o => if ie_active e then mkEntry (ie_path e) (hash_of o) true else e) es os) n f v w).1.1 =
  (n + Z.of_nat (length (reported es os os')), foldl (fun f path => record_finding path (str "file modified") f) f (reported es os os')).
Proof.
  revert os os' n f v w. induction es as [|e es IH]; intros [|o os] [|o' os'] n f v w Hl H; cbn [table_shows] in H; try done.
  { cbn. f_equal. lia. }
  injection Hl as Hl. cbn [zip_with reported]. destruct (ie_active e) eqn:Ea; cbn [andb].
  - destruct H as [Hs H]. pose proof (file_hash_shows _ _ _ _ Hs) as E. cbn [verify ie_active negb ie_path baseline_hash].
    destruct (file_hash (-1) ipc (ie_path e) v w) as [[h v1] w1]. cbn [fst] in E. subst h. fold (modified o o'). destruct (modified o o'); rewrite (IH os os') by done; [|done].
    cbn [length foldl]. f_equal. lia.
  - cbn [verify]. rewrite Ea. cbn [negb]. by apply IH.
Qed.

Lemma modified_spec c c' :
  Forall byte c -> Forall byte c' -> content_hash c <> 0 ->
  (one_byte_changed (take 256 c) (take 256 c') -> modified (Some c) (Some c') = true) /\
  (take 256 c' = take 256 c -> modified (Some c) (Some c') = false).
Proof.
  intros Hc Hc' Hne. unfold modified. cbn [hash_of]. destruct (Z.eqb_spec (content_hash c) 0); [done|]. cbn [negb andb]. split.
  - intros Hch. destruct (Z.eqb_spec (content_hash c') (content_hash c)) as [E|]; [exfalso|done].
    unfold content_hash in *. destruct (bool_decide_reflect (c = [])); [done|]. destruct (bool_decide_reflect (c' = [])) as [->|]; [by rewrite <- E in Hne|].
    apply (fnv_one_byte (take 256 c) (take 256 c')); [by apply Forall_take|by apply Forall_take|done|done].
  - intros E. replace (content_hash c') with (content_hash c); [by rewrite Z.eqb_refl|]. unfold content_hash. rewrite E.
    destruct c as [|x c], c' as [|y c']; try done; destruct (take_0 (@nil Z)); discriminate E.
Qed.

(** C21: File integrity, for a table with any number of monitored files: the baseline is
    taken of what the files show (contents [os], or nothing for a file that cannot be
    opened), and a later scan, in any state of the system, in which they show [os'],
    reports exactly the files in [reported], in table order.  A file whose baseline hash is
    not the reserved 0 is among them when exactly one of its first 256 bytes has
    changed, when it has become empty and when it can no longer be opened, and is not
    among them when those bytes are the same. *)
Theorem tampering_detected es os os' f v w v' w' :
  table_shows es os v w -> table_shows es os' v' w' ->
  let r := (verify (-1) ipc (baseline (-1) ipc es v w).1.1 0 f v' w').1.1 in
  r = (Z.of_nat (length (reported es os os')), foldl (fun f path => record_finding path (str "file modified") f) f (reported es os os')) /\
  forall c, Forall byte c -> content_hash c <> 0 ->
    modified (Some c) None = true /\ modified (Some c) (Some []) = true /\
    forall c', Forall byte c' ->
      (one_byte_changed (take 256 c) (take 256 c') -> modified (Some c) (Some c') = true) /\
      (take 256 c' = take 256 c -> modified (Some c) (Some c') = false).
Proof.
  intros Hs Hs'. cbv zeta. split.
  - assert (Hl : length os = length es).
    { clear Hs' os' v' w'. revert os v w Hs. induction es as [|e es IH]; intros [|o os] v w Hs; cbn [table_shows] in Hs; try done. cbn [length]. f_equal.
      destruct (ie_active e); [destruct Hs as [_ Hs]; destruct (file_hash _ _ _ _ _) as [[h v1] w1]|]; by eapply IH. }
    rewrite (baseline_table es os v w Hs). by rewrite (verify_table es os os').
  - intros c Hc Hne. assert (Hz : modified (Some c) None = true).
    { unfold modified. cbn [hash_of]. by destruct (Z.eqb_spec (content_hash c) 0), (Z.eqb_spec 0 (content_hash c)). }
    split; [done|]. split; [exact Hz|]. intros c' Hc'. by apply modified_spec.
Qed.
End Integrity.

(** A memory file mounted as "/etc", with contents [c]. *)
Definition etc_alloc (n : Z) : bool := true.
Definition etc_fresh (n : Z) : list Z := replicate (Z.to_nat n) 0.
#[local] Instance etc_vnodes : VNode (gmap Z RamFile) := ram_vnodes etc_alloc etc_fresh.
Definition etc_world (c : list Z) : gmap Z RamFile := {[ 1 := mkRamFile (Some c) (Z.of_nat (length c)) (Z.of_nat (length c)) ]}.
Definition etc_server : VfsServer := (vfs_mount (str "/etc") 1 vfs_ctor).2.
Definition etc_entry : IntegrityEntry := mkEntry (str "/etc/rc") 0 true.

Lemma etc_served c : (length c < 1000)%nat -> served ram_holds (fun _ => process_request) (ie_path etc_entry) c etc_server (etc_world c).
Proof.
  intros Hl. split; [reflexivity|]. split.
  - intros m Hm _ c'. assert (El : mounted etc_server = [mkMount (str "/etc" ++ [0]) 1]) by (vm_compute; reflexivity). rewrite El in Hm. apply list_elem_of_singleton in Hm as ->. cbn [mnt_vnode]. split.
    + intros (f & Ef & [R1 R2 R3]). unfold etc_world in Ef. rewrite lookup_singleton_eq in Ef. injection Ef as <-. cbn in R1, R3. rewrite Z.sub_diag in R3. cbn in R3. by rewrite app_nil_r in R3.
    + intros ->. eexists. split; [apply lookup_singleton_eq|]. split; cbn; [done|lia|]. by rewrite Z.sub_diag, app_nil_r.
  - unfold mgr_open, call_vfs. cbn [Z.ltb Z.compare process_request]. vm_compute. discriminate.
Qed.

(** Two monitored entries around an unused one; the second cannot be opened. *)
Definition etc_table : list IntegrityEntry := [etc_entry; mkEntry [] 0 false; mkEntry (str "/tmp/x") 0 true].

Lemma etc_table_shows c :
  (length c < 1000)%nat -> (mgr_open (-1) (fun _ => process_request) (str "/tmp/x") 0
    (file_hash (-1) (fun _ => process_request) (ie_path etc_entry) etc_server (etc_world c)).1.2
    (file_hash (-1) (fun _ => process_request) (ie_path etc_entry) etc_server (etc_world c)).2).1.1 < 0 ->
  table_shows ram_holds (fun _ => process_request) etc_table [Some c; None; None] etc_server (etc_world c).
Proof.
  intros Hl Hn. cbn [table_shows etc_table ie_active etc_entry]. split; [by apply etc_served|].
  destruct (file_hash _ _ _ _ _) as [[h v1] w1]. cbn [fst snd] in Hn. split; [exact Hn|].
  by destruct (file_hash _ _ _ _ _) as [[h2 v2] w2].
Qed.

Lemma tampering_detected_witness :
  (verify (-1) (fun _ => process_request) (baseline (-1) (fun _ => process_request) etc_table etc_server (etc_world [1; 2; 3])).1.1 0 no_findings etc_server (etc_world [1; 7; 3])).1.1 =
  (1, record_finding (str "/etc/rc") (str "file modified") no_findings).
Proof.
  destruct (tampering_detected ram_holds (RegularFiles0 := ram_regular etc_alloc etc_fresh (fun _ => eq_refl) (fun n => length_replicate _ _)) (fun _ => process_request)
    etc_table [Some [1; 2; 3]; None; None] [Some [1; 7; 3]; None; None] no_findings etc_server (etc_world [1; 2; 3]) etc_server (etc_world [1; 7; 3])) as [E _].
  - apply etc_table_shows; [cbn; lia|vm_compute; reflexivity].
  - apply etc_table_shows; [cbn; lia|vm_compute; reflexivity].
  - etrans; [exact E|]. vm_compute. reflexivity.
Defined.

Lemma list_equal_length a b : list_equal a b = true -> length a = length b.
Proof. revert b. induction a as [|x a IH]; intros [|y b]; cbn [list_equal]; try done. intros [_ H]%andb_true_iff. cbn [length]. by rewrite (IH b H). Qed.

(** Stored paths fit their buffers. *)
Definition paths_fit (es : list IntegrityEntry) : Prop := Forall (fun e => (length (ie_path e) <= 47)%nat) es.

Lemma long_unknown path es g : (47 < length (cstr path))%nat -> paths_fit es -> existsb (names path) es = false /\ at_path path g es = None.
Proof.
  intros Hl. induction 1 as [|e es He _ [IH1 IH2]]; [done|]. cbn [existsb at_path]. assert (En : names path e = false); [|by rewrite En, IH2].
  unfold names. destruct (list_equal (ie_path e) (cstr path)) eqn:E; [|apply andb_false_r]. apply list_equal_length in E. lia.
Qed.

Lemma enter_fit path es es' : paths_fit es -> enter path es = Some es' -> paths_fit es'.
Proof.
  intros Hf. revert es'. induction Hf as [|e es He Hf IH]; intros es'; cbn [enter]; [done|]. destruct (negb _).
  - intros [= <-]. constructor; [|done]. unfold stored_path. cbn [ie_path]. rewrite length_take. lia.
  - destruct (enter path es) as [es1|]; [|done]. intros [= <-]. constructor; [done|]. by apply IH.
Qed.

(** A path of more than 47 characters is never found again: registering it enters a
    shortened path, its baseline cannot be set, and each attempt takes another entry. *)
Theorem long_path_unwatched path hash f :
  (47 < length (cstr path))%nat -> paths_fit (fim_entries f) ->
  set_baseline path hash f = (false, (add_path path f).2) /\ existsb (names path) (fim_entries (add_path path f).2) = false.
Proof.
  intros Hl Hf. set (g := fun e => mkEntry (ie_path e) hash (ie_active e)). assert (Ha : paths_fit (fim_entries (add_path path f).2)).
  { unfold add_path. destruct (existsb _ _); [done|]. destruct (enter path (fim_entries f)) as [es|] eqn:E; [|done]. by eapply enter_fit. }
  split; [|by apply (long_unknown path _ g)]. unfold set_baseline. fold g. rewrite (proj2 (long_unknown path _ g Hl Hf)). destruct (add_path path f) as [ok f1]. cbn [snd] in *.
  destruct ok; cbn [negb]; [|done]. by rewrite (proj2 (long_unknown path _ g Hl Ha)).
Qed.

(** * The task table *)

(** The tasks the monitor counts. *)
Definition overflowed (k : Kernel) (i : Z) : bool := bool_decide (sched_state (scheduler (tcb k i)) <> Unallocated) && canary_broken k (tcb k i).
Definition ended (k : Kernel) (i : Z) : bool := bool_decide (sched_state (scheduler (tcb k i)) = Terminated).
Definition count_tasks (p : Z -> bool) (k : Kernel) : Z := Z.of_nat (length (List.filter p (seqZ 0 (task_count k)))).

Lemma scan_step k i o t l f :
  let r := scan_task k (o, t, l, f) i in
  r.1.1.1 = o + Z.b2z (overflowed k i) /\ r.1.1.2 = t + Z.b2z (ended k i).
Proof.
  unfold scan_task, overflowed, ended. destruct (decide (sched_state (scheduler (tcb k i)) = Unallocated)) as [E|E].
  - rewrite !bool_decide_eq_false_2 by (rewrite ?E; tauto || done). cbn. lia.
  - rewrite (bool_decide_eq_true_2 _ E). destruct (canary_broken k (tcb k i)); destruct (decide (sched_state (scheduler (tcb k i)) = Terminated)) as [Et|Et];
      rewrite ?(bool_decide_eq_true_2 _ Et), ?(bool_decide_eq_false_2 _ Et); cbn; lia.
Qed.

Lemma scan_fold k ids s :
  let r := foldl (scan_task k) s ids in
  r.1.1.1 = s.1.1.1 + Z.of_nat (length (List.filter (overflowed k) ids)) /\ r.1.1.2 = s.1.1.2 + Z.of_nat (length (List.filter (ended k) ids)).
Proof.
  cbv zeta. revert s. induction ids as [|i ids IH]; intros s; cbn [foldl List.filter]; [cbn; lia|]. destruct s as [[[o t] l] f]. destruct (scan_step k i o t l f) as [E1 E2]. cbv zeta in E1, E2.
  destruct (IH (scan_task k (o, t, l, f) i)) as [-> ->]. rewrite E1, E2. cbn [fst snd]. destruct (overflowed k i), (ended k i); cbn [Z.b2z length]; lia.
Qed.

(** The scan of the task table reports the growth of the two counts since the last scan,
    and remembers them: repeated scans of one state report nothing. *)
Theorem scan_reports_growth k p :
  let O := count_tasks (overflowed k) k in
  let T := count_tasks (ended k) k in
  (pm_scan k p).1 = Z.max 0 (O - last_overflow_count_ p) + Z.max 0 (T - last_terminated_count_ p) /\
  last_overflow_count_ (pm_scan k p).2 = O /\ last_terminated_count_ (pm_scan k p).2 = T /\ (pm_scan k (pm_scan k p).2).1 = 0.
Proof.
  cbv zeta. assert (H : forall p, (pm_scan k p).1 = Z.max 0 (count_tasks (overflowed k) k - last_overflow_count_ p) + Z.max 0 (count_tasks (ended k) k - last_terminated_count_ p) /\
    last_overflow_count_ (pm_scan k p).2 = count_tasks (overflowed k) k /\ last_terminated_count_ (pm_scan k p).2 = count_tasks (ended k) k); [|destruct (H p) as (H1 & H2 & H3); split; [done|]; split; [done|]; split; [done|]; rewrite (proj1 (H _)), H2, H3; lia].
  clear p. intros p. unfold pm_scan. pose proof (scan_fold k (seqZ 0 (task_count k)) (0, 0, 0, pm_findings p)) as [E1 E2]. destruct (foldl _ _ _) as [[[o t] l] f]. cbn [fst snd] in E1, E2.
  rewrite Z.add_0_l in E1, E2. fold (count_tasks (overflowed k) k) in E1. fold (count_tasks (ended k) k) in E2. rewrite <- E1, <- E2.
  destruct (Z.ltb_spec (last_overflow_count_ p) o), (Z.ltb_spec (last_terminated_count_ p) t); cbn [fst snd last_overflow_count_ last_terminated_count_]; lia.
Qed.

(** Only counts are compared: a task that overflows its stack or dies goes unreported when
    no more tasks are in that state than at the last scan, whichever they were. *)
Theorem exchange_unreported k k' p :
  count_tasks (overflowed k') k' <= count_tasks (overflowed k) k -> count_tasks (ended k') k' <= count_tasks (ended k) k ->
  (pm_scan k' (pm_scan k p).2).1 = 0.
Proof.
  intros Ho Ht. destruct (scan_reports_growth k p) as (_ & E1 & E2 & _). destruct (scan_reports_growth k' (pm_scan k p).2) as (-> & _). rewrite E1, E2. lia.
Qed.

(** * A round of the engine *)

(** On every heap that allocations and releases can produce, a round of the engine comes to
    its end, whatever the file system answers; it finds no damage in the heap, and its
    counts are those of the tasks it looked at. *)
Theorem hids_round_ends {W} `{!VNode W} ep ipc s e now k h hids aw v (w : W) L :
  region_ok s e -> heap_reach s e h L ->
  exists hids' aw' v' w', hids_tick ep ipc (Z.to_nat ((e - s) / Heap.BLOCK_HEADER_SIZE)) now k h hids aw v w = Some (hids', aw', v', w') /\
    last_heap_corrupt_ (rootkit_scanner_ hids') = 0 /\
    last_overflow_count_ (process_monitor_ hids') = count_tasks (overflowed k) k /\ last_terminated_count_ (process_monitor_ hids') = count_tasks (ended k) k.
Proof.
  intros Hr Hh. unfold hids_tick, rk_scan. rewrite (heap_integrity_scan_terminates s e h L Hr Hh). destruct (fim_scan _ _ _ _ _) as [[[n1 fi] v1] w1].
  destruct (scan_reports_growth k (process_monitor_ hids)) as (_ & E1 & E2 & _). destruct (pm_scan k _) as [n2 pm]. destruct (pa_scan k _) as [n3 pa]. destruct (_ <? 0); eexists _, _, _, _; (split; [done|]); done.
Qed.
