(* ===== verification/ResponseClaims.v ===== *)
(** Theorems on the automatic response (security/response): a severe alert cuts its source
    off for the whole time of the block, the block is lifted again, and where neither
    happens. *)
From S2P Require Import Prelude Kernel ReadyQueue Endpoint Scheduler Heap SecMon Text Stealth Firewall FwClaims Aho Ids IdsClaims Hids Response SchedClaims SecMonClaims.
From stdpp Require Import strings.
#[local] Open Scope Z_scope.

(** * Rule tables *)

Lemma at_first_some {A} (p : A -> bool) g l l' : at_first p g l = Some l' -> exists l1 x l2, l = l1 ++ x :: l2 /\ p x = true /\ Forall (fun y => p y = false) l1 /\ l' = l1 ++ g x :: l2.
Proof.
  revert l'. induction l as [|x l IH]; intros l'; cbn [at_first]; [done|]. destruct (p x) eqn:E; [intros [= <-]; by exists [], x, l|].
  destruct (at_first p g l) as [l0|]; [|done]. intros [= <-]. destruct (IH l0 eq_refl) as (l1 & y & l2 & -> & Hy & Hl & ->). exists (x :: l1), y, l2. split; [done|]. split; [done|]. split; [by constructor|done].
Qed.

Lemma at_first_none {A} (p : A -> bool) g l : at_first p g l = None -> Forall (fun y => p y = false) l.
Proof. induction l as [|x l IH]; cbn [at_first]; [constructor|]. destruct (p x) eqn:E; [done|]. destruct (at_first p g l); [done|]. intros _. constructor; [done|by apply IH]. Qed.

(** The rule a block of [ip] installs. *)
Definition installed (ip : Z) : FwRule := set_fw_enabled true (block_rule ip).

(** What the response may do to a rule table while [ip] stays blocked. *)
Definition evolves (ip : Z) (rs rs' : list FwRule) : Prop :=
  length rs' = length rs /\ (installed ip ∈ rs -> installed ip ∈ rs') /\ forall r, r ∈ rs' -> r ∈ rs \/ fw_enabled r = false \/ fw_action r = DROP.

Lemma evolves_refl ip rs : evolves ip rs rs.
Proof. split; [done|]. split; [done|]. by left. Qed.

Lemma evolves_trans ip rs1 rs2 rs3 : evolves ip rs1 rs2 -> evolves ip rs2 rs3 -> evolves ip rs1 rs3.
Proof.
  intros (L1 & K1 & R1) (L2 & K2 & R2). split; [congruence|]. split; [auto|]. intros r Hr. destruct (R2 r Hr) as [Hr'|Hr']; [by apply R1|by right].
Qed.

Lemma evolves_insert ip rs i x r : rs !! i = Some x -> x <> installed ip -> fw_enabled r = false \/ fw_action r = DROP -> evolves ip rs (<[i := r]> rs).
Proof.
  intros Hi Hx Hr. split; [apply length_insert|]. split.
  - intros [j Hj]%list_elem_of_lookup. apply list_elem_of_lookup. exists j. rewrite list_lookup_insert_ne; [done|]. intros ->. congruence.
  - intros y [j Hj]%list_elem_of_lookup. destruct (decide (i = j)) as [->|Hne]; [|left; rewrite list_lookup_insert_ne in Hj by done; by eapply list_elem_of_lookup_2].
    rewrite list_lookup_insert_eq in Hj by (by eapply lookup_lt_Some). injection Hj as <-. by right.
Qed.

Lemma evolves_add ip rule rs : fw_action rule = DROP -> evolves ip rs (fw_add_rule rule rs).2.
Proof.
  intros Hd. pose proof (fw_add_rule_spec rule rs) as H. destruct (fw_add_rule rule rs) as [[|] rs']; [|destruct H as [-> _]; apply evolves_refl].
  destruct H as (i & x & Hi & He & _ & ->). apply (evolves_insert ip rs i x); [done|by intros ->|by right].
Qed.

Lemma zalter_insert {A} `{!Inhabited A} (g : A -> A) i l x : 0 <= i -> l !! Z.to_nat i = Some x -> zalter g i l = <[Z.to_nat i := g x]> l.
Proof.
  intros H0 Hi. unfold zalter. destruct (Z.leb_spec 0 i); [|lia]. apply list_eq. intros j. destruct (decide (Z.to_nat i = j)) as [<-|Hne].
  - rewrite list_lookup_alter, decide_True, Hi, list_lookup_insert_eq by (done || by eapply lookup_lt_Some). done.
  - by rewrite list_lookup_alter_ne, list_lookup_insert_ne by done.
Qed.

Lemma evolves_delete ip rs i x : 0 <= i < 16 -> rs !! Z.to_nat i = Some x -> x <> installed ip -> evolves ip rs (delete_rule i rs).2.
Proof.
  intros Hi Hx Hne. unfold delete_rule, MAX_RULES. destruct (Z.leb_spec 0 i), (Z.ltb_spec i 16); try lia. cbn [andb snd]. rewrite (zalter_insert _ i rs x) by (done || lia).
  apply (evolves_insert ip rs _ x); [done|done|by left].
Qed.

Lemma find_rule (p : FwRule -> bool) (rs : list FwRule) i : length rs = 16%nat -> List.find (fun i => p (zlookup rs i)) (seqZ 0 MAX_RULES) = Some i -> 0 <= i < 16 /\ exists x, rs !! Z.to_nat i = Some x /\ p x = true.
Proof.
  intros Hl [Hin%list_elem_of_In Hp]%List.find_some. apply elem_of_seqZ in Hin. unfold MAX_RULES in Hin. split; [lia|]. destruct (lookup_lt_is_Some_2 rs (Z.to_nat i)) as [x Hx]; [lia|].
  exists x. split; [done|]. by rewrite (zlookup_Some rs i x) in Hp by (done || lia).
Qed.

Lemma evolves_unblock ip ip' rs : length rs = 16%nat -> ip' <> ip -> evolves ip rs (remove_block_rule ip' rs).
Proof.
  intros Hl Hne. unfold remove_block_rule, find_block_rule_. destruct (List.find _ _) as [i|] eqn:E; [|apply evolves_refl]. destruct (find_rule (is_block_rule ip') rs i Hl E) as (Hi & x & Hx & Hp).
  destruct (Z.leb_spec 0 i); [|lia]. apply (evolves_delete ip rs i x); [done|done|]. intros ->. unfold is_block_rule in Hp. cbn in Hp. apply Hne. destruct (Z.eqb_spec ip ip'); [done|discriminate].
Qed.

Lemma evolves_release ip ifname rs : length rs = 16%nat -> evolves ip rs (remove_device_rule ifname rs).
Proof.
  intros Hl. unfold remove_device_rule. destruct (List.find _ _) as [i|] eqn:E; [|apply evolves_refl]. destruct (find_rule (is_device_rule ifname) rs i Hl E) as (Hi & x & Hx & Hp).
  apply (evolves_delete ip rs i x); [done|done|]. intros ->. discriminate Hp.
Qed.

(** * Blocked sources stay blocked *)

(** Entries of [ip] in the block table end at [limit] or later. *)
Definition lasting (ip limit : Z) (es : list BlockEntry) : Prop := Forall (fun b => be_active b = true -> be_ip b = ip -> limit <= be_expire b) es.

Lemma lasting_change ip limit l1 x y l2 : lasting ip limit (l1 ++ x :: l2) -> (be_active y = true -> be_ip y = ip -> limit <= be_expire y) -> lasting ip limit (l1 ++ y :: l2).
Proof. unfold lasting. rewrite !Forall_app, !Forall_cons. tauto. Qed.

Lemma block_ip_keeps ip limit now ip' a rs :
  lasting ip limit (ab_entries a) -> limit <= expiry now kDefaultBlockMs ->
  let '(_, a', rs') := block_ip now ip' kDefaultBlockMs a rs in lasting ip limit (ab_entries a') /\ evolves ip rs rs'.
Proof.
  intros Hl He. unfold block_ip. destruct (at_first (blocks_ip ip') _ _) as [es|] eqn:E1.
  - apply at_first_some in E1 as (l1 & x & l2 & E & Hx & _ & ->). rewrite E in Hl. cbv beta iota. split; [|apply evolves_refl]. by apply (lasting_change ip limit l1 x).
  - clear E1. destruct (at_first _ _ _) as [es|] eqn:E2; [|cbv beta iota; split; [done|apply evolves_refl]]. apply at_first_some in E2 as (l1 & x & l2 & E & Hx & _ & ->). rewrite E in Hl.
    cbv beta iota. split; [by apply (lasting_change ip limit l1 x)|by apply evolves_add].
Qed.

Lemma ab_tick_keeps ip limit now ids a rs :
  lasting ip limit (ab_entries a) -> now < limit -> length rs = 16%nat ->
  let s := foldl (ab_tick_entry now) (a, rs) ids in lasting ip limit (ab_entries s.1) /\ evolves ip rs s.2.
Proof.
  revert a rs. induction ids as [|i ids IH]; intros a rs Hl Hn Hlen; cbn [foldl]; [split; [done|apply evolves_refl]|].
  assert (Hs : let s := ab_tick_entry now (a, rs) i in lasting ip limit (ab_entries s.1) /\ evolves ip rs s.2).
  { unfold ab_tick_entry. cbn [fst snd]. set (b := zlookup (ab_entries a) i). destruct (be_active b) eqn:Ea; cbn [andb]; [|split; [done|apply evolves_refl]]. destruct (has_expired now (be_expire b)) eqn:Ee; [|split; [done|apply evolves_refl]].
    assert (Hne : be_ip b <> ip).
    { intros Eb. assert (Hb : b ∈ ab_entries a).
      { unfold b, zlookup in *. destruct (0 <=? i); [|discriminate Ea]. destruct (ab_entries a !! Z.to_nat i) as [x|] eqn:Ex; [rewrite (list_lookup_total_correct _ _ _ Ex); by eapply list_elem_of_lookup_2|].
        rewrite list_lookup_total_alt, Ex in Ea. discriminate Ea. }
      unfold lasting in Hl. rewrite Forall_forall in Hl. specialize (Hl b Hb Ea Eb). unfold has_expired in Ee. apply andb_true_iff in Ee as [_ Ee%Z.leb_le]. lia. }
    unfold unblock_ip. destruct (at_first _ _ _) as [es|] eqn:E1; [|split; [done|apply evolves_refl]]. apply at_first_some in E1 as (l1 & x & l2 & E & Hx & _ & ->). rewrite E in Hl. cbn [fst snd ab_entries].
    split; [by apply (lasting_change ip limit l1 x)|by apply evolves_unblock]. }
  destruct (ab_tick_entry now (a, rs) i) as [a1 rs1]. cbn [fst snd] in Hs. destruct Hs as [Hl1 He1]. destruct (IH a1 rs1 Hl1 Hn) as [Hl2 He2]; [destruct He1 as [-> _]; done|]. split; [done|]. by eapply evolves_trans.
Qed.

Lemma q_tick_keeps ip now ids q w :
  length (rw_rules w) = 16%nat -> let s := foldl (q_tick_entry now) (q, w) ids in evolves ip (rw_rules w) (rw_rules s.2).
Proof.
  revert q w. induction ids as [|i ids IH]; intros q w Hl; cbn [foldl]; [apply evolves_refl|].
  assert (Hs : evolves ip (rw_rules w) (rw_rules (q_tick_entry now (q, w) i).2)).
  { unfold q_tick_entry. cbv zeta. cbn [fst snd]. destruct (tq_active _ && has_expired _ _); [destruct (release_task _ _ _) as [[ok q1] k1]|]; cbn [fst snd rw_rules set_rw_kernel].
    all: destruct (dq_active _ && has_expired _ _); [|apply evolves_refl]; unfold release_device; destruct (at_first _ _ _); cbn [fst snd rw_rules set_rw_rules]; [by apply evolves_release|apply evolves_refl]. }
  destruct (q_tick_entry now (q, w) i) as [q1 w1]. cbn [snd] in Hs. eapply evolves_trans; [exact Hs|]. apply IH. by destruct Hs as [-> _].
Qed.

(** What happens to the engine after a block: expiries and further alerts. *)
Inductive RespStep := STick (now : Z) | SAlert (now : Z) (sev : IdsSeverity) (src_ip task_id : Z) (desc : list Z).

Definition step_time (s : RespStep) : Z := match s with STick now => now | SAlert now _ _ _ _ => now end.

Definition resp_step (st : ResponseEngine * RespWorld) (s : RespStep) : ResponseEngine * RespWorld :=
  match s with STick now => resp_tick now st.1 st.2 | SAlert now sev src task desc => handle_alert now sev src task desc st.1 st.2 end.

Lemma report_rules now sev src task desc e w :
  let '(_, e1, w1) := respond now sev src task e w in
  auto_block_ (handle_alert now sev src task desc e w).1 = auto_block_ e1 /\ rw_rules (handle_alert now sev src task desc e w).2 = rw_rules w1.
Proof. unfold handle_alert. destruct (respond _ _ _ _ _ _) as [[ty e1] w1]. destruct (3 <=? _); [|done]. by destruct (report_firewall_anomaly _ _). Qed.

Lemma handle_keeps ip limit now sev src task desc e w :
  lasting ip limit (ab_entries (auto_block_ e)) -> limit <= expiry now kDefaultBlockMs ->
  let st := handle_alert now sev src task desc e w in lasting ip limit (ab_entries (auto_block_ st.1)) /\ evolves ip (rw_rules w) (rw_rules st.2).
Proof.
  intros Hl He. cbv zeta. pose proof (report_rules now sev src task desc e w) as H. destruct (respond now sev src task e w) as [[ty e1] w1] eqn:Er. destruct H as [-> ->]. unfold respond in Er.
  destruct (_ && negb (src =? 0)).
  { pose proof (block_ip_keeps ip limit now src _ (rw_rules w) Hl He) as Hb. destruct (block_ip _ _ _ _ _) as [[ok a] rs]. injection Er as _ <- <-. exact Hb. }
  destruct (_ && _); [destruct (quarantine_task _ _ _ _ _) as [[ok q] k]; injection Er as _ <- <-; split; [done|apply evolves_refl]|].
  destruct (2 <=? _); injection Er as _ <- <-; split; (done || apply evolves_refl).
Qed.

Lemma tick_keeps ip limit now e w :
  lasting ip limit (ab_entries (auto_block_ e)) -> now < limit -> length (rw_rules w) = 16%nat ->
  let st := resp_tick now e w in lasting ip limit (ab_entries (auto_block_ st.1)) /\ evolves ip (rw_rules w) (rw_rules st.2).
Proof.
  intros Hl Hn Hlen. cbv zeta. unfold resp_tick, ab_tick. pose proof (ab_tick_keeps ip limit now (seqZ 0 16) _ (rw_rules w) Hl Hn Hlen) as [H1 H2].
  destruct (foldl _ _ _) as [a rs]. cbn [fst snd] in H1, H2. unfold q_tick. pose proof (q_tick_keeps ip now (seqZ 0 8) (quarantine_ e) (set_rw_rules rs w)) as H3. destruct (foldl _ _ _) as [q w1]. cbn [fst snd rw_rules set_rw_rules auto_block_] in *.
  split; [done|]. eapply evolves_trans; [exact H2|]. apply H3. by destruct H2 as [-> _].
Qed.

Lemma steps_keep ip limit steps st :
  lasting ip limit (ab_entries (auto_block_ st.1)) -> length (rw_rules st.2) = 16%nat -> Forall (fun s => step_time s < limit /\ limit <= expiry (step_time s) kDefaultBlockMs) steps ->
  evolves ip (rw_rules st.2) (rw_rules (foldl resp_step st steps).2).
Proof.
  revert st. induction steps as [|s steps IH]; intros st Hl Hlen; cbn [foldl]; [intros _; apply evolves_refl|]. intros [[Ht He] Hs]%Forall_cons_1.
  assert (H : lasting ip limit (ab_entries (auto_block_ (resp_step st s).1)) /\ evolves ip (rw_rules st.2) (rw_rules (resp_step st s).2)) by (destruct s; [by apply tick_keeps|by apply handle_keeps]).
  destruct H as [H1 H2]. eapply evolves_trans; [exact H2|]. apply IH; [done| |done]. by destruct H2 as [-> _].
Qed.

(** No rule lets the packet with header [h] pass. *)
Definition never_accepted (h : Header) (interface : list Z) (rs : list FwRule) : Prop := Forall (fun r => rule_matches h interface r = true -> fw_action r <> ACCEPT) rs.

Lemma evolves_never ip h interface rs rs' : evolves ip rs rs' -> never_accepted h interface rs -> never_accepted h interface rs'.
Proof.
  intros (_ & _ & Hr) Hn. unfold never_accepted in *. rewrite Forall_forall in *. intros r Hin Hm. destruct (Hr r Hin) as [H|[H|H]]; [by apply Hn| |by rewrite H].
  unfold rule_matches in Hm. by rewrite H in Hm.
Qed.

Lemma installed_drops h interface rs : installed (h_src_ip h) ∈ rs -> never_accepted h interface rs -> first_action h interface rs <> ACCEPT.
Proof.
  intros [j Hj]%list_elem_of_lookup Hn Ha. unfold never_accepted in Hn. rewrite Forall_forall in Hn. apply first_action_spec in Ha as [Ha|(i & r & Hi & Hm & Ha & _)].
  - specialize (Ha j _ Hj). unfold rule_matches, installed in Ha. cbn in Ha. by rewrite Z.eqb_refl in Ha.
  - by apply (Hn r); [by eapply list_elem_of_lookup_2|..].
Qed.

Lemma rules_drop s now packet len interface w : enabled_ (fw w) = true -> match_rules packet len interface (rule_table_ (fw w)) <> ACCEPT -> (process_packet s now packet len interface w).1 = false.
Proof.
  intros En Hm. unfold process_packet. rewrite En. cbn [negb]. destruct (probe_dropped _ _ _); [done|]. destruct (shape _ _ _ _) as [[pass an] hs]. set (w1 := match an with Some _ => _ | None => _ end).
  assert (E : rule_table_ (fw w1) = rule_table_ (fw w)) by (unfold w1; destruct an; [by rewrite report_fw|done]). rewrite E. destruct (negb pass); [done|]. by rewrite bool_decide_eq_false_2.
Qed.

Lemma fw_added rule (rs : list FwRule) :
  Exists (fun r => fw_enabled r = false) rs -> exists i r, rs !! i = Some r /\ fw_enabled r = false /\ (fw_add_rule rule rs).2 = <[i := set_fw_enabled true rule]> rs.
Proof.
  intros Hr. pose proof (fw_add_rule_spec rule rs) as H. destruct (fw_add_rule rule rs) as [[|] rs1]; cbn [snd].
  - destruct H as (i & y & Hi & Hy & _ & E). by exists i, y.
  - exfalso. destruct H as [_ H]. apply Exists_exists in Hr as (r & Hin & Hr). rewrite Forall_forall in H. by rewrite (H r Hin) in Hr.
Qed.

(** There is room to block [ip], which is not blocked. *)
Definition can_block (ip : Z) (a : AutoBlockManager) (rs : list FwRule) : Prop :=
  is_blocked ip a = false /\ Exists (fun b => be_active b = false) (ab_entries a) /\ Exists (fun r => fw_enabled r = false) rs.

Lemma not_blocked ip a : is_blocked ip a = false <-> Forall (fun b => blocks_ip ip b = false) (ab_entries a).
Proof. unfold is_blocked. rewrite <- not_true_iff_false, existsb_exists, Forall_forall. setoid_rewrite <- not_true_iff_false. setoid_rewrite <- list_elem_of_In. naive_solver. Qed.

(** A block that finds room. *)
Lemma block_ip_new now ip d a rs :
  is_blocked ip a = false -> Exists (fun b => be_active b = false) (ab_entries a) ->
  exists l1 x l2, ab_entries a = l1 ++ x :: l2 /\
    block_ip now ip d a rs = (true, mkAb (l1 ++ mkBlock true ip (expiry now d) :: l2) (wrap32 (total_blocks_ a + 1)) (action_text (str "blocked") (decimal ip)), (fw_add_rule (block_rule ip) rs).2).
Proof.
  intros Hb%not_blocked Ha. unfold block_ip. destruct (at_first (blocks_ip ip) _ (ab_entries a)) as [es|] eqn:E1.
  { apply at_first_some in E1 as (l1 & x & l2 & E & Hx & _). rewrite E in Hb. apply Forall_app in Hb as [_ [Hb _]%Forall_cons_1]. congruence. }
  clear E1. destruct (at_first _ _ _) as [es|] eqn:E2.
  - apply at_first_some in E2 as (l1 & x & l2 & E & _ & _ & ->). by exists l1, x, l2.
  - apply at_first_none in E2. exfalso. apply Exists_exists in Ha as (b & Hin & Ha). rewrite Forall_forall in E2. specialize (E2 b Hin). by rewrite Ha in E2.
Qed.

Lemma block_installs ip now limit a rs :
  can_block ip a rs -> limit <= expiry now kDefaultBlockMs -> let '(_, a', rs') := block_ip now ip kDefaultBlockMs a rs in lasting ip limit (ab_entries a') /\ evolves ip rs rs' /\ installed ip ∈ rs'.
Proof.
  intros (Hb & Ha & Hr) He. assert (Hl : lasting ip limit (ab_entries a)).
  { apply not_blocked in Hb. eapply Forall_impl; [exact Hb|]. intros b Hbl Hact Eip. unfold blocks_ip in Hbl. by rewrite Hact, Eip, Z.eqb_refl in Hbl. }
  pose proof (block_ip_keeps ip limit now ip a rs Hl He) as Hk. destruct (block_ip_new now ip kDefaultBlockMs a rs Hb Ha) as (l1 & x & l2 & _ & Eb). rewrite Eb in *. destruct Hk as [Hk1 Hk2]. split; [done|]. split; [done|].
  destruct (fw_added (block_rule ip) rs Hr) as (i & y & Hi & _ & ->). apply list_elem_of_lookup. exists i. apply list_lookup_insert_eq. by eapply lookup_lt_Some.
Qed.

Lemma expiry_plain now : 0 <= now -> now + 60000 < 4294967296 -> expiry now kDefaultBlockMs = now + 60000.
Proof. intros H0 H1. unfold expiry, kDefaultBlockMs. cbn [Z.eqb]. apply wrap32_small. unfold is_u32. lia. Qed.

(** C19: The source of a severe alert is cut off: once the response has handled an alert of
    severity High or Critical with a source address at tick [t], with room in the block
    and rule tables, the source not yet blocked and [t] at least two minutes before the
    32-bit tick wraps, an enabled firewall with the resulting rule table drops every
    packet with a readable header of that source for the next 60 seconds, whatever other
    alerts and expiries the response handles meanwhile, unless a rule of the table
    accepts it.  Without room or near the wrap: [full_table_blocks_nothing],
    [block_before_wrap_expired]. *)
Theorem attacker_blocked t sev ip task desc steps e w s now packet len interface h fww :
  3 <= sev_rank sev -> ip <> 0 -> 0 <= t -> t + 120000 < 4294967296 -> length (rw_rules w) = 16%nat -> can_block ip (auto_block_ e) (rw_rules w) ->
  Forall (fun s => t <= step_time s < t + 60000) steps ->
  parse_header packet len = Some h -> h_src_ip h = ip -> never_accepted h interface (rw_rules w) ->
  enabled_ (fw fww) = true -> rule_table_ (fw fww) = rw_rules (foldl resp_step (handle_alert t sev ip task desc e w) steps).2 ->
  (process_packet s now packet len interface fww).1 = false.
Proof.
  intros Hsev Hip Ht Hw Hlen Hcan Hst Hp Eh Hn En Er. apply rules_drop; [done|]. rewrite Er. unfold match_rules. rewrite Hp.
  pose proof (block_installs ip t (t + 60000) _ _ Hcan) as Hb. rewrite expiry_plain in Hb by lia. specialize (Hb ltac:(lia)).
  pose proof (report_rules t sev ip task desc e w) as Hr. unfold respond in Hr. destruct (Z.leb_spec 3 (sev_rank sev)); [|lia]. destruct (Z.eqb_spec ip 0); [done|]. cbn [negb andb] in Hr.
  destruct (block_ip t ip kDefaultBlockMs (auto_block_ e) (rw_rules w)) as [[ok a] rs]. destruct Hb as (Hl & Hev & Hin). destruct Hr as [Ha Hrs]. cbn [auto_block_ rw_rules set_rw_rules] in Ha, Hrs.
  set (st := handle_alert t sev ip task desc e w) in *. assert (Hev2 : evolves ip (rw_rules st.2) (rw_rules (foldl resp_step st steps).2)).
  { apply (steps_keep ip (t + 60000)); [by rewrite Ha|rewrite Hrs; by destruct Hev as [-> _]|]. eapply Forall_impl; [exact Hst|]. intros x [Hx1 Hx2]. rewrite expiry_plain by lia. lia. }
  rewrite Hrs in Hev2. rewrite <- Eh in *. apply installed_drops; [by apply Hev2|]. eapply evolves_never; [|exact Hn]. by eapply evolves_trans.
Qed.

(** A system under attack: nothing blocked, no rules. *)
Definition attacked_world : RespWorld := mkRespWorld (replicate 16 default_rule) demo_running demo_heap monitor_ctor [].
Definition filtering (rs : RuleTable) : FwWorld := mkFwWorld (set_rule_table rs firewall_ctor) monitor_ctor [].

Lemma attacker_blocked_witness :
  let st := foldl resp_step (handle_alert 1000 SevCritical 167772163 kNoTask (str "SYN flood") resp_ctor attacked_world) [SAlert 1500 SevHigh 7 kNoTask []; STick 60999] in
  (process_packet stealth_ctor 61000 (ping_packet 3) 38 (str "en0") (filtering (rw_rules st.2))).1 = false.
Proof.
  cbv zeta. apply (attacker_blocked 1000 SevCritical 167772163 kNoTask (str "SYN flood") [SAlert 1500 SevHigh 7 kNoTask []; STick 60999] resp_ctor attacked_world stealth_ctor 61000 (ping_packet 3) 38 (str "en0")
    (mkHeader 167772163 167772161 1 0 0 0)).
  - cbn; lia.
  - lia.
  - lia.
  - lia.
  - reflexivity.
  - split; [vm_compute; reflexivity|]. split; apply Exists_cons_hd; reflexivity.
  - repeat constructor; cbn; lia.
  - vm_compute. reflexivity.
  - reflexivity.
  - unfold never_accepted. apply Forall_replicate. intros H. discriminate H.
  - reflexivity.
  - reflexivity.
Defined.

(** * Lifting a block *)

Lemma first_action_insert h interface (rs : list FwRule) i x y : rs !! i = Some x -> rule_matches h interface x = false -> rule_matches h interface y = false -> first_action h interface (<[i := y]> rs) = first_action h interface rs.
Proof.
  revert i. induction rs as [|r rs IH]; intros [|i] Hi Hx Hy; cbn in Hi; try done; [injection Hi as ->; cbn; by rewrite Hx, Hy|]. change (<[S i := y]> (r :: rs)) with (r :: <[i := y]> rs). cbn [first_action]. by rewrite (IH i Hi Hx Hy).
Qed.

Lemma disabled_no_match h interface r : fw_enabled r = false -> rule_matches h interface r = false.
Proof. intros E. unfold rule_matches. by rewrite E. Qed.

Lemma find_installed ip (rs : list FwRule) i : length rs = 16%nat -> rs !! i = Some (installed ip) -> (forall j r, j <> i -> rs !! j = Some r -> is_block_rule ip r = false) -> find_block_rule_ ip rs = Z.of_nat i.
Proof.
  intros Hl Hi Hno. unfold find_block_rule_. pose proof (lookup_lt_Some _ _ _ Hi) as Hlt. assert (Hp : is_block_rule ip (installed ip) = true) by (unfold is_block_rule; cbn; by rewrite Z.eqb_refl).
  destruct (List.find _ _) as [j|] eqn:E.
  - destruct (find_rule (is_block_rule ip) rs j Hl E) as (Hj & x & Hx & Hpx). destruct (decide (Z.to_nat j = i)) as [<-|Hne]; [lia|]. by rewrite (Hno _ _ Hne Hx) in Hpx.
  - exfalso. apply List.find_none with (x := Z.of_nat i) in E; [|apply list_elem_of_In, elem_of_seqZ; unfold MAX_RULES; lia]. rewrite (zlookup_Some rs (Z.of_nat i) (installed ip)) in E by (rewrite ?Nat2Z.id; (done || lia)). congruence.
Qed.

(** C33: A block leaves no trace: blocking a source that is not yet blocked and unblocking
    it again, with room in both tables and no equal rule of an administrator, restores every verdict of the rule
    table and forgets the block. *)
Theorem unblock_restores now ip a (rs : list FwRule) :
  length rs = 16%nat -> can_block ip a rs -> Forall (fun r => is_block_rule ip r = false) rs ->
  let '(ok, a1, rs1) := block_ip now ip kDefaultBlockMs a rs in
  let '(ok', a2, rs2) := unblock_ip ip a1 rs1 in
  ok = true /\ ok' = true /\ is_blocked ip a1 = true /\ is_blocked ip a2 = false /\ forall h interface, first_action h interface rs2 = first_action h interface rs.
Proof.
  intros Hlen (Hb & Ha & Hr) Hno. destruct (block_ip_new now ip kDefaultBlockMs a rs Hb Ha) as (l1 & x & l2 & E & ->). apply not_blocked in Hb. rewrite E in Hb. apply Forall_app in Hb as [F1 [_ F2]%Forall_cons_1].
  assert (Hn : blocks_ip ip (mkBlock true ip (expiry now kDefaultBlockMs)) = true) by (unfold blocks_ip; cbn; apply Z.eqb_refl).
  assert (Hex : forall l, Forall (fun b => blocks_ip ip b = false) l -> existsb (blocks_ip ip) l = false) by (induction 1 as [|b l Hbl _ IH]; cbn; [done|by rewrite Hbl]).
  assert (Hat : forall g l, Forall (fun b => blocks_ip ip b = false) l1 -> at_first (blocks_ip ip) g (l1 ++ mkBlock true ip (expiry now kDefaultBlockMs) :: l) = Some (l1 ++ g (mkBlock true ip (expiry now kDefaultBlockMs)) :: l)).
  { intros g l. clear -Hn. induction 1 as [|b l1 Hbl _ IH]; cbn [List.app at_first]; [by rewrite Hn|]. by rewrite Hbl, IH. }
  cbv beta iota. unfold unblock_ip. cbn [ab_entries]. rewrite Hat by done. unfold is_blocked. cbn [ab_entries]. split; [done|]. split; [done|].
  split; [rewrite existsb_app; cbn [existsb]; by rewrite Hn, orb_true_r|]. split; [rewrite existsb_app; cbn [existsb]; rewrite (Hex l1), (Hex l2) by done; done|]. intros h interface.
  destruct (fw_added (block_rule ip) rs Hr) as (i & y & Hi & Hy & ->). fold (installed ip). pose proof (lookup_lt_Some _ _ _ Hi) as Hlt. unfold remove_block_rule. rewrite (find_installed ip _ i); [|by rewrite length_insert|by apply list_lookup_insert_eq|].
  - unfold delete_rule, MAX_RULES. destruct (Z.leb_spec 0 (Z.of_nat i)); [|lia]. destruct (Z.ltb_spec (Z.of_nat i) 16); [|lia]. cbn [andb snd].
    rewrite (zalter_insert _ _ _ (installed ip)) by (rewrite ?Nat2Z.id; (by apply list_lookup_insert_eq) || lia). rewrite Nat2Z.id, list_insert_insert_eq. apply (first_action_insert h interface rs i y); [done|by apply disabled_no_match|by apply disabled_no_match].
  - intros j r Hne Hj. rewrite list_lookup_insert_ne in Hj by done. rewrite Forall_forall in Hno. apply Hno. by eapply list_elem_of_lookup_2.
Qed.

Lemma unblock_restores_witness :
  let '(_, a1, rs1) := block_ip 5 7 kDefaultBlockMs ab_ctor (replicate 16 default_rule) in
  let '(_, a2, rs2) := unblock_ip 7 a1 rs1 in
  is_blocked 7 a1 = true /\ is_blocked 7 a2 = false /\ forall h interface, first_action h interface rs2 = ACCEPT.
Proof.
  pose proof (unblock_restores 5 7 ab_ctor (replicate 16 default_rule) eq_refl) as H. destruct (block_ip 5 7 kDefaultBlockMs ab_ctor (replicate 16 default_rule)) as [[ok a1] rs1].
  destruct (unblock_ip 7 a1 rs1) as [[ok' a2] rs2]. destruct H as (_ & _ & H1 & H2 & H3).
  - split; [reflexivity|]. split; apply Exists_cons_hd; reflexivity.
  - apply Forall_replicate. reflexivity.
  - split; [exact H1|]. split; [exact H2|]. intros h interface. rewrite H3. reflexivity.
Defined.

(** * The kernel under the response *)

(** Quarantined task numbers are not negative. *)
Definition quarantine_ok (q : QuarantineManager) : Prop := Forall (fun t => 0 <= tq_task t) (q_tasks q).

Lemma release_task_ok id q k : 0 <= id -> quarantine_ok q -> kernel_ok k -> let '(_, q', k') := release_task id q k in quarantine_ok q' /\ kernel_ok k'.
Proof.
  intros H0 Hq Hk. unfold release_task. destruct (at_first _ _ _) as [ts|] eqn:E; [|done]. apply at_first_some in E as (l1 & x & l2 & E & _ & _ & ->). split; [|by apply kernel_ok_set_state].
  unfold quarantine_ok in *. rewrite E in Hq. cbn [q_tasks]. rewrite Forall_app, Forall_cons in *. tauto.
Qed.

Lemma quarantine_task_ok now id q k : 0 <= id -> quarantine_ok q -> kernel_ok k -> let '(_, q', k') := quarantine_task now id kDefaultBlockMs q k in quarantine_ok q' /\ kernel_ok k'.
Proof.
  intros H0 Hq Hk. unfold quarantine_task. destruct (_ =? kNoTask); [done|]. destruct (get_task_by_id k id); [|done]. destruct (at_first (holds_task id) _ _) as [ts|] eqn:E1.
  - apply at_first_some in E1 as (l1 & x & l2 & E & _ & _ & ->). split; [|done]. unfold quarantine_ok in *. rewrite E in Hq. cbn [q_tasks]. rewrite Forall_app, Forall_cons in *. tauto.
  - clear E1. destruct (at_first _ _ _) as [ts|] eqn:E2; [|done]. apply at_first_some in E2 as (l1 & x & l2 & E & _ & _ & ->). split; [|by apply kernel_ok_set_state]. unfold quarantine_ok in *. rewrite E in Hq. cbn [q_tasks]. rewrite Forall_app, Forall_cons in *. tauto.
Qed.

Lemma q_tick_ok now ids q w : quarantine_ok q -> kernel_ok (rw_kernel w) -> let s := foldl (q_tick_entry now) (q, w) ids in quarantine_ok s.1 /\ kernel_ok (rw_kernel s.2).
Proof.
  revert q w. induction ids as [|i ids IH]; intros q w Hq Hk; cbn [foldl]; [done|]. assert (Hs : quarantine_ok (q_tick_entry now (q, w) i).1 /\ kernel_ok (rw_kernel (q_tick_entry now (q, w) i).2)); [|destruct (q_tick_entry now (q, w) i), Hs; by apply IH].
  unfold q_tick_entry. cbv zeta. cbn [fst snd]. set (t := zlookup (q_tasks q) i). destruct (tq_active t && has_expired now (tq_expire t)) eqn:Et.
  - assert (H0 : 0 <= tq_task t).
    { unfold t, zlookup. destruct (0 <=? i); [|cbn; lia]. rewrite list_lookup_total_alt. destruct (q_tasks q !! Z.to_nat i) as [x|] eqn:Ex; [|cbn; lia]. cbn. unfold quarantine_ok in Hq. rewrite Forall_forall in Hq. apply Hq. by eapply list_elem_of_lookup_2. }
    pose proof (release_task_ok (tq_task t) q (rw_kernel w) H0 Hq Hk) as Hr. destruct (release_task _ _ _) as [[ok q1] k1]. destruct Hr as [Hq1 Hk1]. cbn [fst snd]. clear Et.
    destruct (_ && _); [|done]. unfold release_device. destruct (at_first _ _ _); split; (exact Hq1 || exact Hk1).
  - clear Et. cbn [fst snd]. destruct (_ && _); [|done]. unfold release_device. destruct (at_first _ _ _); split; (exact Hq || exact Hk).
Qed.

(** The response keeps the scheduler and IPC invariants of the kernel: alerts and expiries
    change task states only through the scheduler. *)
Theorem response_keeps_kernel steps e w :
  quarantine_ok (quarantine_ e) -> kernel_ok (rw_kernel w) -> Forall (fun s => match s with SAlert _ _ _ task _ => 0 <= task | STick _ => True end) steps ->
  kernel_ok (rw_kernel (foldl resp_step (e, w) steps).2).
Proof.
  revert e w. induction steps as [|s steps IH]; intros e w Hq Hk; cbn [foldl]; [done|]. intros [Hs Hss]%Forall_cons_1.
  assert (H : quarantine_ok (quarantine_ (resp_step (e, w) s).1) /\ kernel_ok (rw_kernel (resp_step (e, w) s).2)); [|destruct (resp_step (e, w) s) as [e1 w1], H; by apply IH].
  destruct s as [now|now sev src task desc]; cbn [resp_step fst snd].
  - unfold resp_tick. destruct (ab_tick _ _ _) as [a rs]. unfold q_tick. pose proof (q_tick_ok now (seqZ 0 8) (quarantine_ e) (set_rw_rules rs w) Hq Hk) as H. by destruct (foldl _ _ _) as [q w1].
  - unfold handle_alert, respond. destruct (_ && negb (src =? 0)); [destruct (block_ip _ _ _ _ _) as [[ok a] rs]|destruct (_ && _);
      [pose proof (quarantine_task_ok now task _ _ Hs Hq Hk) as Hqt; destruct (quarantine_task _ _ _ _ _) as [[ok q] k]|destruct (2 <=? _)]];
      (destruct (3 <=? _); [destruct (report_firewall_anomaly _ _)|]); done.
Qed.

(** * Where the block does not hold *)

(** A full rule table: the source is recorded as blocked, but no rule stops it. *)
Theorem full_table_blocks_nothing now ip a rs :
  is_blocked ip a = false -> Exists (fun b => be_active b = false) (ab_entries a) -> Forall (fun r => fw_enabled r = true) rs ->
  let '(ok, a', rs') := block_ip now ip kDefaultBlockMs a rs in ok = true /\ is_blocked ip a' = true /\ rs' = rs.
Proof.
  intros Hb Ha Hf. destruct (block_ip_new now ip kDefaultBlockMs a rs Hb Ha) as (l1 & x & l2 & _ & ->). split; [done|]. split.
  - unfold is_blocked. cbn [ab_entries]. rewrite existsb_app. cbn [existsb]. unfold blocks_ip at 2. cbn [be_active be_ip]. by rewrite Z.eqb_refl, orb_true_r.
  - pose proof (fw_add_rule_spec (block_rule ip) rs) as H. destruct (fw_add_rule _ _) as [[|] rs1]; [|by destruct H as [-> _]]. destruct H as (i & y & Hi & Hy & _). exfalso. rewrite Forall_forall in Hf. rewrite (Hf y) in Hy; [done|]. by eapply list_elem_of_lookup_2.
Qed.

(** In the last minute before the tick counter wraps a block has expired when it is made. *)
Theorem block_before_wrap_expired now : 4294907296 <= now < 4294967296 -> has_expired now (expiry now kDefaultBlockMs) = true.
Proof.
  intros Hn. unfold expiry, kDefaultBlockMs. cbn [Z.eqb]. assert (E : wrap32 (now + 60000) = now - 4294907296) by (unfold wrap32; rewrite <- (Z_mod_plus_full (now + 60000) (-1)); rewrite Z.mod_small; lia).
  rewrite E. unfold has_expired, kPermanent. destruct (Z.eqb_spec (now - 4294907296) 0xFFFFFFFF); [lia|]. apply Z.leb_le. lia.
Qed.

(** Releasing a quarantined task makes it ready, also when it was terminated meanwhile. *)
Theorem release_revives id q k :
  sched_ok k -> is_task k id -> is_quarantined id q = true -> sched_state (scheduler (tcb k id)) = Terminated ->
  sched_state (scheduler (tcb (release_task id q k).2 id)) = Ready.
Proof.
  intros Hk Hid Hq _. unfold release_task. destruct (at_first _ _ _) as [ts|] eqn:E; [cbn [snd]; by rewrite set_task_state_state, decide_True by done|].
  exfalso. apply at_first_none in E. unfold is_quarantined in Hq. apply existsb_exists in Hq as (t & Hin%list_elem_of_In & Ht). rewrite Forall_forall in E. by rewrite (E t Hin) in Ht.
Qed.

(** * From detection to response *)

(** Aggregated alerts trigger no response: once the loop has seen an alert, a storm of
    alerts of its kind, each within 5 seconds of the one before, is never acted on, also
    when the block has expired. *)
Theorem storm_handled_once cat sev src dst sport dport desc ts t w now s :
  alerts_ok (am w) -> alert_count_ (am w) < 4294967295 -> has_alert (am w) cat src dst t -> dense t ts ->
  poll_nids now (alert_count_ (am w)) (am (submit_all cat sev src dst sport dport desc ts w)) s = s.
Proof. intros Hok Hc Hh Hd. unfold poll_nids. by rewrite (submit_all_has cat sev src dst sport dport desc ts t w Hok Hc Hh Hd), Z.sub_diag. Qed.

(** An ARP reply that gives 10.0.0.3 the hardware address [mac]. *)
Definition arp_reply (mac : Z) : list Z := replicate 12 0 ++ [8; 6; 0; 1; 8; 0; 6; 4; 0; 2] ++ [0; 0; 0; 0; 0; mac] ++ [10; 0; 0; 3] ++ replicate 10 0.

(** A forged ARP reply cuts off the host it impersonates: the alert carries the claimed
    address as its source, and the response blocks it. *)
Theorem forged_arp_blocks_victim :
  let '(e1, w1) := ids_process_packet 2000 (arp_reply 1) 42 ids_ctor (mkIdsWorld alerts_ctor monitor_ctor []) in
  let '(_, w2) := ids_process_packet 2100 (arp_reply 66) 42 e1 w1 in
  let st := response_round 2500 0 0 (am w2) hids_alerts_ctor (resp_ctor, attacked_world) in
  (process_packet stealth_ctor 2600 (ping_packet 3) 38 (str "en0") (filtering (rw_rules attacked_world))).1 = true /\
  (process_packet stealth_ctor 2600 (ping_packet 3) 38 (str "en0") (filtering (rw_rules st.2))).1 = false.
Proof. vm_compute. split; reflexivity. Qed.
