(* ===== verification/BootClaims.v ===== *)
(** Theorems on firmware update and secure boot: power may fail at any moment without losing
    a bootable image, only verified firmware is started, a pending update is installed, and
    what staging an update touches. *)
From S2P Require Import Prelude Boot.
#[local] Open Scope Z_scope.

(** * What a run touches *)

(** [e] changes bytes from [lo] up to [hi] only, also when power fails. *)
Definition within {A} (lo hi : Z) (e : Op A) : Prop := forall n m x, ~ (lo <= x < hi) -> load8 (e n m).2 x = load8 m x.

Lemma within_ret {A} lo hi (x : A) : within lo hi (mret x).
Proof. by intros n m y _. Qed.

Lemma within_contents lo hi : within lo hi contents.
Proof. by intros n m y _. Qed.

Lemma within_bind {A B} lo hi (e : Op A) (k : A -> Op B) : within lo hi e -> (forall x, within lo hi (k x)) -> within lo hi (x ← e; k x).
Proof.
  intros He Hk n m y Hy. unfold mbind, op_bind. specialize (He n m y Hy). destruct (e n m) as [[[x n']|] m']; [|done]. cbn [snd] in *. by rewrite Hk.
Qed.

Lemma within_weaken {A} lo hi lo' hi' (e : Op A) : within lo hi e -> lo' <= lo -> hi <= hi' -> within lo' hi' e.
Proof. intros He H1 H2 n m x Hx. apply He. lia. Qed.

#[local] Hint Resolve within_ret within_contents : core.

Lemma page_start_aligned a : a mod 1024 = 0 -> flash_page a = a.
Proof.
  intros Ha. unfold flash_page. change (Z.lnot 1023) with (- (2 ^ 10)). assert (E : Z.land a (-(2^10)) = Z.ldiff a (Z.ones 10)) by (rewrite Z.ldiff_land; reflexivity).
  rewrite E, Z.ldiff_ones_r, Z.shiftr_div_pow2, Z.shiftl_mul_pow2 by lia. change (2 ^ 10) with 1024. pose proof (Z.div_mod a 1024 ltac:(lia)). lia.
Qed.

Section Controller.
Context `{FC : !FlashController, FL : !FlashLaws}.

Lemma within_erase a : a mod 1024 = 0 -> within a (a + 1024) (erase_page a).
Proof.
  intros Ha n m x Hx. unfold erase_page, command. rewrite page_start_aligned by done. destruct n as [|n]; [by apply torn_erase_frame|]. pose proof (erase_frame a m x Hx) as H. by destruct (erase_op a m).
Qed.

Lemma within_write a w : within a (a + 4) (write_word a w).
Proof. intros n m x Hx. unfold write_word, command. destruct n as [|n]; [by apply torn_write_frame|]. pose proof (write_frame a w m x Hx) as H. by destruct (write_op a w m). Qed.

Lemma within_erase_loop fuel lo hi addr : lo <= addr -> addr mod 1024 = 0 -> hi mod 1024 = 0 -> 0 <= addr -> hi < 4294967296 -> within lo hi (erase_loop fuel addr hi).
Proof.
  revert addr. induction fuel as [|fuel IH]; intros addr Hlo Ha Hh H0 Hb; cbn [erase_loop]; [done|]. destruct (Z.ltb_spec addr hi) as [Hlt|]; [|done].
  pose proof (Z.div_mod addr 1024 ltac:(lia)). pose proof (Z.div_mod hi 1024 ltac:(lia)). assert (Hle : addr + 1024 <= hi) by lia.
  apply within_bind; [apply (within_weaken addr (addr + 1024)); [by apply within_erase|lia|lia]|]. intros [|]; [|done]. rewrite wrap32_small by (unfold is_u32; lia).
  apply IH; [lia| |done|lia|done]. rewrite <- (Z.mul_1_l 1024) at 1. by rewrite Z_mod_plus_full.
Qed.

Lemma within_erase_partition a size : 0 <= a -> 0 <= size -> a mod 1024 = 0 -> size mod 1024 = 0 -> a + size < 4294967296 -> within a (a + size) (erase_partition a size).
Proof.
  intros H0 H1 Ha Hs Hb. unfold erase_partition. rewrite wrap32_small by (unfold is_u32; lia). apply within_erase_loop; [lia|done| |done|done]. by rewrite Z.add_mod, Ha, Hs by lia.
Qed.

Lemma within_copy k i dst src lo hi : lo <= dst + 4 * i -> dst + 4 * (i + Z.of_nat k) <= hi -> within lo hi (copy_words k i dst src).
Proof.
  revert i. induction k as [|k IH]; intros i H1 H2; cbn [copy_words]; [done|]. apply within_bind; [done|]. intros m. apply within_bind; [eapply within_weaken; [apply within_write|lia|lia]|].
  intros [|]; [|done]. apply IH; lia.
Qed.

Lemma within_header k i dst src lo hi : lo <= dst + 4 * i -> dst + 4 * (i + Z.of_nat k) <= hi -> within lo hi (copy_header k i dst src).
Proof.
  revert i. induction k as [|k IH]; intros i H1 H2; cbn [copy_header]; [done|]. apply within_bind; [done|]. intros m. apply within_bind; [eapply within_weaken; [apply within_write|lia|lia]|].
  intros [|]; [|done]. apply IH; lia.
Qed.

(** * Verification looks at one partition *)

Definition same_at (lo hi : Z) (m m' : flash) : Prop := forall x, lo <= x < hi -> load8 m' x = load8 m x.

Lemma load32_same lo hi m m' a : same_at lo hi m m' -> lo <= a -> a + 4 <= hi -> load32 m' a = load32 m a.
Proof. intros H H1 H2. unfold load32. by rewrite !H by lia. Qed.

Lemma bytes_same lo hi m m' a n : same_at lo hi m m' -> lo <= a -> a + n <= hi -> bytes_of m' a n = bytes_of m a n.
Proof. intros H H1 H2. unfold bytes_of. apply list_fmap_ext. intros i x Hx%list_elem_of_lookup_2%elem_of_seqZ. apply H. lia. Qed.

Variable ed25519_verify : list Z -> list Z -> bool.
Abbreviation verify_firmware := (verify_firmware ed25519_verify).
Abbreviation swap := (swap ed25519_verify).
Abbreviation boot := (boot ed25519_verify).

Lemma verify_same m m' o size : 1024 <= size < 4294967296 -> same_at o (o + size) m m' -> verify_firmware m' o size = verify_firmware m o size.
Proof.
  intros Hs H. unfold Boot.verify_firmware, hdr_magic, hdr_signature, payload, hdr_image_size. rewrite !(load32_same o (o + size) m m') by (done || lia).
  rewrite (bytes_same o (o + size) m m' (o + 16)) by (done || lia). destruct (bad_size (load32 m (o + 8)) size) eqn:E; cbn [negb]; [by rewrite !andb_false_r|].
  unfold bad_size in E. rewrite wrap32_small in E by (unfold is_u32; lia). apply orb_false_iff in E as [_ E%Z.ltb_ge]. by rewrite (bytes_same o (o + size) m m' (o + 128)) by (done || lia).
Qed.

(** * Power loss *)

(** Partitions made of whole pages, apart from each other and from the table. *)
Record layout_ok (l : Layout) : Prop := {
  lo_range : 0 <= part_a l /\ 0 <= part_b l /\ part_a l + size_a l < 4294967296 /\ part_b l + size_a l < 4294967296;
  lo_sizes : 1024 <= size_a l /\ size_b l = size_a l;
  lo_pages : part_a l mod 1024 = 0 /\ part_b l mod 1024 = 0 /\ size_a l mod 1024 = 0;
  lo_apart : part_a l + size_a l <= part_b l \/ part_b l + size_a l <= part_a l;
  lo_table : (part_a l + size_a l <= 0x7000 \/ 0x8000 <= part_a l) /\ (part_b l + size_a l <= 0x7000 \/ 0x8000 <= part_b l);
}.

Lemma layout_same m m' : same_at 0x7000 0x8000 m m' -> layout m' = layout m.
Proof. intros H. unfold layout, PT_TABLE_ADDR. by rewrite !(load32_same 0x7000 0x8000 m m') by (done || lia). Qed.

(** The part of [swap] that writes partition A. *)
Definition install (a b size : Z) : Op bool :=
  m ← contents;
  ok ← (if bad_size (hdr_image_size m b) size then mret false else erase_partition a size);
  m ← contents;
  ok ← (if (ok : bool) then copy_words (Z.to_nat (words_to_copy (hdr_image_size m b))) 0 (a + 128) (b + 128) else mret false);
  if (ok : bool) then copy_header 32 0 a b else mret false.

Definition finish (a b size : Z) : Op bool :=
  m ← contents; if verify_firmware m a size then _ ← erase_page b; mret true else mret false.

Lemma swap_eq a b size n m : swap a b size n m = (_ ← install a b size; finish a b size) n m.
Proof.
  unfold Boot.swap, install, finish, mbind, op_bind, contents. destruct (bad_size _ _); cbn; [done|]. destruct (erase_partition a size n m) as [[[[|] n1]|] m1]; [|done|done].
  destruct (copy_words _ _ _ _ n1 m1) as [[[[|] n2]|] m2]; [|done|done]. by destruct (copy_header 32 0 a b n2 m2) as [[[ok n3]|] m3].
Qed.

Section Partitions.
Context (l : Layout) (Hl : layout_ok l).
Abbreviation a := (part_a l).
Abbreviation b := (part_b l).
Abbreviation size := (size_a l).

Lemma words_fit image_size : bad_size image_size size = false -> 0 <= image_size -> 0 <= words_to_copy image_size /\ image_size <= 4 * words_to_copy image_size <= size - 128.
Proof.
  intros Hb H0. destruct (lo_sizes l Hl) as [Hs _], (lo_pages l Hl) as (_ & _ & Hp), (lo_range l Hl) as (? & ? & ? & ?). unfold bad_size in Hb. rewrite wrap32_small in Hb by (unfold is_u32; lia).
  apply orb_false_iff in Hb as [_ Hb%Z.ltb_ge]. unfold words_to_copy. pose proof (Z.div_mod size 1024 ltac:(lia)). pose proof (Z.div_mod image_size 4 ltac:(lia)). pose proof (Z.mod_pos_bound image_size 4 ltac:(lia)).
  pose proof (Z.div_pos image_size 4 H0 ltac:(lia)). destruct (Z.eqb_spec (image_size mod 4) 0); cbn [negb]; lia.
Qed.

Lemma erase_a_frame : within a (a + size) (erase_partition a size).
Proof. destruct (lo_sizes l Hl), (lo_pages l Hl) as (? & ? & ?), (lo_range l Hl) as (? & ? & ? & ?). apply within_erase_partition; (done || lia). Qed.

Lemma image_size_nonneg m : (forall x, 0 <= load8 m x) -> 0 <= hdr_image_size m b.
Proof. intros H. unfold hdr_image_size, load32. pose proof (H (b + 8)). pose proof (H (b + 8 + 1)). pose proof (H (b + 8 + 2)). pose proof (H (b + 8 + 3)). lia. Qed.

Lemma install_frame n m x : 0 <= hdr_image_size m b -> ~ (a <= x < a + size) -> load8 (install a b size n m).2 x = load8 m x.
Proof.
  intros H0 Hx. unfold install, mbind, op_bind, contents. destruct (bad_size (hdr_image_size m b) size) eqn:Eb; [done|]. destruct (lo_sizes l Hl) as [Hs _].
  assert (He : forall x, ~ (a <= x < a + size) -> load8 (erase_partition a size n m).2 x = load8 m x) by (intros y Hy; by apply erase_a_frame). destruct (erase_partition a size n m) as [[[ok n1]|] m1]; cbn [snd] in He; [|by apply He].
  destruct ok; [|by apply He]. assert (Es : hdr_image_size m1 b = hdr_image_size m b) by (apply (load32_same b (b + size)); [intros y Hy; apply He; destruct (lo_apart l Hl); lia|lia|lia]). rewrite Es.
  destruct (words_fit _ Eb H0) as (W0 & W1 & W2). assert (Hc : load8 (copy_words (Z.to_nat (words_to_copy (hdr_image_size m b))) 0 (a + 128) (b + 128) n1 m1).2 x = load8 m1 x) by (apply (within_copy _ _ _ _ a (a + size)); (done || lia)).
  destruct (copy_words _ _ _ _ n1 m1) as [[[[|] n2]|] m2]; cbn [snd] in Hc; unfold mret, op_ret; cbn [snd]; [|by rewrite Hc, He..]. rewrite (within_header 32 0 a b a (a + size)); [by rewrite Hc, He|lia|lia|done].
Qed.

(** How [swap] can end: B is untouched, or A is valid. *)
Lemma swap_safe n m :
  0 <= hdr_image_size m b ->
  let (r, m') := swap a b size n m in
  (forall x, ~ (a <= x < a + size) -> ~ (b <= x < b + size) -> load8 m' x = load8 m x) /\
  (same_at b (b + size) m m' \/ verify_firmware m' a size = true) /\
  (forall ok n', r = Some (ok, n') -> verify_firmware m' a size = ok).
Proof.
  intros H0. rewrite swap_eq. unfold mbind at 1, op_bind at 1. pose proof (install_frame n m) as Hi. destruct (install a b size n m) as [[[ok n1]|] m1]; cbn [snd] in Hi.
  2: { split; [intros x Hx _; by apply Hi|]. split; [left; intros x Hx; apply Hi; [done|]; destruct (lo_apart l Hl); lia|done]. }
  unfold finish, mbind, op_bind, contents. destruct (verify_firmware m1 a size) eqn:Ev.
  - destruct (lo_sizes l Hl) as [Hs _], (lo_pages l Hl) as (_ & Hpb & _), (lo_range l Hl) as (? & ? & ? & ?). pose proof (within_erase b Hpb n1 m1) as Hw. destruct (erase_page b n1 m1) as [r m2]; cbn [snd] in Hw.
    assert (Ev2 : verify_firmware m2 a size = true) by (rewrite <- Ev; apply verify_same; [lia|]; intros x Hx; apply Hw; destruct (lo_apart l Hl); lia).
    assert (Hf : forall x, ~ (a <= x < a + size) -> ~ (b <= x < b + size) -> load8 m2 x = load8 m x) by (intros x Hx Hy; rewrite Hw by lia; by apply Hi).
    destruct r as [[ok2 n2]|]; (split; [done|]; split; [by right|]); intros ok3 n3; [intros [= <- <-]|]; done.
  - split; [intros x Hx _; by apply Hi|]. split; [left; intros x Hx; apply Hi; [done|]; destruct (lo_apart l Hl); lia|]. by intros ok3 n3 [= <- <-].
Qed.
End Partitions.

Lemma apart_table l m m' : layout_ok l -> (forall x, ~ (part_a l <= x < part_a l + size_a l) -> ~ (part_b l <= x < part_b l + size_a l) -> load8 m' x = load8 m x) -> layout m' = layout m.
Proof. intros Hl Hf. apply layout_same. intros x Hx. destruct (lo_table l Hl), (lo_sizes l Hl). apply Hf; lia. Qed.

Lemma jump_sane m a (n n' : nat) sp pc :
  Some (if negb (Z.land (load32 m (a + 128)) 0xF0000000 =? 0x20000000) || (Z.land (load32 m (a + 132)) 1 =? 0) then Halt else Jump (load32 m (a + 128)) (load32 m (a + 132)), n) = Some (Jump sp pc, n') ->
  sp = load32 m (a + 128) /\ pc = load32 m (a + 132) /\ Z.land sp 0xF0000000 = 0x20000000 /\ Z.land pc 1 <> 0.
Proof.
  destruct (Z.eqb_spec (Z.land (load32 m (a + 128)) 0xF0000000) 0x20000000); cbn [negb orb]; [|by intros [= ]].
  destruct (Z.eqb_spec (Z.land (load32 m (a + 132)) 1) 0); [by intros [= ]|]. by intros [= <- <- <-].
Qed.

(** What a start of the machine does, with power for [n] commands. *)
Lemma boot_safe n m l :
  layout m = l -> layout_ok l -> (forall x, 0 <= load8 m x) ->
  let (r, m') := boot n m in
  layout m' = l /\ (same_at (part_b l) (part_b l + size_a l) m m' /\ (verify_firmware m (part_b l) (size_a l) = true \/ m' = m) \/ verify_firmware m' (part_a l) (size_a l) = true) /\
  (forall sp pc n', r = Some (Jump sp pc, n') -> verify_firmware m' (part_a l) (size_a l) = true /\ sp = load32 m' (part_a l + 128) /\ pc = load32 m' (part_a l + 132) /\ Z.land sp 0xF0000000 = 0x20000000 /\ Z.land pc 1 <> 0).
Proof.
  intros El Hl Hpos. unfold Boot.boot, mbind, op_bind, contents. rewrite El. destruct l as [a b size sb] eqn:E. rewrite <- E in Hl. cbn [part_a part_b size_a].
  destruct (verify_firmware m b size && _) eqn:Eb.
  - apply andb_true_iff in Eb as [Evb _]. pose proof (swap_safe l Hl n m) as Hs. rewrite E in Hs. cbn [part_a part_b size_a] in Hs. specialize (Hs (image_size_nonneg (mkLayout a b size sb) m Hpos)). destruct (swap a b size n m) as [[[v n1]|] m1].
    + destruct Hs as (Hf & Hb & Hv). assert (Et : layout m1 = mkLayout a b size sb) by (rewrite <- El; apply (apart_table l m m1 Hl); rewrite E; exact Hf).
      destruct v.
      * specialize (Hv true n1 eq_refl). unfold mret, op_ret. split; [done|]. split; [by right|]. intros sp pc n' Hj. split; [done|]. by eapply jump_sane.
      * unfold mret, op_ret. split; [done|]. split; [|by intros sp pc n' [= ]]. destruct Hb as [Hb|Hb]; [left; split; [done|by left]|by right].
    + destruct Hs as (Hf & Hb & _). split; [rewrite <- El; apply (apart_table l m m1 Hl); rewrite E; exact Hf|]. split; [destruct Hb as [Hb|Hb]; [left; split; [done|by left]|by right]|done].
  - unfold mret, op_ret. cbv beta iota. destruct (verify_firmware m a size) eqn:Eva.
    + split; [done|]. split; [by right|]. intros sp pc n' Hj. split; [done|]. by eapply jump_sane.
    + split; [done|]. split; [left; split; [done|by right]|done].
Qed.
(** ** Cells stay bytes *)

Definition keeps {A} (e : Op A) : Prop := forall n m, cells m -> cells (e n m).2.

Lemma keeps_ret {A} (x : A) : keeps (mret x).
Proof. by intros n m. Qed.

Lemma keeps_contents : keeps contents.
Proof. by intros n m. Qed.

Lemma keeps_bind {A B} (e : Op A) (k : A -> Op B) : keeps e -> (forall x, keeps (k x)) -> keeps (x ← e; k x).
Proof. intros He Hk n m Hc. unfold mbind, op_bind. specialize (He n m Hc). destruct (e n m) as [[[x n']|] m']; [|done]. by apply Hk. Qed.

Lemma keeps_erase x : keeps (erase_page x).
Proof. intros n m Hc. unfold erase_page, command. destruct n as [|n]; [by apply torn_erase_cells|]. pose proof (erase_cells (flash_page x) m Hc). by destruct (erase_op _ m). Qed.

Lemma keeps_write x w : keeps (write_word x w).
Proof. intros n m Hc. unfold write_word, command. destruct n as [|n]; [by apply torn_write_cells|]. pose proof (write_cells x w m Hc). by destruct (write_op x w m). Qed.

#[local] Hint Resolve keeps_ret keeps_contents keeps_erase keeps_write : core.

Lemma keeps_erase_loop fuel addr limit : keeps (erase_loop fuel addr limit).
Proof. revert addr. induction fuel as [|fuel IH]; intros addr; cbn [erase_loop]; [done|]. destruct (_ <? _); [|done]. apply keeps_bind; [done|]. by intros [|]. Qed.

Lemma keeps_copy k i dst src : keeps (copy_words k i dst src).
Proof. revert i. induction k as [|k IH]; intros i; cbn [copy_words]; [done|]. apply keeps_bind; [done|]. intros m. apply keeps_bind; [done|]. by intros [|]. Qed.

Lemma keeps_header k i dst src : keeps (copy_header k i dst src).
Proof. revert i. induction k as [|k IH]; intros i; cbn [copy_header]; [done|]. apply keeps_bind; [done|]. intros m. apply keeps_bind; [done|]. by intros [|]. Qed.

Lemma keeps_boot : keeps boot.
Proof.
  unfold Boot.boot. apply keeps_bind; [done|]. intros m. destruct (layout m) as [a b size sb]. apply keeps_bind.
  - destruct (_ && _); [|done]. unfold Boot.swap. apply keeps_bind; [done|]. intros m1. apply keeps_bind; [destruct (bad_size _ _); [done|apply keeps_erase_loop]|]. intros ok. apply keeps_bind; [done|]. intros m2.
    apply keeps_bind; [destruct ok; [apply keeps_copy|done]|]. intros ok2. apply keeps_bind; [destruct ok2; [apply keeps_header|done]|]. intros _. apply keeps_bind; [done|]. intros m3. destruct (Boot.verify_firmware _ _ _ _); [|done]. by apply keeps_bind.
  - intros v. apply keeps_bind; [done|]. intros m1. by destruct v.
Qed.

(** The machine is started again and again, each time with power for some commands. *)
Definition restarts (budgets : list nat) (m : flash) : flash := foldl (fun m n => (boot n m).2) m budgets.

(** One of the partitions holds firmware that verifies. *)
Definition bootable (l : Layout) (m : flash) : Prop := verify_firmware m (part_a l) (size_a l) = true \/ verify_firmware m (part_b l) (size_a l) = true.

Lemma boot_bootable n m : layout_ok (layout m) -> cells m -> bootable (layout m) m -> layout (boot n m).2 = layout m /\ bootable (layout m) (boot n m).2.
Proof.
  intros Hl Hc Hb. pose proof (boot_safe n m (layout m) eq_refl Hl (fun x => proj1 (Hc x))) as H. destruct (boot n m) as [r m']. destruct H as (H1 & H2 & _). cbn [snd]. split; [done|].
  destruct H2 as [[Hs Hor]|H2]; [|by left]. destruct Hor as [Hv| ->]; [|done]. right. destruct (lo_sizes _ Hl), (lo_range _ Hl) as (? & ? & ? & ?). rewrite (verify_same m m'); [done|lia|done].
Qed.

Lemma restarts_bootable budgets m : layout_ok (layout m) -> cells m -> bootable (layout m) m -> layout (restarts budgets m) = layout m /\ cells (restarts budgets m) /\ bootable (layout m) (restarts budgets m).
Proof.
  revert m. induction budgets as [|n budgets IH]; intros m Hl Hc Hb; cbn [restarts foldl]; [done|]. destruct (boot_bootable n m Hl Hc Hb) as [H1 H2]. pose proof (keeps_boot n m Hc) as Hc1. unfold restarts in IH. rewrite <- H1 in Hl, H2 |- *. by apply IH.
Qed.

(** C11: Power may fail at any moment: from a flash in which partition A or B holds verified
    firmware, however often the machine is started and loses power during any erase or
    write of the boot loader, a verified partition remains; and firmware is only ever
    started from partition A when it verifies, at its own stack pointer in RAM and its
    Thumb entry. *)
Theorem power_loss_safe m budgets n :
  layout_ok (layout m) -> cells m -> bootable (layout m) m ->
  let m1 := restarts budgets m in
  layout m1 = layout m /\ bootable (layout m) m1 /\
  (forall sp pc n', (boot n m1).1 = Some (Jump sp pc, n') ->
     verify_firmware (boot n m1).2 (part_a (layout m)) (size_a (layout m)) = true /\
     sp = load32 (boot n m1).2 (part_a (layout m) + 128) /\ pc = load32 (boot n m1).2 (part_a (layout m) + 132) /\ Z.land sp 0xF0000000 = 0x20000000 /\ Z.land pc 1 <> 0).
Proof.
  intros Hl Hc Hb. cbv zeta. destruct (restarts_bootable budgets m Hl Hc Hb) as (H1 & H2 & H3). split; [done|]. split; [done|].
  pose proof (boot_safe n (restarts budgets m) (layout m) H1 Hl (fun x => proj1 (H2 x))) as H. destruct (boot n (restarts budgets m)) as [r m']. destruct H as (_ & _ & H). cbn [fst snd]. exact H.
Qed.

(** * Installing an update *)

Section Working.
Context {RL : Reliable}.

Lemma erase_runs x n m : x mod 1024 = 0 -> exists m', erase_page x (S n) m = (Some (true, n), m') /\ forall y, load8 m' y = if decide (x <= y < x + 1024) then 255 else load8 m y.
Proof.
  intros Hx. unfold erase_page, command. rewrite page_start_aligned by done. pose proof (erase_ok x m) as Ho. pose proof (erase_done x m) as Hd. pose proof (erase_frame x m) as Hf. destruct (erase_op x m) as [ok m']. cbn [fst snd] in *. subst ok.
  exists m'. split; [done|]. intros y. case_decide; [by apply Hd|by apply Hf].
Qed.

Lemma write_runs x w n m : (forall i, 0 <= i < 4 -> load8 m (x + i) = 255) ->
  exists m', write_word x w (S n) m = (Some (true, n), m') /\ forall y, load8 m' y = if decide (x <= y < x + 4) then word_byte w (y - x) else load8 m y.
Proof.
  intros Hx. unfold write_word, command. pose proof (write_ok x w m) as Ho. pose proof (write_done x w m) as Hd. pose proof (write_frame x w m) as Hf. destruct (write_op x w m) as [ok m']. cbn [fst snd] in *. subst ok.
  exists m'. split; [done|]. intros y. case_decide; [|by apply Hf]. replace y with (x + (y - x)) at 1 by lia. rewrite Hd, Hx by (done || lia). unfold word_byte. change 255 with (Z.ones 8). rewrite Z.land_comm, Z.land_ones by lia. apply Z.mod_mod. lia.
Qed.

Lemma erase_loop_runs k : forall fuel addr limit n m,
  0 <= addr -> addr mod 1024 = 0 -> limit = addr + 1024 * Z.of_nat k -> limit < 4294967296 -> (k < fuel)%nat -> (k <= n)%nat ->
  exists m', erase_loop fuel addr limit n m = (Some (true, (n - k)%nat), m') /\ forall y, load8 m' y = if decide (addr <= y < limit) then 255 else load8 m y.
Proof.
  induction k as [|k IH]; intros fuel addr limit n m H0 Ha El Hb Hf Hn; (destruct fuel as [|fuel]; [lia|]); cbn [erase_loop].
  - destruct (Z.ltb_spec addr limit); [lia|]. exists m. rewrite Nat.sub_0_r. split; [done|]. intros y. case_decide; [lia|done].
  - destruct (Z.ltb_spec addr limit); [|lia]. destruct n as [|n]; [lia|]. destruct (erase_runs addr n m Ha) as (m1 & E1 & H1). unfold mbind, op_bind. rewrite E1. rewrite wrap32_small by (unfold is_u32; lia).
    destruct (IH fuel (addr + 1024) limit n m1) as (m2 & E2 & H2); [lia| |lia|lia|lia|lia|]; [rewrite <- (Z.mul_1_l 1024) at 1; by rewrite Z_mod_plus_full|].
    exists m2. rewrite E2. split; [done|]. intros y. rewrite H2, H1. repeat case_decide; (done || lia).
Qed.

(** A word made of the bytes of memory gives them back. *)
Lemma word_byte_load m x i : cells m -> 0 <= i < 4 -> word_byte (load32 m x) i = load8 m (x + i).
Proof.
  intros Hc Hi. unfold word_byte, load32. pose proof (Hc x). pose proof (Hc (x + 1)). pose proof (Hc (x + 2)). pose proof (Hc (x + 3)).
  assert (Hcase : i = 0 \/ i = 1 \/ i = 2 \/ i = 3) by lia. destruct Hcase as [->|[->|[->| ->]]]; rewrite ?Z.add_0_r; cbn [Z.pow Z.pow_pos Pos.iter Z.mul Pos.mul]; Z.to_euclidean_division_equations; lia.
Qed.

Lemma copy_runs k : forall i dst src n m,
  cells m -> (k <= n)%nat -> (forall y, dst + 4 * i <= y < dst + 4 * (i + Z.of_nat k) -> load8 m y = 255) ->
  (forall y, src + 4 * i <= y < src + 4 * (i + Z.of_nat k) -> ~ (dst + 4 * i <= y < dst + 4 * (i + Z.of_nat k))) ->
  exists m', copy_words k i dst src n m = (Some (true, (n - k)%nat), m') /\
    forall y, load8 m' y = if decide (dst + 4 * i <= y < dst + 4 * (i + Z.of_nat k)) then load8 m (src + (y - dst)) else load8 m y.
Proof.
  induction k as [|k IH]; intros i dst src n m Hc Hn He Hd; cbn [copy_words].
  - exists m. rewrite Nat.sub_0_r. split; [done|]. intros y. case_decide; [lia|done].
  - destruct n as [|n]; [lia|]. unfold mbind, op_bind, contents. destruct (write_runs (dst + 4 * i) (load32 m (src + 4 * i)) n m) as (m1 & E1 & H1); [intros j Hj; apply He; lia|]. rewrite E1.
    pose proof (keeps_write (dst + 4 * i) (load32 m (src + 4 * i)) (S n) m Hc) as Hc1. rewrite E1 in Hc1. cbn [snd] in Hc1.
    destruct (IH (i + 1) dst src n m1 Hc1) as (m2 & E2 & H2); [lia|intros y Hy; rewrite H1, decide_False by lia; apply He; lia|intros y Hy; pose proof (Hd y ltac:(lia)); lia|].
    exists m2. rewrite E2. split; [done|]. intros y. rewrite H2. destruct (decide (dst + 4 * i <= y < dst + 4 * i + 4)) as [Hy|Hy].
    + rewrite decide_False by lia. rewrite decide_True by lia. rewrite H1, decide_True by lia. rewrite word_byte_load by (done || lia). f_equal. lia.
    + destruct (decide (dst + 4 * i <= y < dst + 4 * (i + Z.of_nat (S k)))) as [Hin|Hout]; [|rewrite decide_False by lia; by rewrite H1, decide_False by lia].
      rewrite decide_True by lia. rewrite H1, decide_False; [done|]. pose proof (Hd (src + (y - dst)) ltac:(lia)). lia.
Qed.

Lemma header_runs k : forall i dst src n m,
  cells m -> (k <= n)%nat -> (forall y, dst + 4 * i <= y < dst + 4 * (i + Z.of_nat k) -> load8 m y = 255) ->
  (forall y, src + 4 * i <= y < src + 4 * (i + Z.of_nat k) -> ~ (dst + 4 * i <= y < dst + 4 * (i + Z.of_nat k))) ->
  exists m', copy_header k i dst src n m = (Some (true, (n - k)%nat), m') /\
    forall y, load8 m' y = if decide (dst + 4 * i <= y < dst + 4 * (i + Z.of_nat k))
                           then if decide (dst + 12 <= y < dst + 16) then word_byte VALID (y - dst - 12) else load8 m (src + (y - dst)) else load8 m y.
Proof.
  induction k as [|k IH]; intros i dst src n m Hc Hn He Hd; cbn [copy_header].
  - exists m. rewrite Nat.sub_0_r. split; [done|]. intros y. case_decide; [lia|done].
  - destruct n as [|n]; [lia|]. unfold mbind, op_bind, contents. set (w := if i =? 3 then VALID else load32 m (src + 4 * i)). destruct (write_runs (dst + 4 * i) w n m) as (m1 & E1 & H1); [intros j Hj; apply He; lia|]. rewrite E1.
    pose proof (keeps_write (dst + 4 * i) w (S n) m Hc) as Hc1. rewrite E1 in Hc1. cbn [snd] in Hc1.
    destruct (IH (i + 1) dst src n m1 Hc1) as (m2 & E2 & H2); [lia|intros y Hy; rewrite H1, decide_False by lia; apply He; lia|intros y Hy; pose proof (Hd y ltac:(lia)); lia|].
    exists m2. rewrite E2. split; [done|]. intros y. rewrite H2. destruct (decide (dst + 4 * i <= y < dst + 4 * i + 4)) as [Hy|Hy].
    + rewrite decide_False by lia. rewrite decide_True by lia. rewrite H1, decide_True by lia. unfold w. destruct (Z.eqb_spec i 3) as [->|]; [rewrite decide_True by lia; f_equal; lia|]. rewrite decide_False by lia. rewrite word_byte_load by (done || lia). f_equal. lia.
    + destruct (decide (dst + 4 * i <= y < dst + 4 * (i + Z.of_nat (S k)))) as [Hin|Hout]; [|rewrite decide_False by lia; by rewrite H1, decide_False by lia].
      rewrite decide_True by lia. case_decide; [done|]. rewrite H1, decide_False; [done|]. pose proof (Hd (src + (y - dst)) ltac:(lia)). lia.
Qed.

Lemma load32_shift m m' x y : (forall j, 0 <= j < 4 -> load8 m' (x + j) = load8 m (y + j)) -> load32 m' x = load32 m y.
Proof. intros H. unfold load32. pose proof (H 0 ltac:(lia)) as H0. rewrite !Z.add_0_r in H0. by rewrite H0, !H by lia. Qed.

Lemma bytes_shift m m' x y n : (forall j, 0 <= j < n -> load8 m' (x + j) = load8 m (y + j)) -> bytes_of m' x n = bytes_of m y n.
Proof. intros H. unfold bytes_of. apply list_fmap_ext. intros i j Hj%list_elem_of_lookup_2%elem_of_seqZ. apply H. lia. Qed.

(** Partition A after a complete installation. *)
Record installed_as (l : Layout) (m m' : flash) : Prop := {
  in_header j : 0 <= j < 128 -> ~ (12 <= j < 16) -> load8 m' (part_a l + j) = load8 m (part_b l + j);
  in_status : hdr_status m' (part_a l) = VALID;
  in_body j : 128 <= j < 128 + hdr_image_size m (part_b l) -> load8 m' (part_a l + j) = load8 m (part_b l + j);
  in_frame y : ~ (part_a l <= y < part_a l + size_a l) -> load8 m' y = load8 m y;
}.

Lemma install_runs l n m :
  layout_ok l -> cells m -> bad_size (hdr_image_size m (part_b l)) (size_a l) = false -> size_a l / 1024 + size_a l / 4 + 32 <= Z.of_nat n ->
  exists ok n' m', install (part_a l) (part_b l) (size_a l) n m = (Some (ok, n'), m') /\ Z.of_nat n <= Z.of_nat n' + (size_a l / 1024 + size_a l / 4 + 32) /\ installed_as l m m'.
Proof.
  intros Hl Hc Hb Hn. destruct l as [a b size sb]. cbn [part_a part_b size_a] in *. destruct (lo_sizes _ Hl) as [Hs _], (lo_pages _ Hl) as (Pa & Pb & Ps), (lo_range _ Hl) as (Ra & Rb & Ra2 & Rb2). pose proof (lo_apart _ Hl) as Hap. cbn [part_a part_b size_a] in *.
  pose proof (image_size_nonneg (mkLayout a b size sb) m (fun x => proj1 (Hc x))) as Hi0. cbn [part_b] in Hi0. pose proof (words_fit _ Hl _ Hb Hi0) as (W0 & W1 & W2). cbn [size_a] in W2. set (W := words_to_copy (hdr_image_size m b)) in *. set (isz := hdr_image_size m b) in *.
  pose proof (Z.div_mod size 1024 ltac:(lia)) as D1. pose proof (Z.div_mod size 4 ltac:(lia)) as D2. pose proof (Z.mod_pos_bound size 4 ltac:(lia)) as D3. pose proof (Z.div_pos size 1024 ltac:(lia) ltac:(lia)) as D4.
  unfold install, mbind, op_bind, contents. fold isz. rewrite Hb. unfold erase_partition. rewrite wrap32_small by (unfold is_u32; lia).
  destruct (erase_loop_runs (Z.to_nat (size / 1024)) (Z.to_nat (size / 1024 + 1)) a (a + size) n m) as (m1 & E1 & H1); [lia|done|lia|lia|lia|lia|]. rewrite E1.
  pose proof (keeps_erase_loop (Z.to_nat (size / 1024 + 1)) a (a + size) n m Hc) as Hc1. rewrite E1 in Hc1. cbn [snd] in Hc1.
  assert (Es : hdr_image_size m1 b = isz) by (apply load32_shift; intros j Hj; rewrite H1, decide_False; [done|lia]). rewrite Es. fold W.
  destruct (copy_runs (Z.to_nat W) 0 (a + 128) (b + 128) (n - Z.to_nat (size / 1024))%nat m1 Hc1) as (m2 & E2 & H2); [lia|intros y Hy; rewrite H1, decide_True by lia; done|intros y Hy; lia|]. rewrite E2.
  pose proof (keeps_copy (Z.to_nat W) 0 (a + 128) (b + 128) (n - Z.to_nat (size / 1024))%nat m1 Hc1) as Hc2. rewrite E2 in Hc2. cbn [snd] in Hc2.
  destruct (header_runs 32 0 a b (n - Z.to_nat (size / 1024) - Z.to_nat W)%nat m2 Hc2) as (m3 & E3 & H3); [lia|intros y Hy; rewrite H2, decide_False by lia; rewrite H1, decide_True by lia; done|intros y Hy; lia|]. rewrite E3.
  exists true. eexists _, m3. split; [done|]. split; [lia|]. assert (Hsrc : forall j, 0 <= j < size -> load8 m1 (b + j) = load8 m (b + j)) by (intros j Hj; rewrite H1, decide_False; [done|lia]). split.
  - intros j Hj Hne. cbn [part_a part_b]. rewrite H3, decide_True, decide_False by lia. replace (b + (a + j - a)) with (b + j) by lia. rewrite H2, decide_False by lia. apply Hsrc. lia.
  - cbn [part_a]. unfold hdr_status, load32. rewrite !H3. rewrite !(decide_True (P := _ <= _ < a + 4 * _)) by lia. rewrite !(decide_True (P := a + 12 <= _ < _)) by lia.
    replace (a + 12 - a - 12) with 0 by lia. replace (a + 12 + 1 - a - 12) with 1 by lia. replace (a + 12 + 2 - a - 12) with 2 by lia. replace (a + 12 + 3 - a - 12) with 3 by lia. reflexivity.
  - intros j Hj. cbn [part_a part_b] in *. fold isz in Hj. rewrite H3, decide_False by lia. rewrite H2, decide_True by lia. replace (b + 128 + (a + j - (a + 128))) with (b + j) by lia. apply Hsrc. lia.
  - intros y Hy. cbn [part_a size_a] in Hy. rewrite H3, decide_False by lia. rewrite H2, decide_False by lia. by rewrite H1, decide_False by lia.
Qed.

Lemma installed_verifies l m m' :
  layout_ok l -> installed_as l m m' ->
  payload m' (part_a l) = payload m (part_b l) /\ hdr_signature m' (part_a l) = hdr_signature m (part_b l) /\ verify_firmware m' (part_a l) (size_a l) = verify_firmware m (part_b l) (size_a l).
Proof.
  intros Hl [H1 H2 H3 H4]. assert (Em : hdr_magic m' (part_a l) = hdr_magic m (part_b l)) by (apply load32_shift; intros j Hj; apply H1; lia).
  assert (Ei : hdr_image_size m' (part_a l) = hdr_image_size m (part_b l)) by (apply load32_shift; intros j Hj; rewrite <- !Z.add_assoc; apply H1; lia).
  assert (Es : hdr_signature m' (part_a l) = hdr_signature m (part_b l)) by (apply bytes_shift; intros j Hj; rewrite <- !Z.add_assoc; apply H1; lia).
  assert (Ep : payload m' (part_a l) = payload m (part_b l)) by (unfold payload; rewrite Ei; apply bytes_shift; intros j Hj; rewrite <- !Z.add_assoc; apply H3; lia).
  split; [done|]. split; [done|]. unfold Boot.verify_firmware. by rewrite Em, Ei, Es, Ep.
Qed.

(** C12: A staged update is installed: when partition B verifies and is pending, or A does
    not verify, a start with power for the whole copy, on a controller of which no erase
    or write command times out, comes to its end with the image of B in partition A,
    marked valid and verified, B no longer valid, and nothing else in the flash changed.
    After a failed command the copy is abandoned; what then holds is [power_loss_safe]. *)
Theorem update_installed m n :
  let l := layout m in
  layout_ok l -> cells m -> verify_firmware m (part_b l) (size_a l) = true ->
  verify_firmware m (part_a l) (size_a l) = false \/ hdr_status m (part_b l) = UPDATE_PENDING ->
  size_a l / 1024 + size_a l / 4 + 33 <= Z.of_nat n ->
  exists e n' m', boot n m = (Some (e, n'), m') /\
    payload m' (part_a l) = payload m (part_b l) /\ hdr_status m' (part_a l) = VALID /\
    verify_firmware m' (part_a l) (size_a l) = true /\ verify_firmware m' (part_b l) (size_a l) = false /\
    (forall y, ~ (part_a l <= y < part_a l + size_a l) -> ~ (part_b l <= y < part_b l + 1024) -> load8 m' y = load8 m y).
Proof.
  cbv zeta. intros Hl Hc Hb Hor Hn. unfold Boot.boot, mbind at 1, op_bind at 1, contents at 1. destruct (layout m) as [a b size sb] eqn:E. pose proof Hl as Hl'. cbn [part_a part_b size_a] in *.
  destruct (lo_sizes _ Hl) as [Hs _], (lo_pages _ Hl) as (Pa & Pb & Ps), (lo_range _ Hl) as (Ra & Rb & Ra2 & Rb2). pose proof (lo_apart _ Hl) as Hap. cbn [part_a part_b size_a] in *.
  assert (Hcond : verify_firmware m b size && (negb (verify_firmware m a size) || (hdr_status m b =? UPDATE_PENDING)) = true) by (rewrite Hb; destruct Hor as [-> | ->]; [done|by rewrite Z.eqb_refl, orb_true_r]). rewrite Hcond.
  assert (Hbs : bad_size (hdr_image_size m b) size = false) by (unfold Boot.verify_firmware in Hb; apply andb_true_iff in Hb as [[_ Hb]%andb_true_iff _]; by apply negb_true_iff in Hb).
  destruct (install_runs (mkLayout a b size sb) n m Hl Hc Hbs) as (ok & n1 & m1 & E1 & Hn1 & Hin); [cbn [size_a]; lia|]. cbn [part_a part_b size_a] in *.
  destruct (installed_verifies _ _ _ Hl Hin) as (P1 & P2 & P3). cbn [part_a part_b size_a] in *. rewrite Hb in P3. unfold mbind at 1, op_bind at 1. rewrite swap_eq. unfold mbind, op_bind. rewrite E1. unfold finish, mbind, op_bind, contents. rewrite P3.
  destruct n1 as [|n1]; [lia|]. destruct (erase_runs b n1 m1 Pb) as (m2 & E2 & H2). rewrite E2. unfold mret, op_ret. eexists _, _, m2. split; [done|].
  assert (Hsame : same_at a (a + size) m1 m2) by (intros y Hy; rewrite H2, decide_False; [done|lia]). destruct Hin as [I1 I2 I3 I4]. cbn [part_a part_b size_a] in *.
  split; [|split; [|split; [|split]]].
  - rewrite <- P1. assert (Ei : hdr_image_size m1 a = hdr_image_size m b) by (apply load32_shift; intros j Hj; rewrite <- !Z.add_assoc; apply I1; lia). unfold payload at 1. replace (hdr_image_size m2 a) with (hdr_image_size m1 a) by (symmetry; apply (load32_same a (a + size)); [done|lia|lia]).
    apply (bytes_same a (a + size)); [done|lia|]. rewrite Ei. pose proof (image_size_nonneg (mkLayout a b size sb) m (fun x => proj1 (Hc x))) as Hi0. pose proof (words_fit _ Hl _ Hbs Hi0) as (? & ? & ?). cbn [part_b size_a] in *. lia.
  - rewrite <- I2. apply (load32_same a (a + size)); [done|lia|lia].
  - rewrite <- P3. apply verify_same; [lia|done].
  - unfold Boot.verify_firmware. assert (Em : hdr_magic m2 b = 4294967295) by (unfold hdr_magic, load32; rewrite !H2, !decide_True by lia; reflexivity). by rewrite Em.
  - intros y Hy1 Hy2. rewrite H2, decide_False by lia. by apply I4.
Qed.
End Working.
End Controller.

(** * Staging *)

Section Staging.
Context `{FC : !FlashController, FL : !FlashLaws}.
Variable ed25519_verify : list Z -> list Z -> bool.

Lemma bind_done {A B} (e : Op A) (k : A -> Op B) n m y n' m' : (x ← e; k x) n m = (Some (y, n'), m') -> exists x n1 m1, e n m = (Some (x, n1), m1) /\ k x n1 m1 = (Some (y, n'), m').
Proof. unfold mbind, op_bind. destruct (e n m) as [[[x n1]|] m1]; [|done]. intros H. by exists x, n1, m1. Qed.

Lemma within_write_words k i offset bytes lo hi : lo <= offset + i * 4 -> offset + 4 * (i + Z.of_nat k) <= hi -> within lo hi (write_words k i offset bytes).
Proof.
  revert i. induction k as [|k IH]; intros i H1 H2; cbn [write_words]; [by intros ? ? ? ?|]. apply within_bind; [eapply within_weaken; [apply within_write|lia|lia]|]. intros [|]; [|by intros ? ? ? ?]. apply IH; lia.
Qed.

(** Every read but the last gives whole words. *)
Fixpoint whole_words (fuel : nat) (remaining : Z) (reads : list (list Z)) : Prop :=
  match fuel with
  | O => True
  | S fuel =>
      let (bytes, reads) := read_next (if 256 <? remaining then 256 else remaining) reads in
      remaining <= 0 \/ bytes = [] \/ ((Z.of_nat (length bytes) mod 4 = 0 \/ Z.of_nat (length bytes) = remaining) /\ whole_words fuel (remaining - Z.of_nat (length bytes)) reads)
  end.

Lemma within_write_image fuel lo hi : forall offset remaining reads,
  whole_words fuel remaining reads -> lo <= offset -> offset + 4 * ((remaining + 3) / 4) <= hi -> within lo hi (write_image fuel offset remaining reads).
Proof.
  induction fuel as [|fuel IH]; intros offset remaining reads Hw Hlo Hhi; cbn [write_image whole_words] in *; destruct (Z.leb_spec remaining 0); try by intros ? ? ? ?.
  destruct (read_next _ reads) as [bytes reads'] eqn:Er. destruct (bool_decide_reflect (bytes = [])) as [|Hne]; [by intros ? ? ? ?|]. destruct Hw as [Hw|[Hw|[Hlen Hw]]]; [lia|done|]. set (n := Z.of_nat (length bytes)) in *.
  assert (Hn : 0 < n <= remaining).
  { unfold n. split; [destruct bytes; [done|cbn; lia]|]. unfold read_next in Er. destruct reads as [|r rs]; [injection Er as <- _; cbn; lia|]. injection Er as <- _. rewrite length_take. destruct (Z.ltb_spec 256 remaining); lia. }
  pose proof (Z.div_mod (n + 3) 4 ltac:(lia)) as D1. pose proof (Z.mod_pos_bound (n + 3) 4 ltac:(lia)) as D2. pose proof (Z.div_mod (remaining + 3) 4 ltac:(lia)) as D3. pose proof (Z.mod_pos_bound (remaining + 3) 4 ltac:(lia)) as D4.
  assert (Hnext : 4 * ((n + 3) / 4) + 4 * ((remaining - n + 3) / 4) <= 4 * ((remaining + 3) / 4)).
  { pose proof (Z.div_mod (remaining - n + 3) 4 ltac:(lia)). pose proof (Z.mod_pos_bound (remaining - n + 3) 4 ltac:(lia)). destruct Hlen as [Hlen|Hlen]; [pose proof (Z.div_mod n 4 ltac:(lia)); lia|rewrite Hlen in *; lia]. }
  assert (0 <= (remaining - n + 3) / 4) by (apply Z.div_pos; lia).
  apply within_bind; [apply within_write_words; lia|]. intros [|]; [|by intros ? ? ? ?]. apply IH; [done|lia|lia].
Qed.

Lemma within_write_header k i offset header lo hi : lo <= offset + i * 4 -> offset + 4 * (i + Z.of_nat k) <= hi -> within lo hi (write_header k i offset header).
Proof.
  revert i. induction k as [|k IH]; intros i H1 H2; cbn [write_header]; [by intros ? ? ? ?|]. apply within_bind; [eapply within_weaken; [apply within_write|lia|lia]|]. intros _. apply IH; lia.
Qed.

Lemma image_fits size image_size : 1024 <= size < 4294967296 -> size mod 1024 = 0 -> bad_size image_size size = false -> 4 * ((image_size + 3) / 4) <= size - 128.
Proof.
  intros Hs Hp Eb. unfold bad_size in Eb. rewrite wrap32_small in Eb by (unfold is_u32; lia). apply orb_false_iff in Eb as [_ Eb%Z.ltb_ge].
  pose proof (Z.div_mod size 1024 ltac:(lia)). pose proof (Z.div_mod (image_size + 3) 4 ltac:(lia)). pose proof (Z.mod_pos_bound (image_size + 3) 4 ltac:(lia)). lia.
Qed.

Lemma within_stage b size header reads :
  0 <= b -> b mod 1024 = 0 -> size mod 1024 = 0 -> 1024 <= size -> b + size < 4294967296 -> bad_size (buffer_word header 8) size = false -> whole_words (Z.to_nat (buffer_word header 8)) (buffer_word header 8) reads ->
  within b (b + size) (stage ed25519_verify b size header reads).
Proof.
  intros H0 Hb Hs H1 H2 Hbs Hw. pose proof (image_fits size _ ltac:(lia) Hs Hbs) as Hfit. unfold stage. set (isz := buffer_word header 8) in *. assert (Her : within b (b + size) (erase_partition b size)) by (apply within_erase_partition; (done || lia)).
  assert (Hfail : within b (b + size) (_ ← erase_partition b size; mret false)) by (apply within_bind; [done|intros _; apply within_ret]).
  apply within_bind; [done|]. intros [|]; cbn [negb]; [|apply within_ret]. apply within_bind; [apply within_write_image; [done|lia|lia]|]. intros [remaining|]; [|done]. destruct (0 <? remaining); [done|].
  apply within_bind; [apply within_contents|]. intros m. destruct (negb _); [done|]. apply within_bind; [apply within_write_header; lia|intros _; apply within_ret].
Qed.

(** Staging an update leaves the running firmware alone: with reads of whole words nothing
    outside partition B changes, also when power fails, so partition A stays verified. *)
Theorem staging_confined reads n m :
  let l := layout m in
  let (header, rest) := read_next 128 reads in
  layout_ok l -> whole_words (Z.to_nat (buffer_word header 8)) (buffer_word header 8) rest ->
  let m' := (unpack_from_vfs ed25519_verify (Some reads) n m).2 in
  (forall x, ~ (part_b l <= x < part_b l + size_b l) -> load8 m' x = load8 m x) /\
  layout m' = l /\ verify_firmware ed25519_verify m' (part_a l) (size_a l) = verify_firmware ed25519_verify m (part_a l) (size_a l).
Proof.
  cbv zeta. destruct (read_next 128 reads) as [header rest] eqn:Er. intros Hl Hw. destruct (lo_sizes _ Hl) as [Hs Esb], (lo_pages _ Hl) as (Pa & Pb & Ps), (lo_range _ Hl) as (Ra & Rb & Ra2 & Rb2).
  assert (Hf : forall x, ~ (part_b (layout m) <= x < part_b (layout m) + size_b (layout m)) -> load8 (unpack_from_vfs ed25519_verify (Some reads) n m).2 x = load8 m x).
  { intros x. unfold unpack_from_vfs, mbind at 1, op_bind at 1, contents at 1. destruct (layout m) as [a b size sb] eqn:E. cbn [part_b size_b size_a part_a] in *. subst sb. intros Hx.
    rewrite Er. destruct (_ || _); [done|]. destruct (bad_size (buffer_word header 8) size) eqn:Eb; [done|]. apply (within_stage b size header rest); (done || lia). }
  split; [done|]. rewrite Esb in Hf. split; [apply (apart_table (layout m)); [done|intros x _ Hx; by apply Hf]|]. apply verify_same; [lia|]. intros x Hx. apply Hf. destruct (lo_apart _ Hl); lia.
Qed.
(** ** A staged update verifies *)

Lemma erase_page_done x n m n1 m1 : x mod 1024 = 0 -> erase_page x n m = (Some (true, n1), m1) -> forall y, load8 m1 y = if decide (x <= y < x + 1024) then 255 else load8 m y.
Proof.
  intros Hx. unfold erase_page, command. rewrite page_start_aligned by done. destruct n as [|n]; [done|]. pose proof (erase_done x m) as Hd. pose proof (erase_frame x m) as Hf. destruct (erase_op x m) as [ok m']. intros [= -> _ ->] y.
  cbn [fst snd] in *. case_decide; [by apply Hd|by apply Hf].
Qed.

Lemma erase_loop_done k : forall fuel addr limit n m n1 m1,
  0 <= addr -> addr mod 1024 = 0 -> limit = addr + 1024 * Z.of_nat k -> limit < 4294967296 -> (k < fuel)%nat ->
  erase_loop fuel addr limit n m = (Some (true, n1), m1) -> forall y, load8 m1 y = if decide (addr <= y < limit) then 255 else load8 m y.
Proof.
  induction k as [|k IH]; intros fuel addr limit n m n1 m1 H0 Ha El Hb Hf; (destruct fuel as [|fuel]; [lia|]); cbn [erase_loop].
  - destruct (Z.ltb_spec addr limit); [lia|]. intros [= _ <-] y. case_decide; [lia|done].
  - destruct (Z.ltb_spec addr limit); [|lia]. intros ([|] & n2 & m2 & E1 & E2)%bind_done; [|by injection E2]. rewrite wrap32_small in E2 by (unfold is_u32; lia). intros y.
    rewrite (IH fuel (addr + 1024) limit n2 m2 n1 m1) by (try done; try lia; rewrite <- (Z.mul_1_l 1024) at 1; by rewrite Z_mod_plus_full). rewrite (erase_page_done addr n m n2 m2 Ha E1). repeat case_decide; (done || lia).
Qed.

Lemma erase_partition_done a size n m n1 m1 : 0 <= a -> 0 <= size -> a mod 1024 = 0 -> size mod 1024 = 0 -> a + size < 4294967296 ->
  erase_partition a size n m = (Some (true, n1), m1) -> forall y, load8 m1 y = if decide (a <= y < a + size) then 255 else load8 m y.
Proof.
  intros H0 H1 Ha Hs Hb. unfold erase_partition. rewrite wrap32_small by (unfold is_u32; lia). pose proof (Z.div_mod size 1024 ltac:(lia)). pose proof (Z.div_pos size 1024 H1 ltac:(lia)).
  apply (erase_loop_done (Z.to_nat (size / 1024))); (done || lia).
Qed.

Lemma nth_byte bytes j : Forall (fun x => 0 <= x < 256) bytes -> 0 <= nth j bytes 0 < 256.
Proof. intros Hf. destruct (nth_in_or_default j bytes 0) as [Hin|Hd]; [rewrite Forall_forall in Hf; apply list_elem_of_In in Hin; by apply Hf|rewrite Hd; lia]. Qed.

Lemma word_byte_buffer bytes i j : Forall (fun x => 0 <= x < 256) bytes -> 0 <= j < 4 -> word_byte (buffer_word bytes i) j = nth (Z.to_nat (i + j)) bytes 0.
Proof.
  intros Hf Hj. unfold word_byte, buffer_word. pose proof (nth_byte bytes (Z.to_nat (i + 0)) Hf). pose proof (nth_byte bytes (Z.to_nat (i + 1)) Hf). pose proof (nth_byte bytes (Z.to_nat (i + 2)) Hf). pose proof (nth_byte bytes (Z.to_nat (i + 3)) Hf).
  assert (Hcase : j = 0 \/ j = 1 \/ j = 2 \/ j = 3) by lia. destruct Hcase as [->|[->|[->| ->]]]; cbn [Z.pow Z.pow_pos Pos.iter Z.mul Pos.mul]; Z.to_euclidean_division_equations; lia.
Qed.

Lemma write_header_done {RL : Reliable} k : forall i offset header n m n1 m1,
  Forall (fun x => 0 <= x < 256) header -> (forall y, offset + 4 * i <= y < offset + 4 * (i + Z.of_nat k) -> load8 m y = 255) ->
  write_header k i offset header n m = (Some (tt, n1), m1) ->
  forall y, load8 m1 y = if decide (offset + 4 * i <= y < offset + 4 * (i + Z.of_nat k))
                         then if decide (offset + 12 <= y < offset + 16) then word_byte UPDATE_PENDING (y - offset - 12) else nth (Z.to_nat (y - offset)) header 0 else load8 m y.
Proof.
  induction k as [|k IH]; intros i offset header n m n1 m1 Hh He; cbn [write_header]; [intros [= _ <-] y; case_decide; [lia|done]|].
  intros (ok & n2 & m2 & E1 & E2)%bind_done y. set (w := if i =? 3 then UPDATE_PENDING else buffer_word header (4 * i)) in E1. destruct n as [|n]; [discriminate E1|]. destruct (write_runs (offset + i * 4) w n m) as (m3 & E3 & H3); [intros j Hj; apply He; lia|].
  rewrite E3 in E1. injection E1 as <- <- <-. rewrite (IH (i + 1) offset header n m3 n1 m1 Hh) by (done || (intros z Hz; rewrite H3, decide_False by lia; apply He; lia)).
  destruct (decide (offset + i * 4 <= y < offset + i * 4 + 4)) as [Hy|Hy].
  - rewrite decide_False by lia. rewrite H3, decide_True by lia. rewrite decide_True by lia. unfold w. destruct (Z.eqb_spec i 3) as [->|]; [rewrite decide_True by lia; f_equal; lia|]. rewrite decide_False by lia. rewrite word_byte_buffer by (done || lia). do 2 f_equal. lia.
  - destruct (decide (offset + 4 * i <= y < offset + 4 * (i + Z.of_nat (S k)))) as [Hin|Hout]; [by rewrite decide_True by lia|]. rewrite decide_False by lia. by rewrite H3, decide_False by lia.
Qed.

(** The bytes of the staged header, as the fields read them. *)
Record header_at (b : Z) (header : list Z) (m : flash) : Prop := {
  ha_byte j : 0 <= j < 128 -> ~ (12 <= j < 16) -> load8 m (b + j) = nth (Z.to_nat j) header 0;
  ha_status : hdr_status m b = UPDATE_PENDING;
}.

Lemma header_word b header m i : header_at b header m -> 0 <= i -> i + 4 <= 12 -> load32 m (b + i) = buffer_word header i.
Proof.
  intros [H _] H0 H1. unfold load32, buffer_word. rewrite <- !Z.add_assoc, !H by lia. rewrite Z.add_0_r. lia.
Qed.

Lemma header_signature b header m : header_at b header m -> length header = 128%nat -> hdr_signature m b = take 64 (drop 16 header).
Proof.
  intros [H _] Hl. unfold hdr_signature, bytes_of. apply list_eq. intros k. rewrite list_lookup_fmap. destruct (decide (k < 64)%nat) as [Hk|Hk].
  - rewrite lookup_take_lt, lookup_drop by done. rewrite (lookup_seqZ_lt 0 64 k) by lia. cbn [fmap option_fmap option_map]. rewrite <- Z.add_assoc, H by lia.
    destruct (lookup_lt_is_Some_2 header (16 + k)) as [v Hv]; [lia|]. rewrite Hv. f_equal. rewrite (nth_lookup_Some _ _ _ v); [done|]. replace (Z.to_nat (16 + (0 + Z.of_nat k))) with (16 + k)%nat by lia. exact Hv.
  - rewrite lookup_take_ge by lia. rewrite (lookup_seqZ_ge 0 64 k) by lia. done.
Qed.

(** A staged update verifies: when [unpack_from_vfs] returns true, partition B holds
    firmware that the boot loader verifies and takes for a pending update. *)
Theorem staged_update_verifies {RL : Reliable} reads n m n' m' :
  let l := layout m in
  let (header, rest) := read_next 128 reads in
  layout_ok l -> Forall (fun x => 0 <= x < 256) header -> whole_words (Z.to_nat (buffer_word header 8)) (buffer_word header 8) rest ->
  unpack_from_vfs ed25519_verify (Some reads) n m = (Some (true, n'), m') ->
  verify_firmware ed25519_verify m' (part_b l) (size_a l) = true /\ hdr_status m' (part_b l) = UPDATE_PENDING.
Proof.
  cbv zeta. destruct (read_next 128 reads) as [header rest] eqn:Er. intros Hl Hh Hw. destruct (lo_sizes _ Hl) as [Hs Esb], (lo_pages _ Hl) as (Pa & Pb & Ps), (lo_range _ Hl) as (Ra & Rb & Ra2 & Rb2).
  unfold unpack_from_vfs, mbind at 1, op_bind at 1, contents at 1. destruct (layout m) as [a b size sb]. cbn [part_b size_b size_a part_a] in *. subst sb. rewrite Er.
  destruct (negb (Z.of_nat (length header) =? 128) || negb (buffer_word header 0 =? FIRMWARE_MAGIC)) eqn:Eh; [by intros [= ]|]. apply orb_false_iff in Eh as [El%negb_false_iff%Z.eqb_eq Em%negb_false_iff].
  destruct (bad_size (buffer_word header 8) size) eqn:Eb; [by intros [= ]|]. pose proof (image_fits size _ ltac:(lia) Ps Eb) as Hfit. unfold stage. set (isz := buffer_word header 8) in *.
  intros ([|] & n1 & m1 & E1 & E2)%bind_done; cbn [negb] in E2; [|by injection E2]. pose proof (erase_partition_done b size n m n1 m1 Rb ltac:(lia) Pb Ps ltac:(lia) E1) as H1.
  apply bind_done in E2 as ([remaining|] & n2 & m2 & E2 & E3); [|apply bind_done in E3 as (? & ? & ? & _ & E3); by injection E3]. destruct (0 <? remaining); [apply bind_done in E3 as (? & ? & ? & _ & E3); by injection E3|].
  apply bind_done in E3 as (m3 & n3 & m3' & [= <- <- <-] & E3). destruct (ed25519_verify (take 64 (drop 16 header)) (bytes_of m2 (b + 128) isz)) eqn:Ev; cbn [negb] in E3; [|apply bind_done in E3 as (? & ? & ? & _ & E3); by injection E3].
  apply bind_done in E3 as ([] & n4 & m4 & E3 & E4). injection E4 as _ <-.
  assert (H2 : forall y, ~ (b + 128 <= y < b + size) -> load8 m2 y = load8 m1 y) by (intros y Hy; change m2 with ((Some (Some remaining, n2), m2).2); rewrite <- E2; apply (within_write_image _ (b + 128) (b + size)); (done || lia)).
  pose proof (write_header_done 32 0 b header n2 m2 n4 m4 Hh ltac:(intros y Hy; rewrite H2 by lia; rewrite H1, decide_True by lia; done) E3) as H4.
  assert (Hat : header_at b header m4).
  { split; [intros j Hj Hne; rewrite H4, decide_True, decide_False by lia; do 2 f_equal; lia|]. unfold hdr_status, load32. rewrite !H4. rewrite !(decide_True (P := _ <= _ < b + 4 * _)) by lia. rewrite !(decide_True (P := b + 12 <= _ < _)) by lia.
    replace (b + 12 - b - 12) with 0 by lia. replace (b + 12 + 1 - b - 12) with 1 by lia. replace (b + 12 + 2 - b - 12) with 2 by lia. replace (b + 12 + 3 - b - 12) with 3 by lia. reflexivity. }
  split; [|by apply ha_status in Hat]. unfold verify_firmware, payload, hdr_image_size. rewrite (header_word b header m4 8 Hat), (header_signature b header m4 Hat) by lia. fold isz. rewrite Eb.
  assert (Emg : hdr_magic m4 b = buffer_word header 0) by (unfold hdr_magic; rewrite <- (Z.add_0_r b) at 1; by apply header_word). rewrite Emg, Em. cbn [negb andb]. rewrite <- Ev. f_equal.
  apply bytes_shift. intros j Hj. rewrite H4, decide_False by lia. done.
Qed.
End Staging.

(** * A working controller *)

Definition fill (v p n : Z) (m : flash) : flash := foldr (fun x m => store8 m x v) m (seqZ p n).

Lemma fill_spec v p n m x : load8 (fill v p n m) x = if decide (p <= x < p + n) then v else load8 m x.
Proof.
  unfold fill. destruct (decide (p <= x < p + n)) as [Hx%elem_of_seqZ|Hx].
  - induction (seqZ p n) as [|y ys IH]; [by apply not_elem_of_nil in Hx|]. cbn [foldr]. rewrite load8_store8. case_decide; [done|]. apply IH. apply elem_of_cons in Hx as [->|Hx]; [done|done].
  - rewrite <- elem_of_seqZ in Hx. induction (seqZ p n) as [|y ys IH]; [done|]. cbn [foldr]. rewrite load8_store8. apply not_elem_of_cons in Hx as [Hne Hx]. rewrite decide_False by done. by apply IH.
Qed.

(** Clearing the bits of a word, byte by byte. *)
Definition program (p w : Z) (m : flash) : flash := foldr (fun i m => store8 m (p + i) (Z.land (load8 m (p + i)) (word_byte w i))) m [0; 1; 2; 3].

Lemma program_spec p w m x : load8 (program p w m) x = if decide (p <= x < p + 4) then Z.land (load8 m x) (word_byte w (x - p)) else load8 m x.
Proof.
  unfold program. cbn [foldr]. rewrite !load8_store8.
  destruct (decide (p <= x < p + 4)) as [Hx|Hx]; [|by repeat rewrite decide_False by lia]. assert (Hc : x = p + 0 \/ x = p + 1 \/ x = p + 2 \/ x = p + 3) by lia.
  destruct Hc as [->|[->|[->| ->]]]; rewrite ?Z.add_simpl_l; by repeat first [rewrite decide_True by lia | rewrite decide_False by lia].
Qed.

#[local] Instance ideal : FlashController := {|
  erase_op p m := (true, fill 255 p 1024 m);
  write_op p w m := (true, program p w m);
  torn_erase p m := fill 0 p 1024 m;
  torn_write p w m := m;
|}.

Lemma fill_cells v p n m : 0 <= v < 256 -> cells m -> cells (fill v p n m).
Proof. intros Hv Hc x. rewrite fill_spec. case_decide; [done|apply Hc]. Qed.

Lemma land_byte_cell x y : 0 <= x < 256 -> 0 <= Z.land x y < 256.
Proof.
  intros Hx. assert (H0 : 0 <= Z.land x y) by (apply Z.land_nonneg; lia). split; [done|]. change 256 with (2 ^ 8). apply bits_bound; [done|lia|]. intros j Hj. by rewrite Z.land_spec, (bits_above x 8) by lia.
Qed.

#[local] Instance ideal_laws : FlashLaws.
Proof.
  split; cbn [erase_op write_op torn_erase torn_write ideal fst snd].
  - intros p m x Hx. by rewrite fill_spec, decide_False.
  - intros p m x _ Hx. by rewrite fill_spec, decide_True.
  - intros p w m x Hx. by rewrite program_spec, decide_False.
  - intros p w m i _ Hi. rewrite program_spec, decide_True by lia. do 2 f_equal. lia.
  - intros p m x Hx. by rewrite fill_spec, decide_False.
  - done.
  - intros p m Hc. by apply fill_cells.
  - intros p w m Hc x. rewrite program_spec. case_decide; [by apply land_byte_cell|apply Hc].
  - intros p m Hc. by apply fill_cells.
  - done.
Qed.

#[local] Instance ideal_reliable : Reliable.
Proof. by split. Qed.

(** Two partitions of a page each; B holds a pending image of eight bytes whose "signature"
    is accepted when it starts with the first byte of the image. *)
Definition first_byte_check (signature message : list Z) : bool := bool_decide (take 1 signature = take 1 message).

Definition put_bytes (a : Z) (bytes : list Z) (m : flash) : flash := foldr (fun p m => store8 m p.1 p.2) m (zip (seqZ a (Z.of_nat (length bytes))) bytes).

Definition staged : flash :=
  put_bytes 0x7000 ([0x54; 0x52; 0x41; 0x50] ++ replicate 8 0 ++ [0; 0x80; 0; 0; 0; 4; 0; 0; 0; 0x84; 0; 0; 0; 4; 0; 0])
    (put_bytes 0x8400 ([0x41; 0x52; 0x55; 0x41; 1; 0; 0; 0; 8; 0; 0; 0; 0xAA; 0x55; 0xAA; 0x55; 7]) (put_bytes 0x8480 [7; 0; 0; 32; 9; 0; 0; 0] ∅)).

Lemma staged_cells : cells staged.
Proof.
  assert (H : map_Forall (fun _ v => 0 <= v < 256) staged) by (apply (bool_decide_eq_true_1 _); vm_compute; reflexivity).
  intros x. unfold load8. destruct (staged !! x) as [v|] eqn:E; cbn; [exact (H x v E)|lia].
Qed.

Lemma staged_layout : layout_ok (layout staged).
Proof. assert (E : layout staged = mkLayout 0x8000 0x8400 1024 1024) by (vm_compute; reflexivity). rewrite E. split; cbn; (lia || done). Qed.

Lemma power_loss_safe_witness : bootable first_byte_check (layout staged) (restarts first_byte_check [0; 1; 2; 30; 500]%nat staged).
Proof.
  refine (proj1 (proj2 (power_loss_safe first_byte_check staged [0; 1; 2; 30; 500]%nat 0%nat staged_layout staged_cells _))). right. vm_compute. reflexivity.
Defined.

Lemma update_installed_witness :
  exists e n' m', boot first_byte_check 300%nat staged = (Some (e, n'), m') /\ payload m' 0x8000 = [7; 0; 0; 32; 9; 0; 0; 0].
Proof.
  destruct (update_installed first_byte_check staged 300%nat staged_layout staged_cells) as (e & n' & m' & E & P & _); [vm_compute; reflexivity|right; vm_compute; reflexivity|vm_compute; discriminate|].
  exists e, n', m'. split; [exact E|]. change (part_a (layout staged)) with 0x8000 in P. rewrite P. vm_compute. reflexivity.
Defined.

(** Reads of single bytes make the writer advance by a word each: an image of 300 bytes runs
    over the end of its page-sized partition into the next one. *)
Definition slow_file : list (list Z) :=
  ([0x41; 0x52; 0x55; 0x41; 1; 0; 0; 0; 44; 1; 0; 0] ++ replicate 116 0) :: replicate 300 [5].

Theorem short_reads_overrun :
  part_b (layout staged) + size_b (layout staged) = 0x8800 /\ load8 (unpack_from_vfs first_byte_check (Some slow_file) 1000%nat (store8 staged 0x8800 255)).2 0x8800 = 5.
Proof. split; vm_compute; reflexivity. Qed.
