(* ===== verification/QueueClaims.v ===== *)
(** Theorems on the bounded queues: with one producer and one consumer, whatever
    the interleaving, a message queue delivers the messages in order, none lost
    and none overwritten; a work queue runs the accepted items in order. *)
From S2P Require Import Prelude Kernel TaskTable Scheduler System Sync TimerClaims Queues.

(** * One producer, one consumer *)

Section Spsc.
Context {T : Type} `{!Inhabited T} (Capacity : Z) (run_handler : Z -> Z -> Kernel -> Kernel).

(** Where the producer is in [push] or [try_push], and the consumer in [pop] or
    [try_pop], with their local variables. *)
Inductive Producer := PIdle | PHas (x : T) | PRead (x : T) (current_tail : Z) | PStored (current_tail : Z) | PAdvanced.
Inductive Consumer := CIdle | CHas | CRead (current_head : Z) | CCopied (current_head : Z) (x : T) | CAdvanced (x : T).

(** [sent] and [got] record the messages stored and copied out so far. *)
Record Spsc := mkSpsc { queue : MessageQueue T; kern : Kernel; prod : Producer; cons_ : Consumer; sent : list T; got : list T }.

(** [wait] came back (otherwise it blocked). *)
Definition returned (r : option bool) : bool := match r with Some _ => true | None => false end.

Inductive spsc_step : Spsc -> Spsc -> Prop :=
| st_wait q k c l o x start r s k' :
    is_Some (g_current_tcb_ptr k) -> sem_wait run_handler FOREVER start (spaces_ q) k = (r, s, k') ->
    spsc_step (mkSpsc q k PIdle c l o) (mkSpsc (set_spaces_ s q) k' (if returned r then PHas x else PIdle) c l o)
| st_try q k c l o x b s :
    try_wait (spaces_ q) = (b, s) ->
    spsc_step (mkSpsc q k PIdle c l o) (mkSpsc (set_spaces_ s q) k (if b then PHas x else PIdle) c l o)
| st_tail q k c l o x : spsc_step (mkSpsc q k (PHas x) c l o) (mkSpsc q k (PRead x (tail_ q)) c l o)
| st_store q k c l o x ct : spsc_step (mkSpsc q k (PRead x ct) c l o) (mkSpsc (mq_store ct x q) k (PStored ct) c (l ++ [x]) o)
| st_advance q k c l o ct : spsc_step (mkSpsc q k (PStored ct) c l o) (mkSpsc (set_tail_ (next_index Capacity ct) q) k PAdvanced c l o)
| st_signal q k c l o q' k' :
    signal_items run_handler q k = (q', k') -> spsc_step (mkSpsc q k PAdvanced c l o) (mkSpsc q' k' PIdle c l o)
| ct_wait q k p l o start r s k' :
    is_Some (g_current_tcb_ptr k) -> sem_wait run_handler FOREVER start (items_ q) k = (r, s, k') ->
    spsc_step (mkSpsc q k p CIdle l o) (mkSpsc (set_items_ s q) k' p (if returned r then CHas else CIdle) l o)
| ct_try q k p l o b s :
    try_wait (items_ q) = (b, s) ->
    spsc_step (mkSpsc q k p CIdle l o) (mkSpsc (set_items_ s q) k p (if b then CHas else CIdle) l o)
| ct_head q k p l o : spsc_step (mkSpsc q k p CHas l o) (mkSpsc q k p (CRead (head_ q)) l o)
| ct_copy q k p l o ch :
    spsc_step (mkSpsc q k p (CRead ch) l o) (mkSpsc q k p (CCopied ch (zlookup (buffer_ q) ch)) l (o ++ [zlookup (buffer_ q) ch]))
| ct_advance q k p l o ch x : spsc_step (mkSpsc q k p (CCopied ch x) l o) (mkSpsc (set_head_ (next_index Capacity ch) q) k p (CAdvanced x) l o)
| ct_signal q k p l o x q' k' :
    signal_spaces run_handler q k = (q', k') -> spsc_step (mkSpsc q k p (CAdvanced x) l o) (mkSpsc q' k' p CIdle l o)
| other q k k' p c l o : spsc_step (mkSpsc q k p c l o) (mkSpsc q k' p c l o).

(** ** The invariant *)

Definition one (b : bool) : Z := if b then 1 else 0.
Definition p_busy (p : Producer) : bool := match p with PIdle => false | _ => true end.
Definition p_stored (p : Producer) : bool := match p with PStored _ | PAdvanced => true | _ => false end.
Definition c_busy (c : Consumer) : bool := match c with CIdle => false | _ => true end.
Definition c_taking (c : Consumer) : bool := match c with CHas | CRead _ => true | _ => false end.

Record spsc_inv (base : Z) (s : Spsc) : Prop := {
  si_cap : 0 < Capacity /\ Z.of_nat (length (buffer_ (queue s))) = Capacity;
  si_counts : 0 <= count_ (spaces_ (queue s)) /\ 0 <= count_ (items_ (queue s));
  si_tokens : count_ (spaces_ (queue s)) + count_ (items_ (queue s)) + one (p_busy (prod s)) + one (c_busy (cons_ s)) = Capacity;
  si_fill : Z.of_nat (length (sent s)) - Z.of_nat (length (got s)) =
            count_ (items_ (queue s)) + one (p_stored (prod s)) + one (c_taking (cons_ s));
  si_tail : let done := Z.of_nat (length (sent s)) - match prod s with PStored _ => 1 | _ => 0 end in
            tail_ (queue s) = (base + done) mod Capacity /\
            match prod s with PRead _ ct | PStored ct => ct = tail_ (queue s) | _ => True end;
  si_head : let done := Z.of_nat (length (got s)) - match cons_ s with CCopied _ _ => 1 | _ => 0 end in
            head_ (queue s) = (base + done) mod Capacity /\
            match cons_ s with CRead ch | CCopied ch _ => ch = head_ (queue s) | _ => True end;
  si_ring : ring_holds Capacity base (buffer_ (queue s)) (sent s) (length (got s));
  si_fifo : exists rest, sent s = got s ++ rest;
  si_ret : match cons_ s with CCopied _ x | CAdvanced x => last (got s) = Some x | _ => True end;
}.

Lemma wait_result start s k r s' k' :
  is_Some (g_current_tcb_ptr k) -> sem_wait run_handler FOREVER start s k = (r, s', k') -> r = None \/ r = Some true.
Proof.
  intros [c Hc]. unfold sem_wait, sem_wait_pass. rewrite Hc. cbv zeta. destruct (0 <? count_ s); [intros [= <- _ _]; by right|].
  change (negb (FOREVER =? FOREVER)) with false. cbn [andb]. intros [= <- _ _]. by left.
Qed.

(** What [wait] and [try_wait] do to the tokens. *)
Lemma wait_tokens start s k r s' k' :
  is_Some (g_current_tcb_ptr k) -> sem_wait run_handler FOREVER start s k = (r, s', k') -> 0 <= count_ s ->
  0 <= count_ s' /\ count_ s' + one (returned r) = count_ s.
Proof.
  intros Hk Hw H0. pose proof (wait_result _ _ _ _ _ _ Hk Hw) as Hr. apply sem_wait_count in Hw.
  destruct Hr as [-> | ->]; [rewrite bool_decide_false in Hw by done|rewrite bool_decide_true in Hw by done]; cbn; lia.
Qed.

Lemma try_tokens s b s' : try_wait s = (b, s') -> 0 <= count_ s -> 0 <= count_ s' /\ count_ s' + one b = count_ s.
Proof. unfold try_wait. destruct (Z.ltb_spec 0 (count_ s)); intros [= <- <-] H0; cbn; lia. Qed.

Lemma next_index_mod base n : 0 < Capacity -> next_index Capacity ((base + n) mod Capacity) = (base + (n + 1)) mod Capacity.
Proof. intros Hc. unfold next_index. rewrite Zplus_mod_idemp_l. f_equal. lia. Qed.

Lemma taking_busy c : one (c_taking c) <= one (c_busy c).
Proof. destruct c; cbn; lia. Qed.

(** The parts of the invariant that a step does not touch, and the token sums. *)
Ltac spsc_fields := split; cbn [queue kern prod cons_ sent got p_busy p_stored c_busy c_taking] in *; cbn in *; try done; try lia.

Lemma spsc_store base q k c l o x ct :
  spsc_inv base (mkSpsc q k (PRead x ct) c l o) -> spsc_inv base (mkSpsc (mq_store ct x q) k (PStored ct) c (l ++ [x]) o).
Proof.
  intros [C0 C1 C2 C3 C4 C5 C6 C7 C8]. pose proof (taking_busy c) as Ht. spsc_fields.
  - by rewrite length_zalter.
  - rewrite length_app. cbn. lia.
  - rewrite length_app. cbn. split; [|by apply C4]. destruct C4 as [-> _]. f_equal. lia.
  - destruct C4 as [C4 ->]. rewrite C4, Z.sub_0_r. apply ring_holds_store; try lia; [|done]. destruct C7 as [rest ->]. rewrite length_app. lia.
  - destruct C7 as [rest ->]. exists (rest ++ [x]). by rewrite app_assoc.
Qed.

Lemma spsc_copy base q k p l o ch :
  spsc_inv base (mkSpsc q k p (CRead ch) l o) ->
  let x := zlookup (buffer_ q) ch in spsc_inv base (mkSpsc q k p (CCopied ch x) l (o ++ [x])).
Proof.
  intros [C0 C1 C2 C3 C4 C5 C6 [rest C7] C8]. cbn [queue kern prod cons_ sent got] in *. cbv zeta.
  destruct rest as [|y rest].
  { exfalso. rewrite app_nil_r in C7. subst o. cbn in C3. destruct (p_stored p); cbn in C3; lia. }
  assert (Ey : zlookup (buffer_ q) ch = y).
  { destruct C5 as [C5 ->]. rewrite C5, Z.sub_0_r. apply C6; [done|]. rewrite C7, lookup_app_r, Nat.sub_diag by done. done. }
  rewrite Ey. spsc_fields.
  - rewrite length_app. cbn. lia.
  - rewrite length_app. cbn. split; [|by apply C5]. destruct C5 as [-> _]. f_equal. lia.
  - eapply ring_holds_mono; [exact C6|]. rewrite length_app. lia.
  - exists rest. by rewrite <- app_assoc.
  - by rewrite last_snoc.
Qed.

Lemma spsc_step_inv base s s' : spsc_inv base s -> spsc_step s s' -> spsc_inv base s'.
Proof.
  intros Hi Hs. destruct Hs as [q k c l o x start r s k' Hk Hw|q k c l o x b s Hw|q k c l o x|q k c l o x ct|q k c l o ct
    |q k c l o q' k' Hw|q k p l o start r s k' Hk Hw|q k p l o b s Hw|q k p l o|q k p l o ch|q k p l o ch x|q k p l o x q' k' Hw|q k k' p c l o];
    [..|destruct Hi; by split].
  - destruct Hi as [C0 C1 C2 C3 C4 C5 C6 C7 C8]. destruct (wait_tokens _ _ _ _ _ _ Hk Hw ltac:(apply C1)). destruct (returned r); spsc_fields.
  - destruct Hi as [C0 C1 C2 C3 C4 C5 C6 C7 C8]. destruct (try_tokens _ _ _ Hw ltac:(apply C1)). destruct b; spsc_fields.
  - destruct Hi as [C0 C1 C2 C3 C4 C5 C6 C7 C8]. spsc_fields.
  - by apply spsc_store.
  - destruct Hi as [C0 C1 C2 C3 [C4 ->] C5 C6 C7 C8]. spsc_fields. rewrite C4, next_index_mod by lia. split; [|done]. f_equal. lia.
  - destruct Hi as [C0 C1 C2 C3 C4 C5 C6 C7 C8]. unfold signal_items in Hw. pose proof (sem_signal_count run_handler (items_ q) k) as Hc.
    destruct (sem_signal run_handler (items_ q) k) as [s1 k1]. injection Hw as <- <-. spsc_fields.
  - destruct Hi as [C0 C1 C2 C3 C4 C5 C6 C7 C8]. destruct (wait_tokens _ _ _ _ _ _ Hk Hw ltac:(apply C1)). destruct (returned r); spsc_fields.
  - destruct Hi as [C0 C1 C2 C3 C4 C5 C6 C7 C8]. destruct (try_tokens _ _ _ Hw ltac:(apply C1)). destruct b; spsc_fields.
  - destruct Hi as [C0 C1 C2 C3 C4 C5 C6 C7 C8]. spsc_fields.
  - by apply spsc_copy.
  - destruct Hi as [C0 C1 C2 C3 C4 [C5 ->] C6 C7 C8]. spsc_fields. rewrite C5, next_index_mod by lia. split; [|done]. f_equal. lia.
  - destruct Hi as [C0 C1 C2 C3 C4 C5 C6 C7 C8]. unfold signal_spaces in Hw. pose proof (sem_signal_count run_handler (spaces_ q) k) as Hc.
    destruct (sem_signal run_handler (spaces_ q) k) as [s1 k1]. injection Hw as <- <-. spsc_fields.
Qed.

Inductive spsc_run : Spsc -> Spsc -> Prop :=
| run_nil s : spsc_run s s
| run_step s s1 s2 : spsc_step s s1 -> spsc_run s1 s2 -> spsc_run s s2.

Lemma spsc_run_app s1 s2 s3 : spsc_run s1 s2 -> spsc_run s2 s3 -> spsc_run s1 s3.
Proof. induction 1 as [|s s1 s2 Hs _ IH]; [done|]. intros H. eapply run_step; [exact Hs|by apply IH]. Qed.

Lemma spsc_run_inv base s s' : spsc_inv base s -> spsc_run s s' -> spsc_inv base s'.
Proof. intros Hi Hr. induction Hr as [|s s1 s2 Hs _ IH]; [done|]. apply IH. by eapply spsc_step_inv. Qed.

(** The whole operations are runs of steps. *)
Lemma put_run q k x c l o q' k' :
  put Capacity run_handler x q k = (q', k') -> spsc_run (mkSpsc q k (PHas x) c l o) (mkSpsc q' k' PIdle c (l ++ [x]) o).
Proof.
  intros E. eapply run_step; [apply st_tail|]. eapply run_step; [apply st_store|]. eapply run_step; [apply st_advance|].
  eapply run_step; [by apply st_signal|apply run_nil].
Qed.

Lemma push_run x start q k c l o b q' k' :
  is_Some (g_current_tcb_ptr k) -> push Capacity run_handler x start q k = (b, q', k') ->
  spsc_run (mkSpsc q k PIdle c l o) (mkSpsc q' k' PIdle c (if b then l ++ [x] else l) o).
Proof.
  intros Hk. unfold push. destruct (sem_wait _ _ _ _ _) as [[r s] k1] eqn:Hw. pose proof (st_wait q k c l o x start r s k1 Hk Hw) as Hs.
  destruct r as [r|]; [|intros [= <- <- <-]; eapply run_step; [exact Hs|apply run_nil]].
  destruct (put _ _ _ _ _) as [q2 k2] eqn:Hp. intros [= <- <- <-]. eapply run_step; [exact Hs|by apply put_run].
Qed.

Lemma try_push_run x q k c l o b q' k' :
  try_push Capacity run_handler x q k = (b, q', k') ->
  spsc_run (mkSpsc q k PIdle c l o) (mkSpsc q' k' PIdle c (if b then l ++ [x] else l) o).
Proof.
  unfold try_push. destruct (try_wait (spaces_ q)) as [r s] eqn:Hw. pose proof (st_try q k c l o x r s Hw) as Hs.
  destruct r; [|intros [= <- <- <-]; eapply run_step; [exact Hs|apply run_nil]].
  destruct (put _ _ _ _ _) as [q2 k2] eqn:Hp. intros [= <- <- <-]. eapply run_step; [exact Hs|by apply put_run].
Qed.

Lemma get_run q k p l o x q' k' :
  get Capacity run_handler q k = (x, q', k') -> spsc_run (mkSpsc q k p CHas l o) (mkSpsc q' k' p CIdle l (o ++ [x])).
Proof.
  unfold get. cbv zeta. destruct (signal_spaces _ _ _) as [q1 k1] eqn:E. intros [= <- <- <-].
  eapply run_step; [apply ct_head|]. eapply run_step; [apply ct_copy|]. eapply run_step; [apply ct_advance|].
  eapply run_step; [by apply ct_signal|apply run_nil].
Qed.

Definition opt_list (o : option T) : list T := match o with Some x => [x] | None => [] end.

Lemma pop_run start q k p l o r q' k' :
  is_Some (g_current_tcb_ptr k) -> pop Capacity run_handler start q k = (r, q', k') ->
  spsc_run (mkSpsc q k p CIdle l o) (mkSpsc q' k' p CIdle l (o ++ opt_list r)).
Proof.
  intros Hk. unfold pop. destruct (sem_wait _ _ _ _ _) as [[b s] k1] eqn:Hw. pose proof (ct_wait q k p l o start b s k1 Hk Hw) as Hs.
  destruct b as [b|]; [|intros [= <- <- <-]; cbn; rewrite app_nil_r; eapply run_step; [exact Hs|apply run_nil]].
  destruct (get _ _ _ _) as [[x q2] k2] eqn:Hp. intros [= <- <- <-]. eapply run_step; [exact Hs|by apply get_run].
Qed.

Lemma try_pop_run q k p l o r q' k' :
  try_pop Capacity run_handler q k = (r, q', k') -> spsc_run (mkSpsc q k p CIdle l o) (mkSpsc q' k' p CIdle l (o ++ opt_list r)).
Proof.
  unfold try_pop. destruct (try_wait (items_ q)) as [b s] eqn:Hw. pose proof (ct_try q k p l o b s Hw) as Hs.
  destruct b; [|intros [= <- <- <-]; cbn; rewrite app_nil_r; eapply run_step; [exact Hs|apply run_nil]].
  destruct (get _ _ _ _) as [[x q2] k2] eqn:Hp. intros [= <- <- <-]. eapply run_step; [exact Hs|by apply get_run].
Qed.

(** From [s], each whole operation is a run. *)
Definition whole_operations (s : Spsc) : Prop :=
  let '(mkSpsc q k p c l o) := s in
  (forall x start b q' k', p = PIdle -> is_Some (g_current_tcb_ptr k) -> push Capacity run_handler x start q k = (b, q', k') ->
     spsc_run s (mkSpsc q' k' p c (if b then l ++ [x] else l) o)) /\
  (forall x b q' k', p = PIdle -> try_push Capacity run_handler x q k = (b, q', k') ->
     spsc_run s (mkSpsc q' k' p c (if b then l ++ [x] else l) o)) /\
  (forall start r q' k', c = CIdle -> is_Some (g_current_tcb_ptr k) -> pop Capacity run_handler start q k = (r, q', k') ->
     spsc_run s (mkSpsc q' k' p c l (o ++ opt_list r))) /\
  (forall r q' k', c = CIdle -> try_pop Capacity run_handler q k = (r, q', k') -> spsc_run s (mkSpsc q' k' p c l (o ++ opt_list r))).

Lemma operations_run s : whole_operations s.
Proof.
  destruct s as [q k p c l o]. split; [|split; [|split]].
  - intros x start b q' k' -> Hk E. by eapply push_run.
  - intros x b q' k' -> E. by apply try_push_run.
  - intros start r q' k' -> Hk E. by eapply pop_run.
  - intros r q' k' -> E. by apply try_pop_run.
Qed.

Lemma spsc_init q k :
  0 < Capacity -> Z.of_nat (length (buffer_ q)) = Capacity -> head_ q = tail_ q -> 0 <= tail_ q < Capacity ->
  spsc_inv (tail_ q) (mkSpsc (mq_init Capacity q) k PIdle CIdle [] []).
Proof.
  intros Hc Hb Hh Ht. spsc_fields; [rewrite Z.mod_small by lia; split; [lia|done]..|by exists []].
Qed.

(** C25: With one producer and one consumer, whatever the interleaving of the
    statements of [push]/[try_push] and [pop]/[try_pop], what has been received is
    a prefix of what has been sent: no message is lost, duplicated, reordered or
    overwritten; a consumer returns the message it received; at most [Capacity]
    messages are under way, and between operations the semaphores count exactly
    the messages and the free slots.  The four operations, run without
    interruption, are such runs: a successful push sends its message, a successful
    pop receives what it returns. *)
Theorem message_queue_fifo q k s :
  0 < Capacity -> Z.of_nat (length (buffer_ q)) = Capacity -> head_ q = tail_ q -> 0 <= tail_ q < Capacity ->
  spsc_run (mkSpsc (mq_init Capacity q) k PIdle CIdle [] []) s ->
  exists rest, sent s = got s ++ rest /\ Z.of_nat (length rest) <= Capacity /\
    (forall x, cons_ s = CAdvanced x -> last (got s) = Some x) /\
    (prod s = PIdle -> cons_ s = CIdle ->
       count_ (items_ (queue s)) = Z.of_nat (length rest) /\ count_ (spaces_ (queue s)) = Capacity - Z.of_nat (length rest)) /\
    whole_operations s.
Proof.
  intros Hc Hb Hh Ht Hr. destruct (spsc_run_inv _ _ _ (spsc_init q k Hc Hb Hh Ht) Hr) as [C0 C1 C2 C3 _ _ _ [rest C7] C8].
  exists rest. rewrite C7, length_app in C3. split; [exact C7|]. pose proof (taking_busy (cons_ s)). split; [|split].
  - destruct (prod s); cbn in *; lia.
  - intros x E. by rewrite E in C8.
  - split; [|apply operations_run]. intros Ep Ec. rewrite Ep, Ec in *. cbn in *. lia.
Qed.
End Spsc.

(** A queue of four numbers; one message sent and received. *)
Definition demo_queue : MessageQueue Z := mq_init 4 (mq_ctor 4).
Definition demo_sent := try_push 4 no_handler 7 demo_queue demo.
Definition demo_got := try_pop 4 no_handler demo_sent.1.2 demo_sent.2.

Lemma demo_run : spsc_run 4 no_handler (mkSpsc demo_queue demo PIdle CIdle [] []) (mkSpsc demo_got.1.2 demo_got.2 PIdle CIdle [7] [7]).
Proof.
  assert (E1 : try_push 4 no_handler 7 demo_queue demo = (true, demo_sent.1.2, demo_sent.2)) by (vm_compute; reflexivity).
  assert (E2 : try_pop 4 no_handler demo_sent.1.2 demo_sent.2 = (Some 7, demo_got.1.2, demo_got.2)) by (vm_compute; reflexivity).
  eapply spsc_run_app; [exact (try_push_run 4 no_handler 7 demo_queue demo CIdle [] [] true _ _ E1)|].
  exact (try_pop_run 4 no_handler _ _ PIdle [7] [] (Some 7) _ _ E2).
Qed.

Lemma message_queue_fifo_witness : exists rest, [7] = [7] ++ rest /\ count_ (items_ demo_got.1.2) = Z.of_nat (length rest).
Proof.
  destruct (message_queue_fifo 4 no_handler (mq_ctor 4) demo _ eq_refl eq_refl eq_refl (conj (Z.le_refl 0) eq_refl) demo_run)
    as (rest & H1 & _ & _ & H2 & _).
  exists rest. split; [exact H1|]. exact (proj1 (H2 eq_refl eq_refl)).
Defined.

(** A queue that is constructed but not initialised has no free slot: every
    [try_push] is refused and every [push] blocks. *)
Theorem uninitialised_queue_accepts_nothing {T : Type} `{!Inhabited T} (Capacity : Z) rh (x : T) start k :
  (try_push Capacity rh x (mq_ctor Capacity) k).1.1 = false /\
  (is_Some (g_current_tcb_ptr k) -> (push Capacity rh x start (mq_ctor Capacity) k).1.1 = false).
Proof.
  split; [done|]. intros [c Hc]. unfold push, sem_wait, sem_wait_pass. rewrite Hc. done.
Qed.

(** Two producers that both read the tail before either advances it: the first
    message is overwritten and a slot that was never written is received. *)
Theorem two_producers_lose_message :
  let q := set_spaces_ (mkSemaphore 2 0) demo_queue in
  let q := set_tail_ (next_index 4 0) (mq_store 0 9 (set_tail_ (next_index 4 0) (mq_store 0 7 q))) in
  let '(q, k) := signal_items no_handler q demo in
  let '(q, k) := signal_items no_handler q k in
  let '(x, q, k) := try_pop 4 no_handler q k in
  let '(y, q, k) := try_pop 4 no_handler q k in
  x = Some 9 /\ y = Some inhabitant.
Proof. vm_compute. done. Qed.

(** [init] leaves the indices alone: a queue that is initialised again while a
    message waits delivers the old message instead of the new one. *)
Theorem reinit_delivers_stale_message :
  let '(b, q, k) := try_push 4 no_handler 7 demo_queue demo in
  let '(b, q, k) := try_push 4 no_handler 9 (mq_init 4 q) k in
  (try_pop 4 no_handler q k).1.1 = Some 7.
Proof. vm_compute. done. Qed.

(** * Work queues *)

Section Work.
Context (run_handler : Z -> Z -> Kernel -> Kernel).

(** [due] counts the interrupts between storing an item and signalling; [busy]
    tells that the worker came back from [wait]. *)
Record Work := mkWork { work : WorkQueue; wkern : Kernel; due : nat; busy : bool; accepted : list WorkItem; executed : list WorkItem }.

Inductive work_step : Work -> Work -> Prop :=
| ws_submit w k d b l o cb a r w' :
    work_enqueue cb a w = (r, w') ->
    work_step (mkWork w k d b l o) (mkWork w' k (if r then S d else d) b (if r then l ++ [mkWorkItem cb a] else l) o)
| ws_signal w k d b l o s k' :
    sem_signal run_handler (work_items w) k = (s, k') -> work_step (mkWork w k (S d) b l o) (mkWork (set_work_items s w) k' d b l o)
| ws_wait w k d l o start r s k' :
    is_Some (g_current_tcb_ptr k) -> sem_wait run_handler FOREVER start (work_items w) k = (r, s, k') ->
    work_step (mkWork w k d false l o) (mkWork (set_work_items s w) k' d (returned r) l o)
| ws_take w k d l o x w' k' :
    work_dequeue w = (x, w') -> work_step (mkWork w k d true l o) (mkWork w' k' d false l (o ++ [x]))
| ws_other w k k' d b l o : work_step (mkWork w k d b l o) (mkWork w k' d b l o).

Record work_inv (s : Work) : Prop := {
  wi_buf : length (work_buffer (work s)) = 16%nat;
  wi_items : 0 <= count_ (work_items (work s)) /\ work_count (work s) <= 16;
  wi_tokens : count_ (work_items (work s)) + Z.of_nat (due s) + one (busy s) = work_count (work s);
  wi_count : exists rest, accepted s = executed s ++ rest /\ Z.of_nat (length rest) = work_count (work s);
  wi_head : work_head (work s) = Z.of_nat (length (executed s)) mod 16;
  wi_tail : work_tail (work s) = Z.of_nat (length (accepted s)) mod 16;
  wi_ring : ring_holds 16 0 (work_buffer (work s)) (accepted s) (length (executed s));
}.

Ltac work_fields := split; cbn [work wkern due busy accepted executed] in *; cbn in *; try done; try lia.

Lemma work_submit_inv w k d b l o cb a r w' :
  work_inv (mkWork w k d b l o) -> work_enqueue cb a w = (r, w') ->
  work_inv (mkWork w' k (if r then S d else d) b (if r then l ++ [mkWorkItem cb a] else l) o).
Proof.
  intros [C1 C2 C3 (rest & C4 & C5) C6 C7 C8] E. cbn [work due busy accepted executed] in *. unfold work_enqueue, CAPACITY in E.
  destruct (Z.ltb_spec (work_count w) 16); injection E as <- <-; [|by work_fields; exists rest].
  assert (Hlen : Z.of_nat (length l) - Z.of_nat (length o) = work_count w) by (rewrite C4, length_app; lia).
  work_fields.
  - by rewrite length_zalter.
  - exists (rest ++ [mkWorkItem cb a]). rewrite C4, app_assoc, length_app. cbn. split; [done|lia].
  - rewrite C7, length_app. cbn. rewrite Zplus_mod_idemp_l. f_equal. lia.
  - rewrite C7. apply (ring_holds_store 16 0); try lia. done.
Qed.

Lemma work_take_inv w k d l o x w' k' :
  work_inv (mkWork w k d true l o) -> work_dequeue w = (x, w') -> work_inv (mkWork w' k' d false l (o ++ [x])).
Proof.
  intros [C1 C2 C3 (rest & C4 & C5) C6 C7 C8] E. cbn [work due busy accepted executed one] in *. unfold work_dequeue, CAPACITY in E.
  destruct rest as [|y rest]; [cbn in C5; lia|]. injection E as Ex <-.
  assert (x = y) as ->.
  { rewrite <- Ex, C6. apply (C8 (length o)); [done|]. rewrite C4, lookup_app_r, Nat.sub_diag by done. done. }
  work_fields.
  - exists rest. rewrite <- app_assoc. split; [done|lia].
  - rewrite C6, length_app. cbn. rewrite Zplus_mod_idemp_l. f_equal. lia.
  - eapply ring_holds_mono; [exact C8|]. rewrite length_app. lia.
Qed.

Lemma work_step_inv s s' : work_inv s -> work_step s s' -> work_inv s'.
Proof.
  intros Hi Hs. destruct Hs as [w k d b l o cb a r w' E|w k d b l o s1 k' E|w k d l o start r s1 k' Hk E|w k d l o x w' k' E|w k k' d b l o].
  - by eapply work_submit_inv.
  - destruct Hi as [C1 C2 C3 C4 C5 C6 C7]. pose proof (sem_signal_count run_handler (work_items w) k) as Hc. rewrite E in Hc. work_fields.
  - destruct Hi as [C1 C2 C3 C4 C5 C6 C7]. destruct (wait_tokens _ _ _ _ _ _ _ Hk E ltac:(apply C2)). work_fields.
  - by eapply work_take_inv.
  - destruct Hi. by split.
Qed.

Inductive work_run : Work -> Work -> Prop :=
| wr_nil s : work_run s s
| wr_step s s1 s2 : work_step s s1 -> work_run s1 s2 -> work_run s s2.

Lemma work_run_inv s s' : work_inv s -> work_run s s' -> work_inv s'.
Proof. intros Hi Hr. induction Hr as [|s s1 s2 Hs _ IH]; [done|]. apply IH. by eapply work_step_inv. Qed.

Lemma work_init k : work_inv (mkWork work_ctor k 0 false [] []).
Proof. work_fields. by exists []. Qed.

(** A whole submission and a whole round of the worker are runs. *)
Lemma submit_run cb a w k d b l o r w' k' :
  submit_from_isr run_handler cb a w k = (r, w', k') ->
  work_run (mkWork w k d b l o) (mkWork w' k' d b (if r then l ++ [mkWorkItem cb a] else l) o).
Proof.
  unfold submit_from_isr. destruct (work_enqueue cb a w) as [ok w1] eqn:E. pose proof (ws_submit w k d b l o cb a ok w1 E) as Hs.
  destruct ok; [|intros [= <- <- <-]; eapply wr_step; [exact Hs|apply wr_nil]].
  destruct (sem_signal run_handler (work_items w1) k) as [s1 k1] eqn:Eg. intros [= <- <- <-].
  eapply wr_step; [exact Hs|]. eapply wr_step; [by apply ws_signal|apply wr_nil].
Qed.

Lemma worker_run call_back start w k d l o r w' k' :
  is_Some (g_current_tcb_ptr k) -> worker_round run_handler call_back start w k = (r, w', k') ->
  exists x, work_run (mkWork w k d false l o) (mkWork w' k' d false l (if r then o ++ [x] else o)).
Proof.
  intros Hk. unfold worker_round. destruct (sem_wait _ _ _ _ _) as [[b s1] k1] eqn:Hw. pose proof (ws_wait w k d l o start b s1 k1 Hk Hw) as Hs.
  destruct b as [b|]; [|intros [= <- <- <-]; exists inhabitant; eapply wr_step; [exact Hs|apply wr_nil]].
  destruct (work_dequeue (set_work_items s1 w)) as [x w1] eqn:E. intros [= <- <- <-]. exists x.
  eapply wr_step; [exact Hs|]. eapply wr_step; [by apply ws_take|apply wr_nil].
Qed.

(** Items submitted from interrupts at any point are executed by the worker
    in the order of submission, each once: the executed items are a prefix of the
    accepted ones, at most 16 wait, the worker never takes from an empty queue,
    and when no interrupt is about to signal and the worker finds no token,
    nothing is left behind (no lost wake-up).  A whole [submit_from_isr] is such
    a run that accepts its item exactly when it reports success, and a whole
    round of [worker_task] is one that executes an item unless it blocks. *)
Theorem work_queue_fifo k s :
  work_run (mkWork work_ctor k 0 false [] []) s ->
  exists rest, accepted s = executed s ++ rest /\ Z.of_nat (length rest) = work_count (work s) /\ work_count (work s) <= CAPACITY /\
    (busy s = true -> rest <> []) /\
    (due s = O -> busy s = false -> count_ (work_items (work s)) = 0 -> accepted s = executed s) /\
    (forall cb a r w' k', submit_from_isr run_handler cb a (work s) (wkern s) = (r, w', k') ->
       work_run s (mkWork w' k' (due s) (busy s) (if r then accepted s ++ [mkWorkItem cb a] else accepted s) (executed s))) /\
    (forall call_back start r w' k', busy s = false -> is_Some (g_current_tcb_ptr (wkern s)) ->
       worker_round run_handler call_back start (work s) (wkern s) = (r, w', k') ->
       exists x, work_run s (mkWork w' k' (due s) false (accepted s) (if r then executed s ++ [x] else executed s))).
Proof.
  intros Hr. destruct (work_run_inv _ _ (work_init k) Hr) as [C1 C2 C3 (rest & C4 & C5) _ _ _].
  exists rest. split; [done|]. split; [done|]. split; [apply C2|]. split; [|split; [|destruct s as [w k1 d b l o]; split]].
  - intros Hb ->. rewrite Hb in C3. cbn in *. lia.
  - intros Hd Hb H0. rewrite Hd, Hb, H0 in C3. destruct rest; [by rewrite app_nil_r in C4|cbn in *; lia].
  - intros cb a r w' k' E. by apply submit_run.
  - intros call_back start r w' k' Hb Hk E. cbn in Hb. subst b. by eapply worker_run.
Qed.

(** [submit_from_isr] refuses exactly when 16 items wait. *)
Lemma submit_refused s cb a : work_inv s -> (work_enqueue cb a (work s)).1 = false <-> work_count (work s) = CAPACITY.
Proof. intros [_ [_ C2] _ _ _ _ _]. unfold work_enqueue, CAPACITY in *. destruct (Z.ltb_spec (work_count (work s)) 16); cbn; split; (done || lia). Qed.
End Work.

